(* ===== verification/_CoqProject ===== *)
-Q . S2P
Prelude.v
Types.v
Accounts.v
Bytes.v
OnChain.v
StateResolver.v
TrackerSpec.v
Inspector.v
Numbers.v
JsText.v
Policies.v
Formatting.v
Tokens.v
Ledger.v
Shield.v
ShieldSpec.v
CoreEngine.v
Hooks.v
AltLoader.v
Pdas.v
OwnerChain.v
Composer.v
RpcHelpers.v
TeeCache.v
X402.v
X402Fetch.v
X402Spec.v
X402FlowSpec.v
Seal.v
ChainAuth.v
SealSpec.v
ErrorTables.v
AgentErrors.v
AnchorErrors.v
Simulation.v
Executor.v
ExecutorSpec.v
Velocity.v
PostAssertions.v
PostAssertionsSpec.v
Analytics.v
AnalyticsSpec.v
EventLayouts.v
Events.v
EventsSpec.v
DashboardViews.v
Dashboard.v
DashboardSpec.v
Codecs.v
Instructions.v
InstructionTable.v
ProgramAccounts.v
AccountLayouts.v
InstructionSpec.v
OwnerSpec.v
Presets.v
CreateVault.v
CreateVaultSpec.v
ConstraintChain.v
Discovery.v
Mutations.v
MutationsSpec.v
VaultAnalytics.v
VaultAnalyticsSpec.v
AdvancedAnalytics.v
Client.v
Facade.v
Bootstrap.v
ClientSpec.v
Idl.v
IdlInstructions.v
IdlTypes.v
IdlSpec.v
ErrorChains.v
ErrorChainsSpec.v
TeeAttestation.v
TeeSpec.v
Fees.v
Custody.v
Sak.v
