(* ===== verification/Prelude.v ===== *)
(** * Sigil kit: verification development

    A model of the Sigil TypeScript SDK ([sdk/kit/src]), with the parts of the Solana
    program ([programs/sigil/src]) that it mirrors or submits to, and the theorems that
    make the two agree. Sigil lets an owner give an AI agent a vault with spending limits:
    the program enforces them on chain; the SDK resolves the vault's state, checks a
    transaction before it is signed, wraps it between the program's
    [validate_and_authorize] and [finalize_session], and tracks spending client-side.

    ** How to read it

    TypeScript functions are Rocq functions; a function that throws returns [res E A]
    ([Ok] or [Throw]); mutable objects are records passed and returned; [Date.now()], RPC
    answers, consumer callbacks and third-party libraries are arguments. An error is its
    code and context; messages are kept only where the code compares or returns them.
    [bigint] is [Z]; [number] is [Z] where the code only uses it as an integer, and
    binary64 (Numbers) where rounding can be observed. Addresses are base58 strings.
    Definitions carry the source's names; a loop body or a part of a long function has a
    name of its own. External code appears as a type class with its documented laws in a
    second class ([ResolverEnv]/[AddressLaws], [PdaEnv]/[PdaLaws], [TxLib]/[TxLibLaws]),
    and each is instantiated by a concrete function in a witness.

    ** The files, by subject

    Foundations.
    - Prelude: [res] and its loops, sums, stable sort, JavaScript's [Map], the [kit] hint
      database.
    - Types, Accounts, Bytes, Numbers, JsText: constants, networks, errors ([types.ts]);
      decoded accounts with their well-formedness ([generated/accounts]); little-endian
      codecs with their round trip; double arithmetic with its error bound; the language's
      string and integer conversions and base64.

    Vault state and budgets.
    - OnChain: the program's spend tracker, counters, overlay and fee computation
      ([state/tracker.rs], [state/agent_spend_overlay.rs], [state/mod.rs]), integer widths
      and saturation written out. It is the reference, not the subject.
    - StateResolver and Discovery ([state-resolver.ts]): the SDK's mirrors of those
      computations, the budgets, the resolvers, and the discovery of vaults, escrows and
      sessions. Theorems: each mirror equals the program's on every well-formed account and
      clock; budgets are sound; discovery returns only verified vaults and exactly the
      vault's escrows and sessions; spending history is the window's buckets in order.
    - TrackerSpec: an abstract ledger of timed spends, refined by [record_spend] and
      [getRolling24hUsd]: the exact rolling sum up to the bounded error of the one bucket
      that straddles the window's edge, and a concrete under-count.

    Client-side enforcement.
    - Inspector ([inspector.ts]): what is read out of raw instructions and constraints.
    - Policies ([policies.ts], [core/policies.ts], [core/registry.ts]): limits and their
      parser, resolved policies, and the kit's resolution as the core's. Formatting
      ([formatting.ts]) and Tokens ([tokens.ts]): display numbers, symbols and amounts.
    - Ledger: the interface ([SpendLedger], [LedgerLaws]) of a windowed spend store, with
      the limit theorems proved once against it. Shield and CoreEngine implement it.
    - Shield ([shield.ts]) and ShieldSpec: the client-side enforcement state, policy
      evaluation, the shield object, and the pre-sign gate of the shielded signer with its
      lookup-table extraction, velocity ceiling, simulation and session binding. Theorems:
      over whole sessions, spend, rate and on-chain caps hold; check and enforce agree;
      every signed transaction passed the gate; the extracted account table is the
      runtime's when every table is cached, and shifted when one is not.
    - CoreEngine ([core/engine.ts], [core/state.ts]): the older policy engine, over a store
      of arrays because its checkpoints alias.
    - Velocity ([velocity-tracker.ts]): rapid-fire and cooldown limits over sessions.

    Transactions.
    - Hooks ([hooks.ts], [plugin.ts]), AltLoader ([alt-loader.ts], [alt-config.ts]), Pdas
      ([resolve-accounts.ts], [tokens.ts]), Composer ([composer.ts], [priority-fees.ts],
      [protocol-resolver.ts]), RpcHelpers ([rpc-helpers.ts]): the pieces [seal()] and the
      senders are built from. The polling loop and its termination are proved once in
      RpcHelpers.
    - Seal ([seal.ts] and the two generated instruction builders) with ChainAuth
      ([validate_and_authorize.rs], [finalize_session.rs]) and SealSpec: the whole of
      [seal()], both of the program's handlers, and the theorems between them: run on the
      sealed transaction's own instruction, [process_validate] succeeds given what the SDK
      does not test ([left_to_program]); the headroom test covers the program's rolling
      cap and leaves the agent's and the protocol's caps ([residual_refusals]); the
      transaction authorises what was asked and moves an account only as [redirected]
      says; it passes the shielded signer's session binding; hooks only observe; and, on
      a vault with post-execution assertions, its finalize is refused
      ([assertions_refuse_bare_finalize]).
    - AnchorErrors and Simulation ([simulation.ts]): what a failed simulation reports for
      each of the program's errors, the drain flags and their blind spots.
    - Executor ([transaction-executor.ts], [owner-transaction.ts]) and ExecutorSpec: only a
      checked sandwich reaches the signer, at most once; a full drain stops before signing;
      a transaction whose checks pass is sent and confirmed.
    - PostAssertions ([post-assertions], [dashboard/post-assertion-validation.ts]) and
      PostAssertionsSpec, against the program's [post_assertions.rs].
    - Fees ([priority-fees.ts], [protocol-tier.ts], [protocol-registry]): estimates stay
      within the configured maximum over sessions; a tier follows the registry.

    Payments.
    - X402, X402Fetch ([x402/]), X402Spec, X402FlowSpec: the guards, the replay tracker, the
      settlement checks and the 17-step flow with the effects it performs. Theorems: what is
      paid is what every guard authorised; nothing is paid twice within the replay window;
      cumulative limits hold over sessions, for windows of at most 24 hours.

    Attestation and custody.
    - TeeCache, TeeAttestation ([tee/]), TeeSpec: the cache, the dispatcher, the managed
      providers and Turnkey's boot and app proofs; sessions fail closed, a verified wallet
      presented a chained document, and what that document does not bind.
    - Custody ([sdk/custody/src], [sdk/platform/src]): the three REST adapters, the
      provisioning client and its wait.
    - Sak ([packages/plugins/src/sak]): the agent-kit plugin. What its swap executes is what
      was quoted; through its custody bridge nothing can be sent.

    Errors.
    - ErrorTables, AgentErrors ([agent-errors.ts], [dashboard/errors.ts],
      [generated/errors/sigil.ts]): the tables as data, and the conversions from a thrown
      value; an error is classified by the program's code and named as the program names it.
    - ErrorChains, ErrorChainsSpec ([network-errors.ts], [errors/walk.ts], [errors/base.ts],
      [compose-errors.ts]): the guarded readers of objects whose properties may throw; the
      transport classifier against a specification of its own and against its documentation.

    Reports.
    - Analytics, AnalyticsSpec, VaultAnalytics, VaultAnalyticsSpec, AdvancedAnalytics: the
      figures, checks and alerts over resolved state, portfolios and decoded events. An
      agent's history and rolling spend refine the ledger of its contributions.
    - EventLayouts, Events, EventsSpec: the program's events in transaction logs, the
      activity feed and the audit trail.
    - DashboardViews, Dashboard, DashboardSpec: the dashboard's records, their JSON round
      trip, and its reads.

    The program's interface.
    - Codecs, Instructions, InstructionTable, ProgramAccounts, AccountLayouts,
      InstructionSpec: the generated client as one scheme over a table of the 36
      instructions. Parsing inverts building; the client's instructions, accounts and
      layouts are the program's.
    - Idl, IdlInstructions, IdlTypes, IdlSpec ([target/types/sigil.ts]): the interface
      description as data, and that every built instruction conforms to it.
    - OwnerChain, OwnerSpec ([programs/sigil/src/instructions]): the owner's instructions as
      a state machine, its invariant, and the timelock.

    The owner's and the agent's side.
    - Presets, CreateVault, CreateVaultSpec ([helpers/], [presets.ts], [inscribe.ts],
      [create-vault.ts], [preview-create-vault.ts]); ConstraintChain
      ([dashboard/constraint-builders.ts] against [extend_pda.rs] and its neighbours);
      Mutations, MutationsSpec ([dashboard/mutations.ts]).
    - Client ([seal.ts], its second half), Facade ([sigil.ts], [vault-handle.ts]), Bootstrap
      ([agent-bootstrap.ts]), ClientSpec: the client object with its caches, the genesis
      assertion, quickstart and the handle, the handoff prompt.

    ** How the parts meet

    One composition per boundary is proved: the resolver's budgets against the program's
    counters, [seal()]'s output against the program's scans and against the shielded
    signer, the executor and the client around [seal()] and the confirmation loop, the
    dashboard's validator and builders against the program's handlers, and the generated
    client against both the program's declarations and its IDL.

    ** Bounds and fuel

    Loops over lists are folds or structural recursion. Loops bounded by a constant take it
    as an argument: [agent_loop] runs [OVERLAY_NUM_EPOCHS] times, the genesis assertion
    tries three times, the cause walks visit 16 and 32 objects, a base58 address has at most
    44 digits ([base58_digits]), and [idl_codec] unfolds eight levels of named types, of
    which the interface uses fewer (IdlSpec computes every type). [evict] gets the size of
    the map, and [evict_drop] shows that it always reaches the loop's exit; [extend_loop]
    and [pieces_from] get the length that is left and shrink it. The polls ([poll_loop] and
    its users in RpcHelpers, X402Fetch and Executor, [wait_loop] in Custody) stop at a
    deadline of a clock that the sleeps advance: [sendAndConfirm_terminates] and
    [waitForProvision_terminates] give the number of rounds that is always enough, and
    more fuel does not change the result. The classifier of transport failures walks with a
    stack and is shown to answer for every heap. Theorems about the mirrors assume the
    integer ranges of the account types ([tracker_wf], [contribution_wf], an [i64] clock)
    and nothing smaller.

    ** What is not modelled

    Code outside the repository: the Solana library's compiler, codecs, base58 and program
    addresses, JSON text, URL parsing, [Intl] and [Date] formatting, CBOR, X.509 and
    signature checks, and the RPC, HTTP and signing services. They are arguments, with the
    documented laws a theorem needs. Of the repository: log output ([logger.ts]) and the
    texts of messages nobody reads back; type-only files and re-exports; doc strings of the
    generated files and the client plugin object they export; the React hooks, which forward
    to reads modelled here; test utilities, scripts and examples. Of the program's Rust,
    which is here only as the reference for the SDK, the handlers for escrow, deposits,
    withdrawals and session accounts, and the account loading and event emission of the
    others. *)

From stdpp Require Export prelude gmap strings pretty sorting.
From Stdlib Require Export ZArith Lia.

#[export] Set Default Goal Selector "!".
#[export] Unset Mangle Names.

Declare Scope kit_scope.
Delimit Scope kit_scope with kit.

(** ** Errors as values

    A TypeScript function that may throw is a function into [res E A]. *)
Inductive res (E A : Type) : Type :=
  | Ok (a : A)
  | Throw (e : E).
Arguments Ok {E A} _.
Arguments Throw {E A} _.

#[export] Instance res_ret E : MRet (res E) := fun _ a => Ok a.
#[export] Instance res_bind E : MBind (res E) := fun _ _ f m =>
  match m with Ok a => f a | Throw e => Throw e end.
#[export] Instance res_fmap E : FMap (res E) := fun _ _ f m =>
  match m with Ok a => Ok (f a) | Throw e => Throw e end.
#[export] Instance res_eq_dec {E A} `{EqDecision E, EqDecision A} :
  EqDecision (res E A).
Proof. solve_decision. Defined.

(** [if (c) throw e;] *)
Definition throw_if {E} (c : bool) (e : E) : res E unit :=
  if c then Throw e else Ok tt.

(** [for (const x of l) f(x);] where [f] may throw. *)
Fixpoint for_each {E A} (f : A -> res E unit) (l : list A) : res E unit :=
  match l with
  | [] => Ok tt
  | x :: l' => f x ;; for_each f l'
  end.

(** The same loop with the index, as [l.forEach((x, i) => ...)]. *)
Fixpoint for_each_from {E A} (i : nat) (f : nat -> A -> res E unit) (l : list A)
    : res E unit :=
  match l with
  | [] => Ok tt
  | x :: l' => f i x ;; for_each_from (S i) f l'
  end.

(** [l.map(f)], stopping at the first failure. *)
Fixpoint map_res {E A B} (f : A -> res E B) (l : list A) : res E (list B) :=
  match l with
  | [] => Ok []
  | x :: l' => y ← f x; ys ← map_res f l'; Ok (y :: ys)
  end.

Definition is_ok {E A} (r : res E A) : bool :=
  match r with Ok _ => true | Throw _ => false end.

Section res_lemmas.
Context {E A B : Type}.
Implicit Types (e : E) (m : res E A).

Lemma bind_ok (f : A -> res E B) a : Ok a ≫= f = f a.
Proof. done. Qed.

Lemma bind_ok_inv (f : A -> res E B) m b :
  m ≫= f = Ok b -> exists a, m = Ok a /\ f a = Ok b.
Proof. destruct m; simpl; [eauto | discriminate]. Qed.

Lemma bind_ext (f g : A -> res E B) m : (forall a, f a = g a) -> m ≫= f = m ≫= g.
Proof. intros H. destruct m; simpl; auto. Qed.

Lemma is_ok_ex m : is_ok m = true -> exists a, m = Ok a.
Proof. destruct m; simpl; [eauto|discriminate]. Qed.

Lemma fmap_ok_inv (f : A -> B) m b : f <$> m = Ok b -> exists a, m = Ok a /\ f a = b.
Proof. destruct m; simpl; [intros [= <-]; eauto|discriminate]. Qed.

Lemma throw_if_false c e : c = false -> throw_if c e = Ok tt.
Proof. by intros ->. Qed.

Lemma throw_if_ok_inv c e : throw_if c e = Ok tt <-> c = false.
Proof. destruct c; simpl; split; congruence. Qed.

Lemma throw_if_throw_inv c e e' :
  throw_if c e = Throw e' <-> c = true /\ e' = e.
Proof. destruct c; simpl; naive_solver. Qed.

Lemma for_each_ok (f : A -> res E unit) l :
  for_each f l = Ok tt <-> Forall (fun x => f x = Ok tt) l.
Proof.
  induction l as [|x l IH]; simpl; [done|].
  rewrite Forall_cons, <- IH. destruct (f x) as [[]|e]; simpl; naive_solver.
Qed.

Lemma for_each_from_ok i (f : nat -> A -> res E unit) l :
  for_each_from i f l = Ok tt <->
  forall j x, l !! j = Some x -> f (i + j) x = Ok tt.
Proof.
  revert i. induction l as [|x l IH]; intros i; simpl; [done|]. split.
  - destruct (f i x) as [[]|] eqn:Hf; simpl; [|discriminate].
    intros H [|j] y; simpl.
    + intros [= <-]. by rewrite Nat.add_0_r.
    + intros Hj. rewrite Nat.add_succ_r. by apply (proj1 (IH (S i)) H j).
  - intros H. pose proof (H 0 x eq_refl) as H0.
    rewrite Nat.add_0_r in H0. rewrite H0. simpl. apply IH.
    intros j y Hj. change (S i + j) with (S (i + j)).
    rewrite <- Nat.add_succ_r. by apply (H (S j)).
Qed.

(** The loop stops at the first element that throws. *)
Lemma for_each_throw (f : A -> res E unit) l e :
  for_each f l = Throw e <->
  exists l1 x l2, l = l1 ++ x :: l2 /\ Forall (fun y => f y = Ok tt) l1 /\ f x = Throw e.
Proof.
  induction l as [|x l IH]; simpl.
  - split; [discriminate|]. intros (l1 & x & l2 & H & _). by destruct l1.
  - destruct (f x) as [[]|e'] eqn:Hf; simpl.
    + rewrite IH. split.
      * intros (l1 & y & l2 & -> & HF & Hy).
        exists (x :: l1), y, l2. split_and!; [done|by constructor|done].
      * intros (l1 & y & l2 & H & HF & Hy). destruct l1 as [|z l1]; simplify_eq/=; [congruence|].
        apply Forall_cons in HF as [_ HF]. naive_solver.
    + split.
      * intros [= ->]. exists [], x, l. by split_and!.
      * intros (l1 & y & l2 & H & HF & Hy). destruct l1 as [|z l1]; simplify_eq/=; [congruence|].
        apply Forall_cons in HF as [Hz _]. congruence.
Qed.
End res_lemmas.

Lemma map_res_forall {E A B} (f : A -> res E B) l ys (P : B -> A -> Prop) :
  map_res f l = Ok ys -> (forall x y, f x = Ok y -> P y x) -> Forall2 P ys l.
Proof.
  intros H HP. revert ys H. induction l as [|x l IH]; intros ys H; cbn in H.
  - injection H as <-. constructor.
  - apply bind_ok_inv in H as (y & Hy & H). apply bind_ok_inv in H as (ys' & Hys & H).
    injection H as <-. constructor; auto.
Qed.

(** Invert a chain of binds in a hypothesis that ends in [Ok]. *)
Ltac inv_bind H :=
  repeat match type of H with
  | mbind _ _ = Ok _ =>
      let a := fresh "a" in let Ha := fresh "Hok" in
      apply bind_ok_inv in H as (a & Ha & H);
      try (destruct a; apply throw_if_ok_inv in Ha)
  end.

(** ** Sums

    [l.reduce((s, x) => s + f(x), 0n)] and the [for] loops that add up a field. *)
Definition sum_of {A} (f : A -> Z) (l : list A) : Z :=
  fold_left (fun s x => (s + f x)%Z) l 0%Z.

#[global] Arguments sum_of {A} f l : simpl never.

Section sums.
Context {A : Type}.
Implicit Types (f g : A -> Z) (l : list A).
Local Open Scope Z_scope.

Lemma fold_left_add f l z :
  fold_left (fun s x => s + f x) l z = z + sum_of f l.
Proof.
  unfold sum_of. revert z. induction l as [|x l IH]; intros z; cbn [fold_left]; [lia|].
  rewrite (IH (z + f x)), (IH (0 + f x)). lia.
Qed.

Lemma sum_of_nil f : sum_of f [] = 0.
Proof. done. Qed.

Lemma sum_of_cons f x l : sum_of f (x :: l) = f x + sum_of f l.
Proof. unfold sum_of at 1. cbn [fold_left]. rewrite fold_left_add. lia. Qed.

Lemma sum_of_app f l1 l2 : sum_of f (l1 ++ l2) = sum_of f l1 + sum_of f l2.
Proof.
  induction l1 as [|x l1 IH]; simpl; [done|].
  rewrite !sum_of_cons, IH. lia.
Qed.

Lemma sum_of_nonneg f l : (forall x, x ∈ l -> 0 <= f x) -> 0 <= sum_of f l.
Proof.
  induction l as [|x l IH]; intros H; [done|]. rewrite sum_of_cons.
  assert (0 <= f x) by (apply H; set_solver).
  assert (0 <= sum_of f l) by (apply IH; set_solver). lia.
Qed.

Lemma sum_of_le f g l : (forall x, x ∈ l -> f x <= g x) -> sum_of f l <= sum_of g l.
Proof.
  induction l as [|x l IH]; intros H; [done|]. rewrite !sum_of_cons.
  assert (f x <= g x) by (apply H; set_solver).
  assert (sum_of f l <= sum_of g l) by (apply IH; set_solver). lia.
Qed.

Lemma sum_of_ext f g l : (forall x, x ∈ l -> f x = g x) -> sum_of f l = sum_of g l.
Proof.
  induction l as [|x l IH]; intros H; [done|]. rewrite !sum_of_cons.
  rewrite (H x), IH; set_solver.
Qed.

Lemma sum_of_filter f (P : A -> Prop) `{forall x, Decision (P x)} l :
  sum_of f (filter P l) = sum_of (fun x => if decide (P x) then f x else 0) l.
Proof.
  induction l as [|x l IH]; [done|].
  rewrite filter_cons, sum_of_cons. case_decide; [rewrite sum_of_cons|]; lia.
Qed.

Lemma sum_of_perm f l1 l2 : l1 ≡ₚ l2 -> sum_of f l1 = sum_of f l2.
Proof.
  induction 1 as [|x l1 l2 _ IH|x y l|l1 l2 l3 _ IH1 _ IH2];
    rewrite ?sum_of_cons; try lia; done.
Qed.

Lemma sum_of_zero f l : (forall x, x ∈ l -> f x = 0) -> sum_of f l = 0.
Proof.
  induction l as [|x l IH]; intros H; [done|]. rewrite sum_of_cons.
  rewrite (H x), IH; set_solver.
Qed.

Lemma sum_of_elem f l x :
  (forall y, y ∈ l -> 0 <= f y) -> x ∈ l -> f x <= sum_of f l.
Proof.
  induction l as [|y l IH]; intros H Hx; [set_solver|]. rewrite sum_of_cons.
  assert (0 <= f y) by (apply H; set_solver).
  assert (0 <= sum_of f l) by (apply sum_of_nonneg; set_solver).
  apply elem_of_cons in Hx as [->|Hx]; [lia|].
  assert (f x <= sum_of f l) by (apply IH; set_solver). lia.
Qed.
End sums.

Lemma sum_of_fmap {A B} (g : A -> B) (f : B -> Z) l :
  sum_of f (g <$> l) = sum_of (f ∘ g) l.
Proof.
  induction l as [|x l IH]; [done|]. rewrite fmap_cons, !sum_of_cons, IH. done.
Qed.

(** ** [Array.prototype.find] *)
Fixpoint find_by {A} (p : A -> bool) (l : list A) : option A :=
  match l with
  | [] => None
  | x :: l' => if p x then Some x else find_by p l'
  end.

Lemma find_by_some {A} (p : A -> bool) l x : find_by p l = Some x -> x ∈ l /\ p x = true.
Proof.
  induction l as [|y l IH]; simpl; [done|].
  destruct (p y) eqn:Hy; [intros [= ->]; split; [left|done]|].
  intros [??]%IH. split; [by right|done].
Qed.

Lemma find_by_none {A} (p : A -> bool) l : find_by p l = None <-> Forall (fun x => p x = false) l.
Proof.
  induction l as [|y l IH]; simpl; [done|]. rewrite Forall_cons, <- IH.
  destruct (p y); naive_solver.
Qed.

(** ** [Array.prototype.sort] with a numeric key

    The engine's sort is stable; insertion sort is a stable reference for it. *)
Section sort_by.
Context {A : Type} (f : A -> Z).
Implicit Types (l : list A) (x y : A).

Fixpoint insert_by x l : list A :=
  match l with
  | [] => [x]
  | y :: l' => if (f x <=? f y)%Z then x :: l else y :: insert_by x l'
  end.

Definition sort_by l : list A := foldr insert_by [] l.

Lemma insert_by_perm x l : insert_by x l ≡ₚ x :: l.
Proof.
  induction l as [|y l IH]; simpl; [done|]. destruct (_ <=? _)%Z; [done|].
  rewrite IH. constructor.
Qed.

Lemma sort_by_perm l : sort_by l ≡ₚ l.
Proof.
  induction l as [|x l IH]; simpl; [done|]. by rewrite insert_by_perm, IH.
Qed.

Lemma insert_by_sorted x l :
  StronglySorted (fun a b => f a <= f b)%Z l ->
  StronglySorted (fun a b => f a <= f b)%Z (insert_by x l).
Proof.
  induction 1 as [|y l Hl IH Hy]; simpl; [by repeat constructor|].
  destruct (Z.leb_spec (f x) (f y)).
  - constructor; [by constructor|]. constructor; [done|].
    eapply Forall_impl; [done|]. simpl. lia.
  - constructor; [done|]. rewrite insert_by_perm. constructor; [lia|done].
Qed.

Lemma sort_by_sorted l : StronglySorted (fun a b => f a <= f b)%Z (sort_by l).
Proof.
  induction l as [|x l IH]; simpl; [constructor|]. by apply insert_by_sorted.
Qed.

Lemma insert_by_filter k x l :
  filter (fun y => f y = k) (insert_by x l) = filter (fun y => f y = k) (x :: l).
Proof.
  induction l as [|y l IH]; simpl; [done|].
  destruct (Z.leb_spec (f x) (f y)); [done|].
  rewrite (filter_cons _ y), IH, !filter_cons.
  destruct (decide (f y = k)), (decide (f x = k)); try done. lia.
Qed.

(** Elements with equal keys keep their order. *)
Lemma sort_by_stable k l :
  filter (fun y => f y = k) (sort_by l) = filter (fun y => f y = k) l.
Proof.
  induction l as [|x l IH]; simpl; [done|].
  rewrite insert_by_filter, !filter_cons, IH. done.
Qed.
End sort_by.

(** ** JavaScript's [Map]: insertion-ordered, with string keys

    [set] on a present key keeps its place, on a fresh key appends; [keys().next()]
    is the head. *)
Abbreviation jsmap V := (list (string * V)).

Section jsmap.
Context {V : Type}.
Implicit Types (m : jsmap V) (k : string) (v : V).

Fixpoint jm_get (k : string) (m : jsmap V) : option V :=
  match m with
  | [] => None
  | (k', v) :: m' => if decide (k = k') then Some v else jm_get k m'
  end.

Fixpoint jm_set (k : string) (v : V) (m : jsmap V) : jsmap V :=
  match m with
  | [] => [(k, v)]
  | (k', v') :: m' =>
      if decide (k = k') then (k', v) :: m' else (k', v') :: jm_set k v m'
  end.

Definition jm_delete (k : string) (m : jsmap V) : jsmap V :=
  filter (fun kv => kv.1 <> k) m.

Definition jm_has (k : string) (m : jsmap V) : bool :=
  match jm_get k m with Some _ => true | None => false end.

Definition jm_wf (m : jsmap V) : Prop := NoDup m.*1.

Lemma jm_get_set_eq k v m : jm_get k (jm_set k v m) = Some v.
Proof.
  induction m as [|[k' v'] m IH]; simpl; [by rewrite decide_True|].
  case_decide as Hk; simpl; [by rewrite decide_True|by rewrite decide_False].
Qed.

Lemma jm_get_set_ne k k' v m : k <> k' -> jm_get k' (jm_set k v m) = jm_get k' m.
Proof.
  intros Hne. induction m as [|[k2 v2] m IH]; simpl.
  - by rewrite decide_False.
  - case_decide as Hk; simpl; repeat case_decide; congruence.
Qed.

Lemma jm_get_delete_eq k m : jm_get k (jm_delete k m) = None.
Proof.
  unfold jm_delete. induction m as [|[k2 v2] m IH]; [done|].
  rewrite filter_cons. case_decide as Hk; simpl in *; [|done].
  rewrite decide_False; [done|congruence].
Qed.

Lemma jm_get_delete_ne k k' m : k <> k' -> jm_get k' (jm_delete k m) = jm_get k' m.
Proof.
  intros Hne. unfold jm_delete. induction m as [|[k2 v2] m IH]; [done|].
  rewrite filter_cons. destruct (decide (k2 = k)) as [->|Hk].
  - rewrite decide_False by (simpl; tauto). simpl. rewrite IH.
    by rewrite decide_False.
  - rewrite decide_True by done. simpl. by case_decide.
Qed.

Lemma jm_has_spec k m : jm_has k m = true <-> k ∈ m.*1.
Proof.
  unfold jm_has. induction m as [|[k' v] m IH]; csimpl; [set_solver|].
  rewrite elem_of_cons. case_decide; naive_solver.
Qed.

Lemma jm_keys_set k v m :
  (jm_set k v m).*1 = if jm_has k m then m.*1 else m.*1 ++ [k].
Proof.
  unfold jm_has. induction m as [|[k' v'] m IH]; csimpl; [done|].
  case_decide; csimpl; [done|]. rewrite IH. by destruct (jm_get k m).
Qed.

Lemma jm_set_wf k v m : jm_wf m -> jm_wf (jm_set k v m).
Proof.
  unfold jm_wf. intros Hm. rewrite jm_keys_set.
  destruct (jm_has k m) eqn:Hk; [done|]. apply NoDup_app. split_and!.
  - done.
  - intros k' Hk' ->%list_elem_of_singleton. apply jm_has_spec in Hk'. congruence.
  - apply NoDup_singleton.
Qed.

Lemma jm_delete_sub k m : (jm_delete k m).*1 `sublist_of` m.*1.
Proof.
  unfold jm_delete. induction m as [|[k' v] m IH]; [done|].
  rewrite filter_cons. case_decide; csimpl; by constructor.
Qed.

Lemma jm_delete_wf k m : jm_wf m -> jm_wf (jm_delete k m).
Proof. intros Hm. eapply sublist_NoDup; [done|apply jm_delete_sub]. Qed.

Lemma jm_length_set k v m :
  length (jm_set k v m) = if jm_has k m then length m else S (length m).
Proof.
  rewrite <- (length_fmap fst (jm_set k v m)), jm_keys_set.
  destruct (jm_has k m); rewrite ?length_app, length_fmap; simpl; lia.
Qed.

Lemma jm_get_elem k v m : jm_get k m = Some v -> (k, v) ∈ m.
Proof.
  induction m as [|[k' v'] m IH]; simpl; [done|].
  case_decide; [intros [= <-]; subst; left|]. intros Hg. right. auto.
Qed.

Lemma jm_get_elem_keys k m v : jm_get k m = Some v -> k ∈ m.*1.
Proof. intros H. apply jm_has_spec. unfold jm_has. by rewrite H. Qed.

Lemma jm_elem_get m k v : jm_wf m -> (k, v) ∈ m -> jm_get k m = Some v.
Proof.
  unfold jm_wf. induction m as [|[k' w] m IH]; intros Hnd Hin; [by apply not_elem_of_nil in Hin|].
  csimpl in *. apply NoDup_cons in Hnd as [Hk Hnd].
  apply elem_of_cons in Hin as [[= -> ->]|Hin]; [by rewrite decide_True|].
  rewrite decide_False; [auto|]. intros ->. apply Hk. apply list_elem_of_fmap. by exists (k', v).
Qed.
End jsmap.

#[export] Hint Rewrite @jm_get_set_eq @jm_get_delete_eq : kit.
#[export] Hint Resolve jm_set_wf jm_delete_wf : kit.
