(* ===== verification/Types.v ===== *)
(** * Constants, networks, errors and addresses ([sdk/kit/src/types.ts])

    Addresses, mints and program ids are base58 strings, as in the SDK's branded
    [Address] type. [bigint] and the integer-valued [number] constants are [Z]. *)

From S2P Require Import Prelude.
Local Open Scope string_scope.
Local Open Scope Z_scope.

Abbreviation Address := string.
Abbreviation Network := string.

(** ** Errors

    An error is its class, its [code] and its [context]; the human-readable message
    is a rendering of these and is not modelled. *)
Inductive ctxval :=
  | CStr (s : string)
  | CNum (n : Z)
  | CNums (l : list Z).
#[export] Instance ctxval_eq_dec : EqDecision ctxval.
Proof. solve_decision. Defined.

Record SigilError := mkError {
  error_code : string;
  error_context : list (string * ctxval);
}.
#[export] Instance SigilError_eq_dec : EqDecision SigilError.
Proof. solve_decision. Defined.

Definition sdk_error (code : string) (ctx : list (string * ctxval)) : SigilError :=
  mkError code ctx.

(** ** Fee constants *)
Definition FEE_RATE_DENOMINATOR : Z := 1000000.
Definition PROTOCOL_FEE_RATE : Z := 200.
Definition MAX_DEVELOPER_FEE_RATE : Z := 500.
Definition PROTOCOL_TREASURY : Address := "ASHie1dFTnDSnrHMPGmniJhMgfJVGPm3rAaEPnrtWDiT".

(** [capability(tier)] is the identity at run time. *)
Definition capability (tier : Z) : Z := tier.
Definition USD_DECIMALS : Z := 6.
Definition STABLECOIN_USD_FACTOR : Z := 10 ^ USD_DECIMALS.
Definition MAX_AGENTS_PER_VAULT : Z := 10.
Definition MAX_ALLOWED_PROTOCOLS : Z := 10.
Definition FULL_CAPABILITY : Z := capability 2.
Definition U64_MAX : Z := 18446744073709551615.

(** ** Spend tracker constants *)
Definition EPOCH_DURATION : Z := 600.
Definition NUM_EPOCHS : Z := 144.
Definition OVERLAY_EPOCH_DURATION : Z := 3600.
Definition OVERLAY_NUM_EPOCHS : Z := 24.
Definition ROLLING_WINDOW_SECONDS : Z := 86400.

Definition PROTOCOL_MODE_ALL : Z := 0.
Definition PROTOCOL_MODE_ALLOWLIST : Z := 1.
Definition PROTOCOL_MODE_DENYLIST : Z := 2.

(** ** Well-known mints and programs *)
Definition USDC_MINT_DEVNET : Address := "DMFEQFCRsvGrYzoL2gfwTEd9J8eVBQEjg7HjbJHd6oGH".
Definition USDC_MINT_MAINNET : Address := "EPjFWdd5AufqSSqeM2qN1xzybapC8G4wEGGkZwyTDt1v".
Definition USDT_MINT_DEVNET : Address := "43cd9ma7P968BssTtAKNs5qu6zgsErupwxwdjkiuMHze".
Definition USDT_MINT_MAINNET : Address := "Es9vMFrzaCERmJfrF4H2FYD4KCoNkY11McCe8BenwNYB".
Definition TOKEN_PROGRAM_ADDRESS : Address := "TokenkegQfeZyiNwAJbNbGKPFXCWuBvf9Ss623VQ5DA".
Definition TOKEN_2022_PROGRAM_ADDRESS : Address := "TokenzQdBNbLqP5VEhdkAS6EPFLC1PHnBqCXEpPxuEb".
Definition ATA_PROGRAM_ADDRESS : Address := "ATokenGPvbdGVxr1b2hvZbsiqW5xWH25efTNsLJA8knL".
Definition COMPUTE_BUDGET_PROGRAM_ADDRESS : Address :=
  "ComputeBudget111111111111111111111111111111".
Definition SYSTEM_PROGRAM_ADDRESS : Address := "11111111111111111111111111111111".
Definition JUPITER_PROGRAM_ADDRESS : Address := "JUP6LkbZbjS1jKKwapdHNy74zcZ3tLUZoi5QNyVTaV4".

(** ** Supported protocols *)
Record ProtocolMeta := mkProtocolMeta {
  pm_name : string;
  pm_instructionCountLimited : bool;
  pm_defaultCU : Z;
}.

Definition SUPPORTED_PROTOCOLS : jsmap ProtocolMeta := [
  ("JUP6LkbZbjS1jKKwapdHNy74zcZ3tLUZoi5QNyVTaV4",
     mkProtocolMeta "Jupiter" true 600000);
  ("FLASH6Lo6h3iasJKWDs2F8TkW2UKf3s15C8PMGuVfgBn",
     mkProtocolMeta "Flash Trade" true 800000);
  ("JLend2fEim9xUFcaHsyGePEoBzFLvkjMi3MnPcSuCdu",
     mkProtocolMeta "Jupiter Lend" true 400000);
  ("jup3YeL8QhtSx1e253b2FDvsMNC87fDrgQZivbrndc9",
     mkProtocolMeta "Jupiter Earn" true 400000);
  ("jupr81YtYssSyPt8jbnGuiWon5f6x9TcDEFxYe3Bdzi",
     mkProtocolMeta "Jupiter Borrow" true 400000);
  ("dRiftyHA39MWEi3m9aunc5MzRF1JYuBsbn6VPcn33UH",
     mkProtocolMeta "Drift" false 800000);
  ("KLend2g3cP87ber8CzRaqeECGwNvLFM9acPVcRkRHvM",
     mkProtocolMeta "Kamino" false 400000)
].

Definition RECOGNIZED_DEFI_PROGRAMS : list Address :=
  (filter (fun kv => pm_instructionCountLimited kv.2 = true) SUPPORTED_PROTOCOLS).*1.

Definition is_recognized_defi (a : Address) : bool :=
  bool_decide (a ∈ RECOGNIZED_DEFI_PROGRAMS).

(** ** Networks *)
Definition validateNetwork (network : string) : res SigilError unit :=
  let normalized := if decide (network = "mainnet") then "mainnet-beta" else network in
  throw_if (negb (bool_decide (normalized = "devnet"))
            && negb (bool_decide (normalized = "mainnet-beta")))
    (sdk_error "SIGIL_ERROR__SDK__INVALID_NETWORK" [("received", CStr network)]).

Definition normalizeNetwork (network : string) : Network :=
  if decide (network = "mainnet") then "mainnet-beta" else network.

Definition isStablecoinMint (mint : Address) (network : Network) : bool :=
  if decide (network = "devnet") then
    bool_decide (mint = USDC_MINT_DEVNET) || bool_decide (mint = USDT_MINT_DEVNET)
  else
    bool_decide (mint = USDC_MINT_MAINNET) || bool_decide (mint = USDT_MINT_MAINNET).

(** ** Action types *)
Definition ACTION_TYPE_NAMES_BY_INDEX : list string := [
  "swap"; "openPosition"; "closePosition"; "increasePosition"; "decreasePosition";
  "deposit"; "withdraw"; "transfer"; "addCollateral"; "removeCollateral";
  "placeTriggerOrder"; "editTriggerOrder"; "cancelTriggerOrder"; "placeLimitOrder";
  "editLimitOrder"; "cancelLimitOrder"; "swapAndOpenPosition";
  "closeAndSwapPosition"; "createEscrow"; "settleEscrow"; "refundEscrow" ].

(** The argument of [parseActionType]: an enum value, or an Anchor-style object, of
    which only the list of keys matters. *)
Inductive action_arg :=
  | ActNum (n : Z)
  | ActObj (keys : list string).

Definition parseActionType (a : action_arg) : option string :=
  match a with
  | ActNum n => if n <? 0 then None else ACTION_TYPE_NAMES_BY_INDEX !! Z.to_nat n
  | ActObj keys => head keys
  end.

Definition isSpendingAction (actionType : string) : bool :=
  bool_decide (actionType ∈ [
    "swap"; "openPosition"; "increasePosition"; "deposit"; "transfer";
    "addCollateral"; "placeLimitOrder"; "swapAndOpenPosition"; "createEscrow"]).

(** ** Lemmas *)
Lemma normalizeNetwork_valid (n : string) :
  validateNetwork n = Ok tt -> normalizeNetwork n = "devnet" \/ normalizeNetwork n = "mainnet-beta".
Proof.
  unfold validateNetwork, normalizeNetwork. rewrite throw_if_ok_inv.
  intros H%andb_false_iff. rewrite !negb_false_iff, !bool_decide_eq_true in H. done.
Qed.

Lemma validateNetwork_normalize (n : string) :
  validateNetwork n = Ok tt -> validateNetwork (normalizeNetwork n) = Ok tt.
Proof. intros [-> | ->]%normalizeNetwork_valid; reflexivity. Qed.

(** The largest [u64] is a [u64], and clamping is idempotent. *)
Definition clamp_u64 (z : Z) : Z := if z >? U64_MAX then U64_MAX else z.

Lemma clamp_u64_spec z : clamp_u64 z = Z.min z U64_MAX.
Proof. unfold clamp_u64. destruct (z >? U64_MAX) eqn:H; unfold U64_MAX in *; lia. Qed.

#[export] Hint Rewrite clamp_u64_spec : kit.
