(* ===== verification/Accounts.v ===== *)
(** * Decoded on-chain accounts ([sdk/kit/src/generated])

    The records the generated decoders return, with the fields the modelled code
    reads. Integers are [Z]; the ranges the fixed-size codecs guarantee are stated
    as well-formedness predicates. *)

From S2P Require Import Prelude Types.
Local Open Scope Z_scope.

Abbreviation bytes := (list Z).

Record EpochBucket := mkBucket {
  epochId : Z;
  usdAmount : Z;
}.

Record ProtocolSpendCounter := mkCounter {
  psc_protocol : bytes;
  psc_windowStart : Z;
  psc_windowSpend : Z;
}.

Record SpendTracker := mkTracker {
  buckets : list EpochBucket;
  protocolCounters : list ProtocolSpendCounter;
  lastWriteEpoch : Z;
}.

Record AgentContributionEntry := mkContribution {
  ace_agent : bytes;
  ace_lastWriteEpoch : Z;
  contributions : list Z;
}.

Record AgentSpendOverlay := mkOverlay {
  ov_entries : list AgentContributionEntry;
  ov_lifetimeSpend : list Z;
  ov_lifetimeTxCount : list Z;
}.

Inductive VaultStatus := Active | Frozen | Closed.

Record AgentEntry := mkAgent {
  pubkey : Address;
  agent_capability : Z;
  spendingLimitUsd : Z;
  agent_paused : bool;
}.

Record AgentVault := mkVault {
  owner : Address;
  vaultId : Z;
  agents : list AgentEntry;
  feeDestination : Address;
  vault_status : VaultStatus;
  av_bump : Z;
  createdAt : Z;
  totalTransactions : Z;
  totalVolume : Z;
  activeEscrowCount : Z;
  totalFeesCollected : Z;
  totalDepositedUsd : Z;
  totalWithdrawnUsd : Z;
  totalFailedTransactions : Z;
  activeSessions : Z;
}.

Record PolicyConfig := mkPolicy {
  dailySpendingCapUsd : Z;
  maxTransactionSizeUsd : Z;
  protocolMode : Z;
  protocols : list Address;
  developerFeeRate : Z;
  maxSlippageBps : Z;
  timelockDuration : Z;
  hasConstraints : bool;
  hasProtocolCaps : bool;
  protocolCaps : list Z;
  policyVersion : Z;
  pc_vault : Address;
  allowedDestinations : list Address;
  hasPendingPolicy : bool;
  sessionExpirySeconds : Z;
  pc_bump : Z;
  hasPostAssertions : Z;
  destinationMode : Z;
}.

(** A queued policy update: [None] leaves the field as it is. *)
Record PendingPolicyUpdate := mkPending {
  pp_vault : Address;
  queuedAt : Z;
  executesAt : Z;
  queuedAtSlot : Z;
  pp_dailySpendingCapUsd : option Z;
  pp_maxTransactionAmountUsd : option Z;
  pp_protocolMode : option Z;
  pp_protocols : option (list Address);
  pp_developerFeeRate : option Z;
  pp_maxSlippageBps : option Z;
  pp_timelockDuration : option Z;
  pp_allowedDestinations : option (list Address);
  pp_sessionExpirySeconds : option Z;
  pp_hasProtocolCaps : option bool;
  pp_protocolCaps : option (list Z);
  pp_destinationMode : option Z;
  pp_bump : Z;
}.

#[export] Instance EpochBucket_eq_dec : EqDecision EpochBucket.
Proof. solve_decision. Defined.
#[export] Instance ProtocolSpendCounter_eq_dec : EqDecision ProtocolSpendCounter.
Proof. solve_decision. Defined.
#[export] Instance SpendTracker_eq_dec : EqDecision SpendTracker.
Proof. solve_decision. Defined.
#[export] Instance AgentContributionEntry_eq_dec : EqDecision AgentContributionEntry.
Proof. solve_decision. Defined.
#[export] Instance VaultStatus_eq_dec : EqDecision VaultStatus.
Proof. solve_decision. Defined.
#[export] Instance AgentEntry_eq_dec : EqDecision AgentEntry.
Proof. solve_decision. Defined.

(** ** Machine ranges *)
Definition I64_MAX : Z := 9223372036854775807.
Definition I64_MIN : Z := -9223372036854775808.
Definition U128_MAX : Z := 340282366920938463463374607431768211455.

Definition is_u64 (z : Z) : Prop := 0 <= z <= U64_MAX.
Definition is_i64 (z : Z) : Prop := I64_MIN <= z <= I64_MAX.

Definition sat_i64 (z : Z) : Z := Z.max I64_MIN (Z.min I64_MAX z).
Definition sat_u128 (z : Z) : Z := Z.min U128_MAX z.

Lemma sat_i64_id z : is_i64 z -> sat_i64 z = z.
Proof. unfold is_i64, sat_i64, I64_MAX, I64_MIN. lia. Qed.

Lemma sat_u128_id z : 0 <= z <= U128_MAX -> sat_u128 z = z.
Proof. unfold sat_u128. lia. Qed.

(** What the codecs and the program guarantee of a tracker: exactly [NUM_EPOCHS]
    buckets with [u64] amounts and non-negative [i64] epochs. *)
Definition bucket_wf (b : EpochBucket) : Prop :=
  0 <= epochId b <= I64_MAX /\ is_u64 (usdAmount b).

Record tracker_wf (t : SpendTracker) : Prop := {
  twf_length : length (buckets t) = Z.to_nat NUM_EPOCHS;
  twf_buckets : Forall bucket_wf (buckets t);
  twf_last : 0 <= lastWriteEpoch t <= I64_MAX;
}.

(** [last_write_epoch] is a clock divided by [OVERLAY_EPOCH_DURATION], so that the
    program's [i64] products of it do not overflow. *)
Record contribution_wf (e : AgentContributionEntry) : Prop := {
  cwf_length : length (contributions e) = Z.to_nat OVERLAY_NUM_EPOCHS;
  cwf_amounts : Forall is_u64 (contributions e);
  cwf_last : 0 <= ace_lastWriteEpoch e < I64_MAX / OVERLAY_EPOCH_DURATION;
}.

Definition overlay_wf (o : AgentSpendOverlay) : Prop := Forall contribution_wf (ov_entries o).
