(* ===== verification/Bytes.v ===== *)
(** * Little-endian [u64] fields of raw account and instruction data

    The SDK reads a [u64] out of a byte array by shifting and or-ing eight bytes
    ([state-resolver.ts], [simulation.ts]) or with [DataView.getBigUint64]
    ([inspector.ts]). Both are [read_u64_le]; [le_bytes] is the encoder they invert. *)

From S2P Require Import Prelude Types Accounts.
Local Open Scope Z_scope.

Definition byte_at (bs : bytes) (i : nat) : Z := default 0 (bs !! i).

(** [for (let i = 0; i < n; i++) v |= BigInt(bs[off + i]) << BigInt(i * 8)]. *)
Definition read_le (n off : nat) (bs : bytes) : Z :=
  fold_left (fun v i => Z.lor v (Z.shiftl (byte_at bs (off + i)) (Z.of_nat i * 8)))
    (seq 0 n) 0.

Definition read_u64_le (off : nat) (bs : bytes) : Z := read_le 8 off bs.

Definition le_bytes (n : nat) (v : Z) : bytes :=
  (fun i => Z.land (Z.shiftr v (Z.of_nat i * 8)) 255) <$> seq 0 n.

Definition is_byte (b : Z) : Prop := 0 <= b < 256.

(** One step of the loop extends the low [m] bits by the next eight. *)
Lemma lor_next_byte v m :
  0 <= m ->
  Z.lor (v mod 2 ^ m) (Z.shiftl (Z.land (Z.shiftr v m) 255) m) = v mod 2 ^ (m + 8).
Proof.
  intros Hm. apply Z.bits_inj'. intros n Hn.
  change 255 with (Z.ones 8).
  rewrite Z.lor_spec, Z.shiftl_spec by lia.
  destruct (Z.ltb_spec n m) as [Hlt|Hge].
  - rewrite !Z.mod_pow2_bits_low by lia.
    rewrite (Z.testbit_neg_r _ (n - m)) by lia. by rewrite orb_false_r.
  - rewrite (Z.mod_pow2_bits_high v m n) by lia. rewrite orb_false_l.
    rewrite Z.land_spec, Z.shiftr_spec by lia. replace (n - m + m) with n by lia.
    rewrite Z.testbit_ones_nonneg by lia.
    destruct (Z.ltb_spec (n - m) 8).
    + rewrite Z.mod_pow2_bits_low by lia. by rewrite andb_true_r.
    + rewrite Z.mod_pow2_bits_high by lia. by rewrite andb_false_r.
Qed.

Lemma read_le_S n off bs :
  read_le (S n) off bs =
  Z.lor (read_le n off bs) (Z.shiftl (byte_at bs (off + n)) (Z.of_nat n * 8)).
Proof. unfold read_le. rewrite seq_S, fold_left_app. done. Qed.

Lemma le_bytes_lookup n v i :
  (i < n)%nat -> le_bytes n v !! i = Some (Z.land (Z.shiftr v (Z.of_nat i * 8)) 255).
Proof.
  intros Hi. unfold le_bytes. rewrite list_lookup_fmap, lookup_seq_lt by done. done.
Qed.

Lemma length_le_bytes n v : length (le_bytes n v) = n.
Proof. unfold le_bytes. by rewrite length_fmap, length_seq. Qed.

(** Reading the encoder's bytes, wherever they sit in the data, gives the value back
    modulo the width. *)
Lemma read_le_le_bytes n v pre suf :
  read_le n (length pre) (pre ++ le_bytes n v ++ suf) = v mod 2 ^ (Z.of_nat n * 8).
Proof.
  assert (forall k, (k <= n)%nat ->
    read_le k (length pre) (pre ++ le_bytes n v ++ suf) = v mod 2 ^ (Z.of_nat k * 8)) as H;
    [|by apply H].
  induction k as [|k IH]; intros Hk.
  { symmetry. apply Z.mod_1_r. }
  rewrite read_le_S, IH by lia. unfold byte_at.
  rewrite lookup_app_r by lia. replace (length pre + k - length pre)%nat with k by lia.
  rewrite lookup_app_l by (rewrite length_le_bytes; lia).
  rewrite le_bytes_lookup by lia. simpl default.
  rewrite lor_next_byte by lia. f_equal. f_equal. lia.
Qed.

Lemma read_u64_le_roundtrip v pre suf :
  is_u64 v -> read_u64_le (length pre) (pre ++ le_bytes 8 v ++ suf) = v.
Proof.
  unfold is_u64. intros [H0 H1]. unfold read_u64_le. rewrite read_le_le_bytes.
  apply Z.mod_small. unfold U64_MAX in H1.
  change (2 ^ (Z.of_nat 8 * 8)) with 18446744073709551616. lia.
Qed.

Lemma byte_at_bound bs i : Forall is_byte bs -> 0 <= byte_at bs i < 256.
Proof.
  intros Hb. unfold byte_at. destruct (bs !! i) as [b|] eqn:Hi; simpl; [|lia].
  exact (Forall_lookup_1 _ _ _ _ Hb Hi).
Qed.

(** Whatever the bytes, a read stays inside its width. *)
Lemma read_le_bound n off bs :
  Forall is_byte bs -> 0 <= read_le n off bs < 2 ^ (Z.of_nat n * 8).
Proof.
  intros Hb. induction n as [|n IH]; [cbn; lia|].
  rewrite read_le_S. pose proof (byte_at_bound bs (off + n) Hb) as Hx.
  set (x := byte_at bs (off + n)) in *. set (v := read_le n off bs) in *.
  assert (Hs : 0 <= Z.shiftl x (Z.of_nat n * 8)) by (apply Z.shiftl_nonneg; lia).
  assert (H0 : 0 <= Z.lor v (Z.shiftl x (Z.of_nat n * 8))) by (apply Z.lor_nonneg; lia).
  split; [done|].
  assert (Hm : (Z.lor v (Z.shiftl x (Z.of_nat n * 8))) mod 2 ^ (Z.of_nat (S n) * 8)
     = Z.lor v (Z.shiftl x (Z.of_nat n * 8))).
  { apply Z.bits_inj'. intros k Hk. destruct (Z.ltb_spec k (Z.of_nat (S n) * 8)).
    - by rewrite Z.mod_pow2_bits_low by lia.
    - rewrite Z.mod_pow2_bits_high by lia. symmetry.
      rewrite Z.lor_spec, Z.shiftl_spec by lia.
      rewrite <- (Z.mod_small v (2 ^ (Z.of_nat n * 8))) by done.
      rewrite Z.mod_pow2_bits_high by lia.
      rewrite <- (Z.mod_small x (2 ^ 8)) by (change (2 ^ 8) with 256; lia).
      by rewrite Z.mod_pow2_bits_high by lia. }
  rewrite <- Hm. apply Z.mod_pos_bound. apply Z.pow_pos_nonneg; lia.
Qed.

Lemma read_u64_le_is_u64 off bs : Forall is_byte bs -> is_u64 (read_u64_le off bs).
Proof.
  intros Hb. pose proof (read_le_bound 8 off bs Hb) as H.
  change (2 ^ (Z.of_nat 8 * 8)) with 18446744073709551616 in H.
  unfold read_u64_le, is_u64, U64_MAX. lia.
Qed.

#[export] Hint Resolve read_u64_le_is_u64 : kit.
