(* ===== verification/OnChain.v ===== *)
(** * The on-chain spend tracker ([programs/sigil/src/state])

    The Rust definitions the SDK mirrors: [SpendTracker::record_spend],
    [SpendTracker::get_rolling_24h_usd], the per-protocol counters and the per-agent
    overlay. [i64] saturation and [u128] accumulation are written out; [checked_add]
    and [require!] are the [Throw] branches. [Clock::unix_timestamp] is the argument
    [now]. They serve as the reference the TypeScript mirror is proved against. *)

From S2P Require Import Prelude Types Accounts.
Local Open Scope Z_scope.

Inductive ChainError := Overflow | ProtocolCapExceeded.
#[export] Instance ChainError_eq_dec : EqDecision ChainError.
Proof. solve_decision. Defined.

(** [checked_add] on [u64]. *)
Definition checked_add_u64 (a b : Z) : res ChainError Z :=
  if a + b >? U64_MAX then Throw Overflow else Ok (a + b).

(** ** [SpendTracker] *)
Definition record_spend (t : SpendTracker) (now amount : Z) : res ChainError SpendTracker :=
  throw_if (negb (now >? 0)) Overflow ;;
  let current_epoch := Z.quot now EPOCH_DURATION in
  let idx := Z.to_nat (Z.rem current_epoch NUM_EPOCHS) in
  let b0 := default (mkBucket 0 0) (buckets t !! idx) in
  let b := if epochId b0 =? current_epoch then b0 else mkBucket current_epoch 0 in
  usd ← checked_add_u64 (usdAmount b) amount;
  Ok (mkTracker (<[idx := mkBucket (epochId b) usd]> (buckets t))
        (protocolCounters t) current_epoch).

Definition bucket_contribution (window_start_ts current_epoch : Z) (b : EpochBucket) : Z :=
  if usdAmount b =? 0 then 0
  else
    let bucket_start := sat_i64 (epochId b * EPOCH_DURATION) in
    let bucket_end := sat_i64 (bucket_start + EPOCH_DURATION) in
    if (bucket_end <=? window_start_ts) || (epochId b >? current_epoch) then 0
    else if bucket_start >=? window_start_ts then usdAmount b
    else
      let overlap := bucket_end - window_start_ts in
      Z.quot (sat_u128 (usdAmount b * overlap)) EPOCH_DURATION.

Definition get_rolling_24h_usd (t : SpendTracker) (now : Z) : Z :=
  if now <=? 0 then 0
  else
    let current_epoch := Z.quot now EPOCH_DURATION in
    if current_epoch - lastWriteEpoch t >? NUM_EPOCHS then 0
    else
      let window_start_ts := sat_i64 (now - ROLLING_WINDOW_SECONDS) in
      let total :=
        fold_left (fun total b =>
            sat_u128 (total + bucket_contribution window_start_ts current_epoch b))
          (buckets t) 0 in
      if total >? U64_MAX then U64_MAX else total.

(** ** Per-protocol counters *)
Definition empty_bytes : bytes := replicate 32 0.

Fixpoint get_protocol_spend_loop (current_epoch : Z) (protocol : bytes)
    (cs : list ProtocolSpendCounter) : Z :=
  match cs with
  | [] => 0
  | c :: cs' =>
      if decide (psc_protocol c = protocol) then
        if current_epoch - psc_windowStart c <? NUM_EPOCHS then psc_windowSpend c else 0
      else get_protocol_spend_loop current_epoch protocol cs'
  end.

Definition get_protocol_spend (t : SpendTracker) (now : Z) (protocol : bytes) : Z :=
  if now <=? 0 then 0
  else get_protocol_spend_loop (Z.quot now EPOCH_DURATION) protocol (protocolCounters t).

(** The scan of [record_protocol_spend]: the first slot with the protocol wins over
    any empty slot, else the first empty slot is claimed. *)
Fixpoint find_slot (p : bytes -> bool) (cs : list ProtocolSpendCounter) : option nat :=
  match cs with
  | [] => None
  | c :: cs' => if p (psc_protocol c) then Some 0%nat else S <$> find_slot p cs'
  end.

Definition record_protocol_spend (t : SpendTracker) (now : Z) (protocol : bytes) (amount : Z)
    : res ChainError SpendTracker :=
  throw_if (negb (now >? 0)) Overflow ;;
  let current_epoch := Z.quot now EPOCH_DURATION in
  let cs := protocolCounters t in
  let put i c := Ok (mkTracker (buckets t) (<[i := c]> cs) (lastWriteEpoch t)) in
  match find_slot (fun b => bool_decide (b = protocol)) cs with
  | Some i =>
      let c := default (mkCounter [] 0 0) (cs !! i) in
      if current_epoch - psc_windowStart c >=? NUM_EPOCHS then
        put i (mkCounter (psc_protocol c) current_epoch amount)
      else
        spend ← checked_add_u64 (psc_windowSpend c) amount;
        put i (mkCounter (psc_protocol c) (psc_windowStart c) spend)
  | None =>
      match find_slot (fun b => bool_decide (b = empty_bytes)) cs with
      | Some i => put i (mkCounter protocol current_epoch amount)
      | None => Throw ProtocolCapExceeded
      end
  end.

(** ** [AgentSpendOverlay::get_agent_rolling_24h_usd]

    The backwards loop over [k]; [fuel] counts the remaining iterations. *)
Fixpoint agent_loop (fuel : nat) (k : Z) (e : AgentContributionEntry)
    (window_start_ts current_epoch total : Z) : Z :=
  match fuel with
  | O => total
  | S fuel' =>
      let epoch_for_k := ace_lastWriteEpoch e - k in
      let next := agent_loop fuel' (k + 1) e window_start_ts current_epoch in
      if epoch_for_k <? 0 then total
      else
        let bucket_start := epoch_for_k * OVERLAY_EPOCH_DURATION in
        let bucket_end := bucket_start + OVERLAY_EPOCH_DURATION in
        if bucket_end <=? window_start_ts then total
        else if epoch_for_k >? current_epoch then next total
        else
          let idx := Z.to_nat (Z.rem epoch_for_k OVERLAY_NUM_EPOCHS) in
          let contribution := default 0 (contributions e !! idx) in
          if contribution =? 0 then next total
          else if bucket_start >=? window_start_ts then
            next (sat_u128 (total + contribution))
          else
            let overlap := bucket_end - window_start_ts in
            let scaled := Z.quot (sat_u128 (contribution * overlap)) OVERLAY_EPOCH_DURATION in
            next (sat_u128 (total + scaled))
  end.

Definition get_agent_rolling_24h_usd (e : AgentContributionEntry) (now : Z) : Z :=
  if now <=? 0 then 0
  else
    let current_epoch := Z.quot now OVERLAY_EPOCH_DURATION in
    if current_epoch - ace_lastWriteEpoch e >? OVERLAY_NUM_EPOCHS then 0
    else
      let window_start_ts := sat_i64 (now - ROLLING_WINDOW_SECONDS) in
      let total := agent_loop (Z.to_nat OVERLAY_NUM_EPOCHS) 0 e window_start_ts current_epoch 0 in
      if total >? U64_MAX then U64_MAX else total.

(** ** Recording a contribution

    The buckets between the last write and now are zeroed, all of them after a day. *)
Definition MAX_OVERLAY_ENTRIES : Z := 10.

Definition zero_at (cs : list Z) (idx : nat) : list Z := <[idx := 0]> cs.

Definition zero_gap_buckets (e : AgentContributionEntry) (current_epoch : Z) : AgentContributionEntry :=
  let gap := current_epoch - ace_lastWriteEpoch e in
  if gap <=? 0 then e
  else
    mkContribution (ace_agent e) (ace_lastWriteEpoch e)
      (if gap >=? OVERLAY_NUM_EPOCHS then (fun _ => 0) <$> contributions e
       else fold_left zero_at
              ((fun offset => Z.to_nat (Z.rem (ace_lastWriteEpoch e + offset) OVERLAY_NUM_EPOCHS))
                 <$> seqZ 1 gap)
              (contributions e)).

Definition record_contribution (e : AgentContributionEntry) (now usd_amount : Z)
    : res ChainError AgentContributionEntry :=
  let current_epoch := Z.quot now OVERLAY_EPOCH_DURATION in
  let e := zero_gap_buckets e current_epoch in
  let idx := Z.to_nat (Z.rem current_epoch OVERLAY_NUM_EPOCHS) in
  usd ← checked_add_u64 (default 0 (contributions e !! idx)) usd_amount;
  Ok (mkContribution (ace_agent e) current_epoch (<[idx := usd]> (contributions e))).

Definition record_agent_contribution (o : AgentSpendOverlay) (now : Z) (slot_idx : nat) (usd_amount : Z)
    : res ChainError AgentSpendOverlay :=
  throw_if (Z.of_nat slot_idx >=? MAX_OVERLAY_ENTRIES) Overflow ;;
  match ov_entries o !! slot_idx with
  | None => Throw Overflow                     (* the array has that many entries *)
  | Some e =>
      e ← record_contribution e now usd_amount;
      Ok (mkOverlay (<[slot_idx := e]> (ov_entries o)) (ov_lifetimeSpend o) (ov_lifetimeTxCount o))
  end.

(** ** [ceil_fee] (state/mod.rs) *)
Definition ceil_fee (amount rate : Z) : res ChainError Z :=
  if amount * rate >? U64_MAX then Throw Overflow
  else if amount * rate + (FEE_RATE_DENOMINATOR - 1) >? U64_MAX then Throw Overflow
  else Ok (Z.quot (amount * rate + (FEE_RATE_DENOMINATOR - 1)) FEE_RATE_DENOMINATOR).

(** A freshly initialised, zeroed tracker account. *)
Definition empty_tracker : SpendTracker :=
  mkTracker (replicate (Z.to_nat NUM_EPOCHS) (mkBucket 0 0))
    (replicate (Z.to_nat MAX_ALLOWED_PROTOCOLS) (mkCounter empty_bytes 0 0)) 0.

(** ** Arithmetic of epochs *)
Lemma epoch_quot now : 0 <= now -> Z.quot now EPOCH_DURATION = now / EPOCH_DURATION.
Proof. intros. apply Z.quot_div_nonneg; [done|reflexivity]. Qed.

Lemma epoch_bounds now :
  0 < now ->
  let c := Z.quot now EPOCH_DURATION in
  0 <= c /\ c * EPOCH_DURATION <= now < c * EPOCH_DURATION + EPOCH_DURATION.
Proof.
  intros Hnow c. subst c. rewrite epoch_quot by lia. unfold EPOCH_DURATION.
  pose proof (Z.div_mod now 600 ltac:(lia)). pose proof (Z.mod_pos_bound now 600 ltac:(lia)).
  lia.
Qed.

Lemma idx_bound e : 0 <= e -> (Z.to_nat (Z.rem e NUM_EPOCHS) < Z.to_nat NUM_EPOCHS)%nat.
Proof.
  intros He. rewrite Z.rem_mod_nonneg by (done || reflexivity).
  unfold NUM_EPOCHS. pose proof (Z.mod_pos_bound e 144). lia.
Qed.

(** ** [record_spend] preserves well-formedness *)
Lemma checked_add_u64_ok a b c :
  checked_add_u64 a b = Ok c -> c = a + b /\ c <= U64_MAX.
Proof. unfold checked_add_u64. destruct (a + b >? U64_MAX) eqn:H; [done|]. intros [= <-]. lia. Qed.

Lemma empty_tracker_wf : tracker_wf empty_tracker.
Proof.
  split.
  - reflexivity.
  - apply Forall_replicate. unfold bucket_wf, is_u64. simpl. unfold U64_MAX, I64_MAX. lia.
  - simpl. unfold I64_MAX. lia.
Qed.

Lemma record_spend_wf t now amount t' :
  tracker_wf t -> is_u64 amount -> now <= I64_MAX ->
  record_spend t now amount = Ok t' -> tracker_wf t'.
Proof.
  intros [Hlen Hb Hl] Ha Hmax. unfold record_spend. intros H.
  destruct (now >? 0) eqn:Hnow; [simpl in H|discriminate].
  apply Z.gtb_lt in Hnow. pose proof (epoch_bounds now ltac:(lia)) as [Hc0 Hc].
  apply bind_ok_inv in H as (usd & Hadd & [= <-]).
  apply checked_add_u64_ok in Hadd as [-> Hle].
  assert (Hb0 : bucket_wf (default (mkBucket 0 0)
      (buckets t !! Z.to_nat (Z.rem (Z.quot now EPOCH_DURATION) NUM_EPOCHS)))).
  { destruct (buckets t !! _) eqn:Hi; simpl; [by eapply Forall_lookup_1|].
    unfold bucket_wf, is_u64. simpl. unfold U64_MAX, I64_MAX. lia. }
  destruct Hb0 as [He Hu]. unfold is_u64 in *. remember (Z.quot now EPOCH_DURATION) as c.
  assert (c <= now) by (unfold EPOCH_DURATION in Hc; lia). split; simpl.
  - by rewrite length_insert.
  - apply Forall_insert; [done|]. unfold bucket_wf, is_u64. simpl in *.
    destruct (_ =? _); simpl in *; lia.
  - lia.
Qed.

#[export] Hint Resolve empty_tracker_wf record_spend_wf : kit.
