(* ===== verification/StateResolver.v ===== *)
(** * Vault state resolution ([sdk/kit/src/state-resolver.ts])

    The off-chain mirror of the on-chain spend accounting, and the resolvers that
    turn one batch of fetched accounts into budgets. The address codec, the PDA
    derivations, the account decoders and the RPC snapshot are the parameters of a
    [Class]; everything the file computes from them is written out. *)

From S2P Require Import Prelude Types Accounts Bytes OnChain.
Local Open Scope string_scope.
Local Open Scope Z_scope.
Local Open Scope list_scope.

(** ** External code the resolvers call *)
Class ResolverEnv (Constraints : Type) := {
  addressEncode : Address -> bytes;
  addressDecode : bytes -> option Address;
  getVaultPDA : Address -> Z -> Address;
  getPolicyPDA : Address -> Address;
  getTrackerPDA : Address -> Address;
  getAgentOverlayPDA : Address -> Z -> Address;
  getConstraintsPDA : Address -> Address;
  deriveAta : Address -> Address -> Address;
  decodeAgentVault : bytes -> res SigilError AgentVault;
  decodePolicyConfig : bytes -> res SigilError PolicyConfig;
  decodeSpendTracker : bytes -> res SigilError SpendTracker;
  decodeAgentSpendOverlay : bytes -> res SigilError AgentSpendOverlay;
  decodeInstructionConstraints : bytes -> res SigilError Constraints;
}.

(** Documented behaviour of the base58 address codec. *)
Class AddressLaws {C} (env : ResolverEnv C) := {
  addressEncode_length a : length (addressEncode a) = 32%nat;
}.

Record EffectiveBudget := mkBudget { spent24h : Z; cap : Z; remaining : Z }.
Record ProtocolBudget := mkProtocolBudget {
  pb_protocol : Address;
  pb_budget : EffectiveBudget;
}.
Record SpendingEpoch := mkSpendingEpoch {
  se_epochId : Z;
  se_timestamp : Z;
  se_usdAmount : Z;
  se_usdAmountFormatted : string;
}.
Record OverlaySlot := mkOverlaySlot {
  slotIdx : nat;
  lifetimeSpend : Z;
  lifetimeTxCount : Z;
}.

#[export] Instance EffectiveBudget_eq_dec : EqDecision EffectiveBudget.
Proof. solve_decision. Defined.
#[export] Instance ProtocolBudget_eq_dec : EqDecision ProtocolBudget.
Proof. solve_decision. Defined.

(** ** Pure functions *)
Section pure.
Context {Constraints : Type} `{env : !ResolverEnv Constraints}.

(** [bytes[i] !== encoded[i]] compares [undefined] beyond either end. *)
Definition bytesMatchAddress (bs : bytes) (addr : Address) : bool :=
  let encoded := addressEncode addr in
  bool_decide (length bs = length encoded) &&
  forallb (fun i => bool_decide (bs !! i = encoded !! i)) (seq 0 32).

(** [findIndex] with the try/catch around the decoder. *)
Definition findAgentOverlaySlot (overlay : option AgentSpendOverlay) (agentAddress : Address)
    : option OverlaySlot :=
  o ← overlay;
  i ← fst <$> list_find (fun e => addressDecode (ace_agent e) = Some agentAddress) (ov_entries o);
  Some (mkOverlaySlot i (default 0 (ov_lifetimeSpend o !! i))
          (default 0 (ov_lifetimeTxCount o !! i))).

Definition window_start (nowUnix : Z) : Z :=
  if nowUnix >? ROLLING_WINDOW_SECONDS then nowUnix - ROLLING_WINDOW_SECONDS else 0.

(** The body of the loop over the buckets; [continue] leaves the total. *)
Definition rolling_step (windowStart currentEpoch total : Z) (bucket : EpochBucket) : Z :=
  if usdAmount bucket =? 0 then total
  else
    let bucketStart := epochId bucket * EPOCH_DURATION in
    let bucketEnd := bucketStart + EPOCH_DURATION in
    if (bucketEnd <=? windowStart) || (epochId bucket >? currentEpoch) then total
    else if bucketStart >=? windowStart then total + usdAmount bucket
    else
      let overlap := bucketEnd - windowStart in
      total + Z.quot (usdAmount bucket * overlap) EPOCH_DURATION.

Definition getRolling24hUsd (tracker : SpendTracker) (nowUnix : Z) : Z :=
  if nowUnix <=? 0 then 0
  else
    let currentEpoch := Z.quot nowUnix EPOCH_DURATION in
    if currentEpoch - lastWriteEpoch tracker >? NUM_EPOCHS then 0
    else
      let windowStart := window_start nowUnix in
      let total := fold_left (rolling_step windowStart currentEpoch) (buckets tracker) 0 in
      if total >? U64_MAX then U64_MAX else total.

(** [for (let k = 0; k < OVERLAY_NUM_EPOCHS; k++)] with its [break]s; [n] counts the
    iterations left. *)
Fixpoint agent_rolling_loop (n : nat) (k : Z) (entry : AgentContributionEntry)
    (windowStart currentEpoch total : Z) : Z :=
  match n with
  | O => total
  | S n' =>
      let continue t := agent_rolling_loop n' (k + 1) entry windowStart currentEpoch t in
      let epochForK := ace_lastWriteEpoch entry - k in
      if epochForK <? 0 then total
      else
        let bucketStart := epochForK * OVERLAY_EPOCH_DURATION in
        let bucketEnd := bucketStart + OVERLAY_EPOCH_DURATION in
        if bucketEnd <=? windowStart then total
        else if epochForK >? currentEpoch then continue total
        else
          let bucketIdx := Z.to_nat (Z.rem epochForK OVERLAY_NUM_EPOCHS) in
          let contribution := default 0 (contributions entry !! bucketIdx) in
          if contribution =? 0 then continue total
          else if bucketStart >=? windowStart then continue (total + contribution)
          else
            let overlap := bucketEnd - windowStart in
            continue (total + Z.quot (contribution * overlap) OVERLAY_EPOCH_DURATION)
  end.

Definition getAgentRolling24hUsd (entry : AgentContributionEntry) (nowUnix : Z) : Z :=
  if nowUnix <=? 0 then 0
  else
    let currentEpoch := Z.quot nowUnix OVERLAY_EPOCH_DURATION in
    if currentEpoch - ace_lastWriteEpoch entry >? OVERLAY_NUM_EPOCHS then 0
    else
      let windowStart := window_start nowUnix in
      let total := agent_rolling_loop (Z.to_nat OVERLAY_NUM_EPOCHS) 0 entry windowStart
                     currentEpoch 0 in
      if total >? U64_MAX then U64_MAX else total.

Fixpoint protocol_spend_loop (currentEpoch : Z) (protocolAddress : Address)
    (cs : list ProtocolSpendCounter) : Z :=
  match cs with
  | [] => 0
  | counter :: cs' =>
      if bytesMatchAddress (psc_protocol counter) protocolAddress then
        if currentEpoch - psc_windowStart counter <? NUM_EPOCHS
        then psc_windowSpend counter else 0
      else protocol_spend_loop currentEpoch protocolAddress cs'
  end.

Definition getProtocolSpend (tracker : SpendTracker) (protocolAddress : Address)
    (nowUnix : Z) : Z :=
  if nowUnix <=? 0 then 0
  else protocol_spend_loop (Z.quot nowUnix EPOCH_DURATION) protocolAddress
         (protocolCounters tracker).

(** [formatUsd] renders through [Intl.NumberFormat] and is a parameter. *)
Definition history_step (formatUsd : Z -> string) (windowStartEpoch currentEpoch : Z)
    (result : list SpendingEpoch) (bucket : EpochBucket) : list SpendingEpoch :=
  if usdAmount bucket =? 0 then result
  else if epochId bucket <? windowStartEpoch then result
  else if epochId bucket >? currentEpoch then result
  else result ++ [mkSpendingEpoch (epochId bucket) (epochId bucket * EPOCH_DURATION)
                    (usdAmount bucket) (formatUsd (usdAmount bucket))].

Definition getSpendingHistory (formatUsd : Z -> string) (tracker : option SpendTracker)
    (nowUnix : Z) : list SpendingEpoch :=
  match tracker with
  | None => []
  | Some t =>
      if nowUnix <=? 0 then []
      else
        let currentEpoch := Z.quot nowUnix EPOCH_DURATION in
        if currentEpoch - lastWriteEpoch t >? NUM_EPOCHS then []
        else
          let windowStartEpoch := currentEpoch - NUM_EPOCHS in
          sort_by se_timestamp
            (fold_left (history_step formatUsd windowStartEpoch currentEpoch) (buckets t) [])
  end.
End pure.

(** ** Resolvers *)
Record StablecoinBalances := mkBalances { bal_usdc : Z; bal_usdt : Z }.

Record ResolvedVaultState (C : Type) := mkResolved {
  rs_vault : AgentVault;
  rs_policy : PolicyConfig;
  rs_tracker : option SpendTracker;
  rs_overlay : option AgentSpendOverlay;
  rs_constraints : option C;
  globalBudget : EffectiveBudget;
  agentBudget : option EffectiveBudget;
  allAgentBudgets : jsmap EffectiveBudget;
  protocolBudgets : list ProtocolBudget;
  maxTransactionUsd : Z;
  stablecoinBalances : StablecoinBalances;
  resolvedAtTimestamp : Z;
}.
Arguments mkResolved {C}.
Arguments rs_vault {C}. Arguments rs_policy {C}. Arguments rs_tracker {C}.
Arguments rs_overlay {C}. Arguments rs_constraints {C}.
Arguments globalBudget {C}. Arguments agentBudget {C}. Arguments allAgentBudgets {C}.
Arguments protocolBudgets {C}. Arguments maxTransactionUsd {C}.
Arguments stablecoinBalances {C}. Arguments resolvedAtTimestamp {C}.

Record ResolvedBudget := mkResolvedBudget {
  rb_globalBudget : EffectiveBudget;
  rb_agentBudget : option EffectiveBudget;
}.

(** [ResolvedVaultStateForOwner] is the state without [agentBudget]. *)
Record ResolvedVaultStateForOwner (C : Type) := mkResolvedForOwner {
  ro_vault : AgentVault;
  ro_policy : PolicyConfig;
  ro_tracker : option SpendTracker;
  ro_overlay : option AgentSpendOverlay;
  ro_constraints : option C;
  ro_globalBudget : EffectiveBudget;
  ro_allAgentBudgets : jsmap EffectiveBudget;
  ro_protocolBudgets : list ProtocolBudget;
  ro_maxTransactionUsd : Z;
  ro_stablecoinBalances : StablecoinBalances;
  ro_resolvedAtTimestamp : Z;
}.
Arguments mkResolvedForOwner {C}.
Arguments ro_allAgentBudgets {C}.

(** [decodeX(encoded[i])]: a missing account decodes to [exists: false]. *)
Definition decode_maybe {A} (decode : bytes -> res SigilError A) (acc : option bytes)
    : res SigilError (option A) :=
  match acc with
  | None => Ok None
  | Some data => Some <$> decode data
  end.

Definition require_account {A} (code : string) (vault : Address) (acc : option A)
    : res SigilError A :=
  match acc with
  | Some a => Ok a
  | None => Throw (sdk_error code [("vault", CStr vault)])
  end.

(** [{ spent24h: spent, cap, remaining: cap > spent ? cap - spent : 0n }] *)
Definition budget_of (spent cap : Z) : EffectiveBudget :=
  mkBudget spent cap (if cap >? spent then cap - spent else 0).

(** [nowUnix ?? BigInt(Math.floor(Date.now() / 1000))], [dateNow] in milliseconds. *)
Definition resolve_timestamp (nowUnix : option Z) (dateNow : Z) : Z :=
  default (dateNow / 1000) nowUnix.

Definition global_budget (tracker : option SpendTracker) (policy : PolicyConfig) (ts : Z)
    : EffectiveBudget :=
  let globalSpent := match tracker with Some t => getRolling24hUsd t ts | None => 0 end in
  budget_of globalSpent (dailySpendingCapUsd policy).

Definition parse_ata_balance (encoded : option bytes) : Z :=
  match encoded with
  | Some data => if (72 <=? length data)%nat then read_u64_le 64 data else 0
  | None => 0
  end.

Section resolvers.
Context {C : Type} `{env : !ResolverEnv C}.

(** The budget of one agent with limit [cap], from the overlay if there is one. *)
Definition agent_budget_of (overlay : option AgentSpendOverlay) (entryAddr : Address)
    (cap ts : Z) : EffectiveBudget :=
  match overlay with
  | Some o =>
      match find_by (fun e => bytesMatchAddress (ace_agent e) entryAddr) (ov_entries o) with
      | Some overlayEntry => budget_of (getAgentRolling24hUsd overlayEntry ts) cap
      | None => mkBudget 0 cap cap
      end
  | None => mkBudget 0 cap cap
  end.

Definition agent_budget_step (overlay : option AgentSpendOverlay) (agent : Address) (ts : Z)
    (acc : option EffectiveBudget * jsmap EffectiveBudget) (entry : AgentEntry)
    : option EffectiveBudget * jsmap EffectiveBudget :=
  if spendingLimitUsd entry <=? 0 then acc
  else
    let entryAddr := pubkey entry in
    let budget := agent_budget_of overlay entryAddr (spendingLimitUsd entry) ts in
    (if decide (entryAddr = agent) then Some budget else acc.1,
     jm_set entryAddr budget acc.2).

Definition agent_budgets (overlay : option AgentSpendOverlay) (agent : Address) (ts : Z)
    (entries : list AgentEntry) : option EffectiveBudget * jsmap EffectiveBudget :=
  fold_left (agent_budget_step overlay agent ts) entries (None, []).

(** The loop over [protocols] with the parallel array [caps]. *)
Fixpoint protocol_budget_loop (tracker : SpendTracker) (ts : Z) (protocols : list Address)
    (caps : list Z) : list ProtocolBudget :=
  match protocols with
  | [] => []
  | protocol :: protocols' =>
      let rest := protocol_budget_loop tracker ts protocols' (tail caps) in
      match head caps with
      | None => rest
      | Some protocolCap =>
          if protocolCap =? 0 then rest
          else mkProtocolBudget protocol
                 (budget_of (getProtocolSpend tracker protocol ts) protocolCap) :: rest
      end
  end.

Definition protocol_budgets (tracker : option SpendTracker) (policy : PolicyConfig) (ts : Z)
    : list ProtocolBudget :=
  match tracker with
  | Some t =>
      if hasProtocolCaps policy
      then protocol_budget_loop t ts (protocols policy) (protocolCaps policy) else []
  | None => []
  end.

(** [rpc] is the snapshot one [getMultipleAccounts] call answers from. *)
Definition resolveVaultState (rpc : Address -> option bytes) (vault agent : Address)
    (nowUnix : option Z) (network : option Network) (dateNow : Z)
    : res SigilError (ResolvedVaultState C) :=
  let net := default "mainnet-beta" network in
  let usdcMint := if decide (net = "devnet") then USDC_MINT_DEVNET else USDC_MINT_MAINNET in
  let usdtMint := if decide (net = "devnet") then USDT_MINT_DEVNET else USDT_MINT_MAINNET in
  decodedVault ← decode_maybe decodeAgentVault (rpc vault);
  vaultData ← require_account "SIGIL_ERROR__SDK__VAULT_NOT_FOUND" vault decodedVault;
  decodedPolicy ← decode_maybe decodePolicyConfig (rpc (getPolicyPDA vault));
  policy ← require_account "SIGIL_ERROR__SDK__POLICY_NOT_FOUND" vault decodedPolicy;
  tracker ← decode_maybe decodeSpendTracker (rpc (getTrackerPDA vault));
  overlay ← decode_maybe decodeAgentSpendOverlay (rpc (getAgentOverlayPDA vault 0));
  constraints ← decode_maybe decodeInstructionConstraints (rpc (getConstraintsPDA vault));
  let ts := resolve_timestamp nowUnix dateNow in
  let ab := agent_budgets overlay agent ts (agents vaultData) in
  Ok {| rs_vault := vaultData; rs_policy := policy; rs_tracker := tracker;
        rs_overlay := overlay; rs_constraints := constraints;
        globalBudget := global_budget tracker policy ts;
        agentBudget := ab.1;
        allAgentBudgets := ab.2;
        protocolBudgets := protocol_budgets tracker policy ts;
        maxTransactionUsd := maxTransactionSizeUsd policy;
        stablecoinBalances :=
          mkBalances (parse_ata_balance (rpc (deriveAta vault usdcMint)))
                     (parse_ata_balance (rpc (deriveAta vault usdtMint)));
        resolvedAtTimestamp := ts |}.

Definition resolveVaultStateForOwner (rpc : Address -> option bytes) (vault : Address)
    (nowUnix : option Z) (network : option Network) (dateNow : Z)
    : res SigilError (ResolvedVaultStateForOwner C) :=
  s ← resolveVaultState rpc vault SYSTEM_PROGRAM_ADDRESS nowUnix network dateNow;
  Ok (mkResolvedForOwner (rs_vault s) (rs_policy s) (rs_tracker s) (rs_overlay s)
        (rs_constraints s) (globalBudget s) (allAgentBudgets s) (protocolBudgets s)
        (maxTransactionUsd s) (stablecoinBalances s) (resolvedAtTimestamp s)).

Definition single_agent_budget (overlay : option AgentSpendOverlay) (agent : Address) (ts : Z)
    (entries : list AgentEntry) : option EffectiveBudget :=
  match find_by (fun a => bool_decide (pubkey a = agent)) entries with
  | Some agentEntry =>
      if spendingLimitUsd agentEntry >? 0
      then Some (agent_budget_of overlay agent (spendingLimitUsd agentEntry) ts)
      else None
  | None => None
  end.

Definition resolveVaultBudget (rpc : Address -> option bytes) (vault agent : Address)
    (nowUnix : option Z) (dateNow : Z) : res SigilError ResolvedBudget :=
  decodedVault ← decode_maybe decodeAgentVault (rpc vault);
  vaultData ← require_account "SIGIL_ERROR__SDK__VAULT_NOT_FOUND" vault decodedVault;
  decodedPolicy ← decode_maybe decodePolicyConfig (rpc (getPolicyPDA vault));
  policy ← require_account "SIGIL_ERROR__SDK__POLICY_NOT_FOUND" vault decodedPolicy;
  tracker ← decode_maybe decodeSpendTracker (rpc (getTrackerPDA vault));
  overlay ← decode_maybe decodeAgentSpendOverlay (rpc (getAgentOverlayPDA vault 0));
  let ts := resolve_timestamp nowUnix dateNow in
  Ok (mkResolvedBudget (global_budget tracker policy ts)
        (single_agent_budget overlay agent ts (agents vaultData))).
End resolvers.

(** ** Vault discovery *)
Record VaultLocator := mkLocator { vaultAddress : Address; loc_vaultId : Z }.
#[export] Instance VaultLocator_eq_dec : EqDecision VaultLocator.
Proof. solve_decision. Defined.

(** What a failed RPC call throws: [err instanceof Error], its [code] and [message]. *)
Record RpcError := mkRpcError {
  err_isError : bool;
  err_code : option Z;
  err_message : string;
}.

Definition to_lower_ascii (c : Ascii.ascii) : Ascii.ascii :=
  let n := Ascii.nat_of_ascii c in
  if ((65 <=? n) && (n <=? 90))%nat then Ascii.ascii_of_nat (n + 32) else c.

Fixpoint toLowerCase (s : string) : string :=
  match s with
  | EmptyString => EmptyString
  | String c s' => String (to_lower_ascii c) (toLowerCase s')
  end.

(** [s.includes(pat)] *)
Fixpoint includes (pat s : string) : bool :=
  String.prefix pat s ||
  match s with EmptyString => false | String _ s' => includes pat s' end.

Definition isGpaUnsupportedError (err : RpcError) : bool :=
  if negb (err_isError err) then false
  else if bool_decide (err_code err = Some (-32601)) || bool_decide (err_code err = Some (-32010))
  then true
  else
    let msg := toLowerCase (err_message err) in
    includes "method not found" msg || includes "not available" msg ||
    includes "not supported" msg || includes "disabled" msg || includes "410" msg.

Definition propagates (err : RpcError) : bool :=
  bool_decide (err_code err = Some (-32005)) ||
  (err_isError err && includes "429" (err_message err)).

Section discovery.
Context {C : Type} `{env : !ResolverEnv C}.

(** [gpa]: the (pubkey, vault id) pairs [getProgramAccounts] returned, or what it threw;
    [exists_at]: whether [getMultipleAccounts] finds an account. *)
Definition verify_vaults (owner : Address) (parsed : list VaultLocator) : list VaultLocator :=
  filter (fun entry => getVaultPDA owner (loc_vaultId entry) = vaultAddress entry) parsed.

Definition probe_vaults (owner : Address) (cappedProbe : Z) (exists_at : Address -> bool)
    : list VaultLocator :=
  filter (fun p => exists_at (vaultAddress p) = true)
    ((fun i => mkLocator (getVaultPDA owner (Z.of_nat i)) (Z.of_nat i))
      <$> seq 0 (Z.to_nat cappedProbe)).

Definition findVaultsByOwner (gpa : res RpcError (list VaultLocator))
    (exists_at : Address -> bool) (owner : Address) (maxProbe : Z)
    : res RpcError (list VaultLocator) :=
  let cappedProbe := Z.min (Z.max 0 maxProbe) 100 in
  match gpa with
  | Ok parsed => Ok (sort_by loc_vaultId (verify_vaults owner parsed))
  | Throw err =>
      if propagates err then Throw err
      else if negb (isGpaUnsupportedError err) then Throw err
      else Ok (probe_vaults owner cappedProbe exists_at)
  end.
End discovery.

(** ** The mirror computes what the program computes *)

(** What one bucket adds to the rolling total, as a function of its own. *)
Definition bucket_share (windowStart currentEpoch : Z) (b : EpochBucket) : Z :=
  rolling_step windowStart currentEpoch 0 b.

Lemma rolling_step_share ws cur total b :
  rolling_step ws cur total b = total + bucket_share ws cur b.
Proof.
  unfold bucket_share, rolling_step.
  destruct (usdAmount b =? 0); [lia|].
  destruct (_ || _); [lia|]. destruct (_ >=? _); lia.
Qed.

Lemma rolling_fold_sum ws cur bs z :
  fold_left (rolling_step ws cur) bs z = z + sum_of (bucket_share ws cur) bs.
Proof.
  revert z. induction bs as [|b bs IH]; intros z; [rewrite sum_of_nil; cbn; lia|].
  cbn [fold_left]. rewrite IH, rolling_step_share, sum_of_cons. lia.
Qed.

(** A bucket never counts for more than it holds. *)
Lemma bucket_share_bounds ws cur b :
  0 <= usdAmount b -> 0 <= bucket_share ws cur b <= usdAmount b.
Proof.
  intros Hu. unfold bucket_share, rolling_step. rewrite !Z.add_0_l.
  destruct (usdAmount b =? 0); [lia|].
  destruct (_ || _) eqn:Hout; [lia|]. apply orb_false_iff in Hout as [Hend _].
  destruct (_ >=? _) eqn:Hin; [lia|]. unfold EPOCH_DURATION in *.
  rewrite Z.quot_div_nonneg by nia.
  split; [apply Z.div_pos; nia|]. apply Z.div_le_upper_bound; nia.
Qed.

(** Saturation and the clamp of the window start at zero never change a share. *)
Lemma bucket_share_chain now b :
  bucket_wf b -> 0 < now <= I64_MAX ->
  bucket_contribution (sat_i64 (now - ROLLING_WINDOW_SECONDS)) (Z.quot now EPOCH_DURATION) b
  = bucket_share (window_start now) (Z.quot now EPOCH_DURATION) b.
Proof.
  intros [[He0 He1] [Hu0 Hu1]] [Hn Hm].
  pose proof (epoch_bounds now Hn) as [Hc0 Hc].
  unfold bucket_contribution, bucket_share, rolling_step, window_start, ROLLING_WINDOW_SECONDS.
  rewrite (sat_i64_id (now - 86400)) by (unfold is_i64, I64_MAX, I64_MIN in *; lia).
  rewrite !Z.add_0_l.
  set (c := Z.quot now EPOCH_DURATION) in *. unfold EPOCH_DURATION in *.
  destruct (usdAmount b =? 0); [done|].
  destruct (Z.gtb_spec (epochId b) c) as [Hfut|Hpast]; [by rewrite !orb_true_r|].
  rewrite !orb_false_r.
  rewrite (sat_i64_id (epochId b * 600)) by (unfold is_i64, I64_MAX, I64_MIN in *; lia).
  unfold sat_i64, sat_u128, U128_MAX, I64_MAX, I64_MIN, U64_MAX in *.
  destruct (now >? 86400) eqn:Hw;
    repeat match goal with
    | |- context [ if ?x <=? ?y then _ else _ ] => destruct (x <=? y) eqn:?
    | |- context [ if ?x >=? ?y then _ else _ ] => destruct (x >=? y) eqn:?
    end; try lia.
  f_equal. rewrite Z.min_r; [|nia]. f_equal. lia.
Qed.

(** Summing non-negative shares with a saturating [u128] accumulator is exact while the
    exact sum fits. *)
Lemma fold_sat_u128_sum {A} (f : A -> Z) l z :
  (forall x, x ∈ l -> 0 <= f x) -> 0 <= z -> z + sum_of f l <= U128_MAX ->
  fold_left (fun t x => sat_u128 (t + f x)) l z = z + sum_of f l.
Proof.
  revert z. induction l as [|x l IH]; intros z Hf Hz Hle; [rewrite sum_of_nil; cbn; lia|].
  rewrite sum_of_cons in *. cbn [fold_left].
  assert (0 <= f x) by (apply Hf; set_solver).
  assert (0 <= sum_of f l) by (apply sum_of_nonneg; set_solver).
  rewrite sat_u128_id by lia. rewrite IH; [lia|set_solver|lia|lia].
Qed.

Lemma sum_of_bound {A} (f : A -> Z) l m :
  (forall x, x ∈ l -> f x <= m) -> sum_of f l <= Z.of_nat (length l) * m.
Proof.
  induction l as [|x l IH]; intros H; [done|]. rewrite sum_of_cons. cbn [length].
  assert (f x <= m) by (apply H; set_solver).
  assert (sum_of f l <= Z.of_nat (length l) * m) by (apply IH; set_solver). lia.
Qed.

Lemma wf_bucket_share_bounds t ws cur b :
  tracker_wf t -> b ∈ buckets t -> 0 <= bucket_share ws cur b <= U64_MAX.
Proof.
  intros [_ Hb _] Hin. destruct (proj1 (Forall_forall _ _) Hb b Hin) as [_ Hu].
  pose proof (bucket_share_bounds ws cur b). unfold is_u64 in Hu. lia.
Qed.

Lemma getRolling24hUsd_range t now : tracker_wf t -> is_u64 (getRolling24hUsd t now).
Proof.
  intros Hwf. unfold getRolling24hUsd, is_u64, U64_MAX.
  destruct (now <=? 0); [lia|]. destruct (_ >? NUM_EPOCHS); [lia|].
  rewrite rolling_fold_sum.
  pose proof (sum_of_nonneg (bucket_share (window_start now) (Z.quot now EPOCH_DURATION)) (buckets t)
    (fun b Hb => proj1 (wf_bucket_share_bounds t _ _ b Hwf Hb))) as Hs.
  destruct (Z.gtb_spec (0 + sum_of (bucket_share (window_start now) (Z.quot now EPOCH_DURATION)) (buckets t)) 18446744073709551615); lia.
Qed.

Lemma getRolling24hUsd_chain (t : SpendTracker) (now : Z) :
  tracker_wf t -> now <= I64_MAX ->
  getRolling24hUsd t now = get_rolling_24h_usd t now.
Proof.
  intros Hwf Hm. unfold getRolling24hUsd, get_rolling_24h_usd.
  destruct (Z.leb_spec now 0) as [|Hn]; [done|]. destruct (_ >? NUM_EPOCHS); [done|].
  pose proof (fun b Hb => wf_bucket_share_bounds t (window_start now)
                (Z.quot now EPOCH_DURATION) b Hwf Hb) as Hs.
  assert (Heq : forall b, b ∈ buckets t ->
    bucket_contribution (sat_i64 (now - ROLLING_WINDOW_SECONDS)) (Z.quot now EPOCH_DURATION) b
    = bucket_share (window_start now) (Z.quot now EPOCH_DURATION) b).
  { intros b Hb. apply bucket_share_chain; [|lia].
    by apply (proj1 (Forall_forall _ _) (twf_buckets t Hwf)). }
  cbv zeta. rewrite rolling_fold_sum, fold_sat_u128_sum, (sum_of_ext _ _ _ Heq); try done.
  - intros b Hb. rewrite (Heq b Hb). by apply Hs.
  - rewrite (sum_of_ext _ _ _ Heq).
    pose proof (sum_of_bound _ (buckets t) U64_MAX (fun b Hb => proj2 (Hs b Hb))) as Hle.
    rewrite (twf_length t Hwf) in Hle. unfold NUM_EPOCHS, U64_MAX, U128_MAX in *. lia.
Qed.

(** C10: the SDK's rolling 24h spend is the program's. On every well-formed tracker and
    every [i64] clock, [getRolling24hUsd] returns exactly what
    [SpendTracker::get_rolling_24h_usd] returns: clamping the window start at zero,
    exact [bigint] products instead of saturating ones and the final [u64] clamp
    never make them differ. *)
Theorem getRolling24hUsd_mirrors_chain (t : SpendTracker) (now : Z) :
  tracker_wf t -> now <= I64_MAX ->
  getRolling24hUsd t now = get_rolling_24h_usd t now.
Proof. apply getRolling24hUsd_chain. Qed.

(** One iteration's share of the agent loop is at most the contribution it reads. *)
Lemma agent_loop_mirror n k e now total :
  0 < now <= I64_MAX -> Forall is_u64 (contributions e) -> 0 <= total ->
  total + Z.of_nat n * U64_MAX <= U128_MAX ->
  agent_loop n k e (sat_i64 (now - ROLLING_WINDOW_SECONDS)) (Z.quot now OVERLAY_EPOCH_DURATION) total
  = agent_rolling_loop n k e (window_start now) (Z.quot now OVERLAY_EPOCH_DURATION) total.
Proof.
  intros [Hn Hm] Hc. revert k total. induction n as [|n IH]; intros k total Ht Hle; [done|].
  cbn [agent_loop agent_rolling_loop].
  assert (Hstep : forall x, 0 <= x <= U64_MAX ->
    agent_loop n (k + 1) e (sat_i64 (now - ROLLING_WINDOW_SECONDS))
      (Z.quot now OVERLAY_EPOCH_DURATION) (total + x)
    = agent_rolling_loop n (k + 1) e (window_start now)
      (Z.quot now OVERLAY_EPOCH_DURATION) (total + x)).
  { intros x Hx. apply IH; lia. }
  pose proof (Hstep 0 ltac:(unfold U64_MAX; lia)) as Hskip. rewrite Z.add_0_r in Hskip.
  set (ek := ace_lastWriteEpoch e - k) in *.
  set (i := Z.to_nat (Z.rem ek OVERLAY_NUM_EPOCHS)).
  set (x := default 0 (contributions e !! i)).
  assert (Hx : 0 <= x <= U64_MAX).
  { subst x. destruct (contributions e !! i) as [y|] eqn:Hy; simpl; [|unfold U64_MAX; lia].
    exact (Forall_lookup_1 _ _ _ _ Hc Hy). }
  destruct (Z.ltb_spec ek 0); [done|].
  rewrite Hskip.
  rewrite (sat_i64_id (now - ROLLING_WINDOW_SECONDS)) in *
    by (unfold is_i64, I64_MAX, I64_MIN, ROLLING_WINDOW_SECONDS in *; lia).
  unfold window_start in *.
  assert (Hsat : forall y, 0 <= y <= U64_MAX -> sat_u128 (total + y) = total + y).
  { intros y Hy. apply sat_u128_id. unfold U64_MAX in *. lia. }
  rewrite (Hsat x Hx).
  unfold OVERLAY_EPOCH_DURATION, ROLLING_WINDOW_SECONDS in *.
  destruct (Z.gtb_spec now 86400) as [Hw|Hw].
  - destruct (Z.leb_spec (ek * 3600 + 3600) (now - 86400)); [done|].
    destruct (ek >? _); [done|]. destruct (x =? 0); [done|].
    destruct (Z.geb_spec (ek * 3600) (now - 86400)); [by apply Hstep|].
    assert (Hov : 0 <= ek * 3600 + 3600 - (now - 86400) <= 3600) by lia.
    revert Hov. generalize (ek * 3600 + 3600 - (now - 86400)). intros ov Hov.
    clearbody x. assert (0 <= x * ov <= 3600 * U64_MAX) by (unfold U64_MAX in *; nia).
    rewrite (sat_u128_id (x * ov)) by (unfold U64_MAX, U128_MAX in *; lia).
    assert (0 <= Z.quot (x * ov) 3600 <= U64_MAX).
    { rewrite Z.quot_div_nonneg by lia. split; [apply Z.div_pos; lia|].
      apply Z.div_le_upper_bound; lia. }
    rewrite Hsat by done. by apply Hstep.
  - destruct (Z.leb_spec (ek * 3600 + 3600) (now - 86400)); [lia|].
    destruct (Z.leb_spec (ek * 3600 + 3600) 0); [lia|].
    destruct (ek >? _); [done|]. destruct (x =? 0); [done|].
    destruct (Z.geb_spec (ek * 3600) (now - 86400)); [|lia].
    destruct (Z.geb_spec (ek * 3600) 0); [|lia]. by apply Hstep.
Qed.

(** the per-agent rolling spend is the program's. On every well-formed overlay entry
    and every [i64] clock, [getAgentRolling24hUsd] returns what
    [AgentSpendOverlay::get_agent_rolling_24h_usd] returns, the early [break]s of the
    backwards scan included. *)
Theorem getAgentRolling24hUsd_mirrors_chain (e : AgentContributionEntry) (now : Z) :
  contribution_wf e -> now <= I64_MAX ->
  getAgentRolling24hUsd e now = get_agent_rolling_24h_usd e now.
Proof.
  intros Hwf Hm. unfold getAgentRolling24hUsd, get_agent_rolling_24h_usd.
  destruct (Z.leb_spec now 0) as [|Hn]; [done|]. destruct (_ >? OVERLAY_NUM_EPOCHS); [done|].
  cbv zeta. by rewrite agent_loop_mirror; [|lia|apply cwf_amounts| |].
Qed.

Section pure_lemmas.
Context {C : Type} `{env : !ResolverEnv C, laws : !AddressLaws env}.

Lemma bytesMatchAddress_spec bs a :
  bytesMatchAddress bs a = bool_decide (bs = addressEncode a).
Proof using laws.
  unfold bytesMatchAddress. case_bool_decide as Hlen; [rewrite andb_true_l|rewrite andb_false_l].
  - apply eq_bool_prop_intro. rewrite forallb_True. split.
    + intros Hall. apply bool_decide_pack, list_eq. intros i.
      destruct (decide (i < 32)%nat) as [Hi|Hi].
      * pose proof (proj1 (Forall_forall _ _) Hall i) as H.
        eapply bool_decide_unpack, H. apply elem_of_seq. lia.
      * rewrite !lookup_ge_None_2; [done|rewrite addressEncode_length; lia|].
        rewrite Hlen, addressEncode_length. lia.
    + intros ->%bool_decide_unpack. apply Forall_forall. intros i _. by apply bool_decide_pack.
  - symmetry. apply bool_decide_eq_false. congruence.
Qed.

(** the per-protocol spend is the program's, for every tracker and clock: the first
    counter whose 32 bytes are the address's decides, with the simple 144-epoch
    window. *)
Theorem getProtocolSpend_mirrors_chain (t : SpendTracker) (a : Address) (now : Z) :
  getProtocolSpend t a now = get_protocol_spend t now (addressEncode a).
Proof using laws.
  unfold getProtocolSpend, get_protocol_spend. destruct (now <=? 0); [done|].
  induction (protocolCounters t) as [|c cs IH]; simpl; [done|].
  rewrite bytesMatchAddress_spec, IH. by case_bool_decide; case_decide.
Qed.
End pure_lemmas.

(** ** Budgets *)

Lemma budget_of_spec spent c :
  0 <= spent -> 0 <= c ->
  let b := budget_of spent c in
  remaining b = Z.max (c - spent) 0 /\ 0 <= remaining b <= c.
Proof. intros Hs Hc. simpl. destruct (Z.gtb_spec c spent); lia. Qed.

Lemma agent_rolling_range e now : contribution_wf e -> is_u64 (getAgentRolling24hUsd e now).
Proof.
  intros Hwf. unfold getAgentRolling24hUsd, is_u64, U64_MAX.
  destruct (now <=? 0); [lia|]. destruct (_ >? OVERLAY_NUM_EPOCHS); [lia|]. cbv zeta.
  assert (forall n k cur tot, 0 <= tot ->
    0 <= agent_rolling_loop n k e (window_start now) cur tot) as H.
  { induction n as [|n IH]; intros k cur tot Ht; [done|]. cbn [agent_rolling_loop].
    destruct (_ <? 0); [done|]. destruct (Z.leb_spec ((ace_lastWriteEpoch e - k) *
      OVERLAY_EPOCH_DURATION + OVERLAY_EPOCH_DURATION) (window_start now)); [done|].
    destruct (_ >? cur); [by apply IH|].
    assert (Hx : 0 <= default 0 (contributions e !!
      Z.to_nat (Z.rem (ace_lastWriteEpoch e - k) OVERLAY_NUM_EPOCHS))).
    { destruct (contributions e !! _) as [y|] eqn:Hy; simpl; [|lia].
      apply (Forall_lookup_1 _ _ _ _ (cwf_amounts e Hwf) Hy). }
    destruct (_ =? 0); [by apply IH|]. destruct (_ >=? _); apply IH; [lia|].
    apply Z.add_nonneg_nonneg; [done|]. apply Z.quot_pos; [|done].
    apply Z.mul_nonneg_nonneg; lia. }
  specialize (H (Z.to_nat OVERLAY_NUM_EPOCHS) 0 (Z.quot now OVERLAY_EPOCH_DURATION) 0 ltac:(lia)).
  destruct (Z.gtb_spec (agent_rolling_loop (Z.to_nat OVERLAY_NUM_EPOCHS) 0 e (window_start now)
    (Z.quot now OVERLAY_EPOCH_DURATION) 0) 18446744073709551615); lia.
Qed.

Section resolver_lemmas.
Context {C : Type} `{env : !ResolverEnv C}.

(** What [agents] promises for the address [a]: its entry with a positive limit. *)
Definition limited_agent (entries : list AgentEntry) (a : Address) : option AgentEntry :=
  e ← find_by (fun x => bool_decide (pubkey x = a)) entries;
  if spendingLimitUsd e <=? 0 then None else Some e.

Definition entry_budget (overlay : option AgentSpendOverlay) (ts : Z) (e : AgentEntry)
    : EffectiveBudget := agent_budget_of overlay (pubkey e) (spendingLimitUsd e) ts.

Lemma find_by_pubkey_notin entries a :
  a ∉ pubkey <$> entries -> find_by (fun x => bool_decide (pubkey x = a)) entries = None.
Proof.
  intros Hn. apply find_by_none, Forall_forall. intros x Hx.
  apply bool_decide_eq_false. intros <-. apply Hn. by apply list_elem_of_fmap_2.
Qed.

Lemma agent_budgets_fold overlay agent ts entries acc :
  NoDup (pubkey <$> entries) ->
  let r := fold_left (agent_budget_step overlay agent ts) entries acc in
  r.1 = match limited_agent entries agent with
        | Some e => Some (entry_budget overlay ts e) | None => acc.1 end /\
  forall a, jm_get a r.2 =
    match limited_agent entries a with
    | Some e => Some (entry_budget overlay ts e) | None => jm_get a acc.2 end.
Proof.
  revert acc. induction entries as [|e entries IH]; intros acc Hnd; [done|].
  rewrite fmap_cons in Hnd. apply NoDup_cons in Hnd as [Hne Hnd].
  cbn [fold_left]. destruct (IH (agent_budget_step overlay agent ts acc e) Hnd) as [IH1 IH2].
  assert (Hfresh : limited_agent entries (pubkey e) = None).
  { unfold limited_agent. by rewrite find_by_pubkey_notin. }
  assert (Hcons : forall a, limited_agent (e :: entries) a =
    if decide (pubkey e = a) then (if spendingLimitUsd e <=? 0 then None else Some e)
    else limited_agent entries a).
  { intros a. unfold limited_agent. simpl. by case_bool_decide; case_decide. }
  cbv zeta. rewrite IH1. split; [|intros a; rewrite IH2]; rewrite Hcons;
    unfold agent_budget_step; destruct (spendingLimitUsd e <=? 0) eqn:Hl.
  - destruct (decide (pubkey e = agent)) as [<-|]; [by rewrite Hfresh|done].
  - cbn [fst]. destruct (decide (pubkey e = agent)) as [<-|]; [by rewrite Hfresh|done].
  - destruct (decide (pubkey e = a)) as [<-|]; [by rewrite Hfresh|done].
  - cbn [snd]. destruct (decide (pubkey e = a)) as [<-|].
    + by rewrite Hfresh, jm_get_set_eq.
    + by rewrite jm_get_set_ne.
Qed.

(** [allAgentBudgets] holds exactly one budget per agent with a positive limit, and
    [agentBudget] is the entry of the requested agent. *)
Lemma agent_budgets_spec overlay agent ts entries :
  NoDup (pubkey <$> entries) ->
  let r := agent_budgets overlay agent ts entries in
  r.1 = jm_get agent r.2 /\
  forall a, jm_get a r.2 = entry_budget overlay ts <$> limited_agent entries a.
Proof.
  intros Hnd. destruct (agent_budgets_fold overlay agent ts entries (None, []) Hnd) as [H1 H2].
  cbv zeta. unfold agent_budgets. rewrite H1. split.
  - rewrite H2. by destruct (limited_agent entries agent).
  - intros a. rewrite H2. by destruct (limited_agent entries a).
Qed.

Lemma single_agent_budget_spec overlay agent ts entries :
  single_agent_budget overlay agent ts entries
  = entry_budget overlay ts <$> limited_agent entries agent.
Proof.
  unfold single_agent_budget, limited_agent, entry_budget.
  destruct (find_by _ entries) as [e|] eqn:Hf; simpl; [|done].
  apply find_by_some in Hf as [_ <-%bool_decide_eq_true].
  by destruct (Z.gtb_spec (spendingLimitUsd e) 0), (Z.leb_spec (spendingLimitUsd e) 0); try lia.
Qed.
End resolver_lemmas.

(** ** The resolvers *)
Section resolvers_thms.
Context {C : Type} `{env : !ResolverEnv C}.

Lemma require_account_ok {A} code vault (acc : option A) a :
  require_account code vault acc = Ok a <-> acc = Some a.
Proof. destruct acc; simpl; split; congruence. Qed.

(** Everything a successful resolution tells about the accounts it read. *)
Lemma resolveVaultState_inv rpc vault agent nowUnix network dateNow s :
  resolveVaultState rpc vault agent nowUnix network dateNow = Ok s ->
  let ts := resolve_timestamp nowUnix dateNow in
  decode_maybe decodeAgentVault (rpc vault) = Ok (Some (rs_vault s)) /\
  decode_maybe decodePolicyConfig (rpc (getPolicyPDA vault)) = Ok (Some (rs_policy s)) /\
  decode_maybe decodeSpendTracker (rpc (getTrackerPDA vault)) = Ok (rs_tracker s) /\
  decode_maybe decodeAgentSpendOverlay (rpc (getAgentOverlayPDA vault 0)) = Ok (rs_overlay s) /\
  globalBudget s = global_budget (rs_tracker s) (rs_policy s) ts /\
  agentBudget s = (agent_budgets (rs_overlay s) agent ts (agents (rs_vault s))).1 /\
  allAgentBudgets s = (agent_budgets (rs_overlay s) agent ts (agents (rs_vault s))).2 /\
  protocolBudgets s = protocol_budgets (rs_tracker s) (rs_policy s) ts.
Proof.
  unfold resolveVaultState. cbv zeta. intros H.
  apply bind_ok_inv in H as (dv & Hdv & H).
  apply bind_ok_inv in H as (v & Hv%require_account_ok & H).
  apply bind_ok_inv in H as (dp & Hdp & H).
  apply bind_ok_inv in H as (p & Hp%require_account_ok & H).
  apply bind_ok_inv in H as (t & Ht & H).
  apply bind_ok_inv in H as (o & Ho & H).
  apply bind_ok_inv in H as (c & Hc & H).
  injection H as <-. subst. simpl. by split_and!.
Qed.

(** the cheap resolver agrees with the full one. From one snapshot, whenever
    [resolveVaultState] succeeds, [resolveVaultBudget] succeeds with the same global
    budget and, the vault listing no agent twice, the same agent budget, although one
    scans the agents with a map and the other with [find]. *)
Theorem resolveVaultBudget_agrees (rpc : Address -> option bytes) (vault agent : Address)
    (nowUnix : option Z) (network : option Network) (dateNow : Z) (s : ResolvedVaultState C) :
  resolveVaultState rpc vault agent nowUnix network dateNow = Ok s ->
  NoDup (pubkey <$> agents (rs_vault s)) ->
  resolveVaultBudget rpc vault agent nowUnix dateNow
  = Ok (mkResolvedBudget (globalBudget s) (agentBudget s)).
Proof.
  intros H Hnd. apply resolveVaultState_inv in H as (Hv & Hp & Ht & Ho & Hg & Ha & _ & _).
  unfold resolveVaultBudget. rewrite Hv. simpl. rewrite Hp. simpl. rewrite Ht, Ho. simpl.
  f_equal. rewrite Hg, Ha. f_equal. rewrite single_agent_budget_spec.
  destruct (agent_budgets_spec (rs_overlay s) agent (resolve_timestamp nowUnix dateNow)
    (agents (rs_vault s)) Hnd) as [-> ->]. done.
Qed.

(** A missing vault or policy account is the resolver's own error, whatever else the
    snapshot holds. *)
Lemma resolveVaultState_vault_missing rpc vault agent nowUnix network dateNow :
  rpc vault = None ->
  resolveVaultState rpc vault agent nowUnix network dateNow
  = Throw (sdk_error "SIGIL_ERROR__SDK__VAULT_NOT_FOUND" [("vault", CStr vault)]).
Proof. intros H. unfold resolveVaultState. by rewrite H. Qed.

Definition snapshot_wf (s : ResolvedVaultState C) : Prop :=
  match rs_tracker s with Some t => tracker_wf t | None => True end /\
  match rs_overlay s with Some o => overlay_wf o | None => True end /\
  is_u64 (dailySpendingCapUsd (rs_policy s)) /\
  Forall (fun e => is_u64 (spendingLimitUsd e)) (agents (rs_vault s)).

(** What a budget promises: [u64] spend, and [max (cap - spent) 0] left of the cap. *)
Definition budget_ok (b : EffectiveBudget) : Prop :=
  is_u64 (spent24h b) /\ remaining b = Z.max (cap b - spent24h b) 0 /\
  0 <= remaining b <= cap b.

Lemma budget_of_ok spent c : is_u64 spent -> 0 <= c -> budget_ok (budget_of spent c).
Proof.
  intros Hs Hc. destruct (budget_of_spec spent c) as [H1 H2]; [apply Hs|done|].
  split; [done|]. by split.
Qed.

Lemma agent_budget_of_ok overlay a c ts :
  match overlay with Some o => overlay_wf o | None => True end -> 0 <= c ->
  budget_ok (agent_budget_of overlay a c ts).
Proof.
  intros Ho Hc. unfold agent_budget_of.
  assert (Hz : budget_ok (mkBudget 0 c c)).
  { unfold budget_ok, is_u64, U64_MAX; simpl; lia. }
  destruct overlay as [o|]; [|done]. destruct (find_by _ _) as [e|] eqn:He; [|done].
  apply find_by_some in He as [He _]. apply budget_of_ok; [|done].
  apply agent_rolling_range. by apply (proj1 (Forall_forall _ _) Ho).
Qed.

(** C35: every budget a resolution reports is sound: on decoded accounts in range, the
    global budget and each agent's budget have a [u64] spend, their cap is the
    account's, and what remains is [max (cap - spent) 0]; an agent is listed exactly
    when its limit is positive, and the focused agent's budget is its map entry. *)
Theorem resolveVaultState_budgets_sound (rpc : Address -> option bytes) (vault agent : Address)
    (nowUnix : option Z) (network : option Network) (dateNow : Z) (s : ResolvedVaultState C) :
  resolveVaultState rpc vault agent nowUnix network dateNow = Ok s ->
  snapshot_wf s -> NoDup (pubkey <$> agents (rs_vault s)) ->
  budget_ok (globalBudget s) /\
  cap (globalBudget s) = dailySpendingCapUsd (rs_policy s) /\
  agentBudget s = jm_get agent (allAgentBudgets s) /\
  (forall a b, jm_get a (allAgentBudgets s) = Some b ->
     budget_ok b /\ exists e, e ∈ agents (rs_vault s) /\ pubkey e = a /\
       0 < spendingLimitUsd e /\ cap b = spendingLimitUsd e) /\
  (forall e, e ∈ agents (rs_vault s) -> 0 < spendingLimitUsd e ->
     is_Some (jm_get (pubkey e) (allAgentBudgets s))).
Proof.
  intros H (Htr & Hov & Hcap & Hag) Hnd.
  apply resolveVaultState_inv in H as (Hv & Hp & Ht & Ho & Hg & Ha & Hall & _).
  destruct (agent_budgets_spec (rs_overlay s) agent (resolve_timestamp nowUnix dateNow)
    (agents (rs_vault s)) Hnd) as [Hab Hget]. rewrite Hg, Ha, Hall.
  split_and!; [|done|done| |].
  - apply budget_of_ok; [|apply Hcap]. destruct (rs_tracker s); [by apply getRolling24hUsd_range|].
    unfold is_u64, U64_MAX. lia.
  - intros a b. rewrite Hget. unfold limited_agent.
    destruct (find_by _ _) as [e|] eqn:Hf; simpl; [|done].
    destruct (Z.leb_spec (spendingLimitUsd e) 0); simpl; [done|]. intros [= <-].
    apply find_by_some in Hf as [Hin Hk%bool_decide_eq_true].
    split; [by apply agent_budget_of_ok; [|lia]|]. exists e. split_and!; [done..|].
    unfold entry_budget, agent_budget_of. destruct (rs_overlay s); [|done].
    by destruct (find_by _ _).
  - intros e He Hpos. rewrite Hget. unfold limited_agent.
    destruct (find_by _ _) as [e'|] eqn:Hf.
    + apply find_by_some in Hf as [Hin Hk%bool_decide_eq_true]. simpl.
      assert (e' = e) as ->.
      { apply list_elem_of_lookup in Hin as [i Hi], He as [j Hj].
        assert (i = j) as ->; [|congruence].
        eapply NoDup_lookup; [done| |]; rewrite list_lookup_fmap; [by rewrite Hi|].
        rewrite Hj. simpl. by f_equal. }
      destruct (Z.leb_spec (spendingLimitUsd e) 0); [lia|]. by eexists.
    + apply find_by_none in Hf. pose proof (proj1 (Forall_forall _ _) Hf e He) as Hb.
      by apply bool_decide_eq_false in Hb.
Qed.
End resolvers_thms.

(** ** Vault discovery *)
Section discovery_thms.
Context {C : Type} `{env : !ResolverEnv C}.

Lemma probe_vaults_ids owner n exists_at :
  StronglySorted (fun a b => loc_vaultId a <= loc_vaultId b)
    (probe_vaults owner n exists_at).
Proof.
  unfold probe_vaults. generalize (Z.to_nat n). generalize 0%nat.
  intros i k. revert i. induction k as [|k IH]; intros i; csimpl; [constructor|].
  rewrite filter_cons. case_decide; [|apply IH]. constructor; [apply IH|].
  apply Forall_forall. intros x [_ Hx]%list_elem_of_filter.
  apply list_elem_of_fmap in Hx as (j & -> & Hj%elem_of_seq). simpl. lia.
Qed.

(** discovery never reports an account the owner's PDA does not confirm. Whatever
    [getProgramAccounts] answered, a successful search returns only pairs whose
    address is the owner's PDA for that vault id, in ascending id order; a rate limit
    is never answered by probing, and probing is bounded by 100 ids. *)
Theorem findVaultsByOwner_sound (gpa : res RpcError (list VaultLocator))
    (exists_at : Address -> bool) (owner : Address) (maxProbe : Z) (vs : list VaultLocator) :
  findVaultsByOwner gpa exists_at owner maxProbe = Ok vs ->
  Forall (fun v => vaultAddress v = getVaultPDA owner (loc_vaultId v)) vs /\
  StronglySorted (fun a b => loc_vaultId a <= loc_vaultId b) vs /\
  match gpa with
  | Ok parsed =>
      vs ≡ₚ filter (fun v => vaultAddress v = getVaultPDA owner (loc_vaultId v)) parsed
  | Throw err =>
      isGpaUnsupportedError err = true /\ err_code err <> Some (-32005) /\
      (forall v, v ∈ vs <-> exists_at (vaultAddress v) = true /\
         vaultAddress v = getVaultPDA owner (loc_vaultId v) /\
         0 <= loc_vaultId v < Z.min maxProbe 100)
  end.
Proof.
  unfold findVaultsByOwner. destruct gpa as [parsed|err].
  - intros [= <-].
    assert (Hp : sort_by loc_vaultId (verify_vaults owner parsed)
      ≡ₚ filter (fun v => vaultAddress v = getVaultPDA owner (loc_vaultId v)) parsed).
    { rewrite sort_by_perm. unfold verify_vaults.
      erewrite list_filter_iff; [done|]. intros v. simpl. split; congruence. }
    split_and!; [|apply sort_by_sorted|done].
    rewrite Hp. apply Forall_forall. by intros v [Hv _]%list_elem_of_filter.
  - destruct (propagates err) eqn:Hpr; [done|]. destruct (isGpaUnsupportedError err); [|done].
    simpl. intros [= <-].
    assert (Hiff : forall v, v ∈ probe_vaults owner (Z.min (Z.max 0 maxProbe) 100) exists_at
      <-> exists_at (vaultAddress v) = true /\
         vaultAddress v = getVaultPDA owner (loc_vaultId v) /\
         0 <= loc_vaultId v < Z.min maxProbe 100).
    { intros v. unfold probe_vaults. rewrite list_elem_of_filter, list_elem_of_fmap. split.
      - intros (He & i & -> & Hi%elem_of_seq). simpl in *. split_and!; [done|done|lia|lia].
      - intros (He & Hv & Hr). split; [done|]. exists (Z.to_nat (loc_vaultId v)).
        rewrite Z2Nat.id by lia. split; [|apply elem_of_seq; lia].
        destruct v; simpl in *; congruence. }
    split_and!; [|apply probe_vaults_ids|done| |done].
    + apply Forall_forall. intros v Hv. by apply Hiff in Hv as (_ & Hv & _).
    + apply orb_false_iff in Hpr as [Hpr _]. by apply bool_decide_eq_false in Hpr.
Qed.
End discovery_thms.

(** ** Spending history *)
Section history.
Context (formatUsd : Z -> string).

Definition in_history (currentEpoch : Z) (b : EpochBucket) : bool :=
  negb (usdAmount b =? 0) && (currentEpoch - NUM_EPOCHS <=? epochId b)
  && (epochId b <=? currentEpoch).

Definition history_point (b : EpochBucket) : SpendingEpoch :=
  mkSpendingEpoch (epochId b) (epochId b * EPOCH_DURATION) (usdAmount b)
    (formatUsd (usdAmount b)).

Lemma history_fold cur bs acc :
  fold_left (history_step formatUsd (cur - NUM_EPOCHS) cur) bs acc
  = acc ++ (history_point <$> filter (fun b => in_history cur b = true) bs).
Proof.
  revert acc. induction bs as [|b bs IH]; intros acc; cbn [fold_left].
  { by rewrite app_nil_r. }
  rewrite IH, filter_cons. unfold history_step, in_history.
  destruct (usdAmount b =? 0), (Z.ltb_spec (epochId b) (cur - NUM_EPOCHS)),
    (Z.gtb_spec (epochId b) cur), (Z.leb_spec (cur - NUM_EPOCHS) (epochId b)),
    (Z.leb_spec (epochId b) cur); simpl; try lia; try done.
  by rewrite <- app_assoc.
Qed.

(** The share of a bucket in the rolling total is positive only inside the history's
    window of epochs. *)
Lemma share_outside_history now b :
  0 < now -> 0 <= epochId b ->
  in_history (Z.quot now EPOCH_DURATION) b = false ->
  bucket_share (window_start now) (Z.quot now EPOCH_DURATION) b = 0.
Proof.
  intros Hn He Hh. pose proof (epoch_bounds now Hn) as [Hc0 Hc].
  unfold in_history, bucket_share, rolling_step in *.
  set (c := Z.quot now EPOCH_DURATION) in *.
  destruct (usdAmount b =? 0); [done|]. simpl in Hh.
  destruct (Z.gtb_spec (epochId b) c); [by rewrite orb_true_r|].
  destruct (Z.leb_spec (epochId b * EPOCH_DURATION + EPOCH_DURATION) (window_start now)); [done|].
  exfalso. unfold window_start, EPOCH_DURATION, ROLLING_WINDOW_SECONDS, NUM_EPOCHS in *.
  destruct (Z.leb_spec (epochId b) c); [|lia].
  destruct (Z.leb_spec (c - 144) (epochId b)); [done|].
  destruct (Z.gtb_spec now 86400); lia.
Qed.

(** the chart and the budget tell the same story. [getSpendingHistory] returns
    exactly the non-empty buckets of the last 144 epochs in ascending time order, and
    the rolling total is at most the sum of the chart's points (the difference being
    the scaled boundary bucket); with no points the rolling total is zero. *)
Theorem getSpendingHistory_spec (t : SpendTracker) (now : Z) :
  tracker_wf t ->
  let h := getSpendingHistory formatUsd (Some t) now in
  StronglySorted (fun a b => se_timestamp a <= se_timestamp b) h /\
  getRolling24hUsd t now <= sum_of se_usdAmount h /\
  (0 < now -> Z.quot now EPOCH_DURATION - lastWriteEpoch t <= NUM_EPOCHS ->
   h ≡ₚ history_point <$>
     filter (fun b => in_history (Z.quot now EPOCH_DURATION) b = true) (buckets t)).
Proof.
  intros Hwf h. subst h. unfold getSpendingHistory, getRolling24hUsd.
  destruct (Z.leb_spec now 0) as [|Hn].
  { split_and!; [constructor|done|lia]. }
  destruct (Z.gtb_spec (Z.quot now EPOCH_DURATION - lastWriteEpoch t) NUM_EPOCHS).
  { split_and!; [constructor|done|lia]. }
  cbv zeta. split_and!; [apply sort_by_sorted| |].
  - rewrite (sum_of_perm _ _ _ (sort_by_perm _ _)), history_fold, app_nil_l, sum_of_fmap,
      sum_of_filter, rolling_fold_sum.
    set (sh := bucket_share _ _).
    assert (Hle : sum_of sh (buckets t) <= sum_of (fun b =>
      if decide (in_history (Z.quot now EPOCH_DURATION) b = true)
      then (se_usdAmount ∘ history_point) b else 0) (buckets t)).
    { apply sum_of_le. intros b Hb.
      destruct (proj1 (Forall_forall _ _) (twf_buckets t Hwf) b Hb) as [[He _] [Hu _]].
      case_decide as Hin; [by apply bucket_share_bounds|].
      apply not_true_iff_false in Hin. unfold sh. by rewrite share_outside_history. }
    destruct (Z.gtb_spec (0 + sum_of sh (buckets t)) U64_MAX); lia.
  - intros _ _. by rewrite sort_by_perm, history_fold.
Qed.
End history.

(** ** A concrete environment

    An address is encoded as its first 32 characters, padded; each decoder returns one
    fixed account. *)
Definition demo_encode (a : Address) : bytes :=
  take 32 ((Z.of_nat ∘ Ascii.nat_of_ascii <$> String.list_ascii_of_string a) ++ replicate 32 0).

Lemma demo_encode_length a : length (demo_encode a) = 32%nat.
Proof. unfold demo_encode. rewrite length_take, length_app, length_replicate. lia. Qed.

Definition demo_now : Z := 1700000123.
Definition demo_epoch : Z := Z.quot demo_now EPOCH_DURATION.
Definition demo_tracker : SpendTracker :=
  mkTracker
    (mkBucket (demo_epoch - 144) 600 :: mkBucket (demo_epoch - 3) 40
       :: replicate 142 (mkBucket 0 0))
    [mkCounter (demo_encode "protoA") demo_epoch 25] demo_epoch.
Definition demo_contribution : AgentContributionEntry :=
  mkContribution (demo_encode "agent1") (Z.quot demo_now OVERLAY_EPOCH_DURATION)
    (replicate 24 7).
Definition demo_overlay : AgentSpendOverlay :=
  mkOverlay [demo_contribution] [170] [3].
Definition demo_vault : AgentVault :=
  mkVault "owner" 0 [mkAgent "agent1" 2 100 false; mkAgent "agent2" 2 0 false] "fees" Active 255 0 0 0 0 0 0 0 0 0.
Definition demo_policy : PolicyConfig :=
  mkPolicy 1000 500 0 ["protoA"] 0 100 0 false true [30] 1 "vault" [] false 0 255 0 0.

#[export] Instance demo_env : ResolverEnv unit := {
  addressEncode := demo_encode;
  addressDecode := fun _ => None;
  getVaultPDA := fun o i => o +:+ pretty i;
  getPolicyPDA := fun a => a +:+ "/policy";
  getTrackerPDA := fun a => a +:+ "/tracker";
  getAgentOverlayPDA := fun a _ => a +:+ "/overlay";
  getConstraintsPDA := fun a => a +:+ "/constraints";
  deriveAta := fun a m => a +:+ "/" +:+ m;
  decodeAgentVault := fun _ => Ok demo_vault;
  decodePolicyConfig := fun _ => Ok demo_policy;
  decodeSpendTracker := fun _ => Ok demo_tracker;
  decodeAgentSpendOverlay := fun _ => Ok demo_overlay;
  decodeInstructionConstraints := fun _ => Ok tt;
}.

#[export] Instance demo_laws : AddressLaws demo_env.
Proof. split. intros a. apply demo_encode_length. Qed.

Definition demo_rpc (a : Address) : option bytes := Some [].

Lemma demo_tracker_wf : tracker_wf demo_tracker.
Proof.
  split; [reflexivity| |split; vm_compute; discriminate].
  do 2 (constructor; [split; split; vm_compute; discriminate|]).
  apply Forall_replicate. split; split; vm_compute; discriminate.
Qed.

Lemma demo_contribution_wf : contribution_wf demo_contribution.
Proof.
  split; [reflexivity| |split; vm_compute; [discriminate|reflexivity]].
  apply Forall_replicate. split; vm_compute; discriminate.
Qed.

Definition demo_state : res SigilError (ResolvedVaultState unit) :=
  resolveVaultState demo_rpc "vault" "agent1" (Some demo_now) None 0.

Lemma demo_nodup s : demo_state = Ok s -> NoDup (pubkey <$> agents (rs_vault s)).
Proof.
  intros H. injection H as <-. simpl.
  apply (bool_decide_unpack (NoDup ["agent1"; "agent2"])). reflexivity.
Qed.

Lemma demo_snapshot_wf s : demo_state = Ok s -> snapshot_wf s.
Proof.
  intros H. injection H as <-. split_and!.
  - apply demo_tracker_wf.
  - constructor; [apply demo_contribution_wf|constructor].
  - split; vm_compute; discriminate.
  - repeat (constructor; [split; vm_compute; discriminate|]). constructor.
Qed.

(** ** Witnesses *)
Lemma getRolling24hUsd_mirrors_chain_witness :
  getRolling24hUsd demo_tracker demo_now = 317 /\
  getRolling24hUsd demo_tracker demo_now = get_rolling_24h_usd demo_tracker demo_now.
Proof.
  split; [reflexivity|].
  apply (getRolling24hUsd_mirrors_chain demo_tracker demo_now demo_tracker_wf).
  vm_compute; discriminate.
Defined.

Lemma getAgentRolling24hUsd_mirrors_chain_witness :
  getAgentRolling24hUsd demo_contribution demo_now = 168 /\
  getAgentRolling24hUsd demo_contribution demo_now
  = get_agent_rolling_24h_usd demo_contribution demo_now.
Proof.
  split; [reflexivity|].
  apply (getAgentRolling24hUsd_mirrors_chain demo_contribution demo_now demo_contribution_wf).
  vm_compute; discriminate.
Defined.

Lemma getProtocolSpend_mirrors_chain_witness :
  getProtocolSpend demo_tracker "protoA" demo_now = 25 /\
  getProtocolSpend demo_tracker "protoA" demo_now
  = get_protocol_spend demo_tracker demo_now (addressEncode "protoA").
Proof.
  split; [reflexivity|].
  apply (getProtocolSpend_mirrors_chain (laws := demo_laws) demo_tracker "protoA" demo_now).
Defined.

Lemma resolveVaultBudget_agrees_witness :
  exists s, demo_state = Ok s /\ agentBudget s = Some (mkBudget 168 100 0) /\
  resolveVaultBudget demo_rpc "vault" "agent1" (Some demo_now) 0
  = Ok (mkResolvedBudget (globalBudget s) (agentBudget s)).
Proof.
  eexists. split; [reflexivity|]. split; [reflexivity|].
  eapply (resolveVaultBudget_agrees demo_rpc "vault" "agent1" (Some demo_now) None 0);
    [reflexivity|]. apply demo_nodup. reflexivity.
Defined.

Lemma resolveVaultState_budgets_sound_witness :
  exists s, demo_state = Ok s /\ budget_ok (globalBudget s).
Proof.
  eexists. split; [reflexivity|].
  refine (proj1 (resolveVaultState_budgets_sound demo_rpc "vault" "agent1" (Some demo_now) None 0
    _ _ _ _)).
  - reflexivity.
  - apply demo_snapshot_wf. reflexivity.
  - apply demo_nodup. reflexivity.
Defined.

Definition demo_gpa : res RpcError (list VaultLocator) :=
  Ok [mkLocator "owner2" 2; mkLocator "fake" 1; mkLocator "owner0" 0].

Lemma findVaultsByOwner_sound_witness :
  findVaultsByOwner demo_gpa (fun _ => false) "owner" 20
    = Ok [mkLocator "owner0" 0; mkLocator "owner2" 2] /\
  Forall (fun v => vaultAddress v = getVaultPDA "owner" (loc_vaultId v))
    [mkLocator "owner0" 0; mkLocator "owner2" 2].
Proof.
  split; [reflexivity|].
  apply (findVaultsByOwner_sound demo_gpa (fun _ => false) "owner" 20
    [mkLocator "owner0" 0; mkLocator "owner2" 2]). reflexivity.
Defined.

Lemma getSpendingHistory_spec_witness :
  se_epochId <$> getSpendingHistory (fun _ => "") (Some demo_tracker) demo_now
    = [demo_epoch - 144; demo_epoch - 3] /\
  getRolling24hUsd demo_tracker demo_now
    <= sum_of se_usdAmount (getSpendingHistory (fun _ => "") (Some demo_tracker) demo_now).
Proof.
  split; [vm_compute; reflexivity|].
  apply (getSpendingHistory_spec (fun _ => "") demo_tracker demo_now demo_tracker_wf).
Defined.
