(* ===== verification/TrackerSpec.v ===== *)
(** * What the spend tracker promises: an abstract ledger

    The abstract state is the log of successful spends, each with its time. The
    144-bucket ring buffer of [programs/sigil/src/state/tracker.rs] refines it: after
    any sequence of [record_spend] calls with a non-decreasing clock, the rolling total
    the SDK computes from the ring is a function of the log alone. *)

From S2P Require Import Prelude Types Accounts OnChain StateResolver.
Local Open Scope Z_scope.

Record Spend := mkSpend { spend_time : Z; spend_amount : Z }.

Definition epoch_of (now : Z) : Z := Z.quot now EPOCH_DURATION.

(** Total spent in one epoch. *)
Definition epoch_total (log : list Spend) (e : Z) : Z :=
  sum_of spend_amount (filter (fun s => epoch_of (spend_time s) = e) log).

(** The last 144 epochs up to [cur], oldest first. *)
Definition window_epochs (cur : Z) : list Z :=
  (fun j => cur - (NUM_EPOCHS - 1) + Z.of_nat j) <$> seq 0 (Z.to_nat NUM_EPOCHS).

Definition wrote_in (log : list Spend) (e : Z) : bool :=
  existsb (fun s => epoch_of (spend_time s) =? e) log.

(** The rolling total of the log: every spend of the last 144 epochs, and the epoch
    before them scaled by the part of it still inside the 24h window, unless a spend of
    the current epoch has already taken its slot. *)
Definition ledger_rolling (log : list Spend) (now : Z) : Z :=
  let cur := epoch_of now in
  let full := sum_of (epoch_total log) (window_epochs cur) in
  let boundary :=
    if wrote_in log cur then 0
    else Z.quot (epoch_total log (cur - NUM_EPOCHS) * (EPOCH_DURATION - Z.rem now EPOCH_DURATION))
           EPOCH_DURATION in
  clamp_u64 (full + boundary).

(** What was really spent in the 24 hours before [now]. *)
Definition true_spend (log : list Spend) (now : Z) : Z :=
  sum_of spend_amount (filter (fun s => now - ROLLING_WINDOW_SECONDS < spend_time s) log).

(** Trackers reachable from a fresh account by spends at non-decreasing times. *)
Inductive tracked : SpendTracker -> list Spend -> Z -> Prop :=
  | tracked_init : tracked empty_tracker [] 0
  | tracked_spend t log last now amount t' :
      tracked t log last -> last <= now <= I64_MAX -> is_u64 amount ->
      record_spend t now amount = Ok t' ->
      tracked t' (log ++ [mkSpend now amount]) now.

(** The representation invariant of one slot of the ring. *)
Record slot_ok (log : list Spend) (last : Z) (i : nat) (b : EpochBucket) : Prop := {
  slot_amount : usdAmount b =
    if Z.rem (epochId b) NUM_EPOCHS =? Z.of_nat i then epoch_total log (epochId b) else 0;
  slot_latest s : s ∈ log ->
    Z.rem (epoch_of (spend_time s)) NUM_EPOCHS = Z.of_nat i ->
    epoch_of (spend_time s) <= epochId b /\ Z.rem (epochId b) NUM_EPOCHS = Z.of_nat i;
  slot_range : 0 <= epochId b <= epoch_of last;
  slot_source : epochId b = 0 \/ wrote_in log (epochId b) = true;
}.

Record represents (t : SpendTracker) (log : list Spend) (last : Z) : Prop := {
  rep_wf : tracker_wf t;
  rep_slots i b : buckets t !! i = Some b -> slot_ok log last i b;
  rep_times s : s ∈ log -> 0 < spend_time s <= last /\ is_u64 (spend_amount s);
  rep_last : lastWriteEpoch t = epoch_of last;
  rep_last_in : log <> [] -> wrote_in log (epoch_of last) = true;
  rep_last_nonneg : 0 <= last;
}.

(** ** The invariant *)
Lemma epoch_total_app log s e :
  epoch_total (log ++ [s]) e =
  epoch_total log e + if decide (epoch_of (spend_time s) = e) then spend_amount s else 0.
Proof.
  unfold epoch_total. rewrite filter_app, sum_of_app. f_equal.
  rewrite filter_cons. case_decide; rewrite ?sum_of_cons; cbn; rewrite ?sum_of_nil; lia.
Qed.

Lemma epoch_total_none log e :
  (forall s, s ∈ log -> epoch_of (spend_time s) <> e) -> epoch_total log e = 0.
Proof.
  intros H. unfold epoch_total. apply sum_of_zero.
  intros s [Hs Hin]%list_elem_of_filter. by destruct (H s Hin).
Qed.

Lemma wrote_in_spec log e :
  wrote_in log e = true <-> exists s, s ∈ log /\ epoch_of (spend_time s) = e.
Proof.
  unfold wrote_in. rewrite existsb_exists. split.
  - intros (s & Hs & He%Z.eqb_eq). exists s. split; [by apply list_elem_of_In|done].
  - intros (s & Hs & He). exists s. split; [by apply list_elem_of_In|by apply Z.eqb_eq].
Qed.

Lemma wrote_in_app log s e : wrote_in log e = true -> wrote_in (log ++ [s]) e = true.
Proof. rewrite !wrote_in_spec. intros (x & Hx & He). exists x. split; [set_solver|done]. Qed.

Lemma wrote_in_last log now amount :
  wrote_in (log ++ [mkSpend now amount]) (epoch_of now) = true.
Proof. apply wrote_in_spec. exists (mkSpend now amount). split; [set_solver|done]. Qed.

Lemma epoch_of_mono a b : 0 <= a <= b -> epoch_of a <= epoch_of b.
Proof.
  intros H. unfold epoch_of. rewrite !epoch_quot by lia.
  apply Z.div_le_mono; [reflexivity|lia].
Qed.

Lemma epoch_of_nonneg now : 0 <= now -> 0 <= epoch_of now.
Proof. intros H. unfold epoch_of. apply Z.quot_pos; [done|reflexivity]. Qed.

Lemma rem_idx e : 0 <= e -> Z.rem e NUM_EPOCHS = Z.of_nat (Z.to_nat (Z.rem e NUM_EPOCHS)).
Proof. intros He. rewrite Z2Nat.id; [done|]. by apply Z.rem_nonneg. Qed.

Lemma represents_init : represents empty_tracker [] 0.
Proof.
  split; [apply empty_tracker_wf| | |done|done|done].
  - intros i b [-> Hi]%lookup_replicate. split; simpl.
    + by case_match.
    + intros s Hs. by apply elem_of_nil in Hs.
    + done.
    + by left.
  - intros s Hs. by apply elem_of_nil in Hs.
Qed.

(** The slot a spend goes to, after the reset and the addition. *)
Lemma slot_ok_write log b now amount last :
  let cur := epoch_of now in
  let i := Z.to_nat (Z.rem cur NUM_EPOCHS) in
  0 < now -> last <= now -> 0 <= last ->
  (forall s, s ∈ log -> 0 < spend_time s <= last) ->
  slot_ok log last i b ->
  slot_ok (log ++ [mkSpend now amount]) now i
    (mkBucket cur ((if epochId b =? cur then usdAmount b else 0) + amount)).
Proof.
  intros cur i Hn Hl Hl0 Ht [Ha Hlat Hr _].
  pose proof (epoch_of_nonneg now ltac:(lia)) as Hc0. fold cur in Hc0.
  pose proof (epoch_of_mono last now ltac:(lia)) as Hm. fold cur in Hm.
  pose proof (rem_idx cur Hc0) as Hi. fold i in Hi.
  split; simpl; [| |fold cur; lia|right; apply wrote_in_last].
  - rewrite Hi, Z.eqb_refl, epoch_total_app. simpl. rewrite decide_True by done. f_equal.
    destruct (Z.eqb_spec (epochId b) cur) as [He|He].
    + by rewrite Ha, He, Hi, Z.eqb_refl.
    + symmetry. apply epoch_total_none. intros s Hs Hse.
      destruct (Hlat s Hs) as [Hle Hmod]; [by rewrite Hse|]. rewrite Hse in Hle. lia.
  - intros s [Hs| ->%list_elem_of_singleton]%elem_of_app Hmod; simpl; [|done].
    split; [|done]. destruct (Ht s Hs). apply epoch_of_mono. lia.
Qed.

(** The other slots are untouched by it. *)
Lemma slot_ok_other log b now amount last j :
  0 < now -> last <= now -> 0 <= last ->
  Z.of_nat j <> Z.rem (epoch_of now) NUM_EPOCHS ->
  slot_ok log last j b -> slot_ok (log ++ [mkSpend now amount]) now j b.
Proof.
  intros Hn Hl Hl0 Hj [Ha Hlat Hr Hsrc].
  pose proof (epoch_of_mono last now ltac:(lia)) as Hm.
  split; [| |lia|destruct Hsrc; [by left|right; by apply wrote_in_app]].
  - destruct (Z.eqb_spec (Z.rem (epochId b) NUM_EPOCHS) (Z.of_nat j)) as [He|He]; [|done].
    rewrite epoch_total_app. simpl. rewrite decide_False, Z.add_0_r; [done|].
    intros Hc. rewrite Hc in Hj. lia.
  - intros s [Hs| ->%list_elem_of_singleton]%elem_of_app Hmod; simpl in *; [by apply Hlat|].
    lia.
Qed.

Lemma represents_spend t log last now amount t' :
  represents t log last -> last <= now <= I64_MAX -> is_u64 amount ->
  record_spend t now amount = Ok t' ->
  represents t' (log ++ [mkSpend now amount]) now.
Proof.
  intros [Hwf Hs Ht Hlast Hin Hnn] Hnow Ha Hrec.
  pose proof (record_spend_wf _ _ _ _ Hwf Ha (proj2 Hnow) Hrec) as Hwf'.
  unfold record_spend in Hrec.
  destruct (Z.gtb_spec now 0) as [Hpos|]; [simpl in Hrec|done].
  apply bind_ok_inv in Hrec as (usd & [-> _]%checked_add_u64_ok & [= <-]).
  fold (epoch_of now) in *. set (i := Z.to_nat (Z.rem (epoch_of now) NUM_EPOCHS)) in *.
  pose proof (epoch_of_nonneg now ltac:(lia)) as Hc0.
  pose proof (rem_idx _ Hc0) as Hi. fold i in Hi.
  assert (Hlt : (i < length (buckets t))%nat).
  { rewrite (twf_length t Hwf). by apply idx_bound. }
  split; [done| | |done| |lia]; simpl.
  - intros j b Hb. destruct (decide (j = i)) as [->|Hj].
    + rewrite list_lookup_insert_eq in Hb by done. injection Hb as <-.
      destruct (buckets t !! i) as [b0|] eqn:Hb0; [|apply lookup_ge_None in Hb0; lia]. simpl.
      pose proof (slot_ok_write log b0 now amount last ltac:(lia) ltac:(lia) Hnn
        (fun s H => proj1 (Ht s H)) (Hs i b0 Hb0)) as Hw.
      destruct (Z.eqb_spec (epochId b0) (epoch_of now)) as [He|He]; simpl; [by rewrite He|done].
    + rewrite list_lookup_insert_ne in Hb by done.
      apply (slot_ok_other _ _ _ _ last); [lia|lia|done| |by apply Hs].
      rewrite Hi. lia.
  - intros s [Hin'| ->%list_elem_of_singleton]%elem_of_app; simpl; [|split; [lia|done]].
    destruct (Ht s Hin'). split; [lia|done].
  - intros _. apply wrote_in_last.
Qed.

Lemma tracked_represents t log last : tracked t log last -> represents t log last.
Proof.
  induction 1; [apply represents_init|by eapply represents_spend].
Qed.

(** ** The ring computes the ledger's rolling total *)
Lemma sum_of_seq {A} (f : A -> Z) (d : A) l :
  sum_of f l = sum_of (fun i => f (default d (l !! i))) (seq 0 (length l)).
Proof.
  induction l as [|x l IH]; [done|].
  cbn [length seq]. rewrite !sum_of_cons, IH, <- fmap_S_seq, sum_of_fmap. done.
Qed.

Lemma in_window cur e :
  e ∈ window_epochs cur <-> cur - NUM_EPOCHS < e <= cur.
Proof.
  unfold window_epochs. rewrite list_elem_of_fmap. unfold NUM_EPOCHS. split.
  - intros (j & -> & Hj%elem_of_seq). lia.
  - intros He. exists (Z.to_nat (e - (cur - 143))). split; [lia|]. apply elem_of_seq. lia.
Qed.

(** The 144 epochs of a window fall into the 144 slots, one each. *)
Lemma window_slots cur :
  (fun e => Z.to_nat (e mod NUM_EPOCHS)) <$> window_epochs cur ≡ₚ seq 0 (Z.to_nat NUM_EPOCHS).
Proof.
  apply NoDup_Permutation; [|apply NoDup_seq|].
  - apply NoDup_fmap_2_strong.
    + intros e1 e2 H1%in_window H2%in_window Heq. unfold NUM_EPOCHS in *.
      pose proof (Z.mod_pos_bound e1 144 ltac:(lia)). pose proof (Z.mod_pos_bound e2 144 ltac:(lia)).
      pose proof (Z.div_mod e1 144 ltac:(lia)). pose proof (Z.div_mod e2 144 ltac:(lia)).
      assert (e1 mod 144 = e2 mod 144) by lia. lia.
    + unfold window_epochs. apply NoDup_fmap_2_strong; [|apply NoDup_seq]. intros. lia.
  - intros i. rewrite list_elem_of_fmap, elem_of_seq. unfold NUM_EPOCHS. split.
    + intros (e & -> & _). pose proof (Z.mod_pos_bound e 144 ltac:(lia)). lia.
    + intros Hi. exists (cur - (cur - Z.of_nat i) mod 144). split.
      * rewrite Zminus_mod_idemp_r. replace (cur - (cur - Z.of_nat i)) with (Z.of_nat i) by lia.
        rewrite Z.mod_small; lia.
      * apply in_window. pose proof (Z.mod_pos_bound (cur - Z.of_nat i) 144 ltac:(lia)).
        unfold NUM_EPOCHS. lia.
Qed.

Definition boundary_share (log : list Spend) (now : Z) : Z :=
  if wrote_in log (epoch_of now) then 0
  else Z.quot (epoch_total log (epoch_of now - NUM_EPOCHS)
               * (EPOCH_DURATION - Z.rem now EPOCH_DURATION)) EPOCH_DURATION.

Definition slot_target (log : list Spend) (now e : Z) : Z :=
  epoch_total log e + if e =? epoch_of now then boundary_share log now else 0.

(** Shares of buckets by the position of their epoch in the window. *)
Lemma share_inside now b :
  0 < now -> epoch_of now - NUM_EPOCHS < epochId b <= epoch_of now -> 0 <= epochId b ->
  bucket_share (window_start now) (epoch_of now) b = usdAmount b.
Proof.
  intros Hn He H0. pose proof (epoch_bounds now Hn) as [Hc0 Hc]. fold (epoch_of now) in *.
  unfold bucket_share, rolling_step, window_start, NUM_EPOCHS, EPOCH_DURATION,
    ROLLING_WINDOW_SECONDS in *.
  destruct (Z.eqb_spec (usdAmount b) 0) as [->|]; [done|].
  destruct (Z.gtb_spec (epochId b) (epoch_of now)); [lia|]. rewrite orb_false_r.
  destruct (Z.gtb_spec now 86400);
    [destruct (Z.leb_spec (epochId b * 600 + 600) (now - 86400)); [lia|];
     destruct (Z.geb_spec (epochId b * 600) (now - 86400)); lia|].
  destruct (Z.leb_spec (epochId b * 600 + 600) 0); [lia|].
  destruct (Z.geb_spec (epochId b * 600) 0); lia.
Qed.

Lemma share_before now b :
  0 < now -> epochId b < epoch_of now - NUM_EPOCHS -> 0 <= epochId b ->
  bucket_share (window_start now) (epoch_of now) b = 0.
Proof.
  intros Hn He H0. apply share_outside_history; [done|done|].
  unfold in_history. fold (epoch_of now).
  destruct (Z.leb_spec (epoch_of now - NUM_EPOCHS) (epochId b)); [lia|].
  by rewrite andb_false_r.
Qed.

Lemma share_boundary now b :
  0 < now -> epochId b = epoch_of now - NUM_EPOCHS -> 0 <= epochId b ->
  bucket_share (window_start now) (epoch_of now) b
  = Z.quot (usdAmount b * (EPOCH_DURATION - Z.rem now EPOCH_DURATION)) EPOCH_DURATION.
Proof.
  intros Hn He H0. pose proof (epoch_bounds now Hn) as [Hc0 Hc]. fold (epoch_of now) in *.
  pose proof (Z.quot_rem now EPOCH_DURATION ltac:(done)) as Hqr. fold (epoch_of now) in Hqr.
  unfold bucket_share, rolling_step, window_start, NUM_EPOCHS, EPOCH_DURATION,
    ROLLING_WINDOW_SECONDS in *.
  destruct (Z.eqb_spec (usdAmount b) 0) as [->|]; [done|].
  destruct (Z.gtb_spec (epochId b) (epoch_of now)); [lia|]. rewrite orb_false_r.
  destruct (Z.gtb_spec now 86400).
  - destruct (Z.leb_spec (epochId b * 600 + 600) (now - 86400)); [lia|].
    destruct (Z.geb_spec (epochId b * 600) (now - 86400)).
    + replace (600 - Z.rem now 600) with 600 by lia. by rewrite Z.quot_mul.
    + rewrite Z.add_0_l. do 2 f_equal. lia.
  - destruct (Z.leb_spec (epochId b * 600 + 600) 0); [lia|].
    destruct (Z.geb_spec (epochId b * 600) 0); [|lia].
    replace (600 - Z.rem now 600) with 600 by lia. by rewrite Z.quot_mul.
Qed.

Lemma share_zero now b :
  usdAmount b = 0 -> bucket_share (window_start now) (epoch_of now) b = 0.
Proof. intros H. unfold bucket_share, rolling_step. by rewrite H. Qed.

(** What the log says about the epoch of a slot: an epoch of the slot's residue with a
    non-zero total is not newer than the bucket's. *)
Lemma slot_newest log last i b e :
  0 <= last -> (forall s, s ∈ log -> 0 < spend_time s <= last) ->
  slot_ok log last i b -> e mod NUM_EPOCHS = Z.of_nat i ->
  wrote_in log e = true \/ epoch_total log e <> 0 ->
  0 <= e <= epochId b /\ epochId b mod NUM_EPOCHS = Z.of_nat i.
Proof.
  intros Hl Ht [_ Hlat Hr _] Hm Hw.
  assert (exists s, s ∈ log /\ epoch_of (spend_time s) = e) as (s & Hs & <-).
  { destruct Hw as [Hw|Hne]; [by apply wrote_in_spec|].
    destruct (wrote_in log e) eqn:Hw; [by apply wrote_in_spec|].
    exfalso. apply Hne, epoch_total_none. intros s Hs Hse.
    apply not_true_iff_false in Hw. apply Hw, wrote_in_spec. by exists s. }
  destruct (Ht s Hs). assert (0 <= epoch_of (spend_time s)) by (apply epoch_of_nonneg; lia).
  destruct (Hlat s Hs) as [Hle Hres]; [by rewrite Z.rem_mod_nonneg|].
  rewrite Z.rem_mod_nonneg in Hres by (done || apply Hr). split; [lia|done].
Qed.

Lemma same_residue a e :
  a mod NUM_EPOCHS = e mod NUM_EPOCHS -> a < e + NUM_EPOCHS -> a = e \/ a <= e - NUM_EPOCHS.
Proof.
  unfold NUM_EPOCHS. intros Hm Ha. pose proof (Z.div_mod e 144 ltac:(lia)).
  pose proof (Z.div_mod a 144 ltac:(lia)). lia.
Qed.

Lemma prev_residue e : (e - NUM_EPOCHS) mod NUM_EPOCHS = e mod NUM_EPOCHS.
Proof. replace (e - NUM_EPOCHS) with (e + (-1) * NUM_EPOCHS) by lia. by rewrite Z.mod_add. Qed.

(** The slot of an epoch older than the current one. *)
Lemma slot_share_old log last now e b :
  0 < now -> 0 <= last <= now -> epoch_of now - NUM_EPOCHS < e < epoch_of now ->
  (forall s, s ∈ log -> 0 < spend_time s <= last) ->
  slot_ok log last (Z.to_nat (e mod NUM_EPOCHS)) b ->
  bucket_share (window_start now) (epoch_of now) b = epoch_total log e.
Proof.
  intros Hn Hl He Ht Hok. pose proof (epoch_of_mono last now ltac:(lia)) as Hm.
  pose proof (Z.mod_pos_bound e NUM_EPOCHS ltac:(done)) as Hmod.
  pose proof (slot_newest log last _ b e (proj1 Hl) Ht Hok) as Hnew.
  destruct Hok as [Ha _ Hr _]. rewrite Z2Nat.id in * by apply Hmod.
  rewrite Z.rem_mod_nonneg in Ha by (done || apply Hr).
  destruct (decide (epoch_total log e = 0)) as [H0|H0].
  - rewrite H0. destruct (Z.eqb_spec (epochId b mod NUM_EPOCHS) (e mod NUM_EPOCHS)) as [Hres|];
      [|by apply share_zero].
    destruct (same_residue _ _ Hres) as [Heq|Hle]; [lia| |].
    + apply share_zero. by rewrite Ha, Heq.
    + apply share_before; lia.
  - destruct Hnew as [[He0 Hle] Hres]; [done|by right|].
    rewrite Hres, Z.eqb_refl in Ha.
    destruct (same_residue _ _ Hres) as [Heq|]; [lia| |unfold NUM_EPOCHS in *; lia].
    rewrite share_inside by lia. by rewrite Ha, Heq.
Qed.

(** The slot of the current epoch: a spend in it, or the boundary epoch it still holds. *)
Lemma slot_share_current log last now b :
  0 < now -> 0 <= last <= now ->
  (forall s, s ∈ log -> 0 < spend_time s <= last) ->
  slot_ok log last (Z.to_nat (epoch_of now mod NUM_EPOCHS)) b ->
  bucket_share (window_start now) (epoch_of now) b
  = epoch_total log (epoch_of now) + boundary_share log now.
Proof.
  intros Hn Hl Ht Hok. pose proof (epoch_of_mono last now ltac:(lia)) as Hm.
  set (cur := epoch_of now) in *.
  pose proof (Z.mod_pos_bound cur NUM_EPOCHS ltac:(done)) as Hmod.
  pose proof (slot_newest log last _ b cur (proj1 Hl) Ht Hok) as Hnew.
  pose proof (slot_newest log last _ b (cur - NUM_EPOCHS) (proj1 Hl) Ht Hok) as Hold.
  rewrite prev_residue in Hold.
  destruct Hok as [Ha _ Hr Hsrc]. rewrite Z2Nat.id in * by apply Hmod.
  rewrite Z.rem_mod_nonneg in Ha by (done || apply Hr).
  unfold boundary_share. fold cur.
  assert (Hb0 : epoch_total log (cur - NUM_EPOCHS) = 0 ->
    Z.quot (epoch_total log (cur - NUM_EPOCHS) * (EPOCH_DURATION - Z.rem now EPOCH_DURATION))
      EPOCH_DURATION = 0) by (intros ->; done).
  assert (Hcur0 : epochId b <> cur -> wrote_in log cur = false /\ epoch_total log cur = 0).
  { intros Hne.
    assert (Hno : ~ (wrote_in log cur = true \/ epoch_total log cur <> 0)).
    { intros Hw. destruct Hnew as [? _]; [done|done|lia]. }
    split; [by destruct (wrote_in log cur); [destruct Hno; left|]|].
    destruct (decide (epoch_total log cur = 0)); [done|]. by destruct Hno; right. }
  destruct (decide (epochId b = cur)) as [Heq|Hne].
  - rewrite Heq, Z.eqb_refl in Ha.
    rewrite share_inside by (unfold NUM_EPOCHS; fold cur; lia). rewrite Ha.
    destruct (wrote_in log cur) eqn:Hw; [lia|]. rewrite Hb0; [lia|].
    destruct (decide (epoch_total log (cur - NUM_EPOCHS) = 0)) as [|Hn0]; [done|].
    destruct Hold as [[Hp _] _]; [done|by right|]. rewrite Heq in Hsrc.
    destruct Hsrc as [H0|H1]; [unfold NUM_EPOCHS in Hp; lia|congruence].
  - destruct (Hcur0 Hne) as [-> ->]. rewrite Z.add_0_l.
    destruct (decide (epochId b = cur - NUM_EPOCHS)) as [Heq|Hne2].
    + rewrite share_boundary by (done || lia). do 2 f_equal.
      by rewrite Ha, Heq, prev_residue, Z.eqb_refl.
    + rewrite Hb0.
      * destruct (Z.eqb_spec (epochId b mod NUM_EPOCHS) (cur mod NUM_EPOCHS)) as [Hres|];
          [|by apply share_zero].
        destruct (same_residue _ _ Hres) as [|Hle]; [unfold NUM_EPOCHS; lia|done|].
        apply share_before; [done| |lia]. fold cur. lia.
      * destruct (decide (epoch_total log (cur - NUM_EPOCHS) = 0)) as [|Hn0]; [done|].
        destruct Hold as [[_ Hle] Hres]; [done|by right|].
        destruct (same_residue _ _ Hres) as [|]; [unfold NUM_EPOCHS; lia|done|lia].
Qed.

Lemma window_epochs_last cur :
  exists l, window_epochs cur = l ++ [cur] /\ forall e, e ∈ l -> cur - NUM_EPOCHS < e < cur.
Proof.
  exists ((fun j => cur - (NUM_EPOCHS - 1) + Z.of_nat j) <$> seq 0 143). split.
  - unfold window_epochs. change (Z.to_nat NUM_EPOCHS) with (S 143).
    rewrite seq_S, fmap_app. do 2 f_equal. cbn. unfold NUM_EPOCHS. f_equal. lia.
  - intros e (j & -> & Hj%elem_of_seq)%list_elem_of_fmap. unfold NUM_EPOCHS. lia.
Qed.

(** The shares of the 144 buckets add up to the ledger's total before clamping. *)
Lemma ring_total t log last now :
  represents t log last -> 0 < now -> last <= now ->
  sum_of (bucket_share (window_start now) (epoch_of now)) (buckets t)
  = sum_of (epoch_total log) (window_epochs (epoch_of now)) + boundary_share log now.
Proof.
  intros [Hwf Hslots Ht _ _ Hl0] Hn Hl.
  rewrite (sum_of_seq _ (mkBucket 0 0)), (twf_length t Hwf).
  rewrite <- (sum_of_perm _ _ _ (window_slots (epoch_of now))), sum_of_fmap.
  assert (Hslot : forall e, slot_ok log last (Z.to_nat (e mod NUM_EPOCHS))
    (default (mkBucket 0 0) (buckets t !! Z.to_nat (e mod NUM_EPOCHS)))).
  { intros e. destruct (buckets t !! Z.to_nat (e mod NUM_EPOCHS)) as [b|] eqn:Hb; [by apply Hslots|].
    apply lookup_ge_None in Hb. rewrite (twf_length t Hwf) in Hb.
    pose proof (Z.mod_pos_bound e NUM_EPOCHS ltac:(done)). lia. }
  assert (Htimes : forall s, s ∈ log -> 0 < spend_time s <= last) by (intros s Hs; apply (Ht s Hs)).
  destruct (window_epochs_last (epoch_of now)) as (l & -> & Hle).
  rewrite !sum_of_app, !sum_of_cons, !sum_of_nil. unfold compose.
  rewrite (sum_of_ext _ (epoch_total log) l).
  - rewrite (slot_share_current log last) by (done || apply Hslot). lia.
  - intros e He. apply (slot_share_old log last); [done|done|by apply Hle|done|apply Hslot].
Qed.

Lemma wrote_in_last_epoch t log last e :
  represents t log last -> wrote_in log e = true -> e <= lastWriteEpoch t.
Proof.
  intros [_ _ Ht -> _ Hl] (s & Hs & <-)%wrote_in_spec. destruct (Ht s Hs).
  apply epoch_of_mono. lia.
Qed.

Lemma rolling_is_ledger t log last now :
  represents t log last -> 0 < now -> last <= now ->
  getRolling24hUsd t now = ledger_rolling log now.
Proof.
  intros Htr Hn Hl.
  unfold getRolling24hUsd, ledger_rolling. cbv zeta. fold (boundary_share log now).
  fold (epoch_of now). rewrite <- (ring_total t log last now) by done.
  destruct (Z.leb_spec now 0); [lia|].
  destruct (Z.gtb_spec (epoch_of now - lastWriteEpoch t) NUM_EPOCHS) as [Hexp|].
  - rewrite (ring_total t log last now) by done.
    assert (Hz : forall e, epoch_of now - NUM_EPOCHS <= e -> epoch_total log e = 0).
    { intros e He. apply epoch_total_none. intros s Hs Hse.
      pose proof (wrote_in_last_epoch t log last e Htr) as Hw.
      rewrite wrote_in_spec in Hw. specialize (Hw (ex_intro _ s (conj Hs Hse))). lia. }
    rewrite sum_of_zero by (intros e He%in_window; apply Hz; lia).
    unfold boundary_share. destruct (wrote_in _ _); [done|]. by rewrite Hz.
  - rewrite rolling_fold_sum. unfold clamp_u64. by rewrite Z.add_0_l.
Qed.

(** C11: the ring buffer refines the ledger. After any sequence of successful
    [record_spend] calls with a non-decreasing clock, [getRolling24hUsd] at any later
    time is [ledger_rolling] of the log of spends: no spend of the last 144 epochs is
    lost to a slot collision or to the early exit, none is counted twice, and nothing
    older than the boundary epoch counts. *)
Theorem rolling_refines_ledger (t : SpendTracker) (log : list Spend) (last now : Z) :
  tracked t log last -> 0 < now -> last <= now ->
  getRolling24hUsd t now = ledger_rolling log now.
Proof. intros Htr%tracked_represents. by apply rolling_is_ledger. Qed.

(** ** How far the rolling total is from the true 24h spend *)
Lemma epoch_total_cons log s e :
  epoch_total (s :: log) e =
  (if decide (epoch_of (spend_time s) = e) then spend_amount s else 0) + epoch_total log e.
Proof.
  unfold epoch_total. rewrite filter_cons. case_decide; rewrite ?sum_of_cons; lia.
Qed.

Lemma sum_of_add {A} (f g : A -> Z) l :
  sum_of (fun x => f x + g x) l = sum_of f l + sum_of g l.
Proof. induction l as [|x l IH]; [done|]. rewrite !sum_of_cons, IH. lia. Qed.

Lemma sum_of_indicator (a x : Z) es :
  NoDup es -> sum_of (fun e => if decide (x = e) then a else 0) es
              = if bool_decide (x ∈ es) then a else 0.
Proof.
  induction 1 as [|e es Hne Hnd IH]; [done|]. rewrite sum_of_cons, IH.
  destruct (decide (x = e)) as [->|Hx].
  - rewrite (bool_decide_false (e ∈ es)), bool_decide_true by set_solver. lia.
  - rewrite Z.add_0_l, (bool_decide_ext (x ∈ es) (x ∈ e :: es)) by set_solver. done.
Qed.

(** Adding up epochs is adding up the spends that fall into them. *)
Lemma sum_epoch_totals log es :
  NoDup es ->
  sum_of (epoch_total log) es
  = sum_of spend_amount (filter (fun s => epoch_of (spend_time s) ∈ es) log).
Proof.
  intros Hnd. induction log as [|s log IH].
  { apply sum_of_zero. done. }
  rewrite (sum_of_ext _ _ _ (fun e _ => epoch_total_cons log s e)).
  rewrite sum_of_add, IH, sum_of_indicator by done. rewrite filter_cons.
  case_bool_decide; case_decide; try done; rewrite ?sum_of_cons; lia.
Qed.

Lemma window_nodup cur : NoDup (window_epochs cur).
Proof. unfold window_epochs. apply NoDup_fmap_2_strong; [intros; lia|apply NoDup_seq]. Qed.

Lemma sum_of_filter_le {A} (f : A -> Z) (P Q : A -> Prop)
    `{forall x, Decision (P x), forall x, Decision (Q x)} l :
  (forall x, x ∈ l -> 0 <= f x) -> (forall x, x ∈ l -> P x -> Q x) ->
  sum_of f (filter P l) <= sum_of f (filter Q l).
Proof.
  intros Hf HPQ. rewrite !sum_of_filter. apply sum_of_le. intros x Hx.
  pose proof (Hf x Hx). specialize (HPQ x Hx). repeat case_decide; try lia. tauto.
Qed.

Lemma window_vs_true log last now :
  0 < now -> last <= now ->
  (forall s, s ∈ log -> 0 < spend_time s <= last /\ is_u64 (spend_amount s)) ->
  let full := sum_of (epoch_total log) (window_epochs (epoch_of now)) in
  full <= true_spend log now <= full + epoch_total log (epoch_of now - NUM_EPOCHS).
Proof.
  intros Hn Hl Ht full. subst full. rewrite sum_epoch_totals by apply window_nodup.
  pose proof (epoch_bounds now Hn) as [Hc0 Hc]. fold (epoch_of now) in *.
  assert (Hb : forall s, s ∈ log -> 0 <= epoch_of (spend_time s) <= epoch_of now /\
    epoch_of (spend_time s) * EPOCH_DURATION <= spend_time s
      < epoch_of (spend_time s) * EPOCH_DURATION + EPOCH_DURATION).
  { intros s Hs. destruct (Ht s Hs) as [Hts _].
    pose proof (epoch_bounds (spend_time s) ltac:(lia)) as [H0 H1].
    pose proof (epoch_of_mono (spend_time s) now ltac:(lia)). unfold epoch_of in *. lia. }
  assert (Hnn : forall s, s ∈ log -> 0 <= spend_amount s) by (intros s Hs; apply (Ht s Hs)).
  unfold true_spend, EPOCH_DURATION, ROLLING_WINDOW_SECONDS, NUM_EPOCHS in *. split.
  - apply sum_of_filter_le; [done|]. intros s Hs He%in_window. unfold NUM_EPOCHS in He.
    destruct (Hb s Hs). lia.
  - unfold epoch_total. rewrite !sum_of_filter, <- sum_of_add. apply sum_of_le.
    intros s Hs. pose proof (Hnn s Hs). destruct (Hb s Hs).
    case_decide; repeat case_decide; try lia. exfalso.
    match goal with H : ~ (_ ∈ window_epochs _) |- _ => apply H, in_window end.
    unfold NUM_EPOCHS. lia.
Qed.

Lemma boundary_share_bounds log now :
  0 < now -> 0 <= epoch_total log (epoch_of now - NUM_EPOCHS) ->
  0 <= boundary_share log now <= epoch_total log (epoch_of now - NUM_EPOCHS).
Proof.
  intros Hn Ht. unfold boundary_share, EPOCH_DURATION. destruct (wrote_in _ _); [lia|].
  rewrite Z.rem_mod_nonneg by lia. pose proof (Z.mod_pos_bound now 600 ltac:(lia)).
  rewrite Z.quot_div_nonneg by nia. split; [apply Z.div_pos; nia|].
  apply Z.div_le_upper_bound; nia.
Qed.

(** the rolling total is the true 24h spend up to the boundary epoch. With [B] the
    amount spent in the one 10-minute epoch that straddles the window's start, the SDK's
    total lies between [true - B] and [true + B] (both clamped to [u64]); when nothing was
    spent in that epoch it is exact. *)
Theorem rolling_error_bound (t : SpendTracker) (log : list Spend) (last now : Z) :
  tracked t log last -> 0 < now -> last <= now ->
  let B := epoch_total log (epoch_of now - NUM_EPOCHS) in
  clamp_u64 (true_spend log now - B) <= getRolling24hUsd t now
    <= clamp_u64 (true_spend log now + B) /\
  (B = 0 -> getRolling24hUsd t now = clamp_u64 (true_spend log now)).
Proof.
  intros Htr Hn Hl B. pose proof (tracked_represents _ _ _ Htr) as Hrep.
  rewrite (rolling_is_ledger t log last now Hrep Hn Hl). unfold ledger_rolling. cbv zeta.
  fold (boundary_share log now).
  pose proof (window_vs_true log last now Hn Hl (rep_times _ _ _ Hrep)) as Hw.
  cbv zeta in Hw. fold B in Hw. set (full := sum_of _ _) in *.
  assert (HB : 0 <= B).
  { apply sum_of_nonneg. intros s [_ Hs]%list_elem_of_filter.
    apply (rep_times _ _ _ Hrep s Hs). }
  pose proof (boundary_share_bounds log now Hn HB) as Hbs. fold B in Hbs.
  rewrite !clamp_u64_spec. split; [lia|]. intros HB0. f_equal. lia.
Qed.

(** ** The doc comment's error bound does not hold

    [tracker.rs] promises an under-count of at most one base unit. A spend made in the
    boundary epoch, still inside the 24h window, is counted at 2/600 of its amount, and
    at nothing once the current epoch has a spend of its own. *)
Definition burst_time : Z := 1700000999.
Definition burst_now : Z := burst_time + ROLLING_WINDOW_SECONDS - 1.
Definition burst_log : list Spend := [mkSpend burst_time 1000000000000].

Definition run_log (log : list Spend) : res ChainError SpendTracker :=
  fold_left (fun r s => t ← r; record_spend t (spend_time s) (spend_amount s)) log (Ok empty_tracker).

Lemma run_log_tracked log t :
  run_log log = Ok t ->
  (forall i s s', log !! i = Some s -> log !! S i = Some s' -> spend_time s <= spend_time s') ->
  (forall s, s ∈ log -> 0 <= spend_time s <= I64_MAX /\ is_u64 (spend_amount s)) ->
  tracked t log (from_option spend_time 0 (last log)).
Proof.
  revert t. induction log as [|s log IH] using rev_ind; intros t Hrun Hord Hr.
  { injection Hrun as <-. constructor. }
  unfold run_log in *. rewrite fold_left_app in Hrun. cbn [fold_left] in Hrun.
  apply bind_ok_inv in Hrun as (t0 & Hrun & Hrec).
  assert (Ht0 : tracked t0 log (from_option spend_time 0 (last log))).
  { apply IH; [done| |].
    - intros i x y Hx Hy. apply (Hord i); by apply lookup_app_l_Some.
    - intros x Hx. apply Hr. set_solver. }
  rewrite last_snoc. simpl. destruct s as [ts am]. simpl in *.
  destruct (Hr (mkSpend ts am)) as [Hts Ham]; [set_solver|]. simpl in *.
  eapply tracked_spend; [done| |done|done]. split; [|lia].
  destruct (last log) as [x|] eqn:Hlast; simpl; [|lia].
  rewrite last_lookup in Hlast. destruct log as [|y log']; [done|].
  apply (Hord (length log') x (mkSpend ts am)).
  - by apply lookup_app_l_Some.
  - rewrite lookup_app_r by (cbn; lia). cbn. by rewrite Nat.sub_diag.
Qed.

Theorem rolling_undercounts_boundary :
  exists t, run_log burst_log = Ok t /\
  true_spend burst_log burst_now = 1000000000000 /\
  getRolling24hUsd t burst_now = 3333333333.
Proof. eexists. split; [vm_compute; reflexivity|]. split; vm_compute; reflexivity. Qed.

Theorem rolling_forgets_boundary :
  exists t, run_log (burst_log ++ [mkSpend burst_now 1]) = Ok t /\
  true_spend (burst_log ++ [mkSpend burst_now 1]) burst_now = 1000000000001 /\
  getRolling24hUsd t burst_now = 1.
Proof. eexists. split; [vm_compute; reflexivity|]. split; vm_compute; reflexivity. Qed.

(** ** Witnesses *)
Definition sample_log : list Spend :=
  [mkSpend 1700000000 5; mkSpend 1700000700 7; mkSpend 1700086399 11].

Lemma sample_tracked : exists t, run_log sample_log = Ok t /\ tracked t sample_log 1700086399.
Proof.
  eexists. split; [vm_compute; reflexivity|].
  apply (run_log_tracked sample_log); [vm_compute; reflexivity| |].
  - intros [|[|[|i]]] s s'; simpl; intros Hs Hs'; try discriminate;
      injection Hs as <-; injection Hs' as <-; vm_compute; discriminate.
  - intros s Hs. unfold sample_log in Hs. rewrite !elem_of_cons, elem_of_nil in Hs.
    destruct Hs as [->|[->|[->|[]]]]; repeat split; vm_compute; discriminate.
Qed.

Lemma rolling_refines_ledger_witness :
  ledger_rolling sample_log 1700086500 = 18 /\
  exists t, getRolling24hUsd t 1700086500 = ledger_rolling sample_log 1700086500.
Proof.
  split; [vm_compute; reflexivity|]. destruct sample_tracked as (t & _ & Ht). exists t.
  apply (rolling_refines_ledger t sample_log 1700086399 1700086500 Ht);
    [reflexivity|vm_compute; discriminate].
Defined.

Lemma rolling_error_bound_witness :
  exists t, getRolling24hUsd t 1700086700 <= clamp_u64 (true_spend sample_log 1700086700
    + epoch_total sample_log (epoch_of 1700086700 - NUM_EPOCHS)).
Proof.
  destruct sample_tracked as (t & _ & Ht). exists t.
  refine (proj2 (proj1 (rolling_error_bound t sample_log 1700086399 1700086700 Ht _ _)));
    [reflexivity|vm_compute; discriminate].
Defined.
