(* ===== verification/Inspector.v ===== *)
(** * Instruction inspection ([sdk/kit/src/inspector.ts])

    What the SDK reads out of raw instructions before anything is signed: the programs,
    the SPL Token transfers, the outgoing value and the dangerous token operations; and
    the rendering of instruction constraints. *)

From S2P Require Import Prelude Types Accounts Bytes.
Local Open Scope string_scope.
Local Open Scope Z_scope.
Local Open Scope list_scope.

(** ** SPL Token discriminators *)
Definition SPL_TRANSFER_DISCRIMINATOR : Z := 3.
Definition SPL_APPROVE_DISCRIMINATOR : Z := 4.
Definition SPL_REVOKE_DISCRIMINATOR : Z := 5.
Definition SPL_SET_AUTHORITY_DISCRIMINATOR : Z := 6.
Definition SPL_CLOSE_ACCOUNT_DISCRIMINATOR : Z := 9.
Definition SPL_TRANSFER_CHECKED_DISCRIMINATOR : Z := 12.
Definition SPL_APPROVE_CHECKED_DISCRIMINATOR : Z := 13.

(** ** Types *)
Record InspectableInstruction := mkIx {
  programAddress : Address;
  ix_accounts : option (list Address);
  ix_data : option bytes;
}.

Record TokenTransferInfo := mkTransfer {
  tt_mint : option Address;
  tt_amount : Z;
  tt_source : Address;
  tt_destination : Address;
  tt_authority : Address;
}.

Inductive DangerousType := DApprove | DSetAuthority | DCloseAccount | DRevoke.

Record DangerousTokenOperation := mkDangerous {
  dop_type : DangerousType;
  dop_account : Address;
}.

Record InstructionAnalysis := mkAnalysis {
  programIds : list Address;
  tokenTransfers : list TokenTransferInfo;
  estimatedValue : Z;
  dangerousOperations : list DangerousTokenOperation;
}.

#[export] Instance TokenTransferInfo_eq_dec : EqDecision TokenTransferInfo.
Proof. solve_decision. Defined.
#[export] Instance DangerousType_eq_dec : EqDecision DangerousType.
Proof. solve_decision. Defined.
#[export] Instance DangerousTokenOperation_eq_dec : EqDecision DangerousTokenOperation.
Proof. solve_decision. Defined.

(** ** Analysis *)
Definition is_token_program (a : Address) : bool :=
  bool_decide (a = TOKEN_PROGRAM_ADDRESS) || bool_decide (a = TOKEN_2022_PROGRAM_ADDRESS).

(** [Set.add] on the insertion-ordered set of program ids. *)
Definition set_add (x : string) (s : list string) : list string :=
  if bool_decide (x ∈ s) then s else s ++ [x].

(** [readU64LE]: [DataView.getBigUint64(offset, true)]. *)
Definition readU64LE (data : bytes) (offset : nat) : Z := read_u64_le offset data.

Definition push_transfer (signer : Address) (t : TokenTransferInfo) (a : InstructionAnalysis)
    : InstructionAnalysis :=
  mkAnalysis (programIds a) (tokenTransfers a ++ [t])
    (if decide (tt_authority t = signer) then estimatedValue a + tt_amount t else estimatedValue a)
    (dangerousOperations a).

(** [Transfer]: [[source, destination, authority]], amount at offset 1. *)
Definition transfer_of (data : bytes) (accounts : list Address) : option TokenTransferInfo :=
  match accounts with
  | source :: destination :: authority :: _ =>
      if (length data <? 9)%nat then None
      else Some (mkTransfer None (readU64LE data 1) source destination authority)
  | _ => None
  end.

(** [TransferChecked]: [[source, mint, destination, authority]]. *)
Definition transfer_checked_of (data : bytes) (accounts : list Address)
    : option TokenTransferInfo :=
  match accounts with
  | source :: mint :: destination :: authority :: _ =>
      if (length data <? 10)%nat then None
      else Some (mkTransfer (Some mint) (readU64LE data 1) source destination authority)
  | _ => None
  end.

Definition dangerous_of (discriminator : Z) : option DangerousType :=
  if (discriminator =? SPL_APPROVE_DISCRIMINATOR) || (discriminator =? SPL_APPROVE_CHECKED_DISCRIMINATOR)
  then Some DApprove
  else if discriminator =? SPL_SET_AUTHORITY_DISCRIMINATOR then Some DSetAuthority
  else if discriminator =? SPL_CLOSE_ACCOUNT_DISCRIMINATOR then Some DCloseAccount
  else if discriminator =? SPL_REVOKE_DISCRIMINATOR then Some DRevoke
  else None.

Definition push_dangerous (discriminator : Z) (accounts : list Address) (a : InstructionAnalysis)
    : InstructionAnalysis :=
  match dangerous_of discriminator, accounts with
  | Some ty, account :: _ =>
      mkAnalysis (programIds a) (tokenTransfers a) (estimatedValue a)
        (dangerousOperations a ++ [mkDangerous ty account])
  | _, _ => a
  end.

(** The body of the loop; a short transfer [continue]s past the dangerous-op checks. *)
Definition analyze_step (signerAddress : Address) (a : InstructionAnalysis)
    (ix : InspectableInstruction) : InstructionAnalysis :=
  let a := mkAnalysis (set_add (programAddress ix) (programIds a)) (tokenTransfers a)
             (estimatedValue a) (dangerousOperations a) in
  if negb (is_token_program (programAddress ix)) then a
  else
    match ix_data ix with
    | None | Some [] => a
    | Some ((discriminator :: _) as data) =>
        let accounts := default [] (ix_accounts ix) in
        if discriminator =? SPL_TRANSFER_DISCRIMINATOR then
          match transfer_of data accounts with
          | None => a
          | Some t => push_dangerous discriminator accounts (push_transfer signerAddress t a)
          end
        else if discriminator =? SPL_TRANSFER_CHECKED_DISCRIMINATOR then
          match transfer_checked_of data accounts with
          | None => a
          | Some t => push_dangerous discriminator accounts (push_transfer signerAddress t a)
          end
        else push_dangerous discriminator accounts a
    end.

Definition empty_analysis : InstructionAnalysis := mkAnalysis [] [] 0 [].

Definition analyzeInstructions (instructions : list InspectableInstruction)
    (signerAddress : Address) : InstructionAnalysis :=
  fold_left (analyze_step signerAddress) instructions empty_analysis.

(** ** Constraint inspection *)
Inductive ConstraintOperator := Eq | Ne | Gte | Lte | GteSigned | LteSigned | Bitmask.

Definition operator_index (op : ConstraintOperator) : Z :=
  match op with
  | Eq => 0 | Ne => 1 | Gte => 2 | Lte => 3 | GteSigned => 4 | LteSigned => 5 | Bitmask => 6
  end.

Record DataConstraint := mkDataConstraint {
  dc_offset : Z; dc_operator : ConstraintOperator; dc_value : bytes }.
Record AccountConstraint := mkAccountConstraint { ac_index : Z; ac_expected : Address }.
Record ConstraintEntry := mkConstraintEntry {
  ce_programId : Address;
  ce_dataConstraints : list DataConstraint;
  ce_accountConstraints : list AccountConstraint;
}.
Record ConstraintSummary := mkConstraintSummary {
  cs_index : nat;
  cs_program : Address;
  cs_programName : string;
  cs_dataConstraintCount : nat;
  cs_accountConstraintCount : nat;
  cs_rules : list string;
}.

Definition OPERATOR_NAMES : list string := ["=="; "!="; "<"; "<="; ">"; ">="; "contains"].

(** [formatAddress(address, 4)] of [formatting.ts]. *)
Definition formatAddress (address : string) : string :=
  if (String.length address <=? 11)%nat then address
  else String.substring 0 4 address +:+ "..." +:+
       String.substring (String.length address - 4) 4 address.

Definition resolveProtocolName (protocol : string) : string :=
  match jm_get protocol SUPPORTED_PROTOCOLS with
  | Some meta => pm_name meta
  | None => formatAddress protocol
  end.

Definition hex_digit (n : Z) : string :=
  default "" (["0"; "1"; "2"; "3"; "4"; "5"; "6"; "7"; "8"; "9"; "a"; "b"; "c"; "d"; "e"; "f"]
                !! Z.to_nat n).

(** [b.toString(16).padStart(2, "0")] *)
Definition hex_byte (b : Z) : string := hex_digit (b / 16) +:+ hex_digit (b mod 16).

Definition data_rule (dc : DataConstraint) : string :=
  let opNum := operator_index (dc_operator dc) in
  let op := default ("op(" +:+ pretty opNum +:+ ")") (OPERATOR_NAMES !! Z.to_nat opNum) in
  let valueHex := String.concat "" (hex_byte <$> dc_value dc) in
  "data[" +:+ pretty (dc_offset dc) +:+ "..+" +:+ pretty (length (dc_value dc)) +:+ "] " +:+ op
    +:+ " 0x" +:+ valueHex.

Definition account_rule (ac : AccountConstraint) : string :=
  "account[" +:+ pretty (ac_index ac) +:+ "] == " +:+ ac_expected ac.

Definition constraint_summary (index : nat) (entry : ConstraintEntry) : ConstraintSummary :=
  mkConstraintSummary index (ce_programId entry) (resolveProtocolName (ce_programId entry))
    (length (ce_dataConstraints entry)) (length (ce_accountConstraints entry))
    ((data_rule <$> ce_dataConstraints entry) ++ (account_rule <$> ce_accountConstraints entry)).

Definition inspectConstraints (entries : list ConstraintEntry) : list ConstraintSummary :=
  filter (fun s => (0 < length (cs_rules s))%nat) (imap constraint_summary entries).

(** ** What the analysis guarantees *)

(** The transfer an instruction carries, if any: the specification the loop is checked
    against, one instruction at a time. *)
Definition ix_transfer (ix : InspectableInstruction) : option TokenTransferInfo :=
  if is_token_program (programAddress ix) then
    match ix_data ix with
    | Some ((d :: _) as data) =>
        let accounts := default [] (ix_accounts ix) in
        if d =? SPL_TRANSFER_DISCRIMINATOR then transfer_of data accounts
        else if d =? SPL_TRANSFER_CHECKED_DISCRIMINATOR then transfer_checked_of data accounts
        else None
    | _ => None
    end
  else None.

Definition ix_dangerous (ix : InspectableInstruction) : option DangerousTokenOperation :=
  if is_token_program (programAddress ix) then
    match ix_data ix, ix_accounts ix with
    | Some (d :: _), Some (account :: _) => (fun ty => mkDangerous ty account) <$> dangerous_of d
    | _, _ => None
    end
  else None.

Lemma push_dangerous_spec d accs a :
  push_dangerous d accs a =
  mkAnalysis (programIds a) (tokenTransfers a) (estimatedValue a)
    (dangerousOperations a ++
       option_list (ty ← dangerous_of d; account ← head accs; Some (mkDangerous ty account))).
Proof.
  unfold push_dangerous. destruct a as [ps ts ev ds].
  destruct (dangerous_of d); simpl; [|by rewrite app_nil_r].
  destruct accs; simpl; [by rewrite app_nil_r|done].
Qed.

(** One step appends the instruction's transfer and its dangerous operation. *)
Lemma analyze_step_spec signer a ix :
  analyze_step signer a ix =
  mkAnalysis (set_add (programAddress ix) (programIds a))
    (tokenTransfers a ++ option_list (ix_transfer ix))
    (estimatedValue a +
      sum_of (fun t => if decide (tt_authority t = signer) then tt_amount t else 0)
        (option_list (ix_transfer ix)))
    (dangerousOperations a ++ option_list (ix_dangerous ix)).
Proof.
  unfold analyze_step, ix_transfer, ix_dangerous.
  destruct (is_token_program (programAddress ix)); cbn [negb];
    [|by cbn; rewrite !app_nil_r, Z.add_0_r].
  destruct (ix_data ix) as [[|d data]|]; try by cbn; rewrite !app_nil_r, Z.add_0_r.
  cbv zeta. assert (Hacc : forall o : option DangerousType,
    match ix_accounts ix with
    | Some (account :: _) => (fun ty => mkDangerous ty account) <$> o
    | _ => None
    end = (ty ← o; account ← head (default [] (ix_accounts ix)); Some (mkDangerous ty account))).
  { intros [ty|]; by destruct (ix_accounts ix) as [[|]|]. }
  rewrite Hacc.
  assert (Hpush : forall t, let b := mkAnalysis (set_add (programAddress ix) (programIds a))
      (tokenTransfers a) (estimatedValue a) (dangerousOperations a) in
    dangerous_of d = None ->
    push_dangerous d (default [] (ix_accounts ix)) (push_transfer signer t b) =
    mkAnalysis (programIds b) (tokenTransfers b ++ [t])
      (estimatedValue b + if decide (tt_authority t = signer) then tt_amount t else 0)
      (dangerousOperations b)).
  { intros t b Hd. rewrite push_dangerous_spec, Hd. unfold push_transfer. simpl.
    rewrite app_nil_r. f_equal. case_decide; lia. }
  destruct (Z.eqb_spec d SPL_TRANSFER_DISCRIMINATOR) as [->|];
    [|destruct (Z.eqb_spec d SPL_TRANSFER_CHECKED_DISCRIMINATOR) as [->|]].
  - destruct (transfer_of _ _) as [t|]; [rewrite Hpush by done|];
      cbn; rewrite ?app_nil_r, ?sum_of_cons, ?sum_of_nil, ?Z.add_0_r; done.
  - destruct (transfer_checked_of _ _) as [t|]; [rewrite Hpush by done|];
      cbn; rewrite ?app_nil_r, ?sum_of_cons, ?sum_of_nil, ?Z.add_0_r; done.
  - rewrite push_dangerous_spec. cbn. by rewrite app_nil_r, sum_of_nil, Z.add_0_r.
Qed.

Definition outgoing (signer : Address) (t : TokenTransferInfo) : Z :=
  if decide (tt_authority t = signer) then tt_amount t else 0.

Lemma analyze_fold signer ixs a :
  fold_left (analyze_step signer) ixs a =
  mkAnalysis (fold_left (fun s ix => set_add (programAddress ix) s) ixs (programIds a))
    (tokenTransfers a ++ omap ix_transfer ixs)
    (estimatedValue a + sum_of (outgoing signer) (omap ix_transfer ixs))
    (dangerousOperations a ++ omap ix_dangerous ixs).
Proof.
  revert a. induction ixs as [|ix ixs IH]; intros a; cbn [fold_left].
  { destruct a. cbn. by rewrite !app_nil_r, Z.add_0_r. }
  rewrite IH, analyze_step_spec. cbn [programIds tokenTransfers estimatedValue dangerousOperations].
  rewrite <- !app_assoc. f_equal.
  - f_equal. cbn. by destruct (ix_transfer ix).
  - cbn [omap list_omap]. fold (outgoing signer).
    destruct (ix_transfer ix); cbn; rewrite ?sum_of_cons, ?sum_of_nil; lia.
  - f_equal. cbn. by destruct (ix_dangerous ix).
Qed.

Lemma analyze_transfers ixs signer :
  tokenTransfers (analyzeInstructions ixs signer) = omap ix_transfer ixs.
Proof. unfold analyzeInstructions. by rewrite analyze_fold. Qed.

Lemma set_add_elem x y s : x ∈ set_add y s <-> x = y \/ x ∈ s.
Proof. unfold set_add. case_bool_decide; set_solver. Qed.

Lemma set_add_nodup y s : NoDup s -> NoDup (set_add y s).
Proof.
  unfold set_add. case_bool_decide as Hin; [done|]. intros Hs. apply NoDup_app. split_and!.
  - done.
  - set_solver.
  - apply NoDup_singleton.
Qed.

Lemma program_ids_spec ixs s :
  NoDup s ->
  let ps := fold_left (fun s ix => set_add (programAddress ix) s) ixs s in
  NoDup ps /\ forall p, p ∈ ps <-> p ∈ s \/ p ∈ programAddress <$> ixs.
Proof.
  revert s. induction ixs as [|ix ixs IH]; intros s Hs; cbn [fold_left]; [set_solver|].
  destruct (IH (set_add (programAddress ix) s)) as [H1 H2]; [by apply set_add_nodup|].
  split; [done|]. intros p. rewrite H2, set_add_elem, fmap_cons, elem_of_cons. tauto.
Qed.

(** the analysis sees every instruction and nothing else. The program ids are exactly
    the instructions' programs without repetition; the transfers are, in order, the
    well-formed [Transfer] and [TransferChecked] instructions of the two token programs;
    the estimated value is the sum of the signer's own; and every approve, set-authority,
    close and revoke with an account is reported. *)
Theorem analyzeInstructions_spec (ixs : list InspectableInstruction) (signer : Address) :
  let a := analyzeInstructions ixs signer in
  NoDup (programIds a) /\
  (forall p, p ∈ programIds a <-> exists ix, ix ∈ ixs /\ programAddress ix = p) /\
  tokenTransfers a = omap ix_transfer ixs /\
  estimatedValue a = sum_of tt_amount (filter (fun t => tt_authority t = signer) (tokenTransfers a)) /\
  dangerousOperations a = omap ix_dangerous ixs.
Proof.
  cbv zeta. unfold analyzeInstructions. rewrite analyze_fold.
  cbn [programIds tokenTransfers estimatedValue dangerousOperations empty_analysis].
  destruct (program_ids_spec ixs []) as [H1 H2]; [constructor|].
  split_and!; [done| |done| |done].
  - intros p. rewrite H2, list_elem_of_fmap. set_solver.
  - rewrite Z.add_0_l, app_nil_l, sum_of_filter. done.
Qed.

(** The amount of a well-formed transfer is the eight little-endian bytes after the
    discriminator. *)
Lemma transfer_amount_roundtrip v s d a rest suf :
  is_u64 v ->
  ix_transfer (mkIx TOKEN_PROGRAM_ADDRESS (Some (s :: d :: a :: rest))
    (Some (SPL_TRANSFER_DISCRIMINATOR :: le_bytes 8 v ++ suf)))
  = Some (mkTransfer None v s d a).
Proof.
  intros Hv. unfold ix_transfer. cbn [programAddress ix_data ix_accounts default].
  change (is_token_program TOKEN_PROGRAM_ADDRESS) with true. cbv iota beta zeta.
  change (SPL_TRANSFER_DISCRIMINATOR =? SPL_TRANSFER_DISCRIMINATOR) with true. cbv iota.
  unfold transfer_of. cbn [id].
  destruct (Nat.ltb_spec (length (SPL_TRANSFER_DISCRIMINATOR :: le_bytes 8 v ++ suf)) 9) as [H|_].
  { cbn [length] in H. rewrite length_app, length_le_bytes in H. lia. }
  do 2 f_equal. apply (read_u64_le_roundtrip v [SPL_TRANSFER_DISCRIMINATOR] suf Hv).
Qed.

Lemma transfer_amount_nonneg ix t :
  (forall d, ix_data ix = Some d -> Forall is_byte d) ->
  ix_transfer ix = Some t -> is_u64 (tt_amount t).
Proof.
  intros Hb. unfold ix_transfer. destruct (is_token_program _); [|done].
  destruct (ix_data ix) as [[|d data]|]; [done| |done]. specialize (Hb _ eq_refl).
  cbv zeta. destruct (d =? _).
  - unfold transfer_of. destruct (default [] _) as [|? [|? [|? ?]]]; try done.
    destruct (_ <? _)%nat; [done|]. intros [= <-]. simpl. by apply read_u64_le_is_u64.
  - destruct (d =? _); [|done].
    unfold transfer_checked_of. destruct (default [] _) as [|? [|? [|? [|? ?]]]]; try done.
    destruct (_ <? _)%nat; [done|]. intros [= <-]. simpl. by apply read_u64_le_is_u64.
Qed.

(** The rendered operator of a "greater or equal" constraint is "<": [OPERATOR_NAMES] does
    not follow the order of the [ConstraintOperator] enum. *)
Theorem inspectConstraints_misnames_gte :
  cs_rules <$> inspectConstraints
    [mkConstraintEntry JUPITER_PROGRAM_ADDRESS [mkDataConstraint 8 Gte [16; 39]] []]
  = [["data[8..+2] < 0x1027"]].
Proof. vm_compute. reflexivity. Qed.

(** a constraint summary never hides a rule. Each entry with at least one constraint is
    listed with its index, its program and one rendered rule per constraint; entries
    without constraints are dropped. *)
Theorem inspectConstraints_complete (entries : list ConstraintEntry) :
  forall s, s ∈ inspectConstraints entries <->
    exists i e, entries !! i = Some e /\ s = constraint_summary i e /\
      length (cs_rules s) = (length (ce_dataConstraints e) + length (ce_accountConstraints e))%nat /\
      (0 < length (ce_dataConstraints e) + length (ce_accountConstraints e))%nat.
Proof.
  intros s. unfold inspectConstraints. rewrite list_elem_of_filter, list_elem_of_lookup.
  setoid_rewrite list_lookup_imap.
  assert (Hlen : forall i e, length (cs_rules (constraint_summary i e)) =
    (length (ce_dataConstraints e) + length (ce_accountConstraints e))%nat).
  { intros i e. cbn. by rewrite length_app, !length_fmap. }
  split.
  - intros (Hpos & i & Hi). destruct (entries !! i) as [e|] eqn:He; [|done].
    injection Hi as <-. exists i, e. rewrite Hlen in *. by split_and!.
  - intros (i & e & He & -> & _ & Hpos). rewrite Hlen. split; [done|]. exists i. by rewrite He.
Qed.
