(* ===== verification/Numbers.v ===== *)
(** * Binary64 arithmetic on non-negative decimals

    [parseFloat], [*], [/] and [Math.round] as the SDK uses them on amounts: a double is
    the exact rational [num/den], [den] a power of two, and each operation rounds to 53
    significant bits, ties to even. Exponents are unbounded above zero; an overflow past
    the largest double is the [None] of [js_double]. Below the normal range a double has
    fewer bits than the model keeps, which no caller observes: such values round to 0. *)

From S2P Require Import Prelude.
Local Open Scope Z_scope.

Record ratio := mkRatio { num : Z; den : Z }.

Definition ratio_of_Z (z : Z) : ratio := mkRatio z 1.

(** Round [n / d] to the nearest integer, ties to even. *)
Definition round_half_even (n d : Z) : Z :=
  let q := n / d in
  let r := n mod d in
  if 2 * r <? d then q
  else if 2 * r =? d then (if Z.even q then q else q + 1)
  else q + 1.

(** The exponent that leaves 53 bits before the binary point. *)
Definition fl_exponent (n d : Z) : Z :=
  let e := Z.log2 n - Z.log2 d - 52 in
  let N := n * 2 ^ Z.max 0 (- e) in
  let D := d * 2 ^ Z.max 0 e in
  if N <? 2 ^ 52 * D then e - 1 else e.

(** [n / d] rounded to 53 significant bits. *)
Definition fl (n d : Z) : ratio :=
  if n =? 0 then mkRatio 0 1
  else
    let e := fl_exponent n d in
    let q := round_half_even (n * 2 ^ Z.max 0 (- e)) (d * 2 ^ Z.max 0 e) in
    mkRatio (q * 2 ^ Z.max 0 e) (2 ^ Z.max 0 (- e)).

(** A double, or [None] for [Infinity]. *)
Definition js_double (r : ratio) : option ratio :=
  if num r >=? 2 ^ 1024 * den r then None else Some r.

Definition fl_mul (a b : ratio) : ratio := fl (num a * num b) (den a * den b).

(** The same for a numerator of either sign; a double is signed. *)
Definition fl_signed (n d : Z) : ratio :=
  if n <? 0 then mkRatio (- num (fl (- n) d)) (den (fl (- n) d)) else fl n d.

(** [Number(bigint)], and division by a positive integer. *)
Definition js_Number (z : Z) : ratio := fl_signed z 1.
Definition fl_over (a : ratio) (k : Z) : ratio := fl_signed (num a) (den a * k).
Definition fl_add (a b : ratio) : ratio := fl_signed (num a * den b + num b * den a) (den a * den b).

(** [Math.round(x)] is [floor (x + 1/2)]. *)
Definition math_round (r : ratio) : Z := (2 * num r + den r) / (2 * den r).

(** ** Rounding error *)
Lemma round_half_even_err n d :
  0 < d -> 2 * Z.abs (round_half_even n d * d - n) <= d.
Proof.
  intros Hd. unfold round_half_even.
  pose proof (Z.div_mod n d ltac:(lia)) as H. pose proof (Z.mod_pos_bound n d Hd).
  set (q := n / d) in *. set (r := n mod d) in *.
  destruct (Z.ltb_spec (2 * r) d); [nia|].
  destruct (Z.eqb_spec (2 * r) d); [destruct (Z.even q); nia|nia].
Qed.

Lemma fl_exponent_spec n d :
  0 < n -> 0 < d ->
  let e := fl_exponent n d in
  2 ^ 52 * (d * 2 ^ Z.max 0 e) <= n * 2 ^ Z.max 0 (- e).
Proof.
  intros Hn Hd. unfold fl_exponent.
  pose proof (Z.log2_spec n Hn) as [Hn1 Hn2]. pose proof (Z.log2_spec d Hd) as [Hd1 Hd2].
  pose proof (Z.log2_nonneg n). pose proof (Z.log2_nonneg d).
  set (a := Z.log2 n) in *. set (b := Z.log2 d) in *. cbv zeta.
  destruct (Z.ltb_spec (n * 2 ^ Z.max 0 (- (a - b - 52))) (2 ^ 52 * (d * 2 ^ Z.max 0 (a - b - 52))));
    [|done].
  set (e := a - b - 52 - 1).
  (* n >= 2^a, d < 2^(b+1), and 52 + (b+1) + max 0 e <= a + max 0 (-e) *)
  apply Z.le_trans with (2 ^ (a + Z.max 0 (- e))).
  - apply Z.le_trans with (2 ^ (52 + (Z.succ b + Z.max 0 e))).
    + rewrite !Z.pow_add_r by lia. apply Z.mul_le_mono_nonneg_l; [lia|].
      apply Z.mul_le_mono_nonneg_r; [apply Z.pow_nonneg; lia|lia].
    + apply Z.pow_le_mono_r; lia.
  - rewrite Z.pow_add_r by lia. apply Z.mul_le_mono_nonneg_r; [apply Z.pow_nonneg; lia|lia].
Qed.

Lemma fl_den_pos n d : 0 < den (fl n d).
Proof. unfold fl. destruct (n =? 0); cbn; [lia|]. apply Z.pow_pos_nonneg; lia. Qed.

Lemma fl_nonneg n d : 0 <= n -> 0 < d -> 0 <= num (fl n d).
Proof.
  intros Hn Hd. unfold fl. destruct (Z.eqb_spec n 0); cbn [num]; [lia|].
  set (e := fl_exponent n d). set (p := 2 ^ Z.max 0 e).
  assert (0 < p) by (apply Z.pow_pos_nonneg; lia).
  assert (0 <= n * 2 ^ Z.max 0 (- e)) by (apply Z.mul_nonneg_nonneg; [lia|apply Z.pow_nonneg; lia]).
  apply Z.mul_nonneg_nonneg; [|lia].
  unfold round_half_even.
  assert (0 <= n * 2 ^ Z.max 0 (- e) / (d * p)) by (apply Z.div_pos; nia).
  repeat case_match; lia.
Qed.

(** The relative error of one rounding is at most [2^-53]. *)
Lemma fl_error n d :
  0 <= n -> 0 < d ->
  2 ^ 53 * Z.abs (num (fl n d) * d - n * den (fl n d)) <= n * den (fl n d).
Proof.
  intros Hn Hd. unfold fl. destruct (Z.eqb_spec n 0) as [->|]; [cbn; lia|]. cbn [num den].
  pose proof (fl_exponent_spec n d ltac:(lia) Hd) as He. cbv zeta in He.
  set (e := fl_exponent n d) in *.
  assert (HP : 0 < 2 ^ Z.max 0 e) by (apply Z.pow_pos_nonneg; lia).
  assert (HM : 0 < 2 ^ Z.max 0 (- e)) by (apply Z.pow_pos_nonneg; lia).
  set (P := 2 ^ Z.max 0 e) in *. set (M := 2 ^ Z.max 0 (- e)) in *.
  pose proof (round_half_even_err (n * M) (d * P) ltac:(nia)) as Hr.
  set (q := round_half_even (n * M) (d * P)) in *.
  replace (q * P * d - n * M) with (q * (d * P) - n * M) by ring.
  change (2 ^ 53) with (2 ^ 52 * 2). lia.
Qed.

(** ** Two roundings of a value below [2^50] do not move it to another integer *)
Lemma math_round_near r v :
  0 < den r -> 2 * Z.abs (num r - v * den r) < den r -> math_round r = v.
Proof.
  intros Hd Hr. unfold math_round. symmetry.
  apply (Z.div_unique _ _ v (2 * num r + den r - v * (2 * den r))); [left; lia|ring].
Qed.

(** [Math.round(parse(n / 10^k) * 10^p)] is exactly [n * 10^(p - k)] while that is below
    [2^50]. *)
Lemma decimal_scale_exact n k p :
  0 <= n -> 0 <= k <= p -> n * 10 ^ (p - k) < 2 ^ 50 ->
  math_round (fl_mul (fl n (10 ^ k)) (ratio_of_Z (10 ^ p))) = n * 10 ^ (p - k).
Proof.
  intros Hn Hk Hv. unfold fl_mul. cbn [num den ratio_of_Z]. rewrite Z.mul_1_r.
  apply math_round_near; [apply fl_den_pos|].
  assert (HT : 0 < 10 ^ k) by (apply Z.pow_pos_nonneg; lia).
  assert (HU : 0 < 10 ^ (p - k)) by (apply Z.pow_pos_nonneg; lia).
  assert (Hpk : 10 ^ p = 10 ^ k * 10 ^ (p - k)).
  { rewrite <- Z.pow_add_r by lia. f_equal. lia. }
  pose proof (fl_error n (10 ^ k) Hn HT) as H1.
  pose proof (fl_den_pos n (10 ^ k)) as Hb. pose proof (fl_nonneg n (10 ^ k) Hn HT) as Ha.
  set (a := num (fl n (10 ^ k))) in *. set (b := den (fl n (10 ^ k))) in *.
  rewrite Hpk. set (T := 10 ^ k) in *. set (U := 10 ^ (p - k)) in *.
  pose proof (fl_error (a * (T * U)) b ltac:(nia) Hb) as H2.
  pose proof (fl_den_pos (a * (T * U)) b) as Hy.
  set (x := num (fl (a * (T * U)) b)) in *. set (y := den (fl (a * (T * U)) b)) in *.
  set (v := n * U) in *.
  (* first rounding, scaled by U: a*T*U/b is within v/2^53 of v *)
  assert (E1 : 2 ^ 53 * Z.abs (a * (T * U) - v * b) <= v * b).
  { replace (a * (T * U) - v * b) with ((a * T - n * b) * U) by (unfold v; ring).
    rewrite Z.abs_mul, (Z.abs_eq U) by lia. unfold v. nia. }
  set (w := a * (T * U)) in *. clearbody w v a b x y. clear H1 HT HU Hpk Ha.
  assert (Hv0 : 0 <= v) by nia.
  (* both errors together stay below one half *)
  assert (E3 : b * Z.abs (x - v * y) <= Z.abs (x * b - w * y) + Z.abs (w - v * b) * y).
  { pose proof (Z.abs_triangle (x * b - w * y) ((w - v * b) * y)) as Ht.
    rewrite (Z.abs_mul (w - v * b)), (Z.abs_eq y) in Ht by lia.
    replace (x * b - w * y + (w - v * b) * y) with (b * (x - v * y)) in Ht by ring.
    rewrite Z.abs_mul, (Z.abs_eq b) in Ht by lia. exact Ht. }
  change (2 ^ 53) with 9007199254740992 in *. change (2 ^ 50) with 1125899906842624 in *.
  assert (0 <= v * b) by nia.
  assert (E4 : w <= 2 * (v * b)) by lia.
  assert (E6 : b * (2 ^ 53 * Z.abs (x - v * y)) <= b * (3 * v * y)).
  { apply Z.le_trans with (2 ^ 53 * Z.abs (x * b - w * y) + 2 ^ 53 * Z.abs (w - v * b) * y); [lia|].
    apply Z.le_trans with (w * y + v * b * y); [|nia].
    apply Z.add_le_mono; [exact H2|]. by apply Z.mul_le_mono_nonneg_r; [lia|]. }
  apply Z.mul_le_mono_pos_l in E6; [|done].
  assert (v * y <= 1125899906842624 * y) by (apply Z.mul_le_mono_nonneg_r; lia).
  change (2 ^ 53) with 9007199254740992 in E6. rewrite <- Z.mul_assoc in E6. lia.
Qed.
