(* ===== verification/JsText.v ===== *)
(** * Text and numbers of the language ([BigInt], [trim], [btoa], [atob])

    What the SDK uses of JavaScript's string and integer conversions. A string is a list of
    code units below 256; a decimal string read with [BigInt] keeps its exact value. *)

From Stdlib Require Import Ascii.
From S2P Require Import Prelude Types Accounts Bytes.
Local Open Scope string_scope.
Local Open Scope Z_scope.
Local Open Scope list_scope.

(** ** Characters *)
Abbreviation chars := (list Ascii.ascii).

Definition code (c : Ascii.ascii) : Z := Z.of_nat (Ascii.nat_of_ascii c).
Definition in_range (lo hi : Z) (c : Ascii.ascii) : bool := (lo <=? code c) && (code c <=? hi).
Definition is_digit (c : Ascii.ascii) : bool := in_range 48 57 c.
Definition is_word (c : Ascii.ascii) : bool :=
  is_digit c || in_range 65 90 c || in_range 97 122 c || (code c =? 95).
Definition is_space (c : Ascii.ascii) : bool :=
  in_range 9 13 c || (code c =? 32) || (code c =? 160).

(** The longest prefix of characters in a class, and the rest. *)
Fixpoint span (p : Ascii.ascii -> bool) (s : chars) : chars * chars :=
  match s with
  | c :: s' => if p c then let '(a, b) := span p s' in (c :: a, b) else ([], s)
  | [] => ([], [])
  end.

Lemma list_ascii_app s t :
  String.list_ascii_of_string (s +:+ t) = String.list_ascii_of_string s ++ String.list_ascii_of_string t.
Proof. induction s as [|c s IH]; [done|]. exact (f_equal (cons c) IH). Qed.

Definition digits_value (s : chars) : Z :=
  fold_left (fun v c => v * 10 + (code c - 48)) s 0.

(** [String.prototype.trim]; the white space below code unit 256. *)
Definition trim (s : chars) : chars :=
  rev (snd (span is_space (rev (snd (span is_space s))))).

Definition to_upper_ascii (c : Ascii.ascii) : Ascii.ascii :=
  if in_range 97 122 c then Ascii.ascii_of_nat (Ascii.nat_of_ascii c - 32) else c.
Definition toUpperCase (s : chars) : chars := to_upper_ascii <$> s.


(** ** [BigInt(string)]

    White space around the literal is dropped and an empty literal is [0n]; decimal digits
    may carry a sign, [0x], [0o] and [0b] literals may not. [None] is the [SyntaxError]. *)
Definition digit_val (c : Ascii.ascii) : Z :=
  if is_digit c then code c - 48
  else if in_range 97 122 c then code c - 87
  else if in_range 65 90 c then code c - 55
  else 99.

Definition radix_value (radix : Z) (s : chars) : option Z :=
  if bool_decide (s = []) || negb (forallb (fun c => digit_val c <? radix) s) then None
  else Some (fold_left (fun v c => v * radix + digit_val c) s 0).

(** The radix of a literal's prefix. *)
Definition radix_prefix (s : chars) : option (Z * chars) :=
  match s with
  | z :: p :: ds =>
      if code z =? 48 then
        if (code p =? 120) || (code p =? 88) then Some (16, ds)
        else if (code p =? 111) || (code p =? 79) then Some (8, ds)
        else if (code p =? 98) || (code p =? 66) then Some (2, ds)
        else None
      else None
  | _ => None
  end.

Definition signed_decimal (s : chars) : option Z :=
  match s with
  | c :: ds =>
      if code c =? 43 then radix_value 10 ds
      else if code c =? 45 then Z.opp <$> radix_value 10 ds
      else radix_value 10 s
  | [] => None
  end.

Definition js_BigInt (s : string) : option Z :=
  let t := trim (String.list_ascii_of_string s) in
  if bool_decide (t = []) then Some 0
  else
    match radix_prefix t with
    | Some (radix, ds) => radix_value radix ds
    | None => signed_decimal t
    end.

(** ** [btoa] and [atob] *)
Definition b64_alphabet : string :=
  "ABCDEFGHIJKLMNOPQRSTUVWXYZabcdefghijklmnopqrstuvwxyz0123456789+/".
Definition EQ_SIGN : Ascii.ascii := Ascii.ascii_of_nat 61.
Definition b64_char (sextet : Z) : Ascii.ascii :=
  default (Ascii.ascii_of_nat 65) (String.get (Z.to_nat sextet) b64_alphabet).

Fixpoint b64_encode (bs : bytes) : string :=
  match bs with
  | a :: b :: c :: rest =>
      String (b64_char (Z.shiftr a 2))
     (String (b64_char (Z.lor (Z.shiftl (Z.land a 3) 4) (Z.shiftr b 4)))
     (String (b64_char (Z.lor (Z.shiftl (Z.land b 15) 2) (Z.shiftr c 6)))
     (String (b64_char (Z.land c 63)) (b64_encode rest))))
  | [a; b] =>
      String (b64_char (Z.shiftr a 2))
     (String (b64_char (Z.lor (Z.shiftl (Z.land a 3) 4) (Z.shiftr b 4)))
     (String (b64_char (Z.shiftl (Z.land b 15) 2)) (String EQ_SIGN EmptyString)))
  | [a] =>
      String (b64_char (Z.shiftr a 2))
     (String (b64_char (Z.shiftl (Z.land a 3) 4))
     (String EQ_SIGN (String EQ_SIGN EmptyString)))
  | [] => EmptyString
  end.


Definition btoa (s : string) : string :=
  b64_encode ((fun c => code c) <$> String.list_ascii_of_string s).

Definition b64_value (c : Ascii.ascii) : option Z :=
  if in_range 65 90 c then Some (code c - 65)
  else if in_range 97 122 c then Some (code c - 71)
  else if is_digit c then Some (code c + 4)
  else if code c =? 43 then Some 62
  else if code c =? 47 then Some 63
  else None.

(** The decoder's bit buffer: 24 bits are three bytes, a rest of 18 two, of 12 one; a rest
    of 6 has been refused. *)
Fixpoint b64_groups (ss : list Z) : option bytes :=
  match ss with
  | a :: b :: c :: d :: rest =>
      let w := a * 2 ^ 18 + b * 2 ^ 12 + c * 2 ^ 6 + d in
      (fun r => w / 2 ^ 16 :: w / 2 ^ 8 mod 256 :: w mod 256 :: r) <$> b64_groups rest
  | [a; b; c] => let w := a * 2 ^ 12 + b * 2 ^ 6 + c in Some [w / 2 ^ 10; w / 2 ^ 2 mod 256]
  | [a; b] => Some [(a * 2 ^ 6 + b) / 2 ^ 4]
  | [_] => None
  | [] => Some []
  end.

(** ASCII white space, for the decoder. *)
Definition is_b64_space (c : Ascii.ascii) : bool :=
  (code c =? 9) || (code c =? 10) || (code c =? 12) || (code c =? 13) || (code c =? 32).

(** One or two ['='] end a text whose length is a multiple of four. *)
Definition b64_unpad (s : chars) : chars :=
  if (length s mod 4 =? 0)%nat then
    match rev s with
    | p :: q :: r =>
        if bool_decide (p = EQ_SIGN) then
          if bool_decide (q = EQ_SIGN) then rev r else rev (q :: r)
        else s
    | _ => s
    end
  else s.

(** [None] is the [InvalidCharacterError]. *)
Definition b64_decode (s : string) : option bytes :=
  let t := b64_unpad (filter (fun c => is_b64_space c = false) (String.list_ascii_of_string s)) in
  sextets ← mapM b64_value t;
  b64_groups sextets.

Definition atob (s : string) : option string :=
  (fun bs => String.string_of_list_ascii ((fun b => Ascii.ascii_of_nat (Z.to_nat b)) <$> bs))
  <$> b64_decode s.

Lemma span_app p l r :
  Forall (fun c => p c = true) l ->
  match r with c :: _ => p c = false | [] => True end ->
  span p (l ++ r) = (l, r).
Proof.
  intros Hl Hr. induction Hl as [|c l Hc Hl IH]; cbn.
  - destruct r as [|c r]; cbn; [done|]. by rewrite Hr.
  - by rewrite Hc, IH.
Qed.

Lemma trim_id s c s' z s'' :
  s = c :: s' -> s = s'' ++ [z] -> is_space c = false -> is_space z = false -> trim s = s.
Proof.
  intros H1 H2 Hc Hz. unfold trim.
  assert (Hs : snd (span is_space s) = s) by (rewrite H1; cbn; by rewrite Hc).
  rewrite Hs, H2 at 1. rewrite rev_app_distr. cbn. rewrite Hz. cbn.
  by rewrite rev_involutive.
Qed.

Lemma digit_word c : is_digit c = true -> is_word c = true.
Proof. unfold is_word. by intros ->. Qed.

Lemma word_not_space c : is_word c = true -> is_space c = false.
Proof.
  unfold is_word, is_digit, is_space, in_range. intros H.
  destruct (Z.leb_spec 9 (code c)), (Z.leb_spec (code c) 13), (Z.eqb_spec (code c) 32),
    (Z.leb_spec 48 (code c)), (Z.leb_spec (code c) 57), (Z.leb_spec 65 (code c)),
    (Z.leb_spec (code c) 90), (Z.leb_spec 97 (code c)), (Z.leb_spec (code c) 122),
    (Z.eqb_spec (code c) 95), (Z.eqb_spec (code c) 160); cbn in *; lia || done.
Qed.

Lemma digits_value_nonneg s : Forall (fun c => is_digit c = true) s -> 0 <= digits_value s.
Proof.
  intros Hs. unfold digits_value.
  assert (H : forall v, 0 <= v -> 0 <= fold_left (fun v c => v * 10 + (code c - 48)) s v).
  { induction Hs as [|c s Hc Hs IH]; intros v Hv; cbn; [done|]. apply IH.
    unfold is_digit, in_range in Hc. apply andb_true_iff in Hc. lia. }
  by apply H.
Qed.



(** ** [BigInt] reads back what [toString] prints *)
Lemma digit_val_range c : digit_val c < 10 -> is_digit c = true.
Proof.
  unfold digit_val, in_range. destruct (is_digit c); [done|].
  destruct (Z.leb_spec 97 (code c)), (Z.leb_spec (code c) 122), (Z.leb_spec 65 (code c)),
    (Z.leb_spec (code c) 90); cbn; lia.
Qed.

Lemma digit_not_space c : is_digit c = true -> is_space c = false.
Proof. intros H. by apply word_not_space, digit_word. Qed.

Lemma trim_no_space s : Forall (fun c => is_space c = false) s -> trim s = s.
Proof.
  intros Hs. induction s as [|c s' _] using rev_ind; [done|].
  destruct s' as [|a s'].
  - apply Forall_cons in Hs as [Hs _]. by eapply (trim_id _ c [] c []).
  - apply Forall_app in Hs as [H1 H2]. apply Forall_cons in H1 as [H1 _].
    apply Forall_cons in H2 as [H2 _]. by eapply (trim_id _ a (s' ++ [c]) c (a :: s')).
Qed.

Lemma radix_value_digits s v :
  radix_value 10 s = Some v -> s <> [] /\ Forall (fun c => is_digit c = true) s.
Proof.
  unfold radix_value. destruct (bool_decide_reflect (s = [])); [done|]. cbn.
  destruct (forallb _ s) eqn:Hf; [|done]. intros _. split; [done|].
  apply Forall_forall. intros c Hc. apply digit_val_range.
  rewrite forallb_forall in Hf. apply Z.ltb_lt, Hf, list_elem_of_In, Hc.
Qed.

Lemma radix_prefix_digits s : Forall (fun c => is_digit c = true) s -> radix_prefix s = None.
Proof.
  intros Hs. destruct s as [|z [|p ds]]; [done..|]. cbn.
  destruct (code z =? 48); [|done].
  apply Forall_cons in Hs as [_ Hs]. apply Forall_cons in Hs as [Hp _].
  unfold is_digit, in_range in Hp. apply andb_true_iff in Hp as [_ Hp%Z.leb_le].
  repeat match goal with |- context [code p =? ?k] => rewrite (proj2 (Z.eqb_neq (code p) k)) by lia end.
  done.
Qed.

Lemma digit_not_sign c : is_digit c = true -> (code c =? 43) = false /\ (code c =? 45) = false.
Proof.
  unfold is_digit, in_range. intros [H%Z.leb_le _]%andb_true_iff. split; apply Z.eqb_neq; lia.
Qed.

Lemma js_BigInt_digits s v :
  radix_value 10 (String.list_ascii_of_string s) = Some v -> js_BigInt s = Some v.
Proof.
  intros H. destruct (radix_value_digits _ _ H) as [Hne Hd]. unfold js_BigInt.
  rewrite trim_no_space by (eapply Forall_impl; [exact Hd|apply digit_not_space]).
  rewrite bool_decide_false by done. rewrite radix_prefix_digits by done.
  destruct (String.list_ascii_of_string s) as [|c cs]; [done|]. cbn.
  apply Forall_cons in Hd as [Hc _]. by destruct (digit_not_sign c Hc) as [-> ->].
Qed.

Lemma js_BigInt_neg s v :
  radix_value 10 (String.list_ascii_of_string s) = Some v ->
  js_BigInt (String "-"%char s) = Some (- v).
Proof.
  intros H. destruct (radix_value_digits _ _ H) as [Hne Hd]. unfold js_BigInt. cbn [String.list_ascii_of_string].
  rewrite trim_no_space by
    (constructor; [reflexivity|eapply Forall_impl; [exact Hd|apply digit_not_space]]).
  cbn [bool_decide]. rewrite bool_decide_false by done.
  destruct (String.list_ascii_of_string s) as [|c cs]; [done|].
  change (radix_prefix ("-"%char :: c :: cs)) with (@None (Z * chars)).
  change (signed_decimal ("-"%char :: c :: cs)) with (Z.opp <$> radix_value 10 (c :: cs)).
  by rewrite H.
Qed.

Lemma pretty_char_val (d : N) :
  (d < 10)%N -> is_digit (pretty_N_char d) = true /\ digit_val (pretty_N_char d) = Z.of_N d.
Proof.
  intros Hd. assert (H : d ∈ [0;1;2;3;4;5;6;7;8;9]%N) by (rewrite !elem_of_cons; lia).
  repeat (apply elem_of_cons in H as [->|H]; [by split|]). by apply elem_of_nil in H.
Qed.

(** The printer pushes digits in front of an accumulator; read from the left, they put the
    number in front of the accumulator's value. *)
Lemma pretty_N_go_chars (n : N) (s : string) :
  exists ds, String.list_ascii_of_string (pretty_N_go n s)
             = ds ++ String.list_ascii_of_string s /\
    Forall (fun c => is_digit c = true) ds /\
    fold_left (fun v c => v * 10 + digit_val c) ds 0 = Z.of_N n /\ (n <> 0%N -> ds <> []).
Proof.
  revert s. induction (N.lt_wf_0 n) as [n _ IH]. intros s.
  destruct (decide (n = 0%N)) as [->|Hn].
  { exists []. rewrite pretty_N_go_0. by split_and!. }
  rewrite pretty_N_go_step by lia.
  pose proof (N.mod_lt n 10 ltac:(lia)) as Hm.
  destruct (IH (n `div` 10)%N ltac:(apply N.div_lt; lia) (String (pretty_N_char (n `mod` 10)) s))
    as (ds & Heq & Hd & Hv & _).
  destruct (pretty_char_val (n `mod` 10) Hm) as [Hc1 Hc2].
  exists (ds ++ [pretty_N_char (n `mod` 10)]). split_and!.
  - rewrite Heq. cbn. by rewrite <- app_assoc.
  - apply Forall_app. split; [done|]. by constructor.
  - rewrite fold_left_app, Hv. cbn. rewrite Hc2.
    pose proof (N.div_mod n 10 ltac:(lia)) as Hdm. lia.
  - intros _ H. by apply app_eq_nil in H as [_ H].
Qed.

Lemma radix_value_pretty (n : N) :
  radix_value 10 (String.list_ascii_of_string (pretty n)) = Some (Z.of_N n).
Proof.
  unfold pretty, pretty_N. case_decide as Hn; [by subst|].
  destruct (pretty_N_go_chars n "") as (ds & -> & Hd & Hv & Hne).
  rewrite app_nil_r. unfold radix_value.
  rewrite bool_decide_false by auto. cbn.
  rewrite (proj2 (forallb_forall _ _)); [cbn; by rewrite Hv|].
  intros c Hc%list_elem_of_In. rewrite Forall_forall in Hd. specialize (Hd c Hc).
  apply Z.ltb_lt. unfold digit_val. rewrite Hd.
  unfold is_digit, in_range in Hd. apply andb_true_iff in Hd as [_ Hd%Z.leb_le]. lia.
Qed.

Lemma js_BigInt_pretty (z : Z) : js_BigInt (pretty z) = Some z.
Proof.
  destruct z as [|p|p].
  - reflexivity.
  - change (js_BigInt (pretty (N.pos p)) = Some (Z.of_N (N.pos p))).
    apply js_BigInt_digits, radix_value_pretty.
  - change (js_BigInt (String "-"%char (pretty (N.pos p))) = Some (- Z.of_N (N.pos p))).
    apply js_BigInt_neg, radix_value_pretty.
Qed.

(** ** [atob] reads back what [btoa] writes *)
Lemma lor_add_low x y k :
  0 <= k -> 0 <= y < 2 ^ k -> Z.lor (Z.shiftl x k) y = x * 2 ^ k + y.
Proof.
  intros Hk Hy. rewrite <- Z.shiftl_mul_pow2 by done.
  assert (H : Z.land (Z.shiftl x k) y = 0).
  { apply Z.bits_inj'. intros n Hn. rewrite Z.land_spec, Z.shiftl_spec, Z.bits_0 by done.
    destruct (Z.ltb_spec n k) as [Hlt|Hge].
    - by rewrite Z.testbit_neg_r by lia.
    - rewrite <- (Z.mod_small y (2 ^ k)) by done.
      rewrite Z.mod_pow2_bits_high by lia. by rewrite andb_false_r. }
  rewrite <- Z.lxor_lor by done. by rewrite Z.add_nocarry_lxor by done.
Qed.

(** The four characters of three bytes hold the 24 bits of the bytes. *)
Lemma b64_sextets a b c :
  is_byte a -> is_byte b -> is_byte c ->
  let s1 := Z.shiftr a 2 in
  let s2 := Z.lor (Z.shiftl (Z.land a 3) 4) (Z.shiftr b 4) in
  let s3 := Z.lor (Z.shiftl (Z.land b 15) 2) (Z.shiftr c 6) in
  let s4 := Z.land c 63 in
  s1 = a / 4 /\ s2 = a mod 4 * 16 + b / 16 /\ s3 = b mod 16 * 4 + c / 64 /\ s4 = c mod 64.
Proof.
  unfold is_byte. intros Ha Hb Hc. cbv zeta.
  change 3 with (Z.ones 2). change 15 with (Z.ones 4). change 63 with (Z.ones 6).
  rewrite !Z.land_ones, !Z.shiftr_div_pow2 by lia.
  change (2 ^ 2) with 4. change (2 ^ 4) with 16. change (2 ^ 6) with 64.
  rewrite !lor_add_low by (try lia; change (2 ^ 4) with 16; change (2 ^ 2) with 4;
                           Z.div_mod_to_equations; lia).
  split_and!; reflexivity.
Qed.

Lemma b64_char_value n : 0 <= n < 64 -> b64_value (b64_char n) = Some n.
Proof.
  intros Hn.
  assert (H : forallb (fun k => bool_decide (b64_value (b64_char (Z.of_nat k)) = Some (Z.of_nat k)))
                (seq 0 64) = true) by (vm_compute; reflexivity).
  rewrite forallb_forall in H. specialize (H (Z.to_nat n)).
  rewrite in_seq in H. specialize (H ltac:(lia)). apply bool_decide_eq_true in H.
  by rewrite Z2Nat.id in H by lia.
Qed.

Lemma b64_char_plain n :
  is_b64_space (b64_char n) = false /\ b64_char n <> EQ_SIGN.
Proof.
  unfold b64_char. destruct (String.get (Z.to_nat n) b64_alphabet) as [c|] eqn:Hc; [|done].
  cbn [default]. revert Hc. generalize (Z.to_nat n). intros k.
  do 64 (destruct k as [|k]; [intros [= <-]; by vm_compute|]). discriminate.
Qed.

Definition plain_b64 (c : Ascii.ascii) : Prop :=
  is_b64_space c = false.

Lemma b64_encode_plain bs : Forall plain_b64 (String.list_ascii_of_string (b64_encode bs)).
Proof.
  unfold plain_b64.
  assert (H : forall k bs, (length bs <= k)%nat ->
    Forall plain_b64 (String.list_ascii_of_string (b64_encode bs))); [|by apply (H (length bs))].
  clear bs. induction k as [|k IH]; intros bs Hk; [by destruct bs; [constructor|simpl in Hk; lia]|].
  destruct bs as [|a [|b [|c rest]]]; cbn [b64_encode String.list_ascii_of_string];
    repeat (constructor; [apply b64_char_plain || reflexivity|]); [constructor..|].
  apply IH. simpl in Hk. lia.
Qed.

(** The sextets of the encoding, without its padding. *)
Fixpoint sextets_of (bs : bytes) : list Z :=
  match bs with
  | a :: b :: c :: rest =>
      a / 4 :: a mod 4 * 16 + b / 16 :: b mod 16 * 4 + c / 64 :: c mod 64 :: sextets_of rest
  | [a; b] => [a / 4; a mod 4 * 16 + b / 16; b mod 16 * 4]
  | [a] => [a / 4; a mod 4 * 16]
  | [] => []
  end.

Definition padding_of (bs : bytes) : chars :=
  match (length bs mod 3)%nat with 1%nat => [EQ_SIGN; EQ_SIGN] | 2%nat => [EQ_SIGN] | _ => [] end.

(** Induction three bytes at a time. *)
Lemma bytes3_ind (P : bytes -> Prop) :
  P [] -> (forall a, P [a]) -> (forall a b, P [a; b]) ->
  (forall a b c r, P r -> P (a :: b :: c :: r)) -> forall bs, P bs.
Proof.
  intros H0 H1 H2 H3 bs.
  assert (H : forall k bs, (length bs <= k)%nat -> P bs); [|by apply (H (length bs))].
  clear bs. induction k as [|k IH]; intros [|a [|b [|c r]]] Hk; simpl in Hk; auto; [lia..|].
  apply H3, IH. lia.
Qed.

Lemma mod3_step n : (S (S (S n)) mod 3 = n mod 3)%nat.
Proof. replace (S (S (S n))) with (n + 1 * 3)%nat by lia. by rewrite Nat.Div0.mod_add. Qed.

Lemma b64_encode_sextets bs :
  Forall is_byte bs ->
  String.list_ascii_of_string (b64_encode bs) = (b64_char <$> sextets_of bs) ++ padding_of bs.
Proof.
  induction bs as [|a|a b|a b c r IH] using bytes3_ind; intros Hb.
  - reflexivity.
  - apply Forall_cons in Hb as [Ha _].
    destruct (b64_sextets a 0 0 Ha ltac:(unfold is_byte; lia) ltac:(unfold is_byte; lia))
      as (E1 & E2 & _ & _). cbn in E2. rewrite Z.lor_0_r in E2.
    cbn [b64_encode String.list_ascii_of_string sextets_of fmap list_fmap app].
    rewrite E1, E2, Z.add_0_r. reflexivity.
  - apply Forall_cons in Hb as [Ha Hb]. apply Forall_cons in Hb as [Hb _].
    destruct (b64_sextets a b 0 Ha Hb ltac:(unfold is_byte; lia)) as (E1 & E2 & E3 & _).
    change (Z.shiftr 0 6) with 0 in E3. change (0 / 64) with 0 in E3.
    rewrite Z.lor_0_r, Z.add_0_r in E3.
    cbn [b64_encode String.list_ascii_of_string sextets_of fmap list_fmap app].
    rewrite E1, E2, E3. reflexivity.
  - do 3 (apply Forall_cons in Hb as [? Hb]).
    destruct (b64_sextets a b c) as (E1 & E2 & E3 & E4); [done..|].
    cbn [b64_encode String.list_ascii_of_string sextets_of fmap list_fmap app].
    rewrite E1, E2, E3, E4, IH by done. unfold padding_of. cbn [length]. by rewrite mod3_step.
Qed.

Lemma sextets_of_range bs : Forall is_byte bs -> Forall (fun s => 0 <= s < 64) (sextets_of bs).
Proof.
  unfold is_byte. induction bs as [|a|a b|a b c r IH] using bytes3_ind; intros Hb; cbn [sextets_of].
  - constructor.
  - apply Forall_cons in Hb as [Ha _]. repeat constructor; Z.div_mod_to_equations; lia.
  - apply Forall_cons in Hb as [Ha Hb]. apply Forall_cons in Hb as [Hb _].
    repeat constructor; Z.div_mod_to_equations; lia.
  - do 3 (apply Forall_cons in Hb as [? Hb]).
    repeat (constructor; [Z.div_mod_to_equations; lia|]). auto.
Qed.

Lemma b64_groups_sextets bs : Forall is_byte bs -> b64_groups (sextets_of bs) = Some bs.
Proof.
  unfold is_byte. induction bs as [|a|a b|a b c r IH] using bytes3_ind; intros Hb;
    cbn [sextets_of b64_groups].
  - reflexivity.
  - apply Forall_cons in Hb as [Ha _]. do 2 f_equal. Z.div_mod_to_equations. lia.
  - apply Forall_cons in Hb as [Ha Hb]. apply Forall_cons in Hb as [Hb _].
    f_equal. f_equal; [|f_equal]; Z.div_mod_to_equations; lia.
  - do 3 (apply Forall_cons in Hb as [? Hb]). rewrite IH by done. cbn [fmap option_fmap option_map].
    assert (E : a / 4 * 2 ^ 18 + (a mod 4 * 16 + b / 16) * 2 ^ 12
                + (b mod 16 * 4 + c / 64) * 2 ^ 6 + c mod 64 = a * 65536 + b * 256 + c)
      by (change (2 ^ 18) with 262144; change (2 ^ 12) with 4096; change (2 ^ 6) with 64;
          Z.div_mod_to_equations; lia).
    rewrite E. change (2 ^ 16) with 65536. change (2 ^ 8) with 256.
    f_equal. f_equal; [|f_equal; [|f_equal]]; Z.div_mod_to_equations; lia.
Qed.

Lemma sextets_of_length bs :
  ((length (sextets_of bs) + length (padding_of bs)) mod 4 = 0)%nat.
Proof.
  induction bs as [|a|a b|a b c r IH] using bytes3_ind; [reflexivity..|].
  unfold padding_of in *. cbn [sextets_of length]. rewrite mod3_step.
  set (n := (length (sextets_of r) + _)%nat) in IH.
  replace (_ + _)%nat with (n + 1 * 4)%nat by (unfold n; lia). by rewrite Nat.Div0.mod_add.
Qed.

Lemma b64_unpad_body (body : chars) pad :
  Forall (fun c => c <> EQ_SIGN) body ->
  (pad = [] \/ pad = [EQ_SIGN] /\ body <> [] \/ pad = [EQ_SIGN; EQ_SIGN]) ->
  (length (body ++ pad) mod 4 = 0)%nat ->
  b64_unpad (body ++ pad) = body.
Proof.
  intros Hb Hp Hl. unfold b64_unpad. rewrite Hl, rev_app_distr. cbn [Nat.eqb].
  destruct Hp as [->|[[-> Hne]| ->]]; cbn [rev app].
  - rewrite app_nil_r. destruct (rev body) as [|p [|q r]] eqn:E; [done..|].
    rewrite bool_decide_false; [done|].
    assert (Hin : p ∈ body) by (apply list_elem_of_In, in_rev; rewrite E; left; done).
    rewrite Forall_forall in Hb. auto.
  - destruct (rev body) as [|q r] eqn:E.
    + exfalso. apply Hne. by rewrite <- (rev_involutive body), E.
    + rewrite bool_decide_true by done.
      assert (Hin : q ∈ body) by (apply list_elem_of_In, in_rev; rewrite E; left; done).
      rewrite bool_decide_false by (rewrite Forall_forall in Hb; auto).
      transitivity (rev (rev body)); [by rewrite E|apply rev_involutive].
  - rewrite !bool_decide_true by done. by rewrite rev_involutive.
Qed.

Lemma b64_padding_cases bs :
  padding_of bs = [] \/ padding_of bs = [EQ_SIGN] /\ sextets_of bs <> []
  \/ padding_of bs = [EQ_SIGN; EQ_SIGN].
Proof.
  induction bs as [|a|a b|a b c r IH] using bytes3_ind;
    [by left|by right; right|by right; left|].
  unfold padding_of in *. cbn [length]. rewrite mod3_step.
  destruct IH as [->|[[-> _]| ->]]; [by left|by right; left|by right; right].
Qed.

Lemma b64_decode_encode bs : Forall is_byte bs -> b64_decode (b64_encode bs) = Some bs.
Proof.
  intros Hb. unfold b64_decode.
  assert (Hf : filter (fun c => is_b64_space c = false)
                 (String.list_ascii_of_string (b64_encode bs))
               = String.list_ascii_of_string (b64_encode bs)).
  { pose proof (b64_encode_plain bs) as Hp. induction Hp as [|c l Hc _ IH]; [done|].
    rewrite filter_cons, decide_True by done. by f_equal. }
  rewrite Hf, b64_encode_sextets by done.
  assert (Hpl : Forall (fun c => c <> EQ_SIGN) (b64_char <$> sextets_of bs)).
  { apply Forall_fmap, Forall_true. intros n. cbn. apply b64_char_plain. }
  rewrite b64_unpad_body.
  - assert (Hm : mapM b64_value (b64_char <$> sextets_of bs) = Some (sextets_of bs)).
    { apply mapM_Some, Forall2_fmap_l. pose proof (sextets_of_range bs Hb) as Hr.
      clear Hpl. induction Hr as [|n l Hn _ IH]; constructor; [by apply b64_char_value|done]. }
    rewrite Hm. cbn. by apply b64_groups_sextets.
  - done.
  - destruct (b64_padding_cases bs) as [H|[[H1 H2]|H]]; [by left| |by right; right].
    right; left. split; [done|]. by destruct (sextets_of bs).
  - rewrite length_app, length_fmap. apply sextets_of_length.
Qed.

Lemma code_byte c : is_byte (code c).
Proof. unfold is_byte, code. pose proof (Ascii.nat_ascii_bounded c). lia. Qed.

Lemma atob_btoa s : atob (btoa s) = Some s.
Proof.
  unfold atob, btoa. rewrite b64_decode_encode.
  - cbn. f_equal. rewrite <- (String.string_of_list_ascii_of_string s) at 2. f_equal.
    induction (String.list_ascii_of_string s) as [|c l IH]; [done|]. cbn. rewrite IH.
    f_equal. unfold code. by rewrite Nat2Z.id, Ascii.ascii_nat_embedding.
  - apply Forall_fmap, Forall_true. intros c. apply code_byte.
Qed.

(** ** [parseFloat]

    The longest prefix that is a decimal literal, as its sign, digits and power of ten;
    [None] is what has no finite value: [NaN], and the literal [Infinity]. *)
Record decimal_literal := mkDecimal { dl_neg : bool; dl_digits : Z; dl_exp : Z }.

(** An exponent part counts only if it has digits. *)
Definition exponent_part (s : chars) : Z :=
  match s with
  | e :: s' =>
      if (code e =? 101) || (code e =? 69) then
        let '(neg, ds) :=
          match s' with
          | c :: r => if code c =? 45 then (true, r) else if code c =? 43 then (false, r) else (false, s')
          | [] => (false, [])
          end in
        let '(d, _) := span is_digit ds in
        if neg then - digits_value d else digits_value d
      else 0
  | [] => 0
  end.

Definition drop_sign (s : chars) : bool * chars :=
  match s with
  | c :: r => if code c =? 45 then (true, r) else if code c =? 43 then (false, r) else (false, s)
  | [] => (false, [])
  end.

Definition parse_decimal (input : string) : option decimal_literal :=
  let '(neg, s) := drop_sign (snd (span is_space (String.list_ascii_of_string input))) in
  let '(int, s1) := span is_digit s in
  let '(frac, s2) :=
    match s1 with
    | c :: s1' => if code c =? 46 then span is_digit s1' else ([], s1)
    | [] => ([], [])
    end in
  if bool_decide (int = []) && bool_decide (frac = []) then None
  else Some (mkDecimal neg (digits_value (int ++ frac)) (exponent_part s2 - Z.of_nat (length frac))).
