(* ===== verification/Policies.v ===== *)
(** * Policies and the registry ([sdk/kit/src/core/policies.ts], [core/registry.ts],
    [policies.ts])

    The normalisation of user-written policies: spend-limit strings, defaults, and the
    kit wrapper around the core resolver. JavaScript numbers that count milliseconds,
    decimals or transactions are integers; the one computation in floating point, the
    amount of a spend-limit string, goes through [Numbers]. *)

From S2P Require Import Prelude Types Numbers JsText.
Local Open Scope string_scope.
Local Open Scope Z_scope.
Local Open Scope list_scope.

(** ** Registry *)
Definition KNOWN_PROTOCOLS : jsmap string := [
  ("JUP6LkbZbjS1jKKwapdHNy74zcZ3tLUZoi5QNyVTaV4", "Jupiter V6");
  ("JUP4Fb2cqiRUcaTHdrPC8h2gNsA2ETXiPDD33WcPX7a", "Jupiter V4");
  ("JUP2jxvXaqu7NQY1GmNF4m1vodw12LVXYxbFL2uN4e7", "Jupiter V2");
  ("JLend2fEim9xUFcaHsyGePEoBzFLvkjMi3MnPcSuCdu", "Jupiter Lend");
  ("j1to2GQCsfSHNPfVKMcrUNyRBK8DPYECpEVPLkz1MKv", "Jupiter Trigger");
  ("DCA265Vj8a9CEuX1eb1LWRnDT7uK6q1xMipnNyatn23M", "Jupiter Recurring");
  ("whirLbMiicVdio4qvUfM5KAg6Ct8VwpYzGff3uctyCc", "Orca Whirlpool");
  ("9W959DqEETiGZocYWCQPaJ6sBmUzgfxXfqGeTEdp3aQP", "Orca Whirlpool V2");
  ("675kPX9MHTjS2zt1qfr1NYHuzeLXfQM9H24wFSUt1Mp8", "Raydium AMM V4");
  ("CAMMCzo5YL8w4VFF8KVHrK22GGUsp5VTaW7grrKgrWqK", "Raydium CLMM");
  ("CPMMoo8L3F4NbTegBCKVNunggL7H1ZpdTHKxQB5qKP1C", "Raydium CPMM");
  ("LBUZKhRxPF3XUpBCjp4YzTKgLccjZhTSDM9YuVaPwxo", "Meteora DLMM");
  ("Eo7WjKq67rjJQSZxS6z3YkapzY3eMj6Xy8X5EQVn5UaB", "Meteora Pools");
  ("SSwpkEEcbUqx4vtoEByFjSkhKdCT862DNVb52nZg1UZ", "Saber Stable Swap");
  ("DecZY86MU5Gj7kppfUCEmd4LbXXuyZH1yHaP2NTqdiZB", "Openbook V2");
  ("FLASH6Lo6h3iasJKWDs2F8TkW2UKf3s15C8PMGuVfgBn", "Flash Trade");
  ("FSWAPViR8ny5K96hezav8jynVubP2dJ2L7SbKzds2hwm", "Flash Composability");
  ("dRiftyHA39MWEi3m9aunc5MzRF1JYuBsbn6VPcn33UH", "Drift Protocol");
  ("MNGOHoFrnGrovWiCc9kHZB8xEBKM1XPYnZCpWFbRCev", "Mango Markets V4");
  ("KLend2g3cP87ber8CzRaqeECGwNvLFM9acPVcRkRHvM", "Kamino Lending");
  ("MFv2hWf31Z9kbCa1snEPYctwafyhdvnV7FZnsebVacA", "Marginfi V2");
  ("So1endDq2YkqhipRh3WViPa8hFMqDSRbsHTE15WSnBt", "Solend");
  ("MarBmsSgKXdrN1egZf5sqe1TMai9K1rChYNDJgjq7aD", "Marinade Finance");
  ("SPoo1Ku8WFXoNDMHPsrGSTSG1Y47rzgn41SLUNakuHy", "Stake Pool Program");
  ("J1toso1uCk3RLmjorhTtrVwY9HJ7X8V9yYac6Y7kGCPn", "Jito Staking");
  ("11111111111111111111111111111111", "System Program");
  ("TokenkegQfeZyiNwAJbNbGKPFXCWuBvf9Ss623VQ5DA", "Token Program");
  ("ATokenGPvbdGVxr1b2hvZbsiqW5xWH25efTNsLJA8knL", "Associated Token");
  ("TokenzQdBNbLqP5VEhdkAS6EPFLC1PHnBqCXEpPxuEb", "Token 2022");
  ("ComputeBudget111111111111111111111111111111", "Compute Budget");
  ("SysvarRent111111111111111111111111111111111", "Sysvar Rent");
  ("SysvarC1ock11111111111111111111111111111111", "Sysvar Clock")
].

Definition SYSTEM_PROGRAMS : list string := [
  "11111111111111111111111111111111";
  "TokenkegQfeZyiNwAJbNbGKPFXCWuBvf9Ss623VQ5DA";
  "ATokenGPvbdGVxr1b2hvZbsiqW5xWH25efTNsLJA8knL";
  "TokenzQdBNbLqP5VEhdkAS6EPFLC1PHnBqCXEpPxuEb";
  "ComputeBudget111111111111111111111111111111";
  "SysvarRent111111111111111111111111111111111";
  "SysvarC1ock11111111111111111111111111111111"
].

Record TokenInfo := mkTokenInfo { ti_symbol : string; ti_decimals : Z }.

Definition KNOWN_TOKENS : jsmap TokenInfo := [
  ("EPjFWdd5AufqSSqeM2qN1xzybapC8G4wEGGkZwyTDt1v", mkTokenInfo "USDC" 6);
  ("Es9vMFrzaCERmJfrF4H2FYD4KCoNkY11McCe8BenwNYB", mkTokenInfo "USDT" 6);
  ("USDSwr9ApdHk5bvJKMjzff41FfuX8bSxdKcR81vTwcA", mkTokenInfo "USDS" 6);
  ("So11111111111111111111111111111111111111112", mkTokenInfo "SOL" 9);
  ("3NZ9JMVBmGAqocybic2c7LQCJScmgsAZ6vQqTDzcqmJh", mkTokenInfo "wBTC" 8);
  ("cbbtcf3aa214zXHbiAZQwf4122FBYbraNdFqgw4iMij", mkTokenInfo "cbBTC" 8);
  ("7vfCXTUXx5WJV5JADk17DUJ4ksgau7utNKj4b963voxs", mkTokenInfo "wETH" 8);
  ("mSoLzYCxHdYgdzU16g5QSh3i5K3z3KZK7ytfqcJm7So", mkTokenInfo "mSOL" 9);
  ("J1toso1uCk3RLmjorhTtrVwY9HJ7X8V9yYac6Y7kGCPn", mkTokenInfo "jitoSOL" 9);
  ("bSo13r4TkiE4KumL71LsHTPpL2euBYLFx6h9HP3piy1", mkTokenInfo "bSOL" 9)
].

Definition getTokenInfo (mint : string) : option TokenInfo := jm_get mint KNOWN_TOKENS.
Definition getProtocolName (programId : string) : option string := jm_get programId KNOWN_PROTOCOLS.
Definition isSystemProgram (programId : string) : bool := bool_decide (programId ∈ SYSTEM_PROGRAMS).
Definition isKnownProtocol (programId : string) : bool := jm_has programId KNOWN_PROTOCOLS.

(** ** Policy types *)
Record SpendLimit := mkLimit {
  sl_mint : string;
  sl_amount : Z;
  sl_windowMs : option Z;
}.

Record RateLimitConfig := mkRate {
  rl_maxTransactions : Z;
  rl_windowMs : option Z;
}.

(** [Required<RateLimitConfig>] *)
Record RateLimit := mkRateLimit { maxTransactions : Z; windowMs : Z }.

Record PolicyCheckResult := mkCheck { check_allowed : bool; check_reason : option string }.

Inductive Direction := Outgoing | Incoming | Unknown.

Record TokenTransfer := mkTokenTransfer {
  t_mint : string;
  t_amount : Z;
  t_direction : Direction;
  t_destination : option string;
}.

Record TransactionAnalysis := mkTxAnalysis {
  ta_programIds : list string;
  ta_transfers : list TokenTransfer;
  ta_estimatedValueLamports : Z;
}.

(** A spend limit as the user writes it: a string or an object, alone or in an array. *)
Inductive limit_input := LimStr (s : string) | LimObj (l : SpendLimit).
Inductive max_spend := MaxOne (l : limit_input) | MaxMany (ls : list limit_input).
Inductive size_input := SizeBig (n : Z) | SizeStr (s : string).

Record ShieldPolicies := mkPolicies {
  p_maxSpend : option max_spend;
  p_maxTransactionSize : option size_input;
  p_allowedProtocols : option (list string);
  p_allowedTokens : option (list string);
  p_blockUnknownPrograms : option bool;
  p_rateLimit : option RateLimitConfig;
}.

Record ResolvedPolicies := mkResolvedPolicies {
  spendLimits : list SpendLimit;
  maxTransactionSize : option Z;
  allowedProtocols : option (list string);
  allowedTokens : option (list string);
  blockUnknownPrograms : bool;
  rateLimit : RateLimit;
}.

#[export] Instance SpendLimit_eq_dec : EqDecision SpendLimit.
Proof. solve_decision. Defined.
#[export] Instance RateLimit_eq_dec : EqDecision RateLimit.
Proof. solve_decision. Defined.
#[export] Instance ResolvedPolicies_eq_dec : EqDecision ResolvedPolicies.
Proof. solve_decision. Defined.

Definition DAY_MS : Z := 86400000.
Definition HOUR_MS : Z := 3600000.

Definition DEFAULT_MAX_SPEND : list SpendLimit := [
  mkLimit "EPjFWdd5AufqSSqeM2qN1xzybapC8G4wEGGkZwyTDt1v" 1000000000 (Some DAY_MS);
  mkLimit "Es9vMFrzaCERmJfrF4H2FYD4KCoNkY11McCe8BenwNYB" 1000000000 (Some DAY_MS);
  mkLimit "So11111111111111111111111111111111111111112" 10000000000 (Some DAY_MS)
].

Definition DEFAULT_RATE_LIMIT : RateLimit := mkRateLimit 60 HOUR_MS.

Definition WINDOW_ALIASES : jsmap Z := [
  ("/day", 86400000); ("/hour", 3600000); ("/hr", 3600000);
  ("/min", 60000); ("/minute", 60000)
].

(** ** [parseSpendLimit] *)
Record limit_syntax := mkSyntax {
  syn_int : chars;
  syn_frac : chars;
  syn_symbol : chars;
  syn_window : option string;
}.

(** The regular expression [^(\d+(?:\.\d+)?)\s+(\w+)(\/\w+)?$]: its character classes are
    disjoint where they meet, so the greedy match is the only one. *)
Definition match_limit (s : chars) : option limit_syntax :=
  let '(int, s1) := span is_digit s in
  if bool_decide (int = []) then None
  else
    let '(frac, s2) :=
      match s1 with
      | c :: s1' =>
          if code c =? 46 then
            let '(f, r) := span is_digit s1' in
            if bool_decide (f = []) then ([], s1) else (f, r)
          else ([], s1)
      | [] => ([], [])
      end in
    let '(sp, s3) := span is_space s2 in
    if bool_decide (sp = []) then None
    else
      let '(sym, s4) := span is_word s3 in
      if bool_decide (sym = []) then None
      else
        match s4 with
        | [] => Some (mkSyntax int frac sym None)
        | c :: s5 =>
            let '(w, s6) := span is_word s5 in
            if (code c =? 47) && negb (bool_decide (w = [])) && bool_decide (s6 = [])
            then Some (mkSyntax int frac sym (Some (String.string_of_list_ascii (c :: w))))
            else None
        end.

Definition config_error : SigilError := sdk_error "SIGIL_ERROR__SHIELD__CONFIG_INVALID" [].
Definition range_error : SigilError := sdk_error "RangeError" [].

(** [for (const [mint, info] of KNOWN_TOKENS)] up to the first matching symbol. *)
Definition find_symbol (symbol : chars) : option (string * TokenInfo) :=
  find_by (fun kv => bool_decide
      (toUpperCase (String.list_ascii_of_string (ti_symbol kv.2)) = toUpperCase symbol))
    KNOWN_TOKENS.

(** [BigInt(Math.round(parseFloat(amountStr) * 10 ** decimals))]; [BigInt(Infinity)]
    throws a [RangeError]. *)
Definition amount_native (int frac : chars) (decimals : Z) : res SigilError Z :=
  match js_double (fl (digits_value (int ++ frac)) (10 ^ Z.of_nat (length frac))) with
  | None => Throw range_error
  | Some amountFloat =>
      match js_double (fl_mul amountFloat (ratio_of_Z (10 ^ decimals))) with
      | None => Throw range_error
      | Some x => Ok (math_round x)
      end
  end.

Definition parseSpendLimit (input : string) : res SigilError SpendLimit :=
  match match_limit (trim (String.list_ascii_of_string input)) with
  | None => Throw config_error
  | Some syn =>
      windowMs ← (match syn_window syn with
                  | None => Ok DAY_MS
                  | Some w => match jm_get w WINDOW_ALIASES with
                              | Some ms => Ok ms
                              | None => Throw config_error
                              end
                  end : res SigilError Z);
      match find_symbol (syn_symbol syn) with
      | None => Throw config_error
      | Some (foundMint, info) =>
          amountNative ← amount_native (syn_int syn) (syn_frac syn) (ti_decimals info);
          Ok (mkLimit foundMint amountNative (Some windowMs))
      end
  end.

(** ** [resolvePolicies] (core) *)
Definition default_resolved : ResolvedPolicies :=
  mkResolvedPolicies DEFAULT_MAX_SPEND None None None true DEFAULT_RATE_LIMIT.

Definition parse_limit_input (l : limit_input) : res SigilError SpendLimit :=
  match l with LimStr s => parseSpendLimit s | LimObj l => Ok l end.

Definition resolve_max_spend (m : option max_spend) : res SigilError (list SpendLimit) :=
  match m with
  | None => Ok DEFAULT_MAX_SPEND
  | Some (MaxOne l) => map_res parse_limit_input [l]
  | Some (MaxMany ls) => map_res parse_limit_input ls
  end.

Definition resolve_size (s : option size_input) : res SigilError (option Z) :=
  match s with
  | None => Ok None
  | Some (SizeBig n) => Ok (Some n)
  | Some (SizeStr s) => l ← parseSpendLimit s; Ok (Some (sl_amount l))
  end.

Definition resolve_rate (r : option RateLimitConfig) : RateLimit :=
  match r with
  | None => DEFAULT_RATE_LIMIT
  | Some r => mkRateLimit (rl_maxTransactions r) (default HOUR_MS (rl_windowMs r))
  end.

Definition resolvePolicies (input : option ShieldPolicies) : res SigilError ResolvedPolicies :=
  match input with
  | None => Ok default_resolved
  | Some p =>
      limits ← resolve_max_spend (p_maxSpend p);
      size ← resolve_size (p_maxTransactionSize p);
      Ok (mkResolvedPolicies limits size (p_allowedProtocols p) (p_allowedTokens p)
            (default true (p_blockUnknownPrograms p)) (resolve_rate (p_rateLimit p)))
  end.

(** ** The kit wrapper ([policies.ts]) *)
Definition all_strings (ls : list limit_input) : bool :=
  forallb (fun l => match l with LimStr _ => true | LimObj _ => false end) ls.

(** [convertSpendLimits]: mixed arrays are parsed here, the rest is passed on. *)
Definition convertSpendLimits (m : max_spend) : res SigilError max_spend :=
  match m with
  | MaxOne l => Ok (MaxOne l)
  | MaxMany ls =>
      if all_strings ls then Ok (MaxMany ls)
      else MaxMany <$> (map_res (fun l => LimObj <$> parse_limit_input l) ls)
  end.

Record KitPolicies := mkKitPolicies {
  kp_core : ShieldPolicies;
  kp_customCheck : option (TransactionAnalysis -> PolicyCheckResult);
}.

Record KitResolved := mkKitResolved {
  kr_core : ResolvedPolicies;
  kr_customCheck : option (TransactionAnalysis -> PolicyCheckResult);
}.

Definition resolveKitPolicies (input : option KitPolicies) : res SigilError KitResolved :=
  match input with
  | None => (fun r => mkKitResolved r None) <$> resolvePolicies None
  | Some p =>
      let c := kp_core p in
      maxSpend ← (match p_maxSpend c with
                  | None => Ok None
                  | Some m => Some <$> convertSpendLimits m
                  end : res SigilError (option max_spend));
      coreResolved ← resolvePolicies (Some (mkPolicies maxSpend (p_maxTransactionSize c)
        (p_allowedProtocols c) (p_allowedTokens c) (p_blockUnknownPrograms c) (p_rateLimit c)));
      Ok (mkKitResolved coreResolved (kp_customCheck p))
  end.

(** The warnings of [validateSpendLimitMints], as the mints they name. *)
Definition validateSpendLimitMints (resolved : ResolvedPolicies) (network : Network) : list string :=
  (fun l => "Spend limit mint " +:+ sl_mint l +:+ " is not a recognized stablecoin on " +:+ network
     +:+ ". On-chain enforcement uses stablecoin-only USD tracking.")
  <$> filter (fun l => isStablecoinMint (sl_mint l) network = false) (spendLimits resolved).

(** ** Reading a spend limit is exact *)
(** What a user writes: digits, an optional fraction, a symbol and an optional window. *)
Definition render_limit (int frac sym : chars) (window : option string) : string :=
  String.string_of_list_ascii
    (int ++ (match frac with [] => [] | _ => Ascii.ascii_of_nat 46 :: frac end)
         ++ Ascii.ascii_of_nat 32 :: sym ++ from_option String.list_ascii_of_string [] window).

Definition window_ms (window : option string) : option Z :=
  match window with None => Some DAY_MS | Some w => jm_get w WINDOW_ALIASES end.

Lemma window_alias_syntax w ms :
  jm_get w WINDOW_ALIASES = Some ms ->
  exists cs, String.list_ascii_of_string w = Ascii.ascii_of_nat 47 :: cs /\
    cs <> [] /\ Forall (fun c => is_word c = true) cs.
Proof.
  unfold WINDOW_ALIASES. cbn.
  repeat case_decide; intros [= <-]; subst; eexists; (split_and!; [reflexivity|done|]);
    repeat (constructor; [reflexivity|]); constructor.
Qed.

Lemma match_limit_render int frac sym window ms :
  int <> [] -> Forall (fun c => is_digit c = true) int -> Forall (fun c => is_digit c = true) frac ->
  sym <> [] -> Forall (fun c => is_word c = true) sym -> window_ms window = Some ms ->
  match_limit (trim (String.list_ascii_of_string (render_limit int frac sym window)))
  = Some (mkSyntax int frac sym window).
Proof.
  intros Hi Hint Hfrac Hs Hsym Hw. unfold render_limit.
  rewrite String.list_ascii_of_string_of_list_ascii.
  set (wl := from_option String.list_ascii_of_string [] window).
  assert (Hwl : wl = [] \/ exists cs, wl = Ascii.ascii_of_nat 47 :: cs /\ cs <> [] /\
    Forall (fun c => is_word c = true) cs).
  { destruct window as [w|]; [right; by eapply window_alias_syntax|by left]. }
  rewrite (trim_id _ (hd (Ascii.ascii_of_nat 0) int)
    (tl int ++ (match frac with [] => [] | _ => Ascii.ascii_of_nat 46 :: frac end)
      ++ Ascii.ascii_of_nat 32 :: sym ++ wl)
    (List.last (sym ++ wl) (Ascii.ascii_of_nat 0))
    (int ++ (match frac with [] => [] | _ => Ascii.ascii_of_nat 46 :: frac end)
      ++ Ascii.ascii_of_nat 32 :: removelast (sym ++ wl))).
  - unfold match_limit.
    assert (Hsplit : span is_digit (int ++ (match frac with [] => [] | _ => Ascii.ascii_of_nat 46 :: frac end)
      ++ Ascii.ascii_of_nat 32 :: sym ++ wl) = (int, (match frac with [] => [] | _ => Ascii.ascii_of_nat 46 :: frac end)
      ++ Ascii.ascii_of_nat 32 :: sym ++ wl)).
    { apply span_app; [done|]. by destruct frac. }
    rewrite Hsplit, bool_decide_false by done.
    assert (Hsp : span is_space (Ascii.ascii_of_nat 32 :: sym ++ wl) = ([Ascii.ascii_of_nat 32], sym ++ wl)).
    { apply (span_app is_space [Ascii.ascii_of_nat 32]); [by repeat constructor|].
      destruct sym as [|c sym]; [done|]. apply word_not_space. by inversion Hsym. }
    assert (Hsy : span is_word (sym ++ wl) = (sym, wl)).
    { apply span_app; [done|]. destruct Hwl as [->|(cs & -> & _)]; done. }
    assert (Hend : match wl with
        | [] => Some (mkSyntax int frac sym None)
        | c :: s5 =>
            let '(w, s6) := span is_word s5 in
            if (code c =? 47) && negb (bool_decide (w = [])) && bool_decide (s6 = [])
            then Some (mkSyntax int frac sym (Some (String.string_of_list_ascii (c :: w))))
            else None
        end = Some (mkSyntax int frac sym window)).
    { destruct window as [w|]; [|done]. unfold wl in *. cbn [from_option] in *.
      destruct (window_alias_syntax w ms Hw) as (cs & Heq & Hcs & Hall). rewrite Heq.
      pose proof (span_app is_word cs [] Hall I) as Hspan. rewrite app_nil_r in Hspan.
      rewrite Hspan. rewrite bool_decide_false by done. rewrite bool_decide_true by done.
      cbn [negb andb]. change (code (Ascii.ascii_of_nat 47) =? 47) with true. cbn [andb].
      rewrite <- Heq. by rewrite String.string_of_list_ascii_of_string. }
    destruct frac as [|f frac].
    + cbn [app]. change (code (Ascii.ascii_of_nat 32) =? 46) with false. cbv iota.
      rewrite Hsp. rewrite bool_decide_false by done. rewrite Hsy, bool_decide_false by done.
      exact Hend.
    + cbn [app]. change (code (Ascii.ascii_of_nat 46) =? 46) with true. cbv iota.
      change (f :: frac ++ Ascii.ascii_of_nat 32 :: sym ++ wl)
        with ((f :: frac) ++ Ascii.ascii_of_nat 32 :: sym ++ wl).
      rewrite span_app by done. rewrite bool_decide_false by done.
      rewrite Hsp. rewrite bool_decide_false by done. rewrite Hsy, bool_decide_false by done.
      exact Hend.
  - by destruct int.
  - rewrite <- !app_assoc. cbn [app].
    assert (Hne : sym ++ wl <> []) by (by destruct sym).
    by rewrite <- (app_removelast_last (Ascii.ascii_of_nat 0) Hne).
  - destruct int as [|c int]; [done|]. cbn. apply word_not_space, digit_word. by inversion Hint.
  - assert (Hlast : List.last (sym ++ wl) (Ascii.ascii_of_nat 0) ∈ (sym ++ wl)).
    { assert (Hne : sym ++ wl <> []) by (by destruct sym).
      rewrite (app_removelast_last (Ascii.ascii_of_nat 0) Hne) at 2. set_solver. }
    apply elem_of_app in Hlast as [Hl|Hl].
    + apply word_not_space. exact (proj1 (Forall_forall _ _) Hsym _ Hl).
    + destruct Hwl as [Hnil|(cs & Hcs & _ & Hall)]; [rewrite Hnil in Hl; by apply elem_of_nil in Hl|].
      rewrite Hcs in Hl at 2. apply elem_of_cons in Hl as [->|Hl]; [reflexivity|].
      apply word_not_space. exact (proj1 (Forall_forall _ _) Hall _ Hl).
Qed.

Lemma js_double_small r m :
  0 <= m -> 0 < den r -> num r <= 2 ^ m * den r -> m < 1024 -> js_double r = Some r.
Proof.
  intros Hm0 Hd Hn Hm. unfold js_double. destruct (Z.geb_spec (num r) (2 ^ 1024 * den r)); [|done].
  exfalso. assert (2 ^ m < 2 ^ 1024) by (apply Z.pow_lt_mono_r; lia). nia.
Qed.

Lemma fl_upper n d : 0 <= n -> 0 < d -> num (fl n d) * d <= 2 * (n * den (fl n d)).
Proof.
  intros Hn Hd. pose proof (fl_error n d Hn Hd). pose proof (fl_den_pos n d).
  change (2 ^ 53) with 9007199254740992 in *. nia.
Qed.

Lemma find_symbol_decimals sym mint info :
  find_symbol sym = Some (mint, info) -> 6 <= ti_decimals info <= 9.
Proof.
  intros [Hin _]%find_by_some.
  assert (HF : Forall (fun kv => 6 <= ti_decimals kv.2 <= 9) KNOWN_TOKENS).
  { repeat (constructor; [cbn; lia|]). constructor. }
  exact (proj1 (Forall_forall _ _) HF _ Hin).
Qed.

Lemma amount_native_exact int frac decimals :
  Forall (fun c => is_digit c = true) (int ++ frac) ->
  Z.of_nat (length frac) <= decimals <= 9 ->
  let v := digits_value (int ++ frac) * 10 ^ (decimals - Z.of_nat (length frac)) in
  v < 2 ^ 50 -> amount_native int frac decimals = Ok v.
Proof.
  intros Hd Hk v Hv. subst v. unfold amount_native.
  pose proof (digits_value_nonneg _ Hd) as Hn.
  set (n := digits_value (int ++ frac)) in *. set (k := Z.of_nat (length frac)) in *.
  assert (Hk0 : 0 <= k) by lia.
  assert (HT : 0 < 10 ^ k) by (apply Z.pow_pos_nonneg; lia).
  assert (HU : 0 < 10 ^ (decimals - k)) by (apply Z.pow_pos_nonneg; lia).
  assert (Hp : 0 < 10 ^ decimals <= 10 ^ 9).
  { split; [apply Z.pow_pos_nonneg; lia|apply Z.pow_le_mono_r; lia]. }
  change (10 ^ 9) with 1000000000 in Hp. change (2 ^ 50) with 1125899906842624 in *.
  assert (Hn50 : n < 1125899906842624) by nia.
  pose proof (fl_upper n (10 ^ k) Hn HT) as H1. pose proof (fl_den_pos n (10 ^ k)) as Hb.
  pose proof (fl_nonneg n (10 ^ k) Hn HT) as Ha.
  assert (Ha2 : num (fl n (10 ^ k)) <= 2 ^ 51 * den (fl n (10 ^ k))).
  { change (2 ^ 51) with 2251799813685248. nia. }
  rewrite (js_double_small _ 51) by (done || lia).
  set (a := fl n (10 ^ k)) in *. unfold fl_mul. cbn [num den ratio_of_Z]. rewrite Z.mul_1_r.
  pose proof (fl_upper (num a * 10 ^ decimals) (den a) ltac:(nia) Hb) as H2.
  pose proof (fl_den_pos (num a * 10 ^ decimals) (den a)) as Hy.
  rewrite (js_double_small _ 82); [|done|done| |done].
  - f_equal. pose proof (decimal_scale_exact n k decimals Hn ltac:(lia)) as Hex.
    unfold fl_mul in Hex. cbn [num den ratio_of_Z] in Hex. rewrite Z.mul_1_r in Hex.
    fold a in Hex. apply Hex. exact Hv.
  - change (2 ^ 82) with 4835703278458516698824704. change (2 ^ 51) with 2251799813685248 in Ha2.
    set (x := num (fl (num a * 10 ^ decimals) (den a))) in *.
    set (y := den (fl (num a * 10 ^ decimals) (den a))) in *.
    set (p := 10 ^ decimals) in *. clearbody x y p.
    assert (x * den a <= (4503599627370496 * 1000000000 * y) * den a); [|nia].
    apply Z.le_trans with (2 * (num a * p * y)); [done|].
    assert (num a * p <= 2251799813685248 * den a * 1000000000) by nia. nia.
Qed.

(** a spend limit means what it says. For a decimal amount with no more fraction
    digits than the token has decimals, worth less than [2^50] base units, a known symbol
    in any letter case and an optional known window, [parseSpendLimit] returns exactly
    that many base units of that token in that window: the detour through binary floating
    point never loses a unit. *)
Theorem parseSpendLimit_exact (int frac sym : chars) (window : option string)
    (mint : string) (info : TokenInfo) (ms : Z) :
  int <> [] -> Forall (fun c => is_digit c = true) int ->
  Forall (fun c => is_digit c = true) frac -> sym <> [] ->
  Forall (fun c => is_word c = true) sym ->
  find_symbol sym = Some (mint, info) -> window_ms window = Some ms ->
  Z.of_nat (length frac) <= ti_decimals info ->
  let v := digits_value (int ++ frac) * 10 ^ (ti_decimals info - Z.of_nat (length frac)) in
  v < 2 ^ 50 ->
  parseSpendLimit (render_limit int frac sym window) = Ok (mkLimit mint v (Some ms)).
Proof.
  intros Hi Hint Hfrac Hs Hsym Hf Hw Hlen v Hv. unfold parseSpendLimit.
  rewrite (match_limit_render int frac sym window ms) by done. cbn [syn_window syn_symbol syn_int syn_frac].
  assert (Hwin : (match window with
      | None => Ok DAY_MS
      | Some w => match jm_get w WINDOW_ALIASES with
                  | Some ms => Ok ms | None => Throw config_error end
      end : res SigilError Z) = Ok ms).
  { destruct window as [w|]; cbn in Hw |- *; [by rewrite Hw|congruence]. }
  rewrite Hwin, bind_ok, Hf.
  rewrite (amount_native_exact int frac (ti_decimals info)); [done| | |done].
  - by apply Forall_app.
  - pose proof (find_symbol_decimals _ _ _ Hf). lia.
Qed.

Definition str := String.list_ascii_of_string.

Lemma parseSpendLimit_exact_witness :
  render_limit (str "0") (str "29") (str "usdc") (Some "/hr") = "0.29 usdc/hr" /\
  parseSpendLimit "0.29 usdc/hr"
  = Ok (mkLimit "EPjFWdd5AufqSSqeM2qN1xzybapC8G4wEGGkZwyTDt1v" 290000 (Some 3600000)).
Proof.
  split; [reflexivity|].
  apply (parseSpendLimit_exact (str "0") (str "29") (str "usdc") (Some "/hr")
    "EPjFWdd5AufqSSqeM2qN1xzybapC8G4wEGGkZwyTDt1v" (mkTokenInfo "USDC" 6) 3600000);
    try discriminate; try reflexivity; repeat constructor.
Defined.

(** ** The kit resolver is the core resolver *)
Lemma map_res_objs ls ls' :
  map_res (fun l => LimObj <$> parse_limit_input l) ls = Ok ls' ->
  map_res parse_limit_input ls = map_res parse_limit_input ls'.
Proof.
  revert ls'. induction ls as [|l ls IH]; intros ls'; cbn; [by intros [= <-]|].
  destruct (parse_limit_input l) as [x|] eqn:Hx; cbn; [|done].
  destruct (map_res _ ls) as [ys|]; cbn; [|done]. intros [= <-]. cbn. by rewrite (IH ys).
Qed.

Lemma map_res_objs_throw ls e :
  map_res (fun l => LimObj <$> parse_limit_input l) ls = Throw e ->
  map_res parse_limit_input ls = Throw e.
Proof.
  induction ls as [|l ls IH]; cbn; [done|].
  destruct (parse_limit_input l) as [x|]; cbn; [|congruence].
  destruct (map_res _ ls) as [ys|e']; cbn; [done|]. intros [= ->]. by rewrite IH.
Qed.

(** wrapping the policies changes nothing. [resolvePolicies] of the kit returns the core
    resolution of the same policies, errors included, with the custom check carried over:
    parsing the strings of a mixed array early gives the limits and the error the core
    parser would. *)
Theorem resolveKitPolicies_is_core (p : KitPolicies) :
  resolveKitPolicies (Some p)
  = (fun r => mkKitResolved r (kp_customCheck p)) <$> resolvePolicies (Some (kp_core p)).
Proof.
  unfold resolveKitPolicies. destruct p as [[ms ts ap at_ bu rl] cc]; cbn.
  destruct ms as [[l|ls]|]; cbn.
  - destruct (parse_limit_input l); cbn; [|done]. by destruct (resolve_size ts).
  - destruct (all_strings ls); cbn.
    + destruct (map_res parse_limit_input ls); cbn; [|done]. by destruct (resolve_size ts).
    + destruct (map_res (fun l => LimObj <$> parse_limit_input l) ls) as [ls'|e] eqn:Hm; cbn.
      * rewrite (map_res_objs _ _ Hm).
        destruct (map_res parse_limit_input ls'); cbn; [|done]. by destruct (resolve_size ts).
      * by rewrite (map_res_objs_throw _ _ Hm).
  - by destruct (resolve_size ts).
Qed.
