(* ===== verification/Formatting.v ===== *)
(** * Display formatting ([formatting.ts])

    Amounts, percentages, durations, addresses. What [Intl.NumberFormat] and
    [Number.prototype.toFixed] print is a parameter; the numbers they are given are the
    doubles the code computes. *)

From S2P Require Import Prelude Types Accounts Bytes Inspector Numbers JsText.
Local Open Scope string_scope.
Local Open Scope Z_scope.
Local Open Scope list_scope.

(** ** The formatters of the runtime *)
Class IntlLib := {
  currency_format : Z -> ratio -> string;        (* en-US, USD, that many decimals *)
  currency_format_compact : ratio -> string;
  number_format : ratio -> string;
  number_format_compact : ratio -> string;
  to_fixed : ratio -> Z -> string;
}.

Inductive number_error := RangeError | NumberTypeError.
#[export] Instance number_error_eq_dec : EqDecision number_error.
Proof. solve_decision. Defined.

(** ** USD numbers *)
Definition toUsdNumber (absAmount : Z) : res number_error ratio :=
  throw_if (absAmount <? 0) RangeError ;;
  Ok (fl_add (js_Number (Z.quot absAmount STABLECOIN_USD_FACTOR))
        (fl_over (js_Number (Z.rem absAmount STABLECOIN_USD_FACTOR)) 1000000)).

Definition MAX_SAFE_INTEGER : Z := 2 ^ 53 - 1.
Definition FROM_USD_NUMBER_MAX : ratio := fl_over (js_Number MAX_SAFE_INTEGER) 1000000.

Definition ratio_abs (r : ratio) : ratio := mkRatio (Z.abs (num r)) (den r).
Definition ratio_geb (a b : ratio) : bool := num a * den b >=? num b * den a.

(** [None] is [NaN] or an infinity. *)
Definition fromUsdNumber (value : option ratio) : res number_error Z :=
  match value with
  | None => Throw NumberTypeError
  | Some v =>
      throw_if (ratio_geb (ratio_abs v) FROM_USD_NUMBER_MAX) RangeError ;;
      Ok (math_round (fl_signed (num v * 1000000) (den v)))
  end.

Section formatters.
Context `{IntlLib}.

(** A sign in front of the absolute value; the negation is of a [bigint]. *)
Definition signed_format (f : ratio -> string) (amount : Z) : res number_error string :=
  dollarValue ← toUsdNumber (if amount <? 0 then - amount else amount);
  Ok (if amount <? 0 then "-" +:+ f dollarValue else f dollarValue).

Definition formatUsd (amount decimals : Z) : res number_error string :=
  signed_format (currency_format decimals) amount.

Definition formatUsdCompact (amount : Z) : res number_error string :=
  signed_format currency_format_compact amount.

Definition formatUsdSigned (amount decimals : Z) : res number_error string :=
  if amount =? 0 then formatUsd 0 decimals
  else if amount >? 0 then s ← formatUsd amount decimals; Ok ("+" +:+ s)
  else formatUsd amount decimals.

(** ** Percentages *)
Definition formatPercent (value : ratio) (decimals : Z) : string :=
  to_fixed value decimals +:+ "%".

Definition zeros (n : Z) : string :=
  String.string_of_list_ascii (replicate (Z.to_nat n) (Ascii.ascii_of_nat 48)).

(** [0.5 * Math.pow(10, -decimals)], the threshold below which the value shows as zero. *)
Definition percent_threshold (decimals : Z) : ratio := fl 1 (2 * 10 ^ decimals).

Definition formatPercentSigned (value : ratio) (decimals : Z) : string :=
  if negb (ratio_geb (ratio_abs value) (percent_threshold decimals)) then
    "0." +:+ zeros decimals +:+ "%"
  else if num value >? 0 then "+" +:+ to_fixed value decimals +:+ "%"
  else to_fixed value decimals +:+ "%".
End formatters.

(** ** Times, for a whole number of seconds *)
Definition formatDuration (seconds : Z) : string :=
  if seconds <? 0 then "0m"
  else if seconds <? 60 then "< 1m"
  else
    let days := seconds / 86400 in
    let hours := (seconds mod 86400) / 3600 in
    let minutes := (seconds mod 3600) / 60 in
    if days >? 0 then
      if hours >? 0 then pretty days +:+ "d " +:+ pretty hours +:+ "h" else pretty days +:+ "d"
    else if hours >? 0 then
      if minutes >? 0 then pretty hours +:+ "h " +:+ pretty minutes +:+ "m" else pretty hours +:+ "h"
    else pretty minutes +:+ "m".

Definition formatRelativeTime (timestamp now : Z) : string :=
  let diff := now - timestamp in
  if diff <? 60 then "just now"
  else if diff <? 3600 then pretty (diff / 60) +:+ "m ago"
  else if diff <? 86400 then pretty (diff / 3600) +:+ "h ago"
  else if diff <? 2592000 then pretty (diff / 86400) +:+ "d ago"
  else pretty (diff / 2592000) +:+ "mo ago".

Definition formatTimeUntil (timestamp now : Z) : string :=
  let diff := timestamp - now in
  if diff <=? 0 then "expired" else "in " +:+ formatDuration diff.

(** ** Token amounts *)
Definition padStart (s : chars) (width : Z) : chars :=
  replicate (Z.to_nat width - length s) (Ascii.ascii_of_nat 48) ++ s.

(** The digits after the point. *)
Definition fraction_digits (frac decimals fracDigits : Z) : chars :=
  take (Z.to_nat fracDigits) (padStart (String.list_ascii_of_string (pretty frac)) decimals).

Section token_amounts.
Context `{IntlLib}.

Definition formatTokenAmount (amount decimals : Z) (symbol : string) (displayDecimals : option Z)
    : string :=
  let absAmount := if amount <? 0 then - amount else amount in
  let factor := 10 ^ decimals in
  let whole := Z.quot absAmount factor in
  let frac := Z.rem absAmount factor in
  let fracDigits := default decimals displayDecimals in
  let fracStr := String.string_of_list_ascii (fraction_digits frac decimals fracDigits) in
  let wholeFormatted := number_format (js_Number whole) in
  let result :=
    if fracDigits >? 0 then wholeFormatted +:+ "." +:+ fracStr +:+ " " +:+ symbol
    else wholeFormatted +:+ " " +:+ symbol in
  if amount <? 0 then "-" +:+ result else result.

Definition formatTokenAmountCompact (amount decimals : Z) (symbol : string) : string :=
  let factor := 10 ^ decimals in
  let part := js_Number (Z.rem amount factor) in
  let scale := js_Number factor in
  let value := fl_add (js_Number (Z.quot amount factor))
                 (fl_signed (num part * den scale) (den part * num scale)) in
  number_format_compact value +:+ " " +:+ symbol.
End token_amounts.

(** ** Dollars as numbers and back *)
Lemma fl_signed_nonneg n d : 0 <= n -> fl_signed n d = fl n d.
Proof. intros Hn. unfold fl_signed. destruct (Z.ltb_spec n 0); [lia|done]. Qed.

(** An integer below [2^53] is exact as a double. *)
Lemma js_Number_exact z : 0 <= z < 2 ^ 53 -> 0 < den (js_Number z) /\ num (js_Number z) = z * den (js_Number z).
Proof.
  intros [Hz Hb]. unfold js_Number. rewrite fl_signed_nonneg by done.
  split; [apply fl_den_pos|]. unfold fl. destruct (Z.eqb_spec z 0) as [->|Hne]; [done|].
  assert (He : fl_exponent z 1 <= 0).
  { unfold fl_exponent. change (Z.log2 1) with 0.
    assert (Z.log2 z < 53) by (apply Z.log2_lt_pow2; lia).
    cbv zeta. destruct (_ <? _); lia. }
  cbn [num den]. rewrite (Z.max_l 0 (fl_exponent z 1)) by lia. change (2 ^ 0) with 1.
  unfold round_half_even. rewrite Z.mul_1_r, Z.div_1_r, Z.mod_1_r, Z.mul_1_r. done.
Qed.

(** The value of a rounded double is within a [2^-53] part of what it rounds. *)
Lemma fl_near n d : 0 <= n -> 0 < d ->
  0 < den (fl n d) /\ 0 <= num (fl n d) /\
  2 ^ 53 * Z.abs (num (fl n d) * d - n * den (fl n d)) <= n * den (fl n d).
Proof. intros. split_and!; [apply fl_den_pos|by apply fl_nonneg|by apply fl_error]. Qed.

Lemma abs_le_cancel x c b k : 0 < c -> k * Z.abs (x * c) <= b * c -> k * Z.abs x <= b.
Proof.
  intros Hc H. rewrite Z.abs_mul, (Z.abs_eq c) in H by lia.
  apply (Z.mul_le_mono_pos_r _ _ c Hc). lia.
Qed.

Lemma abs_le_scale x c b k : 0 <= c -> k * Z.abs x <= b -> k * Z.abs (x * c) <= b * c.
Proof.
  intros Hc H. rewrite Z.abs_mul, (Z.abs_eq c) by lia. rewrite Z.mul_assoc.
  by apply Z.mul_le_mono_nonneg_r.
Qed.

(** The arithmetic of the round trip: [n1/d1] approximates [r / 10^6], [n2/d2] the sum with
    the whole dollars [q], [n3/d3] that times [10^6]; each error is a [2^-53] part. *)
Lemma usd_sum_error q r n1 d1 n2 d2 :
  0 <= q -> 0 <= r < 1000000 -> 0 < d1 -> 0 < d2 -> 0 <= n1 ->
  2 ^ 53 * Z.abs (n1 * 1000000 - r * d1) <= r * d1 ->
  2 ^ 53 * Z.abs (n2 * d1 - (q * d1 + n1) * d2) <= (q * d1 + n1) * d2 ->
  2 ^ 53 * Z.abs (n2 * 1000000 - (q * 1000000 + r) * d2) <= (2 * (q * 1000000 + r) + 2) * d2.
Proof.
  intros Hq Hr Hd1 Hd2 Hn1 He1 He2. set (a := q * 1000000 + r).
  set (s := q * d1 + n1) in *.
  assert (Hs : s * 1000000 - a * d1 = n1 * 1000000 - r * d1) by (unfold s, a; ring).
  assert (Hra : r * d1 <= (a + 1) * d1) by (apply Z.mul_le_mono_nonneg_r; unfold a; lia).
  assert (Hup : s * 1000000 <= (a + 1) * d1).
  { assert (r * d1 <= 1000000 * d1) by (apply Z.mul_le_mono_nonneg_r; lia). lia. }
  apply (abs_le_cancel _ d1); [done|].
  pose proof (abs_le_scale _ 1000000 _ _ ltac:(lia) He2) as H1.
  rewrite <- Hs in He1. pose proof (abs_le_scale _ d2 _ _ ltac:(lia) He1) as H2.
  assert (H3 : s * 1000000 * d2 <= (a + 1) * d1 * d2) by (apply Z.mul_le_mono_nonneg_r; lia).
  assert (H4 : r * d1 * d2 <= (a + 1) * d1 * d2) by (apply Z.mul_le_mono_nonneg_r; lia).
  replace ((n2 * 1000000 - a * d2) * d1)
    with ((n2 * d1 - s * d2) * 1000000 + (s * 1000000 - a * d1) * d2) by ring.
  lia.
Qed.

Lemma usd_product_error a n2 d2 n3 d3 :
  0 <= a < 2 ^ 50 -> 0 < d2 -> 0 < d3 ->
  2 ^ 53 * Z.abs (n2 * 1000000 - a * d2) <= (2 * a + 2) * d2 ->
  2 ^ 53 * Z.abs (n3 * d2 - n2 * 1000000 * d3) <= n2 * 1000000 * d3 ->
  2 * Z.abs (n3 - a * d3) < d3.
Proof.
  intros Ha Hd2 Hd3 H2 H3.
  assert ((2 * a + 2) * d2 <= 2 ^ 53 * d2) by (apply Z.mul_le_mono_nonneg_r; lia).
  assert (Hup : n2 * 1000000 * d3 <= (a + 1) * d2 * d3) by (apply Z.mul_le_mono_nonneg_r; lia).
  pose proof (abs_le_scale _ d3 _ _ ltac:(lia) H2) as H4.
  assert (H5 : 2 ^ 53 * Z.abs (n3 - a * d3) <= (3 * a + 3) * d3).
  { apply (abs_le_cancel _ d2); [done|].
    replace ((n3 - a * d3) * d2)
      with ((n3 * d2 - n2 * 1000000 * d3) + (n2 * 1000000 - a * d2) * d3) by ring. lia. }
  assert ((3 * a + 3) * d3 <= 3 * 2 ^ 50 * d3) by (apply Z.mul_le_mono_nonneg_r; lia).
  lia.
Qed.

Lemma fl_over_near z k : 0 <= z < 2 ^ 53 -> 0 < k ->
  let f := fl_over (js_Number z) k in
  0 < den f /\ 0 <= num f /\ 2 ^ 53 * Z.abs (num f * k - z * den f) <= z * den f.
Proof.
  intros Hz Hk. cbv zeta. unfold fl_over. destruct (js_Number_exact z Hz) as [Hd Hn].
  set (x := js_Number z) in *. rewrite fl_signed_nonneg by (rewrite Hn; apply Z.mul_nonneg_nonneg; lia).
  destruct (fl_near (num x) (den x * k)) as (H1 & H2 & H3);
    [rewrite Hn; apply Z.mul_nonneg_nonneg; lia|by apply Z.mul_pos_pos|].
  split_and!; [done|done|]. apply (abs_le_cancel _ (den x)); [done|].
  set (f := fl _ _) in *. rewrite Hn in H3.
  replace ((num f * k - z * den f) * den x)
    with (num f * (den x * k) - z * den x * den f) by ring. lia.
Qed.

(** Showing an amount in dollars and reading it back loses nothing below [2^50] base units
    (more than a billion dollars), though the number shown is a sum of rounded fractions. *)
Theorem usd_number_roundtrip amount :
  0 <= amount < 2 ^ 50 ->
  (v ← toUsdNumber amount; fromUsdNumber (Some v)) = Ok amount.
Proof.
  intros Ha. unfold toUsdNumber. rewrite throw_if_false by lia. cbn [mbind res_bind].
  change STABLECOIN_USD_FACTOR with 1000000.
  rewrite Z.quot_div_nonneg, Z.rem_mod_nonneg by lia.
  pose proof (Z.div_mod amount 1000000 ltac:(lia)) as Hdm.
  pose proof (Z.mod_pos_bound amount 1000000 ltac:(lia)) as Hr.
  assert (Hq : 0 <= amount / 1000000) by (apply Z.div_pos; lia).
  set (q := amount / 1000000) in *. set (r := amount mod 1000000) in *.
  destruct (js_Number_exact q) as [Hdq Hnq]; [lia|].
  destruct (fl_over_near r 1000000) as (Hd1 & Hn1 & He1); [lia..|].
  set (x := js_Number q) in *. set (f := fl_over _ _) in *.
  unfold fl_add. rewrite Hnq.
  assert (Hs0 : 0 <= q * den x * den f + num f * den x) by nia.
  rewrite fl_signed_nonneg by done.
  destruct (fl_near (q * den x * den f + num f * den x) (den x * den f)) as (Hd2 & Hn2 & He2);
    [done|nia|].
  set (s := fl _ _) in *.
  assert (He2' : 2 ^ 53 * Z.abs (num s * den f - (q * den f + num f) * den s)
                 <= (q * den f + num f) * den s).
  { apply (abs_le_cancel _ (den x)); [done|].
    replace ((num s * den f - (q * den f + num f) * den s) * den x)
      with (num s * (den x * den f) - (q * den x * den f + num f * den x) * den s) by ring. lia. }
  pose proof (usd_sum_error _ _ _ _ _ _ Hq Hr Hd1 Hd2 Hn1 He1 He2') as Hsum.
  replace (q * 1000000 + r) with amount in Hsum by lia.
  unfold fromUsdNumber.
  destruct (fl_near (num s * 1000000) (den s)) as (Hd3 & Hn3 & He3); [lia|done|].
  rewrite throw_if_false.
  2: { unfold ratio_geb, ratio_abs. cbn [num den].
       assert ((2 * amount + 2) * den s <= 2 ^ 52 * den s) by (apply Z.mul_le_mono_nonneg_r; lia).
       assert (amount * den s <= 2 ^ 50 * den s) by (apply Z.mul_le_mono_nonneg_r; lia).
       assert (HM : num FROM_USD_NUMBER_MAX * 1000000 >= 2 ^ 52 * den FROM_USD_NUMBER_MAX)
         by (vm_compute; done).
       assert (0 < den FROM_USD_NUMBER_MAX) by (vm_compute; done).
       set (M := FROM_USD_NUMBER_MAX) in *. clearbody M. rewrite Z.abs_eq by lia.
       rewrite Z.geb_leb. apply Z.leb_gt.
       assert (num s * 1000000 * den M <= 2 ^ 51 * den s * den M) by (apply Z.mul_le_mono_nonneg_r; lia).
       assert (2 ^ 52 * den M * den s <= num M * 1000000 * den s) by (apply Z.mul_le_mono_nonneg_r; lia).
       assert (0 < den s * den M) by (by apply Z.mul_pos_pos). lia. }
  cbn [mbind res_bind]. rewrite fl_signed_nonneg by lia. f_equal.
  apply math_round_near; [done|]. by apply (usd_product_error _ (num s) (den s)).
Qed.

Lemma usd_number_roundtrip_witness :
  (v ← toUsdNumber 123456789012345; fromUsdNumber (Some v)) = Ok 123456789012345.
Proof. apply usd_number_roundtrip; lia. Defined.

(** Above [2^33] dollars a double no longer separates micro-dollars: amounts the ceiling
    admits come back changed. *)
Example usd_ceiling_too_high :
  (v ← toUsdNumber 8700000000000001; fromUsdNumber (Some v)) = Ok 8700000000000002.
Proof. vm_compute. reflexivity. Qed.

(** ** Token amounts are truncated exactly *)
Definition digits_of (s : chars) : Z := fold_left (fun v c => v * 10 + digit_val c) s 0.

Lemma digits_from (s : chars) (v : Z) :
  fold_left (fun v c => v * 10 + digit_val c) s v = v * 10 ^ Z.of_nat (length s) + digits_of s.
Proof.
  unfold digits_of. revert v. induction s as [|c s IH]; intros v; [cbn; lia|].
  cbn [fold_left length]. rewrite (IH (v * 10 + digit_val c)), (IH (0 * 10 + digit_val c)).
  rewrite Nat2Z.inj_succ, Z.pow_succ_r by lia. ring.
Qed.

Lemma digits_of_app s t : digits_of (s ++ t) = digits_of s * 10 ^ Z.of_nat (length t) + digits_of t.
Proof. unfold digits_of at 1. rewrite fold_left_app. apply digits_from. Qed.

Lemma digits_of_zeros n : digits_of (replicate n (Ascii.ascii_of_nat 48)) = 0.
Proof.
  induction n as [|n IH]; [done|]. unfold digits_of. cbn [replicate fold_left].
  change (digit_val (Ascii.ascii_of_nat 48)) with 0. apply IH.
Qed.

Lemma digits_of_range s :
  Forall (fun c => is_digit c = true) s -> 0 <= digits_of s < 10 ^ Z.of_nat (length s).
Proof.
  induction s as [|c s IH] using rev_ind; intros Hs; [done|].
  apply Forall_app in Hs as [Hs Hc]. apply Forall_cons in Hc as [Hc _]. specialize (IH Hs).
  rewrite digits_of_app, length_app. cbn [length].
  unfold digits_of at 2 4. cbn [fold_left]. rewrite Nat2Z.inj_add, Z.pow_add_r by lia.
  assert (0 <= digit_val c <= 9).
  { unfold digit_val. rewrite Hc. unfold is_digit, in_range in Hc.
    apply andb_true_iff in Hc as [?%Z.leb_le ?%Z.leb_le]. lia. }
  change (10 ^ Z.of_nat 1) with 10. nia.
Qed.

Lemma pretty_digits z : 0 <= z ->
  exists ds, String.list_ascii_of_string (pretty z) = ds /\
    Forall (fun c => is_digit c = true) ds /\ digits_of ds = z /\ (ds = [] -> False).
Proof.
  intros Hz. destruct z as [|p|p]; [|clear Hz|lia].
  - exists [Ascii.ascii_of_nat 48]. split_and!; [done| |done|done]. by repeat constructor.
  - destruct (pretty_N_go_chars (N.pos p) "") as (ds & Heq & Hd & Hv & Hne). exists ds.
    rewrite app_nil_r in Heq. split_and!; [exact Heq|done|exact Hv|by apply Hne].
Qed.

Lemma pretty_go_length d n s :
  Z.of_N n < 10 ^ Z.of_nat d ->
  (length (String.list_ascii_of_string (pretty_N_go n s))
   <= d + length (String.list_ascii_of_string s))%nat.
Proof.
  revert n s. induction d as [|d IH]; intros n s Hn.
  - assert (n = 0%N) as -> by (change (10 ^ Z.of_nat 0) with 1 in Hn; lia).
    by rewrite pretty_N_go_0.
  - destruct (decide (n = 0%N)) as [->|Hne]; [rewrite pretty_N_go_0; lia|].
    rewrite pretty_N_go_step by lia. etrans; [apply IH|cbn; lia].
    rewrite N2Z.inj_div. apply Z.div_lt_upper_bound; [lia|].
    rewrite Nat2Z.inj_succ, Z.pow_succ_r in Hn by lia. lia.
Qed.

Lemma pretty_length z d : 0 <= z < 10 ^ Z.of_nat d -> (0 < d)%nat ->
  (length (String.list_ascii_of_string (pretty z)) <= d)%nat.
Proof.
  intros [Hz Hd] Hpos. destruct z as [|p|p]; [cbn; lia| |lia].
  pose proof (pretty_go_length d (N.pos p) "" Hd) as H. cbn [String.list_ascii_of_string length] in H.
  rewrite Nat.add_0_r in H. exact H.
Qed.

Lemma fraction_digits_spec frac d k :
  (0 < d)%nat -> (k <= d)%nat -> 0 <= frac < 10 ^ Z.of_nat d ->
  let ds := fraction_digits frac (Z.of_nat d) (Z.of_nat k) in
  length ds = k /\ Forall (fun c => is_digit c = true) ds /\
  digits_of ds = frac / 10 ^ Z.of_nat (d - k).
Proof.
  intros Hd Hk Hf. cbv zeta. unfold fraction_digits, padStart. rewrite !Nat2Z.id.
  destruct (pretty_digits frac ltac:(lia)) as (ds & Heq & Hds & Hv & _).
  pose proof (pretty_length frac d Hf Hd) as Hl. rewrite Heq in *.
  set (p := replicate (d - length ds) (Ascii.ascii_of_nat 48) ++ ds).
  assert (Hp : length p = d) by (unfold p; rewrite length_app, length_replicate; lia).
  assert (HpF : Forall (fun c => is_digit c = true) p).
  { apply Forall_app. split; [|done]. by apply Forall_replicate. }
  assert (Hpv : digits_of p = frac).
  { unfold p. rewrite digits_of_app, digits_of_zeros, Hv. lia. }
  split_and!; [rewrite length_take; lia|by apply Forall_take|].
  rewrite <- (take_drop k p) in Hpv. rewrite digits_of_app, length_drop, Hp in Hpv.
  apply (Z.div_unique _ _ _ (digits_of (drop k p))).
  - left. replace (d - k)%nat with (length (drop k p)) by (rewrite length_drop; lia).
    by apply digits_of_range, Forall_drop.
  - lia.
Qed.

(** What [formatTokenAmount] prints for [displayDecimals] digits: the formatted whole part, a
    point and that many digits, which are the amount's, truncated and never rounded up. *)
Theorem formatTokenAmount_truncates `{IntlLib} amount (decimals digits : nat) symbol :
  (0 < digits)%nat -> (digits <= decimals)%nat ->
  exists whole ds,
    formatTokenAmount amount (Z.of_nat decimals) symbol (Some (Z.of_nat digits))
      = (if amount <? 0 then "-" else "")
        +:+ (number_format (js_Number whole) +:+ "." +:+ String.string_of_list_ascii ds
             +:+ " " +:+ symbol) /\
    length ds = digits /\ Forall (fun c => is_digit c = true) ds /\
    whole * 10 ^ Z.of_nat digits + digits_of ds
      = Z.abs amount / 10 ^ Z.of_nat (decimals - digits).
Proof.
  intros Hpos Hle. unfold formatTokenAmount. cbn [from_option]. unfold id.
  replace (if amount <? 0 then - amount else amount) with (Z.abs amount)
    by (destruct (Z.ltb_spec amount 0); lia).
  set (a := Z.abs amount). assert (Ha : 0 <= a) by (unfold a; lia).
  assert (HT : 0 < 10 ^ Z.of_nat decimals) by (apply Z.pow_pos_nonneg; lia).
  rewrite Z.quot_div_nonneg, Z.rem_mod_nonneg by lia.
  pose proof (Z.mod_pos_bound a (10 ^ Z.of_nat decimals) HT) as Hm.
  pose proof (Z.div_mod a (10 ^ Z.of_nat decimals) ltac:(lia)) as Hdm.
  destruct (fraction_digits_spec (a mod 10 ^ Z.of_nat decimals) decimals digits ltac:(lia) Hle Hm)
    as (Hlen & Hdig & Hval).
  set (ds := fraction_digits _ _ _) in *. exists (a / 10 ^ Z.of_nat decimals), ds.
  destruct (Z.gtb_spec (Z.of_nat digits) 0); [|lia].
  split; [destruct (amount <? 0); reflexivity|]. split; [done|]. split; [done|].
  rewrite Hval. set (w := a / 10 ^ Z.of_nat decimals) in *.
  set (f := a mod 10 ^ Z.of_nat decimals) in *. clearbody ds.
  assert (Hsplit : 10 ^ Z.of_nat decimals = 10 ^ Z.of_nat digits * 10 ^ Z.of_nat (decimals - digits)).
  { rewrite <- Z.pow_add_r by lia. f_equal. lia. }
  assert (Hd : 0 < 10 ^ Z.of_nat (decimals - digits)) by (apply Z.pow_pos_nonneg; lia).
  rewrite Hdm, Hsplit, (Z.mul_comm (_ * _) w), Z.mul_assoc, Z.div_add_l by lia. done.
Qed.

(** The formatters of the runtime in a form that computes. *)
#[export] Instance demo_intl : IntlLib := {
  currency_format := fun d r => "$" +:+ pretty (num r) +:+ "/" +:+ pretty (den r);
  currency_format_compact := fun r => "$" +:+ pretty (num r / den r);
  number_format := fun r => pretty (num r / den r);
  number_format_compact := fun r => pretty (num r / den r);
  to_fixed := fun r d => pretty (num r / den r);
}.

Lemma formatTokenAmount_truncates_witness :
  formatTokenAmount (-1239999) 6 "USDC" (Some 2) = "-1.23 USDC" /\
  exists whole ds,
    formatTokenAmount (-1239999) (Z.of_nat 6) "USDC" (Some (Z.of_nat 2))
      = "-" +:+ (number_format (js_Number whole) +:+ "." +:+ String.string_of_list_ascii ds
                 +:+ " " +:+ "USDC") /\
    length ds = 2%nat /\ Forall (fun c => is_digit c = true) ds /\
    whole * 10 ^ Z.of_nat 2 + digits_of ds = 123.
Proof.
  split; [vm_compute; reflexivity|].
  exact (formatTokenAmount_truncates (-1239999) 6 2 "USDC" ltac:(lia) ltac:(lia)).
Defined.

(** More display digits than decimals print only the decimals: a token with 6 decimals shows
    six digits where nine are asked for. *)
Example display_digits_capped : formatTokenAmount 1500000 6 "USDC" (Some 9) = "1.500000 USDC".
Proof. vm_compute. reflexivity. Qed.
