(* ===== verification/Tokens.v ===== *)
(** * Tokens ([sdk/kit/src/tokens.ts])

    Token lookup by symbol or mint, and the conversions between displayed amounts and base
    units. A JavaScript number is a sign and the exact value of its double ([Numbers]). *)

From S2P Require Import Prelude Types Numbers JsText Policies.
Local Open Scope string_scope.
Local Open Scope Z_scope.
Local Open Scope list_scope.

(** ** The table *)
Record KnownToken := mkKnownToken { kt_devnet : Address; kt_mainnet : Address; kt_decimals : Z }.

Definition same_mint (mint : Address) (decimals : Z) : KnownToken := mkKnownToken mint mint decimals.

Definition WELL_KNOWN_TOKENS : jsmap KnownToken := [
  ("USDC", mkKnownToken USDC_MINT_DEVNET USDC_MINT_MAINNET 6);
  ("USDT", mkKnownToken USDT_MINT_DEVNET USDT_MINT_MAINNET 6);
  ("SOL", same_mint "So11111111111111111111111111111111111111112" 9);
  ("WSOL", same_mint "So11111111111111111111111111111111111111112" 9);
  ("JUP", same_mint "JUPyiwrYJFskUPiHa7hkeR8VUtAeFoSYbKedZNsDvCN" 6);
  ("BONK", same_mint "DezXAZ8z7PnrnRJjz3wXBoRgixCa6xjnB7YaB1pPB263" 5);
  ("PYTH", same_mint "HZ1JovNiVvGrGNiiYvEozEVgZ58xaU3RKwX8eACQBCt3" 6);
  ("WIF", same_mint "EKpQGSJtjMFqKZ9KQanSqYXRcF8fBopzLHYxdM65zcjm" 6);
  ("JITO", same_mint "J1toso1uCk3RLmjorhTtrVwY9HJ7X8V9yYac6Y7kGCPn" 9);
  ("RAY", same_mint "4k3Dyjzvzp8eMZWUXbBCjEvwSkkk59S5iCNLY3QrkX6R" 6)
].

Record ResolvedToken := mkResolvedToken { rt_mint : Address; rt_decimals : Z; rt_symbol : string }.

(** The class [[1-9A-HJ-NP-Za-km-z]]. *)
Definition is_base58 (c : Ascii.ascii) : bool :=
  in_range 49 57 c || in_range 65 72 c || in_range 74 78 c || in_range 80 90 c
  || in_range 97 107 c || in_range 109 122 c.

Definition isBase58Address (value : string) : bool :=
  let cs := String.list_ascii_of_string value in
  if (length cs <? 32)%nat || (44 <? length cs)%nat then false else forallb is_base58 cs.

Definition resolveToken (tokenOrMint : string) (network : Network) : option ResolvedToken :=
  let upper := String.string_of_list_ascii (toUpperCase (String.list_ascii_of_string tokenOrMint)) in
  match jm_get upper WELL_KNOWN_TOKENS with
  | Some known =>
      Some (mkResolvedToken
              (if bool_decide (network = "devnet") then kt_devnet known else kt_mainnet known)
              (kt_decimals known) upper)
  | None =>
      if isBase58Address tokenOrMint then
        Some (mkResolvedToken tokenOrMint 6 (String.substring 0 4 tokenOrMint +:+ "..."))
      else None
  end.

(** ** Amounts *)
Record js_number := mkNumber { jn_neg : bool; jn_abs : ratio }.

(** The amount as a number, or [None] when it is not finite. *)
Definition number_of_literal (l : decimal_literal) : option js_number :=
  mkNumber (dl_neg l) <$>
    js_double (fl (dl_digits l * 10 ^ Z.max 0 (dl_exp l)) (10 ^ Z.max 0 (- dl_exp l))).

Inductive amount_input :=
  | AmountNum (x : option js_number)     (* [None]: NaN or an infinity *)
  | AmountStr (s : string).

Definition amount_value (amount : amount_input) : option js_number :=
  match amount with
  | AmountNum x => x
  | AmountStr s => parse_decimal s ≫= number_of_literal
  end.

Definition invalid_token_amount : SigilError := sdk_error "SIGIL_ERROR__SDK__INVALID_AMOUNT" [].

(** [num < 0]: false for [-0]. [BigInt(Infinity)] is a [RangeError]. *)
Definition toBaseUnits (amount : amount_input) (decimals : Z) : res SigilError Z :=
  match amount_value amount with
  | None => Throw invalid_token_amount
  | Some x =>
      if jn_neg x && negb (num (jn_abs x) =? 0) then Throw invalid_token_amount
      else
        match js_double (fl_mul (jn_abs x) (ratio_of_Z (10 ^ decimals))) with
        | None => Throw range_error
        | Some baseUnits => Ok (math_round baseUnits)
        end
  end.

(** [Number(amount) / 10 ** decimals]. *)
Definition fl_div (a b : ratio) : ratio := fl (num a * den b) (den a * num b).

Definition fromBaseUnits (amount decimals : Z) : ratio :=
  fl_div (fl amount 1) (ratio_of_Z (10 ^ decimals)).

(** ** The conversions are inverse *)
Lemma ltb_scale x y c : 0 < c -> (x * c <? y * c) = (x <? y).
Proof.
  intros Hc. destruct (Z.ltb_spec x y) as [H|H].
  - apply Z.ltb_lt. by apply Z.mul_lt_mono_pos_r.
  - apply Z.ltb_ge. apply Z.mul_le_mono_nonneg_r; lia.
Qed.

Lemma eqb_scale x y c : 0 < c -> (x * c =? y * c) = (x =? y).
Proof.
  intros Hc. destruct (Z.eqb_spec x y) as [->|H]; [apply Z.eqb_refl|].
  apply Z.eqb_neq. intros Heq. by apply Z.mul_cancel_r in Heq; [|lia].
Qed.

Lemma round_half_even_scale n d c :
  0 < d -> 0 < c -> round_half_even (n * c) (d * c) = round_half_even n d.
Proof.
  intros Hd Hc. unfold round_half_even. rewrite Z.div_mul_cancel_r by lia.
  rewrite Z.mul_mod_distr_r by lia. rewrite Z.mul_assoc. by rewrite ltb_scale, eqb_scale.
Qed.

(** Rounding depends on the quotient alone. *)
Lemma fl_scale n d m : 0 <= n -> 0 < d -> 0 <= m -> fl (n * 2 ^ m) (d * 2 ^ m) = fl n d.
Proof.
  intros Hn Hd Hm. assert (Hp : 0 < 2 ^ m) by (apply Z.pow_pos_nonneg; lia).
  unfold fl. destruct (Z.eqb_spec n 0) as [->|Hne].
  { rewrite Z.mul_0_l. done. }
  destruct (Z.eqb_spec (n * 2 ^ m) 0); [nia|].
  assert (He : fl_exponent (n * 2 ^ m) (d * 2 ^ m) = fl_exponent n d).
  { unfold fl_exponent. rewrite !Z.log2_mul_pow2 by lia.
    replace (m + Z.log2 n - (m + Z.log2 d) - 52) with (Z.log2 n - Z.log2 d - 52) by lia.
    cbv zeta. set (e := Z.log2 n - Z.log2 d - 52).
    replace (n * 2 ^ m * 2 ^ Z.max 0 (- e)) with (n * 2 ^ Z.max 0 (- e) * 2 ^ m) by ring.
    replace (2 ^ 52 * (d * 2 ^ m * 2 ^ Z.max 0 e)) with (2 ^ 52 * (d * 2 ^ Z.max 0 e) * 2 ^ m) by ring.
    by rewrite ltb_scale. }
  rewrite He. set (e := fl_exponent n d).
  replace (n * 2 ^ m * 2 ^ Z.max 0 (- e)) with (n * 2 ^ Z.max 0 (- e) * 2 ^ m) by ring.
  replace (d * 2 ^ m * 2 ^ Z.max 0 e) with (d * 2 ^ Z.max 0 e * 2 ^ m) by ring.
  rewrite round_half_even_scale; [done| |done].
  apply Z.mul_pos_pos; [done|]. apply Z.pow_pos_nonneg; lia.
Qed.

(** An integer below [2^53] is a double. *)
Lemma fl_integer n : 0 < n < 2 ^ 53 -> exists m, 0 <= m /\ fl n 1 = mkRatio (n * 2 ^ m) (2 ^ m).
Proof.
  intros [Hn Hb]. unfold fl. destruct (Z.eqb_spec n 0); [lia|].
  assert (He : fl_exponent n 1 <= 0).
  { unfold fl_exponent. change (Z.log2 1) with 0.
    assert (Z.log2 n < 53) by (apply Z.log2_lt_pow2; lia).
    cbv zeta. destruct (_ <? _); lia. }
  set (e := fl_exponent n 1) in *. exists (- e). split; [lia|].
  rewrite (Z.max_l 0 e) by lia. rewrite (Z.max_r 0 (- e)) by lia.
  change (2 ^ 0) with 1. unfold round_half_even. rewrite Z.mul_1_r, Z.div_1_r, Z.mod_1_r.
  cbn. by rewrite Z.mul_1_r.
Qed.

Lemma fromBaseUnits_fl a d :
  0 <= a < 2 ^ 53 -> 0 <= d -> fromBaseUnits a d = fl a (10 ^ d).
Proof.
  intros Ha Hd. unfold fromBaseUnits, fl_div. cbn [num den ratio_of_Z]. rewrite Z.mul_1_r.
  destruct (decide (a = 0)) as [->|Hne]; [reflexivity|].
  destruct (fl_integer a ltac:(lia)) as (m & Hm & ->). cbn [num den].
  rewrite (Z.mul_comm (2 ^ m)). apply fl_scale; [lia|apply Z.pow_pos_nonneg; lia|done].
Qed.

(** displaying an amount and parsing it back loses nothing: for every amount of base
    units below [2^50] and up to 18 decimals, [toBaseUnits (fromBaseUnits amount)] is the
    amount, although the displayed number is a rounded binary fraction. *)
Theorem base_units_roundtrip amount decimals :
  0 <= amount < 2 ^ 50 -> 0 <= decimals <= 18 ->
  toBaseUnits (AmountNum (Some (mkNumber false (fromBaseUnits amount decimals)))) decimals
  = Ok amount.
Proof.
  intros Ha Hd. unfold toBaseUnits, amount_value. cbn [jn_neg jn_abs andb].
  rewrite fromBaseUnits_fl by lia.
  assert (Hx : math_round (fl_mul (fl amount (10 ^ decimals)) (ratio_of_Z (10 ^ decimals))) = amount).
  { pose proof (decimal_scale_exact amount decimals decimals) as H.
    rewrite Z.sub_diag, Z.mul_1_r in H. apply H; lia. }
  assert (HT : 0 < 10 ^ decimals) by (apply Z.pow_pos_nonneg; lia).
  assert (HTB : 10 ^ decimals <= 10 ^ 18) by (apply Z.pow_le_mono_r; lia).
  pose proof (fl_nonneg amount (10 ^ decimals) ltac:(lia) HT) as Hn1.
  pose proof (fl_den_pos amount (10 ^ decimals)) as Hd1.
  pose proof (fl_upper amount (10 ^ decimals) ltac:(lia) HT) as Hu1.
  set (x := fl amount (10 ^ decimals)) in *.
  unfold fl_mul in *. cbn [num den ratio_of_Z] in *. rewrite Z.mul_1_r in *.
  pose proof (fl_upper (num x * 10 ^ decimals) (den x) ltac:(nia) Hd1) as Hu2.
  pose proof (fl_den_pos (num x * 10 ^ decimals) (den x)) as Hd2.
  set (y := fl (num x * 10 ^ decimals) (den x)) in *.
  unfold js_double. destruct (Z.geb_spec (num y) (2 ^ 1024 * den y)) as [Hbig|]; [|by rewrite Hx].
  exfalso. assert (num x <= 2 * (2 ^ 50 * den x)) by nia.
  assert (num y * den x <= 2 * (2 * (2 ^ 50 * den x) * 10 ^ 18 * den y)) by nia.
  assert (num y <= 4 * 2 ^ 50 * 10 ^ 18 * den y) by nia.
  assert (4 * 2 ^ 50 * 10 ^ 18 < 2 ^ 1024) by reflexivity. nia.
Qed.

Lemma base_units_roundtrip_witness :
  toBaseUnits (AmountNum (Some (mkNumber false (fromBaseUnits 1234567890123 9)))) 9
  = Ok 1234567890123.
Proof. apply base_units_roundtrip; lia. Defined.

(** Looking a listed mint up by its address ignores the table: its decimals come out as 6. *)
Example resolveToken_sol_symbol :
  rt_decimals <$> resolveToken "sol" "mainnet-beta" = Some 9.
Proof. vm_compute. reflexivity. Qed.

Example resolveToken_sol_mint :
  rt_decimals <$> resolveToken "So11111111111111111111111111111111111111112" "mainnet-beta" = Some 6.
Proof. vm_compute. reflexivity. Qed.

Example toBaseUnits_string : toBaseUnits (AmountStr "1.5e1 USDC") 6 = Ok 15000000.
Proof. vm_compute. reflexivity. Qed.
