(* ===== verification/Ledger.v ===== *)
(** * The rolling spend ledger: the interface of the two shields

    Both [ShieldState] classes ([sdk/kit/src/shield.ts] and [sdk/kit/src/core/state.ts])
    promise the same thing to the policy engines: after any number of [recordSpend] and
    [recordTransaction] calls, [getSpendInWindow] and [getTransactionCountInWindow] answer
    as if the whole history had been kept. The promise is stated against an abstract
    history, and each class states under which condition it keeps it. *)

From S2P Require Import Prelude.
Local Open Scope Z_scope.

(** One recorded spend; [SpendEntry] of both files. *)
Record SpendEntry := mkEntry { e_mint : string; e_amount : Z; e_timestamp : Z }.
#[export] Instance SpendEntry_eq_dec : EqDecision SpendEntry.
Proof. solve_decision. Defined.

(** ** Queries on a history *)
Definition spend_in_window (es : list SpendEntry) (mint : string) (windowMs now : Z) : Z :=
  sum_of e_amount (filter (fun e => e_mint e = mint /\ now - windowMs <= e_timestamp e) es).

Definition total_in_window (es : list SpendEntry) (windowMs now : Z) : Z :=
  sum_of e_amount (filter (fun e => now - windowMs <= e_timestamp e) es).

Definition count_in_window (txs : list Z) (windowMs now : Z) : Z :=
  Z.of_nat (length (filter (fun ts => now - windowMs <= ts) txs)).

(** ** The interface *)
Class SpendLedger (S : Type) := {
  lg_spend : S -> string -> Z -> Z -> Z;
  lg_count : S -> Z -> Z -> Z;
  lg_record : S -> string -> Z -> Z -> S;
  lg_record_tx : S -> Z -> S;
}.

(** [lg_models s es txs last]: [s] answers for the history of spends [es] and
    transactions [txs], all at or before [last]. *)
Class LedgerLaws (S : Type) `{SpendLedger S} := {
  lg_models : S -> list SpendEntry -> list Z -> Z -> Prop;
  (** the longest window the implementation answers for *)
  lg_horizon : option Z;
  (** there is room for one more entry *)
  lg_room : list SpendEntry -> list Z -> Prop;
  lg_models_mono s es txs last now :
    lg_models s es txs last -> last <= now -> lg_models s es txs now;
  lg_spend_ok s es txs last mint w now :
    lg_models s es txs last -> last <= now ->
    (match lg_horizon with Some h => w <= h | None => True end) ->
    lg_spend s mint w now = spend_in_window es mint w now;
  lg_count_ok s es txs last w now :
    lg_models s es txs last -> last <= now ->
    (match lg_horizon with Some h => w <= h | None => True end) ->
    lg_count s w now = count_in_window txs w now;
  lg_record_ok s es txs last mint a now :
    lg_models s es txs last -> last <= now -> lg_room es txs ->
    lg_models (lg_record s mint a now) (es ++ [mkEntry mint a now]) txs now;
  lg_record_tx_ok s es txs last now :
    lg_models s es txs last -> last <= now -> lg_room es txs ->
    lg_models (lg_record_tx s now) es (txs ++ [now]) now;
}.

Definition in_horizon (h : option Z) (w : Z) : Prop :=
  match h with Some h => w <= h | None => True end.

(** ** Lemmas on histories *)
Lemma spend_in_window_app es1 es2 m w now :
  spend_in_window (es1 ++ es2) m w now
  = spend_in_window es1 m w now + spend_in_window es2 m w now.
Proof. unfold spend_in_window. by rewrite filter_app, sum_of_app. Qed.

Lemma count_in_window_app t1 t2 w now :
  count_in_window (t1 ++ t2) w now = count_in_window t1 w now + count_in_window t2 w now.
Proof. unfold count_in_window. rewrite filter_app, length_app. lia. Qed.

(** As time passes a window only loses spends. *)
Lemma spend_in_window_antimono es m w now now' :
  Forall (fun e => 0 <= e_amount e) es -> now <= now' ->
  spend_in_window es m w now' <= spend_in_window es m w now.
Proof.
  intros Hnn Hle. unfold spend_in_window. rewrite !sum_of_filter. apply sum_of_le.
  intros e He. pose proof (proj1 (Forall_forall _ _) Hnn e He) as H. cbn in H.
  repeat case_decide; try lia. intuition lia.
Qed.

Lemma count_in_window_antimono txs w now now' :
  now <= now' -> count_in_window txs w now' <= count_in_window txs w now.
Proof.
  intros Hle. unfold count_in_window. apply inj_le.
  induction txs as [|t txs IH]; [done|]. rewrite !filter_cons.
  repeat case_decide; cbn; lia.
Qed.

(** What a batch of entries, all of the same instant, adds to the window ending there. *)
Definition batch_spend (batch : list (string * Z)) (m : string) : Z :=
  sum_of snd (filter (fun t => t.1 = m) batch).

Definition entries_at (now : Z) (batch : list (string * Z)) : list SpendEntry :=
  (fun t => mkEntry t.1 t.2 now) <$> batch.

Lemma spend_entries_at batch m w now :
  0 <= w -> spend_in_window (entries_at now batch) m w now = batch_spend batch m.
Proof.
  intros Hw. unfold spend_in_window, batch_spend, entries_at.
  induction batch as [|[m' a] batch IH]; [done|].
  rewrite fmap_cons, !filter_cons. cbn [fst snd e_mint e_timestamp].
  destruct (decide (m' = m)) as [Hm|Hm].
  - rewrite decide_True by (split; [done|lia]). by rewrite !sum_of_cons, IH.
  - rewrite decide_False by tauto. exact IH.
Qed.

Section ledger.
Context {S : Type} `{LedgerLaws S}.

(** Recording a batch, entry by entry, as the engines do after an approval. *)
Definition record_all (s : S) (batch : list (string * Z)) (now : Z) : S :=
  fold_left (fun s t => lg_record s t.1 t.2 now) batch s.

Lemma record_all_models s es txs last batch now :
  lg_models s es txs last -> last <= now ->
  (forall es', es' `prefix_of` (es ++ entries_at now batch) -> lg_room es' txs) ->
  lg_models (record_all s batch now) (es ++ entries_at now batch) txs now.
Proof.
  revert s es last. induction batch as [|[m a] batch IH]; intros s es last Hm Hl Hroom.
  { rewrite app_nil_r. by eapply lg_models_mono. }
  assert (Heq : es ++ entries_at now ((m, a) :: batch)
    = (es ++ [mkEntry m a now]) ++ entries_at now batch) by (rewrite <- app_assoc; done).
  rewrite Heq in *. unfold record_all. cbn [fold_left fst snd].
  apply (IH (lg_record s m a now) (es ++ [mkEntry m a now]) now); [|lia|done].
  eapply lg_record_ok; [done|done|]. apply Hroom. rewrite <- app_assoc. by apply prefix_app_r.
Qed.
End ledger.
