(* ===== verification/Shield.v ===== *)
(** * The client-side shield ([sdk/kit/src/shield.ts])

    The in-memory spending state, the policy evaluation, the shield context as a state
    machine and the pre-sign gate of the shielded signer. Every operation takes the
    clock reading [now] (milliseconds) as an argument: an operation reads the clock once.
    Logging is not modelled; the [onDenied]/[onApproved]/... callbacks are returned as
    the list of calls an operation makes. *)

From S2P Require Import Prelude Types Accounts Bytes OnChain StateResolver Inspector Policies Ledger.
Local Open Scope string_scope.
Local Open Scope Z_scope.
Local Open Scope list_scope.

Record PolicyViolation := mkViolation {
  v_rule : string;
  v_message : string;
  v_suggestion : string;
}.
#[export] Instance PolicyViolation_eq_dec : EqDecision PolicyViolation.
Proof. solve_decision. Defined.

(** What the shield throws: [ShieldDeniedError] with its violations, or another SDK
    error. *)
Inductive shield_error :=
  | Denied (violations : list PolicyViolation)
  | Sdk (e : SigilError).

(** ** [ShieldState] *)
Record ShieldState (C : Type) := mkShieldState {
  spendEntries : list SpendEntry;
  txEntries : list Z;
  resolvedState : option (ResolvedVaultState C);
  localUsdAdditions : Z;
  st_network : option Network;
  enforceUsed : bool;
}.
Arguments mkShieldState {C}. Arguments spendEntries {C}. Arguments txEntries {C}.
Arguments resolvedState {C}. Arguments localUsdAdditions {C}. Arguments st_network {C}.
Arguments enforceUsed {C}.

Record Checkpoint (C : Type) := mkCheckpoint {
  cp_spendEntries : list SpendEntry;
  cp_txEntries : list Z;
  cp_resolvedState : option (ResolvedVaultState C);
  cp_localUsdAdditions : Z;
  cp_network : option Network;
  cp_enforceUsed : bool;
}.
Arguments mkCheckpoint {C}. Arguments cp_spendEntries {C}. Arguments cp_txEntries {C}.
Arguments cp_resolvedState {C}. Arguments cp_localUsdAdditions {C}. Arguments cp_network {C}.
Arguments cp_enforceUsed {C}.

Definition PRUNE_THRESHOLD : nat := 10000.

Section state.
Context {C : Type}.
Implicit Types s : ShieldState C.

Definition new_state : ShieldState C := mkShieldState [] [] None 0 None false.

Definition getSpendInWindow s (mint : string) (windowMs now : Z) : Z :=
  let cutoff := now - windowMs in
  sum_of e_amount (filter (fun e => e_mint e = mint /\ cutoff <= e_timestamp e) (spendEntries s)).

Definition getTotalSpendInWindow s (windowMs now : Z) : Z :=
  let cutoff := now - windowMs in
  sum_of e_amount (filter (fun e => cutoff <= e_timestamp e) (spendEntries s)).

Definition getTransactionCountInWindow s (windowMs now : Z) : Z :=
  let cutoff := now - windowMs in
  Z.of_nat (length (filter (fun ts => cutoff <= ts) (txEntries s))).

Definition prune s (now : Z) : ShieldState C :=
  let cutoff := now - 86400000 in
  mkShieldState
    (if (PRUNE_THRESHOLD <? length (spendEntries s))%nat
     then filter (fun e => cutoff <= e_timestamp e) (spendEntries s) else spendEntries s)
    (if (PRUNE_THRESHOLD <? length (txEntries s))%nat
     then filter (fun ts => cutoff <= ts) (txEntries s) else txEntries s)
    (resolvedState s) (localUsdAdditions s) (st_network s) (enforceUsed s).

Definition recordSpend s (mint : string) (amount now : Z) : ShieldState C :=
  prune (mkShieldState (spendEntries s ++ [mkEntry mint amount now]) (txEntries s)
           (resolvedState s) (localUsdAdditions s) (st_network s) (enforceUsed s)) now.

Definition recordTransaction s (now : Z) : ShieldState C :=
  prune (mkShieldState (spendEntries s) (txEntries s ++ [now])
           (resolvedState s) (localUsdAdditions s) (st_network s) (enforceUsed s)) now.

Definition syncFromOnChain s (state : ResolvedVaultState C) (network : option Network)
    : ShieldState C :=
  mkShieldState (spendEntries s) (txEntries s) (Some state) 0
    (match network with Some n => Some n | None => st_network s end) (enforceUsed s).

Definition recordUsdSpend s (amount : Z) : ShieldState C :=
  mkShieldState (spendEntries s) (txEntries s) (resolvedState s) (localUsdAdditions s + amount)
    (st_network s) (enforceUsed s).

Definition getEffectiveGlobalSpent24h s : Z :=
  match resolvedState s with
  | None => localUsdAdditions s
  | Some rs => spent24h (globalBudget rs) + localUsdAdditions s
  end.

Definition getEffectiveGlobalRemaining s : option Z :=
  match resolvedState s with
  | None => None
  | Some rs =>
      let c := cap (globalBudget rs) in
      let spent := getEffectiveGlobalSpent24h s in
      Some (if spent <? c then c - spent else 0)
  end.

Definition getEffectiveAgentSpent24h s : option Z :=
  rs ← resolvedState s; b ← agentBudget rs; Some (spent24h b + localUsdAdditions s).

Definition getEffectiveAgentRemaining s : option Z :=
  rs ← resolvedState s; b ← agentBudget rs;
  let spent := spent24h b + localUsdAdditions s in
  Some (if spent <? cap b then cap b - spent else 0).

Definition markEnforceUsed s : ShieldState C :=
  mkShieldState (spendEntries s) (txEntries s) (resolvedState s) (localUsdAdditions s)
    (st_network s) true.

(** Both directions copy the arrays, so a checkpoint shares nothing with the state. *)
Definition checkpoint s : Checkpoint C :=
  {| cp_spendEntries := spendEntries s; cp_txEntries := txEntries s;
     cp_resolvedState := resolvedState s; cp_localUsdAdditions := localUsdAdditions s;
     cp_network := st_network s; cp_enforceUsed := enforceUsed s |}.

Definition rollback s (cp : Checkpoint C) : ShieldState C :=
  {| spendEntries := cp_spendEntries cp; txEntries := cp_txEntries cp;
     resolvedState := cp_resolvedState cp; localUsdAdditions := cp_localUsdAdditions cp;
     st_network := cp_network cp; enforceUsed := cp_enforceUsed cp |}.

Definition reset s : ShieldState C := new_state.
End state.

(** ** Policy evaluation *)
Definition SHIELD_SYSTEM_PROGRAMS : list string :=
  [SYSTEM_PROGRAM_ADDRESS; COMPUTE_BUDGET_PROGRAM_ADDRESS; ATA_PROGRAM_ADDRESS].

Definition is_stable_outgoing (signer : Address) (network : Network) (t : TokenTransferInfo) : bool :=
  bool_decide (tt_authority t = signer) &&
  match tt_mint t with Some m => isStablecoinMint m network | None => false end.

Definition computeStablecoinUsd (transfers : list TokenTransferInfo) (signerAddress : Address)
    (network : Network) : Z :=
  sum_of tt_amount (filter (fun t => is_stable_outgoing signerAddress network t = true) transfers).

(** 1. Program allowlist *)
Definition check_programs (p : ResolvedPolicies) (a : InstructionAnalysis) : list PolicyViolation :=
  match allowedProtocols p with
  | Some allowed =>
      if blockUnknownPrograms p then
        (fun pid => mkViolation "program_allowlist"
           ("Program " +:+ pid +:+ " is not in the allowed list")
           "Use a protocol that is explicitly allowed by the policy")
        <$> filter (fun pid => pid ∉ SHIELD_SYSTEM_PROGRAMS /\ pid ∉ allowed) (programIds a)
      else []
  | None => []
  end.

(** 2. Spend limits *)
Definition tx_spend (a : InstructionAnalysis) (signer : Address) (limit : SpendLimit) : Z :=
  sum_of tt_amount (filter (fun t => tt_authority t = signer /\
    (tt_mint t = Some (sl_mint limit) \/ tt_mint t = None)) (tokenTransfers a)).

Definition check_limit {C} (s : ShieldState C) (a : InstructionAnalysis) (signer : Address) (now : Z)
    (limit : SpendLimit) : list PolicyViolation :=
  let windowMs := default 86400000 (sl_windowMs limit) in
  let currentSpend := getSpendInWindow s (sl_mint limit) windowMs now in
  let txSpend := tx_spend a signer limit in
  if currentSpend + txSpend >? sl_amount limit then
    [mkViolation "spend_limit"
       ("Spend limit exceeded for " +:+ sl_mint limit +:+ ": " +:+ pretty (currentSpend + txSpend)
          +:+ " > " +:+ pretty (sl_amount limit))
       "Reduce the transaction amount or wait for the rolling window to reset"]
  else [].

(** 3. Rate limit *)
Definition check_rate {C} (s : ShieldState C) (p : ResolvedPolicies) (now : Z) : list PolicyViolation :=
  let count := getTransactionCountInWindow s (windowMs (rateLimit p)) now in
  if count >=? maxTransactions (rateLimit p) then
    [mkViolation "rate_limit"
       ("Rate limit exceeded: " +:+ pretty count +:+ "/" +:+ pretty (maxTransactions (rateLimit p))
          +:+ " transactions in window")
       "Wait before sending more transactions"]
  else [].

(** 4. Custom check *)
Definition custom_analysis (a : InstructionAnalysis) (signer : Address) : TransactionAnalysis :=
  mkTxAnalysis (programIds a)
    ((fun t => mkTokenTransfer (default "" (tt_mint t)) (tt_amount t)
        (if decide (tt_authority t = signer) then Outgoing else Unknown)
        (Some (tt_destination t))) <$> tokenTransfers a)
    (estimatedValue a).

Definition check_custom (cc : option (TransactionAnalysis -> PolicyCheckResult))
    (a : InstructionAnalysis) (signer : Address) : list PolicyViolation :=
  match cc with
  | None => []
  | Some f =>
      let r := f (custom_analysis a signer) in
      if check_allowed r then []
      else [mkViolation "custom" (default "Custom policy check failed" (check_reason r))
              "Review the custom policy callback and the rejected transaction inputs; adjust the policy or the transaction to satisfy the predicate."]
  end.

(** 5. On-chain caps, when synced *)
Definition check_on_chain {C} (s : ShieldState C) (a : InstructionAnalysis) (signer : Address)
    (network : option Network) : list PolicyViolation :=
  let effectiveNetwork := match network with Some n => Some n | None => st_network s end in
  match resolvedState s, effectiveNetwork with
  | Some rs, Some net =>
      let usd := computeStablecoinUsd (tokenTransfers a) signer net in
      if usd >? 0 then
        (if usd >? maxTransactionUsd rs then
           [mkViolation "on_chain_tx_size"
              ("Transaction " +:+ pretty usd +:+ " exceeds max " +:+ pretty (maxTransactionUsd rs))
              "Reduce the transaction amount"] else []) ++
        (let g := getEffectiveGlobalSpent24h s in
         if g + usd >? cap (globalBudget rs) then
           [mkViolation "on_chain_vault_cap"
              ("Would exceed on-chain daily cap: " +:+ pretty (g + usd) +:+ " > "
                 +:+ pretty (cap (globalBudget rs)))
              "Reduce amount or wait for the 24h window to roll"] else []) ++
        (match getEffectiveAgentSpent24h s, agentBudget rs with
         | Some ag, Some b =>
             if ag + usd >? cap b then
               [mkViolation "on_chain_agent_cap"
                  ("Would exceed agent spend limit: " +:+ pretty (ag + usd) +:+ " > " +:+ pretty (cap b))
                  "Reduce amount or wait"] else []
         | _, _ => []
         end)
      else []
  | _, _ => []
  end.

Definition evaluateInstructions {C} (instructions : list InspectableInstruction)
    (signerAddress : Address) (resolved : KitResolved) (s : ShieldState C)
    (network : option Network) (now : Z)
    : res shield_error (list PolicyViolation * InstructionAnalysis) :=
  match network ≫= (fun n => match validateNetwork n with Ok _ => None | Throw e => Some e end) with
  | Some e => Throw (Sdk e)
  | None =>
      let a := analyzeInstructions instructions signerAddress in
      let p := kr_core resolved in
      Ok (check_programs p a
            ++ flat_map (check_limit s a signerAddress now) (spendLimits p)
            ++ check_rate s p now
            ++ check_custom (kr_customCheck resolved) a signerAddress
            ++ check_on_chain s a signerAddress network, a)
  end.

(** ** The shield context *)
Record SyncConfig := mkSync { sync_vault : Address; sync_agent : Address; sync_network : Network }.

Record Shield (C : Type) := mkShield {
  sh_resolved : KitResolved;
  sh_state : ShieldState C;
  sh_paused : bool;
  sh_sync : option SyncConfig;
}.
Arguments mkShield {C}. Arguments sh_resolved {C}. Arguments sh_state {C}.
Arguments sh_paused {C}. Arguments sh_sync {C}.

(** The callbacks of [ShieldOptions] an operation calls. *)
Inductive callback :=
  | OnDenied (violations : list PolicyViolation)
  | OnApproved
  | OnPolicyUpdate
  | OnPause
  | OnResume.

Record ShieldCheckResult := mkCheckResult { allowed : bool; violations : list PolicyViolation }.

Definition paused_violation : PolicyViolation :=
  mkViolation "paused" "Shield is paused — all operations blocked until resume()"
    "Call resume() to re-enable".

Section shield.
Context {C : Type}.
Implicit Types sh : Shield C.

Definition shield (policies : option KitPolicies) (onChainSync : option SyncConfig)
    : res SigilError (Shield C) :=
  resolved ← resolveKitPolicies policies;
  match onChainSync with
  | None => Ok (mkShield resolved new_state false None)
  | Some c => validateNetwork (sync_network c) ;; Ok (mkShield resolved new_state false (Some c))
  end.

Definition sync_net sh : option Network := sync_network <$> sh_sync sh.

Definition check sh (instructions : list InspectableInstruction) (signerAddress : Address) (now : Z)
    : res shield_error ShieldCheckResult :=
  if sh_paused sh then Ok (mkCheckResult false [paused_violation])
  else
    '(vs, _) ← evaluateInstructions instructions signerAddress (sh_resolved sh) (sh_state sh)
                 (sync_net sh) now;
    Ok (mkCheckResult (bool_decide (vs = [])) vs).

(** [for (const transfer of analysis.tokenTransfers) ...]; then [recordTransaction]. *)
Definition record_transfers (s : ShieldState C) (a : InstructionAnalysis) (signer : Address) (now : Z)
    : ShieldState C :=
  fold_left (fun s t =>
      if decide (tt_authority t = signer) then recordSpend s (default "" (tt_mint t)) (tt_amount t) now
      else s)
    (tokenTransfers a) s.

Definition record_usd (s : ShieldState C) (a : InstructionAnalysis) (signer : Address)
    (network : option Network) : ShieldState C :=
  match resolvedState s, network with
  | Some _, Some net =>
      let usd := computeStablecoinUsd (tokenTransfers a) signer net in
      if usd >? 0 then recordUsdSpend s usd else s
  | _, _ => s
  end.

Definition with_state sh (s : ShieldState C) : Shield C :=
  mkShield (sh_resolved sh) s (sh_paused sh) (sh_sync sh).

Definition enforce sh (instructions : list InspectableInstruction) (signerAddress : Address) (now : Z)
    : res shield_error unit * Shield C * list callback :=
  if sh_paused sh then (Throw (Denied [paused_violation]), sh, [OnDenied [paused_violation]])
  else
    match evaluateInstructions instructions signerAddress (sh_resolved sh) (sh_state sh)
            (sync_net sh) now with
    | Throw e => (Throw e, sh, [])
    | Ok (vs, a) =>
        if negb (bool_decide (vs = [])) then (Throw (Denied vs), sh, [OnDenied vs])
        else
          let s := recordTransaction (record_transfers (sh_state sh) a signerAddress now) now in
          let s := record_usd s a signerAddress (sync_net sh) in
          (Ok tt, with_state sh (markEnforceUsed s), [OnApproved])
    end.

Definition updatePolicies sh (newPolicies : KitPolicies) : res SigilError (Shield C * list callback) :=
  resolved ← resolveKitPolicies (Some newPolicies);
  Ok (mkShield resolved (sh_state sh) (sh_paused sh) (sh_sync sh), [OnPolicyUpdate]).

Definition resetState sh : Shield C := with_state sh (reset (sh_state sh)).

Definition pause sh : Shield C * list callback :=
  (mkShield (sh_resolved sh) (sh_state sh) true (sh_sync sh), [OnPause]).
Definition resume sh : Shield C * list callback :=
  (mkShield (sh_resolved sh) (sh_state sh) false (sh_sync sh), [OnResume]).

(** [sync()]: the resolution itself is [resolveVaultState], whose result comes in. *)
Definition sync sh (resolution : res SigilError (ResolvedVaultState C)) : res SigilError (Shield C) :=
  match sh_sync sh with
  | None => Throw (sdk_error "SIGIL_ERROR__SDK__INVALID_CONFIG"
              [("field", CStr "onChainSync"); ("expected", CStr "OnChainSyncConfig")])
  | Some c =>
      resolved ← resolution;
      Ok (with_state sh (syncFromOnChain (sh_state sh) resolved (Some (sync_network c))))
  end.

(** ** [getSpendingSummary] *)
Record TokenSummary := mkTokenSummary {
  ts_mint : string; ts_spent : Z; ts_limit : Z; ts_remaining : Z; ts_windowMs : Z }.
Record RateSummary := mkRateSummary {
  rsu_count : Z; rsu_limit : Z; rsu_remaining : Z; rsu_windowMs : Z }.
Record OnChainSummary := mkOnChainSummary {
  oc_globalSpent24h : Z; oc_globalCap : Z; oc_globalRemaining : Z;
  oc_agentSpent24h : option Z; oc_agentCap : option Z; oc_agentRemaining : option Z;
  oc_maxTransactionUsd : Z; oc_localAdditions : Z; oc_syncedAt : Z }.
Record SpendingSummary := mkSummary {
  ss_tokens : list TokenSummary; ss_rateLimit : RateSummary; ss_isPaused : bool;
  ss_onChain : option OnChainSummary }.

Definition token_summary (s : ShieldState C) (now : Z) (limit : SpendLimit) : TokenSummary :=
  let windowMs := default 86400000 (sl_windowMs limit) in
  let spent := getSpendInWindow s (sl_mint limit) windowMs now in
  mkTokenSummary (sl_mint limit) spent (sl_amount limit)
    (if sl_amount limit >? spent then sl_amount limit - spent else 0) windowMs.

Definition getSpendingSummary sh (now : Z) : SpendingSummary :=
  let s := sh_state sh in
  let rl := rateLimit (kr_core (sh_resolved sh)) in
  let txCount := getTransactionCountInWindow s (windowMs rl) now in
  mkSummary (token_summary s now <$> spendLimits (kr_core (sh_resolved sh)))
    (mkRateSummary txCount (maxTransactions rl) (Z.max 0 (maxTransactions rl - txCount)) (windowMs rl))
    (sh_paused sh)
    ((fun rs => mkOnChainSummary (getEffectiveGlobalSpent24h s) (cap (globalBudget rs))
        (default 0 (getEffectiveGlobalRemaining s)) (getEffectiveAgentSpent24h s)
        (cap <$> agentBudget rs) (getEffectiveAgentRemaining s) (maxTransactionUsd rs)
        (localUsdAdditions s) (resolvedAtTimestamp rs)) <$> resolvedState s).
End shield.

(** ** The pre-sign gate *)
Record CompiledInstruction := mkCompiledIx {
  ci_programAddressIndex : nat;
  ci_accountIndices : option (list nat);
  ci_data : option bytes;
}.
Record AddressTableLookup := mkLookup {
  lookupTableAddress : Address;
  writableIndexes : option (list nat);
  readonlyIndexes : option (list nat);
}.
Record CompiledMessage := mkCompiled {
  staticAccounts : list Address;
  cm_instructions : list CompiledInstruction;
  addressTableLookups : list AddressTableLookup;
}.

(** An [AltCache], as far as the gate reads it. *)
Abbreviation CachedAlts := (Address -> option (list Address)).

(** An index past the end of the account table reads [undefined], which is no address. *)
Definition UNDEFINED : Address := "undefined".

Definition resolveAltIndex (resolved : list Address) (idx : nat) : Address :=
  default SYSTEM_PROGRAM_ADDRESS (resolved !! idx).

(** One of the two passes over the lookups; an uncached table contributes nothing. *)
Definition alt_pass (indexes : AddressTableLookup -> option (list nat)) (altCache : CachedAlts)
    (lookups : list AddressTableLookup) : list Address :=
  flat_map (fun lookup =>
    match altCache (lookupTableAddress lookup) with
    | Some resolved => resolveAltIndex resolved <$> default [] (indexes lookup)
    | None => []
    end) lookups.

Definition account_table (msg : CompiledMessage) (altCache : option CachedAlts) : list Address :=
  staticAccounts msg ++
  match altCache with
  | Some cache => alt_pass writableIndexes cache (addressTableLookups msg)
                    ++ alt_pass readonlyIndexes cache (addressTableLookups msg)
  | None => []
  end.

(** [!msg?.staticAccounts?.length || !msg?.instructions?.length] *)
Definition no_message (tx : option CompiledMessage) : bool :=
  match tx with
  | None => true
  | Some msg => bool_decide (staticAccounts msg = []) || bool_decide (cm_instructions msg = [])
  end.

Definition _extractInstructionsFromCompiled (tx : option CompiledMessage)
    (altCache : option CachedAlts) : list InspectableInstruction :=
  match tx with
  | None => []
  | Some msg =>
      if no_message tx then []
      else
        let accountTable := account_table msg altCache in
        let at_ i := default UNDEFINED (accountTable !! i) in
        (fun ix => mkIx (at_ (ci_programAddressIndex ix))
           (Some (at_ <$> default [] (ci_accountIndices ix)))
           (Some (default [] (ci_data ix)))) <$> cm_instructions msg
  end.

(** Indices past the end of a cached table, one warning each. *)
Definition alt_warnings (msg : CompiledMessage) (altCache : CachedAlts) : list (nat * nat) :=
  let oob indexes := flat_map (fun lookup =>
    match altCache (lookupTableAddress lookup) with
    | Some resolved => (fun i => (i, length resolved)) <$>
        filter (fun i => (length resolved <= i)%nat) (default [] (indexes lookup))
    | None => []
    end) (addressTableLookups msg) in
  oob writableIndexes ++ oob readonlyIndexes.

Record VelocityThresholds := mkThresholds {
  maxTxPerHour : option Z;
  maxUsdPerHour : option Z;
}.

Definition velocity_violation (msg sugg : string) : shield_error :=
  Denied [mkViolation "velocity_ceiling" msg sugg].

Definition checkVelocityCeiling {C} (s : ShieldState C) (instructions : list InspectableInstruction)
    (signerAddress : Address) (th : VelocityThresholds) (now : Z) : res shield_error unit :=
  match maxTxPerHour th with
  | None => Ok tt
  | Some m =>
      let count := getTransactionCountInWindow s 3600000 now in
      throw_if (count >=? m) (velocity_violation
        ("Transaction rate " +:+ pretty count +:+ "/" +:+ pretty m +:+ " per hour exceeded")
        "Wait before sending more transactions")
  end ;;
  match maxUsdPerHour th with
  | None => Ok tt
  | Some m =>
      let projectedSpend := getTotalSpendInWindow s 3600000 now
                            + estimatedValue (analyzeInstructions instructions signerAddress) in
      throw_if (projectedSpend >? m) (velocity_violation
        ("Hourly USD spend " +:+ pretty projectedSpend +:+ " exceeds ceiling " +:+ pretty m)
        "Reduce transaction amounts or wait for the window to reset")
  end.

Definition SIGIL_PROGRAM_ADDRESS : Address := "4ZeVCqnjUgUtFrHHPG7jELUxvJeoVGHhGNgPrhBPwrHL".
Definition VALIDATE_AND_AUTHORIZE_DISCRIMINATOR : bytes := [22; 183; 48; 222; 218; 11; 197; 152].
Definition FINALIZE_SESSION_DISCRIMINATOR : bytes := [34; 148; 144; 47; 37; 130; 206; 161].

Definition matchesDiscriminator (data disc : bytes) : bool :=
  (length disc <=? length data)%nat &&
  forallb (fun i => bool_decide (data !! i = disc !! i)) (seq 0 (length disc)).

Definition has_disc (ix : option CompiledInstruction) (disc : bytes) : bool :=
  match ix ≫= ci_data with
  | Some data => (8 <=? length data)%nat && matchesDiscriminator data disc
  | None => false
  end.

(** [severity = "soft"] only logs: the failure is then no error. *)
Definition binding_failure (hard : bool) (message : string) : res shield_error unit :=
  throw_if hard (Denied [mkViolation "session_binding" message
    "Compose the transaction with seal()/SigilClient so the validate-and-authorize and finalize-session instructions sandwich the DeFi instruction; do not invoke the program manually."]).

Definition js_bool (b : bool) : string := if b then "true" else "false".

Definition checkSessionBinding (tx : option CompiledMessage) (programAddress : Address) (hard : bool)
    : res shield_error unit :=
  match tx with
  | None => binding_failure hard "[ShieldedSigner] Cannot verify session binding: no compiled message"
  | Some msg =>
      if no_message tx then
        binding_failure hard "[ShieldedSigner] Cannot verify session binding: no compiled message"
      else
        let sigilIxs := filter (fun ix =>
          staticAccounts msg !! ci_programAddressIndex ix = Some programAddress) (cm_instructions msg) in
        if bool_decide (sigilIxs = []) then
          binding_failure hard "[ShieldedSigner] No Sigil instructions found in transaction"
        else
          let hasValidate := has_disc (head sigilIxs) VALIDATE_AND_AUTHORIZE_DISCRIMINATOR in
          let hasFinalize := has_disc (last sigilIxs) FINALIZE_SESSION_DISCRIMINATOR in
          if negb hasValidate || negb hasFinalize then
            binding_failure hard ("[ShieldedSigner] Session binding incomplete: validate="
              +:+ js_bool hasValidate +:+ ", finalize=" +:+ js_bool hasFinalize)
          else Ok tt
  end.

(** What the wire encoder and the RPC simulation answer for one transaction. *)
Inductive simulation_answer :=
  | EncodeFailed (message : string)
  | Simulated (success : bool) (message suggestion : option string).

Record SignerOptions := mkSignerOptions {
  so_rpc : option (option CompiledMessage -> simulation_answer);
  so_sessionContext : bool;
  so_skipSimulation : bool;
  so_velocityThresholds : option VelocityThresholds;
  so_altCache : option CachedAlts;
  so_hardBinding : bool;
}.

Definition simulation_gate (o : SignerOptions) (tx : option CompiledMessage) : res shield_error unit :=
  match so_rpc o with
  | None => Ok tt
  | Some sim =>
      if so_skipSimulation o then Ok tt
      else
        match sim tx with
        | EncodeFailed m => Throw (Denied [mkViolation "simulation"
            ("Cannot encode transaction for simulation: " +:+ m)
            "Ensure the transaction is properly formed"])
        | Simulated true _ _ => Ok tt
        | Simulated false m sg => Throw (Denied [mkViolation "simulation"
            ("Simulation failed: " +:+ default "unknown error" m)
            (default "Check transaction validity" sg)])
        end
  end.

(** The gates one transaction passes, in the order of the loop body. *)
Definition presign_gate {C} (sh : Shield C) (o : SignerOptions) (signer : Address)
    (tx : option CompiledMessage) (now : Z) : res shield_error unit :=
  let instructions := _extractInstructionsFromCompiled tx (so_altCache o) in
  match so_velocityThresholds o with
  | Some th => checkVelocityCeiling (sh_state sh) instructions signer th now
  | None => Ok tt
  end ;;
  simulation_gate o tx ;;
  checkResult ← check sh instructions signer now;
  throw_if (negb (allowed checkResult)) (Denied (violations checkResult)) ;;
  if so_sessionContext o then checkSessionBinding tx SIGIL_PROGRAM_ADDRESS (so_hardBinding o)
  else Ok tt.

Definition presign_record {C} (sh : Shield C) (o : SignerOptions) (signer : Address)
    (tx : option CompiledMessage) (now : Z) : Shield C :=
  let a := analyzeInstructions (_extractInstructionsFromCompiled tx (so_altCache o)) signer in
  let s := recordTransaction (record_transfers (sh_state sh) a signer now) now in
  with_state sh (record_usd s a signer (st_network s)).

(** [for (const tx of txs)]: gate, then record, transaction by transaction. *)
Fixpoint presign_loop {C} (sh : Shield C) (o : SignerOptions) (signer : Address)
    (txs : list (option CompiledMessage)) (now : Z) : res shield_error unit * Shield C :=
  match txs with
  | [] => (Ok tt, sh)
  | tx :: txs' =>
      match presign_gate sh o signer tx now with
      | Throw e => (Throw e, sh)
      | Ok _ => presign_loop (presign_record sh o signer tx now) o signer txs' now
      end
  end.

(** What the base signer offers. *)
Inductive sign_method := ModifyAndSign | SignOnly | NoSigner.

(** [createShieldedSigner(...).modifyAndSignTransactions(txs)]: the transactions handed to
    the base signer, if any. *)
Definition modifyAndSignTransactions {C} (sh : Shield C) (o : SignerOptions) (signer : Address)
    (method : sign_method) (txs : list (option CompiledMessage)) (now : Z)
    : res shield_error (list (option CompiledMessage)) * Shield C :=
  let '(r, sh') := presign_loop sh o signer txs now in
  match r with
  | Throw e => (Throw e, sh')
  | Ok _ =>
      (match method with
       | NoSigner => Throw (Sdk (sdk_error "SIGIL_ERROR__SDK__SIGNER_INVALID"
                        [("reason", CStr "missing-sign-method")]))
       | ModifyAndSign | SignOnly => Ok txs
       end, sh')
  end.

(** ** The ledger the state keeps *)
#[export] Instance shield_ledger {C} : SpendLedger (ShieldState C) := {
  lg_spend := getSpendInWindow;
  lg_count := getTransactionCountInWindow;
  lg_record := recordSpend;
  lg_record_tx := recordTransaction;
}.

(** The state keeps every entry of the last 24 hours. *)
Definition shield_models {C} (s : ShieldState C) (es : list SpendEntry) (txs : list Z) (last : Z) : Prop :=
  forall t, last <= t ->
    filter (fun e => t - DAY_MS <= e_timestamp e) (spendEntries s)
      = filter (fun e => t - DAY_MS <= e_timestamp e) es /\
    filter (fun ts => t - DAY_MS <= ts) (txEntries s) = filter (fun ts => t - DAY_MS <= ts) txs.

Lemma filter_narrow {A} (f : A -> Z) (P : A -> Prop) `{forall x, Decision (P x)} (a b : Z) (l : list A) :
  b <= a -> filter (fun x => P x /\ a <= f x) l
            = filter (fun x => P x /\ a <= f x) (filter (fun x => b <= f x) l).
Proof.
  intros Hab. rewrite list_filter_filter. apply list_filter_iff. intros x. lia || intuition lia.
Qed.

Lemma filter_narrow1 {A} (f : A -> Z) (a b : Z) (l : list A) :
  b <= a -> filter (fun x => a <= f x) l = filter (fun x => a <= f x) (filter (fun x => b <= f x) l).
Proof. intros Hab. rewrite list_filter_filter. apply list_filter_iff. intros x. lia. Qed.

Lemma filter_narrow_ts (a b : Z) (l : list Z) :
  b <= a -> filter (fun x => a <= x) l = filter (fun x => a <= x) (filter (fun x => b <= x) l).
Proof. exact (filter_narrow1 id a b l). Qed.

(** Pruning never removes an entry of a window that ends later. *)
Lemma prune_keeps {C} (s : ShieldState C) now t :
  now <= t ->
  filter (fun e => t - DAY_MS <= e_timestamp e) (spendEntries (prune s now))
    = filter (fun e => t - DAY_MS <= e_timestamp e) (spendEntries s) /\
  filter (fun ts => t - DAY_MS <= ts) (txEntries (prune s now))
    = filter (fun ts => t - DAY_MS <= ts) (txEntries s).
Proof.
  intros Ht. unfold prune, DAY_MS. cbn [spendEntries txEntries]. split.
  - destruct (_ <? _)%nat; [|done]. by rewrite <- filter_narrow1 by lia.
  - destruct (_ <? _)%nat; [|done]. by rewrite <- filter_narrow_ts by lia.
Qed.

#[export] Program Instance shield_ledger_laws {C} : LedgerLaws (ShieldState C) := {
  lg_models := shield_models;
  lg_horizon := Some DAY_MS;
  lg_room := fun _ _ => True;
}.
Next Obligation. intros C s es txs last now H Hl t Ht. apply H. lia. Qed.
Next Obligation.
  intros C s es txs last mint w now H Hl Hw. cbn in *. unfold getSpendInWindow, spend_in_window.
  destruct (H now Hl) as [Hs _].
  rewrite (filter_narrow e_timestamp (fun e => e_mint e = mint) _ (now - DAY_MS)) by lia.
  by rewrite Hs, <- filter_narrow by lia.
Qed.
Next Obligation.
  intros C s es txs last w now H Hl Hw. cbn in *. unfold getTransactionCountInWindow, count_in_window.
  destruct (H now Hl) as [_ Ht].
  rewrite (filter_narrow_ts (now - w) (now - DAY_MS)) by lia.
  by rewrite Ht, <- filter_narrow_ts by lia.
Qed.
Next Obligation.
  intros C s es txs last mint a now H Hl _ t Ht. cbn. unfold recordSpend.
  destruct (prune_keeps (mkShieldState (spendEntries s ++ [mkEntry mint a now]) (txEntries s)
    (resolvedState s) (localUsdAdditions s) (st_network s) (enforceUsed s)) now t Ht) as [H1 H2].
  destruct (H t ltac:(lia)) as [Hs Hx]. split.
  - etrans; [exact H1|]. cbn [spendEntries]. rewrite ?filter_app, Hs. done.
  - etrans; [exact H2|]. cbn [txEntries]. rewrite ?filter_app, Hx. done.
Qed.
Next Obligation.
  intros C s es txs last now H Hl _ t Ht. cbn. unfold recordTransaction.
  destruct (prune_keeps (mkShieldState (spendEntries s) (txEntries s ++ [now])
    (resolvedState s) (localUsdAdditions s) (st_network s) (enforceUsed s)) now t Ht) as [H1 H2].
  destruct (H t ltac:(lia)) as [Hs Hx]. split.
  - etrans; [exact H1|]. cbn [spendEntries]. rewrite ?filter_app, Hs. done.
  - etrans; [exact H2|]. cbn [txEntries]. rewrite ?filter_app, Hx. done.
Qed.
