(* ===== verification/ShieldSpec.v ===== *)
(** * What the shield guarantees over whole sessions

    A session is a sequence of operations on one shield context at non-decreasing clock
    readings. The history of a session is the log of what was let through, kept
    independently of the state; the theorems bound that history, not the counters. *)

From S2P Require Import Prelude Types Accounts Bytes OnChain StateResolver Inspector Policies Ledger Shield.
Local Open Scope string_scope.
Local Open Scope Z_scope.
Local Open Scope list_scope.

Section session.
Context {C : Type}.
Implicit Types (sh : Shield C) (s : ShieldState C).

Inductive shield_op :=
  | OpCheck (ixs : list InspectableInstruction) (signer : Address)
  | OpEnforce (ixs : list InspectableInstruction) (signer : Address)
  | OpPause
  | OpResume
  | OpSummary
  | OpSync (resolution : res SigilError (ResolvedVaultState C))
  | OpSign (o : SignerOptions) (signer : Address) (m : sign_method)
      (txs : list (option CompiledMessage)).

(** The outgoing transfers of an approved transaction, as they are recorded. *)
Definition outgoing_batch (a : InstructionAnalysis) (signer : Address) : list (string * Z) :=
  (fun t => (default "" (tt_mint t), tt_amount t)) <$>
  filter (fun t => tt_authority t = signer) (tokenTransfers a).

Definition compiled_batch (o : SignerOptions) (signer : Address) (tx : option CompiledMessage)
    : list (string * Z) :=
  outgoing_batch (analyzeInstructions (_extractInstructionsFromCompiled tx (so_altCache o)) signer)
    signer.

(** The transactions a signing request lets through, in order. *)
Fixpoint presign_batches sh (o : SignerOptions) (signer : Address)
    (txs : list (option CompiledMessage)) (now : Z) : list (list (string * Z)) :=
  match txs with
  | [] => []
  | tx :: txs' =>
      match presign_gate sh o signer tx now with
      | Throw _ => []
      | Ok _ => compiled_batch o signer tx
                  :: presign_batches (presign_record sh o signer tx now) o signer txs' now
      end
  end.

(** The state after an operation and the transactions it let through. *)
Definition exec sh (op : shield_op) (now : Z) : Shield C * list (list (string * Z)) :=
  match op with
  | OpCheck _ _ | OpSummary => (sh, [])
  | OpEnforce ixs signer =>
      let '(r, sh', _) := enforce sh ixs signer now in
      (sh', match r with
            | Ok _ => [outgoing_batch (analyzeInstructions ixs signer) signer]
            | Throw _ => [] end)
  | OpPause => ((pause sh).1, [])
  | OpResume => ((resume sh).1, [])
  | OpSync r => (match sync sh r with Ok sh' => sh' | Throw _ => sh end, [])
  | OpSign o signer m txs =>
      ((modifyAndSignTransactions sh o signer m txs now).2, presign_batches sh o signer txs now)
  end.

(** The raw bytes an operation carries are bytes. *)
Definition ix_wf (ix : InspectableInstruction) : Prop :=
  match ix_data ix with Some d => Forall is_byte d | None => True end.
Definition tx_wf (tx : option CompiledMessage) : Prop :=
  match tx with
  | Some msg => Forall (fun ix => Forall is_byte (default [] (ci_data ix))) (cm_instructions msg)
  | None => True
  end.
Definition op_wf (op : shield_op) : Prop :=
  match op with
  | OpEnforce ixs _ => Forall ix_wf ixs
  | OpSign _ _ _ txs => Forall tx_wf txs
  | _ => True
  end.

Definition history_spends (h : list (Z * list (string * Z))) : list SpendEntry :=
  flat_map (fun tx => entries_at tx.1 tx.2) h.
Definition history_txs (h : list (Z * list (string * Z))) : list Z := h.*1.

(** Sessions from a fresh context: its current state, history and last clock reading. *)
Inductive session (sh0 : Shield C) : Shield C -> list (Z * list (string * Z)) -> Z -> Prop :=
  | session_start t0 : sh_state sh0 = new_state -> session sh0 sh0 [] t0
  | session_op sh h last op now :
      session sh0 sh h last -> last <= now -> op_wf op ->
      session sh0 (exec sh op now).1
        (h ++ ((fun b => (now, b)) <$> (exec sh op now).2)) now.

(** ** Recording *)
Lemma record_transfers_all s a signer now :
  record_transfers s a signer now = record_all s (outgoing_batch a signer) now.
Proof.
  unfold record_transfers, record_all, outgoing_batch. revert s.
  induction (tokenTransfers a) as [|t ts IH]; intros s; [done|].
  cbn [fold_left]. rewrite filter_cons. case_decide; [|by rewrite IH].
  rewrite fmap_cons. cbn [fold_left]. by rewrite IH.
Qed.

Lemma recordSpend_other s m a now :
  resolvedState (recordSpend s m a now) = resolvedState s /\
  localUsdAdditions (recordSpend s m a now) = localUsdAdditions s /\
  st_network (recordSpend s m a now) = st_network s.
Proof. done. Qed.

Lemma record_all_other s b now :
  resolvedState (record_all s b now) = resolvedState s /\
  localUsdAdditions (record_all s b now) = localUsdAdditions s /\
  st_network (record_all s b now) = st_network s.
Proof.
  revert s. induction b as [|[m a] b IH]; intros s; [done|].
  change (record_all s ((m, a) :: b) now) with (record_all (recordSpend s m a now) b now).
  destruct (IH (recordSpend s m a now)) as (-> & -> & ->). done.
Qed.

(** What an approved transaction records of a mint is at most what the limit on that mint
    was checked against. *)
Lemma batch_le_tx_spend a signer (limit : SpendLimit) :
  Forall (fun t => 0 <= tt_amount t) (tokenTransfers a) ->
  batch_spend (outgoing_batch a signer) (sl_mint limit) <= tx_spend a signer limit.
Proof.
  intros Hnn. unfold batch_spend, outgoing_batch, tx_spend.
  induction Hnn as [|t ts Ht Hts IH]; [done|]. rewrite (filter_cons _ t ts). case_decide as Hau.
  - rewrite fmap_cons, filter_cons. cbn [fst].
    rewrite (filter_cons (fun t => tt_authority t = signer /\ _)).
    destruct (decide (default "" (tt_mint t) = sl_mint limit)) as [Hm|Hm].
    + rewrite decide_True; [rewrite !sum_of_cons; cbn [snd]; lia|].
      split; [done|]. destruct (tt_mint t); cbn in Hm; [left; congruence|by right].
    + case_decide; rewrite ?sum_of_cons; lia.
  - rewrite (filter_cons (fun t => tt_authority t = signer /\ _)).
    rewrite decide_False by tauto. exact IH.
Qed.

Lemma transfers_nonneg ixs signer :
  Forall ix_wf ixs -> Forall (fun t => 0 <= tt_amount t) (tokenTransfers (analyzeInstructions ixs signer)).
Proof.
  intros Hwf. rewrite analyze_transfers. apply Forall_forall.
  intros t (ix & Hix & Ht)%list_elem_of_omap.
  pose proof (proj1 (Forall_forall _ _) Hwf ix Hix) as Hb.
  eapply transfer_amount_nonneg; [|exact Ht]. intros d Hd. unfold ix_wf in Hb. by rewrite Hd in Hb.
Qed.

Lemma extract_wf tx cache : tx_wf tx -> Forall ix_wf (_extractInstructionsFromCompiled tx cache).
Proof.
  intros Hwf. unfold _extractInstructionsFromCompiled. destruct tx as [msg|]; [|constructor].
  destruct (no_message _); [constructor|]. apply Forall_fmap. exact Hwf.
Qed.

(** ** What an approval implies *)
Lemma flat_map_nil {A B} (f : A -> list B) l : flat_map f l = [] -> Forall (fun x => f x = []) l.
Proof.
  induction l as [|x l IH]; intros H; [constructor|]. cbn in H.
  apply app_eq_nil in H as [H1 H2]. constructor; [done|by apply IH].
Qed.

Lemma evaluate_approved ixs signer kr s net now a :
  evaluateInstructions ixs signer kr s net now = Ok ([], a) ->
  a = analyzeInstructions ixs signer /\
  (forall l, l ∈ spendLimits (kr_core kr) ->
     getSpendInWindow s (sl_mint l) (default 86400000 (sl_windowMs l)) now + tx_spend a signer l
       <= sl_amount l) /\
  getTransactionCountInWindow s (windowMs (rateLimit (kr_core kr))) now
    < maxTransactions (rateLimit (kr_core kr)) /\
  check_programs (kr_core kr) a = [] /\
  check_custom (kr_customCheck kr) a signer = [] /\
  check_on_chain s a signer net = [].
Proof.
  unfold evaluateInstructions. destruct (net ≫= _); [done|]. intros [= H <-].
  apply app_eq_nil in H as [Hp H]. apply app_eq_nil in H as [Hl H].
  apply app_eq_nil in H as [Hr H]. apply app_eq_nil in H as [Hc Ho].
  split_and!; [done| | |done|done|done].
  - intros l Hin. apply flat_map_nil in Hl. pose proof (proj1 (Forall_forall _ _) Hl l Hin) as Hc1.
    unfold check_limit in Hc1. cbv zeta in Hc1.
    destruct (Z.gtb_spec (getSpendInWindow s (sl_mint l) (default 86400000 (sl_windowMs l)) now
      + tx_spend (analyzeInstructions ixs signer) signer l) (sl_amount l)); [discriminate|lia].
  - unfold check_rate in Hr. cbv zeta in Hr.
    destruct (Z.geb_spec (getTransactionCountInWindow s (windowMs (rateLimit (kr_core kr))) now)
      (maxTransactions (rateLimit (kr_core kr)))); [discriminate|lia].
Qed.

Lemma on_chain_approved s a signer net rs :
  check_on_chain s a signer (Some net) = [] -> resolvedState s = Some rs ->
  let usd := computeStablecoinUsd (tokenTransfers a) signer net in
  0 < usd ->
  usd <= maxTransactionUsd rs /\
  spent24h (globalBudget rs) + localUsdAdditions s + usd <= cap (globalBudget rs) /\
  forall b, agentBudget rs = Some b -> spent24h b + localUsdAdditions s + usd <= cap b.
Proof.
  intros H Hrs usd Hpos.
  unfold check_on_chain, getEffectiveGlobalSpent24h, getEffectiveAgentSpent24h in H. rewrite Hrs in H. cbv zeta in H. fold usd in H.
  destruct (Z.gtb_spec usd 0); [|lia].
  apply app_eq_nil in H as [H1 H]. apply app_eq_nil in H as [H2 H3]. split_and!.
  - destruct (Z.gtb_spec usd (maxTransactionUsd rs)); [discriminate|lia].
  - match type of H2 with context [?x >? ?y] => destruct (Z.gtb_spec x y); [discriminate|lia] end.
  - intros b Hb. cbn in H3. rewrite Hb in H3. cbn in H3.
    match type of H3 with context [?x >? ?y] => destruct (Z.gtb_spec x y); [discriminate|lia] end.
Qed.

(** ** The session invariant *)
Definition limit_window (l : SpendLimit) : Z := default 86400000 (sl_windowMs l).

(** Limits the state can account for: windows of at most 24 hours, not negative. *)
Definition limit_ok (l : SpendLimit) : Prop := 0 <= limit_window l <= DAY_MS /\ 0 <= sl_amount l.
Definition rate_ok (r : RateLimit) : Prop := 0 <= windowMs r <= DAY_MS /\ 0 <= maxTransactions r.

Record inv (sh0 sh : Shield C) (h : list (Z * list (string * Z))) (last : Z) : Prop := {
  i_models : lg_models (sh_state sh) (history_spends h) (history_txs h) last;
  i_resolved : sh_resolved sh = sh_resolved sh0;
  i_sync : sh_sync sh = sh_sync sh0;
  i_nonneg : Forall (fun e => 0 <= e_amount e) (history_spends h);
  i_limits l : l ∈ spendLimits (kr_core (sh_resolved sh0)) -> limit_ok l ->
    spend_in_window (history_spends h) (sl_mint l) (limit_window l) last <= sl_amount l;
  i_rate : rate_ok (rateLimit (kr_core (sh_resolved sh0))) ->
    count_in_window (history_txs h) (windowMs (rateLimit (kr_core (sh_resolved sh0)))) last
      <= maxTransactions (rateLimit (kr_core (sh_resolved sh0)));
  i_chain rs : resolvedState (sh_state sh) = Some rs ->
    is_Some (sync_net sh) /\ st_network (sh_state sh) = sync_net sh /\
    (localUsdAdditions (sh_state sh) = 0 \/
     0 < localUsdAdditions (sh_state sh) /\
     spent24h (globalBudget rs) + localUsdAdditions (sh_state sh) <= cap (globalBudget rs) /\
     forall b, agentBudget rs = Some b ->
       spent24h b + localUsdAdditions (sh_state sh) <= cap b);
}.

(** Only the two entry lists matter to the ledger. *)
Lemma models_ext s s' es txs last :
  spendEntries s' = spendEntries s -> txEntries s' = txEntries s ->
  lg_models s es txs last -> lg_models s' es txs last.
Proof. intros H1 H2 H t Ht. rewrite H1, H2. by apply H. Qed.

Lemma record_usd_fields s a signer net :
  spendEntries (record_usd s a signer net) = spendEntries s /\
  txEntries (record_usd s a signer net) = txEntries s /\
  resolvedState (record_usd s a signer net) = resolvedState s /\
  st_network (record_usd s a signer net) = st_network s /\
  localUsdAdditions (record_usd s a signer net) = localUsdAdditions s +
    match resolvedState s, net with
    | Some _, Some n => Z.max 0 (computeStablecoinUsd (tokenTransfers a) signer n)
    | _, _ => 0
    end.
Proof.
  unfold record_usd. destruct (resolvedState s) as [rs|] eqn:Hrs;
    [destruct net as [n|]|]; [|by rewrite Z.add_0_r..]. cbv zeta.
  destruct (Z.gtb_spec (computeStablecoinUsd (tokenTransfers a) signer n) 0); cbn;
    split_and!; try done; lia.
Qed.

Lemma history_spends_snoc h now b :
  history_spends (h ++ [(now, b)]) = history_spends h ++ entries_at now b.
Proof. unfold history_spends. rewrite flat_map_app. cbn. by rewrite app_nil_r. Qed.

Lemma history_txs_snoc h now b : history_txs (h ++ [(now, b)]) = history_txs h ++ [now].
Proof. unfold history_txs. by rewrite fmap_app. Qed.

Lemma inv_later sh0 sh h last now : inv sh0 sh h last -> last <= now -> inv sh0 sh h now.
Proof.
  intros [Hm Hr Hsy Hnn Hl Hra Hch] Hle. split; try done.
  - by eapply lg_models_mono.
  - intros l Hin Hok. etrans; [by apply spend_in_window_antimono|by apply Hl].
  - intros Hok. etrans; [by apply count_in_window_antimono|by apply Hra].
Qed.

(** Changing the pause flag touches nothing the invariant speaks of. *)
Lemma inv_paused sh0 sh h last b :
  inv sh0 sh h last -> inv sh0 (mkShield (sh_resolved sh) (sh_state sh) b (sh_sync sh)) h last.
Proof. intros [Hm Hr Hsy Hnn Hl Hra Hch]. by split. Qed.

Lemma nonneg_batch a signer :
  Forall (fun t => 0 <= tt_amount t) (tokenTransfers a) ->
  forall now, Forall (fun e => 0 <= e_amount e) (entries_at now (outgoing_batch a signer)).
Proof.
  intros Hnn now. unfold entries_at, outgoing_batch. rewrite !Forall_fmap. apply Forall_forall.
  intros t [_ Ht]%list_elem_of_filter. cbn. exact (proj1 (Forall_forall _ _) Hnn t Ht).
Qed.

(** An approved and recorded transaction keeps the invariant, whichever of the two
    recording paths runs. *)
Lemma inv_record sh0 sh h last ixs signer now a net s' :
  inv sh0 sh h last -> last <= now -> Forall ix_wf ixs ->
  evaluateInstructions ixs signer (sh_resolved sh) (sh_state sh) (sync_net sh) now = Ok ([], a) ->
  (is_Some (resolvedState (sh_state sh)) -> net = sync_net sh) ->
  let s1 := record_usd (recordTransaction (record_transfers (sh_state sh) a signer now) now) a signer net in
  spendEntries s' = spendEntries s1 -> txEntries s' = txEntries s1 ->
  resolvedState s' = resolvedState s1 -> localUsdAdditions s' = localUsdAdditions s1 ->
  st_network s' = st_network s1 ->
  inv sh0 (with_state sh s') (h ++ [(now, outgoing_batch a signer)]) now.
Proof.
  intros Hinv Hle Hwf Hev Hnet s1 E1 E2 E3 E4 E5.
  apply evaluate_approved in Hev as (-> & Hlim & Hrate & _ & _ & Hoc).
  set (a := analyzeInstructions ixs signer) in *.
  pose proof (transfers_nonneg ixs signer Hwf) as Hnn. fold a in Hnn.
  destruct Hinv as [Hm Hr Hsy Hpos Hl Hra Hch].
  set (b := outgoing_batch a signer) in *.
  assert (Hm1 : lg_models (recordTransaction (record_all (sh_state sh) b now) now)
    (history_spends h ++ entries_at now b) (history_txs h ++ [now]) now).
  { refine (lg_record_tx_ok (S := ShieldState C) (record_all (sh_state sh) b now)
      (history_spends h ++ entries_at now b) (history_txs h) now now _ _ _); [|lia|done].
    by apply (record_all_models (sh_state sh) (history_spends h) (history_txs h) last). }
  destruct (record_all_other (sh_state sh) b now) as (R1 & R2 & R3).
  pose proof (record_usd_fields (recordTransaction (record_all (sh_state sh) b now) now) a signer net)
    as (F1 & F2 & F3 & F4 & F5).
  subst s1. rewrite record_transfers_all in *. fold b in E1, E2, E3, E4, E5 |- *.
  split; try done.
  - rewrite history_spends_snoc, history_txs_snoc. eapply models_ext; [| |exact Hm1]; cbn [sh_state with_state].
    + by rewrite E1, F1.
    + by rewrite E2, F2.
  - rewrite history_spends_snoc. apply Forall_app. split; [done|by apply nonneg_batch].
  - intros l Hin Hok. rewrite history_spends_snoc, spend_in_window_app.
    rewrite spend_entries_at by apply Hok. rewrite <- Hr in Hin.
    pose proof (Hlim l Hin) as Hli. fold (limit_window l) in Hli.
    assert (Hsp : getSpendInWindow (sh_state sh) (sl_mint l) (limit_window l) now
      = spend_in_window (history_spends h) (sl_mint l) (limit_window l) now).
    { refine (lg_spend_ok (S := ShieldState C) _ _ _ last _ _ _ Hm Hle _). apply Hok. }
    pose proof (batch_le_tx_spend a signer l Hnn). fold b in H. lia.
  - intros Hok. rewrite history_txs_snoc, count_in_window_app. rewrite <- Hr in *.
    assert (Hcn : getTransactionCountInWindow (sh_state sh) (windowMs (rateLimit (kr_core (sh_resolved sh)))) now
      = count_in_window (history_txs h) (windowMs (rateLimit (kr_core (sh_resolved sh)))) now).
    { refine (lg_count_ok (S := ShieldState C) _ _ _ last _ _ Hm Hle _). apply Hok. }
    assert (count_in_window [now] (windowMs (rateLimit (kr_core (sh_resolved sh)))) now <= 1).
    { unfold count_in_window. rewrite filter_cons. case_decide; cbn; lia. }
    lia.
  - intros rs Hrs. cbn [sh_state with_state] in *.
    rewrite E3, F3 in Hrs. cbn in Hrs. rewrite R1 in Hrs.
    destruct (Hch rs Hrs) as ([n Hn] & Hst & Hloc). assert (net = sync_net sh) as -> by (apply Hnet; by eexists).
    unfold sync_net in *. cbn [sh_sync with_state] in *. rewrite Hn in *. split; [by eexists|].
    rewrite E5, F4. cbn. rewrite R3. split; [done|].
    rewrite E4, F5. cbn. rewrite R2, R1, Hrs.
    pose proof (on_chain_approved (sh_state sh) a signer n rs Hoc Hrs) as Hcap. cbv zeta in Hcap.
    set (usd := computeStablecoinUsd (tokenTransfers a) signer n) in *.
    destruct (Z.leb_spec usd 0) as [Hz|Hz]; [rewrite Z.max_l, Z.add_0_r by lia; done|].
    rewrite Z.max_r by lia. destruct (Hcap Hz) as (_ & Hg & Hb). right.
    split_and!; [destruct Hloc as [->|[? _]]; lia|lia|].
    intros bb Hbb. specialize (Hb bb Hbb). lia.
Qed.

(** ** Every operation keeps the invariant *)
Lemma check_allowed_inv sh ixs signer now r :
  check sh ixs signer now = Ok r -> allowed r = true ->
  sh_paused sh = false /\
  exists a, evaluateInstructions ixs signer (sh_resolved sh) (sh_state sh) (sync_net sh) now = Ok ([], a).
Proof.
  unfold check. destruct (sh_paused sh); [intros [= <-]; done|].
  destruct (evaluateInstructions _ _ _ _ _ _) as [[vs a]|]; cbn; [|done].
  intros [= <-]. cbn. intros ->%bool_decide_eq_true. split; [done|by exists a].
Qed.

Lemma enforce_inv sh0 sh h last ixs signer now :
  inv sh0 sh h last -> last <= now -> Forall ix_wf ixs ->
  inv sh0 (exec sh (OpEnforce ixs signer) now).1
    (h ++ ((fun b => (now, b)) <$> (exec sh (OpEnforce ixs signer) now).2)) now.
Proof.
  intros Hinv Hle Hwf. cbn [exec]. unfold enforce.
  destruct (sh_paused sh); [cbn; rewrite app_nil_r; by eapply inv_later|].
  destruct (evaluateInstructions _ _ _ _ _ _) as [[vs a]|e] eqn:Hev;
    [|cbn; rewrite app_nil_r; by eapply inv_later].
  case_bool_decide as Hvs; cbn [negb]; [subst vs|cbn; rewrite app_nil_r; by eapply inv_later].
  cbn [fst snd fmap list_fmap].
  assert (a = analyzeInstructions ixs signer) as -> by (by apply evaluate_approved in Hev as [-> _]).
  by eapply inv_record.
Qed.

Lemma presign_gate_inv sh o signer tx now :
  presign_gate sh o signer tx now = Ok tt ->
  exists r, check sh (_extractInstructionsFromCompiled tx (so_altCache o)) signer now = Ok r /\
    allowed r = true /\ simulation_gate o tx = Ok tt /\
    (forall th, so_velocityThresholds o = Some th ->
       checkVelocityCeiling (sh_state sh) (_extractInstructionsFromCompiled tx (so_altCache o))
         signer th now = Ok tt) /\
    (so_sessionContext o = true -> checkSessionBinding tx SIGIL_PROGRAM_ADDRESS (so_hardBinding o) = Ok tt).
Proof.
  unfold presign_gate. cbv zeta. intros H.
  apply bind_ok_inv in H as ([] & Hv & H). apply bind_ok_inv in H as ([] & Hs & H).
  apply bind_ok_inv in H as (r & Hc & H). apply bind_ok_inv in H as ([] & Ha & H).
  apply throw_if_ok_inv, negb_false_iff in Ha. exists r. split_and!; try done.
  - intros th Hth. by rewrite Hth in Hv.
  - intros Hctx. by rewrite Hctx in H.
Qed.

Lemma presign_inv sh0 sh h last o signer txs now :
  inv sh0 sh h last -> last <= now -> Forall tx_wf txs ->
  inv sh0 (presign_loop sh o signer txs now).2
    (h ++ ((fun b => (now, b)) <$> presign_batches sh o signer txs now)) now.
Proof.
  revert sh h last. induction txs as [|tx txs IH]; intros sh h last Hinv Hle Hwf.
  { cbn. rewrite app_nil_r. by eapply inv_later. }
  apply Forall_cons in Hwf as [Htx Hwf]. cbn [presign_loop presign_batches].
  destruct (presign_gate sh o signer tx now) as [[]|e] eqn:Hg;
    [|cbn; rewrite app_nil_r; by eapply inv_later].
  apply presign_gate_inv in Hg as (r & Hc & Ha & _).
  destruct (check_allowed_inv _ _ _ _ _ Hc Ha) as (_ & a & Hev).
  rewrite fmap_cons. change (?x :: ?l) with ([x] ++ l) at 1. rewrite app_assoc.
  apply (IH (presign_record sh o signer tx now) (h ++ [(now, compiled_batch o signer tx)]) now);
    [|lia|done].
  assert (a = analyzeInstructions (_extractInstructionsFromCompiled tx (so_altCache o)) signer) as ->
    by (by apply evaluate_approved in Hev as [-> _]).
  unfold presign_record, compiled_batch. eapply inv_record;
    [exact Hinv|done|by apply extract_wf|exact Hev| |reflexivity|reflexivity|reflexivity|reflexivity|reflexivity].
  intros [rs Hrs]. destruct (i_chain _ _ _ _ Hinv rs Hrs) as (_ & Hst & _).
  rewrite <- Hst. rewrite record_transfers_all. cbn.
  apply (record_all_other (sh_state sh)).
Qed.

Lemma sync_inv sh0 sh h last r sh' :
  inv sh0 sh h last -> sync sh r = Ok sh' -> inv sh0 sh' h last.
Proof.
  unfold sync. destruct (sh_sync sh) as [c|] eqn:Hc; [|done]. intros Hinv H.
  apply bind_ok_inv in H as (rs & _ & [= <-]). destruct Hinv as [Hm Hr Hsy Hnn Hl Hra Hch].
  split; try done.
  intros rs' [= <-]. unfold sync_net. cbn. rewrite Hc. cbn. split; [by eexists|]. split; [done|by left].
Qed.

Lemma exec_inv sh0 sh h last op now :
  inv sh0 sh h last -> last <= now -> op_wf op ->
  inv sh0 (exec sh op now).1 (h ++ ((fun b => (now, b)) <$> (exec sh op now).2)) now.
Proof.
  intros Hinv Hle Hwf. pose proof (inv_later _ _ _ _ _ Hinv Hle) as Hlater.
  destruct op as [ixs signer|ixs signer| | | |r|o signer m txs];
    [..|]; try (cbn; rewrite app_nil_r; by (exact Hlater || apply inv_paused)).
  - by eapply enforce_inv.
  - cbn. rewrite app_nil_r. destruct (sync sh r) eqn:Hs; [eapply sync_inv; [exact Hlater|exact Hs]|exact Hlater].
  - cbn [exec fst snd]. unfold modifyAndSignTransactions.
    pose proof (presign_inv sh0 sh h last o signer txs now Hinv Hle Hwf) as Hp.
    destruct (presign_loop sh o signer txs now) as [[[]|e] sh']; exact Hp.
Qed.

Lemma inv_start sh0 t0 :
  sh_state sh0 = new_state ->
  (forall l, l ∈ spendLimits (kr_core (sh_resolved sh0)) -> limit_ok l -> 0 <= sl_amount l) ->
  inv sh0 sh0 [] t0.
Proof.
  intros Hs Hl. split; rewrite ?Hs; try done.
  intros [_ Hok]. exact Hok.
Qed.

Lemma session_inv sh0 sh h last : session sh0 sh h last -> inv sh0 sh h last.
Proof.
  induction 1 as [t0 H0|sh h last op now Hs IH Hle Hwf].
  - apply inv_start; [done|]. by intros l _ [_ ?].
  - by eapply exec_inv.
Qed.

(** ** The guarantees *)

(** C6: spend limits hold over every window. In any session, whatever mixture of
    [enforce] and batch signing was used, for every configured limit with a window of at
    most 24 hours and at every later instant, the outgoing transfers of the limit's mint
    that were let through in the window ending there total at most the limit. *)
Theorem shield_spend_within_limit (sh0 sh : Shield C) (h : list (Z * list (string * Z)))
    (last now : Z) (l : SpendLimit) :
  session sh0 sh h last -> last <= now ->
  l ∈ spendLimits (kr_core (sh_resolved sh0)) -> limit_ok l ->
  spend_in_window (history_spends h) (sl_mint l) (limit_window l) now <= sl_amount l.
Proof.
  intros Hs%session_inv Hle Hin Hok. apply (i_limits _ _ _ _ (inv_later _ _ _ _ _ Hs Hle)); done.
Qed.

(** the rate limit holds over every window: in any session at most
    [maxTransactions] transactions are let through in any window of the configured
    length (at most 24 hours), however they are batched. *)
Theorem shield_rate_within_limit (sh0 sh : Shield C) (h : list (Z * list (string * Z)))
    (last now : Z) :
  session sh0 sh h last -> last <= now -> rate_ok (rateLimit (kr_core (sh_resolved sh0))) ->
  count_in_window (history_txs h) (windowMs (rateLimit (kr_core (sh_resolved sh0)))) now
    <= maxTransactions (rateLimit (kr_core (sh_resolved sh0))).
Proof.
  intros Hs%session_inv Hle Hok. by apply (i_rate _ _ _ _ (inv_later _ _ _ _ _ Hs Hle)).
Qed.

(** the optimistic on-chain accounting never overruns the caps. After a sync, and
    until the next one, the vault's on-chain spend plus everything let through locally
    stays within the vault's daily cap and, for an agent with a budget, within the
    agent's, unless nothing was let through since the sync. *)
Theorem shield_on_chain_caps (sh0 sh : Shield C) (h : list (Z * list (string * Z))) (last : Z)
    (rs : ResolvedVaultState C) :
  session sh0 sh h last -> resolvedState (sh_state sh) = Some rs ->
  0 < localUsdAdditions (sh_state sh) ->
  getEffectiveGlobalSpent24h (sh_state sh) <= cap (globalBudget rs) /\
  forall b spent, agentBudget rs = Some b -> getEffectiveAgentSpent24h (sh_state sh) = Some spent ->
    spent <= cap b.
Proof.
  intros Hs%session_inv Hrs Hpos. destruct (i_chain _ _ _ _ Hs rs Hrs) as (_ & _ & [H0|(_ & Hg & Ha)]); [lia|].
  unfold getEffectiveGlobalSpent24h, getEffectiveAgentSpent24h. rewrite Hrs. split; [lia|].
  intros b spent Hb. cbn. rewrite Hb. cbn. intros [= <-]. specialize (Ha b Hb). lia.
Qed.
End session.

(** ** Outcomes of single operations *)
Section outcomes.
Context {C : Type}.
Implicit Types (sh : Shield C).

(** What the evaluation reports, check by check, or the error of an invalid network. *)
Definition verdict sh (ixs : list InspectableInstruction) (signer : Address) (now : Z)
    : res shield_error (list PolicyViolation) :=
  fst <$> evaluateInstructions ixs signer (sh_resolved sh) (sh_state sh) (sync_net sh) now.

(** [enforce] and [check] are the same decision. [enforce] approves exactly when
    [check] allows; when it denies, with the violations [check] reports, the state is
    untouched and only [onDenied] runs, so a denied transaction costs no budget; when it
    approves, only [onApproved] runs; while paused everything is denied by the one
    [paused] violation. *)
Theorem enforce_agrees_with_check (sh : Shield C) (ixs : list InspectableInstruction)
    (signer : Address) (now : Z) :
  match enforce sh ixs signer now, check sh ixs signer now with
  | (r, sh', calls), Throw e => r = Throw e /\ sh' = sh /\ calls = []
  | (r, sh', calls), Ok c =>
      if allowed c then r = Ok tt /\ calls = [OnApproved] /\ sh_paused sh = false
      else r = Throw (Denied (violations c)) /\ sh' = sh /\ calls = [OnDenied (violations c)]
           /\ violations c <> [] /\
           (sh_paused sh = true -> violations c = [paused_violation])
  end.
Proof.
  unfold enforce, check. destruct (sh_paused sh) eqn:Hp; [by split_and!|].
  destruct (evaluateInstructions _ _ _ _ _ _) as [[vs a]|e]; cbn; [|done].
  case_bool_decide as Hvs; cbn; by split_and!.
Qed.

(** The session-binding sandwich: the transaction's first Sigil instruction is
    [validate_and_authorize] and its last is [finalize_session]. *)
Definition sandwiched (tx : option CompiledMessage) : Prop :=
  exists msg first last_,
    tx = Some msg /\
    head (filter (fun ix => staticAccounts msg !! ci_programAddressIndex ix = Some SIGIL_PROGRAM_ADDRESS)
            (cm_instructions msg)) = Some first /\
    last (filter (fun ix => staticAccounts msg !! ci_programAddressIndex ix = Some SIGIL_PROGRAM_ADDRESS)
            (cm_instructions msg)) = Some last_ /\
    (exists d suf, ci_data first = Some d /\ d = VALIDATE_AND_AUTHORIZE_DISCRIMINATOR ++ suf) /\
    (exists d suf, ci_data last_ = Some d /\ d = FINALIZE_SESSION_DISCRIMINATOR ++ suf).

Lemma matchesDiscriminator_prefix data disc :
  matchesDiscriminator data disc = true -> exists suf, data = disc ++ suf.
Proof.
  unfold matchesDiscriminator. intros [Hlen Hall]%andb_true_iff.
  apply Nat.leb_le in Hlen. exists (drop (length disc) data).
  rewrite <- (take_drop (length disc) data) at 1. f_equal.
  apply list_eq. intros i. destruct (decide (i < length disc)%nat) as [Hi|Hi].
  - rewrite lookup_take_lt by done.
    assert (Hall' : Is_true (forallb (fun i => bool_decide (data !! i = disc !! i)) (seq 0 (length disc))))
      by (by apply Is_true_true).
    apply forallb_True in Hall'. pose proof (proj1 (Forall_forall _ _) Hall' i) as H.
    eapply bool_decide_unpack, H. apply elem_of_seq. lia.
  - rewrite !lookup_ge_None_2; [done|lia|]. rewrite length_take. lia.
Qed.

Lemma has_disc_prefix ix disc :
  has_disc ix disc = true ->
  exists i d suf, ix = Some i /\ ci_data i = Some d /\ d = disc ++ suf.
Proof.
  unfold has_disc. destruct ix as [i|]; cbn; [|done]. destruct (ci_data i) as [d|] eqn:Hd; [|done].
  intros [_ [suf Hsuf]%matchesDiscriminator_prefix]%andb_true_iff. by exists i, d, suf.
Qed.

Lemma checkSessionBinding_hard tx :
  checkSessionBinding tx SIGIL_PROGRAM_ADDRESS true = Ok tt -> sandwiched tx.
Proof.
  unfold checkSessionBinding. destruct tx as [msg|]; [|done].
  destruct (no_message _); [done|]. set (sig := filter _ _). cbv zeta.
  case_bool_decide as Hsig; [done|].
  destruct (has_disc (head sig) _) eqn:Hv; [|done].
  destruct (has_disc (last sig) _) eqn:Hf; [|done]. intros _.
  apply has_disc_prefix in Hv as (i & d & suf & Hi & Hd & Hsuf).
  apply has_disc_prefix in Hf as (j & d' & suf' & Hj & Hd' & Hsuf').
  exists msg, i, j. split_and!; [done|exact Hi|exact Hj|by exists d, suf|by exists d', suf'].
Qed.

Lemma presign_loop_ok sh o signer txs now sh' :
  presign_loop sh o signer txs now = (Ok tt, sh') ->
  forall i tx, txs !! i = Some tx -> exists shi, sh_paused shi = sh_paused sh /\
    sh_resolved shi = sh_resolved sh /\ presign_gate (C := C) shi o signer tx now = Ok tt.
Proof.
  revert sh. induction txs as [|tx0 txs IH]; intros sh H i tx Hi; [done|]. cbn in H.
  destruct (presign_gate sh o signer tx0 now) as [[]|e] eqn:Hg; [|done].
  destruct i as [|i]; [injection Hi as <-; by exists sh|].
  destruct (IH _ H i tx Hi) as (shi & Hp & Hr & Hgi). exists shi. by split_and!.
Qed.

(** C14: nothing reaches the base signer ungated. When the shielded signer hands a batch
    over, it is the whole batch, the shield is not paused, and every transaction passed
    the simulation and the policy check; with a session context and hard binding, every
    one is a validate/finalize sandwich. *)
Theorem signer_gates_every_transaction (sh : Shield C) (o : SignerOptions) (signer : Address)
    (m : sign_method) (txs signed : list (option CompiledMessage)) (now : Z) (sh' : Shield C) :
  modifyAndSignTransactions sh o signer m txs now = (Ok signed, sh') ->
  signed = txs /\ m <> NoSigner /\
  Forall (fun tx =>
    sh_paused sh = false /\
    simulation_gate o tx = Ok tt /\
    check_programs (kr_core (sh_resolved sh))
      (analyzeInstructions (_extractInstructionsFromCompiled tx (so_altCache o)) signer) = [] /\
    (so_sessionContext o = true -> so_hardBinding o = true -> sandwiched tx)) txs.
Proof.
  unfold modifyAndSignTransactions.
  destruct (presign_loop sh o signer txs now) as [[[]|e] sh1] eqn:Hl; [|done].
  intros H. assert (Hs : signed = txs /\ m <> NoSigner) by (destruct m; by simplify_eq).
  destruct Hs as [-> Hm]. split_and!; [done|done|]. apply Forall_lookup_2. intros i tx Hi.
  destruct (presign_loop_ok _ _ _ _ _ _ Hl i tx Hi) as (shi & Hp & Hr & Hg).
  apply presign_gate_inv in Hg as (r & Hc & Ha & Hsim & _ & Hb).
  destruct (check_allowed_inv _ _ _ _ _ Hc Ha) as (Hpi & a & Hev).
  apply evaluate_approved in Hev as (-> & _ & _ & Hpr & _). rewrite Hr in Hpr.
  split_and!; [congruence|done|done|]. intros Hctx Hhard.
  apply checkSessionBinding_hard. rewrite <- Hhard. by apply Hb.
Qed.

(** The checks never look at two of the configured policies. *)
Definition drop_unchecked (kr : KitResolved) : KitResolved :=
  let p := kr_core kr in
  mkKitResolved (mkResolvedPolicies (spendLimits p) None (allowedProtocols p) None
    (blockUnknownPrograms p) (rateLimit p)) (kr_customCheck kr).

(** [maxTransactionSize] and [allowedTokens] have no effect in the kit shield: for every
    transaction, evaluating with the policies and with these two removed gives the same
    result, although the policy type documents both as enforced. *)
Theorem size_and_tokens_unchecked (ixs : list InspectableInstruction) (signer : Address)
    (kr : KitResolved) (s : ShieldState C) (net : option Network) (now : Z) :
  evaluateInstructions ixs signer kr s net now
  = evaluateInstructions ixs signer (drop_unchecked kr) s net now.
Proof. reflexivity. Qed.
End outcomes.

(** ** Lookup tables

    In a compiled message the indices after the static accounts number, first, the
    writable entries of all lookups in order, then the readonly ones. *)
Definition runtime_accounts (msg : CompiledMessage) (chain : Address -> list Address) : list Address :=
  let load indexes := flat_map (fun l =>
    (fun i => default UNDEFINED (chain (lookupTableAddress l) !! i)) <$> default [] (indexes l))
    (addressTableLookups msg) in
  staticAccounts msg ++ load writableIndexes ++ load readonlyIndexes.

Definition lookups_in_range (msg : CompiledMessage) (cache : CachedAlts) (chain : Address -> list Address)
    : Prop :=
  Forall (fun l => cache (lookupTableAddress l) = Some (chain (lookupTableAddress l)) /\
    Forall (fun i => (i < length (chain (lookupTableAddress l)))%nat)
      (default [] (writableIndexes l) ++ default [] (readonlyIndexes l)))
    (addressTableLookups msg).

Lemma alt_pass_runtime (indexes : AddressTableLookup -> option (list nat)) cache chain lookups :
  Forall (fun l => cache (lookupTableAddress l) = Some (chain (lookupTableAddress l)) /\
    Forall (fun i => (i < length (chain (lookupTableAddress l)))%nat) (default [] (indexes l))) lookups ->
  alt_pass indexes cache lookups =
  flat_map (fun l => (fun i => default UNDEFINED (chain (lookupTableAddress l) !! i))
                       <$> default [] (indexes l)) lookups.
Proof.
  induction 1 as [|l ls [Hc Hr] _ IH]; [done|]. cbn [flat_map alt_pass]. unfold alt_pass in *.
  cbn [flat_map]. rewrite IH, Hc. f_equal. apply list_fmap_ext. intros i j Hj.
  pose proof (Forall_lookup_1 _ _ _ _ Hr Hj) as Hlt. cbn in Hlt.
  unfold resolveAltIndex. by destruct (lookup_lt_is_Some_2 _ _ Hlt) as [x ->].
Qed.

(** the gate analyses the accounts the runtime will use. When every lookup table of
    the message is cached as it is on chain and the indices are in range, the account
    table built before signing is the runtime's, entry by entry. *)
Theorem account_table_is_runtime (msg : CompiledMessage) (cache : CachedAlts)
    (chain : Address -> list Address) :
  lookups_in_range msg cache chain ->
  account_table msg (Some cache) = runtime_accounts msg chain.
Proof.
  intros H. unfold account_table, runtime_accounts.
  rewrite (alt_pass_runtime writableIndexes cache chain), (alt_pass_runtime readonlyIndexes cache chain);
    [done| |]; (eapply Forall_impl; [exact H|]); cbn;
    intros l [Hc [Hw Hro]%Forall_app]; by split.
Qed.

Definition two_tables : CompiledMessage :=
  mkCompiled ["payer"; TOKEN_PROGRAM_ADDRESS] [mkCompiledIx 1 (Some [2; 3; 0]%nat) (Some [3])]
    [mkLookup "tableA" (Some [0%nat]) None; mkLookup "tableB" (Some [0%nat]) None].
Definition two_chain (a : Address) : list Address :=
  if decide (a = "tableA") then ["source"] else ["destination"].
Definition only_B (a : Address) : option (list Address) :=
  if decide (a = "tableB") then Some ["destination"] else None.

(** a table missing from the cache shifts the others. With the first of two lookup
    tables uncached, the gate takes the destination account for the source: the account
    table it builds disagrees with the runtime's at an index that is in range in both. *)
Theorem uncached_table_shifts_accounts :
  account_table two_tables (Some only_B) !! 2%nat = Some "destination" /\
  runtime_accounts two_tables two_chain !! 2%nat = Some "source".
Proof. by vm_compute. Qed.

(** ** A concrete session *)
Definition demo_policies : KitPolicies :=
  mkKitPolicies (mkPolicies (Some (MaxOne (LimObj (mkLimit USDC_MINT_DEVNET 100 None))))
    None None None None (Some (mkRate 2 None))) None.

Definition demo_shield : Shield unit :=
  match shield (Some demo_policies) (Some (mkSync "vault" "agent2" "devnet")) with
  | Ok sh => sh
  | Throw _ => mkShield (mkKitResolved default_resolved None) new_state false None
  end.

Definition demo_transfer (amount : Z) : InspectableInstruction :=
  mkIx TOKEN_PROGRAM_ADDRESS (Some ["src"; USDC_MINT_DEVNET; "dst"; "agent2"])
    (Some (SPL_TRANSFER_CHECKED_DISCRIMINATOR :: le_bytes 8 amount ++ [6])).

Definition demo_resolution : res SigilError (ResolvedVaultState unit) :=
  resolveVaultState demo_rpc "vault" "agent2" (Some demo_now) None 0.

Definition demo_ops : list (shield_op (C := unit)) :=
  [OpSync demo_resolution; OpEnforce [demo_transfer 60] "agent2"; OpEnforce [demo_transfer 60] "agent2"].

(** Run operations one second apart. *)
Fixpoint run {C} (sh : Shield C) (h : list (Z * list (string * Z))) (t : Z) (ops : list shield_op)
    : Shield C * list (Z * list (string * Z)) :=
  match ops with
  | [] => (sh, h)
  | op :: ops' =>
      run (exec sh op (t + 1000)).1
        (h ++ ((fun b => (t + 1000, b)) <$> (exec sh op (t + 1000)).2)) (t + 1000) ops'
  end.

Lemma run_session {C} (sh0 sh : Shield C) h t ops :
  session sh0 sh h t -> Forall op_wf ops ->
  session sh0 (run sh h t ops).1 (run sh h t ops).2 (t + 1000 * Z.of_nat (length ops)).
Proof.
  intros Hs Hwf. revert sh h t Hs. induction Hwf as [|op ops Hop Hops IH]; intros sh h t Hs.
  { cbn. by rewrite Z.add_0_r. }
  cbn [run length].
  replace (t + 1000 * Z.of_nat (S (length ops))) with (t + 1000 + 1000 * Z.of_nat (length ops)) by lia.
  apply IH. by apply (session_op _ _ _ t); [|lia|].
Qed.

Definition demo_end : Shield unit := (run demo_shield [] 0 demo_ops).1.
Definition demo_history : list (Z * list (string * Z)) := (run demo_shield [] 0 demo_ops).2.

Lemma demo_session : session demo_shield demo_end demo_history 3000.
Proof.
  apply (run_session demo_shield demo_shield [] 0 demo_ops); [by constructor|].
  unfold demo_ops. constructor; [exact I|].
  do 2 (constructor; [constructor; [repeat (constructor; [split; vm_compute; congruence|]); constructor
                                   |constructor]|]).
  constructor.
Qed.

(** ** Witnesses *)
Lemma shield_spend_within_limit_witness :
  demo_history = [(2000, [(USDC_MINT_DEVNET, 60)])] /\
  spend_in_window (history_spends demo_history) USDC_MINT_DEVNET 86400000 5000 <= 100.
Proof.
  split; [vm_compute; reflexivity|].
  apply (shield_spend_within_limit demo_shield demo_end demo_history 3000 5000
    (mkLimit USDC_MINT_DEVNET 100 None) demo_session).
  - vm_compute; discriminate.
  - vm_compute. left.
  - repeat split; vm_compute; discriminate.
Defined.

Lemma shield_rate_within_limit_witness :
  count_in_window (history_txs demo_history) 3600000 5000 <= 2.
Proof.
  apply (shield_rate_within_limit demo_shield demo_end demo_history 3000 5000 demo_session).
  - vm_compute; discriminate.
  - repeat split; vm_compute; discriminate.
Defined.

Lemma shield_on_chain_caps_witness :
  exists rs, resolvedState (sh_state demo_end) = Some rs /\
    getEffectiveGlobalSpent24h (sh_state demo_end) = 377 /\
    getEffectiveGlobalSpent24h (sh_state demo_end) <= cap (globalBudget rs).
Proof.
  eexists. split; [vm_compute; reflexivity|]. split; [vm_compute; reflexivity|].
  refine (proj1 (shield_on_chain_caps demo_shield demo_end demo_history 3000 _ demo_session _ _)).
  - vm_compute; reflexivity.
  - vm_compute; reflexivity.
Defined.

Definition demo_message : CompiledMessage :=
  mkCompiled ["payer"; SIGIL_PROGRAM_ADDRESS]
    [mkCompiledIx 1 None (Some (VALIDATE_AND_AUTHORIZE_DISCRIMINATOR ++ [1]));
     mkCompiledIx 1 None (Some FINALIZE_SESSION_DISCRIMINATOR)] [].
Definition demo_signer_options : SignerOptions :=
  mkSignerOptions (Some (fun _ => Simulated true None None)) true false
    (Some (mkThresholds (Some 10) (Some 1000))) None true.

Lemma signer_gates_every_transaction_witness :
  sandwiched (Some demo_message).
Proof.
  refine (proj2 (proj2 (proj2 (Forall_inv (proj2 (proj2 (signer_gates_every_transaction demo_shield
    demo_signer_options "agent2" ModifyAndSign [Some demo_message] [Some demo_message] 1000
    (presign_record demo_shield demo_signer_options "agent2" (Some demo_message) 1000) _)))))) _ _);
    [|reflexivity|reflexivity].
  vm_compute. reflexivity.
Defined.

Lemma account_table_is_runtime_witness :
  account_table two_tables (Some (fun a => Some (two_chain a))) = runtime_accounts two_tables two_chain.
Proof.
  apply (account_table_is_runtime two_tables (fun a => Some (two_chain a)) two_chain).
  repeat (constructor; [split; [reflexivity|repeat (constructor; [vm_compute; lia|]); constructor]|]).
  constructor.
Defined.
