(* ===== verification/CoreEngine.v ===== *)
(** * The framework-agnostic policy engine ([sdk/kit/src/core/engine.ts], [core/state.ts])

    The state holds references to two JavaScript arrays: [checkpoint] copies them,
    [rollback] installs the checkpoint's own arrays, and [push] mutates in place. The
    arrays therefore live in a store and the state in references. Persisted JSON is the
    data it encodes. The rendering of a quotient of two numbers in one message is a
    parameter. *)

From S2P Require Import Prelude Types JsText Policies Ledger.
Local Open Scope string_scope.
Local Open Scope Z_scope.
Local Open Scope list_scope.

Definition DEFAULT_ADDRESS : string := "11111111111111111111111111111111".
Definition MAX_SPEND_ENTRIES : nat := 5000.
Definition MAX_TX_ENTRIES : nat := 5000.

Record ViolationDetails := mkDetails {
  d_limit : option Z;
  d_attempted : option Z;
  d_remaining : option Z;
  d_programId : option string;
  d_tokenMint : option string;
}.
Record EngineViolation := mkEngineViolation {
  ev_rule : string;
  ev_message : string;
  ev_suggestion : string;
  ev_details : option ViolationDetails;
}.

(** ** [ShieldState] over a store of arrays *)
Record CoreState := mkCoreState {
  spend_arrays : gmap nat (list SpendEntry);
  tx_arrays : gmap nat (list Z);
  next_ref : nat;
  spend_ref : nat;
  tx_ref : nat;
  storage : option (list SpendEntry * list Z);
}.

Definition spends (s : CoreState) : list SpendEntry := default [] (spend_arrays s !! spend_ref s).
Definition txs (s : CoreState) : list Z := default [] (tx_arrays s !! tx_ref s).

(** [this.storage.setItem(...)] of both arrays, when there is a storage. *)
Definition persist (s : CoreState) : CoreState :=
  mkCoreState (spend_arrays s) (tx_arrays s) (next_ref s) (spend_ref s) (tx_ref s)
    (match storage s with Some _ => Some (spends s, txs s) | None => None end).

(** Make the state point to a fresh array. *)
Definition assign_spends (s : CoreState) (l : list SpendEntry) : CoreState :=
  mkCoreState (<[next_ref s := l]> (spend_arrays s)) (tx_arrays s) (S (next_ref s)) (next_ref s)
    (tx_ref s) (storage s).
Definition assign_txs (s : CoreState) (l : list Z) : CoreState :=
  mkCoreState (spend_arrays s) (<[next_ref s := l]> (tx_arrays s)) (S (next_ref s)) (spend_ref s)
    (next_ref s) (storage s).

(** [push] on the array the state points to. *)
Definition push_spend (s : CoreState) (e : SpendEntry) : CoreState :=
  mkCoreState (<[spend_ref s := spends s ++ [e]]> (spend_arrays s)) (tx_arrays s) (next_ref s)
    (spend_ref s) (tx_ref s) (storage s).
Definition push_tx (s : CoreState) (t : Z) : CoreState :=
  mkCoreState (spend_arrays s) (<[tx_ref s := txs s ++ [t]]> (tx_arrays s)) (next_ref s)
    (spend_ref s) (tx_ref s) (storage s).

(** [l.slice(-n)] *)
Definition slice_last {A} (n : nat) (l : list A) : list A := drop (length l - n) l.

Definition recordSpend (s : CoreState) (mint : string) (amount now : Z) : CoreState :=
  let s := push_spend s (mkEntry mint amount now) in
  persist (if (MAX_SPEND_ENTRIES <? length (spends s))%nat
           then assign_spends s (slice_last MAX_SPEND_ENTRIES (spends s)) else s).

Definition recordTx (s : CoreState) (now : Z) : CoreState :=
  let s := push_tx s now in
  persist (if (MAX_TX_ENTRIES <? length (txs s))%nat
           then assign_txs s (slice_last MAX_TX_ENTRIES (txs s)) else s).

Definition getSpendInWindow (s : CoreState) (mint : string) (windowMs now : Z) : Z :=
  let cutoff := now - windowMs in
  fold_left (fun total e =>
    if bool_decide (e_mint e = mint) && (e_timestamp e >=? cutoff) then total + e_amount e else total)
    (spends s) 0.

Definition getTransactionCountInWindow (s : CoreState) (windowMs now : Z) : Z :=
  let cutoff := now - windowMs in
  fold_left (fun count ts => if ts >=? cutoff then count + 1 else count) (txs s) 0.

Definition pruneExpired (s : CoreState) (maxWindowMs now : Z) : CoreState :=
  let cutoff := now - maxWindowMs in
  let s := assign_spends s (filter (fun e => cutoff <= e_timestamp e) (spends s)) in
  persist (assign_txs s (filter (fun ts => cutoff <= ts) (txs s))).

(** A checkpoint holds references to two fresh copies. *)
Record CoreCheckpoint := mkCoreCheckpoint { cc_spends : nat; cc_txs : nat }.

Definition checkpoint (s : CoreState) : CoreState * CoreCheckpoint :=
  (mkCoreState (<[next_ref s := spends s]> (spend_arrays s)) (<[S (next_ref s) := txs s]> (tx_arrays s))
     (S (S (next_ref s))) (spend_ref s) (tx_ref s) (storage s),
   mkCoreCheckpoint (next_ref s) (S (next_ref s))).

(** [this.spendEntries = cp.spends; this.txEntries = cp.txs;]: no copy is made. *)
Definition rollback (s : CoreState) (cp : CoreCheckpoint) : CoreState :=
  persist (mkCoreState (spend_arrays s) (tx_arrays s) (next_ref s) (cc_spends cp) (cc_txs cp) (storage s)).

Definition reset (s : CoreState) : CoreState := persist (assign_txs (assign_spends s []) []).

(** The constructor: two empty arrays, replaced by what the storage holds. *)
Definition new_core_state (st : option (list SpendEntry * list Z)) : CoreState :=
  mkCoreState {[0%nat := from_option fst [] st]} {[1%nat := from_option snd [] st]} 2 0 1 st.

(** ** Checks *)
Definition transfer_key (t : TokenTransfer) : string :=
  if bool_decide (t_mint t = DEFAULT_ADDRESS) || bool_decide (t_mint t = "") then "unknown" else t_mint t.

Definition is_outgoing (t : TokenTransfer) : bool :=
  match t_direction t with Outgoing => true | _ => false end.

Definition check_program (p : ResolvedPolicies) (programId : string) : list EngineViolation :=
  let details := Some (mkDetails None None None (Some programId) None) in
  if isSystemProgram programId then []
  else
    match allowedProtocols p with
    | Some allowed =>
        if bool_decide (programId ∈ allowed) then []
        else [mkEngineViolation "protocol_not_allowed"
                ("Protocol " +:+ programId +:+ " is not in the allowlist")
                "Add this protocol to allowedProtocols in your shield config." details]
    | None =>
        if blockUnknownPrograms p && negb (isKnownProtocol programId) then
          [mkEngineViolation "unknown_program"
             ("Unknown program " +:+ programId +:+ " — not in the known protocol registry")
             "Add this program ID to allowedProtocols or set blockUnknownPrograms: false." details]
        else []
    end.

Definition checkPrograms (a : TransactionAnalysis) (p : ResolvedPolicies) : list EngineViolation :=
  flat_map (check_program p) (ta_programIds a).

Definition check_token (allowed : list string) (t : TokenTransfer) : list EngineViolation :=
  if negb (is_outgoing t) then []
  else if bool_decide (t_mint t = DEFAULT_ADDRESS) || bool_decide (t_mint t = "") then []
  else if bool_decide (t_mint t ∈ allowed) then []
  else [mkEngineViolation "token_not_allowed"
          ("Token " +:+ from_option ti_symbol (t_mint t) (getTokenInfo (t_mint t))
             +:+ " is not in the allowed token list")
          "Add this token mint to allowedTokens in your shield config."
          (Some (mkDetails None None None None (Some (t_mint t))))].

Definition checkTokens (a : TransactionAnalysis) (p : ResolvedPolicies) : list EngineViolation :=
  match allowedTokens p with
  | None => []
  | Some allowed => flat_map (check_token allowed) (ta_transfers a)
  end.

Definition strip_zeros (s : chars) : chars :=
  rev (snd (span (fun c => code c =? 48) (rev s))).

Definition formatAmount (amount decimals : Z) : string :=
  if decimals =? 0 then pretty amount
  else
    let divisor := 10 ^ decimals in
    let whole := Z.quot amount divisor in
    let frac := Z.rem amount divisor in
    if frac =? 0 then pretty whole
    else
      let digits := String.list_ascii_of_string (pretty frac) in
      let padded := replicate (Z.to_nat decimals - length digits) (Ascii.ascii_of_nat 48) ++ digits in
      pretty whole +:+ "." +:+ String.string_of_list_ascii (strip_zeros padded).

Definition tx_spend (a : TransactionAnalysis) (mintKey : string) : Z :=
  fold_left (fun s t => if is_outgoing t && bool_decide (transfer_key t = mintKey)
                        then s + t_amount t else s) (ta_transfers a) 0.

Definition check_cap (a : TransactionAnalysis) (s : CoreState) (now : Z) (limit : SpendLimit)
    : list EngineViolation :=
  let mintKey := sl_mint limit in
  let windowMs := default 86400000 (sl_windowMs limit) in
  let txSpend := tx_spend a mintKey in
  if txSpend =? 0 then []
  else
    let currentSpend := getSpendInWindow s mintKey windowMs now in
    if currentSpend + txSpend >? sl_amount limit then
      let info := getTokenInfo mintKey in
      let symbol := from_option ti_symbol "tokens" info in
      let decimals := from_option ti_decimals 0 info in
      let remaining := if sl_amount limit >? currentSpend then sl_amount limit - currentSpend else 0 in
      [mkEngineViolation "spending_cap"
         ("Spending cap exceeded for " +:+ symbol +:+ ": attempting " +:+ formatAmount txSpend decimals
            +:+ ", limit " +:+ formatAmount (sl_amount limit) decimals +:+ ", already spent "
            +:+ formatAmount currentSpend decimals)
         ("Reduce the transaction amount to " +:+ formatAmount remaining decimals +:+ " " +:+ symbol
            +:+ " or wait for the spending window to roll over.")
         (Some (mkDetails (Some (sl_amount limit)) (Some txSpend) (Some remaining) None (Some mintKey)))]
    else [].

Definition checkSpendingCaps (a : TransactionAnalysis) (p : ResolvedPolicies) (s : CoreState) (now : Z)
    : list EngineViolation := flat_map (check_cap a s now) (spendLimits p).

(** [if (!policies.maxTransactionSize) return;]: a size of 0 is no limit. *)
Definition checkTransactionSize (a : TransactionAnalysis) (p : ResolvedPolicies) : list EngineViolation :=
  match maxTransactionSize p with
  | None => []
  | Some m =>
      if m =? 0 then []
      else if ta_estimatedValueLamports a >? m then
        [mkEngineViolation "transaction_size"
           ("Transaction value " +:+ pretty (ta_estimatedValueLamports a)
              +:+ " exceeds max transaction size " +:+ pretty m)
           "Split this into smaller transactions or increase maxTransactionSize."
           (Some (mkDetails (Some m) (Some (ta_estimatedValueLamports a)) None None None))]
      else []
  end.

Section engine.
Context (show_quot : Z -> Z -> string).

Definition checkRateLimit (p : ResolvedPolicies) (s : CoreState) (now : Z) : list EngineViolation :=
  let w := windowMs (rateLimit p) in
  let count := getTransactionCountInWindow s w now in
  if count >=? maxTransactions (rateLimit p) then
    let windowDesc := if w >=? 3600000 then show_quot w 3600000 +:+ "h"
                      else show_quot w 60000 +:+ "min" in
    [mkEngineViolation "rate_limit"
       ("Rate limit exceeded: " +:+ pretty count +:+ "/" +:+ pretty (maxTransactions (rateLimit p))
          +:+ " transactions in the last " +:+ windowDesc)
       "Wait for the rate limit window to reset or increase rateLimit.maxTransactions." None]
  else [].

Definition evaluatePolicy (a : TransactionAnalysis) (p : ResolvedPolicies) (s : CoreState) (now : Z)
    : list EngineViolation :=
  checkPrograms a p ++ checkTokens a p ++ checkSpendingCaps a p s now
    ++ checkTransactionSize a p ++ checkRateLimit p s now.

Definition enforcePolicy (a : TransactionAnalysis) (p : ResolvedPolicies) (s : CoreState) (now : Z)
    : res (list EngineViolation) unit :=
  let vs := evaluatePolicy a p s now in
  match vs with [] => Ok tt | _ => Throw vs end.
End engine.

Definition recordTransaction (a : TransactionAnalysis) (s : CoreState) (now : Z) : CoreState :=
  recordTx (fold_left (fun s t => if is_outgoing t then recordSpend s (transfer_key t) (t_amount t) now
                                  else s) (ta_transfers a) s) now.

(** ** The ledger the state keeps *)
Lemma spends_push s e : spends (push_spend s e) = spends s ++ [e].
Proof. unfold spends at 1. cbn. by rewrite lookup_insert_eq. Qed.
Lemma txs_push_spend s e : txs (push_spend s e) = txs s.
Proof. done. Qed.
Lemma txs_push s t : txs (push_tx s t) = txs s ++ [t].
Proof. unfold txs at 1. cbn. by rewrite lookup_insert_eq. Qed.
Lemma spends_assign s l : spends (assign_spends s l) = l.
Proof. unfold spends. cbn. by rewrite lookup_insert_eq. Qed.
Lemma txs_assign s l : txs (assign_txs s l) = l.
Proof. unfold txs. cbn. by rewrite lookup_insert_eq. Qed.

Lemma spends_record s m a now :
  (length (spends s) < MAX_SPEND_ENTRIES)%nat ->
  spends (recordSpend s m a now) = spends s ++ [mkEntry m a now].
Proof.
  intros Hl. unfold recordSpend. cbv zeta.
  rewrite spends_push, length_app. cbn [length].
  destruct (Nat.ltb_spec MAX_SPEND_ENTRIES (length (spends s) + 1)); [lia|].
  apply (spends_push s).
Qed.

Lemma txs_record s m a now : txs (recordSpend s m a now) = txs s.
Proof. unfold recordSpend. cbv zeta. by destruct (_ <? _)%nat. Qed.

Lemma spends_record_tx s now : spends (recordTx s now) = spends s.
Proof. unfold recordTx. cbv zeta. by destruct (_ <? _)%nat. Qed.

Lemma txs_record_tx s now :
  (length (txs s) < MAX_TX_ENTRIES)%nat -> txs (recordTx s now) = txs s ++ [now].
Proof.
  intros Hl. unfold recordTx. cbv zeta. rewrite txs_push, length_app. cbn [length].
  destruct (Nat.ltb_spec MAX_TX_ENTRIES (length (txs s) + 1)); [lia|].
  apply (txs_push s).
Qed.

Lemma fold_if_sum {A} (p : A -> bool) (P : A -> Prop) `{forall x, Decision (P x)} (f : A -> Z) l z :
  (forall x, p x = true <-> P x) ->
  fold_left (fun s x => if p x then s + f x else s) l z = z + sum_of f (filter P l).
Proof.
  intros HP. revert z. induction l as [|x l IH]; intros z; [cbn; rewrite sum_of_nil; lia|].
  cbn [fold_left]. rewrite IH, filter_cons. destruct (decide (P x)) as [Hx|Hx].
  - rewrite (proj2 (HP x) Hx), sum_of_cons. lia.
  - destruct (p x) eqn:Hp; [by apply HP in Hp|done].
Qed.

Lemma core_spend_spec s m w now :
  getSpendInWindow s m w now = spend_in_window (spends s) m w now.
Proof.
  unfold getSpendInWindow, spend_in_window. cbv zeta.
  rewrite (fold_if_sum _ (fun e => e_mint e = m /\ now - w <= e_timestamp e)); [lia|].
  intros e. rewrite andb_true_iff, bool_decide_eq_true, Z.geb_le. done.
Qed.

Lemma core_count_spec s w now :
  getTransactionCountInWindow s w now = count_in_window (txs s) w now.
Proof.
  unfold getTransactionCountInWindow, count_in_window. cbv zeta.
  rewrite (fold_if_sum _ (fun ts => now - w <= ts) (fun _ => 1)); [|intros x; by rewrite Z.geb_le].
  rewrite Z.add_0_l. induction (filter _ _) as [|x l IH]; [done|]. rewrite sum_of_cons, IH. cbn [length]. lia.
Qed.

#[export] Instance core_ledger : SpendLedger CoreState := {
  lg_spend := getSpendInWindow;
  lg_count := getTransactionCountInWindow;
  lg_record := recordSpend;
  lg_record_tx := recordTx;
}.

(** The state is the history itself, up to 5000 entries of each kind. *)
#[export] Program Instance core_ledger_laws : LedgerLaws CoreState := {
  lg_models := fun s es ts _ => spends s = es /\ txs s = ts;
  lg_horizon := None;
  lg_room := fun es ts => (length es < MAX_SPEND_ENTRIES)%nat /\ (length ts < MAX_TX_ENTRIES)%nat;
}.
Next Obligation. by intros. Qed.
Next Obligation. intros s es ts last m w now [<- _] _ _. apply core_spend_spec. Qed.
Next Obligation. intros s es ts last w now [_ <-] _ _. apply core_count_spec. Qed.
Next Obligation.
  intros s es ts last m a now [<- <-] _ [Hr _]. by rewrite <- (spends_record s m a now Hr), <- (txs_record s m a now).
Qed.
Next Obligation.
  intros s es ts last now [<- <-] _ [_ Hr]. by rewrite <- (txs_record_tx s now Hr), <- (spends_record_tx s now).
Qed.

(** ** Approved transactions stay within the caps *)
Definition core_batch (a : TransactionAnalysis) : list (string * Z) :=
  (fun t => (transfer_key t, t_amount t)) <$> filter (fun t => is_outgoing t = true) (ta_transfers a).

Lemma record_core_batch a s now :
  recordTransaction a s now = recordTx (record_all s (core_batch a) now) now.
Proof.
  unfold recordTransaction, core_batch, record_all. f_equal. revert s.
  induction (ta_transfers a) as [|t ts IH]; intros s; [done|].
  cbn [fold_left]. rewrite filter_cons. destruct (is_outgoing t); cbn; apply IH.
Qed.

Lemma core_tx_spend a m : tx_spend a m = batch_spend (core_batch a) m.
Proof.
  unfold tx_spend, core_batch, batch_spend.
  rewrite (fold_if_sum _ (fun t => is_outgoing t = true /\ transfer_key t = m));
    [|intros t; by rewrite andb_true_iff, bool_decide_eq_true].
  rewrite Z.add_0_l. induction (ta_transfers a) as [|t ts IH]; [done|].
  rewrite !(filter_cons _ t ts). destruct (decide (is_outgoing t = true)) as [Ho|Ho].
  - rewrite fmap_cons, filter_cons. cbn [fst]. destruct (decide (transfer_key t = m)) as [Hm|Hm].
    + rewrite decide_True by done. by rewrite !sum_of_cons, IH.
    + rewrite decide_False by tauto. exact IH.
  - rewrite decide_False by tauto. exact IH.
Qed.

Section core_session.
Context (show_quot : Z -> Z -> string) (p : ResolvedPolicies).

(** Sessions of the engine's clients: evaluate, and record what was approved. *)
Inductive core_session : CoreState -> list SpendEntry -> list Z -> Z -> Prop :=
  | core_start t0 : core_session (new_core_state None) [] [] t0
  | core_approve s es ts last a now :
      core_session s es ts last -> last <= now ->
      enforcePolicy show_quot a p s now = Ok tt ->
      Forall (fun t => 0 <= t_amount t) (ta_transfers a) ->
      (length es + length (core_batch a) <= MAX_SPEND_ENTRIES)%nat ->
      (length ts < MAX_TX_ENTRIES)%nat ->
      core_session (recordTransaction a s now) (es ++ entries_at now (core_batch a)) (ts ++ [now]) now.

Lemma enforcePolicy_ok a s now :
  enforcePolicy show_quot a p s now = Ok tt -> evaluatePolicy show_quot a p s now = [].
Proof. unfold enforcePolicy. by destruct (evaluatePolicy _ _ _ _ _). Qed.

Lemma record_core_models s es ts last a now :
  lg_models s es ts last -> last <= now ->
  (length es + length (core_batch a) <= MAX_SPEND_ENTRIES)%nat -> (length ts < MAX_TX_ENTRIES)%nat ->
  lg_models (recordTransaction a s now) (es ++ entries_at now (core_batch a)) (ts ++ [now]) now.
Proof.
  intros [Hs Ht] Hle Hroom Htx. rewrite record_core_batch.
  revert s es Hs Ht Hroom. induction (core_batch a) as [|[m x] b IH]; intros s es Hs Ht Hroom.
  - cbn. rewrite app_nil_r, spends_record_tx, txs_record_tx by (by rewrite Ht). by rewrite Hs, Ht.
  - assert (Heq : es ++ entries_at now ((m, x) :: b) = (es ++ [mkEntry m x now]) ++ entries_at now b)
      by (rewrite <- app_assoc; done).
    rewrite Heq. change (record_all s ((m, x) :: b) now) with (record_all (recordSpend s m x now) b now).
    cbn [length] in Hroom. apply IH.
    + rewrite spends_record by (rewrite Hs; lia). by rewrite Hs.
    + by rewrite txs_record.
    + rewrite length_app. cbn [length]. lia.
Qed.

Lemma core_session_inv s es ts last :
  core_session s es ts last ->
  lg_models s es ts last /\ Forall (fun e => 0 <= e_amount e) es /\
  (forall l, l ∈ spendLimits p -> 0 <= default 86400000 (sl_windowMs l) -> 0 <= sl_amount l ->
     spend_in_window es (sl_mint l) (default 86400000 (sl_windowMs l)) last <= sl_amount l) /\
  (0 <= windowMs (rateLimit p) -> 0 <= maxTransactions (rateLimit p) ->
     count_in_window ts (windowMs (rateLimit p)) last <= maxTransactions (rateLimit p)).
Proof.
  induction 1 as [t0|s es ts last a now Hs (Hm & Hnn & Hl & Hr) Hle He Hpos Hroom Htx].
  { split_and!; [done|constructor|done|done]. }
  apply enforcePolicy_ok in He. unfold evaluatePolicy in He.
  apply app_eq_nil in He as [_ He]. apply app_eq_nil in He as [_ He].
  apply app_eq_nil in He as [Hcaps He]. apply app_eq_nil in He as [_ Hrate].
  assert (Hbatch : Forall (fun e => 0 <= e_amount e) (entries_at now (core_batch a))).
  { unfold entries_at, core_batch. rewrite !Forall_fmap. apply Forall_forall.
    intros t [_ Ht]%list_elem_of_filter. exact (proj1 (Forall_forall _ _) Hpos t Ht). }
  split_and!.
  - by eapply record_core_models.
  - by apply Forall_app.
  - intros l Hin Hw Ha. rewrite spend_in_window_app, spend_entries_at by done.
    pose proof (Hl l Hin Hw Ha) as Hold. pose proof (spend_in_window_antimono es (sl_mint l)
      (default 86400000 (sl_windowMs l)) last now Hnn Hle) as Hmono.
    assert (Hc : check_cap a s now l = []).
    { assert (HF : Forall (fun l => check_cap a s now l = []) (spendLimits p)).
      { clear -Hcaps. unfold checkSpendingCaps in Hcaps. induction (spendLimits p) as [|x l IH]; [constructor|].
        cbn in Hcaps. apply app_eq_nil in Hcaps as [H1 H2]. constructor; [done|by apply IH]. }
      exact (proj1 (Forall_forall _ _) HF l Hin). }
    unfold check_cap in Hc. cbv zeta in Hc. rewrite core_spend_spec, core_tx_spend in Hc.
    destruct Hm as [Hse _]. rewrite Hse in Hc.
    destruct (Z.eqb_spec (batch_spend (core_batch a) (sl_mint l)) 0); [lia|].
    match type of Hc with context [?x >? ?y] => destruct (Z.gtb_spec x y); [discriminate|lia] end.
  - intros Hw Hmax. rewrite count_in_window_app. unfold checkRateLimit in Hrate. cbv zeta in Hrate.
    rewrite core_count_spec in Hrate. destruct Hm as [_ Hse]. rewrite Hse in Hrate.
    assert (count_in_window [now] (windowMs (rateLimit p)) now <= 1).
    { unfold count_in_window. rewrite filter_cons. case_decide; cbn; lia. }
    match type of Hrate with context [?x >=? ?y] => destruct (Z.geb_spec x y); [discriminate|lia] end.
Qed.

(** C33: the core engine keeps caps and rate over every window. In any session that records
    what it approves, as long as the history fits the 5000 entries the state keeps, every
    spending cap holds over every window of its length ending now or later, and so does
    the rate limit. *)
Theorem core_engine_within_limits (s : CoreState) (es : list SpendEntry) (ts : list Z) (last now : Z) :
  core_session s es ts last -> last <= now ->
  (forall l, l ∈ spendLimits p -> 0 <= default 86400000 (sl_windowMs l) -> 0 <= sl_amount l ->
     spend_in_window es (sl_mint l) (default 86400000 (sl_windowMs l)) now <= sl_amount l) /\
  (0 <= windowMs (rateLimit p) -> 0 <= maxTransactions (rateLimit p) ->
     count_in_window ts (windowMs (rateLimit p)) now <= maxTransactions (rateLimit p)).
Proof.
  intros (_ & Hnn & Hl & Hr)%core_session_inv Hle. split.
  - intros l Hin Hw Ha. etrans; [by apply spend_in_window_antimono|by apply Hl].
  - intros Hw Hm. etrans; [by apply count_in_window_antimono|by apply Hr].
Qed.
End core_session.

(** ** Past 5000 entries the window forgets *)
Definition dust (n : nat) : list TokenTransfer := replicate n (mkTokenTransfer "mint" 0 Outgoing None).
Definition one_spend : TransactionAnalysis :=
  mkTxAnalysis [] [mkTokenTransfer "mint" 100 Outgoing None] 100.
Definition one_limit : ResolvedPolicies :=
  mkResolvedPolicies [mkLimit "mint" 100 None] None None None true (mkRateLimit 60 3600000).
Definition after_dust : CoreState :=
  recordTransaction (mkTxAnalysis [] (dust 5000) 0) (recordTransaction one_spend (new_core_state None) 1000) 1000.

(** beyond the 5000 entries the cap does not hold. A spend of the whole cap followed by
    one transaction of 5000 zero-amount transfers is forgotten within the window: the
    engine approves the whole cap again at the same instant. *)
Theorem core_cap_forgets_after_5000 (show_quot : Z -> Z -> string) :
  enforcePolicy show_quot one_spend one_limit (recordTransaction one_spend (new_core_state None) 1000) 1000
    <> Ok tt /\
  enforcePolicy show_quot one_spend one_limit after_dust 1000 = Ok tt.
Proof. split; [intros H; vm_compute in H; discriminate|vm_compute; reflexivity]. Qed.

(** ** Rollback installs the checkpoint itself *)

(** one rollback restores, a second does not. Rolling back to a checkpoint restores the
    state's entries; but the checkpoint's array is then the live one, so a spend recorded
    afterwards survives a second rollback to the same checkpoint. *)
Theorem core_rollback_once (s : CoreState) (m : string) (a now : Z) :
  (length (spends s) < MAX_SPEND_ENTRIES)%nat ->
  forall s2, spend_arrays s2 !! cc_spends (checkpoint s).2
             = spend_arrays (checkpoint s).1 !! cc_spends (checkpoint s).2 ->
  spends (rollback s2 (checkpoint s).2) = spends s /\
  spends (rollback (recordSpend (rollback s2 (checkpoint s).2) m a now) (checkpoint s).2)
  = spends s ++ [mkEntry m a now].
Proof.
  intros Hl s2 Harr. cbn in Harr. cbn [snd checkpoint].
  rewrite lookup_insert_eq in Harr.
  set (cp := mkCoreCheckpoint (next_ref s) (S (next_ref s))).
  assert (H1 : spends (rollback s2 cp) = spends s).
  { unfold spends at 1. cbn. by rewrite Harr. }
  split; [done|]. unfold recordSpend. cbv zeta.
  rewrite spends_push, H1, length_app. cbn [length].
  destruct (Nat.ltb_spec MAX_SPEND_ENTRIES (length (spends s) + 1)); [lia|].
  rewrite <- H1. apply (spends_push (rollback s2 cp)).
Qed.

(** ** Witnesses *)
Definition core_demo : CoreState := recordTransaction one_spend (new_core_state None) 1000.

Lemma core_engine_within_limits_witness :
  spend_in_window (entries_at 1000 (core_batch one_spend)) "mint" 86400000 2000 <= 100.
Proof.
  assert (Hs : core_session (fun _ _ => "") one_limit core_demo
    ([] ++ entries_at 1000 (core_batch one_spend)) ([] ++ [1000]) 1000).
  { apply (core_approve _ _ (new_core_state None) [] [] 0 one_spend 1000); [apply core_start|lia|vm_compute; reflexivity| |apply Nat.leb_le; reflexivity|apply Nat.ltb_lt; reflexivity].
    constructor; [cbn; lia|constructor]. }
  refine (proj1 (core_engine_within_limits (fun _ _ => "") one_limit core_demo _ _ 1000 2000 Hs _)
    (mkLimit "mint" 100 None) _ _ _); [lia|left|cbn; lia|cbn; lia].
Defined.

Lemma core_rollback_once_witness :
  spends (rollback (recordSpend (rollback (checkpoint core_demo).1 (checkpoint core_demo).2) "mint" 1 5)
            (checkpoint core_demo).2)
  = [mkEntry "mint" 100 1000; mkEntry "mint" 1 5].
Proof.
  refine (proj2 (core_rollback_once core_demo "mint" 1 5 _ (checkpoint core_demo).1 _));
    [apply Nat.ltb_lt; reflexivity|reflexivity].
Defined.
