(* ===== verification/Hooks.v ===== *)
(** * Hooks and policy plugins ([sdk/kit/src/hooks.ts], [plugin.ts])

    The two consumer-supplied surfaces of [seal()]: the observe-only lifecycle hooks,
    of which only [onBeforeBuild] may abort, and the policy plugins, which may reject.
    Consumer code is a function of its arguments that answers an outcome and leaves a
    list of observable events; a call that throws is an outcome. *)

From S2P Require Import Prelude Types Accounts.
Local Open Scope string_scope.
Local Open Scope list_scope.

(** ** Consumer callbacks *)
Inductive outcome (A : Type) :=
  | Returned (a : A)
  | Threw (message : string).
Arguments Returned {A} _.
Arguments Threw {A} _.

(** The events a call leaves behind, and how it ends. *)
Abbreviation effect A := (list string * outcome A)%type.

Definition eff_ret {A} (a : A) : effect A := ([], Returned a).
Definition eff_bind {A B} (m : effect A) (k : A -> effect B) : effect B :=
  match m with
  | (l, Returned a) => let r := k a in (l ++ r.1, r.2)
  | (l, Threw e) => (l, Threw e)
  end.

Record SealHookContext := mkHookContext {
  hc_vault : Address;
  hc_agent : Address;
  hc_tokenMint : Address;
  hc_amount : Z;
  hc_network : string;
  hc_correlationId : string;
}.

(** [skipSeal] is typed [true]; untyped callers can return any value, of which the
    code reads the truth value. *)
Record SealHookAbort := mkAbort { skipSeal : bool; abort_reason : string }.

(** [P] is the type of the parameters, [T] of compiled transactions, [E] of errors and
    [R] of results the hooks are shown. *)
Record SealHooks (P T E R : Type) := mkHooks {
  h_onBeforeBuild : option (SealHookContext -> P -> effect (option SealHookAbort));
  h_onBeforeSign : option (SealHookContext -> T -> effect unit);
  h_onAfterSend : option (SealHookContext -> string -> effect unit);
  h_onError : option (SealHookContext -> E -> effect unit);
  h_onFinalize : option (SealHookContext -> R -> effect unit);
}.
Arguments mkHooks {P T E R}.
Arguments h_onBeforeBuild {P T E R}. Arguments h_onBeforeSign {P T E R}.
Arguments h_onAfterSend {P T E R}. Arguments h_onError {P T E R}.
Arguments h_onFinalize {P T E R}.

Section hooks.
Context {P T E R : Type}.
Implicit Types (h outer inner : SealHooks P T E R).

(** [await hook?.(ctx, arg)] *)
Definition call_opt {X A} (hook : option (SealHookContext -> X -> effect A))
    (ctx : SealHookContext) (arg : X) : effect (option A) :=
  match hook with
  | None => eff_ret None
  | Some f => eff_bind (f ctx arg) (fun a => eff_ret (Some a))
  end.

(** The abort that [result && result.skipSeal] selects. *)
Definition truthy_abort (r : option (option SealHookAbort)) : option SealHookAbort :=
  match r with
  | Some (Some a) => if skipSeal a then Some a else None
  | _ => None
  end.

Definition compose_build (outer inner : option (SealHookContext -> P -> effect (option SealHookAbort)))
    (ctx : SealHookContext) (params : P) : effect (option SealHookAbort) :=
  eff_bind (call_opt outer ctx params) (fun outerResult =>
    match truthy_abort outerResult with
    | Some a => eff_ret (Some a)
    | None =>
        eff_bind (call_opt inner ctx params) (fun innerResult =>
          eff_ret (truthy_abort innerResult))
    end).

Definition compose_observe {X} (outer inner : option (SealHookContext -> X -> effect unit))
    (ctx : SealHookContext) (arg : X) : effect unit :=
  eff_bind (call_opt outer ctx arg) (fun _ =>
  eff_bind (call_opt inner ctx arg) (fun _ => eff_ret tt)).

Definition composeHooks (outer inner : option (SealHooks P T E R)) : option (SealHooks P T E R) :=
  match outer, inner with
  | None, None => None
  | None, Some i => Some i
  | Some o, None => Some o
  | Some o, Some i => Some {|
      h_onBeforeBuild := Some (compose_build (h_onBeforeBuild o) (h_onBeforeBuild i));
      h_onBeforeSign := Some (compose_observe (h_onBeforeSign o) (h_onBeforeSign i));
      h_onAfterSend := Some (compose_observe (h_onAfterSend o) (h_onAfterSend i));
      h_onError := Some (compose_observe (h_onError o) (h_onError i));
      h_onFinalize := Some (compose_observe (h_onFinalize o) (h_onFinalize i)) |}
  end.

(** A throw is swallowed, with a warning, and reads as [undefined]. *)
Definition invokeHook {X A} (hooks : option (SealHooks P T E R))
    (key : SealHooks P T E R -> option (SealHookContext -> X -> effect A))
    (ctx : SealHookContext) (arg : X) : list string * option A :=
  match hooks ≫= key with
  | None => ([], None)
  | Some fn =>
      match fn ctx arg with
      | (l, Returned a) => (l, Some a)
      | (l, Threw message) => (l ++ ["[SealHooks] threw " +:+ message], None)
      end
  end.

(** The abort [seal()] acts on: only a [skipSeal] that is exactly [true]. *)
Definition build_abort (hooks : option (SealHooks P T E R)) (ctx : SealHookContext) (params : P)
    : option SealHookAbort :=
  truthy_abort (invokeHook hooks h_onBeforeBuild ctx params).2.

(** ** Lemmas on hooks *)
Lemma compose_build_returned fo fi ctx params lo ro li ri :
  fo ctx params = (lo, Returned ro) -> fi ctx params = (li, Returned ri) ->
  compose_build (Some fo) (Some fi) ctx params =
    match truthy_abort (Some ro) with
    | Some a => (lo, Returned (Some a))
    | None => (lo ++ li, Returned (truthy_abort (Some ri)))
    end.
Proof.
  intros Ho Hi. unfold compose_build, call_opt. rewrite Ho, Hi. unfold eff_bind, eff_ret.
  simpl. destruct ro as [a|]; simpl; [|by rewrite !app_nil_r].
  destruct (skipSeal a); simpl; by rewrite ?app_nil_r.
Qed.

Lemma compose_build_outer_throws fo fi ctx params l m :
  fo ctx params = (l, Threw m) -> compose_build (Some fo) fi ctx params = (l, Threw m).
Proof. intros Ho. unfold compose_build, call_opt. by rewrite Ho. Qed.

Lemma truthy_abort_idem r : truthy_abort (Some (truthy_abort r)) = truthy_abort r.
Proof.
  destruct r as [[a|]|]; [|done..]. unfold truthy_abort at 2 3.
  destruct (skipSeal a) eqn:Ha; simpl; by rewrite ?Ha.
Qed.
(** composed hooks. An outer abort wins, otherwise the inner hook decides; but when the
    outer hook throws, the inner one is never asked and the seal proceeds: its abort is
    lost. *)
Theorem composeHooks_abort outer inner ctx (params : P) :
  build_abort (composeHooks (Some outer) (Some inner)) ctx params =
  match h_onBeforeBuild outer with
  | Some fo =>
      match (fo ctx params).2 with
      | Threw _ => None
      | Returned ro =>
          match truthy_abort (Some ro) with
          | Some a => Some a
          | None => build_abort (Some inner) ctx params
          end
      end
  | None => build_abort (Some inner) ctx params
  end.
Proof.
  unfold build_abort, composeHooks, invokeHook. cbn [mbind option_bind h_onBeforeBuild].
  unfold compose_build, call_opt, eff_bind, eff_ret.
  destruct (h_onBeforeBuild outer) as [fo|], (h_onBeforeBuild inner) as [fi|]; simpl.
  all: repeat (destruct (fo ctx params) as [lo [ro|mo]]; simpl);
       repeat (destruct (fi ctx params) as [li [ri|mi]]; simpl); try done.
  all: try destruct ro as [a|]; simpl; try done; try destruct (skipSeal a) eqn:Ha; simpl; try done.
  all: try destruct ri as [b|]; simpl; try done; try destruct (skipSeal b) eqn:Hb; simpl; rewrite ?Ha, ?Hb; try done.
Qed.
End hooks.

(** ** Plugins *)
Record PluginState := mkPluginState {
  ps_globalBudget : Z * Z * Z;
  ps_agentBudget : option (Z * Z * Z);
  ps_vaultStatus : VaultStatus;
  ps_capabilityTier : Z;
  ps_maxTransactionUsd : Z;
  ps_resolvedAtTimestamp : Z;
}.

Record PluginContext (I : Type) := mkPluginContext {
  pc_vault : Address;
  pc_agent : Address;
  pc_tokenMint : Address;
  pc_amount : Z;
  pc_network : string;
  pc_instructions : list I;
  pc_correlationId : string;
  pc_state : PluginState;
}.
Arguments mkPluginContext {I}.
Arguments pc_state {I}. Arguments pc_amount {I}. Arguments pc_instructions {I}.
Arguments pc_correlationId {I}.

Inductive PluginResult :=
  | PluginAllow
  | PluginReject (reason : string) (code : option string).

Record SigilPolicyPlugin (I : Type) := mkPlugin {
  plugin_name : string;
  plugin_check : PluginContext I -> outcome PluginResult;
}.
Arguments mkPlugin {I}. Arguments plugin_name {I}. Arguments plugin_check {I}.

Section plugins.
Context {I : Type}.
Implicit Types (p : SigilPolicyPlugin I) (ctx : PluginContext I).

Definition plugin_rejected (name reason : string) (code : option string) (correlationId : string)
    : SigilError :=
  sdk_error "SIGIL_ERROR__SDK__PLUGIN_REJECTED"
    ([("plugin", CStr name); ("reason", CStr reason)]
      ++ match code with Some c => [("code", CStr c)] | None => [] end
      ++ [("correlationId", CStr correlationId)]).

Definition run_plugin ctx p : res SigilError unit :=
  match plugin_check p ctx with
  | Threw message => Throw (plugin_rejected (plugin_name p) message None (pc_correlationId ctx))
  | Returned (PluginReject reason code) =>
      Throw (plugin_rejected (plugin_name p) reason code (pc_correlationId ctx))
  | Returned PluginAllow => Ok tt
  end.

Definition runPlugins (plugins : list (SigilPolicyPlugin I)) ctx : res SigilError unit :=
  for_each (run_plugin ctx) plugins.

(** ** Validation of a plugin list

    What [typeof] and the property reads see of a candidate plugin. *)
Inductive plugin_value :=
  | NotAnObject (type : string)
  | PluginObject (name : option string) (check_is_function : bool).

Inductive plugin_list_value :=
  | NotAnArray (type : string)
  | PluginArray (l : list plugin_value).

Definition invalid_config (field expected : string) : SigilError :=
  sdk_error "SIGIL_ERROR__SDK__INVALID_CONFIG" [("field", CStr field); ("expected", CStr expected)].

Fixpoint validate_plugins (i : nat) (names : gset string) (l : list plugin_value)
    : res SigilError unit :=
  match l with
  | [] => Ok tt
  | NotAnObject _ :: _ => Throw (invalid_config ("plugins[" +:+ pretty i +:+ "]") "object")
  | PluginObject None _ :: _ =>
      Throw (invalid_config ("plugins[" +:+ pretty i +:+ "].name") "string")
  | PluginObject (Some name) isFn :: l' =>
      throw_if (bool_decide (name = ""))
        (invalid_config ("plugins[" +:+ pretty i +:+ "].name") "string") ;;
      throw_if (negb isFn)
        (invalid_config ("plugins[" +:+ name +:+ "].check") "function") ;;
      throw_if (bool_decide (name ∈ names)) (invalid_config "plugins[].name" "unique") ;;
      validate_plugins (S i) ({[ name ]} ∪ names) l'
  end.

Definition validatePluginList (plugins : plugin_list_value) : res SigilError unit :=
  match plugins with
  | NotAnArray _ => Throw (invalid_config "plugins" "SigilPolicyPlugin[]")
  | PluginArray l => validate_plugins 0 ∅ l
  end.

(** ** Lemmas on plugins *)
Lemma run_plugin_ok ctx p :
  run_plugin ctx p = Ok tt <-> plugin_check p ctx = Returned PluginAllow.
Proof. unfold run_plugin. destruct (plugin_check p ctx) as [[]|]; split; congruence. Qed.

Lemma runPlugins_ok plugins ctx :
  runPlugins plugins ctx = Ok tt <->
  Forall (fun p => plugin_check p ctx = Returned PluginAllow) plugins.
Proof.
  unfold runPlugins. rewrite for_each_ok.
  split; intros H; (eapply Forall_impl; [exact H|]); intros p; apply run_plugin_ok.
Qed.

Lemma runPlugins_throw_code plugins ctx e :
  runPlugins plugins ctx = Throw e -> error_code e = "SIGIL_ERROR__SDK__PLUGIN_REJECTED".
Proof.
  unfold runPlugins. intros (l1 & p & l2 & _ & _ & Hp)%for_each_throw.
  unfold run_plugin in Hp. destruct (plugin_check p ctx) as [[|reason code]|m]; by simplify_eq.
Qed.

Definition plugin_value_name (v : plugin_value) : option string :=
  match v with PluginObject (Some n) _ => Some n | _ => None end.

Definition good_plugin (v : plugin_value) : Prop :=
  exists n, v = PluginObject (Some n) true /\ n <> "".

Lemma validate_plugins_ok i names l :
  validate_plugins i names l = Ok tt <->
  Forall good_plugin l /\ NoDup (omap plugin_value_name l) /\
  forall n, n ∈ omap plugin_value_name l -> n ∉ names.
Proof.
  revert i names. induction l as [|v l IH]; intros i names.
  { split; [|done]. intros _. split_and!; [constructor|constructor|]. intros n Hn. set_solver. }
  unfold good_plugin in *. destruct v as [t|[n|] isFn]; csimpl; rewrite ?Forall_cons.
  1, 3: split; [discriminate|]; intros [[(m & Hm & _) _] _]; discriminate.
  destruct (bool_decide_reflect (n = "")) as [Hn|Hn]; cbn.
  { split; [discriminate|]. intros [[(m & [= -> ->] & Hm) _] _]. done. }
  destruct isFn; cbn.
  2: { split; [discriminate|]. intros [[(m & Hm & _) _] _]. discriminate. }
  destruct (bool_decide_reflect (n ∈ names)) as [Hin|Hin]; cbn.
  { split; [discriminate|]. intros (_ & _ & H). destruct (H n); set_solver. }
  rewrite IH, NoDup_cons. split.
  - intros (HF & HN & Hd). split_and!; [by eauto|done| |done|].
    + intros Hm. specialize (Hd n Hm). set_solver.
    + intros m Hm. specialize (Hd m). set_solver.
  - intros ([_ HF] & [Hnin HN] & Hd). split_and!; [done..|]. intros m Hm. specialize (Hd m). set_solver.
Qed.
End plugins.
