(* ===== verification/AltLoader.v ===== *)
(** * Address lookup tables ([sdk/kit/src/alt-loader.ts], [alt-config.ts])

    The TTL cache of resolved lookup tables, the merge of the program's own table with
    the protocol tables, and the integrity check of the program's table. The clock
    [now] is [Date.now()]; the RPC fetch is a function that answers the tables it
    could resolve, or fails. *)

From S2P Require Import Prelude Types.
Local Open Scope string_scope.
Local Open Scope Z_scope.
Local Open Scope list_scope.

(** [AddressesByLookupTableAddress] *)
Abbreviation AltContents := (jsmap (list Address)).
Abbreviation AltFetch := (list Address -> option AltContents).

(** ** Configuration *)
Definition SIGIL_ALT_DEVNET : Address := "BtRLCMVamw9c3R8UDwgYBCFur5YVkqACmakVh9xi2aTw".
Definition SIGIL_ALT_MAINNET : Address := "11111111111111111111111111111111".
Definition INSTRUCTIONS_SYSVAR : Address := "Sysvar1nstructions1111111111111111111111111".
Definition CLOCK_SYSVAR : Address := "SysvarC1ock11111111111111111111111111111111".
Definition ALT_PLACEHOLDER : Address := "11111111111111111111111111111111".

Definition getSigilAltAddress (network : Network) : res SigilError Address :=
  if decide (network = "devnet") then Ok SIGIL_ALT_DEVNET
  else if decide (SIGIL_ALT_MAINNET = ALT_PLACEHOLDER) then
    Throw (sdk_error "Error: Mainnet Sigil ALT not yet deployed" [])
  else Ok SIGIL_ALT_MAINNET.

Definition TREASURY_USDC_ATA_DEVNET : Address := "J2SCySRvXFFQc6DdbRqnnmEz7kmtEtpM2FP37fz9R4Vt".
Definition TREASURY_USDT_ATA_DEVNET : Address := "81RyRPBpxR5QK6ZBtjNDBSknid1qMHsrCcWF6w5NHKD6".

Definition EXPECTED_ALT_CONTENTS_DEVNET : list Address := [
  USDC_MINT_DEVNET; USDT_MINT_DEVNET; PROTOCOL_TREASURY; INSTRUCTIONS_SYSVAR;
  CLOCK_SYSVAR; TREASURY_USDC_ATA_DEVNET; TREASURY_USDT_ATA_DEVNET ].

Definition EXPECTED_ALT_CONTENTS_MAINNET : list Address := [
  USDC_MINT_MAINNET; USDT_MINT_MAINNET; PROTOCOL_TREASURY; INSTRUCTIONS_SYSVAR;
  CLOCK_SYSVAR ].

Definition getExpectedAltContents (network : Network) : list Address :=
  if decide (network = "devnet") then EXPECTED_ALT_CONTENTS_DEVNET
  else EXPECTED_ALT_CONTENTS_MAINNET.

(** ** The cache *)
Definition DEFAULT_TTL_MS : Z := 300000.

Record AltCacheEntry := mkAltEntry { ace_data : AltContents; ace_expiresAt : Z }.

Record AltCache := mkAltCache {
  ac_cache : jsmap AltCacheEntry;
  ac_ttlMs : Z;
  ac_maxSize : Z;
}.

Definition new_alt_cache (ttlMs maxSize : option Z) : AltCache :=
  mkAltCache [] (default DEFAULT_TTL_MS ttlMs) (default 50 maxSize).

(** [Object.assign(target, source)] *)
Definition object_assign {V} (target source : jsmap V) : jsmap V :=
  fold_left (fun t kv => jm_set kv.1 kv.2 t) source target.

Definition fresh_entry (m : jsmap AltCacheEntry) (now : Z) (addr : Address) : option AltContents :=
  match jm_get addr m with
  | Some e => if ace_expiresAt e >? now then Some (ace_data e) else None
  | None => None
  end.

(** The first loop of [resolve]: merged cache hits, and the addresses left to fetch. *)
Definition split_cached (m : jsmap AltCacheEntry) (now : Z) (altAddresses : list Address)
    : AltContents * list Address :=
  fold_left (fun acc addr =>
    match fresh_entry m now addr with
    | Some data => (object_assign acc.1 data, acc.2)
    | None => (acc.1, acc.2 ++ [addr])
    end) altAddresses ([], []).

Definition store_fetched (ttlMs now : Z) (m : jsmap AltCacheEntry) (fetched : AltContents)
    : jsmap AltCacheEntry :=
  fold_left (fun m kv => jm_set kv.1 (mkAltEntry [kv] (now + ttlMs)) m) fetched m.

(** [while (this.cache.size > this.maxSize) ...]: the first key goes. *)
Fixpoint evict (fuel : nat) (maxSize : Z) (m : jsmap AltCacheEntry) : jsmap AltCacheEntry :=
  match fuel with
  | O => m
  | S fuel' =>
      if Z.of_nat (length m) >? maxSize then
        match m with
        | [] => m
        | (oldest, _) :: _ => evict fuel' maxSize (jm_delete oldest m)
        end
      else m
  end.

Definition resolve (c : AltCache) (fetch : AltFetch) (now : Z) (altAddresses : list Address)
    : AltCache * AltContents :=
  if bool_decide (altAddresses = []) then (c, [])
  else
    let split := split_cached (ac_cache c) now altAddresses in
    let result := split.1 in
    let uncached := split.2 in
    if bool_decide (uncached = []) then (c, result)
    else
      match fetch uncached with
      | None => (c, result)
      | Some fetched =>
          let m := store_fetched (ac_ttlMs c) now (ac_cache c) fetched in
          let m := evict (length m) (ac_maxSize c) m in
          (mkAltCache m (ac_ttlMs c) (ac_maxSize c), object_assign result fetched)
      end.

Definition getCachedAddresses (c : AltCache) (now : Z) (altAddress : Address)
    : option (list Address) :=
  match jm_get altAddress (ac_cache c) with
  | None => None
  | Some entry =>
      if ace_expiresAt entry <=? now then None else jm_get altAddress (ace_data entry)
  end.

Definition invalidate (c : AltCache) : AltCache := mkAltCache [] (ac_ttlMs c) (ac_maxSize c).

(** ** Merge and integrity check *)
Definition mergeAltAddresses (sigilAlt : Address) (protocolAlts : option (list Address))
    : list Address :=
  let step acc alt :=
    if bool_decide (alt ∈ acc.1) then acc else (alt :: acc.1, acc.2 ++ [alt]) in
  (fold_left step (default [] protocolAlts) ([sigilAlt], [sigilAlt])).2.

Definition verifySigilAlt (resolved : AltContents) (sigilAltAddress : Address)
    (expectedContents : list Address) : res SigilError unit :=
  match jm_get sigilAltAddress resolved with
  | None => Ok tt
  | Some altAddresses =>
      let missing := filter (fun expected => expected ∉ altAddresses) expectedContents in
      throw_if (bool_decide (0 < length missing)%nat)
        (sdk_error "SIGIL_ERROR__SDK__ALT_INTEGRITY"
          [("altAddress", CStr sigilAltAddress); ("missing", CNum (Z.of_nat (length missing)))])
  end.

(** ** Lemmas: [Object.assign] *)
Lemma object_assign_get {V} k (t s : jsmap V) :
  jm_wf s ->
  jm_get k (object_assign t s) = match jm_get k s with Some v => Some v | None => jm_get k t end.
Proof.
  unfold object_assign, jm_wf. revert t. induction s as [|[k' v] s IH]; intros t Hs; [done|].
  csimpl in *. apply NoDup_cons in Hs as [Hk Hs]. rewrite IH by done. case_decide as Hkk.
  - subst k'. destruct (jm_get k s) eqn:Hg; [|by rewrite jm_get_set_eq].
    destruct Hk. apply jm_has_spec. unfold jm_has. by rewrite Hg.
  - destruct (jm_get k s); [done|]. by rewrite jm_get_set_ne.
Qed.

(** ** Lemmas: the cache invariant

    Every entry holds exactly the table it is stored under, keys are unique, and the
    cache never holds more than [maxSize] tables. *)
Definition entry_wf (kv : string * AltCacheEntry) : Prop :=
  exists contents, ace_data kv.2 = [(kv.1, contents)].

Record altcache_wf (c : AltCache) : Prop := {
  acw_keys : jm_wf (ac_cache c);
  acw_entries : Forall entry_wf (ac_cache c);
  acw_size : Z.of_nat (length (ac_cache c)) <= Z.max 0 (ac_maxSize c);
}.

Lemma jm_set_Forall {V} (P : string * V -> Prop) k v m :
  P (k, v) -> Forall P m -> Forall P (jm_set k v m).
Proof.
  intros Hkv. induction 1 as [|[k' v'] m Hp HF IH]; simpl; [by repeat constructor|].
  case_decide; subst; constructor; done.
Qed.

Lemma fresh_entry_wf c now a data :
  altcache_wf c -> fresh_entry (ac_cache c) now a = Some data ->
  exists contents, data = [(a, contents)].
Proof.
  intros Hc. unfold fresh_entry. destruct (jm_get a (ac_cache c)) as [e|] eqn:He; [|done].
  destruct (_ >? _); [|done]. intros [= <-].
  apply jm_get_elem in He. destruct (proj1 (Forall_forall _ _) (acw_entries c Hc) _ He) as [l Hl].
  by exists l.
Qed.

Lemma store_fetched_wf ttl now m fetched :
  jm_wf m -> Forall entry_wf m ->
  jm_wf (store_fetched ttl now m fetched) /\ Forall entry_wf (store_fetched ttl now m fetched).
Proof.
  unfold store_fetched. revert m. induction fetched as [|[k v] f IH]; intros m Hk Hf; [done|].
  simpl. apply IH; [by apply jm_set_wf|]. apply jm_set_Forall; [|done]. by exists v.
Qed.

Lemma filter_id {A} (P : A -> Prop) `{forall x, Decision (P x)} (l : list A) :
  Forall P l -> filter P l = l.
Proof. induction 1 as [|x l Hx HF IH]; [done|]. rewrite filter_cons, decide_True by done. by rewrite IH. Qed.

Lemma jm_delete_head {V} k (v : V) m : jm_wf ((k, v) :: m) -> jm_delete k ((k, v) :: m) = m.
Proof.
  unfold jm_wf, jm_delete. csimpl. intros [Hk _]%NoDup_cons. rewrite filter_cons.
  rewrite decide_False by (cbn; tauto).
  apply filter_id, Forall_forall. intros [k2 v2] Hin; simpl; intros ->. apply Hk.
  apply list_elem_of_fmap. by exists (k, v2).
Qed.

(** The loop drops the oldest entries, exactly as many as exceed the bound. *)
Lemma evict_drop fuel maxSize m :
  jm_wf m -> (length m <= fuel)%nat ->
  evict fuel maxSize m = drop (length m - Z.to_nat maxSize) m.
Proof.
  revert m. induction fuel as [|fuel IH]; intros m Hm Hl.
  { destruct m; simpl in *; [done|lia]. }
  simpl. destruct (Z.gtb_spec (Z.of_nat (length m)) maxSize).
  - destruct m as [|[k e] m]; [done|]. rewrite jm_delete_head by done.
    simpl in Hl. rewrite IH; [|by apply NoDup_cons in Hm as [_ ?]|lia].
    simpl length. destruct (decide (0 <= maxSize)).
    + replace (S (length m) - Z.to_nat maxSize)%nat with (S (length m - Z.to_nat maxSize))
        by (simpl in *; lia). done.
    + replace (Z.to_nat maxSize) with 0%nat by lia. rewrite !Nat.sub_0_r. done.
  - replace (length m - Z.to_nat maxSize)%nat with 0%nat by lia. done.
Qed.

Lemma resolve_wf c fetch now alts :
  altcache_wf c -> altcache_wf (resolve c fetch now alts).1.
Proof.
  intros Hc. unfold resolve. case_bool_decide; [done|]. cbv zeta. case_bool_decide; [done|].
  destruct (fetch _) as [fetched|]; [|done]. destruct Hc as [Hk He Hs]. cbn [fst].
  destruct (store_fetched_wf (ac_ttlMs c) now (ac_cache c) fetched Hk He) as [Hk' He'].
  split; cbn [ac_cache ac_maxSize]; rewrite evict_drop by (done || lia).
  - unfold jm_wf. rewrite fmap_drop. eapply sublist_NoDup; [exact Hk'|apply sublist_drop].
  - by apply Forall_drop.
  - rewrite length_drop. lia.
Qed.

(** ** Lemmas: what [resolve] answers *)
Lemma split_cached_spec c now alts r u :
  altcache_wf c ->
  fold_left (fun acc addr =>
    match fresh_entry (ac_cache c) now addr with
    | Some data => (object_assign acc.1 data, acc.2)
    | None => (acc.1, acc.2 ++ [addr])
    end) alts (r, u) =
  (fold_left (fun t a => match fresh_entry (ac_cache c) now a with
                         | Some d => object_assign t d | None => t end) alts r,
   u ++ filter (fun a => fresh_entry (ac_cache c) now a = None) alts).
Proof.
  intros Hc. revert r u. induction alts as [|a alts IH]; intros r u; simpl; [by rewrite app_nil_r|].
  rewrite filter_cons. destruct (fresh_entry _ _ a) as [d|] eqn:Ha; rewrite IH; [done|].
  rewrite decide_True by done. by rewrite <- app_assoc.
Qed.

Lemma split_cached_get c now alts r k :
  altcache_wf c ->
  jm_get k (fold_left (fun t a => match fresh_entry (ac_cache c) now a with
                         | Some d => object_assign t d | None => t end) alts r) =
  if bool_decide (k ∈ alts) then
    match fresh_entry (ac_cache c) now k with
    | Some d => jm_get k d
    | None => jm_get k r
    end
  else jm_get k r.
Proof.
  intros Hc. revert r. induction alts as [|a alts IH]; intros r; [done|]. cbn [fold_left].
  rewrite IH. destruct (fresh_entry (ac_cache c) now a) as [d|] eqn:Ha.
  - destruct (fresh_entry_wf c now a d Hc Ha) as [l ->].
    assert (Hset : jm_get k (object_assign r [(a, l)]) = if decide (k = a) then Some l else jm_get k r).
    { unfold object_assign. cbn [fold_left fst snd]. destruct (decide (k = a)) as [->|]; [apply jm_get_set_eq|].
      by apply jm_get_set_ne, not_eq_sym. }
    rewrite Hset. destruct (decide (k = a)) as [->|Hka].
    + rewrite Ha. rewrite (bool_decide_true (a ∈ a :: alts)) by left. simpl.
      rewrite decide_True by done. by case_bool_decide.
    + assert (Hiff : k ∈ a :: alts <-> k ∈ alts) by set_solver.
      by rewrite (bool_decide_ext _ _ Hiff).
  - destruct (decide (k = a)) as [->|Hka].
    + rewrite Ha, (bool_decide_true (a ∈ a :: alts)) by left. by case_bool_decide.
    + assert (Hiff : k ∈ a :: alts <-> k ∈ alts) by set_solver.
      by rewrite (bool_decide_ext _ _ Hiff).
Qed.

(** ** Lemmas: merge and check *)
Lemma merge_step_spec (seen merged alts : list Address) :
  seen ≡ₚ merged -> NoDup merged ->
  let r := fold_left (fun acc alt =>
    if bool_decide (alt ∈ acc.1) then acc else (alt :: acc.1, acc.2 ++ [alt])) alts (seen, merged) in
  NoDup r.2 /\ (forall a, a ∈ r.2 <-> a ∈ merged \/ a ∈ alts) /\ merged `prefix_of` r.2.
Proof.
  revert seen merged. induction alts as [|a alts IH]; intros seen merged Hp Hn; cbn [fold_left].
  { split_and!; [done|set_solver|done]. }
  cbn [fst snd]. case_bool_decide as Ha.
  - destruct (IH seen merged Hp Hn) as (H1 & H2 & H3). split_and!; [done| |done].
    intros b. rewrite H2. rewrite Hp in Ha. set_solver.
  - rewrite Hp in Ha.
    destruct (IH (a :: seen) (merged ++ [a])) as (H1 & H2 & H3).
    + rewrite Hp. by rewrite Permutation_app_comm.
    + apply NoDup_app. split_and!; [done|set_solver|apply NoDup_singleton].
    + split_and!; [done| |].
      * intros b. rewrite H2. set_solver.
      * etrans; [|done]. by eexists.
Qed.

Lemma mergeAltAddresses_spec sigilAlt alts :
  NoDup (mergeAltAddresses sigilAlt alts) /\
  head (mergeAltAddresses sigilAlt alts) = Some sigilAlt /\
  forall a, a ∈ mergeAltAddresses sigilAlt alts <-> a = sigilAlt \/ a ∈ default [] alts.
Proof.
  unfold mergeAltAddresses.
  destruct (merge_step_spec [sigilAlt] [sigilAlt] (default [] alts)) as (H1 & H2 & H3);
    [done|apply NoDup_singleton|]. split_and!; [done| |].
  - destruct H3 as [k Hk]. simpl in *. by rewrite Hk.
  - intros a. rewrite H2. set_solver.
Qed.

Lemma verifySigilAlt_ok resolved sigilAlt expected :
  verifySigilAlt resolved sigilAlt expected = Ok tt <->
  forall contents, jm_get sigilAlt resolved = Some contents -> expected ⊆ contents.
Proof.
  unfold verifySigilAlt. destruct (jm_get sigilAlt resolved) as [l|]; [|by split; intros].
  rewrite throw_if_ok_inv, bool_decide_eq_false. split.
  - intros Hlen contents [= <-] a Ha. destruct (decide (a ∈ l)) as [|Hn]; [done|]. exfalso.
    apply Hlen. assert (a ∈ filter (fun e => e ∉ l) expected) as Hin.
    { by apply list_elem_of_filter. }
    destruct (filter _ expected); [set_solver|simpl; lia].
  - intros H. specialize (H l eq_refl).
    destruct (filter (fun e => e ∉ l) expected) as [|a f] eqn:Hf; [simpl; lia|].
    assert (a ∈ filter (fun e => e ∉ l) expected) as Hin by (rewrite Hf; left).
    apply list_elem_of_filter in Hin as [Hn He]. set_solver.
Qed.

(** ** What the cache promises

    The documented behaviour of [fetchAddressesForLookupTables]: an object (unique
    keys) that answers only tables it was asked for. *)
Definition fetch_documented (fetch : AltFetch) : Prop :=
  forall asked fetched, fetch asked = Some fetched -> jm_wf fetched /\ fetched.*1 ⊆ asked.

(** The tables still to be fetched. *)
Definition stale (c : AltCache) (now : Z) (alts : list Address) : list Address :=
  filter (fun a => fresh_entry (ac_cache c) now a = None) alts.

Lemma resolve_get c fetch now alts k :
  altcache_wf c -> fetch_documented fetch -> k ∈ alts ->
  jm_get k (resolve c fetch now alts).2 =
  match fresh_entry (ac_cache c) now k with
  | Some data => jm_get k data
  | None => fetch (stale c now alts) ≫= jm_get k
  end.
Proof.
  intros Hc Hf Hk. unfold resolve. rewrite bool_decide_false by (intros ->; set_solver).
  unfold split_cached. rewrite split_cached_spec by done. cbv zeta. cbn [fst snd]. rewrite app_nil_l.
  fold (stale c now alts). pose proof (split_cached_get c now alts [] k Hc) as Hg.
  rewrite bool_decide_true in Hg by done. cbn [jm_get] in Hg.
  case_bool_decide as Hu.
  - cbn [snd]. rewrite Hg. destruct (fresh_entry _ _ k) eqn:Hfr; [done|].
    assert (k ∈ stale c now alts) as Hin by (by apply list_elem_of_filter).
    rewrite Hu in Hin. set_solver.
  - destruct (fetch (stale c now alts)) as [fetched|] eqn:Hfe; cbn [snd].
    + destruct (Hf _ _ Hfe) as [Hw Hsub]. rewrite object_assign_get, Hg by done. simpl.
      destruct (jm_get k fetched) as [v|] eqn:Hv.
      * assert (k ∈ stale c now alts) as Hin.
        { apply Hsub. apply jm_has_spec. unfold jm_has. by rewrite Hv. }
        apply list_elem_of_filter in Hin as [-> _]. done.
      * by destruct (fresh_entry _ _ k).
    + rewrite Hg. simpl. by destruct (fresh_entry _ _ k).
Qed.

Lemma getCachedAddresses_fresh c now k :
  getCachedAddresses c now k = fresh_entry (ac_cache c) now k ≫= jm_get k.
Proof.
  unfold getCachedAddresses, fresh_entry. destruct (jm_get k (ac_cache c)) as [e|]; [|done].
  destruct (Z.leb_spec (ace_expiresAt e) now), (Z.gtb_spec (ace_expiresAt e) now); try done; lia.
Qed.

(** resolving a list of lookup tables keeps the cache well formed (each table
    stored under its own address, no more than [maxSize] of them) and answers every
    table asked for: the synchronous reader's answer when the cache holds it, else what
    the one fetch of the missing tables returned, else nothing. *)
Theorem alt_resolve_spec c fetch now alts :
  altcache_wf c -> fetch_documented fetch ->
  altcache_wf (resolve c fetch now alts).1 /\
  forall k, k ∈ alts ->
    jm_get k (resolve c fetch now alts).2 =
    match getCachedAddresses c now k with
    | Some contents => Some contents
    | None => fetch (stale c now alts) ≫= jm_get k
    end.
Proof.
  intros Hc Hf. split; [by apply resolve_wf|]. intros k Hk.
  rewrite resolve_get, getCachedAddresses_fresh by done.
  destruct (fresh_entry (ac_cache c) now k) as [d|] eqn:Hd; [|done].
  destruct (fresh_entry_wf c now k d Hc Hd) as [l ->]. simpl. by rewrite decide_True.
Qed.

Definition demo_fetch : AltFetch := fun asked => Some ((fun a => (a, [a])) <$> remove_dups asked).
Definition demo_cache : AltCache :=
  mkAltCache [("old", mkAltEntry [("old", ["x"])] 500); ("hot", mkAltEntry [("hot", ["y"])] 2000)]
    1000 2.

Lemma demo_cache_wf : altcache_wf demo_cache.
Proof.
  split; [vm_compute; repeat constructor; set_solver| |simpl; lia].
  repeat constructor; by eexists.
Qed.

(** Only the expired table is fetched; the bound then evicts the first key. *)
Example demo_cache_resolve :
  (resolve demo_cache demo_fetch 1000 ["old"; "hot"]).2 = [("hot", ["y"]); ("old", ["old"])] /\
  (ac_cache (resolve demo_cache demo_fetch 1000 ["hot"; "new"]).1).*1 = ["hot"; "new"].
Proof. vm_compute. done. Qed.

Lemma alt_resolve_spec_witness :
  altcache_wf demo_cache /\
  jm_get "old" (resolve demo_cache demo_fetch 1000 ["hot"; "old"]).2 = Some ["old"].
Proof.
  split; [exact demo_cache_wf|].
  refine (eq_trans (proj2 (alt_resolve_spec demo_cache demo_fetch 1000 ["hot"; "old"] demo_cache_wf _)
            "old" _) _).
  - intros asked fetched [= <-]. unfold jm_wf. rewrite <- list_fmap_compose.
    rewrite (list_fmap_id (remove_dups asked)). split; [apply NoDup_remove_dups|].
    intros a. by rewrite elem_of_remove_dups.
  - set_solver.
  - vm_compute. reflexivity.
Defined.
