(* ===== verification/Pdas.v ===== *)
(** * Program-derived addresses ([sdk/kit/src/resolve-accounts.ts], [tokens.ts])

    The seeds of every account the SDK derives. [getProgramDerivedAddress] hashes the
    concatenation of its seeds, so two accounts alias when their concatenated seeds
    agree; the theorem at the end says that no two derivations of the SDK do. *)

From S2P Require Import Prelude Types Accounts Bytes.
Local Open Scope string_scope.
Local Open Scope Z_scope.
Local Open Scope list_scope.

(** ** External code: the address codec and the derivation *)
Class PdaEnv := {
  encodeAddress : Address -> bytes;
  getProgramDerivedAddress : Address -> list bytes -> Address * Z;
}.

(** Documented behaviour of the base58 codec: 32 bytes, one address each. *)
Class PdaLaws (env : PdaEnv) := {
  encodeAddress_length a : length (encodeAddress a) = 32%nat;
  encodeAddress_inj a b : encodeAddress a = encodeAddress b -> a = b;
}.

(** [SIGIL_PROGRAM_ADDRESS] of the generated program client. *)
Definition SIGIL_PROGRAM_ID : Address := "4ZeVCqnjUgUtFrHHPG7jELUxvJeoVGHhGNgPrhBPwrHL".

(** ** Seeds *)
Definition seedString (s : string) : bytes :=
  (fun c => Z.of_nat (Ascii.nat_of_ascii c)) <$> String.list_ascii_of_string s.

(** [DataView.setBigUint64] wraps modulo [2^64]. *)
Definition seedU64Le (value : Z) : bytes := le_bytes 8 (value mod 2 ^ 64).

(** A [Uint8Array] element is taken modulo [2^8]. *)
Definition seedU8 (value : Z) : bytes := [value mod 256].

Module Pda.
Section pdas.
Context `{env : PdaEnv}.

Definition seedAddress (addr : Address) : bytes := encodeAddress addr.

Definition getVaultPDA (owner : Address) (vaultId : Z) (programAddress : Address) : Address * Z :=
  getProgramDerivedAddress programAddress
    [seedString "vault"; seedAddress owner; seedU64Le vaultId].

Definition getPolicyPDA (vault programAddress : Address) : Address * Z :=
  getProgramDerivedAddress programAddress [seedString "policy"; seedAddress vault].

Definition getTrackerPDA (vault programAddress : Address) : Address * Z :=
  getProgramDerivedAddress programAddress [seedString "tracker"; seedAddress vault].

Definition getSessionPDA (vault agent tokenMint programAddress : Address) : Address * Z :=
  getProgramDerivedAddress programAddress
    [seedString "session"; seedAddress vault; seedAddress agent; seedAddress tokenMint].

Definition getPendingPolicyPDA (vault programAddress : Address) : Address * Z :=
  getProgramDerivedAddress programAddress [seedString "pending_policy"; seedAddress vault].

Definition getEscrowPDA (sourceVault destinationVault : Address) (escrowId : Z)
    (programAddress : Address) : Address * Z :=
  getProgramDerivedAddress programAddress
    [seedString "escrow"; seedAddress sourceVault; seedAddress destinationVault;
     seedU64Le escrowId].

Definition getAgentOverlayPDA (vault : Address) (shardIndex : Z) (programAddress : Address)
    : Address * Z :=
  getProgramDerivedAddress programAddress
    [seedString "agent_spend"; seedAddress vault; seedU8 shardIndex].

Definition getConstraintsPDA (vault programAddress : Address) : Address * Z :=
  getProgramDerivedAddress programAddress [seedString "constraints"; seedAddress vault].

Definition getPendingConstraintsPDA (vault programAddress : Address) : Address * Z :=
  getProgramDerivedAddress programAddress [seedString "pending_constraints"; seedAddress vault].

Definition getPendingCloseConstraintsPDA (vault programAddress : Address) : Address * Z :=
  getProgramDerivedAddress programAddress
    [seedString "pending_close_constraints"; seedAddress vault].

Record ResolvedAccounts := mkResolvedAccounts {
  ra_vault : Address;
  policyPda : Address;
  trackerPda : Address;
  sessionPda : Address;
  constraintsPda : option Address;
}.

Definition resolveAccounts (vault agent tokenMint : Address) (hasConstraints : bool)
    (programAddress : Address) : ResolvedAccounts :=
  {| ra_vault := vault;
     policyPda := (getPolicyPDA vault programAddress).1;
     trackerPda := (getTrackerPDA vault programAddress).1;
     sessionPda := (getSessionPDA vault agent tokenMint programAddress).1;
     constraintsPda :=
       if hasConstraints then Some (getConstraintsPDA vault programAddress).1 else None |}.

(** [tokens.ts]: always the classic Token program, whatever the mint's program. *)
Definition deriveAta (owner mint : Address) : Address :=
  (getProgramDerivedAddress ATA_PROGRAM_ADDRESS
     [encodeAddress owner; encodeAddress TOKEN_PROGRAM_ADDRESS; encodeAddress mint]).1.
End pdas.
End Pda.

(** ** The accounts of the program, as data *)
Inductive pda_kind :=
  | KVault (owner : Address) (vaultId : Z)
  | KPolicy (vault : Address)
  | KTracker (vault : Address)
  | KSession (vault agent tokenMint : Address)
  | KPendingPolicy (vault : Address)
  | KEscrow (sourceVault destinationVault : Address) (escrowId : Z)
  | KAgentOverlay (vault : Address) (shardIndex : Z)
  | KConstraints (vault : Address)
  | KPendingConstraints (vault : Address)
  | KPendingCloseConstraints (vault : Address).

(** The numbers of a kind are in the range of their on-chain type. *)
Definition kind_in_range (k : pda_kind) : Prop :=
  match k with
  | KVault _ n | KEscrow _ _ n => is_u64 n
  | KAgentOverlay _ n => 0 <= n < 256
  | _ => True
  end.

Section seeds.
Context `{env : PdaEnv} `{laws : !PdaLaws env}.

Definition pda_prefix (k : pda_kind) : string :=
  match k with
  | KVault _ _ => "vault"
  | KPolicy _ => "policy"
  | KTracker _ => "tracker"
  | KSession _ _ _ => "session"
  | KPendingPolicy _ => "pending_policy"
  | KEscrow _ _ _ => "escrow"
  | KAgentOverlay _ _ => "agent_spend"
  | KConstraints _ => "constraints"
  | KPendingConstraints _ => "pending_constraints"
  | KPendingCloseConstraints _ => "pending_close_constraints"
  end.

Definition pda_args (k : pda_kind) : list bytes :=
  match k with
  | KVault o i => [encodeAddress o; seedU64Le i]
  | KSession v a m => [encodeAddress v; encodeAddress a; encodeAddress m]
  | KEscrow s d i => [encodeAddress s; encodeAddress d; seedU64Le i]
  | KAgentOverlay v i => [encodeAddress v; seedU8 i]
  | KPolicy v | KTracker v | KPendingPolicy v | KConstraints v
  | KPendingConstraints v | KPendingCloseConstraints v => [encodeAddress v]
  end.

Definition pda_seeds (k : pda_kind) : list bytes := seedString (pda_prefix k) :: pda_args k.

Definition derive (k : pda_kind) (programAddress : Address) : Address * Z :=
  match k with
  | KVault o i => Pda.getVaultPDA o i programAddress
  | KPolicy v => Pda.getPolicyPDA v programAddress
  | KTracker v => Pda.getTrackerPDA v programAddress
  | KSession v a m => Pda.getSessionPDA v a m programAddress
  | KPendingPolicy v => Pda.getPendingPolicyPDA v programAddress
  | KEscrow s d i => Pda.getEscrowPDA s d i programAddress
  | KAgentOverlay v i => Pda.getAgentOverlayPDA v i programAddress
  | KConstraints v => Pda.getConstraintsPDA v programAddress
  | KPendingConstraints v => Pda.getPendingConstraintsPDA v programAddress
  | KPendingCloseConstraints v => Pda.getPendingCloseConstraintsPDA v programAddress
  end.

Lemma seedU64Le_inj a b : is_u64 a -> is_u64 b -> seedU64Le a = seedU64Le b -> a = b.
Proof.
  unfold seedU64Le, is_u64, U64_MAX. intros Ha Hb H.
  change (2 ^ 64) with 18446744073709551616 in H. rewrite !Z.mod_small in H by lia.
  pose proof (read_u64_le_roundtrip a [] []) as Ra. pose proof (read_u64_le_roundtrip b [] []) as Rb.
  rewrite H in Ra. unfold is_u64, U64_MAX in *. rewrite Rb in Ra by lia. symmetry. apply Ra. lia.
Qed.

Lemma length_seedU64Le v : length (seedU64Le v) = 8%nat.
Proof. apply length_le_bytes. Qed.

Lemma encodeAddress_app_inj a b l l' :
  encodeAddress a ++ l = encodeAddress b ++ l' -> a = b /\ l = l'.
Proof.
  intros H. apply app_inj_1 in H as [H ->]; [|by rewrite !encodeAddress_length].
  split; [by apply encodeAddress_inj|done].
Qed.

Lemma derive_seeds k p : derive k p = getProgramDerivedAddress p (pda_seeds k).
Proof. by destruct k. Qed.

(** The ten derivations hash inputs of ten different lengths. *)
Lemma pda_seeds_length k :
  length (concat (pda_seeds k)) =
  match k with
  | KVault _ _ => 45 | KPolicy _ => 38 | KTracker _ => 39 | KSession _ _ _ => 103
  | KPendingPolicy _ => 46 | KEscrow _ _ _ => 78 | KAgentOverlay _ _ => 44
  | KConstraints _ => 43 | KPendingConstraints _ => 51 | KPendingCloseConstraints _ => 57
  end%nat.
Proof.
  destruct k; unfold pda_seeds, pda_args; cbn [concat];
    rewrite ?length_app, ?encodeAddress_length, ?length_seedU64Le; reflexivity.
Qed.

Lemma pda_seeds_inj k1 k2 :
  kind_in_range k1 -> kind_in_range k2 -> concat (pda_seeds k1) = concat (pda_seeds k2) -> k1 = k2.
Proof.
  intros H1 H2 H. pose proof (f_equal length H) as Hlen. rewrite !pda_seeds_length in Hlen.
  destruct k1, k2; try discriminate Hlen; clear Hlen; unfold pda_seeds in H;
    cbn [pda_prefix pda_args concat] in H; apply app_inv_head in H;
    repeat (apply encodeAddress_app_inj in H as [-> H]); try done.
  - rewrite !app_nil_r in H. by apply seedU64Le_inj in H as ->.
  - rewrite !app_nil_r in H. by apply seedU64Le_inj in H as ->.
  - simpl in *. unfold seedU8 in H. rewrite !Z.mod_small in H by lia. by simplify_eq.
Qed.

(** The derivation is a collision-resistant hash of the concatenated seeds. *)
Definition collision_free : Prop :=
  forall p s1 s2, (getProgramDerivedAddress p s1).1 = (getProgramDerivedAddress p s2).1 ->
    concat s1 = concat s2.

(** C36: no two accounts the SDK derives under the program share an address: a derived
    address determines which of the ten kinds of account it is and every address and
    number it was derived from, so a session, a policy or a constraints account can
    never stand for another vault's, another agent's or another kind's. *)
Theorem pda_no_alias k1 k2 p :
  collision_free -> kind_in_range k1 -> kind_in_range k2 ->
  (derive k1 p).1 = (derive k2 p).1 -> k1 = k2.
Proof.
  intros Hcf H1 H2 H. rewrite !derive_seeds in H. apply pda_seeds_inj; [done..|]. by apply (Hcf p).
Qed.
End seeds.

(** A collision-free derivation to instantiate the hypotheses with. *)
Definition demo_pda_env : PdaEnv := {|
  encodeAddress a := Z.pos (encode a) :: replicate 31 0;
  getProgramDerivedAddress p s := (pretty (N.pos (encode (p, concat s))), 255) |}.

Lemma demo_pda_laws : PdaLaws demo_pda_env.
Proof. split; [done|]. intros a b [= H]. by apply (inj encode) in H. Qed.

Lemma demo_collision_free : @collision_free demo_pda_env.
Proof.
  intros p s1 s2 H. simpl in H. apply (inj pretty) in H. apply (inj N.pos) in H.
  apply (inj encode) in H. congruence.
Qed.

(** The pending and the live policy account of one vault differ, and so do the sessions
    of two agents. *)
Lemma pda_no_alias_witness :
  (@derive demo_pda_env (KPolicy "v") SIGIL_PROGRAM_ID).1
    <> (@derive demo_pda_env (KPendingPolicy "v") SIGIL_PROGRAM_ID).1 /\
  (@derive demo_pda_env (KSession "v" "a" "m") SIGIL_PROGRAM_ID).1
    <> (@derive demo_pda_env (KSession "v" "b" "m") SIGIL_PROGRAM_ID).1.
Proof.
  split; intros H.
  - discriminate (@pda_no_alias demo_pda_env demo_pda_laws (KPolicy "v") (KPendingPolicy "v")
      SIGIL_PROGRAM_ID demo_collision_free I I H).
  - discriminate (@pda_no_alias demo_pda_env demo_pda_laws (KSession "v" "a" "m")
      (KSession "v" "b" "m") SIGIL_PROGRAM_ID demo_collision_free I I H).
Defined.
