(* ===== verification/OwnerChain.v ===== *)
(** * The owner's instructions on chain ([programs/sigil/src/instructions])

    The handlers behind the owner's side of the SDK: creating a vault, its agents, the
    two-step policy and permission changes, freezing. Each is the whole handler after account
    validation (the signer is the vault's owner, the accounts are the vault's); a failed
    [require!] is the variant's name. [OwnerSpec] proves the state machine they form; the
    event log, rent and account creation are not modelled. *)

From S2P Require Import Prelude Types Accounts OnChain Pdas.
Local Open Scope string_scope.
Local Open Scope Z_scope.
Local Open Scope list_scope.

(** ** Constants ([state/mod.rs], [state/policy.rs]) *)
Definition MAX_ALLOWED_DESTINATIONS : Z := 10.
Definition MAX_SLIPPAGE_BPS : Z := 5000.
Definition MIN_TIMELOCK_DURATION : Z := 1800.
Definition MAX_APPLY_AGE_SLOTS : Z := 216000.
Definition MIN_SESSION_DURATION_SECONDS : Z := 5.
Definition MAX_OWNER_SESSION_DURATION_SECONDS : Z := 90.
Definition DESTINATION_MODE_RESTRICTED : Z := 0.
Definition DESTINATION_MODE_OPEN_WITH_CAP : Z := 1.

(** [Clock]: unix time and slot. *)
Record Clock := mkClock { unix_timestamp : Z; slot : Z }.

Definition require (c : bool) (e : string) : res string unit := throw_if (negb c) e.

(** [Pubkey::default()]. *)
Definition default_pubkey : Address := SYSTEM_PROGRAM_ADDRESS.

(** [timelock as i64] wraps; [checked_add] on [i64]. *)
Definition as_i64 (z : Z) : Z := if z >=? 2 ^ 63 then z - 2 ^ 64 else z.
Definition checked_add_i64 (a b : Z) : res string Z :=
  if (I64_MIN <=? a + b) && (a + b <=? I64_MAX) then Ok (a + b) else Throw "Overflow".

Definition len {A} (l : list A) : Z := Z.of_nat (length l).

(** ** [initialize_vault] *)
Record InitArgs := mkInitArgs {
  ia_vaultId : Z;
  ia_dailySpendingCapUsd : Z;
  ia_maxTransactionSizeUsd : Z;
  ia_protocolMode : Z;
  ia_protocols : list Address;
  ia_developerFeeRate : Z;
  ia_maxSlippageBps : Z;
  ia_timelockDuration : Z;
  ia_allowedDestinations : list Address;
  ia_protocolCaps : list Z;
}.

Definition init_checks (feeDestination : Address) (a : InitArgs) : res string unit :=
  require (ia_protocolMode a <=? PROTOCOL_MODE_DENYLIST) "InvalidProtocolMode" ;;
  require (len (ia_protocols a) <=? MAX_ALLOWED_PROTOCOLS) "TooManyAllowedProtocols" ;;
  require (ia_developerFeeRate a <=? MAX_DEVELOPER_FEE_RATE) "DeveloperFeeTooHigh" ;;
  require (ia_maxSlippageBps a <=? MAX_SLIPPAGE_BPS) "SlippageBpsTooHigh" ;;
  require (negb (bool_decide (feeDestination = default_pubkey))) "InvalidFeeDestination" ;;
  require (len (ia_allowedDestinations a) <=? MAX_ALLOWED_DESTINATIONS) "TooManyDestinations" ;;
  require (MIN_TIMELOCK_DURATION <=? ia_timelockDuration a) "TimelockTooShort" ;;
  if negb (bool_decide (ia_protocolCaps a = [])) then
    require (ia_protocolMode a =? PROTOCOL_MODE_ALLOWLIST) "ProtocolCapsMismatch" ;;
    require (len (ia_protocolCaps a) =? len (ia_protocols a)) "ProtocolCapsMismatch"
  else Ok tt.

(** The bumps are found by the runtime. *)
Definition initialize_vault (c : Clock) (owner vault feeDestination : Address) (vaultBump policyBump : Z)
    (a : InitArgs) : res string (AgentVault * PolicyConfig) :=
  init_checks feeDestination a ;;
  Ok ({| owner := owner; vaultId := ia_vaultId a; agents := [];
         feeDestination := feeDestination; vault_status := Active; av_bump := vaultBump;
         createdAt := unix_timestamp c; totalTransactions := 0; totalVolume := 0;
         activeEscrowCount := 0; totalFeesCollected := 0; totalDepositedUsd := 0;
         totalWithdrawnUsd := 0; totalFailedTransactions := 0; activeSessions := 0 |},
      {| dailySpendingCapUsd := ia_dailySpendingCapUsd a;
         maxTransactionSizeUsd := ia_maxTransactionSizeUsd a;
         protocolMode := ia_protocolMode a; protocols := ia_protocols a;
         developerFeeRate := ia_developerFeeRate a; maxSlippageBps := ia_maxSlippageBps a;
         timelockDuration := ia_timelockDuration a; hasConstraints := false;
         hasProtocolCaps := negb (bool_decide (ia_protocolCaps a = []));
         protocolCaps := ia_protocolCaps a; policyVersion := 0; pc_vault := vault;
         allowedDestinations := ia_allowedDestinations a; hasPendingPolicy := false;
         sessionExpirySeconds := 0; pc_bump := policyBump; hasPostAssertions := 0;
         destinationMode := DESTINATION_MODE_RESTRICTED |}).

(** ** Agents *)
Definition with_agents (v : AgentVault) (l : list AgentEntry) : AgentVault :=
  mkVault (owner v) (vaultId v) l (feeDestination v) (vault_status v) (av_bump v) (createdAt v)
    (totalTransactions v) (totalVolume v) (activeEscrowCount v) (totalFeesCollected v)
    (totalDepositedUsd v) (totalWithdrawnUsd v) (totalFailedTransactions v) (activeSessions v).

Definition with_status (v : AgentVault) (s : VaultStatus) : AgentVault :=
  mkVault (owner v) (vaultId v) (agents v) (feeDestination v) s (av_bump v) (createdAt v)
    (totalTransactions v) (totalVolume v) (activeEscrowCount v) (totalFeesCollected v)
    (totalDepositedUsd v) (totalWithdrawnUsd v) (totalFailedTransactions v) (activeSessions v).

Definition is_agent (v : AgentVault) (a : Address) : bool :=
  existsb (fun e => bool_decide (pubkey e = a)) (agents v).

(** [iter_mut().find(..)] and the assignment to the entry found. *)
Fixpoint update_agent (a : Address) (f : AgentEntry -> res string AgentEntry) (l : list AgentEntry)
    : res string (list AgentEntry) :=
  match l with
  | [] => Throw "UnauthorizedAgent"
  | e :: l' =>
      if bool_decide (pubkey e = a) then e' ← f e; Ok (e' :: l')
      else l'' ← update_agent a f l'; Ok (e :: l'')
  end.

Section overlay.
Context `{env : PdaEnv}.

(** [AgentSpendOverlay]: an empty slot has the zero key. *)
Definition find_agent_slot (o : AgentSpendOverlay) (a : Address) : option nat :=
  fst <$> list_find (fun e => ace_agent e = encodeAddress a) (ov_entries o).

Definition claim_slot (o : AgentSpendOverlay) (a : Address) : option AgentSpendOverlay :=
  r ← list_find (fun e => ace_agent e = empty_bytes) (ov_entries o);
  Some (mkOverlay (<[r.1 := mkContribution (encodeAddress a) (ace_lastWriteEpoch r.2) (contributions r.2)]>
                     (ov_entries o)) (ov_lifetimeSpend o) (ov_lifetimeTxCount o)).

Definition release_slot (o : AgentSpendOverlay) (i : nat) : AgentSpendOverlay :=
  if Z.of_nat i >=? MAX_OVERLAY_ENTRIES then o
  else mkOverlay (<[i := mkContribution empty_bytes 0 (replicate 24 0)]> (ov_entries o))
         (<[i := 0]> (ov_lifetimeSpend o)) (<[i := 0]> (ov_lifetimeTxCount o)).

Definition register_agent (v : AgentVault) (o : AgentSpendOverlay) (agent : Address)
    (capability spending_limit_usd : Z) : res string (AgentVault * AgentSpendOverlay) :=
  require (negb (bool_decide (vault_status v = Closed))) "VaultAlreadyClosed" ;;
  require (capability <=? FULL_CAPABILITY) "InvalidPermissions" ;;
  require (negb (is_agent v agent)) "AgentAlreadyRegistered" ;;
  require (len (agents v) <? MAX_AGENTS_PER_VAULT) "MaxAgentsReached" ;;
  require (negb (bool_decide (agent = default_pubkey))) "InvalidAgentKey" ;;
  require (negb (bool_decide (agent = owner v))) "AgentIsOwner" ;;
  let v' := with_agents v (agents v ++ [mkAgent agent capability spending_limit_usd false]) in
  match find_agent_slot o agent with
  | Some _ => Ok (v', o)
  | None =>
      match claim_slot o agent with
      | Some o' => Ok (v', o')
      | None => require (negb (spending_limit_usd >? 0)) "OverlaySlotExhausted" ;; Ok (v', o)
      end
  end.

Definition revoke_agent (v : AgentVault) (o : AgentSpendOverlay) (agent : Address)
    : res string (AgentVault * AgentSpendOverlay) :=
  require (negb (bool_decide (vault_status v = Closed))) "VaultAlreadyClosed" ;;
  require (is_agent v agent) "UnauthorizedAgent" ;;
  let o' := match find_agent_slot o agent with Some i => release_slot o i | None => o end in
  let rest := filter (fun e => pubkey e <> agent) (agents v) in
  let v' := with_agents v rest in
  Ok (if bool_decide (rest = []) then with_status v' Frozen else v', o').
End overlay.

Definition pause_agent (v : AgentVault) (agent : Address) : res string AgentVault :=
  require (negb (bool_decide (vault_status v = Closed))) "VaultAlreadyClosed" ;;
  l ← update_agent agent (fun e =>
        require (negb (agent_paused e)) "AgentAlreadyPaused" ;;
        Ok (mkAgent (pubkey e) (agent_capability e) (spendingLimitUsd e) true)) (agents v);
  Ok (with_agents v l).

Definition unpause_agent (v : AgentVault) (agent : Address) : res string AgentVault :=
  require (negb (bool_decide (vault_status v = Closed))) "VaultAlreadyClosed" ;;
  l ← update_agent agent (fun e =>
        require (agent_paused e) "AgentNotPaused" ;;
        Ok (mkAgent (pubkey e) (agent_capability e) (spendingLimitUsd e) false)) (agents v);
  Ok (with_agents v l).

(** ** Freezing

    The remaining accounts come in pairs of a session and a token account. What the handler
    reads of a pair is whether every one of its seven checks passes ([None]: one fails). *)
Definition freeze_vault (v : AgentVault) (remaining : list (option Address))
    : res string (AgentVault * list Address) :=
  require (bool_decide (vault_status v = Active)) "VaultNotActive" ;;
  Ok (with_status v Frozen, omap id remaining).

Definition reactivate_vault (v : AgentVault) (new_agent : option Address)
    (new_agent_capability : option Z) : res string AgentVault :=
  require (bool_decide (vault_status v = Frozen)) "VaultNotFrozen" ;;
  require (bool_decide (is_Some new_agent <-> is_Some new_agent_capability)) "InvalidPermissions" ;;
  v' ← match new_agent, new_agent_capability with
       | Some agent_key, Some capability =>
           require (negb (bool_decide (agent_key = default_pubkey))) "InvalidAgentKey" ;;
           require (negb (bool_decide (agent_key = owner v))) "AgentIsOwner" ;;
           require (capability <=? FULL_CAPABILITY) "InvalidPermissions" ;;
           require (len (agents v) <? MAX_AGENTS_PER_VAULT) "MaxAgentsReached" ;;
           require (negb (is_agent v agent_key)) "AgentAlreadyRegistered" ;;
           Ok (with_agents v (agents v ++ [mkAgent agent_key capability 0 false]))
       | _, _ => Ok v
       end;
  require (negb (bool_decide (agents v' = []))) "NoAgentRegistered" ;;
  Ok (with_status v' Active).

(** ** Policy changes *)
Record PolicyUpdate := mkUpdate {
  pu_dailySpendingCapUsd : option Z;
  pu_maxTransactionAmountUsd : option Z;
  pu_protocolMode : option Z;
  pu_protocols : option (list Address);
  pu_developerFeeRate : option Z;
  pu_maxSlippageBps : option Z;
  pu_timelockDuration : option Z;
  pu_allowedDestinations : option (list Address);
  pu_sessionExpirySeconds : option Z;
  pu_hasProtocolCaps : option bool;
  pu_protocolCaps : option (list Z);
  pu_destinationMode : option Z;
}.

#[export] Instance PolicyUpdate_eq_dec : EqDecision PolicyUpdate.
Proof. solve_decision. Defined.

Definition if_some {A} (o : option A) (f : A -> res string unit) : res string unit :=
  match o with Some x => f x | None => Ok tt end.

Definition queue_checks (policy : PolicyConfig) (u : PolicyUpdate) : res string unit :=
  require (timelockDuration policy >? 0) "NoTimelockConfigured" ;;
  if_some (pu_protocolMode u) (fun m => require (m <=? PROTOCOL_MODE_DENYLIST) "InvalidProtocolMode") ;;
  if_some (pu_destinationMode u)
    (fun m => require (m <=? DESTINATION_MODE_OPEN_WITH_CAP) "InvalidDestinationMode") ;;
  if_some (pu_protocols u) (fun l => require (len l <=? MAX_ALLOWED_PROTOCOLS) "TooManyAllowedProtocols") ;;
  if_some (pu_developerFeeRate u)
    (fun r => require (r <=? MAX_DEVELOPER_FEE_RATE) "DeveloperFeeTooHigh") ;;
  if_some (pu_maxSlippageBps u) (fun s => require (s <=? MAX_SLIPPAGE_BPS) "SlippageBpsTooHigh") ;;
  if_some (pu_allowedDestinations u)
    (fun l => require (len l <=? MAX_ALLOWED_DESTINATIONS) "TooManyDestinations") ;;
  if_some (pu_timelockDuration u) (fun t => require (MIN_TIMELOCK_DURATION <=? t) "TimelockTooShort") ;;
  if_some (pu_sessionExpirySeconds u) (fun e =>
    if e >? 0 then
      require ((MIN_SESSION_DURATION_SECONDS <=? e) && (e <=? MAX_OWNER_SESSION_DURATION_SECONDS))
        "InvalidSessionExpiry"
    else Ok tt) ;;
  if default (hasProtocolCaps policy) (pu_hasProtocolCaps u) then
    require (default (protocolMode policy) (pu_protocolMode u) =? PROTOCOL_MODE_ALLOWLIST)
      "ProtocolCapsMismatch" ;;
    require (len (default (protocolCaps policy) (pu_protocolCaps u))
             =? len (default (protocols policy) (pu_protocols u))) "ProtocolCapsMismatch"
  else Ok tt.

Definition with_pending (p : PolicyConfig) (pending : bool) (version : Z) : PolicyConfig :=
  mkPolicy (dailySpendingCapUsd p) (maxTransactionSizeUsd p) (protocolMode p) (protocols p)
    (developerFeeRate p) (maxSlippageBps p) (timelockDuration p) (hasConstraints p)
    (hasProtocolCaps p) (protocolCaps p) version (pc_vault p) (allowedDestinations p) pending
    (sessionExpirySeconds p) (pc_bump p) (hasPostAssertions p) (destinationMode p).

(** The pending account is created, so there is none yet; a second queue fails in the runtime. *)
Definition queue_policy_update (c : Clock) (v : AgentVault) (policy : PolicyConfig) (vault : Address)
    (bump : Z) (u : PolicyUpdate) : res string (PolicyConfig * PendingPolicyUpdate) :=
  require (negb (bool_decide (vault_status v = Closed))) "VaultAlreadyClosed" ;;
  queue_checks policy u ;;
  executes_at ← checked_add_i64 (unix_timestamp c) (as_i64 (timelockDuration policy));
  Ok (with_pending policy true (policyVersion policy),
      {| pp_vault := vault; queuedAt := unix_timestamp c; executesAt := executes_at;
         queuedAtSlot := slot c; pp_dailySpendingCapUsd := pu_dailySpendingCapUsd u;
         pp_maxTransactionAmountUsd := pu_maxTransactionAmountUsd u;
         pp_protocolMode := pu_protocolMode u; pp_protocols := pu_protocols u;
         pp_developerFeeRate := pu_developerFeeRate u; pp_maxSlippageBps := pu_maxSlippageBps u;
         pp_timelockDuration := pu_timelockDuration u;
         pp_allowedDestinations := pu_allowedDestinations u;
         pp_sessionExpirySeconds := pu_sessionExpirySeconds u;
         pp_hasProtocolCaps := pu_hasProtocolCaps u; pp_protocolCaps := pu_protocolCaps u;
         pp_destinationMode := pu_destinationMode u; pp_bump := bump |}).

(** [saturating_sub] on [u64]. *)
Definition fresh_slot (c : Clock) (queued_at_slot : Z) : bool :=
  Z.max 0 (slot c - queued_at_slot) <? MAX_APPLY_AGE_SLOTS.

Definition apply_pending_policy (c : Clock) (policy : PolicyConfig) (p : PendingPolicyUpdate)
    : res string PolicyConfig :=
  require (executesAt p <=? unix_timestamp c) "TimelockNotExpired" ;;
  require (fresh_slot c (queuedAtSlot p)) "QueuedUpdateExpired" ;;
  if_some (pp_timelockDuration p) (fun t => require (MIN_TIMELOCK_DURATION <=? t) "TimelockTooShort") ;;
  if_some (pp_destinationMode p)
    (fun m => require (m <=? DESTINATION_MODE_OPEN_WITH_CAP) "InvalidDestinationMode") ;;
  require (policyVersion policy + 1 <=? U64_MAX) "Overflow" ;;
  Ok {| dailySpendingCapUsd := default (dailySpendingCapUsd policy) (pp_dailySpendingCapUsd p);
        maxTransactionSizeUsd := default (maxTransactionSizeUsd policy) (pp_maxTransactionAmountUsd p);
        protocolMode := default (protocolMode policy) (pp_protocolMode p);
        protocols := default (protocols policy) (pp_protocols p);
        developerFeeRate := default (developerFeeRate policy) (pp_developerFeeRate p);
        maxSlippageBps := default (maxSlippageBps policy) (pp_maxSlippageBps p);
        timelockDuration := default (timelockDuration policy) (pp_timelockDuration p);
        hasConstraints := hasConstraints policy;
        hasProtocolCaps := default (hasProtocolCaps policy) (pp_hasProtocolCaps p);
        protocolCaps := default (protocolCaps policy) (pp_protocolCaps p);
        policyVersion := policyVersion policy + 1; pc_vault := pc_vault policy;
        allowedDestinations := default (allowedDestinations policy) (pp_allowedDestinations p);
        hasPendingPolicy := false;
        sessionExpirySeconds := default (sessionExpirySeconds policy) (pp_sessionExpirySeconds p);
        pc_bump := pc_bump policy; hasPostAssertions := hasPostAssertions policy;
        destinationMode := default (destinationMode policy) (pp_destinationMode p) |}.

Definition cancel_pending_policy (policy : PolicyConfig) : PolicyConfig :=
  with_pending policy false (policyVersion policy).

(** ** Permission changes *)
Record PendingPerms := mkPerms {
  pa_agent : Address;
  pa_newCapability : Z;
  pa_spendingLimitUsd : Z;
  pa_queuedAt : Z;
  pa_executesAt : Z;
  pa_queuedAtSlot : Z;
}.

Definition queue_agent_permissions_update (c : Clock) (v : AgentVault) (policy : PolicyConfig)
    (agent : Address) (new_capability spending_limit_usd : Z) : res string PendingPerms :=
  require (negb (bool_decide (vault_status v = Closed))) "VaultAlreadyClosed" ;;
  require (timelockDuration policy >? 0) "NoTimelockConfigured" ;;
  require (is_agent v agent) "UnauthorizedAgent" ;;
  require (new_capability <=? FULL_CAPABILITY) "InvalidPermissions" ;;
  executes_at ← checked_add_i64 (unix_timestamp c) (as_i64 (timelockDuration policy));
  Ok (mkPerms agent new_capability spending_limit_usd (unix_timestamp c) executes_at (slot c)).

Section apply_perms.
Context `{env : PdaEnv}.

Definition slot_of_limit (o : AgentSpendOverlay) (agent : Address) (limit old_limit : Z)
    : res string AgentSpendOverlay :=
  match find_agent_slot o agent with
  | None =>
      if limit >? 0 then
        match claim_slot o agent with Some o' => Ok o' | None => Throw "OverlaySlotExhausted" end
      else Ok o
  | Some i => if (limit =? 0) && (old_limit >? 0) then Ok (release_slot o i) else Ok o
  end.

Definition apply_agent_permissions_update (c : Clock) (v : AgentVault) (policy : PolicyConfig)
    (o : AgentSpendOverlay) (p : PendingPerms)
    : res string (AgentVault * PolicyConfig * AgentSpendOverlay) :=
  require (pa_executesAt p <=? unix_timestamp c) "TimelockNotExpired" ;;
  require (fresh_slot c (pa_queuedAtSlot p)) "QueuedUpdateExpired" ;;
  l ← update_agent (pa_agent p) (fun e =>
        Ok (mkAgent (pubkey e) (pa_newCapability p) (pa_spendingLimitUsd p) (agent_paused e))) (agents v);
  let old_limit := match find_by (fun e => bool_decide (pubkey e = pa_agent p)) (agents v) with
                   | Some e => spendingLimitUsd e | None => 0 end in
  o' ← slot_of_limit o (pa_agent p) (pa_spendingLimitUsd p) old_limit;
  require (policyVersion policy + 1 <=? U64_MAX) "Overflow" ;;
  Ok (with_agents v l, with_pending policy (hasPendingPolicy policy) (policyVersion policy + 1), o').
End apply_perms.

(** ** [close_vault]

    [lamports]: the balance of each account. A drained account is given to the system program and
    disappears; that, and Anchor's [close = owner] of the vault's four accounts, is the runtime's. *)
Section close.
Context `{env : PdaEnv}.

Definition drain (lamports : Address -> Z) (owner_info pending_info : Address) : res string (Address -> Z) :=
  require (lamports owner_info + lamports pending_info <=? U64_MAX) "Overflow" ;;
  Ok (fun a => if bool_decide (a = pending_info) then 0
               else if bool_decide (a = owner_info) then lamports owner_info + lamports pending_info
               else lamports a).

(** The search of the remaining accounts, up to the [break]. *)
Fixpoint drain_found (lamports : Address -> Z) (owner_info expected_pda : Address) (infos : list Address)
    : res string (Address -> Z) :=
  match infos with
  | [] => Ok lamports
  | info :: infos' =>
      if bool_decide (info = expected_pda) && (lamports info >? 0) then drain lamports owner_info info
      else drain_found lamports owner_info expected_pda infos'
  end.

Fixpoint drain_each (lamports : Address -> Z) (owner_info : Address) (pdas infos : list Address)
    : res string (Address -> Z) :=
  match pdas with
  | [] => Ok lamports
  | pda :: pdas' =>
      lamports' ← drain_found lamports owner_info pda infos;
      drain_each lamports' owner_info pdas' infos
  end.

Definition program_pda (seeds : list bytes) : Address := (getProgramDerivedAddress SIGIL_PROGRAM_ID seeds).1.

Definition close_vault (owner_info vault_key : Address) (v : AgentVault) (policy : PolicyConfig)
    (remaining_accounts : list Address) (lamports : Address -> Z) : res string (Address -> Z) :=
  require (negb (bool_decide (vault_status v = Closed))) "VaultAlreadyClosed" ;;
  require (activeEscrowCount v =? 0) "ActiveEscrowsExist" ;;
  require (activeSessions v =? 0) "ActiveSessionsExist" ;;
  require (negb (hasConstraints policy)) "ConstraintsNotClosed" ;;
  lamports1 ←
    (if hasPendingPolicy policy then
       match remaining_accounts with
       | [] => Throw "PendingPolicyExists"
       | pending_info :: _ =>
           require (bool_decide (pending_info
                      = program_pda [seedString "pending_policy"; encodeAddress vault_key])
                    && (lamports pending_info >? 0)) "PendingPolicyExists" ;;
           drain lamports owner_info pending_info
       end
     else Ok lamports);
  let start_idx := if hasPendingPolicy policy then 1%nat else 0%nat in
  let infos := drop start_idx remaining_accounts in
  lamports2 ←
    drain_each lamports1 owner_info
      ((fun agent_entry => program_pda [seedString "pending_agent_perms"; encodeAddress vault_key;
                                        encodeAddress (pubkey agent_entry)]) <$> agents v) infos;
  drain_found lamports2 owner_info
    (program_pda [seedString "pending_close_constraints"; encodeAddress vault_key]) infos.
End close.
