(* ===== verification/Composer.v ===== *)
(** * Transaction composition ([sdk/kit/src/composer.ts], [priority-fees.ts],
    [protocol-resolver.ts])

    Instructions with account roles, the compute-unit estimate, the composed message
    and its size, and the protocol allowlist. The compute-budget instruction builders,
    the lookup-table compression, the compiler and the wire encoder belong to the
    Solana libraries: they are the fields of [TxLib], with their documented behaviour
    in [TxLibLaws]. *)

From Stdlib Require Import QArith Qround.
From S2P Require Import Prelude Types Accounts JsText Policies Shield AltLoader.
Local Open Scope string_scope.
Local Open Scope Z_scope.
Local Open Scope list_scope.

(** ** Instructions *)
Inductive AccountRole := READONLY | WRITABLE | READONLY_SIGNER | WRITABLE_SIGNER.
#[export] Instance AccountRole_eq_dec : EqDecision AccountRole.
Proof. solve_decision. Defined.

(** [am_lookup] is set by the compression: the table and the index in it. *)
Record AccountMeta := mkMeta {
  am_address : Address;
  am_role : AccountRole;
  am_lookup : option (Address * nat);
}.

Record Instruction := mkInstruction {
  ins_program : Address;
  ins_accounts : option (list AccountMeta);
  ins_data : option bytes;
}.

Definition is_writable (r : AccountRole) : bool :=
  match r with WRITABLE | WRITABLE_SIGNER => true | READONLY | READONLY_SIGNER => false end.

(** What a compression may not change. *)
Definition same_account (a b : AccountMeta) : Prop :=
  am_address a = am_address b /\ am_role a = am_role b.

Record same_instruction (a b : Instruction) : Prop := {
  si_program : ins_program a = ins_program b;
  si_data : ins_data a = ins_data b;
  si_accounts : option_Forall2 (Forall2 same_account) (ins_accounts a) (ins_accounts b);
}.

(** ** Messages *)
Record Blockhash := mkBlockhash { bh_blockhash : string; bh_lastValidBlockHeight : Z }.

Record TransactionMessage := mkMessage {
  tm_feePayer : Address;
  tm_lifetime : Blockhash;
  tm_instructions : list Instruction;
}.

(** ** External code: the Solana libraries *)
Class TxLib (Tx : Type) := {
  getSetComputeUnitLimitInstruction : Z -> Instruction;
  getSetComputeUnitPriceInstruction : Z -> Instruction;
  compressTransactionMessage : AltContents -> TransactionMessage -> TransactionMessage;
  compileTransaction : TransactionMessage -> Tx;
  getBase64EncodedWireTransaction : Tx -> string;
  decodeCompiledMessage : Tx -> CompiledMessage;
}.

Class TxLibLaws {Tx} (lib : TxLib Tx) := {
  limit_program n :
    ins_program (getSetComputeUnitLimitInstruction n) = COMPUTE_BUDGET_PROGRAM_ADDRESS;
  price_program n :
    ins_program (getSetComputeUnitPriceInstruction n) = COMPUTE_BUDGET_PROGRAM_ADDRESS;
  compress_payer alts m :
    tm_feePayer (compressTransactionMessage alts m) = tm_feePayer m;
  compress_lifetime alts m :
    tm_lifetime (compressTransactionMessage alts m) = tm_lifetime m;
  compress_instructions alts m :
    Forall2 same_instruction (tm_instructions m)
      (tm_instructions (compressTransactionMessage alts m));
  (** Compiled instructions keep their order and data, and a program that is invoked
      is among the static accounts. *)
  compile_instructions m :
    Forall2 (fun ix ci =>
        staticAccounts (decodeCompiledMessage (compileTransaction m))
          !! ci_programAddressIndex ci = Some (ins_program ix)
        /\ ci_data ci = ins_data ix)
      (tm_instructions m) (cm_instructions (decodeCompiledMessage (compileTransaction m)));
  compile_static_nodup m :
    NoDup (staticAccounts (decodeCompiledMessage (compileTransaction m)));
}.

(** ** Compute units ([priority-fees.ts]) *)
Definition JUPITER_PROGRAM : Address := "JUP6LkbZbjS1jKKwapdHNy74zcZ3tLUZoi5QNyVTaV4".
Definition CU_AGENT_TRANSFER : Z := 200000.
Definition CU_JUPITER_MULTI_HOP : Z := 900000.
Definition CU_DEFAULT_COMPOSED : Z := 800000.

Fixpoint first_supported_cu (programAddresses : list Address) : option Z :=
  match programAddresses with
  | [] => None
  | addr :: rest =>
      match jm_get addr SUPPORTED_PROTOCOLS with
      | Some meta => Some (pm_defaultCU meta)
      | None => first_supported_cu rest
      end
  end.

Definition estimateComposedCU (defiInstructions : list Instruction) : Z :=
  if bool_decide (length defiInstructions = 0%nat) then CU_AGENT_TRANSFER
  else
    let programAddresses := ins_program <$> defiInstructions in
    let hasJupiter := existsb (fun id => bool_decide (id = JUPITER_PROGRAM)) programAddresses in
    if hasJupiter && (2 <? Z.of_nat (length defiInstructions)) then CU_JUPITER_MULTI_HOP
    else default CU_DEFAULT_COMPOSED (first_supported_cu programAddresses).

(** ** Composition ([composer.ts]) *)
Definition MAX_TX_SIZE : Z := 1232.

Record ComposeTransactionParams := mkCompose {
  cp_feePayer : Address;
  cp_validateIx : Instruction;
  cp_defiInstructions : list Instruction;
  cp_finalizeIx : Instruction;
  cp_blockhash : Blockhash;
  cp_computeUnits : option Z;
  cp_priorityFeeMicroLamports : option Z;
  cp_addressLookupTables : option AltContents;
}.

Section composer.
Context {Tx : Type} `{lib : !TxLib Tx}.

Definition priority_fee_ixs (fee : option Z) : list Instruction :=
  match fee with
  | Some n => if n >? 0 then [getSetComputeUnitPriceInstruction n] else []
  | None => []
  end.

Definition composed_instructions (params : ComposeTransactionParams) : list Instruction :=
  let units := default (estimateComposedCU (cp_defiInstructions params)) (cp_computeUnits params) in
  [getSetComputeUnitLimitInstruction units]
  ++ priority_fee_ixs (cp_priorityFeeMicroLamports params)
  ++ cp_validateIx params :: cp_defiInstructions params ++ [cp_finalizeIx params].

Definition composed_message (params : ComposeTransactionParams) : TransactionMessage :=
  let txMessage :=
    mkMessage (cp_feePayer params) (cp_blockhash params) (composed_instructions params) in
  match cp_addressLookupTables params with
  | Some alts =>
      if (0 <? length alts)%nat then compressTransactionMessage alts txMessage else txMessage
  | None => txMessage
  end.

Definition composeSigilTransaction (params : ComposeTransactionParams) : Tx :=
  compileTransaction (composed_message params).

(** [(len / 4) * 3 - padding] on numbers: a fraction for an unpadded string. *)
Definition base64ByteLength (b64 : string) : Q :=
  let len := String.length b64 in
  let pad (k : nat) : Z :=
    if (k <=? len)%nat && bool_decide (String.get (len - k) b64 = Some (Ascii.ascii_of_nat 61)) then 1 else 0 in
  ((Z.of_nat len # 4) * 3 - inject_Z (pad 1%nat + pad 2%nat))%Q.

(** The error carries the length, an integer for the padded strings the encoder returns. *)
Definition tx_too_large (byteLength : Q) (limit : Z) : SigilError :=
  sdk_error "SIGIL_ERROR__RPC__TX_TOO_LARGE"
    [("byteLength", CNum (Qfloor byteLength)); ("limit", CNum limit)].

Definition validateTransactionSize (compiledTx : Tx) : res SigilError string :=
  let wireBytes := getBase64EncodedWireTransaction compiledTx in
  let byteLength := base64ByteLength wireBytes in
  if negb (Qle_bool byteLength (inject_Z MAX_TX_SIZE)) then
    Throw (tx_too_large byteLength MAX_TX_SIZE)
  else Ok wireBytes.

Definition measureTransactionSize (compiledTx : Tx) : string * Q * bool :=
  let wireBase64 := getBase64EncodedWireTransaction compiledTx in
  let byteLength := base64ByteLength wireBase64 in
  (wireBase64, byteLength, Qle_bool byteLength (inject_Z MAX_TX_SIZE)).
End composer.

(** ** Protocol allowlist ([protocol-resolver.ts]) *)
Definition isProtocolAllowed (programId : Address) (protocolMode : Z) (protocols : list Address)
    : bool :=
  if protocolMode =? 0 then true
  else
    let isInList := existsb (fun p => bool_decide (p = programId)) protocols in
    if protocolMode =? 1 then isInList else negb isInList.

Inductive ProtocolTier := KNOWN | DEFAULT | NOT_ALLOWED.
Inductive EscalationType :=
  | not_in_allowlist
  | no_handler_no_constraints
  | not_in_allowlist_and_no_handler.
#[export] Instance ProtocolTier_eq_dec : EqDecision ProtocolTier.
Proof. solve_decision. Defined.
#[export] Instance EscalationType_eq_dec : EqDecision EscalationType.
Proof. solve_decision. Defined.

(** The escalation carries the number of actions it asks for. *)
Record ProtocolResolution := mkProtocolResolution {
  pr_tier : ProtocolTier;
  pr_programId : Address;
  pr_displayName : string;
  pr_constraintsConfigured : option bool;
  pr_escalation : option (EscalationType * nat);
}.

Definition resolveProtocol (programId : Address) (protocolMode : Z) (protocols : list Address)
    (constraintsConfigured : bool) : ProtocolResolution :=
  let allowed := isProtocolAllowed programId protocolMode protocols in
  match getProtocolName programId with
  | Some knownName =>
      if negb allowed then
        mkProtocolResolution NOT_ALLOWED programId knownName None (Some (not_in_allowlist, 1%nat))
      else mkProtocolResolution KNOWN programId knownName None None
  | None =>
      if allowed && constraintsConfigured then
        mkProtocolResolution DEFAULT programId programId (Some true) None
      else if allowed && negb constraintsConfigured then
        mkProtocolResolution NOT_ALLOWED programId programId None
          (Some (no_handler_no_constraints, 1%nat))
      else
        mkProtocolResolution NOT_ALLOWED programId programId None
          (Some (not_in_allowlist_and_no_handler, 2%nat))
  end.

(** ** Lemmas *)
Lemma isProtocolAllowed_spec p mode ps :
  isProtocolAllowed p mode ps = true <->
  mode = 0 \/ (mode = 1 /\ p ∈ ps) \/ (mode <> 0 /\ mode <> 1 /\ p ∉ ps).
Proof.
  unfold isProtocolAllowed.
  assert (Hin : existsb (fun q => bool_decide (q = p)) ps = true <-> p ∈ ps).
  { rewrite existsb_exists. setoid_rewrite bool_decide_eq_true.
    setoid_rewrite <- list_elem_of_In. naive_solver. }
  destruct (Z.eqb_spec mode 0); [naive_solver|]. destruct (Z.eqb_spec mode 1).
  - rewrite Hin. naive_solver.
  - rewrite negb_true_iff. rewrite <- not_true_iff_false, Hin. naive_solver.
Qed.

Lemma same_instruction_refl ix : same_instruction ix ix.
Proof.
  split; [done..|]. destruct (ins_accounts ix); constructor.
  apply Forall_Forall2_diag, Forall_true. done.
Qed.

Section composer_lemmas.
Context {Tx : Type} `{lib : !TxLib Tx} `{laws : !TxLibLaws lib}.

(** Whatever the lookup tables, the message carries the composed instructions. *)
Lemma composed_message_instructions params :
  tm_feePayer (composed_message params) = cp_feePayer params /\
  tm_lifetime (composed_message params) = cp_blockhash params /\
  Forall2 same_instruction (composed_instructions params)
    (tm_instructions (composed_message params)).
Proof.
  unfold composed_message.
  assert (Hrefl : forall l, Forall2 same_instruction l l).
  { intros l. apply Forall_Forall2_diag, Forall_true. apply same_instruction_refl. }
  destruct (cp_addressLookupTables params) as [alts|]; [|done].
  destruct (0 <? length alts)%nat; [|done].
  rewrite compress_payer, compress_lifetime. split_and!; [done..|].
  exact (compress_instructions alts
    (mkMessage (cp_feePayer params) (cp_blockhash params) (composed_instructions params))).
Qed.

Lemma priority_fee_ixs_program fee :
  Forall (fun ix => ins_program ix = COMPUTE_BUDGET_PROGRAM_ADDRESS) (priority_fee_ixs fee).
Proof.
  destruct fee as [n|]; simpl; [|constructor]. destruct (n >? 0); repeat constructor.
  apply price_program.
Qed.
End composer_lemmas.

(** ** The measured size is the wire size

    [b64_encode] is the padded base64 the wire encoder produces. *)
Lemma get_not_eq_sign n s :
  forallb (fun c => negb (Ascii.eqb c EQ_SIGN)) (String.list_ascii_of_string s) = true ->
  String.get n s <> Some EQ_SIGN.
Proof.
  revert n. induction s as [|c s IH]; intros n; simpl; [done|].
  intros [Hc Hs]%andb_true_iff. destruct n as [|n]; [|by apply IH].
  intros [= ->]. discriminate.
Qed.

Lemma b64_char_not_eq n : b64_char n <> EQ_SIGN.
Proof.
  unfold b64_char. pose proof (get_not_eq_sign (Z.to_nat n) b64_alphabet eq_refl) as H.
  destruct (String.get _ _) as [c|]; simpl; [congruence|done].
Qed.

(** The number of padding characters the SDK counts. *)
Definition b64_padding (s : string) : Z :=
  let pad (k : nat) : Z :=
    if (k <=? String.length s)%nat && bool_decide (String.get (String.length s - k) s = Some EQ_SIGN)
    then 1 else 0 in
  pad 1%nat + pad 2%nat.

Lemma base64ByteLength_eq s n :
  3 * Z.of_nat (String.length s) - 4 * b64_padding s = 4 * n ->
  (base64ByteLength s == inject_Z n)%Q.
Proof.
  intros H. unfold base64ByteLength. fold EQ_SIGN. fold (b64_padding s).
  unfold Qeq, Qminus, Qplus, Qmult, Qopp, inject_Z. cbn [Qnum Qden]. lia.
Qed.

Lemma b64_padding_cons4 a b c d s :
  (2 <= String.length s)%nat ->
  b64_padding (String a (String b (String c (String d s)))) = b64_padding s.
Proof.
  intros Hl. unfold b64_padding. cbn [String.length].
  destruct (String.length s) as [|[|n]] eqn:Hn; [lia|lia|].
  replace (S (S (S (S (S (S n))))) - 1)%nat with (S (S (S (S (S n))))) by lia.
  replace (S (S (S (S (S (S n))))) - 2)%nat with (S (S (S (S n)))) by lia.
  replace (S (S n) - 1)%nat with (S n) by lia. replace (S (S n) - 2)%nat with n by lia. done.
Qed.

(** the byte count the size limit is checked against is exactly the length of the wire
    transaction: for the padded base64 of any byte string the SDK's computation returns the
    number of bytes, never one or two more. *)
Theorem base64ByteLength_exact bs :
  (base64ByteLength (b64_encode bs) == inject_Z (Z.of_nat (length bs)))%Q.
Proof.
  apply base64ByteLength_eq.
  assert (H : forall k bs, (length bs <= k)%nat ->
    3 * Z.of_nat (String.length (b64_encode bs)) - 4 * b64_padding (b64_encode bs)
      = 4 * Z.of_nat (length bs)); [|by apply (H (length bs))].
  clear bs. induction k as [|k IH]; intros bs Hk.
  { destruct bs; [reflexivity|simpl in Hk; lia]. }
  destruct bs as [|a [|b [|c rest]]]; [reflexivity|reflexivity| |].
  - cbn [b64_encode length]. unfold b64_padding. cbn [String.length String.get Nat.sub Nat.leb andb].
    rewrite (bool_decide_true (Some EQ_SIGN = Some EQ_SIGN)) by done.
    rewrite bool_decide_false by (intros [= H]; by apply b64_char_not_eq in H). reflexivity.
  - specialize (IH rest ltac:(simpl in Hk; lia)). cbn [b64_encode length].
    destruct rest as [|d rest].
    + cbn [b64_encode length]. unfold b64_padding.
      cbn [String.length String.get Nat.sub Nat.leb andb].
      rewrite !bool_decide_false by (intros [= H]; by apply b64_char_not_eq in H). reflexivity.
    + rewrite b64_padding_cons4.
      * cbn [String.length]. set (e := b64_encode (d :: rest)) in *. lia.
      * destruct rest as [|x [|y r]]; cbn [b64_encode String.length]; lia.
Qed.
