(* ===== verification/RpcHelpers.v ===== *)
(** * RPC helpers ([sdk/kit/src/rpc-helpers.ts])

    The per-client blockhash caches, signing, and sending with confirmation. What the
    network, the signer and the clock answer comes in as functions; the polling loop runs
    on fuel, and [poll_loop_total] says how much is enough when sleeping takes time. *)

From Stdlib Require Import QArith Qround.
From S2P Require Import Prelude Types Accounts Composer.
Local Open Scope string_scope.
Local Open Scope Z_scope.
Local Open Scope list_scope.

(** ** [BlockhashCache] *)
Definition DEFAULT_BLOCKHASH_TTL_MS : Z := 30000.

Record BlockhashCache := mkBlockhashCache {
  bc_cached : option Blockhash;
  bc_fetchedAt : Z;
  bc_ttlMs : Z;
}.

Definition new_blockhash_cache (ttlMs : option Z) : BlockhashCache :=
  mkBlockhashCache None 0 (default DEFAULT_BLOCKHASH_TTL_MS ttlMs).

(** [if (this.cached && now - this.fetchedAt < this.ttlMs) return this.cached]. *)
Definition cache_hit (c : BlockhashCache) (now : Z) : option Blockhash :=
  match bc_cached c with
  | Some b => if now - bc_fetchedAt c <? bc_ttlMs c then Some b else None
  | None => None
  end.

(** The [await] in [refresh] returns at [now], the second clock reading. *)
Definition refresh (c : BlockhashCache) (answer : res SigilError Blockhash) (now : Z)
    : res SigilError Blockhash * BlockhashCache :=
  match answer with
  | Throw e => (Throw e, c)
  | Ok b => (Ok b, mkBlockhashCache (Some b) now (bc_ttlMs c))
  end.

Definition blockhash_get (c : BlockhashCache) (now : Z) (answer : res SigilError Blockhash)
    (now' : Z) : res SigilError Blockhash * BlockhashCache :=
  match cache_hit c now with
  | Some b => (Ok b, c)
  | None => refresh c answer now'
  end.

Definition invalidate (c : BlockhashCache) : BlockhashCache :=
  mkBlockhashCache None 0 (bc_ttlMs c).

(** The registry: a [WeakMap] from RPC clients, here named, to their shared cache object. *)
Abbreviation BlockhashRegistry := (gmap string BlockhashCache).

Definition getBlockhashCache (reg : BlockhashRegistry) (rpc : string)
    : BlockhashCache * BlockhashRegistry :=
  match reg !! rpc with
  | Some c => (c, reg)
  | None => (new_blockhash_cache None, <[rpc := new_blockhash_cache None]> reg)
  end.

(** [getBlockhashCache(rpc).get(rpc)], which mutates the cache the registry holds. *)
Definition registry_get (reg : BlockhashRegistry) (rpc : string) (now : Z)
    (answer : res SigilError Blockhash) (now' : Z)
    : res SigilError Blockhash * BlockhashRegistry :=
  let '(c, reg) := getBlockhashCache reg rpc in
  let '(r, c') := blockhash_get c now answer now' in
  (r, <[rpc := c']> reg).

(** [getBlockhashCache(rpc).invalidate()]. *)
Definition registry_invalidate (reg : BlockhashRegistry) (rpc : string) : BlockhashRegistry :=
  let '(c, reg) := getBlockhashCache reg rpc in <[rpc := invalidate c]> reg.

(** ** [signAndEncode] *)
(** What a signer resolves to for one transaction: the signed transaction, or, from a partial
    signer, the dictionary of its signature. *)
Inductive signed_object (Tx : Type) :=
  | SignedTx (tx : Tx)
  | Dictionary (address : Address) (signature : bytes).
Arguments SignedTx {Tx}. Arguments Dictionary {Tx}.

Record Signer (Tx : Type) := mkSigner {
  sg_modifyAndSign : option (list Tx -> res SigilError (option (list (signed_object Tx))));
  sg_sign : option (list Tx -> res SigilError (option (list (signed_object Tx))));
}.
Arguments mkSigner {Tx}. Arguments sg_modifyAndSign {Tx}. Arguments sg_sign {Tx}.

Section sign.
Context {Tx : Type} `{lib : !TxLib Tx}.

(** The wire encoder reads [signatures] and [messageBytes]: on an object without them it throws. *)
Definition not_a_transaction : SigilError := sdk_error "TypeError" [].

Definition encode_signed (signed : signed_object Tx) : res SigilError string :=
  match signed with
  | SignedTx tx => Ok (getBase64EncodedWireTransaction tx)
  | Dictionary _ _ => Throw not_a_transaction
  end.

(** [None] from a method is a result that is no array. *)
Definition signAndEncode (signer : Signer Tx) (compiledTx : Tx) : res SigilError string :=
  match (match sg_modifyAndSign signer with Some f => Some f | None => sg_sign signer end) with
  | None => Throw (sdk_error "SIGIL_ERROR__SDK__SIGNER_INVALID"
                     [("reason", CStr "missing-sign-method")])
  | Some signFn =>
      results ← signFn [compiledTx];
      match results with
      | Some (signedTx :: _) => encode_signed signedTx
      | _ => Throw (sdk_error "SIGIL_ERROR__SDK__SIGNATURE_INVALID"
                      [("reason", CStr "empty-or-non-array")])
      end
  end.
End sign.

(** ** The polling loop

    [while (Date.now() < deadline) { status; decide; await sleep(delay); delay = ... }]:
    [clock k] is the reading of the [k]-th test, [step k] what the [k]-th poll decides. *)
Section poll.
Context {E R : Type}.

Fixpoint poll_loop (step : nat -> res E (option R)) (clock : nat -> Z) (deadline : Z)
    (k fuel : nat) : option (res E (option R)) :=
  match fuel with
  | O => None
  | S fuel' =>
      if clock k <? deadline then
        match step k with
        | Throw e => Some (Throw e)
        | Ok (Some r) => Some (Ok (Some r))
        | Ok None => poll_loop step clock deadline (S k) fuel'
        end
      else Some (Ok None)
  end.

(** The [k]-th sleep: [delay0], then [min (delay * factor, cap)]. *)
Fixpoint backoff (delay0 : Q) (factor : nat -> Q) (cap : Q) (k : nat) : Q :=
  match k with
  | O => delay0
  | S k' => let d := (backoff delay0 factor cap k' * factor k')%Q in
            if Qle_bool d cap then d else cap
  end.

(** A [setTimeout] of [d] milliseconds does not resolve early, and no clock runs back. *)
Definition sleeps_honoured (clock : nat -> Z) (delay : nat -> Q) : Prop :=
  forall k, (inject_Z (clock k) + delay k <= inject_Z (clock (S k)))%Q.
End poll.

Record SignatureStatus := mkStatus {
  ss_err : bool;
  ss_confirmationStatus : string;
}.

(** What the network and the clock answer while a transaction is confirmed: the reading
    before the loop, the readings of its tests, the polled statuses. *)
Record ConfirmEnv := mkConfirmEnv {
  ce_start : Z;
  ce_clock : nat -> Z;
  ce_status : nat -> res SigilError (option SignatureStatus);
}.

Record SendAndConfirmOptions := mkConfirmOptions {
  co_timeoutMs : option Z;
  co_pollIntervalMs : option Z;
  co_commitment : option string;
}.

Definition tx_failed (signature : string) : SigilError :=
  sdk_error "SIGIL_ERROR__RPC__TX_FAILED" [("signature", CStr signature)].
Definition confirmation_timeout (signature : string) (timeoutMs : Z) : SigilError :=
  sdk_error "SIGIL_ERROR__RPC__CONFIRMATION_TIMEOUT"
    [("signature", CStr signature); ("timeoutMs", CNum timeoutMs)].

(** What one poll decides. *)
Definition confirm_step (commitment signature : string)
    (answer : res SigilError (option SignatureStatus)) : res SigilError (option string) :=
  statuses ← answer;
  match statuses with
  | None => Ok None
  | Some status =>
      if ss_err status then Throw (tx_failed signature)
      else
        let level := ss_confirmationStatus status in
        if bool_decide (level = "confirmed") || bool_decide (level = "finalized")
           || (bool_decide (commitment = "processed") && bool_decide (level = "processed"))
        then Ok (Some signature)
        else Ok None
  end.

(** The sleeps of the loop; [random k] is the [k]-th [Math.random()]. *)
Definition confirm_delay (o : SendAndConfirmOptions) (random : nat -> Q) : nat -> Q :=
  backoff (inject_Z (default 1000 (co_pollIntervalMs o)))
    (fun k => (13 # 10) + random k * (4 # 10))%Q 5000.

Definition sendAndConfirmTransaction (o : SendAndConfirmOptions) (send : res SigilError string)
    (env : ConfirmEnv) (fuel : nat) : option (res SigilError string) :=
  let timeoutMs := default 30000 (co_timeoutMs o) in
  let commitment := default "confirmed" (co_commitment o) in
  match send with
  | Throw e => Some (Throw e)
  | Ok signature =>
      let deadline := ce_start env + timeoutMs in
      (fun r => match r with
                | Throw e => Throw e
                | Ok (Some s) => Ok s
                | Ok None => Throw (confirmation_timeout signature timeoutMs)
                end)
      <$> poll_loop (fun k => confirm_step commitment signature (ce_status env k))
            (ce_clock env) deadline 0 fuel
  end.

(** ** The loop returns, and with the first decision *)
Section poll_lemmas.
Context {E R : Type}.
Implicit Types (step : nat -> res E (option R)) (clock : nat -> Z).

(** All tests before the [n]-th were in time and their polls undecided. *)
Definition pending_before step clock (deadline : Z) (n : nat) : Prop :=
  forall j, (j < n)%nat -> clock j < deadline /\ step j = Ok None.

(** The [n]-th test ends the loop with [r]. *)
Definition decides step clock (deadline : Z) (n : nat) (r : res E (option R)) : Prop :=
  pending_before step clock deadline n /\
  if clock n <? deadline then step n = r /\ r <> Ok None else r = Ok None.

Lemma poll_loop_decides step clock deadline n r fuel :
  decides step clock deadline n r -> (n < fuel)%nat ->
  poll_loop step clock deadline 0 fuel = Some r.
Proof.
  intros [Hp Hd] Hf.
  assert (H : forall m k, (k + m = n)%nat -> forall f, (m < f)%nat ->
    poll_loop step clock deadline k f = Some r); [|by apply (H n 0%nat)].
  induction m as [|m IH]; intros k Hk f Hm; (destruct f as [|f]; [lia|]); cbn [poll_loop].
  - assert (k = n) as -> by lia. destruct (clock n <? deadline); [|by subst].
    destruct Hd as [-> Hne]. by destruct r as [[x|]|e].
  - destruct (Hp k ltac:(lia)) as [Hc ->]. rewrite (proj2 (Z.ltb_lt _ _) Hc).
    apply IH; lia.
Qed.

Lemma decides_unique step clock deadline n1 n2 r1 r2 :
  decides step clock deadline n1 r1 -> decides step clock deadline n2 r2 -> n1 = n2 /\ r1 = r2.
Proof.
  assert (Hlt : forall m1 m2 s1 s2, decides step clock deadline m1 s1 ->
    decides step clock deadline m2 s2 -> ~ (m1 < m2)%nat).
  { intros m1 m2 s1 s2 [_ H1] [H2 _] Hm. destruct (H2 m1 Hm) as [Hc Hs].
    rewrite (proj2 (Z.ltb_lt _ _) Hc) in H1. destruct H1 as [H1 Hne]. congruence. }
  intros H1 H2. assert (n1 = n2) as ->.
  { pose proof (Hlt _ _ _ _ H1 H2). pose proof (Hlt _ _ _ _ H2 H1). lia. }
  split; [done|]. destruct H1 as [_ H1], H2 as [_ H2].
  destruct (clock n2 <? deadline); [destruct H1, H2|]; congruence.
Qed.

Lemma pending_or_decides step clock deadline n :
  pending_before step clock deadline n \/
  exists m r, (m < n)%nat /\ decides step clock deadline m r.
Proof.
  induction n as [|n [IH|(m & r & Hm & Hd)]]; [by left; intros j; lia| |by right; exists m, r; auto].
  destruct (clock n <? deadline) eqn:Hc; [destruct (step n) as [[x|]|e] eqn:Hs|].
  - right. exists n, (Ok (Some x)). split; [lia|]. split; [done|]. by rewrite Hc, Hs.
  - left. intros j Hj. destruct (decide (j = n)) as [->|]; [|apply IH; lia].
    split; [by apply Z.ltb_lt|done].
  - right. exists n, (Throw e). split; [lia|]. split; [done|]. by rewrite Hc, Hs.
  - right. exists n, (Ok None). split; [lia|]. split; [done|]. by rewrite Hc.
Qed.

(** When every round advances the clock by at least [d > 0], the loop decides within
    [(deadline - clock 0) / d + 1] rounds. *)
Lemma poll_loop_total step clock deadline d :
  0 < d -> (forall k, clock k + d <= clock (S k)) ->
  exists n r, decides step clock deadline n r /\
    Z.of_nat n <= Z.max 0 ((deadline - clock 0%nat) / d + 1).
Proof.
  intros Hd Hc.
  assert (Hk : forall k, clock 0%nat + Z.of_nat k * d <= clock k).
  { induction k as [|k IH]; [lia|]. specialize (Hc k). nia. }
  set (N := Z.to_nat (Z.max 0 ((deadline - clock 0%nat) / d + 1))).
  assert (Hend : deadline <= clock N).
  { specialize (Hk N). unfold N in *. rewrite Z2Nat.id in Hk by lia.
    pose proof (Z.div_mod (deadline - clock 0%nat) d ltac:(lia)).
    pose proof (Z.mod_pos_bound (deadline - clock 0%nat) d Hd). nia. }
  destruct (pending_or_decides step clock deadline N) as [HN|(n & r & Hle & Hn)].
  - exists N, (Ok None). split; [|unfold N; lia]. split; [done|].
    by rewrite (proj2 (Z.ltb_ge _ _) Hend).
  - exists n, r. split; [done|]. unfold N in Hle. lia.
Qed.

Lemma backoff_at_least delay0 factor cap m k :
  (0 <= m)%Q -> (m <= delay0)%Q -> (m <= cap)%Q -> (forall k, 1 <= factor k)%Q ->
  (m <= backoff delay0 factor cap k)%Q.
Proof.
  intros Hm H0 Hc Hf. induction k as [|k IH]; cbn [backoff]; [done|].
  destruct (Qle_bool _ _); [|done].
  apply Qle_trans with (backoff delay0 factor cap k * 1)%Q; [by rewrite Qmult_1_r|].
  rewrite (Qmult_comm _ 1), (Qmult_comm _ (factor k)).
  apply Qmult_le_compat_r; [apply Hf|by apply Qle_trans with m].
Qed.

Lemma sleeps_advance clock delay d :
  sleeps_honoured clock delay -> (forall k, inject_Z d <= delay k)%Q ->
  forall k, clock k + d <= clock (S k).
Proof.
  intros Hs Hd k. specialize (Hs k). specialize (Hd k). rewrite Zle_Qle, inject_Z_plus.
  eapply Qle_trans; [|exact Hs]. apply Qplus_le_compat; [apply Qle_refl|done].
Qed.
End poll_lemmas.

(** The least sleep of the confirmation loop, and the rounds it leaves room for. *)
Definition confirm_min_delay (o : SendAndConfirmOptions) : Z :=
  Z.min (default 1000 (co_pollIntervalMs o)) 5000.
Definition confirm_rounds (o : SendAndConfirmOptions) : Z :=
  Z.max 0 (default 30000 (co_timeoutMs o)) / confirm_min_delay o + 2.

Lemma confirm_delay_min o random k :
  0 < confirm_min_delay o -> (forall k, 0 <= random k)%Q ->
  (inject_Z (confirm_min_delay o) <= confirm_delay o random k)%Q.
Proof.
  intros Hd Hr. unfold confirm_delay. apply backoff_at_least.
  - change 0%Q with (inject_Z 0). rewrite <- Zle_Qle. lia.
  - rewrite <- Zle_Qle. unfold confirm_min_delay. lia.
  - change 5000%Q with (inject_Z 5000). rewrite <- Zle_Qle. unfold confirm_min_delay. lia.
  - intros j. specialize (Hr j).
    apply Qle_trans with ((13 # 10) + 0 * (4 # 10))%Q; [done|].
    apply Qplus_le_compat; [apply Qle_refl|]. apply Qmult_le_compat_r; [done|]. done.
Qed.

(** C39: waiting for a confirmation always comes back, and with the right answer. *)
Theorem sendAndConfirm_terminates o signature env random :
  0 < confirm_min_delay o -> (forall k, 0 <= random k)%Q ->
  sleeps_honoured (ce_clock env) (confirm_delay o random) ->
  ce_start env <= ce_clock env 0%nat ->
  let deadline := ce_start env + default 30000 (co_timeoutMs o) in
  let step k := confirm_step (default "confirmed" (co_commitment o)) signature (ce_status env k) in
  exists r,
    (forall fuel, confirm_rounds o <= Z.of_nat fuel ->
      sendAndConfirmTransaction o (Ok signature) env fuel = Some r) /\
    (forall n, pending_before step (ce_clock env) deadline n -> ce_clock env n < deadline ->
      step n = Ok (Some signature) -> r = Ok signature) /\
    (forall s, r = Ok s -> s = signature /\ exists n, ce_clock env n < deadline /\
      step n = Ok (Some s)).
Proof.
  intros Hd Hr Hs H0 deadline step.
  destruct (poll_loop_total step (ce_clock env) deadline (confirm_min_delay o) Hd)
    as (n & x & Hn & Hb).
  { apply (sleeps_advance _ _ _ Hs). intros k. by apply confirm_delay_min. }
  assert (Hx : forall s, x = Ok (Some s) -> s = signature /\ ce_clock env n < deadline /\
            step n = Ok (Some s)).
  { intros s ->. destruct Hn as [_ Hn]. destruct (Z.ltb_spec (ce_clock env n) deadline); [|done].
    destruct Hn as [Hn _]. split_and!; [|done..]. unfold step, confirm_step in Hn.
    destruct (ce_status env n) as [[st|]|]; cbn in Hn; try done.
    destruct (ss_err st); [done|]. destruct (_ || _); by simplify_eq. }
  eexists. split_and!.
  - intros fuel Hf. unfold sendAndConfirmTransaction. cbv zeta. fold deadline. fold step.
    rewrite (poll_loop_decides step (ce_clock env) deadline n x fuel Hn).
    + reflexivity.
    + unfold confirm_rounds in Hf.
      assert ((deadline - ce_clock env 0%nat) / confirm_min_delay o
              <= Z.max 0 (default 30000 (co_timeoutMs o)) / confirm_min_delay o)
        by (apply Z.div_le_mono; unfold deadline; lia).
      assert (0 <= Z.max 0 (default 30000 (co_timeoutMs o)) / confirm_min_delay o)
        by (apply Z.div_pos; lia). lia.
  - intros m Hp Hc Hm. assert (Hdm : decides step (ce_clock env) deadline m (Ok (Some signature))).
    { split; [done|]. by rewrite (proj2 (Z.ltb_lt _ _) Hc). }
    by destruct (decides_unique _ _ _ _ _ _ _ Hn Hdm) as [_ ->].
  - intros s. destruct x as [[s'|]|e]; [|done|done]. intros [= <-].
    destruct (Hx s' eq_refl) as (-> & ? & ?). eauto.
Qed.

Lemma sendAndConfirm_terminates_witness :
  let env := mkConfirmEnv 0 (fun k => 10 + 5000 * Z.of_nat k)
     (fun k => Ok (if (k <? 2)%nat then None else Some (mkStatus false "confirmed"))) in
  sendAndConfirmTransaction (mkConfirmOptions None None None) (Ok "sig") env 32 = Some (Ok "sig").
Proof.
  intros env. set (o := mkConfirmOptions None None None).
  destruct (sendAndConfirm_terminates o "sig" env (fun _ => 0%Q)) as (r & H1 & H2 & _).
  - reflexivity.
  - intros _. apply Qle_refl.
  - intros k. cbn [ce_clock env]. apply Qle_trans with (inject_Z (10 + 5000 * Z.of_nat k) + 5000)%Q.
    + apply Qplus_le_compat; [apply Qle_refl|]. unfold confirm_delay, backoff. cbn.
      destruct k as [|k]; cbn; [discriminate|].
      destruct (Qle_bool _ _) eqn:Hq; [by apply Qle_bool_iff|apply Qle_refl].
    + change 5000%Q with (inject_Z 5000). rewrite <- inject_Z_plus, <- Zle_Qle. lia.
  - discriminate.
  - rewrite (H1 32%nat) by (vm_compute; discriminate). f_equal. apply (H2 2%nat).
    + intros j Hj. do 2 (destruct j as [|j]; [by split|]). lia.
    + reflexivity.
    + reflexivity.
Defined.

(** ** A blockhash never crosses clients and never outlives its lifetime *)
Inductive bh_op :=
  | BhGet (rpc : string) (now : Z) (answer : res SigilError Blockhash) (now' : Z)
  | BhInvalidate (rpc : string).

Definition bh_step (reg : BlockhashRegistry) (op : bh_op) : BlockhashRegistry :=
  match op with
  | BhGet rpc now answer now' => (registry_get reg rpc now answer now').2
  | BhInvalidate rpc => registry_invalidate reg rpc
  end.

Definition bh_run (ops : list bh_op) : BlockhashRegistry := fold_left bh_step ops ∅.

(** [b] was fetched from [rpc] at [t], and no invalidation followed. *)
Definition fetched_from (ops : list bh_op) (rpc : string) (b : Blockhash) (t : Z) : Prop :=
  exists p1 now p2, ops = p1 ++ BhGet rpc now (Ok b) t :: p2 /\ BhInvalidate rpc ∉ p2.

Lemma fetched_from_snoc ops rpc b t op :
  fetched_from ops rpc b t -> op <> BhInvalidate rpc -> fetched_from (ops ++ [op]) rpc b t.
Proof.
  intros (p1 & now & p2 & -> & Hp) Hop. exists p1, now, (p2 ++ [op]).
  split; [by rewrite <- app_assoc|]. rewrite elem_of_app, list_elem_of_singleton. naive_solver.
Qed.

Definition cache_sound (ops : list bh_op) (rpc : string) (c : BlockhashCache) : Prop :=
  bc_ttlMs c = DEFAULT_BLOCKHASH_TTL_MS /\
  forall b, bc_cached c = Some b -> fetched_from ops rpc b (bc_fetchedAt c).

Lemma registry_get_lookup reg rpc rpc' now answer now' c :
  (registry_get reg rpc now answer now').2 !! rpc' = Some c ->
  (rpc' = rpc /\ c = (blockhash_get (getBlockhashCache reg rpc).1 now answer now').2)
  \/ (rpc' <> rpc /\ reg !! rpc' = Some c).
Proof.
  unfold registry_get, getBlockhashCache. destruct (reg !! rpc) as [c0|]; cbn [fst];
    [set (p := blockhash_get c0 now answer now')|
     set (p := blockhash_get (new_blockhash_cache None) now answer now')];
    destruct p as [r c1]; cbn [fst snd];
    (destruct (decide (rpc' = rpc)) as [->|Hne];
     [rewrite lookup_insert_eq; intros [= <-]; by left|rewrite !lookup_insert_ne by done; auto]).
Qed.

Lemma getBlockhashCache_sound ops reg rpc :
  (forall c, reg !! rpc = Some c -> cache_sound ops rpc c) ->
  cache_sound ops rpc (getBlockhashCache reg rpc).1.
Proof.
  intros H. unfold getBlockhashCache. destruct (reg !! rpc) as [c|]; [by apply H|]. by split.
Qed.

Lemma cache_hit_inv c now b :
  cache_hit c now = Some b -> bc_cached c = Some b /\ now - bc_fetchedAt c < bc_ttlMs c.
Proof.
  unfold cache_hit. destruct (bc_cached c); [|done].
  destruct (Z.ltb_spec (now - bc_fetchedAt c) (bc_ttlMs c)); naive_solver.
Qed.

Lemma blockhash_get_sound ops rpc c now answer now' :
  cache_sound ops rpc c ->
  cache_sound (ops ++ [BhGet rpc now answer now']) rpc (blockhash_get c now answer now').2.
Proof.
  intros [Ht Hc]. unfold blockhash_get.
  assert (Hk : cache_sound (ops ++ [BhGet rpc now answer now']) rpc c).
  { split; [done|]. intros b Hb. apply fetched_from_snoc; [by apply Hc|done]. }
  destruct (cache_hit c now); [done|]. destruct answer as [b|e]; [|done]. split; [done|].
  intros b' [= <-]. exists ops, now, []. split; [done|]. by apply not_elem_of_nil.
Qed.

Lemma bh_run_sound ops rpc c : bh_run ops !! rpc = Some c -> cache_sound ops rpc c.
Proof.
  revert rpc c. induction ops as [|op ops IH] using rev_ind; intros rpc c; [done|].
  unfold bh_run. rewrite fold_left_app. cbn [fold_left]. fold (bh_run ops).
  destruct op as [rpc0 now answer now'|rpc0]; cbn [bh_step].
  - intros [[-> ->]|[Hne H]]%registry_get_lookup.
    + apply blockhash_get_sound, getBlockhashCache_sound. by apply IH.
    + destruct (IH _ _ H) as [Ht Hc]. split; [done|]. intros b Hb.
      apply fetched_from_snoc; [by apply Hc|done].
  - unfold registry_invalidate. intros Hl.
    destruct (decide (rpc = rpc0)) as [->|Hne].
    + pose proof (getBlockhashCache_sound ops (bh_run ops) rpc0 (IH rpc0)) as [Ht _].
      destruct (getBlockhashCache _ _) as [c0 reg0]. rewrite lookup_insert_eq in Hl.
      injection Hl as <-. by split.
    + unfold getBlockhashCache in Hl.
      assert (H : bh_run ops !! rpc = Some c).
      { destruct (bh_run ops !! rpc0); rewrite !lookup_insert_ne in Hl by done; done. }
      destruct (IH _ _ H) as [Ht Hc]. split; [done|]. intros b Hb.
      apply fetched_from_snoc; [by apply Hc|]. intros [= ->]. done.
Qed.

(** whatever was fetched, cached and invalidated before, over any number of RPC
    clients, the blockhash a client's cache hands out is the network's answer to this call,
    or the answer the same client received less than 30 seconds ago and that was not
    invalidated since; a failed fetch leaves the cache as it was. *)
Theorem blockhash_isolated ops rpc now answer now' b :
  (registry_get (bh_run ops) rpc now answer now').1 = Ok b ->
  answer = Ok b \/ exists t, fetched_from ops rpc b t /\ now - t < DEFAULT_BLOCKHASH_TTL_MS.
Proof.
  unfold registry_get.
  pose proof (getBlockhashCache_sound ops (bh_run ops) rpc (bh_run_sound ops rpc)) as [Ht Hc].
  destruct (getBlockhashCache _ _) as [c reg]. cbn [fst] in *. unfold blockhash_get.
  destruct (cache_hit c now) as [b'|] eqn:Hh.
  - apply cache_hit_inv in Hh as [Hb Hn]. intros [= ->]. right. exists (bc_fetchedAt c).
    rewrite <- Ht. auto.
  - destruct answer as [b'|e]; cbn; [|done]. intros [= ->]. by left.
Qed.

Lemma blockhash_isolated_witness :
  let b := mkBlockhash "h1" 7 in
  exists t, fetched_from [BhGet "mainnet" 0 (Ok b) 5; BhGet "devnet" 6 (Ok (mkBlockhash "h2" 9)) 8]
              "mainnet" b t /\ 20000 - t < DEFAULT_BLOCKHASH_TTL_MS.
Proof.
  intros b.
  destruct (blockhash_isolated
    [BhGet "mainnet" 0 (Ok b) 5; BhGet "devnet" 6 (Ok (mkBlockhash "h2" 9)) 8]
    "mainnet" 20000 (Throw (sdk_error "down" [])) 20001 b) as [H|H].
  - vm_compute. reflexivity.
  - discriminate.
  - exact H.
Defined.
