(* ===== verification/TeeCache.v ===== *)
(** * The attestation cache ([sdk/kit/src/tee/cache.ts])

    Attestation results by public key, each with its own expiry; the oldest entry leaves
    when the cache is full. A JavaScript number given as an option is [Some] integer or
    [None] for [NaN] and the infinities. *)

From S2P Require Import Prelude.
Local Open Scope string_scope.
Local Open Scope Z_scope.
Local Open Scope list_scope.

Definition DEFAULT_CACHE_TTL_MS : Z := 3600000.
Definition MAX_CACHE_ENTRIES : Z := 1000.

(** [Number.isFinite(x) && x > 0 ? x : fallback]. *)
Definition positive_or (fallback : Z) (x : option Z) : Z :=
  match x with
  | Some v => if v >? 0 then v else fallback
  | None => fallback
  end.

Section cache.
Context {A : Type}.

Record CacheEntry := mkCacheEntry { ce_result : A; ce_expiresAt : Z }.

Record AttestationCache := mkAttestationCache {
  ac_cache : jsmap CacheEntry;
  ac_ttlMs : Z;
  ac_maxEntries : Z;
}.

Definition new_attestation_cache (ttlMs maxEntries : option Z) : AttestationCache :=
  mkAttestationCache [] (positive_or DEFAULT_CACHE_TTL_MS ttlMs)
    (positive_or MAX_CACHE_ENTRIES maxEntries).

Definition with_cache (c : AttestationCache) (m : jsmap CacheEntry) : AttestationCache :=
  mkAttestationCache m (ac_ttlMs c) (ac_maxEntries c).

(** A lookup drops the entry it finds expired. *)
Definition cache_get (c : AttestationCache) (publicKey : string) (now : Z)
    : option A * AttestationCache :=
  match jm_get publicKey (ac_cache c) with
  | None => (None, c)
  | Some entry =>
      if now >=? ce_expiresAt entry then (None, with_cache c (jm_delete publicKey (ac_cache c)))
      else (Some (ce_result entry), c)
  end.

Definition evict_oldest (c : AttestationCache) (publicKey : string) : jsmap CacheEntry :=
  if (Z.of_nat (length (ac_cache c)) >=? ac_maxEntries c) && negb (jm_has publicKey (ac_cache c))
  then match ac_cache c with
       | (oldestKey, _) :: _ => jm_delete oldestKey (ac_cache c)
       | [] => ac_cache c
       end
  else ac_cache c.

(** [ttlMs] is [None] when the argument is missing or not finite. *)
Definition cache_set (c : AttestationCache) (publicKey : string) (result : A) (ttlMs : option Z)
    (now : Z) : AttestationCache :=
  let effectiveTtl := positive_or (ac_ttlMs c) ttlMs in
  with_cache c (jm_set publicKey (mkCacheEntry result (now + effectiveTtl))
                  (evict_oldest c publicKey)).

Definition cache_delete (c : AttestationCache) (publicKey : string) : bool * AttestationCache :=
  (jm_has publicKey (ac_cache c), with_cache c (jm_delete publicKey (ac_cache c))).

Definition cache_deleteByPrefix (c : AttestationCache) (prefix : string) : nat * AttestationCache :=
  fold_left (fun acc key =>
      if String.prefix prefix key
      then (S acc.1, with_cache acc.2 (jm_delete key (ac_cache acc.2)))
      else acc)
    (ac_cache c).*1 (O, c).

Definition cache_clear (c : AttestationCache) : AttestationCache := with_cache c [].
Definition cache_size (c : AttestationCache) : nat := length (ac_cache c).

(** ** Sessions of operations *)
Inductive cache_op :=
  | OpGet (publicKey : string) (now : Z)
  | OpSet (publicKey : string) (result : A) (ttlMs : option Z) (now : Z)
  | OpDelete (publicKey : string)
  | OpDeleteByPrefix (prefix : string)
  | OpClear.

Definition cache_step (c : AttestationCache) (op : cache_op) : AttestationCache :=
  match op with
  | OpGet k now => (cache_get c k now).2
  | OpSet k r ttl now => cache_set c k r ttl now
  | OpDelete k => (cache_delete c k).2
  | OpDeleteByPrefix p => (cache_deleteByPrefix c p).2
  | OpClear => cache_clear c
  end.

Definition cache_run (c : AttestationCache) (ops : list cache_op) : AttestationCache :=
  fold_left cache_step ops c.

(** The operations that replace or remove what is stored under [k]. *)
Definition touches (k : string) (op : cache_op) : bool :=
  match op with
  | OpGet _ _ => false
  | OpSet k' _ _ _ | OpDelete k' => bool_decide (k' = k)
  | OpDeleteByPrefix p => String.prefix p k
  | OpClear => true
  end.

(** [e] is what the last operation touching [k] stored there. *)
Definition stored (ttl : Z) (ops : list cache_op) (k : string) (e : CacheEntry) : Prop :=
  exists p1 r t now p2, ops = p1 ++ OpSet k r t now :: p2 /\
    e = mkCacheEntry r (now + positive_or ttl t) /\ Forall (fun op => touches k op = false) p2.

Definition cache_inv (ttl max : Z) (ops : list cache_op) (c : AttestationCache) : Prop :=
  ac_ttlMs c = ttl /\ ac_maxEntries c = max /\ jm_wf (ac_cache c) /\
  Z.of_nat (length (ac_cache c)) <= max /\
  forall k e, jm_get k (ac_cache c) = Some e -> stored ttl ops k e.

Lemma jm_get_delete_some {V} k k' (m : jsmap V) v :
  jm_get k' (jm_delete k m) = Some v -> k <> k' /\ jm_get k' m = Some v.
Proof.
  destruct (decide (k = k')) as [->|Hne]; [by rewrite jm_get_delete_eq|].
  by rewrite jm_get_delete_ne.
Qed.

Lemma jm_delete_length {V} k (m : jsmap V) : (length (jm_delete k m) <= length m)%nat.
Proof. apply length_filter. Qed.

Lemma stored_snoc ttl ops op k e :
  stored ttl ops k e -> touches k op = false -> stored ttl (ops ++ [op]) k e.
Proof.
  intros (p1 & r & t & now & p2 & -> & -> & Hp) Ht. exists p1, r, t, now, (p2 ++ [op]).
  split_and!; [by rewrite <- app_assoc|done|]. apply Forall_app. split; [done|by constructor].
Qed.

(** Removing keys keeps the invariant, for an operation that touches at least those. *)
Lemma cache_inv_shrink ttl max ops op c m :
  cache_inv ttl max ops c -> jm_wf m -> (length m <= length (ac_cache c))%nat ->
  (forall k e, jm_get k m = Some e -> jm_get k (ac_cache c) = Some e /\ touches k op = false) ->
  cache_inv ttl max (ops ++ [op]) (with_cache c m).
Proof.
  intros (Ht & Hm & Hw & Hl & Hs) Hw' Hl' Hk. split_and!; [done..| |]; cbn [ac_cache with_cache].
  - lia.
  - intros k e He. destruct (Hk k e He) as [H1 H2]. apply stored_snoc; auto.
Qed.

Lemma evict_oldest_spec c k :
  jm_wf (ac_cache c) -> 1 <= ac_maxEntries c -> Z.of_nat (length (ac_cache c)) <= ac_maxEntries c ->
  jm_wf (evict_oldest c k) /\
  (forall k' e, jm_get k' (evict_oldest c k) = Some e -> jm_get k' (ac_cache c) = Some e) /\
  (jm_has k (evict_oldest c k) = false ->
   Z.of_nat (length (evict_oldest c k)) < ac_maxEntries c) /\
  (length (evict_oldest c k) <= length (ac_cache c))%nat.
Proof.
  intros Hw H1 Hl. unfold evict_oldest. rewrite Z.geb_leb.
  destruct (Z.leb_spec (ac_maxEntries c) (Z.of_nat (length (ac_cache c)))) as [Hf|Hf]; cbn [andb];
    [|split_and!; [done|done|intros _; lia|lia]].
  destruct (jm_has k (ac_cache c)) eqn:Hh; cbn [negb];
    [split_and!; [done|done|congruence|lia]|].
  destruct (ac_cache c) as [|[k0 e0] m] eqn:Hc; [cbn in Hf; lia|].
  split_and!.
  - by apply jm_delete_wf.
  - intros k' e He. by apply jm_get_delete_some in He as [_ He].
  - intros _. cbn [length] in Hl.
    pose proof (length_filter (fun kv => kv.1 <> k0) m) as Hle.
    unfold jm_delete. rewrite filter_cons, decide_False by (cbn; tauto). lia.
  - apply jm_delete_length.
Qed.

Lemma deleteByPrefix_fold p ks c :
  let c' := (fold_left (fun acc key =>
      if String.prefix p key
      then (S acc.1, with_cache acc.2 (jm_delete key (ac_cache acc.2))) else acc) ks c).2 in
  ac_ttlMs c' = ac_ttlMs c.2 /\ ac_maxEntries c' = ac_maxEntries c.2 /\
  (jm_wf (ac_cache c.2) -> jm_wf (ac_cache c')) /\
  (length (ac_cache c') <= length (ac_cache c.2))%nat /\
  forall k e, jm_get k (ac_cache c') = Some e ->
    jm_get k (ac_cache c.2) = Some e /\ (k ∈ ks -> String.prefix p k = false).
Proof.
  revert c. induction ks as [|key ks IH]; intros c; cbn [fold_left].
  { split_and!; [done..|]. intros k e He. split; [done|]. by intros ?%not_elem_of_nil. }
  destruct (String.prefix p key) eqn:Hp.
  - destruct (IH (S c.1, with_cache c.2 (jm_delete key (ac_cache c.2)))) as (H1 & H2 & H3 & H4 & H5).
    cbn [snd with_cache ac_cache ac_ttlMs ac_maxEntries] in *. split_and!; [done|done| | |].
    + intros Hw. by apply H3, jm_delete_wf.
    + pose proof (jm_delete_length key (ac_cache c.2)). lia.
    + intros k e He. destruct (H5 k e He) as [[Hne Hg]%jm_get_delete_some Hk].
      split; [done|]. intros [->|Hin]%elem_of_cons; [done|auto].
  - destruct (IH c) as (H1 & H2 & H3 & H4 & H5). split_and!; [done..|].
    intros k e He. destruct (H5 k e He) as [Hg Hk]. split; [done|].
    intros [->|Hin]%elem_of_cons; auto.
Qed.

Lemma cache_step_inv ttl max ops op c :
  1 <= max -> cache_inv ttl max ops c -> cache_inv ttl max (ops ++ [op]) (cache_step c op).
Proof.
  intros Hmax Hi. pose proof Hi as (Ht & Hm & Hw & Hl & Hs).
  assert (Hsame : forall k now, cache_inv ttl max (ops ++ [OpGet k now]) c).
  { intros k now. split_and!; [done..|]. intros k' e He. apply stored_snoc; auto. }
  destruct op as [k now|k r t now|k|p|]; cbn [cache_step].
  - unfold cache_get. destruct (jm_get k (ac_cache c)) as [e|] eqn:Hk; [|apply Hsame].
    destruct (now >=? ce_expiresAt e); [|apply Hsame].
    apply cache_inv_shrink; [done|by apply jm_delete_wf|apply jm_delete_length|].
    by intros k' e' [_ He]%jm_get_delete_some.
  - subst max. destruct (evict_oldest_spec c k Hw Hmax Hl) as (E1 & E2 & E3 & E4).
    unfold cache_set. cbv zeta. rewrite Ht.
    split_and!; [done|done|by apply jm_set_wf| |]; cbn [with_cache ac_cache].
    + rewrite jm_length_set. destruct (jm_has k (evict_oldest c k)) eqn:Hh; [lia|].
      specialize (E3 eq_refl). lia.
    + intros k' e. destruct (decide (k = k')) as [->|Hne].
      * rewrite jm_get_set_eq. intros [= <-]. exists ops, r, t, now, []. by split_and!.
      * rewrite jm_get_set_ne by done. intros He. apply stored_snoc; [by apply Hs, E2|].
        cbn. by rewrite bool_decide_false.
  - apply cache_inv_shrink; [done|by apply jm_delete_wf|apply jm_delete_length|].
    intros k' e [Hne He]%jm_get_delete_some. split; [done|]. cbn. by rewrite bool_decide_false.
  - unfold cache_deleteByPrefix.
    destruct (deleteByPrefix_fold p (ac_cache c).*1 (O, c)) as (H1 & H2 & H3 & H4 & H5).
    cbn [snd] in *. set (c' := (fold_left _ _ _).2) in *.
    split_and!; [by rewrite H1|by rewrite H2|by apply H3|lia|].
    intros k e He. destruct (H5 k e He) as [Hg Hk]. apply stored_snoc; [by apply Hs|].
    cbn. apply Hk. by eapply jm_get_elem_keys.
  - apply cache_inv_shrink; [done|by constructor|cbn; lia|done].
Qed.

Lemma cache_run_inv ttl max ops c :
  1 <= max -> cache_inv ttl max [] c -> cache_inv ttl max ops (cache_run c ops).
Proof.
  intros Hmax Hc. induction ops as [|op ops IH] using rev_ind; [done|].
  unfold cache_run. rewrite fold_left_app. by apply cache_step_inv.
Qed.

Lemma positive_or_pos fallback x : 1 <= fallback -> 1 <= positive_or fallback x.
Proof. unfold positive_or. destruct x as [v|]; [|done]. destruct (Z.gtb_spec v 0); lia. Qed.

(** whatever is stored, looked up, deleted and expired, the attestation cache holds at
    most its maximum of entries, and a lookup answers only with the result that the last
    operation on that key stored and whose lifetime has not ended. *)
Theorem attestation_cache_sound ttlMs maxEntries ops publicKey now r :
  let c := cache_run (new_attestation_cache ttlMs maxEntries) ops in
  (cache_get c publicKey now).1 = Some r ->
  Z.of_nat (cache_size c) <= positive_or MAX_CACHE_ENTRIES maxEntries /\
  exists p1 t at_ p2, ops = p1 ++ OpSet publicKey r t at_ :: p2 /\
    Forall (fun op => touches publicKey op = false) p2 /\
    now < at_ + positive_or (positive_or DEFAULT_CACHE_TTL_MS ttlMs) t.
Proof.
  intros c Hg.
  assert (Hi : cache_inv (positive_or DEFAULT_CACHE_TTL_MS ttlMs)
                 (positive_or MAX_CACHE_ENTRIES maxEntries) ops c).
  { apply cache_run_inv; [by apply positive_or_pos|]. split_and!; [done|done|by constructor| |done].
    pose proof (positive_or_pos MAX_CACHE_ENTRIES maxEntries ltac:(done)). cbn. lia. }
  destruct Hi as (_ & _ & _ & Hl & Hs). split; [done|].
  unfold cache_get in Hg. destruct (jm_get publicKey (ac_cache c)) as [e|] eqn:Hk; [|done].
  rewrite Z.geb_leb in Hg. destruct (Z.leb_spec (ce_expiresAt e) now); [done|].
  injection Hg as <-. destruct (Hs _ _ Hk) as (p1 & r & t & at_ & p2 & -> & -> & Hp).
  exists p1, t, at_, p2. by split_and!.
Qed.
End cache.

Lemma attestation_cache_sound_witness :
  let ops := [OpSet "k1" 1 None 0; OpSet "k2" 2 (Some 50) 10; OpSet "k3" 3 None 20; OpGet "k1" 25] in
  Z.of_nat (cache_size (cache_run (new_attestation_cache (Some 100) (Some 2)) ops)) <= 2 /\
  exists p1 t at_ p2, ops = p1 ++ OpSet "k3" 3 t at_ :: p2 /\
    Forall (fun op => touches "k3" op = false) p2 /\ 119 < at_ + positive_or 100 t.
Proof.
  intros ops. apply (attestation_cache_sound (Some 100) (Some 2) ops "k3" 119 3).
  vm_compute. reflexivity.
Defined.
