(* ===== verification/X402.v ===== *)
(** * x402 payments ([sdk/kit/src/x402/])

    The parts of the HTTP 402 flow: the header codec, the payment selector, the amount
    guard, the replay tracker, the bridge to the shield, the transfer builder and the
    settlement checks. [X402Fetch] composes them. Parsing JSON text and URLs is library
    code: [JsonLib] and [UrlLib]; everything the SDK does with the parsed values is
    written out. *)

From Stdlib Require Import QArith.
From S2P Require Import Prelude Types Accounts Bytes Numbers JsText OnChain StateResolver Inspector Policies Tokens Shield Pdas Composer RpcHelpers.
Local Open Scope string_scope.
Local Open Scope Z_scope.
Local Open Scope list_scope.

(** ** JSON values *)
Inductive json :=
  | JNull
  | JBool (b : bool)
  | JNum (r : ratio)
  | JStr (s : string)
  | JArr (l : list json)
  | JObj (fields : list (string * json)).

Class JsonLib := {
  JSON_parse : string -> option json;   (* [None]: SyntaxError *)
  JSON_stringify : json -> string;
}.

(** [o.field]: a [TypeError] on [null], [undefined] when there is no such field. *)
Definition js_field (o : json) (field : string) : option (option json) :=
  match o with
  | JNull => None
  | JObj fields => Some (jm_get field fields)
  | _ => Some None
  end.

Definition js_truthy (v : option json) : bool :=
  match v with
  | None | Some JNull => false
  | Some (JBool b) => b
  | Some (JNum r) => negb (num r =? 0)
  | Some (JStr s) => negb (bool_decide (s = ""))
  | Some (JArr _) | Some (JObj _) => true
  end.

(** ** Errors ([errors.ts]) *)
Inductive payment_reason :=
  | NotAString | NotAnInteger | NotPositive | AboveCeiling | Spike
  | ShieldPaused | InsecureUrl | AlreadyAttempted | AboveMaxPayment
  | DeniedByPolicy (violations : list string) | NoRpc.

Inductive x402_error :=
  | X402ParseError (field : string)
  | X402PaymentError (reason : payment_reason)
  | X402UnsupportedError
  | X402DestinationBlockedError (payTo : string)
  | X402ReplayError (nonceKey : string)
  | TypeErr                       (* a field of [null] *)
  | SyntaxErr                     (* [BigInt] of no integer *)
  | FromShield (e : shield_error)
  | FromSdk (e : SigilError).

(** ** Types ([types.ts]) *)
Record PaymentRequirements := mkRequirements {
  rq_scheme : string;
  rq_network : string;
  rq_asset : Address;
  rq_amount : string;
  rq_payTo : Address;
  rq_json : json;    (* the entry as received, which is sent back *)
}.

Record PaymentRequired := mkPaymentRequired {
  pq_resource : option json;
  pq_accepts : list PaymentRequirements;
}.

Record X402Config := mkX402Config {
  allowedDestinations : option (list Address);
  allowedTokens : option (list Address);
  maxPaymentPerRequest : option Z;
  maxCumulativeSpend : option Z;
  cumulativeWindowMs : option Z;
  maxRetries : option Z;
  enableReplayProtection : option bool;
  allowInsecureUrls : option bool;
  confirmPayment : option bool;
  confirmPaymentTimeoutMs : option Z;
}.

Definition no_config : X402Config :=
  mkX402Config None None None None None None None None None None.

(** ** Codec ([codec.ts]) *)
Definition base64Encode (data : string) : string := btoa data.
Definition base64Decode (encoded : string) : option string := atob encoded.

(** [typeof entry.f === "string"] or throw. *)
Definition string_field (entry : json) (field : string) : res x402_error string :=
  match js_field entry field with
  | None => Throw TypeErr
  | Some (Some (JStr s)) => Ok s
  | Some _ => Throw (X402ParseError field)
  end.

Definition check_entry_amount (amount : string) : res x402_error unit :=
  throw_if (bool_decide (amount = "")) (X402ParseError "amount") ;;
  match js_BigInt amount with
  | None => Throw (X402ParseError "amount")
  | Some parsed =>
      throw_if (parsed <? 0) (X402ParseError "amount") ;;
      throw_if (parsed >? U64_MAX) (X402ParseError "amount")
  end.

Definition validate_entry (entry : json) : res x402_error PaymentRequirements :=
  scheme ← string_field entry "scheme";
  network ← string_field entry "network";
  asset ← string_field entry "asset";
  amount ← string_field entry "amount";
  check_entry_amount amount ;;
  payTo ← string_field entry "payTo";
  Ok (mkRequirements scheme network asset amount payTo entry).

Fixpoint validate_entries (l : list json) : res x402_error (list PaymentRequirements) :=
  match l with
  | [] => Ok []
  | entry :: l' => r ← validate_entry entry; rs ← validate_entries l'; Ok (r :: rs)
  end.

Definition validate_required (obj : json) : res x402_error PaymentRequired :=
  match js_field obj "x402Version" with
  | None => Throw TypeErr
  | Some (Some (JNum _)) =>
      match js_field obj "accepts", js_field obj "resource" with
      | Some (Some (JArr ((_ :: _) as accepts))), Some resource =>
          entries ← validate_entries accepts; Ok (mkPaymentRequired resource entries)
      | _, _ => Throw (X402ParseError "accepts")
      end
  | Some _ => Throw (X402ParseError "x402Version")
  end.

Section codec.
Context `{JsonLib}.

Definition decodePaymentRequiredHeader (header : string) : res x402_error PaymentRequired :=
  match text ← base64Decode header; JSON_parse text with
  | None => Throw (X402ParseError "PAYMENT-REQUIRED")
  | Some obj => validate_required obj
  end.

(** The payload [shieldedFetch] sends; an [undefined] resource is left out by
    [JSON.stringify]. *)
Definition payment_payload (resource : option json) (accepted : PaymentRequirements)
    (transaction : string) : json :=
  JObj ([("x402Version", JNum (ratio_of_Z 2))]
        ++ (match resource with Some r => [("resource", r)] | None => [] end)
        ++ [("accepted", rq_json accepted);
            ("payload", JObj [("transaction", JStr transaction)])]).

Definition encodePaymentSignatureHeader (payload : json) : string :=
  base64Encode (JSON_stringify payload).

Definition decodePaymentResponseHeader (header : string) : res x402_error json :=
  match text ← base64Decode header; JSON_parse text with
  | None => Throw (X402ParseError "PAYMENT-RESPONSE")
  | Some obj => Ok obj
  end.
End codec.

(** ** Amount guard ([amount-guard.ts]) *)
Definition MAX_RECENT : nat := 20.
Definition SPIKE_MULTIPLIER : Z := 10.

(** [getMedian] of a non-empty array. *)
Definition getMedian (arr : list Z) : Z :=
  let sorted := sort_by id arr in
  let mid := (length sorted / 2)%nat in
  let at_ i := default 0 (sorted !! i) in
  if (length sorted mod 2 =? 0)%nat then Z.quot (at_ (mid - 1)%nat + at_ mid) 2 else at_ mid.

(** [amount] as the caller passes it: a JavaScript value. *)
Definition validatePaymentAmount (recentPayments : list Z) (amount : json)
    (config : option X402Config) : res x402_error Z :=
  match amount with
  | JStr s =>
      match js_BigInt s with
      | None => Throw (X402PaymentError NotAnInteger)
      | Some parsed =>
          throw_if (parsed <=? 0) (X402PaymentError NotPositive) ;;
          throw_if (match config ≫= maxPaymentPerRequest with
                    | Some m => parsed >? m | None => false end)
            (X402PaymentError AboveCeiling) ;;
          throw_if ((3 <=? length recentPayments)%nat &&
                    (let median := getMedian recentPayments in
                     (median >? 0) && (parsed >? median * SPIKE_MULTIPLIER)))
            (X402PaymentError Spike) ;;
          Ok parsed
      end
  | _ => Throw (X402PaymentError NotAString)
  end.

Definition recordPaymentAmount (recentPayments : list Z) (amount : Z) : list Z :=
  let l := recentPayments ++ [amount] in
  if (MAX_RECENT <? length l)%nat then drop 1 l else l.

Definition resetPaymentHistory (recentPayments : list Z) : list Z := [].
Definition getPaymentHistoryLength (recentPayments : list Z) : nat := length recentPayments.

(** ** Payment selector ([payment-selector.ts]) *)
Definition in_set (s : option (list Address)) (a : Address) : bool :=
  match s with Some l => bool_decide (a ∈ l) | None => true end.

Fixpoint select_loop (config : option X402Config) (accepts : list PaymentRequirements)
    (solanaOptions : list PaymentRequirements) (hasBlockedDestination : bool)
    : res x402_error PaymentRequirements :=
  match accepts with
  | [] =>
      match solanaOptions, hasBlockedDestination with
      | o :: _, true => Throw (X402DestinationBlockedError (rq_payTo o))
      | _, _ => Throw X402UnsupportedError
      end
  | option :: rest =>
      if negb (String.prefix "solana:" (rq_network option)) then
        select_loop config rest solanaOptions hasBlockedDestination
      else if negb (in_set (config ≫= allowedTokens) (rq_asset option)) then
        select_loop config rest solanaOptions hasBlockedDestination
      else if negb (in_set (config ≫= allowedDestinations) (rq_payTo option)) then
        select_loop config rest (solanaOptions ++ [option]) true
      else Ok option
  end.

Definition selectPaymentOption (paymentRequired : PaymentRequired) (config : option X402Config)
    : res x402_error PaymentRequirements :=
  select_loop config (pq_accepts paymentRequired) [] false.

(** ** Replay tracker ([nonce-tracker.ts]) *)
Definition DEFAULT_TTL_MS : Z := 5 * 60 * 1000.

(** [NonceStorage]: what the tracker asks of a storage backend. *)
Class NonceStorage (S : Type) := {
  ns_has : S -> string -> bool;
  ns_set : S -> string -> Z -> S;
  ns_delete : S -> string -> S;
}.

#[export] Instance InMemoryNonceStorage : NonceStorage (jsmap Z) := {
  ns_has m key := jm_has key m;
  ns_set m key expiresAt := jm_set key expiresAt m;
  ns_delete m key := jm_delete key m;
}.

(** [new URL(url)] with its query removed, printed; [None] when it throws. *)
Class UrlLib := { url_without_search : string -> option string }.

(** [s.replace(/\/$/, "")]. *)
Definition strip_slash (s : string) : string :=
  match rev (String.list_ascii_of_string s) with
  | c :: r => if code c =? 47 then String.string_of_list_ascii (rev r) else s
  | [] => s
  end.

Record NonceTracker (S : Type) := mkNonceTracker {
  nt_storage : jsmap Z;
  nt_externalStorage : option S;
  nt_ttlMs : Z;
}.
Arguments mkNonceTracker {S}. Arguments nt_storage {S}. Arguments nt_externalStorage {S}.
Arguments nt_ttlMs {S}.

Section nonces.
Context `{UrlLib} {S : Type} `{NonceStorage S}.
Implicit Types t : NonceTracker S.

Definition new_nonce_tracker (ttlMs : option Z) (storage : option S) : NonceTracker S :=
  mkNonceTracker [] storage (default DEFAULT_TTL_MS ttlMs).

Definition buildKey (url payTo amount : string) : string :=
  let normalizedUrl := match url_without_search url with
                       | Some u => strip_slash u | None => url end in
  normalizedUrl +:+ "|" +:+ payTo +:+ "|" +:+ amount.

(** [for (const [key, entry] of this.storage) if (entry.timestamp < cutoff) delete]. *)
Definition gc t (cutoff : Z) : NonceTracker S :=
  mkNonceTracker (filter (fun kv => ~ kv.2 < cutoff) (nt_storage t)) (nt_externalStorage t)
    (nt_ttlMs t).

Definition isDuplicate t (url payTo amount : string) (now : Z) : bool * NonceTracker S :=
  let t := gc t now in
  let key := buildKey url payTo amount in
  (ns_has (nt_storage t) key ||
   match nt_externalStorage t with Some s => ns_has s key | None => false end, t).

Definition checkOrThrow t (url payTo amount : string) (now : Z)
    : res x402_error unit * NonceTracker S :=
  let '(dup, t) := isDuplicate t url payTo amount now in
  (throw_if dup (X402ReplayError (buildKey url payTo amount)), t).

Definition record_nonce t (url payTo amount : string) (now : Z) : NonceTracker S :=
  let key := buildKey url payTo amount in
  let expiresAt := now + nt_ttlMs t in
  mkNonceTracker (ns_set (nt_storage t) key expiresAt)
    ((fun s => ns_set s key expiresAt) <$> nt_externalStorage t) (nt_ttlMs t).

Definition nonce_size t (now : Z) : nat * NonceTracker S :=
  let t := gc t now in (length (nt_storage t), t).

Definition clear_nonces t : NonceTracker S :=
  mkNonceTracker [] (nt_externalStorage t) (nt_ttlMs t).
End nonces.

(** ** Policy bridge ([policy-bridge.ts]) *)
Definition X402_TOKEN_PROGRAM_ID : Address := TOKEN_PROGRAM_ADDRESS.

(** The instruction the shield is asked about: accounts, and no data. *)
Definition synthetic_transfer (selected : PaymentRequirements) (signerAddress : Address)
    : InspectableInstruction :=
  mkIx X402_TOKEN_PROGRAM_ID
    (Some [signerAddress; rq_asset selected; rq_payTo selected; signerAddress]) None.

(** [BigInt(selected.amount)]. *)
Definition payment_amount (selected : PaymentRequirements) : res x402_error Z :=
  match js_BigInt (rq_amount selected) with Some v => Ok v | None => Throw SyntaxErr end.

Section bridge.
Context {C : Type}.
Implicit Types shieldCtx : Shield C.

Definition cumulative_check (selected : PaymentRequirements) shieldCtx
    (config : option X402Config) (now : Z) : res x402_error (list string) :=
  match config ≫= maxCumulativeSpend with
  | None => Ok []
  | Some m =>
      let windowMs := default 86400000 (config ≫= cumulativeWindowMs) in
      let currentSpend := getTotalSpendInWindow (sh_state shieldCtx) windowMs now in
      paymentAmount ← payment_amount selected;
      Ok (if currentSpend + paymentAmount >? m then
            ["Cumulative x402 spend " +:+ pretty (currentSpend + paymentAmount)
               +:+ " exceeds limit " +:+ pretty m +:+ " in " +:+ pretty windowMs +:+ "ms window"]
          else [])
  end.

Definition ceiling_check (selected : PaymentRequirements) (config : option X402Config)
    : res x402_error (list string) :=
  match config ≫= maxPaymentPerRequest with
  | None => Ok []
  | Some m =>
      paymentAmount ← payment_amount selected;
      Ok (if paymentAmount >? m then
            ["Payment " +:+ rq_amount selected +:+ " exceeds per-request ceiling " +:+ pretty m]
          else [])
  end.

Definition shield_check (selected : PaymentRequirements) shieldCtx
    (signerAddress : option Address) (now : Z) : res x402_error (list string) :=
  match signerAddress with
  | None => Ok []
  | Some signer =>
      match Shield.check shieldCtx [synthetic_transfer selected signer] signer now with
      | Throw e => Throw (FromShield e)
      | Ok r => Ok (if allowed r then [] else v_message <$> violations r)
      end
  end.

Definition evaluateX402Payment (selected : PaymentRequirements) shieldCtx
    (config : option X402Config) (signerAddress : option Address) (now : Z)
    : res x402_error (list string) :=
  throw_if (sh_paused shieldCtx) (X402PaymentError ShieldPaused) ;;
  cumulative ← cumulative_check selected shieldCtx config now;
  ceiling ← ceiling_check selected config;
  shielded ← shield_check selected shieldCtx signerAddress now;
  Ok (cumulative ++ ceiling ++ shielded).

Definition recordX402Spend shieldCtx (asset : string) (amount now : Z) : Shield C :=
  with_state shieldCtx (recordTransaction (recordSpend (sh_state shieldCtx) asset amount now) now).
End bridge.

(** ** Transfer builder ([transfer-builder.ts]) *)
Definition TRANSFER_CHECKED_DISCRIMINATOR : Z := 12.

(** [for (let i = 1; i <= 8; i++) { data[i] = Number(amount & 0xffn); amount >>= 8n; }] *)
Fixpoint amount_bytes (n : nat) (amount : Z) : bytes :=
  match n with
  | O => []
  | S n' => Z.land amount 255 :: amount_bytes n' (Z.shiftr amount 8)
  end.

Section builder.
Context `{env : PdaEnv}.

Definition buildX402TransferInstruction (from payTo asset : Address) (amount decimals : Z)
    : Instruction :=
  let sourceAta := Pda.deriveAta from asset in
  let destAta := Pda.deriveAta payTo asset in
  mkInstruction X402_TOKEN_PROGRAM_ID
    (Some [mkMeta sourceAta WRITABLE None; mkMeta asset READONLY None;
           mkMeta destAta WRITABLE None; mkMeta from READONLY_SIGNER None])
    (Some (TRANSFER_CHECKED_DISCRIMINATOR :: amount_bytes 8 amount ++ [decimals mod 256])).
End builder.

Definition transferToInspectable (ix : Instruction) : InspectableInstruction :=
  mkIx (ins_program ix) ((fun l : list AccountMeta => am_address <$> l) <$> ins_accounts ix) (ins_data ix).

(** ** Settlement ([facilitator-verify.ts]) *)
Record SettleResponse := mkSettle {
  sr_success : bool;
  sr_transaction : option string;
  sr_network : option string;
  sr_errorReason : option string;
}.

Inductive settlement_warning :=
  | NoSignature | InvalidFormat | NetworkMismatch | SettlementFailed (reason : string)
  | NotConfirmed | VerifyFailed.

(** [/^[1-9A-HJ-NP-Za-km-z]{64,88}$/]. *)
Definition base58_signature (s : string) : bool :=
  let cs := String.list_ascii_of_string s in
  forallb is_base58 cs && (64 <=? length cs)%nat && (length cs <=? 88)%nat.

(** A string option as JavaScript tests it: absent and empty are falsy. *)
Definition nonempty (s : option string) : option string :=
  match s with Some "" | None => None | Some _ => s end.

(** Backoff of the two settlement polls: from 500 ms, times 3/2, up to [cap]. *)
Definition settle_delay (cap : Q) : nat -> Q := backoff 500 (fun _ => (3 # 2))%Q cap.

(** [pollSignatureStatus]: the loop decides [true] or [false], a timeout is [false]. *)
Definition poll_step (answer : res x402_error (option SignatureStatus))
    : res x402_error (option bool) :=
  status ← answer;
  match status with
  | None => Ok None
  | Some st =>
      if ss_err st then Ok (Some false)
      else if bool_decide (ss_confirmationStatus st = "confirmed")
              || bool_decide (ss_confirmationStatus st = "finalized") then Ok (Some true)
      else Ok None
  end.

(** The statuses and clock readings of one confirmation, as in [ConfirmEnv]. *)
Record SettleEnv := mkSettleEnv {
  se_start : Z;
  se_clock : nat -> Z;
  se_status : nat -> res x402_error (option SignatureStatus);
}.

Definition pollSignatureStatus (env : SettleEnv) (timeoutMs : Z) (fuel : nat)
    : option (res x402_error bool) :=
  (fun r : res x402_error (option bool) => default false <$> r) <$> poll_loop (fun k => poll_step (se_status env k)) (se_clock env)
    (se_start env + timeoutMs) 0 fuel.

(** 1.-4.: the checks on the response alone; [inl] is a final verdict. *)
Definition settlement_checks (settlement : SettleResponse) (expectedNetwork : option string)
    : (bool * list settlement_warning) + list settlement_warning :=
  let transaction := nonempty (sr_transaction settlement) in
  if sr_success settlement && bool_decide (transaction = None) then inl (false, [NoSignature])
  else if match transaction with Some t => negb (base58_signature t) | None => false end
  then inl (false, [InvalidFormat])
  else
    let mismatch :=
      match nonempty expectedNetwork, nonempty (sr_network settlement) with
      | Some e, Some n => if decide (n = e) then [] else [NetworkMismatch]
      | _, _ => []
      end in
    if negb (sr_success settlement) then
      inl (false, mismatch ++ [SettlementFailed (default "unknown reason" (sr_errorReason settlement))])
    else inr mismatch.

(** [rpc] is [None] when none was passed. *)
Definition validateSettlement (settlement : SettleResponse) (expectedNetwork : option string)
    (rpc : option SettleEnv) (timeoutMs : option Z) (fuel : nat)
    : option (bool * list settlement_warning) :=
  match settlement_checks settlement expectedNetwork with
  | inl verdict => Some verdict
  | inr warnings =>
      match rpc, nonempty (sr_transaction settlement) with
      | Some env, Some _ =>
          (fun r => (true, warnings ++ match r with
                                       | Ok true => []
                                       | Ok false => [NotConfirmed]
                                       | Throw _ => [VerifyFailed]
                                       end))
          <$> pollSignatureStatus env (default 10000 timeoutMs) fuel
      | _, _ => Some (true, warnings)
      end
  end.

(** ** Audit events ([audit-trail.ts]) *)
Record X402PaymentEvent := mkPaymentEvent {
  ev_timestamp : Z;
  ev_url : string;
  ev_payTo : string;
  ev_asset : string;
  ev_amount : string;
  ev_paid : bool;
  ev_deniedReason : option string;
  ev_settlement : option json;
  ev_nonce : option string;
  ev_durationMs : Z;
}.

Definition createPaymentEvent (url payTo asset amount : string) (paid : bool)
    (deniedReason : option string) (settlement : option json) (startTime : Z)
    (nonce : option string) (now : Z) : X402PaymentEvent :=
  mkPaymentEvent now url payTo asset amount paid deniedReason settlement nonce (now - startTime).

(** ** What the builder encodes, the inspector decodes *)
Lemma amount_bytes_le n v : amount_bytes n v = le_bytes n v.
Proof.
  revert v. induction n as [|n IH]; intros v; [done|]. cbn [amount_bytes]. rewrite IH.
  unfold le_bytes. cbn [seq fmap list_fmap]. f_equal.
  rewrite <- fmap_S_seq, <- list_fmap_compose. apply list_fmap_ext. intros i x _. cbn.
  rewrite Z.shiftr_shiftr by lia. do 2 f_equal. lia.
Qed.

Lemma built_data_amount amount d :
  is_u64 amount ->
  readU64LE (TRANSFER_CHECKED_DISCRIMINATOR :: amount_bytes 8 amount ++ [d]) 1 = amount.
Proof.
  intros Ha. rewrite amount_bytes_le. unfold readU64LE.
  exact (read_u64_le_roundtrip amount [TRANSFER_CHECKED_DISCRIMINATOR] [d] Ha).
Qed.

Lemma built_transfer_inspected `{env : PdaEnv} from payTo asset amount decimals signer :
  is_u64 amount ->
  analyzeInstructions
    [transferToInspectable (buildX402TransferInstruction from payTo asset amount decimals)] signer
  = mkAnalysis [TOKEN_PROGRAM_ADDRESS]
      [mkTransfer (Some asset) amount (Pda.deriveAta from asset) (Pda.deriveAta payTo asset) from]
      (if decide (from = signer) then amount else 0) [].
Proof.
  intros Ha. unfold analyzeInstructions, transferToInspectable, buildX402TransferInstruction.
  cbn [fold_left ins_program ins_accounts ins_data fmap option_fmap option_map list_fmap am_address].
  unfold analyze_step. cbn [programAddress ix_data ix_accounts].
  change (is_token_program X402_TOKEN_PROGRAM_ID) with true. cbn [negb].
  change (TRANSFER_CHECKED_DISCRIMINATOR =? SPL_TRANSFER_DISCRIMINATOR) with false.
  change (TRANSFER_CHECKED_DISCRIMINATOR =? SPL_TRANSFER_CHECKED_DISCRIMINATOR) with true.
  cbn [default]. unfold transfer_checked_of.
  cbn [length amount_bytes app Nat.ltb Nat.leb].
  change (Z.land amount 255 :: _) with (amount_bytes 8 amount ++ [decimals mod 256]).
  rewrite built_data_amount by done. unfold push_transfer, push_dangerous.
  cbn. by case_decide.
Qed.

(** the transfer instruction round-trips: inspecting the instruction that the builder
    encoded for a payment finds exactly that payment, its token, its full 64-bit amount,
    the payer's and the recipient's token accounts and the payer's authority, and nothing
    else: no second transfer and no dangerous operation. *)
Theorem x402_transfer_roundtrip `{env : PdaEnv} from payTo asset amount decimals signer :
  is_u64 amount ->
  analyzeInstructions
    [transferToInspectable (buildX402TransferInstruction from payTo asset amount decimals)] signer
  = mkAnalysis [TOKEN_PROGRAM_ADDRESS]
      [mkTransfer (Some asset) amount (Pda.deriveAta from asset) (Pda.deriveAta payTo asset) from]
      (if decide (from = signer) then amount else 0) [].
Proof. apply built_transfer_inspected. Qed.

Lemma x402_transfer_roundtrip_witness :
  analyzeInstructions
    [transferToInspectable
       (@buildX402TransferInstruction demo_pda_env "agent" "shop" "usdc" 1500000 6)] "agent"
  = mkAnalysis [TOKEN_PROGRAM_ADDRESS]
      [mkTransfer (Some "usdc") 1500000 (@Pda.deriveAta demo_pda_env "agent" "usdc")
         (@Pda.deriveAta demo_pda_env "shop" "usdc") "agent"] 1500000 [].
Proof.
  apply (@x402_transfer_roundtrip demo_pda_env "agent" "shop" "usdc" 1500000 6 "agent").
  unfold is_u64, U64_MAX. lia.
Defined.
