(* ===== verification/X402Fetch.v ===== *)
(** * The x402 payment flow ([sdk/kit/src/x402/shielded-fetch.ts])

    [shieldedFetch] as a program over the state it shares with every other call, the
    replay tracker, the recent payments and the shield, that also says which requests it
    sends, what it signs and which audit events it emits. The answers of the server, the
    RPC node, the signer and the clock come in as an environment. *)

From S2P Require Import Prelude Types Accounts Bytes JsText Tokens OnChain StateResolver Inspector Policies Shield Pdas Composer RpcHelpers X402.
Local Open Scope string_scope.
Local Open Scope Z_scope.
Local Open Scope list_scope.

(** ** State, effects and their monad *)
Record X402World (C : Type) := mkWorld {
  xw_nonces : NonceTracker (jsmap Z);   (* [globalNonceTracker] *)
  xw_recent : list Z;                   (* [recentPayments] *)
  xw_shield : option (Shield C);        (* the [shieldCtx] of the call *)
}.
Arguments mkWorld {C}. Arguments xw_nonces {C}. Arguments xw_recent {C}. Arguments xw_shield {C}.

Inductive effect :=
  | Requested (signature : option string)    (* a fetch, with its PAYMENT-SIGNATURE *)
  | Signed (message : TransactionMessage)
  | Emitted (event : X402PaymentEvent).

(** A step: from the state to a result or an error, the new state and the effects. *)
Definition flow (C A : Type) : Type := X402World C -> res x402_error A * X402World C * list effect.

#[export] Instance flow_ret C : MRet (flow C) := fun _ a w => (Ok a, w, []).
#[export] Instance flow_bind C : MBind (flow C) := fun _ _ f m w =>
  match m w with
  | (Ok a, w', es) => let '(r, w'', es') := f a w' in (r, w'', es ++ es')
  | (Throw e, w', es) => (Throw e, w', es)
  end.

Section flow_ops.
Context {C : Type}.
Definition lift {A} (r : res x402_error A) : flow C A := fun w => (r, w, []).
Definition get_world : flow C (X402World C) := fun w => (Ok w, w, []).
Definition put_nonces (n : NonceTracker (jsmap Z)) : flow C unit :=
  fun w => (Ok tt, mkWorld n (xw_recent w) (xw_shield w), []).
Definition put_recent (l : list Z) : flow C unit :=
  fun w => (Ok tt, mkWorld (xw_nonces w) l (xw_shield w), []).
Definition put_shield (s : option (Shield C)) : flow C unit :=
  fun w => (Ok tt, mkWorld (xw_nonces w) (xw_recent w) s, []).
Definition effect_ (e : effect) : flow C unit := fun w => (Ok tt, w, [e]).
End flow_ops.

(** ** Requests and answers *)
Record Response := mkResponse {
  rp_status : Z;
  rp_paymentRequired : option string;   (* header PAYMENT-REQUIRED *)
  rp_paymentResponse : option string;   (* header PAYMENT-RESPONSE *)
}.

(** [status >= 200 && status < 300], which is also [response.ok]. *)
Definition is_2xx (r : Response) : bool := (200 <=? rp_status r) && (rp_status r <? 300).

Record ShieldedFetchOptions := mkFetchOptions {
  fo_dryRun : bool;
  fo_maxPayment : option Z;
  fo_headers : list string;    (* the names of the headers the caller sets *)
}.

(** What the node answers: a blockhash, and the statuses of the settlement. *)
Record X402Rpc := mkX402Rpc {
  xr_blockhash : res x402_error Blockhash;
  xr_settle : SettleEnv;
}.

(** The environment of one call. [fe_fetch n] answers the [n]-th request. *)
Record FetchEnv (Tx : Type) := mkFetchEnv {
  fe_fetch : nat -> res x402_error Response;
  fe_rpc : option X402Rpc;
  fe_signer : Address;
  fe_sign : Signer Tx;
  fe_startTime : Z;
  fe_replayAt : Z;      (* [Date.now()] at the replay check *)
  fe_policyAt : Z;      (* at the policy check *)
  fe_paidAt : Z;        (* when the payment is recorded against replays *)
  fe_spentAt : Z;       (* when the spend is recorded *)
}.
Arguments mkFetchEnv {Tx}. Arguments fe_fetch {Tx}. Arguments fe_rpc {Tx}.
Arguments fe_signer {Tx}. Arguments fe_sign {Tx}. Arguments fe_startTime {Tx}.
Arguments fe_replayAt {Tx}. Arguments fe_policyAt {Tx}. Arguments fe_paidAt {Tx}.
Arguments fe_spentAt {Tx}.

Record X402PaymentResult := mkPaymentResult {
  pr_paid : bool;
  pr_amountPaid : string;
  pr_asset : string;
  pr_payTo : string;
  pr_settlement : option json;
}.

(** A response and the [x402] metadata attached to it. *)
Record ShieldedFetchResponse := mkShieldedResponse {
  sf_response : Response;
  sf_x402 : option X402PaymentResult;
}.

(** The first signature of the wire format, in base58. *)
Class Base58Lib := { base58_decoder : bytes -> string }.

(** ** On-chain confirmation *)
Inductive settle_status := SettleConfirmed | SettleFailed | SettleTimeout.
#[export] Instance settle_status_eq_dec : EqDecision settle_status.
Proof. solve_decision. Defined.

Definition settle_step (answer : res x402_error (option SignatureStatus))
    : res x402_error (option settle_status) :=
  status ← answer;
  match status with
  | None => Ok None
  | Some st =>
      if ss_err st then Ok (Some SettleFailed)
      else if bool_decide (ss_confirmationStatus st = "confirmed")
              || bool_decide (ss_confirmationStatus st = "finalized") then Ok (Some SettleConfirmed)
      else Ok None
  end.

Definition confirmSettlementOnChain (env : SettleEnv) (timeoutMs : Z) (fuel : nat)
    : option (res x402_error settle_status) :=
  (fun r : res x402_error (option settle_status) => default SettleTimeout <$> r)
  <$> poll_loop (fun k => settle_step (se_status env k)) (se_clock env)
        (se_start env + timeoutMs) 0 fuel.

(** Enough rounds for the 500 ms of the first sleep. *)
Definition settle_fuel (timeoutMs : Z) : nat := Z.to_nat (Z.max 0 timeoutMs / 500 + 2).

Section fetch.
Context {C : Type} {Tx : Type} `{lib : !TxLib Tx} `{JsonLib} `{UrlLib} `{Base58Lib} `{PdaEnv}.
Implicit Types (config : option X402Config) (env : FetchEnv Tx).

(** Step 1 *)
Definition check_url config (urlStr : string) : res x402_error unit :=
  if default false (config ≫= allowInsecureUrls) then
    throw_if (negb (String.prefix "https://" urlStr) && negb (String.prefix "http://" urlStr))
      (X402PaymentError InsecureUrl)
  else throw_if (negb (String.prefix "https://" urlStr)) (X402PaymentError InsecureUrl).

Definition hasPaymentSignatureHeader (headers : list string) : bool :=
  existsb (fun k => bool_decide (toLowerCase k = "payment-signature")) headers.

Definition replay_protected config : bool :=
  match config ≫= enableReplayProtection with Some false => false | _ => true end.

(** [globalThis.fetch(...)], the [n]-th of the call. *)
Definition request env (n : nat) (signature : option string) : flow C Response :=
  effect_ (Requested signature) ;; lift (fe_fetch env n).

Definition event_of env (urlStr : string) (selected : PaymentRequirements) (paid : bool)
    (deniedReason : option string) (settlement : option json) (nonce : option string) (now : Z)
    : X402PaymentEvent :=
  createPaymentEvent urlStr (rq_payTo selected) (rq_asset selected) (rq_amount selected) paid
    deniedReason settlement (fe_startTime env) nonce now.

(** Step 9 *)
Definition replay_check config env (urlStr : string) (selected : PaymentRequirements)
    : flow C unit :=
  if replay_protected config then
    w ← get_world;
    let '(r, n) := checkOrThrow (xw_nonces w) urlStr (rq_payTo selected) (rq_amount selected)
                     (fe_replayAt env) in
    put_nonces n ;; lift r
  else mret tt.

(** Step 10 *)
Definition amount_check config (o : option ShieldedFetchOptions) (selected : PaymentRequirements)
    : flow C Z :=
  w ← get_world;
  parsedAmount ← lift (validatePaymentAmount (xw_recent w) (JStr (rq_amount selected)) config);
  lift (throw_if (match o ≫= fo_maxPayment with Some m => parsedAmount >? m | None => false end)
          (X402PaymentError AboveMaxPayment)) ;;
  mret parsedAmount.

(** Step 11 *)
Definition join_messages (violations : list string) : string :=
  match violations with
  | [] => ""
  | v :: vs => fold_left (fun s x => s +:+ "; " +:+ x) vs v
  end.

Definition policy_check config env (urlStr : string) (selected : PaymentRequirements)
    : flow C unit :=
  w ← get_world;
  match xw_shield w with
  | None => mret tt
  | Some shieldCtx =>
      violations ← lift (evaluateX402Payment selected shieldCtx config (Some (fe_signer env))
                           (fe_policyAt env));
      if bool_decide (violations = []) then mret tt
      else
        effect_ (Emitted (event_of env urlStr selected false (Some (join_messages violations)) None
                            None (fe_policyAt env))) ;;
        lift (Throw (X402PaymentError (DeniedByPolicy violations)))
  end.

(** Steps 13 and 14 *)
Definition payment_decimals (asset : string) : Z :=
  match resolveToken asset "mainnet-beta" with Some t => rt_decimals t | None => 6 end.

Definition payment_message env (blockhash : Blockhash) (selected : PaymentRequirements)
    (parsedAmount : Z) : TransactionMessage :=
  mkMessage (fe_signer env) blockhash
    [buildX402TransferInstruction (fe_signer env) (rq_payTo selected) (rq_asset selected)
       parsedAmount (payment_decimals (rq_asset selected))].

Definition sdk_res {A} (r : res SigilError A) : res x402_error A :=
  match r with Ok a => Ok a | Throw e => Throw (FromSdk e) end.

Definition sign_payment env (selected : PaymentRequirements) (parsedAmount : Z)
    : flow C (X402Rpc * string) :=
  match fe_rpc env with
  | None => lift (Throw (X402PaymentError NoRpc))
  | Some rpc =>
      blockhash ← lift (xr_blockhash rpc);
      let message := payment_message env blockhash selected parsedAmount in
      wireBase64 ← lift (sdk_res (signAndEncode (fe_sign env) (compileTransaction message)));
      effect_ (Signed message) ;;
      mret (rpc, wireBase64)
  end.

(** The signature the client expects, out of the wire format; [None] when it is not there. *)
Definition expected_signature (wireBase64 : string) : option string :=
  match atob wireBase64 with
  | None => None
  | Some wireBinary =>
      let cs := (fun c => code c) <$> String.list_ascii_of_string wireBinary in
      if (64 <? length cs)%nat then Some (base58_decoder (take 64 (drop 1 cs))) else None
  end.

(** Step 15: the first paid request, then at most [retries] more. *)
Fixpoint retry_loop env (signature : string) (n retries : nat) (retryResponse : Response)
    : flow C Response :=
  match retries with
  | O => mret retryResponse
  | S retries' =>
      if is_2xx retryResponse then mret retryResponse
      else
        next ← request env n (Some signature);
        retry_loop env signature (S n) retries' next
  end.

Definition max_retries config : Z := Z.min (Z.max (default 1 (config ≫= maxRetries)) 1) 3.

Definition send_payment config env (signature : string) : flow C Response :=
  first ← request env 1 (Some signature);
  retry_loop env signature 2 (Z.to_nat (max_retries config - 1)) first.

(** Step 16; a header that does not decode is ignored. *)
Definition settlement_of (retryResponse : Response) : option json :=
  match nonempty (rp_paymentResponse retryResponse) with
  | Some header => match decodePaymentResponseHeader header with
                   | Ok settlement => Some settlement | Throw _ => None end
  | None => None
  end.

(** [settlement?.transaction], when truthy. *)
Definition settlement_transaction (settlement : option json) : option json :=
  match settlement ≫= fun s => js_field s "transaction" with
  | Some t => if js_truthy t then t else None
  | None => None
  end.

Definition mismatch_event env (urlStr : string) (selected : PaymentRequirements)
    (expected : option string) (settlement : option json) : flow C unit :=
  match nonempty expected, settlement_transaction settlement with
  | Some e, Some t =>
      match t with
      | JStr s =>
          if decide (s = e) then mret tt
          else effect_ (Emitted (event_of env urlStr selected true
                 (Some ("Settlement signature mismatch: expected " +:+ e +:+ ", got " +:+ s))
                 None None (fe_paidAt env)))
      | _ => effect_ (Emitted (event_of env urlStr selected true
                 (Some ("Settlement signature mismatch: expected " +:+ e)) None None (fe_paidAt env)))
      end
  | _, _ => mret tt
  end.

(** The confirmation gate: whether the spend is to be recorded. [None] is a run out of
    fuel, which [settle_fuel] excludes. *)
Definition should_record config (rpc : X402Rpc) (settlement : option json)
    : option (res x402_error bool) :=
  match settlement_transaction settlement with
  | Some _ =>
      if match config ≫= confirmPayment with Some false => false | _ => true end then
        let timeout := default 10000 (config ≫= confirmPaymentTimeoutMs) in
        (fun r : res x402_error settle_status =>
           (fun status => negb (bool_decide (status = SettleFailed))) <$> r)
        <$> confirmSettlementOnChain (xr_settle rpc) timeout (settle_fuel timeout)
      else Some (Ok true)
  | None => Some (Ok true)
  end.

(** Step 17 *)
Definition record_payment config env (rpc : X402Rpc) (urlStr : string)
    (selected : PaymentRequirements) (parsedAmount : Z) (settlement : option json) : flow C unit :=
  w ← get_world;
  (if replay_protected config then
     put_nonces (record_nonce (xw_nonces w) urlStr (rq_payTo selected) (rq_amount selected)
                   (fe_paidAt env))
   else mret tt) ;;
  put_recent (recordPaymentAmount (xw_recent w) parsedAmount) ;;
  match should_record config rpc settlement with
  | None => lift (Throw TypeErr)
  | Some r =>
      shouldRecordSpend ← lift r;
      match xw_shield w with
      | Some shieldCtx =>
          if (shouldRecordSpend : bool) then
            put_shield (Some (recordX402Spend shieldCtx (rq_asset selected) parsedAmount
                                (fe_spentAt env)))
          else mret tt
      | None => mret tt
      end
  end.

Definition settle_payment config env (rpc : X402Rpc) (urlStr : string)
    (selected : PaymentRequirements) (parsedAmount : Z) (expected : option string)
    (retryResponse : Response) : flow C ShieldedFetchResponse :=
  let settlement := settlement_of retryResponse in
  mismatch_event env urlStr selected expected settlement ;;
  let paid := is_2xx retryResponse in
  (if paid then
     record_payment config env rpc urlStr selected parsedAmount settlement ;;
     effect_ (Emitted (event_of env urlStr selected true None settlement
       (Some (buildKey urlStr (rq_payTo selected) (rq_amount selected))) (fe_spentAt env)))
   else
     effect_ (Emitted (event_of env urlStr selected false
       (Some ("Server returned " +:+ pretty (rp_status retryResponse) +:+ " after payment attempt"))
       None None (fe_paidAt env)))) ;;
  mret (mkShieldedResponse retryResponse
    (Some (mkPaymentResult paid (rq_amount selected) (rq_asset selected) (rq_payTo selected)
             settlement))).

(** What the guards decide: hand the response through, report a dry run, or pay. *)
Inductive decision :=
  | PassThrough (r : Response)
  | DryRun (selected : PaymentRequirements)
  | Pay (required : PaymentRequired) (selected : PaymentRequirements) (parsedAmount : Z).

(** Steps 1 to 12 *)
Definition payment_guards config env (o : option ShieldedFetchOptions) (urlStr : string)
    : flow C decision :=
  lift (check_url config urlStr) ;;
  response ← request env 0 None;
  if negb (rp_status response =? 402) then mret (PassThrough response)
  else
    match nonempty (rp_paymentRequired response) with
    | None => mret (PassThrough response)
    | Some header =>
        lift (throw_if (hasPaymentSignatureHeader (default [] (fo_headers <$> o)))
                (X402PaymentError AlreadyAttempted)) ;;
        paymentRequired ← lift (decodePaymentRequiredHeader header);
        selected ← lift (selectPaymentOption paymentRequired config);
        replay_check config env urlStr selected ;;
        parsedAmount ← amount_check config o selected;
        policy_check config env urlStr selected ;;
        if default false (fo_dryRun <$> o) then mret (DryRun selected)
        else mret (Pay paymentRequired selected parsedAmount)
    end.

(** Steps 13 to 17 *)
Definition pay config env (urlStr : string) (required : PaymentRequired)
    (selected : PaymentRequirements) (parsedAmount : Z) : flow C ShieldedFetchResponse :=
  '(rpc, wireBase64) ← sign_payment env selected parsedAmount;
  let encodedPayload :=
    encodePaymentSignatureHeader (payment_payload (pq_resource required) selected wireBase64) in
  retryResponse ← send_payment config env encodedPayload;
  settle_payment config env rpc urlStr selected parsedAmount (expected_signature wireBase64)
    retryResponse.

Definition shieldedFetch config env (o : option ShieldedFetchOptions) (urlStr : string)
    : flow C ShieldedFetchResponse :=
  d ← payment_guards config env o urlStr;
  match d with
  | PassThrough r => mret (mkShieldedResponse r None)
  | DryRun selected =>
      mret (mkShieldedResponse (mkResponse 402 None None)
        (Some (mkPaymentResult false (rq_amount selected) (rq_asset selected) (rq_payTo selected)
                 None)))
  | Pay required selected parsedAmount => pay config env urlStr required selected parsedAmount
  end.
End fetch.
