(* ===== verification/X402Spec.v ===== *)
(** * What the x402 flow guarantees

    The payment selector, the amount guard and the replay tracker meet their contracts, and
    the composed flow pays only what every guard allowed, sends a bounded number of
    requests, refuses a replay, and keeps its cumulative limit; then what it does not
    guarantee. The flow is reasoned about with weakest preconditions over [flow]. *)

From S2P Require Import Prelude Types Accounts Bytes Numbers JsText Tokens OnChain StateResolver Inspector Policies Ledger Shield Pdas Composer RpcHelpers X402 X402Fetch.
Local Open Scope string_scope.
Local Open Scope Z_scope.
Local Open Scope list_scope.

(** ** The payment selector *)
Definition solana_token (config : option X402Config) (o : PaymentRequirements) : bool :=
  String.prefix "solana:" (rq_network o) && in_set (config ≫= allowedTokens) (rq_asset o).
Definition acceptable (config : option X402Config) (o : PaymentRequirements) : bool :=
  solana_token config o && in_set (config ≫= allowedDestinations) (rq_payTo o).

Lemma select_loop_spec config accepts sol blocked :
  (blocked = true <-> sol <> []) ->
  select_loop config accepts sol blocked =
  match find_by (acceptable config) accepts with
  | Some o => Ok o
  | None => match sol ++ filter (fun o => solana_token config o = true) accepts with
            | o :: _ => Throw (X402DestinationBlockedError (rq_payTo o))
            | [] => Throw X402UnsupportedError
            end
  end.
Proof.
  revert sol blocked. induction accepts as [|o accepts IH]; intros sol blocked Hb; cbn [select_loop find_by].
  - change (filter _ []) with (@nil PaymentRequirements). rewrite app_nil_r.
    destruct sol as [|o sol]; [done|]. destruct Hb as [_ Hb]. by rewrite Hb.
  - rewrite filter_cons. unfold acceptable at 1.
    destruct (decide (solana_token config o = true)) as [Hs|Hs%not_true_is_false]; rewrite Hs;
      unfold solana_token in Hs; cbn [andb].
    + apply andb_true_iff in Hs as [-> ->]. cbn [negb].
      destruct (in_set (config ≫= allowedDestinations) (rq_payTo o)); cbn [negb]; [done|].
      rewrite IH by (split; [|done]; by destruct sol). by rewrite <- app_assoc.
    + destruct (String.prefix "solana:" (rq_network o)); cbn [negb andb] in *; [|by apply IH].
      rewrite Hs. by apply IH.
Qed.

(** the selector returns the first option on Solana whose token and destination are
    both allowed; without one it fails, naming the first blocked destination when only the
    destinations stood in the way. No option outside the allowlists is ever returned. *)
Theorem selectPaymentOption_spec required config :
  selectPaymentOption required config =
  match find_by (acceptable config) (pq_accepts required) with
  | Some o => Ok o
  | None =>
      match filter (fun o => solana_token config o = true) (pq_accepts required) with
      | o :: _ => Throw (X402DestinationBlockedError (rq_payTo o))
      | [] => Throw X402UnsupportedError
      end
  end.
Proof. unfold selectPaymentOption. by rewrite select_loop_spec. Qed.

Lemma select_ok required config o :
  selectPaymentOption required config = Ok o ->
  o ∈ pq_accepts required /\ acceptable config o = true.
Proof.
  unfold selectPaymentOption. rewrite select_loop_spec by done.
  destruct (find_by _ _) as [o'|] eqn:Hf.
  - intros [= ->]. by apply find_by_some.
  - destruct (_ ++ _); discriminate.
Qed.

(** ** The header codec *)
Lemma string_field_ok entry f s :
  string_field entry f = Ok s -> exists fields, entry = JObj fields /\ jm_get f fields = Some (JStr s).
Proof.
  unfold string_field, js_field. destruct entry as [| | | | |fields]; try done.
  destruct (jm_get f fields) as [[]|] eqn:Hf; try done. intros [= ->]. eauto.
Qed.

Lemma check_entry_amount_ok amount :
  check_entry_amount amount = Ok tt <-> amount <> "" /\ exists v, js_BigInt amount = Some v /\ is_u64 v.
Proof.
  unfold check_entry_amount. case_bool_decide as Hs; cbn; [naive_solver|].
  destruct (js_BigInt amount) as [v|]; [|naive_solver].
  unfold throw_if, is_u64. destruct (Z.ltb_spec v 0); cbn.
  { split; [done|]. intros [_ (v' & [= <-] & ?)]. lia. }
  destruct (Z.gtb_spec v U64_MAX); cbn.
  { split; [done|]. intros [_ (v' & [= <-] & ?)]. lia. }
  split; [|done]. intros _. split; [done|]. exists v. split; [done|lia].
Qed.

Definition requirement_sound (r : PaymentRequirements) : Prop :=
  exists v, js_BigInt (rq_amount r) = Some v /\ is_u64 v.

Lemma validate_entries_sound l rs :
  validate_entries l = Ok rs ->
  rq_json <$> rs = l /\ Forall requirement_sound rs.
Proof.
  revert rs. induction l as [|entry l IH]; intros rs; cbn [validate_entries].
  - intros [= <-]. by split.
  - intros H. inv_bind H. injection H as <-. destruct (IH _ Hok0) as [<- Hs].
    unfold validate_entry in Hok.
    apply bind_ok_inv in Hok as (scheme & _ & Hok). apply bind_ok_inv in Hok as (network & _ & Hok).
    apply bind_ok_inv in Hok as (asset & _ & Hok). apply bind_ok_inv in Hok as (amount & _ & Hok).
    apply bind_ok_inv in Hok as ([] & Ha & Hok). apply bind_ok_inv in Hok as (payTo & _ & Hok).
    injection Hok as <-. apply check_entry_amount_ok in Ha as (_ & v & Hv & Hu).
    split; [done|]. constructor; [|done]. by exists v.
Qed.

Lemma validate_required_sound obj required :
  validate_required obj = Ok required ->
  pq_accepts required <> [] /\ Forall requirement_sound (pq_accepts required).
Proof.
  unfold validate_required.
  destruct (js_field obj "x402Version") as [[[]|]|]; try done.
  destruct (js_field obj "accepts") as [[[| | | |[|e l]|]|]|]; try done.
  destruct (js_field obj "resource") as [resource|]; [|done].
  intros H. apply bind_ok_inv in H as (entries & He & H). injection H as <-.
  destruct (validate_entries_sound _ _ He) as [Hj Hs]. split; [|done]. cbn.
  intros ->. by rewrite fmap_nil in Hj.
Qed.

Lemma decode_sound `{JsonLib} header required :
  decodePaymentRequiredHeader header = Ok required ->
  pq_accepts required <> [] /\ Forall requirement_sound (pq_accepts required).
Proof.
  unfold decodePaymentRequiredHeader. destruct (_ ≫= _); [|done]. apply validate_required_sound.
Qed.

(** the header codec loses nothing. Any header the client encodes decodes to the JSON
    text it was made from, and a header whose text is [text] is judged exactly by what
    [text] parses to: the base64 layer adds no failure and hides none. *)
Theorem x402_header_roundtrip `{JsonLib} payload text :
  base64Decode (encodePaymentSignatureHeader payload) = Some (JSON_stringify payload) /\
  decodePaymentRequiredHeader (base64Encode text) =
    match JSON_parse text with
    | None => Throw (X402ParseError "PAYMENT-REQUIRED")
    | Some obj => validate_required obj
    end.
Proof.
  unfold encodePaymentSignatureHeader, decodePaymentRequiredHeader, base64Decode, base64Encode.
  by rewrite !atob_btoa.
Qed.

(** A header that parses to [null] escapes the codec's own error: it is a [TypeError]. *)
Example null_header_type_error : validate_required JNull = Throw TypeErr.
Proof. reflexivity. Qed.

(** ** The amount guard *)
Lemma sort_by_bound (l : list Z) B i : Forall (fun a => a <= B) l -> 0 <= B ->
  default 0 (sort_by id l !! i) <= B.
Proof.
  intros Hl HB. destruct (sort_by id l !! i) as [a|] eqn:Hi; [|done]. cbn.
  apply list_elem_of_lookup_2 in Hi. rewrite sort_by_perm in Hi.
  rewrite Forall_forall in Hl. auto.
Qed.

Lemma getMedian_bound (l : list Z) B : Forall (fun a => a <= B) l -> 0 <= B -> getMedian l <= B.
Proof.
  intros Hl HB. unfold getMedian.
  pose proof (fun i => sort_by_bound l B i Hl HB) as H.
  destruct (_ =? _)%nat; [|apply H].
  pose proof (H (length (sort_by id l) / 2 - 1)%nat). pose proof (H (length (sort_by id l) / 2)%nat).
  set (x := default 0 _) in *. set (y := default 0 (_ !! (length (sort_by id l) / 2)%nat)) in *.
  destruct (Z.le_gt_cases 0 (x + y)).
  - rewrite Z.quot_div_nonneg by lia. apply Z.div_le_upper_bound; lia.
  - apply Z.le_trans with 0; [|done]. apply Z.quot_le_upper_bound; lia.
Qed.

(** A guard that was taken, or one that was not. *)
Ltac amount_guard_case :=
  split;
  [first [discriminate
         |intros [= <-]; split_and!; [done|lia|intros; simplify_eq; lia|intros; lia]]
  |intros ([= <-] & ? & Hm & Hspike);
   first [reflexivity
         |exfalso; first [lia|specialize (Hm _ eq_refl); lia
                         |assert (Hs := Hspike ltac:(lia) ltac:(lia)); lia]]].

Lemma validatePaymentAmount_ok recent s config v :
  validatePaymentAmount recent (JStr s) config = Ok v <->
  js_BigInt s = Some v /\ 0 < v /\ (forall m, config ≫= maxPaymentPerRequest = Some m -> v <= m) /\
  ((3 <= length recent)%nat -> 0 < getMedian recent -> v <= getMedian recent * SPIKE_MULTIPLIER).
Proof.
  unfold validatePaymentAmount. destruct (js_BigInt s) as [p|]; [|naive_solver].
  unfold throw_if. set (med := getMedian recent).
  destruct (Z.leb_spec p 0); [cbn; amount_guard_case|].
  destruct (config ≫= maxPaymentPerRequest) as [m|];
    [destruct (Z.gtb_spec p m); [cbn; amount_guard_case|]|];
    (destruct (Nat.leb_spec 3 (length recent)); [|cbn; amount_guard_case];
     destruct (Z.gtb_spec med 0); [|cbn; amount_guard_case];
     destruct (Z.gtb_spec p (med * SPIKE_MULTIPLIER)); cbn; amount_guard_case).
Qed.

Lemma recordPaymentAmount_length recent a :
  (length recent <= MAX_RECENT)%nat -> (length (recordPaymentAmount recent a) <= MAX_RECENT)%nat.
Proof.
  intros H. unfold recordPaymentAmount. destruct (Nat.ltb_spec MAX_RECENT (length (recent ++ [a]))).
  - rewrite length_drop, length_app in *. cbn in *. lia.
  - done.
Qed.

(** The last [n] elements. *)
Definition last_n {A} (n : nat) (l : list A) : list A := drop (length l - n) l.

Lemma last_n_app {A} n (l l' : list A) : last_n n (last_n n l ++ l') = last_n n (l ++ l').
Proof.
  unfold last_n. rewrite <- (drop_app_le l l') by lia. rewrite drop_drop, length_drop. f_equal.
  rewrite length_app. lia.
Qed.

Lemma recordPaymentAmount_last recent a :
  (length recent <= MAX_RECENT)%nat ->
  recordPaymentAmount recent a = last_n MAX_RECENT (recent ++ [a]).
Proof.
  intros Hr. unfold recordPaymentAmount, last_n.
  destruct (Nat.ltb_spec MAX_RECENT (length (recent ++ [a]))) as [H|H]; rewrite length_app in *;
    cbn [length] in *.
  - by replace (length recent + 1 - MAX_RECENT)%nat with 1%nat by lia.
  - by replace (length recent + 1 - MAX_RECENT)%nat with 0%nat by lia.
Qed.

(** [for (...) recordPaymentAmount(a)] keeps the last twenty. *)
Lemma recordPaymentAmount_run l :
  fold_left recordPaymentAmount l [] = last_n MAX_RECENT l.
Proof.
  induction l as [|a l IH] using rev_ind; [done|].
  rewrite fold_left_app, IH. cbn [fold_left]. rewrite recordPaymentAmount_last.
  - apply last_n_app.
  - unfold last_n. rewrite length_drop. lia.
Qed.

(** once three payments were made, an accepted amount is at most ten times the largest
    of the last twenty, whatever the order they came in, and never above the configured
    ceiling; it is the exact value of the server's decimal string. *)
Theorem amount_guard_bounds_growth payments s config v B :
  let recent := fold_left recordPaymentAmount payments [] in
  (3 <= length payments)%nat -> Forall (fun a => 0 < a) payments ->
  Forall (fun a => a <= B) recent ->
  validatePaymentAmount recent (JStr s) config = Ok v ->
  js_BigInt s = Some v /\ 0 < v <= B * SPIKE_MULTIPLIER /\
  forall m, config ≫= maxPaymentPerRequest = Some m -> v <= m.
Proof.
  intros recent Hl Hpos HB Hv. apply validatePaymentAmount_ok in Hv as (Hs & H0 & Hm & Hspike).
  assert (Hr : recent = drop (length payments - MAX_RECENT) payments)
    by apply recordPaymentAmount_run.
  assert (Hlen : (3 <= length recent)%nat) by (rewrite Hr, length_drop; unfold MAX_RECENT; lia).
  assert (Hp : Forall (fun a => 0 < a) recent) by (rewrite Hr; by apply Forall_drop).
  assert (HB0 : 0 <= B).
  { destruct recent as [|x r]; [cbn in Hlen; lia|]. apply Forall_cons in Hp as [? _].
    apply Forall_cons in HB as [? _]. lia. }
  pose proof (getMedian_bound recent B HB HB0) as Hmed.
  assert (Hmp : 0 < getMedian recent).
  { assert (Hpi : forall i, (i < length recent)%nat -> 1 <= default 0 (sort_by id recent !! i)).
    { intros i Hi. destruct (sort_by id recent !! i) as [a|] eqn:Ha.
      - apply list_elem_of_lookup_2 in Ha. rewrite sort_by_perm in Ha.
        rewrite Forall_forall in Hp. specialize (Hp a Ha). cbn. lia.
      - apply lookup_ge_None in Ha. rewrite sort_by_perm in Ha. lia. }
    assert (Hsl : length (sort_by id recent) = length recent) by (by rewrite sort_by_perm).
    unfold getMedian. rewrite Hsl.
    pose proof (Nat.div_lt (length recent) 2 ltac:(lia) ltac:(lia)) as Hd.
    pose proof (Hpi (length recent / 2)%nat Hd). pose proof (Hpi (length recent / 2 - 1)%nat ltac:(lia)).
    destruct (_ =? _)%nat; [|lia].
    rewrite Z.quot_div_nonneg by lia. apply Z.lt_le_trans with 1; [lia|].
    apply Z.div_le_lower_bound; lia. }
  specialize (Hspike Hlen Hmp). unfold SPIKE_MULTIPLIER in *. split_and!; [done|lia|lia|done].
Qed.

Lemma amount_guard_bounds_growth_witness :
  js_BigInt "20000000" = Some 20000000 /\ 0 < 20000000 <= 3000000 * SPIKE_MULTIPLIER /\
  forall m, (Some no_config) ≫= maxPaymentPerRequest = Some m -> 20000000 <= m.
Proof.
  apply (amount_guard_bounds_growth [2000000; 3000000; 2500000] "20000000" (Some no_config)
           20000000 3000000).
  - cbn. lia.
  - repeat (constructor; [lia|]). constructor.
  - change (Forall (fun a => a <= 3000000) [2000000; 3000000; 2500000]).
    repeat (constructor; [lia|]). constructor.
  - vm_compute. reflexivity.
Defined.

(** ** The replay tracker *)
Section replay.
Context `{UrlLib}.
Abbreviation Tracker := (NonceTracker (jsmap Z)).

Inductive nonce_op :=
  | NonceCheck (url payTo amount : string)
  | NonceRecord (url payTo amount : string)
  | NonceSize.

Definition nonce_step (t : Tracker) (op : nonce_op * Z) : Tracker :=
  match op with
  | (NonceCheck u p a, now) => (isDuplicate t u p a now).2
  | (NonceRecord u p a, now) => record_nonce t u p a now
  | (NonceSize, now) => (nonce_size t now).2
  end.

Definition nonce_run (ttl : Z) (ops : list (nonce_op * Z)) : Tracker :=
  fold_left nonce_step ops (new_nonce_tracker (Some ttl) None).

(** The specification: [key] was recorded and its lifetime has not ended at [now]. *)
Definition seen (ttl : Z) (ops : list (nonce_op * Z)) (key : string) (now : Z) : Prop :=
  exists u p a t, (NonceRecord u p a, t) ∈ ops /\ buildKey u p a = key /\ now <= t + ttl.

Lemma jm_get_filter {V} (P : string * V -> Prop) `{forall x, Decision (P x)} k (m : jsmap V) v :
  jm_wf m -> jm_get k (filter P m) = Some v <-> jm_get k m = Some v /\ P (k, v).
Proof.
  unfold jm_wf. induction m as [|[k' v'] m IH]; intros Hw; [cbn; naive_solver|].
  rewrite fmap_cons, NoDup_cons in Hw. destruct Hw as [Hk Hw]. cbn [fst] in Hk.
  rewrite filter_cons. destruct (decide (k = k')) as [->|Hne].
  - cbn [jm_get]. rewrite (decide_True (P := k' = k')) by done.
    assert (Hg : jm_get k' m = None).
    { destruct (jm_get k' m) as [w|] eqn:Hg; [|done]. exfalso. apply Hk.
      apply jm_has_spec. unfold jm_has. by rewrite Hg. }
    case_decide as HP; cbn [jm_get];
      [rewrite (decide_True (P := k' = k')) by done; naive_solver|].
    rewrite IH, Hg by done. naive_solver.
  - cbn [jm_get]. rewrite (decide_False (P := k = k')) by done.
    case_decide; cbn [jm_get]; rewrite ?(decide_False (P := k = k')) by done; by apply IH.
Qed.

Lemma filter_wf {V} (P : string * V -> Prop) `{forall x, Decision (P x)} (m : jsmap V) :
  jm_wf m -> jm_wf (filter P m).
Proof.
  unfold jm_wf. intros Hw. eapply sublist_NoDup; [done|].
  induction m as [|x m IH]; [done|]. rewrite fmap_cons, NoDup_cons in Hw.
  destruct Hw as [_ Hw]. rewrite filter_cons. case_decide; csimpl; constructor; auto.
Qed.

(** At time [last], the storage holds exactly what is still alive, with its last expiry. *)
Definition tracker_models (ttl : Z) (ops : list (nonce_op * Z)) (last : Z) (t : Tracker) : Prop :=
  nt_externalStorage t = None /\ nt_ttlMs t = ttl /\ jm_wf (nt_storage t) /\
  (forall k x, jm_get k (nt_storage t) = Some x -> exists u p a at_,
     (NonceRecord u p a, at_) ∈ ops /\ buildKey u p a = k /\ x = at_ + ttl /\ at_ <= last) /\
  (forall u p a at_, (NonceRecord u p a, at_) ∈ ops -> last <= at_ + ttl ->
     exists x, jm_get (buildKey u p a) (nt_storage t) = Some x /\ at_ + ttl <= x).

Lemma gc_models ttl ops last now t :
  tracker_models ttl ops last t -> last <= now -> tracker_models ttl ops now (gc t now).
Proof.
  intros (He & Ht & Hw & H1 & H2) Hn. split_and!; [done|done|by apply filter_wf| |].
  - intros k x Hk. apply jm_get_filter in Hk as [Hk _]; [|done].
    destruct (H1 _ _ Hk) as (u & p & a & at_ & ? & ? & ? & ?). exists u, p, a, at_.
    split_and!; [done..|lia].
  - intros u p a at_ Hin Hat. destruct (H2 u p a at_ Hin ltac:(lia)) as (x & Hx & Hle).
    exists x. split; [|done]. apply jm_get_filter; [done|]. cbn. split; [done|lia].
Qed.

Lemma models_snoc_check ttl ops last t op now :
  tracker_models ttl ops last t ->
  (forall u p a, op <> NonceRecord u p a) -> tracker_models ttl (ops ++ [(op, now)]) last t.
Proof.
  intros (He & Ht & Hw & H1 & H2) Hop. split_and!; [done..| |].
  - intros k x Hk. destruct (H1 _ _ Hk) as (u & p & a & at_ & Hin & ?).
    exists u, p, a, at_. split; [|done]. rewrite elem_of_app. by left.
  - intros u p a at_ Hin. apply elem_of_app in Hin as [Hin|Hin]; [by apply H2|].
    apply list_elem_of_singleton in Hin. naive_solver.
Qed.

Lemma record_models ttl ops last now t u p a :
  0 <= ttl -> tracker_models ttl ops last t -> last <= now ->
  tracker_models ttl (ops ++ [(NonceRecord u p a, now)]) now (record_nonce t u p a now).
Proof.
  intros Httl (He & Ht & Hw & H1 & H2) Hn. unfold record_nonce.
  split_and!; cbn [nt_externalStorage nt_ttlMs nt_storage ns_set InMemoryNonceStorage].
  - by rewrite He.
  - done.
  - by apply jm_set_wf.
  - rewrite Ht. intros k x. destruct (decide (buildKey u p a = k)) as [<-|Hne].
    + rewrite jm_get_set_eq. intros [= <-]. exists u, p, a, now.
      split_and!; [|done|done|lia]. rewrite elem_of_app, list_elem_of_singleton. by right.
    + rewrite jm_get_set_ne by done. intros Hk.
      destruct (H1 _ _ Hk) as (u' & p' & a' & at_ & Hin & ? & ? & ?).
      exists u', p', a', at_. split_and!; [|done|done|lia]. rewrite elem_of_app. by left.
  - rewrite Ht. intros u' p' a' at_ Hin Hat.
    destruct (decide (buildKey u p a = buildKey u' p' a')) as [Heq|Hne].
    + exists (now + ttl). rewrite <- Heq, jm_get_set_eq. split; [done|].
      apply elem_of_app in Hin as [Hin|Hin].
      * destruct (decide (last <= at_ + ttl)) as [Hl|]; [|lia].
        destruct (H2 _ _ _ _ Hin Hl) as (x & Hx & Hle).
        destruct (H1 _ _ Hx) as (_ & _ & _ & at2 & _ & _ & -> & Hat2). lia.
      * apply list_elem_of_singleton in Hin. simplify_eq. lia.
    + rewrite jm_get_set_ne by done. apply elem_of_app in Hin as [Hin|Hin].
      * apply H2; [done|lia].
      * apply list_elem_of_singleton in Hin. simplify_eq.
Qed.

(** The clock readings of the operations, in order, from [t0]. *)
Fixpoint clock_runs (t0 : Z) (ops : list (nonce_op * Z)) (last : Z) : Prop :=
  match ops with
  | [] => t0 <= last
  | (_, t) :: ops' => t0 <= t /\ clock_runs t ops' last
  end.

Lemma clock_runs_snoc t0 ops op t last :
  clock_runs t0 (ops ++ [(op, t)]) last -> clock_runs t0 ops t /\ t <= last.
Proof.
  revert t0. induction ops as [|[op' t'] ops IH]; intros t0; cbn; [naive_solver|].
  intros [? ?%IH]. naive_solver.
Qed.

Lemma tracker_models_later ttl ops last last' t :
  tracker_models ttl ops last t -> last <= last' -> tracker_models ttl ops last' t.
Proof.
  intros (He & Ht & Hw & H1 & H2) Hl. split_and!; [done..| |].
  - intros k x Hk. destruct (H1 _ _ Hk) as (u & p & a & at_ & ? & ? & ? & ?).
    exists u, p, a, at_. split_and!; [done..|lia].
  - intros u p a at_ Hin Hat. apply H2; [done|lia].
Qed.

Lemma nonce_run_models ttl t0 ops last :
  0 <= ttl -> clock_runs t0 ops last -> tracker_models ttl ops last (nonce_run ttl ops).
Proof.
  intros Httl. revert last. induction ops as [|[op t] ops IH] using rev_ind; intros last Hc.
  - split_and!; [done|done|by constructor|done|]. by intros ? ? ? ? ?%not_elem_of_nil.
  - apply clock_runs_snoc in Hc as [Hc Hl]. specialize (IH t Hc).
    apply tracker_models_later with t; [|done].
    unfold nonce_run. rewrite fold_left_app. cbn [fold_left]. fold (nonce_run ttl ops).
    destruct op as [u p a|u p a|]; cbn [nonce_step].
    + apply models_snoc_check; [|done]. by apply gc_models with t.
    + by apply record_models with t.
    + apply models_snoc_check; [|done]. by apply gc_models with t.
Qed.

(** replay protection is exact. Over any session of checks, records and sweeps, a
    payment is reported as a duplicate if and only if one with the same key (address
    without query, recipient, amount text) was recorded at most [ttl] milliseconds before;
    sweeping expired entries never forgets a live one. *)
Theorem replay_tracker_exact ttl t0 ops now url payTo amount :
  0 <= ttl -> clock_runs t0 ops now ->
  (isDuplicate (nonce_run ttl ops) url payTo amount now).1 = true <->
  seen ttl ops (buildKey url payTo amount) now.
Proof.
  intros Httl Hc. pose proof (nonce_run_models ttl t0 ops now Httl Hc) as Hm.
  pose proof (gc_models _ _ _ now _ Hm ltac:(lia)) as (He & Ht & Hw & H1 & H2).
  unfold isDuplicate. cbn [fst]. rewrite He, orb_false_r. cbn [ns_has InMemoryNonceStorage].
  unfold jm_has. split.
  - destruct (jm_get _ _) as [x|] eqn:Hx; [|done]. intros _.
    pose proof Hx as Hx'. apply jm_get_filter in Hx' as [_ Hlive];
      [|by destruct Hm as (_ & _ & ? & _)]. cbn in Hlive.
    destruct (H1 _ _ Hx) as (u & p & a & at_ & Hin & Hk & -> & _).
    exists u, p, a, at_. split_and!; [done|done|lia].
  - intros (u & p & a & at_ & Hin & <- & Hl).
    by destruct (H2 u p a at_ Hin Hl) as (x & -> & _).
Qed.
End replay.

(** A printer of URLs that drops the query and keeps the rest. *)
Definition demo_url : UrlLib := {| url_without_search u :=
  Some (String.string_of_list_ascii
          (span (fun c => negb (code c =? 63)) (String.list_ascii_of_string u)).1) |}.

Lemma replay_tracker_exact_witness :
  (@isDuplicate demo_url (jsmap Z) _
     (@nonce_run demo_url 300 [(NonceRecord "https://a/x?q=1" "shop" "5", 100);
                               (NonceCheck "https://a/y" "shop" "5", 250)])
     "https://a/x?q=2" "shop" "5" 400).1 = true.
Proof.
  apply (@replay_tracker_exact demo_url 300 0).
  - done.
  - cbn. lia.
  - exists "https://a/x?q=1", "shop", "5", 100. split_and!; [left|vm_compute; reflexivity|lia].
Defined.

(** The key holds the text of the amount, not its value: the same payment spelled
    differently has another key. *)
Lemma replay_key_by_spelling `{UrlLib} :
  js_BigInt "1000000" = js_BigInt "0xF4240" /\ js_BigInt "1000000" = js_BigInt "01000000" /\
  buildKey "https://a/x" "shop" "1000000" <> buildKey "https://a/x" "shop" "0xF4240".
Proof.
  split; [by vm_compute|]. split; [by vm_compute|]. unfold buildKey.
  set (u := match _ with Some _ => _ | None => _ end). intros Heq.
  assert (Happ : forall a b c, a +:+ b = a +:+ c -> b = c).
  { induction a as [|x a IH]; cbn; [done|]. intros b c [= H']. auto. }
  by apply Happ in Heq.
Qed.
