(* ===== verification/X402FlowSpec.v ===== *)
(** * The x402 flow as a whole

    Theorems about [shieldedFetch] and sequences of calls, by weakest preconditions: a
    payment is made only when every guard allowed it, the number of requests is bounded, a
    refused call changes nothing, a replay is refused, the cumulative limit is kept. *)

From Stdlib Require Import QArith.
From S2P Require Import Prelude Types Accounts Bytes Numbers JsText Tokens OnChain StateResolver Inspector Policies Ledger Shield Pdas Composer RpcHelpers X402 X402Fetch X402Spec.
Local Open Scope string_scope.
Local Open Scope Z_scope.
Local Open Scope list_scope.

(** ** Weakest preconditions *)
Definition wp {C A} (m : flow C A) (w : X402World C)
    (Q : res x402_error A -> X402World C -> list effect -> Prop) : Prop :=
  let '(r, w', es) := m w in Q r w' es.

Section wp.
Context {C : Type}.
Implicit Types (w : X402World C) (es : list effect).

Lemma wp_ret {A} (a : A) w Q : wp (mret a) w Q <-> Q (Ok a) w [].
Proof. done. Qed.

Lemma wp_bind {A B} (m : flow C A) (f : A -> flow C B) w Q :
  wp (m ≫= f) w Q <->
  wp m w (fun r w' es =>
    match r with
    | Ok a => wp (f a) w' (fun r' w'' es' => Q r' w'' (es ++ es'))
    | Throw e => Q (Throw e) w' es
    end).
Proof.
  unfold wp, mbind, flow_bind. destruct (m w) as [[[a|e] w'] es]; [|done].
  by destruct (f a w') as [[r' w''] es'].
Qed.

Lemma wp_mono {A} (m : flow C A) w (Q Q' : res x402_error A -> X402World C -> list effect -> Prop) :
  wp m w Q -> (forall r w' es, Q r w' es -> Q' r w' es) -> wp m w Q'.
Proof. unfold wp. destruct (m w) as [[r w'] es]. auto. Qed.

Lemma wp_lift {A} (r : res x402_error A) w Q : wp (lift r) w Q <-> Q r w [].
Proof. done. Qed.

Lemma wp_effect e w Q : wp (effect_ e) w Q <-> Q (Ok tt) w [e].
Proof. done. Qed.

(** A result of the flow is an instance of its weakest precondition. *)
Lemma wp_run {A} (m : flow C A) w Q r w' es : wp m w Q -> m w = (r, w', es) -> Q r w' es.
Proof. unfold wp. intros H Hm. by rewrite Hm in H. Qed.
End wp.

(** ** What the effects say *)
Definition paid_request (e : effect) : bool :=
  match e with Requested (Some _) => true | _ => false end.
Definition request_effect (e : effect) : bool :=
  match e with Requested _ => true | _ => false end.
Definition signed_messages (es : list effect) : list TransactionMessage :=
  omap (fun e => match e with Signed m => Some m | _ => None end) es.
Definition count_effects (p : effect -> bool) (es : list effect) : nat :=
  length (filter (fun e => p e = true) es).

(** No payment leaves: nothing is signed, no request carries a payment. *)
Definition harmless (es : list effect) : Prop :=
  signed_messages es = [] /\ count_effects paid_request es = 0%nat.

Lemma signed_app es es' : signed_messages (es ++ es') = signed_messages es ++ signed_messages es'.
Proof. unfold signed_messages. apply omap_app. Qed.

Lemma count_app p es es' : count_effects p (es ++ es') = (count_effects p es + count_effects p es')%nat.
Proof. unfold count_effects. by rewrite filter_app, length_app. Qed.

Lemma harmless_app es es' : harmless es -> harmless es' -> harmless (es ++ es').
Proof. intros [H1 H2] [H3 H4]. split; [by rewrite signed_app, H1, H3|rewrite count_app; lia]. Qed.

Lemma harmless_nil : harmless [].
Proof. done. Qed.
#[export] Hint Resolve harmless_nil harmless_app : kit.

(** What a call without a payment may change: expired replay entries go. *)
Definition swept {C} (now : Z) (w w' : X402World C) : Prop :=
  xw_recent w' = xw_recent w /\ xw_shield w' = xw_shield w /\
  (xw_nonces w' = xw_nonces w \/ xw_nonces w' = gc (xw_nonces w) now).

Section guards.
Context {C Tx : Type} `{lib : !TxLib Tx} `{JsonLib} `{UrlLib} `{Base58Lib} `{PdaEnv}.
Implicit Types (config : option X402Config) (env : FetchEnv Tx) (w : X402World C).

(** Everything that was checked before the payment of [selected]. *)
Record authorised config env (o : option ShieldedFetchOptions) (urlStr : string) w
    (required : PaymentRequired) (selected : PaymentRequirements) (parsedAmount : Z) : Prop := {
  au_url : check_url config urlStr = Ok tt;
  au_header : exists response header, fe_fetch env 0 = Ok response /\ rp_status response = 402 /\
      rp_paymentRequired response = Some header /\
      decodePaymentRequiredHeader header = Ok required;
  au_selected : selected ∈ pq_accepts required /\ acceptable config selected = true;
  au_once : hasPaymentSignatureHeader (default [] (fo_headers <$> o)) = false;
  au_replay : replay_protected config = true ->
      (isDuplicate (xw_nonces w) urlStr (rq_payTo selected) (rq_amount selected)
         (fe_replayAt env)).1 = false;
  au_amount : validatePaymentAmount (xw_recent w) (JStr (rq_amount selected)) config
      = Ok parsedAmount;
  au_max : forall m, o ≫= fo_maxPayment = Some m -> parsedAmount <= m;
  au_policy : forall shieldCtx, xw_shield w = Some shieldCtx ->
      evaluateX402Payment selected shieldCtx config (Some (fe_signer env)) (fe_policyAt env) = Ok [];
  au_live : default false (fo_dryRun <$> o) = false;
}.

Lemma replay_check_wp config env urlStr selected w :
  wp (replay_check config env urlStr selected) w (fun r w' es =>
    es = [] /\ swept (fe_replayAt env) w w' /\
    (r = Ok tt -> replay_protected config = true ->
       (isDuplicate (xw_nonces w) urlStr (rq_payTo selected) (rq_amount selected)
          (fe_replayAt env)).1 = false)).
Proof.
  unfold replay_check. destruct (replay_protected config).
  - apply wp_bind. unfold get_world, wp at 1. unfold checkOrThrow.
    destruct (isDuplicate _ _ _ _ _) as [dup n] eqn:Hd. cbn.
    split_and!; [done|split_and!; [done|done|right]|].
    + unfold isDuplicate in Hd. by injection Hd as _ <-.
    + intros Hr _. by destruct dup.
  - apply wp_ret. split_and!; [done|split_and!; [done|done|by left]|done].
Qed.

Lemma amount_check_wp config o selected w :
  wp (amount_check config o selected) w (fun r w' es =>
    es = [] /\ w' = w /\ forall a, r = Ok a ->
      validatePaymentAmount (xw_recent w) (JStr (rq_amount selected)) config = Ok a /\
      forall m, o ≫= fo_maxPayment = Some m -> a <= m).
Proof.
  unfold amount_check. apply wp_bind. unfold get_world, wp at 1. apply wp_bind, wp_lift.
  destruct (validatePaymentAmount _ _ _) as [a|e]; [|by split_and!].
  apply wp_bind, wp_lift. unfold throw_if.
  destruct (o ≫= fo_maxPayment) as [m|]; [destruct (Z.gtb_spec a m); [by split_and!|]|];
    apply wp_ret; (split_and!; [done|done|]); intros a' [= <-]; (split; [done|]).
  - intros m' [= <-]. lia.
  - done.
Qed.

Lemma policy_check_wp config env urlStr selected w :
  wp (policy_check config env urlStr selected) w (fun r w' es =>
    harmless es /\ count_effects request_effect es = 0%nat /\ w' = w /\
    (r = Ok tt -> es = [] /\ forall shieldCtx, xw_shield w = Some shieldCtx ->
       evaluateX402Payment selected shieldCtx config (Some (fe_signer env)) (fe_policyAt env)
         = Ok [])).
Proof.
  unfold policy_check. apply wp_bind. unfold get_world, wp at 1. cbn [app].
  destruct (xw_shield w) as [sh|]; [|by apply wp_ret; split_and!].
  apply wp_bind, wp_lift.
  destruct (evaluateX402Payment _ _ _ _ _) as [vs|e] eqn:He; [|by split_and!].
  case_bool_decide as Hv.
  - apply wp_ret. subst vs. split_and!; [done..|]. intros _. split; [done|]. by intros ? [= <-].
  - apply wp_bind, wp_effect. cbn. by split_and!.
Qed.

(** The flow stops before any payment. *)
Ltac guard_stop :=
  split; [done|split; [first [apply Nat.le_refl|apply Nat.le_0_l]|split; [done|done]]].

(** The guards only decide; what they let through is authorised. *)
Lemma payment_guards_wp config env o urlStr w :
  wp (payment_guards config env o urlStr) w (fun r w' es =>
    harmless es /\ (count_effects request_effect es <= 1)%nat /\ swept (fe_replayAt env) w w' /\
    match r with
    | Ok (Pay required selected parsedAmount) =>
        authorised config env o urlStr w required selected parsedAmount
    | _ => True
    end).
Proof.
  assert (Hsw : swept (fe_replayAt env) w w) by (split_and!; [done|done|by left]).
  unfold payment_guards. apply wp_bind, wp_lift.
  destruct (check_url config urlStr) as [[]|e] eqn:Hurl; [|guard_stop].
  apply wp_bind. unfold request. apply wp_bind, wp_effect. cbn [app]. apply wp_lift.
  destruct (fe_fetch env 0) as [response|e] eqn:Hf; [|guard_stop].
  cbn [app]. destruct (rp_status response =? 402) eqn:Hst; cbn [negb];
    [|apply wp_ret; guard_stop].
  destruct (nonempty (rp_paymentRequired response)) as [header|] eqn:Hh;
    [|apply wp_ret; guard_stop].
  apply wp_bind, wp_lift. unfold throw_if at 1.
  destruct (hasPaymentSignatureHeader _) eqn:Hsig; [guard_stop|].
  apply wp_bind, wp_lift.
  destruct (decodePaymentRequiredHeader header) as [required|e] eqn:Hd; [|guard_stop].
  apply wp_bind, wp_lift.
  destruct (selectPaymentOption required config) as [selected|e] eqn:Hs; [|guard_stop].
  apply wp_bind. eapply wp_mono; [apply replay_check_wp|]. cbn beta.
  intros r1 w1 es1 (-> & Hsw1 & Hrep). destruct r1 as [[]|e]; [|guard_stop].
  apply wp_bind. eapply wp_mono; [apply amount_check_wp|]. cbn beta.
  intros r2 w2 es2 (-> & -> & Ham). destruct r2 as [a|e]; [|guard_stop].
  destruct (Ham a eq_refl) as [Hva Hmax]. destruct Hsw1 as (Hr1 & Hs1 & Hn1).
  apply wp_bind. eapply wp_mono; [apply policy_check_wp|]. cbn beta.
  intros r3 w3 es3 (Hh3 & Hc3 & -> & Hpol). cbn [app].
  assert (Hsw' : swept (fe_replayAt env) w w1) by done.
  destruct r3 as [[]|e].
  - destruct (Hpol eq_refl) as [-> Hp].
    destruct (default false (fo_dryRun <$> o)) eqn:Hdry; apply wp_ret;
      [guard_stop|split; [done|split; [apply Nat.le_refl|split; [done|]]]].
    split; try done.
    + exists response, header. split_and!; [done|by apply Z.eqb_eq| |done].
      destruct (rp_paymentRequired response) as [[|c s]|]; by simplify_eq/=.
    + by apply select_ok.
    + by apply Hrep.
    + by rewrite <- Hr1.
    + intros sh Hsh. apply Hp. by rewrite Hs1.
  - split; [|split; [|split; [done|done]]].
    + apply (harmless_app [Requested None]); [done|]. done.
    + change (count_effects request_effect ([Requested None] ++ es3) <= 1)%nat.
      rewrite count_app. rewrite Hc3. apply Nat.le_refl.
Qed.
End guards.

(** ** The payment *)
Section pay.
Context {C Tx : Type} `{lib : !TxLib Tx} `{JsonLib} `{UrlLib} `{Base58Lib} `{PdaEnv}.
Implicit Types (config : option X402Config) (env : FetchEnv Tx) (w : X402World C).

(** A paid request carries [signature]; the unpaid one is not repeated. *)
Definition pays_with (signature : string) (es : list effect) : Prop :=
  Forall (fun e => match e with Requested s => s = Some signature | _ => True end) es.

Definition paid_trace (signature : string) (n : nat) (es : list effect) : Prop :=
  pays_with signature es /\ count_effects request_effect es = n /\
  count_effects paid_request es = n /\ signed_messages es = [].

Lemma paid_trace_app signature n n' es es' :
  paid_trace signature n es -> paid_trace signature n' es' ->
  paid_trace signature (n + n') (es ++ es').
Proof.
  intros (P1 & P2 & P3 & P4) (P5 & P6 & P7 & P8). split_and!.
  - apply Forall_app. by split.
  - by rewrite count_app, P2, P6.
  - by rewrite count_app, P3, P7.
  - by rewrite signed_app, P4, P8.
Qed.

Lemma paid_trace_nil signature : paid_trace signature 0 [].
Proof. split_and!; done || constructor. Qed.

Lemma request_wp env n signature w :
  wp (request env n (Some signature)) w (fun r w' es =>
    r = fe_fetch env n /\ w' = w /\ paid_trace signature 1 es).
Proof.
  unfold request. apply wp_bind, wp_effect. cbn [app]. apply wp_lift.
  split; [done|]. split; [done|]. split_and!; [|done..]. by repeat constructor.
Qed.

Lemma retry_loop_wp env signature n retries resp w :
  wp (retry_loop env signature n retries resp) w (fun r w' es =>
    w' = w /\ exists k, (k <= retries)%nat /\ paid_trace signature k es).
Proof.
  revert n resp w. induction retries as [|retries IH]; intros n resp w; cbn [retry_loop].
  - apply wp_ret. split; [done|]. exists 0%nat. split; [lia|apply paid_trace_nil].
  - destruct (is_2xx resp).
    + apply wp_ret. split; [done|]. exists 0%nat. split; [lia|apply paid_trace_nil].
    + apply wp_bind. eapply wp_mono; [apply request_wp|]. cbn beta.
      intros r w1 es (_ & -> & Hp). destruct r as [next|e].
      * eapply wp_mono; [apply IH|]. cbn beta. intros r2 w2 es2 (-> & k & Hk & Hp2).
        split; [done|]. exists (1 + k)%nat. split; [lia|]. by apply paid_trace_app.
      * split; [done|]. exists 1%nat. split; [lia|done].
Qed.

Lemma max_retries_range config : 1 <= max_retries config <= 3.
Proof. unfold max_retries. lia. Qed.

Lemma send_payment_wp config env signature w :
  wp (send_payment config env signature) w (fun r w' es =>
    w' = w /\ exists k, (1 <= k)%nat /\ Z.of_nat k <= max_retries config /\ paid_trace signature k es).
Proof.
  pose proof (max_retries_range config).
  unfold send_payment. apply wp_bind. eapply wp_mono; [apply request_wp|]. cbn beta.
  intros r w1 es (_ & -> & Hp). destruct r as [first|e].
  - eapply wp_mono; [apply retry_loop_wp|]. cbn beta. intros r2 w2 es2 (-> & k & Hk & Hp2).
    split; [done|]. exists (1 + k)%nat. split; [lia|]. split; [lia|]. by apply paid_trace_app.
  - split; [done|]. exists 1%nat. split; [lia|]. split; [lia|done].
Qed.

(** The state after a payment that the server accepted. *)
Definition after_payment config env (rpc : X402Rpc) (urlStr : string)
    (selected : PaymentRequirements) (parsedAmount : Z) (retryResponse : Response) w w' : Prop :=
  xw_nonces w' = (if replay_protected config
                  then record_nonce (xw_nonces w) urlStr (rq_payTo selected) (rq_amount selected)
                         (fe_paidAt env)
                  else xw_nonces w) /\
  xw_recent w' = recordPaymentAmount (xw_recent w) parsedAmount /\
  xw_shield w' =
    match should_record config rpc (settlement_of retryResponse) with
    | Some (Ok true) =>
        (fun sh => recordX402Spend sh (rq_asset selected) parsedAmount (fe_spentAt env)) <$> xw_shield w
    | _ => xw_shield w
    end.

Lemma record_payment_wp config env rpc urlStr selected a retryResponse w :
  wp (record_payment config env rpc urlStr selected a (settlement_of retryResponse)) w
    (fun r w' es => es = [] /\ after_payment config env rpc urlStr selected a retryResponse w w' /\
      match r with
      | Ok _ => is_Some (should_record config rpc (settlement_of retryResponse)) /\
                forall e, should_record config rpc (settlement_of retryResponse) <> Some (Throw e)
      | Throw _ => forall b, should_record config rpc (settlement_of retryResponse) <> Some (Ok b)
      end).
Proof.
  unfold record_payment, after_payment. apply wp_bind. unfold get_world, wp at 1. apply wp_bind.
  set (n := record_nonce _ _ _ _ _). set (settlement := settlement_of retryResponse).
  assert (Hrest : forall m, wp
    (put_recent (recordPaymentAmount (xw_recent w) a) ;;
     match should_record config rpc settlement with
     | None => lift (Throw TypeErr)
     | Some r =>
         shouldRecordSpend ← lift r;
         match xw_shield w with
         | Some shieldCtx =>
             if (shouldRecordSpend : bool)
             then put_shield (Some (recordX402Spend shieldCtx (rq_asset selected) a (fe_spentAt env)))
             else mret tt
         | None => mret tt
         end
     end) (mkWorld m (xw_recent w) (xw_shield w)) (fun r w' es => es = [] /\
       (xw_nonces w' = m /\ xw_recent w' = recordPaymentAmount (xw_recent w) a /\
        xw_shield w' = match should_record config rpc settlement with
           | Some (Ok true) =>
               (fun sh => recordX402Spend sh (rq_asset selected) a (fe_spentAt env)) <$> xw_shield w
           | _ => xw_shield w end) /\
       match r with
       | Ok _ => is_Some (should_record config rpc settlement) /\
                 forall e, should_record config rpc settlement <> Some (Throw e)
       | Throw _ => forall b, should_record config rpc settlement <> Some (Ok b)
       end)).
  { intros m. apply wp_bind. unfold put_recent, wp at 1.
    destruct (should_record config rpc settlement) as [[b|e]|];
      [|by apply wp_bind, wp_lift; split_and!|by apply wp_lift; split_and!].
    apply wp_bind, wp_lift. destruct (xw_shield w) as [sh|] eqn:Hsh; [destruct b|destruct b];
      (unfold put_shield, wp at 1 || apply wp_ret); (split; [done|]; split; [done|]; split; eauto). }
  destruct (replay_protected config).
  - unfold put_nonces, wp at 1. apply Hrest.
  - apply wp_ret. specialize (Hrest (xw_nonces w)). by destruct w.
Qed.

(** Audit events neither sign nor request. *)
Definition only_events (es : list effect) : Prop :=
  Forall (fun e => exists ev, e = Emitted ev) es.

Lemma only_events_trace signature es : only_events es -> paid_trace signature 0 es.
Proof.
  induction 1 as [|e es (ev & ->) Hes IH]; [apply paid_trace_nil|].
  apply (paid_trace_app signature 0 0 [Emitted ev]); [|done].
  split_and!; [by repeat constructor|done..].
Qed.

Lemma mismatch_event_wp env urlStr selected expected settlement w :
  wp (mismatch_event env urlStr selected expected settlement) w
    (fun r w' es => r = Ok tt /\ w' = w /\ only_events es).
Proof.
  unfold mismatch_event.
  destruct (nonempty expected), (settlement_transaction settlement) as [[]|]; cbn -[decide];
    try case_decide; split_and!; try done; repeat constructor; by eexists.
Qed.

(** How a payment that was sent can end. *)
Inductive payment_end config env (rpc : X402Rpc) (urlStr : string) (selected : PaymentRequirements)
    (a : Z) (w w' : X402World C) : res x402_error ShieldedFetchResponse -> Prop :=
  | EndError e : w' = w -> payment_end config env rpc urlStr selected a w w' (Throw e)
  | EndRefused resp p :
      w' = w -> is_2xx resp = false -> pr_paid p = false ->
      payment_end config env rpc urlStr selected a w w' (Ok (mkShieldedResponse resp (Some p)))
  | EndPaid resp b :
      is_2xx resp = true -> after_payment config env rpc urlStr selected a resp w w' ->
      should_record config rpc (settlement_of resp) = Some (Ok b) ->
      payment_end config env rpc urlStr selected a w w'
        (Ok (mkShieldedResponse resp (Some (mkPaymentResult true (rq_amount selected)
           (rq_asset selected) (rq_payTo selected) (settlement_of resp)))))
  | EndUnconfirmed resp e :
      is_2xx resp = true -> after_payment config env rpc urlStr selected a resp w w' ->
      (forall b, should_record config rpc (settlement_of resp) <> Some (Ok b)) ->
      payment_end config env rpc urlStr selected a w w' (Throw e).

Lemma settle_payment_wp config env rpc urlStr selected a expected resp w :
  wp (settle_payment config env rpc urlStr selected a expected resp) w (fun r w' es =>
    only_events es /\ payment_end config env rpc urlStr selected a w w' r).
Proof.
  unfold settle_payment. apply wp_bind. eapply wp_mono; [apply mismatch_event_wp|]. cbn beta.
  intros r1 w1 es1 (-> & -> & Hev1). apply wp_bind.
  destruct (is_2xx resp) eqn:Hok.
  - apply wp_bind. eapply wp_mono; [apply record_payment_wp|]. cbn beta.
    intros r2 w2 es2 (-> & Hafter & Hr). destruct r2 as [[]|e].
    + apply wp_effect, wp_ret. cbn [app]. destruct Hr as [[[b|e] Hs] Hne]; [|by destruct (Hne e)].
      split; [|by eapply EndPaid].
      apply Forall_app. split; [done|]. repeat constructor. by eexists.
    + rewrite app_nil_r. split; [done|]. by eapply EndUnconfirmed.
  - apply wp_effect, wp_ret. cbn [app]. split; [|by eapply EndRefused].
    apply Forall_app. split; [done|]. repeat constructor. by eexists.
Qed.

(** What was sent for one payment, and to whom. *)
Record payment_sent config env (selected : PaymentRequirements) (a : Z) (es : list effect)
    (k : nat) : Prop := {
  ps_signed : exists blockhash, signed_messages es = [payment_message env blockhash selected a];
  ps_signature : exists signature, pays_with signature es;
  ps_count : count_effects paid_request es = k /\ count_effects request_effect es = k;
  ps_bound : (1 <= k)%nat /\ Z.of_nat k <= max_retries config;
}.

Lemma pay_wp config env urlStr required selected a w :
  wp (pay config env urlStr required selected a) w (fun r w' es =>
    (es = [] /\ w' = w /\ exists e, r = Throw e) \/
    exists k rpc, fe_rpc env = Some rpc /\ payment_sent config env selected a es k /\
      payment_end config env rpc urlStr selected a w w' r).
Proof.
  unfold pay. apply wp_bind. unfold sign_payment.
  destruct (fe_rpc env) as [rpc|]; [|apply wp_lift; left; eauto].
  apply wp_bind, wp_lift. destruct (xr_blockhash rpc) as [blockhash|e]; [|left; eauto].
  cbv zeta. apply wp_bind, wp_lift.
  destruct (sdk_res _) as [wire|e]; [|left; eauto].
  apply wp_bind, wp_effect, wp_ret. cbn [app].
  set (signature := encodePaymentSignatureHeader _).
  apply wp_bind. eapply wp_mono; [apply send_payment_wp|]. cbn beta.
  intros r1 w1 es1 (-> & k & Hk1 & Hk2 & Htr).
  set (m := payment_message env blockhash selected a).
  assert (Hsent : forall es2, only_events es2 -> payment_sent config env selected a (Signed m :: es1 ++ es2) k).
  { intros es2 He. pose proof (paid_trace_app _ _ _ _ _ Htr (only_events_trace signature es2 He))
      as (T1 & T2 & T3 & T4). rewrite Nat.add_0_r in T2, T3. split.
    - exists blockhash. change (signed_messages ([Signed m] ++ es1 ++ es2) = [m]).
      by rewrite signed_app, T4.
    - exists signature. by constructor.
    - change (count_effects paid_request ([Signed m] ++ es1 ++ es2) = k /\
              count_effects request_effect ([Signed m] ++ es1 ++ es2) = k).
      rewrite !(count_app _ [Signed m]), T2, T3. done.
    - done. }
  destruct r1 as [resp|e].
  - eapply wp_mono; [apply settle_payment_wp|]. cbn beta. intros r2 w2 es2 [He Hend].
    right. exists k, rpc. split; [done|]. split; [by apply Hsent|done].
  - right. exists k, rpc. split; [done|]. split; [|by apply EndError].
    rewrite <- (app_nil_r es1). apply Hsent. constructor.
Qed.

(** A call, in full: it stops at the guards, or pays what they authorised. *)
Lemma shieldedFetch_wp config env o urlStr w :
  wp (shieldedFetch config env o urlStr) w (fun r w' es =>
    (harmless es /\ swept (fe_replayAt env) w w' /\ (count_effects request_effect es <= 1)%nat /\
     forall resp, r = Ok resp -> forall p, sf_x402 resp = Some p -> pr_paid p = false) \/
    exists required selected a k rpc w0 es0 es1,
      authorised config env o urlStr w required selected a /\ swept (fe_replayAt env) w w0 /\
      es = es0 ++ es1 /\ harmless es0 /\ (count_effects request_effect es0 <= 1)%nat /\
      fe_rpc env = Some rpc /\ payment_sent config env selected a es1 k /\
      payment_end config env rpc urlStr selected a w0 w' r).
Proof.
  unfold shieldedFetch. apply wp_bind. eapply wp_mono; [apply payment_guards_wp|]. cbn beta.
  intros r0 w0 es0 (Hh & Hc & Hsw & Hau). destruct r0 as [[resp|selected|required selected a]|e].
  - apply wp_ret. left. rewrite app_nil_r. split_and!; [done..|]. by intros ? [= <-].
  - apply wp_ret. left. rewrite app_nil_r. split_and!; [done..|]. by intros ? [= <-] p [= <-].
  - eapply wp_mono; [apply pay_wp|]. cbn beta.
    intros r w' es [(-> & -> & e & ->)|(k & rpc & Hrpc & Hs & He)].
    + left. rewrite app_nil_r. split_and!; done.
    + right. exists required, selected, a, k, rpc, w0, es0, es. split_and!; done.
  - left. split_and!; done.
Qed.
End pay.

(** ** One call *)
Section one_call.
Context {C Tx : Type} `{lib : !TxLib Tx} `{JsonLib} `{UrlLib} `{Base58Lib} `{PdaEnv}.
Implicit Types (config : option X402Config) (env : FetchEnv Tx) (w : X402World C).

Lemma authorised_amount config env o urlStr w required selected a :
  authorised config env o urlStr w required selected a -> 0 < a /\ is_u64 a.
Proof.
  intros Ha. pose proof (au_header _ _ _ _ _ _ _ _ Ha) as (resp & header & _ & _ & _ & Hd).
  pose proof (au_amount _ _ _ _ _ _ _ _ Ha) as (Hv & Hpos & _)%validatePaymentAmount_ok.
  pose proof (au_selected _ _ _ _ _ _ _ _ Ha) as [Hin _].
  apply decode_sound in Hd as [_ Hs]. rewrite Forall_forall in Hs.
  destruct (Hs _ Hin) as (v & Hv' & Hu). rewrite Hv in Hv'. injection Hv' as <-. done.
Qed.

Lemma harmless_dec es : harmless es \/ ~ harmless es.
Proof.
  unfold harmless. destruct (signed_messages es); [|right; by intros [? _]].
  destruct (decide (count_effects paid_request es = 0%nat)); [by left|right; by intros [_ ?]].
Qed.

(** C3: a call pays only what its guards allowed. If anything was signed or any request
    carried a payment, then the server's header offered that payment, it is on Solana with
    an allowed token and destination, its amount is a positive [u64] under the per-request
    ceiling and the caller's maximum and not a spike, the URL is acceptable, it was no
    replay and no dry run and the shield had no objection; exactly one transaction was
    signed, whose only instruction transfers exactly that amount of that token to that
    destination; and at most three requests carried it. *)
Theorem x402_pays_only_authorised config env o urlStr w r w' es :
  shieldedFetch config env o urlStr w = (r, w', es) -> ~ harmless es ->
  exists required selected a blockhash,
    authorised config env o urlStr w required selected a /\ 0 < a <= U64_MAX /\
    signed_messages es = [payment_message env blockhash selected a] /\
    (count_effects paid_request es <= 3)%nat /\
    analyzeInstructions
      (transferToInspectable <$> tm_instructions (payment_message env blockhash selected a))
      (fe_signer env)
    = mkAnalysis [TOKEN_PROGRAM_ADDRESS]
        [mkTransfer (Some (rq_asset selected)) a (Pda.deriveAta (fe_signer env) (rq_asset selected))
           (Pda.deriveAta (rq_payTo selected) (rq_asset selected)) (fe_signer env)] a [].
Proof.
  intros Hrun Hpay. pose proof (wp_run _ _ _ _ _ _ (shieldedFetch_wp config env o urlStr w) Hrun)
    as [(Hh & _)|(required & selected & a & k & rpc & w0 & es0 & es1 & Hau & _ & -> & Hh & _ & _ & Hs & _)];
    [done|].
  destruct (ps_signed _ _ _ _ _ _ Hs) as (blockhash & Hsig).
  destruct (ps_count _ _ _ _ _ _ Hs) as [Hc _]. destruct (ps_bound _ _ _ _ _ _ Hs) as [_ Hb].
  pose proof (max_retries_range config). destruct Hh as [Hh1 Hh2].
  pose proof (authorised_amount _ _ _ _ _ _ _ _ Hau) as [Hpos Hu].
  exists required, selected, a, blockhash. split_and!; [done|lia|by destruct Hu| | |].
  - by rewrite signed_app, Hh1, Hsig.
  - rewrite count_app, Hh2, Hc. lia.
  - unfold payment_message. cbn [tm_instructions fmap list_fmap].
    rewrite built_transfer_inspected by done. by rewrite decide_True.
Qed.

(** the number of requests of a call is bounded by its configuration: one to learn the
    price and between one and [maxRetries], at most three, to pay it; every paid request
    carries the same payment, and a call that fails before paying leaves the spending
    state and the payment history as they were. *)
Theorem x402_requests_bounded config env o urlStr w r w' es :
  shieldedFetch config env o urlStr w = (r, w', es) ->
  (Z.of_nat (count_effects request_effect es) <= 1 + max_retries config) /\
  max_retries config <= 3 /\
  (exists signature, Forall (fun e => forall s, e = Requested (Some s) -> s = signature) es) /\
  (harmless es -> xw_shield w' = xw_shield w /\ xw_recent w' = xw_recent w).
Proof.
  intros Hrun. pose proof (max_retries_range config).
  pose proof (wp_run _ _ _ _ _ _ (shieldedFetch_wp config env o urlStr w) Hrun)
    as [(Hh & (Hr & Hsh & _) & Hc & _)|
        (required & selected & a & k & rpc & w0 & es0 & es1 & Hau & Hsw & -> & Hh & Hc & _ & Hs & _)].
  - split_and!; [lia|lia| |done]. exists "". destruct Hh as [_ Hh].
    apply Forall_forall. intros e He s ->. exfalso. unfold count_effects in Hh.
    apply length_zero_iff_nil in Hh. apply filter_nil_not_elem_of with (x := Requested (Some s)) in Hh; done.
  - destruct (ps_count _ _ _ _ _ _ Hs) as [Hc1 Hc2]. destruct (ps_bound _ _ _ _ _ _ Hs) as [Hb1 Hb2].
    destruct (ps_signature _ _ _ _ _ _ Hs) as (signature & Hsig). destruct Hh as [Hh1 Hh2].
    split_and!.
    + rewrite count_app, Hc2. lia.
    + lia.
    + exists signature. apply Forall_app. split.
      * apply Forall_forall. intros e He s ->. exfalso. unfold count_effects in Hh2.
        apply length_zero_iff_nil in Hh2.
        apply filter_nil_not_elem_of with (x := Requested (Some s)) in Hh2; done.
      * eapply Forall_impl; [exact Hsig|]. intros e He s ->. by injection He.
    + intros [_ Hz]. rewrite count_app, Hc1 in Hz. lia.
Qed.
End one_call.

(** ** Sequences of calls

    Calls that follow each other on one clock, with their own configurations, servers and
    nodes; they share the state. *)
Record call (Tx : Type) := mkCall {
  cl_config : option X402Config;
  cl_env : FetchEnv Tx;
  cl_options : option ShieldedFetchOptions;
  cl_url : string;
}.
Arguments mkCall {Tx}. Arguments cl_config {Tx}. Arguments cl_env {Tx}. Arguments cl_options {Tx}.
Arguments cl_url {Tx}.

Definition env_ordered {Tx} (t0 : Z) (env : FetchEnv Tx) : Prop :=
  t0 <= fe_replayAt env <= fe_policyAt env /\ fe_policyAt env <= fe_paidAt env <= fe_spentAt env.

Fixpoint calls_ordered {Tx} (t0 : Z) (cs : list (call Tx)) (last : Z) : Prop :=
  match cs with
  | [] => t0 <= last
  | c :: cs' => env_ordered t0 (cl_env c) /\ calls_ordered (fe_spentAt (cl_env c)) cs' last
  end.

Section sequences.
Context {C Tx : Type} `{lib : !TxLib Tx} `{JsonLib} `{UrlLib} `{Base58Lib} `{PdaEnv}.
Implicit Types (config : option X402Config) (env : FetchEnv Tx) (w : X402World C) (c : call Tx).

Definition run_call c w : res x402_error ShieldedFetchResponse * X402World C * list effect :=
  shieldedFetch (cl_config c) (cl_env c) (cl_options c) (cl_url c) w.

Fixpoint run_calls (cs : list (call Tx)) w : list (res x402_error ShieldedFetchResponse) * X402World C :=
  match cs with
  | [] => ([], w)
  | c :: cs' =>
      let '(r, w', _) := run_call c w in
      let '(rs, w'') := run_calls cs' w' in (r :: rs, w'')
  end.

Lemma run_call_wp c w (Q : res x402_error ShieldedFetchResponse -> X402World C -> list effect -> Prop) :
  wp (shieldedFetch (cl_config c) (cl_env c) (cl_options c) (cl_url c)) w Q ->
  Q (run_call c w).1.1 (run_call c w).1.2 (run_call c w).2.
Proof. unfold wp, run_call. by destruct (shieldedFetch _ _ _ _ _) as [[r w'] es]. Qed.

(** *** Replays *)
Definition remembers (key : string) (t0 until ttl : Z) w : Prop :=
  nt_externalStorage (xw_nonces w) = None /\ nt_ttlMs (xw_nonces w) = ttl /\
  jm_wf (nt_storage (xw_nonces w)) /\ until <= t0 + ttl /\
  exists x, jm_get key (nt_storage (xw_nonces w)) = Some x /\ until <= x.

Lemma remembers_nonces key t0 until ttl w w' :
  xw_nonces w' = xw_nonces w -> remembers key t0 until ttl w -> remembers key t0 until ttl w'.
Proof. unfold remembers. by intros ->. Qed.

Lemma remembers_gc key t0 until ttl w w' now :
  now <= until -> xw_nonces w' = gc (xw_nonces w) now ->
  remembers key t0 until ttl w -> remembers key t0 until ttl w'.
Proof.
  unfold remembers. intros Hn -> (He & Ht & Hw & Hu & x & Hx & Hle). split_and!; [done|done| |done|].
  - by apply filter_wf.
  - exists x. split; [|done]. apply jm_get_filter; [done|]. cbn. split; [done|lia].
Qed.

Lemma remembers_record key t0 until ttl w w' urlStr payTo amount now :
  t0 <= now -> xw_nonces w' = record_nonce (xw_nonces w) urlStr payTo amount now ->
  remembers key t0 until ttl w -> remembers key t0 until ttl w'.
Proof.
  unfold remembers. intros Hn -> (He & Ht & Hw & Hu & x & Hx & Hle). unfold record_nonce.
  cbn [nt_externalStorage nt_ttlMs nt_storage ns_set InMemoryNonceStorage].
  split_and!; [by rewrite He|done|by apply jm_set_wf|done|].
  destruct (decide (buildKey urlStr payTo amount = key)) as [->|Hne].
  - exists (now + ttl). rewrite jm_get_set_eq, Ht. split; [done|lia].
  - exists x. by rewrite jm_get_set_ne.
Qed.

Lemma after_payment_remembers config env rpc urlStr selected a resp w w' key t0 until ttl :
  t0 <= fe_paidAt env -> after_payment config env rpc urlStr selected a resp w w' ->
  remembers key t0 until ttl w -> remembers key t0 until ttl w'.
Proof.
  intros Ht (Hn & _) Hr. destruct (replay_protected config).
  - by eapply remembers_record.
  - by eapply remembers_nonces.
Qed.

Lemma swept_remembers now w w' key t0 until ttl :
  now <= until -> swept now w w' -> remembers key t0 until ttl w -> remembers key t0 until ttl w'.
Proof.
  intros Hn (_ & _ & [Hw|Hw]) Hr; [by eapply remembers_nonces|by eapply remembers_gc].
Qed.

Lemma swept_tracker now w w' :
  swept now w w' ->
  nt_externalStorage (xw_nonces w') = nt_externalStorage (xw_nonces w) /\
  nt_ttlMs (xw_nonces w') = nt_ttlMs (xw_nonces w) /\
  (jm_wf (nt_storage (xw_nonces w)) -> jm_wf (nt_storage (xw_nonces w'))).
Proof.
  intros (_ & _ & [-> | ->]); split_and!; try done. intros Hw. by apply filter_wf.
Qed.

Lemma run_call_remembers c w key t0 until ttl :
  env_ordered t0 (cl_env c) -> fe_replayAt (cl_env c) <= until ->
  remembers key t0 until ttl w -> remembers key t0 until ttl (run_call c w).1.2.
Proof.
  intros Ho Hu Hr.
  apply (run_call_wp c w (fun _ w' _ => remembers key t0 until ttl w')).
  eapply wp_mono; [apply shieldedFetch_wp|]. cbn beta.
  intros r w' es [(_ & Hsw & _)|(required & selected & a & k & rpc & w0 & es0 & es1 & _ & Hsw & _ & _ & _ & _ & _ & Hend)].
  - by eapply swept_remembers.
  - apply (swept_remembers _ _ _ _ _ _ _ Hu Hsw) in Hr.
    inversion Hend; subst; try done;
      (eapply after_payment_remembers; [|done|done]; unfold env_ordered in Ho; lia).
Qed.

Lemma calls_ordered_le (cs : list (call Tx)) t0 last : calls_ordered t0 cs last -> t0 <= last.
Proof.
  revert t0. induction cs as [|c cs IH]; intros t0; cbn; [done|].
  intros [Ho Hc]. specialize (IH _ Hc). unfold env_ordered in Ho. lia.
Qed.

Lemma run_calls_remembers cs w key t0 t1 last until ttl :
  t0 <= t1 -> calls_ordered t1 cs last -> last <= until ->
  remembers key t0 until ttl w -> remembers key t0 until ttl (run_calls cs w).2.
Proof.
  revert w t1. induction cs as [|c cs IH]; intros w t1 Ht Hc Hl Hr; cbn [run_calls]; [done|].
  destruct Hc as [Ho Hc]. pose proof (calls_ordered_le _ _ _ Hc).
  destruct (run_call c w) as [[r w'] es] eqn:Hrun.
  assert (Hw' : remembers key t0 until ttl w').
  { replace w' with (run_call c w).1.2 by (by rewrite Hrun).
    unfold env_ordered in Ho. apply run_call_remembers; [unfold env_ordered; lia|lia|done]. }
  destruct (run_calls cs w') as [rs w''] eqn:Hrs. cbn [snd].
  replace w'' with (run_calls cs w').2 by (by rewrite Hrs).
  apply (IH w' (fe_spentAt (cl_env c))); [|done..]. unfold env_ordered in Ho. lia.
Qed.

(** C8: a payment is not made twice. After a call that reports a payment as made, through
    any sequence of further calls, no call to the same address within the replay window
    pays the same destination the same amount text again, whatever the server demands. *)
Theorem x402_no_double_payment c1 cs c2 w last resp p r w3 es :
  nt_externalStorage (xw_nonces w) = None -> jm_wf (nt_storage (xw_nonces w)) ->
  (run_call c1 w).1.1 = Ok resp -> sf_x402 resp = Some p -> pr_paid p = true ->
  replay_protected (cl_config c1) = true -> replay_protected (cl_config c2) = true ->
  cl_url c2 = cl_url c1 ->
  calls_ordered (fe_paidAt (cl_env c1)) cs last -> env_ordered last (cl_env c2) ->
  fe_replayAt (cl_env c2) <= fe_paidAt (cl_env c1) + nt_ttlMs (xw_nonces w) ->
  run_call c2 (run_calls cs (run_call c1 w).1.2).2 = (r, w3, es) -> ~ harmless es ->
  exists blockhash selected a,
    signed_messages es = [payment_message (cl_env c2) blockhash selected a] /\
    (rq_payTo selected, rq_amount selected) <> (pr_payTo p, pr_amountPaid p).
Proof.
  intros Hext Hwf Hres Hp Hpaid Hpr1 Hpr2 Hurl Hord Ho2 Httl Hrun Hharm.
  set (key := buildKey (cl_url c1) (pr_payTo p) (pr_amountPaid p)).
  set (until := fe_paidAt (cl_env c1) + nt_ttlMs (xw_nonces w)).
  assert (Hrem : remembers key (fe_paidAt (cl_env c1)) until (nt_ttlMs (xw_nonces w)) (run_call c1 w).1.2).
  { revert Hres. apply (run_call_wp c1 w (fun r w' _ => r = Ok resp ->
      remembers key (fe_paidAt (cl_env c1)) until (nt_ttlMs (xw_nonces w)) w')).
    eapply wp_mono; [apply shieldedFetch_wp|]. cbn beta.
    intros r1 w1 es1 [(_ & _ & _ & Hnp)|(required & selected & a & k & rpc & w0 & ? & ? & _ & Hsw & _ & _ & _ & _ & _ & Hend)] Hr.
    - by rewrite (Hnp _ Hr p Hp) in Hpaid.
    - destruct (swept_tracker _ _ _ Hsw) as (He & Ht & Hw).
      destruct Hend as [e ->|resp' p' -> _ Hp'|resp' b _ Haft _|resp' e _ Haft _]; [done| | |done].
      + injection Hr as <-. cbn in Hp. congruence.
      + injection Hr as <-. cbn in Hp. injection Hp as <-. cbn in key.
        destruct Haft as (Hn & _). rewrite Hpr1 in Hn.
        unfold remembers. rewrite Hn. unfold record_nonce.
        cbn [nt_externalStorage nt_ttlMs nt_storage ns_set InMemoryNonceStorage].
        rewrite He, Ht, Hext. split_and!; [done|done|by apply jm_set_wf, Hw|done|].
        exists until. by rewrite jm_get_set_eq. }
  assert (Hrem2 : remembers key (fe_paidAt (cl_env c1)) until (nt_ttlMs (xw_nonces w))
                    (run_calls cs (run_call c1 w).1.2).2).
  { apply (run_calls_remembers _ _ _ _ (fe_paidAt (cl_env c1)) last); [lia|done| |done].
    unfold env_ordered in Ho2. unfold until. lia. }
  set (w2 := (run_calls cs (run_call c1 w).1.2).2) in *. unfold run_call in Hrun.
  pose proof (wp_run _ _ _ _ _ _ (shieldedFetch_wp _ _ _ _ w2) Hrun)
    as [(Hh & _)|(required & selected & a & k & rpc & w0 & es0 & es1 & Hau & _ & -> & Hh & _ & _ & Hs & _)];
    [done|].
  destruct (ps_signed _ _ _ _ _ _ Hs) as (blockhash & Hsig).
  exists blockhash, selected, a. split; [destruct Hh as [Hh _]; by rewrite signed_app, Hh, Hsig|].
  intros [= Hto Ham]. pose proof (au_replay _ _ _ _ _ _ _ _ Hau Hpr2) as Hdup.
  destruct Hrem2 as (Hx1 & Hx2 & Hx3 & _ & x & Hx & Hle).
  unfold isDuplicate in Hdup. cbn [fst] in Hdup. apply orb_false_iff in Hdup as [Hdup _].
  cbn [ns_has InMemoryNonceStorage] in Hdup. unfold jm_has in Hdup.
  assert (Hg : jm_get key (nt_storage (gc (xw_nonces w2) (fe_replayAt (cl_env c2)))) = Some x).
  { apply jm_get_filter; [done|]. cbn. split; [done|]. unfold until in Hle. lia. }
  rewrite Hurl, Hto, Ham in Hdup. fold key in Hdup. by rewrite Hg in Hdup.
Qed.

(** *** The cumulative limit *)

(** The payments that a call reports as made and does not know to have failed on chain. *)
Definition acknowledged c (r : res x402_error ShieldedFetchResponse) : list SpendEntry :=
  match r with
  | Ok resp =>
      match sf_x402 resp, fe_rpc (cl_env c) with
      | Some p, Some rpc =>
          if pr_paid p then
            match should_record (cl_config c) rpc (pr_settlement p), js_BigInt (pr_amountPaid p) with
            | Some (Ok true), Some a => [mkEntry (pr_asset p) a (fe_spentAt (cl_env c))]
            | _, _ => []
            end
          else []
      | _, _ => []
      end
  | Throw _ => []
  end.

(** The shield recalls the spends of the history [es] for [hz] ms: it always does for 24 hours,
    and for longer while at most [PRUNE_THRESHOLD] entries, [n] more included, are recorded. *)
Definition recalls (hz : Z) (n : nat) (s : ShieldState C) (es : list SpendEntry) (last : Z) : Prop :=
  Forall (fun e => 0 <= e_amount e) (spendEntries s) /\
  (forall t, last <= t -> filter (fun e => t - hz <= e_timestamp e) (spendEntries s)
                          = filter (fun e => t - hz <= e_timestamp e) es) /\
  (hz <= DAY_MS \/ (length (spendEntries s) + n <= PRUNE_THRESHOLD)%nat).

(** The shield answers for the history [es], whose windows of [W] ms stay under [m]. *)
Definition within (m W hz : Z) (n : nat) (es : list SpendEntry) (last : Z) w : Prop :=
  Forall (fun e => 0 <= e_amount e) es /\
  (forall t, last <= t -> total_in_window es W t <= m) /\
  exists sh, xw_shield w = Some sh /\ recalls hz n (sh_state sh) es last.

Lemma recalls_later hz (n n' : nat) s es last last' :
  recalls hz n s es last -> last <= last' -> (n' <= n)%nat -> recalls hz n' s es last'.
Proof.
  intros (Hn & Hk & Hr) Hl Hle. split_and!; [done| |].
  - intros t Ht. apply Hk. lia.
  - destruct Hr; [by left|right; lia].
Qed.

(** What the shield reads for a window covers the part of it that it recalls. *)
Lemma total_spend_covers hz n (s : ShieldState C) es last W t :
  recalls hz n s es last -> last <= t ->
  total_in_window es (Z.min W hz) t <= getTotalSpendInWindow s W t.
Proof.
  intros (Hnn & Hk & _) Hl. unfold getTotalSpendInWindow, total_in_window.
  rewrite (filter_narrow1 e_timestamp (t - Z.min W hz) (t - hz)) by lia.
  rewrite <- (Hk t Hl), <- filter_narrow1 by lia.
  rewrite !sum_of_filter. apply sum_of_le.
  intros e He. pose proof (proj1 (Forall_forall _ _) Hnn e He) as Ha. cbn in Ha.
  repeat case_decide; lia.
Qed.

Lemma total_in_window_antimono es W t t' :
  Forall (fun e => 0 <= e_amount e) es -> t <= t' -> total_in_window es W t' <= total_in_window es W t.
Proof.
  intros Hnn Hle. unfold total_in_window. rewrite !sum_of_filter. apply sum_of_le.
  intros e He. pose proof (proj1 (Forall_forall _ _) Hnn e He) as Ha. cbn in Ha.
  repeat case_decide; lia.
Qed.

Lemma within_later m W hz n n' es last last' w :
  within m W hz n es last w -> last <= last' -> (n' <= n)%nat -> within m W hz n' es last' w.
Proof.
  intros (Hn & Ht & sh & Hsh & Hm) Hl Hle. split; [done|]. split.
  - intros t Hlt. apply Ht. lia.
  - exists sh. split; [done|]. by eapply recalls_later.
Qed.

Lemma within_shield m W hz n es last w w' :
  within m W hz n es last w -> xw_shield w' = xw_shield w -> within m W hz n es last w'.
Proof. unfold within. by intros Hw ->. Qed.

(** The cumulative check leaves room for the payment. *)
Lemma cumulative_room config m W hz n selected (sh : Shield C) signer now a es last :
  config ≫= maxCumulativeSpend = Some m ->
  default 86400000 (config ≫= cumulativeWindowMs) = W ->
  js_BigInt (rq_amount selected) = Some a ->
  evaluateX402Payment selected sh config signer now = Ok [] ->
  recalls hz n (sh_state sh) es last -> last <= now ->
  total_in_window es (Z.min W hz) now + a <= m.
Proof.
  intros Hm HW Ha He Hmod Hl. unfold evaluateX402Payment in He.
  apply bind_ok_inv in He as ([] & _ & He). apply bind_ok_inv in He as (cum & Hcum & He).
  apply bind_ok_inv in He as (ceil & _ & He). apply bind_ok_inv in He as (shd & _ & He).
  injection He as He. apply app_eq_nil in He as [-> _].
  unfold cumulative_check in Hcum. rewrite Hm, HW in Hcum.
  unfold payment_amount in Hcum. rewrite Ha in Hcum. cbn in Hcum.
  pose proof (total_spend_covers hz n _ es last W now Hmod Hl).
  destruct (Z.gtb_spec (getTotalSpendInWindow (sh_state sh) W now + a) m); [discriminate|lia].
Qed.

(** Pruning forgets nothing younger than 24 hours, and nothing at all below its threshold. *)
Lemma prune_recalls hz n (s : ShieldState C) es last now :
  recalls hz n s es last -> last <= now -> recalls hz n (prune s now) es now.
Proof.
  intros (Hnn & Hk & Hr) Hl. unfold prune. cbn [spendEntries].
  destruct (Nat.ltb_spec PRUNE_THRESHOLD (length (spendEntries s))) as [Hlt|Hge].
  - destruct Hr as [Hr|Hr]; [|lia]. split_and!; [|intros t Ht|by left].
    + apply Forall_forall. intros e [_ He]%list_elem_of_filter. by apply (proj1 (Forall_forall _ _) Hnn).
    + rewrite <- (Hk t) by lia. symmetry. unfold DAY_MS in Hr. apply filter_narrow1. lia.
  - split_and!; [done| |done]. intros t Ht. apply Hk. lia.
Qed.

Lemma record_spend_recalls hz n (s : ShieldState C) es last mint a now :
  recalls hz (S n) s es last -> last <= now -> 0 <= a ->
  recalls hz n (recordTransaction (recordSpend s mint a now) now) (es ++ [mkEntry mint a now]) now.
Proof.
  intros (Hnn & Hk & Hr) Hl Ha. unfold recordTransaction. eapply prune_recalls; [|exact (Z.le_refl _)].
  assert (Hrec : recalls hz n (recordSpend s mint a now) (es ++ [mkEntry mint a now]) now).
  { unfold recordSpend. eapply prune_recalls; [|exact (Z.le_refl _)].
    unfold recalls. cbn [spendEntries]. split_and!.
    - apply Forall_app. split; [done|]. constructor; [done|constructor].
    - intros t Ht. by rewrite !filter_app, (Hk t) by lia.
    - rewrite length_app. cbn [length]. destruct Hr; [by left|right; lia]. }
  exact Hrec.
Qed.

Lemma total_in_window_snoc es e W t :
  0 <= e_amount e -> total_in_window (es ++ [e]) W t <= total_in_window es W t + e_amount e.
Proof.
  intros He. unfold total_in_window. rewrite filter_app, sum_of_app.
  rewrite filter_cons, filter_nil. case_decide; rewrite ?sum_of_cons, ?sum_of_nil; lia.
Qed.

Lemma run_call_within m W hz n es c w t0 :
  cl_config c ≫= maxCumulativeSpend = Some m ->
  default 86400000 (cl_config c ≫= cumulativeWindowMs) = W ->
  env_ordered t0 (cl_env c) -> within m (Z.min W hz) hz (S n) es t0 w ->
  within m (Z.min W hz) hz n (es ++ acknowledged c (run_call c w).1.1) (fe_spentAt (cl_env c))
    (run_call c w).1.2.
Proof.
  intros Hm HW Ho Hin.
  apply (run_call_wp c w (fun r w' _ => within m (Z.min W hz) hz n (es ++ acknowledged c r) (fe_spentAt (cl_env c)) w')).
  eapply wp_mono; [apply shieldedFetch_wp|]. cbn beta.
  assert (Hl : t0 <= fe_spentAt (cl_env c)) by (unfold env_ordered in Ho; lia).
  assert (Hsame : forall w', xw_shield w' = xw_shield w -> within m (Z.min W hz) hz n (es ++ []) (fe_spentAt (cl_env c)) w').
  { intros w' Hs. rewrite app_nil_r.
    eapply within_later; [|exact Hl|exact (Nat.le_succ_diag_r n)]. by eapply within_shield. }
  intros r w' es' [(_ & (_ & Hs & _) & _ & Hnp)|(required & selected & a & k & rpc & w0 & ? & ? & Hau & (_ & Hs & _) & _ & _ & _ & Hrpc & _ & Hend)].
  - replace (acknowledged c r) with (@nil SpendEntry); [by apply Hsame|].
    unfold acknowledged. destruct r as [resp|e]; [|done].
    destruct (sf_x402 resp) as [p|] eqn:Hp; [|done].
    rewrite (Hnp resp eq_refl p Hp). by destruct (fe_rpc _).
  - destruct Hend as [e ->|resp p -> _ Hp|resp b _ Haft Hsr|resp e _ Haft Hsr]; cbn [acknowledged sf_x402].
    + by apply Hsame.
    + rewrite Hp. destruct (fe_rpc _); by apply Hsame.
    + rewrite Hrpc. cbn [pr_paid pr_settlement pr_amountPaid pr_asset]. rewrite Hsr.
      destruct Haft as (_ & _ & Hsh). rewrite Hsr in Hsh.
      pose proof (au_amount _ _ _ _ _ _ _ _ Hau) as (Ha & Hpos & _)%validatePaymentAmount_ok.
      destruct b; [|apply Hsame; congruence]. rewrite Ha.
      destruct Hin as (Hnn & Htot & sh & Hshw & Hmod).
      pose proof (au_policy _ _ _ _ _ _ _ _ Hau sh Hshw) as Hpol.
      assert (Hroom : total_in_window es (Z.min W hz) (fe_policyAt (cl_env c)) + a <= m).
      { eapply cumulative_room; [done..|]. unfold env_ordered in Ho. lia. }
      split; [|split].
      * apply Forall_app. split; [done|]. constructor; [cbn; lia|constructor].
      * intros t Ht. pose proof (total_in_window_snoc es
          (mkEntry (rq_asset selected) a (fe_spentAt (cl_env c))) (Z.min W hz) t ltac:(cbn; lia)) as Hsn.
        cbn [e_amount] in Hsn.
        pose proof (total_in_window_antimono es (Z.min W hz) (fe_policyAt (cl_env c)) t Hnn) as Han.
        unfold env_ordered in Ho. lia.
      * exists (recordX402Spend sh (rq_asset selected) a (fe_spentAt (cl_env c))).
        split; [by rewrite Hsh, Hs, Hshw|]. unfold recordX402Spend, with_state. cbn [sh_state].
        apply (record_spend_recalls _ _ _ _ t0); [done|exact Hl|lia].
    + destruct Haft as (_ & _ & Hsh). apply Hsame. rewrite Hsh, <- Hs.
      destruct (should_record _ _ _) as [[[]|]|]; try done. by destruct (Hsr true).
Qed.

(** The payments of a session, in order. *)
Definition session_payments (cs : list (call Tx)) (rs : list (res x402_error ShieldedFetchResponse))
    : list SpendEntry :=
  concat (zip_with acknowledged cs rs).

Lemma run_calls_within m W hz cs es w t0 last :
  Forall (fun c => cl_config c ≫= maxCumulativeSpend = Some m /\
                   default 86400000 (cl_config c ≫= cumulativeWindowMs) = W) cs ->
  calls_ordered t0 cs last -> within m (Z.min W hz) hz (length cs) es t0 w ->
  within m (Z.min W hz) hz 0 (es ++ session_payments cs (run_calls cs w).1) last (run_calls cs w).2.
Proof.
  intros Hcs. revert es w t0. induction Hcs as [|c cs [Hm HW] Hcs IH]; intros es w t0 Ho Hin;
    cbn [run_calls].
  - cbn. rewrite app_nil_r. by eapply within_later.
  - destruct Ho as [Ho Hrest].
    pose proof (run_call_within m W hz (length cs) es c w t0 Hm HW Ho Hin) as H1'.
    destruct (run_call c w) as [[r w'] es']. cbn [fst snd] in H1'.
    specialize (IH _ _ _ Hrest H1'). destruct (run_calls cs w') as [rs w''].
    cbn [fst snd] in *. unfold session_payments in *. cbn [zip_with concat].
    by rewrite app_assoc.
Qed.

(** C34: the cumulative limit holds over sessions, for windows of at most 24 hours. Whatever
    servers, nodes and calls a session meets, the payments its calls report as made never
    exceed [maxCumulativeSpend] within any window of [cumulativeWindowMs] or of 24 hours,
    whichever is shorter, counted together with what the shield had recorded before. A longer
    configured window is enforced only while the shield has recorded at most 10,000 spends:
    beyond that it forgets spends older than 24 hours, and [long_window_forgets] exceeds the
    limit of a two-day window. A payment the confirmation reports as failed on chain is not
    recorded, and not counted. *)
Theorem x402_cumulative_limit m W cs sh w t0 last :
  Forall (fun c => cl_config c ≫= maxCumulativeSpend = Some m /\
                   default 86400000 (cl_config c ≫= cumulativeWindowMs) = W) cs ->
  xw_shield w = Some sh -> calls_ordered t0 cs last ->
  let before := spendEntries (sh_state sh) in
  let paid := before ++ session_payments cs (run_calls cs w).1 in
  Forall (fun e => 0 <= e_amount e) before ->
  let kept V := (forall t, t0 <= t -> total_in_window before V t <= m) ->
                forall t, last <= t -> total_in_window paid V t <= m in
  kept (Z.min W DAY_MS) /\
  ((length before + length cs <= PRUNE_THRESHOLD)%nat -> kept W).
Proof.
  intros Hcs Hsh Ho before paid Hnn kept.
  assert (Hin : forall hz, hz <= DAY_MS \/ (length before + length cs <= PRUNE_THRESHOLD)%nat ->
                kept (Z.min W hz)).
  { intros hz Hroom Htot.
    destruct (run_calls_within m W hz cs before w t0 last Hcs Ho) as (_ & Ht & _); [|exact Ht].
    split_and!; [done|exact Htot|]. exists sh. by split_and!. }
  split; [apply Hin; left; exact (Z.le_refl _)|].
  intros Hroom. specialize (Hin W (or_intror Hroom)). by rewrite Z.min_id in Hin.
Qed.

(** The confirmation poll has fuel enough: while sleeping takes its time, it decides. *)
Lemma should_record_total config (rpc : X402Rpc) settlement :
  se_start (xr_settle rpc) <= se_clock (xr_settle rpc) 0%nat ->
  sleeps_honoured (se_clock (xr_settle rpc)) (settle_delay 3000) ->
  is_Some (should_record config rpc settlement).
Proof.
  intros H0' Hs. unfold should_record. destruct (settlement_transaction settlement); [|by eexists].
  destruct (match _ with Some false => false | _ => true end); [|by eexists].
  set (timeout := default 10000 _).
  destruct (poll_loop_total (fun k => settle_step (se_status (xr_settle rpc) k))
    (se_clock (xr_settle rpc)) (se_start (xr_settle rpc) + timeout) 500) as (n & x & Hn & Hb).
  - done.
  - apply (sleeps_advance _ _ _ Hs). intros k.
    apply backoff_at_least; [discriminate|apply Qle_refl|discriminate|intros _; discriminate].
  - unfold confirmSettlementOnChain. rewrite (poll_loop_decides _ _ _ n x _ Hn); [by eexists|].
    unfold settle_fuel.
    assert ((se_start (xr_settle rpc) + timeout - se_clock (xr_settle rpc) 0%nat) / 500
            <= Z.max 0 timeout / 500) by (apply Z.div_le_mono; lia).
    assert (0 <= Z.max 0 timeout / 500) by (apply Z.div_pos; lia). lia.
Qed.

(** A node that fails while the settlement is polled: the call throws after the payment,
    which the replay tracker and the history remember but the shield does not count. *)
Lemma unconfirmed_not_recorded config env rpc urlStr selected a w retryResponse e :
  should_record config rpc (settlement_of retryResponse) = Some (Throw e) ->
  let '(r, w', _) :=
    record_payment config env rpc urlStr selected a (settlement_of retryResponse) w in
  r = Throw e /\ xw_shield w' = xw_shield w /\
  xw_recent w' = recordPaymentAmount (xw_recent w) a.
Proof.
  intros Hs.
  assert (Hwp : wp (record_payment config env rpc urlStr selected a (settlement_of retryResponse)) w
    (fun r w' _ => r = Throw e /\ xw_shield w' = xw_shield w /\
       xw_recent w' = recordPaymentAmount (xw_recent w) a)); [|exact Hwp].
  unfold record_payment. apply wp_bind. unfold get_world, wp at 1. apply wp_bind.
  destruct (replay_protected config); [unfold put_nonces, wp at 1|apply wp_ret];
    apply wp_bind; unfold put_recent, wp at 1; rewrite Hs; by apply wp_bind, wp_lift.
Qed.
End sequences.

(** ** The shield does not see the payment *)
Lemma synthetic_analysis selected signer :
  analyzeInstructions [synthetic_transfer selected signer] signer
  = mkAnalysis [TOKEN_PROGRAM_ADDRESS] [] 0 [].
Proof. reflexivity. Qed.

(** what the shield says about an x402 payment does not depend on the payment. The
    instruction it is asked about carries no data, so its token spend limits and on-chain
    caps see a transfer of nothing: two payments of any amounts, tokens and destinations
    get the same verdict. *)
Theorem x402_shield_blind {C} selected selected' (sh : Shield C) signer now :
  shield_check selected sh (Some signer) now = shield_check selected' sh (Some signer) now.
Proof.
  unfold shield_check, Shield.check, evaluateInstructions. by rewrite !synthetic_analysis.
Qed.

(** ** A session, run *)
Section demo.
Local Instance demo_tx : TxLib TransactionMessage := {|
  getSetComputeUnitLimitInstruction _ := mkInstruction COMPUTE_BUDGET_PROGRAM_ADDRESS None None;
  getSetComputeUnitPriceInstruction _ := mkInstruction COMPUTE_BUDGET_PROGRAM_ADDRESS None None;
  compressTransactionMessage _ m := m;
  compileTransaction m := m;
  getBase64EncodedWireTransaction _ := "AAAA";
  decodeCompiledMessage _ := mkCompiled [] [] [] |}.

Definition demo_requirement (amount : string) : json :=
  JObj [("scheme", JStr "exact"); ("network", JStr "solana:mainnet"); ("asset", JStr "USDC");
        ("amount", JStr amount); ("payTo", JStr "Shop")].

Local Instance demo_json : JsonLib := {|
  JSON_parse _ := Some (JObj [("x402Version", JNum (ratio_of_Z 1));
                              ("accepts", JArr [demo_requirement "400"])]);
  JSON_stringify _ := "{}" |}.
Local Instance demo_base58 : Base58Lib := {| base58_decoder _ := "sig" |}.
Local Existing Instance demo_url.
Local Existing Instance demo_pda_env.

Definition demo_config : X402Config :=
  mkX402Config (Some ["Shop"]) None (Some 500) (Some 1000) None None None None None None.

(** The server asks for a payment, then serves. *)
Definition demo_fetch_env (t : Z) : FetchEnv TransactionMessage :=
  mkFetchEnv (fun n => Ok (if (n =? 0)%nat then mkResponse 402 (Some "e30=") None
                           else mkResponse 200 None None))
    (Some (mkX402Rpc (Ok (mkBlockhash "h" 1)) (mkSettleEnv 0 Z.of_nat (fun _ => Ok None))))
    "Agent" (mkSigner (Some (fun l => Ok (Some (SignedTx <$> l)))) None) t t t t t.

Definition demo_call (t : Z) (url : string) : call TransactionMessage :=
  mkCall (Some demo_config) (demo_fetch_env t) None url.

Definition demo_shield : Shield unit :=
  mkShield (mkKitResolved default_resolved None) new_state false None.
Definition demo_world : X402World unit :=
  mkWorld (new_nonce_tracker None None) [] (Some demo_shield).

(** Two payments go through, a third would pass the cumulative limit, a repeat is a replay. *)
Example demo_calls_ordered :
  (fun r => match r with Ok resp => (true, is_2xx (sf_response resp)) | Throw _ => (false, false) end)
    <$> (run_calls [demo_call 0 "https://a/1"; demo_call 1 "https://a/2"; demo_call 2 "https://a/3";
                    demo_call 3 "https://a/1"] demo_world).1
  = [(true, true); (true, true); (false, false); (false, false)].
Proof. vm_compute. reflexivity. Qed.

(** The guards of two overlapping calls both let the payment through: it is recorded only
    after the awaits that follow them. *)
Example demo_interleaved :
  let guards := payment_guards (Some demo_config) (demo_fetch_env 0) None "https://a/1" in
  let is_pay (r : res x402_error decision) := match r with Ok (Pay _ _ _) => true | _ => false end in
  let '(r1, w1, _) := guards demo_world in
  let '(r2, _, _) := guards w1 in is_pay r1 && is_pay r2 = true.
Proof. vm_compute. reflexivity. Qed.

(** One call that pays, taken apart. *)
Lemma demo_paid_run :
  exists r w' es, run_call (demo_call 0 "https://a/1") demo_world = (r, w', es) /\ ~ harmless es.
Proof.
  destruct (run_call (demo_call 0 "https://a/1") demo_world) as [[r w'] es] eqn:Hrun.
  exists r, w', es. split; [done|]. intros [_ Hc].
  assert (H0 : count_effects paid_request (run_call (demo_call 0 "https://a/1") demo_world).2 = 1%nat)
    by (vm_compute; reflexivity).
  rewrite Hrun in H0. cbn [snd] in H0. congruence.
Qed.

Lemma x402_pays_only_authorised_witness :
  exists r w' es, run_call (demo_call 0 "https://a/1") demo_world = (r, w', es) /\
  exists required selected a blockhash,
    authorised (Some demo_config) (demo_fetch_env 0) None "https://a/1" demo_world required selected a
    /\ signed_messages es = [payment_message (demo_fetch_env 0) blockhash selected a].
Proof.
  destruct demo_paid_run as (r & w' & es & Hrun & Hh). exists r, w', es. split; [done|].
  destruct (x402_pays_only_authorised (Some demo_config) (demo_fetch_env 0) None "https://a/1"
    demo_world r w' es Hrun Hh) as (required & selected & a & blockhash & Hau & _ & Hs & _).
  by exists required, selected, a, blockhash.
Defined.

Lemma x402_requests_bounded_witness :
  exists r w' es, run_call (demo_call 0 "https://a/1") demo_world = (r, w', es) /\
    Z.of_nat (count_effects request_effect es) <= 2.
Proof.
  destruct demo_paid_run as (r & w' & es & Hrun & _). exists r, w', es. split; [done|].
  destruct (x402_requests_bounded (Some demo_config) (demo_fetch_env 0) None "https://a/1"
    demo_world r w' es Hrun) as [Hb _]. exact Hb.
Defined.

(** The repeat of the session above: refused, since it would pay the same again. *)
Lemma x402_no_double_payment_witness :
  exists r w3 es, run_call (demo_call 3 "https://a/1")
      (run_calls [demo_call 1 "https://a/2"] (run_call (demo_call 0 "https://a/1") demo_world).1.2).2
    = (r, w3, es) /\ harmless es.
Proof.
  set (w2 := (run_calls [demo_call 1 "https://a/2"]
                (run_call (demo_call 0 "https://a/1") demo_world).1.2).2).
  destruct (run_call (demo_call 3 "https://a/1") w2) as [[r w3] es] eqn:Hrun.
  exists r, w3, es. split; [done|].
  destruct (harmless_dec es) as [Hh|Hh]; [done|exfalso].
  assert (Hp : exists resp p,
    (run_call (demo_call 0 "https://a/1") demo_world).1.1 = Ok resp /\ sf_x402 resp = Some p /\
    pr_paid p = true /\ pr_payTo p = "Shop" /\ pr_amountPaid p = "400").
  { assert (Hok : is_ok (run_call (demo_call 0 "https://a/1") demo_world).1.1 = true)
      by (vm_compute; reflexivity).
    apply is_ok_ex in Hok as [resp Hresp].
    assert (Hx : (fun resp => (fun p => (pr_paid p, pr_payTo p, pr_amountPaid p)) <$> sf_x402 resp)
       <$> (run_call (demo_call 0 "https://a/1") demo_world).1.1 = Ok (Some (true, "Shop", "400")))
      by (vm_compute; reflexivity).
    rewrite Hresp in Hx. cbn in Hx. destruct (sf_x402 resp) as [p|] eqn:Hp; [|done].
    exists resp, p. cbn in Hx. injection Hx as E1 E2 E3. by split_and!. }
  destruct Hp as (resp & p & Hresp & Hp & Hpaid & Hto & Ham).
  destruct (x402_no_double_payment (demo_call 0 "https://a/1") [demo_call 1 "https://a/2"]
    (demo_call 3 "https://a/1") demo_world 1 resp p r w3 es) as (bh & selected & a & Hs & Hne).
  - reflexivity.
  - constructor.
  - exact Hresp.
  - exact Hp.
  - exact Hpaid.
  - reflexivity.
  - reflexivity.
  - reflexivity.
  - cbn. unfold env_ordered. cbn. lia.
  - unfold env_ordered. cbn. lia.
  - apply Z.leb_le. vm_compute. reflexivity.
  - exact Hrun.
  - exact Hh.
  - assert (Hc : signed_messages (run_call (demo_call 3 "https://a/1") w2).2 = [])
      by (vm_compute; reflexivity).
    rewrite Hrun in Hc. cbn [snd] in Hc. rewrite Hc in Hs. discriminate.
Defined.

(** A shield with 10,000 spends of 1 on record, of day 0, and a two-day window of 10,400: on
    day 1 a call pays 400, and the shield, now beyond its threshold, forgets day 0; the next
    call pays 400 more. Within the two days 10,800 was spent. *)
Definition crowded_world : X402World unit :=
  mkWorld (new_nonce_tracker None None) []
    (Some (mkShield (mkKitResolved default_resolved None)
      (mkShieldState (repeat (mkEntry "USDC" 1 0) 10000) [] None 0 None false) false None)).
Definition two_days : Z := 2 * DAY_MS.
Definition long_call (t : Z) (url : string) : call TransactionMessage :=
  mkCall (Some (mkX402Config (Some ["Shop"]) None (Some 500) (Some 10400) (Some two_days)
                  None None None None None)) (demo_fetch_env t) None url.

Lemma long_window_forgets :
  let calls := [long_call (DAY_MS + 1) "https://a/1"; long_call (DAY_MS + 2) "https://a/2"] in
  let before := repeat (mkEntry "USDC" 1 0) 10000 in
  total_in_window before two_days 0 <= 10400 /\
  10400 < total_in_window (before ++ session_payments calls (run_calls calls crowded_world).1)
            two_days (DAY_MS + 2).
Proof. vm_compute. split; [discriminate|reflexivity]. Qed.

Lemma x402_cumulative_limit_witness :
  total_in_window ([] ++ session_payments [demo_call 0 "https://a/1"; demo_call 1 "https://a/2"]
    (run_calls [demo_call 0 "https://a/1"; demo_call 1 "https://a/2"] demo_world).1) DAY_MS 1 <= 1000.
Proof.
  refine (proj1 (x402_cumulative_limit 1000 DAY_MS
    [demo_call 0 "https://a/1"; demo_call 1 "https://a/2"] demo_shield demo_world 0 1 _ _ _ _) _ 1 _).
  - repeat constructor.
  - reflexivity.
  - cbn. unfold env_ordered. cbn. lia.
  - constructor.
  - intros t _. discriminate.
  - lia.
Defined.
End demo.
