(* ===== verification/Seal.v ===== *)
(** * Sealing ([sdk/kit/src/seal.ts])

    [seal()] turns an agent's DeFi instructions into the transaction
    [compute budget; validate_and_authorize; DeFi; finalize_session]. The function is a
    sequence of gates on the resolved vault state followed by the assembly; each step is
    a definition, composed by [seal_plan], [seal_assemble] and [seal] in the order of the
    code. What the RPC answers during the call is the record [SealWorld]; the module-level
    lookup-table cache is threaded as state. *)

From Stdlib Require Import QArith Qround.
From S2P Require Import Prelude Types Accounts Bytes Numbers StateResolver Policies Shield Hooks AltLoader Pdas Composer.
Local Open Scope string_scope.
Local Open Scope Z_scope.
Local Open Scope list_scope.

Definition DRAIN_DETECTION_MIN_BALANCE : Z := 1.

(** ** Parameters, world and result *)
Record SealParams (C : Type) := mkSealParams {
  sp_vault : Address;
  sp_agent : Address;
  sp_instructions : list Instruction;
  sp_network : string;
  sp_tokenMint : Address;
  sp_amount : Z;
  sp_targetProtocol : option Address;
  sp_computeUnits : option Z;
  sp_priorityFeeMicroLamports : option Z;
  sp_outputStablecoinAccount : option Address;
  sp_blockhash : option Blockhash;
  sp_protocolAltAddresses : option (list Address);
  sp_addressLookupTables : option AltContents;
  sp_cachedState : option (ResolvedVaultState C);
  sp_maxCacheAgeMs : option Z;
  sp_additionalAtaReplacements : option (jsmap Address);
  sp_correlationId : option string;
  sp_plugins : option (list (SigilPolicyPlugin Instruction));
}.
Arguments mkSealParams {C}.
Arguments sp_vault {C}. Arguments sp_agent {C}. Arguments sp_instructions {C}.
Arguments sp_network {C}. Arguments sp_tokenMint {C}. Arguments sp_amount {C}.
Arguments sp_targetProtocol {C}. Arguments sp_computeUnits {C}.
Arguments sp_priorityFeeMicroLamports {C}. Arguments sp_outputStablecoinAccount {C}.
Arguments sp_blockhash {C}. Arguments sp_protocolAltAddresses {C}.
Arguments sp_addressLookupTables {C}. Arguments sp_cachedState {C}.
Arguments sp_maxCacheAgeMs {C}. Arguments sp_additionalAtaReplacements {C}.
Arguments sp_correlationId {C}. Arguments sp_plugins {C}.

(** [getAccountInfo]: the account's data ([None] for malformed base64), no account, or a
    failed call. *)
Inductive account_answer :=
  | AccountData (decoded : option bytes)
  | AccountMissing
  | AccountCallFailed (message : string).

Record SealWorld (C : Type) := mkWorld {
  sw_now : Z;
  sw_resolution : res SigilError (ResolvedVaultState C);
  sw_accountInfo : Address -> account_answer;
  sw_latestBlockhash : res SigilError Blockhash;
  sw_altNow : Z;
  sw_altFetch : AltFetch;
  sw_retryNow : Z;
  sw_retryFetch : AltFetch;
  sw_correlationId : string;
}.
Arguments mkWorld {C}.
Arguments sw_now {C}. Arguments sw_resolution {C}. Arguments sw_accountInfo {C}.
Arguments sw_latestBlockhash {C}. Arguments sw_altNow {C}. Arguments sw_altFetch {C}.
Arguments sw_retryNow {C}. Arguments sw_retryFetch {C}. Arguments sw_correlationId {C}.

Inductive seal_warning :=
  | OutputAtaMissing (ata : Address)
  | OutputAtaCheckFailed (ata : Address) (cause : string)
  | BalanceUnavailable (cause : string).

Record VaultContext := mkVaultContext {
  vc_vaultAddress : Address;
  vc_vaultTokenAta : Address;
  vc_tokenBalance : Z;
  vc_knownRecipients : gset Address;
}.

Record SealResult (Tx : Type) := mkSealResult {
  sr_transaction : Tx;
  sr_isSpending : bool;
  sr_warnings : list seal_warning;
  sr_txSizeBytes : Q;
  sr_lastValidBlockHeight : Z;
  sr_vaultContext : VaultContext;
}.
Arguments mkSealResult {Tx}.
Arguments sr_transaction {Tx}. Arguments sr_isSpending {Tx}. Arguments sr_warnings {Tx}.
Arguments sr_txSizeBytes {Tx}. Arguments sr_lastValidBlockHeight {Tx}.
Arguments sr_vaultContext {Tx}.

(** ** Replacement of agent token accounts *)
Definition replace_account (replacements : jsmap Address) (acc : AccountMeta) : AccountMeta :=
  match jm_get (am_address acc) replacements with
  | Some replacement =>
      if negb (bool_decide (replacement = "")) && is_writable (am_role acc)
      then mkMeta replacement (am_role acc) (am_lookup acc) else acc
  | None => acc
  end.

Definition replaceAgentAtas (instructions : list Instruction) (replacements : jsmap Address)
    : list Instruction :=
  if bool_decide (length replacements = 0%nat) then instructions
  else (fun ix => mkInstruction (ins_program ix)
          (option_map (map (replace_account replacements)) (ins_accounts ix)) (ins_data ix))
         <$> instructions.

(** ** Step 1: vault state, with the staleness test in double arithmetic

    [((Date.now() / 1000) - Number(resolvedAt)) * 1000 > maxAge]. *)
Definition ageMs (now resolvedAt : Z) : ratio :=
  let seconds := fl now 1000 in
  let at_ := fl resolvedAt 1 in
  let diff := fl_signed (num seconds * den at_ - num at_ * den seconds) (den seconds * den at_) in
  fl_signed (num diff * 1000) (den diff).

Definition is_stale (now resolvedAt maxAge : Z) : bool :=
  let age := ageMs now resolvedAt in num age >? maxAge * den age.

Definition resolve_state {C} (w : SealWorld C) (p : SealParams C)
    : res SigilError (ResolvedVaultState C) :=
  match sp_cachedState p with
  | Some cached =>
      if is_stale (sw_now w) (resolvedAtTimestamp cached) (default 30000 (sp_maxCacheAgeMs p))
      then sw_resolution w else Ok cached
  | None => sw_resolution w
  end.

(** ** Steps 1-2: vault and agent gates *)
Definition status_name (s : VaultStatus) : string :=
  match s with Active => "Active" | Frozen => "Frozen" | Closed => "Closed" end.

Definition require_active {C} (p : SealParams C) (state : ResolvedVaultState C) : res SigilError unit :=
  match vault_status (rs_vault state) with
  | Active => Ok tt
  | s => Throw (sdk_error "SIGIL_ERROR__SDK__VAULT_INACTIVE"
           [("vault", CStr (sp_vault p)); ("status", CStr (status_name s))])
  end.

Definition vault_agent_ctx {C} (p : SealParams C) : list (string * ctxval) :=
  [("vault", CStr (sp_vault p)); ("agent", CStr (sp_agent p))].

Definition require_agent {C} (p : SealParams C) (state : ResolvedVaultState C)
    : res SigilError AgentEntry :=
  match find_by (fun a => bool_decide (pubkey a = sp_agent p)) (agents (rs_vault state)) with
  | None => Throw (sdk_error "SIGIL_ERROR__SDK__AGENT_NOT_REGISTERED" (vault_agent_ctx p))
  | Some agentEntry =>
      throw_if (agent_paused agentEntry)
        (sdk_error "SIGIL_ERROR__SDK__AGENT_PAUSED" (vault_agent_ctx p)) ;;
      Ok agentEntry
  end.

Definition budget_triple (b : EffectiveBudget) : Z * Z * Z := (spent24h b, cap b, remaining b).

Definition plugin_context {C} (p : SealParams C) (correlationId : string)
    (state : ResolvedVaultState C) (agentEntry : AgentEntry) : PluginContext Instruction :=
  {| pc_vault := sp_vault p; pc_agent := sp_agent p; pc_tokenMint := sp_tokenMint p;
     pc_amount := sp_amount p; pc_network := sp_network p;
     pc_instructions := sp_instructions p; pc_correlationId := correlationId;
     pc_state := {|
       ps_globalBudget := budget_triple (globalBudget state);
       ps_agentBudget := budget_triple <$> agentBudget state;
       ps_vaultStatus := vault_status (rs_vault state);
       ps_capabilityTier := agent_capability agentEntry;
       ps_maxTransactionUsd := maxTransactionUsd state;
       ps_resolvedAtTimestamp := resolvedAtTimestamp state |} |}.

Definition run_policy_plugins {C} (p : SealParams C) (correlationId : string)
    (state : ResolvedVaultState C) (agentEntry : AgentEntry) : res SigilError unit :=
  runPlugins (default [] (sp_plugins p)) (plugin_context p correlationId state agentEntry).

(** ** Step 3: amount *)
Definition invalid_amount (amount : Z) : SigilError :=
  sdk_error "SIGIL_ERROR__SDK__INVALID_AMOUNT" [("received", CStr (pretty amount))].

Definition check_amount (amount : Z) : res SigilError unit :=
  throw_if (amount <? 0) (invalid_amount amount) ;;
  throw_if (amount >? U64_MAX) (invalid_amount amount).

(** ** Step 4: infrastructure instructions are stripped *)
Definition strip_infrastructure (instructions : list Instruction) : list Instruction :=
  filter (fun ix => ins_program ix <> COMPUTE_BUDGET_PROGRAM_ADDRESS
                    /\ ins_program ix <> SYSTEM_PROGRAM_ADDRESS) instructions.

(** ** Step 4b: top-level token operations *)
Definition spl_blocked (vault : Address) (operation : string) : res SigilError unit :=
  Throw (sdk_error "SIGIL_ERROR__SDK__SPL_TOKEN_OP_BLOCKED"
    [("operation", CStr operation); ("vault", CStr vault)]).

Definition check_spl_op (vault : Address) (ix : Instruction) : res SigilError unit :=
  if bool_decide (ins_program ix = TOKEN_PROGRAM_ADDRESS)
     || bool_decide (ins_program ix = TOKEN_2022_PROGRAM_ADDRESS) then
    match ins_data ix with
    | Some (disc :: _) =>
        if disc =? 4 then spl_blocked vault "Approve"
        else if disc =? 13 then spl_blocked vault "ApproveChecked"
        else if (disc =? 3) || (disc =? 12)
                || (bool_decide (ins_program ix = TOKEN_2022_PROGRAM_ADDRESS) && (disc =? 26))
        then spl_blocked vault "Transfer"
        else if (disc =? 6) || (disc =? 9) then spl_blocked vault "SetAuthority/CloseAccount"
        else if (disc =? 8) || (disc =? 15) then spl_blocked vault "Burn/BurnChecked"
        else Ok tt
    | _ => Ok tt
    end
  else Ok tt.

Definition check_spl_ops (vault : Address) (defiInstructions : list Instruction)
    : res SigilError unit := for_each (check_spl_op vault) defiInstructions.

(** ** Steps 5-6b: target protocol, capability, allowlist *)
Definition is_empty (s : option string) : bool :=
  match s with Some s => bool_decide (s = "") | None => true end.

Definition target_protocol {C} (p : SealParams C) (defiInstructions : list Instruction)
    : res SigilError Address :=
  let t := match sp_targetProtocol p with
           | Some t => Some t
           | None => ins_program <$> head defiInstructions
           end in
  match t with
  | Some t => throw_if (bool_decide (t = ""))
                (sdk_error "SIGIL_ERROR__SDK__PROTOCOL_NOT_TARGETED" []) ;; Ok t
  | None => Throw (sdk_error "SIGIL_ERROR__SDK__PROTOCOL_NOT_TARGETED" [])
  end.

Definition check_capability {C} (p : SealParams C) (agentEntry : AgentEntry) : res SigilError unit :=
  throw_if (agent_capability agentEntry =? 0)
    (sdk_error "SIGIL_ERROR__SDK__AGENT_ZERO_CAPABILITY" (vault_agent_ctx p)).

Definition check_protocol {C} (p : SealParams C) (state : ResolvedVaultState C) (target : Address)
    : res SigilError unit :=
  throw_if (negb (isProtocolAllowed target (protocolMode (rs_policy state))
                    (protocols (rs_policy state))))
    (sdk_error "SIGIL_ERROR__SDK__PROTOCOL_NOT_ALLOWED"
      [("protocol", CStr target); ("vault", CStr (sp_vault p))]).

(** ** Step 6b2: instruction count *)
Definition count_defi (defiInstructions : list Instruction) : nat :=
  length (filter (fun ix => is_recognized_defi (ins_program ix) = true) defiInstructions).

Definition instruction_count_error (got : nat) : SigilError :=
  sdk_error "SIGIL_ERROR__SDK__INSTRUCTION_COUNT"
    [("expected", CNum 1); ("got", CNum (Z.of_nat got))].

Definition check_instruction_count {C} (p : SealParams C) (net : Network) (spending : bool)
    (defiInstructions : list Instruction) : res SigilError unit :=
  if spending then
    let defiCount := count_defi defiInstructions in
    let isStablecoinInput := isStablecoinMint (sp_tokenMint p) net in
    throw_if (isStablecoinInput && (1 <? defiCount)%nat) (instruction_count_error defiCount) ;;
    throw_if (negb isStablecoinInput && negb (defiCount =? 1)%nat) (instruction_count_error defiCount)
  else Ok tt.

(** ** Step 6c: cap headroom *)
Definition ceilFee (amount rate : Z) : Z :=
  Z.quot (amount * rate + FEE_RATE_DENOMINATOR - 1) FEE_RATE_DENOMINATOR.

Definition total_with_fees (amount devRate : Z) : Z :=
  amount + ceilFee amount PROTOCOL_FEE_RATE + ceilFee amount devRate.

Definition check_headroom {C} (p : SealParams C) (state : ResolvedVaultState C) (spending : bool)
    : res SigilError unit :=
  if spending && (sp_amount p >? 0) then
    let totalWithFees := total_with_fees (sp_amount p) (developerFeeRate (rs_policy state)) in
    let headroom := remaining (globalBudget state) in
    throw_if (totalWithFees >? headroom)
      (sdk_error "SIGIL_ERROR__SDK__CAP_EXCEEDED"
        [("vault", CStr (sp_vault p)); ("agent", CStr (sp_agent p));
         ("cap", CNum headroom); ("attempted", CNum totalWithFees)])
  else Ok tt.

Definition default_stable_mint (net : Network) : Address :=
  if decide (net = "devnet") then USDC_MINT_DEVNET else USDC_MINT_MAINNET.

Section seal.
Context {C Tx : Type} `{pda : !PdaEnv} `{lib : !TxLib Tx}.

(** [getAccountMeta] of the program-client library: the value of an account (its address
    and whether it is a signer), or [null], and its writability. *)
Variable getAccountMeta : Address -> option (Address * bool) -> bool -> AccountMeta.

Implicit Types (p : SealParams C) (w : SealWorld C) (state : ResolvedVaultState C).

(** ** Step 6d: output token account *)
Definition check_output_ata p (net : Network) (spending : bool) : res SigilError unit :=
  match sp_outputStablecoinAccount p with
  | Some account =>
      if negb (bool_decide (account = "")) && spending && negb (isStablecoinMint (sp_tokenMint p) net)
      then
        let canonicalAta := Pda.deriveAta (sp_vault p) (default_stable_mint net) in
        throw_if (negb (bool_decide (account = canonicalAta)))
          (sdk_error "SIGIL_ERROR__SDK__ATA_NON_CANONICAL"
            [("expected", CStr canonicalAta); ("got", CStr account)])
      else Ok tt
  | None => Ok tt
  end.

(** ** Step 7: token accounts *)
Record TokenAccounts := mkTokenAccounts {
  vaultTokenAccount : Address;
  outputStablecoinAccount : option Address;
  protocolTreasuryTokenAccount : option Address;
  feeDestinationTokenAccount : option Address;
  agentOverlayPda : Address;
  ta_sessionPda : Address;
  agentTokenAta : Address;
  agentStablecoinAta : option Address;
  ta_warnings : list seal_warning;
}.

Definition output_ata_warnings w (ata : Address) : list seal_warning :=
  match sw_accountInfo w ata with
  | AccountData _ => []
  | AccountMissing => [OutputAtaMissing ata]
  | AccountCallFailed cause => [OutputAtaCheckFailed ata cause]
  end.

Definition derive_token_accounts w p state (net : Network) (spending : bool) : TokenAccounts :=
  let needsOutputStablecoin := spending && negb (isStablecoinMint (sp_tokenMint p) net) in
  let defaultStableMint := default_stable_mint net in
  let derives := needsOutputStablecoin && is_empty (sp_outputStablecoinAccount p) in
  let derived := if derives then Some (Pda.deriveAta (sp_vault p) defaultStableMint) else None in
  {| vaultTokenAccount := Pda.deriveAta (sp_vault p) (sp_tokenMint p);
     outputStablecoinAccount :=
       match sp_outputStablecoinAccount p with Some a => Some a | None => derived end;
     protocolTreasuryTokenAccount :=
       if spending then Some (Pda.deriveAta PROTOCOL_TREASURY (sp_tokenMint p)) else None;
     feeDestinationTokenAccount :=
       if spending && (developerFeeRate (rs_policy state) >? 0)
       then Some (Pda.deriveAta (feeDestination (rs_vault state)) (sp_tokenMint p)) else None;
     agentOverlayPda := (Pda.getAgentOverlayPDA (sp_vault p) 0 SIGIL_PROGRAM_ID).1;
     ta_sessionPda :=
       (Pda.getSessionPDA (sp_vault p) (sp_agent p) (sp_tokenMint p) SIGIL_PROGRAM_ID).1;
     agentTokenAta := Pda.deriveAta (sp_agent p) (sp_tokenMint p);
     agentStablecoinAta :=
       if needsOutputStablecoin then Some (Pda.deriveAta (sp_agent p) defaultStableMint) else None;
     ta_warnings := match derived with Some ata => output_ata_warnings w ata | None => [] end |}.

(** ** Step 7b: replacements *)
Definition canonical_replacements (ta : TokenAccounts) : jsmap Address :=
  let ataReplacements := jm_set (agentTokenAta ta) (vaultTokenAccount ta) [] in
  match agentStablecoinAta ta, outputStablecoinAccount ta with
  | Some agentAta, Some output =>
      if bool_decide (agentAta = "") || bool_decide (output = "") then ataReplacements
      else jm_set agentAta output ataReplacements
  | _, _ => ataReplacements
  end.

Fixpoint merge_replacements (additional ataReplacements : jsmap Address)
    : res SigilError (jsmap Address) :=
  match additional with
  | [] => Ok ataReplacements
  | (agentAta, vaultAta) :: rest =>
      throw_if (jm_has agentAta ataReplacements)
        (sdk_error "SIGIL_ERROR__SDK__INVALID_PARAMS"
          [("field", CStr "additionalAtaReplacements"); ("received", CStr agentAta)]) ;;
      merge_replacements rest (jm_set agentAta vaultAta ataReplacements)
  end.

Definition ata_replacements p (ta : TokenAccounts) : res SigilError (jsmap Address) :=
  merge_replacements (default [] (sp_additionalAtaReplacements p)) (canonical_replacements ta).

(** ** Steps 8-9: the sandwich instructions ([generated/instructions]) *)
Definition signer_account (a : Address) : option (Address * bool) := Some (a, true).
Definition plain_account (a : Address) : option (Address * bool) := Some (a, false).
Definition optional_account (a : option Address) : option (Address * bool) := a ≫= plain_account.

Definition validate_data (tokenMint : Address) (amount : Z) (targetProtocol : Address)
    (expectedPolicyVersion : Z) : bytes :=
  VALIDATE_AND_AUTHORIZE_DISCRIMINATOR ++ encodeAddress tokenMint ++ le_bytes 8 amount
  ++ encodeAddress targetProtocol ++ le_bytes 8 expectedPolicyVersion.

Definition getValidateAndAuthorizeInstruction (agent vault : Address) (ta : TokenAccounts)
    (tokenMint : Address) (amount : Z) (targetProtocol : Address) (expectedPolicyVersion : Z)
    : Instruction :=
  let meta := getAccountMeta SIGIL_PROGRAM_ID in
  let policy := (getProgramDerivedAddress SIGIL_PROGRAM_ID
    [[112; 111; 108; 105; 99; 121]; encodeAddress vault]).1 in
  let tracker := (getProgramDerivedAddress SIGIL_PROGRAM_ID
    [[116; 114; 97; 99; 107; 101; 114]; encodeAddress vault]).1 in
  let session := (getProgramDerivedAddress SIGIL_PROGRAM_ID
    [[115; 101; 115; 115; 105; 111; 110]; encodeAddress vault; encodeAddress agent;
     encodeAddress tokenMint]).1 in
  {| ins_program := SIGIL_PROGRAM_ID;
     ins_accounts := Some [
       meta (signer_account agent) true;
       meta (plain_account vault) true;
       meta (plain_account policy) false;
       meta (plain_account tracker) true;
       meta (plain_account (agentOverlayPda ta)) true;
       meta (plain_account session) true;
       meta (plain_account (vaultTokenAccount ta)) true;
       meta (plain_account tokenMint) false;
       meta (optional_account (protocolTreasuryTokenAccount ta)) true;
       meta (optional_account (feeDestinationTokenAccount ta)) true;
       meta (optional_account (outputStablecoinAccount ta)) true;
       meta (plain_account TOKEN_PROGRAM_ADDRESS) false;
       meta (plain_account SYSTEM_PROGRAM_ADDRESS) false;
       meta (plain_account INSTRUCTIONS_SYSVAR) false ];
     ins_data := Some (validate_data tokenMint amount targetProtocol expectedPolicyVersion) |}.

(** Step 8b: the constraints account is the one remaining account. *)
Definition with_constraints_account (vault : Address) (hasConstraints : bool) (ix : Instruction)
    : Instruction :=
  if hasConstraints then
    mkInstruction (ins_program ix)
      (Some (default [] (ins_accounts ix)
        ++ [mkMeta (Pda.getConstraintsPDA vault SIGIL_PROGRAM_ID).1 READONLY None]))
      (ins_data ix)
  else ix.

Definition getFinalizeSessionInstruction (payer vault : Address) (ta : TokenAccounts) : Instruction :=
  let meta := getAccountMeta SIGIL_PROGRAM_ID in
  let policy := (getProgramDerivedAddress SIGIL_PROGRAM_ID
    [[112; 111; 108; 105; 99; 121]; encodeAddress vault]).1 in
  let tracker := (getProgramDerivedAddress SIGIL_PROGRAM_ID
    [[116; 114; 97; 99; 107; 101; 114]; encodeAddress vault]).1 in
  {| ins_program := SIGIL_PROGRAM_ID;
     ins_accounts := Some [
       meta (signer_account payer) true;
       meta (plain_account vault) true;
       meta (plain_account (ta_sessionPda ta)) true;
       meta (plain_account payer) true;
       meta (plain_account policy) false;
       meta (plain_account tracker) true;
       meta (plain_account (agentOverlayPda ta)) true;
       meta (plain_account (vaultTokenAccount ta)) true;
       meta (optional_account (outputStablecoinAccount ta)) true;
       meta (plain_account TOKEN_PROGRAM_ADDRESS) false;
       meta (plain_account SYSTEM_PROGRAM_ADDRESS) false;
       meta (plain_account INSTRUCTIONS_SYSVAR) false ];
     ins_data := Some FINALIZE_SESSION_DISCRIMINATOR |}.

(** ** Step 10: lookup tables, composition and size *)
Definition resolve_alts w (cache : AltCache) (net : Network) p : AltCache * res SigilError AltContents :=
  match sp_addressLookupTables p with
  | Some alts => (cache, Ok alts)
  | None =>
      match getSigilAltAddress net with
      | Throw e => (cache, Throw e)
      | Ok sigilAlt =>
          let allAlts := mergeAltAddresses sigilAlt (sp_protocolAltAddresses p) in
          let expected := getExpectedAltContents net in
          let first := resolve cache (sw_altFetch w) (sw_altNow w) allAlts in
          match verifySigilAlt first.2 sigilAlt expected with
          | Ok _ => (first.1, Ok first.2)
          | Throw _ =>
              let second := resolve (invalidate first.1) (sw_retryFetch w) (sw_retryNow w) allAlts in
              (second.1, verifySigilAlt second.2 sigilAlt expected ;; Ok second.2)
          end
      end
  end.

(** What the gates and the derivations leave for the assembly. *)
Record SealPlan := mkPlan {
  pl_state : ResolvedVaultState C;
  pl_spending : bool;
  pl_accounts : TokenAccounts;
  pl_defiInstructions : list Instruction;
  pl_validateIx : Instruction;
  pl_finalizeIx : Instruction;
  pl_blockhash : Blockhash;
}.

(** The gates that need only the state, in order; the target protocol is the result. *)
Definition seal_gates p (correlationId : string) (net : Network) state : res SigilError Address :=
  require_active p state ;;
  agentEntry ← require_agent p state;
  run_policy_plugins p correlationId state agentEntry ;;
  let spending := sp_amount p >? 0 in
  check_amount (sp_amount p) ;;
  let defiInstructions := strip_infrastructure (sp_instructions p) in
  check_spl_ops (sp_vault p) defiInstructions ;;
  targetProtocol ← target_protocol p defiInstructions;
  check_capability p agentEntry ;;
  check_protocol p state targetProtocol ;;
  check_instruction_count p net spending defiInstructions ;;
  check_headroom p state spending ;;
  check_output_ata p net spending ;;
  Ok targetProtocol.

Definition seal_plan w p (correlationId : string) (net : Network) : res SigilError SealPlan :=
  state ← resolve_state w p;
  targetProtocol ← seal_gates p correlationId net state;
  let spending := sp_amount p >? 0 in
  let ta := derive_token_accounts w p state net spending in
  replacements ← ata_replacements p ta;
  blockhash ← match sp_blockhash p with Some b => Ok b | None => sw_latestBlockhash w end;
  Ok {| pl_state := state;
        pl_spending := spending;
        pl_accounts := ta;
        pl_defiInstructions :=
          replaceAgentAtas (strip_infrastructure (sp_instructions p)) replacements;
        pl_validateIx :=
          with_constraints_account (sp_vault p) (hasConstraints (rs_policy state))
            (getValidateAndAuthorizeInstruction (sp_agent p) (sp_vault p) ta (sp_tokenMint p)
               (sp_amount p) targetProtocol (policyVersion (rs_policy state)));
        pl_finalizeIx := getFinalizeSessionInstruction (sp_agent p) (sp_vault p) ta;
        pl_blockhash := blockhash |}.

Definition compose_params p (plan : SealPlan) (alts : AltContents) : ComposeTransactionParams :=
  {| cp_feePayer := sp_agent p;
     cp_validateIx := pl_validateIx plan;
     cp_defiInstructions := pl_defiInstructions plan;
     cp_finalizeIx := pl_finalizeIx plan;
     cp_blockhash := pl_blockhash plan;
     cp_computeUnits := sp_computeUnits p;
     cp_priorityFeeMicroLamports := sp_priorityFeeMicroLamports p;
     cp_addressLookupTables := Some alts |}.

(** [parseTokenBalance] ([simulation.ts]) of the account's decoded data. *)
Definition parseTokenBalance (decoded : option bytes) : option Z :=
  match decoded with
  | None => None
  | Some binary => Some (if (length binary <? 72)%nat then 0 else read_u64_le 64 binary)
  end.

Definition usdc_mint_for (net : Network) : Address :=
  if decide (net = "devnet") then USDC_MINT_DEVNET else USDC_MINT_MAINNET.
Definition usdt_mint_for (net : Network) : Address :=
  if decide (net = "devnet") then USDT_MINT_DEVNET else USDT_MINT_MAINNET.

Definition token_balance w p state (net : Network) (vaultAta : Address) : Z * list seal_warning :=
  if decide (sp_tokenMint p = usdc_mint_for net) then (bal_usdc (stablecoinBalances state), [])
  else if decide (sp_tokenMint p = usdt_mint_for net) then (bal_usdt (stablecoinBalances state), [])
  else
    match sw_accountInfo w vaultAta with
    | AccountData decoded =>
        match parseTokenBalance decoded with
        | Some balance => (balance, [])
        | None => (DRAIN_DETECTION_MIN_BALANCE, [BalanceUnavailable "InvalidCharacterError"])
        end
    | AccountMissing => (0, [])
    | AccountCallFailed errMsg => (DRAIN_DETECTION_MIN_BALANCE, [BalanceUnavailable errMsg])
    end.

Definition known_recipients (ta : TokenAccounts) : gset Address :=
  let add (a : option Address) : gset Address :=
    match a with Some a => if bool_decide (a = "") then ∅ else {[ a ]} | None => ∅ end in
  {[ vaultTokenAccount ta ]} ∪ add (protocolTreasuryTokenAccount ta)
    ∪ add (feeDestinationTokenAccount ta).

Definition seal_assemble w p (net : Network) (plan : SealPlan) (alts : AltContents)
    : res SigilError (SealResult Tx) :=
  let compiledTx := composeSigilTransaction (compose_params p plan alts) in
  let measured := measureTransactionSize compiledTx in
  throw_if (negb measured.2) (tx_too_large measured.1.2 1232) ;;
  let ta := pl_accounts plan in
  let balance := token_balance w p (pl_state plan) net (vaultTokenAccount ta) in
  Ok {| sr_transaction := compiledTx;
        sr_isSpending := pl_spending plan;
        sr_warnings := ta_warnings ta ++ balance.2;
        sr_txSizeBytes := measured.1.2;
        sr_lastValidBlockHeight := bh_lastValidBlockHeight (pl_blockhash plan);
        sr_vaultContext :=
          mkVaultContext (sp_vault p) (vaultTokenAccount ta) balance.1 (known_recipients ta) |}.

(** ** [seal] *)
Record SealRun := mkRun {
  run_cache : AltCache;
  run_events : list string;
  run_result : res SigilError (SealResult Tx);
}.

Definition hook_aborted (reason correlationId : string) : SigilError :=
  sdk_error "SIGIL_ERROR__SDK__HOOK_ABORTED"
    [("hook", CStr "onBeforeBuild"); ("reason", CStr reason);
     ("correlationId", CStr correlationId)].

Definition hook_context p (correlationId : string) : SealHookContext :=
  mkHookContext (sp_vault p) (sp_agent p) (sp_tokenMint p) (sp_amount p) (sp_network p) correlationId.

Definition seal {E R} w (cache : AltCache) (hooks : option (SealHooks (SealParams C) Tx E R)) p
    : SealRun :=
  let net := normalizeNetwork (sp_network p) in
  match validateNetwork net with
  | Throw e => mkRun cache [] (Throw e)
  | Ok _ =>
      let correlationId := default (sw_correlationId w) (sp_correlationId p) in
      let ctx := hook_context p correlationId in
      let before := invokeHook hooks h_onBeforeBuild ctx p in
      match truthy_abort before.2 with
      | Some abort =>
          mkRun cache before.1 (Throw (hook_aborted (abort_reason abort) correlationId))
      | None =>
          match seal_plan w p correlationId net with
          | Throw e => mkRun cache before.1 (Throw e)
          | Ok plan =>
              let alts := resolve_alts w cache net p in
              match (contents ← alts.2; seal_assemble w p net plan contents) with
              | Throw e => mkRun alts.1 before.1 (Throw e)
              | Ok result =>
                  let after := invokeHook hooks h_onBeforeSign ctx (sr_transaction result) in
                  mkRun alts.1 (before.1 ++ after.1) (Ok result)
              end
          end
      end
  end.
End seal.
