(* ===== verification/ChainAuth.v ===== *)
(** * On-chain authorization ([programs/sigil/src/instructions])

    The Rust handlers a sealed transaction meets. [process_validate] runs
    [validate_and_authorize] on one instruction of a transaction: the arguments are decoded
    from its data, the fourteen accounts and the remaining ones are loaded from its metas
    with the constraints Anchor checks, and the handler follows in the order of the code:
    policy version, constraints account, vault and agent, protocol, balance snapshot and
    fees, both instruction scans, fee transfers, session, active-session counter.
    [finalize_session] is the whole of the closing handler: payer and expiry, revocation,
    the outcome check of both spending paths with the vault, agent and protocol caps, the
    fee fallback, the counters, the post-assertion guard and the final scan. They are the
    reference the SDK's pre-flight is compared with.

    Parameters: [create_program_address] and the key decoder (Solana), the matcher of the
    constraint entries, Jupiter's slippage parser, and the evaluation of post-execution
    assertions (snapshot and check). What the token program does with a call is not
    modelled: a handler returns the calls it makes, in order. An instruction's account
    roles are its own, without the promotion by other instructions of the message. A token
    account is its mint, owner and amount; [bump = x.bump] is the canonical bump, which
    [init] stores. The event log and the [devnet-testing] build, which calls every mint a
    stablecoin, are not modelled, and the handlers run at the top level of the transaction,
    never by a call from another program. [finalize_session] takes its accounts loaded: their
    seeds, and the closing of the session account, are left out. *)

From S2P Require Import Prelude Types Accounts Bytes OnChain AltLoader Pdas Composer OwnerChain.
Local Open Scope string_scope.
Local Open Scope Z_scope.
Local Open Scope list_scope.

Inductive AuthError :=
  | VaultNotActive | AgentPaused | InsufficientPermissions | AuthProtocolNotAllowed
  | UnauthorizedPreValidateInstruction | SysvarScanBoundExceeded
  | UnauthorizedTokenApproval | UnauthorizedTokenTransfer | ConfidentialTransferBlocked
  | PermanentDelegateBlocked | TransferHookBlocked | LamportDrainBlocked
  | BatchInstructionBlocked | AsyncFulfillmentNotPermitted | ProtocolMismatch
  | TooManyDeFiInstructions | MissingFinalizeInstruction | AuthOverflow
  | UnexpectedBalanceDecrease | TransactionTooLarge | SpendingCapExceeded
  | UnauthorizedAgent | InvalidTokenAccount | UnsupportedToken | PolicyVersionMismatch
  | InvalidConstraintsPda | UnconstrainedProgramBlocked | InvalidProtocolTreasury
  | InvalidFeeDestination | AgentSpendLimitExceeded | AgentSlotNotFound
  | AuthProtocolCapExceeded | NonTrackedSwapMustReturnStablecoin | InvalidSession
  | SessionNotAuthorized | PostAssertionFailed | UnauthorizedPostFinalizeInstruction
  (* raised by Anchor or the runtime before the handler *)
  | InstructionDidNotDeserialize | AccountNotEnoughKeys | AccountNotInitialized
  | AccountAlreadyInUse | ConstraintSeeds | ConstraintSigner | ConstraintMut
  | InvalidProgramId | ConstraintAddress
  | CheckFailed (code : Z).
#[export] Instance AuthError_eq_dec : EqDecision AuthError.
Proof. solve_decision. Defined.

Definition MAX_SYSVAR_SCAN_ITERATIONS : Z := 64.
Definition CAPABILITY_OBSERVER : Z := 1.
Definition CAPABILITY_OPERATOR : Z := 2.

Definition KNOWN_ASYNC_FULFILLMENT_PROGRAMS : list Address := [
  "PERPHjGBqRHArX4DySjwM6UJHiR3sWAatqfdBS2qQJu";
  "dRiftyHA39MWEi3m9aunc5MzRF1JYuBsbn6VPcn33UH";
  "J1TnP8zvVxbtF5KFp5xRmWuvG9McnhzmBd9XGfCyuxFP" ].

Definition VALIDATE_HASH : bytes := [22; 183; 48; 222; 218; 11; 197; 152].
Definition FINALIZE_HASH : bytes := [34; 148; 144; 47; 37; 130; 206; 161].

Definition is_protocol_allowed (policy : PolicyConfig) (program_id : Address) : bool :=
  if protocolMode policy =? PROTOCOL_MODE_ALL then true
  else if protocolMode policy =? PROTOCOL_MODE_ALLOWLIST
       then bool_decide (program_id ∈ protocols policy)
  else if protocolMode policy =? PROTOCOL_MODE_DENYLIST
       then negb (bool_decide (program_id ∈ protocols policy))
  else false.

Definition get_agent (vault : AgentVault) (signer : Address) : option AgentEntry :=
  find_by (fun a => bool_decide (pubkey a = signer)) (agents vault).

Definition is_agent_paused (vault : AgentVault) (signer : Address) : bool :=
  match get_agent vault signer with Some a => agent_paused a | None => false end.

Definition has_capability (vault : AgentVault) (signer : Address) (is_spending : bool) : bool :=
  match get_agent vault signer with
  | Some a =>
      if is_spending then agent_capability a >=? CAPABILITY_OPERATOR
      else agent_capability a >=? CAPABILITY_OBSERVER
  | None => false
  end.

(** ** The instruction scans *)
Inductive ScanAction := FoundFinalize | Infrastructure | PassedSharedChecks.

Definition is_finalize (ix : Instruction) : bool :=
  let data := default [] (ins_data ix) in
  bool_decide (ins_program ix = SIGIL_PROGRAM_ID) && (8 <=? length data)%nat
  && bool_decide (take 8 data = FINALIZE_HASH).

Definition first_byte (ix : Instruction) : option Z := head (default [] (ins_data ix)).

Definition spl_token_check (ix : Instruction) : res AuthError unit :=
  match first_byte ix with
  | Some b =>
      if bool_decide (b ∈ [4; 13]) then Throw UnauthorizedTokenApproval
      else if bool_decide (b ∈ [3; 12]) then Throw UnauthorizedTokenTransfer
      else if bool_decide (b ∈ [6; 8; 9; 15]) then Throw UnauthorizedTokenTransfer
      else Ok tt
  | None => Ok tt
  end.

Definition token_2022_check (ix : Instruction) : res AuthError unit :=
  match first_byte ix with
  | Some b =>
      if bool_decide (b ∈ [4; 13]) then Throw UnauthorizedTokenApproval
      else if bool_decide (b ∈ [3; 12; 26]) then Throw UnauthorizedTokenTransfer
      else if bool_decide (b ∈ [6; 8; 9; 15]) then Throw UnauthorizedTokenTransfer
      else if bool_decide (b ∈ [27; 42]) then Throw ConfidentialTransferBlocked
      else if b =? 35 then Throw PermanentDelegateBlocked
      else if b =? 36 then Throw TransferHookBlocked
      else if bool_decide (b ∈ [38; 45; 46]) then Throw LamportDrainBlocked
      else if b =? 255 then Throw BatchInstructionBlocked
      else Ok tt
  | None => Ok tt
  end.

Definition is_infrastructure (ix : Instruction) : bool :=
  bool_decide (ins_program ix = COMPUTE_BUDGET_PROGRAM_ADDRESS)
  || bool_decide (ins_program ix = SYSTEM_PROGRAM_ADDRESS).

(** [PROTOCOL_TREASURY], [SESSION_DURATION_SECONDS] ([state/mod.rs]). *)
Definition SESSION_DURATION_SECONDS : Z := 30.

(** ** The accounts of the cluster, as the program reads them *)
Record TokenAccount := mkTokenAccount { tk_mint : Address; tk_owner : Address; tk_amount : Z }.
Record AccountInfo := mkAccountInfo { ai_owner : Address; ai_data : bytes }.

(** The token accounts, and every account with its owner program and data. *)
Record Cluster := mkCluster {
  cl_tokens : Address -> option TokenAccount;
  cl_accounts : Address -> option AccountInfo;
}.

(** The accounts of an instruction as the program sees them: keys and roles. *)
Definition account_view (ix : Instruction) : list (Address * AccountRole) :=
  (fun a => (am_address a, am_role a)) <$> default [] (ins_accounts ix).

(** Calls of the token program. *)
Inductive TokenCall :=
  | Transfer (from to : Address) (amount : Z)
  | Approve (account delegate : Address) (amount : Z)
  | Revoke (account : Address).

Definition lift_chain {A} (r : res ChainError A) : res AuthError A :=
  match r with
  | Ok a => Ok a
  | Throw Overflow => Throw AuthOverflow
  | Throw ProtocolCapExceeded => Throw AuthProtocolCapExceeded
  end.

(** [checked_add] on [u64] with [ok_or(SigilError::Overflow)]. *)
Definition add_u64 (a b : Z) : res AuthError Z := lift_chain (checked_add_u64 a b).

Definition is_signer (r : AccountRole) : bool :=
  match r with READONLY_SIGNER | WRITABLE_SIGNER => true | READONLY | WRITABLE => false end.

Definition with_active_sessions (v : AgentVault) (n : Z) : AgentVault :=
  mkVault (owner v) (vaultId v) (agents v) (feeDestination v) (vault_status v) (av_bump v)
    (createdAt v) (totalTransactions v) (totalVolume v) (activeEscrowCount v)
    (totalFeesCollected v) (totalDepositedUsd v) (totalWithdrawnUsd v)
    (totalFailedTransactions v) n.

(** ** The constraints account ([state/constraints.rs])

    [InstructionConstraints] is a packed struct after an 8-byte discriminator: the vault,
    64 entries of 560 bytes, the entry count, the strict mode and the bump. *)
Definition CONSTRAINTS_DISCRIMINATOR : bytes := [183; 235; 149; 166; 174; 58; 98; 218].
Definition CONSTRAINTS_STRUCT_SIZE : nat := 32 + 560 * 64 + 1 + 1 + 1 + 1 + 4.
Definition strict_mode (constraints : bytes) : Z := default 0 (constraints !! 35873%nat).
Definition constraints_bump (constraints : bytes) : Z := default 0 (constraints !! 35874%nat).

(** The arguments of the instruction, after its discriminator. *)
Record ValidateArgs := mkValidateArgs {
  arg_token_mint : Address;
  arg_amount : Z;
  arg_target_protocol : Address;
  arg_expected_policy_version : Z;
}.

(** The accounts of [ValidateAndAuthorize] its handler reads; an optional account is its
    key and what it holds. *)
Record ValidateAccounts := mkValidateAccounts {
  va_agent : Address;
  va_vault : Address;
  va_vault_token_key : Address;
  va_vault_token : TokenAccount;
  va_treasury : option (Address * TokenAccount);
  va_fee_destination : option (Address * TokenAccount);
  va_output : option (Address * TokenAccount);
  va_remaining : list Address;
}.

(** [SessionAuthority] ([state/session.rs]), without bump and snapshots. *)
Record Session := mkSession {
  se_vault : Address;
  se_agent : Address;
  se_authorized : bool;
  se_authorized_amount : Z;
  se_authorized_token : Address;
  se_authorized_protocol : Address;
  se_is_spending : bool;
  se_expires_at : Z;
  se_delegated : bool;
  se_delegation_token_account : Address;
  se_protocol_fee : Z;
  se_developer_fee : Z;
  se_output_mint : Address;
  se_balance_before : Z;
}.

Section scan.
(** [verify_against_entries_zc] over the struct's bytes, with the matched entry, and
    [verify_jupiter_slippage] of an instruction's data. *)
Variable verify_entries :
  bytes -> Address -> bytes -> list (Address * AccountRole) -> res AuthError (option nat).
Variable verify_jupiter_slippage : bytes -> Z -> res AuthError unit.

(** The generic constraints of one instruction; strict mode refuses an unmatched one. *)
Definition constraint_check (loaded : option bytes) (ix : Instruction) : res AuthError unit :=
  match loaded with
  | None => Ok tt
  | Some constraints =>
      matched ← verify_entries constraints (ins_program ix) (default [] (ins_data ix)) (account_view ix);
      throw_if (bool_decide (matched = None) && negb (strict_mode constraints =? 0))
        UnconstrainedProgramBlocked
  end.

Definition scan_instruction_shared (policy : PolicyConfig) (loaded : option bytes) (ix : Instruction)
    : res AuthError ScanAction :=
  if is_finalize ix then Ok FoundFinalize
  else
    (if bool_decide (ins_program ix = TOKEN_PROGRAM_ADDRESS) then spl_token_check ix else Ok tt) ;;
    (if bool_decide (ins_program ix = TOKEN_2022_PROGRAM_ADDRESS) then token_2022_check ix else Ok tt) ;;
    if is_infrastructure ix then Ok Infrastructure
    else
      throw_if (bool_decide (ins_program ix ∈ KNOWN_ASYNC_FULFILLMENT_PROGRAMS))
        AsyncFulfillmentNotPermitted ;;
      throw_if (negb (is_protocol_allowed policy (ins_program ix))) AuthProtocolNotAllowed ;;
      constraint_check loaded ix ;;
      Ok PassedSharedChecks.

Definition enforce_jupiter_slippage (max_slippage_bps : Z) (ix : Instruction) : res AuthError unit :=
  if bool_decide (ins_program ix = JUPITER_PROGRAM_ADDRESS)
  then verify_jupiter_slippage (default [] (ins_data ix)) max_slippage_bps else Ok tt.

(** [saturating_add] on [u8]. *)
Definition sat_add_u8 (n : Z) : Z := Z.min 255 (n + 1).

(** The forward scan of both branches: the number of recognised DeFi instructions, and
    whether [finalize_session] was reached. *)
Fixpoint scan_forward (is_spending : bool) (policy : PolicyConfig) (loaded : option bytes)
    (target : Address) (iter defi_ix_count : Z) (ixs : list Instruction) : res AuthError (Z * bool) :=
  match ixs with
  | [] => Ok (defi_ix_count, false)
  | ix :: rest =>
      throw_if (negb (iter <? MAX_SYSVAR_SCAN_ITERATIONS)) SysvarScanBoundExceeded ;;
      action ← scan_instruction_shared policy loaded ix;
      match action with
      | FoundFinalize => Ok (defi_ix_count, true)
      | Infrastructure => scan_forward is_spending policy loaded target (iter + 1) defi_ix_count rest
      | PassedSharedChecks =>
          let recognized := is_spending && is_recognized_defi (ins_program ix) in
          throw_if (recognized && negb (bool_decide (ins_program ix = target))) ProtocolMismatch ;;
          enforce_jupiter_slippage (maxSlippageBps policy) ix ;;
          scan_forward is_spending policy loaded target (iter + 1)
            (if recognized then sat_add_u8 defi_ix_count else defi_ix_count) rest
      end
  end.

Fixpoint scan_backward (iter : Z) (ixs : list Instruction) : res AuthError unit :=
  match ixs with
  | [] => Ok tt
  | ix :: rest =>
      throw_if (negb (iter <? MAX_SYSVAR_SCAN_ITERATIONS)) SysvarScanBoundExceeded ;;
      throw_if (negb (is_infrastructure ix)) UnauthorizedPreValidateInstruction ;;
      scan_backward (iter + 1) rest
  end.

(** The fees of a stablecoin spend, rounded up. *)
Definition collect_fees (policy : PolicyConfig) (amount : Z) : res AuthError (Z * Z) :=
  p_fee ← lift_chain (ceil_fee amount PROTOCOL_FEE_RATE);
  d_fee ← lift_chain (ceil_fee amount (developerFeeRate policy));
  Ok (p_fee, d_fee).

(** What the session remembers of a spend: the fees, the stablecoin whose balance finalize
    compares, and that balance before anything is spent. *)
Definition spending_snapshot (is_spending : bool) (net : Network) (policy : PolicyConfig)
    (a : ValidateAccounts) (args : ValidateArgs) : res AuthError (Z * Z * Address * Z) :=
  if is_spending then
    if isStablecoinMint (arg_token_mint args) net then
      fees ← collect_fees policy (arg_amount args);
      Ok (fees.1, fees.2, arg_token_mint args, tk_amount (va_vault_token a))
    else
      match va_output a with
      | None => Throw InvalidTokenAccount
      | Some (_, acct) =>
          throw_if (negb (bool_decide (tk_owner acct = va_vault a))) InvalidTokenAccount ;;
          throw_if (negb (isStablecoinMint (tk_mint acct) net)) UnsupportedToken ;;
          Ok (0, 0, tk_mint acct, tk_amount acct)
      end
  else Ok (0, 0, default_pubkey, 0).

(** One fee transfer, when there is a fee: the account must be there, with the right owner
    and mint. *)
Definition fee_transfer (fee : Z) (from : Address) (destination : option (Address * TokenAccount))
    (expected_owner token_mint : Address) (error : AuthError) : res AuthError (list TokenCall) :=
  if fee >? 0 then
    match destination with
    | None => Throw error
    | Some (key, acct) =>
        throw_if (negb (bool_decide (tk_owner acct = expected_owner))) error ;;
        throw_if (negb (bool_decide (tk_mint acct = token_mint))) error ;;
        Ok [Transfer from key fee]
    end
  else Ok [].

(** Fees are collected and the rest of the amount is delegated to the agent. *)
Definition collect_and_delegate (vault : AgentVault) (a : ValidateAccounts) (args : ValidateArgs)
    (p_fee d_fee : Z) : res AuthError (list TokenCall) :=
  let from := va_vault_token_key a in
  throw_if (arg_amount args - p_fee <? 0) AuthOverflow ;;
  throw_if (arg_amount args - p_fee - d_fee <? 0) AuthOverflow ;;
  protocol ← fee_transfer p_fee from (va_treasury a) PROTOCOL_TREASURY (arg_token_mint args)
    InvalidProtocolTreasury;
  developer ← fee_transfer d_fee from (va_fee_destination a) (feeDestination vault)
    (arg_token_mint args) InvalidFeeDestination;
  Ok (protocol ++ developer
        ++ [Approve from (va_agent a) (arg_amount args - p_fee - d_fee)]).

Definition effective_session_expiry_seconds (policy : PolicyConfig) : Z :=
  if sessionExpirySeconds policy =? 0 then SESSION_DURATION_SECONDS else sessionExpirySeconds policy.

Definition calculate_expiry (now_ts owner_max_seconds : Z) : Z :=
  sat_i64 (now_ts + Z.min owner_max_seconds MAX_OWNER_SESSION_DURATION_SECONDS).

Section handlers.
Context `{env : PdaEnv}.
(** [Pubkey::create_program_address], [Pubkey::from(bytes)]. *)
Variable create_program_address : Address -> list bytes -> option Address.
Variable decodeAddress : bytes -> option Address.
(** The snapshots of the delta assertions, and the check of every assertion, given the
    remaining accounts. *)
Variable capture_snapshots : list Address -> res AuthError unit.
Variable check_assertions : list Address -> res AuthError unit.

Definition post_assertions_pda (vault : Address) : Address :=
  (getProgramDerivedAddress SIGIL_PROGRAM_ID [seedString "post_assertions"; encodeAddress vault]).1.

(** The constraints account is the first remaining one; without any, the policy must not
    ask for constraints. *)
Definition load_constraints (cl : Cluster) (policy : PolicyConfig) (vault_key : Address)
    (remaining : list Address) : res AuthError (option bytes) :=
  match remaining with
  | key :: _ =>
      match cl_accounts cl key with
      | None => Throw InvalidConstraintsPda        (* owned by the system program *)
      | Some info =>
          throw_if (negb (bool_decide (ai_owner info = SIGIL_PROGRAM_ID))) InvalidConstraintsPda ;;
          throw_if (length (ai_data info) <? 8 + CONSTRAINTS_STRUCT_SIZE)%nat InvalidConstraintsPda ;;
          throw_if (negb (bool_decide (take 8 (ai_data info) = CONSTRAINTS_DISCRIMINATOR)))
            InvalidConstraintsPda ;;
          let constraints := take CONSTRAINTS_STRUCT_SIZE (drop 8 (ai_data info)) in
          match create_program_address SIGIL_PROGRAM_ID
                  [seedString "constraints"; encodeAddress vault_key; [constraints_bump constraints]] with
          | None => Throw InvalidConstraintsPda
          | Some constraints_pda =>
              throw_if (negb (bool_decide (key = constraints_pda))) InvalidConstraintsPda ;;
              throw_if (negb (bool_decide (take 32 constraints = encodeAddress vault_key)))
                InvalidConstraintsPda ;;
              Ok (Some constraints)
          end
      end
  | [] => throw_if (hasConstraints policy) InvalidConstraintsPda ;; Ok None
  end.

(** The handler, at index [idx] of the transaction's instructions: the session it creates,
    the token calls it makes and the vault it leaves. *)
Definition validate_and_authorize (cl : Cluster) (vault : AgentVault) (policy : PolicyConfig)
    (net : Network) (now : Z) (a : ValidateAccounts) (args : ValidateArgs)
    (ixs : list Instruction) (idx : nat) : res AuthError (Session * list TokenCall * AgentVault) :=
  throw_if (negb (policyVersion policy =? arg_expected_policy_version args)) PolicyVersionMismatch ;;
  let is_spending := arg_amount args >? 0 in
  let is_stablecoin_input := isStablecoinMint (arg_token_mint args) net in
  loaded ← load_constraints cl policy (va_vault a) (va_remaining a);
  throw_if (negb (bool_decide (vault_status vault = Active))) VaultNotActive ;;
  throw_if (is_agent_paused vault (va_agent a)) AgentPaused ;;
  throw_if (negb (has_capability vault (va_agent a) is_spending)) InsufficientPermissions ;;
  throw_if (negb (is_protocol_allowed policy (arg_target_protocol args))) AuthProtocolNotAllowed ;;
  snapshot ← spending_snapshot is_spending net policy a args;
  let '(p_fee, d_fee, output_mint, balance_before) := snapshot in
  scan_backward 0 (take idx ixs) ;;
  scanned ← scan_forward is_spending policy loaded (arg_target_protocol args) 0 0 (drop (S idx) ixs);
  (if is_spending then
     if is_stablecoin_input then throw_if (negb (scanned.1 <=? 1)) TooManyDeFiInstructions
     else throw_if (negb (scanned.1 =? 1)) TooManyDeFiInstructions
   else Ok tt) ;;
  throw_if (negb scanned.2) MissingFinalizeInstruction ;;
  calls ← (if is_spending then collect_and_delegate vault a args p_fee d_fee else Ok []);
  (if negb (hasPostAssertions policy =? 0)
      && bool_decide (post_assertions_pda (va_vault a) ∈ va_remaining a)
   then capture_snapshots (va_remaining a) else Ok tt) ;;
  sessions ← add_u64 (activeSessions vault) 1;
  Ok ({| se_vault := va_vault a; se_agent := va_agent a; se_authorized := true;
         se_authorized_amount := arg_amount args; se_authorized_token := arg_token_mint args;
         se_authorized_protocol := arg_target_protocol args; se_is_spending := is_spending;
         se_expires_at := calculate_expiry now (effective_session_expiry_seconds policy);
         se_delegated := is_spending; se_delegation_token_account := va_vault_token_key a;
         se_protocol_fee := p_fee; se_developer_fee := d_fee;
         se_output_mint := output_mint; se_balance_before := balance_before |},
      calls, with_active_sessions vault sessions).

(** ** Loading the instruction

    Anchor's part: the arguments, and the accounts in the order of the struct with their
    constraints. An optional account that is the program's own key is absent. *)
Definition decode_validate_args (data : bytes) : res AuthError ValidateArgs :=
  throw_if (negb (bool_decide (take 8 data = VALIDATE_HASH))) InstructionDidNotDeserialize ;;
  throw_if (length data <? 88)%nat InstructionDidNotDeserialize ;;
  match decodeAddress (take 32 (drop 8 data)), decodeAddress (take 32 (drop 48 data)) with
  | Some mint, Some target =>
      Ok (mkValidateArgs mint (read_u64_le 40 data) target (read_u64_le 80 data))
  | _, _ => Throw InstructionDidNotDeserialize
  end.

Definition load_token (cl : Cluster) (key : Address) : res AuthError TokenAccount :=
  match cl_tokens cl key with Some t => Ok t | None => Throw AccountNotInitialized end.

Definition load_optional (cl : Cluster) (meta : Address * AccountRole)
    : res AuthError (option (Address * TokenAccount)) :=
  if bool_decide (meta.1 = SIGIL_PROGRAM_ID) then Ok None
  else
    throw_if (negb (is_writable meta.2)) ConstraintMut ;;
    t ← load_token cl meta.1;
    Ok (Some (meta.1, t)).

Definition check_seeds (key : Address) (seeds : list bytes) : res AuthError unit :=
  throw_if (negb (bool_decide (key = (getProgramDerivedAddress SIGIL_PROGRAM_ID seeds).1)))
    ConstraintSeeds.

Definition check_mut (meta : Address * AccountRole) : res AuthError unit :=
  throw_if (negb (is_writable meta.2)) ConstraintMut.

Definition validate_accounts (cl : Cluster) (vault : AgentVault) (args : ValidateArgs)
    (metas : list (Address * AccountRole)) : res AuthError ValidateAccounts :=
  match metas with
  | agent :: vault_acc :: policy :: tracker :: overlay :: session :: vault_token :: mint
      :: treasury :: fee_dest :: output :: token_program :: system_program :: sysvar :: remaining =>
      throw_if (negb (is_signer agent.2)) ConstraintSigner ;;
      for_each check_mut [agent; vault_acc; tracker; overlay; session; vault_token] ;;
      throw_if (negb (is_agent vault agent.1)) UnauthorizedAgent ;;
      check_seeds vault_acc.1 [seedString "vault"; encodeAddress (owner vault); seedU64Le (vaultId vault)] ;;
      check_seeds policy.1 [seedString "policy"; encodeAddress vault_acc.1] ;;
      check_seeds tracker.1 [seedString "tracker"; encodeAddress vault_acc.1] ;;
      check_seeds overlay.1 [seedString "agent_spend"; encodeAddress vault_acc.1; [0]] ;;
      check_seeds session.1 [seedString "session"; encodeAddress vault_acc.1; encodeAddress agent.1;
                             encodeAddress (arg_token_mint args)] ;;
      throw_if (negb (bool_decide (cl_accounts cl session.1 = None))) AccountAlreadyInUse ;;
      vt ← load_token cl vault_token.1;
      throw_if (negb (bool_decide (tk_owner vt = vault_acc.1))) InvalidTokenAccount ;;
      throw_if (negb (bool_decide (tk_mint vt = mint.1))) InvalidTokenAccount ;;
      throw_if (negb (bool_decide (mint.1 = arg_token_mint args))) InvalidTokenAccount ;;
      t ← load_optional cl treasury;
      f ← load_optional cl fee_dest;
      o ← load_optional cl output;
      throw_if (negb (bool_decide (token_program.1 = TOKEN_PROGRAM_ADDRESS))) InvalidProgramId ;;
      throw_if (negb (bool_decide (system_program.1 = SYSTEM_PROGRAM_ADDRESS))) InvalidProgramId ;;
      throw_if (negb (bool_decide (sysvar.1 = INSTRUCTIONS_SYSVAR))) ConstraintAddress ;;
      Ok {| va_agent := agent.1; va_vault := vault_acc.1; va_vault_token_key := vault_token.1;
            va_vault_token := vt; va_treasury := t; va_fee_destination := f; va_output := o;
            va_remaining := remaining.*1 |}
  | _ => Throw AccountNotEnoughKeys
  end.

(** The instruction at [idx], dispatched to the handler. *)
Definition process_validate (cl : Cluster) (vault : AgentVault) (policy : PolicyConfig)
    (net : Network) (now : Z) (ixs : list Instruction) (idx : nat)
    : res AuthError (Session * list TokenCall * AgentVault) :=
  match ixs !! idx with
  | None => Throw InstructionDidNotDeserialize
  | Some ix =>
      args ← decode_validate_args (default [] (ins_data ix));
      a ← validate_accounts cl vault args (account_view ix);
      validate_and_authorize cl vault policy net now a args ixs idx
  end.

(** ** The outcome check of [finalize_session]

    What the caps know: the vault's tracker and the agents' overlay. *)
Record Books := mkBooks { bk_tracker : SpendTracker; bk_overlay : AgentSpendOverlay }.

(** [PolicyConfig::get_protocol_cap]. *)
Definition get_protocol_cap (policy : PolicyConfig) (protocol : Address) : option Z :=
  if negb (hasProtocolCaps policy) then None
  else (fun r => default 0 (protocolCaps policy !! r.1))
         <$> list_find (fun p => p = protocol) (protocols policy).

(** Per-transaction limit and rolling 24h cap. *)
Definition check_vault_caps (policy : PolicyConfig) (t : SpendTracker) (now amount : Z)
    : res AuthError unit :=
  throw_if (negb (amount <=? maxTransactionSizeUsd policy)) TransactionTooLarge ;;
  new_total ← add_u64 (get_rolling_24h_usd t now) amount;
  throw_if (negb (new_total <=? dailySpendingCapUsd policy)) SpendingCapExceeded.

(** Per-agent cap, and the agent's contribution and lifetime counters. *)
Definition charge_agent (vault : AgentVault) (o : AgentSpendOverlay) (now : Z) (agent : Address)
    (amount : Z) : res AuthError AgentSpendOverlay :=
  match get_agent vault agent with
  | None => Throw UnauthorizedAgent
  | Some agent_entry =>
      match find_agent_slot o agent with
      | Some agent_slot =>
          (if spendingLimitUsd agent_entry >? 0 then
             let e := default (mkContribution [] 0 []) (ov_entries o !! agent_slot) in
             let agent_rolling :=
               if Z.of_nat agent_slot >=? MAX_OVERLAY_ENTRIES then 0
               else get_agent_rolling_24h_usd e now in
             new_agent ← add_u64 agent_rolling amount;
             throw_if (negb (new_agent <=? spendingLimitUsd agent_entry)) AgentSpendLimitExceeded
           else Ok tt) ;;
          o ← lift_chain (record_agent_contribution o now agent_slot amount);
          spend ← add_u64 (default 0 (ov_lifetimeSpend o !! agent_slot)) amount;
          count ← add_u64 (default 0 (ov_lifetimeTxCount o !! agent_slot)) 1;
          Ok (mkOverlay (ov_entries o) (<[agent_slot := spend]> (ov_lifetimeSpend o))
                (<[agent_slot := count]> (ov_lifetimeTxCount o)))
      | None =>
          throw_if (spendingLimitUsd agent_entry >? 0) AgentSlotNotFound ;; Ok o
      end
  end.

(** Per-protocol cap; a cap of zero is no cap. *)
Definition check_protocol_cap (policy : PolicyConfig) (t : SpendTracker) (now : Z)
    (protocol : Address) (amount : Z) : res AuthError unit :=
  match get_protocol_cap policy protocol with
  | Some proto_cap =>
      if proto_cap >? 0 then
        new_proto ← add_u64 (get_protocol_spend t now (encodeAddress protocol)) amount;
        throw_if (negb (new_proto <=? proto_cap)) AuthProtocolCapExceeded
      else Ok tt
  | None => Ok tt
  end.

Definition record_on_tracker (policy : PolicyConfig) (t : SpendTracker) (now : Z)
    (protocol : Address) (amount : Z) : res AuthError SpendTracker :=
  t ← lift_chain (record_spend t now amount);
  if hasProtocolCaps policy
  then lift_chain (record_protocol_spend t now (encodeAddress protocol) amount) else Ok t.

(** The caps and the records of a measured spend, the same block in both branches. *)
Definition finalize_spend (vault : AgentVault) (policy : PolicyConfig) (b : Books) (now : Z)
    (agent protocol : Address) (amount : Z) : res AuthError Books :=
  check_vault_caps policy (bk_tracker b) now amount ;;
  o ← charge_agent vault (bk_overlay b) now agent amount;
  check_protocol_cap policy (bk_tracker b) now protocol amount ;;
  t ← record_on_tracker policy (bk_tracker b) now protocol amount;
  Ok (mkBooks t o).

(** [run_outcome_check]: the actual spend and the books after it. *)
Definition finalize_outcome (net : Network) (vault_key : Address) (vault : AgentVault)
    (policy : PolicyConfig) (s : Session) (vault_token output : option TokenAccount)
    (b : Books) (now : Z) : res AuthError (Z * Books) :=
  if isStablecoinMint (se_authorized_token s) net then
    match vault_token with
    | None => Throw InvalidTokenAccount
    | Some acct =>
        let total_decrease := Z.max 0 (se_balance_before s - tk_amount acct) in
        throw_if (se_delegated s && (tk_amount acct <? se_balance_before s)
                  && negb (total_decrease <=? se_authorized_amount s)) UnexpectedBalanceDecrease ;;
        fees_collected ← add_u64 (se_protocol_fee s) (se_developer_fee s);
        let actual_spend := Z.max 0 (total_decrease - fees_collected) in
        if actual_spend >? 0 then
          b ← finalize_spend vault policy b now (se_agent s) (se_authorized_protocol s) actual_spend;
          Ok (actual_spend, b)
        else Ok (actual_spend, b)
    end
  else
    match output with
    | None => Throw InvalidTokenAccount
    | Some acct =>
        throw_if (negb (bool_decide (tk_owner acct = vault_key))) InvalidTokenAccount ;;
        throw_if (negb (bool_decide (tk_mint acct = se_output_mint s))) InvalidTokenAccount ;;
        throw_if (negb (tk_amount acct >? se_balance_before s)) NonTrackedSwapMustReturnStablecoin ;;
        let stablecoin_delta := tk_amount acct - se_balance_before s in
        b ← finalize_spend vault policy b now (se_agent s) (se_authorized_protocol s) stablecoin_delta;
        Ok (stablecoin_delta, b)
    end.

(** Fees of a session without spend are charged to the cap. *)
Definition fee_fallback (policy : PolicyConfig) (s : Session) (actual_spend : Z) (b : Books) (now : Z)
    : res AuthError Books :=
  fees_collected_total ← add_u64 (se_protocol_fee s) (se_developer_fee s);
  if (actual_spend =? 0) && (fees_collected_total >? 0) then
    new_total ← add_u64 (get_rolling_24h_usd (bk_tracker b) now) fees_collected_total;
    throw_if (negb (new_total <=? dailySpendingCapUsd policy)) SpendingCapExceeded ;;
    t ← lift_chain (record_spend (bk_tracker b) now fees_collected_total);
    Ok (mkBooks t (bk_overlay b))
  else Ok b.

(** The vault's counters at the end of a session. *)
Definition settle_vault (v : AgentVault) (s : Session) (is_expired : bool) (actual_spend : Z)
    : res AuthError AgentVault :=
  fees ← (if se_developer_fee s >? 0 then add_u64 (totalFeesCollected v) (se_developer_fee s)
          else Ok (totalFeesCollected v));
  transactions ← (if is_expired then Ok (totalTransactions v) else add_u64 (totalTransactions v) 1);
  volume ← (if negb is_expired && se_is_spending s then add_u64 (totalVolume v) actual_spend
            else Ok (totalVolume v));
  Ok (mkVault (owner v) (vaultId v) (agents v) (feeDestination v) (vault_status v) (av_bump v)
        (createdAt v) transactions volume (activeEscrowCount v) fees (totalDepositedUsd v)
        (totalWithdrawnUsd v) (totalFailedTransactions v) (activeSessions v)).

Definition close_counters (v : AgentVault) (is_expired : bool) : res AuthError AgentVault :=
  failed ← (if is_expired then add_u64 (totalFailedTransactions v) 1
            else Ok (totalFailedTransactions v));
  Ok (mkVault (owner v) (vaultId v) (agents v) (feeDestination v) (vault_status v) (av_bump v)
        (createdAt v) (totalTransactions v) (totalVolume v) (activeEscrowCount v)
        (totalFeesCollected v) (totalDepositedUsd v) (totalWithdrawnUsd v) failed
        (Z.max 0 (activeSessions v - 1))).

(** Post-execution assertions are checked whenever the policy has them: their account must
    be among the remaining ones. *)
Definition assertions_guard (policy : PolicyConfig) (vault_key : Address) (remaining : list Address)
    : res AuthError unit :=
  if negb (hasPostAssertions policy =? 0) then
    throw_if (bool_decide (remaining = [])) PostAssertionFailed ;;
    throw_if (negb (bool_decide (post_assertions_pda vault_key ∈ remaining))) PostAssertionFailed ;;
    check_assertions remaining
  else Ok tt.

(** The instructions after finalize, at most 64 of them. *)
Definition scan_post_finalize (ixs : list Instruction) : res AuthError unit :=
  throw_if (existsb (fun ix => negb (is_infrastructure ix))
              (take (Z.to_nat MAX_SYSVAR_SCAN_ITERATIONS) ixs)) UnauthorizedPostFinalizeInstruction.

(** The accounts of [FinalizeSession] its handler reads. *)
Record FinalizeAccounts := mkFinalizeAccounts {
  fa_payer : Address;
  fa_rent_recipient : Address;
  fa_vault_token : option (Address * TokenAccount);
  fa_output : option TokenAccount;
  fa_remaining : list Address;
}.

(** The handler; [after] are the instructions that follow it in the transaction. *)
Definition finalize_session (net : Network) (vault_key : Address) (vault : AgentVault)
    (policy : PolicyConfig) (s : Session) (a : FinalizeAccounts) (b : Books) (now : Z)
    (after : list Instruction) : res AuthError (list TokenCall * AgentVault * Books) :=
  let is_expired := now >? se_expires_at s in
  throw_if (negb (bool_decide (fa_rent_recipient a = se_agent s))) InvalidSession ;;
  (if is_expired then Ok tt
   else
     throw_if (negb (bool_decide (fa_payer a = se_agent s))) UnauthorizedAgent ;;
     throw_if (negb (se_authorized s)) SessionNotAuthorized) ;;
  calls ← (if se_delegated s then
             match fa_vault_token a with
             | None => Throw InvalidTokenAccount
             | Some (key, _) =>
                 throw_if (negb (bool_decide (key = se_delegation_token_account s)))
                   InvalidTokenAccount ;;
                 Ok [Revoke key]
             end
           else Ok []);
  outcome ← (if negb is_expired && negb (bool_decide (se_output_mint s = default_pubkey))
             then finalize_outcome net vault_key vault policy s (snd <$> fa_vault_token a)
                    (fa_output a) b now
             else Ok (0, b));
  b ← fee_fallback policy s outcome.1 outcome.2 now;
  vault ← settle_vault vault s is_expired outcome.1;
  (if is_expired then Ok tt else assertions_guard policy vault_key (fa_remaining a)) ;;
  vault ← close_counters vault is_expired;
  scan_post_finalize after ;;
  Ok (calls, vault, b).
End handlers.
End scan.
