(* ===== verification/SealSpec.v ===== *)
(** * What [seal()] guarantees

    The theorems about sealing: the shape and contents of the sealed transaction, the
    success of the program's [validate_and_authorize] on it, what of [finalize_session] the
    headroom test covers, the pre-sign gate's session binding, and the effect of hooks. *)

From Stdlib Require Import QArith.
From S2P Require Import Prelude JsText Types Accounts Bytes OnChain StateResolver Policies Shield Hooks AltLoader Pdas Composer OwnerChain Seal ChainAuth.
Local Open Scope string_scope.
Local Open Scope Z_scope.
Local Open Scope list_scope.

(** ** Instructions up to compression

    [same_instruction] is an equivalence, and every scan respects it. *)
#[export] Instance same_account_equivalence : Equivalence same_account.
Proof.
  split.
  - done.
  - intros a b [H1 H2]. by split.
  - intros a b c [H1 H2] [H3 H4]. split; congruence.
Qed.

#[export] Instance same_instruction_equivalence : Equivalence same_instruction.
Proof.
  split.
  - intros ix. apply same_instruction_refl.
  - intros a b [H1 H2 H3]. split; [done..|]. by symmetry.
  - intros a b c [H1 H2 H3] [H4 H5 H6]. split; [congruence..|]. by etrans.
Qed.

#[export] Instance ins_program_proper : Proper (same_instruction ==> eq) ins_program.
Proof. by intros a b []. Qed.
#[export] Instance ins_data_proper : Proper (same_instruction ==> eq) ins_data.
Proof. by intros a b []. Qed.

#[export] Instance is_finalize_proper : Proper (same_instruction ==> eq) is_finalize.
Proof. intros a b [H1 H2 _]. unfold is_finalize. by rewrite H1, H2. Qed.
#[export] Instance is_infrastructure_proper : Proper (same_instruction ==> eq) is_infrastructure.
Proof. intros a b [H _ _]. unfold is_infrastructure. by rewrite H. Qed.
#[export] Instance spl_token_check_proper : Proper (same_instruction ==> eq) spl_token_check.
Proof. intros a b [_ H _]. unfold spl_token_check, first_byte. by rewrite H. Qed.
#[export] Instance token_2022_check_proper : Proper (same_instruction ==> eq) token_2022_check.
Proof. intros a b [_ H _]. unfold token_2022_check, first_byte. by rewrite H. Qed.

#[export] Instance account_view_proper : Proper (same_instruction ==> eq) account_view.
Proof.
  intros a b [_ _ H]. unfold account_view. destruct H as [l k Hlk|]; [|done]. cbn.
  induction Hlk as [|u v l k [H1 H2] _ IH]; [done|]. cbn. by rewrite H1, H2, IH.
Qed.

Section scan_proper.
Context (verify_entries :
  bytes -> Address -> bytes -> list (Address * AccountRole) -> res AuthError (option nat)).
Context (verify_jupiter_slippage : bytes -> Z -> res AuthError unit).

#[local] Instance constraint_check_proper loaded :
  Proper (same_instruction ==> eq) (constraint_check verify_entries loaded).
Proof.
  intros a b H. unfold constraint_check.
  by rewrite (account_view_proper _ _ H), (si_program _ _ H), (si_data _ _ H).
Qed.

Lemma scan_shared_same policy loaded a b :
  same_instruction a b ->
  scan_instruction_shared verify_entries policy loaded a
  = scan_instruction_shared verify_entries policy loaded b.
Proof.
  intros H. unfold scan_instruction_shared. rewrite (is_finalize_proper _ _ H),
    (spl_token_check_proper _ _ H), (token_2022_check_proper _ _ H), (is_infrastructure_proper _ _ H),
    (si_program _ _ H), (constraint_check_proper loaded _ _ H). done.
Qed.

Lemma scan_forward_same sp policy loaded target iter n l l' :
  Forall2 same_instruction l l' ->
  scan_forward verify_entries verify_jupiter_slippage sp policy loaded target iter n l =
  scan_forward verify_entries verify_jupiter_slippage sp policy loaded target iter n l'.
Proof.
  intros H. revert iter n. induction H as [|a b l l' Hab Hl IH]; intros iter n; [done|].
  cbn [scan_forward]. rewrite (scan_shared_same policy loaded a b Hab). unfold enforce_jupiter_slippage.
  rewrite (si_program _ _ Hab), (si_data _ _ Hab).
  apply bind_ext; intros _. apply bind_ext; intros [| |]; [done|apply IH|].
  apply bind_ext; intros _. apply bind_ext; intros _. apply IH.
Qed.

Lemma scan_backward_same iter l l' :
  Forall2 same_instruction l l' -> scan_backward iter l = scan_backward iter l'.
Proof.
  intros H. revert iter. induction H as [|a b l l' Hab Hl IH]; intros iter; [done|].
  cbn [scan_backward]. by rewrite (is_infrastructure_proper _ _ Hab), IH.
Qed.

(** The program treats transactions alike that differ by a compression. *)
Lemma process_validate_same `{env : PdaEnv} create decodeAddress capture cl vault policy net now ixs ixs' idx :
  Forall2 same_instruction ixs ixs' ->
  process_validate verify_entries verify_jupiter_slippage create decodeAddress capture
    cl vault policy net now ixs idx =
  process_validate verify_entries verify_jupiter_slippage create decodeAddress capture
    cl vault policy net now ixs' idx.
Proof.
  intros H. unfold process_validate. pose proof (proj1 (Forall2_lookup _ _ _) H idx) as Hl.
  destruct Hl as [ix ix' Hix|]; [|done].
  rewrite (si_data _ _ Hix), (account_view_proper _ _ Hix).
  apply bind_ext; intros args. apply bind_ext; intros a. unfold validate_and_authorize.
  rewrite (scan_backward_same 0 _ _ (Forall2_take _ _ _ idx H)).
  apply bind_ext; intros _. apply bind_ext; intros loaded.
  by rewrite (scan_forward_same _ _ loaded _ _ _ _ _ (Forall2_drop _ _ _ (S idx) H)).
Qed.
End scan_proper.

(** ** The pre-flight and the on-chain scan *)

(** The token-program part of the shared scan. *)
Definition chain_token_check (ix : Instruction) : res AuthError unit :=
  (if bool_decide (ins_program ix = TOKEN_PROGRAM_ADDRESS) then spl_token_check ix else Ok tt) ;;
  (if bool_decide (ins_program ix = TOKEN_2022_PROGRAM_ADDRESS) then token_2022_check ix else Ok tt).

(** The Token-2022 opcodes the program blocks and the SDK does not. *)
Definition unmirrored_opcodes : list Z := [27; 35; 36; 38; 42; 45; 46; 255].

Definition unmirrored (ix : Instruction) : Prop :=
  ins_program ix = TOKEN_2022_PROGRAM_ADDRESS /\
  exists b, first_byte ix = Some b /\ b ∈ unmirrored_opcodes.

Lemma check_spl_op_other v ix :
  ins_program ix <> TOKEN_PROGRAM_ADDRESS -> ins_program ix <> TOKEN_2022_PROGRAM_ADDRESS ->
  check_spl_op v ix = Ok tt /\ chain_token_check ix = Ok tt.
Proof.
  intros H1 H2. unfold check_spl_op, chain_token_check.
  by rewrite (bool_decide_false (_ = TOKEN_PROGRAM_ADDRESS)),
    (bool_decide_false (_ = TOKEN_2022_PROGRAM_ADDRESS)) by done.
Qed.

(** Decide every comparison of a byte with the opcodes in the goal. *)
Ltac split_opcode b :=
  repeat match goal with
  | |- context [Z.eqb b ?n] => destruct (Z.eqb_spec b n); [subst b|]
  end.

Lemma check_spl_op_token v ix :
  ins_program ix = TOKEN_PROGRAM_ADDRESS ->
  check_spl_op v ix = Ok tt <-> chain_token_check ix = Ok tt.
Proof.
  intros H. unfold check_spl_op, chain_token_check, spl_token_check, first_byte. rewrite H.
  change (bool_decide (TOKEN_PROGRAM_ADDRESS = TOKEN_PROGRAM_ADDRESS)) with true.
  change (bool_decide (TOKEN_PROGRAM_ADDRESS = TOKEN_2022_PROGRAM_ADDRESS)) with false. cbn [orb andb].
  destruct (ins_data ix) as [[|b l]|]; [done| |done]. cbn [head default from_option id].
  split_opcode b; try (split; [discriminate|vm_compute; discriminate]).
  rewrite !bool_decide_false by set_solver. done.
Qed.

Lemma check_spl_op_2022 v ix :
  ins_program ix = TOKEN_2022_PROGRAM_ADDRESS ->
  check_spl_op v ix = Ok tt <-> chain_token_check ix = Ok tt \/ unmirrored ix.
Proof.
  intros H. unfold check_spl_op, chain_token_check, token_2022_check, unmirrored, first_byte. rewrite H.
  change (bool_decide (TOKEN_2022_PROGRAM_ADDRESS = TOKEN_PROGRAM_ADDRESS)) with false.
  change (bool_decide (TOKEN_2022_PROGRAM_ADDRESS = TOKEN_2022_PROGRAM_ADDRESS)) with true.
  cbn [orb andb].
  destruct (ins_data ix) as [[|b l]|]; [naive_solver| |naive_solver]. cbn [head default from_option id].
  destruct (decide (b ∈ [3; 4; 6; 8; 9; 12; 13; 15; 26])) as [Hin|Hout].
  - assert (Hu : b ∉ unmirrored_opcodes) by (unfold unmirrored_opcodes; set_solver).
    split.
    + repeat (apply elem_of_cons in Hin as [->|Hin]; [discriminate|]). set_solver.
    + intros [Hc|(_ & x & [= <-] & Hx)]; [|done].
      repeat (apply elem_of_cons in Hin as [->|Hin]; [discriminate Hc|]). set_solver.
  - split; intros _.
    + destruct (decide (b ∈ unmirrored_opcodes)) as [Hu|Hu]; [right; eauto|left].
      unfold unmirrored_opcodes in Hu. rewrite !bool_decide_false by set_solver.
      split_opcode b; set_solver.
    + split_opcode b; set_solver.
Qed.

(** What the SDK leaves to the program's scan, for one DeFi instruction: it is not one of the
    program's own, not an async-fulfilment program, itself on the allowlist (the SDK tests
    only the target), the declared target when it is a recognised protocol, no unmirrored
    Token-2022 operation, and accepted by the constraint matcher and the slippage check. *)
Record passes_chain
    (verify_entries : bytes -> Address -> bytes -> list (Address * AccountRole) -> res AuthError (option nat))
    (verify_jupiter_slippage : bytes -> Z -> res AuthError unit)
    (policy : PolicyConfig) (loaded : option bytes) (is_spending : bool) (target : Address)
    (ix : Instruction) : Prop := {
  pch_program : ins_program ix <> SIGIL_PROGRAM_ID;
  pch_async : ins_program ix ∉ KNOWN_ASYNC_FULFILLMENT_PROGRAMS;
  pch_allowed : is_protocol_allowed policy (ins_program ix) = true;
  pch_target : is_spending = true -> is_recognized_defi (ins_program ix) = true ->
    ins_program ix = target;
  pch_opcodes : ~ unmirrored ix;
  pch_constraints : constraint_check verify_entries loaded ix = Ok tt;
  pch_slippage : ins_program ix = JUPITER_PROGRAM_ADDRESS ->
    verify_jupiter_slippage (default [] (ins_data ix)) (maxSlippageBps policy) = Ok tt;
}.

Lemma count_defi_cons ix l :
  count_defi (ix :: l) =
  if is_recognized_defi (ins_program ix) then S (count_defi l) else count_defi l.
Proof.
  unfold count_defi. rewrite filter_cons. by destruct (is_recognized_defi (ins_program ix)).
Qed.

Section scan_success.
Context (verify_entries :
  bytes -> Address -> bytes -> list (Address * AccountRole) -> res AuthError (option nat)).
Context (verify_jupiter_slippage : bytes -> Z -> res AuthError unit).
Context (policy : PolicyConfig) (loaded : option bytes) (is_spending : bool) (target : Address).
Local Notation passes :=
  (passes_chain verify_entries verify_jupiter_slippage policy loaded is_spending target).

Lemma scan_shared_passes v ix :
  check_spl_op v ix = Ok tt -> is_infrastructure ix = false -> passes ix ->
  scan_instruction_shared verify_entries policy loaded ix = Ok PassedSharedChecks.
Proof.
  intros Hspl Hinf [Hp Ha Hal _ Hop Hc _]. unfold scan_instruction_shared, is_finalize.
  rewrite (bool_decide_false (_ = SIGIL_PROGRAM_ID)) by done. cbn [andb].
  assert (Ht : chain_token_check ix = Ok tt).
  { destruct (decide (ins_program ix = TOKEN_PROGRAM_ADDRESS)); [by apply (check_spl_op_token v)|].
    destruct (decide (ins_program ix = TOKEN_2022_PROGRAM_ADDRESS)).
    - apply (check_spl_op_2022 v) in Hspl as [|]; done.
    - by apply (check_spl_op_other v). }
  unfold chain_token_check in Ht. apply bind_ok_inv in Ht as ([] & H1 & H2).
  rewrite H1. cbn [mbind res_bind]. rewrite H2. cbn [mbind res_bind]. rewrite Hinf.
  rewrite bool_decide_false by done. rewrite Hal, Hc. done.
Qed.

(** The scan runs over the DeFi instructions, counting the recognised ones, and stops at
    the finalize instruction. *)
Lemma scan_forward_passes v defi fin rest iter n :
  Forall (fun ix => check_spl_op v ix = Ok tt /\ is_infrastructure ix = false /\ passes ix) defi ->
  is_finalize fin = true ->
  iter + Z.of_nat (length defi) < MAX_SYSVAR_SCAN_ITERATIONS ->
  n + Z.of_nat (count_defi defi) <= 255 ->
  scan_forward verify_entries verify_jupiter_slippage is_spending policy loaded target iter n
    (defi ++ fin :: rest) =
  Ok (if is_spending then n + Z.of_nat (count_defi defi) else n, true).
Proof.
  intros HF Hfin. revert iter n. induction HF as [|ix defi (Hs & Hi & Hp) HF IH]; intros iter n Hit Hn.
  - cbn [app scan_forward length] in *. rewrite (proj2 (Z.ltb_lt _ _)) by lia. cbn.
    unfold scan_instruction_shared. rewrite Hfin. cbn. unfold count_defi. simpl.
    rewrite Z.add_0_r. by destruct is_spending.
  - cbn [app scan_forward length] in *. rewrite (proj2 (Z.ltb_lt _ _)) by lia. cbn [negb throw_if].
    rewrite bind_ok, (scan_shared_passes v ix Hs Hi Hp), bind_ok. destruct Hp as [_ _ _ Htg _ _ Hsl].
    rewrite throw_if_false; [rewrite bind_ok|].
    2: { destruct is_spending; [|done]. destruct (is_recognized_defi _) eqn:Hr; [|done]. cbn.
         by rewrite bool_decide_true by auto. }
    assert (Hslip : enforce_jupiter_slippage verify_jupiter_slippage (maxSlippageBps policy) ix = Ok tt).
    { unfold enforce_jupiter_slippage. case_bool_decide; auto. }
    rewrite Hslip, bind_ok. rewrite count_defi_cons in *. unfold sat_add_u8.
    destruct (is_recognized_defi (ins_program ix)), is_spending; cbn [andb];
      rewrite IH by lia; do 2 f_equal; lia.
Qed.
End scan_success.

Lemma scan_backward_infrastructure iter l :
  Forall (fun ix => is_infrastructure ix = true) l ->
  iter + Z.of_nat (length l) <= MAX_SYSVAR_SCAN_ITERATIONS ->
  scan_backward iter l = Ok tt.
Proof.
  intros HF. revert iter. induction HF as [|ix l Hi HF IH]; intros iter Hl; [done|].
  cbn [scan_backward length] in *. rewrite (proj2 (Z.ltb_lt _ _)) by lia. rewrite Hi. cbn.
  apply IH. lia.
Qed.

(** ** Inverting a successful seal *)
Lemma check_amount_ok a : check_amount a = Ok tt <-> 0 <= a <= U64_MAX.
Proof.
  unfold check_amount, throw_if. destruct (Z.ltb_spec a 0); simpl; [split; [done|lia]|].
  destruct (Z.gtb_spec a U64_MAX); split; try done; lia.
Qed.

Ltac destruct_unit := repeat match goal with u : unit |- _ => destruct u end.

(** ** Refusals of the outcome check *)

(** The refusals left for a spend that passes the vault's caps. *)
Definition residual_refusals : list AuthError :=
  [AgentSpendLimitExceeded; AgentSlotNotFound; AuthProtocolCapExceeded; AuthOverflow].

Lemma lift_chain_throw {A} (r : res ChainError A) e : lift_chain r = Throw e -> e ∈ residual_refusals.
Proof. destruct r as [a|[]]; cbn; intros; simplify_eq; unfold residual_refusals; set_solver. Qed.

Lemma add_u64_throw a b e : add_u64 a b = Throw e -> e ∈ residual_refusals.
Proof. apply lift_chain_throw. Qed.

Lemma bind_throw {E A B} (r : res E A) (f : A -> res E B) e :
  (r ≫= f) = Throw e -> r = Throw e \/ exists a, r = Ok a /\ f a = Throw e.
Proof. destruct r as [a|e']; cbn; [eauto|]. intros [= ->]. by left. Qed.

Lemma throw_if_throw {E} c (e e' : E) : throw_if c e = Throw e' -> e' = e.
Proof. unfold throw_if. destruct c; congruence. Qed.

Ltac residual :=
  repeat match goal with
  | H : (_ ≫= _) = Throw _ |- _ =>
      apply bind_throw in H as [H|(? & _ & H)]
  | H : throw_if _ _ = Throw _ |- _ => apply throw_if_throw in H as ->
  | H : lift_chain _ = Throw _ |- _ => by eapply lift_chain_throw
  | H : add_u64 _ _ = Throw _ |- _ => by eapply add_u64_throw
  | H : Ok _ = Throw _ |- _ => discriminate H
  | H : match ?x with _ => _ end = Throw _ |- _ => destruct x
  end; try (unfold residual_refusals; set_solver).

Lemma finalize_spend_residual `{env : PdaEnv} v policy b now agent protocol amount e :
  is_Some (get_agent v agent) -> check_vault_caps policy (bk_tracker b) now amount = Ok tt ->
  finalize_spend v policy b now agent protocol amount = Throw e -> e ∈ residual_refusals.
Proof.
  intros [a Ha] Hc. unfold finalize_spend. rewrite Hc, bind_ok. unfold charge_agent. rewrite Ha.
  unfold check_protocol_cap, record_on_tracker. intros H. residual.
Qed.

Section seal_spec.
Context {C Tx : Type} `{pda : !PdaEnv} `{lib : !TxLib Tx} `{laws : !TxLibLaws lib}.
Context (gm : Address -> option (Address * bool) -> bool -> AccountMeta).
Implicit Types (p : SealParams C) (w : SealWorld C) (cache : AltCache).

(** The correlation id of a call. *)
Definition cid w p : string := default (sw_correlationId w) (sp_correlationId p).

Lemma seal_ok_inv {E R} w cache (hooks : option (SealHooks (SealParams C) Tx E R)) p r :
  run_result (seal gm w cache hooks p) = Ok r ->
  validateNetwork (normalizeNetwork (sp_network p)) = Ok tt /\
  build_abort hooks (hook_context p (cid w p)) p = None /\
  exists plan alts,
    seal_plan gm w p (cid w p) (normalizeNetwork (sp_network p)) = Ok plan /\
    (resolve_alts w cache (normalizeNetwork (sp_network p)) p).2 = Ok alts /\
    seal_assemble w p (normalizeNetwork (sp_network p)) plan alts = Ok r.
Proof.
  unfold seal. destruct (validateNetwork _) as [[]|e] eqn:Hn; [|done]. cbv zeta.
  fold (cid w p). unfold build_abort. split; [done|].
  destruct (truthy_abort _) as [a|] eqn:Ha; [done|]. split; [done|].
  destruct (seal_plan _ _ _ _ _) as [plan|e] eqn:Hp; [|done]. exists plan.
  destruct (resolve_alts _ _ _ _).2 as [alts|e] eqn:Halt; [|done]. exists alts.
  cbn [mbind res_bind] in H. split_and!; [done..|].
  destruct (seal_assemble _ _ _ _ _) as [r'|e]; [|done]. cbn in H. by simplify_eq.
Qed.

Lemma seal_gates_inv p correlationId net state target :
  seal_gates p correlationId net state = Ok target ->
  let spending := sp_amount p >? 0 in
  let defi := strip_infrastructure (sp_instructions p) in
  exists agentEntry,
    vault_status (rs_vault state) = Active /\
    require_agent p state = Ok agentEntry /\
    run_policy_plugins p correlationId state agentEntry = Ok tt /\
    0 <= sp_amount p <= U64_MAX /\
    Forall (fun ix => check_spl_op (sp_vault p) ix = Ok tt) defi /\
    target_protocol p defi = Ok target /\
    agent_capability agentEntry <> 0 /\
    isProtocolAllowed target (protocolMode (rs_policy state)) (protocols (rs_policy state)) = true /\
    check_instruction_count p net spending defi = Ok tt /\
    check_headroom p state spending = Ok tt /\
    check_output_ata p net spending = Ok tt.
Proof.
  unfold seal_gates, check_capability, check_protocol. intros H. cbv zeta in *.
  inv_bind H. injection H as ->. destruct_unit. eexists. split_and!; try done.
  - unfold require_active in *. by destruct (vault_status _).
  - by apply check_amount_ok in Hok2 as [? _].
  - by apply check_amount_ok in Hok2 as [_ ?].
  - by apply for_each_ok.
  - by apply Z.eqb_neq.
  - by apply negb_false_iff.
Qed.

Lemma seal_plan_inv w p correlationId net plan :
  seal_plan gm w p correlationId net = Ok plan ->
  exists target replacements,
    resolve_state w p = Ok (pl_state plan) /\
    seal_gates p correlationId net (pl_state plan) = Ok target /\
    pl_spending plan = (sp_amount p >? 0) /\
    pl_accounts plan = derive_token_accounts w p (pl_state plan) net (sp_amount p >? 0) /\
    ata_replacements p (pl_accounts plan) = Ok replacements /\
    pl_defiInstructions plan =
      replaceAgentAtas (strip_infrastructure (sp_instructions p)) replacements /\
    pl_validateIx plan =
      with_constraints_account (sp_vault p) (hasConstraints (rs_policy (pl_state plan)))
        (getValidateAndAuthorizeInstruction gm (sp_agent p) (sp_vault p) (pl_accounts plan)
           (sp_tokenMint p) (sp_amount p) target (policyVersion (rs_policy (pl_state plan)))) /\
    pl_finalizeIx plan = getFinalizeSessionInstruction gm (sp_agent p) (sp_vault p) (pl_accounts plan).
Proof.
  unfold seal_plan. cbv zeta. intros H. inv_bind H. injection H as <-. simpl. eauto 12.
Qed.

Lemma seal_assemble_inv w p net plan alts r :
  seal_assemble w p net plan alts = Ok r ->
  sr_transaction r = compileTransaction (composed_message (compose_params p plan alts)) /\
  sr_isSpending r = pl_spending plan /\
  (measureTransactionSize (sr_transaction r)).2 = true /\
  sr_txSizeBytes r = (measureTransactionSize (sr_transaction r)).1.2.
Proof.
  unfold seal_assemble. cbv zeta. intros H. inv_bind H. injection H as <-. simpl.
  apply negb_false_iff in Hok. done.
Qed.

(** Replacing token accounts changes no program and no data. *)
Lemma replaceAgentAtas_shape l rs :
  Forall2 (fun a b => ins_program a = ins_program b /\ ins_data a = ins_data b)
    l (replaceAgentAtas l rs).
Proof.
  unfold replaceAgentAtas. case_bool_decide.
  - apply Forall_Forall2_diag, Forall_true. done.
  - apply Forall2_fmap_r, Forall_Forall2_diag, Forall_true. done.
Qed.

Lemma strip_not_infrastructure l :
  Forall (fun ix => is_infrastructure ix = false) (strip_infrastructure l).
Proof.
  apply Forall_forall. intros ix [[H1 H2] _]%list_elem_of_filter. unfold is_infrastructure.
  by rewrite !bool_decide_false.
Qed.

Lemma sealed_defi_checked v l rs :
  Forall (fun ix => check_spl_op v ix = Ok tt) (strip_infrastructure l) ->
  Forall (fun ix => check_spl_op v ix = Ok tt /\ is_infrastructure ix = false)
    (replaceAgentAtas (strip_infrastructure l) rs).
Proof.
  intros H. pose proof (proj2 (Forall_and _ _) (conj H (strip_not_infrastructure l))) as HF.
  pose proof (replaceAgentAtas_shape (strip_infrastructure l) rs) as H2.
  apply Forall_forall. intros b Hb. apply list_elem_of_lookup in Hb as [i Hi].
  destruct (Forall2_lookup_r _ _ _ _ _ H2 Hi) as (a & Ha & Hp & Hd).
  destruct (Forall_lookup_1 _ _ _ _ HF Ha) as [Hs Hn].
  unfold check_spl_op, is_infrastructure in *. by rewrite <- Hp, <- Hd.
Qed.

Lemma count_defi_same l l' :
  Forall2 (fun a b => ins_program a = ins_program b /\ ins_data a = ins_data b) l l' ->
  count_defi l = count_defi l'.
Proof.
  induction 1 as [|a b l l' [Hp _] _ IH]; [done|]. by rewrite !count_defi_cons, Hp, IH.
Qed.

(** The index of [validate_and_authorize] in the sealed transaction. *)
Definition validate_index p : nat := S (length (priority_fee_ixs (sp_priorityFeeMicroLamports p))).

(** The sealed message: compute budget, validate, DeFi, finalize, up to compression. *)
Lemma sealed_message_shape p plan alts :
  exists units,
  Forall2 same_instruction
    ((getSetComputeUnitLimitInstruction units
       :: priority_fee_ixs (sp_priorityFeeMicroLamports p))
     ++ pl_validateIx plan :: pl_defiInstructions plan ++ [pl_finalizeIx plan])
    (tm_instructions (composed_message (compose_params p plan alts))).
Proof.
  destruct (composed_message_instructions (compose_params p plan alts)) as (_ & _ & H).
  eexists. exact H.
Qed.

Lemma budget_infrastructure p units :
  Forall (fun ix => is_infrastructure ix = true)
    (getSetComputeUnitLimitInstruction units :: priority_fee_ixs (sp_priorityFeeMicroLamports p)).
Proof.
  assert (Hb : forall ix, ins_program ix = COMPUTE_BUDGET_PROGRAM_ADDRESS -> is_infrastructure ix = true).
  { intros ix H. unfold is_infrastructure. by rewrite (bool_decide_true _ H). }
  constructor; [apply Hb, limit_program|].
  eapply Forall_impl; [apply priority_fee_ixs_program|exact Hb].
Qed.

Lemma length_priority_fee p : (length (priority_fee_ixs (sp_priorityFeeMicroLamports p)) <= 1)%nat.
Proof. destruct (sp_priorityFeeMicroLamports p) as [n|]; simpl; [destruct (n >? 0)|]; simpl; lia. Qed.

Lemma finalize_is_finalize payer vault ta :
  is_finalize (getFinalizeSessionInstruction gm payer vault ta) = true.
Proof. reflexivity. Qed.

Lemma chain_protocol_allowed policy target :
  0 <= protocolMode policy <= 2 ->
  isProtocolAllowed target (protocolMode policy) (protocols policy) = true ->
  is_protocol_allowed policy target = true.
Proof.
  intros Hm Ha. apply isProtocolAllowed_spec in Ha. unfold is_protocol_allowed.
  unfold PROTOCOL_MODE_ALL, PROTOCOL_MODE_ALLOWLIST, PROTOCOL_MODE_DENYLIST.
  destruct (Z.eqb_spec (protocolMode policy) 0); [done|].
  destruct (Z.eqb_spec (protocolMode policy) 1); [apply bool_decide_eq_true; naive_solver|].
  destruct (Z.eqb_spec (protocolMode policy) 2); [|lia].
  apply negb_true_iff, bool_decide_eq_false. naive_solver.
Qed.

Lemma count_checked p net defi :
  check_instruction_count p net (sp_amount p >? 0) defi = Ok tt ->
  (sp_amount p >? 0) = true ->
  if isStablecoinMint (sp_tokenMint p) net then (count_defi defi <= 1)%nat else count_defi defi = 1%nat.
Proof.
  unfold check_instruction_count. intros H Hs. rewrite Hs in H. cbv zeta in H. inv_bind H.
  apply throw_if_ok_inv in H. destruct (isStablecoinMint _ _); cbn [andb negb] in *.
  - apply Nat.ltb_ge in Hok. lia.
  - apply negb_false_iff, Nat.eqb_eq in H. done.
Qed.

Lemma drop_after {A} (l : list A) x k n : length l = n -> drop (S n) (l ++ x :: k) = k.
Proof.
  intros <-. change (x :: k) with ([x] ++ k). rewrite app_assoc. apply drop_app_length'.
  rewrite length_app. simpl. lia.
Qed.

(** ** The sealed instruction on chain *)
Lemma validate_data_fields `{plaws : !PdaLaws pda} mint amount target version :
  is_u64 amount -> is_u64 version ->
  let data := validate_data mint amount target version in
  take 8 data = VALIDATE_AND_AUTHORIZE_DISCRIMINATOR /\
  take 32 (drop 8 data) = encodeAddress mint /\
  read_u64_le 40 data = amount /\
  take 32 (drop 48 data) = encodeAddress target /\
  read_u64_le 80 data = version.
Proof.
  intros Ha Hv data. unfold data, validate_data.
  assert (Hd : length VALIDATE_AND_AUTHORIZE_DISCRIMINATOR = 8%nat) by done.
  set (d := VALIDATE_AND_AUTHORIZE_DISCRIMINATOR) in *.
  pose proof (encodeAddress_length mint) as Hm. pose proof (encodeAddress_length target) as Ht.
  pose proof (length_le_bytes 8 amount) as Hla.
  set (em := encodeAddress mint) in *. set (et := encodeAddress target) in *.
  set (la := le_bytes 8 amount) in *. set (lv := le_bytes 8 version) in *.
  split_and!.
  - by apply take_app_length'.
  - rewrite drop_app_length' by done. by apply take_app_length'.
  - pose proof (read_u64_le_roundtrip amount (d ++ em) (et ++ lv) Ha) as H.
    rewrite length_app, Hd, Hm, <- app_assoc in H. exact H.
  - rewrite (app_assoc d), (app_assoc (d ++ em)).
    rewrite drop_app_length' by (rewrite !length_app; lia). by apply take_app_length'.
  - pose proof (read_u64_le_roundtrip version (d ++ em ++ la ++ et) [] Hv) as H.
    rewrite !length_app, Hd, Hm, Hla, Ht, app_nil_r, <- !app_assoc in H. exact H.
Qed.

Lemma length_validate_data `{plaws : !PdaLaws pda} mint amount target version :
  length (validate_data mint amount target version) = 88%nat.
Proof.
  unfold validate_data. rewrite !length_app, !encodeAddress_length, !length_le_bytes. done.
Qed.

(** Behaviour of [getAccountMeta]: the key, the signer flag and the writability of the account
    given; the program's key for an absent one. *)
Class MetaLaws := {
  meta_some q a signer writable :
    let m := gm q (Some (a, signer)) writable in
    am_address m = a /\ is_signer (am_role m) = signer /\ is_writable (am_role m) = writable;
  meta_none q writable : am_address (gm q None writable) = q;
}.

Lemma with_constraints_same_data vault hc ix :
  ins_data (with_constraints_account vault hc ix) = ins_data ix /\
  ins_program (with_constraints_account vault hc ix) = ins_program ix.
Proof. by destruct hc. Qed.

Section on_chain.
Context `{plaws : !PdaLaws pda} `{mlaws : !MetaLaws}.
Context (verify_entries :
  bytes -> Address -> bytes -> list (Address * AccountRole) -> res AuthError (option nat)).
Context (verify_jupiter_slippage : bytes -> Z -> res AuthError unit).
Context (create_program_address : Address -> list bytes -> option Address).
Context (decodeAddress : bytes -> option Address).
Context (capture_snapshots : list Address -> res AuthError unit).

(** Documented behaviour of the runtime: the derivation found with its bump can be created
    again from it, and a key is the decoding of its bytes. *)
Hypothesis create_canonical : forall seeds,
  create_program_address SIGIL_PROGRAM_ID
    (seeds ++ [[(getProgramDerivedAddress SIGIL_PROGRAM_ID seeds).2]])
  = Some (getProgramDerivedAddress SIGIL_PROGRAM_ID seeds).1.
Hypothesis decode_encode : forall a, decodeAddress (encodeAddress a) = Some a.

Lemma decode_sealed_args mint amount target version :
  is_u64 amount -> is_u64 version ->
  decode_validate_args decodeAddress (validate_data mint amount target version)
  = Ok (mkValidateArgs mint amount target version).
Proof.
  intros Ha Hv. destruct (validate_data_fields mint amount target version Ha Hv) as (H1 & H2 & H3 & H4 & H5).
  unfold decode_validate_args. rewrite H1, H2, H3, H4, H5, !decode_encode, length_validate_data.
  done.
Qed.

(** What the cluster holds for the constraints of a vault: nothing to load when the policy has
    none, else the program's account at the canonical address. *)
Record constraints_stored (cl : Cluster) (vault : Address) (constraints : bytes) : Prop := {
  cs_account : exists data,
    cl_accounts cl (Pda.getConstraintsPDA vault SIGIL_PROGRAM_ID).1
      = Some (mkAccountInfo SIGIL_PROGRAM_ID data) /\
    take 8 data = CONSTRAINTS_DISCRIMINATOR /\ (8 + CONSTRAINTS_STRUCT_SIZE <= length data)%nat /\
    constraints = take CONSTRAINTS_STRUCT_SIZE (drop 8 data);
  cs_vault : take 32 constraints = encodeAddress vault;
  cs_bump : constraints_bump constraints = (Pda.getConstraintsPDA vault SIGIL_PROGRAM_ID).2;
}.

Definition constraints_held (cl : Cluster) (policy : PolicyConfig) (vault : Address)
    (loaded : option bytes) : Prop :=
  if hasConstraints policy
  then exists c, loaded = Some c /\ constraints_stored cl vault c else loaded = None.

(** The remaining accounts of a sealed [validate_and_authorize]. *)
Definition sealed_remaining (policy : PolicyConfig) (vault : Address) : list Address :=
  if hasConstraints policy then [(Pda.getConstraintsPDA vault SIGIL_PROGRAM_ID).1] else [].

Lemma load_constraints_held cl policy vault loaded :
  constraints_held cl policy vault loaded ->
  load_constraints create_program_address cl policy vault (sealed_remaining policy vault) = Ok loaded.
Proof.
  unfold constraints_held, sealed_remaining. destruct (hasConstraints policy) eqn:Hc.
  - intros (c & -> & [(data & Hacc & Hdisc & Hlen & ->) Hv Hb]). unfold load_constraints.
    rewrite Hacc. cbn [ai_owner ai_data]. rewrite bool_decide_true by done.
    rewrite (proj2 (Nat.ltb_ge _ _) Hlen), Hdisc. rewrite (bool_decide_true (_ = _)) by done.
    cbn [negb throw_if]. rewrite !bind_ok. cbv zeta. rewrite Hb.
    pose proof (create_canonical [seedString "constraints"; encodeAddress vault]) as Hcr.
    cbn [app] in Hcr. unfold Pda.getConstraintsPDA, Pda.seedAddress in *. rewrite Hcr.
    by rewrite !bool_decide_true by done.
  - intros ->. unfold load_constraints. by rewrite Hc.
Qed.

Definition token_held (cl : Cluster) (key owner mint : Address) : Prop :=
  exists t, cl_tokens cl key = Some t /\ tk_owner t = owner /\ tk_mint t = mint.

(** An optional account of the instruction, as it is loaded. *)
Definition optional_loaded (cl : Cluster) (key : option Address) : option (Address * TokenAccount) :=
  k ← key; t ← cl_tokens cl k; Some (k, t).

Lemma optional_loaded_some cl k t :
  cl_tokens cl k = Some t -> optional_loaded cl (Some k) = Some (k, t).
Proof. intros H. unfold optional_loaded. cbn [mbind option_bind]. by rewrite H. Qed.

Lemma load_optional_sealed cl (key : option Address) :
  cl_tokens cl SIGIL_PROGRAM_ID = None ->
  (forall k, key = Some k -> is_Some (cl_tokens cl k)) ->
  let m := gm SIGIL_PROGRAM_ID (optional_account key) true in
  load_optional cl (am_address m, am_role m) = Ok (optional_loaded cl key).
Proof.
  intros Hno Hk. cbv zeta. unfold load_optional. cbn [fst snd]. destruct key as [k|].
  - destruct (Hk k eq_refl) as [t Ht].
    destruct (meta_some SIGIL_PROGRAM_ID k false true) as (Ha & _ & Hw).
    unfold optional_account, plain_account. cbn [mbind option_bind]. rewrite Ha, Hw.
    rewrite bool_decide_false by (intros ->; congruence). unfold load_token, optional_loaded.
    cbn [mbind option_bind]. by rewrite Ht.
  - unfold optional_account. cbn [mbind option_bind]. rewrite meta_none.
    by rewrite bool_decide_true.
Qed.

(** The keys and roles of the sealed instruction. *)
Lemma sealed_account_view agent vault ta mint amount target version policy :
  account_view (with_constraints_account vault (hasConstraints policy)
    (getValidateAndAuthorizeInstruction gm agent vault ta mint amount target version)) =
  account_view (getValidateAndAuthorizeInstruction gm agent vault ta mint amount target version)
    ++ ((fun k => (k, READONLY)) <$> sealed_remaining policy vault).
Proof.
  unfold account_view, with_constraints_account, sealed_remaining. cbv zeta.
  destruct (hasConstraints policy); cbn [ins_accounts default from_option id]; [|by rewrite app_nil_r].
  by rewrite fmap_app.
Qed.
Lemma meta_address q a s wr : am_address (gm q (Some (a, s)) wr) = a.
Proof. apply meta_some. Qed.
Lemma meta_signer q a s wr : is_signer (am_role (gm q (Some (a, s)) wr)) = s.
Proof. apply meta_some. Qed.
Lemma meta_writable q a s wr : is_writable (am_role (gm q (Some (a, s)) wr)) = wr.
Proof. apply meta_some. Qed.

Lemma check_seeds_canonical key seeds :
  key = (getProgramDerivedAddress SIGIL_PROGRAM_ID seeds).1 -> check_seeds key seeds = Ok tt.
Proof. intros ->. unfold check_seeds. by rewrite bool_decide_true. Qed.

Lemma throw_unless {E} (P : Prop) `{Decision P} (e : E) :
  P -> throw_if (negb (bool_decide P)) e = Ok tt.
Proof. intros. by rewrite bool_decide_true. Qed.

Lemma fmap_sealed_remaining policy vault :
  ((fun k => (k, READONLY)) <$> sealed_remaining policy vault).*1 = sealed_remaining policy vault.
Proof. unfold sealed_remaining. by destruct (hasConstraints policy). Qed.

(** What the sealed instruction loads. *)
Definition sealed_accounts (cl : Cluster) p (state : ResolvedVaultState C) (ta : TokenAccounts) (vt : TokenAccount)
    : ValidateAccounts := {|
  va_agent := sp_agent p; va_vault := sp_vault p;
  va_vault_token_key := vaultTokenAccount ta; va_vault_token := vt;
  va_treasury := optional_loaded cl (protocolTreasuryTokenAccount ta);
  va_fee_destination := optional_loaded cl (feeDestinationTokenAccount ta);
  va_output := optional_loaded cl (outputStablecoinAccount ta);
  va_remaining := sealed_remaining (rs_policy state) (sp_vault p) |}.

(** What the cluster holds for a sealed transaction: the vault is the account its record says,
    no session is open for the agent and the mint, the token accounts the instruction names
    exist, and the constraints are stored where the policy says there are some. *)
Record cluster_ready (cl : Cluster) p (state : ResolvedVaultState C) (ta : TokenAccounts) (net : Network)
    (loaded : option bytes) : Prop := {
  cr_vault : (Pda.getVaultPDA (owner (rs_vault state)) (vaultId (rs_vault state)) SIGIL_PROGRAM_ID).1
             = sp_vault p;
  cr_no_session : cl_accounts cl
    (Pda.getSessionPDA (sp_vault p) (sp_agent p) (sp_tokenMint p) SIGIL_PROGRAM_ID).1 = None;
  cr_program : cl_tokens cl SIGIL_PROGRAM_ID = None;
  cr_vault_token : token_held cl (vaultTokenAccount ta) (sp_vault p) (sp_tokenMint p);
  cr_treasury : forall k, protocolTreasuryTokenAccount ta = Some k ->
    token_held cl k PROTOCOL_TREASURY (sp_tokenMint p);
  cr_fee_destination : forall k, feeDestinationTokenAccount ta = Some k ->
    token_held cl k (feeDestination (rs_vault state)) (sp_tokenMint p);
  cr_output : forall k, outputStablecoinAccount ta = Some k ->
    exists t, cl_tokens cl k = Some t /\
      (isStablecoinMint (sp_tokenMint p) net = false ->
       tk_owner t = sp_vault p /\ isStablecoinMint (tk_mint t) net = true);
  cr_constraints : constraints_held cl (rs_policy state) (sp_vault p) loaded;
}.

Lemma sealed_accounts_load cl w p (state : ResolvedVaultState C) net loaded target :
  let ta := derive_token_accounts w p state net (sp_amount p >? 0) in
  cluster_ready cl p state ta net loaded ->
  is_agent (rs_vault state) (sp_agent p) = true ->
  exists vt, cl_tokens cl (vaultTokenAccount ta) = Some vt /\ forall version,
  validate_accounts cl (rs_vault state)
    (mkValidateArgs (sp_tokenMint p) (sp_amount p) target version)
    (account_view (with_constraints_account (sp_vault p) (hasConstraints (rs_policy state))
      (getValidateAndAuthorizeInstruction gm (sp_agent p) (sp_vault p) ta (sp_tokenMint p)
         (sp_amount p) target version)))
  = Ok (sealed_accounts cl p state ta vt).
Proof.
  intros ta [Hv Hs Hp (vt & Hvt & Hvo & Hvm) Ht Hf Ho _] Hag. exists vt.
  split; [exact Hvt|]. intros version.
  rewrite sealed_account_view. unfold account_view, getValidateAndAuthorizeInstruction.
  cbv zeta. cbn [ins_accounts default from_option id fmap list_fmap app].
  unfold signer_account, plain_account.
  unfold validate_accounts, check_mut. cbn [fst snd for_each].
  rewrite !meta_address, !meta_signer, !meta_writable. cbn [negb throw_if].
  rewrite Hag, !bind_ok. cbn [negb throw_if arg_token_mint].
  rewrite !check_seeds_canonical, !bind_ok by (exact (eq_sym Hv) || reflexivity).
  rewrite (throw_unless (cl_accounts _ _ = None)), bind_ok by exact Hs.
  unfold load_token at 1. rewrite Hvt, !bind_ok.
  rewrite !throw_unless, !bind_ok by done.
  rewrite !load_optional_sealed, !bind_ok; try exact Hp.
  - by rewrite fmap_sealed_remaining.
  - intros k Hk. destruct (Ht k Hk) as (t & -> & _). done.
  - intros k Hk. destruct (Hf k Hk) as (t & -> & _). done.
  - intros k Hk. destruct (Ho k Hk) as (t & -> & _). done.
Qed.
(** The fees of a sealed spend: none without stablecoin input, else those of the program, which
    must leave something of the amount. *)
Definition sealed_fees (stable_spend : bool) (policy : PolicyConfig) (amount : Z) (fees : Z * Z) : Prop :=
  if stable_spend
  then collect_fees policy amount = Ok fees /\ fees.1 <= amount /\ fees.1 + fees.2 <= amount
  else fees = (0, 0).

(** The token calls of the authorisation: the fees to the treasury and to the vault's fee
    destination, the rest of the amount approved for the agent. *)
Definition sealed_calls p (vault : AgentVault) (spending : bool) (fees : Z * Z) : list TokenCall :=
  let from := Pda.deriveAta (sp_vault p) (sp_tokenMint p) in
  if spending then
    (if fees.1 >? 0
     then [Transfer from (Pda.deriveAta PROTOCOL_TREASURY (sp_tokenMint p)) fees.1] else [])
    ++ (if fees.2 >? 0
        then [Transfer from (Pda.deriveAta (feeDestination vault) (sp_tokenMint p)) fees.2] else [])
    ++ [Approve from (sp_agent p) (sp_amount p - fees.1 - fees.2)]
  else [].

Lemma dev_fee_positive policy amount fees :
  collect_fees policy amount = Ok fees -> 0 <= amount -> fees.2 > 0 -> developerFeeRate policy > 0.
Proof.
  unfold collect_fees. intros H Ha Hf. inv_bind H. injection H as <-. cbn in Hf.
  unfold ceil_fee, FEE_RATE_DENOMINATOR in Hok0. set (r := developerFeeRate policy) in *.
  destruct (_ >? _); [done|]. destruct (_ >? _); [done|]. cbn in Hok0. injection Hok0 as <-.
  destruct (Z.gtb_spec r 0); [lia|]. exfalso.
  assert (amount * r + (1000000 - 1) <= 999999) by nia.
  pose proof (Z.quot_le_mono (amount * r + (1000000 - 1)) 999999 1000000 ltac:(lia) ltac:(lia)).
  change (Z.quot 999999 1000000) with 0 in *. lia.
Qed.

Lemma sealed_delegation cl w p (state : ResolvedVaultState C) net loaded vt target version fees :
  let ta := derive_token_accounts w p state net (sp_amount p >? 0) in
  cluster_ready cl p state ta net loaded ->
  sealed_fees ((sp_amount p >? 0) && isStablecoinMint (sp_tokenMint p) net) (rs_policy state)
    (sp_amount p) fees ->
  (if sp_amount p >? 0 then
     collect_and_delegate (rs_vault state) (sealed_accounts cl p state ta vt)
       (mkValidateArgs (sp_tokenMint p) (sp_amount p) target version) fees.1 fees.2
   else Ok [])
  = Ok (sealed_calls p (rs_vault state) (sp_amount p >? 0) fees).
Proof.
  intros ta Hcr Hfees. destruct (decide (0 < sp_amount p)) as [Ha|Ha].
  2: { assert ((sp_amount p >? 0) = false) as -> by lia. done. }
  assert (Hle : fees.1 <= sp_amount p /\ fees.1 + fees.2 <= sp_amount p /\
    (fees.2 > 0 -> developerFeeRate (rs_policy state) > 0)).
  { unfold sealed_fees in Hfees. destruct (_ && _); [|subst fees; cbn; lia].
    destruct Hfees as (Hf & H1 & H2). split_and!; [done..|].
    intros. eapply dev_fee_positive; [exact Hf|lia|done]. }
  destruct Hle as (H1 & H2 & Hdev).
  assert (Hs : (sp_amount p >? 0) = true) by lia. unfold ta in *. rewrite Hs in *. clear ta Hfees.
  unfold collect_and_delegate. cbn [arg_amount arg_token_mint].
  rewrite !throw_if_false, !bind_ok by lia.
  destruct Hcr as [_ _ _ _ Ht Hf _ _]. unfold sealed_calls, fee_transfer. cbv zeta.
  unfold sealed_accounts. cbn [va_treasury va_fee_destination va_vault_token_key va_agent].
  unfold derive_token_accounts in *. cbn [protocolTreasuryTokenAccount
    feeDestinationTokenAccount vaultTokenAccount andb] in *.
  assert (Htr : (if fees.1 >? 0 then
      match optional_loaded cl (Some (Pda.deriveAta PROTOCOL_TREASURY (sp_tokenMint p))) with
      | None => Throw InvalidProtocolTreasury
      | Some (key, acct) =>
          throw_if (negb (bool_decide (tk_owner acct = PROTOCOL_TREASURY))) InvalidProtocolTreasury ;;
          throw_if (negb (bool_decide (tk_mint acct = sp_tokenMint p))) InvalidProtocolTreasury ;;
          Ok [Transfer (Pda.deriveAta (sp_vault p) (sp_tokenMint p)) key fees.1]
      end else Ok []) =
    Ok (if fees.1 >? 0
     then [Transfer (Pda.deriveAta (sp_vault p) (sp_tokenMint p))
             (Pda.deriveAta PROTOCOL_TREASURY (sp_tokenMint p)) fees.1] else [])).
  { destruct (fees.1 >? 0); [|done]. destruct (Ht _ eq_refl) as (t & Hk & Ho & Hm).
    rewrite (optional_loaded_some _ _ _ Hk). by rewrite Ho, Hm, !throw_unless. }
  rewrite Htr, bind_ok. destruct (Z.gtb_spec fees.2 0) as [Hp|Hp]; [|done].
  assert (Hr : (developerFeeRate (rs_policy state) >? 0) = true)
    by (specialize (Hdev ltac:(lia)); lia).
  rewrite Hr in *.
  destruct (Hf _ eq_refl) as (t & Hk & Ho & Hm).
  rewrite (optional_loaded_some _ _ _ Hk). by rewrite Ho, Hm, !throw_unless.
Qed.

Lemma sealed_snapshot cl w p (state : ResolvedVaultState C) net loaded vt target version fees :
  let ta := derive_token_accounts w p state net (sp_amount p >? 0) in
  cluster_ready cl p state ta net loaded ->
  sealed_fees ((sp_amount p >? 0) && isStablecoinMint (sp_tokenMint p) net) (rs_policy state)
    (sp_amount p) fees ->
  exists output_mint balance,
  spending_snapshot (sp_amount p >? 0) net (rs_policy state) (sealed_accounts cl p state ta vt)
    (mkValidateArgs (sp_tokenMint p) (sp_amount p) target version)
  = Ok (fees.1, fees.2, output_mint, balance).
Proof.
  intros ta [_ _ _ _ _ _ Ho _] Hfees. unfold sealed_fees, spending_snapshot in *.
  cbn [arg_token_mint arg_amount].
  destruct (sp_amount p >? 0) eqn:Hs; cbn [andb] in *; [|subst fees; by eexists _, _].
  destruct (isStablecoinMint (sp_tokenMint p) net) eqn:Hst.
  - destruct Hfees as [-> _]. rewrite bind_ok. by eexists _, _.
  - subst fees. assert (Hout : exists k, outputStablecoinAccount ta = Some k).
    { unfold ta, derive_token_accounts. rewrite Hst. cbn [outputStablecoinAccount negb andb].
      destruct (sp_outputStablecoinAccount p); [by eexists|]. cbn [is_empty]. by eexists. }
    destruct Hout as [k Hk]. destruct (Ho k Hk) as (t & Ht & Hown).
    destruct (Hown eq_refl) as [Ho1 Ho2].
    unfold sealed_accounts. cbn [va_output va_vault]. rewrite Hk, (optional_loaded_some _ _ _ Ht).
    rewrite throw_unless, bind_ok by done. rewrite Ho2. cbn. by eexists _, _.
Qed.
(** The scans of the sealed transaction, whatever the lookup tables compressed. *)
Lemma sealed_scans w p correlationId net plan target loaded :
  seal_plan gm w p correlationId net = Ok plan ->
  target_protocol p (strip_infrastructure (sp_instructions p)) = Ok target ->
  let spending := sp_amount p >? 0 in
  let policy := rs_policy (pl_state plan) in
  (length (pl_defiInstructions plan) < 64)%nat ->
  Forall (passes_chain verify_entries verify_jupiter_slippage policy loaded spending target)
    (pl_defiInstructions plan) ->
  let n := Z.of_nat (count_defi (pl_defiInstructions plan)) in
  scan_forward verify_entries verify_jupiter_slippage spending policy loaded target 0 0
    (pl_defiInstructions plan ++ [pl_finalizeIx plan]) = Ok (if spending then n else 0, true) /\
  (spending = true -> if isStablecoinMint (sp_tokenMint p) net then n <= 1 else n = 1).
Proof.
  intros Hplan Htgt spending policy Hlen Hpass n.
  destruct (seal_plan_inv _ _ _ _ _ Hplan) as (target' & rs & _ & Hg & _ & _ & _ & Hdefi & _ & Hfin).
  destruct (seal_gates_inv _ _ _ _ _ Hg) as (e & _ & _ & _ & _ & Hspl & Htgt' & _ & _ & Hcount & _).
  assert (Hn : count_defi (pl_defiInstructions plan)
               = count_defi (strip_infrastructure (sp_instructions p))).
  { rewrite Hdefi. symmetry. apply count_defi_same, replaceAgentAtas_shape. }
  assert (Hle : (count_defi (pl_defiInstructions plan) <= length (pl_defiInstructions plan))%nat)
    by apply length_filter.
  split.
  - rewrite (scan_forward_passes verify_entries verify_jupiter_slippage policy loaded spending target
      (sp_vault p) (pl_defiInstructions plan) (pl_finalizeIx plan) [] 0 0); [by rewrite Z.add_0_l|..].
    + apply Forall_forall. intros ix Hix. rewrite Hdefi in Hix.
      destruct (proj1 (Forall_forall _ _) (sealed_defi_checked _ _ rs Hspl) ix Hix).
      split_and!; [done..|]. apply (proj1 (Forall_forall _ _) Hpass). by rewrite Hdefi.
    + rewrite Hfin. apply finalize_is_finalize.
    + unfold MAX_SYSVAR_SCAN_ITERATIONS. lia.
    + lia.
  - intros Hs. unfold n. rewrite Hn. pose proof (count_checked p net _ Hcount Hs) as H.
    destruct (isStablecoinMint _ _); lia.
Qed.

(** What [seal] does not test, all of it the program's: a policy mode in range, operator
    capability for spending, fees within the amount, at most 63 DeFi instructions, the
    conditions of [passes_chain] for each of them, the state of the cluster, no confusion of
    the constraints account with the assertions account, and room in the session counter. *)
Record left_to_program (cl : Cluster) p (plan : SealPlan) (net : Network) (loaded : option bytes)
    (target : Address) (fees : Z * Z) : Prop := {
  lp_mode : 0 <= protocolMode (rs_policy (pl_state plan)) <= 2;
  lp_capability :
    has_capability (rs_vault (pl_state plan)) (sp_agent p) (sp_amount p >? 0) = true;
  lp_fees : sealed_fees ((sp_amount p >? 0) && isStablecoinMint (sp_tokenMint p) net)
    (rs_policy (pl_state plan)) (sp_amount p) fees;
  lp_count : (length (pl_defiInstructions plan) < 64)%nat;
  lp_defi : Forall (passes_chain verify_entries verify_jupiter_slippage
    (rs_policy (pl_state plan)) loaded (sp_amount p >? 0) target) (pl_defiInstructions plan);
  lp_cluster : cluster_ready cl p (pl_state plan) (pl_accounts plan) net loaded;
  lp_snapshots : hasPostAssertions (rs_policy (pl_state plan)) = 0 \/
    (Pda.getConstraintsPDA (sp_vault p) SIGIL_PROGRAM_ID).1 <> post_assertions_pda (sp_vault p);
  lp_sessions : activeSessions (rs_vault (pl_state plan)) + 1 <= U64_MAX;
}.

(** The handler succeeds when each of its steps does. *)
Lemma validate_handler_ok cl vault policy net now a args ixs idx loaded fees om bal n calls :
  let spending := arg_amount args >? 0 in
  policyVersion policy = arg_expected_policy_version args ->
  load_constraints create_program_address cl policy (va_vault a) (va_remaining a) = Ok loaded ->
  vault_status vault = Active -> is_agent_paused vault (va_agent a) = false ->
  has_capability vault (va_agent a) spending = true ->
  is_protocol_allowed policy (arg_target_protocol args) = true ->
  spending_snapshot spending net policy a args = Ok (fees.1, fees.2, om, bal) ->
  scan_backward 0 (take idx ixs) = Ok tt ->
  scan_forward verify_entries verify_jupiter_slippage spending policy loaded
    (arg_target_protocol args) 0 0 (drop (S idx) ixs) = Ok (n, true) ->
  (spending = true -> if isStablecoinMint (arg_token_mint args) net then n <= 1 else n = 1) ->
  (if spending then collect_and_delegate vault a args fees.1 fees.2 else Ok []) = Ok calls ->
  hasPostAssertions policy = 0 \/ post_assertions_pda (va_vault a) ∉ va_remaining a ->
  activeSessions vault + 1 <= U64_MAX ->
  validate_and_authorize verify_entries verify_jupiter_slippage create_program_address
    capture_snapshots cl vault policy net now a args ixs idx =
  Ok (mkSession (va_vault a) (va_agent a) true (arg_amount args) (arg_token_mint args)
        (arg_target_protocol args) spending
        (calculate_expiry now (effective_session_expiry_seconds policy)) spending
        (va_vault_token_key a) fees.1 fees.2 om bal,
      calls, with_active_sessions vault (activeSessions vault + 1)).
Proof.
  intros spending Hv Hl Hact Hp Hcap Hal Hsn Hb Hf Hn Hc Has Hses. unfold validate_and_authorize.
  cbv zeta. fold spending. rewrite Hv, Z.eqb_refl, Hact, Hp, Hcap, Hal, Hsn, Hb.
  rewrite (bool_decide_true (Active = Active)) by done. cbn [negb throw_if]. rewrite bind_ok, Hl, !bind_ok, Hf, bind_ok.
  cbn [fst snd].
  assert (Hcount : (if spending then
      if isStablecoinMint (arg_token_mint args) net then throw_if (negb (n <=? 1)) TooManyDeFiInstructions
      else throw_if (negb (n =? 1)) TooManyDeFiInstructions
    else Ok tt) = Ok tt).
  { destruct spending; [|done]. specialize (Hn eq_refl).
    destruct (isStablecoinMint _ _); apply throw_if_false, negb_false_iff; lia. }
  rewrite Hcount, bind_ok. cbn [negb throw_if]. rewrite bind_ok, Hc, bind_ok.
  replace (negb (hasPostAssertions policy =? 0) && _) with false.
  2: { destruct Has as [->|Hnot]; [done|]. by rewrite (bool_decide_false _ Hnot), andb_false_r. }
  rewrite bind_ok. unfold add_u64, checked_add_u64.
  destruct (Z.gtb_spec (activeSessions vault + 1) U64_MAX); [lia|reflexivity].
Qed.

(** The agent the gates found is listed and not paused. *)
Lemma require_agent_listed p (state : ResolvedVaultState C) e :
  require_agent p state = Ok e ->
  is_agent (rs_vault state) (sp_agent p) = true /\ is_agent_paused (rs_vault state) (sp_agent p) = false.
Proof.
  unfold require_agent, is_agent_paused, get_agent. intros Hag.
  destruct (find_by _ _) as [a|] eqn:Hfind; [|done]. split; [|by inv_bind Hag].
  apply find_by_some in Hfind as [Hin Hk]. apply existsb_exists. exists a.
  split; [by apply list_elem_of_In|done].
Qed.

(** The program decodes the sealed instruction's arguments and goes on to the handler. *)
Lemma process_sealed cl vault policy net now before after agent vault_key ta mint amount target version hc a :
  is_u64 amount -> is_u64 version ->
  let args := mkValidateArgs mint amount target version in
  let ix := with_constraints_account vault_key hc
              (getValidateAndAuthorizeInstruction gm agent vault_key ta mint amount target version) in
  let ixs := before ++ ix :: after in
  validate_accounts cl vault args (account_view ix) = Ok a ->
  process_validate verify_entries verify_jupiter_slippage create_program_address decodeAddress
    capture_snapshots cl vault policy net now ixs (length before)
  = validate_and_authorize verify_entries verify_jupiter_slippage create_program_address
      capture_snapshots cl vault policy net now a args ixs (length before).
Proof.
  intros Ha Hv args ix ixs Hload. unfold process_validate, ixs.
  rewrite list_lookup_middle by reflexivity.
  assert (ins_data ix = Some (validate_data mint amount target version)) as ->.
  { unfold ix. by rewrite (proj1 (with_constraints_same_data _ _ _)). }
  cbn [default from_option id]. rewrite decode_sealed_args, bind_ok by done.
  fold args. by rewrite Hload, bind_ok.
Qed.

End on_chain.

(** ** The cap check *)
Lemma ceilFee_chain amount rate fee :
  0 <= amount -> 0 <= rate -> ceil_fee amount rate = Ok fee -> ceilFee amount rate = fee.
Proof.
  intros Ha Hr. unfold ceil_fee, ceilFee, FEE_RATE_DENOMINATOR.
  destruct (_ >? _); [done|]. destruct (_ >? _); [done|]. intros [= <-]. f_equal. lia.
Qed.

Lemma ceilFee_nonneg amount rate : 0 <= amount -> 0 <= rate -> 0 <= ceilFee amount rate.
Proof. intros Ha Hr. unfold ceilFee, FEE_RATE_DENOMINATOR. apply Z.quot_pos; nia. Qed.

Lemma collect_fees_inv policy amount pf df :
  collect_fees policy amount = Ok (pf, df) ->
  ceil_fee amount PROTOCOL_FEE_RATE = Ok pf /\ ceil_fee amount (developerFeeRate policy) = Ok df.
Proof.
  unfold collect_fees. intros H. inv_bind H. simplify_eq.
  destruct (ceil_fee amount PROTOCOL_FEE_RATE) as [|[]]; simplify_eq/=; try done.
  destruct (ceil_fee amount (developerFeeRate policy)) as [|[]]; by simplify_eq/=.
Qed.

Lemma resolve_global_budget `{renv : !ResolverEnv C} rpc vault agent nowUnix net dateNow state t :
  resolveVaultState rpc vault agent nowUnix net dateNow = Ok state -> rs_tracker state = Some t ->
  globalBudget state =
    budget_of (getRolling24hUsd t (resolvedAtTimestamp state)) (dailySpendingCapUsd (rs_policy state)).
Proof.
  unfold resolveVaultState. cbv zeta. intros H Ht. inv_bind H. injection H as <-. simpl in *.
  rewrite Ht. done.
Qed.

Lemma check_headroom_inv p state :
  check_headroom p state (sp_amount p >? 0) = Ok tt -> 0 < sp_amount p ->
  total_with_fees (sp_amount p) (developerFeeRate (rs_policy state)) <= remaining (globalBudget state).
Proof.
  unfold check_headroom. intros H Ha. rewrite (proj2 (Z.gtb_lt _ _) Ha) in H. cbn [andb] in H.
  apply throw_if_ok_inv in H. lia.
Qed.

(** What is left of the rolling cap after the headroom gate: the amount and both fees. *)
Lemma headroom_rolling `{renv : !ResolverEnv C} rpc vault agent nowUnix network dateNow
    state t p correlationId net target pf df :
  resolveVaultState rpc vault agent nowUnix network dateNow = Ok state ->
  rs_tracker state = Some t -> tracker_wf t -> resolvedAtTimestamp state <= I64_MAX ->
  0 <= developerFeeRate (rs_policy state) ->
  seal_gates p correlationId net state = Ok target -> 0 < sp_amount p ->
  collect_fees (rs_policy state) (sp_amount p) = Ok (pf, df) ->
  0 <= pf /\ 0 <= df /\
  get_rolling_24h_usd t (resolvedAtTimestamp state) + sp_amount p + pf + df
    <= dailySpendingCapUsd (rs_policy state).
Proof.
  intros Hres Ht Hwf Hts Hdev Hg Ha Hfees.
  destruct (seal_gates_inv _ _ _ _ _ Hg) as (_ & _ & _ & _ & _ & _ & _ & _ & _ & _ & Hhead & _).
  apply check_headroom_inv in Hhead; [|done].
  rewrite (resolve_global_budget _ _ _ _ _ _ _ _ Hres Ht) in Hhead.
  rewrite getRolling24hUsd_chain in Hhead by done.
  apply collect_fees_inv in Hfees as (Hpf & Hdf).
  unfold total_with_fees in Hhead.
  assert (Ha0 : 0 <= sp_amount p) by lia. assert (Hrate : 0 <= PROTOCOL_FEE_RATE) by done.
  pose proof (ceilFee_nonneg _ _ Ha0 Hrate). pose proof (ceilFee_nonneg _ _ Ha0 Hdev).
  rewrite (ceilFee_chain _ _ _ Ha0 Hrate Hpf), (ceilFee_chain _ _ _ Ha0 Hdev Hdf) in *.
  split_and!; [done..|]. unfold budget_of in Hhead. cbn [remaining] in Hhead.
  destruct (Z.gtb_spec (dailySpendingCapUsd (rs_policy state))
    (get_rolling_24h_usd t (resolvedAtTimestamp state))); lia.
Qed.

Lemma check_vault_caps_pass policy t now amount :
  amount <= maxTransactionSizeUsd policy ->
  get_rolling_24h_usd t now + amount <= dailySpendingCapUsd policy ->
  dailySpendingCapUsd policy <= U64_MAX ->
  check_vault_caps policy t now amount = Ok tt.
Proof.
  intros H1 H2 H3. unfold check_vault_caps, add_u64, checked_add_u64.
  rewrite (proj2 (Z.leb_le _ _) H1). cbn [negb throw_if].
  destruct (Z.gtb_spec (get_rolling_24h_usd t now + amount) U64_MAX); [lia|]. rewrite bind_ok.
  cbn [lift_chain]. rewrite bind_ok. by rewrite (proj2 (Z.leb_le _ _) H2).
Qed.


(** ** Post-execution assertions

    A sealed [finalize_session] has its twelve accounts and no remaining one. *)
Lemma sealed_finalize_accounts w p correlationId net plan :
  seal_plan gm w p correlationId net = Ok plan ->
  length (account_view (pl_finalizeIx plan)) = 12%nat.
Proof.
  intros H. destruct (seal_plan_inv _ _ _ _ _ H) as (t & rs & _ & _ & _ & _ & _ & _ & _ & ->).
  reflexivity.
Qed.

(** Where the policy has assertions, the program refuses a session in time that comes without
    their account; so every sealed transaction fails on such a vault. *)
Lemma assertions_refuse_bare_finalize check net vault_key v policy s a b now after :
  hasPostAssertions policy <> 0 -> now <= se_expires_at s -> fa_remaining a = [] ->
  is_ok (finalize_session check net vault_key v policy s a b now after) = false.
Proof.
  intros Hp Hn Ha. unfold finalize_session. cbv zeta.
  assert (Hg : assertions_guard check policy vault_key (fa_remaining a) = Throw PostAssertionFailed).
  { unfold assertions_guard. rewrite Ha. by destruct (Z.eqb_spec (hasPostAssertions policy) 0). }
  rewrite Hg. replace (now >? se_expires_at s) with false by lia.
  repeat match goal with
  | |- is_ok (Throw _ ≫= _) = false => reflexivity
  | |- is_ok (?x ≫= _) = false => destruct x; [rewrite bind_ok|done]
  end.
Qed.

(** ** The pre-sign gate accepts what [seal] produces *)
Lemma Forall2_filter {A B} (Q : A -> B -> Prop) (P : A -> Prop) (P' : B -> Prop)
    `{forall x, Decision (P x)} `{forall x, Decision (P' x)} l k :
  (forall a b, Q a b -> P a <-> P' b) -> Forall2 Q l k -> Forall2 Q (filter P l) (filter P' k).
Proof.
  intros HP. induction 1 as [|a b l k Hab Hl IH]; [constructor|]. rewrite !filter_cons.
  specialize (HP a b Hab). destruct (decide (P a)), (decide (P' b)); try tauto. by constructor.
Qed.

Lemma filter_none {A} (P : A -> Prop) `{forall x, Decision (P x)} l :
  Forall (fun x => ~ P x) l -> filter P l = [].
Proof. induction 1; [done|]. by rewrite filter_cons_False. Qed.

Lemma validate_has_disc vault hc agent ta mint amount target version data :
  ins_data (with_constraints_account vault hc
    (getValidateAndAuthorizeInstruction gm agent vault ta mint amount target version)) = data ->
  forall i accs, has_disc (Some (mkCompiledIx i accs data)) VALIDATE_AND_AUTHORIZE_DISCRIMINATOR = true.
Proof. intros <- i accs. by destruct hc. Qed.

Lemma sealed_sigil_instructions p plan alts net w correlationId :
  seal_plan gm w p correlationId net = Ok plan ->
  let msg := decodeCompiledMessage
    (compileTransaction (Tx := Tx) (composed_message (compose_params p plan alts))) in
  exists v mid f,
    filter (fun ix => staticAccounts msg !! ci_programAddressIndex ix = Some SIGIL_PROGRAM_ADDRESS)
      (cm_instructions msg) = (v :: mid) ++ [f] /\
    ci_data v = ins_data (pl_validateIx plan) /\ ci_data f = ins_data (pl_finalizeIx plan).
Proof.
  intros Hplan msg.
  destruct (seal_plan_inv _ _ _ _ _ Hplan) as (target & rs & _ & _ & _ & _ & _ & _ & Hv & Hf).
  destruct (sealed_message_shape p plan alts) as [units Hshape].
  pose proof (compile_instructions (composed_message (compose_params p plan alts))) as Hcomp.
  fold msg in Hcomp.
  pose proof (Forall2_trans _ _ (fun ix ci =>
    staticAccounts msg !! ci_programAddressIndex ci = Some (ins_program ix) /\ ci_data ci = ins_data ix)
    _ _ _ (fun a b c Hab Hbc => conj
      (eq_trans (proj1 Hbc) (f_equal Some (eq_sym (si_program _ _ Hab))))
      (eq_trans (proj2 Hbc) (eq_sym (si_data _ _ Hab)))) Hshape Hcomp) as H.
  apply (Forall2_filter _ (fun ix => ins_program ix = SIGIL_PROGRAM_ADDRESS)
    (fun ci => staticAccounts msg !! ci_programAddressIndex ci = Some SIGIL_PROGRAM_ADDRESS)) in H.
  2: { intros a b [Hs _]. cbn beta. rewrite Hs. split; congruence. }
  rewrite filter_app, filter_none in H; cbn [app] in H.
  2: { eapply Forall_impl; [apply budget_infrastructure|]. intros ix Hi Hx.
       unfold is_infrastructure in Hi. rewrite Hx in Hi. discriminate. }
  rewrite filter_cons_True in H by (rewrite Hv; by destruct (hasConstraints _)).
  rewrite filter_app, filter_cons_True, filter_nil in H by (by rewrite Hf).
  apply Forall2_cons_inv_l in H as (v & k & [_ Hdv] & Hk & ->).
  apply Forall2_app_inv_l in Hk as (mid & k' & _ & Hk' & ->).
  apply Forall2_cons_inv_l in Hk' as (f & k'' & [_ Hdf] & Hk'' & ->).
  apply Forall2_nil_inv_l in Hk'' as ->. by exists v, mid, f.
Qed.

(** every transaction [seal] returns passes the shielded signer's session-binding gate
    in its strictest mode: whatever the agent's instructions, whatever lookup tables
    compressed it and however the compiler numbered the accounts, the first instruction
    of the program is [validate_and_authorize] and the last is [finalize_session]. *)
Theorem sealed_passes_session_binding {E R} w cache
    (hooks : option (SealHooks (SealParams C) Tx E R)) p r :
  run_result (seal gm w cache hooks p) = Ok r ->
  checkSessionBinding (Some (decodeCompiledMessage (sr_transaction r))) SIGIL_PROGRAM_ADDRESS true = Ok tt.
Proof.
  intros Hrun.
  destruct (seal_ok_inv _ _ _ _ _ Hrun) as (_ & _ & plan & alts & Hplan & _ & Has).
  destruct (seal_assemble_inv _ _ _ _ _ _ Has) as (-> & _).
  destruct (sealed_sigil_instructions p plan alts _ _ _ Hplan) as (v & mid & f & Hfil & Hv & Hf).
  destruct (seal_plan_inv _ _ _ _ _ Hplan) as (target & rs & _ & _ & _ & _ & _ & _ & Hvi & Hfi).
  set (msg := decodeCompiledMessage _) in *.
  unfold checkSessionBinding.
  assert (Hin : v ∈ (v :: mid) ++ [f]) by set_solver.
  rewrite <- Hfil in Hin. apply list_elem_of_filter in Hin as [Hst Hin].
  assert (Hno : no_message (Some msg) = false).
  { unfold no_message. rewrite !bool_decide_false; [done|..]; intros H; rewrite H in *; set_solver. }
  rewrite Hno. cbv zeta. rewrite Hfil. rewrite bool_decide_false by done.
  rewrite last_snoc. cbn [app head].
  assert (H1 : has_disc (Some v) VALIDATE_AND_AUTHORIZE_DISCRIMINATOR = true).
  { destruct v as [i accs data]. simpl in Hv. apply (validate_has_disc (sp_vault p)
      (hasConstraints (rs_policy (pl_state plan))) (sp_agent p) (pl_accounts plan) (sp_tokenMint p)
      (sp_amount p) target (policyVersion (rs_policy (pl_state plan)))). by rewrite Hv, Hvi. }
  assert (H2 : has_disc (Some f) FINALIZE_SESSION_DISCRIMINATOR = true).
  { unfold has_disc. cbn. by rewrite Hf, Hfi. }
  by rewrite H1, H2.
Qed.

(** ** What the sealed transaction authorises *)
(** The sixth account of [validate_and_authorize] and the third of [finalize_session]. *)
Definition account_at (ix : Instruction) (i : nat) : option AccountMeta :=
  ins_accounts ix ≫= fun accs => accs !! i.

Lemma with_constraints_account_at vault hc agent ta mint amount target version i :
  (i < 14)%nat ->
  account_at (with_constraints_account vault hc
    (getValidateAndAuthorizeInstruction gm agent vault ta mint amount target version)) i
  = account_at (getValidateAndAuthorizeInstruction gm agent vault ta mint amount target version) i.
Proof.
  intros Hi. destruct hc; [|done]. unfold account_at, with_constraints_account. cbn [ins_accounts].
  cbn [mbind option_bind default from_option id getValidateAndAuthorizeInstruction].
  rewrite lookup_app_l; [done|simpl; lia].
Qed.

(** ** The agent's accounts

    The address a writable account of a DeFi instruction is redirected to: the agent's own
    stablecoin account to the output account (when one is needed), the agent's account of the
    spent mint to the vault's, and what the caller's extra replacements say. *)
Definition redirected p (net : Network) (a : Address) : option Address :=
  let needsOutput := (sp_amount p >? 0) && negb (isStablecoinMint (sp_tokenMint p) net) in
  let output := default (Pda.deriveAta (sp_vault p) (default_stable_mint net))
                  (sp_outputStablecoinAccount p) in
  if needsOutput && bool_decide (a = Pda.deriveAta (sp_agent p) (default_stable_mint net))
     && negb (bool_decide (a = "")) && negb (bool_decide (output = ""))
  then Some output
  else if bool_decide (a = Pda.deriveAta (sp_agent p) (sp_tokenMint p))
  then Some (Pda.deriveAta (sp_vault p) (sp_tokenMint p))
  else jm_get a (default [] (sp_additionalAtaReplacements p)).

(** [b] is the account [a] of the agent's instruction in the sealed transaction: the same role
    and lookup; a read-only account is untouched, a writable one goes where [redirected] says,
    unless that is the empty string. *)
Record account_moved p (net : Network) (a b : AccountMeta) : Prop := {
  mv_role : am_role b = am_role a;
  mv_lookup : am_lookup b = am_lookup a;
  mv_readonly : is_writable (am_role a) = false -> am_address b = am_address a;
  mv_kept : redirected p net (am_address a) = None \/ redirected p net (am_address a) = Some "" ->
    am_address b = am_address a;
  mv_moved v : is_writable (am_role a) = true -> redirected p net (am_address a) = Some v ->
    v <> "" -> am_address b = v;
}.

Record instruction_moved p (net : Network) (a b : Instruction) : Prop := {
  im_program : ins_program b = ins_program a;
  im_data : ins_data b = ins_data a;
  im_accounts : option_Forall2 (Forall2 (account_moved p net)) (ins_accounts a) (ins_accounts b);
}.

Lemma merge_replacements_get additional base rs a :
  merge_replacements additional base = Ok rs ->
  jm_get a rs = match jm_get a base with Some v => Some v | None => jm_get a additional end.
Proof.
  revert base. induction additional as [|[k v] rest IH]; intros base H; cbn [merge_replacements] in H.
  - injection H as <-. by destruct (jm_get a base).
  - inv_bind H. rewrite (IH _ H). cbn [jm_get]. destruct (decide (a = k)) as [->|Hne].
    + rewrite jm_get_set_eq. unfold jm_has in Hok. destruct (jm_get k base); [done|].
      by destruct (decide (k = k)).
    + rewrite jm_get_set_ne by done. destruct (jm_get a base); [done|].
      by destruct (decide (k = a)); [subst|].
Qed.

Lemma jm_get_set_if {V} k (v : V) m a :
  jm_get a (jm_set k v m) = if bool_decide (a = k) then Some v else jm_get a m.
Proof.
  case_bool_decide; [subst; apply jm_get_set_eq|]. apply jm_get_set_ne. congruence.
Qed.

Lemma replacements_redirect w p (state : ResolvedVaultState C) net rs a :
  ata_replacements p (derive_token_accounts w p state net (sp_amount p >? 0)) = Ok rs ->
  jm_get a rs = redirected p net a.
Proof.
  unfold ata_replacements. intros H. rewrite (merge_replacements_get _ _ _ a H).
  unfold canonical_replacements, derive_token_accounts, redirected. cbv zeta.
  cbn [agentTokenAta vaultTokenAccount agentStablecoinAta outputStablecoinAccount].
  destruct ((sp_amount p >? 0) && negb (isStablecoinMint (sp_tokenMint p) net)); cbn [andb is_empty].
  - assert (Ho : (match sp_outputStablecoinAccount p with
      | Some a0 => Some a0
      | None => if is_empty (sp_outputStablecoinAccount p)
                then Some (Pda.deriveAta (sp_vault p) (default_stable_mint net)) else None
      end) = Some (default (Pda.deriveAta (sp_vault p) (default_stable_mint net))
                     (sp_outputStablecoinAccount p))) by (by destruct (sp_outputStablecoinAccount p)).
    rewrite Ho. generalize (default (Pda.deriveAta (sp_vault p) (default_stable_mint net))
                     (sp_outputStablecoinAccount p)) as output. intros output.
    generalize (Pda.deriveAta (sp_agent p) (default_stable_mint net)) as stable. intros stable.
    destruct (bool_decide_reflect (a = stable)) as [->|Hne]; cbn [andb].
    + destruct (bool_decide (stable = "")), (bool_decide (output = "")); cbn [negb andb orb];
        rewrite ?jm_get_set_if, ?bool_decide_true by done; try done; by destruct (bool_decide _).
    + destruct (_ || _); rewrite !jm_get_set_if; [by destruct (bool_decide _)|].
      rewrite bool_decide_false by done. by destruct (bool_decide _).
  - rewrite jm_get_set_if. by destruct (bool_decide _).
Qed.

Lemma account_moved_replace p net rs acc :
  (forall a, jm_get a rs = redirected p net a) -> account_moved p net acc (replace_account rs acc).
Proof.
  intros H. unfold replace_account. rewrite H. split.
  - destruct (redirected p net _); [|done]. by destruct (_ && _).
  - destruct (redirected p net _); [|done]. by destruct (_ && _).
  - intros Hw. destruct (redirected p net _); [|done]. by rewrite Hw, andb_false_r.
  - intros [Hn|Hn]; by rewrite Hn.
  - intros v Hw Hv Hne. by rewrite Hv, Hw, bool_decide_false.
Qed.

Lemma replaceAgentAtas_moved p net rs l :
  (forall a, jm_get a rs = redirected p net a) ->
  Forall2 (instruction_moved p net) l (replaceAgentAtas l rs).
Proof.
  intros H.
  assert (Hl : forall accs, Forall2 (account_moved p net) accs (map (replace_account rs) accs)).
  { induction accs; constructor; [by apply account_moved_replace|done]. }
  unfold replaceAgentAtas. case_bool_decide as Hlen.
  - apply Forall_Forall2_diag, Forall_true. intros ix. split; [done..|].
    destruct rs; [|done]. destruct (ins_accounts ix) as [accs|]; constructor.
    specialize (Hl accs). by rewrite map_id in Hl.
  - apply Forall2_fmap_r, Forall_Forall2_diag, Forall_true. intros ix. split; [done..|].
    cbn [ins_accounts]. destruct (ins_accounts ix); constructor. apply Hl.
Qed.

(** C13: the sealed transaction authorises what the agent asked for and nothing else. It is
    paid by the agent, fits the wire limit, and consists of the compute-budget
    instructions, one [validate_and_authorize] whose data decodes to the requested mint,
    amount, target protocol and the policy version that was read, the agent's own
    instructions without the infrastructure ones, and one [finalize_session] closing the very
    session account the first one opens. The agent's instructions keep their order, programs,
    data, and the number and roles of their accounts; an account's address changes only when
    the account is writable and is the agent's token account of the mint spent, the agent's
    stablecoin account of a swap that needs an output, or one the caller listed, and then to
    the vault's account, the output account or the listed one ([redirected]). *)
Theorem sealed_transaction_contents `{plaws : !PdaLaws pda} {E R} w cache
    (hooks : option (SealHooks (SealParams C) Tx E R)) p r plan :
  run_result (seal gm w cache hooks p) = Ok r ->
  seal_plan gm w p (cid w p) (normalizeNetwork (sp_network p)) = Ok plan ->
  is_u64 (policyVersion (rs_policy (pl_state plan))) ->
  exists m budget v defi f data target,
    sr_transaction r = compileTransaction m /\ tm_feePayer m = sp_agent p /\
    Forall2 same_instruction (budget ++ v :: defi ++ [f]) (tm_instructions m) /\
    Forall (fun ix => is_infrastructure ix = true) budget /\
    Forall2 (instruction_moved p (normalizeNetwork (sp_network p)))
      (strip_infrastructure (sp_instructions p)) defi /\
    (ins_program v = SIGIL_PROGRAM_ID /\ ins_data v = Some data /\
     take 8 data = VALIDATE_AND_AUTHORIZE_DISCRIMINATOR /\
     take 32 (drop 8 data) = encodeAddress (sp_tokenMint p) /\
     read_u64_le 40 data = sp_amount p /\
     take 32 (drop 48 data) = encodeAddress target /\
     read_u64_le 80 data = policyVersion (rs_policy (pl_state plan)) /\
     target_protocol p (strip_infrastructure (sp_instructions p)) = Ok target) /\
    (is_finalize f = true /\ account_at v 5 = account_at f 2 /\ account_at v 5 <> None) /\
    Qle_bool (sr_txSizeBytes r) (inject_Z MAX_TX_SIZE) = true.
Proof.
  intros Hrun Hplan Hver.
  destruct (seal_ok_inv _ _ _ _ _ Hrun) as (_ & _ & plan' & alts & Hp' & _ & Has).
  assert (plan' = plan) as -> by congruence.
  destruct (seal_assemble_inv _ _ _ _ _ _ Has) as (Htx & _ & Hsz & Hsize).
  destruct (seal_plan_inv _ _ _ _ _ Hplan) as (target & rs & _ & Hg & _ & Hta & Hrs & Hdefi & Hv & Hf).
  destruct (seal_gates_inv _ _ _ _ _ Hg) as (e & _ & _ & _ & Hamt & _ & Htgt & _).
  destruct (sealed_message_shape p plan alts) as [units Hshape].
  destruct (composed_message_instructions (compose_params p plan alts)) as (Hpay & _ & _).
  pose proof (validate_data_fields (sp_tokenMint p) (sp_amount p) target _ Hamt Hver)
    as (Hd1 & Hd2 & Hd3 & Hd4 & Hd5).
  eexists (composed_message (compose_params p plan alts)), _, (pl_validateIx plan),
    (pl_defiInstructions plan), (pl_finalizeIx plan), _, target.
  split; [exact Htx|]. split; [exact Hpay|]. split; [exact Hshape|].
  split; [apply budget_infrastructure|].
  split; [rewrite Hdefi; apply replaceAgentAtas_moved; intros a;
    rewrite Hta in Hrs; exact (replacements_redirect _ _ _ _ _ a Hrs)|].
  rewrite Hv, Hf, with_constraints_account_at by lia.
  rewrite (proj1 (with_constraints_same_data _ _ _)), (proj2 (with_constraints_same_data _ _ _)).
  split; [split_and!; [reflexivity|reflexivity|done..]|].
  split; [|rewrite Hsize; exact Hsz].
  rewrite Hta. split_and!; [reflexivity|reflexivity|done].
Qed.

(** ** Token operations *)

(** the SDK's top-level token blocking against the program's. For every instruction the
    SDK accepts exactly what the program accepts, and in addition the eight Token-2022
    operations of [unmirrored_opcodes] (confidential transfers, permanent delegate,
    transfer hook, lamport withdrawals, permissioned burn and batch), which the program
    then rejects. *)
Theorem spl_blocking_against_chain vault ix :
  check_spl_op vault ix = Ok tt <-> chain_token_check ix = Ok tt \/ unmirrored ix.
Proof.
  destruct (decide (ins_program ix = TOKEN_PROGRAM_ADDRESS)) as [H1|H1].
  - rewrite check_spl_op_token by done. split; [by left|]. intros [|[H2 _]]; [done|].
    rewrite H1 in H2. discriminate.
  - destruct (decide (ins_program ix = TOKEN_2022_PROGRAM_ADDRESS)) as [H2|H2].
    + by apply check_spl_op_2022.
    + destruct (check_spl_op_other vault ix H1 H2) as [-> ->]. naive_solver.
Qed.

(** ** Hooks *)

(** hooks observe. Whatever consumer code they run, throwing or not, they change
    neither the result of [seal] nor the lookup-table cache, except that an [onBeforeBuild]
    that returns a true [skipSeal] makes it fail with [HOOK_ABORTED] before anything is
    resolved or cached. *)
Theorem seal_hooks_observe {E R} w cache (hooks : option (SealHooks (SealParams C) Tx E R)) p :
  sp_network p = "devnet" \/ sp_network p = "mainnet" ->
  let run := seal gm w cache hooks p in
  let bare := seal gm w cache (None : option (SealHooks (SealParams C) Tx E R)) p in
  match build_abort hooks (hook_context p (cid w p)) p with
  | Some a => run_cache run = cache /\ run_result run = Throw (hook_aborted (abort_reason a) (cid w p))
  | None => run_cache run = run_cache bare /\ run_result run = run_result bare
  end.
Proof.
  intros Hnet run bare. unfold run, bare, seal.
  assert (validateNetwork (normalizeNetwork (sp_network p)) = Ok tt) as ->.
  { destruct Hnet as [-> | ->]; reflexivity. }
  cbv zeta. fold (cid w p). unfold build_abort.
  destruct (truthy_abort _) as [a|]; [done|].
  change (truthy_abort (invokeHook None _ _ _).2) with (@None SealHookAbort). cbn match.
  destruct (seal_plan _ _ _ _ _) as [plan|e]; [|done].
  destruct (mbind _ _) as [res|e]; done.
Qed.
End seal_spec.

(** ** A concrete instance of the external code *)
Definition demo_address_env : PdaEnv := {|
  encodeAddress a := Z.pos (encode a) :: replicate 31 0;
  getProgramDerivedAddress p s := ("pda" +:+ pretty (foldr Z.add 0 (concat s)), 255) |}.

Lemma demo_address_laws : PdaLaws demo_address_env.
Proof. split; [done|]. intros a b [= H]. by apply (inj encode) in H. Qed.

Definition demo_budget_ix (n : Z) : Instruction :=
  mkInstruction COMPUTE_BUDGET_PROGRAM_ADDRESS None (Some [n]).

(** The program ids of a message, without repetition; instructions point into them. *)
Definition demo_compile (m : TransactionMessage) : CompiledMessage :=
  let programs := remove_dups (ins_program <$> tm_instructions m) in
  {| staticAccounts := programs;
     cm_instructions := (fun ix =>
       mkCompiledIx (match list_find (fun a => a = ins_program ix) programs with
                     | Some (i, _) => i | None => 0%nat end) None (ins_data ix))
       <$> tm_instructions m;
     addressTableLookups := [] |}.

Definition demo_txlib : TxLib TransactionMessage := {|
  getSetComputeUnitLimitInstruction := demo_budget_ix;
  getSetComputeUnitPriceInstruction := demo_budget_ix;
  compressTransactionMessage _ m := m;
  compileTransaction m := m;
  getBase64EncodedWireTransaction m :=
    b64_encode (replicate (length (concat ((fun ix => default [] (ins_data ix)) <$> tm_instructions m))) 0);
  decodeCompiledMessage := demo_compile |}.

Lemma demo_txlib_laws : TxLibLaws demo_txlib.
Proof.
  split; [done|done|done|done| | |].
  - intros alts m. simpl. apply Forall_Forall2_diag, Forall_true. intros ix. apply same_instruction_refl.
  - intros m. simpl. apply Forall2_fmap_r, Forall_Forall2_diag, Forall_forall. intros ix Hix. simpl.
    split; [|done].
    destruct (list_find _ _) as [[i a]|] eqn:Hf.
    + apply list_find_Some in Hf as (Hi & -> & _). exact Hi.
    + apply list_find_None in Hf. exfalso. rewrite Forall_forall in Hf.
      apply (Hf (ins_program ix)); [|done]. apply elem_of_remove_dups.
      by apply list_elem_of_fmap_2.
  - intros m. simpl. apply NoDup_remove_dups.
Qed.

Definition demo_meta (program : Address) (value : option (Address * bool)) (writable : bool) : AccountMeta :=
  match value with
  | Some (a, signer) =>
      mkMeta a (match writable, signer with
                | true, true => WRITABLE_SIGNER | true, false => WRITABLE
                | false, true => READONLY_SIGNER | false, false => READONLY end) None
  | None => mkMeta program READONLY None
  end.

Definition demo_seal_vault : AgentVault :=
  mkVault "Owner" 0 [mkAgent "Agent" 2 0 false] "FeeDest" Active 255 0 0 0 0 0 0 0 0 0.
Definition demo_seal_policy : PolicyConfig :=
  mkPolicy 500000000 500000000 PROTOCOL_MODE_ALLOWLIST [JUPITER_PROGRAM_ADDRESS] 0 100 3600
    false false [] 7 "Vault" [] false 0 255 0 0.
Definition demo_seal_state : ResolvedVaultState unit :=
  {| rs_vault := demo_seal_vault; rs_policy := demo_seal_policy; rs_tracker := Some empty_tracker;
     rs_overlay := None; rs_constraints := None;
     globalBudget := budget_of 0 500000000; agentBudget := None; allAgentBudgets := [];
     protocolBudgets := []; maxTransactionUsd := 500000000;
     stablecoinBalances := mkBalances 900000000 0; resolvedAtTimestamp := 1700000000 |}.

Definition demo_swap : Instruction :=
  mkInstruction JUPITER_PROGRAM_ADDRESS
    (Some [mkMeta "User" WRITABLE_SIGNER None; mkMeta "Route" READONLY None]) (Some [193; 32; 155; 51]).

(** A swap through the agent's own token account. *)
Definition demo_agent_swap (agent : Address) : Instruction :=
  mkInstruction JUPITER_PROGRAM_ADDRESS
    (Some [mkMeta (Pda.deriveAta (env := demo_address_env) agent USDC_MINT_DEVNET) WRITABLE None;
           mkMeta "Route" READONLY None]) (Some [193; 32; 155; 51]).

Definition demo_vault_address : Address :=
  (Pda.getVaultPDA (env := demo_address_env) "Owner" 0 SIGIL_PROGRAM_ID).1.

Definition demo_params_of (vault agent : Address) (amount : Z) : SealParams unit :=
  {| sp_vault := vault; sp_agent := agent;
     sp_instructions := [demo_budget_ix 9; demo_agent_swap agent]; sp_network := "devnet";
     sp_tokenMint := USDC_MINT_DEVNET; sp_amount := amount; sp_targetProtocol := None;
     sp_computeUnits := None; sp_priorityFeeMicroLamports := Some 1000;
     sp_outputStablecoinAccount := None; sp_blockhash := Some (mkBlockhash "hash" 42);
     sp_protocolAltAddresses := None; sp_addressLookupTables := Some [];
     sp_cachedState := Some demo_seal_state; sp_maxCacheAgeMs := None;
     sp_additionalAtaReplacements := None; sp_correlationId := Some "cid"; sp_plugins := None |}.

Definition demo_params : Z -> SealParams unit := demo_params_of demo_vault_address "Agent".

Definition demo_world : SealWorld unit :=
  {| sw_now := 1700000010000; sw_resolution := Ok demo_seal_state;
     sw_accountInfo _ := AccountMissing; sw_latestBlockhash := Ok (mkBlockhash "hash" 42);
     sw_altNow := 0; sw_altFetch _ := None; sw_retryNow := 0; sw_retryFetch _ := None;
     sw_correlationId := "generated" |}.

Definition no_hooks : option (SealHooks (SealParams unit) TransactionMessage unit unit) := None.

(** Notations, so that the kernel never has to compare a call with its definition. *)
Local Notation demo_run amount :=
  (@seal unit TransactionMessage demo_address_env demo_txlib demo_meta unit unit demo_world
    (new_alt_cache None None) no_hooks (demo_params amount)).

Local Notation demo_plan amount :=
  (@seal_plan unit demo_address_env demo_meta demo_world (demo_params amount)
    (cid demo_world (demo_params amount)) (normalizeNetwork (sp_network (demo_params amount)))).

Example demo_run_ok :
  (fun r => (ins_program <$> tm_instructions (sr_transaction r), sr_isSpending r)) <$>
    run_result (demo_run 100000000) =
  Ok ([COMPUTE_BUDGET_PROGRAM_ADDRESS; COMPUTE_BUDGET_PROGRAM_ADDRESS; SIGIL_PROGRAM_ID;
       JUPITER_PROGRAM_ADDRESS; SIGIL_PROGRAM_ID], true).
Proof. vm_compute. reflexivity. Qed.

(** ** Witnesses *)

Lemma demo_run_facts : exists r, run_result (demo_run 100000000) = Ok r.
Proof. apply is_ok_ex. vm_compute. reflexivity. Qed.

Lemma demo_plan_facts :
  exists plan, demo_plan 100000000 = Ok plan /\
    (rs_vault (pl_state plan), rs_policy (pl_state plan), pl_defiInstructions plan)
    = (demo_seal_vault, demo_seal_policy,
       [mkInstruction JUPITER_PROGRAM_ADDRESS
          (Some [mkMeta (Pda.deriveAta (env := demo_address_env) demo_vault_address USDC_MINT_DEVNET)
                   WRITABLE None; mkMeta "Route" READONLY None]) (Some [193; 32; 155; 51])]).
Proof. apply fmap_ok_inv. vm_compute. reflexivity. Qed.

(** The cluster the demonstration seals against: the vault's and the treasury's accounts. *)
Definition demo_cluster : Cluster :=
  let ata := Pda.deriveAta (env := demo_address_env) in {|
  cl_tokens k :=
    if decide (k = ata demo_vault_address USDC_MINT_DEVNET)
    then Some (mkTokenAccount USDC_MINT_DEVNET demo_vault_address 900000000)
    else if decide (k = ata PROTOCOL_TREASURY USDC_MINT_DEVNET)
    then Some (mkTokenAccount USDC_MINT_DEVNET PROTOCOL_TREASURY 0)
    else None;
  cl_accounts _ := None |}.

Definition demo_create (q : Address) (seeds : list bytes) : option Address :=
  Some (getProgramDerivedAddress (PdaEnv := demo_address_env) q (removelast seeds)).1.
Definition demo_decode (bs : bytes) : option Address :=
  match bs with Z.pos q :: _ => decode q | _ => None end.

Lemma demo_create_canonical seeds :
  demo_create SIGIL_PROGRAM_ID
    (seeds ++ [[(getProgramDerivedAddress (PdaEnv := demo_address_env) SIGIL_PROGRAM_ID seeds).2]])
  = Some (getProgramDerivedAddress (PdaEnv := demo_address_env) SIGIL_PROGRAM_ID seeds).1.
Proof. unfold demo_create. by rewrite removelast_last. Qed.

Lemma demo_decode_encode a : demo_decode (encodeAddress (PdaEnv := demo_address_env) a) = Some a.
Proof. apply decode_encode. Qed.

Lemma demo_meta_laws : MetaLaws demo_meta.
Proof. split; [|done]. intros q a [] []; done. Qed.

Definition demo_verify (c : bytes) (q : Address) (d : bytes) (l : list (Address * AccountRole))
  : res AuthError (option nat) := Ok None.
Definition demo_slippage (d : bytes) (max : Z) : res AuthError unit := Ok tt.
Definition demo_capture (l : list Address) : res AuthError unit := Ok tt.

Definition demo_target := JUPITER_PROGRAM_ADDRESS.

Lemma demo_left plan :
  demo_plan 100000000 = Ok plan ->
  left_to_program (pda := demo_address_env) demo_verify demo_slippage demo_cluster
    (demo_params 100000000) plan "devnet" None demo_target (20000, 0).
Proof.
  intros Hp. pose proof Hp as Hq. destruct demo_plan_facts as (plan' & Hp' & [= _ _ Hd]).
  assert (plan' = plan) as -> by congruence.
  destruct (seal_plan_inv _ _ _ _ _ _ Hq) as (? & ? & Hst & _ & _ & Hta & _).
  assert (Hst' : resolve_state demo_world (demo_params 100000000) = Ok demo_seal_state)
    by (vm_compute; reflexivity).
  rewrite Hst' in Hst. injection Hst as Hst.
  split; rewrite ?Hta, <- ?Hst, ?Hd.
  - split; vm_compute; discriminate.
  - vm_compute. reflexivity.
  - split; [vm_compute; reflexivity|]. split; vm_compute; discriminate.
  - apply Nat.ltb_lt. vm_compute. reflexivity.
  - constructor; [|constructor]. split.
    + vm_compute. discriminate.
    + apply (bool_decide_unpack _). vm_compute. exact I.
    + vm_compute. reflexivity.
    + intros _ _. reflexivity.
    + intros [H _]. vm_compute in H. discriminate H.
    + reflexivity.
    + intros _. reflexivity.
  - split; try (vm_compute; reflexivity).
    + eexists. split_and!; vm_compute; reflexivity.
    + intros k Hk. vm_compute in Hk. injection Hk as <-. eexists. split_and!; vm_compute; reflexivity.
    + intros k Hk. vm_compute in Hk. discriminate Hk.
    + intros k Hk. vm_compute in Hk. discriminate Hk.
  - left. reflexivity.
  - vm_compute. discriminate.
Qed.


(** The books at finalize: the resolved tracker and a slot of the agent's. *)
Definition demo_books : Books :=
  mkBooks demo_tracker
    (mkOverlay [mkContribution (encodeAddress (PdaEnv := demo_address_env) "agent1")
                  (Z.quot demo_now OVERLAY_EPOCH_DURATION) (replicate 24 0)] [0] [0]).

(** A session of 500 units for the demonstration vault, with a fee of one. *)
Definition demo_session : Session :=
  mkSession "vault" "agent1" true 500 USDC_MINT_DEVNET demo_target true (demo_now + 30) true "ata"
    1 0 USDC_MINT_DEVNET 900.


Lemma sealed_passes_session_binding_witness :
  exists r, run_result (demo_run 100000000) = Ok r /\
    checkSessionBinding (Some (@decodeCompiledMessage _ demo_txlib (sr_transaction r))) SIGIL_PROGRAM_ADDRESS true = Ok tt.
Proof.
  destruct demo_run_facts as [r Hr]. exists r. split; [done|].
  exact (@sealed_passes_session_binding unit TransactionMessage demo_address_env demo_txlib demo_txlib_laws
    demo_meta unit unit demo_world (new_alt_cache None None) no_hooks (demo_params 100000000) r Hr).
Defined.

(** The swap's account, the agent's, is the vault's in the sealed transaction. *)
Lemma sealed_transaction_contents_witness :
  exists r plan v f data ix accs,
    run_result (demo_run 100000000) = Ok r /\ demo_plan 100000000 = Ok plan /\
    ins_data v = Some data /\ read_u64_le 40 data = 100000000 /\ read_u64_le 80 data = 7 /\
    account_at v 5 = account_at f 2 /\
    instruction_moved (pda := demo_address_env) (demo_params 100000000) "devnet"
      (demo_agent_swap "Agent") ix /\
    ins_accounts ix = Some accs /\
    am_address <$> head accs = Some (Pda.deriveAta (env := demo_address_env) demo_vault_address USDC_MINT_DEVNET).
Proof.
  destruct demo_run_facts as [r Hr]. destruct demo_plan_facts as (plan & Hp & [= _ Hpol _]).
  assert (Hv : policyVersion (rs_policy (pl_state plan)) = 7) by (by rewrite Hpol).
  destruct (@sealed_transaction_contents unit TransactionMessage demo_address_env demo_txlib
    demo_txlib_laws demo_meta demo_address_laws unit unit demo_world (new_alt_cache None None) no_hooks
    (demo_params 100000000) r plan Hr Hp) as
    (m & budget & v & defi & f & data & target & _ & _ & _ & _ & Hm & (_ & Hd & _ & _ & Ha & _ & Hver & _)
      & (_ & Hs & _) & _).
  - rewrite Hv. split; vm_compute; discriminate.
  - change (strip_infrastructure _) with [demo_agent_swap "Agent"] in Hm.
    apply Forall2_cons_inv_l in Hm as (ix & k & Hix & _ & _).
    pose proof (im_accounts _ _ _ _ Hix) as Hacc. unfold demo_agent_swap in Hacc.
    cbn [ins_accounts] in Hacc. inversion Hacc as [l accs Hl Hx He|]; subst l.
    apply Forall2_cons_inv_l in Hl as (acc & k' & Hmv & _ & ->).
    exists r, plan, v, f, data, ix, (acc :: k'). rewrite Hv in Hver.
    refine (conj Hr (conj Hp (conj Hd (conj Ha (conj Hver (conj Hs (conj Hix (conj (eq_sym He) _)))))))).
    cbn [head fmap option_fmap option_map]. f_equal.
    refine (mv_moved _ _ _ _ Hmv _ eq_refl _ _); [vm_compute; reflexivity|vm_compute; discriminate].
Defined.
Lemma seal_hooks_observe_witness :
  let hooks := Some (mkHooks (Some (fun _ _ => ([], Returned (Some (mkAbort true "no consent")))))
                 None None None None) : option (SealHooks (SealParams unit) TransactionMessage unit unit) in
  run_result (@seal unit TransactionMessage demo_address_env demo_txlib demo_meta unit unit demo_world
    (new_alt_cache None None) hooks (demo_params 100000000)) = Throw (hook_aborted "no consent" "cid").
Proof.
  intros hooks.
  exact (proj2 (@seal_hooks_observe unit TransactionMessage demo_address_env demo_txlib
    demo_meta unit unit demo_world (new_alt_cache None None) hooks (demo_params 100000000) (or_introl eq_refl))).
Defined.

(** the headroom gate reserves the fees on top of the amount, although the program takes
    them out of it: with a fresh tracker and a cap of 500 USD, sealing 499.95 USD fails with
    [CAP_EXCEEDED], while the program's finalize accepts the full 499.95 USD and records
    499.850010 USD. *)
Theorem seal_over_reserves_fees :
  let amount := 499950000 in
  (error_code <$> match run_result (demo_run amount) with Throw e => Some e | Ok _ => None end)
    = Some "SIGIL_ERROR__SDK__CAP_EXCEEDED" /\
  collect_fees demo_seal_policy amount = Ok (99990, 0) /\
  exists b', finalize_spend (env := demo_address_env) demo_seal_vault demo_seal_policy
      (mkBooks empty_tracker (mkOverlay [] [] [])) 1700000000 "Agent" demo_target (amount - 99990) = Ok b' /\
    get_rolling_24h_usd (bk_tracker b') 1700000000 = 499850010.
Proof.
  cbv zeta. split; [vm_compute; reflexivity|]. split; [vm_compute; reflexivity|].
  eexists. split. { vm_compute. reflexivity. } vm_compute. reflexivity.
Qed.
