(* ===== verification/ErrorTables.v ===== *)
(** * The error tables ([agent-errors.ts], [dashboard/errors.ts], [generated/errors/sigil.ts])

    The SDK's table of the program's 88 error codes, its table of 34 SDK errors, the
    patterns of its own messages, and the dashboard's numeric codes, as data; the variants of
    the program's own enum ([programs/sigil/src/errors.rs]), in order; and the generated
    constants with their codes and messages. No entry sets a recovery action's [parameters]. *)

From S2P Require Import Prelude Types Accounts.
Local Open Scope string_scope.
Local Open Scope Z_scope.
Local Open Scope list_scope.

(** A double quote inside a message. *)
Definition DQ : string := String (Ascii.ascii_of_nat 34) "".

Inductive ErrorCategory :=
  | INPUT_VALIDATION | TRANSIENT | RATE_LIMIT | PERMISSION | RESOURCE_NOT_FOUND | SPENDING_CAP
  | POLICY_VIOLATION | PROTOCOL_NOT_SUPPORTED | ESCALATION_REQUIRED | FATAL.

#[export] Instance ErrorCategory_eq_dec : EqDecision ErrorCategory.
Proof. solve_decision. Defined.

Record RecoveryAction := mkAction {
  ra_action : string;
  ra_description : string;
  ra_tool : option string;
}.

Record ErrorMapping := mkMapping {
  em_name : string;
  em_message : string;
  em_category : ErrorCategory;
  em_retryable : bool;
  em_retry_after_ms : option Z;
  em_recovery_actions : list RecoveryAction;
}.

Definition ON_CHAIN_6000 : list (Z * ErrorMapping) :=
  [ (6000, mkMapping "VaultNotActive" "Vault is not active"
        RESOURCE_NOT_FOUND false None
        [mkAction "reactivate_vault" "Reactivate the vault if it is frozen" (Some "sigil_reactivate_vault");
         mkAction "create_vault" "Create a new vault if this one is closed" (Some "sigil_create_vault")]);
    (6001, mkMapping "UnauthorizedAgent" "Signer is not a registered agent on this vault"
        PERMISSION false None
        [mkAction "check_agent_registration" "Verify the agent keypair is registered on the target vault" (Some "sigil_check_vault");
         mkAction "register_agent" "Ask the vault owner to register this agent" (Some "sigil_register_agent")]);
    (6002, mkMapping "UnauthorizedOwner" "Signer is not the vault owner"
        PERMISSION false None
        [mkAction "verify_owner" "This operation requires the vault owner's signature" None]);
    (6003, mkMapping "UnsupportedToken" "Token is not a supported stablecoin (only USDC and USDT)"
        INPUT_VALIDATION false None
        [mkAction "use_stablecoin" "Use USDC or USDT mint address instead" None]);
    (6004, mkMapping "ProtocolNotAllowed" "Protocol not allowed by vault policy"
        POLICY_VIOLATION false None
        [mkAction "check_policy" "Check which protocols the vault allows" (Some "sigil_check_vault");
         mkAction "change_protocol" "Use a protocol that is on the vault's allowlist" None]);
    (6005, mkMapping "TransactionTooLarge" "Transaction exceeds maximum single transaction size (USD)"
        SPENDING_CAP false None
        [mkAction "reduce_amount" "Reduce the transaction amount below maxTransactionSizeUsd" None;
         mkAction "check_limits" "Check the vault's maxTransactionSizeUsd policy" (Some "sigil_check_vault")]);
    (6006, mkMapping "SpendingCapExceeded" "Rolling 24h spending cap would be exceeded"
        SPENDING_CAP true (Some 3600000)
        [mkAction "reduce_amount" "Reduce the amount to fit within remaining daily cap" None;
         mkAction "check_spending" "Check remaining spending capacity" (Some "sigil_check_spending");
         mkAction "wait" "Wait for the 24h rolling window to release spent capacity" None]);
    (6007, mkMapping "SessionNotAuthorized" "Session authority not authorized for this action"
        PERMISSION false None
        [mkAction "new_session" "Create a new validate_and_authorize session" None]);
    (6008, mkMapping "InvalidSession" "Session does not belong to this vault or is invalid"
        PERMISSION false None
        [mkAction "verify_vault" "Ensure the session PDA matches the target vault" None]) ].

Definition ON_CHAIN_6009 : list (Z * ErrorMapping) :=
  [ (6009, mkMapping "TooManyAllowedProtocols" "Policy configuration has too many allowed protocols (max 10)"
        INPUT_VALIDATION false None
        [mkAction "reduce_protocols" "Reduce the protocol allowlist to 10 or fewer entries" None]);
    (6010, mkMapping "AgentAlreadyRegistered" "Agent is already registered on this vault"
        INPUT_VALIDATION false None
        [mkAction "check_agents" "Check existing agents on the vault" (Some "sigil_check_vault")]);
    (6011, mkMapping "NoAgentRegistered" "No agent registered on this vault"
        RESOURCE_NOT_FOUND false None
        [mkAction "register_agent" "Register an agent on the vault first" (Some "sigil_register_agent")]);
    (6012, mkMapping "VaultNotFrozen" "Vault is not frozen (expected frozen for reactivation)"
        INPUT_VALIDATION false None
        [mkAction "check_status" "Check the vault's current status" (Some "sigil_check_vault")]);
    (6013, mkMapping "VaultAlreadyClosed" "Vault is permanently closed"
        INPUT_VALIDATION false None
        [mkAction "create_vault" "Create a new vault — closed vaults cannot be reopened" (Some "sigil_create_vault")]);
    (6014, mkMapping "InsufficientBalance" "Insufficient vault balance for this operation"
        SPENDING_CAP false None
        [mkAction "reduce_amount" "Reduce the amount to match available balance" None;
         mkAction "deposit" "Deposit more funds into the vault" None;
         mkAction "check_balance" "Check vault token balances" (Some "sigil_check_vault")]);
    (6015, mkMapping "DeveloperFeeTooHigh" "Developer fee rate exceeds maximum (500 / 1,000,000 = 5 BPS)"
        INPUT_VALIDATION false None
        [mkAction "reduce_fee" "Set developer_fee_rate to 500 or below" None]);
    (6016, mkMapping "InvalidFeeDestination" "Fee destination account is invalid"
        INPUT_VALIDATION false None
        [mkAction "verify_fee_destination" "Provide a valid fee destination token account" None]);
    (6017, mkMapping "InvalidProtocolTreasury" "Protocol treasury account does not match expected address"
        INPUT_VALIDATION false None
        [mkAction "verify_treasury" "Use the correct protocol treasury address" None]);
    (6018, mkMapping "InvalidAgentKey" "Agent cannot be the zero address"
        INPUT_VALIDATION false None
        [mkAction "provide_valid_agent" "Use a valid non-zero Solana public key for the agent" None]);
    (6019, mkMapping "AgentIsOwner" "Agent cannot be the vault owner"
        INPUT_VALIDATION false None
        [mkAction "use_different_key" "Use a different keypair for the agent (cannot be the same as owner)" None]) ].

Definition ON_CHAIN_6020 : list (Z * ErrorMapping) :=
  [ (6020, mkMapping "Overflow" "Arithmetic overflow in on-chain computation"
        FATAL false None
        [mkAction "reduce_amount" "The amount may be too large — try a smaller value" None]);
    (6021, mkMapping "InvalidTokenAccount" "Token account does not belong to vault or has wrong mint"
        INPUT_VALIDATION false None
        [mkAction "verify_token_account" "Ensure the token account is owned by the vault PDA and has the correct mint" None]);
    (6022, mkMapping "TimelockNotExpired" "Timelock period has not expired yet"
        POLICY_VIOLATION true (Some 60000)
        [mkAction "wait" "Wait for the timelock period to expire before applying the update" None]);
    (6023, mkMapping "NoTimelockConfigured" "No timelock configured on this vault"
        INPUT_VALIDATION false None
        [mkAction "use_direct_update" "Use direct policy update (no timelock required)" None]);
    (6024, mkMapping "DestinationNotAllowed" "Destination address not in vault's allowed destinations list"
        POLICY_VIOLATION false None
        [mkAction "check_destinations" "Check the vault's allowedDestinations list" (Some "sigil_check_vault");
         mkAction "use_allowed_destination" "Use a destination that is in the vault's allowlist" None]);
    (6025, mkMapping "TooManyDestinations" "Too many destinations in allowlist (max 10)"
        INPUT_VALIDATION false None
        [mkAction "reduce_destinations" "Reduce the destination allowlist to 10 or fewer entries" None]);
    (6026, mkMapping "InvalidProtocolMode" "Invalid protocol mode (must be 0=all, 1=allowlist, or 2=denylist)"
        INPUT_VALIDATION false None
        [mkAction "fix_mode" "Set protocolMode to 0 (all), 1 (allowlist), or 2 (denylist)" None]);
    (6027, mkMapping "CpiCallNotAllowed" "Instruction must be top-level (CPI calls not allowed for validate/finalize)"
        FATAL false None
        [mkAction "fix_transaction" "Ensure validate_and_authorize is called at the top level, not via CPI" None]);
    (6028, mkMapping "MissingFinalizeInstruction" "Transaction must include finalize_session after validate_and_authorize"
        INPUT_VALIDATION false None
        [mkAction "use_sdk" "Use the SDK's compose functions which automatically include finalize_session" None]);
    (6029, mkMapping "NonTrackedSwapMustReturnStablecoin" "Non-stablecoin swap must return stablecoin (vault stablecoin balance did not increase)"
        INPUT_VALIDATION false None
        [mkAction "ensure_stablecoin_output" "Ensure the swap produces stablecoin output (USDC or USDT)" None]) ].

Definition ON_CHAIN_6030 : list (Z * ErrorMapping) :=
  [ (6030, mkMapping "SwapSlippageExceeded" "Swap slippage exceeds policy max_slippage_bps or quoted output is zero"
        POLICY_VIOLATION false None
        [mkAction "reduce_slippage" "Use a lower slippageBps value within the vault's maxSlippageBps" None;
         mkAction "check_policy" "Check the vault's maxSlippageBps setting" (Some "sigil_check_vault")]);
    (6031, mkMapping "InvalidJupiterInstruction" "Cannot parse Jupiter swap instruction data"
        INPUT_VALIDATION false None
        [mkAction "use_sdk" "Use the SDK's composeJupiterSwap — manual instruction building is error-prone" None]);
    (6032, mkMapping "UnauthorizedTokenTransfer" "Top-level SPL Token transfer not allowed between validate and finalize"
        POLICY_VIOLATION false None
        [mkAction "use_sdk" "Use the SDK's compose functions — do not insert raw SPL transfers in the sandwich" None]);
    (6033, mkMapping "SlippageBpsTooHigh" "Slippage BPS exceeds maximum allowed (5000 = 50%)"
        INPUT_VALIDATION false None
        [mkAction "reduce_slippage" "Set slippageBps to 5000 or below" None]);
    (6034, mkMapping "ProtocolMismatch" "DeFi instruction program does not match the declared target_protocol"
        INPUT_VALIDATION false None
        [mkAction "fix_protocol" "Ensure target_protocol matches the actual DeFi instruction's program ID" None]);
    (6035, mkMapping "TooManyDeFiInstructions" "Non-stablecoin swap allows exactly one DeFi instruction"
        INPUT_VALIDATION false None
        [mkAction "simplify_transaction" "Use a single DeFi instruction for non-stablecoin swaps" None]);
    (6036, mkMapping "MaxAgentsReached" "Maximum agents per vault reached (limit: 10)"
        INPUT_VALIDATION false None
        [mkAction "revoke_agent" "Revoke an existing agent before registering a new one" (Some "sigil_revoke_agent")]);
    (6037, mkMapping "InsufficientPermissions" "Agent lacks permission for this action type"
        PERMISSION false None
        [mkAction "check_permissions" "Check the agent's permission bitmask" (Some "sigil_check_vault");
         mkAction "request_permissions" "Ask the vault owner to update the agent's permissions" None]);
    (6038, mkMapping "InvalidPermissions" "Capability exceeds the on-chain maximum (valid values: 0 = Disabled, 1 = Observer, 2 = Operator)"
        INPUT_VALIDATION false None
        [mkAction "fix_permissions" "Pass FULL_CAPABILITY (2n) — the Operator enum value — when the agent needs spending authority." None]);
    (6039, mkMapping "EscrowNotActive" "Escrow is not in Active status"
        RESOURCE_NOT_FOUND false None
        [mkAction "check_escrow" "Verify the escrow exists and is in Active status" None]) ].

Definition ON_CHAIN_6040 : list (Z * ErrorMapping) :=
  [ (6040, mkMapping "EscrowExpired" "Escrow has expired — can only be refunded now"
        RESOURCE_NOT_FOUND false None
        [mkAction "refund_escrow" "Refund the expired escrow back to the source vault" (Some "sigil_refund_escrow")]);
    (6041, mkMapping "EscrowNotExpired" "Escrow has not expired yet — cannot refund before expiry"
        INPUT_VALIDATION false None
        [mkAction "wait" "Wait for the escrow to expire before requesting a refund" None;
         mkAction "settle" "Settle the escrow if you are the destination agent" (Some "sigil_settle_escrow")]);
    (6042, mkMapping "InvalidEscrowVault" "Invalid escrow vault — source or destination vault mismatch"
        INPUT_VALIDATION false None
        [mkAction "verify_vaults" "Ensure source and destination vault addresses match the escrow" None]);
    (6043, mkMapping "EscrowConditionsNotMet" "Escrow settlement conditions not met (SHA-256 proof invalid)"
        INPUT_VALIDATION false None
        [mkAction "provide_proof" "Provide the correct pre-image for the escrow's condition_hash" None]);
    (6044, mkMapping "EscrowDurationExceeded" "Escrow duration exceeds maximum (30 days)"
        INPUT_VALIDATION false None
        [mkAction "reduce_duration" "Set escrow duration to 2,592,000 seconds (30 days) or less" None]);
    (6045, mkMapping "InvalidConstraintConfig" "Invalid constraint configuration: bounds exceeded"
        INPUT_VALIDATION false None
        [mkAction "fix_constraints" "Ensure constraint entries are within bounds (max 64 entries, 8 data constraints each)" None]);
    (6046, mkMapping "ConstraintViolated" "Instruction violated a configured constraint"
        POLICY_VIOLATION false None
        [mkAction "check_constraints" "Review the vault's instruction constraints to understand what is allowed" (Some "sigil_check_vault");
         mkAction "modify_instruction" "Modify the instruction parameters to satisfy the constraints" None]);
    (6047, mkMapping "InvalidConstraintsPda" "Invalid constraints PDA: wrong owner or vault"
        INPUT_VALIDATION false None
        [mkAction "verify_pda" "Use the correct constraints PDA derived from the vault" None]);
    (6048, mkMapping "InvalidPendingConstraintsPda" "Invalid pending constraints PDA: wrong owner or vault"
        INPUT_VALIDATION false None
        [mkAction "verify_pda" "Use the correct pending constraints PDA derived from the vault" None]) ].

Definition ON_CHAIN_6049 : list (Z * ErrorMapping) :=
  [ (6049, mkMapping "AgentSpendLimitExceeded" "Agent's rolling 24h spend exceeds their individual spending limit"
        SPENDING_CAP true (Some 3600000)
        [mkAction "reduce_amount" "Reduce the amount to fit within the agent's remaining limit" None;
         mkAction "check_spending" "Check the agent's current spend against their limit" (Some "sigil_check_spending");
         mkAction "wait" "Wait for the 24h rolling window to release spent capacity" None]);
    (6050, mkMapping "OverlaySlotExhausted" "Per-agent overlay is full — cannot register agent with spending limit"
        INPUT_VALIDATION false None
        [mkAction "revoke_agent" "Revoke an unused agent to free an overlay slot" (Some "sigil_revoke_agent")]);
    (6051, mkMapping "AgentSlotNotFound" "Agent has per-agent spending limit but no overlay tracking slot"
        RESOURCE_NOT_FOUND false None
        [mkAction "contact_support" "This is an internal consistency error — the overlay may need reinitialization" None]);
    (6052, mkMapping "UnauthorizedTokenApproval" "Unauthorized SPL Token Approve detected between validate and finalize"
        POLICY_VIOLATION false None
        [mkAction "use_sdk" "Use the SDK's compose functions — do not insert raw SPL Approve in the sandwich" None]);
    (6053, mkMapping "InvalidSessionExpiry" "Session expiry slots out of range (10-450)"
        INPUT_VALIDATION false None
        [mkAction "fix_expiry" "Set session expiry between 10 and 450 slots" None]);
    (6054, mkMapping "UnconstrainedProgramBlocked" "Program has no constraint entry and strict mode is enabled"
        POLICY_VIOLATION false None
        [mkAction "add_constraint" "Add a constraint entry for this program, or disable strict mode" None;
         mkAction "check_constraints" "Review the vault's instruction constraints" (Some "sigil_check_vault")]);
    (6055, mkMapping "ProtocolCapExceeded" "Per-protocol rolling 24h spending cap would be exceeded"
        SPENDING_CAP true (Some 3600000)
        [mkAction "reduce_amount" "Reduce the amount to fit within the protocol's remaining cap" None;
         mkAction "use_different_protocol" "Use a different protocol that has remaining capacity" None;
         mkAction "wait" "Wait for the 24h rolling window to release spent capacity" None]);
    (6056, mkMapping "ProtocolCapsMismatch" "protocol_caps length must match protocols length when has_protocol_caps is true"
        INPUT_VALIDATION false None
        [mkAction "fix_config" "Ensure protocol_caps array length matches the protocols array length" None]) ].

Definition ON_CHAIN_6057 : list (Z * ErrorMapping) :=
  [ (6057, mkMapping "ActiveEscrowsExist" "Active escrow deposits exist — close them before closing vault"
        RESOURCE_NOT_FOUND false None
        [mkAction "close_escrows" "Settle or refund all active escrows before closing the vault" None]);
    (6058, mkMapping "ConstraintsNotClosed" "Instruction constraints PDA still exists — close it before closing vault"
        RESOURCE_NOT_FOUND false None
        [mkAction "close_constraints" "Close the instruction constraints account before closing the vault" None]);
    (6059, mkMapping "PendingPolicyExists" "A pending policy update exists — apply or cancel it before closing vault"
        RESOURCE_NOT_FOUND false None
        [mkAction "resolve_pending_policy" "Apply or cancel the pending policy update before closing the vault" None]);
    (6060, mkMapping "AgentPaused" "Agent is paused — unpause before executing actions"
        PERMISSION false None
        [mkAction "unpause_agent" "Ask the vault owner to unpause this agent" None]);
    (6061, mkMapping "AgentAlreadyPaused" "Agent is already paused"
        INPUT_VALIDATION false None
        [mkAction "check_agent_status" "Agent is already paused — no action needed" None]);
    (6062, mkMapping "AgentNotPaused" "Agent is not paused — cannot unpause"
        INPUT_VALIDATION false None
        [mkAction "check_agent_status" "Agent is not paused — no action needed" None]);
    (6063, mkMapping "UnauthorizedPostFinalizeInstruction" "Instructions after finalize_session must be ComputeBudget or SystemProgram only"
        POLICY_VIOLATION false None
        [mkAction "remove_post_finalize_instructions" "Remove any instructions placed after finalize_session in the transaction. Only ComputeBudget and SystemProgram instructions are allowed after finalize." None]);
    (6064, mkMapping "UnexpectedBalanceDecrease" "Vault stablecoin balance decreased more than the session authorized amount. This indicates a compromised DeFi program attempted to drain vault tokens via CPI."
        FATAL false None
        [mkAction "investigate_defi_program" "The whitelisted DeFi program may be compromised. The actual vault balance decrease exceeded the authorized delegation amount (fees + DeFi spend). Freeze the vault, investigate the DeFi program, and consider removing it from the protocol allowlist." None;
         mkAction "freeze_vault" "Immediately freeze the vault to prevent further transactions until the cause is identified." None]);
    (6065, mkMapping "TimelockTooShort" "Timelock duration is below the minimum (1800 seconds / 30 minutes)."
        INPUT_VALIDATION false None
        [mkAction "increase_timelock" "Set timelock_duration to at least 1800 seconds (30 minutes)." None]);
    (6066, mkMapping "PolicyVersionMismatch" "Policy version changed since agent's last RPC read. Re-resolve vault state and retry."
        TRANSIENT true (Some 1000)
        [mkAction "re_resolve_state" "Re-fetch vault state via resolveVaultState() to get current policy version, then retry." None]) ].

Definition ON_CHAIN_6067 : list (Z * ErrorMapping) :=
  [ (6067, mkMapping "ActiveSessionsExist" "Cannot close vault with active sessions. Finalize all pending sessions first."
        POLICY_VIOLATION true (Some 10000)
        [mkAction "finalize_sessions" "Wait for active sessions to finalize or expire, then retry close_vault." None]);
    (6068, mkMapping "PostAssertionFailed" "Post-execution assertion failed: account state did not satisfy constraint."
        POLICY_VIOLATION false None
        [mkAction "review_assertions" "Review the vault's post-execution assertions. The trade's resulting account state violated a configured assertion." None]);
    (6069, mkMapping "InvalidPostAssertionIndex" "Post-assertion references an invalid instruction index."
        INPUT_VALIDATION false None
        [mkAction "fix_assertions" "Review and update the vault's post-assertion configuration." None]);
    (6070, mkMapping "UnauthorizedPreValidateInstruction" "Non-infrastructure instruction detected before validate_and_authorize."
        PERMISSION false None
        [mkAction "fix_instruction_order" "Place validate_and_authorize before any DeFi or program instruction." None]);
    (6071, mkMapping "SnapshotNotCaptured" "Delta assertion snapshot was not captured in validate_and_authorize."
        INPUT_VALIDATION false None
        [mkAction "fix_assertions" "Ensure validate_and_authorize captures a snapshot before finalize delta check." None]);
    (6072, mkMapping "InvalidConstraintOperator" "Constraint operator value is not a valid ConstraintOperator discriminant."
        INPUT_VALIDATION false None
        [mkAction "fix_constraints" "Ensure constraint operators are valid (0-6)." None]);
    (6073, mkMapping "ConstraintsVaultMismatch" "Zero-copy constraints account has wrong vault."
        INPUT_VALIDATION false None
        [mkAction "verify_pda" "The constraints PDA does not belong to this vault." None]);
    (6074, mkMapping "BlockedSplOpcode" "SPL opcode is blocked at runtime and cannot be used in constraints."
        INPUT_VALIDATION false None
        [mkAction "fix_constraints" "Remove blocked SPL opcode from the constraint entry — use allowlisted opcodes only." None]);
    (6075, mkMapping "QueuedUpdateExpired" "Queued update is too old (>MAX_APPLY_AGE_SLOTS) — re-queue to apply. Defends against durable-nonce pre-signing."
        POLICY_VIOLATION false None
        [mkAction "requeue" "Re-queue the update via queue_policy_update / queue_constraints_update / queue_close_constraints / queue_agent_permissions_update — the original queued update is past the freshness window." None]);
    (6076, mkMapping "AccountWritabilityMismatch" "Account writability flag does not match the constraint requirement (read-only vs writable)."
        INPUT_VALIDATION false None
        [mkAction "fix_constraints" "Match the writability flag (read-only or writable) of the account passed to the instruction with the constraint's is_writable_required value." None]) ].

Definition ON_CHAIN_6077 : list (Z * ErrorMapping) :=
  [ (6077, mkMapping "SysvarScanBoundExceeded" "Sysvar instruction scan exceeded the per-tx safety bound (MAX_SYSVAR_SCAN_ITERATIONS=64)."
        INPUT_VALIDATION false None
        [mkAction "fix_transaction_shape" "Reduce the number of instructions in the transaction. The on-chain sysvar walk is bounded at 64 ix to defend against pad-attack DoS (M11 / SIMD-0296). Legitimate flows fit well under this cap." None]);
    (6078, mkMapping "AsyncFulfillmentNotPermitted" "Async-fulfillment programs (Jupiter Perps, Drift v2, Drift JIT) are not permitted in V1 — keeper-driven settlement happens after finalize_session returns and cannot be measured against the spending cap."
        POLICY_VIOLATION false None
        [mkAction "use_supported_protocol" "Use a synchronous protocol (Jupiter swap, Jupiter Lend, etc.). V1.1 will add a sanctioned async-friendly path with settlement-tracked counters or post-execution attestation." None]);
    (6079, mkMapping "ConstraintsAlreadyPopulated" "Cannot clean an active constraints PDA via cleanup_orphan_constraints_pda — use queue_close_constraints + apply_close_constraints instead."
        INPUT_VALIDATION false None
        [mkAction "use_close_path" "Route through the timelocked close-constraints path; the orphan-cleanup instruction only operates on never-populated PDAs (partial allocate+extend chain)." None]);
    (6080, mkMapping "OrphanPdaWrongOwner" "PDA at the constraints seeds is not owned by the Sigil program."
        INPUT_VALIDATION false None
        [mkAction "verify_pda" "Verify the PDA derivation: it must be owned by the Sigil program and match seeds (vault, constraints)." None]);
    (6081, mkMapping "OrphanPdaPopulated" "PDA is fully populated (carries the Anchor discriminator) — not an orphan; cannot be cleaned."
        INPUT_VALIDATION false None
        [mkAction "use_close_path" "Route fully-populated constraints PDAs through queue_close_constraints + apply_close_constraints." None]);
    (6082, mkMapping "ConfidentialTransferBlocked" "Token-2022 ConfidentialTransfer is not permitted between validate_and_authorize and finalize_session."
        POLICY_VIOLATION false None
        [mkAction "use_supported_protocol" "Token-2022 ConfidentialTransfer (opcode 27/42) hides spending amounts from sysvar accounting and cannot be tracked. Use the standard SPL Token transfer or Jupiter swap path instead." None]);
    (6083, mkMapping "PermanentDelegateBlocked" "Token-2022 PermanentDelegate is not permitted between validate_and_authorize and finalize_session."
        POLICY_VIOLATION false None
        [mkAction "use_supported_protocol" "Token-2022 PermanentDelegate (opcode 35) installs a session-bound delegate that survives finalize. Reject up-front; use a per-tx Approve instead." None]);
    (6084, mkMapping "TransferHookBlocked" "Token-2022 TransferHook is not permitted between validate_and_authorize and finalize_session."
        POLICY_VIOLATION false None
        [mkAction "use_supported_protocol" "Token-2022 TransferHook (opcode 36) routes mid-tx control to attacker-chosen code. Use a non-hook mint or whitelist the hook program in V1.1." None]);
    (6085, mkMapping "LamportDrainBlocked" "Token-2022 destructive-balance instruction (opcode 38/45/46) is not permitted between validate_and_authorize and finalize_session."
        POLICY_VIOLATION false None
        [mkAction "use_supported_protocol" "WithdrawExcessLamports/UnwrapLamports/PermissionedBurnExtension drain SOL or balances outside the spending-cap path. Block at the gate; V1.1 may add an owner-allowlist for legitimate uses." None]);
    (6086, mkMapping "BatchInstructionBlocked" "Token-2022 Batch instruction (opcode 255) is blocked outright — wraps inner instructions and bypasses the byte-0 blocklist."
        POLICY_VIOLATION false None
        [mkAction "use_supported_protocol" "Token-2022 Batch (opcode 255) wraps inner TokenInstructions; the byte-0 blocklist cannot see them. Submit each inner ix as its own top-level instruction so guards can inspect each." None]) ].

Definition ON_CHAIN_6087 : list (Z * ErrorMapping) :=
  [ (6087, mkMapping "InvalidDestinationMode" "Invalid destination mode (must be 0 = Restricted or 1 = OpenWithCap)."
        INPUT_VALIDATION false None
        [mkAction "fix_policy" "Pass destination_mode = 0 (Restricted, default) or 1 (OpenWithCap, explicit opt-in to drain blast radius)." None]) ].

Definition ON_CHAIN_ERROR_MAP : list (Z * ErrorMapping) :=
  ON_CHAIN_6000 ++ ON_CHAIN_6009 ++ ON_CHAIN_6020 ++ ON_CHAIN_6030 ++ ON_CHAIN_6040 ++ ON_CHAIN_6049
  ++ ON_CHAIN_6057 ++ ON_CHAIN_6067 ++ ON_CHAIN_6077 ++ ON_CHAIN_6087.

Definition SDK_ERROR_CODES : list (Z * string) :=
  [ (7000, "NETWORK_ERROR");
    (7001, "RPC_ERROR");
    (7002, "SIMULATION_FAILED");
    (7003, "DRAIN_DETECTED");
    (7004, "INTENT_VALIDATION_FAILED");
    (7005, "INTENT_EXPIRED");
    (7006, "PROTOCOL_NOT_SUPPORTED");
    (7007, "ADAPTER_VERIFICATION_FAILED");
    (7008, "PRECHECK_FAILED");
    (7009, "EXECUTION_FAILED");
    (7010, "TRANSACTION_TIMEOUT");
    (7011, "CONFIRMATION_TIMEOUT");
    (7012, "INSUFFICIENT_FUNDS");
    (7013, "SLIPPAGE_EXCEEDED");
    (7014, "TEE_VERIFICATION_FAILED");
    (7015, "SHIELD_DENIED");
    (7016, "SIMULATION_TIMEOUT");
    (7017, "BLOCKHASH_EXPIRED");
    (7018, "CODAMA_DECODE_FAILED");
    (7019, "CODAMA_VERSION_MISMATCH");
    (7020, "COMPAT_BRIDGE_FAILED");
    (7021, "INTENT_DRIFT_DETECTED");
    (7022, "VELOCITY_EXCEEDED");
    (7023, "AGENT_DEFENSE_TRIGGERED");
    (7024, "X402_PARSE_ERROR");
    (7025, "X402_PAYMENT_DENIED");
    (7026, "X402_UNSUPPORTED");
    (7027, "X402_DESTINATION_BLOCKED");
    (7028, "X402_REPLAY_DETECTED");
    (7029, "X402_AMOUNT_SUSPICIOUS");
    (7030, "X402_FACILITATOR_UNTRUSTED");
    (7031, "X402_CONNECTION_REQUIRED");
    (7032, "X402_SETTLEMENT_FAILED");
    (7033, "TX_SIZE_OVERFLOW") ].

Definition SDK_ERRORS_1 : jsmap ErrorMapping :=
  [ ("NETWORK_ERROR", mkMapping "NetworkError" "Network request failed"
        TRANSIENT true (Some 2000)
        [mkAction "retry" "Retry the request — the RPC node may be temporarily unavailable" None]);
    ("RPC_ERROR", mkMapping "RpcError" "Solana RPC error"
        TRANSIENT true (Some 3000)
        [mkAction "retry" "Retry with a different RPC endpoint if available" None]);
    ("SIMULATION_FAILED", mkMapping "SimulationFailed" "Transaction simulation failed"
        TRANSIENT true (Some 2000)
        [mkAction "retry" "Retry — blockhash may have expired or state changed" None;
         mkAction "check_balance" "Verify the agent has enough SOL for transaction fees" None]);
    ("DRAIN_DETECTED", mkMapping "DrainDetected" "Potential drain attack detected in transaction simulation"
        FATAL false None
        [mkAction "reject_transaction" "Transaction appears to drain vault funds — do not sign or submit" None]);
    ("INTENT_VALIDATION_FAILED", mkMapping "IntentValidationFailed" "Intent input validation failed"
        INPUT_VALIDATION false None
        [mkAction "fix_inputs" "Fix the invalid parameters identified in the error context" None]);
    ("INTENT_EXPIRED", mkMapping "IntentExpired" "Intent has expired and is no longer valid"
        TRANSIENT true (Some 1000)
        [mkAction "retry" "Create a fresh intent with updated parameters" None]);
    ("PROTOCOL_NOT_SUPPORTED", mkMapping "ProtocolNotSupported" "Protocol is not supported by the SDK"
        PROTOCOL_NOT_SUPPORTED false None
        [mkAction "check_supported_protocols" "Check which protocols are supported by the SDK" None]);
    ("ADAPTER_VERIFICATION_FAILED", mkMapping "AdapterVerificationFailed" "Protocol adapter output failed safety verification"
        FATAL false None
        [mkAction "report_adapter" "The protocol adapter may be compromised — do not retry" None]);
    ("PRECHECK_FAILED", mkMapping "PrecheckFailed" "SDK precheck failed before submitting transaction"
        INPUT_VALIDATION false None
        [mkAction "check_inputs" "Review the intent parameters — a precondition is not met" None]);
    ("EXECUTION_FAILED", mkMapping "ExecutionFailed" "Transaction execution failed on-chain"
        TRANSIENT true (Some 2000)
        [mkAction "retry" "Retry — on-chain state may have changed during execution" None]);
    ("TRANSACTION_TIMEOUT", mkMapping "TransactionTimeout" "Transaction submission timed out"
        TRANSIENT true (Some 5000)
        [mkAction "retry" "Retry with a fresh blockhash and higher priority fee" None]) ].

Definition SDK_ERRORS_2 : jsmap ErrorMapping :=
  [ ("CONFIRMATION_TIMEOUT", mkMapping "ConfirmationTimeout" "Transaction confirmation timed out"
        TRANSIENT true (Some 5000)
        [mkAction "check_status" "Check if the transaction landed — it may have confirmed after timeout" None;
         mkAction "retry" "Retry if transaction did not land" None]);
    ("INSUFFICIENT_FUNDS", mkMapping "InsufficientFunds" "Insufficient SOL or token balance for transaction"
        SPENDING_CAP false None
        [mkAction "check_balance" "Check SOL and token balances" None;
         mkAction "deposit" "Deposit more funds before retrying" None]);
    ("SLIPPAGE_EXCEEDED", mkMapping "SlippageExceeded" "Swap slippage exceeded the maximum tolerance"
        TRANSIENT true (Some 3000)
        [mkAction "retry" "Retry — market may have moved, producing a better quote" None;
         mkAction "increase_slippage" "Increase slippage tolerance if market is volatile" None]);
    ("TEE_VERIFICATION_FAILED", mkMapping "TeeVerificationFailed" "TEE attestation verification failed"
        FATAL false None
        [mkAction "verify_tee" "Verify the TEE wallet's attestation — the enclave may be compromised" None]);
    ("SHIELD_DENIED", mkMapping "ShieldDenied" "Shield denied the transaction based on policy evaluation"
        POLICY_VIOLATION false None
        [mkAction "check_policy" "Review shield policies to understand why the transaction was denied" None]);
    ("SIMULATION_TIMEOUT", mkMapping "SimulationTimeout" "Transaction simulation RPC call timed out"
        TRANSIENT true (Some 5000)
        [mkAction "retry" "Retry with a different RPC endpoint or increased timeout" None]);
    ("BLOCKHASH_EXPIRED", mkMapping "BlockhashExpired" "Blockhash expired before transaction could be sent"
        TRANSIENT true (Some 1000)
        [mkAction "retry" "Fetch a fresh blockhash and rebuild the transaction" None]);
    ("CODAMA_DECODE_FAILED", mkMapping "CodamaDecodeFailed" "Codama-generated codec failed to decode instruction data"
        FATAL false None
        [mkAction "check_idl" "Verify the IDL matches the deployed program version" None]);
    ("CODAMA_VERSION_MISMATCH", mkMapping "CodamaVersionMismatch" "IDL hash mismatch — generated code may be stale"
        FATAL false None
        [mkAction "regenerate" "Regenerate Codama clients from the latest IDL" None]);
    ("COMPAT_BRIDGE_FAILED", mkMapping "CompatBridgeFailed" "web3.js compatibility bridge encountered an error"
        FATAL false None
        [mkAction "check_compat" "Check that the compat bridge input types are correct" None]) ].

Definition SDK_ERRORS_3 : jsmap ErrorMapping :=
  [ ("INTENT_DRIFT_DETECTED", mkMapping "IntentDriftDetected" "Transaction diverges from the declared intent"
        POLICY_VIOLATION false None
        [mkAction "review_transaction" "The composed transaction does not match the stated intent — review instructions" None;
         mkAction "rebuild" "Rebuild the transaction from a fresh intent" None]);
    ("VELOCITY_EXCEEDED", mkMapping "VelocityExceeded" "Transaction velocity threshold breached"
        RATE_LIMIT true (Some 30000)
        [mkAction "wait" "Wait for the cooldown period before submitting more transactions" None]);
    ("AGENT_DEFENSE_TRIGGERED", mkMapping "AgentDefenseTriggered" "Pre-sign gate blocked a suspicious transaction"
        POLICY_VIOLATION false None
        [mkAction "review_transaction" "The transaction triggered agent defense — review for manipulation" None;
         mkAction "escalate_to_human" "Escalate to vault owner for manual review" None]);
    ("X402_PARSE_ERROR", mkMapping "X402ParseError" "Malformed x402 PAYMENT-REQUIRED header"
        INPUT_VALIDATION false None
        [mkAction "check_server" "The API server returned an invalid x402 header — contact the provider" None]);
    ("X402_PAYMENT_DENIED", mkMapping "X402PaymentDenied" "x402 payment blocked by shield policy"
        POLICY_VIOLATION false None
        [mkAction "check_policy" "Review shield spending limits and x402 configuration" None]);
    ("X402_UNSUPPORTED", mkMapping "X402Unsupported" "No compatible Solana payment option in x402 response"
        INPUT_VALIDATION false None
        [mkAction "check_accepts" "The API does not accept any Solana-compatible payment — try a different endpoint" None]);
    ("X402_DESTINATION_BLOCKED", mkMapping "X402DestinationBlocked" "x402 payTo address not in destination allowlist"
        POLICY_VIOLATION false None
        [mkAction "check_allowlist" "Add the payTo address to X402Config.allowedDestinations if trusted" None]);
    ("X402_REPLAY_DETECTED", mkMapping "X402ReplayDetected" "Duplicate x402 payment detected within replay window"
        POLICY_VIOLATION false None
        [mkAction "wait" "A payment for this resource was already made — wait for the nonce window to expire" None]);
    ("X402_AMOUNT_SUSPICIOUS", mkMapping "X402AmountSuspicious" "x402 payment amount exceeds sanity threshold"
        POLICY_VIOLATION false None
        [mkAction "review_amount" "The requested amount is suspiciously high — verify with the API provider" None]);
    ("X402_FACILITATOR_UNTRUSTED", mkMapping "X402FacilitatorUntrusted" "x402 settlement response validation failed"
        POLICY_VIOLATION false None
        [mkAction "check_settlement" "Verify the settlement transaction on-chain" None]) ].

Definition SDK_ERRORS_4 : jsmap ErrorMapping :=
  [ ("X402_CONNECTION_REQUIRED", mkMapping "X402ConnectionRequired" "RPC connection required for x402 payment but not provided"
        INPUT_VALIDATION false None
        [mkAction "provide_rpc" "Pass an RPC connection in ShieldedFetchOptions or X402Config" None]);
    ("X402_SETTLEMENT_FAILED", mkMapping "X402SettlementFailed" "x402 settlement retries exhausted"
        TRANSIENT true (Some 5000)
        [mkAction "retry" "Retry the x402 payment — the facilitator may be temporarily unavailable" None]);
    ("TX_SIZE_OVERFLOW", mkMapping "TxSizeOverflow" "Transaction exceeds Solana's 1,232-byte wire size limit"
        INPUT_VALIDATION false None
        [mkAction "use_alt" "Enable address lookup tables to compress the transaction" None;
         mkAction "simplify_route" "Use a simpler swap route with fewer hops or accounts" None]) ].

Definition SDK_ERRORS : jsmap ErrorMapping :=
  SDK_ERRORS_1 ++ SDK_ERRORS_2 ++ SDK_ERRORS_3 ++ SDK_ERRORS_4.

(** A pattern of [.]-free pieces: the pieces occur in order, with at least one character
    between them. *)
Record SdkErrorPattern := mkPattern {
  sp_pieces : list string;
  sp_category : ErrorCategory;
  sp_retryable : bool;
  sp_recovery_actions : list RecoveryAction;
}.

Definition SDK_ERROR_PATTERNS : list SdkErrorPattern :=
  [ mkPattern ["Vault is not active"] RESOURCE_NOT_FOUND false
      [mkAction "check_vault_status" "Verify vault status. It may be frozen or closed." None;
       mkAction "reactivate_vault" "If frozen, ask the vault owner to reactivate." (Some "reactivateVault")];
    mkPattern ["Agent "; " is not registered"] PERMISSION false
      [mkAction "register_agent" "Register this agent in the vault." (Some "registerAgent")];
    mkPattern ["Agent "; " is paused"] PERMISSION false
      [mkAction "unpause_agent" "Ask the vault owner to unpause this agent." (Some "unpauseAgent")];
    mkPattern ["lacks permission for action"] PERMISSION false
      [mkAction "update_permissions" "Request permission for this action type from the vault owner." None];
    mkPattern ["Protocol "; " is not allowed"] PROTOCOL_NOT_SUPPORTED false
      [mkAction "add_protocol" "Add this protocol to the vault's allowlist." None];
    mkPattern ["Transaction size "; " exceeds"] INPUT_VALIDATION false
      [mkAction "add_alts" "Pass protocolAltAddresses from your DeFi API response." None;
       mkAction "reduce_instructions" "Reduce instruction count or split across multiple transactions." None];
    mkPattern ["Spending action "; " requires amount > 0"] INPUT_VALIDATION false
      [mkAction "fix_amount" "Set amount to the transaction value in token base units." None];
    mkPattern ["Non-spending action "; " requires amount === 0"] INPUT_VALIDATION false
      [mkAction "set_zero_amount" "Non-spending actions (close, withdraw, etc.) require amount = 0n." None];
    mkPattern ["No target protocol"] INPUT_VALIDATION false
      [mkAction "add_instructions" "Include DeFi instructions in the wrap call, or set targetProtocol explicitly." None];
    mkPattern ["Escrow action"] INPUT_VALIDATION false
      [mkAction "use_escrow_api" "Use createEscrow/settleEscrow/refundEscrow instead of wrap()." None] ].

(** The dashboard's number for each canonical code. *)
Definition SIGIL_ERROR_TO_NUMERIC : jsmap Z :=
  [ ("SIGIL_ERROR__SHIELD__POLICY_DENIED", 7015);
    ("SIGIL_ERROR__SHIELD__CONFIG_INVALID", 7008);
    ("SIGIL_ERROR__SHIELD__RATE_LIMIT_EXCEEDED", 7022);
    ("SIGIL_ERROR__SHIELD__SESSION_BINDING", 7015);
    ("SIGIL_ERROR__TEE__ATTESTATION_FAILED", 7014);
    ("SIGIL_ERROR__TEE__CERT_CHAIN_INVALID", 7014);
    ("SIGIL_ERROR__TEE__PCR_MISMATCH", 7014);
    ("SIGIL_ERROR__COMPOSE__MISSING_PARAM", 7008);
    ("SIGIL_ERROR__COMPOSE__INVALID_BIGINT", 7008);
    ("SIGIL_ERROR__COMPOSE__UNSUPPORTED_ACTION", 7006);
    ("SIGIL_ERROR__X402__HEADER_MALFORMED", 7024);
    ("SIGIL_ERROR__X402__PAYMENT_FAILED", 7025);
    ("SIGIL_ERROR__X402__UNSUPPORTED", 7026);
    ("SIGIL_ERROR__X402__DESTINATION_BLOCKED", 7027);
    ("SIGIL_ERROR__X402__REPLAY", 7028);
    ("SIGIL_ERROR__SDK__INVALID_CONFIG", 7008);
    ("SIGIL_ERROR__SDK__INVALID_PARAMS", 7008);
    ("SIGIL_ERROR__SDK__INVALID_NETWORK", 7008);
    ("SIGIL_ERROR__SDK__INVALID_AMOUNT", 7008);
    ("SIGIL_ERROR__SDK__INVALID_CAPABILITY", 7008);
    ("SIGIL_ERROR__SDK__INVALID_ACTION_TYPE", 7008);
    ("SIGIL_ERROR__SDK__OWNER_AGENT_COLLISION", 7008);
    ("SIGIL_ERROR__SDK__VAULT_NOT_FOUND", 7009);
    ("SIGIL_ERROR__SDK__VAULT_INACTIVE", 7009);
    ("SIGIL_ERROR__SDK__VAULT_SLOTS_EXHAUSTED", 7009);
    ("SIGIL_ERROR__SDK__POLICY_NOT_FOUND", 7009);
    ("SIGIL_ERROR__SDK__AGENT_NOT_REGISTERED", 7009);
    ("SIGIL_ERROR__SDK__AGENT_PAUSED", 7009);
    ("SIGIL_ERROR__SDK__AGENT_ZERO_CAPABILITY", 7009);
    ("SIGIL_ERROR__SDK__SIGNER_INVALID", 7008);
    ("SIGIL_ERROR__SDK__SIGNATURE_INVALID", 7008);
    ("SIGIL_ERROR__SDK__SPL_TOKEN_OP_BLOCKED", 7015);
    ("SIGIL_ERROR__SDK__PROTOCOL_NOT_ALLOWED", 7015);
    ("SIGIL_ERROR__SDK__PROTOCOL_NOT_TARGETED", 7008);
    ("SIGIL_ERROR__SDK__INSTRUCTION_COUNT", 7008);
    ("SIGIL_ERROR__SDK__CAP_EXCEEDED", 7012);
    ("SIGIL_ERROR__SDK__ATA_NON_CANONICAL", 7008);
    ("SIGIL_ERROR__SDK__ALT_INTEGRITY", 7009);
    ("SIGIL_ERROR__SDK__ALT_NOT_DEPLOYED", 7009);
    ("SIGIL_ERROR__SDK__SEAL_FAILED", 7009);
    ("SIGIL_ERROR__SDK__UNKNOWN", 7999);
    ("SIGIL_ERROR__RPC__TX_FAILED", 7009);
    ("SIGIL_ERROR__RPC__CONFIRMATION_TIMEOUT", 7011);
    ("SIGIL_ERROR__RPC__SIMULATION_FAILED", 7002);
    ("SIGIL_ERROR__RPC__DRAIN_DETECTED", 7003);
    ("SIGIL_ERROR__RPC__TX_TOO_LARGE", 7033);
    ("SIGIL_ERROR__RPC__RATE_LIMITED", 7001);
    ("SIGIL_ERROR__RPC__INSTRUCTION_REQUIRED", 7008);
    ("SIGIL_ERROR__PROGRAM__GENERIC", 7999) ].

(** The program numbers its errors from 6000 in this order. *)
Definition PROGRAM_ERRORS : list string :=
  [ "VaultNotActive"; "UnauthorizedAgent"; "UnauthorizedOwner";
    "UnsupportedToken"; "ProtocolNotAllowed"; "TransactionTooLarge";
    "SpendingCapExceeded"; "SessionNotAuthorized"; "InvalidSession";
    "TooManyAllowedProtocols"; "AgentAlreadyRegistered"; "NoAgentRegistered";
    "VaultNotFrozen"; "VaultAlreadyClosed"; "InsufficientBalance";
    "DeveloperFeeTooHigh"; "InvalidFeeDestination"; "InvalidProtocolTreasury";
    "InvalidAgentKey"; "AgentIsOwner"; "Overflow";
    "InvalidTokenAccount"; "TimelockNotExpired"; "NoTimelockConfigured";
    "DestinationNotAllowed"; "TooManyDestinations"; "InvalidProtocolMode";
    "CpiCallNotAllowed"; "MissingFinalizeInstruction"; "NonTrackedSwapMustReturnStablecoin";
    "SwapSlippageExceeded"; "InvalidJupiterInstruction"; "UnauthorizedTokenTransfer";
    "SlippageBpsTooHigh"; "ProtocolMismatch"; "TooManyDeFiInstructions";
    "MaxAgentsReached"; "InsufficientPermissions"; "InvalidPermissions";
    "EscrowNotActive"; "EscrowExpired"; "EscrowNotExpired";
    "InvalidEscrowVault"; "EscrowConditionsNotMet"; "EscrowDurationExceeded";
    "InvalidConstraintConfig"; "ConstraintViolated"; "InvalidConstraintsPda";
    "InvalidPendingConstraintsPda"; "AgentSpendLimitExceeded"; "OverlaySlotExhausted";
    "AgentSlotNotFound"; "UnauthorizedTokenApproval"; "InvalidSessionExpiry";
    "UnconstrainedProgramBlocked"; "ProtocolCapExceeded"; "ProtocolCapsMismatch";
    "ActiveEscrowsExist"; "ConstraintsNotClosed"; "PendingPolicyExists";
    "AgentPaused"; "AgentAlreadyPaused"; "AgentNotPaused";
    "UnauthorizedPostFinalizeInstruction"; "UnexpectedBalanceDecrease"; "TimelockTooShort";
    "PolicyVersionMismatch"; "ActiveSessionsExist"; "PostAssertionFailed";
    "InvalidPostAssertionIndex"; "UnauthorizedPreValidateInstruction"; "SnapshotNotCaptured";
    "InvalidConstraintOperator"; "ConstraintsVaultMismatch"; "BlockedSplOpcode";
    "QueuedUpdateExpired"; "AccountWritabilityMismatch"; "SysvarScanBoundExceeded";
    "AsyncFulfillmentNotPermitted"; "ConstraintsAlreadyPopulated"; "OrphanPdaWrongOwner";
    "OrphanPdaPopulated"; "ConfidentialTransferBlocked"; "PermanentDelegateBlocked";
    "TransferHookBlocked"; "LamportDrainBlocked"; "BatchInstructionBlocked";
    "InvalidDestinationMode" ].

(** * The generated error constants ([generated/errors/sigil.ts])

    The exported constants with their codes, and the messages of the development build. *)

Definition SIGIL_ERROR_CODES_1 : list (string * Z) :=
  [ ("SIGIL_ERROR__VAULT_NOT_ACTIVE", 6000);
    ("SIGIL_ERROR__UNAUTHORIZED_AGENT", 6001);
    ("SIGIL_ERROR__UNAUTHORIZED_OWNER", 6002);
    ("SIGIL_ERROR__UNSUPPORTED_TOKEN", 6003);
    ("SIGIL_ERROR__PROTOCOL_NOT_ALLOWED", 6004);
    ("SIGIL_ERROR__TRANSACTION_TOO_LARGE", 6005);
    ("SIGIL_ERROR__SPENDING_CAP_EXCEEDED", 6006);
    ("SIGIL_ERROR__SESSION_NOT_AUTHORIZED", 6007);
    ("SIGIL_ERROR__INVALID_SESSION", 6008);
    ("SIGIL_ERROR__TOO_MANY_ALLOWED_PROTOCOLS", 6009);
    ("SIGIL_ERROR__AGENT_ALREADY_REGISTERED", 6010);
    ("SIGIL_ERROR__NO_AGENT_REGISTERED", 6011);
    ("SIGIL_ERROR__VAULT_NOT_FROZEN", 6012);
    ("SIGIL_ERROR__VAULT_ALREADY_CLOSED", 6013);
    ("SIGIL_ERROR__INSUFFICIENT_BALANCE", 6014);
    ("SIGIL_ERROR__DEVELOPER_FEE_TOO_HIGH", 6015);
    ("SIGIL_ERROR__INVALID_FEE_DESTINATION", 6016);
    ("SIGIL_ERROR__INVALID_PROTOCOL_TREASURY", 6017);
    ("SIGIL_ERROR__INVALID_AGENT_KEY", 6018);
    ("SIGIL_ERROR__AGENT_IS_OWNER", 6019);
    ("SIGIL_ERROR__OVERFLOW", 6020);
    ("SIGIL_ERROR__INVALID_TOKEN_ACCOUNT", 6021);
    ("SIGIL_ERROR__TIMELOCK_NOT_EXPIRED", 6022);
    ("SIGIL_ERROR__NO_TIMELOCK_CONFIGURED", 6023);
    ("SIGIL_ERROR__DESTINATION_NOT_ALLOWED", 6024);
    ("SIGIL_ERROR__TOO_MANY_DESTINATIONS", 6025);
    ("SIGIL_ERROR__INVALID_PROTOCOL_MODE", 6026);
    ("SIGIL_ERROR__CPI_CALL_NOT_ALLOWED", 6027);
    ("SIGIL_ERROR__MISSING_FINALIZE_INSTRUCTION", 6028);
    ("SIGIL_ERROR__NON_TRACKED_SWAP_MUST_RETURN_STABLECOIN", 6029) ].

Definition SIGIL_ERROR_CODES_2 : list (string * Z) :=
  [ ("SIGIL_ERROR__SWAP_SLIPPAGE_EXCEEDED", 6030);
    ("SIGIL_ERROR__INVALID_JUPITER_INSTRUCTION", 6031);
    ("SIGIL_ERROR__UNAUTHORIZED_TOKEN_TRANSFER", 6032);
    ("SIGIL_ERROR__SLIPPAGE_BPS_TOO_HIGH", 6033);
    ("SIGIL_ERROR__PROTOCOL_MISMATCH", 6034);
    ("SIGIL_ERROR__TOO_MANY_DE_FI_INSTRUCTIONS", 6035);
    ("SIGIL_ERROR__MAX_AGENTS_REACHED", 6036);
    ("SIGIL_ERROR__INSUFFICIENT_PERMISSIONS", 6037);
    ("SIGIL_ERROR__INVALID_PERMISSIONS", 6038);
    ("SIGIL_ERROR__ESCROW_NOT_ACTIVE", 6039);
    ("SIGIL_ERROR__ESCROW_EXPIRED", 6040);
    ("SIGIL_ERROR__ESCROW_NOT_EXPIRED", 6041);
    ("SIGIL_ERROR__INVALID_ESCROW_VAULT", 6042);
    ("SIGIL_ERROR__ESCROW_CONDITIONS_NOT_MET", 6043);
    ("SIGIL_ERROR__ESCROW_DURATION_EXCEEDED", 6044);
    ("SIGIL_ERROR__INVALID_CONSTRAINT_CONFIG", 6045);
    ("SIGIL_ERROR__CONSTRAINT_VIOLATED", 6046);
    ("SIGIL_ERROR__INVALID_CONSTRAINTS_PDA", 6047);
    ("SIGIL_ERROR__INVALID_PENDING_CONSTRAINTS_PDA", 6048);
    ("SIGIL_ERROR__AGENT_SPEND_LIMIT_EXCEEDED", 6049);
    ("SIGIL_ERROR__OVERLAY_SLOT_EXHAUSTED", 6050);
    ("SIGIL_ERROR__AGENT_SLOT_NOT_FOUND", 6051);
    ("SIGIL_ERROR__UNAUTHORIZED_TOKEN_APPROVAL", 6052);
    ("SIGIL_ERROR__INVALID_SESSION_EXPIRY", 6053);
    ("SIGIL_ERROR__UNCONSTRAINED_PROGRAM_BLOCKED", 6054);
    ("SIGIL_ERROR__PROTOCOL_CAP_EXCEEDED", 6055);
    ("SIGIL_ERROR__PROTOCOL_CAPS_MISMATCH", 6056);
    ("SIGIL_ERROR__ACTIVE_ESCROWS_EXIST", 6057);
    ("SIGIL_ERROR__CONSTRAINTS_NOT_CLOSED", 6058);
    ("SIGIL_ERROR__PENDING_POLICY_EXISTS", 6059) ].

Definition SIGIL_ERROR_CODES_3 : list (string * Z) :=
  [ ("SIGIL_ERROR__AGENT_PAUSED", 6060);
    ("SIGIL_ERROR__AGENT_ALREADY_PAUSED", 6061);
    ("SIGIL_ERROR__AGENT_NOT_PAUSED", 6062);
    ("SIGIL_ERROR__UNAUTHORIZED_POST_FINALIZE_INSTRUCTION", 6063);
    ("SIGIL_ERROR__UNEXPECTED_BALANCE_DECREASE", 6064);
    ("SIGIL_ERROR__TIMELOCK_TOO_SHORT", 6065);
    ("SIGIL_ERROR__POLICY_VERSION_MISMATCH", 6066);
    ("SIGIL_ERROR__ACTIVE_SESSIONS_EXIST", 6067);
    ("SIGIL_ERROR__POST_ASSERTION_FAILED", 6068);
    ("SIGIL_ERROR__INVALID_POST_ASSERTION_INDEX", 6069);
    ("SIGIL_ERROR__UNAUTHORIZED_PRE_VALIDATE_INSTRUCTION", 6070);
    ("SIGIL_ERROR__SNAPSHOT_NOT_CAPTURED", 6071);
    ("SIGIL_ERROR__INVALID_CONSTRAINT_OPERATOR", 6072);
    ("SIGIL_ERROR__CONSTRAINTS_VAULT_MISMATCH", 6073);
    ("SIGIL_ERROR__BLOCKED_SPL_OPCODE", 6074);
    ("SIGIL_ERROR__QUEUED_UPDATE_EXPIRED", 6075);
    ("SIGIL_ERROR__ACCOUNT_WRITABILITY_MISMATCH", 6076);
    ("SIGIL_ERROR__SYSVAR_SCAN_BOUND_EXCEEDED", 6077);
    ("SIGIL_ERROR__ASYNC_FULFILLMENT_NOT_PERMITTED", 6078);
    ("SIGIL_ERROR__CONSTRAINTS_ALREADY_POPULATED", 6079);
    ("SIGIL_ERROR__ORPHAN_PDA_WRONG_OWNER", 6080);
    ("SIGIL_ERROR__ORPHAN_PDA_POPULATED", 6081);
    ("SIGIL_ERROR__CONFIDENTIAL_TRANSFER_BLOCKED", 6082);
    ("SIGIL_ERROR__PERMANENT_DELEGATE_BLOCKED", 6083);
    ("SIGIL_ERROR__TRANSFER_HOOK_BLOCKED", 6084);
    ("SIGIL_ERROR__LAMPORT_DRAIN_BLOCKED", 6085);
    ("SIGIL_ERROR__BATCH_INSTRUCTION_BLOCKED", 6086);
    ("SIGIL_ERROR__INVALID_DESTINATION_MODE", 6087) ].

Definition SIGIL_ERROR_CODES : list (string * Z) := SIGIL_ERROR_CODES_1 ++ SIGIL_ERROR_CODES_2 ++ SIGIL_ERROR_CODES_3.

(** Keyed by the constants, in the order of the file. *)
Definition sigilErrorMessages : list (string * string) :=
  [ ("SIGIL_ERROR__ACCOUNT_WRITABILITY_MISMATCH", "Account writability flag does not match constraint requirement");
    ("SIGIL_ERROR__ACTIVE_ESCROWS_EXIST", "Cannot close vault with active escrow deposits");
    ("SIGIL_ERROR__ACTIVE_SESSIONS_EXIST", "Cannot close vault with active sessions (finalize pending sessions first)");
    ("SIGIL_ERROR__AGENT_ALREADY_PAUSED", "Agent is already paused");
    ("SIGIL_ERROR__AGENT_ALREADY_REGISTERED", "Agent already registered for this vault");
    ("SIGIL_ERROR__AGENT_IS_OWNER", "Invalid agent: agent cannot be the vault owner");
    ("SIGIL_ERROR__AGENT_NOT_PAUSED", "Agent is not paused");
    ("SIGIL_ERROR__AGENT_PAUSED", "Agent is paused and cannot execute actions");
    ("SIGIL_ERROR__AGENT_SLOT_NOT_FOUND", "Agent has per-agent spending limit but no overlay tracking slot");
    ("SIGIL_ERROR__AGENT_SPEND_LIMIT_EXCEEDED", "Agent rolling 24h spend exceeds per-agent spending limit");
    ("SIGIL_ERROR__ASYNC_FULFILLMENT_NOT_PERMITTED", "Async-fulfillment program is not permitted in V1 (Jupiter Perps, Drift, Drift JIT). Spending cannot be measured because keeper submits the actual transfer in a separate transaction after finalize_session returns.");
    ("SIGIL_ERROR__BATCH_INSTRUCTION_BLOCKED", "Token-2022 Batch instruction (opcode 255) is blocked outright — wraps inner instructions and bypasses byte-0 blocklist");
    ("SIGIL_ERROR__BLOCKED_SPL_OPCODE", "SPL opcode is blocked at runtime and cannot be used in constraints");
    ("SIGIL_ERROR__CONFIDENTIAL_TRANSFER_BLOCKED", "Token-2022 ConfidentialTransfer not permitted between validate and finalize");
    ("SIGIL_ERROR__CONSTRAINTS_ALREADY_POPULATED", "Cannot clean an active constraints PDA; use queue+apply_close_constraints");
    ("SIGIL_ERROR__CONSTRAINTS_NOT_CLOSED", "Instruction constraints must be closed before closing vault");
    ("SIGIL_ERROR__CONSTRAINTS_VAULT_MISMATCH", "Zero-copy constraints account has wrong vault");
    ("SIGIL_ERROR__CONSTRAINT_VIOLATED", "Instruction constraint violated");
    ("SIGIL_ERROR__CPI_CALL_NOT_ALLOWED", "Instruction must be top-level (CPI calls not allowed)");
    ("SIGIL_ERROR__DESTINATION_NOT_ALLOWED", "Destination not in allowed list");
    ("SIGIL_ERROR__DEVELOPER_FEE_TOO_HIGH", "Developer fee rate exceeds maximum (500 / 1,000,000 = 5 BPS)");
    ("SIGIL_ERROR__ESCROW_CONDITIONS_NOT_MET", "Escrow conditions not met");
    ("SIGIL_ERROR__ESCROW_DURATION_EXCEEDED", "Escrow duration exceeds maximum (30 days)");
    ("SIGIL_ERROR__ESCROW_EXPIRED", "Escrow has expired");
    ("SIGIL_ERROR__ESCROW_NOT_ACTIVE", "Escrow is not in Active status");
    ("SIGIL_ERROR__ESCROW_NOT_EXPIRED", "Escrow has not expired yet");
    ("SIGIL_ERROR__INSUFFICIENT_BALANCE", "Insufficient vault balance for withdrawal");
    ("SIGIL_ERROR__INSUFFICIENT_PERMISSIONS", "Agent lacks permission for this action type");
    ("SIGIL_ERROR__INVALID_AGENT_KEY", "Invalid agent: cannot be the zero address");
    ("SIGIL_ERROR__INVALID_CONSTRAINT_CONFIG", "Invalid constraint configuration: bounds exceeded");
    ("SIGIL_ERROR__INVALID_CONSTRAINT_OPERATOR", "Constraint operator value is not a valid ConstraintOperator discriminant");
    ("SIGIL_ERROR__INVALID_CONSTRAINTS_PDA", "Invalid constraints PDA: wrong owner or vault");
    ("SIGIL_ERROR__INVALID_DESTINATION_MODE", "Invalid destination mode (must be 0 = Restricted or 1 = OpenWithCap)");
    ("SIGIL_ERROR__INVALID_ESCROW_VAULT", "Invalid escrow vault");
    ("SIGIL_ERROR__INVALID_FEE_DESTINATION", "Fee destination account invalid");
    ("SIGIL_ERROR__INVALID_JUPITER_INSTRUCTION", "Cannot parse Jupiter swap instruction data");
    ("SIGIL_ERROR__INVALID_PENDING_CONSTRAINTS_PDA", "Invalid pending constraints PDA: wrong owner or vault");
    ("SIGIL_ERROR__INVALID_PERMISSIONS", "Permission bitmask contains invalid bits");
    ("SIGIL_ERROR__INVALID_POST_ASSERTION_INDEX", "Post-assertion constraint references invalid instruction index");
    ("SIGIL_ERROR__INVALID_PROTOCOL_MODE", "Invalid protocol mode (must be 0, 1, or 2)");
    ("SIGIL_ERROR__INVALID_PROTOCOL_TREASURY", "Protocol treasury account does not match expected address");
    ("SIGIL_ERROR__INVALID_SESSION", "Invalid session: does not belong to this vault");
    ("SIGIL_ERROR__INVALID_SESSION_EXPIRY", "Session expiry slots out of range (10-450)");
    ("SIGIL_ERROR__INVALID_TOKEN_ACCOUNT", "Token account does not belong to vault or has wrong mint");
    ("SIGIL_ERROR__LAMPORT_DRAIN_BLOCKED", "Token-2022 destructive-balance ix (opcodes 38/45/46) not permitted between validate and finalize");
    ("SIGIL_ERROR__MAX_AGENTS_REACHED", "Maximum agents per vault reached (limit: 10)");
    ("SIGIL_ERROR__MISSING_FINALIZE_INSTRUCTION", "Transaction must include finalize_session after validate");
    ("SIGIL_ERROR__NO_AGENT_REGISTERED", "No agent registered for this vault");
    ("SIGIL_ERROR__NON_TRACKED_SWAP_MUST_RETURN_STABLECOIN", "Non-stablecoin swap must return stablecoin (balance did not increase)");
    ("SIGIL_ERROR__NO_TIMELOCK_CONFIGURED", "No timelock configured on this vault");
    ("SIGIL_ERROR__ORPHAN_PDA_POPULATED", "PDA is fully populated; not an orphan");
    ("SIGIL_ERROR__ORPHAN_PDA_WRONG_OWNER", "PDA at constraints seeds is not program-owned");
    ("SIGIL_ERROR__OVERFLOW", "Arithmetic overflow");
    ("SIGIL_ERROR__OVERLAY_SLOT_EXHAUSTED", "Per-agent overlay is full; cannot register agent with spending limit");
    ("SIGIL_ERROR__PENDING_POLICY_EXISTS", "Pending policy update must be applied or cancelled before closing vault");
    ("SIGIL_ERROR__PERMANENT_DELEGATE_BLOCKED", "Token-2022 PermanentDelegate not permitted between validate and finalize");
    ("SIGIL_ERROR__POLICY_VERSION_MISMATCH", "Policy version mismatch — policy changed since agent's last RPC read");
    ("SIGIL_ERROR__POST_ASSERTION_FAILED", "Post-execution assertion failed: account state did not satisfy constraint");
    ("SIGIL_ERROR__PROTOCOL_CAP_EXCEEDED", "Per-protocol rolling 24h spending cap would be exceeded");
    ("SIGIL_ERROR__PROTOCOL_CAPS_MISMATCH", "protocol_caps length must match protocols length when has_protocol_caps is true");
    ("SIGIL_ERROR__PROTOCOL_MISMATCH", "DeFi instruction program does not match declared target_protocol");
    ("SIGIL_ERROR__PROTOCOL_NOT_ALLOWED", "Protocol not allowed by policy");
    ("SIGIL_ERROR__QUEUED_UPDATE_EXPIRED", "Queued update is too old (>MAX_APPLY_AGE_SLOTS) — re-queue to apply. Defends against durable-nonce pre-signing.");
    ("SIGIL_ERROR__SESSION_NOT_AUTHORIZED", "Session not authorized");
    ("SIGIL_ERROR__SLIPPAGE_BPS_TOO_HIGH", "Slippage BPS exceeds maximum (5000 = 50%)");
    ("SIGIL_ERROR__SNAPSHOT_NOT_CAPTURED", "Delta assertion snapshot was not captured in validate_and_authorize");
    ("SIGIL_ERROR__SPENDING_CAP_EXCEEDED", "Rolling 24h spending cap would be exceeded");
    ("SIGIL_ERROR__SWAP_SLIPPAGE_EXCEEDED", "Swap slippage exceeds policy max_slippage_bps or quoted output is zero");
    ("SIGIL_ERROR__SYSVAR_SCAN_BOUND_EXCEEDED", "Sysvar instruction scan exceeded the per-tx safety bound");
    ("SIGIL_ERROR__TIMELOCK_NOT_EXPIRED", "Timelock period has not expired yet");
    ("SIGIL_ERROR__TIMELOCK_TOO_SHORT", "Timelock duration below minimum (1800 seconds / 30 minutes)");
    ("SIGIL_ERROR__TOO_MANY_ALLOWED_PROTOCOLS", "Policy configuration invalid: too many allowed protocols");
    ("SIGIL_ERROR__TOO_MANY_DE_FI_INSTRUCTIONS", "Spending allows at most one DeFi instruction");
    ("SIGIL_ERROR__TOO_MANY_DESTINATIONS", "Too many destinations (max 10)");
    ("SIGIL_ERROR__TRANSACTION_TOO_LARGE", "Transaction exceeds maximum single transaction size");
    ("SIGIL_ERROR__TRANSFER_HOOK_BLOCKED", "Token-2022 TransferHook not permitted between validate and finalize");
    ("SIGIL_ERROR__UNAUTHORIZED_AGENT", "Unauthorized: signer is not the registered agent");
    ("SIGIL_ERROR__UNAUTHORIZED_OWNER", "Unauthorized: signer is not the vault owner");
    ("SIGIL_ERROR__UNAUTHORIZED_POST_FINALIZE_INSTRUCTION", "Instructions after finalize_session must be ComputeBudget or SystemProgram only");
    ("SIGIL_ERROR__UNAUTHORIZED_PRE_VALIDATE_INSTRUCTION", "Non-infrastructure instruction detected before validate_and_authorize");
    ("SIGIL_ERROR__UNAUTHORIZED_TOKEN_APPROVAL", "Unauthorized SPL Token Approve between validate and finalize");
    ("SIGIL_ERROR__UNAUTHORIZED_TOKEN_TRANSFER", "Top-level SPL Token transfer not allowed between validate and finalize");
    ("SIGIL_ERROR__UNCONSTRAINED_PROGRAM_BLOCKED", "Program has no constraint entry and strict mode is enabled");
    ("SIGIL_ERROR__UNEXPECTED_BALANCE_DECREASE", "Vault balance decreased more than delegated amount — potential CPI attack");
    ("SIGIL_ERROR__UNSUPPORTED_TOKEN", "Token is not a supported stablecoin (only USDC and USDT)");
    ("SIGIL_ERROR__VAULT_ALREADY_CLOSED", "Vault is already closed");
    ("SIGIL_ERROR__VAULT_NOT_ACTIVE", "Vault is not active");
    ("SIGIL_ERROR__VAULT_NOT_FROZEN", "Vault is not frozen (expected frozen for reactivation)") ].

(** In production the messages are not loaded. An unknown code reads [undefined]. *)
Definition getSigilErrorMessage (production : bool) (code : Z) : option string :=
  if production then Some "Error message not available in production bundles."
  else
    c ← find_by (fun c => c.2 =? code) SIGIL_ERROR_CODES;
    jm_get c.1 sigilErrorMessages.
