(* ===== verification/AgentErrors.v ===== *)
(** * Errors for agents and for the dashboard ([agent-errors.ts], [dashboard/errors.ts])

    What the error handling looks at of a thrown value (objects live in a heap, so a cause
    chain or an aggregate may be cyclic; getters that throw and proxies are in ErrorChains);
    the conversion to a structured error, to the dashboard's numeric code and to its
    category; and what it promises. *)

From S2P Require Import Prelude Types Accounts JsText ErrorTables.
Local Open Scope string_scope.
Local Open Scope Z_scope.
Local Open Scope list_scope.

(** A property's value; numbers are integers. *)
Inductive js_prop :=
  | PStr (s : string)
  | PNum (z : Z)
  | PBig (z : Z)
  | POther (typeof : string).

#[export] Instance js_prop_eq_dec : EqDecision js_prop.
Proof. solve_decision. Defined.

(** [undefined] and [null], primitives, or a reference to an object. *)
Inductive js_value :=
  | VUndefined
  | VNull
  | VStr (s : string)
  | VNum (z : Z)
  | VBig (z : Z)
  | VPrim (text : string)       (* a boolean or a symbol *)
  | VRef (id : nat).

#[export] Instance js_value_eq_dec : EqDecision js_value.
Proof. solve_decision. Defined.

Inductive error_class :=
  | PlainObject | ErrorClass | TypeErrorClass | DOMExceptionClass | AggregateErrorClass
  | SigilErrorClass.

#[export] Instance error_class_eq_dec : EqDecision error_class.
Proof. solve_decision. Defined.

(** [instanceof Error]; a [DOMException] is one in the runtimes that have it. *)
Definition is_Error (c : error_class) : bool :=
  match c with PlainObject => false | _ => true end.

Abbreviation context := (jsmap js_prop).

(** The properties of an [AgentError] besides its code and message, each of its type. *)
Record agent_rest := mkRest {
  ar_category : ErrorCategory;
  ar_retryable : bool;
  ar_retry_after_ms : option Z;
  ar_recovery_actions : list RecoveryAction;
  ar_context : context;
}.

Record error_obj := mkErrorObj {
  eo_class : error_class;
  eo_name : option js_prop;          (* [None] is [undefined] *)
  eo_message : option js_prop;
  eo_code : option js_prop;
  eo_statusCode : option js_prop;
  eo_status : option js_prop;
  eo_cause : js_value;
  eo_errors : option (list js_value);        (* of an [AggregateError] *)
  eo_anchorNumber : option js_prop;          (* [error.errorCode.number] *)
  eo_rest : option agent_rest;
  eo_text : string;                          (* [String(error)] *)
}.

Abbreviation heap := (nat -> error_obj).

Definition VFalsy (v : js_value) : bool :=
  match v with
  | VUndefined | VNull => true
  | VStr s => bool_decide (s = "")
  | VNum z | VBig z => z =? 0
  | VPrim t => bool_decide (t = "false")
  | VRef _ => false
  end.

Definition includes (s sub : string) : bool :=
  match String.index 0 sub s with Some _ => true | None => false end.

(** * From a thrown value to a structured error *)

Record AgentError := mkAgentError {
  ag_code : string;
  ag_message : string;
  ag_category : ErrorCategory;
  ag_retryable : bool;
  ag_retry_after_ms : option Z;
  ag_recovery_actions : list RecoveryAction;
  ag_context : context;
}.

(** ** Reading a thrown value *)
Definition isAgentError (h : heap) (value : js_value) : option AgentError :=
  match value with
  | VRef i =>
      match eo_code (h i), eo_message (h i), eo_rest (h i) with
      | Some (PStr code), Some (PStr message), Some r =>
          Some (mkAgentError code message (ar_category r) (ar_retryable r) (ar_retry_after_ms r)
                  (ar_recovery_actions r) (ar_context r))
      | _, _, _ => None
      end
  | _ => None
  end.

(** The digits behind the first ["custom program error: 0x"] that has any. *)
Definition is_hex (c : Ascii.ascii) : bool :=
  is_digit c || in_range 97 102 c || in_range 65 70 c.

Fixpoint starts_with (p s : chars) : option chars :=
  match p, s with
  | [], _ => Some s
  | c :: p', d :: s' => if bool_decide (c = d) then starts_with p' s' else None
  | _ :: _, [] => None
  end.

Definition CUSTOM_ERROR_PREFIX : chars := String.list_ascii_of_string "custom program error: 0x".

Fixpoint custom_error_digits (s : chars) : option chars :=
  match starts_with CUSTOM_ERROR_PREFIX s with
  | Some rest =>
      match (span is_hex rest).1 with
      | [] => match s with [] => None | _ :: s' => custom_error_digits s' end
      | ds => Some ds
      end
  | None => match s with [] => None | _ :: s' => custom_error_digits s' end
  end.

Definition hex_value (ds : chars) : Z := fold_left (fun v c => v * 16 + digit_val c) ds 0.

Definition in_codes (lo hi code : Z) : bool := (code >=? lo) && (code <=? hi).

Definition extractErrorCode (h : heap) (error : js_value) : option Z :=
  match error with
  | VRef i =>
      let e := h i in
      let from_message :=
        match eo_message e with
        | Some (PStr m) =>
            ds ← custom_error_digits (String.list_ascii_of_string m);
            let code := hex_value ds in
            if in_codes 6000 6087 code then Some code else None
        | _ => None
        end in
      let from_anchor :=
        match eo_anchorNumber e with Some (PNum n) => Some n | _ => from_message end in
      match eo_code e with
      | Some (PNum c) => if in_codes 6000 6087 c then Some c else from_anchor
      | _ => from_anchor
      end
  | _ => None
  end.

Definition extractSdkCode (h : heap) (error : js_value) : option Z :=
  match error with
  | VRef i => match eo_code (h i) with
              | Some (PNum c) => if in_codes 7000 7033 c then Some c else None
              | _ => None
              end
  | _ => None
  end.

(** [String(value)] of a primitive. *)
Definition primitive_text (v : js_value) : string :=
  match v with
  | VUndefined => "undefined" | VNull => "null" | VStr s => s
  | VNum z | VBig z => pretty z | VPrim t => t | VRef _ => ""
  end.

(** An [Error] without a message of its own has the empty one. *)
Definition extractMessage (h : heap) (error : js_value) : string :=
  if VFalsy error then ""
  else match error with
       | VRef i =>
           match eo_message (h i) with
           | Some (PStr m) => m
           | None => if is_Error (eo_class (h i)) then "" else eo_text (h i)
           | Some _ => eo_text (h i)
           end
       | _ => primitive_text error
       end.

(** ** [toAgentError] *)
Fixpoint zmap_get {V} (k : Z) (m : list (Z * V)) : option V :=
  match m with
  | [] => None
  | (k', v) :: m' => if k' =? k then Some v else zmap_get k m'
  end.

Definition from_mapping (code : string) (m : ErrorMapping) (ctx : context) : AgentError :=
  mkAgentError code (em_message m) (em_category m) (em_retryable m) (em_retry_after_ms m)
    (em_recovery_actions m) ctx.

Definition fatal (code message : string) (ctx : context) : AgentError :=
  mkAgentError code message FATAL false None [] ctx.

(** Every name of [SDK_ERROR_CODES] and of the branches below has an entry
    ([AgentErrors.sdk_tables_complete]). *)
Definition sdk_mapping (name : string) : ErrorMapping :=
  default (mkMapping "" "" FATAL false None []) (jm_get name SDK_ERRORS).

Definition fromSdkMapping (code : string) (ctx : context) (originalMessage : string) : AgentError :=
  let mapping := sdk_mapping code in
  from_mapping code mapping
    (jm_set "original_message" (PStr originalMessage)
       (jm_set "error_name" (PStr (em_name mapping)) ctx)).

Definition onChainError (onChainCode : Z) (ctx : context) : AgentError :=
  match zmap_get onChainCode ON_CHAIN_ERROR_MAP with
  | Some mapping =>
      from_mapping (pretty onChainCode) mapping
        (jm_set "on_chain_code" (PNum onChainCode)
           (jm_set "error_name" (PStr (em_name mapping)) ctx))
  | None =>
      fatal (pretty onChainCode) ("Unknown on-chain error code " +:+ pretty onChainCode)
        (jm_set "on_chain_code" (PNum onChainCode) ctx)
  end.

(** The classification by message. *)
Definition message_error (message : string) (ctx : context) : AgentError :=
  let has := includes message in
  if has "429" || has "rate limit" then fromSdkMapping "RPC_ERROR" ctx message
  else if has "fetch" || has "ECONNREFUSED" || has "ETIMEDOUT" || has "network" then
    fromSdkMapping "NETWORK_ERROR" ctx message
  else if has "blockhash" && has "not found" then fromSdkMapping "EXECUTION_FAILED" ctx message
  else if has "simulation" || has "SimulateTransaction" then
    fromSdkMapping "SIMULATION_FAILED" ctx message
  else if has "Precheck failed" then fromSdkMapping "PRECHECK_FAILED" ctx message
  else if has "adapter" && has "verif" then fromSdkMapping "ADAPTER_VERIFICATION_FAILED" ctx message
  else
    fatal "UNKNOWN" (if bool_decide (message = "") then "An unknown error occurred" else message)
      (jm_set "original_error" (PStr message) ctx).

Definition toAgentError (h : heap) (error : js_value) (extraContext : context) : AgentError :=
  match isAgentError h error with
  | Some a => a
  | None =>
      match extractErrorCode h error with
      | Some onChainCode => onChainError onChainCode extraContext
      | None =>
          match (c ← extractSdkCode h error; name ← zmap_get c SDK_ERROR_CODES; Some (c, name)) with
          | Some (c, name) =>
              let mapping := sdk_mapping name in
              from_mapping name mapping
                (jm_set "sdk_code" (PNum c)
                   (jm_set "error_name" (PStr (em_name mapping)) extraContext))
          | None => message_error (extractMessage h error) extraContext
          end
      end
  end.

(** ** The other conversions *)
Record Escalation := mkEscalation {
  es_message : string;
  es_requiredActions : list string;
  es_alternatives : nat;            (* how many *)
}.

Definition protocolEscalationError (e : Escalation) : AgentError :=
  mkAgentError "PROTOCOL_ESCALATION" (es_message e) ESCALATION_REQUIRED false None
    ([mkAction "escalate_to_human" ("TELL THE USER: " +:+ es_message e) None]
     ++ ((fun a => mkAction "required_vault_change" a None) <$> es_requiredActions e)
     ++ (if (0 <? es_alternatives e)%nat then
           [mkAction "suggest_alternatives_secondary"
              ("ONLY IF USER AGREES TO SWITCH: " +:+ pretty (es_alternatives e)
               +:+ " alternative(s) available") None]
         else []))
    [("required_actions", POther "object"); ("alternatives", POther "object");
     ("IMPORTANT", PStr "Do NOT silently switch to an alternative protocol. The user explicitly requested this protocol.")].

(** [parseInt(text, radix)]: white space, a sign, then the longest run of digits. *)
Definition parse_int (radix : Z) (s : chars) : option Z :=
  let t := snd (span is_space s) in
  let '(sign, t) :=
    match t with
    | c :: t' => if code c =? 45 then (-1, t') else if code c =? 43 then (1, t') else (1, t)
    | [] => (1, [])
    end in
  let t := if radix =? 16 then
             match t with
             | z :: x :: t' => if (code z =? 48) && ((code x =? 120) || (code x =? 88)) then t' else t
             | _ => t
             end
           else t in
  match (span (fun c => digit_val c <? radix) t).1 with
  | [] => None
  | ds => Some (sign * fold_left (fun v c => v * radix + digit_val c) ds 0)
  end.

Inductive code_input := CodeNum (n : option Z) | CodeText (s : string).   (* [None] is [NaN] *)

Definition parse_code (codeOrHex : code_input) : option Z :=
  match codeOrHex with
  | CodeNum n => n
  | CodeText s =>
      if String.prefix "0x" s || String.prefix "0X" s then parse_int 16 (String.list_ascii_of_string s)
      else parse_int 10 (String.list_ascii_of_string s)
  end.

Definition parseOnChainErrorCode (codeOrHex : code_input) : option AgentError :=
  code ← parse_code codeOrHex;
  mapping ← zmap_get code ON_CHAIN_ERROR_MAP;
  Some (from_mapping (pretty code) mapping
          (jm_set "on_chain_code" (PNum code) (jm_set "error_name" (PStr (em_name mapping)) []))).

Definition getAllOnChainErrorCodes : list Z := sort_by id ON_CHAIN_ERROR_MAP.*1.
Definition getAllSdkErrorCodes : list (Z * string) := sort_by fst SDK_ERROR_CODES.

(** ** Typed categories *)
Inductive category_type := spending_type | permission_type | protocol_type | vault_type | network_type.

Definition CATEGORY_TYPE_MAP (c : ErrorCategory) : category_type :=
  match c with
  | SPENDING_CAP => spending_type
  | PERMISSION => permission_type
  | PROTOCOL_NOT_SUPPORTED => protocol_type
  | RESOURCE_NOT_FOUND => vault_type
  | INPUT_VALIDATION => vault_type
  | POLICY_VIOLATION => permission_type
  | ESCALATION_REQUIRED => permission_type
  | TRANSIENT => network_type
  | RATE_LIMIT => network_type
  | FATAL => network_type
  end.

Inductive SigilErrorCategory :=
  | CatSpending (code remaining cap : Z)
  | CatPermission (code : Z) (required : string)
  | CatProtocol (code : Z) (protocol : string)
  | CatVault (code : Z) (status : string)
  | CatNetwork (code : Z) (retryable : bool).

Definition safeBigInt (value : option js_prop) : Z :=
  match value with
  | Some (PBig z) | Some (PNum z) => z
  | Some (PStr s) => default 0 (js_BigInt s)
  | _ => 0
  end.

(** A context text, or a default; a value that is no string is shown as its type. *)
Definition context_text (ctx : context) (key dflt : string) : string :=
  match jm_get key ctx with
  | Some (PStr s) => s
  | Some (PNum z) | Some (PBig z) => pretty z
  | Some (POther t) => t
  | None => dflt
  end.

Definition categorizeError (err : AgentError) : SigilErrorCategory :=
  let code := default 0 (parse_int 10 (String.list_ascii_of_string (ag_code err))) in
  match CATEGORY_TYPE_MAP (ag_category err) with
  | spending_type => CatSpending code (safeBigInt (jm_get "remaining" (ag_context err)))
                       (safeBigInt (jm_get "cap" (ag_context err)))
  | permission_type => CatPermission code
                         (context_text (ag_context err) "required_permission" (ag_message err))
  | protocol_type => CatProtocol code (context_text (ag_context err) "protocol" "unknown")
  | vault_type => CatVault code (context_text (ag_context err) "vault_status" (ag_message err))
  | network_type => CatNetwork code (ag_retryable err)
  end.

(** ** [toSigilAgentError]: the patterns of the SDK's own messages *)
Fixpoint after_gap (k : chars -> bool) (s : chars) : bool :=
  match s with
  | [] => false
  | c :: s' => if (code c =? 10) || (code c =? 13) then false else k s' || after_gap k s'
  end.

Fixpoint pieces_at (pieces : list string) (s : chars) : bool :=
  match pieces with
  | [] => true
  | p :: pieces' =>
      match starts_with (String.list_ascii_of_string p) s with
      | None => false
      | Some rest => match pieces' with [] => true | _ => after_gap (pieces_at pieces') rest end
      end
  end.

Fixpoint somewhere (k : chars -> bool) (s : chars) : bool :=
  k s || match s with [] => false | _ :: s' => somewhere k s' end.

Definition pattern_test (p : SdkErrorPattern) (message : string) : bool :=
  somewhere (pieces_at (sp_pieces p)) (String.list_ascii_of_string message).

(** [SDK_${category}] *)
Definition category_code (c : ErrorCategory) : string :=
  "SDK_" +:+ match c with
             | INPUT_VALIDATION => "INPUT_VALIDATION" | TRANSIENT => "TRANSIENT"
             | RATE_LIMIT => "RATE_LIMIT" | PERMISSION => "PERMISSION"
             | RESOURCE_NOT_FOUND => "RESOURCE_NOT_FOUND" | SPENDING_CAP => "SPENDING_CAP"
             | POLICY_VIOLATION => "POLICY_VIOLATION"
             | PROTOCOL_NOT_SUPPORTED => "PROTOCOL_NOT_SUPPORTED"
             | ESCALATION_REQUIRED => "ESCALATION_REQUIRED" | FATAL => "FATAL"
             end.

(** [err instanceof Error ? err.message : String(err)] *)
Definition thrown_message (h : heap) (err : js_value) : string :=
  match err with
  | VRef i =>
      if is_Error (eo_class (h i)) then
        match eo_message (h i) with
        | Some (PStr m) => m | None => "" | Some _ => eo_text (h i) end
      else eo_text (h i)
  | _ => primitive_text err
  end.

Definition toSigilAgentError (h : heap) (err : js_value) : AgentError :=
  let onChain := toAgentError h err [] in
  if negb (bool_decide (ag_code onChain = "UNKNOWN")) then onChain
  else
    let message := thrown_message h err in
    match find_by (fun p => pattern_test p message) SDK_ERROR_PATTERNS with
    | Some p => mkAgentError (category_code (sp_category p)) message (sp_category p) (sp_retryable p)
                  None (sp_recovery_actions p) []
    | None => fatal "UNKNOWN" message []
    end.

(** ** The dashboard's errors *)
Definition DX_ERROR_CODE_UNMAPPED : Z := 7999.

(** Names of SDK errors, then the canonical codes. *)
Definition SDK_CODE_BY_NAME : jsmap Z :=
  ((fun cn => (cn.2, cn.1)) <$> SDK_ERROR_CODES) ++ SIGIL_ERROR_TO_NUMERIC.

(** [Number(text)] for the texts of integers; a fraction or an exponent is no code. *)
Definition resolveDxCode (rawCode : string) : Z :=
  match jm_get rawCode SDK_CODE_BY_NAME with
  | Some named => named
  | None => default DX_ERROR_CODE_UNMAPPED
              (if bool_decide (rawCode = "") then Some 0 else js_BigInt rawCode)
  end.

Definition ANCHOR_ERROR_MIN : Z := 6000.
Definition ANCHOR_ERROR_MAX : Z := 6074.
Definition SDK_ERROR_MIN : Z := 7000.
Definition SDK_ERROR_MAX : Z := 7099.
Definition NETWORK_ERROR_MIN : Z := 7100.
Definition NETWORK_ERROR_MAX : Z := 7199.

Definition isOnChainReverted (code : Z) : bool := in_codes ANCHOR_ERROR_MIN ANCHOR_ERROR_MAX code.

Inductive DxErrorCategory := dx_user | dx_network | dx_program | dx_unknown.
#[export] Instance DxErrorCategory_eq_dec : EqDecision DxErrorCategory.
Proof. solve_decision. Defined.

Definition categorizeDxError (code : Z) : DxErrorCategory :=
  if in_codes ANCHOR_ERROR_MIN ANCHOR_ERROR_MAX code then dx_program
  else if in_codes NETWORK_ERROR_MIN NETWORK_ERROR_MAX code then dx_network
  else if in_codes SDK_ERROR_MIN SDK_ERROR_MAX code then dx_user
  else dx_unknown.

Record DxError := mkDx {
  dx_code : Z;
  dx_message : string;
  dx_recovery : list string;
  dx_onChainReverted : bool;
}.

(** [toAgentError] does not throw on the values of this model, so the fallback branch has no
    case. *)
Definition toDxError (h : heap) (err : js_value) (ctx : option string) : DxError :=
  let agentErr := toAgentError h err [] in
  let code := resolveDxCode (ag_code agentErr) in
  mkDx code
    (match ctx with
     | Some c => if bool_decide (c = "") then ag_message agentErr
                 else c +:+ ": " +:+ ag_message agentErr
     | None => ag_message agentErr end)
    (ra_description <$> ag_recovery_actions agentErr) (isOnChainReverted code).

(** The codes [isSolanaError] tests for are in the library; [solana_not_found] stands for
    that test. *)
Definition isAccountNotFoundError (solana_not_found : bool) (h : heap) (err : js_value) : bool :=
  solana_not_found
  || (let message := match err with
                     | VRef i => if is_Error (eo_class (h i)) then thrown_message h err else ""
                     | _ => "" end in
      includes message "could not find" || includes message "Account does not exist").

(** * What the error conversion promises

    The tables against the program's enum, the dashboard's numeric codes and categories, and
    the order of an escalation's recovery actions. *)

(** ** The tables *)

(** The names the conversion looks up in [SDK_ERRORS]. *)
Definition names_used : list string :=
  SDK_ERROR_CODES.*2
  ++ ["RPC_ERROR"; "NETWORK_ERROR"; "EXECUTION_FAILED"; "SIMULATION_FAILED"; "PRECHECK_FAILED";
      "ADAPTER_VERIFICATION_FAILED"].

Lemma sdk_tables_complete :
  Forall (fun name => exists m, jm_get name SDK_ERRORS = Some m) names_used.
Proof.
  assert (forallb (fun name => bool_decide (is_Some (jm_get name SDK_ERRORS))) names_used = true) as H
    by (vm_compute; reflexivity).
  apply Forall_forall. intros name Hin. apply list_elem_of_In in Hin.
  rewrite forallb_forall in H. specialize (H _ Hin).
  apply bool_decide_eq_true in H. exact H.
Qed.

(** The n-th variant of [SigilError] has the code 6000 + n, and the entry of that code carries
    the variant's name; no entry more, no code twice, no variant without one. *)
Lemma error_table_is_enum :
  ((fun cm => (cm.1, em_name cm.2)) <$> ON_CHAIN_ERROR_MAP)
  = imap (fun i name => (6000 + Z.of_nat i, name)) PROGRAM_ERRORS.
Proof. vm_compute. reflexivity. Qed.

Lemma program_error_entry i name :
  PROGRAM_ERRORS !! i = Some name ->
  exists m, zmap_get (6000 + Z.of_nat i) ON_CHAIN_ERROR_MAP = Some m /\ em_name m = name.
Proof.
  intros Hi.
  assert (H : forallb (fun i => bool_decide
      (em_name <$> zmap_get (6000 + Z.of_nat i) ON_CHAIN_ERROR_MAP = PROGRAM_ERRORS !! i))
      (seq 0 (length PROGRAM_ERRORS)) = true) by (vm_compute; reflexivity).
  rewrite forallb_forall in H. specialize (H i).
  rewrite bool_decide_eq_true, Hi in H. apply fmap_Some in H; [by destruct H as (m & ? & ->); eauto|].
  apply in_seq. apply lookup_lt_Some in Hi. lia.
Qed.

(** an error that carries the program's code 6000 + n is reported as the program's n-th
    error: [toAgentError] gives it the code's decimal text, the program's name for it and the
    code in the context, whatever its message; the SDK's table has the program's 88 variants in
    order and nothing else. *)
Theorem program_error_named (h : heap) (err : js_value) (ctx : context) (i : nat) (name : string)
    (Hnot : isAgentError h err = None) (Hcode : extractErrorCode h err = Some (6000 + Z.of_nat i))
    (Hname : PROGRAM_ERRORS !! i = Some name) :
  let a := toAgentError h err ctx in
  ag_code a = pretty (6000 + Z.of_nat i) /\
  jm_get "error_name" (ag_context a) = Some (PStr name) /\
  jm_get "on_chain_code" (ag_context a) = Some (PNum (6000 + Z.of_nat i)) /\
  ((fun cm => (cm.1, em_name cm.2)) <$> ON_CHAIN_ERROR_MAP)
  = imap (fun j n => (6000 + Z.of_nat j, n)) PROGRAM_ERRORS.
Proof.
  destruct (program_error_entry i name Hname) as (m & Hm & <-).
  unfold toAgentError, onChainError. rewrite Hnot, Hcode, Hm. cbn -[pretty jm_set jm_get].
  split_and!; [done| |by rewrite jm_get_set_eq|exact error_table_is_enum].
  by rewrite jm_get_set_ne, jm_get_set_eq.
Qed.

(** ** The dashboard's codes *)
Lemma jm_get_In {V} k v (m : jsmap V) : jm_get k m = Some v -> In (k, v) m.
Proof.
  induction m as [|[k' v'] m IH]; simpl; [done|]. case_decide; intros Hk; [left; congruence|right; auto].
Qed.

(** No name is the text of an integer, so a decimal code is never taken for a name. *)
Lemma resolve_decimal (z : Z) : resolveDxCode (pretty z) = z.
Proof.
  unfold resolveDxCode. destruct (jm_get (pretty z) SDK_CODE_BY_NAME) as [v|] eqn:E.
  - apply jm_get_In in E.
    assert (H : forallb (fun kv => bool_decide (js_BigInt kv.1 = None)) SDK_CODE_BY_NAME = true)
      by (vm_compute; reflexivity).
    rewrite forallb_forall in H. specialize (H _ E). rewrite bool_decide_eq_true in H.
    cbn [fst] in H. by rewrite js_BigInt_pretty in H.
  - case_bool_decide as Hz; [|by rewrite js_BigInt_pretty].
    pose proof (js_BigInt_pretty z) as Hp. rewrite Hz in Hp. by injection Hp as <-.
Qed.

Lemma message_error_code message ctx :
  In (ag_code (message_error message ctx)) ("UNKNOWN" :: names_used).
Proof.
  unfold message_error, fromSdkMapping, from_mapping, fatal.
  repeat case_match; cbn [ag_code]; vm_compute; tauto.
Qed.

Lemma zmap_get_In {V} k v (m : list (Z * V)) : zmap_get k m = Some v -> In v m.*2.
Proof.
  induction m as [|[k' v'] m IH]; simpl; [done|]. case_match; intros Hk; [left; congruence|right; auto].
Qed.

Lemma toAgentError_code h err ctx :
  isAgentError h err = None -> extractErrorCode h err = None ->
  In (ag_code (toAgentError h err ctx)) ("UNKNOWN" :: names_used).
Proof.
  intros Hn Hc. unfold toAgentError. rewrite Hn, Hc.
  destruct (extractSdkCode h err) as [c|]; [|apply message_error_code]. cbn [mbind option_bind].
  destruct (zmap_get c SDK_ERROR_CODES) as [name|] eqn:E; [|apply message_error_code].
  unfold from_mapping. cbn [ag_code]. right. unfold names_used. apply in_or_app. left.
  by eapply zmap_get_In.
Qed.

Lemma names_resolve name :
  In name ("UNKNOWN" :: names_used) ->
  7000 <= resolveDxCode name <= 7033 \/ resolveDxCode name = DX_ERROR_CODE_UNMAPPED.
Proof.
  intros Hin.
  assert (H : forallb (fun n => in_codes 7000 7033 (resolveDxCode n)
      || (resolveDxCode n =? DX_ERROR_CODE_UNMAPPED)) ("UNKNOWN" :: names_used) = true)
    by (vm_compute; reflexivity).
  rewrite forallb_forall in H. specialize (H _ Hin). unfold in_codes in H. lia.
Qed.

(** the dashboard's numeric code. An on-chain code goes through unchanged, but counts as
    reverted by the program only up to 6074: the program's last thirteen errors (6075 to 6087)
    are shown as unknown and not reverted. Every other error that is not an [AgentError] gets
    one of the SDK's codes 7000 to 7033 or 7999, so no transport failure is ever categorised as
    a network error. *)
Theorem dx_error_classification (h : heap) (err : js_value) (ctx : option string)
    (Hnot : isAgentError h err = None) :
  let dx := toDxError h err ctx in
  match extractErrorCode h err with
  | Some c =>
      dx_code dx = c /\ (dx_onChainReverted dx = true <-> 6000 <= c <= 6074) /\
      (6075 <= c <= 6087 -> categorizeDxError (dx_code dx) = dx_unknown)
  | None =>
      (7000 <= dx_code dx <= 7033 /\ categorizeDxError (dx_code dx) = dx_user
       \/ dx_code dx = 7999 /\ categorizeDxError (dx_code dx) = dx_unknown) /\
      dx_onChainReverted dx = false
  end.
Proof.
  unfold toDxError. cbn zeta. cbn [dx_code dx_onChainReverted].
  destruct (extractErrorCode h err) as [c|] eqn:Hc.
  - assert (E : resolveDxCode (ag_code (toAgentError h err [])) = c).
    { unfold toAgentError, onChainError. rewrite Hnot, Hc. case_match; apply resolve_decimal. }
    rewrite E. unfold isOnChainReverted, categorizeDxError, in_codes, ANCHOR_ERROR_MIN,
      ANCHOR_ERROR_MAX, NETWORK_ERROR_MIN, NETWORK_ERROR_MAX, SDK_ERROR_MIN, SDK_ERROR_MAX.
    split_and!; [done|lia|]. intros Hr. repeat case_match; lia || done.
  - pose proof (names_resolve _ (toAgentError_code h err [] Hnot Hc)) as Hr.
    generalize dependent (resolveDxCode (ag_code (toAgentError h err []))). intros r Hr.
    unfold isOnChainReverted, categorizeDxError, in_codes, ANCHOR_ERROR_MIN,
      ANCHOR_ERROR_MAX, NETWORK_ERROR_MIN, NETWORK_ERROR_MAX, SDK_ERROR_MIN, SDK_ERROR_MAX,
      DX_ERROR_CODE_UNMAPPED in *.
    split; [|lia]. destruct Hr; [left|right]; (split; [lia|]); repeat case_match; lia || done.
Qed.

(** ** A thrown [SigilError] *)
Definition with_code (c : option js_prop) (e : error_obj) : error_obj :=
  mkErrorObj (eo_class e) (eo_name e) (eo_message e) c (eo_statusCode e) (eo_status e) (eo_cause e)
    (eo_errors e) (eo_anchorNumber e) (eo_rest e) (eo_text e).

(** the string code of a thrown [SigilError] never reaches the dashboard: the error object is
    converted as if it had no code. So when its message carries no on-chain code and matches no
    transport rule, it gets 7999, although [SIGIL_ERROR_TO_NUMERIC] lists a number for the code. *)
Theorem dx_ignores_sigil_codes (h : heap) (i : nat) (k : string) (n : Z) (ctx : option string)
    (Hk : jm_get k SIGIL_ERROR_TO_NUMERIC = Some n) (Hcode : eo_code (h i) = Some (PStr k))
    (Hrest : eo_rest (h i) = None) :
  let bare := fun j => if decide (j = i) then with_code None (h i) else h j in
  toDxError h (VRef i) ctx = toDxError bare (VRef i) ctx /\
  (extractErrorCode h (VRef i) = None ->
   ag_code (message_error (extractMessage h (VRef i)) []) = "UNKNOWN" ->
   dx_code (toDxError h (VRef i) ctx) = 7999 /\ resolveDxCode k = n).
Proof.
  set (bare := fun j => if decide (j = i) then with_code None (h i) else h j). cbn zeta.
  assert (Hb : bare i = with_code None (h i)) by (unfold bare; by rewrite decide_True).
  assert (E1 : isAgentError h (VRef i) = None)
    by (cbn; rewrite Hrest, Hcode; by destruct (eo_message (h i)) as [[]|]).
  assert (E3 : extractSdkCode h (VRef i) = None) by (cbn; by rewrite Hcode).
  split.
  - assert (E : toAgentError h (VRef i) [] = toAgentError bare (VRef i) []).
    { unfold toAgentError. rewrite E1, E3.
      cbn -[message_error onChainError]. rewrite Hb, Hcode. cbn -[message_error onChainError].
      done. }
    unfold toDxError. by rewrite E.
  - intros Hc Hm. split.
    + unfold toDxError, toAgentError. cbn [dx_code]. rewrite E1, Hc, E3.
      cbn [mbind option_bind]. rewrite Hm. vm_compute. reflexivity.
    + assert (H : forallb (fun kv => resolveDxCode kv.1 =? kv.2) SIGIL_ERROR_TO_NUMERIC = true)
        by (vm_compute; reflexivity).
      apply jm_get_In in Hk. rewrite forallb_forall in H. specialize (H _ Hk). by apply Z.eqb_eq in H.
Qed.

(** ** Concrete errors *)
Definition plain_error (class : error_class) (message : string) (code : option js_prop) : error_obj :=
  mkErrorObj class None (Some (PStr message)) code None None VUndefined None None None message.

Definition demo_error_heap : heap := fun i =>
  match i with
  | 0%nat => plain_error ErrorClass "failed to send: custom program error: 0x1770" None
  | 1%nat => plain_error ErrorClass "custom program error: 0x17C7" None
  | 2%nat => plain_error SigilErrorClass "denied by policy" (Some (PStr "SIGIL_ERROR__SHIELD__POLICY_DENIED"))
  | _ => plain_error TypeErrorClass "fetch failed" None
  end.

Lemma program_error_named_witness :
  let a := toAgentError demo_error_heap (VRef 0) [] in
  PROGRAM_ERRORS !! 0%nat = Some "VaultNotActive" /\
  (ag_code a = pretty (6000 + Z.of_nat 0) /\
   jm_get "error_name" (ag_context a) = Some (PStr "VaultNotActive") /\
   jm_get "on_chain_code" (ag_context a) = Some (PNum (6000 + Z.of_nat 0)) /\
   ((fun cm => (cm.1, em_name cm.2)) <$> ON_CHAIN_ERROR_MAP)
   = imap (fun j n => (6000 + Z.of_nat j, n)) PROGRAM_ERRORS).
Proof.
  split; [reflexivity|].
  exact (program_error_named demo_error_heap (VRef 0) [] 0 "VaultNotActive" eq_refl eq_refl eq_refl).
Defined.

Lemma dx_error_classification_witness :
  dx_code (toDxError demo_error_heap (VRef 1) None) = 6087 /\
  categorizeDxError (dx_code (toDxError demo_error_heap (VRef 1) None)) = dx_unknown.
Proof.
  pose proof (dx_error_classification demo_error_heap (VRef 1) None eq_refl) as H.
  change (extractErrorCode demo_error_heap (VRef 1)) with (Some 6087) in H.
  destruct H as (H1 & _ & H2). split; [exact H1|apply H2; lia].
Defined.

Lemma dx_ignores_sigil_codes_witness :
  dx_code (toDxError demo_error_heap (VRef 2) None) = 7999 /\
  resolveDxCode "SIGIL_ERROR__SHIELD__POLICY_DENIED" = 7015.
Proof.
  apply (dx_ignores_sigil_codes demo_error_heap 2 "SIGIL_ERROR__SHIELD__POLICY_DENIED" 7015 None);
    reflexivity.
Defined.

(** A failed fetch is shown as the user's error. *)
Example demo_fetch_is_user :
  categorizeDxError (dx_code (toDxError demo_error_heap (VRef 3) None)) = dx_user.
Proof. vm_compute. reflexivity. Qed.
