(* ===== verification/AnchorErrors.v ===== *)
(** * The Anchor errors of a failed simulation ([sdk/kit/src/simulation.ts])

    The table of names and suggestions, and what a failed simulation's logs say of the
    program's error: the name and number Anchor prints, or the hexadecimal code the runtime
    prints. A number is its exact value (the source's doubles are exact below 2^53; the
    program's codes have 32 bits). *)

From S2P Require Import Prelude Types Accounts JsText Inspector ErrorTables AgentErrors.
Local Open Scope string_scope.
Local Open Scope Z_scope.
Local Open Scope list_scope.

Record anchor_entry := mkAnchorEntry {
  an_name : string;
  an_suggestion : string;
}.

Definition ANCHOR_ERROR_MAP_1 : list (Z * anchor_entry) :=
  [ (6000, mkAnchorEntry "VaultNotActive"
       "Check vault status — must be Active.");
    (6001, mkAnchorEntry "UnauthorizedAgent"
       "Signer is not a registered agent.");
    (6002, mkAnchorEntry "UnauthorizedOwner"
       "Only the vault owner can call this.");
    (6003, mkAnchorEntry "UnsupportedToken"
       "Use USDC or USDT.");
    (6004, mkAnchorEntry "ProtocolNotAllowed"
       "Protocol not in vault's allowlist.");
    (6005, mkAnchorEntry "TransactionTooLarge"
       "Break into smaller parts.");
    (6006, mkAnchorEntry "SpendingCapExceeded"
       "Rolling 24h spending cap exceeded.");
    (6007, mkAnchorEntry "SessionNotAuthorized"
       "Call validate_and_authorize first.");
    (6008, mkAnchorEntry "InvalidSession"
       "Session does not belong to this vault.");
    (6009, mkAnchorEntry "TooManyAllowedProtocols"
       "Reduce allowed protocols (max 10).");
    (6010, mkAnchorEntry "AgentAlreadyRegistered"
       "Agent is already registered for this vault.");
    (6011, mkAnchorEntry "NoAgentRegistered"
       "Register an agent first.");
    (6012, mkAnchorEntry "VaultNotFrozen"
       "Vault must be frozen to reactivate.");
    (6013, mkAnchorEntry "VaultAlreadyClosed"
       "Vault is already closed.");
    (6014, mkAnchorEntry "InsufficientBalance"
       "Insufficient vault balance for withdrawal.");
    (6015, mkAnchorEntry "DeveloperFeeTooHigh"
       "Developer fee rate exceeds max (5 BPS).");
    (6016, mkAnchorEntry "InvalidFeeDestination"
       "Fee destination account invalid.");
    (6017, mkAnchorEntry "InvalidProtocolTreasury"
       "Protocol treasury does not match expected address.");
    (6018, mkAnchorEntry "InvalidAgentKey"
       "Agent cannot be the zero address.");
    (6019, mkAnchorEntry "AgentIsOwner"
       "Agent cannot be the vault owner.");
    (6020, mkAnchorEntry "Overflow"
       "Arithmetic overflow — amount too large.");
    (6021, mkAnchorEntry "InvalidTokenAccount"
       "Token account wrong owner or mint.");
    (6022, mkAnchorEntry "TimelockNotExpired"
       "Wait for timelock period to expire.");
    (6023, mkAnchorEntry "NoTimelockConfigured"
       "No timelock configured on this vault.");
    (6024, mkAnchorEntry "DestinationNotAllowed"
       "Destination not in allowed list.");
    (6025, mkAnchorEntry "TooManyDestinations"
       "Too many destinations (max 10).") ].

Definition ANCHOR_ERROR_MAP_2 : list (Z * anchor_entry) :=
  [ (6026, mkAnchorEntry "InvalidProtocolMode"
       "Protocol mode must be 0, 1, or 2.");
    (6027, mkAnchorEntry "CpiCallNotAllowed"
       "Must be top-level instruction (no CPI).");
    (6028, mkAnchorEntry "MissingFinalizeInstruction"
       "Include finalize_session in transaction.");
    (6029, mkAnchorEntry "NonTrackedSwapMustReturnStablecoin"
       "Non-stablecoin swap must return stablecoin.");
    (6030, mkAnchorEntry "SwapSlippageExceeded"
       "Slippage exceeds policy max_slippage_bps.");
    (6031, mkAnchorEntry "InvalidJupiterInstruction"
       "Cannot parse Jupiter swap instruction.");
    (6032, mkAnchorEntry "UnauthorizedTokenTransfer"
       "Top-level SPL Token transfer not allowed between validate and finalize.");
    (6033, mkAnchorEntry "SlippageBpsTooHigh"
       "Slippage BPS exceeds maximum (5000 = 50%).");
    (6034, mkAnchorEntry "ProtocolMismatch"
       "DeFi instruction program doesn't match declared target_protocol.");
    (6035, mkAnchorEntry "TooManyDeFiInstructions"
       "Non-stablecoin swap allows exactly one DeFi instruction.");
    (6036, mkAnchorEntry "MaxAgentsReached"
       "Remove an agent first (max 10).");
    (6037, mkAnchorEntry "InsufficientPermissions"
       "Agent lacks permission for this action type.");
    (6038, mkAnchorEntry "InvalidPermissions"
       "Permission bitmask contains invalid bits.");
    (6039, mkAnchorEntry "EscrowNotActive"
       "Escrow is not in Active status.");
    (6040, mkAnchorEntry "EscrowExpired"
       "Escrow has expired.");
    (6041, mkAnchorEntry "EscrowNotExpired"
       "Escrow has not expired yet — wait for expiry.");
    (6042, mkAnchorEntry "InvalidEscrowVault"
       "Invalid escrow vault.");
    (6043, mkAnchorEntry "EscrowConditionsNotMet"
       "Escrow conditions not met.");
    (6044, mkAnchorEntry "EscrowDurationExceeded"
       "Escrow duration exceeds max (30 days).");
    (6045, mkAnchorEntry "InvalidConstraintConfig"
       "Constraint configuration exceeds bounds.");
    (6046, mkAnchorEntry "ConstraintViolated"
       "Instruction violates a constraint.");
    (6047, mkAnchorEntry "InvalidConstraintsPda"
       "Wrong constraints PDA owner or vault.");
    (6048, mkAnchorEntry "InvalidPendingConstraintsPda"
       "Wrong pending constraints PDA.");
    (6049, mkAnchorEntry "AgentSpendLimitExceeded"
       "Agent rolling 24h spend exceeds per-agent limit.");
    (6050, mkAnchorEntry "OverlaySlotExhausted"
       "Per-agent overlay full — cannot register agent with spending limit.");
    (6051, mkAnchorEntry "AgentSlotNotFound"
       "Agent has spending limit but no overlay tracking slot.") ].

Definition ANCHOR_ERROR_MAP_3 : list (Z * anchor_entry) :=
  [ (6052, mkAnchorEntry "UnauthorizedTokenApproval"
       "Unauthorized SPL Token Approve between validate and finalize.");
    (6053, mkAnchorEntry "InvalidSessionExpiry"
       "Session expiry slots out of range (10-450).");
    (6054, mkAnchorEntry "UnconstrainedProgramBlocked"
       "Program has no constraint entry and strict mode is enabled.");
    (6055, mkAnchorEntry "ProtocolCapExceeded"
       "Per-protocol rolling 24h spending cap exceeded.");
    (6056, mkAnchorEntry "ProtocolCapsMismatch"
       "protocol_caps length must match protocols length.");
    (6057, mkAnchorEntry "ActiveEscrowsExist"
       "Close active escrow deposits before closing vault.");
    (6058, mkAnchorEntry "ConstraintsNotClosed"
       "Close instruction constraints before closing vault.");
    (6059, mkAnchorEntry "PendingPolicyExists"
       "Apply or cancel pending policy update before closing vault.");
    (6060, mkAnchorEntry "AgentPaused"
       "Agent is paused — unpause before executing actions.");
    (6061, mkAnchorEntry "AgentAlreadyPaused"
       "Agent is already paused.");
    (6062, mkAnchorEntry "AgentNotPaused"
       "Agent is not paused.");
    (6063, mkAnchorEntry "UnauthorizedPostFinalizeInstruction"
       "UnauthorizedPostFinalizeInstruction — see Sigil error-code documentation.");
    (6064, mkAnchorEntry "UnexpectedBalanceDecrease"
       "UnexpectedBalanceDecrease — see Sigil error-code documentation.");
    (6065, mkAnchorEntry "TimelockTooShort"
       "TimelockTooShort — see Sigil error-code documentation.");
    (6066, mkAnchorEntry "PolicyVersionMismatch"
       "PolicyVersionMismatch — see Sigil error-code documentation.");
    (6067, mkAnchorEntry "ActiveSessionsExist"
       "ActiveSessionsExist — see Sigil error-code documentation.");
    (6068, mkAnchorEntry "PostAssertionFailed"
       "PostAssertionFailed — see Sigil error-code documentation.");
    (6069, mkAnchorEntry "InvalidPostAssertionIndex"
       "InvalidPostAssertionIndex — see Sigil error-code documentation.");
    (6070, mkAnchorEntry "UnauthorizedPreValidateInstruction"
       "UnauthorizedPreValidateInstruction — see Sigil error-code documentation.");
    (6071, mkAnchorEntry "SnapshotNotCaptured"
       "SnapshotNotCaptured — see Sigil error-code documentation.");
    (6072, mkAnchorEntry "InvalidConstraintOperator"
       "InvalidConstraintOperator — see Sigil error-code documentation.");
    (6073, mkAnchorEntry "ConstraintsVaultMismatch"
       "ConstraintsVaultMismatch — see Sigil error-code documentation.");
    (6074, mkAnchorEntry "BlockedSplOpcode"
       "BlockedSplOpcode — see Sigil error-code documentation.");
    (6075, mkAnchorEntry "QueuedUpdateExpired"
       "Queued update is too old — re-queue via queue_policy_update / queue_constraints_update / queue_close_constraints / queue_agent_permissions_update.") ].

Definition ANCHOR_ERROR_MAP : list (Z * anchor_entry) :=
  ANCHOR_ERROR_MAP_1 ++ ANCHOR_ERROR_MAP_2 ++ ANCHOR_ERROR_MAP_3.

(** ** Reading the logs *)
Definition text (s : string) : chars := String.list_ascii_of_string s.

(** [/Error Code: (\w+)\.\s*Error Number: (\d+)/] at one position: a class never holds the
    character that follows it, so the longest run is the only one that can match. *)
Definition named_at (s : chars) : option (chars * chars) :=
  s1 ← starts_with (text "Error Code: ") s;
  let '(name, s2) := span is_word s1 in
  if bool_decide (name = []) then None
  else
    s3 ← starts_with (text ".") s2;
    s4 ← starts_with (text "Error Number: ") (span is_space s3).2;
    let digits := (span is_digit s4).1 in
    if bool_decide (digits = []) then None else Some (name, digits).

Fixpoint named_error (s : chars) : option (chars * chars) :=
  match named_at s with
  | Some m => Some m
  | None => match s with [] => None | _ :: s' => named_error s' end
  end.

Record anchor_error := mkAnchorError {
  ae_code : Z;
  ae_name : string;
}.

Definition hex_error_name (code : Z) : string :=
  match zmap_get code ANCHOR_ERROR_MAP with
  | Some entry => an_name entry
  | None => "UnknownError(" +:+ pretty code +:+ ")"
  end.

Definition anchor_of_log (log : string) : option anchor_error :=
  match named_error (text log) with
  | Some (name, digits) =>
      Some (mkAnchorError (digits_value digits) (String.string_of_list_ascii name))
  | None =>
      digits ← custom_error_digits (text log);
      Some (mkAnchorError (hex_value digits) (hex_error_name (hex_value digits)))
  end.

Fixpoint parseAnchorError (logs : list string) : option anchor_error :=
  match logs with
  | [] => None
  | log :: logs' =>
      match anchor_of_log log with Some e => Some e | None => parseAnchorError logs' end
  end.

(** ** The error of a failed simulation *)
Record SimulationError := mkSimulationError {
  se_message : string;
  se_anchorCode : option Z;
  se_anchorName : option string;
  se_suggestion : option string;
  se_logs : option (list string);
}.

(** The answer's error, as text, with what the logs say of it. *)
Definition simulation_error (err : string) (logs : list string) : SimulationError :=
  let anchorError := parseAnchorError logs in
  let mapEntry := e ← anchorError; zmap_get (ae_code e) ANCHOR_ERROR_MAP in
  mkSimulationError err (ae_code <$> anchorError)
    (match anchorError with Some e => Some (ae_name e) | None => an_name <$> mapEntry end)
    (an_suggestion <$> mapEntry) (Some logs).

(** The call itself failed: only the message. *)
Definition unanswered (message : string) : SimulationError :=
  mkSimulationError message None None None None.

(** ** What the logs of the program give *)

(** The table's names are the program's, but it ends before the program's last twelve. *)
Lemma anchor_table_names :
  ((fun cm => (cm.1, an_name cm.2)) <$> ANCHOR_ERROR_MAP)
  = imap (fun i name => (6000 + Z.of_nat i, name)) (take 76 PROGRAM_ERRORS).
Proof. vm_compute. reflexivity. Qed.

Lemma anchor_table_length : length PROGRAM_ERRORS = 88%nat.
Proof. reflexivity. Qed.

(** *** Lines of words *)
Definition SPACE : Ascii.ascii := Ascii.ascii_of_nat 32.

Lemma starts_with_app p r : starts_with p (p ++ r) = Some r.
Proof. induction p as [|c p IH]; [done|]. cbn. by rewrite bool_decide_true. Qed.

(** A pattern whose first word is [a] meets a text whose first word is [x]. *)
Lemma starts_with_word a b x y :
  SPACE ∉ a -> SPACE ∉ x ->
  starts_with (a ++ SPACE :: b) (x ++ SPACE :: y)
  = if bool_decide (a = x) then starts_with b y else None.
Proof.
  revert x. induction a as [|c a IH]; intros [|d x] Ha Hx; cbn [app starts_with].
  - by rewrite !bool_decide_true.
  - rewrite not_elem_of_cons in Hx. rewrite bool_decide_false by tauto.
    by rewrite bool_decide_false by done.
  - rewrite not_elem_of_cons in Ha. rewrite bool_decide_false by (intros ->; tauto).
    by rewrite bool_decide_false by done.
  - rewrite not_elem_of_cons in Ha, Hx. destruct (bool_decide_reflect (c = d)) as [->|Hne].
    + rewrite IH by tauto.
      destruct (bool_decide_reflect (a = x)) as [->|Hax]; [by rewrite bool_decide_true|].
      rewrite bool_decide_false; [done|congruence].
    + by rewrite bool_decide_false by congruence.
Qed.

(** Neither pattern starts inside a word that is not followed by the pattern's second word. *)
Lemma named_error_word x y :
  SPACE ∉ x -> starts_with (text "Code: ") y = None ->
  named_error (x ++ SPACE :: y) = named_error y.
Proof.
  intros Hx Hy. induction x as [|c x IH]; [done|].
  assert (Hat : named_at (c :: x ++ SPACE :: y) = None).
  { unfold named_at. change (text "Error Code: ") with (text "Error" ++ SPACE :: text "Code: ").
    rewrite app_comm_cons, starts_with_word by (done || by vm_compute; set_solver).
    rewrite Hy. by destruct (bool_decide _). }
  rewrite not_elem_of_cons in Hx. cbn [app named_error]. rewrite Hat. apply IH. tauto.
Qed.

Lemma custom_error_word x y :
  SPACE ∉ x -> starts_with (text "program error: 0x") y = None ->
  custom_error_digits (x ++ SPACE :: y) = custom_error_digits y.
Proof.
  intros Hx Hy. induction x as [|c x IH]; [done|].
  assert (Hat : starts_with CUSTOM_ERROR_PREFIX (c :: x ++ SPACE :: y) = None).
  { change CUSTOM_ERROR_PREFIX with (text "custom" ++ SPACE :: text "program error: 0x").
    rewrite app_comm_cons, starts_with_word by (done || by vm_compute; set_solver).
    rewrite Hy. by destruct (bool_decide _). }
  rewrite not_elem_of_cons in Hx. cbn [app custom_error_digits]. rewrite Hat. apply IH. tauto.
Qed.

(** Anchor's line for an error: words such as ["Program log: AnchorError occurred."], then the
    error; and the runtime's line for a failed program. *)
Definition spaced (words : list string) : string :=
  foldr (fun w s => w +:+ " " +:+ s) "" words.
Definition plain_word (w : string) : Prop := SPACE ∉ text w /\ w <> "Code:".

Definition anchor_line (words : list string) (name : string) (code : Z) (message : string) : string :=
  spaced words +:+ "Error Code: " +:+ name +:+ ". Error Number: " +:+ pretty code
    +:+ ". Error Message: " +:+ message.

Definition hex4_text (code : Z) : string :=
  Inspector.hex_byte (code / 256) +:+ Inspector.hex_byte (code mod 256).
Definition runtime_line (program : string) (code : Z) : string :=
  "Program " +:+ program +:+ " failed: custom program error: 0x" +:+ hex4_text code.

Lemma spaced_skip words rest :
  Forall plain_word words -> starts_with (text "Code: ") rest = None ->
  named_error (text (spaced words) ++ rest) = named_error rest.
Proof.
  intros HF Hrest. induction HF as [|w words [Hw Hc] HF IH]; [done|].
  unfold spaced. cbn [foldr]. fold (spaced words). unfold text in *.
  rewrite !list_ascii_app, <- !app_assoc. cbn [String.list_ascii_of_string app].
  rewrite <- IH. apply named_error_word; [exact Hw|].
  destruct HF as [|w' words [Hw' Hc'] HF]; [exact Hrest|].
  unfold spaced. cbn [foldr]. rewrite !list_ascii_app, <- !app_assoc.
  cbn [String.list_ascii_of_string app].
  change (text "Code: ") with (text "Code:" ++ SPACE :: []).
  rewrite starts_with_word by (done || by vm_compute; set_solver).
  rewrite bool_decide_false; [done|]. intros H. apply Hc'.
  rewrite <- (String.string_of_list_ascii_of_string w'). unfold text in H. by rewrite <- H.
Qed.

(** Every code of the program is four decimal and four hexadecimal digits; every name a word. *)
Definition digits_ok (i : nat) (name : string) : bool :=
  let code := 6000 + Z.of_nat i in
  let ds := text (pretty code) in
  forallb is_digit ds && negb (bool_decide (ds = [])) && (digits_value ds =? code) &&
  forallb is_word (text name) && negb (bool_decide (name = "")) &&
  forallb is_hex (text (hex4_text code)) && negb (bool_decide (text (hex4_text code) = [])) &&
  (hex_value (text (hex4_text code)) =? code) &&
  bool_decide (named_error (text (hex4_text code)) = None).

Lemma program_digits i name : PROGRAM_ERRORS !! i = Some name -> digits_ok i name = true.
Proof.
  assert (H : forallb (fun p => digits_ok p.1 p.2) (imap pair PROGRAM_ERRORS) = true)
    by (vm_compute; reflexivity).
  intros Hi. rewrite forallb_forall in H. apply (H (i, name)), list_elem_of_In.
  apply list_elem_of_lookup. exists i. by rewrite list_lookup_imap, Hi.
Qed.

Lemma Forall_forallb (p : Ascii.ascii -> bool) l : forallb p l = true -> Forall (fun c => p c = true) l.
Proof. intros H. apply Forall_forall. intros c Hc%list_elem_of_In. rewrite forallb_forall in H. auto. Qed.

Lemma text_nonempty s : s <> "" -> text s <> [].
Proof.
  intros Hs H. apply Hs. rewrite <- (String.string_of_list_ascii_of_string s).
  unfold text in H. by rewrite H.
Qed.

(** The pattern at the start of an Anchor line's error. *)
Lemma named_at_line (name digits rest : chars) :
  Forall (fun c => is_word c = true) name -> name <> [] ->
  Forall (fun c => is_digit c = true) digits -> digits <> [] ->
  match rest with c :: _ => is_digit c = false | [] => True end ->
  named_at (text "Error Code: " ++ name ++ text ". Error Number: " ++ digits ++ rest)
  = Some (name, digits).
Proof.
  intros Hn Hn0 Hd Hd0 Hr. unfold named_at. rewrite starts_with_app. cbn [mbind option_bind].
  rewrite (span_app is_word) by done. rewrite bool_decide_false by done.
  change (text ". Error Number: ") with (text "." ++ SPACE :: text "Error Number: ").
  rewrite <- app_assoc, starts_with_app. cbn [mbind option_bind].
  assert (Hsp : span is_space ((SPACE :: text "Error Number: ") ++ digits ++ rest)
                = ([SPACE], text "Error Number: " ++ digits ++ rest)) by reflexivity.
  rewrite Hsp. cbn [snd]. rewrite starts_with_app. cbn [mbind option_bind].
  rewrite (span_app is_digit) by done. cbn [fst]. by rewrite bool_decide_false.
Qed.

Lemma named_error_at s m : named_at s = Some m -> named_error s = Some m.
Proof. intros H. destruct s; cbn [named_error]; by rewrite H. Qed.

Lemma anchor_line_parsed words name i message :
  PROGRAM_ERRORS !! i = Some name -> Forall plain_word words ->
  anchor_of_log (anchor_line words name (6000 + Z.of_nat i) message)
  = Some (mkAnchorError (6000 + Z.of_nat i) name).
Proof.
  intros Hi%program_digits HF. unfold digits_ok in Hi. cbv zeta in Hi. rewrite !andb_true_iff in Hi.
  destruct Hi as [[[[[[[[Hd Hdn] Hdv] Hw] Hwn] _] _] _] _].
  apply negb_true_iff, bool_decide_eq_false in Hdn, Hwn. apply Z.eqb_eq in Hdv.
  unfold anchor_of_log, anchor_line, text at 1. rewrite !list_ascii_app.
  rewrite (spaced_skip words) by done.
  rewrite (named_error_at _ (text name, text (pretty (6000 + Z.of_nat i)))).
  - rewrite Hdv. unfold text. by rewrite String.string_of_list_ascii_of_string.
  - apply named_at_line; [by apply Forall_forallb|by apply text_nonempty|by apply Forall_forallb|done|].
    reflexivity.
Qed.

Lemma custom_error_at s rest :
  starts_with CUSTOM_ERROR_PREFIX s = Some rest -> (span is_hex rest).1 <> [] ->
  custom_error_digits s = Some (span is_hex rest).1.
Proof. intros H Hne. destruct s; cbn [custom_error_digits]; rewrite H; by destruct (span is_hex rest).1. Qed.

Lemma runtime_tail_named h : named_error (text "failed: " ++ CUSTOM_ERROR_PREFIX ++ h) = named_error h.
Proof. reflexivity. Qed.

Lemma runtime_tail_custom h :
  custom_error_digits (text "failed: " ++ CUSTOM_ERROR_PREFIX ++ h)
  = custom_error_digits (CUSTOM_ERROR_PREFIX ++ h).
Proof.
  generalize (CUSTOM_ERROR_PREFIX ++ h) as s. reflexivity.
Qed.

(** The runtime's line: no Anchor error in it, and its digits are found. *)
Lemma runtime_line_parsed program i name :
  PROGRAM_ERRORS !! i = Some name -> plain_word program ->
  anchor_of_log (runtime_line program (6000 + Z.of_nat i))
  = Some (mkAnchorError (6000 + Z.of_nat i) (hex_error_name (6000 + Z.of_nat i))).
Proof.
  intros Hi%program_digits [Hp Hpc]. unfold digits_ok in Hi. cbv zeta in Hi. rewrite !andb_true_iff in Hi.
  destruct Hi as [[[[_ Hh] Hhn] Hhv] Hhe].
  apply negb_true_iff, bool_decide_eq_false in Hhn. apply Z.eqb_eq in Hhv. apply bool_decide_eq_true in Hhe.
  set (code := 6000 + Z.of_nat i) in *.
  set (tail := text "failed: " ++ CUSTOM_ERROR_PREFIX ++ text (hex4_text code)).
  assert (Htext : text (runtime_line program code)
    = text "Program" ++ SPACE :: text program ++ SPACE :: tail).
  { unfold runtime_line, text. by rewrite !list_ascii_app. }
  unfold anchor_of_log. rewrite Htext.
  rewrite named_error_word, named_error_word; [|done..|by vm_compute; set_solver|].
  2: { change (text "Code: ") with (text "Code:" ++ SPACE :: []).
       rewrite starts_with_word by (done || by vm_compute; set_solver).
       rewrite bool_decide_false; [done|]. intros H. apply Hpc.
       rewrite <- (String.string_of_list_ascii_of_string program). unfold text in H. by rewrite <- H. }
  unfold tail. rewrite runtime_tail_named, Hhe.
  rewrite custom_error_word, custom_error_word; [|done..|by vm_compute; set_solver|].
  2: { change (text "program error: 0x") with (text "program" ++ SPACE :: text "error: 0x").
       rewrite starts_with_word by (done || by vm_compute; set_solver). by destruct (bool_decide _). }
  rewrite runtime_tail_custom.
  assert (Hspan : span is_hex (text (hex4_text code)) = (text (hex4_text code), [])).
  { rewrite <- (app_nil_r (text (hex4_text code))) at 1. by apply span_app; [apply Forall_forallb|]. }
  rewrite (custom_error_at _ (text (hex4_text code))); rewrite ?Hspan;
    [cbn [mbind option_bind fst]; by rewrite Hhv|apply starts_with_app|done].
Qed.

Lemma parse_skips earlier logs :
  Forall (fun log => anchor_of_log log = None) earlier ->
  parseAnchorError (earlier ++ logs) = parseAnchorError logs.
Proof. induction 1 as [|log earlier H _ IH]; [done|]. cbn [app parseAnchorError]. by rewrite H. Qed.

(** The table's entry of the program's [i]-th error, and the name the runtime's line gives. *)
Lemma anchor_entry_of i name :
  PROGRAM_ERRORS !! i = Some name ->
  (is_Some (zmap_get (6000 + Z.of_nat i) ANCHOR_ERROR_MAP) <-> (i < 76)%nat) /\
  hex_error_name (6000 + Z.of_nat i)
  = if (i <? 76)%nat then name else "UnknownError(" +:+ pretty (6000 + Z.of_nat i) +:+ ")".
Proof.
  intros Hi.
  assert (H : forallb (fun p : nat * string =>
      bool_decide (is_Some (zmap_get (6000 + Z.of_nat p.1) ANCHOR_ERROR_MAP) <-> (p.1 < 76)%nat) &&
      bool_decide (hex_error_name (6000 + Z.of_nat p.1)
        = if (p.1 <? 76)%nat then p.2 else "UnknownError(" +:+ pretty (6000 + Z.of_nat p.1) +:+ ")"))
    (imap pair PROGRAM_ERRORS) = true) by (vm_compute; reflexivity).
  rewrite forallb_forall in H. specialize (H (i, name)).
  rewrite andb_true_iff, !bool_decide_eq_true in H. apply H, list_elem_of_In, list_elem_of_lookup.
  exists i. by rewrite list_lookup_imap, Hi.
Qed.
