(* ===== verification/Simulation.v ===== *)
(** * Pre-send simulation and drain detection ([sdk/kit/src/simulation.ts])

    The balance deltas a simulated transaction leaves on the monitored token accounts and
    the risk flags raised on them; the error of a failed simulation is read by
    [AnchorErrors]. The RPC's answer is an argument. *)

From Stdlib Require Import QArith Qround.
From S2P Require Import Prelude Types AgentErrors Accounts Bytes Numbers ErrorTables AnchorErrors Composer Seal.
Local Open Scope string_scope.
Local Open Scope Z_scope.
Local Open Scope list_scope.

Inductive RiskFlag := LARGE_OUTFLOW | UNKNOWN_RECIPIENT | FULL_DRAIN | MULTI_OUTPUT | SIZE_OVERFLOW.
#[export] Instance RiskFlag_eq_dec : EqDecision RiskFlag.
Proof. solve_decision. Defined.

Definition RISK_FLAG_ERROR_MAP (f : RiskFlag) : Z :=
  match f with
  | LARGE_OUTFLOW => 7001
  | UNKNOWN_RECIPIENT => 7002
  | FULL_DRAIN => 7003
  | MULTI_OUTPUT => 7004
  | SIZE_OVERFLOW => 7033
  end.

(** A JavaScript number: [None] is [NaN] or an infinity. *)
Abbreviation js_number := (option Q).

Record DrainThresholds := mkDrainThresholds {
  warningPercent : option js_number;
  blockPercent : option js_number;
}.

Definition DEFAULT_WARNING_PERCENT : Q := 50.
Definition DEFAULT_BLOCK_PERCENT : Q := 95.

Record BalanceDelta := mkDelta {
  bd_account : Address;
  preBalance : Z;
  postBalance : Z;
  delta : Z;
}.

Record DrainDetectionInput := mkDrainInput {
  di_balanceDeltas : list BalanceDelta;
  di_vaultAddress : Address;
  di_totalVaultBalance : Z;
  di_knownRecipients : option (gset Address);
}.

(** [Math.floor(Math.max(0, Math.min(100, Number.isFinite(raw) ? raw : dflt)))] *)
Definition clamp_percent (raw : js_number) (dflt : Q) : Z :=
  let q := match raw with Some q => q | None => dflt end in
  let capped := if Qle_bool 100 q then 100%Q else q in
  Qfloor (if Qle_bool capped 0 then 0%Q else capped).

Definition outflow_flags (i : DrainDetectionInput) (warningPct blockPct : Z) : list RiskFlag :=
  match find_by (fun d => bool_decide (bd_account d = di_vaultAddress i)) (di_balanceDeltas i) with
  | Some vaultDelta =>
      if delta vaultDelta <? 0 then
        let outflow := - delta vaultDelta in
        (if (di_totalVaultBalance i >? 0) && (outflow * 100 >=? di_totalVaultBalance i * warningPct)
         then [LARGE_OUTFLOW] else [])
        ++ (if (di_totalVaultBalance i >? 0) && (outflow * 100 >=? di_totalVaultBalance i * blockPct)
            then [FULL_DRAIN] else [])
      else []
  | None => []
  end.

Definition is_recipient (i : DrainDetectionInput) (d : BalanceDelta) : bool :=
  (delta d >? 0) && negb (bool_decide (bd_account d = di_vaultAddress i)).

(** The loop breaks at the first unknown recipient. *)
Definition unknown_recipient_flags (i : DrainDetectionInput) : list RiskFlag :=
  match di_knownRecipients i with
  | Some known =>
      let recipients := filter (fun d => is_recipient i d = true) (di_balanceDeltas i) in
      if existsb (fun r => negb (bool_decide (bd_account r ∈ known))) recipients
      then [UNKNOWN_RECIPIENT] else []
  | None => []
  end.

Definition is_unknown_positive (i : DrainDetectionInput) (d : BalanceDelta) : bool :=
  is_recipient i d &&
  match di_knownRecipients i with
  | Some known => negb (bool_decide (bd_account d ∈ known))
  | None => true
  end.

Definition multi_output_flags (i : DrainDetectionInput) : list RiskFlag :=
  let unknownPositiveDeltas := filter (fun d => is_unknown_positive i d = true) (di_balanceDeltas i) in
  if (2 <=? length unknownPositiveDeltas)%nat then [MULTI_OUTPUT] else [].

Definition detectDrainAttempt (i : DrainDetectionInput) (drainThresholds : option DrainThresholds)
    : list RiskFlag :=
  let rawWarning := default (Some DEFAULT_WARNING_PERCENT) (drainThresholds ≫= warningPercent) in
  let rawBlock := default (Some DEFAULT_BLOCK_PERCENT) (drainThresholds ≫= blockPercent) in
  let warningPct := clamp_percent rawWarning DEFAULT_WARNING_PERCENT in
  let blockPct := clamp_percent rawBlock DEFAULT_BLOCK_PERCENT in
  outflow_flags i warningPct blockPct ++ unknown_recipient_flags i ++ multi_output_flags i.

Definition detectDrainFromSealContext (balanceDeltas : list BalanceDelta) (ctx : VaultContext)
    (drainThresholds : option DrainThresholds) : list RiskFlag :=
  detectDrainAttempt
    {| di_balanceDeltas := balanceDeltas;
       di_vaultAddress := vc_vaultAddress ctx;
       di_totalVaultBalance := vc_tokenBalance ctx;
       di_knownRecipients := Some (vc_knownRecipients ctx) |} drainThresholds.

(** ** [simulateBeforeSend] *)
Record SimulationOptions := mkSimOptions {
  so_monitorAccounts : option (list Address);
  so_preBalances : option (jsmap Z);
  so_vaultAddress : option Address;
  so_totalVaultBalance : option Z;
  so_knownRecipients : option (gset Address);
  so_drainThresholds : option DrainThresholds;
}.

(** The RPC's answer: the call failed or timed out, or the simulated outcome (an error, as
    text), its logs ([null] counts as none), its units, and the post-state of the monitored accounts ([None]: no such account; [Some None]: malformed
    base64). *)
Inductive simulate_answer :=
  | SimulateFailed (message : string)
  | SimulateValue (err : option string) (logs : list string) (unitsConsumed : option Z)
      (accounts : option (list (option (option bytes)))).

Record SimulationResult := mkSimResult {
  sim_success : bool;
  sim_unitsConsumed : option Z;
  sim_logs : option (list string);
  sim_error : option SimulationError;
  sim_balanceDeltas : option (list BalanceDelta);
  sim_riskFlags : list RiskFlag;
}.

Definition simulation_failed (message : string) : SimulationResult :=
  mkSimResult false None None (Some (unanswered message)) None [].

(** An account the answer does not hold, or holds with no data, is skipped. *)
Fixpoint collect_deltas (preBalances : option (jsmap Z)) (monitor : list Address)
    (accounts : list (option (option bytes))) : res string (list BalanceDelta) :=
  match monitor with
  | [] => Ok []
  | addr :: monitor' =>
      let accounts' := tail accounts in
      match head accounts with
      | None | Some None | Some (Some (Some [])) => collect_deltas preBalances monitor' accounts'
      | Some (Some decoded) =>
          match parseTokenBalance decoded with
          | None => Throw "InvalidCharacterError"
          | Some post =>
              let pre := default 0 (preBalances ≫= jm_get addr) in
              rest ← collect_deltas preBalances monitor' accounts';
              Ok (mkDelta addr pre post (post - pre) :: rest)
          end
      end
  end.

(** [value.unitsConsumed ? Number(value.unitsConsumed) : undefined] *)
Definition consumed (unitsConsumed : option Z) : option Z :=
  match unitsConsumed with Some 0 => None | u => u end.

Definition simulateBeforeSend (answer : simulate_answer) (options : SimulationOptions)
    : SimulationResult :=
  match answer with
  | SimulateFailed message => simulation_failed message
  | SimulateValue (Some err) logs unitsConsumed _ =>
      mkSimResult false (consumed unitsConsumed) (Some logs) (Some (simulation_error err logs)) None []
  | SimulateValue None logs unitsConsumed accounts =>
      match so_monitorAccounts options, accounts, so_vaultAddress options, so_totalVaultBalance options with
      | Some (a :: monitor), Some accts, Some vault, Some total =>
          if bool_decide (vault = "") then mkSimResult true (consumed unitsConsumed) (Some logs) None None []
          else
            match collect_deltas (so_preBalances options) (a :: monitor) accts with
            | Throw message => simulation_failed message
            | Ok deltas =>
                let flags :=
                  if (0 <? length deltas)%nat then
                    detectDrainAttempt
                      (mkDrainInput deltas vault total (so_knownRecipients options))
                      (so_drainThresholds options)
                  else [] in
                mkSimResult true (consumed unitsConsumed) (Some logs) None (Some deltas) flags
            end
      | _, _, _, _ => mkSimResult true (consumed unitsConsumed) (Some logs) None None []
      end
  end.

(** [adjustCU], in double arithmetic: [Math.ceil(simulated * 1.1)] and the relative
    difference against [0.2]. Division by zero gives [Infinity] or [NaN]. *)
Definition math_ceil (r : ratio) : Z := - ((- num r) / den r).
Definition ratio_gt (a b : ratio) : bool := num a * den b >? num b * den a.

Definition adjustCU (estimated : Z) (simulated : option Z) : Z :=
  match simulated with
  | None => estimated
  | Some simulated =>
      let headroom := math_ceil (fl_mul (ratio_of_Z simulated) (fl 11 10)) in
      let diff := Z.abs (headroom - estimated) in
      if (if estimated =? 0 then negb (diff =? 0) else ratio_gt (fl diff estimated) (fl 2 10))
      then headroom else estimated
  end.

(** The double [1.1] is above eleven tenths: a hundred units get a headroom of 111. *)
Example adjustCU_hundred : adjustCU 50 (Some 100) = 111 /\ adjustCU 100 (Some 100) = 100.
Proof. split; vm_compute; reflexivity. Qed.

(** ** What the flags mean *)
Lemma clamp_percent_bounds raw dflt : 0 <= clamp_percent raw dflt <= 100.
Proof.
  unfold clamp_percent. set (q := match raw with Some q => q | None => dflt end). clearbody q.
  set (c := if Qle_bool 100 q then 100%Q else q).
  assert (Hc : (c <= 100)%Q).
  { unfold c. destruct (Qle_bool 100 q) eqn:H; [apply Qle_refl|].
    apply Qnot_lt_le. intros Hlt. apply Qlt_le_weak, Qle_bool_iff in Hlt. congruence. }
  clearbody c. destruct (Qle_bool c 0) eqn:H0; [vm_compute; split; discriminate|].
  assert (H1 : (0 <= c)%Q).
  { apply Qnot_lt_le. intros Hlt. apply Qlt_le_weak, Qle_bool_iff in Hlt. congruence. }
  split; [exact (Qfloor_resp_le 0 c H1)|exact (Qfloor_resp_le c 100 Hc)].
Qed.

(** The vault's own delta loses at least [pct] percent of a positive balance. *)
Definition loses_percent (i : DrainDetectionInput) (pct : Z) : Prop :=
  exists d, find_by (fun d => bool_decide (bd_account d = di_vaultAddress i)) (di_balanceDeltas i) = Some d
    /\ delta d < 0 /\ 0 < di_totalVaultBalance i
    /\ di_totalVaultBalance i * pct <= - delta d * 100.

(** Tokens reach an account that is neither the vault's nor known. *)
Definition unknown_gain (i : DrainDetectionInput) (d : BalanceDelta) : Prop :=
  d ∈ di_balanceDeltas i /\ 0 < delta d /\ bd_account d <> di_vaultAddress i /\
  match di_knownRecipients i with Some known => bd_account d ∉ known | None => True end.

Lemma outflow_flags_spec i w b f :
  f ∈ outflow_flags i w b <->
  f = LARGE_OUTFLOW /\ loses_percent i w \/ f = FULL_DRAIN /\ loses_percent i b.
Proof.
  unfold outflow_flags, loses_percent.
  destruct (find_by _ _) as [d|]; [|split; [set_solver|naive_solver]].
  destruct (Z.ltb_spec (delta d) 0) as [Hd|Hd].
  2: { split; [set_solver|]. intros [(_ & d' & [= <-] & ? & _)|(_ & d' & [= <-] & ? & _)]; lia. }
  assert (Hif : forall (g : RiskFlag) pct,
    f ∈ (if (di_totalVaultBalance i >? 0) && (- delta d * 100 >=? di_totalVaultBalance i * pct)
         then [g] else []) <->
    f = g /\ 0 < di_totalVaultBalance i /\ di_totalVaultBalance i * pct <= - delta d * 100).
  { intros g pct. destruct (Z.gtb_spec (di_totalVaultBalance i) 0),
      (Z.geb_spec (- delta d * 100) (di_totalVaultBalance i * pct)); cbn [andb];
      rewrite ?elem_of_nil, ?list_elem_of_singleton; intuition lia. }
  rewrite elem_of_app, !Hif. split.
  - intros [(-> & ? & ?)|(-> & ? & ?)]; [left|right]; eauto 8.
  - intros [(-> & d' & [= <-] & ?)|(-> & d' & [= <-] & ?)]; [left|right]; tauto.
Qed.

Lemma is_unknown_positive_spec i d :
  d ∈ di_balanceDeltas i -> is_unknown_positive i d = true <-> unknown_gain i d.
Proof.
  intros Hin. unfold is_unknown_positive, is_recipient, unknown_gain.
  rewrite !andb_true_iff, negb_true_iff, bool_decide_eq_false, Z.gtb_lt.
  destruct (di_knownRecipients i) as [known|]; [rewrite negb_true_iff, bool_decide_eq_false|]; tauto.
Qed.

Lemma unknown_recipient_flags_spec i f :
  f ∈ unknown_recipient_flags i <->
  f = UNKNOWN_RECIPIENT /\ di_knownRecipients i <> None /\ exists d, unknown_gain i d.
Proof.
  unfold unknown_recipient_flags. destruct (di_knownRecipients i) as [known|] eqn:Hk.
  2: { split; [set_solver|tauto]. }
  assert (H : existsb (fun r => negb (bool_decide (bd_account r ∈ known)))
      (filter (fun d => is_recipient i d = true) (di_balanceDeltas i)) = true
    <-> exists d, unknown_gain i d).
  { rewrite existsb_exists. split; intros (d & Hd).
    - destruct Hd as [[Hr Hin]%list_elem_of_In%list_elem_of_filter Hn]. exists d.
      apply is_unknown_positive_spec; [done|]. unfold is_unknown_positive. by rewrite Hk, Hr, Hn.
    - pose proof Hd as [Hin _]. apply is_unknown_positive_spec in Hd; [|done].
      unfold is_unknown_positive in Hd. rewrite Hk in Hd. apply andb_true_iff in Hd as [Hr Hn].
      exists d. split; [|done]. by apply list_elem_of_In, list_elem_of_filter. }
  destruct (existsb _ _); rewrite ?list_elem_of_singleton, ?elem_of_nil; naive_solver.
Qed.

Lemma multi_output_flags_spec i f :
  f ∈ multi_output_flags i <->
  f = MULTI_OUTPUT /\
  (2 <= length (filter (fun d => is_unknown_positive i d = true) (di_balanceDeltas i)))%nat.
Proof.
  unfold multi_output_flags. destruct (Nat.leb_spec 2 (length
    (filter (fun d => is_unknown_positive i d = true) (di_balanceDeltas i))));
    rewrite ?list_elem_of_singleton, ?elem_of_nil; intuition lia.
Qed.

Definition warning_pct (th : option DrainThresholds) : Z :=
  clamp_percent (default (Some DEFAULT_WARNING_PERCENT) (th ≫= warningPercent)) DEFAULT_WARNING_PERCENT.
Definition block_pct (th : option DrainThresholds) : Z :=
  clamp_percent (default (Some DEFAULT_BLOCK_PERCENT) (th ≫= blockPercent)) DEFAULT_BLOCK_PERCENT.

(** the meaning of every drain flag, whatever thresholds the caller passes (negative,
    fractional, infinite or [NaN]). The percentages end up between 0 and 100;
    [LARGE_OUTFLOW] and [FULL_DRAIN] say that the vault's own delta loses at least that
    share of a positive balance, [UNKNOWN_RECIPIENT] that an account outside a given known
    set gains, [MULTI_OUTPUT] that two entries outside it gain; no other flag is raised. *)
Theorem detectDrain_spec i th :
  let flags := detectDrainAttempt i th in
  0 <= warning_pct th <= 100 /\ 0 <= block_pct th <= 100 /\
  (LARGE_OUTFLOW ∈ flags <-> loses_percent i (warning_pct th)) /\
  (FULL_DRAIN ∈ flags <-> loses_percent i (block_pct th)) /\
  (UNKNOWN_RECIPIENT ∈ flags <-> di_knownRecipients i <> None /\ exists d, unknown_gain i d) /\
  (MULTI_OUTPUT ∈ flags <->
    (2 <= length (filter (fun d => is_unknown_positive i d = true) (di_balanceDeltas i)))%nat) /\
  SIZE_OVERFLOW ∉ flags.
Proof.
  unfold detectDrainAttempt. fold (warning_pct th) (block_pct th). cbv zeta.
  pose proof (clamp_percent_bounds (default (Some DEFAULT_WARNING_PERCENT) (th ≫= warningPercent))
    DEFAULT_WARNING_PERCENT) as Hw.
  pose proof (clamp_percent_bounds (default (Some DEFAULT_BLOCK_PERCENT) (th ≫= blockPercent))
    DEFAULT_BLOCK_PERCENT) as Hb.
  fold (warning_pct th) in Hw. fold (block_pct th) in Hb.
  split; [exact Hw|]. split; [exact Hb|].
  rewrite !elem_of_app, !outflow_flags_spec, !unknown_recipient_flags_spec, !multi_output_flags_spec.
  intuition congruence.
Qed.

(** two drains the checks cannot see. With the context [seal] returns, the outflow is
    looked up under the vault's address, while token balances change on token accounts: as
    long as no monitored account is the vault address itself, neither outflow flag is
    raised, whatever left the vault's token account. And a simulation that closes a
    monitored account drops its delta: if the vault's token account is the only one
    monitored and does not exist afterwards, the result is a success without flags. *)
Theorem drain_blind_spots :
  (forall deltas ctx th,
    Forall (fun d => bd_account d <> vc_vaultAddress ctx) deltas ->
    LARGE_OUTFLOW ∉ detectDrainFromSealContext deltas ctx th /\
    FULL_DRAIN ∉ detectDrainFromSealContext deltas ctx th) /\
  (forall options vault_ata logs units,
    so_monitorAccounts options = Some [vault_ata] ->
    let r := simulateBeforeSend (SimulateValue None logs units (Some [None])) options in
    sim_success r = true /\ sim_riskFlags r = []).
Proof.
  split.
  - intros deltas ctx th HF.
    assert (Hn : forall pct, ~ loses_percent
      (mkDrainInput deltas (vc_vaultAddress ctx) (vc_tokenBalance ctx) (Some (vc_knownRecipients ctx))) pct).
    { intros pct (d & [Hin Hd]%find_by_some & _). apply bool_decide_eq_true in Hd. cbn in *.
      by apply (proj1 (Forall_forall _ _) HF d). }
    unfold detectDrainFromSealContext, detectDrainAttempt. rewrite !elem_of_app, !outflow_flags_spec,
      !unknown_recipient_flags_spec, !multi_output_flags_spec. naive_solver.
  - intros options vault_ata logs units Hm. unfold simulateBeforeSend. rewrite Hm.
    destruct (so_vaultAddress options) as [vault|]; [|done].
    destruct (so_totalVaultBalance options) as [total|]; [|done]. by case_bool_decide.
Qed.

(** A vault whose 1000 tokens all go to the treasury: nothing is flagged with the seal
    context, everything with the token account's address. *)
Definition demo_drain : list BalanceDelta :=
  [mkDelta "vaultAta" 1000 0 (-1000); mkDelta "treasuryAta" 0 1000 1000].
Definition demo_context : VaultContext :=
  mkVaultContext "vault" "vaultAta" 1000 {["vaultAta"; "treasuryAta"]}.

Lemma drain_blind_spots_witness :
  FULL_DRAIN ∉ detectDrainFromSealContext demo_drain demo_context None /\
  detectDrainAttempt (mkDrainInput demo_drain "vaultAta" 1000 (Some (vc_knownRecipients demo_context))) None
    = [LARGE_OUTFLOW; FULL_DRAIN] /\
  sim_riskFlags (simulateBeforeSend (SimulateValue None [] (Some 5) (Some [None]))
    (mkSimOptions (Some ["vaultAta"]) None (Some "vaultAta") (Some 1000) None None)) = [].
Proof.
  split; [|split; [vm_compute; reflexivity|]].
  - apply (proj2 (proj1 drain_blind_spots demo_drain demo_context None
      ltac:(repeat (constructor; [vm_compute; discriminate|]); constructor))).
  - exact (proj2 (proj2 drain_blind_spots
      (mkSimOptions (Some ["vaultAta"]) None (Some "vaultAta") (Some 1000) None None)
      "vaultAta" [] (Some 5) eq_refl)).
Defined.

(** what a failed simulation reports. After logs that name no error, Anchor's line for the
    program's [i]-th error gives its code and its name, whatever words come before and
    whatever message follows, and the runtime's line gives the code; the suggestion, and the
    name behind the runtime's line, are there exactly for the first 76 errors. *)
Theorem simulation_error_reported options i name units accounts err earlier later words message program
    (Hi : PROGRAM_ERRORS !! i = Some name)
    (Hearlier : Forall (fun log => anchor_of_log log = None) earlier)
    (Hwords : Forall plain_word words) (Hprogram : plain_word program) :
  let code := 6000 + Z.of_nat i in
  let report line :=
    sim_error (simulateBeforeSend
      (SimulateValue (Some err) (earlier ++ line :: later) units accounts) options) in
  let suggestion := an_suggestion <$> zmap_get code ANCHOR_ERROR_MAP in
  let logs line := Some (earlier ++ line :: later) in
  let named := anchor_line words name code message in
  let hex := runtime_line program code in
  report named = Some (mkSimulationError err (Some code) (Some name) suggestion (logs named)) /\
  report hex = Some (mkSimulationError err (Some code)
    (Some (if (i <? 76)%nat then name else "UnknownError(" +:+ pretty code +:+ ")"))
    suggestion (logs hex)) /\
  (is_Some suggestion <-> (i < 76)%nat).
Proof.
  cbv zeta. cbn [simulateBeforeSend sim_error]. unfold simulation_error.
  rewrite !(parse_skips earlier) by done. cbn [parseAnchorError].
  rewrite anchor_line_parsed, (runtime_line_parsed _ _ name) by done.
  cbn [mbind option_bind fmap option_fmap option_map ae_code ae_name].
  destruct (anchor_entry_of i name Hi) as [Hsome ->]. rewrite fmap_is_Some. by split_and!.
Qed.

Lemma simulation_error_reported_witness :
  sim_error (simulateBeforeSend
    (SimulateValue (Some "InstructionError")
      ["Program log: start"; anchor_line ["Program"; "log:"; "AnchorError"; "occurred."]
         "UnauthorizedAgent" 6001 "no"] None None)
    (mkSimOptions None None None None None None))
  = Some (mkSimulationError "InstructionError" (Some 6001) (Some "UnauthorizedAgent")
      (Some "Signer is not a registered agent.")
      (Some ["Program log: start"; "Program log: AnchorError occurred. Error Code: UnauthorizedAgent. Error Number: 6001. Error Message: no"])).
Proof.
  destruct (simulation_error_reported (mkSimOptions None None None None None None) 1 "UnauthorizedAgent"
    None None "InstructionError" ["Program log: start"] []
    ["Program"; "log:"; "AnchorError"; "occurred."] "no" "4ZeVCqnjUgUtFrHHPG7jELUxvJeoVGHhGNgPrhBPwrHL"
    eq_refl) as [H _].
  - by repeat constructor.
  - repeat (constructor; [split; [by apply (bool_decide_unpack _); vm_compute|done]|]). constructor.
  - split; [by apply (bool_decide_unpack _); vm_compute|done].
  - exact H.
Defined.
