(* ===== verification/Executor.v ===== *)
(** * Transaction execution ([transaction-executor.ts], [owner-transaction.ts],
    [build-unsigned.ts])

    The agent-side pipeline (compose, simulate, sign, send), the owner-side builder, and
    the unsigned variant. The signer, the simulation's answer, the sending and the clock
    come in as functions. Logs and the events parsed from them are not modelled. *)

From Stdlib Require Import QArith Qround.
From S2P Require Import Prelude Types Accounts Bytes JsText Shield AltLoader Composer RpcHelpers Simulation.
Local Open Scope string_scope.
Local Open Scope Z_scope.
Local Open Scope list_scope.

(** ** [TransactionExecutor] *)
Record VaultMonitoring := mkMonitoring {
  vm_vaultAddress : Address;
  vm_monitorAccounts : list Address;
  vm_preBalances : jsmap Z;
  vm_totalVaultBalance : Z;
  vm_knownRecipients : option (gset Address);
}.

Record ExecuteTransactionParams := mkExecute {
  ep_feePayer : Address;
  ep_validateIx : Instruction;
  ep_defiInstructions : list Instruction;
  ep_finalizeIx : Instruction;
  ep_computeUnits : option Z;
  ep_priorityFeeMicroLamports : option Z;
  ep_addressLookupTables : option AltContents;
  ep_vaultMonitoring : option VaultMonitoring;
}.

Record ExecuteTransactionResult := mkExecResult {
  er_signature : string;
  er_unitsConsumed : option Z;
  er_warnings : option (list RiskFlag);
}.

Record TransactionExecutorOptions := mkExecOptions {
  eo_blockhashCacheTtlMs : option Z;
  eo_confirmOptions : option SendAndConfirmOptions;
  eo_dangerouslySkipSimulation : option string;
  eo_skipSimulation : option bool;
  eo_drainThresholds : option DrainThresholds;
}.

Record TransactionExecutor (Tx : Type) := mkExecutor {
  te_agent : Signer Tx;
  te_blockhashCache : BlockhashCache;
  te_confirmOptions : SendAndConfirmOptions;
  te_skipSimulation : bool;
  te_drainThresholds : option DrainThresholds;
  te_altCache : option AltCache;
}.
Arguments mkExecutor {Tx}. Arguments te_agent {Tx}. Arguments te_blockhashCache {Tx}.
Arguments te_confirmOptions {Tx}. Arguments te_skipSimulation {Tx}.
Arguments te_drainThresholds {Tx}. Arguments te_altCache {Tx}.

Definition SKIP_ACKNOWLEDGEMENT : string := "I_UNDERSTAND_DRAIN_DETECTION_IS_DISABLED".

Definition new_executor {Tx} (agent : Signer Tx) (options : option TransactionExecutorOptions)
    : TransactionExecutor Tx :=
  mkExecutor agent
    (new_blockhash_cache (options ≫= eo_blockhashCacheTtlMs))
    (default (mkConfirmOptions None None None) (options ≫= eo_confirmOptions))
    (bool_decide (options ≫= eo_dangerouslySkipSimulation = Some SKIP_ACKNOWLEDGEMENT)
     || bool_decide (options ≫= eo_skipSimulation = Some true))
    (options ≫= eo_drainThresholds)
    None.

Definition with_blockhashCache {Tx} (ex : TransactionExecutor Tx) (c : BlockhashCache)
    : TransactionExecutor Tx :=
  mkExecutor (te_agent ex) c (te_confirmOptions ex) (te_skipSimulation ex)
    (te_drainThresholds ex) (te_altCache ex).

(** [if (!this.altCache) this.altCache = new AltCache(); return this.altCache.resolve(...)] *)
Definition resolveAlts {Tx} (ex : TransactionExecutor Tx) (fetch : AltFetch) (now : Z)
    (altAddresses : list Address) : AltContents * TransactionExecutor Tx :=
  let cache := default (new_alt_cache None None) (te_altCache ex) in
  let r := resolve cache fetch now altAddresses in
  (r.2, mkExecutor (te_agent ex) (te_blockhashCache ex) (te_confirmOptions ex)
          (te_skipSimulation ex) (te_drainThresholds ex) (Some r.1)).

(** What the network and the clock answer during one execution. *)
Record ExecWorld := mkExecWorld {
  ew_now : Z;
  ew_blockhash : res SigilError Blockhash;
  ew_fetched : Z;
  ew_simulate : string -> simulate_answer;
  ew_send : string -> res SigilError string;
  ew_confirm : ConfirmEnv;
}.

(** One execution: the outcome ([None]: the fuel ran out while polling), the executor
    afterwards, and what reached the signer and the network. *)
Record ExecRun (Tx : Type) := mkExecRun {
  xr_result : option (res SigilError ExecuteTransactionResult);
  xr_executor : TransactionExecutor Tx;
  xr_signed : list Tx;
  xr_sent : list string;
}.
Arguments mkExecRun {Tx}. Arguments xr_result {Tx}. Arguments xr_executor {Tx}.
Arguments xr_signed {Tx}. Arguments xr_sent {Tx}.

(** The plain [Error] with [code: 7033]. *)
Definition size_overflow (byteLength : Q) (altsApplied : bool) : SigilError :=
  mkError "7033" [("byteLength", CNum (Qfloor byteLength)); ("limit", CNum MAX_TX_SIZE);
                  ("altsApplied", CStr (js_bool altsApplied))].

Definition risk_flag_name (f : RiskFlag) : string :=
  match f with
  | LARGE_OUTFLOW => "LARGE_OUTFLOW"
  | UNKNOWN_RECIPIENT => "UNKNOWN_RECIPIENT"
  | FULL_DRAIN => "FULL_DRAIN"
  | MULTI_OUTPUT => "MULTI_OUTPUT"
  | SIZE_OVERFLOW => "SIZE_OVERFLOW"
  end.

Definition simulation_failed_error : SigilError :=
  sdk_error "SIGIL_ERROR__RPC__SIMULATION_FAILED" [].
Definition drain_detected (flags : list RiskFlag) : SigilError :=
  sdk_error "SIGIL_ERROR__RPC__DRAIN_DETECTED"
    [("reason", CStr (String.concat "," (risk_flag_name <$> flags)))].

(** The options [simulate] passes on. *)
Definition sim_options (vm : option VaultMonitoring) (th : option DrainThresholds)
    : SimulationOptions :=
  match vm with
  | Some m =>
      mkSimOptions (Some (vm_monitorAccounts m)) (Some (vm_preBalances m))
        (Some (vm_vaultAddress m)) (Some (vm_totalVaultBalance m)) (vm_knownRecipients m) th
  | None => mkSimOptions None None None None None None
  end.

Section executor.
Context {Tx : Type} `{lib : !TxLib Tx}.
Implicit Types (ex : TransactionExecutor Tx) (params : ExecuteTransactionParams).

Definition executor_compose params (blockhash : Blockhash) (computeUnits : Z) : Tx :=
  composeSigilTransaction
    (mkCompose (ep_feePayer params) (ep_validateIx params) (ep_defiInstructions params)
       (ep_finalizeIx params) blockhash (Some computeUnits) (ep_priorityFeeMicroLamports params)
       (ep_addressLookupTables params)).

Definition executor_units params : Z :=
  default (estimateComposedCU (ep_defiInstructions params)) (ep_computeUnits params).

(** Step 9. *)
Definition composeTransaction ex (w : ExecWorld) params
    : res SigilError (Tx * Z * Blockhash) * TransactionExecutor Tx :=
  let '(got, cache) := blockhash_get (te_blockhashCache ex) (ew_now w) (ew_blockhash w) (ew_fetched w) in
  (blockhash ← got;
   let computeUnits := executor_units params in
   let compiledTx := executor_compose params blockhash computeUnits in
   let '(_, byteLength, withinLimit) := measureTransactionSize compiledTx in
   let altsApplied :=
     match ep_addressLookupTables params with Some alts => (0 <? length alts)%nat | None => false end in
   throw_if (negb withinLimit) (size_overflow byteLength altsApplied) ;;
   Ok (compiledTx, computeUnits, blockhash),
   with_blockhashCache ex cache).

(** Step 10. *)
Definition simulate ex (w : ExecWorld) params (compiledTx : Tx) (estimatedCU : Z)
    (blockhash : Blockhash) : SimulationResult * option Tx * Z :=
  let wireBase64 := getBase64EncodedWireTransaction compiledTx in
  let simulation := simulateBeforeSend (ew_simulate w wireBase64)
                      (sim_options (ep_vaultMonitoring params) (te_drainThresholds ex)) in
  if negb (sim_success simulation) then (simulation, None, estimatedCU)
  else
    let adjustedCU := adjustCU estimatedCU (sim_unitsConsumed simulation) in
    if negb (adjustedCU =? estimatedCU) then
      (simulation, Some (executor_compose params blockhash adjustedCU), adjustedCU)
    else (simulation, None, estimatedCU).

(** Steps 11 and 12: the outcome, and what was sent. *)
Definition signSendConfirm ex (w : ExecWorld) (compiledTx : Tx) (fuel : nat)
    : option (res SigilError string) * list string :=
  match signAndEncode (te_agent ex) compiledTx with
  | Throw e => (Some (Throw e), [])
  | Ok wireBase64 =>
      (sendAndConfirmTransaction (te_confirmOptions ex) (ew_send w wireBase64) (ew_confirm w) fuel,
       [wireBase64])
  end.

(** The simulation's verdict: the transaction to sign, the units, the warnings. *)
Definition simulation_verdict (compiledTx : Tx) (sim : SimulationResult) (recomposedTx : option Tx)
    : res SigilError (Tx * option Z * list RiskFlag) :=
  throw_if (negb (sim_success sim)) simulation_failed_error ;;
  throw_if (bool_decide (FULL_DRAIN ∈ sim_riskFlags sim)) (drain_detected (sim_riskFlags sim)) ;;
  Ok (default compiledTx recomposedTx, sim_unitsConsumed sim, sim_riskFlags sim).

Definition executeTransaction ex (w : ExecWorld) params (fuel : nat) : ExecRun Tx :=
  let '(composed, ex) := composeTransaction ex w params in
  let verdict :=
    '(compiledTx, computeUnits, blockhash) ← composed;
    if negb (te_skipSimulation ex) then
      let '(simulation, recomposedTx, _) := simulate ex w params compiledTx computeUnits blockhash in
      simulation_verdict compiledTx simulation recomposedTx
    else Ok (compiledTx, None, []) in
  match verdict with
  | Throw e => mkExecRun (Some (Throw e)) ex [] []
  | Ok (txToSign, unitsConsumed, riskWarnings) =>
      let '(outcome, sent) := signSendConfirm ex w txToSign fuel in
      mkExecRun
        ((fun r => signature ← r;
                   Ok (mkExecResult signature unitsConsumed
                        (if (0 <? length riskWarnings)%nat then Some riskWarnings else None)))
         <$> outcome)
        ex [txToSign] sent
  end.
End executor.

(** ** [buildOwnerTransaction] *)
Definition CU_OWNER_ACTION : Z := 200000.

Record BuildOwnerTransactionParams := mkOwnerParams {
  op_rpc : string;
  op_owner : Address;
  op_instructions : list Instruction;
  op_network : string;
  op_computeUnits : option Z;
  op_priorityFeeMicroLamports : option Z;
  op_addressLookupTables : option AltContents;
  op_blockhash : option Blockhash;
}.

Record OwnerTransactionResult (Tx : Type) := mkOwnerResult {
  ot_transaction : Tx;
  ot_txSizeBytes : Q;
  ot_wireBase64 : string;
  ot_blockhash : Blockhash;
}.
Arguments mkOwnerResult {Tx}. Arguments ot_transaction {Tx}. Arguments ot_txSizeBytes {Tx}.
Arguments ot_wireBase64 {Tx}. Arguments ot_blockhash {Tx}.

(** The process's shared caches, and what the network and the clock answer. *)
Record OwnerCaches := mkOwnerCaches { oc_blockhash : BlockhashRegistry; oc_alt : AltCache }.

Record OwnerWorld := mkOwnerWorld {
  ow_now : Z;
  ow_blockhash : res SigilError Blockhash;
  ow_fetched : Z;
  ow_altNow : Z;
  ow_altFetch : AltFetch;
}.

Definition instruction_required : SigilError :=
  sdk_error "SIGIL_ERROR__RPC__INSTRUCTION_REQUIRED" [].

(** The first element of [Promise.all]. *)
Definition owner_blockhash (oc : OwnerCaches) (w : OwnerWorld) (p : BuildOwnerTransactionParams)
    : res SigilError Blockhash * BlockhashRegistry :=
  match op_blockhash p with
  | Some b => (Ok b, oc_blockhash oc)
  | None => registry_get (oc_blockhash oc) (op_rpc p) (ow_now w) (ow_blockhash w) (ow_fetched w)
  end.

(** The second: [getSigilAltAddress] throws while the array is built, so it wins over a
    failed fetch of the blockhash. *)
Definition owner_alts (oc : OwnerCaches) (w : OwnerWorld) (p : BuildOwnerTransactionParams)
    : res SigilError AltContents * AltCache :=
  match op_addressLookupTables p with
  | Some alts => (Ok alts, oc_alt oc)
  | None =>
      match getSigilAltAddress (normalizeNetwork (op_network p)) with
      | Throw e => (Throw e, oc_alt oc)
      | Ok sigilAlt =>
          let r := resolve (oc_alt oc) (ow_altFetch w) (ow_altNow w) [sigilAlt] in (Ok r.2, r.1)
      end
  end.

Section owner.
Context {Tx : Type} `{lib : !TxLib Tx}.

Definition owner_instructions (p : BuildOwnerTransactionParams) : list Instruction :=
  getSetComputeUnitLimitInstruction (default CU_OWNER_ACTION (op_computeUnits p))
  :: priority_fee_ixs (op_priorityFeeMicroLamports p) ++ op_instructions p.

Definition owner_message (p : BuildOwnerTransactionParams) (blockhash : Blockhash)
    (addressLookupTables : AltContents) : TransactionMessage :=
  let txMessage := mkMessage (op_owner p) blockhash (owner_instructions p) in
  if (0 <? length addressLookupTables)%nat
  then compressTransactionMessage addressLookupTables txMessage else txMessage.

Definition buildOwnerTransaction (oc : OwnerCaches) (w : OwnerWorld)
    (p : BuildOwnerTransactionParams) : res SigilError (OwnerTransactionResult Tx) * OwnerCaches :=
  if bool_decide (op_instructions p = []) then (Throw instruction_required, oc)
  else
    let '(bh, registry) := owner_blockhash oc w p in
    let '(alts, altCache) := owner_alts oc w p in
    (addressLookupTables ← alts;
     blockhash ← bh;
     let compiledTx := compileTransaction (owner_message p blockhash addressLookupTables) in
     let '(wireBase64, byteLength, withinLimit) := measureTransactionSize compiledTx in
     throw_if (negb withinLimit) (tx_too_large byteLength MAX_TX_SIZE) ;;
     Ok (mkOwnerResult compiledTx byteLength wireBase64 blockhash),
     mkOwnerCaches registry altCache).

(** ** [buildUnsigned]

    [decode] is [getCompiledTransactionMessageDecoder().decode]. *)
Record BuildUnsignedInput := mkUnsignedInput {
  bi_rpc : string;
  bi_feePayer : Address;
  bi_instructions : list Instruction;
  bi_network : option string;
  bi_computeUnitLimit : option Z;
  bi_computeUnitPrice : option Z;
  bi_addressLookupTables : option AltContents;
  bi_blockhash : option Blockhash;
  bi_simulate : bool;
}.

Record BuildUnsignedResult := mkUnsignedResult {
  br_unsignedTxBytes : bytes;
  br_instructions : list Instruction;
  br_estimatedComputeUnits : option Z;
  br_feePayer : Address;
  br_recentBlockhash : string;
  br_lastValidBlockHeight : Z;
  br_message : CompiledMessage;
}.

Definition base64ToUint8Array (b64 : string) : res SigilError bytes :=
  match atob b64 with
  | Some binary => Ok (code <$> String.list_ascii_of_string binary)
  | None => Throw (sdk_error "InvalidCharacterError" [])
  end.

(** The answer of [simulateTransaction]: [None] for a rejected call or a null value. *)
Record UnitsAnswer := mkUnitsAnswer { ua_err : bool; ua_unitsConsumed : option Z }.

Definition safeSimulateUnitsConsumed (answer : option UnitsAnswer) : option Z :=
  value ← answer;
  if ua_err value then None else ua_unitsConsumed value.

Definition unsigned_owner_params (i : BuildUnsignedInput) : BuildOwnerTransactionParams :=
  mkOwnerParams (bi_rpc i) (bi_feePayer i) (bi_instructions i) (default "devnet" (bi_network i))
    (bi_computeUnitLimit i) (bi_computeUnitPrice i) (bi_addressLookupTables i) (bi_blockhash i).

(** [unsignedTxBytes.slice(1 + 64 * numSigs)] *)
Definition message_bytes (unsignedTxBytes : bytes) : bytes :=
  let numSigs := default 0 (head unsignedTxBytes) in
  drop (Z.to_nat (1 + 64 * numSigs)) unsignedTxBytes.

Definition buildUnsigned (decode : bytes -> res SigilError CompiledMessage) (oc : OwnerCaches)
    (w : OwnerWorld) (simulateUnits : string -> option UnitsAnswer) (input : BuildUnsignedInput)
    : res SigilError BuildUnsignedResult * OwnerCaches :=
  let '(built, oc) := buildOwnerTransaction oc w (unsigned_owner_params input) in
  (ownerTx ← built;
   unsignedTxBytes ← base64ToUint8Array (ot_wireBase64 ownerTx);
   message ← decode (message_bytes unsignedTxBytes);
   Ok (mkUnsignedResult unsignedTxBytes (bi_instructions input)
         (if bi_simulate input
          then safeSimulateUnitsConsumed (simulateUnits (ot_wireBase64 ownerTx)) else None)
         (bi_feePayer input) (bh_blockhash (ot_blockhash ownerTx))
         (bh_lastValidBlockHeight (ot_blockhash ownerTx)) message),
   oc).
End owner.
