(* ===== verification/ExecutorSpec.v ===== *)
(** * What the execution pipeline promises

    Nothing reaches the signer unless it was composed from the caller's instructions,
    measured and simulated; a transaction that passes is confirmed; and the unsigned bytes
    an owner gets decode to the message they were built from. *)

From Stdlib Require Import QArith Qround.
From S2P Require Import Prelude Types Accounts Bytes JsText Shield AltLoader Composer RpcHelpers SealSpec Simulation Executor.
Local Open Scope string_scope.
Local Open Scope Z_scope.
Local Open Scope list_scope.

(** ** Lemmas: the stages *)
Lemma qle_inject_bool (q : Q) n z :
  (q == inject_Z n)%Q -> Qle_bool q (inject_Z z) = true -> n <= z.
Proof. intros Hq H%Qle_bool_iff. rewrite Hq in H. by rewrite Zle_Qle. Qed.

Section executor_spec.
Context {Tx : Type} `{lib : !TxLib Tx}.
Implicit Types (ex : TransactionExecutor Tx) (params : ExecuteTransactionParams).

(** The blockhash an execution composes with. *)
Definition execution_blockhash ex (w : ExecWorld) : res SigilError Blockhash :=
  (blockhash_get (te_blockhashCache ex) (ew_now w) (ew_blockhash w) (ew_fetched w)).1.

Definition first_composition params (b : Blockhash) : Tx :=
  executor_compose params b (executor_units params).

(** The simulation of the first composition. *)
Definition execution_simulation ex (w : ExecWorld) params (b : Blockhash) : SimulationResult :=
  simulateBeforeSend
    (ew_simulate w (getBase64EncodedWireTransaction (first_composition params b)))
    (sim_options (ep_vaultMonitoring params) (te_drainThresholds ex)).

Definition fits (tx : Tx) : bool := (measureTransactionSize tx).2.

Lemma composeTransaction_ok ex w params tx cu b :
  (composeTransaction ex w params).1 = Ok (tx, cu, b) <->
  execution_blockhash ex w = Ok b /\ cu = executor_units params /\
  tx = first_composition params b /\ fits tx = true.
Proof.
  unfold composeTransaction, execution_blockhash, first_composition, fits.
  destruct (blockhash_get _ _ _ _) as [[b'|e] c]; cbn [fst]; cbv zeta; [rewrite bind_ok|naive_solver].
  set (t := executor_compose params b' (executor_units params)).
  destruct (measureTransactionSize t) as [[wire size] ok] eqn:Hm. split.
  - intros H. inv_bind H. injection H as <- <- <-. subst t. split_and!; [done..|].
    rewrite Hm. by apply negb_false_iff.
  - intros ([= ->] & -> & -> & Hf). subst t. rewrite Hm in Hf. cbn [snd] in Hf. by subst ok.
Qed.

Lemma composeTransaction_executor ex w params :
  let ex' := (composeTransaction ex w params).2 in
  te_agent ex' = te_agent ex /\ te_skipSimulation ex' = te_skipSimulation ex /\
  te_drainThresholds ex' = te_drainThresholds ex /\ te_confirmOptions ex' = te_confirmOptions ex.
Proof. unfold composeTransaction. by destruct (blockhash_get _ _ _ _). Qed.

Lemma simulation_gate_ok (tx : Tx) sim re r :
  simulation_verdict tx sim re = Ok r <->
  sim_success sim = true /\ FULL_DRAIN ∉ sim_riskFlags sim /\
  r = (default tx re, sim_unitsConsumed sim, sim_riskFlags sim).
Proof.
  unfold simulation_verdict. destruct (sim_success sim); cbn [negb throw_if].
  - rewrite bind_ok. case_bool_decide; cbn [throw_if]; [|rewrite bind_ok]; naive_solver.
  - naive_solver.
Qed.

(** What the first two steps decide to sign, and with which warnings. *)
Definition verdict ex (w : ExecWorld) params : res SigilError (Tx * option Z * list RiskFlag) :=
  '(compiledTx, computeUnits, blockhash) ← (composeTransaction ex w params).1;
  if negb (te_skipSimulation ex) then
    let '(simulation, recomposedTx, _) := simulate ex w params compiledTx computeUnits blockhash in
    simulation_verdict compiledTx simulation recomposedTx
  else Ok (compiledTx, None, []).

Lemma simulate_congr ex ex' w params tx cu b :
  te_drainThresholds ex' = te_drainThresholds ex ->
  simulate ex' w params tx cu b = simulate ex w params tx cu b.
Proof. intros H. unfold simulate. by rewrite H. Qed.

Lemma executeTransaction_unfold ex w params fuel :
  let ex' := (composeTransaction ex w params).2 in
  executeTransaction ex w params fuel =
  match verdict ex w params with
  | Throw e => mkExecRun (Some (Throw e)) ex' [] []
  | Ok (tx, units, warnings) =>
      let '(outcome, sent) := signSendConfirm ex w tx fuel in
      mkExecRun
        ((fun r => signature ← r;
                   Ok (mkExecResult signature units
                        (if (0 <? length warnings)%nat then Some warnings else None)))
         <$> outcome) ex' [tx] sent
  end.
Proof.
  unfold executeTransaction, verdict.
  destruct (composeTransaction_executor ex w params) as (Ha & Hs & Hd & Hc).
  destruct (composeTransaction ex w params) as [composed ex']. cbn [fst snd] in *. rewrite Hs.
  destruct composed as [[[tx cu] b]|e]; [|done]. rewrite !bind_ok, (simulate_congr ex ex') by done.
  destruct (if negb (te_skipSimulation ex) then _ else _) as [[[tx' u] ws]|e]; [|done].
  unfold signSendConfirm. by rewrite Ha, Hc.
Qed.

Lemma verdict_ok ex w params tx units warnings :
  verdict ex w params = Ok (tx, units, warnings) ->
  exists b cu, execution_blockhash ex w = Ok b /\ fits (first_composition params b) = true /\
    tx = executor_compose params b cu /\
    if te_skipSimulation ex then cu = executor_units params /\ warnings = []
    else
      let sim := execution_simulation ex w params b in
      sim_success sim = true /\ FULL_DRAIN ∉ sim_riskFlags sim /\ warnings = sim_riskFlags sim /\
      cu = adjustCU (executor_units params) (sim_unitsConsumed sim).
Proof.
  unfold verdict. intros ([[tx0 cu0] b] & Hcomp & H)%bind_ok_inv.
  apply composeTransaction_ok in Hcomp as (Hb & -> & -> & Hf). exists b.
  destruct (te_skipSimulation ex); cbn [negb] in H.
  { injection H as <- _ <-. by exists (executor_units params). }
  unfold simulate in H. cbv zeta in H. fold (execution_simulation ex w params b) in H.
  set (sim := execution_simulation ex w params b) in *.
  set (cu := adjustCU (executor_units params) (sim_unitsConsumed sim)) in *.
  exists cu. destruct (sim_success sim) eqn:Hs; cbn [negb] in H.
  2: { apply simulation_gate_ok in H as [H _]. congruence. }
  destruct (Z.eqb_spec cu (executor_units params)) as [He|He]; cbn [negb] in H;
    apply simulation_gate_ok in H as (_ & Hd & [= -> _ ->]); split_and!; try done.
  by rewrite He.
Qed.
End executor_spec.

(** ** Nothing is signed unchecked *)
Section executor_safety.
Context {Tx : Type} `{lib : !TxLib Tx} `{laws : !TxLibLaws lib}.
Implicit Types (ex : TransactionExecutor Tx) (params : ExecuteTransactionParams).

(** The message of the sandwich with [cu] compute units. *)
Definition sandwich params (b : Blockhash) (cu : Z) (m : TransactionMessage) : Prop :=
  tm_feePayer m = ep_feePayer params /\ tm_lifetime m = b /\
  Forall2 same_instruction
    (getSetComputeUnitLimitInstruction cu :: priority_fee_ixs (ep_priorityFeeMicroLamports params)
     ++ ep_validateIx params :: ep_defiInstructions params ++ [ep_finalizeIx params])
    (tm_instructions m).

Lemma executor_compose_sandwich params b cu :
  exists m, executor_compose params b cu = compileTransaction m /\ sandwich params b cu m.
Proof.
  eexists. split; [reflexivity|].
  destruct (composed_message_instructions (lib:=lib)
    (mkCompose (ep_feePayer params) (ep_validateIx params) (ep_defiInstructions params)
       (ep_finalizeIx params) b (Some cu) (ep_priorityFeeMicroLamports params)
       (ep_addressLookupTables params))) as (H1 & H2 & H3).
  by split_and!.
Qed.

(** C2: at most one transaction of an execution reaches the signer. It sandwiches exactly the
    caller's instructions between the authorization and the finalization, for the caller's
    fee payer and with the blockhash the first composition was measured with; unless
    simulation was explicitly disabled, that first composition was simulated successfully
    without a full drain, and the compute units are the adjusted ones. Only what the signer
    returned for it is sent. *)
Theorem executor_signs_only_checked ex w params fuel :
  let run := executeTransaction ex w params fuel in
  (length (xr_signed run) <= 1)%nat /\
  (forall tx, tx ∈ xr_signed run ->
    exists b cu m, execution_blockhash ex w = Ok b /\
      fits (first_composition params b) = true /\
      tx = compileTransaction m /\ sandwich params b cu m /\
      if te_skipSimulation ex then cu = executor_units params
      else
        let sim := execution_simulation ex w params b in
        sim_success sim = true /\ FULL_DRAIN ∉ sim_riskFlags sim /\
        cu = adjustCU (executor_units params) (sim_unitsConsumed sim)) /\
  (forall wire, wire ∈ xr_sent run ->
    exists tx, tx ∈ xr_signed run /\ signAndEncode (te_agent ex) tx = Ok wire).
Proof.
  cbv zeta. rewrite executeTransaction_unfold.
  destruct (verdict ex w params) as [[[tx units] warnings]|e] eqn:Hv.
  2: { cbn. split_and!; [lia|set_solver..]. }
  destruct (signSendConfirm ex w tx fuel) as [outcome sent] eqn:Hs. cbn [xr_signed xr_sent length].
  split_and!; [lia|..].
  - intros tx' ->%list_elem_of_singleton.
    apply verdict_ok in Hv as (b & cu & Hb & Hf & -> & Hv).
    destruct (executor_compose_sandwich params b cu) as (m & Hm & Hsw). exists b, cu, m.
    split_and!; [done..|]. destruct (te_skipSimulation ex); naive_solver.
  - intros wire Hw. exists tx. split; [by left|]. unfold signSendConfirm in Hs.
    destruct (signAndEncode _ tx) as [wire'|e]; injection Hs as _ <-; set_solver.
Qed.

(** a simulated full drain stops the transaction. If the simulation of a transaction that
    fits shows the monitored vault account losing at least the blocking share of a positive
    balance, the execution throws the drain error and neither the signer nor the network
    sees anything. *)
Theorem executor_blocks_drain ex w params fuel b m logs units accounts deltas :
  te_skipSimulation ex = false ->
  execution_blockhash ex w = Ok b ->
  fits (first_composition params b) = true ->
  ep_vaultMonitoring params = Some m ->
  vm_vaultAddress m <> "" -> vm_monitorAccounts m <> [] ->
  ew_simulate w (getBase64EncodedWireTransaction (first_composition params b))
    = SimulateValue None logs units (Some accounts) ->
  collect_deltas (Some (vm_preBalances m)) (vm_monitorAccounts m) accounts = Ok deltas ->
  loses_percent
    (mkDrainInput deltas (vm_vaultAddress m) (vm_totalVaultBalance m) (vm_knownRecipients m))
    (block_pct (te_drainThresholds ex)) ->
  let run := executeTransaction ex w params fuel in
  xr_signed run = [] /\ xr_sent run = [] /\
  exists flags, FULL_DRAIN ∈ flags /\ xr_result run = Some (Throw (drain_detected flags)).
Proof.
  intros Hskip Hb Hfit Hvm Hva Hmon Hans Hdel Hloss. cbv zeta. rewrite executeTransaction_unfold.
  set (flags := detectDrainAttempt
    (mkDrainInput deltas (vm_vaultAddress m) (vm_totalVaultBalance m) (vm_knownRecipients m))
    (te_drainThresholds ex)).
  assert (Hfull : FULL_DRAIN ∈ flags).
  { unfold flags, detectDrainAttempt. apply elem_of_app. left. apply outflow_flags_spec. by right. }
  assert (Hsim : execution_simulation ex w params b = mkSimResult true (consumed units) (Some logs) None (Some deltas) flags).
  { unfold execution_simulation, simulateBeforeSend. rewrite Hans, Hvm. cbn [sim_options so_monitorAccounts
      so_vaultAddress so_totalVaultBalance so_preBalances so_knownRecipients so_drainThresholds].
    destruct (vm_monitorAccounts m) as [|a l]; [done|]. rewrite bool_decide_false by done.
    rewrite Hdel. f_equal. destruct deltas as [|d ds]; [|done]. by destruct Hloss as (d & Hd & _). }
  assert (Hv : verdict ex w params = Throw (drain_detected flags)).
  { unfold verdict.
    rewrite (proj2 (composeTransaction_ok ex w params _ _ b) (conj Hb (conj eq_refl (conj eq_refl Hfit)))).
    rewrite bind_ok, Hskip. cbn [negb]. unfold simulate. cbv zeta.
    fold (execution_simulation ex w params b). rewrite Hsim. cbn [sim_success negb].
    destruct (negb _); unfold simulation_verdict; cbn [sim_success sim_riskFlags negb throw_if];
      by rewrite bind_ok, bool_decide_true. }
  rewrite Hv. cbn. eauto.
Qed.
End executor_safety.

(** ** A checked transaction is confirmed *)
Section executor_liveness.
Context {Tx : Type} `{lib : !TxLib Tx}.
Implicit Types (ex : TransactionExecutor Tx) (params : ExecuteTransactionParams).

(** The checks pass for the blockhash [b]. *)
Record checks_pass ex (w : ExecWorld) params (b : Blockhash) : Prop := {
  cp_blockhash_ok : execution_blockhash ex w = Ok b;
  cp_fits : fits (first_composition params b) = true;
  cp_simulated : te_skipSimulation ex = false ->
    sim_success (execution_simulation ex w params b) = true /\
    FULL_DRAIN ∉ sim_riskFlags (execution_simulation ex w params b);
}.

(** The [n]-th poll is the first to find the transaction confirmed, in time. *)
Definition confirmed_at (o : SendAndConfirmOptions) (env : ConfirmEnv) (signature : string)
    (n : nat) : Prop :=
  decides (fun k => confirm_step (default "confirmed" (co_commitment o)) signature (ce_status env k))
    (ce_clock env) (ce_start env + default 30000 (co_timeoutMs o)) n (Ok (Some signature)).

Definition reported_warnings (flags : list RiskFlag) : option (list RiskFlag) :=
  if (0 <? length flags)%nat then Some flags else None.

Lemma verdict_passes ex w params b :
  checks_pass ex w params b ->
  exists tx units, verdict ex w params = Ok (tx, units,
    if te_skipSimulation ex then [] else sim_riskFlags (execution_simulation ex w params b)).
Proof.
  intros [Hb Hf Hs]. unfold verdict.
  rewrite (proj2 (composeTransaction_ok ex w params _ _ b) (conj Hb (conj eq_refl (conj eq_refl Hf)))).
  rewrite bind_ok. destruct (te_skipSimulation ex); cbn [negb]; [eauto|].
  destruct (Hs eq_refl) as [Hok Hd]. unfold simulate. cbv zeta.
  fold (execution_simulation ex w params b). rewrite Hok. cbn [negb].
  destruct (negb _); do 2 eexists; by apply simulation_gate_ok.
Qed.

Lemma sendAndConfirm_confirmed o env signature n fuel :
  confirmed_at o env signature n -> (n < fuel)%nat ->
  sendAndConfirmTransaction o (Ok signature) env fuel = Some (Ok signature).
Proof.
  intros Hn Hf. unfold sendAndConfirmTransaction. cbv zeta.
  by rewrite (poll_loop_decides _ _ _ _ _ _ Hn Hf).
Qed.

(** C40: the pipeline does not get stuck on a good transaction. If the checks pass, the signer
    signs, the network accepts, and some poll before the deadline finds the transaction
    confirmed, then with one round of fuel more than that poll's number the execution
    returns the signature, and reports the flags that did not block as warnings. *)
Theorem executor_completes ex w params b signature n fuel :
  checks_pass ex w params b ->
  (forall tx, is_ok (signAndEncode (te_agent ex) tx) = true) ->
  (forall wire, ew_send w wire = Ok signature) ->
  confirmed_at (te_confirmOptions ex) (ew_confirm w) signature n -> (n < fuel)%nat ->
  exists r, xr_result (executeTransaction ex w params fuel) = Some (Ok r) /\
    er_signature r = signature /\
    er_warnings r =
      if te_skipSimulation ex then None
      else reported_warnings (sim_riskFlags (execution_simulation ex w params b)).
Proof.
  intros Hc Hsign Hsend Hn Hf. rewrite executeTransaction_unfold.
  destruct (verdict_passes ex w params b Hc) as (tx & units & ->).
  unfold signSendConfirm. destruct (is_ok_ex _ (Hsign tx)) as [wire ->].
  rewrite Hsend, (sendAndConfirm_confirmed _ _ _ n) by done.
  eexists. split; [reflexivity|]. split; [done|]. cbn. by destruct (te_skipSimulation ex).
Qed.
End executor_liveness.

(** ** The unsigned bytes are the message *)
Section unsigned.
Context {Tx : Type} `{lib : !TxLib Tx} `{laws : !TxLibLaws lib}.
Context (decode : bytes -> res SigilError CompiledMessage).

(** The documented wire format: the number of signatures as a compact integer, one byte for
    less than 128 of them, that many empty slots of 64 bytes, and the message, which the
    decoder reads back; base64 encoded. *)
Definition wire_format (tx : Tx) : Prop :=
  exists prefix n msg,
    (n < 128 -> prefix = [Z.of_nat n])%nat /\ Forall is_byte prefix /\ Forall is_byte msg /\
    getBase64EncodedWireTransaction tx = b64_encode (prefix ++ replicate (64 * n) 0 ++ msg) /\
    decode msg = Ok (decodeCompiledMessage tx).

Lemma base64ToUint8Array_encode bs :
  Forall is_byte bs -> base64ToUint8Array (b64_encode bs) = Ok bs.
Proof.
  intros Hb. unfold base64ToUint8Array, atob. rewrite b64_decode_encode by done. cbn.
  rewrite String.list_ascii_of_string_of_list_ascii. f_equal.
  rewrite <- list_fmap_compose. induction Hb as [|z l Hz _ IH]; [done|]. cbn. rewrite IH. f_equal.
  unfold code. rewrite Ascii.nat_ascii_embedding by (unfold is_byte in Hz; lia).
  unfold is_byte in Hz. lia.
Qed.

Lemma message_bytes_wire n msg :
  message_bytes (Z.of_nat n :: replicate (64 * n) 0 ++ msg) = msg.
Proof.
  unfold message_bytes. cbn [head default from_option]. unfold id.
  replace (Z.to_nat (1 + 64 * Z.of_nat n)) with (S (64 * n))%nat by lia. cbn [drop].
  apply drop_app_length'. by rewrite length_replicate.
Qed.

Lemma buildOwnerTransaction_ok oc w p r :
  (buildOwnerTransaction (Tx:=Tx) oc w p).1 = Ok r ->
  exists b alts, ot_blockhash r = b /\
    op_instructions p <> [] /\ (owner_blockhash oc w p).1 = Ok b /\ (owner_alts oc w p).1 = Ok alts /\
    ot_transaction r = compileTransaction (owner_message p b alts) /\
    ot_wireBase64 r = getBase64EncodedWireTransaction (ot_transaction r) /\
    Qle_bool (base64ByteLength (ot_wireBase64 r)) (inject_Z MAX_TX_SIZE) = true.
Proof.
  unfold buildOwnerTransaction. case_bool_decide as Hi; [done|].
  destruct (owner_blockhash oc w p) as [bh reg], (owner_alts oc w p) as [alts cache]. cbn [fst].
  cbn [fst]. unfold measureTransactionSize. cbv zeta. intros H. inv_bind H.
  injection H as <-. apply negb_false_iff in Hok1.
  exists a0, a. by split_and!.
Qed.

Lemma owner_message_contents p b alts :
  tm_feePayer (owner_message p b alts) = op_owner p /\
  tm_lifetime (owner_message p b alts) = b /\
  Forall2 same_instruction (owner_instructions p) (tm_instructions (owner_message p b alts)).
Proof.
  unfold owner_message. cbv zeta. destruct (0 <? length alts)%nat.
  - rewrite compress_payer, compress_lifetime. split_and!; [done..|].
    exact (compress_instructions alts (mkMessage (op_owner p) b (owner_instructions p))).
  - split_and!; [done..|]. apply Forall_Forall2_diag, Forall_true, same_instruction_refl.
Qed.

(** the unsigned bytes decode to the message they were built from. Given the documented
    wire format, whenever the owner transaction can be built the unsigned variant succeeds
    too: at most 1232 bytes, of which everything between the signature count and the
    message is empty signature slots; the message it returns is the compiled message of the
    caller's instructions behind the compute budget, for the caller's fee payer, with the
    very blockhash the result names. *)
Theorem buildUnsigned_roundtrip oc w simulateUnits input r :
  (buildOwnerTransaction (Tx:=Tx) oc w (unsigned_owner_params input)).1 = Ok r ->
  wire_format (ot_transaction r) ->
  exists u m n msg,
    (buildUnsigned decode oc w simulateUnits input).1 = Ok u /\
    br_unsignedTxBytes u = Z.of_nat n :: replicate (64 * n) 0 ++ msg /\
    Z.of_nat (length (br_unsignedTxBytes u)) <= MAX_TX_SIZE /\
    ot_transaction r = compileTransaction m /\
    br_message u = decodeCompiledMessage (ot_transaction r) /\
    tm_feePayer m = bi_feePayer input /\
    bh_blockhash (tm_lifetime m) = br_recentBlockhash u /\
    bh_lastValidBlockHeight (tm_lifetime m) = br_lastValidBlockHeight u /\
    Forall2 same_instruction (owner_instructions (unsigned_owner_params input)) (tm_instructions m) /\
    (bi_simulate input = false -> br_estimatedComputeUnits u = None).
Proof.
  intros Hr Hw. pose proof (buildOwnerTransaction_ok _ _ _ _ Hr)
    as (b & alts & Hb & _ & _ & _ & Ht & Hwire & Hsize).
  set (m := owner_message (unsigned_owner_params input) b alts) in *.
  rewrite Ht in Hw. destruct Hw as (prefix & n & msg & Hpre & Hbp & Hbm & Henc & Hdec).
  rewrite Hwire, Ht, Henc in Hsize.
  apply (qle_inject_bool _ _ _ (base64ByteLength_exact _)) in Hsize.
  rewrite !length_app, length_replicate in Hsize.
  assert (Hn : (n < 128)%nat) by (unfold MAX_TX_SIZE in Hsize; lia).
  specialize (Hpre Hn). subst prefix.
  assert (Hbytes : base64ToUint8Array (ot_wireBase64 r)
                   = Ok (Z.of_nat n :: replicate (64 * n) 0 ++ msg)).
  { rewrite Hwire, Ht, Henc. cbn [app]. apply base64ToUint8Array_encode.
    constructor; [unfold is_byte; lia|]. apply Forall_app. split; [|done].
    apply Forall_replicate. unfold is_byte. lia. }
  destruct (owner_message_contents (unsigned_owner_params input) b alts) as (H1 & H2 & H3).
  fold m in H1, H2, H3.
  assert (Hu : exists u, (buildUnsigned decode oc w simulateUnits input).1 = Ok u /\
    u = mkUnsignedResult (Z.of_nat n :: replicate (64 * n) 0 ++ msg) (bi_instructions input)
         (if bi_simulate input
          then safeSimulateUnitsConsumed (simulateUnits (ot_wireBase64 r)) else None)
         (bi_feePayer input) (bh_blockhash b) (bh_lastValidBlockHeight b)
         (decodeCompiledMessage (compileTransaction m))).
  { eexists. split; [|reflexivity]. unfold buildUnsigned.
    destruct (buildOwnerTransaction oc w _) as [built oc']. cbn [fst] in *. subst built.
    by rewrite bind_ok, Hbytes, bind_ok, message_bytes_wire, Hdec, bind_ok, Hb. }
  destruct Hu as (u & Hu & ->). eexists _, m, n, msg. split; [exact Hu|]. cbn.
  rewrite H1, H2, Ht. split_and!; try done.
  - cbn [length app] in Hsize. rewrite length_app, length_replicate. lia.
  - by intros ->.
Qed.
End unsigned.

(** ** Concrete runs *)
Definition demo_wire (m : TransactionMessage) : bytes :=
  concat ((fun ix => (fun b => b mod 256) <$> default [] (ins_data ix)) <$> tm_instructions m).

(** [demo_txlib] with a wire format: one signature slot, then the instructions' data. *)
Definition demo_wirelib : TxLib TransactionMessage := {|
  getSetComputeUnitLimitInstruction := demo_budget_ix;
  getSetComputeUnitPriceInstruction := demo_budget_ix;
  compressTransactionMessage _ m := m;
  compileTransaction m := m;
  getBase64EncodedWireTransaction m := b64_encode (1 :: replicate 64 0 ++ demo_wire m);
  decodeCompiledMessage := demo_compile |}.

Lemma demo_wirelib_laws : TxLibLaws demo_wirelib.
Proof. by destruct demo_txlib_laws as [H1 H2 H3 H4 H5 H6 H7]. Qed.

Definition demo_validate : Instruction := mkInstruction "Sigil" None (Some [1]).
Definition demo_finalize : Instruction := mkInstruction "Sigil" None (Some [2]).

Definition demo_monitoring : VaultMonitoring := mkMonitoring "vaultAta" ["vaultAta"] [("vaultAta", 1000)] 1000 None.

Definition demo_exec_params : ExecuteTransactionParams :=
  mkExecute "Agent" demo_validate [demo_swap] demo_finalize None (Some 1000) None
    (Some demo_monitoring).

Definition demo_executor : TransactionExecutor TransactionMessage :=
  new_executor (mkSigner None (Some (fun txs => Ok (Some (SignedTx <$> txs))))) None.

(** A token account that holds [amount < 256]. *)
Definition token_account (amount : Z) : bytes := replicate 64 0 ++ amount :: replicate 7 0.

Definition demo_exec_world (left_in_vault : Z) : ExecWorld :=
  {| ew_now := 0; ew_blockhash := Ok (mkBlockhash "hash" 42); ew_fetched := 1;
     ew_simulate _ := SimulateValue None [] (Some 500000) (Some [Some (Some (token_account left_in_vault))]);
     ew_send _ := Ok "sig";
     ew_confirm := mkConfirmEnv 0 (fun k => 10 + 5000 * Z.of_nat k)
       (fun k => Ok (if (k <? 2)%nat then None else Some (mkStatus false "confirmed"))) |}.

Abbreviation demo_execute left_in_vault :=
  (@executeTransaction TransactionMessage demo_wirelib demo_executor
     (demo_exec_world left_in_vault) demo_exec_params 10).

(** 1000 base units before; with 200 left the transaction goes through with a warning, with
    10 left it is stopped. *)
Example demo_execute_warns :
  (fun o => match o with Ok r => Some (er_signature r, er_warnings r) | Throw _ => None end)
    <$> xr_result (demo_execute 200) = Some (Some ("sig", Some [LARGE_OUTFLOW])) /\
  (fun tx => (ins_data <$> tm_instructions tx)) <$> xr_signed (demo_execute 200)
    = [[Some [600000]; Some [1000]; Some [1]; Some [193; 32; 155; 51]; Some [2]]] /\
  xr_result (demo_execute 10) = Some (Throw (drain_detected [LARGE_OUTFLOW; FULL_DRAIN])) /\
  xr_signed (demo_execute 10) = [].
Proof. vm_compute. done. Qed.

Lemma executor_blocks_drain_witness :
  exists flags, FULL_DRAIN ∈ flags /\
    xr_result (demo_execute 10) = Some (Throw (drain_detected flags)) /\
    xr_signed (demo_execute 10) = [].
Proof.
  destruct (@executor_blocks_drain TransactionMessage demo_wirelib demo_executor (demo_exec_world 10)
    demo_exec_params 10 (mkBlockhash "hash" 42) demo_monitoring [] (Some 500000)
    [Some (Some (token_account 10))] [mkDelta "vaultAta" 1000 10 (-990)])
    as (Hs & _ & flags & Hf & Hr).
  - reflexivity.
  - reflexivity.
  - vm_compute. reflexivity.
  - reflexivity.
  - discriminate.
  - discriminate.
  - reflexivity.
  - vm_compute. reflexivity.
  - eexists. split; [vm_compute; reflexivity|]. vm_compute. by split_and!.
  - exact (ex_intro _ flags (conj Hf (conj Hr Hs))).
Defined.

Lemma executor_completes_witness :
  exists r, xr_result (demo_execute 200) = Some (Ok r) /\ er_signature r = "sig" /\
    er_warnings r = Some [LARGE_OUTFLOW].
Proof.
  refine (@executor_completes TransactionMessage demo_wirelib demo_executor (demo_exec_world 200)
    demo_exec_params (mkBlockhash "hash" 42) "sig" 2 10 _ _ _ _ _).
  - split; [reflexivity|vm_compute; reflexivity|]. intros _. split; [vm_compute; reflexivity|].
    apply (bool_decide_unpack _). vm_compute. exact I.
  - done.
  - done.
  - split; [|split; [reflexivity|discriminate]].
    intros j Hj. do 2 (destruct j as [|j]; [by split|]). lia.
  - lia.
Defined.

Definition demo_unsigned : BuildUnsignedInput :=
  mkUnsignedInput "rpc" "Squad" [demo_swap] None (Some 9) None (Some [])
    (Some (mkBlockhash "hash" 42)) false.
Definition demo_owner_world : OwnerWorld :=
  mkOwnerWorld 0 (Throw instruction_required) 0 0 (fun _ => None).
Definition demo_owner_caches : OwnerCaches := mkOwnerCaches ∅ (new_alt_cache None None).

(** The message the demonstration builds, and the decoder that knows it. *)
Definition demo_owner_tx : TransactionMessage :=
  mkMessage "Squad" (mkBlockhash "hash" 42) [demo_budget_ix 9; demo_swap].
Definition demo_decode (bs : bytes) : res SigilError CompiledMessage :=
  if decide (bs = demo_wire demo_owner_tx) then Ok (demo_compile demo_owner_tx)
  else Throw (sdk_error "SolanaError" []).

Lemma buildUnsigned_roundtrip_witness :
  exists u, (@buildUnsigned TransactionMessage demo_wirelib demo_decode demo_owner_caches
               demo_owner_world (fun _ => None) demo_unsigned).1 = Ok u /\
    br_message u = demo_compile demo_owner_tx.
Proof.
  set (r := @mkOwnerResult TransactionMessage demo_owner_tx
    (base64ByteLength (@getBase64EncodedWireTransaction _ demo_wirelib demo_owner_tx))
    (@getBase64EncodedWireTransaction _ demo_wirelib demo_owner_tx) (mkBlockhash "hash" 42)).
  destruct (@buildUnsigned_roundtrip TransactionMessage demo_wirelib demo_wirelib_laws demo_decode
    demo_owner_caches demo_owner_world (fun _ => None) demo_unsigned r)
    as (u & _ & _ & _ & Hu & _ & _ & _ & Hm & _).
  - vm_compute. reflexivity.
  - exists [1], 1%nat, (demo_wire demo_owner_tx). split_and!.
    + reflexivity.
    + by repeat constructor.
    + vm_compute. repeat constructor; discriminate.
    + reflexivity.
    + vm_compute. reflexivity.
  - exact (ex_intro _ u (conj Hu Hm)).
Defined.

(** The owner-side builder cannot be used on mainnet without given tables: the program's
    table has no mainnet address yet. *)
Lemma owner_mainnet_throws {Tx} `{lib : !TxLib Tx} oc w p :
  op_network p = "mainnet" -> op_addressLookupTables p = None ->
  is_ok (buildOwnerTransaction (Tx:=Tx) oc w p).1 = false.
Proof.
  intros Hn Ha. unfold buildOwnerTransaction. case_bool_decide; [done|].
  unfold owner_alts. rewrite Hn, Ha. by destruct (owner_blockhash oc w p).
Qed.

Lemma executor_signs_only_checked_witness :
  exists tx b cu m, tx ∈ xr_signed (demo_execute 200) /\ tx = m /\
    sandwich (lib:=demo_wirelib) demo_exec_params b cu m /\
    cu = adjustCU (executor_units demo_exec_params) (Some 500000).
Proof.
  destruct demo_execute_warns as (_ & Hs & _).
  destruct (xr_signed (demo_execute 200)) as [|tx l] eqn:Hl; [discriminate Hs|]. clear Hs.
  assert (Htx : tx ∈ xr_signed (demo_execute 200)) by (rewrite Hl; left).
  destruct (proj1 (proj2 (@executor_signs_only_checked TransactionMessage demo_wirelib
    demo_wirelib_laws demo_executor (demo_exec_world 200) demo_exec_params 10)) tx Htx)
    as (b & cu & m & Hb & _ & Htm & Hsw & _ & _ & Hcu).
  exists tx, b, cu, m. split; [left|]. split; [exact Htm|]. split; [exact Hsw|]. rewrite Hcu.
  by injection Hb as <-.
Defined.
