(* ===== verification/Velocity.v ===== *)
(** * Velocity limits ([sdk/kit/src/velocity-tracker.ts])

    The tracker that blocks rapid-fire transactions and then cools down. It holds a
    reference to the shield's state, which is an argument here, and the clock is the
    argument [now]. *)

From S2P Require Import Prelude Types Accounts StateResolver Policies Ledger Shield.
Local Open Scope string_scope.
Local Open Scope Z_scope.
Local Open Scope list_scope.

Record SpendStatus := mkSpendStatus {
  ss_globalSpent24h : Z;
  ss_globalCap : option Z;
  ss_globalRemaining : option Z;
  ss_agentSpent24h : option Z;
  ss_agentCap : option Z;
  ss_onChain : bool;
}.

Record RapidFireThreshold := mkRapidFire { rf_count : Z; rf_windowMs : Z }.

Record VelocityConfig := mkVelocityConfig {
  vc_maxTxPerMinute : Z;
  vc_maxTxPerHour : Z;
  vc_maxUsdPerHour : Z;
  vc_rapidFire : RapidFireThreshold;
  vc_cooldownMs : Z;
}.

Definition DEFAULT_CONFIG : VelocityConfig :=
  mkVelocityConfig 10 60 500000000 (mkRapidFire 5 10000) 30000.

Record VelocityTracker := mkVelocity {
  vt_config : VelocityConfig;
  vt_cooldownUntil : Z;
  vt_txTimestamps : list Z;
}.

(** The optional fields of the caller's configuration. *)
Definition new_tracker (maxTxPerMinute maxTxPerHour maxUsdPerHour : option Z)
    (rapidFire : option RapidFireThreshold) (cooldownMs : option Z) : VelocityTracker :=
  mkVelocity
    (mkVelocityConfig (default (vc_maxTxPerMinute DEFAULT_CONFIG) maxTxPerMinute)
      (default (vc_maxTxPerHour DEFAULT_CONFIG) maxTxPerHour)
      (default (vc_maxUsdPerHour DEFAULT_CONFIG) maxUsdPerHour)
      (default (vc_rapidFire DEFAULT_CONFIG) rapidFire)
      (default (vc_cooldownMs DEFAULT_CONFIG) cooldownMs)) 0 [].

Definition isInCooldown (vt : VelocityTracker) (now : Z) : bool := now <? vt_cooldownUntil vt.

Definition getCooldownRemainingMs (vt : VelocityTracker) (now : Z) : Z :=
  let remaining := vt_cooldownUntil vt - now in
  if remaining >? 0 then remaining else 0.

Definition cooldown_violation (remainingMs : Z) : PolicyViolation :=
  mkViolation "velocity_cooldown"
    ("Velocity cooldown active " +:+ pretty (- ((- remainingMs) / 1000)) +:+ "s remaining")
    "Wait for the cooldown period to expire".

Section velocity.
Context {C : Type}.
Implicit Types (s : ShieldState C) (vt : VelocityTracker).

(** Checks 1-3b, on the shield's state. *)
Definition state_violations vt s (now : Z) : list PolicyViolation :=
  let cfg := vt_config vt in
  let txPerMinute := getTransactionCountInWindow s 60000 now in
  let txPerHour := getTransactionCountInWindow s 3600000 now in
  let usdPerHour := getTotalSpendInWindow s 3600000 now in
  (if txPerMinute >=? vc_maxTxPerMinute cfg then
     [mkViolation "velocity_tx_per_minute"
        ("Transaction rate " +:+ pretty txPerMinute +:+ "/" +:+ pretty (vc_maxTxPerMinute cfg)
           +:+ " per minute exceeded") "Wait before sending more transactions"] else [])
  ++ (if txPerHour >=? vc_maxTxPerHour cfg then
     [mkViolation "velocity_tx_per_hour"
        ("Transaction rate " +:+ pretty txPerHour +:+ "/" +:+ pretty (vc_maxTxPerHour cfg)
           +:+ " per hour exceeded") "Wait before sending more transactions"] else [])
  ++ (if usdPerHour >=? vc_maxUsdPerHour cfg then
     [mkViolation "velocity_usd_per_hour"
        ("Hourly USD spend " +:+ pretty usdPerHour +:+ " exceeds ceiling "
           +:+ pretty (vc_maxUsdPerHour cfg))
        "Reduce transaction amounts or wait for the window to reset"] else [])
  ++ match resolvedState s with
     | Some rs =>
         let effectiveSpent := getEffectiveGlobalSpent24h s in
         if effectiveSpent >=? cap (globalBudget rs) then
           [mkViolation "velocity_on_chain_cap"
              ("On-chain daily cap reached: " +:+ pretty effectiveSpent +:+ " >= "
                 +:+ pretty (cap (globalBudget rs)))
              "Wait for the 24h rolling window to expire some spend"] else []
     | None => []
     end.

(** Check 4: the timestamps still in the window, and the violation if one more is too many. *)
Definition recent_timestamps vt (now : Z) : list Z :=
  let cutoff := now - rf_windowMs (vc_rapidFire (vt_config vt)) in
  filter (fun t => cutoff <= t) (vt_txTimestamps vt).

Definition rapid_fire_violations vt (recent : list Z) : list PolicyViolation :=
  let rf := vc_rapidFire (vt_config vt) in
  let wouldBeCount := Z.of_nat (length recent) + 1 in
  if wouldBeCount >=? rf_count rf then
    [mkViolation "velocity_rapid_fire"
       ("Rapid-fire detected: " +:+ pretty wouldBeCount +:+ " transactions in "
          +:+ pretty (rf_windowMs rf) +:+ "ms")
       "Possible agent manipulation - transactions blocked"] else [].

Definition check vt s (now : Z) (dryRun : bool) : VelocityTracker * res shield_error unit :=
  if isInCooldown vt now then
    (vt, Throw (Denied [cooldown_violation (vt_cooldownUntil vt - now)]))
  else
    let recent := recent_timestamps vt now in
    let violations := state_violations vt s now ++ rapid_fire_violations vt recent in
    if (0 <? length violations)%nat then
      (mkVelocity (vt_config vt) (now + vc_cooldownMs (vt_config vt)) recent,
       Throw (Denied violations))
    else
      (mkVelocity (vt_config vt) (vt_cooldownUntil vt) (if dryRun then recent else recent ++ [now]),
       Ok tt).

Definition recordTransaction s (usdAmount : option Z) (now : Z) : ShieldState C :=
  let s := Shield.recordTransaction s now in
  match usdAmount with
  | Some amount => Shield.recordSpend s "" amount now
  | None => s
  end.

Definition reset vt : VelocityTracker := mkVelocity (vt_config vt) 0 [].

Definition getSpendStatus s (now : Z) : SpendStatus :=
  match resolvedState s with
  | Some rs =>
      mkSpendStatus (getEffectiveGlobalSpent24h s) (Some (cap (globalBudget rs)))
        (getEffectiveGlobalRemaining s) (getEffectiveAgentSpent24h s) (cap <$> agentBudget rs) true
  | None => mkSpendStatus (getTotalSpendInWindow s 86400000 now) None None None None false
  end.

Definition getStats vt s (now : Z) : Z * Z * Z * bool * Z :=
  (getTransactionCountInWindow s 60000 now, getTransactionCountInWindow s 3600000 now,
   getTotalSpendInWindow s 3600000 now, isInCooldown vt now, getCooldownRemainingMs vt now).

(** ** Sessions

    A session is a list of checks, each with the shield's state and clock at that moment;
    its events are the accepted calls, the breaches and the calls refused by a cooldown. *)
Inductive velocity_event :=
  | Accepted (now : Z) (dryRun : bool)
  | Breached (now : Z)
  | CooledDown (now : Z).

Definition event_of vt s (now : Z) (dryRun : bool) : velocity_event :=
  match (check vt s now dryRun).2 with
  | Ok _ => Accepted now dryRun
  | Throw _ => if isInCooldown vt now then CooledDown now else Breached now
  end.

Fixpoint session vt (steps : list (ShieldState C * Z * bool)) : list velocity_event :=
  match steps with
  | [] => []
  | (s, now, dryRun) :: steps' =>
      event_of vt s now dryRun :: session (check vt s now dryRun).1 steps'
  end.

(** The transactions let through: accepted checks that were not dry runs. *)
Definition sent (evs : list velocity_event) : list Z :=
  omap (fun e => match e with Accepted now false => Some now | _ => None end) evs.

Lemma sent_cons e evs : sent (e :: evs) = sent [e] ++ sent evs.
Proof. by destruct e as [t []|t|t]. Qed.

(** The clock does not run backwards. *)
Fixpoint clocked (last : Z) (steps : list (ShieldState C * Z * bool)) : Prop :=
  match steps with
  | [] => True
  | (_, now, _) :: steps' => last <= now /\ clocked now steps'
  end.

Definition window vt : Z := rf_windowMs (vc_rapidFire (vt_config vt)).
Definition threshold vt : Z := rf_count (vc_rapidFire (vt_config vt)).

(** How many of [ts] lie in the closed window that ends at [t]. *)
Definition in_window (w t : Z) (ts : list Z) : Z :=
  Z.of_nat (length (filter (fun x => t - w <= x /\ x <= t) ts)).

(** What the tracker remembers of the transactions [past] sent so far. *)
Record remembers vt (past : list Z) (last : Z) : Prop := {
  rem_past : Forall (fun x => x <= last) past;
  rem_recent : forall cutoff, last - window vt <= cutoff ->
    filter (fun x => cutoff <= x) (vt_txTimestamps vt) = filter (fun x => cutoff <= x) past;
  rem_bound : forall t, in_window (window vt) t past <= Z.max 0 (threshold vt - 1);
}.

Lemma filter_filter_le c c' (l : list Z) :
  c <= c' -> filter (fun x => c' <= x) (filter (fun x => c <= x) l) = filter (fun x => c' <= x) l.
Proof.
  intros Hc. induction l as [|x l IH]; [done|]. rewrite !(filter_cons _ x).
  destruct (decide (c <= x)); rewrite ?filter_cons, IH; [done|].
  rewrite decide_False; [done|lia].
Qed.

Lemma length_filter_le (P Q : Z -> Prop) `{forall x, Decision (P x)} `{forall x, Decision (Q x)} l :
  (forall x, x ∈ l -> P x -> Q x) -> (length (filter P l) <= length (filter Q l))%nat.
Proof.
  induction l as [|x l IH]; intros Hpq; [done|]. rewrite !filter_cons.
  assert (length (filter P l) <= length (filter Q l))%nat by (apply IH; set_solver).
  destruct (decide (P x)), (decide (Q x)); simpl; try lia.
  exfalso. assert (Q x) by (apply Hpq; [left|done]). done.
Qed.

(** One check: what it does to the tracker in each of its three outcomes. *)
Lemma check_cases vt s now dryRun :
  let r := check vt s now dryRun in
  vt_config r.1 = vt_config vt /\
  match event_of vt s now dryRun with
  | CooledDown t => t = now /\ now < vt_cooldownUntil vt /\ r.1 = vt
  | Breached t => t = now /\ vt_cooldownUntil vt <= now /\
      r.1 = mkVelocity (vt_config vt) (now + vc_cooldownMs (vt_config vt)) (recent_timestamps vt now)
  | Accepted t dry => t = now /\ dry = dryRun /\ vt_cooldownUntil vt <= now /\
      Z.of_nat (length (recent_timestamps vt now)) + 1 < threshold vt /\
      r.1 = mkVelocity (vt_config vt) (vt_cooldownUntil vt)
              (if dryRun then recent_timestamps vt now else recent_timestamps vt now ++ [now])
  end.
Proof.
  unfold event_of, check, isInCooldown. destruct (Z.ltb_spec now (vt_cooldownUntil vt)) as [Hc|Hc].
  { simpl. done. }
  unfold rapid_fire_violations, threshold.
  destruct (Z.geb_spec (Z.of_nat (length (recent_timestamps vt now)) + 1)
    (rf_count (vc_rapidFire (vt_config vt)))) as [Hge|Hlt].
  - rewrite length_app. simpl length. rewrite (proj2 (Nat.ltb_lt _ _)) by lia. cbn. done.
  - rewrite app_nil_r. destruct (0 <? length (state_violations vt s now))%nat; cbn; [done|].
    split_and!; done || lia.
Qed.

Lemma in_window_app w t l1 l2 : in_window w t (l1 ++ l2) = in_window w t l1 + in_window w t l2.
Proof. unfold in_window. rewrite filter_app, length_app. lia. Qed.

Lemma remembers_step vt s now dryRun past last :
  0 <= window vt -> remembers vt past last -> last <= now ->
  remembers (check vt s now dryRun).1
    (past ++ sent [event_of vt s now dryRun]) now.
Proof.
  intros Hw [Hp Hr Hb] Hn. pose proof (check_cases vt s now dryRun) as [Hcfg Hev]. cbv zeta in *.
  assert (Hrec : forall cutoff, now - window vt <= cutoff ->
    filter (fun x => cutoff <= x) (recent_timestamps vt now) = filter (fun x => cutoff <= x) past).
  { intros cutoff Hc. unfold recent_timestamps. fold (window vt).
    rewrite filter_filter_le by done. apply Hr. lia. }
  assert (Hp' : Forall (fun x => x <= now) past) by (eapply Forall_impl; [exact Hp|]; cbn; lia).
  destruct (event_of vt s now dryRun) as [t dry|t|t].
  - destruct Hev as (-> & -> & _ & Hlt & Hvt). rewrite Hvt. destruct dryRun; cbn.
    + rewrite app_nil_r. by split.
    + split; [apply Forall_app; split; [done|by repeat constructor]| |].
      * intros cutoff Hc. cbn. rewrite !filter_app. f_equal. by apply Hrec.
      * intros t. change (in_window (window vt) t (past ++ [now]) <= Z.max 0 (threshold vt - 1)).
        destruct (Z.lt_ge_cases t now) as [Ht|Ht].
        -- rewrite in_window_app. unfold in_window at 2. rewrite filter_cons, decide_False by lia.
           simpl length. specialize (Hb t). lia.
        -- rewrite in_window_app. assert (in_window (window vt) t [now] <= 1).
           { unfold in_window. rewrite filter_cons. case_decide; simpl; lia. }
           assert (in_window (window vt) t past <= Z.of_nat (length (recent_timestamps vt now))).
           { unfold in_window. apply inj_le.
             transitivity (length (filter (fun x => now - window vt <= x) past)).
             - apply length_filter_le. intros x _ [Hx _]. lia.
             - rewrite <- (Hrec (now - window vt)) by lia. apply length_filter. }
           lia.
  - destruct Hev as (-> & _ & Hvt). rewrite Hvt. cbn. rewrite app_nil_r. by split.
  - destruct Hev as (-> & _ & Hvt). rewrite Hvt. cbn. rewrite app_nil_r. split; [done| |done].
    intros cutoff Hc. apply Hr. lia.
Qed.

Lemma session_remembers vt steps past last :
  0 <= window vt -> remembers vt past last -> clocked last steps ->
  forall t, in_window (window vt) t (past ++ sent (session vt steps)) <= Z.max 0 (threshold vt - 1).
Proof.
  revert vt past last. induction steps as [|[[s now] dryRun] steps IH]; intros vt past last Hw Hr Hc t.
  - cbn. rewrite app_nil_r. apply Hr.
  - destruct Hc as [Hn Hc]. cbn [session].
    pose proof (remembers_step vt s now dryRun past last Hw Hr Hn) as Hr'.
    pose proof (proj1 (check_cases vt s now dryRun)) as Hcfg.
    specialize (IH _ _ _ ltac:(unfold window in *; by rewrite Hcfg) Hr' Hc t).
    unfold window, threshold in *. rewrite Hcfg in IH. rewrite <- app_assoc in IH.
    rewrite <- sent_cons in IH. exact IH.
Qed.

(** No check succeeds before the cooldown in force is over. *)
Lemma session_after_cooldown vt steps last t dry :
  0 <= vc_cooldownMs (vt_config vt) -> clocked last steps ->
  Accepted t dry ∈ session vt steps -> vt_cooldownUntil vt <= t.
Proof.
  intros Hcd. revert vt last Hcd.
  induction steps as [|[[s now] dryRun] steps IH]; intros vt last Hcd Hc Hin; [set_solver|].
  destruct Hc as [Hn Hc]. cbn [session] in Hin. pose proof (check_cases vt s now dryRun) as [Hcfg Hev].
  cbv zeta in *. apply elem_of_cons in Hin as [Heq|Hin].
  - rewrite <- Heq in Hev. by destruct Hev as (-> & _ & ? & _).
  - specialize (IH _ now ltac:(by rewrite Hcfg) Hc Hin).
    destruct (event_of vt s now dryRun) as [t' d'|t'|t'].
    + destruct Hev as (_ & _ & _ & _ & Hvt). rewrite Hvt in IH. done.
    + destruct Hev as (-> & ? & Hvt). rewrite Hvt in IH. cbn in IH. lia.
    + destruct Hev as (_ & _ & Hvt). by rewrite Hvt in IH.
Qed.

(** a velocity tracker enforces its limits over whole sessions. Whatever the shield's
    state does between the checks, as long as the clock does not run backwards: in every
    window of [windowMs] milliseconds fewer than [count] transactions are let through, dry
    runs not counted; and after a breach nothing is let through, dry run or not, until
    [cooldownMs] milliseconds have passed. *)
Theorem velocity_session_limits vt steps :
  0 <= window vt -> 0 <= vc_cooldownMs (vt_config vt) -> vt_txTimestamps vt = [] ->
  (exists start, clocked start steps) ->
  (forall t, in_window (window vt) t (sent (session vt steps)) <= Z.max 0 (threshold vt - 1)) /\
  (forall before b after t dry,
    session vt steps = before ++ Breached b :: after -> Accepted t dry ∈ after ->
    b + vc_cooldownMs (vt_config vt) <= t).
Proof.
  intros Hw Hcd Hempty [start Hc]. split.
  - apply (session_remembers vt steps [] start Hw); [|done]. split; [constructor| |].
    + intros cutoff _. by rewrite Hempty.
    + intros t. unfold in_window. cbn. lia.
  - clear Hempty Hw. revert vt start Hcd Hc.
    induction steps as [|[[s now] dryRun] steps IH]; intros vt start Hcd Hc before b after t dry Hs Hin.
    { by destruct before. }
    destruct Hc as [_ Hc]. cbn [session] in Hs.
    pose proof (check_cases vt s now dryRun) as [Hcfg Hev]. cbv zeta in *.
    destruct before as [|e before]; simplify_eq/=.
    + rewrite H in Hev. destruct Hev as (-> & _ & Hvt).
      apply (session_after_cooldown _ _ now _ _ ltac:(by rewrite Hcfg) Hc) in Hin.
      by rewrite Hvt in Hin.
    + rewrite <- Hcfg. by apply (IH _ now ltac:(by rewrite Hcfg) Hc before b after t dry).
Qed.
End velocity.

(** Five checks in the default configuration: the fifth within ten seconds breaches, the
    next is refused, and one after the cooldown passes. *)
Definition demo_steps : list (ShieldState unit * Z * bool) :=
  (fun n => (new_state, n, false)) <$> [100000; 101000; 102000; 103000; 104000; 105000; 140000].

Lemma velocity_session_limits_witness :
  session (new_tracker None None None None None) demo_steps =
    [Accepted 100000 false; Accepted 101000 false; Accepted 102000 false; Accepted 103000 false;
     Breached 104000; CooledDown 105000; Accepted 140000 false] /\
  in_window 10000 104000 (sent (session (new_tracker None None None None None) demo_steps)) <= 4.
Proof.
  split; [vm_compute; reflexivity|].
  assert (Hc : exists start, clocked start demo_steps).
  { exists 0. cbn. repeat (split; [lia|]). exact I. }
  apply (proj1 (velocity_session_limits (new_tracker None None None None None) demo_steps
    ltac:(vm_compute; discriminate) ltac:(vm_compute; discriminate) eq_refl Hc) 104000).
Defined.
