(* ===== verification/PostAssertions.v ===== *)
(** * Post-execution assertions ([post-assertions/cross-field-lte.ts],
    [post-assertions/presets/flash-trade.ts], [dashboard/post-assertion-validation.ts])

    The builders of leverage caps and the dashboard's validator, beside the program's own
    validator, packing and check ([state/post_assertions.rs],
    [instructions/finalize_session.rs], [integrations/generic_constraints.rs]). *)

From S2P Require Import Prelude Types Accounts Bytes.
Local Open Scope string_scope.
Local Open Scope Z_scope.
Local Open Scope list_scope.

(** ** Entries

    A numeric field of an untyped caller: [None] is a value that is not an integer number
    (a fraction, [NaN], another type). *)
Abbreviation js_int := (option Z).

Record PostAssertionEntry := mkPostAssertion {
  targetAccount : Address;
  pa_offset : js_int;
  valueLen : js_int;
  pa_operator : js_int;
  expectedValue : bytes;
  assertionMode : js_int;
  crossFieldOffsetB : js_int;
  crossFieldMultiplierBps : js_int;
  crossFieldFlags : js_int;
}.

(** ** The dashboard's validator *)
Definition MAX_POST_ASSERTION_ENTRIES : Z := 4.
Definition MAX_CONSTRAINT_VALUE_LEN : Z := 32.
Definition MAX_OPERATOR_VALUE : Z := 6.
Definition MAX_ASSERTION_MODE_VALUE : Z := 3.
Definition CROSS_FIELD_LTE_FLAG : Z := 1.
Definition CROSS_FIELD_MAX_VALUE_LEN : Z := 8.
Definition DELTA_MAX_VALUE_LEN : Z := 8.

Inductive PostAssertionValidationCode :=
  | entries_not_an_array
  | entries_contain_null
  | entry_count_out_of_range
  | value_len_out_of_range
  | expected_value_too_short
  | operator_out_of_range
  | assertion_mode_out_of_range
  | offset_out_of_range
  | cross_field_offset_b_out_of_range
  | cross_field_multiplier_bps_out_of_range
  | cross_field_flags_out_of_range
  | delta_mode_value_len_too_large
  | cross_field_value_len_too_large
  | cross_field_requires_absolute_mode
  | cross_field_multiplier_must_be_positive
  | cross_field_unknown_flags
  | cross_field_disabled_fields_must_be_zero.

Definition DX_CODE_POST_ASSERTION_VALIDATION : Z := 7008.

Record PostAssertionValidationError := mkPaError {
  pv_code : Z;
  pv_validationCode : PostAssertionValidationCode;
  pv_entryIndex : option nat;
}.

Definition pa_error (c : PostAssertionValidationCode) (i : option nat) : PostAssertionValidationError :=
  mkPaError DX_CODE_POST_ASSERTION_VALIDATION c i.

(** Returns the checked value. *)
Definition requireUintInRange (value : js_int) (max : Z) (c : PostAssertionValidationCode)
    (index : nat) : res PostAssertionValidationError Z :=
  match value with
  | Some v => if (v <? 0) || (v >? max) then Throw (pa_error c (Some index)) else Ok v
  | None => Throw (pa_error c (Some index))
  end.

Definition validateSingleEntry (entry : PostAssertionEntry) (index : nat)
    : res PostAssertionValidationError unit :=
  let fail c := pa_error c (Some index) in
  _offset ← requireUintInRange (pa_offset entry) 65535 offset_out_of_range index;
  valueLen ← requireUintInRange (valueLen entry) MAX_CONSTRAINT_VALUE_LEN value_len_out_of_range index;
  _operator ← requireUintInRange (pa_operator entry) MAX_OPERATOR_VALUE operator_out_of_range index;
  assertionMode ← requireUintInRange (assertionMode entry) MAX_ASSERTION_MODE_VALUE
                    assertion_mode_out_of_range index;
  offsetB ← requireUintInRange (crossFieldOffsetB entry) 65535 cross_field_offset_b_out_of_range index;
  multiplier ← requireUintInRange (crossFieldMultiplierBps entry) 4294967295
                 cross_field_multiplier_bps_out_of_range index;
  flags ← requireUintInRange (crossFieldFlags entry) 255 cross_field_flags_out_of_range index;
  throw_if (valueLen =? 0) (fail value_len_out_of_range) ;;
  throw_if (Z.of_nat (length (expectedValue entry)) <? valueLen) (fail expected_value_too_short) ;;
  throw_if ((assertionMode >=? 1) && (assertionMode <=? 3) && (valueLen >? DELTA_MAX_VALUE_LEN))
    (fail delta_mode_value_len_too_large) ;;
  if negb (Z.land flags CROSS_FIELD_LTE_FLAG =? 0) then
    throw_if (valueLen >? CROSS_FIELD_MAX_VALUE_LEN) (fail cross_field_value_len_too_large) ;;
    throw_if (negb (assertionMode =? 0)) (fail cross_field_requires_absolute_mode) ;;
    throw_if (multiplier =? 0) (fail cross_field_multiplier_must_be_positive) ;;
    throw_if (negb (Z.land flags 254 =? 0)) (fail cross_field_unknown_flags)
  else
    throw_if (negb (offsetB =? 0) || negb (multiplier =? 0))
      (fail cross_field_disabled_fields_must_be_zero).

(** A slot of the array: [forEach] skips holes; [null] and [undefined] are refused. *)
Inductive entry_slot := Hole | Nullish | Entry (e : PostAssertionEntry).

Definition validate_slot (index : nat) (s : entry_slot) : res PostAssertionValidationError unit :=
  match s with
  | Hole => Ok tt
  | Nullish => Throw (pa_error entries_contain_null (Some index))
  | Entry e => validateSingleEntry e index
  end.

(** [None] is an argument that is no array. *)
Definition validatePostAssertionEntries (entries : option (list entry_slot))
    : res PostAssertionValidationError unit :=
  match entries with
  | None => Throw (pa_error entries_not_an_array None)
  | Some entries =>
      let n := Z.of_nat (length entries) in
      throw_if ((n =? 0) || (n >? MAX_POST_ASSERTION_ENTRIES)) (pa_error entry_count_out_of_range None) ;;
      for_each_from 0 validate_slot entries
  end.

(** ** [leverageCapLteBps] *)
Definition JUPITER_PERPS_PROGRAM_ADDRESS : Address := "PERPHjGBqRHArX4DySjwM6UJHiR3sWAatqfdBS2qQJu".
Definition CROSS_FIELD_VALUE_LEN : Z := 8.
Definition ABSOLUTE_ASSERTION_MODE : Z := 0.
Definition LTE_OPERATOR : Z := 3.
Definition MAX_U16 : Z := 65535.
Definition MAX_U32 : Z := 4294967295.

Inductive leverage_error :=
  | JupiterPerpsPostAssertionUnsupportedError
  | LeverageRangeError (field : string)
  | FlashTradeLeverageOutOfRangeError (code : Z).

Record LeverageCapLteOpts := mkLeverage {
  lo_targetAccount : Address;
  lo_targetAccountOwnerProgram : Address;
  lo_fieldAOffset : js_int;
  lo_fieldBOffset : js_int;
  lo_maxBps : js_int;
}.

Definition requireIntegerInRange (value : js_int) (field : string) (min max : Z)
    : res leverage_error Z :=
  match value with
  | Some v => if (v <? min) || (v >? max) then Throw (LeverageRangeError field) else Ok v
  | None => Throw (LeverageRangeError field)
  end.

Definition leverageCapLteBps (opts : LeverageCapLteOpts) : res leverage_error PostAssertionEntry :=
  throw_if (bool_decide (lo_targetAccountOwnerProgram opts = JUPITER_PERPS_PROGRAM_ADDRESS))
    JupiterPerpsPostAssertionUnsupportedError ;;
  fieldAOffset ← requireIntegerInRange (lo_fieldAOffset opts) "fieldAOffset" 0 MAX_U16;
  fieldBOffset ← requireIntegerInRange (lo_fieldBOffset opts) "fieldBOffset" 0 MAX_U16;
  throw_if (fieldAOffset =? fieldBOffset) (LeverageRangeError "fieldAOffset and fieldBOffset must differ") ;;
  maxBps ← requireIntegerInRange (lo_maxBps opts) "maxBps" 1 MAX_U32;
  Ok {| targetAccount := lo_targetAccount opts; pa_offset := Some fieldAOffset;
        valueLen := Some CROSS_FIELD_VALUE_LEN; pa_operator := Some LTE_OPERATOR;
        expectedValue := replicate (Z.to_nat CROSS_FIELD_VALUE_LEN) 0;
        assertionMode := Some ABSOLUTE_ASSERTION_MODE; crossFieldOffsetB := Some fieldBOffset;
        crossFieldMultiplierBps := Some maxBps; crossFieldFlags := Some CROSS_FIELD_LTE_FLAG |}.

(** ** The Flash Trade preset *)
Definition FLASH_TRADE_PROGRAM_ADDRESS : Address := "FLaSh6f6Y5bLsmcfiaxvqRJC3WQLKYh1iCfAsh7uMH8z".
Definition FLASH_TRADE_POSITION_SIZE_USD_OFFSET : Z := 140.
Definition FLASH_TRADE_POSITION_COLLATERAL_USD_OFFSET : Z := 172.
Definition MIN_LEVERAGE_X : Z := 1.
Definition MAX_LEVERAGE_X : Z := 100.

Definition flashTradeLeverageCap (positionAccount : Address) (maxLeverage : js_int)
    : res leverage_error PostAssertionEntry :=
  match maxLeverage with
  | Some x =>
      if (x <? MIN_LEVERAGE_X) || (x >? MAX_LEVERAGE_X) then
        Throw (FlashTradeLeverageOutOfRangeError 7009)
      else
        leverageCapLteBps (mkLeverage positionAccount FLASH_TRADE_PROGRAM_ADDRESS
          (Some FLASH_TRADE_POSITION_SIZE_USD_OFFSET) (Some FLASH_TRADE_POSITION_COLLATERAL_USD_OFFSET)
          (Some (x * 10000)))
  | None => Throw (FlashTradeLeverageOutOfRangeError 7009)
  end.

(** ** The program: instruction parameters, validation and packing *)
Record ChainPostAssertion := mkChainPa {
  cpa_target_account : Address;
  cpa_offset : Z;
  cpa_value_len : Z;
  cpa_operator : Z;
  cpa_expected_value : bytes;
  cpa_assertion_mode : Z;
  cpa_cross_field_offset_b : Z;
  cpa_cross_field_multiplier_bps : Z;
  cpa_cross_field_flags : Z;
}.

Inductive chain_error :=
  | InvalidConstraintConfig
  | InvalidConstraintOperator
  | PostAssertionFailed
  | InvalidPostAssertionIndex
  | SnapshotNotCaptured
  | Overflow
  | Panic.

Inductive ByteOperator := OpEq | OpNe | OpGte | OpLte | OpGteSigned | OpLteSigned | OpBitmask.

Definition operator_try_from (v : Z) : option ByteOperator :=
  if v =? 0 then Some OpEq else if v =? 1 then Some OpNe else if v =? 2 then Some OpGte
  else if v =? 3 then Some OpLte else if v =? 4 then Some OpGteSigned
  else if v =? 5 then Some OpLteSigned else if v =? 6 then Some OpBitmask else None.

Inductive AssertionMode := Absolute | MaxDecrease | MaxIncrease | NoChange.

Definition mode_try_from (v : Z) : option AssertionMode :=
  if v =? 0 then Some Absolute else if v =? 1 then Some MaxDecrease
  else if v =? 2 then Some MaxIncrease else if v =? 3 then Some NoChange else None.

Definition require (c : bool) (e : chain_error) : res chain_error unit := throw_if (negb c) e.

Definition validate_assertion (e : ChainPostAssertion) : res chain_error unit :=
  require ((cpa_value_len e >? 0) && (cpa_value_len e <=? MAX_CONSTRAINT_VALUE_LEN))
    InvalidConstraintConfig ;;
  require (Z.of_nat (length (cpa_expected_value e)) >=? cpa_value_len e) InvalidConstraintConfig ;;
  require (bool_decide (is_Some (operator_try_from (cpa_operator e)))) InvalidConstraintOperator ;;
  require (bool_decide (is_Some (mode_try_from (cpa_assertion_mode e)))) InvalidConstraintConfig ;;
  (if (cpa_assertion_mode e >=? 1) && (cpa_assertion_mode e <=? 3)
   then require (cpa_value_len e <=? 8) InvalidConstraintConfig else Ok tt) ;;
  if negb (Z.land (cpa_cross_field_flags e) 1 =? 0) then
    require (cpa_value_len e <=? 8) InvalidConstraintConfig ;;
    require (cpa_assertion_mode e =? 0) InvalidConstraintConfig ;;
    require (cpa_cross_field_multiplier_bps e >? 0) InvalidConstraintConfig ;;
    require (Z.land (cpa_cross_field_flags e) 254 =? 0) InvalidConstraintConfig
  else
    require ((cpa_cross_field_offset_b e =? 0) && (cpa_cross_field_multiplier_bps e =? 0))
      InvalidConstraintConfig.

Definition validate_assertions (entries : list ChainPostAssertion) : res chain_error unit :=
  require ((0 <? length entries)%nat && (Z.of_nat (length entries) <=? MAX_POST_ASSERTION_ENTRIES))
    InvalidConstraintConfig ;;
  for_each validate_assertion entries.

(** The packed entry: the expected value padded to, or cut at, 32 bytes. *)
Definition pack_expected (v : bytes) : bytes :=
  take 32 v ++ replicate (32 - length (take 32 v)) 0.

Definition pack_entry (e : ChainPostAssertion) : ChainPostAssertion :=
  mkChainPa (cpa_target_account e) (cpa_offset e) (cpa_value_len e) (cpa_operator e)
    (pack_expected (cpa_expected_value e)) (cpa_assertion_mode e) (cpa_cross_field_offset_b e)
    (cpa_cross_field_multiplier_bps e) (cpa_cross_field_flags e).

(** ** The program: the check in [finalize_session] *)

(** From the highest byte down; a missing byte reads [pad]. *)
Fixpoint compare_le (pad_a pad_b : Z) (a b : bytes) (n : nat) : Z :=
  match n with
  | O => 0
  | S i =>
      let x := default pad_a (a !! i) in
      let y := default pad_b (b !! i) in
      if x >? y then 1 else if x <? y then -1 else compare_le pad_a pad_b a b i
  end.

Definition compare_le_unsigned (a b : bytes) : Z := compare_le 0 0 a b (Nat.max (length a) (length b)).

Definition le_negative (a : bytes) : bool :=
  match last a with Some x => negb (Z.land x 128 =? 0) | None => false end.

Definition compare_le_signed (a b : bytes) : Z :=
  let a_negative := le_negative a in
  let b_negative := le_negative b in
  if a_negative && negb b_negative then -1
  else if negb a_negative && b_negative then 1
  else
    let pad := if a_negative then 255 else 0 in
    compare_le pad pad a b (Nat.max (length a) (length b)).

Definition bitmask_check (actual mask : bytes) : bool :=
  forallb (fun im => Z.land (byte_at actual im.1) im.2 =? im.2) (imap pair mask).

Definition bytes_match (actual : bytes) (op : ByteOperator) (expected : bytes) : bool :=
  match op with
  | OpEq => bool_decide (actual = expected)
  | OpNe => bool_decide (actual <> expected)
  | OpGte => compare_le_unsigned actual expected >=? 0
  | OpLte => compare_le_unsigned actual expected <=? 0
  | OpGteSigned => compare_le_signed actual expected >=? 0
  | OpLteSigned => compare_le_signed actual expected <=? 0
  | OpBitmask => bitmask_check actual expected
  end.

(** [buf[..len].copy_from_slice(s); u64::from_le_bytes(buf)]: the copy panics past 8 bytes. *)
Definition u64_of_slice (s : bytes) : res chain_error Z :=
  if (length s <=? 8)%nat then Ok (read_le 8 0 s) else Throw Panic.

Definition slice (offset len : Z) (data : bytes) : bytes :=
  take (Z.to_nat len) (drop (Z.to_nat offset) data).

Definition checked_mul_u128 (a b : Z) : res chain_error Z :=
  if a * b >? U128_MAX then Throw Overflow else Ok (a * b).

(** [field_A * 10000 <= multiplier * field_B], with a zero denominator handled apart. *)
Definition ratio_check (e : ChainPostAssertion) (actual target_data : bytes) : res chain_error unit :=
  let offset_b := cpa_cross_field_offset_b e in
  let len := cpa_value_len e in
  require (offset_b + len <=? Z.of_nat (length target_data)) PostAssertionFailed ;;
  field_a ← u64_of_slice actual;
  field_b ← u64_of_slice (slice offset_b len target_data);
  if field_b =? 0 then require (field_a =? 0) PostAssertionFailed
  else
    lhs ← checked_mul_u128 field_a 10000;
    rhs ← checked_mul_u128 (cpa_cross_field_multiplier_bps e) field_b;
    require (lhs <=? rhs) PostAssertionFailed.

(** [snapshot] is the session's copy of the field before the call, and its length. *)
Definition delta_check (e : ChainPostAssertion) (actual : bytes) (snapshot : bytes * Z)
    (delta : Z -> Z -> Z) : res chain_error unit :=
  let len := Z.to_nat (cpa_value_len e) in
  require (snapshot.2 =? cpa_value_len e) SnapshotNotCaptured ;;
  snap_val ← u64_of_slice (take len snapshot.1);
  curr_val ← u64_of_slice actual;
  exp_val ← u64_of_slice (take len (cpa_expected_value e));
  require (delta snap_val curr_val <=? exp_val) PostAssertionFailed.

Definition saturating_sub (a b : Z) : Z := Z.max 0 (a - b).

Definition check_assertion (e : ChainPostAssertion) (target_data : bytes) (snapshot : bytes * Z)
    : res chain_error unit :=
  let len := cpa_value_len e in
  require (cpa_offset e + len <=? Z.of_nat (length target_data)) PostAssertionFailed ;;
  let actual := slice (cpa_offset e) len target_data in
  match mode_try_from (cpa_assertion_mode e) with
  | None => Throw InvalidConstraintConfig
  | Some Absolute =>
      match operator_try_from (cpa_operator e) with
      | None => Throw InvalidConstraintOperator
      | Some operator =>
          if negb (Z.land (cpa_cross_field_flags e) 1 =? 0) then ratio_check e actual target_data
          else require (bytes_match actual operator (take (Z.to_nat len) (cpa_expected_value e)))
                 PostAssertionFailed
      end
  | Some MaxDecrease => delta_check e actual snapshot (fun s c => saturating_sub s c)
  | Some MaxIncrease => delta_check e actual snapshot (fun s c => saturating_sub c s)
  | Some NoChange =>
      require (snapshot.2 =? len) SnapshotNotCaptured ;;
      require (bool_decide (actual = take (Z.to_nat len) snapshot.1)) PostAssertionFailed
  end.

(** The loop over the packed entries; the target is looked up among the accounts. *)
Definition check_post_assertions (entries : list ChainPostAssertion)
    (remaining : list (Address * bytes)) (snapshots : list (bytes * Z)) : res chain_error unit :=
  for_each_from 0 (fun i e =>
    match find_by (fun a => bool_decide (a.1 = cpa_target_account e)) remaining with
    | None => Throw InvalidPostAssertionIndex
    | Some target => check_assertion e target.2 (default ([], 0) (snapshots !! i))
    end) entries.
