(* ===== verification/PostAssertionsSpec.v ===== *)
(** * What the post-execution assertions promise

    The dashboard's validator accepts exactly what the program accepts, and the leverage
    caps the builders make are checked on chain as the inequality they stand for. *)

From S2P Require Import Prelude Types Accounts Bytes PostAssertions.
Local Open Scope string_scope.
Local Open Scope Z_scope.
Local Open Scope list_scope.

(** ** The two validators agree *)
Definition sdk_of (c : ChainPostAssertion) : PostAssertionEntry :=
  mkPostAssertion (cpa_target_account c) (Some (cpa_offset c)) (Some (cpa_value_len c))
    (Some (cpa_operator c)) (cpa_expected_value c) (Some (cpa_assertion_mode c))
    (Some (cpa_cross_field_offset_b c)) (Some (cpa_cross_field_multiplier_bps c))
    (Some (cpa_cross_field_flags c)).

(** The widths of the instruction's fields. *)
Record chain_entry_wf (c : ChainPostAssertion) : Prop := {
  cw_offset : 0 <= cpa_offset c < 2 ^ 16;
  cw_value_len : 0 <= cpa_value_len c < 2 ^ 8;
  cw_operator : 0 <= cpa_operator c < 2 ^ 8;
  cw_mode : 0 <= cpa_assertion_mode c < 2 ^ 8;
  cw_offset_b : 0 <= cpa_cross_field_offset_b c < 2 ^ 16;
  cw_multiplier : 0 <= cpa_cross_field_multiplier_bps c < 2 ^ 32;
  cw_flags : 0 <= cpa_cross_field_flags c < 2 ^ 8;
}.

(** What both validators ask of one entry. *)
Record assertion_ok (c : ChainPostAssertion) : Prop := {
  ao_len : 1 <= cpa_value_len c <= 32;
  ao_expected : cpa_value_len c <= Z.of_nat (length (cpa_expected_value c));
  ao_operator : 0 <= cpa_operator c <= 6;
  ao_mode : 0 <= cpa_assertion_mode c <= 3;
  ao_delta : cpa_assertion_mode c <> 0 -> cpa_value_len c <= 8;
  ao_cross :
    if Z.land (cpa_cross_field_flags c) 1 =? 0 then
      cpa_cross_field_offset_b c = 0 /\ cpa_cross_field_multiplier_bps c = 0
    else
      cpa_value_len c <= 8 /\ cpa_assertion_mode c = 0 /\ 0 < cpa_cross_field_multiplier_bps c /\
      Z.land (cpa_cross_field_flags c) 254 = 0;
}.

Lemma throw_if_seq {E A} c (e : E) (m : res E A) a :
  (throw_if c e ;; m) = Ok a <-> c = false /\ m = Ok a.
Proof. destruct c; cbn; naive_solver. Qed.

Lemma require_seq {A} c e (m : res chain_error A) a :
  (require c e ;; m) = Ok a <-> c = true /\ m = Ok a.
Proof. destruct c; cbn; naive_solver. Qed.

Lemma require_ok c e : require c e = Ok tt <-> c = true.
Proof. destruct c; cbn; naive_solver. Qed.

Lemma requireUint_seq {A} v max c i (f : Z -> res PostAssertionValidationError A) a :
  (requireUintInRange v max c i ≫= f) = Ok a <->
  exists z, v = Some z /\ 0 <= z <= max /\ f z = Ok a.
Proof.
  unfold requireUintInRange. destruct v as [z|]; [|naive_solver].
  destruct (Z.ltb_spec z 0), (Z.gtb_spec z max); cbn; naive_solver lia.
Qed.

Lemma operator_try_from_Some v : is_Some (operator_try_from v) <-> 0 <= v <= 6.
Proof.
  unfold operator_try_from. repeat case_match; (split; [intros [x Hx]; try done; lia|intros; try lia; eauto]).
Qed.

Lemma mode_try_from_Some v : is_Some (mode_try_from v) <-> 0 <= v <= 3.
Proof.
  unfold mode_try_from. repeat case_match; (split; [intros [x Hx]; try done; lia|intros; try lia; eauto]).
Qed.

Lemma validate_entry_ok c : chain_entry_wf c -> validate_assertion c = Ok tt <-> assertion_ok c.
Proof.
  intros Hw. destruct Hw. unfold validate_assertion, MAX_CONSTRAINT_VALUE_LEN.
  rewrite !require_seq, !bool_decide_eq_true, operator_try_from_Some, mode_try_from_Some.
  assert (Hd : forall (m : res chain_error unit),
    ((if (cpa_assertion_mode c >=? 1) && (cpa_assertion_mode c <=? 3)
      then require (cpa_value_len c <=? 8) InvalidConstraintConfig else Ok tt) ;; m) = Ok tt
    <-> (1 <= cpa_assertion_mode c <= 3 -> cpa_value_len c <= 8) /\ m = Ok tt).
  { intros m. destruct (Z.geb_spec (cpa_assertion_mode c) 1), (Z.leb_spec (cpa_assertion_mode c) 3);
      cbn [andb]; rewrite ?require_seq, ?Z.leb_le; cbn; naive_solver lia. }
  rewrite Hd, !andb_true_iff. clear Hd. split.
  - intros ([Hl1 Hl2] & He & Ho & Hm & Hdelta & Hx).
    split; [lia|lia|lia|lia|lia|].
    destruct (Z.eqb_spec (Z.land (cpa_cross_field_flags c) 1) 0); cbn [negb] in Hx.
    + apply require_ok, andb_true_iff in Hx. lia.
    + rewrite !require_seq, require_ok in Hx. lia.
  - intros []. split_and!; [lia..|].
    destruct (Z.eqb_spec (Z.land (cpa_cross_field_flags c) 1) 0); cbn [negb].
    + apply require_ok, andb_true_iff. lia.
    + rewrite !require_seq, require_ok. lia.
Qed.

Lemma validateSingleEntry_ok e i :
  validateSingleEntry e i = Ok tt <->
  exists c, e = sdk_of c /\ chain_entry_wf c /\ assertion_ok c.
Proof.
  unfold validateSingleEntry, MAX_CONSTRAINT_VALUE_LEN, MAX_OPERATOR_VALUE,
    MAX_ASSERTION_MODE_VALUE, DELTA_MAX_VALUE_LEN, CROSS_FIELD_MAX_VALUE_LEN, CROSS_FIELD_LTE_FLAG.
  repeat setoid_rewrite requireUint_seq. cbv zeta. split.
  - intros (off & Ho & Hob & len & Hl & Hlb & op & Hop & Hopb & md & Hm & Hmb & offb & Hb & Hbb
      & mul & Hmu & Hmub & fl & Hf & Hfb & H).
    exists (mkChainPa (targetAccount e) off len op (expectedValue e) md offb mul fl).
    split_and!.
    + destruct e. unfold sdk_of. cbn in *. by subst.
    + split; cbn; lia.
    + rewrite !throw_if_seq in H. destruct H as (H0 & H1 & H2 & H).
      split; cbn [cpa_value_len cpa_expected_value cpa_operator cpa_assertion_mode
        cpa_cross_field_flags cpa_cross_field_offset_b cpa_cross_field_multiplier_bps]; [lia..|].
      destruct (Z.eqb_spec (Z.land fl 1) 0); cbn [negb] in H.
      * apply throw_if_ok_inv in H. lia.
      * rewrite !throw_if_seq, throw_if_ok_inv in H. lia.
  - intros (c & -> & [] & []). cbn [sdk_of pa_offset valueLen pa_operator assertionMode
      crossFieldOffsetB crossFieldMultiplierBps crossFieldFlags expectedValue].
    do 7 (eexists; split; [reflexivity|split; [lia|]]).
    rewrite !throw_if_seq. split_and!; [lia..|].
    destruct (Z.eqb_spec (Z.land (cpa_cross_field_flags c) 1) 0); cbn [negb].
    + apply throw_if_ok_inv. lia.
    + rewrite !throw_if_seq, throw_if_ok_inv. lia.
Qed.

Definition as_slot (c : ChainPostAssertion) : entry_slot := Entry (sdk_of c).

Lemma sdk_of_inj c1 c2 : sdk_of c1 = sdk_of c2 -> c1 = c2.
Proof. destruct c1, c2. unfold sdk_of. cbn. congruence. Qed.

Lemma validate_entries_ok cs :
  Forall chain_entry_wf cs ->
  validate_assertions cs = Ok tt <-> (1 <= length cs <= 4)%nat /\ Forall assertion_ok cs.
Proof.
  intros Hw. unfold validate_assertions, MAX_POST_ASSERTION_ENTRIES.
  rewrite require_seq, for_each_ok, andb_true_iff, Nat.ltb_lt, Z.leb_le.
  assert (Hiff : Forall (fun c => validate_assertion c = Ok tt) cs <-> Forall assertion_ok cs).
  { rewrite !Forall_forall. rewrite Forall_forall in Hw.
    split; intros H c Hc; by apply validate_entry_ok; auto. }
  rewrite Hiff. intuition lia.
Qed.

(** C7: the dashboard's validator of post-execution assertions is the program's. A batch
    without holes passes it exactly when it is the JavaScript form of instruction
    parameters of the right widths that the program's own validator accepts; so no batch
    the client lets through is refused on chain, and none the program accepts is held back. *)
Theorem post_validation_is_chain slots :
  Hole ∉ slots ->
  validatePostAssertionEntries (Some slots) = Ok tt <->
  exists cs, slots = as_slot <$> cs /\ Forall chain_entry_wf cs /\ validate_assertions cs = Ok tt.
Proof.
  intros Hh. unfold validatePostAssertionEntries, MAX_POST_ASSERTION_ENTRIES. cbv zeta.
  rewrite throw_if_seq, for_each_from_ok. split.
  - intros [Hn Hall].
    assert (Hcs : exists cs, slots = as_slot <$> cs /\ Forall chain_entry_wf cs /\ Forall assertion_ok cs).
    { clear Hn. setoid_rewrite Nat.add_0_l in Hall.
      assert (Hs : Forall (fun s => exists c, s = as_slot c /\ chain_entry_wf c /\ assertion_ok c) slots).
      { apply Forall_forall. intros s Hs. apply list_elem_of_lookup in Hs as Hi.
        destruct Hi as [i Hi]. specialize (Hall i s Hi). destruct s as [| |e]; [done|done|].
        apply validateSingleEntry_ok in Hall as (c & -> & ?). by exists c. }
      clear Hall Hh. induction Hs as [|s slots (c & -> & Hw & Ho) _ (cs & -> & Hws & Hos)].
      - by exists [].
      - exists (c :: cs). split_and!; [done|by constructor..]. }
    destruct Hcs as (cs & -> & Hw & Ho). exists cs. split_and!; [done..|].
    apply validate_entries_ok; [done|]. rewrite length_fmap in Hn. split; [|done]. lia.
  - intros (cs & -> & Hw & Hv). apply validate_entries_ok in Hv as [Hn Ho]; [|done].
    rewrite length_fmap. split; [lia|]. intros j s Hj.
    apply list_lookup_fmap_Some in Hj as (c & -> & Hc). apply validateSingleEntry_ok.
    exists c. split_and!; [done| |]; by eapply Forall_lookup_1.
Qed.

(** ** A leverage cap is the inequality it stands for *)
Lemma read_le_ext n off1 off2 bs1 bs2 :
  (forall i, (i < n)%nat -> byte_at bs1 (off1 + i) = byte_at bs2 (off2 + i)) ->
  read_le n off1 bs1 = read_le n off2 bs2.
Proof.
  induction n as [|n IH]; intros H; [done|]. rewrite !read_le_S, (H n) by lia.
  rewrite IH; [done|]. intros i Hi. apply H. lia.
Qed.

Lemma byte_at_slice off len data i :
  0 <= off -> (i < Z.to_nat len)%nat ->
  byte_at (slice off len data) i = byte_at data (Z.to_nat off + i).
Proof.
  intros Ho Hi. unfold byte_at, slice. by rewrite lookup_take_lt, lookup_drop by lia.
Qed.

Lemma length_slice off len data :
  0 <= off -> 0 <= len -> off + len <= Z.of_nat (length data) ->
  length (slice off len data) = Z.to_nat len.
Proof. intros. unfold slice. rewrite length_take, length_drop. lia. Qed.

Lemma u64_of_slice_8 off data :
  0 <= off -> off + 8 <= Z.of_nat (length data) ->
  u64_of_slice (slice off 8 data) = Ok (read_u64_le (Z.to_nat off) data).
Proof.
  intros Ho Hl. unfold u64_of_slice. rewrite length_slice by lia. cbn [Z.to_nat Pos.to_nat].
  f_equal. apply read_le_ext. intros i Hi. apply byte_at_slice; lia.
Qed.

Lemma checked_mul_u128_u64 a b :
  0 <= a < 2 ^ 64 -> 0 <= b < 2 ^ 64 -> checked_mul_u128 a b = Ok (a * b).
Proof.
  intros Ha Hb. unfold checked_mul_u128, U128_MAX.
  destruct (Z.gtb_spec (a * b) 340282366920938463463374607431768211455); [|done].
  change (2 ^ 64) with 18446744073709551616 in *. nia.
Qed.

(** The entry a leverage cap is, for the field offsets [a], [b] and the cap [bps]. *)
Definition leverage_entry (target : Address) (a b bps : Z) : ChainPostAssertion :=
  mkChainPa target a 8 3 (replicate 8 0) 0 b bps 1.

Lemma leverage_check target a b bps data snapshot :
  0 <= a -> 0 <= b -> 0 <= bps < 2 ^ 32 -> Forall is_byte data ->
  check_assertion (pack_entry (leverage_entry target a b bps)) data snapshot =
  if Z.max a b + 8 <=? Z.of_nat (length data) then
    require (read_u64_le (Z.to_nat a) data * 10000 <=? bps * read_u64_le (Z.to_nat b) data)
      PostAssertionFailed
  else Throw PostAssertionFailed.
Proof.
  intros Ha Hb Hbps Hd. unfold check_assertion, pack_entry, leverage_entry.
  cbn [cpa_offset cpa_value_len cpa_assertion_mode cpa_operator cpa_cross_field_flags].
  change (mode_try_from 0) with (Some Absolute). change (operator_try_from 3) with (Some OpLte).
  cbn match. change (negb (Z.land 1 1 =? 0)) with true. cbn match. unfold ratio_check.
  cbn [cpa_cross_field_offset_b cpa_value_len cpa_cross_field_multiplier_bps].
  set (len := Z.of_nat (length data)).
  destruct (Z.leb_spec (a + 8) len).
  2: { rewrite (proj2 (Z.leb_gt (Z.max a b + 8) len)) by lia. done. }
  destruct (Z.leb_spec (b + 8) len).
  2: { rewrite (proj2 (Z.leb_gt (Z.max a b + 8) len)) by lia. done. }
  rewrite (proj2 (Z.leb_le (Z.max a b + 8) len)) by lia.
  cbn [require negb throw_if]. rewrite !bind_ok, !u64_of_slice_8, !bind_ok by (fold len; lia).
  pose proof (read_u64_le_is_u64 (Z.to_nat a) data Hd) as HA.
  pose proof (read_u64_le_is_u64 (Z.to_nat b) data Hd) as HB.
  set (A := read_u64_le (Z.to_nat a) data) in *. set (B := read_u64_le (Z.to_nat b) data) in *.
  unfold is_u64, U64_MAX in HA, HB.
  destruct (Z.eqb_spec B 0) as [->|HB0].
  - f_equal. rewrite Z.mul_0_r. apply eq_bool_prop_intro. rewrite !Is_true_true. lia.
  - rewrite !checked_mul_u128_u64, !bind_ok by lia. done.
Qed.

Lemma leverage_cap_entry opts e :
  leverageCapLteBps opts = Ok e ->
  exists a b bps, lo_fieldAOffset opts = Some a /\ lo_fieldBOffset opts = Some b /\
    lo_maxBps opts = Some bps /\ 0 <= a <= 65535 /\ 0 <= b <= 65535 /\ 1 <= bps <= 4294967295 /\
    e = sdk_of (leverage_entry (lo_targetAccount opts) a b bps).
Proof.
  unfold leverageCapLteBps, requireIntegerInRange, MAX_U16, MAX_U32. intros H.
  apply throw_if_seq in H as [_ H].
  destruct (lo_fieldAOffset opts) as [a|]; [|done].
  destruct (Z.ltb_spec a 0), (Z.gtb_spec a 65535); try done. cbn [orb] in H. rewrite bind_ok in H.
  destruct (lo_fieldBOffset opts) as [b|]; [|done].
  destruct (Z.ltb_spec b 0), (Z.gtb_spec b 65535); try done. cbn [orb] in H. rewrite bind_ok in H.
  apply throw_if_seq in H as [_ H].
  destruct (lo_maxBps opts) as [bps|]; [|done].
  destruct (Z.ltb_spec bps 1), (Z.gtb_spec bps 4294967295); try done. cbn [orb] in H.
  rewrite bind_ok in H. injection H as <-. exists a, b, bps. split_and!; done.
Qed.

(** a leverage cap is enforced as what it says. Whatever entry [leverageCapLteBps] builds,
    the program's validator accepts it, and the check after the call passes exactly when
    both fields lie inside the account and ten thousand times the first is at most the cap
    times the second; the product never overflows. For the Flash Trade preset this is
    position size at most the leverage times the collateral, in whole units. *)
Theorem leverage_cap_enforced :
  (forall opts e data snapshot,
    leverageCapLteBps opts = Ok e -> Forall is_byte data ->
    exists c a b bps,
      e = sdk_of c /\ chain_entry_wf c /\ validate_assertions [c] = Ok tt /\
      lo_fieldAOffset opts = Some a /\ lo_fieldBOffset opts = Some b /\ lo_maxBps opts = Some bps /\
      check_assertion (pack_entry c) data snapshot =
        if bool_decide (Z.max a b + 8 <= Z.of_nat (length data) /\
             read_u64_le (Z.to_nat a) data * 10000 <= bps * read_u64_le (Z.to_nat b) data)
        then Ok tt else Throw PostAssertionFailed) /\
  (forall account x data snapshot,
    1 <= x <= 100 -> Forall is_byte data -> (180 <= length data)%nat ->
    exists c, flashTradeLeverageCap account (Some x) = Ok (sdk_of c) /\
      (check_assertion (pack_entry c) data snapshot = Ok tt <->
       read_u64_le 140 data <= x * read_u64_le 172 data)).
Proof.
  split.
  - intros opts e data snapshot He Hd.
    destruct (leverage_cap_entry opts e He) as (a & b & bps & Ha & Hb & Hbps & Hra & Hrb & Hrbps & ->).
    set (c := leverage_entry _ a b bps). exists c, a, b, bps.
    assert (Hw : chain_entry_wf c) by (split; cbn; lia).
    split_and!; [done..| |done|done|done|].
    + apply (validate_entries_ok [c]); [by apply Forall_singleton|]. split; [cbn; lia|].
      apply Forall_singleton. unfold c. split; [cbn; lia..|]. split_and!; [done|done|cbn; lia|done].
    + unfold c. rewrite leverage_check by (done || lia).
      destruct (Z.leb_spec (Z.max a b + 8) (Z.of_nat (length data))).
      2: { rewrite bool_decide_false; [done|lia]. }
      unfold require. destruct (Z.leb_spec (read_u64_le (Z.to_nat a) data * 10000)
        (bps * read_u64_le (Z.to_nat b) data)); cbn [negb throw_if];
        [rewrite bool_decide_true by done|rewrite bool_decide_false by lia]; done.
  - intros account x data snapshot Hx Hd Hl.
    exists (leverage_entry account 140 172 (x * 10000)). split.
    + unfold flashTradeLeverageCap, MIN_LEVERAGE_X, MAX_LEVERAGE_X.
      destruct (Z.ltb_spec x 1), (Z.gtb_spec x 100); try lia. cbn [orb].
      unfold leverageCapLteBps, requireIntegerInRange, MAX_U32. cbn.
      destruct (Z.ltb_spec (x * 10000) 1), (Z.gtb_spec (x * 10000) 4294967295); try lia. done.
    + rewrite leverage_check by (done || lia).
      rewrite (proj2 (Z.leb_le (Z.max 140 172 + 8) _)) by lia. rewrite require_ok, Z.leb_le.
      change (Z.to_nat 140) with 140%nat. change (Z.to_nat 172) with 172%nat. lia.
Qed.

(** A flags byte with a reserved bit but without bit 0 passes both validators, although the
    builder's comment says that unknown flags are rejected. *)
Example reserved_flags_accepted :
  let c := mkChainPa "Target" 0 8 3 (replicate 8 0) 0 0 0 2 in
  validateSingleEntry (sdk_of c) 0 = Ok tt /\ validate_assertion c = Ok tt.
Proof. split; vm_compute; reflexivity. Qed.

Definition demo_delta_entry : ChainPostAssertion := mkChainPa "Position" 16 4 0 [7; 0; 0; 0] 1 0 0 0.

Lemma post_validation_is_chain_witness :
  exists cs, [as_slot demo_delta_entry] = as_slot <$> cs /\ validate_assertions cs = Ok tt.
Proof.
  destruct (proj1 (post_validation_is_chain [as_slot demo_delta_entry]
    ltac:(intros H; apply list_elem_of_singleton in H; discriminate H))) as (cs & Hcs & _ & Hv).
  - vm_compute. reflexivity.
  - exists cs. split; assumption.
Defined.

(** A position of size 900 on collateral 100: a cap of 10 lets it pass, a cap of 8 does not. *)
Definition demo_position : bytes := replicate 140 0 ++ le_bytes 8 900 ++ replicate 24 0 ++ le_bytes 8 100.

Lemma leverage_cap_enforced_witness :
  exists c8 c10,
    flashTradeLeverageCap "Position" (Some 8) = Ok (sdk_of c8) /\
    flashTradeLeverageCap "Position" (Some 10) = Ok (sdk_of c10) /\
    check_assertion (pack_entry c8) demo_position ([], 0) <> Ok tt /\
    check_assertion (pack_entry c10) demo_position ([], 0) = Ok tt.
Proof.
  assert (Hb : Forall is_byte demo_position).
  { apply (bool_decide_unpack _). vm_compute. exact I. }
  assert (Hl : (180 <= length demo_position)%nat) by (vm_compute; lia).
  destruct (proj2 leverage_cap_enforced "Position" 8 demo_position ([], 0) ltac:(lia) Hb Hl)
    as (c8 & H8 & Hc8).
  destruct (proj2 leverage_cap_enforced "Position" 10 demo_position ([], 0) ltac:(lia) Hb Hl)
    as (c10 & H10 & Hc10).
  exists c8, c10. split; [exact H8|]. split; [exact H10|]. split.
  - intros H. apply Hc8 in H. revert H. vm_compute. intros H. exact (H eq_refl).
  - apply Hc10. vm_compute. discriminate.
Defined.
