(* ===== verification/Analytics.v ===== *)
(** * Analytics over resolved state ([math-utils.ts], [spending-analytics.ts],
    [agent-analytics.ts], [security-analytics.ts], [balance-tracker.ts])

    Pure functions from a resolved vault state to velocities, breakdowns, profiles, the
    security checklist and the alerts. Labels, details and remediation texts are left
    out; the amounts rendered into titles go through the parameter [formatUsd]. *)

From Stdlib Require Import QArith Qround.
From S2P Require Import Prelude Types Accounts Bytes StateResolver Inspector Numbers.
Local Open Scope string_scope.
Local Open Scope Z_scope.
Local Open Scope list_scope.

(** ** Numbers ([math-utils.ts])

    [Number((spent * 10000n) / cap) / 100]: [bigint] division truncates. *)
Definition computeUtilizationPercent (spent cap : Z) : ratio :=
  if cap >? 0 then fl_over (js_Number (Z.quot (spent * 10000) cap)) 100 else ratio_of_Z 0.

Definition computePnlPercent (pnl investment : Z) : ratio :=
  if investment >? 0 then fl_over (js_Number (Z.quot (pnl * 10000) investment)) 100 else ratio_of_Z 0.

Definition herfindahl_step (total : Z) (sumSquares : ratio) (v : Z) : ratio :=
  if v =? 0 then sumSquares
  else
    let share := fl_over (js_Number (Z.quot (v * 10000) total)) 10000 in
    fl_add sumSquares (fl_mul share share).

Definition computeHerfindahl (values : list Z) : ratio :=
  let total := sum_of id values in
  if total =? 0 then ratio_of_Z 0 else fold_left (herfindahl_step total) values (ratio_of_Z 0).

(** ** An agent's spending history ([spending-analytics.ts]) *)
Fixpoint agent_history_loop (formatUsd : Z -> string) (n : nat) (k : Z) (entry : AgentContributionEntry)
    (currentEpoch windowStartEpoch : Z) : list SpendingEpoch :=
  match n with
  | O => []
  | S n' =>
      let continue := agent_history_loop formatUsd n' (k + 1) entry currentEpoch windowStartEpoch in
      let epochForK := ace_lastWriteEpoch entry - k in
      if (epochForK <? 0) || (epochForK <=? windowStartEpoch) then []
      else if epochForK >? currentEpoch then continue
      else
        let bucketIdx := Z.to_nat (Z.rem epochForK OVERLAY_NUM_EPOCHS) in
        let contribution := default 0 (contributions entry !! bucketIdx) in
        if contribution =? 0 then continue
        else mkSpendingEpoch epochForK (epochForK * OVERLAY_EPOCH_DURATION) contribution
               (formatUsd contribution) :: continue
  end.

Definition getAgentSpendingHistory (formatUsd : Z -> string) (overlay : option AgentSpendOverlay)
    (agentSlot nowUnix : Z) : list SpendingEpoch :=
  match overlay with
  | None => []
  | Some o =>
      if (agentSlot <? 0) || (agentSlot >=? MAX_AGENTS_PER_VAULT) || (nowUnix <=? 0) then []
      else
        match ov_entries o !! Z.to_nat agentSlot with
        | None => []
        | Some entry =>
            if ace_lastWriteEpoch entry =? 0 then []
            else
              let currentEpoch := Z.quot nowUnix OVERLAY_EPOCH_DURATION in
              sort_by se_timestamp
                (agent_history_loop formatUsd (Z.to_nat OVERLAY_NUM_EPOCHS) 0 entry currentEpoch
                   (currentEpoch - OVERLAY_NUM_EPOCHS))
        end
  end.

(** ** Spending velocity *)
Record SpendingVelocity := mkVelocity {
  currentRate : Z;
  averageRate : Z;
  peakRate : Z;
  peakTimestamp : Z;
  isAccelerating : bool;
  timeToCapSeconds : option ratio;
  projectedCapHitTime : option ratio;
}.

Definition zero_velocity : SpendingVelocity := mkVelocity 0 0 0 0 false None None.

Definition in_velocity_window (currentEpoch : Z) (b : EpochBucket) : bool :=
  negb ((epochId b <? currentEpoch - NUM_EPOCHS) || (epochId b >? currentEpoch))
  && negb (usdAmount b =? 0).

Definition peak_step (acc : Z * Z) (b : EpochBucket) : Z * Z :=
  if usdAmount b >? acc.1 then (usdAmount b, epochId b) else acc.

Definition getSpendingVelocity (tracker : option SpendTracker) (nowUnix : Z)
    (globalBudget : EffectiveBudget) : SpendingVelocity :=
  match tracker with
  | None => zero_velocity
  | Some t =>
      if nowUnix <=? 0 then zero_velocity
      else
        let currentEpoch := Z.quot nowUnix EPOCH_DURATION in
        let valid := filter (fun b => in_velocity_window currentEpoch b = true) (buckets t) in
        let '(peakAmount, peakEpochId) := fold_left peak_step valid (0, 0) in
        let validBuckets := sort_by (fun b => - epochId b) valid in
        let recentEpochs := take 3 validBuckets in
        let recentSum := sum_of usdAmount recentEpochs in
        let currentRate :=
          if (0 <? length recentEpochs)%nat
          then Z.quot (recentSum * 6) (Z.of_nat (length recentEpochs)) else 0 in
        let averageRate := Z.quot (spent24h globalBudget) 24 in
        let isAccelerating :=
          if averageRate >? 0 then currentRate >? Z.quot (averageRate * 3) 2 else currentRate >? 0 in
        let timeToCap :=
          if (currentRate >? 0) && (remaining globalBudget >? 0) then
            let hoursToCapx1000 := Z.quot (remaining globalBudget * 1000) currentRate in
            Some (fl_over (fl_mul (js_Number hoursToCapx1000) (ratio_of_Z 3600)) 1000)
          else None in
        mkVelocity currentRate averageRate peakAmount (peakEpochId * EPOCH_DURATION) isAccelerating
          timeToCap (fl_add (js_Number nowUnix) <$> timeToCap)
  end.

(** ** Spending breakdown *)
Record AgentSpending := mkAgentSpending {
  as_agent : Address;
  as_spent24h : Z;
  as_cap : Z;
  as_utilization : ratio;
  as_lifetimeSpend : Z;
}.

Record ProtocolSpending := mkProtocolSpending {
  ps_protocol : Address;
  ps_protocolName : string;
  ps_spent24h : Z;
  ps_cap : Z;
  ps_utilization : ratio;
}.

Record SpendingBreakdown := mkBreakdown {
  sb_spent24h : Z;
  sb_cap : Z;
  sb_utilization : ratio;
  byAgent : list AgentSpending;
  byProtocol : list ProtocolSpending;
  agentConcentration : ratio;
  protocolConcentration : ratio;
  topAgent : option Address;
  topProtocol : option Address;
}.

(** The running maximum of the two loops: a strictly greater spend takes the lead. *)
Definition top_step {A} (name : A -> Address) (spend : A -> Z) (acc : option Address * Z) (x : A)
    : option Address * Z :=
  if spend x >? acc.2 then (Some (name x), spend x) else acc.

Definition top_of {A} (name : A -> Address) (spend : A -> Z) (l : list A) : option Address :=
  (fold_left (top_step name spend) l (None, 0)).1.

(** ** Profiles and rankings *)
Record AgentProfile := mkProfile {
  ap_address : Address;
  ap_capability : Z;
  capabilityLabel : string;
  ap_spendingLimitUsd : Z;
  ap_paused : bool;
  ap_budget : EffectiveBudget;
  ap_lifetimeSpend : Z;
  ap_lifetimeTxCount : Z;
  avgTransactionSize : Z;
  ap_capUtilization : ratio;
  isApproachingCap : bool;
  hasFullCapability : bool;
}.

Definition capabilityToLabel (capability : Z) : string :=
  if capability =? 0 then "Disabled"
  else if capability =? 1 then "Observer"
  else if capability =? 2 then "Operator"
  else "Unknown(" +:+ pretty capability +:+ ")".

Record AgentRanking := mkRanking {
  ar_address : Address;
  rank : Z;
  spend24h : Z;
  ar_lifetimeSpend : Z;
  ar_capUtilization : ratio;
  ar_paused : bool;
  ar_capability : Z;
}.

Record AgentComparisonData := mkComparison {
  ac_agents : list AgentRanking;
  totalAgentSpend24h : Z;
  spendConcentration : ratio;
  mostActiveAgent : option Address;
  leastActiveAgent : option Address;
}.

Definition no_budget : EffectiveBudget := mkBudget 0 0 0.

Section analytics.
Context {C : Type} `{env : !ResolverEnv C}.
Implicit Types (state : ResolvedVaultState C).

Definition agent_spending (overlay : option AgentSpendOverlay) (ab : string * EffectiveBudget)
    : AgentSpending :=
  let '(agent, budget) := ab in
  mkAgentSpending agent (spent24h budget) (cap budget)
    (computeUtilizationPercent (spent24h budget) (cap budget))
    (match findAgentOverlaySlot overlay agent with Some s => lifetimeSpend s | None => 0 end).

Definition protocol_spending (pb : ProtocolBudget) : ProtocolSpending :=
  let b := pb_budget pb in
  mkProtocolSpending (pb_protocol pb) (resolveProtocolName (pb_protocol pb)) (spent24h b) (cap b)
    (computeUtilizationPercent (spent24h b) (cap b)).

Definition getSpendingBreakdown state : SpendingBreakdown :=
  let g := globalBudget state in
  let byAgent := agent_spending (rs_overlay state) <$> allAgentBudgets state in
  let byProtocol := protocol_spending <$> protocolBudgets state in
  mkBreakdown (spent24h g) (cap g) (computeUtilizationPercent (spent24h g) (cap g))
    byAgent byProtocol
    (computeHerfindahl (as_spent24h <$> byAgent)) (computeHerfindahl (ps_spent24h <$> byProtocol))
    (top_of as_agent as_spent24h byAgent) (top_of ps_protocol ps_spent24h byProtocol).

Definition getAgentProfile state (agentAddress : Address) : option AgentProfile :=
  agentEntry ← find_by (fun a => bool_decide (pubkey a = agentAddress)) (agents (rs_vault state));
  let budget := default no_budget (jm_get agentAddress (allAgentBudgets state)) in
  let overlaySlot := findAgentOverlaySlot (rs_overlay state) agentAddress in
  let spend := match overlaySlot with Some s => lifetimeSpend s | None => 0 end in
  let count := match overlaySlot with Some s => lifetimeTxCount s | None => 0 end in
  let capUtilization := computeUtilizationPercent (spent24h budget) (cap budget) in
  Some (mkProfile agentAddress (agent_capability agentEntry)
          (capabilityToLabel (agent_capability agentEntry)) (spendingLimitUsd agentEntry)
          (agent_paused agentEntry) budget spend count
          (if count >? 0 then Z.quot spend count else 0)
          capUtilization (num capUtilization >? 80 * den capUtilization)
          (agent_capability agentEntry =? FULL_CAPABILITY)).

Definition ranking_of state (a : AgentEntry) : AgentRanking :=
  let budget := default no_budget (jm_get (pubkey a) (allAgentBudgets state)) in
  mkRanking (pubkey a) 0 (spent24h budget)
    (match findAgentOverlaySlot (rs_overlay state) (pubkey a) with
     | Some s => lifetimeSpend s | None => 0 end)
    (computeUtilizationPercent (spent24h budget) (cap budget)) (agent_paused a) (agent_capability a).

Definition with_rank (i : nat) (r : AgentRanking) : AgentRanking :=
  mkRanking (ar_address r) (Z.of_nat i + 1) (spend24h r) (ar_lifetimeSpend r)
    (ar_capUtilization r) (ar_paused r) (ar_capability r).

Definition getAgentLeaderboard state : list AgentRanking :=
  imap with_rank (sort_by (fun r => - spend24h r) (ranking_of state <$> agents (rs_vault state))).

Definition getAgentComparison state : AgentComparisonData :=
  let rankings := getAgentLeaderboard state in
  let activeAgents := filter (fun r => spend24h r > 0) rankings in
  mkComparison rankings (sum_of spend24h rankings) (computeHerfindahl (spend24h <$> rankings))
    (ar_address <$> head activeAgents) (ar_address <$> last activeAgents).
End analytics.

(** ** The security checklist *)
Record DataConstraintZC := mkDataZC { dz_offset : Z; dz_operator : Z; dz_valueLen : Z; dz_value : bytes }.
Record AccountConstraintZC := mkAccountZC { az_expected : bytes; az_index : Z; az_isWritableRequired : Z }.

Record ConstraintEntryZC := mkEntryZC {
  cz_programId : bytes;
  cz_dataConstraints : list DataConstraintZC;
  cz_accountConstraints : list AccountConstraintZC;
  cz_dataCount : Z;
  cz_accountCount : Z;
}.

Record InstructionConstraints := mkConstraints {
  ic_vault : bytes;
  ic_entries : list ConstraintEntryZC;
  ic_entryCount : Z;
  ic_strictMode : Z;
}.

Inductive Severity := critical | warning | info.
#[export] Instance Severity_eq_dec : EqDecision Severity.
Proof. solve_decision. Defined.

Record SecurityCheck := mkCheck { sc_id : string; sc_passed : bool; sc_severity : Severity }.

Record SecurityPosture := mkPosture {
  sp_checks : list SecurityCheck;
  passCount : Z;
  failCount : Z;
  criticalFailures : list SecurityCheck;
}.

Definition SYSTEM_PROGRAM : Address := "11111111111111111111111111111111".

Section posture.
Context `{env : !ResolverEnv InstructionConstraints}.
Implicit Types (state : ResolvedVaultState InstructionConstraints) (policy : PolicyConfig).

(** [entries.slice(0, entryCount)] *)
Definition activeEntries (c : InstructionConstraints) : list ConstraintEntryZC :=
  take (Z.to_nat (ic_entryCount c)) (ic_entries c).

Definition limits_sum_ok state : bool :=
  let vault := rs_vault state in
  bool_decide (agents vault = []) ||
  negb (forallb (fun a => spendingLimitUsd a >? 0) (agents vault))
  || (sum_of spendingLimitUsd (agents vault) <=? dailySpendingCapUsd (rs_policy state)).

Definition recently_active state : bool :=
  match rs_tracker state with
  | None => true
  | Some t =>
      (lastWriteEpoch t * EPOCH_DURATION >? resolvedAtTimestamp state - 604800)
      || (lastWriteEpoch t =? 0)
  end.

(** The byte comparison of the two loops is [bytesMatchAddress]. *)
Definition constraints_aligned policy (constraints : option InstructionConstraints) : bool :=
  match constraints with
  | None => true
  | Some c =>
      if negb (protocolMode policy =? PROTOCOL_MODE_ALLOWLIST) then true
      else forallb (fun entry =>
             existsb (fun p => bytesMatchAddress (cz_programId entry) p) (protocols policy))
             (activeEntries c)
  end.

Definition constraints_current (constraints : option InstructionConstraints) : bool :=
  match constraints with
  | None => true
  | Some c => forallb (fun entry =>
      negb (bool_decide (length (cz_dataConstraints entry) = 0%nat)
            && bool_decide (length (cz_accountConstraints entry) = 0%nat))) (ic_entries c)
  end.

Definition constraints_cover policy (constraints : option InstructionConstraints) : bool :=
  match constraints with
  | None => true
  | Some c =>
      if negb (protocolMode policy =? PROTOCOL_MODE_ALLOWLIST) then true
      else forallb (fun p =>
             existsb (fun e => bytesMatchAddress (cz_programId e) p) (activeEntries c))
             (protocols policy)
  end.

Definition mode_all_guarded policy (constraints : option InstructionConstraints) : bool :=
  negb (protocolMode policy =? 0)
  || match constraints with Some c => negb (ic_strictMode c =? 0) | None => false end.

Definition posture_checks state : list SecurityCheck :=
  let vault := rs_vault state in
  let policy := rs_policy state in
  let constraints := rs_constraints state in
  let ags := agents vault in
  [ mkCheck "no-full-perms" (negb (existsb (fun a => agent_capability a =? FULL_CAPABILITY) ags)) critical;
    mkCheck "cap-configured" (dailySpendingCapUsd policy >? 0) critical;
    mkCheck "fee-destination-valid" (bool_decide (feeDestination vault <> SYSTEM_PROGRAM)) critical;
    mkCheck "agent-limits" (bool_decide (ags = []) || forallb (fun a => spendingLimitUsd a >? 0) ags) warning;
    mkCheck "protocol-allowlist" (protocolMode policy =? PROTOCOL_MODE_ALLOWLIST) warning;
    mkCheck "timelock-enabled" (timelockDuration policy >? 0) warning;
    mkCheck "slippage-reasonable" (maxSlippageBps policy <? 1000) warning;
    mkCheck "agent-limits-sum" (limits_sum_ok state) warning;
    mkCheck "constraints-configured" (bool_decide (is_Some constraints)) info;
    mkCheck "has-agents" (0 <? length ags)%nat info;
    mkCheck "not-all-paused" (bool_decide (ags = []) || existsb (fun a => negb (agent_paused a)) ags) info;
    mkCheck "vault-has-balance"
      ((bal_usdc (stablecoinBalances state) >? 0) || (bal_usdt (stablecoinBalances state) >? 0)) info;
    mkCheck "recent-activity" (recently_active state) info;
    mkCheck "timelock-meaningful"
      ((timelockDuration policy =? 0) || (timelockDuration policy >=? 3600)) warning;
    mkCheck "fee-rate-reasonable" (developerFeeRate policy <=? MAX_DEVELOPER_FEE_RATE) info;
    mkCheck "constraints-protocol-aligned" (constraints_aligned policy constraints) warning;
    mkCheck "no-permission-concentration"
      (negb (existsb (fun a => agent_capability a >=? FULL_CAPABILITY) ags)) warning;
    mkCheck "constraints-current" (constraints_current constraints) warning;
    mkCheck "constraints-cover-allowlist" (constraints_cover policy constraints) info;
    mkCheck "mode-all-unguarded" (mode_all_guarded policy constraints) critical ].

Definition getSecurityPosture state : SecurityPosture :=
  let checks := posture_checks state in
  mkPosture checks
    (Z.of_nat (length (filter (fun c => sc_passed c = true) checks)))
    (Z.of_nat (length (filter (fun c => sc_passed c = false) checks)))
    (filter (fun c => sc_severity c = critical /\ sc_passed c = false) checks).

(** ** Alerts *)
Inductive AlertKind :=
  | cap_critical
  | cap_warning (util : Z)
  | frozen
  | agent_paused_alert (agent : Address)
  | agent_cap (agent : Address) (util : Z)
  | no_agents
  | all_paused
  | high_velocity
  | drain_detected_alert.

Record Alert := mkAlert { al_kind : AlertKind; al_severity : Severity; al_vaultAddress : Address }.

Definition al_agentAddress (a : Alert) : option Address :=
  match al_kind a with
  | agent_paused_alert agent | agent_cap agent _ => Some agent
  | _ => None
  end.

Definition al_title (a : Alert) : string :=
  match al_kind a with
  | cap_critical => "Daily budget nearly exhausted"
  | cap_warning util => "Daily budget " +:+ pretty util +:+ "% used"
  | frozen => "Vault is paused"
  | agent_paused_alert agent => "Agent " +:+ formatAddress agent +:+ " is paused"
  | agent_cap agent util =>
      "Agent " +:+ formatAddress agent +:+ " at " +:+ pretty util +:+ "% of spending limit"
  | no_agents => "No agents registered"
  | all_paused => "All agents are paused"
  | high_velocity => "Unusual spending velocity detected"
  | drain_detected_alert => "Potential drain detected"
  end.

(** [Number((spent24h * 100n) / cap)], compared with small integers. *)
Definition percent_used (b : EffectiveBudget) : Z := Z.quot (spent24h b * 100) (cap b).

Definition cap_alerts (g : EffectiveBudget) : list (AlertKind * Severity) :=
  if cap g >? 0 then
    let util := percent_used g in
    if util >=? 95 then [(cap_critical, critical)]
    else if util >=? 80 then [(cap_warning util, warning)] else []
  else [].

Definition agent_cap_alerts (budgets : jsmap EffectiveBudget) : list (AlertKind * Severity) :=
  flat_map (fun ab =>
    if cap ab.2 >? 0 then
      let util := percent_used ab.2 in
      if util >=? 80 then [(agent_cap ab.1 util, if util >=? 95 then critical else warning)] else []
    else []) budgets.

Definition velocity_alerts state : list (AlertKind * Severity) :=
  let g := globalBudget state in
  match rs_tracker state with
  | Some t =>
      if cap g >? 0 then
        let v := getSpendingVelocity (Some t) (resolvedAtTimestamp state) g in
        (if (averageRate v >? 0) && (currentRate v >? averageRate v * 2)
         then [(high_velocity, warning)] else [])
        ++ (if (currentRate v >? 0) && (currentRate v >? Z.quot (cap g) 2)
            then [(drain_detected_alert, critical)] else [])
      else []
  | None => []
  end.

Definition severityOrder (s : Severity) : Z :=
  match s with critical => 0 | warning => 1 | info => 2 end.

Definition raised_alerts state : list (AlertKind * Severity) :=
  let vault := rs_vault state in
  cap_alerts (globalBudget state)
  ++ (if bool_decide (vault_status vault = Frozen) then [(frozen, critical)] else [])
  ++ ((fun a => (agent_paused_alert (pubkey a), info))
        <$> filter (fun a => agent_paused a = true) (agents vault))
  ++ agent_cap_alerts (allAgentBudgets state)
  ++ (if bool_decide (agents vault = []) && bool_decide (vault_status vault = Active)
      then [(no_agents, warning)] else [])
  ++ (if negb (bool_decide (agents vault = [])) && forallb agent_paused (agents vault)
      then [(all_paused, warning)] else [])
  ++ velocity_alerts state.

Definition evaluateAlertConditions state (vaultAddress : Address) : list Alert :=
  sort_by (fun a => severityOrder (al_severity a))
    ((fun ks => mkAlert ks.1 ks.2 vaultAddress) <$> raised_alerts state).
End posture.

(** ** Profit and loss ([balance-tracker.ts]) *)
Record VaultPnL := mkPnL {
  pnl_totalDeposited : Z;
  pnl_totalWithdrawn : Z;
  pnl_currentBalance : Z;
  netInvestment : Z;
  pnl_pnl : Z;
  pnlPercent : ratio;
}.

Definition getVaultPnLFromState {C} (state : ResolvedVaultState C) : VaultPnL :=
  let totalDeposited := totalDepositedUsd (rs_vault state) in
  let totalWithdrawn := totalWithdrawnUsd (rs_vault state) in
  let currentBalance := bal_usdc (stablecoinBalances state) + bal_usdt (stablecoinBalances state) in
  let net := totalDeposited - totalWithdrawn in
  let pnl := currentBalance - net in
  mkPnL totalDeposited totalWithdrawn currentBalance net pnl (computePnlPercent pnl net).
