(* ===== verification/AnalyticsSpec.v ===== *)
(** * What the analytics report

    The meaning of the security checklist and of the alert list, the bounds of the spending
    velocity, and an agent's spending history against the ledger of its contributions. *)

From S2P Require Import Prelude Types Accounts Bytes OnChain StateResolver TrackerSpec Inspector Numbers Analytics.
Local Open Scope string_scope.
Local Open Scope Z_scope.
Local Open Scope list_scope.

(** ** An agent's history against its rolling total *)
Section agent_history.
Context (formatUsd : Z -> string) (e : AgentContributionEntry) (now : Z).
Hypothesis Hnow : 0 < now.
Let cur := Z.quot now OVERLAY_EPOCH_DURATION.

Definition slot_of (epoch : Z) : Z :=
  default 0 (contributions e !! Z.to_nat (Z.rem epoch OVERLAY_NUM_EPOCHS)).

(** The share of the hour that straddles the window's edge: the history leaves it out. *)
Definition straddle : Z :=
  let epoch := cur - OVERLAY_NUM_EPOCHS in
  Z.quot (slot_of epoch * (OVERLAY_EPOCH_DURATION - now mod OVERLAY_EPOCH_DURATION)) OVERLAY_EPOCH_DURATION.

Definition held (n : nat) (k epoch : Z) : bool :=
  (0 <=? epoch) && (epoch <=? ace_lastWriteEpoch e - k) && (ace_lastWriteEpoch e - k - Z.of_nat n <? epoch).

Lemma held_step n k epoch :
  epoch <> ace_lastWriteEpoch e - k -> held (S n) k epoch = held n (k + 1) epoch.
Proof. intros H. unfold held. apply eq_true_iff_eq. rewrite !andb_true_iff, !Z.leb_le, !Z.ltb_lt. lia. Qed.

Lemma held_above n k epoch : ace_lastWriteEpoch e - k < epoch -> held n k epoch = false.
Proof. intros H. unfold held. rewrite !andb_false_iff, !Z.leb_gt. lia. Qed.

Lemma history_stops n k :
  ace_lastWriteEpoch e - k <= cur - OVERLAY_NUM_EPOCHS ->
  agent_history_loop formatUsd n k e cur (cur - OVERLAY_NUM_EPOCHS) = [].
Proof.
  intros H. destruct n as [|n]; [done|]. cbn [agent_history_loop].
  rewrite (proj2 (Z.leb_le (ace_lastWriteEpoch e - k) _)) by done. by rewrite orb_true_r.
Qed.

(** Where an epoch's hour lies with respect to the window. *)
Lemma hour_in_window epoch :
  let ws := now - ROLLING_WINDOW_SECONDS in
  let start := epoch * OVERLAY_EPOCH_DURATION in
  (start + OVERLAY_EPOCH_DURATION <= ws <-> epoch < cur - OVERLAY_NUM_EPOCHS) /\
  (cur - OVERLAY_NUM_EPOCHS < epoch -> ws <= start) /\
  (epoch = cur - OVERLAY_NUM_EPOCHS ->
     start + OVERLAY_EPOCH_DURATION - ws = OVERLAY_EPOCH_DURATION - now mod OVERLAY_EPOCH_DURATION /\
     (ws <= start <-> now mod OVERLAY_EPOCH_DURATION = 0)).
Proof.
  cbv zeta. unfold cur, OVERLAY_EPOCH_DURATION, OVERLAY_NUM_EPOCHS, ROLLING_WINDOW_SECONDS.
  rewrite Z.quot_div_nonneg by lia.
  pose proof (Z.div_mod now 3600 ltac:(lia)). pose proof (Z.mod_pos_bound now 3600 ltac:(lia)). lia.
Qed.

Lemma loops_agree n k total :
  agent_rolling_loop n k e (now - ROLLING_WINDOW_SECONDS) cur total
  = total + sum_of se_usdAmount (agent_history_loop formatUsd n k e cur (cur - OVERLAY_NUM_EPOCHS))
    + (if held n k (cur - OVERLAY_NUM_EPOCHS) then straddle else 0).
Proof.
  revert k total. induction n as [|n IH]; intros k total.
  { cbn. replace (held 0 k _) with false; [unfold sum_of; cbn; lia|].
    unfold held. symmetry. rewrite !andb_false_iff, !Z.leb_gt, !Z.ltb_ge. lia. }
  cbn [agent_rolling_loop agent_history_loop]. set (ep := ace_lastWriteEpoch e - k).
  destruct (hour_in_window ep) as (Hend & Hstart & Hedge). fold (slot_of ep).
  destruct (Z.ltb_spec ep 0) as [Hneg|Hpos]; cbn [orb].
  { replace (held _ _ _) with false; [unfold sum_of; cbn; lia|]. unfold held. symmetry.
    fold ep. rewrite !andb_false_iff, !Z.leb_gt. lia. }
  destruct (Z.leb_spec (ep * OVERLAY_EPOCH_DURATION + OVERLAY_EPOCH_DURATION) (now - ROLLING_WINDOW_SECONDS))
    as [He|He].
  { rewrite (proj2 (Z.leb_le ep _)) by lia. rewrite held_above by (fold ep; lia). unfold sum_of. cbn. lia. }
  destruct (Z.leb_spec ep (cur - OVERLAY_NUM_EPOCHS)) as [Hle|Hgt].
  - assert (Heq : ep = cur - OVERLAY_NUM_EPOCHS) by lia. destruct (Hedge Heq) as [Hov Hzero].
    replace (held (S n) k _) with true.
    2: { symmetry. unfold held. fold ep. rewrite !andb_true_iff, !Z.leb_le, !Z.ltb_lt. lia. }
    assert (Hstop : forall t, agent_rolling_loop n (k + 1) e (now - ROLLING_WINDOW_SECONDS) cur t = t).
    { intros t. rewrite IH, history_stops, held_above by (fold ep; lia). unfold sum_of. cbn. lia. }
    rewrite !Hstop, Z.gtb_ltb, (proj2 (Z.ltb_ge cur ep)) by (unfold OVERLAY_NUM_EPOCHS in *; lia).
    unfold straddle. rewrite <- Heq, <- Hov, Z.geb_leb.
    change (sum_of se_usdAmount []) with 0. rewrite Z.add_0_r.
    destruct (Z.eqb_spec (slot_of ep) 0) as [->|Hc]; [by rewrite Z.add_0_r|].
    destruct (Z.leb_spec (now - ROLLING_WINDOW_SECONDS) (ep * OVERLAY_EPOCH_DURATION)) as [Hs|Hs]; [|done].
    rewrite Hov, (proj1 Hzero Hs), Z.sub_0_r, Z.quot_mul; done.
  - rewrite (held_step n k) by (fold ep; lia).
    rewrite !Z.gtb_ltb. destruct (Z.ltb_spec cur ep) as [Hc|Hc]; [apply IH|].
    destruct (Z.eqb_spec (slot_of ep) 0) as [Hz|Hz]; [apply IH|].
    rewrite Z.geb_leb, (proj2 (Z.leb_le _ _)) by auto. rewrite IH, sum_of_cons. cbn [se_usdAmount]. lia.
Qed.
(** the agent's history and its rolling total. After the first day of the clock, the history
    of a written slot is in time order, and its sum is the agent's rolling 24h spend but for
    the hour that straddles the window's edge, whose share the rolling total counts and the
    history leaves out; both saturate at [u64]. *)
Theorem agent_history_spec o slot
    (Hslot : 0 <= slot < MAX_AGENTS_PER_VAULT) (He : ov_entries o !! Z.to_nat slot = Some e)
    (Hwritten : 0 < ace_lastWriteEpoch e) (Hday : ROLLING_WINDOW_SECONDS < now) :
  let history := getAgentSpendingHistory formatUsd (Some o) slot now in
  StronglySorted (fun a b => se_timestamp a <= se_timestamp b) history /\
  getAgentRolling24hUsd e now
  = Z.min U64_MAX (sum_of se_usdAmount history
      + (if held (Z.to_nat OVERLAY_NUM_EPOCHS) 0 (cur - OVERLAY_NUM_EPOCHS) then straddle else 0)).
Proof.
  cbv zeta. unfold getAgentSpendingHistory, getAgentRolling24hUsd, window_start. rewrite He, Z.geb_leb.
  rewrite (proj2 (Z.ltb_ge slot 0)), (proj2 (Z.leb_gt MAX_AGENTS_PER_VAULT slot)),
    (proj2 (Z.leb_gt now 0)), (proj2 (Z.eqb_neq _ 0)) by lia.
  cbn [orb]. fold cur. split; [apply sort_by_sorted|].
  rewrite (sum_of_perm _ _ _ (sort_by_perm _ _)).
  rewrite (Z.gtb_ltb now), (proj2 (Z.ltb_lt _ now)) by done.
  rewrite loops_agree, Z.add_0_l, !Z.gtb_ltb.
  destruct (Z.ltb_spec OVERLAY_NUM_EPOCHS (cur - ace_lastWriteEpoch e)) as [Hold|Hold].
  - rewrite history_stops, held_above by lia. reflexivity.
  - match goal with |- context [U64_MAX <? ?t] => destruct (Z.ltb_spec U64_MAX t) end; lia.
Qed.
End agent_history.

Section analytics_spec.
Context `{env : !ResolverEnv InstructionConstraints}.
Implicit Types (state : ResolvedVaultState InstructionConstraints).

(** ** The checklist *)
Lemma filter_partition {A} (f : A -> bool) (l : list A) :
  (length (filter (fun x => f x = true) l) + length (filter (fun x => f x = false) l) = length l)%nat.
Proof.
  induction l as [|x l IH]; [done|]. rewrite !filter_cons.
  destruct (f x); repeat case_decide; try done; cbn [length]; lia.
Qed.

Definition failing_critical (c : SecurityCheck) : Prop := sc_severity c = critical /\ sc_passed c = false.

Lemma filter_nil {A} (P : A -> Prop) `{forall x, Decision (P x)} (l : list A) :
  filter P l = [] <-> Forall (fun x => ~ P x) l.
Proof.
  rewrite Forall_forall. split.
  - intros Hf x Hx HP. assert (x ∈ filter P l) as Hin by (by apply list_elem_of_filter).
    rewrite Hf in Hin. by apply elem_of_nil in Hin.
  - intros Hn. destruct (filter P l) as [|x f] eqn:Hf; [done|].
    assert (x ∈ filter P l) as Hin by (rewrite Hf; left).
    apply list_elem_of_filter in Hin as [HP Hx]. by destruct (Hn x Hx).
Qed.

Lemma not_failing_critical id b s :
  ~ failing_critical (mkCheck id b s) <-> (s = critical -> b = true).
Proof. unfold failing_critical. cbn. destruct b, s; naive_solver. Qed.

(** What the generated decoders return: entries with eight data and five account slots. *)
Definition constraints_decoded (c : InstructionConstraints) : Prop :=
  Forall (fun e => length (cz_dataConstraints e) = 8%nat /\ length (cz_accountConstraints e) = 5%nat)
    (ic_entries c).

Lemma constraints_current_decoded c : constraints_decoded c -> constraints_current (Some c) = true.
Proof.
  intros Hd. apply forallb_forall. intros e He. apply list_elem_of_In in He.
  destruct (proj1 (Forall_forall _ _) Hd e He) as [H8 _]. by rewrite H8.
Qed.

(** what the security checklist means. Every one of the twenty checks is counted once; there
    is no critical failure exactly when no agent has full capability, the daily cap is
    set, fees do not go to the system program, and either the protocol list is in force
    or strict constraints are. One check is dead: constraints as the decoders return them
    are never reported as stale. *)
Theorem security_posture_spec state :
  let p := getSecurityPosture state in
  passCount p + failCount p = 20 /\
  (criticalFailures p = [] <->
    Forall (fun a => agent_capability a <> FULL_CAPABILITY) (agents (rs_vault state)) /\
    0 < dailySpendingCapUsd (rs_policy state) /\
    feeDestination (rs_vault state) <> SYSTEM_PROGRAM /\
    (protocolMode (rs_policy state) <> PROTOCOL_MODE_ALL \/
     exists c, rs_constraints state = Some c /\ ic_strictMode c <> 0)) /\
  (forall c, rs_constraints state = Some c -> constraints_decoded c ->
    mkCheck "constraints-current" true warning ∈ sp_checks p).
Proof.
  cbv zeta. unfold getSecurityPosture. cbn [passCount failCount criticalFailures sp_checks]. split_and!.
  - rewrite <- Nat2Z.inj_add, filter_partition. done.
  - fold (failing_critical). rewrite (filter_nil failing_critical). unfold posture_checks.
    rewrite !Forall_cons, Forall_nil, !not_failing_critical.
    assert (Hcap : negb (existsb (fun a => agent_capability a =? FULL_CAPABILITY)
              (agents (rs_vault state))) = true
            <-> Forall (fun a => agent_capability a <> FULL_CAPABILITY) (agents (rs_vault state))).
    { rewrite negb_true_iff, <- not_true_iff_false, existsb_exists, Forall_forall. split.
      - intros Hn a Ha He. apply Hn. exists a. split; [by apply list_elem_of_In|lia].
      - intros Hf (a & Ha & He). apply (Hf a); [by apply list_elem_of_In|lia]. }
    assert (Hmode : mode_all_guarded (rs_policy state) (rs_constraints state) = true
            <-> protocolMode (rs_policy state) <> PROTOCOL_MODE_ALL \/
                exists c, rs_constraints state = Some c /\ ic_strictMode c <> 0).
    { unfold mode_all_guarded, PROTOCOL_MODE_ALL. destruct (Z.eqb_spec (protocolMode (rs_policy state)) 0);
        cbn [negb orb]; [|naive_solver].
      destruct (rs_constraints state) as [c|]; [|naive_solver].
      destruct (Z.eqb_spec (ic_strictMode c) 0); naive_solver. }
    rewrite Hcap, Hmode, bool_decide_eq_true, Z.gtb_lt.
    assert (Hx : forall P, (critical = critical -> P) <-> P) by naive_solver.
    assert (Hy : forall b, (warning = critical -> b = true) <-> True) by naive_solver.
    assert (Hz : forall b, (info = critical -> b = true) <-> True) by naive_solver.
    rewrite !Hx, !Hy, !Hz. tauto.
  - intros c Hc Hd. unfold posture_checks. rewrite Hc, (constraints_current_decoded c Hd).
    set_solver.
Qed.

(** ** The alerts *)
Lemma cap_alerts_critical g k :
  (k, critical) ∈ cap_alerts g <-> k = cap_critical /\ 0 < cap g /\ 95 <= percent_used g.
Proof.
  unfold cap_alerts. destruct (Z.gtb_spec (cap g) 0); [|set_solver by lia].
  destruct (Z.geb_spec (percent_used g) 95); [set_solver by lia|].
  destruct (_ >=? 80); set_solver by lia.
Qed.

Lemma agent_cap_alerts_critical budgets k :
  (k, critical) ∈ agent_cap_alerts budgets <->
  exists a b, (a, b) ∈ budgets /\ k = agent_cap a (percent_used b) /\ 0 < cap b /\ 95 <= percent_used b.
Proof.
  unfold agent_cap_alerts. rewrite list_elem_of_In, in_flat_map. split.
  - intros ([a b] & Hin & Hk). apply list_elem_of_In in Hin, Hk. cbn [fst snd] in Hk.
    destruct (Z.gtb_spec (cap b) 0); [|set_solver]. cbv zeta in Hk.
    destruct (Z.geb_spec (percent_used b) 80); [|set_solver].
    apply list_elem_of_singleton in Hk. destruct (Z.geb_spec (percent_used b) 95); [|done].
    exists a, b. naive_solver.
  - intros (a & b & Hin & -> & Hc & Hu). exists (a, b). split; [by apply list_elem_of_In|].
    cbn [fst snd]. apply list_elem_of_In. rewrite (proj2 (Z.gtb_lt _ _) Hc). cbv zeta.
    destruct (Z.geb_spec (percent_used b) 80); [|lia].
    destruct (Z.geb_spec (percent_used b) 95); [by left|lia].
Qed.

(** The vault's spending rate would consume half of the daily cap within the hour. *)
Definition drains state : Prop :=
  exists t, rs_tracker state = Some t /\ 0 < cap (globalBudget state) /\
    let rate := currentRate (getSpendingVelocity (Some t) (resolvedAtTimestamp state) (globalBudget state)) in
    0 < rate /\ Z.quot (cap (globalBudget state)) 2 < rate.

Lemma velocity_alerts_critical state k :
  (k, critical) ∈ velocity_alerts state <-> k = drain_detected_alert /\ drains state.
Proof.
  unfold velocity_alerts, drains. destruct (rs_tracker state) as [t|]; [|set_solver].
  destruct (Z.gtb_spec (cap (globalBudget state)) 0).
  2: { split; [set_solver|]. intros (_ & ? & [= <-] & ? & _). lia. }
  cbv zeta. set (v := getSpendingVelocity _ _ _). rewrite elem_of_app.
  assert (Hh : (k, critical) ∈ (if (averageRate v >? 0) && (currentRate v >? averageRate v * 2)
    then [(high_velocity, warning)] else []) <-> False) by (destruct (_ && _); set_solver).
  rewrite Hh. clear Hh.
  destruct (Z.gtb_spec (currentRate v) 0), (Z.gtb_spec (currentRate v) (Z.quot (cap (globalBudget state)) 2));
    cbn [andb]; rewrite ?list_elem_of_singleton, ?elem_of_nil; split;
    try (intros [[]|[]]; fail); try (intros [[]|[= ->]]; split; [done|]; exists t; by split_and!);
    intros (-> & t' & [= <-] & _ & ? & ?); subst v; first [by right|lia].
Qed.

Lemma raised_alerts_critical state k :
  (k, critical) ∈ raised_alerts state <->
  (k = cap_critical /\ 0 < cap (globalBudget state) /\ 95 <= percent_used (globalBudget state)) \/
  (k = frozen /\ vault_status (rs_vault state) = Frozen) \/
  (exists a b, (a, b) ∈ allAgentBudgets state /\ k = agent_cap a (percent_used b) /\
     0 < cap b /\ 95 <= percent_used b) \/
  (k = drain_detected_alert /\ drains state).
Proof.
  unfold raised_alerts. cbv zeta.
  rewrite !elem_of_app, cap_alerts_critical, agent_cap_alerts_critical, velocity_alerts_critical.
  assert (H1 : (k, critical) ∈ (if bool_decide (vault_status (rs_vault state) = Frozen)
            then [(frozen, critical)] else []) <-> k = frozen /\ vault_status (rs_vault state) = Frozen)
    by (case_bool_decide; set_solver).
  assert (H2 : forall l : list AgentEntry, (k, critical) ∈ ((fun a => (agent_paused_alert (pubkey a), info)) <$> l) <-> False).
  { intros l. rewrite list_elem_of_fmap. naive_solver. }
  assert (H3 : forall (b : bool) k', (k, critical) ∈ (if b then [(k', warning)] else []) <-> False)
    by (intros [] ?; set_solver).
  rewrite H1, H2, !H3. tauto.
Qed.

Lemma critical_alert_iff state vault :
  (exists a, a ∈ evaluateAlertConditions state vault /\ al_severity a = critical) <->
   (0 < cap (globalBudget state) /\ 95 <= percent_used (globalBudget state)) \/
   vault_status (rs_vault state) = Frozen \/
   (exists agent b, (agent, b) ∈ allAgentBudgets state /\ 0 < cap b /\ 95 <= percent_used b) \/
   drains state.
Proof.
  assert (Hin : (exists a, a ∈ evaluateAlertConditions state vault /\ al_severity a = critical) <->
                exists k, (k, critical) ∈ raised_alerts state).
  { unfold evaluateAlertConditions. split.
    - intros (a & Ha & Hs). rewrite sort_by_perm in Ha.
      apply list_elem_of_fmap in Ha as ([k s] & -> & Hk). cbn in Hs. subst s. by exists k.
    - intros (k & Hk). exists (mkAlert k critical vault). split; [|done]. rewrite sort_by_perm.
      apply list_elem_of_fmap. by exists (k, critical). }
  rewrite Hin. setoid_rewrite raised_alerts_critical. naive_solver.
Qed.

(** the alerts are complete and ordered. The list is the raised alerts sorted by severity, and
    an alert is critical exactly in four cases: the vault's budget is at least 95% used,
    the vault is frozen, an agent's budget is at least 95% used, or the present spending
    rate would consume half of the daily cap within an hour. *)
Theorem alerts_spec state vault :
  let alerts := evaluateAlertConditions state vault in
  StronglySorted (fun a b => severityOrder (al_severity a) <= severityOrder (al_severity b)) alerts /\
  alerts ≡ₚ (fun ks => mkAlert ks.1 ks.2 vault) <$> raised_alerts state /\
  ((exists a, a ∈ alerts /\ al_severity a = critical) <->
   (0 < cap (globalBudget state) /\ 95 <= percent_used (globalBudget state)) \/
   vault_status (rs_vault state) = Frozen \/
   (exists agent b, (agent, b) ∈ allAgentBudgets state /\ 0 < cap b /\ 95 <= percent_used b) \/
   drains state).
Proof.
  cbv zeta. split_and!; [apply sort_by_sorted|apply sort_by_perm|apply critical_alert_iff].
Qed.

(** ** The spending velocity *)
Lemma peak_fold_bound l acc :
  acc.1 <= (fold_left peak_step l acc).1 /\
  Forall (fun b => usdAmount b <= (fold_left peak_step l acc).1) l.
Proof.
  revert acc. induction l as [|b l IH]; intros acc; [done|]. cbn [fold_left].
  destruct (IH (peak_step acc b)) as [H1 H2]. split.
  - etrans; [|exact H1]. unfold peak_step. destruct (Z.gtb_spec (usdAmount b) acc.1); cbn; lia.
  - constructor; [|exact H2]. etrans; [|exact H1].
    unfold peak_step. destruct (Z.gtb_spec (usdAmount b) acc.1); cbn; lia.
Qed.

Lemma sum_of_le_const {A} (f : A -> Z) l M :
  Forall (fun x => f x <= M) l -> sum_of f l <= Z.of_nat (length l) * M.
Proof.
  induction 1 as [|x l Hx _ IH]; [done|]. rewrite sum_of_cons. cbn [length]. lia.
Qed.

(** The rate is at most six times the highest ten-minute spend, per hour. *)
Lemma velocity_rate_bounds t now g :
  Forall bucket_wf (buckets t) ->
  let v := getSpendingVelocity (Some t) now g in
  0 <= currentRate v <= 6 * peakRate v.
Proof.
  intros Hw. cbv zeta. unfold getSpendingVelocity. destruct (now <=? 0); [cbn; lia|]. cbv zeta.
  set (valid := filter _ _).
  destruct (fold_left peak_step valid (0, 0)) as [peak ep] eqn:Hp.
  cbn [currentRate peakRate].
  destruct (peak_fold_bound valid (0, 0)) as [H0 Hall]. rewrite Hp in H0, Hall. cbn [fst] in H0, Hall.
  set (recent := take 3 _).
  assert (Hsub : Forall (fun b => 0 <= usdAmount b <= peak) recent).
  { apply Forall_take. rewrite sort_by_perm. apply Forall_forall. intros b Hb.
    split; [|exact (proj1 (Forall_forall _ _) Hall b Hb)].
    unfold valid in Hb. apply list_elem_of_filter in Hb as [_ Hb].
    destruct (proj1 (Forall_forall _ _) Hw b Hb) as [_ [? _]]. done. }
  destruct (Nat.ltb_spec 0 (length recent)) as [Hl|Hl]; [|lia].
  assert (Hs : 0 <= sum_of usdAmount recent <= Z.of_nat (length recent) * peak).
  { split; [apply sum_of_nonneg; intros b Hb; by apply (proj1 (Forall_forall _ _) Hsub b Hb)|].
    apply sum_of_le_const. eapply Forall_impl; [exact Hsub|]. cbn. lia. }
  rewrite Z.quot_div_nonneg by lia. split; [apply Z.div_pos; lia|].
  apply Z.div_le_upper_bound; lia.
Qed.
End analytics_spec.

(** ** Concrete states *)
#[export] Instance demo_constraints_env : ResolverEnv InstructionConstraints := {
  addressEncode := demo_encode;
  addressDecode := fun _ => None;
  getVaultPDA := getVaultPDA (Constraints:=unit);
  getPolicyPDA := getPolicyPDA (Constraints:=unit);
  getTrackerPDA := getTrackerPDA (Constraints:=unit);
  getAgentOverlayPDA := getAgentOverlayPDA (Constraints:=unit);
  getConstraintsPDA := getConstraintsPDA (Constraints:=unit);
  deriveAta := deriveAta (Constraints:=unit);
  decodeAgentVault := decodeAgentVault (Constraints:=unit);
  decodePolicyConfig := decodePolicyConfig (Constraints:=unit);
  decodeSpendTracker := decodeSpendTracker (Constraints:=unit);
  decodeAgentSpendOverlay := decodeAgentSpendOverlay (Constraints:=unit);
  decodeInstructionConstraints := fun _ => Throw (sdk_error "SolanaError" []);
}.

(** An entry whose counts are zero still carries the fixed arrays. *)
Definition empty_entry : ConstraintEntryZC :=
  mkEntryZC (replicate 32 0) (replicate 8 (mkDataZC 0 0 0 (replicate 32 0)))
    (replicate 5 (mkAccountZC (replicate 32 0) 0 0)) 0 0.

Definition demo_analytics_state (tracker : SpendTracker) (g : EffectiveBudget)
    : ResolvedVaultState InstructionConstraints :=
  mkResolved demo_vault demo_policy (Some tracker) None
    (Some (mkConstraints (replicate 32 0) [empty_entry] 1 1)) g None [] [] 500 (mkBalances 100 0)
    1700000000.

Definition quiet_tracker : SpendTracker := mkTracker [] [] 0.

Lemma security_posture_spec_witness :
  mkCheck "constraints-current" true warning
    ∈ sp_checks (getSecurityPosture (demo_analytics_state quiet_tracker (mkBudget 0 1000 1000))).
Proof.
  apply (proj2 (proj2 (security_posture_spec
    (demo_analytics_state quiet_tracker (mkBudget 0 1000 1000)))) _ eq_refl).
  repeat constructor.
Defined.

(** One spend of a tenth of the cap, twenty hours ago: the "current" rate is still six times
    that spend per hour, and the drain alert is raised. *)
Definition stale_tracker : SpendTracker :=
  mkTracker [mkBucket (Z.quot 1700000000 600 - 120) 100] [] (Z.quot 1700000000 600 - 120).

Example stale_rate_alarms :
  let s := demo_analytics_state stale_tracker (mkBudget 100 1000 900) in
  currentRate (getSpendingVelocity (Some stale_tracker) 1700000000 (mkBudget 100 1000 900)) = 600 /\
  al_kind <$> evaluateAlertConditions s "vault" = [drain_detected_alert; high_velocity].
Proof. vm_compute. done. Qed.

(** An agent that spent 7 and 5 two hours and one hour ago, and 100 in the hour at the edge,
    a quarter of which is outside the window. *)
Definition history_entry : AgentContributionEntry :=
  mkContribution [1] 999 (<[14%nat := 7]> (<[15%nat := 5]> (<[16%nat := 100]> (replicate 24 0)))).
Definition history_overlay : AgentSpendOverlay := mkOverlay [history_entry] [] [].
Definition history_now : Z := 1000 * 3600 + 900.

Lemma agent_history_spec_witness :
  let history := getAgentSpendingHistory (fun _ => "$") (Some history_overlay) 0 history_now in
  sum_of se_usdAmount history = 12 /\ getAgentRolling24hUsd history_entry history_now = 87 /\
  getAgentRolling24hUsd history_entry history_now
  = Z.min U64_MAX (sum_of se_usdAmount history
      + (if held history_entry (Z.to_nat OVERLAY_NUM_EPOCHS) 0 976
         then straddle history_entry history_now else 0)).
Proof.
  split; [vm_compute; reflexivity|]. split; [vm_compute; reflexivity|].
  exact (proj2 (agent_history_spec (fun _ => "$") history_entry history_now ltac:(reflexivity)
    history_overlay 0 ltac:(vm_compute; split; congruence) eq_refl ltac:(reflexivity) ltac:(reflexivity))).
Defined.

(** ** The agent's overlay refines a ledger of its spends *)
Definition hour_of (now : Z) : Z := Z.quot now OVERLAY_EPOCH_DURATION.
Definition hour_total (log : list Spend) (hour : Z) : Z :=
  sum_of spend_amount (filter (fun s => hour_of (spend_time s) = hour) log).

(** Slots reachable from a fresh one by contributions at non-decreasing times. *)
Inductive contributed : AgentContributionEntry -> list Spend -> Z -> Prop :=
  | contributed_init agent : contributed (mkContribution agent 0 (replicate 24 0)) [] 0
  | contributed_spend e log last now amount e' :
      contributed e log last -> last <= now -> 0 < now ->
      record_contribution e now amount = Ok e' ->
      contributed e' (log ++ [mkSpend now amount]) now.

(** The slot's buckets are the totals of the last 24 hours up to the last write. *)
Record holds_log (e : AgentContributionEntry) (log : list Spend) (last : Z) : Prop := {
  hl_length : length (contributions e) = 24%nat;
  hl_last : ace_lastWriteEpoch e = hour_of last;
  hl_nonneg : 0 <= last;
  hl_times s : s ∈ log -> 0 <= spend_time s <= last;
  hl_slots hour : 0 <= hour -> hour_of last - 24 < hour <= hour_of last -> slot_of e hour = hour_total log hour;
}.

Lemma hour_total_app log s hour :
  hour_total (log ++ [s]) hour
  = hour_total log hour + (if bool_decide (hour_of (spend_time s) = hour) then spend_amount s else 0).
Proof.
  unfold hour_total. rewrite filter_app, sum_of_app. f_equal.
  case_bool_decide as H; [rewrite filter_cons_True by done|rewrite filter_cons_False by done];
    unfold sum_of; cbn; lia.
Qed.

Lemma hour_mono a b : 0 <= a <= b -> hour_of a <= hour_of b.
Proof. intros H. unfold hour_of, OVERLAY_EPOCH_DURATION. apply Z.quot_le_mono; lia. Qed.

Lemma hour_nonneg a : 0 <= a -> 0 <= hour_of a.
Proof. intros H. unfold hour_of, OVERLAY_EPOCH_DURATION. apply Z.quot_pos; lia. Qed.

Lemma hour_total_after log last hour :
  (forall s, s ∈ log -> 0 <= spend_time s <= last) -> hour_of last < hour -> hour_total log hour = 0.
Proof.
  intros Hl Hh. unfold hour_total. replace (filter _ log) with (@nil Spend); [done|].
  symmetry. apply filter_nil, Forall_forall. intros s Hs <-. specialize (Hl s Hs).
  pose proof (hour_mono (spend_time s) last Hl). lia.
Qed.

Lemma zeroed_lookup idxs cs i :
  default 0 (fold_left zero_at idxs cs !! i) = if bool_decide (i ∈ idxs) then 0 else default 0 (cs !! i).
Proof.
  revert cs. induction idxs as [|j idxs IH]; intros cs; cbn [fold_left]; [done|]. rewrite IH.
  destruct (decide (i = j)) as [->|Hij].
  - rewrite (bool_decide_true (j ∈ j :: idxs)) by set_solver. case_bool_decide; [done|].
    unfold zero_at. destruct (decide (j < length cs)%nat) as [Hj|Hj].
    + by rewrite list_lookup_insert_eq.
    + by rewrite lookup_ge_None_2 by (rewrite length_insert; lia).
  - unfold zero_at. rewrite list_lookup_insert_ne by done.
    rewrite (bool_decide_ext (i ∈ j :: idxs) (i ∈ idxs)); [done|]. rewrite elem_of_cons. tauto.
Qed.

(** Two hours of one day share a bucket only if they are the same. *)
Lemma bucket_inj a b :
  0 <= a -> 0 <= b -> Z.abs (a - b) < 24 ->
  Z.to_nat (Z.rem a OVERLAY_NUM_EPOCHS) = Z.to_nat (Z.rem b OVERLAY_NUM_EPOCHS) -> a = b.
Proof.
  unfold OVERLAY_NUM_EPOCHS. intros Ha Hb Hd. rewrite !Z.rem_mod_nonneg by lia.
  pose proof (Z.div_mod a 24 ltac:(lia)). pose proof (Z.div_mod b 24 ltac:(lia)).
  pose proof (Z.mod_pos_bound a 24 ltac:(lia)). pose proof (Z.mod_pos_bound b 24 ltac:(lia)). lia.
Qed.

Lemma zero_gap_length e cur : length (contributions (zero_gap_buckets e cur)) = length (contributions e).
Proof.
  unfold zero_gap_buckets. destruct (_ <=? 0); [done|]. cbn [contributions].
  destruct (_ >=? _); [apply length_fmap|].
  match goal with |- context [fold_left zero_at ?l _] => generalize l as idxs end.
  intros idxs. generalize (contributions e) as cs.
  induction idxs as [|j idxs IH]; intros cs; [done|]. cbn [fold_left]. rewrite IH. apply length_insert.
Qed.

(** After the zeroing, an hour of the last 24 holds what it held, or nothing if it is new. *)
Lemma zero_gap_slot e cur hour :
  0 <= ace_lastWriteEpoch e <= cur -> 0 <= hour -> cur - 24 < hour <= cur ->
  slot_of (zero_gap_buckets e cur) hour = if ace_lastWriteEpoch e <? hour then 0 else slot_of e hour.
Proof.
  intros HL Hh Hw. unfold zero_gap_buckets, slot_of.
  destruct (Z.leb_spec (cur - ace_lastWriteEpoch e) 0) as [Hg|Hg].
  { by rewrite (proj2 (Z.ltb_ge _ hour)) by lia. }
  cbn [contributions]. rewrite Z.geb_leb.
  destruct (Z.leb_spec OVERLAY_NUM_EPOCHS (cur - ace_lastWriteEpoch e)) as [Hf|Hf]; unfold OVERLAY_NUM_EPOCHS in Hf.
  - rewrite (proj2 (Z.ltb_lt _ hour)) by lia. rewrite list_lookup_fmap. by destruct (contributions e !! _).
  - rewrite zeroed_lookup. destruct (Z.ltb_spec (ace_lastWriteEpoch e) hour) as [Hn|Hn].
    + rewrite bool_decide_true; [done|]. apply list_elem_of_fmap. exists (hour - ace_lastWriteEpoch e).
      split; [do 2 f_equal; lia|]. apply elem_of_seqZ. lia.
    + rewrite bool_decide_false; [done|]. intros (o & Ho & Hin)%list_elem_of_fmap.
      apply elem_of_seqZ in Hin. apply bucket_inj in Ho; lia.
Qed.

Lemma contributed_holds e log last : contributed e log last -> holds_log e log last.
Proof.
  induction 1 as [agent|e log last now amount e' _ [Hlen Hlast Hnn Ht Hs] Hle Hnow Hrec].
  - split; try done; [by intros s ?%not_elem_of_nil|]. intros hour H0 H. change (hour_of 0) with 0 in H.
    assert (hour = 0) as -> by lia. reflexivity.
  - unfold record_contribution in Hrec. fold (hour_of now) in Hrec.
    apply bind_ok_inv in Hrec as (usd & Hadd & [= <-]).
    unfold checked_add_u64 in Hadd. destruct (_ >? U64_MAX); [discriminate Hadd|]. injection Hadd as <-.
    pose proof (hour_mono last now ltac:(lia)) as Hmono. pose proof (hour_nonneg last Hnn) as Hpos.
    assert (Hslot : forall hour, 0 <= hour -> hour_of now - 24 < hour <= hour_of now ->
      slot_of (zero_gap_buckets e (hour_of now)) hour = hour_total log hour).
    { intros hour H0 Hw. rewrite zero_gap_slot by lia. rewrite Hlast.
      destruct (Z.ltb_spec (hour_of last) hour); [|apply Hs; lia].
      symmetry. by eapply hour_total_after. }
    split; cbn [contributions ace_lastWriteEpoch]; [|done|lia| |].
    + by rewrite length_insert, zero_gap_length.
    + intros s [Hin|Hin%list_elem_of_singleton]%elem_of_app; [|subst s; cbn; lia]. specialize (Ht s Hin). lia.
    + intros hour H0 Hw. rewrite hour_total_app. cbn [spend_time spend_amount]. unfold slot_of at 1.
      cbn [contributions]. fold (slot_of (zero_gap_buckets e (hour_of now)) (hour_of now)).
      case_bool_decide as Heq.
      * subst hour. rewrite list_lookup_insert_eq; [cbn; by rewrite Hslot by lia|].
        rewrite zero_gap_length, Hlen. unfold OVERLAY_NUM_EPOCHS.
        pose proof (Z.rem_bound_pos (hour_of now) 24 H0 ltac:(lia)). lia.
      * rewrite list_lookup_insert_ne by (intros He; apply bucket_inj in He; lia).
        fold (slot_of (zero_gap_buckets e (hour_of now)) hour). rewrite Hslot by lia. lia.
Qed.

Section overlay_ledger.
Context (formatUsd : Z -> string).

Definition hour_point (hour amount : Z) : SpendingEpoch :=
  mkSpendingEpoch hour (hour * OVERLAY_EPOCH_DURATION) amount (formatUsd amount).

Lemma history_loop_points e cur ws n k p :
  p ∈ agent_history_loop formatUsd n k e cur ws <->
  exists hour, ace_lastWriteEpoch e - k - Z.of_nat n < hour <= ace_lastWriteEpoch e - k /\
    0 <= hour /\ ws < hour <= cur /\ slot_of e hour <> 0 /\ p = hour_point hour (slot_of e hour).
Proof.
  revert k. induction n as [|n IH]; intros k.
  { split; [by intros ?%not_elem_of_nil|]. intros (hour & H & _). lia. }
  cbn [agent_history_loop]. set (ep := ace_lastWriteEpoch e - k). fold (slot_of e ep).
  destruct (Z.ltb_spec ep 0) as [H0|H0]; cbn [orb].
  { split; [by intros ?%not_elem_of_nil|]. intros (hour & H & H' & _). lia. }
  destruct (Z.leb_spec ep ws) as [H1|H1].
  { split; [by intros ?%not_elem_of_nil|]. intros (hour & H & _ & H' & _). lia. }
  assert (Hskip : (cur < ep \/ slot_of e ep = 0) ->
    (exists hour, ace_lastWriteEpoch e - (k + 1) - Z.of_nat n < hour <= ace_lastWriteEpoch e - (k + 1) /\
      0 <= hour /\ ws < hour <= cur /\ slot_of e hour <> 0 /\ p = hour_point hour (slot_of e hour)) <->
    (exists hour, ep - Z.of_nat (S n) < hour <= ep /\
      0 <= hour /\ ws < hour <= cur /\ slot_of e hour <> 0 /\ p = hour_point hour (slot_of e hour))).
  { intros Hs. split; intros (hour & H & H' & Hw & Hne & ->); exists hour; split_and!; try done; try lia.
    destruct (decide (hour = ep)) as [->|]; [|lia]. destruct Hs; [lia|done]. }
  rewrite Z.gtb_ltb. destruct (Z.ltb_spec cur ep) as [H2|H2]; [rewrite IH; by apply Hskip; left|].
  destruct (Z.eqb_spec (slot_of e ep) 0) as [H3|H3]; [rewrite IH; by apply Hskip; right|].
  rewrite elem_of_cons, IH. split.
  - intros [->|(hour & H & H' & Hw & Hne & ->)]; [exists ep|exists hour]; split_and!; try done; lia.
  - intros (hour & H & H' & Hw & Hne & ->). destruct (decide (hour = ep)) as [->|]; [by left|right].
    exists hour. split_and!; try done; lia.
Qed.

(** C12: the overlay refines a ledger of the agent's spends. After any sequence of the program's
    contributions to a fresh slot at non-decreasing times, the SDK's history lists exactly
    the hours of the last 24 in which the agent spent, each with its exact total, and the
    rolling spend is their sum plus the share of the hour before them, which the slot still
    knows unless the agent has spent in the current hour. *)
Theorem overlay_refines_ledger o slot e log last now
    (Hslot : 0 <= slot < MAX_AGENTS_PER_VAULT) (He : ov_entries o !! Z.to_nat slot = Some e)
    (Hlog : contributed e log last) (Hwritten : 0 < hour_of last) (Hlast : last <= now)
    (Hday : ROLLING_WINDOW_SECONDS < now) :
  let history := getAgentSpendingHistory formatUsd (Some o) slot now in
  let edge := hour_of now - 24 in
  (forall p, p ∈ history <->
    exists hour, edge < hour <= hour_of now /\ hour_total log hour <> 0 /\
      p = hour_point hour (hour_total log hour)) /\
  getAgentRolling24hUsd e now
  = Z.min U64_MAX (sum_of se_usdAmount history
      + (if hour_of last <? hour_of now
         then Z.quot (hour_total log edge * (3600 - now mod 3600)) 3600 else 0)).
Proof.
  cbv zeta. destruct (contributed_holds _ _ _ Hlog) as [Hlen HL Hnn Ht Hs].
  pose proof (hour_mono last now ltac:(lia)) as Hmono.
  assert (Hcur : 24 <= hour_of now).
  { unfold hour_of. change 24 with (Z.quot 86400 OVERLAY_EPOCH_DURATION). unfold ROLLING_WINDOW_SECONDS in Hday.
    apply Z.quot_le_mono; unfold OVERLAY_EPOCH_DURATION; lia. }
  assert (Hnow : 0 < now) by (unfold ROLLING_WINDOW_SECONDS in Hday; lia).
  assert (Hlate : forall hour, hour_of last < hour -> hour_total log hour = 0)
    by (intros hour Hh; by eapply hour_total_after).
  split.
  - intros p. unfold getAgentSpendingHistory. rewrite He, Z.geb_leb.
    rewrite (proj2 (Z.ltb_ge slot 0)), (proj2 (Z.leb_gt MAX_AGENTS_PER_VAULT slot)),
      (proj2 (Z.leb_gt now 0)), (proj2 (Z.eqb_neq _ 0)) by lia.
    cbn [orb]. fold (hour_of now). rewrite sort_by_perm, history_loop_points, HL, Z.sub_0_r.
    change (Z.of_nat (Z.to_nat OVERLAY_NUM_EPOCHS)) with 24. unfold OVERLAY_NUM_EPOCHS. split.
    + intros (hour & H & H0 & Hw & Hne & ->). exists hour. rewrite (Hs hour) in Hne by lia. rewrite (Hs hour) by lia.
      split_and!; [lia..|done|done].
    + intros (hour & Hw & Hne & ->). destruct (decide (hour <= hour_of last)) as [Hle|Hgt].
      * exists hour. rewrite Hs by lia. split_and!; try done; lia.
      * by rewrite Hlate in Hne by lia.
  - rewrite (proj2 (agent_history_spec formatUsd e now ltac:(lia) o slot Hslot He ltac:(lia) Hday)).
    do 2 f_equal. unfold held. rewrite HL. fold (hour_of now).
    change (Z.of_nat (Z.to_nat OVERLAY_NUM_EPOCHS)) with 24. unfold OVERLAY_NUM_EPOCHS.
    rewrite (proj2 (Z.leb_le 0 (hour_of now - 24))) by lia. cbn [andb]. rewrite !Z.sub_0_r.
    unfold straddle. fold (hour_of now). unfold OVERLAY_NUM_EPOCHS, OVERLAY_EPOCH_DURATION at 1 2 3.
    destruct (Z.ltb_spec (hour_of last) (hour_of now)) as [Hlt|Hge].
    + rewrite (proj2 (Z.ltb_lt (hour_of last - 24) _)) by lia. rewrite andb_true_r.
      destruct (Z.leb_spec (hour_of now - 24) (hour_of last)) as [Hk|Hk].
      * by rewrite Hs by lia.
      * by rewrite Hlate by lia.
    + rewrite (proj2 (Z.ltb_ge (hour_of last - 24) _)) by lia. by rewrite andb_false_r.
Qed.
End overlay_ledger.

(** Three spends: in one hour, and two in the next one; read a day after the first. *)
Definition contribution_log : list Spend :=
  [mkSpend 1700000000 40; mkSpend 1700003000 7; mkSpend 1700003600 5].
Fixpoint contribute_all (e : AgentContributionEntry) (log : list Spend) : res ChainError AgentContributionEntry :=
  match log with
  | [] => Ok e
  | s :: log' => e ← record_contribution e (spend_time s) (spend_amount s); contribute_all e log'
  end.
Definition contributed_entry : AgentContributionEntry :=
  match contribute_all (mkContribution [1] 0 (replicate 24 0)) contribution_log with
  | Ok e => e | Throw _ => mkContribution [] 0 [] end.

Lemma contribution_log_reached : contributed contributed_entry contribution_log 1700003600.
Proof.
  apply (contributed_spend
    (match contribute_all (mkContribution [1] 0 (replicate 24 0)) (take 2 contribution_log) with
     | Ok e => e | Throw _ => mkContribution [] 0 [] end)
    (take 2 contribution_log) 1700003000 1700003600 5); [|lia|lia|vm_compute; reflexivity].
  apply (contributed_spend
    (match contribute_all (mkContribution [1] 0 (replicate 24 0)) (take 1 contribution_log) with
     | Ok e => e | Throw _ => mkContribution [] 0 [] end)
    (take 1 contribution_log) 1700000000 1700003000 7); [|lia|lia|vm_compute; reflexivity].
  apply (contributed_spend (mkContribution [1] 0 (replicate 24 0)) [] 0 1700000000 40);
    [apply contributed_init|lia|lia|vm_compute; reflexivity].
Qed.

Lemma overlay_refines_ledger_witness :
  let o := mkOverlay [contributed_entry] [] [] in
  let now := 1700086400 in
  let history := getAgentSpendingHistory (fun _ => "$") (Some o) 0 now in
  history = [hour_point (fun _ => "$") 472223 12] /\ getAgentRolling24hUsd contributed_entry now = 43 /\
  getAgentRolling24hUsd contributed_entry now
  = Z.min U64_MAX (sum_of se_usdAmount history
      + (if hour_of 1700003600 <? hour_of now
         then Z.quot (hour_total contribution_log (hour_of now - 24) * (3600 - now mod 3600)) 3600 else 0)).
Proof.
  split; [vm_compute; reflexivity|]. split; [vm_compute; reflexivity|].
  exact (proj2 (overlay_refines_ledger (fun _ => "$") (mkOverlay [contributed_entry] [] []) 0
    contributed_entry contribution_log 1700003600 1700086400
    ltac:(vm_compute; split; congruence) eq_refl contribution_log_reached
    ltac:(reflexivity) ltac:(lia) ltac:(reflexivity))).
Defined.
