(* ===== verification/EventLayouts.v ===== *)
(** * The events of the program ([generated/types/*.ts], [generated/event-discriminators.ts])

    What the generated decoders are: the list of a struct's fields with the codec of each.
    The codecs themselves are the library's; [Events] assumes of them that a decoded value
    has the type its codec says. The layouts are the decoders' and, the generated files
    being symmetric, the encoders'. *)

From S2P Require Import Prelude Types Accounts Bytes.
Local Open Scope string_scope.
Local Open Scope Z_scope.
Local Open Scope list_scope.

(** ** Codecs and values *)
Inductive codec :=
  | CU8 | CU16 | CU32 | CU64 | CI64 | CBool | CAddress
  | CBytes (size : nat)     (* [fixDecoderSize(getBytesDecoder(), size)] *)
  | CBlob                   (* bytes behind a [u32] length *)
  | COption (c : codec).

Abbreviation layout := (jsmap codec).

(** What a decoded field can be: small integers are numbers, wide ones are [bigint]. [FKind]
    is an enum value of earlier program versions. *)
Inductive field :=
  | FNum (n : Z)
  | FBig (z : Z)
  | FBool (b : bool)
  | FAddr (s : string)
  | FBytes (bs : bytes)
  | FNone
  | FSome (f : field)
  | FKind (kind : string).

#[export] Instance field_eq_dec : EqDecision field.
Proof. solve_decision. Defined.

Abbreviation fields_obj := (jsmap field).

(** The type a codec gives to what it decodes. *)
Fixpoint has_type (c : codec) (f : field) : Prop :=
  match c, f with
  | CU8, FNum n => 0 <= n < 2 ^ 8
  | CU16, FNum n => 0 <= n < 2 ^ 16
  | CU32, FNum n => 0 <= n < 2 ^ 32
  | CU64, FBig z => 0 <= z < 2 ^ 64
  | CI64, FBig z => - 2 ^ 63 <= z < 2 ^ 63
  | CBool, FBool _ => True
  | CAddress, FAddr s => s <> ""
  | CBytes n, FBytes bs => length bs = n
  | CBlob, FBytes _ => True
  | COption _, FNone => True
  | COption c, FSome f => has_type c f
  | _, _ => False
  end.

Definition fields_typed (l : layout) (fs : fields_obj) : Prop :=
  Forall2 (fun c f => c.1 = f.1 /\ has_type c.2 f.2) l fs.

(** ** The layouts *)
Definition ActionAuthorized_layout : layout :=
  [ ("vault", CAddress);
    ("agent", CAddress);
    ("isSpending", CBool);
    ("tokenMint", CAddress);
    ("amount", CU64);
    ("usdAmount", CU64);
    ("protocol", CAddress);
    ("rollingSpendUsdAfter", CU64);
    ("dailyCapUsd", CU64);
    ("delegated", CBool);
    ("timestamp", CI64) ].

Definition AgentPausedEvent_layout : layout :=
  [ ("vault", CAddress); ("agent", CAddress); ("timestamp", CI64) ].

Definition AgentPermissionsChangeApplied_layout : layout :=
  [ ("vault", CAddress); ("agent", CAddress); ("appliedAt", CI64) ].

Definition AgentPermissionsChangeCancelled_layout : layout :=
  [ ("vault", CAddress); ("agent", CAddress) ].

Definition AgentPermissionsChangeQueued_layout : layout :=
  [ ("vault", CAddress); ("agent", CAddress); ("executesAt", CI64) ].

Definition AgentRegistered_layout : layout :=
  [ ("vault", CAddress);
    ("agent", CAddress);
    ("capability", CU8);
    ("spendingLimitUsd", CU64);
    ("timestamp", CI64) ].

Definition AgentRevoked_layout : layout :=
  [ ("vault", CAddress); ("agent", CAddress); ("remainingAgents", CU8); ("timestamp", CI64) ].

Definition AgentSpendLimitChecked_layout : layout :=
  [ ("vault", CAddress);
    ("agent", CAddress);
    ("agentRollingSpend", CU64);
    ("spendingLimitUsd", CU64);
    ("amount", CU64);
    ("timestamp", CI64) ].

Definition AgentTransferExecuted_layout : layout :=
  [ ("vault", CAddress); ("destination", CAddress); ("amount", CU64); ("mint", CAddress) ].

Definition AgentUnpausedEvent_layout : layout :=
  [ ("vault", CAddress); ("agent", CAddress); ("timestamp", CI64) ].

Definition CloseConstraintsApplied_layout : layout :=
  [ ("vault", CAddress); ("appliedAt", CI64) ].

Definition CloseConstraintsCancelled_layout : layout :=
  [ ("vault", CAddress) ].

Definition CloseConstraintsQueued_layout : layout :=
  [ ("vault", CAddress); ("executesAt", CI64) ].

Definition ConstraintsChangeApplied_layout : layout :=
  [ ("vault", CAddress); ("discriminatorFormats", CBlob); ("appliedAt", CI64) ].

Definition ConstraintsChangeCancelled_layout : layout :=
  [ ("vault", CAddress) ].

Definition ConstraintsChangeQueued_layout : layout :=
  [ ("vault", CAddress); ("discriminatorFormats", CBlob); ("executesAt", CI64) ].

Definition DelegationRevoked_layout : layout :=
  [ ("vault", CAddress); ("tokenAccount", CAddress); ("timestamp", CI64) ].

Definition EscrowCreated_layout : layout :=
  [ ("sourceVault", CAddress);
    ("destinationVault", CAddress);
    ("escrowId", CU64);
    ("amount", CU64);
    ("tokenMint", CAddress);
    ("expiresAt", CI64);
    ("conditionHash", (CBytes 32)) ].

Definition EscrowRefunded_layout : layout :=
  [ ("sourceVault", CAddress);
    ("destinationVault", CAddress);
    ("escrowId", CU64);
    ("amount", CU64);
    ("refundedBy", CAddress) ].

Definition EscrowSettled_layout : layout :=
  [ ("sourceVault", CAddress);
    ("destinationVault", CAddress);
    ("escrowId", CU64);
    ("amount", CU64);
    ("settledBy", CAddress) ].

Definition FeesCollected_layout : layout :=
  [ ("vault", CAddress);
    ("tokenMint", CAddress);
    ("protocolFeeAmount", CU64);
    ("developerFeeAmount", CU64);
    ("protocolFeeRate", CU16);
    ("developerFeeRate", CU16);
    ("transactionAmount", CU64);
    ("protocolTreasury", CAddress);
    ("developerFeeDestination", CAddress);
    ("cumulativeDeveloperFees", CU64);
    ("timestamp", CI64) ].

Definition FundsDeposited_layout : layout :=
  [ ("vault", CAddress); ("tokenMint", CAddress); ("amount", CU64); ("timestamp", CI64) ].

Definition FundsWithdrawn_layout : layout :=
  [ ("vault", CAddress);
    ("tokenMint", CAddress);
    ("amount", CU64);
    ("destination", CAddress);
    ("timestamp", CI64) ].

Definition InstructionConstraintsCreated_layout : layout :=
  [ ("vault", CAddress);
    ("entriesCount", CU8);
    ("strictMode", CBool);
    ("discriminatorFormats", CBlob);
    ("timestamp", CI64) ].

Definition OrphanConstraintsPdaCleaned_layout : layout :=
  [ ("vault", CAddress); ("rentRecovered", CU64); ("timestamp", CI64) ].

Definition PdaAllocated_layout : layout :=
  [ ("vault", CAddress); ("pdaType", CU8); ("initialSize", CU32); ("timestamp", CI64) ].

Definition PdaExtended_layout : layout :=
  [ ("vault", CAddress); ("oldSize", CU32); ("newSize", CU32); ("timestamp", CI64) ].

Definition PolicyChangeApplied_layout : layout :=
  [ ("vault", CAddress); ("appliedAt", CI64) ].

Definition PolicyChangeCancelled_layout : layout :=
  [ ("vault", CAddress) ].

Definition PolicyChangeQueued_layout : layout :=
  [ ("vault", CAddress); ("executesAt", CI64) ].

Definition PostAssertionChecked_layout : layout :=
  [ ("vault", CAddress); ("entryIndex", CU8); ("passed", CBool); ("timestamp", CI64) ].

Definition PostAssertionsClosed_layout : layout :=
  [ ("vault", CAddress); ("timestamp", CI64) ].

Definition PostAssertionsCreated_layout : layout :=
  [ ("vault", CAddress); ("entryCount", CU8); ("timestamp", CI64) ].

Definition SessionFinalized_layout : layout :=
  [ ("vault", CAddress);
    ("agent", CAddress);
    ("success", CBool);
    ("isExpired", CBool);
    ("timestamp", CI64);
    ("actualSpendUsd", CU64);
    ("balanceAfterUsd", CU64);
    ("isSpending", CBool) ].

Definition VaultClosed_layout : layout :=
  [ ("vault", CAddress); ("owner", CAddress); ("timestamp", CI64) ].

Definition VaultCreated_layout : layout :=
  [ ("vault", CAddress); ("owner", CAddress); ("vaultId", CU64); ("timestamp", CI64) ].

Definition VaultFrozen_layout : layout :=
  [ ("vault", CAddress);
    ("owner", CAddress);
    ("agentsPreserved", CU8);
    ("sessionsRevoked", CU32);
    ("timestamp", CI64) ].

Definition VaultReactivated_layout : layout :=
  [ ("vault", CAddress);
    ("newAgent", (COption CAddress));
    ("newAgentCapability", (COption CU8));
    ("timestamp", CI64) ].

(** ** The discriminators *)
Definition EVENT_DISCRIMINATOR_MAP : jsmap string :=
  [ ("555a3bda7e08b33f", "ActionAuthorized");
    ("274a945ec6a67917", "AgentPausedEvent");
    ("e9f7671e82adc4b7", "AgentPermissionsChangeApplied");
    ("6b15814d018844d8", "AgentPermissionsChangeCancelled");
    ("d3f2edd948349650", "AgentPermissionsChangeQueued");
    ("bf4ed936e864bd55", "AgentRegistered");
    ("0cfbf9a67a53a274", "AgentRevoked");
    ("6b803c90a3532dd7", "AgentSpendLimitChecked");
    ("583475457098a728", "AgentTransferExecuted");
    ("dabbfd7c4fc02ab5", "AgentUnpausedEvent");
    ("ba3e196d90cf530d", "CloseConstraintsApplied");
    ("66e2abbf6362ff86", "CloseConstraintsCancelled");
    ("4d17e8996c2ef335", "CloseConstraintsQueued");
    ("70966f7df3852337", "ConstraintsChangeApplied");
    ("0f4b68de68c14191", "ConstraintsChangeCancelled");
    ("6fdd6495341758d4", "ConstraintsChangeQueued");
    ("3b9e8e31a474dc08", "DelegationRevoked");
    ("467f69665c6107ad", "EscrowCreated");
    ("84d1316d878a1c51", "EscrowRefunded");
    ("611b9637cbb3ad17", "EscrowSettled");
    ("e91775e16bb2fe08", "FeesCollected");
    ("9dd1645f3b640344", "FundsDeposited");
    ("3882e69a235c0b76", "FundsWithdrawn");
    ("08aa63e81fd8391a", "InstructionConstraintsCreated");
    ("a1ea93831fa39119", "OrphanConstraintsPdaCleaned");
    ("1b63c3c6ee3503b5", "PdaAllocated");
    ("43975f4f0c0b33f2", "PdaExtended");
    ("68590564b4ca3449", "PolicyChangeApplied");
    ("c89ee2ff19d31e97", "PolicyChangeCancelled");
    ("49e7b6888d78204f", "PolicyChangeQueued");
    ("a66a5c0ac33cf77d", "PostAssertionChecked");
    ("0714e066503c4e0b", "PostAssertionsClosed");
    ("3159986e3a14441f", "PostAssertionsCreated");
    ("210cf25bce2aa3eb", "SessionFinalized");
    ("ee8126e4e376f9d7", "VaultClosed");
    ("751978fe4bec4e73", "VaultCreated");
    ("0dc7ac6f580a97f7", "VaultFrozen");
    ("c534a0939f595a1c", "VaultReactivated") ].
