(* ===== verification/Events.v ===== *)
(** * Events in transaction logs ([events.ts], [event-analytics.ts], the audit trail of
    [security-analytics.ts])

    From log lines to named events, decoded fields, descriptions, activity items and the
    audit trail. The struct decoder of the codec library is a parameter; an event whose
    decoder throws has no fields. *)

From S2P Require Import Prelude Types Accounts Bytes Inspector Numbers JsText Tokens Formatting EventLayouts.
Local Open Scope string_scope.
Local Open Scope Z_scope.
Local Open Scope list_scope.

(** ** Parsing *)
Record SigilEvent := mkEvent { ev_name : string; ev_data : bytes }.

Record DecodedSigilEvent := mkDecoded {
  de_name : string;
  de_data : bytes;
  de_fields : option fields_obj;
}.

Definition PROGRAM_DATA_PREFIX : string := "Program data: ".

Definition base64ToBytes (base64 : string) : option bytes :=
  (fun binaryString => (fun c => code c) <$> String.list_ascii_of_string binaryString)
  <$> atob base64.

Definition bytesToHex (bs : bytes) : string := String.concat "" (hex_byte <$> bs).

(** One log line; a line that does not decode is skipped. *)
Definition parse_log (log : string) : list SigilEvent :=
  match String.index 0 PROGRAM_DATA_PREFIX log with
  | None => []
  | Some dataStart =>
      let start := (dataStart + String.length PROGRAM_DATA_PREFIX)%nat in
      match base64ToBytes (String.substring start (String.length log - start) log) with
      | None => []
      | Some bs =>
          if (length bs <? 8)%nat then []
          else match jm_get (bytesToHex (take 8 bs)) EVENT_DISCRIMINATOR_MAP with
               | Some eventName => [mkEvent eventName (drop 8 bs)]
               | None => []
               end
      end
  end.

Definition parseSigilEvents (logs : list string) : list SigilEvent := flat_map parse_log logs.

Definition filterEvents (logs : list string) (eventName : string) : list SigilEvent :=
  filter (fun e => ev_name e = eventName) (parseSigilEvents logs).

Definition getEventNames : list string := EVENT_DISCRIMINATOR_MAP.*2.

(** ** Decoding *)
Definition EVENT_DECODER_MAP : jsmap layout :=
  [ ("ActionAuthorized", ActionAuthorized_layout);
    ("SessionFinalized", SessionFinalized_layout);
    ("FeesCollected", FeesCollected_layout);
    ("FundsDeposited", FundsDeposited_layout);
    ("FundsWithdrawn", FundsWithdrawn_layout);
    ("AgentTransferExecuted", AgentTransferExecuted_layout);
    ("VaultCreated", VaultCreated_layout);
    ("VaultFrozen", VaultFrozen_layout);
    ("VaultReactivated", VaultReactivated_layout);
    ("VaultClosed", VaultClosed_layout);
    ("AgentRegistered", AgentRegistered_layout);
    ("AgentRevoked", AgentRevoked_layout);
    ("AgentPausedEvent", AgentPausedEvent_layout);
    ("AgentUnpausedEvent", AgentUnpausedEvent_layout);
    ("AgentSpendLimitChecked", AgentSpendLimitChecked_layout);
    ("EscrowCreated", EscrowCreated_layout);
    ("EscrowSettled", EscrowSettled_layout);
    ("EscrowRefunded", EscrowRefunded_layout);
    ("PolicyChangeQueued", PolicyChangeQueued_layout);
    ("PolicyChangeApplied", PolicyChangeApplied_layout);
    ("PolicyChangeCancelled", PolicyChangeCancelled_layout);
    ("ConstraintsChangeQueued", ConstraintsChangeQueued_layout);
    ("ConstraintsChangeApplied", ConstraintsChangeApplied_layout);
    ("ConstraintsChangeCancelled", ConstraintsChangeCancelled_layout);
    ("InstructionConstraintsCreated", InstructionConstraintsCreated_layout);
    ("AgentPermissionsChangeQueued", AgentPermissionsChangeQueued_layout);
    ("AgentPermissionsChangeApplied", AgentPermissionsChangeApplied_layout);
    ("AgentPermissionsChangeCancelled", AgentPermissionsChangeCancelled_layout);
    ("CloseConstraintsQueued", CloseConstraintsQueued_layout);
    ("CloseConstraintsApplied", CloseConstraintsApplied_layout);
    ("CloseConstraintsCancelled", CloseConstraintsCancelled_layout);
    ("DelegationRevoked", DelegationRevoked_layout);
    ("PdaAllocated", PdaAllocated_layout);
    ("PdaExtended", PdaExtended_layout);
    ("PostAssertionChecked", PostAssertionChecked_layout);
    ("PostAssertionsCreated", PostAssertionsCreated_layout);
    ("PostAssertionsClosed", PostAssertionsClosed_layout);
    ("OrphanConstraintsPdaCleaned", OrphanConstraintsPdaCleaned_layout) ].

(** The module throws at load time unless the two tables have the same names. *)
Definition event_tables_agree : bool :=
  forallb (fun n => jm_has n EVENT_DECODER_MAP) getEventNames
  && forallb (fun n => bool_decide (n ∈ getEventNames)) EVENT_DECODER_MAP.*1.

Class CodecLib := { decodeStruct : layout -> bytes -> option fields_obj }.

(** The library's documented typing: a decoded struct has the fields its decoder lists, each
    of its codec's type. *)
Class CodecLaws (lib : CodecLib) :=
  decode_typed : forall l bs fs, decodeStruct l bs = Some fs -> fields_typed l fs.

Definition decodeSigilEvent `{CodecLib} (event : SigilEvent) : DecodedSigilEvent :=
  mkDecoded (ev_name event) (ev_data event)
    (decoder ← jm_get (ev_name event) EVENT_DECODER_MAP; decodeStruct decoder (ev_data event)).

Definition parseAndDecodeSigilEvents `{CodecLib} (logs : list string) : list DecodedSigilEvent :=
  decodeSigilEvent <$> parseSigilEvents logs.

(** ** Categories *)
Inductive EventCategory :=
  | TradeCat | DepositCat | WithdrawalCat | PolicyCat | AgentCat | EscrowCat | SecurityCat | FeeCat.
#[export] Instance EventCategory_eq_dec : EqDecision EventCategory.
Proof. solve_decision. Defined.

Definition EVENT_CATEGORY_MAP : jsmap EventCategory :=
  [ ("ActionAuthorized", TradeCat);
    ("SessionFinalized", TradeCat);
    ("DelegationRevoked", TradeCat);
    ("AgentTransferExecuted", TradeCat);
    ("AgentSpendLimitChecked", TradeCat);
    ("FundsDeposited", DepositCat);
    ("FundsWithdrawn", WithdrawalCat);
    ("PolicyUpdated", PolicyCat);
    ("PolicyChangeQueued", PolicyCat);
    ("PolicyChangeApplied", PolicyCat);
    ("PolicyChangeCancelled", PolicyCat);
    ("InstructionConstraintsCreated", PolicyCat);
    ("InstructionConstraintsUpdated", PolicyCat);
    ("InstructionConstraintsClosed", PolicyCat);
    ("ConstraintsChangeQueued", PolicyCat);
    ("ConstraintsChangeApplied", PolicyCat);
    ("ConstraintsChangeCancelled", PolicyCat);
    ("AgentRegistered", AgentCat);
    ("AgentRevoked", AgentCat);
    ("AgentPermissionsUpdated", AgentCat);
    ("AgentUnpausedEvent", AgentCat);
    ("VaultCreated", SecurityCat);
    ("VaultFrozen", SecurityCat);
    ("VaultReactivated", SecurityCat);
    ("VaultClosed", SecurityCat);
    ("AgentPausedEvent", SecurityCat);
    ("FeesCollected", FeeCat);
    ("EscrowCreated", EscrowCat);
    ("EscrowSettled", EscrowCat);
    ("EscrowRefunded", EscrowCat) ].

Definition categorizeEvent (eventName : string) : EventCategory :=
  default TradeCat (jm_get eventName EVENT_CATEGORY_MAP).

(** ** Reading fields *)
Definition as_text (o : option field) : res number_error string :=
  match o with Some (FAddr s) => Ok s | _ => Throw NumberTypeError end.

Definition as_bigint (o : option field) : res number_error Z :=
  match o with Some (FBig z) => Ok z | _ => Throw NumberTypeError end.

(** [x ?? 0n], for a [bigint] field. *)
Definition bigint_or_zero (o : option field) : res number_error Z :=
  match o with None => Ok 0 | _ => as_bigint o end.

Definition js_truthy_field (o : option field) : bool :=
  match o with
  | Some (FBool b) => b
  | Some (FNum n) | Some (FBig n) => negb (n =? 0)
  | Some (FAddr s) => negb (bool_decide (s = ""))
  | Some _ => true
  | None => false
  end.

(** A field in a template string. *)
Definition show_field (o : option field) : string :=
  match o with
  | Some (FNum n) | Some (FBig n) => pretty n
  | Some (FAddr s) => s
  | Some (FBool b) => if b then "true" else "false"
  | Some (FBytes bs) => String.concat "," (pretty <$> bs)
  | Some _ => "[object Object]"
  | None => "undefined"
  end.

Fixpoint count_bits (p : positive) : Z :=
  match p with xH => 1 | xO p => count_bits p | xI p => 1 + count_bits p end.

Definition countBits (n : Z) : Z := match n with Zpos p => count_bits p | _ => 0 end.

Definition resolveTokenSafe (mint : option field) (network : Network) : option ResolvedToken :=
  match mint with Some (FAddr s) => resolveToken s network | _ => None end.

Definition extractAddress (fields : option fields_obj) (key : string) : option Address :=
  f ← fields;
  match jm_get key f with
  | Some (FAddr s) => if bool_decide (s = "") then None else Some s
  | _ => None
  end.

Definition extractBigInt (fields : option fields_obj) (key : string) : option Z :=
  f ← fields; match jm_get key f with Some (FBig z) => Some z | _ => None end.

(** ** Descriptions *)
Definition or_else {A} (x y : option A) : option A := match x with Some a => Some a | None => y end.

Section describe.
Context `{IntlLib}.

Definition formatTokenDisplay (amount : Z) (token : option ResolvedToken) : res number_error string :=
  match token with
  | None => formatUsd amount 6
  | Some t => Ok (formatTokenAmount amount (rt_decimals t) (rt_symbol t) (Some 2))
  end.

Definition short_of (f : fields_obj) (key : string) : res number_error string :=
  s ← as_text (jm_get key f); Ok (formatAddress s).

Definition usd_of (f : fields_obj) (key : string) : res number_error string :=
  z ← as_bigint (jm_get key f); formatUsd z 2.

Definition token_of (f : fields_obj) (network : Network) : res number_error string :=
  amount ← as_bigint (jm_get "amount" f);
  formatTokenDisplay amount (resolveTokenSafe (jm_get "tokenMint" f) network).

Definition describe_authorized (f : fields_obj) : res number_error string :=
  agent ← short_of f "agent";
  let actionStr := match jm_get "actionType" f with Some (FKind k) => k | _ => "action" end in
  amount ← usd_of f "usdAmount";
  protocol ← as_text (jm_get "protocol" f);
  Ok ("Agent " +:+ agent +:+ " authorized " +:+ amount +:+ " " +:+ actionStr +:+ " on "
      +:+ resolveProtocolName protocol).

Definition describe_finalized (f : fields_obj) : res number_error string :=
  agent ← short_of f "agent";
  if js_truthy_field (jm_get "isExpired" f) then
    Ok ("Session for agent " +:+ agent +:+ " expired and was cleaned up")
  else if negb (js_truthy_field (jm_get "success" f)) then
    Ok ("Agent " +:+ agent +:+ " session finalized (action failed)")
  else
    spend ← bigint_or_zero (jm_get "actualSpendUsd" f);
    if spend >? 0 then
      s ← formatUsd spend 2; Ok ("Agent " +:+ agent +:+ " completed trade — " +:+ s +:+ " spent")
    else Ok ("Agent " +:+ agent +:+ " completed action successfully").

Definition describe_fees (f : fields_obj) : res number_error string :=
  protocolFee ← as_bigint (jm_get "protocolFeeAmount" f);
  devFee ← as_bigint (jm_get "developerFeeAmount" f);
  total ← formatUsd (protocolFee + devFee) 2;
  p ← formatUsd protocolFee 2;
  d ← formatUsd devFee 2;
  Ok ("Fees collected: " +:+ total +:+ " (" +:+ p +:+ " protocol + " +:+ d +:+ " developer)").

Definition describe_escrow (f : fields_obj) (before after : string) : res number_error string :=
  s ← usd_of f "amount"; Ok (before +:+ s +:+ after).

Definition describe_limit_check (f : fields_obj) : res number_error string :=
  agent ← short_of f "agent";
  spent ← usd_of f "agentRollingSpend";
  limit ← usd_of f "spendingLimitUsd";
  Ok ("Agent " +:+ agent +:+ " spend check: " +:+ spent +:+ " of " +:+ limit +:+ " daily limit used").

Definition describe_agent (f : fields_obj) (before : string) (after : string)
    : res number_error string :=
  agent ← short_of f "agent"; Ok (before +:+ agent +:+ after).

Definition describe_capability (f : fields_obj) : res number_error string :=
  permCount ← bigint_or_zero (jm_get "newPermissions" f);
  describe_agent f "Agent " (" capability updated (" +:+ pretty (countBits permCount) +:+ " bits set)").

(** The events whose text carries no field. *)
Definition FIXED_DESCRIPTIONS : jsmap string :=
  [ ("VaultFrozen", "Vault paused — all agent activity stopped");
    ("VaultReactivated", "Vault reactivated — agent activity resumed");
    ("VaultClosed", "Vault permanently closed");
    ("VaultCreated", "Vault created and ready for configuration");
    ("PolicyUpdated", "Vault policy updated — new spending rules active");
    ("PolicyChangeQueued", "Policy change queued — waiting for timelock to expire");
    ("PolicyChangeApplied", "Queued policy change applied");
    ("PolicyChangeCancelled", "Queued policy change cancelled");
    ("DelegationRevoked", "Token delegation revoked after session completion");
    ("InstructionConstraintsCreated", "Instruction constraints configured for this vault");
    ("InstructionConstraintsUpdated", "Instruction constraints updated");
    ("InstructionConstraintsClosed", "Instruction constraints removed");
    ("ConstraintsChangeQueued", "Constraint change queued — waiting for timelock");
    ("ConstraintsChangeApplied", "Queued constraint change applied");
    ("ConstraintsChangeCancelled", "Queued constraint change cancelled") ].

Definition describe_fields (name : string) (f : fields_obj) (network : Network)
    : res number_error string :=
  if decide (name = "ActionAuthorized") then describe_authorized f
  else if decide (name = "SessionFinalized") then describe_finalized f
  else if decide (name = "FundsDeposited") then
    s ← token_of f network; Ok ("Owner deposited " +:+ s)
  else if decide (name = "FundsWithdrawn") then
    s ← token_of f network; Ok ("Owner withdrew " +:+ s)
  else if decide (name = "AgentRegistered") then
    describe_agent f "New agent " " registered with vault access"
  else if decide (name = "AgentRevoked") then
    describe_agent f "Agent "
      (" removed from vault (" +:+ show_field (jm_get "remainingAgents" f) +:+ " remaining)")
  else if decide (name = "AgentPermissionsUpdated") then describe_capability f
  else if decide (name = "AgentPausedEvent") then
    describe_agent f "Agent " " paused — cannot execute actions"
  else if decide (name = "AgentUnpausedEvent") then
    describe_agent f "Agent " " resumed — can execute actions"
  else if decide (name = "FeesCollected") then describe_fees f
  else if decide (name = "EscrowCreated") then
    s ← usd_of f "amount"; v ← short_of f "destinationVault";
    Ok ("Escrow created: " +:+ s +:+ " held for vault " +:+ v)
  else if decide (name = "EscrowSettled") then
    describe_escrow f "Escrow settled — " " released to destination"
  else if decide (name = "EscrowRefunded") then
    describe_escrow f "Escrow refunded — " " returned to vault"
  else if decide (name = "AgentTransferExecuted") then
    s ← usd_of f "amount"; d ← short_of f "destination";
    Ok ("Agent transferred " +:+ s +:+ " to " +:+ d)
  else if decide (name = "AgentSpendLimitChecked") then describe_limit_check f
  else Ok (default (name +:+ " event") (jm_get name FIXED_DESCRIPTIONS)).

Definition describeEvent (decoded : DecodedSigilEvent) (network : Network) : res number_error string :=
  match de_fields decoded with
  | None => Ok (de_name decoded +:+ " event (details unavailable)")
  | Some f => describe_fields (de_name decoded) f network
  end.

(** ** Activity items *)
Record VaultActivityItem := mkItem {
  vi_timestamp : Z;
  vi_txSignature : string;
  vi_eventType : string;
  vi_category : EventCategory;
  vi_agent : option Address;
  vi_amount : option Z;
  vi_amountDisplay : option string;
  vi_tokenMint : option Address;
  vi_tokenSymbol : option string;
  vi_isSpending : bool;
  vi_actionType : option string;
  vi_protocol : option Address;
  vi_protocolName : option string;
  vi_success : bool;
  vi_description : string;
}.

Definition SPENDING_ACTIONS : list string :=
  ["swap"; "Swap"; "openPosition"; "OpenPosition"; "increasePosition"; "IncreasePosition";
   "deposit"; "Deposit"; "transfer"; "Transfer"; "addCollateral"; "AddCollateral";
   "placeLimitOrder"; "PlaceLimitOrder"; "swapAndOpenPosition"; "SwapAndOpenPosition";
   "createEscrow"; "CreateEscrow"].

(** [isSpending] as the event says it, or from the action type of an old event. *)
Definition event_action (f : option fields_obj) : bool * option string :=
  match f ≫= jm_get "isSpending" with
  | Some b => (js_truthy_field (Some b), None)
  | None =>
      let actionType :=
        match f ≫= jm_get "actionType" with
        | Some (FKind k) => Some k
        | Some (FNum n) | Some (FBig n) => parseActionType (ActNum n)
        | _ => None
        end in
      (match actionType with Some a => bool_decide (a ∈ SPENDING_ACTIONS) | None => false end,
       actionType)
  end.

Definition buildActivityItem (decoded : DecodedSigilEvent) (txSignature : string) (blockTime : Z)
    (network : Network) : res number_error VaultActivityItem :=
  let f := de_fields decoded in
  let agent := extractAddress f "agent" in
  let amount := or_else (extractBigInt f "amount") (extractBigInt f "usdAmount") in
  let tokenMint := or_else (extractAddress f "tokenMint") (extractAddress f "mint") in
  let protocol := extractAddress f "protocol" in
  let success := negb (bool_decide (f ≫= jm_get "success" = Some (FBool false))) in
  let token := tokenMint ≫= fun m => resolveTokenSafe (Some (FAddr m)) network in
  amountDisplay ← match amount with
                  | Some a => s ← match token with
                                  | Some _ => formatTokenDisplay a token
                                  | None => formatUsd a 2
                                  end; Ok (Some s)
                  | None => Ok None
                  end;
  let '(isSpending, actionType) := event_action f in
  let isSpending :=
    isSpending || match amount with Some a => a >? 0 | None => false end in
  description ← describeEvent decoded network;
  Ok (mkItem blockTime txSignature (de_name decoded) (categorizeEvent (de_name decoded)) agent
        amount amountDisplay tokenMint (rt_symbol <$> token) isSpending actionType protocol
        (resolveProtocolName <$> protocol) success description).

(** ** The activity feed *)
Record SignatureInfo := mkSigInfo { si_signature : string; si_blockTime : option Z }.

(** The loop over the events of one transaction stops at the first that throws; what was
    pushed before stays. *)
Fixpoint push_items (build : DecodedSigilEvent -> res number_error VaultActivityItem)
    (events : list DecodedSigilEvent) : list VaultActivityItem :=
  match events with
  | [] => []
  | e :: events' => match build e with Ok i => i :: push_items build events' | Throw _ => [] end
  end.

(** [getTransaction] answers [None] when it throws, [Some None] for a transaction without
    logs. *)
Definition signature_items `{CodecLib} (getTransaction : string -> option (option (list string)))
    (network : Network) (sigInfo : SignatureInfo) : list VaultActivityItem :=
  match getTransaction (si_signature sigInfo) with
  | Some (Some logMessages) =>
      push_items (fun e => buildActivityItem e (si_signature sigInfo)
                             (default 0 (si_blockTime sigInfo)) network)
        (parseAndDecodeSigilEvents logMessages)
  | _ => []
  end.

Definition getVaultActivity `{CodecLib} (signatures : list SignatureInfo)
    (getTransaction : string -> option (option (list string))) (network : Network)
    : list VaultActivityItem :=
  sort_by (fun i => - vi_timestamp i)
    (flat_map (signature_items getTransaction network) signatures).

(** ** The audit trail of the security analytics *)
Inductive AuditCategory :=
  | policy_change | agent_change | emergency | escrow_audit | constraint_change.

Definition AUDIT_EVENTS : jsmap AuditCategory :=
  [ ("PolicyUpdated", policy_change);
    ("PolicyChangeQueued", policy_change);
    ("PolicyChangeApplied", policy_change);
    ("PolicyChangeCancelled", policy_change);
    ("AgentRegistered", agent_change);
    ("AgentRevoked", agent_change);
    ("AgentPermissionsUpdated", agent_change);
    ("AgentPausedEvent", emergency);
    ("AgentUnpausedEvent", agent_change);
    ("VaultFrozen", emergency);
    ("VaultReactivated", emergency);
    ("VaultClosed", emergency);
    ("VaultCreated", emergency);
    ("EscrowCreated", escrow_audit);
    ("EscrowSettled", escrow_audit);
    ("EscrowRefunded", escrow_audit);
    ("InstructionConstraintsCreated", constraint_change);
    ("InstructionConstraintsUpdated", constraint_change);
    ("InstructionConstraintsClosed", constraint_change);
    ("ConstraintsChangeQueued", constraint_change);
    ("ConstraintsChangeApplied", constraint_change);
    ("ConstraintsChangeCancelled", constraint_change) ].

Record AuditEntry := mkAudit {
  ae_timestamp : option Z;      (* [None] is [NaN] *)
  ae_txSignature : string;
  ae_category : AuditCategory;
  ae_action : string;
  ae_actor : field;
  ae_details : fields_obj;
  ae_description : string;
}.

Record AuditOptions := mkAuditOptions {
  ao_categories : option (list AuditCategory);
  ao_since : option Z;
  ao_actor : option Address;
}.
End describe.

#[export] Instance AuditCategory_eq_dec : EqDecision AuditCategory.
Proof. solve_decision. Defined.

(** The first field present among some names. *)
Fixpoint first_field (keys : list string) (f : fields_obj) : option field :=
  match keys with
  | [] => None
  | k :: keys' => or_else (jm_get k f) (first_field keys' f)
  end.

(** [Number(...)] of a field, for integers a double holds. *)
Definition js_number_field (f : field) : option Z :=
  match f with
  | FNum n | FBig n => Some n
  | FBool b => Some (if b then 1 else 0)
  | _ => None
  end.

Definition audit_timestamp (f : fields_obj) : option Z :=
  js_number_field (default (FBig 0) (first_field ["timestamp"; "executes_at"; "applied_at"] f)).

Definition audit_actor (f : fields_obj) : field :=
  default (FAddr "unknown")
    (first_field ["owner"; "agent"; "settled_by"; "refunded_by"; "vault"] f).

Definition audit_since (options : AuditOptions) (timestamp : option Z) : bool :=
  match ao_since options, timestamp with
  | Some since, Some t => negb (since =? 0) && (t >? 0) && (t <? since)
  | _, _ => false
  end.

Definition audit_event `{IntlLib} (options : AuditOptions) (txSignature : DecodedSigilEvent -> string)
    (e : DecodedSigilEvent) : res number_error (list AuditEntry) :=
  match jm_get (de_name e) AUDIT_EVENTS with
  | None => Ok []
  | Some category =>
      if match ao_categories options with
         | Some cs => negb (bool_decide (category ∈ cs)) | None => false end then Ok []
      else
        let f := default [] (de_fields e) in
        let timestamp := audit_timestamp f in
        if audit_since options timestamp then Ok []
        else
          let actor := audit_actor f in
          if match ao_actor options with
             | Some a => negb (bool_decide (a = "")) && negb (bool_decide (actor = FAddr a))
             | None => false end then Ok []
          else
            description ← describeEvent e "mainnet-beta";
            Ok [mkAudit timestamp (txSignature e) category (de_name e) actor f description]
  end.

Fixpoint getAuditTrail `{IntlLib} (events : list DecodedSigilEvent)
    (txSignature : DecodedSigilEvent -> string) (options : AuditOptions)
    : res number_error (list AuditEntry) :=
  match events with
  | [] => Ok []
  | e :: events' =>
      entry ← audit_event options txSignature e;
      trail ← getAuditTrail events' txSignature options;
      Ok (entry ++ trail)
  end.

Record AuditTrailSummary := mkAuditSummary {
  as_totalEntries : nat;
  as_byCategory : AuditCategory -> Z;
  as_latestTimestamp : Z;
  as_uniqueActors : list field;
}.

(** A [Set] keeps the first of equal values. *)
Fixpoint first_of_each (l : list field) : list field :=
  match l with
  | [] => []
  | x :: l' => x :: filter (fun y => y <> x) (first_of_each l')
  end.

Definition latest_step (latest : Z) (entry : AuditEntry) : Z :=
  match ae_timestamp entry with Some t => if t >? latest then t else latest | None => latest end.

Definition getAuditTrailSummary (trail : list AuditEntry) : AuditTrailSummary :=
  mkAuditSummary (length trail)
    (fun c => Z.of_nat (length (filter (fun e => ae_category e = c) trail)))
    (fold_left latest_step trail 0)
    (first_of_each (ae_actor <$> trail)).

(** ** An agent's sessions by outcome ([agent-analytics.ts]) *)
Record AgentErrorBreakdown := mkErrorBreakdown {
  eb_agent : Address;
  eb_totalSessions : Z;
  eb_failedSessions : Z;
  eb_expiredSessions : Z;
  eb_successfulSessions : Z;
  eb_successRate : Z;
}.

(** Total, failed, expired, successful. *)
Definition breakdown_step (agentAddress : Address) (acc : Z * Z * Z * Z) (e : DecodedSigilEvent)
    : Z * Z * Z * Z :=
  let '(total, failed, expired, successful) := acc in
  match de_fields e with
  | Some f =>
      if decide (de_name e = "SessionFinalized") then
        if decide (jm_get "agent" f = Some (FAddr agentAddress)) then
          if js_truthy_field (jm_get "isExpired" f) then (total + 1, failed, expired + 1, successful)
          else if negb (js_truthy_field (jm_get "success" f)) then
            (total + 1, failed + 1, expired, successful)
          else (total + 1, failed, expired, successful + 1)
        else acc
      else acc
  | None => acc
  end.

(** [Math.round((successful / total) * 100)] *)
Definition success_rate (successful total : Z) : Z :=
  math_round (fl_mul (fl_over (js_Number successful) total) (ratio_of_Z 100)).

Definition getAgentErrorBreakdown (events : list DecodedSigilEvent) (agentAddress : Address)
    : AgentErrorBreakdown :=
  let '(total, failed, expired, successful) :=
    fold_left (breakdown_step agentAddress) events (0, 0, 0, 0) in
  mkErrorBreakdown agentAddress total failed expired successful
    (if total >? 0 then success_rate successful total else 100).
