(* ===== verification/EventsSpec.v ===== *)
(** * What the event readers guarantee

    Emitted events are read back from the logs, every decoded event has a description, and
    what the audit trail records. *)

From S2P Require Import Prelude Types Accounts Bytes Inspector Numbers JsText Tokens Formatting EventLayouts Events.
Local Open Scope string_scope.
Local Open Scope Z_scope.
Local Open Scope list_scope.

(** The check the module makes when it is loaded passes. *)
Lemma event_tables_ok : event_tables_agree = true.
Proof. vm_compute. reflexivity. Qed.

(** ** Emitted events are read back *)
Lemma substring_all s : String.substring 0 (String.length s) s = s.
Proof. induction s as [|c s IH]; [done|]. cbn. by rewrite IH. Qed.

Lemma substring_after p s :
  String.substring (String.length p) (String.length (p +:+ s) - String.length p) (p +:+ s) = s.
Proof.
  induction p as [|c p IH]; [cbn; rewrite Nat.sub_0_r; apply substring_all|exact IH].
Qed.

Lemma prefix_app p s : String.prefix p (p +:+ s) = true.
Proof.
  induction p as [|c p IH]; [by destruct s|].
  change ((if Ascii.ascii_dec c c then String.prefix p (p +:+ s) else false) = true).
  by destruct (Ascii.ascii_dec c c).
Qed.

Lemma index_app p s : p <> "" -> String.index 0 p (p +:+ s) = Some 0%nat.
Proof.
  intros Hp. pose proof (prefix_app p s) as H. destruct p as [|c p]; [done|].
  change (String c p +:+ s) with (String c (p +:+ s)) in *. cbn [String.index]. by rewrite H.
Qed.

Lemma base64ToBytes_encode bs : Forall is_byte bs -> base64ToBytes (b64_encode bs) = Some bs.
Proof.
  intros Hb. unfold base64ToBytes, atob. rewrite b64_decode_encode by done. cbn.
  rewrite String.list_ascii_of_string_of_list_ascii. f_equal.
  rewrite <- list_fmap_compose. induction Hb as [|z l Hz _ IH]; [done|]. cbn. rewrite IH. f_equal.
  unfold code, is_byte in *. rewrite Ascii.nat_ascii_embedding; lia.
Qed.

Lemma parse_log_data s :
  parse_log (PROGRAM_DATA_PREFIX +:+ s) =
  match base64ToBytes s with
  | None => []
  | Some bs =>
      if (length bs <? 8)%nat then []
      else match jm_get (bytesToHex (take 8 bs)) EVENT_DISCRIMINATOR_MAP with
           | Some eventName => [mkEvent eventName (drop 8 bs)]
           | None => []
           end
  end.
Proof.
  unfold parse_log. rewrite index_app by done. cbv beta iota zeta.
  by rewrite Nat.add_0_l, substring_after.
Qed.

(** The log line of an event: the discriminator and the data, in base64. *)
Definition emitted (disc : bytes) (e : SigilEvent) : string :=
  PROGRAM_DATA_PREFIX +:+ b64_encode (disc ++ ev_data e).

Definition discriminates (disc : bytes) (e : SigilEvent) : Prop :=
  length disc = 8%nat /\ Forall is_byte disc /\ Forall is_byte (ev_data e) /\
  jm_get (bytesToHex disc) EVENT_DISCRIMINATOR_MAP = Some (ev_name e).

Lemma parse_emitted disc e : discriminates disc e -> parse_log (emitted disc e) = [e].
Proof.
  intros (Hlen & Hd & Hb & Hn). unfold emitted.
  rewrite parse_log_data, base64ToBytes_encode by (by apply Forall_app).
  rewrite length_app, Hlen. destruct (Nat.ltb_spec (8 + length (ev_data e)) 8); [lia|].
  rewrite take_app_length', drop_app_length', Hn by done. by destruct e.
Qed.

(** A line of a transaction's log: an event, or something the prefix does not occur in. *)
Inductive log_line :=
  | EventLine (disc : bytes) (e : SigilEvent)
  | OtherLine (s : string).

Definition line_text (l : log_line) : string :=
  match l with EventLine disc e => emitted disc e | OtherLine s => s end.

Definition line_ok (l : log_line) : Prop :=
  match l with
  | EventLine disc e => discriminates disc e
  | OtherLine s => String.index 0 PROGRAM_DATA_PREFIX s = None
  end.

Definition line_event (l : log_line) : list SigilEvent :=
  match l with EventLine _ e => [e] | OtherLine _ => [] end.

(** Parsing a transaction's logs recovers exactly the events that were emitted, in order and
    with their data, whatever other lines are between them. *)
Theorem parse_events_roundtrip lines :
  Forall line_ok lines ->
  parseSigilEvents (line_text <$> lines) = flat_map line_event lines.
Proof.
  induction 1 as [|l lines Hl _ IH]; [done|]. cbn. rewrite <- IH. f_equal.
  destruct l as [disc e|s]; cbn in *; [by apply parse_emitted|].
  unfold parse_log. by rewrite Hl.
Qed.

Definition demo_event : SigilEvent := mkEvent "PolicyChangeCancelled" (replicate 32 7).
Definition demo_lines : list log_line :=
  [OtherLine "Program log: Instruction: Cancel";
   EventLine [200; 158; 226; 255; 25; 211; 30; 151] demo_event;
   OtherLine "Program consumed 4 units"].

Lemma parse_events_roundtrip_witness :
  parseSigilEvents (line_text <$> demo_lines) = [demo_event].
Proof.
  apply (parse_events_roundtrip demo_lines). repeat constructor; cbn; lia.
Defined.

Lemma sorted_weaken {A} (R S : A -> A -> Prop) (l : list A) :
  (forall a b, R a b -> S a b) -> StronglySorted R l -> StronglySorted S l.
Proof.
  intros Hi. induction 1 as [|x l _ IH Hx]; constructor; [done|]. eapply Forall_impl; [exact Hx|auto].
Qed.

(** ** Decoded events are described *)
Lemma typed_get l fs k :
  fields_typed l fs ->
  match jm_get k l with
  | Some c => exists f, jm_get k fs = Some f /\ has_type c f
  | None => jm_get k fs = None
  end.
Proof.
  induction 1 as [|[k1 c] [k2 f] l fs [Hk Ht] _ IH]; [done|]. cbn in *. subst k2.
  case_decide; [by exists f|done].
Qed.

Lemma typed_field l fs k c :
  fields_typed l fs -> jm_get k l = Some c -> exists f, jm_get k fs = Some f /\ has_type c f.
Proof. intros Ht Hk. pose proof (typed_get l fs k Ht) as H. by rewrite Hk in H. Qed.

Lemma typed_absent l fs k : fields_typed l fs -> jm_get k l = None -> jm_get k fs = None.
Proof. intros Ht Hk. pose proof (typed_get l fs k Ht) as H. by rewrite Hk in H. Qed.

Section describe_spec.
Context `{IntlLib}.

Lemma formatUsd_ok amount decimals : exists s, formatUsd amount decimals = Ok s.
Proof.
  unfold formatUsd, signed_format, toUsdNumber. rewrite throw_if_false; [by eexists|].
  destruct (Z.ltb_spec amount 0); lia.
Qed.

Lemma formatTokenDisplay_ok amount token : exists s, formatTokenDisplay amount token = Ok s.
Proof. destruct token; [by eexists|apply formatUsd_ok]. Qed.

Lemma as_text_ok l fs k :
  fields_typed l fs -> jm_get k l = Some CAddress -> exists s, as_text (jm_get k fs) = Ok s.
Proof. intros Ht Hk. destruct (typed_field _ _ _ _ Ht Hk) as ([] & -> & ?); try done. by eexists. Qed.

Lemma as_bigint_ok l fs k :
  fields_typed l fs -> jm_get k l = Some CU64 -> exists z, as_bigint (jm_get k fs) = Ok z.
Proof. intros Ht Hk. destruct (typed_field _ _ _ _ Ht Hk) as ([] & -> & ?); try done. by eexists. Qed.

Lemma short_of_ok l fs k :
  fields_typed l fs -> jm_get k l = Some CAddress -> exists s, short_of fs k = Ok s.
Proof. intros Ht Hk. unfold short_of. destruct (as_text_ok _ _ _ Ht Hk) as [s ->]. by eexists. Qed.

Lemma usd_of_ok l fs k :
  fields_typed l fs -> jm_get k l = Some CU64 -> exists s, usd_of fs k = Ok s.
Proof.
  intros Ht Hk. unfold usd_of. destruct (as_bigint_ok _ _ _ Ht Hk) as [z ->]. apply formatUsd_ok.
Qed.

Lemma token_of_ok l fs network :
  fields_typed l fs -> jm_get "amount" l = Some CU64 -> exists s, token_of fs network = Ok s.
Proof.
  intros Ht Hk. unfold token_of. destruct (as_bigint_ok _ _ _ Ht Hk) as [z ->].
  apply formatTokenDisplay_ok.
Qed.

(** One step of a description: the next field is there and has its type. *)
Ltac describe_step Ht :=
  match goal with
  | |- context [short_of ?f ?k] => destruct (short_of_ok _ f k Ht eq_refl) as [? ->]
  | |- context [usd_of ?f ?k] => destruct (usd_of_ok _ f k Ht eq_refl) as [? ->]
  | |- context [token_of ?f ?n] => destruct (token_of_ok _ f n Ht eq_refl) as [? ->]
  | |- context [as_text (jm_get ?k ?f)] => destruct (as_text_ok _ f k Ht eq_refl) as [? ->]
  | |- context [as_bigint (jm_get ?k ?f)] => destruct (as_bigint_ok _ f k Ht eq_refl) as [? ->]
  | |- context [formatUsd ?a ?d] => destruct (formatUsd_ok a d) as [? ->]
  end; cbn [mbind res_bind].

Lemma describe_finalized_ok fs :
  fields_typed SessionFinalized_layout fs -> exists s, describe_finalized fs = Ok s.
Proof.
  intros Ht. unfold describe_finalized. describe_step Ht.
  destruct (js_truthy_field (jm_get "isExpired" fs)); [by eexists|].
  destruct (js_truthy_field (jm_get "success" fs)); [|by eexists]. cbn [negb].
  destruct (typed_field _ _ "actualSpendUsd" CU64 Ht eq_refl) as ([| z| | | | | |] & -> & ?); try done.
  cbn. destruct (z >? 0); [|by eexists]. destruct (formatUsd_ok z 2) as [s ->]. by eexists.
Qed.

(** Every event of the program that decodes has a description. *)
Lemma describe_fields_ok name l fs network :
  jm_get name EVENT_DECODER_MAP = Some l -> fields_typed l fs ->
  exists s, describe_fields name fs network = Ok s.
Proof.
  intros Hl Ht. unfold describe_fields.
  repeat case_decide; try (subst name; vm_compute in Hl; first [discriminate Hl|injection Hl as <-]);
    first [by apply describe_finalized_ok|by eexists|idtac].
  all: unfold describe_authorized, describe_agent, describe_fees, describe_escrow, describe_limit_check;
    repeat describe_step Ht; by eexists.
Qed.

Context `{lib : !CodecLib} `{laws : !CodecLaws lib}.

Lemma describeEvent_ok e network :
  exists s, describeEvent (decodeSigilEvent e) network = Ok s.
Proof.
  unfold describeEvent, decodeSigilEvent. cbn [de_fields de_name].
  destruct (jm_get (ev_name e) EVENT_DECODER_MAP) as [l|] eqn:Hl; [|by eexists]. cbn [mbind option_bind].
  destruct (decodeStruct l (ev_data e)) as [fs|] eqn:Hd; [|by eexists].
  apply (describe_fields_ok _ l); [done|by apply (decode_typed _ _ _ Hd)].
Qed.

Lemma buildActivityItem_ok e sig t network :
  exists i, buildActivityItem (decodeSigilEvent e) sig t network = Ok i /\
    vi_eventType i = ev_name e /\ vi_txSignature i = sig /\ vi_timestamp i = t /\
    vi_category i = categorizeEvent (ev_name e).
Proof.
  unfold buildActivityItem. cbv zeta.
  set (amount := or_else _ _). set (token := or_else _ _ ≫= _).
  assert (Ha : exists s, (match amount with
            | Some a => s ← match token with Some _ => formatTokenDisplay a token | None => formatUsd a 2 end;
                        Ok (Some s)
            | None => Ok None end) = Ok s).
  { destruct amount as [a|]; [|by eexists]. destruct token as [t'|].
    - destruct (formatTokenDisplay_ok a (Some t')) as [s ->]. by eexists.
    - destruct (formatUsd_ok a 2) as [s ->]. by eexists. }
  destruct Ha as [s ->]. cbn [mbind res_bind].
  destruct (event_action _) as [b a]. destruct (describeEvent_ok e network) as [d ->].
  eexists. split; [reflexivity|done].
Qed.

Lemma push_items_all sig t network events :
  Forall2 (fun e i => vi_eventType i = ev_name e /\ vi_txSignature i = sig /\ vi_timestamp i = t /\
                      vi_category i = categorizeEvent (ev_name e))
    events (push_items (fun e => buildActivityItem e sig t network) (decodeSigilEvent <$> events)).
Proof.
  induction events as [|e events IH]; [constructor|]. cbn.
  destruct (buildActivityItem_ok e sig t network) as (i & -> & Hi). by constructor.
Qed.

(** The events of the transactions whose logs could be fetched. *)
Definition fetched_events (signatures : list SignatureInfo)
    (getTransaction : string -> option (option (list string))) : list (string * string * Z) :=
  flat_map (fun s =>
    match getTransaction (si_signature s) with
    | Some (Some logs) =>
        (fun e => (si_signature s, ev_name e, default 0 (si_blockTime s))) <$> parseSigilEvents logs
    | _ => []
    end) signatures.

(** C37: The activity feed shows every event: no event of a transaction whose logs were fetched is
    lost to a description that throws, and the feed is sorted newest first. *)
Theorem activity_feed_complete signatures getTransaction network :
  let items := getVaultActivity signatures getTransaction network in
  StronglySorted (fun a b => vi_timestamp b <= vi_timestamp a) items /\
  (fun i => (vi_txSignature i, vi_eventType i, vi_timestamp i)) <$> items
    ≡ₚ fetched_events signatures getTransaction /\
  Forall (fun i => vi_category i = categorizeEvent (vi_eventType i)) items.
Proof.
  cbv zeta. unfold getVaultActivity. set (l := flat_map _ _).
  assert (Hl : Forall (fun i => vi_category i = categorizeEvent (vi_eventType i)) l /\
    (fun i => (vi_txSignature i, vi_eventType i, vi_timestamp i)) <$> l
    = fetched_events signatures getTransaction).
  { unfold l, fetched_events. clear l. induction signatures as [|s signatures IH]; [by split|].
    destruct IH as [IH1 IH2]. cbn [flat_map]. rewrite fmap_app, IH2. unfold signature_items.
    destruct (getTransaction (si_signature s)) as [[logs|]|]; [|by split..].
    pose proof (push_items_all (si_signature s) (default 0 (si_blockTime s)) network
                  (parseSigilEvents logs)) as Hp.
    unfold parseAndDecodeSigilEvents. split.
    - apply Forall_app. split; [|done]. induction Hp as [|e i es its Hi _ IH]; [constructor|].
      destruct Hi as (He & _ & _ & Hc). constructor; [by rewrite He|done].
    - f_equal. induction Hp as [|e i es its Hi _ IH]; [done|].
      cbn. destruct Hi as (-> & -> & -> & _). by rewrite IH. }
  destruct Hl as [Hc Hl]. split_and!.
  - eapply sorted_weaken, sort_by_sorted. cbn. intros. lia.
  - rewrite <- Hl. apply fmap_Permutation, sort_by_perm.
  - rewrite sort_by_perm. done.
Qed.

(** ** What the audit trail records *)
Definition audited (e : SigilEvent) : Prop := jm_has (ev_name e) AUDIT_EVENTS = true.

(** Events without a [timestamp] field, and events without an owner, an agent or a vault. *)
Definition undated : list string :=
  ["PolicyChangeQueued"; "PolicyChangeApplied"; "PolicyChangeCancelled"; "ConstraintsChangeQueued";
   "ConstraintsChangeApplied"; "ConstraintsChangeCancelled"; "EscrowCreated"; "EscrowSettled";
   "EscrowRefunded"].
Definition unattributed : list string := ["EscrowCreated"; "EscrowSettled"; "EscrowRefunded"].

Lemma first_field_absent l fs keys :
  fields_typed l fs -> Forall (fun k => jm_get k l = None) keys -> first_field keys fs = None.
Proof.
  intros Ht. induction 1 as [|k keys Hk _ IH]; [done|]. cbn.
  by rewrite (typed_absent _ _ _ Ht Hk).
Qed.

Definition decoded_fields (e : SigilEvent) : fields_obj := default [] (de_fields (decodeSigilEvent e)).

(** Decoded fields lack every key their layout lacks. *)
Lemma decoded_absent e keys :
  (forall l, jm_get (ev_name e) EVENT_DECODER_MAP = Some l -> Forall (fun k => jm_get k l = None) keys) ->
  first_field keys (decoded_fields e) = None.
Proof.
  intros Hk. unfold decoded_fields, decodeSigilEvent. cbn [de_fields].
  assert (Hnil : first_field keys [] = None) by (clear Hk; induction keys; [done|by cbn]).
  destruct (jm_get (ev_name e) EVENT_DECODER_MAP) as [l|] eqn:Hl; [|done]. cbn [mbind option_bind].
  destruct (decodeStruct l (ev_data e)) as [fs|] eqn:Hd; [|done].
  by apply (first_field_absent l fs); [apply (decode_typed _ _ _ Hd)|apply Hk].
Qed.

Lemma undated_timestamp e : ev_name e ∈ undated -> audit_timestamp (decoded_fields e) = Some 0.
Proof.
  intros Hn. unfold audit_timestamp. rewrite decoded_absent; [done|]. intros l Hl.
  repeat (apply elem_of_cons in Hn as [Hn|Hn]; [rewrite Hn in Hl; injection Hl as <-; by repeat constructor|]).
  by apply elem_of_nil in Hn.
Qed.

Lemma unattributed_actor e : ev_name e ∈ unattributed -> audit_actor (decoded_fields e) = FAddr "unknown".
Proof.
  intros Hn. unfold audit_actor. rewrite decoded_absent; [done|]. intros l Hl.
  repeat (apply elem_of_cons in Hn as [Hn|Hn]; [rewrite Hn in Hl; injection Hl as <-; by repeat constructor|]).
  by apply elem_of_nil in Hn.
Qed.

Definition recorded (options : AuditOptions) (e : SigilEvent) : Prop :=
  audited e /\ audit_since options (audit_timestamp (decoded_fields e)) = false.

Lemma audit_event_cases tx options e :
  ao_categories options = None -> ao_actor options = None ->
  if decide (recorded options e) then
    exists a, audit_event options tx (decodeSigilEvent e) = Ok [a] /\ ae_action a = ev_name e /\
      ae_timestamp a = audit_timestamp (decoded_fields e) /\ ae_actor a = audit_actor (decoded_fields e)
  else audit_event options tx (decodeSigilEvent e) = Ok [].
Proof.
  intros Hc Ha. unfold audit_event. change (default [] (de_fields (decodeSigilEvent e))) with (decoded_fields e).
  cbn [de_name decodeSigilEvent]. case_decide as Hr; unfold recorded, audited, jm_has in Hr;
    destruct (jm_get (ev_name e) AUDIT_EVENTS) as [category|]; [|naive_solver| |done].
  - destruct Hr as [_ Hs]. rewrite Hc, Ha. cbv zeta. rewrite Hs.
    destruct (describeEvent_ok e "mainnet-beta") as [d ->]. by eexists.
  - rewrite Hc. cbv zeta. by destruct (audit_since options (audit_timestamp (decoded_fields e))); [|naive_solver].
Qed.

Lemma getAuditTrail_entries tx options events :
  ao_categories options = None -> ao_actor options = None ->
  exists trail, getAuditTrail (decodeSigilEvent <$> events) tx options = Ok trail /\
    ae_action <$> trail = ev_name <$> filter (recorded options) events /\
    Forall (fun a => (ae_action a ∈ undated -> ae_timestamp a = Some 0) /\
                     (ae_action a ∈ unattributed -> ae_actor a = FAddr "unknown")) trail.
Proof.
  intros Hc Ha. induction events as [|e events (trail & Ht & Hact & Hall)]; [by exists []|].
  cbn [getAuditTrail fmap list_fmap]. rewrite filter_cons.
  pose proof (audit_event_cases tx options e Hc Ha) as He. case_decide.
  - destruct He as (a & -> & Hn & Hts & Hac). cbn [mbind res_bind]. rewrite Ht.
    exists (a :: trail). split; [done|]. split; [cbn; by rewrite Hn, Hact|].
    apply Forall_cons. split; [|done]. rewrite Hn, Hts, Hac.
    split; [apply undated_timestamp|apply unattributed_actor].
  - rewrite He. cbn [mbind res_bind]. rewrite Ht. by exists trail.
Qed.

(** The audit trail, without category or actor filter: it never throws, it has one entry per
    audited event that [since] does not exclude, in order; queued, applied and cancelled
    changes and escrows are all dated 1970 and so pass every [since]; escrow entries name no
    actor. *)
Theorem audit_trail_spec tx options events :
  ao_categories options = None -> ao_actor options = None ->
  exists trail, getAuditTrail (decodeSigilEvent <$> events) tx options = Ok trail /\
    ae_action <$> trail
      = ev_name <$> filter (recorded options) events /\
    Forall (fun a => (ae_action a ∈ undated -> ae_timestamp a = Some 0) /\
                     (ae_action a ∈ unattributed -> ae_actor a = FAddr "unknown")) trail /\
    (forall e, ev_name e ∈ undated -> e ∈ events -> ev_name e ∈ (ae_action <$> trail)).
Proof.
  intros Hc Ha. destruct (getAuditTrail_entries tx options events Hc Ha) as (trail & Ht & Hact & Hall).
  exists trail. split_and!; [done..|].
  intros e Hn He. rewrite Hact. apply list_elem_of_fmap. exists e. split; [done|].
  apply list_elem_of_filter. split; [|done]. unfold recorded. rewrite undated_timestamp by done. split.
  - unfold audited. repeat (apply elem_of_cons in Hn as [->|Hn]; [done|]). by apply elem_of_nil in Hn.
  - unfold audit_since. destruct (ao_since options); [|done]. cbn. by destruct (negb _).
Qed.
End describe_spec.

(** Security-relevant events the trail never shows: changes of permissions, of post-execution
    assertions and the closing of constraints. *)
Example never_audited :
  filter (fun n => jm_has n AUDIT_EVENTS = false) getEventNames =
  ["ActionAuthorized"; "AgentPermissionsChangeApplied"; "AgentPermissionsChangeCancelled";
   "AgentPermissionsChangeQueued"; "AgentSpendLimitChecked"; "AgentTransferExecuted";
   "CloseConstraintsApplied"; "CloseConstraintsCancelled"; "CloseConstraintsQueued";
   "DelegationRevoked"; "FeesCollected"; "FundsDeposited"; "FundsWithdrawn";
   "OrphanConstraintsPdaCleaned"; "PdaAllocated"; "PdaExtended"; "PostAssertionChecked";
   "PostAssertionsClosed"; "PostAssertionsCreated"; "SessionFinalized"].
Proof. vm_compute. reflexivity. Qed.

(** ** A codec library that computes *)
Definition take_bytes (n : nat) (bs : bytes) : option (bytes * bytes) :=
  if (length bs <? n)%nat then None else Some (take n bs, drop n bs).

Definition unsigned (n : nat) (bs : bytes) : Z := read_le n 0 bs mod 2 ^ (8 * Z.of_nat n).

Fixpoint demo_decode_field (c : codec) (bs : bytes) : option (field * bytes) :=
  match c with
  | CU8 => '(v, r) ← take_bytes 1 bs; Some (FNum (unsigned 1 v), r)
  | CU16 => '(v, r) ← take_bytes 2 bs; Some (FNum (unsigned 2 v), r)
  | CU32 => '(v, r) ← take_bytes 4 bs; Some (FNum (unsigned 4 v), r)
  | CU64 => '(v, r) ← take_bytes 8 bs; Some (FBig (unsigned 8 v), r)
  | CI64 => '(v, r) ← take_bytes 8 bs;
            Some (FBig ((unsigned 8 v + 2 ^ 63) mod 2 ^ 64 - 2 ^ 63), r)
  | CBool => '(v, r) ← take_bytes 1 bs; Some (FBool (negb (unsigned 1 v =? 0)), r)
  | CAddress => '(v, r) ← take_bytes 32 bs;
                Some (FAddr ("@" +:+ String.string_of_list_ascii
                               ((fun b => Ascii.ascii_of_nat (Z.to_nat b)) <$> v)), r)
  | CBytes n => '(v, r) ← take_bytes n bs; Some (FBytes v, r)
  | CBlob => '(v, r) ← take_bytes 4 bs;
             '(w, r') ← take_bytes (Z.to_nat (unsigned 4 v)) r; Some (FBytes w, r')
  | COption c => '(v, r) ← take_bytes 1 bs;
                 if unsigned 1 v =? 0 then Some (FNone, r)
                 else '(f, r') ← demo_decode_field c r; Some (FSome f, r')
  end.

Fixpoint demo_decode_struct (l : layout) (bs : bytes) : option fields_obj :=
  match l with
  | [] => Some []
  | (k, c) :: l' => '(f, r) ← demo_decode_field c bs; fs ← demo_decode_struct l' r; Some ((k, f) :: fs)
  end.

#[export] Instance demo_codecs : CodecLib := { decodeStruct := demo_decode_struct }.

Lemma unsigned_range n v : 0 <= unsigned n v < 2 ^ (8 * Z.of_nat n).
Proof. apply Z.mod_pos_bound, Z.pow_pos_nonneg; lia. Qed.

Lemma take_bytes_length n bs v r : take_bytes n bs = Some (v, r) -> length v = n.
Proof.
  unfold take_bytes. destruct (Nat.ltb_spec (length bs) n); [done|]. intros [= <- _].
  rewrite length_take. lia.
Qed.

Lemma demo_field_typed c bs f r : demo_decode_field c bs = Some (f, r) -> has_type c f.
Proof.
  revert bs f r. induction c as [| | | | | | |n| |c IH]; intros bs f r; cbn [demo_decode_field];
    (destruct (take_bytes _ bs) as [[v r1]|] eqn:Hv; [|done]); cbn [mbind option_bind];
    try (intros [= <- _]; cbn [has_type]).
  - exact (unsigned_range 1 v).
  - exact (unsigned_range 2 v).
  - exact (unsigned_range 4 v).
  - exact (unsigned_range 8 v).
  - pose proof (Z.mod_pos_bound (unsigned 8 v + 2 ^ 63) (2 ^ 64) ltac:(lia)). lia.
  - done.
  - done.
  - by apply take_bytes_length in Hv.
  - destruct (take_bytes _ r1) as [[w r2]|]; [|done]. by intros [= <- _].
  - destruct (_ =? 0); [by intros [= <- _]|].
    destruct (demo_decode_field c r1) as [[g r2]|] eqn:Hg; [|done]. intros [= <- _]. by apply IH in Hg.
Qed.

#[export] Instance demo_codec_laws : CodecLaws demo_codecs.
Proof.
  intros l. unfold decodeStruct, demo_codecs. induction l as [|[k c] l IH]; intros bs fs; cbn [demo_decode_struct].
  - intros [= <-]. constructor.
  - destruct (demo_decode_field c bs) as [[f r]|] eqn:Hf; [|done]. cbn [mbind option_bind].
    destruct (demo_decode_struct l r) as [gs|] eqn:Hr; [|done]. intros [= <-].
    constructor; [split; [done|by apply demo_field_typed in Hf]|by apply (IH r)].
Qed.

Definition queued_event : SigilEvent := mkEvent "PolicyChangeQueued" (replicate 32 7 ++ le_bytes 8 1700000000).
Definition settled_event : SigilEvent :=
  mkEvent "EscrowSettled" (replicate 64 7 ++ le_bytes 8 1 ++ le_bytes 8 500 ++ replicate 32 9).
Definition allocated_event : SigilEvent := mkEvent "PdaAllocated" (replicate 60 1).

(** A queued change and a settled escrow, with [since] far after both. *)
Lemma audit_trail_spec_witness :
  exists trail,
    getAuditTrail (decodeSigilEvent <$> [queued_event; allocated_event; settled_event])
      (fun _ => "sig") (mkAuditOptions None (Some 1800000000) None) = Ok trail /\
    ae_action <$> trail = ["PolicyChangeQueued"; "EscrowSettled"] /\
    ae_timestamp <$> trail = [Some 0; Some 0].
Proof.
  destruct (audit_trail_spec (fun _ => "sig") (mkAuditOptions None (Some 1800000000) None)
    [queued_event; allocated_event; settled_event] eq_refl eq_refl) as (trail & Ht & Ha & Hall & _).
  assert (Hact : ae_action <$> trail = ["PolicyChangeQueued"; "EscrowSettled"])
    by (rewrite Ha; vm_compute; reflexivity).
  exists trail. split; [exact Ht|]. split; [exact Hact|].
  destruct trail as [|a [|b [|]]]; try discriminate Hact. injection Hact as H1 H2.
  apply Forall_cons in Hall as [[Hta _] Hall]. apply Forall_cons in Hall as [[Htb _] _]. cbn.
  rewrite Hta, Htb; [reflexivity|rewrite H2; vm_compute|rewrite H1; vm_compute]; repeat constructor.
Defined.

(** The queued change carries the time it takes effect; the trail does not read it. *)
Example queued_event_dated :
  decoded_fields queued_event !! 1%nat = Some ("executesAt", FBig 1700000000).
Proof. vm_compute. reflexivity. Qed.

Lemma activity_feed_complete_witness :
  let feed := getVaultActivity [mkSigInfo "s1" (Some 5); mkSigInfo "s2" (Some 9); mkSigInfo "s3" None]
                (fun s => if bool_decide (s = "s3") then None else Some (Some (line_text <$> demo_lines)))
                "mainnet-beta" in
  (fun i => (vi_txSignature i, vi_eventType i, vi_timestamp i)) <$> feed
    ≡ₚ [("s1", "PolicyChangeCancelled", 5); ("s2", "PolicyChangeCancelled", 9)].
Proof.
  refine (proj1 (proj2 (activity_feed_complete _ _ _))).
Defined.
