(* ===== verification/DashboardViews.v ===== *)
(** * The dashboard's views and their JSON ([dashboard/types.ts], [dashboard/from-json.ts],
    the [toJSON] closures of [dashboard/reads.ts])

    A view over amounts of type [A]: a live view has [bigint]s, a serialized one decimal
    strings. What is no amount is the same in both. A queued policy's changes keep
    amounts of either kind, since reading a view back leaves them as they are. *)

From S2P Require Import Prelude Types Accounts Bytes Numbers JsText.
Local Open Scope string_scope.
Local Open Scope Z_scope.
Local Open Scope list_scope.

Inductive view_status := active_view | frozen_view | closed_view.
Inductive health_level := healthy | elevated | critical_level.
Inductive protocol_mode := whitelist | blacklist | unrestricted.
Inductive activity_type := swap_act | lend_act | transfer_act | deposit_act | withdraw_act.
Inductive row_status := approved_row | blocked_row.

#[export] Instance view_status_eq_dec : EqDecision view_status.
Proof. solve_decision. Defined.
#[export] Instance health_level_eq_dec : EqDecision health_level.
Proof. solve_decision. Defined.
#[export] Instance activity_type_eq_dec : EqDecision activity_type.
Proof. solve_decision. Defined.
#[export] Instance row_status_eq_dec : EqDecision row_status.
Proof. solve_decision. Defined.

Record HealthCheck := mkHealthCheck { hc_name : string; hc_passed : bool }.

(** A policy amount that is still a [bigint], or already a string. *)
Inductive js_amount := AmBig (z : Z) | AmStr (s : string).

Record PolicyChanges := mkChanges {
  ch_dailyCap : option js_amount;
  ch_maxPerTrade : option js_amount;
  ch_approvedApps : option (list Address);
  ch_protocolMode : option protocol_mode;
  ch_hasProtocolCaps : option bool;
  ch_protocolCaps : option (list js_amount);
  ch_maxSlippageBps : option Z;
  ch_allowedDestinations : option (list Address);
  ch_developerFeeRate : option Z;
  ch_sessionExpirySeconds : option js_amount;
  ch_timelock : option Z;
  ch_destinationMode : option Z;
}.

Definition no_changes : PolicyChanges :=
  mkChanges None None None None None None None None None None None None.

Record PendingUpdate := mkPendingUpdate {
  pu_changes : PolicyChanges;
  pu_appliesAt : Z;
  pu_canApply : bool;
  pu_canCancel : bool;
}.

Section views.
Context (A : Type).

Record TokenBalanceV := mkTokenV { tv_mint : string; tv_amount : A; tv_decimals : Z }.

Record VaultStateV := mkVaultV {
  vv_address : string;
  vv_status : view_status;
  vv_owner : string;
  vv_agentCount : nat;
  vv_totalVolume : A;
  vv_totalFees : A;
  vv_total : A;
  vv_tokens : list TokenBalanceV;
  vv_pnlPercent : ratio;
  vv_pnlAbsolute : A;
  vv_level : health_level;
  vv_alertCount : Z;
  vv_checks : list HealthCheck;
}.

Record AgentDataV := mkAgentV {
  av_address : string;
  av_paused : bool;           (* [status], "paused" or "active" *)
  av_capabilityLabel : string;
  av_capability : Z;
  av_amount : A;
  av_limit : A;
  av_percent : ratio;
  av_lastActionType : option activity_type;     (* [None] is the empty string *)
  av_lastActionProtocol : string;
  av_lastActionTimestamp : Z;
  av_blockedCount24h : nat;
}.

Record ChartPoint := mkPoint { cp_time : string; cp_amount : ratio }.

Record ProtocolBreakdownEntry := mkProtoV {
  pv_name : string;
  pv_programId : string;
  pv_amount : A;
  pv_percent : ratio;
}.

Record SpendingDataV := mkSpendingV {
  sv_today : A;
  sv_cap : A;
  sv_remaining : A;
  sv_percent : ratio;
  sv_rundownMs : Z;
  sv_chart : list ChartPoint;
  sv_protocolBreakdown : list ProtocolBreakdownEntry;
}.

Record ActivityRowV := mkRowV {
  rv_id : string;
  rv_timestamp : Z;
  rv_type : activity_type;
  rv_protocol : string;
  rv_protocolId : string;
  rv_agent : string;
  rv_amount : A;
  rv_status : row_status;
  rv_reason : option string;
  rv_txSignature : string;
}.

Record ActivityDataV := mkActivityV {
  ad_rows : list ActivityRowV;
  ad_total : nat;
  ad_approved : nat;
  ad_blocked : Z;
  ad_volume : A;
}.

Record LastBlock := mkLastBlock {
  lb_agent : string;
  lb_reason : string;
  lb_amount : A;
  lb_timestamp : Z;
}.

Record HealthDataV := mkHealthV {
  hv_level : health_level;
  hv_blockedCount24h : nat;
  hv_checks : list HealthCheck;
  hv_lastBlock : option LastBlock;
}.

Record PolicyDataV := mkPolicyV {
  pd_dailyCap : A;
  pd_maxPerTrade : A;
  pd_approvedApps : list (string * string);
  pd_protocolMode : protocol_mode;
  pd_hasProtocolCaps : bool;
  pd_protocolCaps : list A;
  pd_maxSlippageBps : Z;
  pd_allowedDestinations : list string;
  pd_developerFeeRate : Z;
  pd_sessionExpirySeconds : A;
  pd_timelockSeconds : Z;
  pd_policyVersion : A;
  pd_pendingUpdate : option PendingUpdate;
}.

Record DiscoveredVaultV := mkDiscovered {
  dv_address : string;
  dv_vaultId : A;
  dv_status : view_status;
  dv_agentCount : nat;
}.

Record OverviewDataV := mkOverview {
  od_vault : VaultStateV;
  od_agents : list AgentDataV;
  od_spending : SpendingDataV;
  od_health : HealthDataV;
  od_policy : PolicyDataV;
  od_activity : list ActivityRowV;
}.

End views.

(** ** [toJSON]: amounts become decimal strings *)
Definition bs (v : Z) : string := pretty v.

Definition token_toJSON (t : TokenBalanceV Z) : TokenBalanceV string :=
  mkTokenV _ (tv_mint _ t) (bs (tv_amount _ t)) (tv_decimals _ t).

Definition vaultState_toJSON (v : VaultStateV Z) : VaultStateV string :=
  mkVaultV _ (vv_address _ v) (vv_status _ v) (vv_owner _ v) (vv_agentCount _ v)
    (bs (vv_totalVolume _ v)) (bs (vv_totalFees _ v)) (bs (vv_total _ v))
    (token_toJSON <$> vv_tokens _ v) (vv_pnlPercent _ v) (bs (vv_pnlAbsolute _ v))
    (vv_level _ v) (vv_alertCount _ v) (vv_checks _ v).

Definition agentData_toJSON (a : AgentDataV Z) : AgentDataV string :=
  mkAgentV _ (av_address _ a) (av_paused _ a) (av_capabilityLabel _ a) (av_capability _ a)
    (bs (av_amount _ a)) (bs (av_limit _ a)) (av_percent _ a) (av_lastActionType _ a)
    (av_lastActionProtocol _ a) (av_lastActionTimestamp _ a) (av_blockedCount24h _ a).

Definition protocolBreakdown_toJSON (p : ProtocolBreakdownEntry Z) : ProtocolBreakdownEntry string :=
  mkProtoV _ (pv_name _ p) (pv_programId _ p) (bs (pv_amount _ p)) (pv_percent _ p).

Definition spendingData_toJSON (s : SpendingDataV Z) : SpendingDataV string :=
  mkSpendingV _ (bs (sv_today _ s)) (bs (sv_cap _ s)) (bs (sv_remaining _ s)) (sv_percent _ s)
    (sv_rundownMs _ s) (sv_chart _ s) (protocolBreakdown_toJSON <$> sv_protocolBreakdown _ s).

Definition activityRow_toJSON (r : ActivityRowV Z) : ActivityRowV string :=
  mkRowV _ (rv_id _ r) (rv_timestamp _ r) (rv_type _ r) (rv_protocol _ r) (rv_protocolId _ r)
    (rv_agent _ r) (bs (rv_amount _ r)) (rv_status _ r) (rv_reason _ r) (rv_txSignature _ r).

Definition activityData_toJSON (a : ActivityDataV Z) : ActivityDataV string :=
  mkActivityV _ (activityRow_toJSON <$> ad_rows _ a) (ad_total _ a) (ad_approved _ a) (ad_blocked _ a)
    (bs (ad_volume _ a)).

Definition healthData_toJSON (h : HealthDataV Z) : HealthDataV string :=
  mkHealthV _ (hv_level _ h) (hv_blockedCount24h _ h) (hv_checks _ h)
    ((fun b => mkLastBlock _ (lb_agent _ b) (lb_reason _ b) (bs (lb_amount _ b)) (lb_timestamp _ b))
     <$> hv_lastBlock _ h).

(** [serializeBigints] on the changes. *)
Definition serializeBigints (a : js_amount) : js_amount :=
  match a with AmBig z => AmStr (bs z) | AmStr s => AmStr s end.

Definition changes_toJSON (c : PolicyChanges) : PolicyChanges :=
  mkChanges (serializeBigints <$> ch_dailyCap c) (serializeBigints <$> ch_maxPerTrade c)
    (ch_approvedApps c) (ch_protocolMode c) (ch_hasProtocolCaps c)
    (map serializeBigints <$> ch_protocolCaps c) (ch_maxSlippageBps c)
    (ch_allowedDestinations c) (ch_developerFeeRate c)
    (serializeBigints <$> ch_sessionExpirySeconds c) (ch_timelock c) (ch_destinationMode c).

Definition pending_toJSON (p : PendingUpdate) : PendingUpdate :=
  mkPendingUpdate (changes_toJSON (pu_changes p)) (pu_appliesAt p) (pu_canApply p) (pu_canCancel p).

Definition policyData_toJSON (p : PolicyDataV Z) : PolicyDataV string :=
  mkPolicyV _ (bs (pd_dailyCap _ p)) (bs (pd_maxPerTrade _ p)) (pd_approvedApps _ p)
    (pd_protocolMode _ p) (pd_hasProtocolCaps _ p) (bs <$> pd_protocolCaps _ p)
    (pd_maxSlippageBps _ p) (pd_allowedDestinations _ p) (pd_developerFeeRate _ p)
    (bs (pd_sessionExpirySeconds _ p)) (pd_timelockSeconds _ p) (bs (pd_policyVersion _ p))
    (pending_toJSON <$> pd_pendingUpdate _ p).

Definition discoveredVault_toJSON (d : DiscoveredVaultV Z) : DiscoveredVaultV string :=
  mkDiscovered _ (dv_address _ d) (bs (dv_vaultId _ d)) (dv_status _ d) (dv_agentCount _ d).

Definition overview_toJSON (o : OverviewDataV Z) : OverviewDataV string :=
  mkOverview _ (vaultState_toJSON (od_vault _ o)) (agentData_toJSON <$> od_agents _ o)
    (spendingData_toJSON (od_spending _ o)) (healthData_toJSON (od_health _ o))
    (policyData_toJSON (od_policy _ o)) (activityRow_toJSON <$> od_activity _ o).

(** ** [fromJSON]: a string that is no integer reads as zero *)
Definition bi (s : string) : Z :=
  if bool_decide (s = "") then 0 else default 0 (js_BigInt s).

Definition token_fromJSON (t : TokenBalanceV string) : TokenBalanceV Z :=
  mkTokenV _ (tv_mint _ t) (bi (tv_amount _ t)) (tv_decimals _ t).

Definition vaultStateFromJSON (v : VaultStateV string) : VaultStateV Z :=
  mkVaultV _ (vv_address _ v) (vv_status _ v) (vv_owner _ v) (vv_agentCount _ v)
    (bi (vv_totalVolume _ v)) (bi (vv_totalFees _ v)) (bi (vv_total _ v))
    (token_fromJSON <$> vv_tokens _ v) (vv_pnlPercent _ v) (bi (vv_pnlAbsolute _ v))
    (vv_level _ v) (vv_alertCount _ v) (vv_checks _ v).

Definition agentDataFromJSON (a : AgentDataV string) : AgentDataV Z :=
  mkAgentV _ (av_address _ a) (av_paused _ a) (av_capabilityLabel _ a) (av_capability _ a)
    (bi (av_amount _ a)) (bi (av_limit _ a)) (av_percent _ a) (av_lastActionType _ a)
    (av_lastActionProtocol _ a) (av_lastActionTimestamp _ a) (av_blockedCount24h _ a).

Definition protocolBreakdown_fromJSON (p : ProtocolBreakdownEntry string) : ProtocolBreakdownEntry Z :=
  mkProtoV _ (pv_name _ p) (pv_programId _ p) (bi (pv_amount _ p)) (pv_percent _ p).

Definition spendingDataFromJSON (s : SpendingDataV string) : SpendingDataV Z :=
  mkSpendingV _ (bi (sv_today _ s)) (bi (sv_cap _ s)) (bi (sv_remaining _ s)) (sv_percent _ s)
    (sv_rundownMs _ s) (sv_chart _ s) (protocolBreakdown_fromJSON <$> sv_protocolBreakdown _ s).

Definition activityRowFromJSON (r : ActivityRowV string) : ActivityRowV Z :=
  mkRowV _ (rv_id _ r) (rv_timestamp _ r) (rv_type _ r) (rv_protocol _ r) (rv_protocolId _ r)
    (rv_agent _ r) (bi (rv_amount _ r)) (rv_status _ r) (rv_reason _ r) (rv_txSignature _ r).

Definition activityDataFromJSON (a : ActivityDataV string) : ActivityDataV Z :=
  mkActivityV _ (activityRowFromJSON <$> ad_rows _ a) (ad_total _ a) (ad_approved _ a) (ad_blocked _ a)
    (bi (ad_volume _ a)).

Definition healthDataFromJSON (h : HealthDataV string) : HealthDataV Z :=
  mkHealthV _ (hv_level _ h) (hv_blockedCount24h _ h) (hv_checks _ h)
    ((fun b => mkLastBlock _ (lb_agent _ b) (lb_reason _ b) (bi (lb_amount _ b)) (lb_timestamp _ b))
     <$> hv_lastBlock _ h).

Definition policyDataFromJSON (p : PolicyDataV string) : PolicyDataV Z :=
  mkPolicyV _ (bi (pd_dailyCap _ p)) (bi (pd_maxPerTrade _ p)) (pd_approvedApps _ p)
    (pd_protocolMode _ p) (pd_hasProtocolCaps _ p) (bi <$> pd_protocolCaps _ p)
    (pd_maxSlippageBps _ p) (pd_allowedDestinations _ p) (pd_developerFeeRate _ p)
    (bi (pd_sessionExpirySeconds _ p)) (pd_timelockSeconds _ p) (bi (pd_policyVersion _ p))
    (pd_pendingUpdate _ p).

Definition discoveredVaultFromJSON (d : DiscoveredVaultV string) : DiscoveredVaultV Z :=
  mkDiscovered _ (dv_address _ d) (bi (dv_vaultId _ d)) (dv_status _ d) (dv_agentCount _ d).

Definition overviewDataFromJSON (o : OverviewDataV string) : OverviewDataV Z :=
  mkOverview _ (vaultStateFromJSON (od_vault _ o)) (agentDataFromJSON <$> od_agents _ o)
    (spendingDataFromJSON (od_spending _ o)) (healthDataFromJSON (od_health _ o))
    (policyDataFromJSON (od_policy _ o)) (activityRowFromJSON <$> od_activity _ o).

(** ** Reading back *)
Lemma bi_bs z : bi (bs z) = z.
Proof.
  unfold bi, bs. rewrite js_BigInt_pretty. case_bool_decide as Hz; [|done].
  pose proof (js_BigInt_pretty z) as H. rewrite Hz in H. by injection H as <-.
Qed.

Lemma fmap_inverse {A B} (f : A -> B) (g : B -> A) (l : list A) :
  (forall x, g (f x) = x) -> g <$> (f <$> l) = l.
Proof. intros Hgf. induction l as [|x l IH]; [done|]. cbn. by rewrite Hgf, IH. Qed.

Lemma token_roundtrip t : token_fromJSON (token_toJSON t) = t.
Proof. destruct t. unfold token_fromJSON, token_toJSON. cbn. by rewrite bi_bs. Qed.

Lemma vault_roundtrip v : vaultStateFromJSON (vaultState_toJSON v) = v.
Proof.
  destruct v. unfold vaultStateFromJSON, vaultState_toJSON. cbn.
  by rewrite !bi_bs, (fmap_inverse _ _ _ token_roundtrip).
Qed.

Lemma agent_roundtrip a : agentDataFromJSON (agentData_toJSON a) = a.
Proof. destruct a. unfold agentDataFromJSON, agentData_toJSON. cbn. by rewrite !bi_bs. Qed.

Lemma breakdown_roundtrip p : protocolBreakdown_fromJSON (protocolBreakdown_toJSON p) = p.
Proof. destruct p. unfold protocolBreakdown_fromJSON, protocolBreakdown_toJSON. cbn. by rewrite bi_bs. Qed.

Lemma spending_roundtrip s : spendingDataFromJSON (spendingData_toJSON s) = s.
Proof.
  destruct s. unfold spendingDataFromJSON, spendingData_toJSON. cbn.
  by rewrite !bi_bs, (fmap_inverse _ _ _ breakdown_roundtrip).
Qed.

Lemma row_roundtrip r : activityRowFromJSON (activityRow_toJSON r) = r.
Proof. destruct r. unfold activityRowFromJSON, activityRow_toJSON. cbn. by rewrite bi_bs. Qed.

Lemma activity_roundtrip a : activityDataFromJSON (activityData_toJSON a) = a.
Proof.
  destruct a. unfold activityDataFromJSON, activityData_toJSON. cbn.
  by rewrite bi_bs, (fmap_inverse _ _ _ row_roundtrip).
Qed.

Lemma health_roundtrip h : healthDataFromJSON (healthData_toJSON h) = h.
Proof.
  destruct h as [l b c [[]|]]; unfold healthDataFromJSON, healthData_toJSON; cbn; by rewrite ?bi_bs.
Qed.

Lemma discovered_roundtrip d : discoveredVaultFromJSON (discoveredVault_toJSON d) = d.
Proof. destruct d. unfold discoveredVaultFromJSON, discoveredVault_toJSON. cbn. by rewrite bi_bs. Qed.

(** What reading a policy back changes: the amounts of a queued update stay strings. *)
Definition with_pending (p : PolicyDataV Z) (u : option PendingUpdate) : PolicyDataV Z :=
  mkPolicyV _ (pd_dailyCap _ p) (pd_maxPerTrade _ p) (pd_approvedApps _ p) (pd_protocolMode _ p)
    (pd_hasProtocolCaps _ p) (pd_protocolCaps _ p) (pd_maxSlippageBps _ p)
    (pd_allowedDestinations _ p) (pd_developerFeeRate _ p) (pd_sessionExpirySeconds _ p)
    (pd_timelockSeconds _ p) (pd_policyVersion _ p) u.

Lemma policy_roundtrip p :
  policyDataFromJSON (policyData_toJSON p) = with_pending p (pending_toJSON <$> pd_pendingUpdate _ p).
Proof.
  destruct p. unfold policyDataFromJSON, policyData_toJSON, with_pending. cbn.
  by rewrite !bi_bs, (fmap_inverse _ _ _ bi_bs).
Qed.

(** An overview read back from its JSON is the overview, except that the amounts of a queued
    policy update come back as strings; without a queued update nothing is lost. *)
Theorem overview_json_roundtrip o :
  overviewDataFromJSON (overview_toJSON o)
    = mkOverview _ (od_vault _ o) (od_agents _ o) (od_spending _ o) (od_health _ o)
        (with_pending (od_policy _ o) (pending_toJSON <$> pd_pendingUpdate _ (od_policy _ o)))
        (od_activity _ o) /\
  (pd_pendingUpdate _ (od_policy _ o) = None -> overviewDataFromJSON (overview_toJSON o) = o) /\
  (forall u, pd_pendingUpdate _ (od_policy _ o) = Some u ->
     (exists z, ch_dailyCap (pu_changes u) = Some (AmBig z)) ->
     overviewDataFromJSON (overview_toJSON o) <> o).
Proof.
  assert (Heq : overviewDataFromJSON (overview_toJSON o)
    = mkOverview _ (od_vault _ o) (od_agents _ o) (od_spending _ o) (od_health _ o)
        (with_pending (od_policy _ o) (pending_toJSON <$> pd_pendingUpdate _ (od_policy _ o)))
        (od_activity _ o)).
  { unfold overviewDataFromJSON, overview_toJSON.
    cbn [od_vault od_agents od_spending od_health od_policy od_activity].
    by rewrite vault_roundtrip, spending_roundtrip, health_roundtrip, policy_roundtrip,
      (fmap_inverse _ _ _ agent_roundtrip), (fmap_inverse _ _ _ row_roundtrip). }
  split; [done|]. rewrite Heq. split.
  - intros Hn. rewrite Hn. destruct o as [v ag s h p ac]. cbn in *. destruct p. cbn in *. by subst.
  - intros u Hu [z Hz] Ho. apply (f_equal (fun o => pd_pendingUpdate _ (od_policy _ o))) in Ho.
    cbn in Ho. rewrite Hu in Ho. injection Ho as Ho.
    apply (f_equal (fun u => ch_dailyCap (pu_changes u))) in Ho. cbn in Ho. by rewrite Hz in Ho.
Qed.

Definition demo_pending : PendingUpdate :=
  mkPendingUpdate (mkChanges (Some (AmBig 500)) None None None None None None None None None None None)
    1000 true true.

Definition demo_overview (u : option PendingUpdate) : OverviewDataV Z :=
  mkOverview _
    (mkVaultV _ "vault" active_view "owner" 1 10 0 100 [mkTokenV _ "USDC" 100 6] (ratio_of_Z 0) (-7)
       healthy 0 [])
    [] (mkSpendingV _ 0 1000 1000 (ratio_of_Z 0) 0 [] []) (mkHealthV _ healthy 0 [] None)
    (mkPolicyV _ 1000 50 [] whitelist false [] 50 [] 0 600 1800 3 u) [].

Lemma overview_json_roundtrip_witness :
  overviewDataFromJSON (overview_toJSON (demo_overview None)) = demo_overview None /\
  overviewDataFromJSON (overview_toJSON (demo_overview (Some demo_pending)))
    <> demo_overview (Some demo_pending).
Proof.
  split.
  - exact (proj1 (proj2 (overview_json_roundtrip (demo_overview None))) eq_refl).
  - apply (proj2 (proj2 (overview_json_roundtrip (demo_overview (Some demo_pending)))) demo_pending eq_refl).
    by exists 500.
Defined.
