(* ===== verification/Dashboard.v ===== *)
(** * The dashboard's reads ([dashboard/reads.ts], [dashboard/discover.ts])

    Views composed from a resolved state and the activity feed. The clock of each [build]
    is an argument; what the RPC answers comes in as an environment, one answer per
    resolution of the state. Rejections pass through unchanged: [toDxError] renders them. *)

From Stdlib Require Import QArith.
From S2P Require Import Prelude Types Accounts Bytes StateResolver Inspector Numbers JsText Tokens Formatting EventLayouts Events Analytics DashboardViews.
Local Open Scope string_scope.
Local Open Scope Z_scope.
Local Open Scope list_scope.

(** [new Date(ms).toISOString()] *)
Class DateLib := { toISOString : Z -> string }.

Abbreviation State := (ResolvedVaultState InstructionConstraints).

(** [Number] of an integer is an integer. *)
Definition js_int (z : Z) : Z := num (js_Number z) / den (js_Number z).

Definition toNet (network : string) : Network :=
  if decide (network = "mainnet") then "mainnet-beta" else "devnet".

Definition DEFAULT_OVERVIEW_ACTIVITY_LIMIT : Z := 100.

(** [resolveVaultStateForOwner] always fills [vault] and [policy], so the labelled error
    for a missing field does not arise here. *)
Record OverviewContext := mkCtx {
  cx_vault : Address;
  cx_state : State;
  cx_pnl : option VaultPnL;
  cx_activity : option (list VaultActivityItem);
  cx_pendingPolicy : option PendingPolicyUpdate;
  cx_posture : option SecurityPosture;
  cx_breakdown : option SpendingBreakdown;
  cx_alerts : option (list Alert);
}.

Definition bare_ctx (vault : Address) (state : State) : OverviewContext :=
  mkCtx vault state None None None None None None.

Definition str_includes (s sub : string) : bool :=
  match String.index 0 sub s with Some _ => true | None => false end.

Definition mapCategory (cat : EventCategory) (evt : string) (actionType : option string)
    : activity_type :=
  match cat with
  | TradeCat =>
      match actionType with
      | Some a =>
          let at_ := toLowerCase a in
          if str_includes at_ "lend" || str_includes at_ "deposit" || str_includes at_ "withdraw"
          then lend_act else swap_act
      | None => swap_act
      end
  | DepositCat => deposit_act
  | WithdrawalCat => withdraw_act
  | _ => if decide (evt = "AgentTransferExecuted") then transfer_act else swap_act
  end.

Definition rangeToMs (r : string) : Z :=
  default 86400000 (jm_get r
    [("1h", 3600000); ("6h", 21600000); ("24h", 86400000); ("7d", 604800000); ("30d", 2592000000)]).

(** The level shown with a posture. *)
Definition posture_level (posture : SecurityPosture) : health_level :=
  if (0 <? length (criticalFailures posture))%nat then critical_level
  else if failCount posture >? 0 then elevated else healthy.

Definition posture_health (posture : SecurityPosture) : list HealthCheck :=
  (fun c => mkHealthCheck (sc_id c) (sc_passed c)) <$> sp_checks posture.

Definition status_view (s : VaultStatus) : view_status :=
  match s with Active => active_view | Frozen => frozen_view | Closed => closed_view end.

Section reads.
Context `{env : !ResolverEnv InstructionConstraints} `{intl : !IntlLib} `{date : !DateLib}.

Definition ctx_posture (ctx : OverviewContext) : SecurityPosture :=
  match cx_posture ctx with Some p => p | None => getSecurityPosture (cx_state ctx) end.
Definition ctx_alerts (ctx : OverviewContext) : list Alert :=
  match cx_alerts ctx with
  | Some a => a | None => evaluateAlertConditions (cx_state ctx) (cx_vault ctx) end.
Definition ctx_breakdown (ctx : OverviewContext) : SpendingBreakdown :=
  match cx_breakdown ctx with Some b => b | None => getSpendingBreakdown (cx_state ctx) end.

(** ** The five views *)
Definition stable_token (mint : string) (amount : Z) : list (TokenBalanceV Z) :=
  if amount >? 0 then [mkTokenV _ mint amount 6] else [].

Definition buildVaultState (ctx : OverviewContext) : VaultStateV Z :=
  let v := rs_vault (cx_state ctx) in
  let posture := ctx_posture ctx in
  let bal := stablecoinBalances (cx_state ctx) in
  mkVaultV _ (cx_vault ctx) (status_view (vault_status v)) (owner v) (length (agents v))
    (totalVolume v) (totalFeesCollected v)
    (bal_usdc bal + bal_usdt bal)
    (stable_token "USDC" (bal_usdc bal) ++ stable_token "USDT" (bal_usdt bal))
    (match cx_pnl ctx with Some p => pnlPercent p | None => ratio_of_Z 0 end)
    (match cx_pnl ctx with Some p => pnl_pnl p | None => 0 end)
    (posture_level posture) (failCount posture) (posture_health posture).

(** [now] is [Date.now()]. *)
Definition build_agent (ctx : OverviewContext) (now : Z) (entry : AgentEntry) : AgentDataV Z :=
  let state := cx_state ctx in
  let addr := pubkey entry in
  let profile := getAgentProfile state addr in
  let budget := jm_get addr (allAgentBudgets state) in
  let spentAmt := match budget with Some b => spent24h b | None => 0 end in
  let capAmt := match budget with Some b => cap b | None => 0 end in
  let agentActivity :=
    filter (fun item => vi_agent item = Some addr) (default [] (cx_activity ctx)) in
  let last := head agentActivity in
  mkAgentV _ addr
    (match profile with Some p => ap_paused p | None => false end)
    (match profile with Some p => capabilityLabel p | None => "Disabled" end)
    (match profile with Some p => ap_capability p | None => 0 end)
    spentAmt capAmt (computeUtilizationPercent spentAmt capAmt)
    ((fun item => mapCategory (vi_category item) (vi_eventType item) (vi_actionType item)) <$> last)
    (match last ≫= vi_protocolName with Some n => n | None => "" end)
    (match last with Some item => vi_timestamp item * 1000 | None => 0 end)
    (length (filter (fun item => vi_success item = false /\
                       vi_timestamp item * 1000 >= now - 24 * 3600 * 1000) agentActivity)).

Definition buildAgents (ctx : OverviewContext) (now : Z) : list (AgentDataV Z) :=
  build_agent ctx now <$> agents (rs_vault (cx_state ctx)).

Definition usd_text (z : Z) : string := match formatUsd z 6 with Ok s => s | Throw _ => "" end.

Definition chart_point (e : SpendingEpoch) : ChartPoint :=
  mkPoint (toISOString (se_timestamp e * 1000)) (fl_over (js_Number (se_usdAmount e)) 1000000).

(** Milliseconds until the cap at the day's average rate. *)
Definition rundown_ms (spent remaining_ : Z) : Z :=
  let velocityPerMs :=
    if spent >? 0 then fl_over (js_Number spent) (24 * 3600 * 1000) else ratio_of_Z 0 in
  if (num velocityPerMs >? 0) && (remaining_ >? 0) then
    let q := fl_div (js_Number remaining_) velocityPerMs in num q / den q
  else 0.

Definition buildSpending (ctx : OverviewContext) (now : Z) : SpendingDataV Z :=
  let state := cx_state ctx in
  let epochs := getSpendingHistory usd_text (rs_tracker state) (now / 1000) in
  let g := globalBudget state in
  mkSpendingV _ (spent24h g) (cap g) (remaining g) (computeUtilizationPercent (spent24h g) (cap g))
    (rundown_ms (spent24h g) (remaining g)) (chart_point <$> epochs)
    ((fun p => mkProtoV _ (resolveProtocolName (ps_protocol p)) (ps_protocol p) (ps_spent24h p)
                 (ps_utilization p)) <$> byProtocol (ctx_breakdown ctx)).

Definition buildHealth (ctx : OverviewContext) (now : Z) : HealthDataV Z :=
  let posture := ctx_posture ctx in
  let critAlerts := filter (fun a => al_severity a = critical) (ctx_alerts ctx) in
  mkHealthV _ (posture_level posture) (length critAlerts) (posture_health posture)
    ((fun a => mkLastBlock _ (default "" (al_agentAddress a)) (al_title a) 0 now) <$> head critAlerts).

Definition modeMap (mode : Z) : protocol_mode :=
  if mode =? 0 then unrestricted else if mode =? 1 then whitelist
  else if mode =? 2 then blacklist else unrestricted.

(** The fields of a queued update that are set. *)
Definition pending_changes (pp : PendingPolicyUpdate) : PolicyChanges :=
  mkChanges (AmBig <$> pp_dailySpendingCapUsd pp) (AmBig <$> pp_maxTransactionAmountUsd pp)
    (pp_protocols pp) (modeMap <$> pp_protocolMode pp) (pp_hasProtocolCaps pp)
    (map AmBig <$> pp_protocolCaps pp) (pp_maxSlippageBps pp) (pp_allowedDestinations pp)
    (pp_developerFeeRate pp) (AmBig <$> pp_sessionExpirySeconds pp) (js_int <$> pp_timelockDuration pp)
    None.

Definition pending_view (now : Z) (pp : PendingPolicyUpdate) : PendingUpdate :=
  let executesAtSec := js_int (executesAt pp) in
  mkPendingUpdate (pending_changes pp) (executesAtSec * 1000)
    ((executesAtSec >? 0) && (executesAtSec <=? now / 1000)) true.

Definition buildPolicy (ctx : OverviewContext) (now : Z) : PolicyDataV Z :=
  let p := rs_policy (cx_state ctx) in
  mkPolicyV _ (dailySpendingCapUsd p) (maxTransactionSizeUsd p)
    ((fun addr => (resolveProtocolName addr, addr)) <$> protocols p)
    (modeMap (protocolMode p)) (hasProtocolCaps p) (protocolCaps p) (maxSlippageBps p)
    (allowedDestinations p) (developerFeeRate p) (sessionExpirySeconds p)
    (js_int (timelockDuration p)) (policyVersion p)
    (pending_view now <$> cx_pendingPolicy ctx).

Definition or_text (s : string) (t : string) : string := if bool_decide (s = "") then t else s.

Definition build_row (item : VaultActivityItem) : ActivityRowV Z :=
  mkRowV _
    (or_text (vi_txSignature item)
       ("evt-" +:+ pretty (vi_timestamp item) +:+ "-" +:+ vi_eventType item))
    (vi_timestamp item * 1000)
    (mapCategory (vi_category item) (vi_eventType item) (vi_actionType item))
    (default "" (vi_protocolName item)) (default "" (vi_protocol item)) (default "" (vi_agent item))
    (default 0 (vi_amount item))
    (if vi_success item then approved_row else blocked_row)
    (if vi_success item then None else Some (vi_description item))
    (vi_txSignature item).

Definition buildActivityRows (items : list VaultActivityItem) : list (ActivityRowV Z) :=
  build_row <$> items.

Definition buildAgentDetail (ctx : OverviewContext) (now : Z) (agent : Address)
    : option (AgentDataV Z) :=
  find_by (fun a => bool_decide (av_address _ a = agent)) (buildAgents ctx now).

(** ** Risk *)
Inductive risk_level := low_risk | elevated_risk | high_risk | critical_risk.

Fixpoint risk_loop (hasWarning hasInfo : bool) (alerts : list Alert) : risk_level :=
  match alerts with
  | [] => if hasWarning then high_risk else if hasInfo then elevated_risk else low_risk
  | a :: alerts' =>
      match al_severity a with
      | critical => critical_risk
      | warning => risk_loop true hasInfo alerts'
      | info => risk_loop hasWarning true alerts'
      end
  end.

Definition deriveRiskLevel (alerts : list Alert) : risk_level := risk_loop false false alerts.

Record RiskMetrics := mkRisk {
  capVelocity : ratio;
  spendingVelocity : Z;
  riskLevel : risk_level;
  rm_isAccelerating : bool;
  rm_timeToCapSeconds : option ratio;
}.

Definition buildRiskMetrics (ctx : OverviewContext) (now : Z) : RiskMetrics :=
  let state := cx_state ctx in
  let g := globalBudget state in
  let velocity := getSpendingVelocity (rs_tracker state) (now / 1000) g in
  mkRisk
    (if (cap g >? 0) && (currentRate velocity >? 0) then
       fl_mul (fl_div (js_Number (currentRate velocity * 24)) (js_Number (cap g))) (ratio_of_Z 100)
     else ratio_of_Z 0)
    (currentRate velocity) (deriveRiskLevel (ctx_alerts ctx)) (isAccelerating velocity)
    (timeToCapSeconds velocity).

(** ** The audit feed *)
Inductive AuditEventType := policy_event | agent_event | vault_security_event | escrow_event.

Definition AUDIT_CATEGORY_TO_TYPE (c : EventCategory) : option AuditEventType :=
  match c with
  | PolicyCat => Some policy_event
  | AgentCat => Some agent_event
  | SecurityCat => Some vault_security_event
  | EscrowCat => Some escrow_event
  | _ => None
  end.

Record AuditTrailEntry := mkTrailEntry {
  at_timestamp : Z;
  at_eventType : AuditEventType;
  at_eventName : string;
  at_actor : string;
  at_details : string;
  at_txSignature : string;
}.

Definition audit_row (item : VaultActivityItem) : option AuditTrailEntry :=
  eventType ← AUDIT_CATEGORY_TO_TYPE (vi_category item);
  Some (mkTrailEntry (vi_timestamp item * 1000) eventType (vi_eventType item)
          (default "" (vi_agent item)) (vi_description item) (vi_txSignature item)).

Definition buildAuditTrail (items : list VaultActivityItem) : list AuditTrailEntry :=
  omap audit_row items.

(** ** The reads *)
Inductive read_error :=
  | ReadRpcError (message : string)
  | AgentNotRegistered (agent vault : Address).

(** What [fetchPendingPolicy] gives: an account, the account-not-found error, or another. *)
Inductive pending_answer :=
  | PendingFound (p : option PendingPolicyUpdate)
  | PendingNotFound
  | PendingFailed (message : string).

(** [re_state n] answers the [n]-th resolution a read makes; [re_activity] is [None] when
    the feed cannot be fetched. *)
Record ReadEnv := mkReadEnv {
  re_state : nat -> res read_error State;
  re_activity : Z -> option (list VaultActivityItem);
  re_pending : pending_answer;
  re_now : Z;
}.

Definition getVaultState (env : ReadEnv) (vault : Address) : res read_error (VaultStateV Z) :=
  state ← re_state env 0;
  pnl_state ← re_state env 1;
  Ok (buildVaultState
        (mkCtx vault state (Some (getVaultPnLFromState pnl_state)) None None None None None)).

(** A feed that cannot be fetched leaves the enrichment empty. *)
Definition feed_or_empty (env : ReadEnv) (limit : Z) : list VaultActivityItem :=
  default [] (re_activity env limit).

Definition agents_ctx (env : ReadEnv) (vault : Address) (state : State) : OverviewContext :=
  mkCtx vault state None (Some (feed_or_empty env 100)) None None None None.

Definition getAgents (env : ReadEnv) (vault : Address) : res read_error (list (AgentDataV Z)) :=
  state ← re_state env 0; Ok (buildAgents (agents_ctx env vault state) (re_now env)).

Definition getSpending (env : ReadEnv) (vault : Address) : res read_error (SpendingDataV Z) :=
  state ← re_state env 0; Ok (buildSpending (bare_ctx vault state) (re_now env)).

Definition getHealth (env : ReadEnv) (vault : Address) : res read_error (HealthDataV Z) :=
  state ← re_state env 0; Ok (buildHealth (bare_ctx vault state) (re_now env)).

Definition pending_or_null (env : ReadEnv) : res read_error (option PendingPolicyUpdate) :=
  match re_pending env with
  | PendingFound p => Ok p
  | PendingNotFound => Ok None
  | PendingFailed m => Throw (ReadRpcError m)
  end.

Definition getPolicy (env : ReadEnv) (vault : Address) : res read_error (PolicyDataV Z) :=
  state ← re_state env 0;
  pendingPolicy ← pending_or_null env;
  Ok (buildPolicy (mkCtx vault state None None pendingPolicy None None None) (re_now env)).

Record GetOverviewOptions := mkOverviewOptions {
  go_includeActivity : option bool;
  go_activityLimit : option Z;
}.

Definition getOverview (env : ReadEnv) (vault : Address) (options : GetOverviewOptions)
    : res read_error (OverviewDataV Z) :=
  let includeActivity := default true (go_includeActivity options) in
  let activityLimit := default DEFAULT_OVERVIEW_ACTIVITY_LIMIT (go_activityLimit options) in
  state ← re_state env 0;
  pendingPolicy ← pending_or_null env;
  let activity := if includeActivity then Some (feed_or_empty env activityLimit) else None in
  let ctx := mkCtx vault state (Some (getVaultPnLFromState state)) activity pendingPolicy
               (Some (getSecurityPosture state)) (Some (getSpendingBreakdown state))
               (Some (evaluateAlertConditions state vault)) in
  Ok (mkOverview _ (buildVaultState ctx) (buildAgents ctx (re_now env))
        (buildSpending ctx (re_now env)) (buildHealth ctx (re_now env))
        (buildPolicy ctx (re_now env)) (buildActivityRows (default [] activity))).

Definition getAgentDetail (env : ReadEnv) (vault agent : Address) : res read_error (AgentDataV Z) :=
  state ← re_state env 0;
  match buildAgentDetail (agents_ctx env vault state) (re_now env) agent with
  | Some detail => Ok detail
  | None => Throw (AgentNotRegistered agent vault)
  end.

Definition getRiskMetrics (env : ReadEnv) (vault : Address) : res read_error RiskMetrics :=
  state ← re_state env 0; Ok (buildRiskMetrics (bare_ctx vault state) (re_now env)).

Record ActivityFilters := mkFilters {
  af_agent : option string;
  af_protocol : option string;
  af_status : option row_status;
  af_timeRange : option string;
  af_type : option activity_type;
  af_limit : option Z;
}.

(** A filter that is set and not empty. *)
Definition set_text (o : option string) : option string :=
  match o with Some s => if bool_decide (s = "") then None else Some s | None => None end.

Definition keep_row (f : ActivityFilters) (now : Z) (r : ActivityRowV Z) : bool :=
  match set_text (af_agent f) with Some a => bool_decide (rv_agent _ r = a) | None => true end
  && match set_text (af_protocol f) with
     | Some p => bool_decide (rv_protocolId _ r = p) || bool_decide (rv_protocol _ r = p)
     | None => true end
  && match af_status f with Some s => bool_decide (rv_status _ r = s) | None => true end
  && match af_type f with Some t => bool_decide (rv_type _ r = t) | None => true end
  && match set_text (af_timeRange f) with
     | Some range => rv_timestamp _ r >=? now - rangeToMs range | None => true end.

Definition activity_summary (rows : list (ActivityRowV Z)) : ActivityDataV Z :=
  let approved := length (filter (fun r => rv_status _ r = approved_row) rows) in
  mkActivityV _ rows (length rows) approved (Z.of_nat (length rows) - Z.of_nat approved)
    (sum_of (rv_amount _) rows).

(** The fetch is not guarded here: a feed that cannot be fetched is an error. *)
Definition getActivity (env : ReadEnv) (filters : ActivityFilters) : res read_error (ActivityDataV Z) :=
  match re_activity env (default 50 (af_limit filters)) with
  | None => Throw (ReadRpcError "activity")
  | Some items =>
      Ok (activity_summary
            (filter (fun r => keep_row filters (re_now env) r = true) (buildActivityRows items)))
  end.

Record AuditTrailOptions := mkTrailOptions { to_limit : option Z; to_since : option Z }.

Definition getDashboardAuditTrail (env : ReadEnv) (opts : AuditTrailOptions)
    : res read_error (list AuditTrailEntry) :=
  match re_activity env (default 100 (to_limit opts)) with
  | None => Throw (ReadRpcError "activity")
  | Some items =>
      let entries := buildAuditTrail items in
      Ok (match to_since opts with
          | Some since => filter (fun e => at_timestamp e >= since) entries
          | None => entries
          end)
  end.

(** ** Discovery: a vault whose account is missing or does not decode is left out

    [fetch] is [None] for a rejection, [Some None] for a missing account. *)
Definition discover_vault (fetch : Address -> option (option AgentVault)) (v : VaultLocator)
    : option (DiscoveredVaultV Z) :=
  match fetch (vaultAddress v) with
  | Some (Some data) =>
      Some (mkDiscovered _ (vaultAddress v) (loc_vaultId v) (status_view (vault_status data))
              (length (agents data)))
  | _ => None
  end.

Definition discoverVaults (sdkVaults : list VaultLocator) (fetch : Address -> option (option AgentVault))
    : list (DiscoveredVaultV Z) :=
  omap (discover_vault fetch) sdkVaults.
End reads.
