(* ===== verification/DashboardSpec.v ===== *)
(** * What the dashboard's reads guarantee

    One overview says what the individual reads say; which rows and audit entries the feed's
    categories can give; the risk badge is the highest severity. *)

From S2P Require Import Prelude Types Accounts Bytes StateResolver Inspector Numbers JsText Tokens Formatting EventLayouts Events EventsSpec Analytics AnalyticsSpec DashboardViews Dashboard.
Local Open Scope string_scope.
Local Open Scope Z_scope.
Local Open Scope list_scope.

Section reads_spec.
Context `{env : !ResolverEnv InstructionConstraints} `{intl : !IntlLib} `{date : !DateLib}.

(** The overview computes posture, breakdown and alerts once and resolves the state once; as
    long as every resolution answers the same state, it is the individual reads' results,
    and without activity only the agents' last actions are missing. *)
Theorem overview_agrees_with_reads (renv : ReadEnv) vault s p :
  (forall n, re_state renv n = Ok s) -> pending_or_null renv = Ok p ->
  exists o, getOverview renv vault (mkOverviewOptions None None) = Ok o /\
    getVaultState renv vault = Ok (od_vault _ o) /\
    getAgents renv vault = Ok (od_agents _ o) /\
    getSpending renv vault = Ok (od_spending _ o) /\
    getHealth renv vault = Ok (od_health _ o) /\
    getPolicy renv vault = Ok (od_policy _ o) /\
    od_activity _ o = buildActivityRows (feed_or_empty renv 100) /\
    exists o', getOverview renv vault (mkOverviewOptions (Some false) None) = Ok o' /\
      od_vault _ o' = od_vault _ o /\ od_spending _ o' = od_spending _ o /\
      od_health _ o' = od_health _ o /\ od_policy _ o' = od_policy _ o /\ od_activity _ o' = [] /\
      (fun a => (av_address _ a, av_amount _ a, av_limit _ a)) <$> od_agents _ o'
        = (fun a => (av_address _ a, av_amount _ a, av_limit _ a)) <$> od_agents _ o.
Proof.
  intros Hs Hp. unfold getOverview, getVaultState, getAgents, getSpending, getHealth, getPolicy.
  rewrite !Hs, Hp. cbn [mbind res_bind]. eexists. split; [reflexivity|].
  do 6 (split; [reflexivity|]). eexists. split; [reflexivity|].
  do 5 (split; [reflexivity|]). cbn [od_agents]. unfold buildAgents. cbn [cx_state].
  rewrite <- !list_fmap_compose. by apply list_fmap_ext.
Qed.

(** ** Risk *)
Lemma risk_loop_spec w i alerts :
  risk_loop w i alerts =
  if existsb (fun a => bool_decide (al_severity a = critical)) alerts then critical_risk
  else if w || existsb (fun a => bool_decide (al_severity a = warning)) alerts then high_risk
  else if i || existsb (fun a => bool_decide (al_severity a = info)) alerts then elevated_risk
  else low_risk.
Proof.
  revert w i. induction alerts as [|a alerts IH]; intros w i; [by destruct w, i|]. cbn.
  destruct (al_severity a); cbn; [done|..]; rewrite IH; destruct w, i; cbn; done.
Qed.

(** The risk badge is the most severe alert's, and it is critical exactly when the vault is
    frozen, a cap is nearly spent or the vault drains. *)
Theorem risk_level_spec (ctx : OverviewContext) now :
  cx_alerts ctx = None ->
  (riskLevel (buildRiskMetrics ctx now) = critical_risk <->
    (0 < cap (globalBudget (cx_state ctx)) /\ 95 <= percent_used (globalBudget (cx_state ctx))) \/
    vault_status (rs_vault (cx_state ctx)) = Frozen \/
    (exists agent b, (agent, b) ∈ allAgentBudgets (cx_state ctx) /\ 0 < cap b /\ 95 <= percent_used b) \/
    drains (cx_state ctx)) /\
  (riskLevel (buildRiskMetrics ctx now) = low_risk <->
    evaluateAlertConditions (cx_state ctx) (cx_vault ctx) = []).
Proof.
  intros Ha. unfold buildRiskMetrics. cbn [riskLevel]. unfold deriveRiskLevel, ctx_alerts. rewrite Ha.
  set (alerts := evaluateAlertConditions _ _). rewrite risk_loop_spec. split.
  - assert (Hc : existsb (fun a => bool_decide (al_severity a = critical)) alerts = true <->
                 exists a, a ∈ alerts /\ al_severity a = critical).
    { rewrite existsb_exists. split; intros (a & H1 & H2); exists a;
        [apply bool_decide_eq_true in H2; by apply list_elem_of_In in H1
        |split; [by apply list_elem_of_In|by apply bool_decide_eq_true]]. }
    rewrite <- (critical_alert_iff _ (cx_vault ctx)). fold alerts. rewrite <- Hc.
    destruct (existsb _ alerts); [done|]. destruct (_ || _); [done|]. by destruct (_ || _).
  - split; [|by intros ->]. intros Hl. destruct alerts as [|a l]; [done|]. exfalso. revert Hl. cbn.
    destruct (al_severity a); cbn; try done; repeat (destruct (existsb _ l); cbn; try done).
Qed.

(** ** What the feed's categories can give *)
Definition categorised (i : VaultActivityItem) : Prop :=
  vi_category i = categorizeEvent (vi_eventType i).

(** Changes of permissions, of constraints and of post-execution assertions. *)
Definition unlisted_governance : list string :=
  ["AgentPermissionsChangeQueued"; "AgentPermissionsChangeApplied"; "AgentPermissionsChangeCancelled";
   "CloseConstraintsQueued"; "CloseConstraintsApplied"; "CloseConstraintsCancelled";
   "PostAssertionsCreated"; "PostAssertionsClosed"; "OrphanConstraintsPdaCleaned"].

Lemma Forall_kept {A} (P Q : A -> Prop) `{forall x, Decision (Q x)} (l : list A) :
  Forall P l -> Forall P (filter Q l).
Proof.
  rewrite !Forall_forall. intros HP x Hx. apply list_elem_of_filter in Hx as [_ Hx]. by apply HP.
Qed.

Lemma mapCategory_never_transfer i a :
  categorised i -> mapCategory (vi_category i) (vi_eventType i) a <> transfer_act.
Proof.
  intros ->. destruct (decide (vi_eventType i = "AgentTransferExecuted")) as [->|Hne].
  - unfold mapCategory. change (categorizeEvent _) with TradeCat. by repeat case_match.
  - unfold mapCategory. rewrite decide_False by done.
    destruct (categorizeEvent _); try done. by repeat case_match.
Qed.

Lemma audit_row_some i e :
  audit_row i = Some e -> at_eventName e = vi_eventType i /\
    at_timestamp e = vi_timestamp i * 1000 /\ is_Some (AUDIT_CATEGORY_TO_TYPE (vi_category i)).
Proof.
  unfold audit_row. destruct (AUDIT_CATEGORY_TO_TYPE (vi_category i)) as [t|]; [|done]. cbn.
  intros [= <-]. split; [done|]. split; [done|by eexists].
Qed.

Lemma audit_row_none i : audit_row i = None -> ~ is_Some (AUDIT_CATEGORY_TO_TYPE (vi_category i)).
Proof.
  unfold audit_row. destruct (AUDIT_CATEGORY_TO_TYPE (vi_category i)) as [t|]; [done|].
  by intros _ [? ?].
Qed.

Lemma audit_trail_names since items :
  at_eventName <$> match since with
                   | Some t => filter (fun e => at_timestamp e >= t) (buildAuditTrail items)
                   | None => buildAuditTrail items
                   end
  = vi_eventType <$> filter (fun i =>
      is_Some (AUDIT_CATEGORY_TO_TYPE (vi_category i)) /\
      default (vi_timestamp i * 1000) since <= vi_timestamp i * 1000) items.
Proof.
  unfold buildAuditTrail. induction items as [|i items IH]; [by destruct since|].
  rewrite filter_cons. cbn [omap list_omap]. destruct (audit_row i) as [e|] eqn:He.
  - destruct (audit_row_some i e He) as (Hn & Ht & Hs). destruct since as [t|].
    + rewrite filter_cons. change (default _ (Some t)) with t in *. rewrite Ht. case_decide.
      * rewrite decide_True by (split; [done|lia]). cbn. by rewrite Hn, IH.
      * rewrite decide_False by (intros [_ ?]; lia). exact IH.
    + rewrite decide_True by (split; [done|cbn; lia]). cbn. f_equal; [done|exact IH].
  - rewrite decide_False by (intros [? _]; by apply audit_row_none in He). exact IH.
Qed.

(** What the dashboard makes of the feed: an agent's transfer shows as a swap, so filtering
    for transfers finds nothing; changes of permissions, closed constraints and changed
    post-execution assertions are missing from the audit trail. The audit trail is otherwise
    the policy, agent, security and escrow items, from [since] on, in the feed's order. *)
Theorem dashboard_feed_gaps (renv : ReadEnv) filters opts items :
  (forall limit, re_activity renv limit = Some items) -> Forall categorised items ->
  exists a trail, getActivity renv filters = Ok a /\ getDashboardAuditTrail renv opts = Ok trail /\
    Forall (fun r => rv_type _ r <> transfer_act) (ad_rows _ a) /\
    (af_type filters = Some transfer_act -> ad_rows _ a = []) /\
    Forall (fun e => at_eventName e ∉ unlisted_governance) trail /\
    at_eventName <$> trail = vi_eventType <$> filter (fun i =>
      is_Some (AUDIT_CATEGORY_TO_TYPE (vi_category i)) /\
      default (vi_timestamp i * 1000) (to_since opts) <= vi_timestamp i * 1000) items.
Proof.
  intros Hf Hc. unfold getActivity, getDashboardAuditTrail. rewrite !Hf.
  eexists _, _. split; [reflexivity|]. split; [reflexivity|].
  assert (Hrows : Forall (fun r => rv_type _ r <> transfer_act) (buildActivityRows items)).
  { apply Forall_forall. intros r Hr. apply list_elem_of_fmap in Hr as (i & -> & Hi). cbn.
    apply mapCategory_never_transfer. by apply (proj1 (Forall_forall _ _) Hc). }
  cbn [ad_rows activity_summary]. split_and!.
  - by apply Forall_kept.
  - intros Ht. destruct (filter _ _) as [|r l] eqn:Hl; [done|]. exfalso.
    assert (Hin : r ∈ filter (fun r => keep_row filters (re_now renv) r = true) (buildActivityRows items))
      by (rewrite Hl; left).
    apply list_elem_of_filter in Hin as [Hk Hr]. unfold keep_row in Hk. rewrite Ht in Hk.
    rewrite !andb_true_iff in Hk. destruct Hk as [[[[_ _] _] Hk] _].
    apply bool_decide_eq_true in Hk. by apply (proj1 (Forall_forall _ _) Hrows r Hr).
  - assert (Hall : Forall (fun e => at_eventName e ∉ unlisted_governance) (buildAuditTrail items)).
    { apply Forall_forall. intros e He Hg. apply list_elem_of_omap in He as (i & Hi & He).
      apply audit_row_some in He as (Hn & _ & [t Ht]). rewrite Hn in Hg.
      rewrite (proj1 (Forall_forall _ _) Hc i Hi) in Ht.
      repeat (apply elem_of_cons in Hg as [Hg|Hg]; [by rewrite Hg in Ht|]). by apply elem_of_nil in Hg. }
    destruct (to_since opts); [by apply Forall_kept|done].
  - apply audit_trail_names.
Qed.
End reads_spec.

(** ** Concrete reads *)
#[export] Instance demo_dates : DateLib := { toISOString := fun ms => pretty ms }.

Definition demo_item (name : string) (t : Z) : VaultActivityItem :=
  mkItem t "sig" name (categorizeEvent name) (Some "agent1") (Some 5) None None None true None None
    None true "text".

Definition demo_items : list VaultActivityItem :=
  [demo_item "AgentTransferExecuted" 20; demo_item "AgentPermissionsChangeApplied" 15;
   demo_item "VaultFrozen" 10].

Definition demo_read_state : State := demo_analytics_state quiet_tracker (mkBudget 100 1000 900).

Definition demo_reads : ReadEnv :=
  mkReadEnv (fun _ => Ok demo_read_state) (fun _ => Some demo_items) PendingNotFound 1700000000000.

Lemma overview_agrees_with_reads_witness :
  exists o, getOverview demo_reads "vault" (mkOverviewOptions None None) = Ok o /\
    getVaultState demo_reads "vault" = Ok (od_vault _ o) /\
    getPolicy demo_reads "vault" = Ok (od_policy _ o).
Proof.
  destruct (overview_agrees_with_reads demo_reads "vault" demo_read_state None
              (fun _ => eq_refl) eq_refl) as (o & Ho & Hv & _ & _ & _ & Hp & _).
  exists o. split; [exact Ho|]. split; [exact Hv|exact Hp].
Defined.

Lemma risk_level_spec_witness :
  riskLevel (buildRiskMetrics (bare_ctx "vault" demo_read_state) 1700000000000) = low_risk /\
  (riskLevel (buildRiskMetrics (bare_ctx "vault" demo_read_state) 1700000000000) = low_risk <->
   evaluateAlertConditions demo_read_state "vault" = []).
Proof.
  split; [vm_compute; reflexivity|].
  exact (proj2 (risk_level_spec (bare_ctx "vault" demo_read_state) 1700000000000 eq_refl)).
Defined.

Lemma dashboard_feed_gaps_witness :
  exists a trail,
    getActivity demo_reads (mkFilters None None None None (Some transfer_act) None) = Ok a /\
    ad_rows _ a = [] /\
    getDashboardAuditTrail demo_reads (mkTrailOptions None None) = Ok trail /\
    at_eventName <$> trail = ["VaultFrozen"].
Proof.
  destruct (dashboard_feed_gaps demo_reads (mkFilters None None None None (Some transfer_act) None)
    (mkTrailOptions None None) demo_items (fun _ => eq_refl)) as (a & trail & Ha & Ht & _ & Hr & _ & Hn).
  - repeat constructor.
  - exists a, trail. split; [exact Ha|]. split; [exact (Hr eq_refl)|]. split; [exact Ht|].
    rewrite Hn. vm_compute. reflexivity.
Defined.
