(* ===== verification/Codecs.v ===== *)
(** * Codecs of the generated client

    The generated files describe instruction arguments and account data by composing the
    library's codecs. [ctype] is such a composition, [cval] a value it encodes; [ClientLib]
    stands for the library, and [borsh] is one implementation of it, used in the witnesses. *)

From S2P Require Import Prelude Types Accounts Bytes Pdas Composer.
Local Open Scope string_scope.
Local Open Scope Z_scope.
Local Open Scope list_scope.

(** ** Types and values *)
Inductive ctype :=
  | TU8 | TU16 | TU32 | TU64 | TI64 | TU128 | TBool | TAddress
  | TBytes (size : nat)            (* [fixEncoderSize(getBytesEncoder(), size)] *)
  | TBlob                          (* bytes behind a [u32] length *)
  | TEnum (variants : Z)
  | TOption (c : ctype)
  | TVec (c : ctype)               (* behind a [u32] length *)
  | TArray (size : nat) (c : ctype)
  | TStruct (fields : list (string * ctype)).

Inductive cval :=
  | VlInt (z : Z)
  | VlBool (b : bool)
  | VlAddr (a : Address)
  | VlBytes (bs : bytes)
  | VlNone
  | VlSome (v : cval)
  | VlList (vs : list cval)
  | VlRec (fs : list (string * cval)).

Abbreviation struct_type := (list (string * ctype)).
Abbreviation struct_val := (list (string * cval)).

(** The width of a fixed-width integer, and whether it is signed. *)
Definition int_width (c : ctype) : option (nat * bool) :=
  match c with
  | TU8 | TEnum _ => Some (1%nat, false)
  | TU16 => Some (2%nat, false)
  | TU32 => Some (4%nat, false)
  | TU64 => Some (8%nat, false)
  | TU128 => Some (16%nat, false)
  | TI64 => Some (8%nat, true)
  | _ => None
  end.

Definition in_bounds (lo hi z : Z) : bool := (lo <=? z) && (z <? hi).

Definition int_range (c : ctype) (z : Z) : bool :=
  match c with
  | TU8 => in_bounds 0 (2 ^ 8) z
  | TU16 => in_bounds 0 (2 ^ 16) z
  | TU32 => in_bounds 0 (2 ^ 32) z
  | TU64 => in_bounds 0 (2 ^ 64) z
  | TU128 => in_bounds 0 (2 ^ 128) z
  | TI64 => in_bounds (- 2 ^ 63) (2 ^ 63) z
  | TEnum n => in_bounds 0 (Z.min n 256) z
  | _ => false
  end.

(** A value of a type: numbers in range, byte strings of the declared size. *)
Fixpoint typed (c : ctype) (v : cval) {struct c} : bool :=
  match c, v with
  | (TU8 | TU16 | TU32 | TU64 | TU128 | TI64 | TEnum _), VlInt z => int_range c z
  | TBool, VlBool _ => true
  | TAddress, VlAddr _ => true
  | TBytes n, VlBytes bs => Nat.eqb (length bs) n
  | TBlob, VlBytes bs => (Z.of_nat (length bs) <? 2 ^ 32)
  | TOption _, VlNone => true
  | TOption c, VlSome v => typed c v
  | TVec c, VlList vs => (Z.of_nat (length vs) <? 2 ^ 32) && forallb (typed c) vs
  | TArray n c, VlList vs => Nat.eqb (length vs) n && forallb (typed c) vs
  | TStruct fs, VlRec vs =>
      (fix fields (fs : struct_type) (vs : struct_val) : bool :=
         match fs, vs with
         | [], [] => true
         | (k, c) :: fs', (k', v) :: vs' => bool_decide (k = k') && typed c v && fields fs' vs'
         | _, _ => false
         end) fs vs
  | _, _ => false
  end.

Fixpoint typed_fields (fs : struct_type) (vs : struct_val) : bool :=
  match fs, vs with
  | [], [] => true
  | (k, c) :: fs', (k', v) :: vs' => bool_decide (k = k') && typed c v && typed_fields fs' vs'
  | _, _ => false
  end.

(** What an encoder checks: the numbers at the top level and under options. *)
Fixpoint range_ok (c : ctype) (v : cval) : bool :=
  match c, v with
  | TOption c, VlSome v => range_ok c v
  | (TU8 | TU16 | TU32 | TU64 | TU128 | TI64 | TEnum _), VlInt z => int_range c z
  | _, _ => true
  end.

Fixpoint ranges_ok (fs : struct_type) (vs : struct_val) : bool :=
  match fs, vs with
  | (_, c) :: fs', (_, v) :: vs' => range_ok c v && ranges_ok fs' vs'
  | _, _ => true
  end.

(** ** External code: the client library *)

(** [containsBytes(data, bytes, offset)]; [getAccountMetaFactory(program, "programId")] of an
    account's value (its address and whether it is a signer, or [null]) and its writability;
    the struct codecs, whose encoder throws on a value out of range. *)
Class ClientLib := {
  containsBytes : bytes -> bytes -> nat -> bool;
  getAccountMeta : Address -> option (Address * bool) -> bool -> AccountMeta;
  encodeStruct : struct_type -> struct_val -> option bytes;
  decodeStruct : struct_type -> bytes -> option struct_val;
}.

Definition role_of (writable signer : bool) : AccountRole :=
  match writable, signer with
  | true, true => WRITABLE_SIGNER | true, false => WRITABLE
  | false, true => READONLY_SIGNER | false, false => READONLY
  end.

(** Documented behaviour. A missing optional account is replaced by the program's address; a
    struct is the concatenation of its fields, a [u64] is little-endian. *)
Class ClientLaws `{PdaEnv} (lib : ClientLib) := {
  containsBytes_at data bs off :
    containsBytes data bs off = true <-> take (length bs) (drop off data) = bs;
  getAccountMeta_some p a signer w :
    getAccountMeta p (Some (a, signer)) w = mkMeta a (role_of w signer) None;
  getAccountMeta_none p w : am_address (getAccountMeta p None w) = p;
  encode_typed fs vs : typed_fields fs vs = true ->
    exists bs, encodeStruct fs vs = Some bs /\ decodeStruct fs bs = Some vs;
  encode_ranges fs vs : is_Some (encodeStruct fs vs) -> ranges_ok fs vs = true;
  encode_bytes_field k n bs fs vs : length bs = n ->
    encodeStruct ((k, TBytes n) :: fs) ((k, VlBytes bs) :: vs) = app bs <$> encodeStruct fs vs;
  encode_u64 k z : 0 <= z < 2 ^ 64 ->
    encodeStruct [(k, TU64)] [(k, VlInt z)] = Some (le_bytes 8 z);
  encode_address k a : encodeStruct [(k, TAddress)] [(k, VlAddr a)] = Some (encodeAddress a);
}.

(** ** One implementation: little-endian Borsh *)

(** The induction principle of nested types. *)
Section ctype_ind.
Context (P : ctype -> Prop).
Hypothesis Hint : forall c, is_Some (int_width c) -> P c.
Hypothesis Hbool : P TBool.
Hypothesis Haddr : P TAddress.
Hypothesis Hbytes : forall n, P (TBytes n).
Hypothesis Hblob : P TBlob.
Hypothesis Hopt : forall c, P c -> P (TOption c).
Hypothesis Hvec : forall c, P c -> P (TVec c).
Hypothesis Harr : forall n c, P c -> P (TArray n c).
Hypothesis Hstruct : forall fs, Forall (fun f => P f.2) fs -> P (TStruct fs).

Fixpoint ctype_nested_ind (c : ctype) : P c :=
  match c return P c with
  | TOption c => Hopt c (ctype_nested_ind c)
  | TVec c => Hvec c (ctype_nested_ind c)
  | TArray n c => Harr n c (ctype_nested_ind c)
  | TStruct fs =>
      Hstruct fs ((fix go fs : Forall (fun f => P f.2) fs :=
        match fs with
        | [] => Forall_nil_2 _
        | f :: fs' => Forall_cons_2 _ _ _ (ctype_nested_ind f.2) (go fs')
        end) fs)
  | TBool => Hbool
  | TAddress => Haddr
  | TBytes n => Hbytes n
  | TBlob => Hblob
  | c' => Hint c' (mk_is_Some _ _ eq_refl)
  end.
End ctype_ind.

Section borsh.
Context `{env : PdaEnv} `{laws : !PdaLaws env}.
Context (decodeAddress : bytes -> option Address).
Hypothesis decodeAddress_encode : forall a, decodeAddress (encodeAddress a) = Some a.

Definition borsh_len (n : nat) : bytes := le_bytes 4 (Z.of_nat n).

Fixpoint concat_opt {A} (f : A -> option bytes) (l : list A) : option bytes :=
  match l with
  | [] => Some []
  | x :: l' => b ← f x; bs ← concat_opt f l'; Some (b ++ bs)
  end.

Fixpoint borsh (c : ctype) (v : cval) {struct c} : option bytes :=
  match c, v with
  | (TU8 | TU16 | TU32 | TU64 | TU128 | TI64 | TEnum _), VlInt z =>
      w ← int_width c; if int_range c z then Some (le_bytes w.1 z) else None
  | TBool, VlBool b => Some [if b then 1 else 0]
  | TAddress, VlAddr a => Some (encodeAddress a)
  | TBytes n, VlBytes bs => if Nat.eqb (length bs) n then Some bs else None
  | TBlob, VlBytes bs =>
      if Z.of_nat (length bs) <? 2 ^ 32 then Some (borsh_len (length bs) ++ bs) else None
  | TOption _, VlNone => Some [0]
  | TOption c, VlSome v => bs ← borsh c v; Some (1 :: bs)
  | TVec c, VlList vs =>
      if Z.of_nat (length vs) <? 2 ^ 32
      then bs ← concat_opt (borsh c) vs; Some (borsh_len (length vs) ++ bs) else None
  | TArray n c, VlList vs =>
      if Nat.eqb (length vs) n then concat_opt (borsh c) vs else None
  | TStruct fs, VlRec vs =>
      (fix go (fs : struct_type) (vs : struct_val) : option bytes :=
         match fs, vs with
         | [], [] => Some []
         | (k, c) :: fs', (k', v) :: vs' =>
             if bool_decide (k = k') then b ← borsh c v; bs ← go fs' vs'; Some (b ++ bs) else None
         | _, _ => None
         end) fs vs
  | _, _ => None
  end.

Definition take_opt (n : nat) (bs : bytes) : option (bytes * bytes) :=
  if (n <=? length bs)%nat then Some (take n bs, drop n bs) else None.

Fixpoint decode_n (d : bytes -> option (cval * bytes)) (n : nat) (bs : bytes)
    : option (list cval * bytes) :=
  match n with
  | O => Some ([], bs)
  | S n' => r ← d bs; r' ← decode_n d n' r.2; Some (r.1 :: r'.1, r'.2)
  end.

Definition unborsh_int (w : nat) (signed : bool) (bs : bytes) : Z :=
  let u := read_le w 0 bs in
  if signed && (2 ^ (Z.of_nat w * 8 - 1) <=? u) then u - 2 ^ (Z.of_nat w * 8) else u.

Fixpoint unborsh (c : ctype) (bs : bytes) {struct c} : option (cval * bytes) :=
  match c with
  | TBool => r ← take_opt 1 bs; Some (VlBool (negb (bool_decide (r.1 = [0]))), r.2)
  | TAddress => r ← take_opt 32 bs; a ← decodeAddress r.1; Some (VlAddr a, r.2)
  | TBytes n => r ← take_opt n bs; Some (VlBytes r.1, r.2)
  | TBlob =>
      r ← take_opt 4 bs; r' ← take_opt (Z.to_nat (read_le 4 0 r.1)) r.2; Some (VlBytes r'.1, r'.2)
  | TOption c =>
      r ← take_opt 1 bs;
      if bool_decide (r.1 = [0]) then Some (VlNone, r.2)
      else v ← unborsh c r.2; Some (VlSome v.1, v.2)
  | TVec c =>
      r ← take_opt 4 bs;
      v ← decode_n (unborsh c) (Z.to_nat (read_le 4 0 r.1)) r.2; Some (VlList v.1, v.2)
  | TArray n c => v ← decode_n (unborsh c) n bs; Some (VlList v.1, v.2)
  | TStruct fs =>
      (fix go (fs : struct_type) (bs : bytes) (acc : struct_val) : option (cval * bytes) :=
         match fs with
         | [] => Some (VlRec (rev acc), bs)
         | (k, c) :: fs' => v ← unborsh c bs; go fs' v.2 ((k, v.1) :: acc)
         end) fs bs []
  | _ => w ← int_width c; r ← take_opt w.1 bs; Some (VlInt (unborsh_int w.1 w.2 r.1), r.2)
  end.

Definition inverts (c : ctype) : Prop :=
  forall v, typed c v = true ->
    exists bs, borsh c v = Some bs /\ forall rest, unborsh c (bs ++ rest) = Some (v, rest).

Lemma take_opt_app a rest : take_opt (length a) (a ++ rest) = Some (a, rest).
Proof.
  unfold take_opt. rewrite length_app, (proj2 (Nat.leb_le _ _)) by lia.
  by rewrite take_app_length, drop_app_length.
Qed.

Lemma read_le_own n v : read_le n 0 (le_bytes n v) = v mod 2 ^ (Z.of_nat n * 8).
Proof. pose proof (read_le_le_bytes n v [] []) as H. by rewrite app_nil_r in H. Qed.

Lemma take_le n v rest : take_opt n (le_bytes n v ++ rest) = Some (le_bytes n v, rest).
Proof. rewrite <- (length_le_bytes n v) at 1. apply take_opt_app. Qed.

Lemma read_len (n : nat) :
  (Z.of_nat n <? 2 ^ 32) = true -> Z.to_nat (read_le 4 0 (borsh_len n)) = n.
Proof.
  intros H. unfold borsh_len. rewrite read_le_own, Z.mod_small; [lia|].
  change (Z.of_nat 4 * 8) with 32. lia.
Qed.

Lemma unborsh_int_ok c w z :
  int_width c = Some w -> int_range c z = true -> unborsh_int w.1 w.2 (le_bytes w.1 z) = z.
Proof.
  intros Hw Hr. unfold unborsh_int. rewrite read_le_own.
  destruct c; try discriminate; injection Hw as <-; unfold int_range, in_bounds in Hr;
    cbn [fst snd andb].
  all: match goal with |- context [Z.of_nat ?n * 8] =>
         let k := eval vm_compute in (Z.of_nat n * 8) in change (Z.of_nat n * 8) with k end.
  all: try (rewrite Z.mod_small; [done|lia]).
  change (64 - 1) with 63. destruct (Z.leb_spec (2 ^ 63) (z mod 2 ^ 64)) as [H|H];
    Z.div_mod_to_equations; lia.
Qed.

Lemma concat_decode c vs rest :
  inverts c -> forallb (typed c) vs = true ->
  exists bs, concat_opt (borsh c) vs = Some bs /\
    decode_n (unborsh c) (length vs) (bs ++ rest) = Some (vs, rest).
Proof.
  intros Hc. induction vs as [|v vs IH]; cbn; [eauto|].
  intros [Hv Hvs]%andb_true_iff.
  destruct (Hc v Hv) as (b & -> & Hb). destruct (IH Hvs) as (bs & -> & Hbs). cbn.
  eexists; split; [done|]. by rewrite <- app_assoc, Hb; cbn; rewrite Hbs.
Qed.

Lemma inverts_int c : is_Some (int_width c) -> inverts c.
Proof.
  intros [w Hw] v Hv.
  assert (exists z, v = VlInt z /\ int_range c z = true) as (z & -> & Hr)
    by (destruct c; try discriminate Hw; destruct v; try discriminate Hv; eauto).
  exists (le_bytes w.1 z). split.
  - destruct c; try discriminate Hw; cbn [borsh]; rewrite Hw; cbn [mbind option_bind]; by rewrite Hr.
  - intros rest. destruct c; try discriminate Hw; cbn [unborsh]; rewrite Hw; cbn [mbind option_bind];
      rewrite take_le; cbn [mbind option_bind fst snd]; by rewrite (unborsh_int_ok _ _ _ Hw Hr).
Qed.

Lemma inverts_blob : inverts TBlob.
Proof.
  intros v Hv. destruct v as [| | |bs| | | |]; try discriminate Hv. cbn [typed] in Hv.
  exists (borsh_len (length bs) ++ bs). cbn [borsh]. rewrite Hv. split; [done|].
  intros rest. cbn [unborsh]. rewrite <- app_assoc. unfold borsh_len at 1. rewrite take_le.
  cbn [mbind option_bind fst snd].
  change (le_bytes 4 (Z.of_nat (length bs))) with (borsh_len (length bs)).
  rewrite read_len by done. by rewrite take_opt_app.
Qed.

Lemma inverts_option c : inverts c -> inverts (TOption c).
Proof.
  intros Hc v Hv. destruct v; try discriminate Hv; cbn in *.
  - by exists [0].
  - destruct (Hc _ Hv) as (bs & -> & Hbs). exists (1 :: bs). split; [done|]. intros rest.
    cbn [unborsh]. change ((1 :: bs) ++ rest) with ([1] ++ (bs ++ rest)).
    rewrite (take_opt_app [1]). cbn [mbind option_bind fst snd]. case_bool_decide; [done|].
    by rewrite Hbs.
Qed.

Lemma inverts_vec c : inverts c -> inverts (TVec c).
Proof.
  intros Hc v Hv. destruct v as [| | | | | |vs|]; try discriminate Hv. cbn [typed] in Hv.
  apply andb_true_iff in Hv as [Hl Hvs].
  destruct (concat_decode c vs [] Hc Hvs) as (bs & Hbs & _).
  exists (borsh_len (length vs) ++ bs). cbn [borsh]. rewrite Hl, Hbs. split; [done|].
  intros rest. cbn [unborsh]. rewrite <- app_assoc. unfold borsh_len at 1. rewrite take_le.
  cbn [mbind option_bind fst snd].
  change (le_bytes 4 (Z.of_nat (length vs))) with (borsh_len (length vs)). rewrite read_len by done.
  destruct (concat_decode c vs rest Hc Hvs) as (bs' & Hbs' & Hd).
  rewrite Hbs in Hbs'. injection Hbs' as <-. by rewrite Hd.
Qed.

Lemma inverts_array n c : inverts c -> inverts (TArray n c).
Proof.
  intros Hc v Hv. destruct v as [| | | | | |vs|]; try discriminate Hv. cbn [typed] in Hv.
  apply andb_true_iff in Hv as [Hl Hvs]. cbn [borsh]. rewrite Hl. apply Nat.eqb_eq in Hl as <-.
  destruct (concat_decode c vs [] Hc Hvs) as (bs & Hbs & _).
  exists bs. split; [done|]. intros rest. cbn [unborsh].
  destruct (concat_decode c vs rest Hc Hvs) as (bs' & Hbs' & Hd).
  rewrite Hbs in Hbs'. injection Hbs' as <-. by rewrite Hd.
Qed.

Lemma inverts_struct fs : Forall (fun f => inverts f.2) fs -> inverts (TStruct fs).
Proof.
  intros Hfs v Hv. destruct v as [| | | | | | |vs]; try discriminate Hv.
  cbn [typed borsh unborsh] in *.
  assert (H : forall acc, exists bs,
    (fix go (fs : struct_type) (vs : struct_val) : option bytes :=
       match fs, vs with
       | [], [] => Some []
       | (k, c) :: fs', (k', v) :: vs' =>
           if bool_decide (k = k') then b ← borsh c v; bs ← go fs' vs'; Some (b ++ bs) else None
       | _, _ => None
       end) fs vs = Some bs /\
    forall rest,
    (fix go (fs : struct_type) (bs : bytes) (acc : struct_val) : option (cval * bytes) :=
       match fs with
       | [] => Some (VlRec (rev acc), bs)
       | (k, c) :: fs' => v ← unborsh c bs; go fs' v.2 ((k, v.1) :: acc)
       end) fs (bs ++ rest) acc = Some (VlRec (rev acc ++ vs), rest)).
  2:{ destruct (H []) as (bs & Hb & Hd). exists bs. split; [exact Hb|exact Hd]. }
  revert vs Hv. induction Hfs as [|[k c] fs Hc _ IH]; intros [|[k' v] vs] Hv acc;
    try discriminate Hv.
  - exists []. split; [done|]. intros rest. by rewrite app_nil_r.
  - apply andb_true_iff in Hv as [[Hk%bool_decide_eq_true Hv]%andb_true_iff Hvs]. subst k'.
    destruct (Hc v Hv) as (b & Hb & Hub). destruct (IH vs Hvs ((k, v) :: acc)) as (bs & Hbs & Hd).
    exists (b ++ bs). rewrite bool_decide_true by done. cbn in Hb. rewrite Hb. cbn [mbind option_bind].
    rewrite Hbs. split; [done|]. intros rest. rewrite <- app_assoc. cbn in Hub. rewrite Hub.
    cbn [mbind option_bind fst snd]. rewrite Hd. cbn [rev]. by rewrite <- app_assoc.
Qed.

Lemma borsh_inverts c : inverts c.
Proof using All.
  induction c using ctype_nested_ind.
  - by apply inverts_int.
  - intros v Hv. destruct v; try discriminate Hv. eexists; split; [done|].
    intros rest. by destruct b.
  - intros v Hv. destruct v; try discriminate Hv. eexists; split; [done|]. intros rest.
    cbn [unborsh]. rewrite <- (encodeAddress_length a), take_opt_app. cbn.
    by rewrite decodeAddress_encode.
  - intros v Hv. destruct v; try discriminate Hv. cbn [typed borsh] in *. rewrite Hv.
    eexists; split; [done|]. intros rest. apply Nat.eqb_eq in Hv as <-. cbn. by rewrite take_opt_app.
  - apply inverts_blob.
  - by apply inverts_option.
  - by apply inverts_vec.
  - by apply inverts_array.
  - by apply inverts_struct.
Qed.

(** The library with these codecs. *)
Definition borsh_lib : ClientLib := {|
  containsBytes data bs off := bool_decide (take (length bs) (drop off data) = bs);
  getAccountMeta p v w :=
    match v with
    | Some (a, signer) => mkMeta a (role_of w signer) None
    | None => mkMeta p READONLY None
    end;
  encodeStruct fs vs := borsh (TStruct fs) (VlRec vs);
  decodeStruct fs bs :=
    match unborsh (TStruct fs) bs with Some (VlRec vs, []) => Some vs | _ => None end;
|}.

Lemma typed_struct fs vs : typed (TStruct fs) (VlRec vs) = typed_fields fs vs.
Proof. reflexivity. Qed.

Lemma borsh_range c v : is_Some (borsh c v) -> range_ok c v = true.
Proof.
  revert v. induction c using ctype_nested_ind; intros v; try (destruct v; done).
  - destruct H as [w Hw]. destruct c; try discriminate Hw; destruct v; try done;
      cbn [borsh range_ok]; rewrite Hw; cbn [mbind option_bind]; (destruct (int_range _ _); [done|by intros [? [=]]]).
  - destruct v; try done. cbn [borsh range_ok]. intros [bs Hb]. apply IHc.
    destruct (borsh c v); [eauto|done].
Qed.

Lemma borsh_ranges fs vs : is_Some (borsh (TStruct fs) (VlRec vs)) -> ranges_ok fs vs = true.
Proof.
  cbn [borsh]. revert vs. induction fs as [|[k c] fs IH]; intros [|[k' v] vs]; try done.
  cbn [ranges_ok]. intros [bs H]. case_bool_decide; [|done].
  destruct (borsh c v) as [b|] eqn:Hb; [|done]. cbn [mbind option_bind] in H.
  apply andb_true_iff. split; [apply borsh_range; eauto|].
  apply IH. destruct (_ fs vs) as [bs'|]; [eauto|done].
Qed.

Lemma borsh_lib_laws : ClientLaws borsh_lib.
Proof using All.
  split; cbn [containsBytes getAccountMeta encodeStruct decodeStruct borsh_lib].
  - intros. apply bool_decide_eq_true.
  - done.
  - done.
  - intros fs vs H. rewrite <- typed_struct in H.
    destruct (borsh_inverts (TStruct fs) _ H) as (bs & Hb & Hd). exists bs.
    split; [done|]. specialize (Hd []). by rewrite app_nil_r in Hd; rewrite Hd.
  - intros fs vs. apply borsh_ranges.
  - intros k n bs fs vs <-. cbn [borsh]. rewrite bool_decide_true, Nat.eqb_refl by done.
    cbn [mbind option_bind]. by destruct (_ fs vs).
  - intros k z Hz. cbn -[le_bytes]. unfold in_bounds. rewrite bool_decide_true by done.
    rewrite (proj2 (Z.leb_le 0 z)), (proj2 (Z.ltb_lt z _)) by lia.
    cbn [andb mbind option_bind fst]. by rewrite app_nil_r.
  - intros k a. cbn. rewrite bool_decide_true by done. cbn. by rewrite app_nil_r.
Qed.
End borsh.
