(* ===== verification/Instructions.v ===== *)
(** * Building and parsing instructions ([generated/instructions/*.ts], [generated/programs/sigil.ts])

    The generated files follow one scheme: fill in the accounts that have a default, list them
    with their roles, encode the discriminator and the arguments; and back. The scheme is
    modelled once, over an [ix_spec] that holds what differs between the files
    ([InstructionTable]). *)

From S2P Require Import Prelude Types Accounts Bytes Pdas Composer Codecs.
Local Open Scope string_scope.
Local Open Scope Z_scope.
Local Open Scope list_scope.

(** ** What an instruction's file says *)
Inductive seed :=
  | SBytes (bs : bytes)
  | SAccount (name : string)
  | SArg (name : string) (c : ctype).

(** [program] is [None] for the Sigil program itself. *)
Inductive acc_default :=
  | DPda (program : option Address) (seeds : list seed)
  | DAddress (a : Address).

(** The account's position is its place in the list; a signer is a [TransactionSigner] of the
    builder's input. *)
Record acc_spec := mkAcc {
  as_name : string;
  as_writable : bool;
  as_signer : bool;
  as_optional : bool;
}.

Record ix_spec := mkIx {
  ix_name : string;
  ix_discriminator : bytes;
  ix_accounts : list acc_spec;
  ix_defaults : list (string * acc_default);          (* [getXInstruction] *)
  ix_asyncDefaults : list (string * acc_default);     (* [getXInstructionAsync] *)
  ix_args : struct_type;
}.

Inductive client_error :=
  | ExpectedNonNull (input : string)
  | CodecRange
  | InsufficientAccounts (actual expected : nat)
  | UnidentifiedInstruction
  | DecodeFailed.

Section client.
Context `{env : PdaEnv} `{lib : ClientLib}.

Definition or_throw {A} (o : option A) (e : client_error) : res client_error A :=
  match o with Some x => Ok x | None => Throw e end.

(** ** Default accounts *)
Definition seed_value (accs : jsmap Address) (args : struct_val) (s : seed)
    : res client_error bytes :=
  match s with
  | SBytes bs => Ok bs
  | SAccount name => encodeAddress <$> or_throw (jm_get name accs) (ExpectedNonNull name)
  | SArg name c =>
      v ← or_throw (jm_get name args) (ExpectedNonNull name);
      or_throw (encodeStruct [(name, c)] [(name, v)]) CodecRange
  end.

Fixpoint seed_values (accs : jsmap Address) (args : struct_val) (ss : list seed)
    : res client_error (list bytes) :=
  match ss with
  | [] => Ok []
  | s :: ss' => b ← seed_value accs args s; bs ← seed_values accs args ss'; Ok (b :: bs)
  end.

Definition default_value (accs : jsmap Address) (args : struct_val) (d : acc_default)
    : res client_error Address :=
  match d with
  | DAddress a => Ok a
  | DPda program seeds =>
      bs ← seed_values accs args seeds;
      Ok (getProgramDerivedAddress (default SIGIL_PROGRAM_ID program) bs).1
  end.

(** [if (!accounts.x.value)]: absent, or the empty text. *)
Definition missing (accs : jsmap Address) (name : string) : bool :=
  match jm_get name accs with Some a => bool_decide (a = "") | None => true end.

Fixpoint resolve_defaults (ds : list (string * acc_default)) (args : struct_val)
    (accs : jsmap Address) : res client_error (jsmap Address) :=
  match ds with
  | [] => Ok accs
  | (name, d) :: ds' =>
      if missing accs name then
        a ← default_value accs args d; resolve_defaults ds' args (jm_set name a accs)
      else resolve_defaults ds' args accs
  end.

(** ** The builders *)
Definition account_meta (accs : jsmap Address) (a : acc_spec) : AccountMeta :=
  getAccountMeta SIGIL_PROGRAM_ID ((fun x => (x, as_signer a)) <$> jm_get (as_name a) accs)
    (as_writable a).

Definition data_type (sp : ix_spec) : struct_type := ("discriminator", TBytes 8) :: ix_args sp.
Definition data_value (sp : ix_spec) (args : struct_val) : struct_val :=
  ("discriminator", VlBytes (ix_discriminator sp)) :: args.

Definition build (ds : list (string * acc_default)) (sp : ix_spec) (input : jsmap Address)
    (args : struct_val) : res client_error Instruction :=
  accs ← resolve_defaults ds args input;
  data ← or_throw (encodeStruct (data_type sp) (data_value sp args)) CodecRange;
  Ok (mkInstruction SIGIL_PROGRAM_ID (Some (account_meta accs <$> ix_accounts sp)) (Some data)).

(** [getXInstruction] and [getXInstructionAsync]. *)
Definition getInstruction (sp : ix_spec) := build (ix_defaults sp) sp.
Definition getInstructionAsync (sp : ix_spec) := build (ix_asyncDefaults sp) sp.

(** ** The parsers *)
Record ParsedInstruction := mkParsed {
  pi_type : string;
  pi_accounts : list (string * option AccountMeta);
  pi_data : struct_val;
}.

(** [getNextOptionalAccount]: the program's address stands for an absent account. *)
Definition parse_account (a : acc_spec) (m : AccountMeta) : string * option AccountMeta :=
  (as_name a, if as_optional a && bool_decide (am_address m = SIGIL_PROGRAM_ID) then None else Some m).

Definition parseInstruction (sp : ix_spec) (ix : Instruction) : res client_error ParsedInstruction :=
  let accounts := default [] (ins_accounts ix) in
  throw_if (length accounts <? length (ix_accounts sp))%nat
    (InsufficientAccounts (length accounts) (length (ix_accounts sp))) ;;
  data ← or_throw (decodeStruct (data_type sp) (default [] (ins_data ix))) DecodeFailed;
  Ok (mkParsed (ix_name sp) (zip_with parse_account (ix_accounts sp) accounts) data).

(** [identifySigilInstruction]: the first discriminator the data begins with. *)
Definition identify (table : list (string * bytes)) (data : bytes) : res client_error string :=
  or_throw (fst <$> find_by (fun e => containsBytes data e.2 0) table) UnidentifiedInstruction.
End client.
