(* ===== verification/InstructionTable.v ===== *)
(** * The instructions of the program ([generated/instructions/*.ts])

    Of each file: the arguments, the account list, the default accounts of the asynchronous
    builder, and the whole; then the tables of [generated/programs/sigil.ts]. *)

From S2P Require Import Prelude Types Accounts Bytes Pdas AltLoader Composer Codecs Instructions.
Local Open Scope string_scope.
Local Open Scope Z_scope.
Local Open Scope list_scope.

(** The token program's address, as the seed the generated files write out. *)
Definition TOKEN_PROGRAM_BYTES : bytes :=
  [6; 221; 246; 225; 215; 101; 161; 147; 217; 203; 225; 70; 206; 235; 121; 172;
   28; 180; 133; 237; 95; 91; 55; 145; 58; 140; 245; 133; 126; 255; 0; 169].

(** ** The structs of the arguments ([generated/types]) *)
Definition ConstraintOperator_type : ctype := TEnum 7.
Definition DiscriminatorFormat_type : ctype := TEnum 2.

Definition DataConstraint_type : ctype :=
  TStruct [ ("offset", TU16); ("operator", ConstraintOperator_type); ("value", TBlob) ].

Definition AccountConstraint_type : ctype :=
  TStruct [ ("index", TU8); ("isWritableRequired", TU8); ("expected", TAddress) ].

Definition ConstraintEntry_type : ctype :=
  TStruct [ ("programId", TAddress);
            ("dataConstraints", TVec DataConstraint_type);
            ("accountConstraints", TVec AccountConstraint_type);
            ("discriminatorFormat", DiscriminatorFormat_type) ].

Definition PostAssertionEntry_type : ctype :=
  TStruct [ ("targetAccount", TAddress); ("offset", TU16); ("valueLen", TU8); ("operator", TU8);
            ("expectedValue", TBlob); ("assertionMode", TU8); ("crossFieldOffsetB", TU16);
            ("crossFieldMultiplierBps", TU32); ("crossFieldFlags", TU8) ].

(** ** [AgentTransfer] *)
Definition AgentTransfer_args : struct_type :=
  [ ("amount", TU64);
    ("expectedPolicyVersion", TU64) ].

Definition AgentTransfer_accounts : list acc_spec :=
  [ mkAcc "agent" true true false;
    mkAcc "vault" true false false;
    mkAcc "policy" false false false;
    mkAcc "tracker" true false false;
    mkAcc "agentSpendOverlay" true false false;
    mkAcc "vaultTokenAccount" true false false;
    mkAcc "tokenMintAccount" false false false;
    mkAcc "destinationTokenAccount" true false false;
    mkAcc "feeDestinationTokenAccount" true false true;
    mkAcc "protocolTreasuryTokenAccount" true false true;
    mkAcc "tokenProgram" false false false ].

Definition AgentTransfer_asyncDefaults : list (string * acc_default) :=
  [ ("policy", DPda None [SBytes (seedString "policy"); SAccount "vault"]);
    ("tracker", DPda None [SBytes (seedString "tracker"); SAccount "vault"]);
    ("tokenProgram", DAddress TOKEN_PROGRAM_ADDRESS) ].

Definition AgentTransfer_ix : ix_spec :=
  mkIx "AgentTransfer" [199; 111; 151; 49; 124; 13; 150; 44]
    AgentTransfer_accounts
    [("tokenProgram", DAddress TOKEN_PROGRAM_ADDRESS)]
    AgentTransfer_asyncDefaults AgentTransfer_args.

(** ** [AllocateConstraintsPda] *)
Definition AllocateConstraintsPda_accounts : list acc_spec :=
  [ mkAcc "owner" true true false;
    mkAcc "vault" false false false;
    mkAcc "policy" false false false;
    mkAcc "constraints" true false false;
    mkAcc "systemProgram" false false false ].

Definition AllocateConstraintsPda_asyncDefaults : list (string * acc_default) :=
  [ ("policy", DPda None [SBytes (seedString "policy"); SAccount "vault"]);
    ("constraints", DPda None [SBytes (seedString "constraints"); SAccount "vault"]);
    ("systemProgram", DAddress SYSTEM_PROGRAM_ADDRESS) ].

Definition AllocateConstraintsPda_ix : ix_spec :=
  mkIx "AllocateConstraintsPda" [55; 127; 43; 98; 168; 156; 152; 157]
    AllocateConstraintsPda_accounts
    [("systemProgram", DAddress SYSTEM_PROGRAM_ADDRESS)]
    AllocateConstraintsPda_asyncDefaults [].

(** ** [AllocatePendingConstraintsPda] *)
Definition AllocatePendingConstraintsPda_accounts : list acc_spec :=
  [ mkAcc "owner" true true false;
    mkAcc "vault" false false false;
    mkAcc "policy" false false false;
    mkAcc "constraints" false false false;
    mkAcc "pendingConstraints" true false false;
    mkAcc "systemProgram" false false false ].

Definition AllocatePendingConstraintsPda_asyncDefaults : list (string * acc_default) :=
  [ ("policy", DPda None [SBytes (seedString "policy"); SAccount "vault"]);
    ("constraints", DPda None [SBytes (seedString "constraints"); SAccount "vault"]);
    ("pendingConstraints", DPda None [SBytes (seedString "pending_constraints"); SAccount "vault"]);
    ("systemProgram", DAddress SYSTEM_PROGRAM_ADDRESS) ].

Definition AllocatePendingConstraintsPda_ix : ix_spec :=
  mkIx "AllocatePendingConstraintsPda" [211; 244; 224; 20; 224; 183; 236; 165]
    AllocatePendingConstraintsPda_accounts
    [("systemProgram", DAddress SYSTEM_PROGRAM_ADDRESS)]
    AllocatePendingConstraintsPda_asyncDefaults [].

(** ** [ApplyAgentPermissionsUpdate] *)
Definition ApplyAgentPermissionsUpdate_accounts : list acc_spec :=
  [ mkAcc "owner" true true false;
    mkAcc "vault" true false false;
    mkAcc "policy" true false false;
    mkAcc "pendingAgentPerms" true false false;
    mkAcc "agentSpendOverlay" true false false ].

Definition ApplyAgentPermissionsUpdate_asyncDefaults : list (string * acc_default) :=
  [ ("policy", DPda None [SBytes (seedString "policy"); SAccount "vault"]) ].

Definition ApplyAgentPermissionsUpdate_ix : ix_spec :=
  mkIx "ApplyAgentPermissionsUpdate" [234; 166; 205; 3; 28; 166; 221; 240]
    ApplyAgentPermissionsUpdate_accounts
    []
    ApplyAgentPermissionsUpdate_asyncDefaults [].

(** ** [ApplyCloseConstraints] *)
Definition ApplyCloseConstraints_accounts : list acc_spec :=
  [ mkAcc "owner" true true false;
    mkAcc "vault" false false false;
    mkAcc "policy" true false false;
    mkAcc "constraints" true false false;
    mkAcc "pendingCloseConstraints" true false false ].

Definition ApplyCloseConstraints_asyncDefaults : list (string * acc_default) :=
  [ ("policy", DPda None [SBytes (seedString "policy"); SAccount "vault"]);
    ("constraints", DPda None [SBytes (seedString "constraints"); SAccount "vault"]);
    ("pendingCloseConstraints", DPda None [SBytes (seedString "pending_close_constraints"); SAccount "vault"]) ].

Definition ApplyCloseConstraints_ix : ix_spec :=
  mkIx "ApplyCloseConstraints" [133; 184; 235; 88; 53; 237; 43; 145]
    ApplyCloseConstraints_accounts
    []
    ApplyCloseConstraints_asyncDefaults [].

(** ** [ApplyConstraintsUpdate] *)
Definition ApplyConstraintsUpdate_accounts : list acc_spec :=
  [ mkAcc "owner" true true false;
    mkAcc "vault" false false false;
    mkAcc "policy" true false false;
    mkAcc "constraints" true false false;
    mkAcc "pendingConstraints" true false false ].

Definition ApplyConstraintsUpdate_asyncDefaults : list (string * acc_default) :=
  [ ("policy", DPda None [SBytes (seedString "policy"); SAccount "vault"]);
    ("constraints", DPda None [SBytes (seedString "constraints"); SAccount "vault"]);
    ("pendingConstraints", DPda None [SBytes (seedString "pending_constraints"); SAccount "vault"]) ].

Definition ApplyConstraintsUpdate_ix : ix_spec :=
  mkIx "ApplyConstraintsUpdate" [175; 103; 90; 155; 134; 91; 135; 242]
    ApplyConstraintsUpdate_accounts
    []
    ApplyConstraintsUpdate_asyncDefaults [].

(** ** [ApplyPendingPolicy] *)
Definition ApplyPendingPolicy_accounts : list acc_spec :=
  [ mkAcc "owner" true true false;
    mkAcc "vault" false false false;
    mkAcc "policy" true false false;
    mkAcc "pendingPolicy" true false false ].

Definition ApplyPendingPolicy_asyncDefaults : list (string * acc_default) :=
  [ ("policy", DPda None [SBytes (seedString "policy"); SAccount "vault"]);
    ("pendingPolicy", DPda None [SBytes (seedString "pending_policy"); SAccount "vault"]) ].

Definition ApplyPendingPolicy_ix : ix_spec :=
  mkIx "ApplyPendingPolicy" [114; 212; 19; 227; 89; 199; 74; 62]
    ApplyPendingPolicy_accounts
    []
    ApplyPendingPolicy_asyncDefaults [].

(** ** [CancelAgentPermissionsUpdate] *)
Definition CancelAgentPermissionsUpdate_accounts : list acc_spec :=
  [ mkAcc "owner" true true false;
    mkAcc "vault" false false false;
    mkAcc "pendingAgentPerms" true false false ].

Definition CancelAgentPermissionsUpdate_ix : ix_spec :=
  mkIx "CancelAgentPermissionsUpdate" [92; 232; 92; 115; 110; 238; 235; 55]
    CancelAgentPermissionsUpdate_accounts
    []
    [] [].

(** ** [CancelCloseConstraints] *)
Definition CancelCloseConstraints_accounts : list acc_spec :=
  [ mkAcc "owner" true true false;
    mkAcc "vault" false false false;
    mkAcc "pendingCloseConstraints" true false false ].

Definition CancelCloseConstraints_asyncDefaults : list (string * acc_default) :=
  [ ("pendingCloseConstraints", DPda None [SBytes (seedString "pending_close_constraints"); SAccount "vault"]) ].

Definition CancelCloseConstraints_ix : ix_spec :=
  mkIx "CancelCloseConstraints" [150; 125; 186; 114; 40; 105; 237; 184]
    CancelCloseConstraints_accounts
    []
    CancelCloseConstraints_asyncDefaults [].

(** ** [CancelConstraintsUpdate] *)
Definition CancelConstraintsUpdate_accounts : list acc_spec :=
  [ mkAcc "owner" true true false;
    mkAcc "vault" false false false;
    mkAcc "pendingConstraints" true false false ].

Definition CancelConstraintsUpdate_asyncDefaults : list (string * acc_default) :=
  [ ("pendingConstraints", DPda None [SBytes (seedString "pending_constraints"); SAccount "vault"]) ].

Definition CancelConstraintsUpdate_ix : ix_spec :=
  mkIx "CancelConstraintsUpdate" [169; 121; 85; 230; 154; 2; 78; 61]
    CancelConstraintsUpdate_accounts
    []
    CancelConstraintsUpdate_asyncDefaults [].

(** ** [CancelPendingPolicy] *)
Definition CancelPendingPolicy_accounts : list acc_spec :=
  [ mkAcc "owner" true true false;
    mkAcc "vault" false false false;
    mkAcc "policy" true false false;
    mkAcc "pendingPolicy" true false false ].

Definition CancelPendingPolicy_asyncDefaults : list (string * acc_default) :=
  [ ("policy", DPda None [SBytes (seedString "policy"); SAccount "vault"]);
    ("pendingPolicy", DPda None [SBytes (seedString "pending_policy"); SAccount "vault"]) ].

Definition CancelPendingPolicy_ix : ix_spec :=
  mkIx "CancelPendingPolicy" [153; 36; 104; 200; 50; 94; 207; 33]
    CancelPendingPolicy_accounts
    []
    CancelPendingPolicy_asyncDefaults [].

(** ** [CleanupOrphanConstraintsPda] *)
Definition CleanupOrphanConstraintsPda_accounts : list acc_spec :=
  [ mkAcc "owner" true true false;
    mkAcc "vault" false false false;
    mkAcc "policy" false false false;
    mkAcc "orphanPda" true false false ].

Definition CleanupOrphanConstraintsPda_asyncDefaults : list (string * acc_default) :=
  [ ("policy", DPda None [SBytes (seedString "policy"); SAccount "vault"]);
    ("orphanPda", DPda None [SBytes (seedString "constraints"); SAccount "vault"]) ].

Definition CleanupOrphanConstraintsPda_ix : ix_spec :=
  mkIx "CleanupOrphanConstraintsPda" [69; 181; 93; 235; 116; 229; 116; 4]
    CleanupOrphanConstraintsPda_accounts
    []
    CleanupOrphanConstraintsPda_asyncDefaults [].

(** ** [ClosePostAssertions] *)
Definition ClosePostAssertions_accounts : list acc_spec :=
  [ mkAcc "owner" true true false;
    mkAcc "vault" true false false;
    mkAcc "policy" true false false;
    mkAcc "postAssertions" true false false;
    mkAcc "systemProgram" false false false ].

Definition ClosePostAssertions_asyncDefaults : list (string * acc_default) :=
  [ ("policy", DPda None [SBytes (seedString "policy"); SAccount "vault"]);
    ("postAssertions", DPda None [SBytes (seedString "post_assertions"); SAccount "vault"]);
    ("systemProgram", DAddress SYSTEM_PROGRAM_ADDRESS) ].

Definition ClosePostAssertions_ix : ix_spec :=
  mkIx "ClosePostAssertions" [226; 172; 252; 173; 29; 236; 59; 248]
    ClosePostAssertions_accounts
    [("systemProgram", DAddress SYSTEM_PROGRAM_ADDRESS)]
    ClosePostAssertions_asyncDefaults [].

(** ** [CloseSettledEscrow] *)
Definition CloseSettledEscrow_args : struct_type :=
  [ ("escrowId", TU64) ].

Definition CloseSettledEscrow_accounts : list acc_spec :=
  [ mkAcc "signer" true true false;
    mkAcc "sourceVault" false false false;
    mkAcc "destinationVaultKey" false false false;
    mkAcc "escrow" true false false ].

Definition CloseSettledEscrow_asyncDefaults : list (string * acc_default) :=
  [ ("escrow", DPda None [SBytes (seedString "escrow"); SAccount "sourceVault"; SAccount "destinationVaultKey"; SArg "escrowId" TU64]) ].

Definition CloseSettledEscrow_ix : ix_spec :=
  mkIx "CloseSettledEscrow" [169; 244; 164; 173; 181; 214; 139; 6]
    CloseSettledEscrow_accounts
    []
    CloseSettledEscrow_asyncDefaults CloseSettledEscrow_args.

(** ** [CloseVault] *)
Definition CloseVault_accounts : list acc_spec :=
  [ mkAcc "owner" true true false;
    mkAcc "vault" true false false;
    mkAcc "policy" true false false;
    mkAcc "tracker" true false false;
    mkAcc "agentSpendOverlay" true false false;
    mkAcc "systemProgram" false false false ].

Definition CloseVault_asyncDefaults : list (string * acc_default) :=
  [ ("policy", DPda None [SBytes (seedString "policy"); SAccount "vault"]);
    ("tracker", DPda None [SBytes (seedString "tracker"); SAccount "vault"]);
    ("systemProgram", DAddress SYSTEM_PROGRAM_ADDRESS) ].

Definition CloseVault_ix : ix_spec :=
  mkIx "CloseVault" [141; 103; 17; 126; 72; 75; 29; 29]
    CloseVault_accounts
    [("systemProgram", DAddress SYSTEM_PROGRAM_ADDRESS)]
    CloseVault_asyncDefaults [].

(** ** [CreateEscrow] *)
Definition CreateEscrow_args : struct_type :=
  [ ("escrowId", TU64);
    ("amount", TU64);
    ("expiresAt", TI64);
    ("conditionHash", (TBytes 32)) ].

Definition CreateEscrow_accounts : list acc_spec :=
  [ mkAcc "agent" true true false;
    mkAcc "sourceVault" true false false;
    mkAcc "policy" false false false;
    mkAcc "tracker" true false false;
    mkAcc "agentSpendOverlay" true false false;
    mkAcc "destinationVault" false false false;
    mkAcc "escrow" true false false;
    mkAcc "sourceVaultAta" true false false;
    mkAcc "escrowAta" true false false;
    mkAcc "protocolTreasuryAta" true false true;
    mkAcc "feeDestinationAta" true false true;
    mkAcc "tokenMint" false false false;
    mkAcc "tokenProgram" false false false;
    mkAcc "systemProgram" false false false;
    mkAcc "associatedTokenProgram" false false false ].

Definition CreateEscrow_asyncDefaults : list (string * acc_default) :=
  [ ("policy", DPda None [SBytes (seedString "policy"); SAccount "sourceVault"]);
    ("tracker", DPda None [SBytes (seedString "tracker"); SAccount "sourceVault"]);
    ("escrow", DPda None [SBytes (seedString "escrow"); SAccount "sourceVault"; SAccount "destinationVault"; SArg "escrowId" TU64]);
    ("escrowAta", DPda (Some ATA_PROGRAM_ADDRESS) [SAccount "escrow"; SBytes TOKEN_PROGRAM_BYTES; SAccount "tokenMint"]);
    ("tokenProgram", DAddress TOKEN_PROGRAM_ADDRESS);
    ("systemProgram", DAddress SYSTEM_PROGRAM_ADDRESS);
    ("associatedTokenProgram", DAddress ATA_PROGRAM_ADDRESS) ].

Definition CreateEscrow_ix : ix_spec :=
  mkIx "CreateEscrow" [253; 215; 165; 116; 36; 108; 68; 80]
    CreateEscrow_accounts
    [("tokenProgram", DAddress TOKEN_PROGRAM_ADDRESS); ("systemProgram", DAddress SYSTEM_PROGRAM_ADDRESS); ("associatedTokenProgram", DAddress ATA_PROGRAM_ADDRESS)]
    CreateEscrow_asyncDefaults CreateEscrow_args.

(** ** [CreateInstructionConstraints] *)
Definition CreateInstructionConstraints_args : struct_type :=
  [ ("entries", (TVec ConstraintEntry_type));
    ("strictMode", TBool) ].

Definition CreateInstructionConstraints_accounts : list acc_spec :=
  [ mkAcc "owner" true true false;
    mkAcc "vault" false false false;
    mkAcc "policy" true false false;
    mkAcc "constraints" true false false ].

Definition CreateInstructionConstraints_asyncDefaults : list (string * acc_default) :=
  [ ("policy", DPda None [SBytes (seedString "policy"); SAccount "vault"]);
    ("constraints", DPda None [SBytes (seedString "constraints"); SAccount "vault"]) ].

Definition CreateInstructionConstraints_ix : ix_spec :=
  mkIx "CreateInstructionConstraints" [13; 182; 97; 5; 57; 136; 26; 152]
    CreateInstructionConstraints_accounts
    []
    CreateInstructionConstraints_asyncDefaults CreateInstructionConstraints_args.

(** ** [CreatePostAssertions] *)
Definition CreatePostAssertions_args : struct_type :=
  [ ("entries", (TVec PostAssertionEntry_type)) ].

Definition CreatePostAssertions_accounts : list acc_spec :=
  [ mkAcc "owner" true true false;
    mkAcc "vault" true false false;
    mkAcc "policy" true false false;
    mkAcc "postAssertions" true false false;
    mkAcc "systemProgram" false false false ].

Definition CreatePostAssertions_asyncDefaults : list (string * acc_default) :=
  [ ("policy", DPda None [SBytes (seedString "policy"); SAccount "vault"]);
    ("postAssertions", DPda None [SBytes (seedString "post_assertions"); SAccount "vault"]);
    ("systemProgram", DAddress SYSTEM_PROGRAM_ADDRESS) ].

Definition CreatePostAssertions_ix : ix_spec :=
  mkIx "CreatePostAssertions" [204; 21; 218; 182; 202; 140; 239; 63]
    CreatePostAssertions_accounts
    [("systemProgram", DAddress SYSTEM_PROGRAM_ADDRESS)]
    CreatePostAssertions_asyncDefaults CreatePostAssertions_args.

(** * The instructions of the program, D to W ([generated/instructions/*.ts])

    And the tables of [generated/programs/sigil.ts]. *)

(** ** [DepositFunds] *)
Definition DepositFunds_args : struct_type :=
  [ ("amount", TU64) ].

Definition DepositFunds_accounts : list acc_spec :=
  [ mkAcc "owner" true true false;
    mkAcc "vault" true false false;
    mkAcc "mint" false false false;
    mkAcc "ownerTokenAccount" true false false;
    mkAcc "vaultTokenAccount" true false false;
    mkAcc "tokenProgram" false false false;
    mkAcc "associatedTokenProgram" false false false;
    mkAcc "systemProgram" false false false ].

Definition DepositFunds_asyncDefaults : list (string * acc_default) :=
  [ ("ownerTokenAccount", DPda (Some ATA_PROGRAM_ADDRESS) [SAccount "owner"; SBytes TOKEN_PROGRAM_BYTES; SAccount "mint"]);
    ("vaultTokenAccount", DPda (Some ATA_PROGRAM_ADDRESS) [SAccount "vault"; SBytes TOKEN_PROGRAM_BYTES; SAccount "mint"]);
    ("tokenProgram", DAddress TOKEN_PROGRAM_ADDRESS);
    ("associatedTokenProgram", DAddress ATA_PROGRAM_ADDRESS);
    ("systemProgram", DAddress SYSTEM_PROGRAM_ADDRESS) ].

Definition DepositFunds_ix : ix_spec :=
  mkIx "DepositFunds" [202; 39; 52; 211; 53; 20; 250; 88]
    DepositFunds_accounts
    [("tokenProgram", DAddress TOKEN_PROGRAM_ADDRESS); ("associatedTokenProgram", DAddress ATA_PROGRAM_ADDRESS); ("systemProgram", DAddress SYSTEM_PROGRAM_ADDRESS)]
    DepositFunds_asyncDefaults DepositFunds_args.

(** ** [ExtendPda] *)
Definition ExtendPda_args : struct_type :=
  [ ("targetSize", TU32) ].

Definition ExtendPda_accounts : list acc_spec :=
  [ mkAcc "owner" true true false;
    mkAcc "vault" false false false;
    mkAcc "pda" true false false;
    mkAcc "systemProgram" false false false ].

Definition ExtendPda_ix : ix_spec :=
  mkIx "ExtendPda" [13; 211; 140; 90; 104; 28; 141; 200]
    ExtendPda_accounts
    [("systemProgram", DAddress SYSTEM_PROGRAM_ADDRESS)]
    [] ExtendPda_args.

(** ** [FinalizeSession] *)
Definition FinalizeSession_accounts : list acc_spec :=
  [ mkAcc "payer" true true false;
    mkAcc "vault" true false false;
    mkAcc "session" true false false;
    mkAcc "sessionRentRecipient" true false false;
    mkAcc "policy" false false false;
    mkAcc "tracker" true false false;
    mkAcc "agentSpendOverlay" true false false;
    mkAcc "vaultTokenAccount" true false true;
    mkAcc "outputStablecoinAccount" true false true;
    mkAcc "tokenProgram" false false false;
    mkAcc "systemProgram" false false false;
    mkAcc "instructionsSysvar" false false false ].

Definition FinalizeSession_asyncDefaults : list (string * acc_default) :=
  [ ("policy", DPda None [SBytes (seedString "policy"); SAccount "vault"]);
    ("tracker", DPda None [SBytes (seedString "tracker"); SAccount "vault"]);
    ("tokenProgram", DAddress TOKEN_PROGRAM_ADDRESS);
    ("systemProgram", DAddress SYSTEM_PROGRAM_ADDRESS);
    ("instructionsSysvar", DAddress INSTRUCTIONS_SYSVAR) ].

Definition FinalizeSession_ix : ix_spec :=
  mkIx "FinalizeSession" [34; 148; 144; 47; 37; 130; 206; 161]
    FinalizeSession_accounts
    [("tokenProgram", DAddress TOKEN_PROGRAM_ADDRESS); ("systemProgram", DAddress SYSTEM_PROGRAM_ADDRESS); ("instructionsSysvar", DAddress INSTRUCTIONS_SYSVAR)]
    FinalizeSession_asyncDefaults [].

(** ** [FreezeVault] *)
Definition FreezeVault_accounts : list acc_spec :=
  [ mkAcc "owner" false true false;
    mkAcc "vault" true false false;
    mkAcc "tokenProgram" false false false ].

Definition FreezeVault_ix : ix_spec :=
  mkIx "FreezeVault" [144; 211; 63; 236; 97; 31; 170; 175]
    FreezeVault_accounts
    [("tokenProgram", DAddress TOKEN_PROGRAM_ADDRESS)]
    [] [].

(** ** [InitializeVault] *)
Definition InitializeVault_args : struct_type :=
  [ ("vaultId", TU64);
    ("dailySpendingCapUsd", TU64);
    ("maxTransactionSizeUsd", TU64);
    ("protocolMode", TU8);
    ("protocols", (TVec TAddress));
    ("developerFeeRate", TU16);
    ("maxSlippageBps", TU16);
    ("timelockDuration", TU64);
    ("allowedDestinations", (TVec TAddress));
    ("protocolCaps", (TVec TU64)) ].

Definition InitializeVault_accounts : list acc_spec :=
  [ mkAcc "owner" true true false;
    mkAcc "vault" true false false;
    mkAcc "policy" true false false;
    mkAcc "tracker" true false false;
    mkAcc "agentSpendOverlay" true false false;
    mkAcc "feeDestination" false false false;
    mkAcc "systemProgram" false false false ].

Definition InitializeVault_asyncDefaults : list (string * acc_default) :=
  [ ("vault", DPda None [SBytes (seedString "vault"); SAccount "owner"; SArg "vaultId" TU64]);
    ("policy", DPda None [SBytes (seedString "policy"); SAccount "vault"]);
    ("tracker", DPda None [SBytes (seedString "tracker"); SAccount "vault"]);
    ("systemProgram", DAddress SYSTEM_PROGRAM_ADDRESS) ].

Definition InitializeVault_ix : ix_spec :=
  mkIx "InitializeVault" [48; 191; 163; 44; 71; 129; 63; 164]
    InitializeVault_accounts
    [("systemProgram", DAddress SYSTEM_PROGRAM_ADDRESS)]
    InitializeVault_asyncDefaults InitializeVault_args.

(** ** [PauseAgent] *)
Definition PauseAgent_args : struct_type :=
  [ ("agentToPause", TAddress) ].

Definition PauseAgent_accounts : list acc_spec :=
  [ mkAcc "owner" false true false;
    mkAcc "vault" true false false ].

Definition PauseAgent_ix : ix_spec :=
  mkIx "PauseAgent" [148; 32; 1; 26; 147; 122; 178; 140]
    PauseAgent_accounts
    []
    [] PauseAgent_args.

(** ** [QueueAgentPermissionsUpdate] *)
Definition QueueAgentPermissionsUpdate_args : struct_type :=
  [ ("agent", TAddress);
    ("newCapability", TU8);
    ("spendingLimitUsd", TU64) ].

Definition QueueAgentPermissionsUpdate_accounts : list acc_spec :=
  [ mkAcc "owner" true true false;
    mkAcc "vault" false false false;
    mkAcc "policy" false false false;
    mkAcc "pendingAgentPerms" true false false;
    mkAcc "systemProgram" false false false ].

Definition QueueAgentPermissionsUpdate_asyncDefaults : list (string * acc_default) :=
  [ ("policy", DPda None [SBytes (seedString "policy"); SAccount "vault"]);
    ("pendingAgentPerms", DPda None [SBytes (seedString "pending_agent_perms"); SAccount "vault"; SArg "agent" TAddress]);
    ("systemProgram", DAddress SYSTEM_PROGRAM_ADDRESS) ].

Definition QueueAgentPermissionsUpdate_ix : ix_spec :=
  mkIx "QueueAgentPermissionsUpdate" [182; 37; 105; 181; 28; 195; 223; 167]
    QueueAgentPermissionsUpdate_accounts
    [("systemProgram", DAddress SYSTEM_PROGRAM_ADDRESS)]
    QueueAgentPermissionsUpdate_asyncDefaults QueueAgentPermissionsUpdate_args.

(** ** [QueueCloseConstraints] *)
Definition QueueCloseConstraints_accounts : list acc_spec :=
  [ mkAcc "owner" true true false;
    mkAcc "vault" false false false;
    mkAcc "policy" false false false;
    mkAcc "constraints" false false false;
    mkAcc "pendingCloseConstraints" true false false;
    mkAcc "systemProgram" false false false ].

Definition QueueCloseConstraints_asyncDefaults : list (string * acc_default) :=
  [ ("policy", DPda None [SBytes (seedString "policy"); SAccount "vault"]);
    ("constraints", DPda None [SBytes (seedString "constraints"); SAccount "vault"]);
    ("pendingCloseConstraints", DPda None [SBytes (seedString "pending_close_constraints"); SAccount "vault"]);
    ("systemProgram", DAddress SYSTEM_PROGRAM_ADDRESS) ].

Definition QueueCloseConstraints_ix : ix_spec :=
  mkIx "QueueCloseConstraints" [248; 124; 93; 115; 195; 88; 11; 109]
    QueueCloseConstraints_accounts
    [("systemProgram", DAddress SYSTEM_PROGRAM_ADDRESS)]
    QueueCloseConstraints_asyncDefaults [].

(** ** [QueueConstraintsUpdate] *)
Definition QueueConstraintsUpdate_args : struct_type :=
  [ ("entries", (TVec ConstraintEntry_type));
    ("strictMode", TBool) ].

Definition QueueConstraintsUpdate_accounts : list acc_spec :=
  [ mkAcc "owner" true true false;
    mkAcc "vault" false false false;
    mkAcc "policy" false false false;
    mkAcc "constraints" false false false;
    mkAcc "pendingConstraints" true false false ].

Definition QueueConstraintsUpdate_asyncDefaults : list (string * acc_default) :=
  [ ("policy", DPda None [SBytes (seedString "policy"); SAccount "vault"]);
    ("constraints", DPda None [SBytes (seedString "constraints"); SAccount "vault"]);
    ("pendingConstraints", DPda None [SBytes (seedString "pending_constraints"); SAccount "vault"]) ].

Definition QueueConstraintsUpdate_ix : ix_spec :=
  mkIx "QueueConstraintsUpdate" [247; 253; 233; 93; 233; 54; 53; 131]
    QueueConstraintsUpdate_accounts
    []
    QueueConstraintsUpdate_asyncDefaults QueueConstraintsUpdate_args.

(** ** [QueuePolicyUpdate] *)
Definition QueuePolicyUpdate_args : struct_type :=
  [ ("dailySpendingCapUsd", (TOption TU64));
    ("maxTransactionAmountUsd", (TOption TU64));
    ("protocolMode", (TOption TU8));
    ("protocols", (TOption (TVec TAddress)));
    ("developerFeeRate", (TOption TU16));
    ("maxSlippageBps", (TOption TU16));
    ("timelockDuration", (TOption TU64));
    ("allowedDestinations", (TOption (TVec TAddress)));
    ("sessionExpirySeconds", (TOption TU64));
    ("hasProtocolCaps", (TOption TBool));
    ("protocolCaps", (TOption (TVec TU64)));
    ("destinationMode", (TOption TU8)) ].

Definition QueuePolicyUpdate_accounts : list acc_spec :=
  [ mkAcc "owner" true true false;
    mkAcc "vault" false false false;
    mkAcc "policy" true false false;
    mkAcc "pendingPolicy" true false false;
    mkAcc "systemProgram" false false false ].

Definition QueuePolicyUpdate_asyncDefaults : list (string * acc_default) :=
  [ ("policy", DPda None [SBytes (seedString "policy"); SAccount "vault"]);
    ("pendingPolicy", DPda None [SBytes (seedString "pending_policy"); SAccount "vault"]);
    ("systemProgram", DAddress SYSTEM_PROGRAM_ADDRESS) ].

Definition QueuePolicyUpdate_ix : ix_spec :=
  mkIx "QueuePolicyUpdate" [149; 18; 76; 197; 179; 193; 91; 77]
    QueuePolicyUpdate_accounts
    [("systemProgram", DAddress SYSTEM_PROGRAM_ADDRESS)]
    QueuePolicyUpdate_asyncDefaults QueuePolicyUpdate_args.

(** ** [ReactivateVault] *)
Definition ReactivateVault_args : struct_type :=
  [ ("newAgent", (TOption TAddress));
    ("newAgentCapability", (TOption TU8)) ].

Definition ReactivateVault_accounts : list acc_spec :=
  [ mkAcc "owner" false true false;
    mkAcc "vault" true false false ].

Definition ReactivateVault_ix : ix_spec :=
  mkIx "ReactivateVault" [245; 50; 143; 70; 114; 220; 25; 251]
    ReactivateVault_accounts
    []
    [] ReactivateVault_args.

(** ** [RefundEscrow] *)
Definition RefundEscrow_accounts : list acc_spec :=
  [ mkAcc "sourceSigner" true true false;
    mkAcc "sourceVault" true false false;
    mkAcc "escrow" true false false;
    mkAcc "escrowAta" true false false;
    mkAcc "sourceVaultAta" true false false;
    mkAcc "rentDestination" true false false;
    mkAcc "tokenMint" false false false;
    mkAcc "tokenProgram" false false false ].

Definition RefundEscrow_asyncDefaults : list (string * acc_default) :=
  [ ("escrowAta", DPda (Some ATA_PROGRAM_ADDRESS) [SAccount "escrow"; SBytes TOKEN_PROGRAM_BYTES; SAccount "tokenMint"]);
    ("tokenProgram", DAddress TOKEN_PROGRAM_ADDRESS) ].

Definition RefundEscrow_ix : ix_spec :=
  mkIx "RefundEscrow" [107; 186; 89; 99; 26; 194; 23; 204]
    RefundEscrow_accounts
    [("tokenProgram", DAddress TOKEN_PROGRAM_ADDRESS)]
    RefundEscrow_asyncDefaults [].

(** ** [RegisterAgent] *)
Definition RegisterAgent_args : struct_type :=
  [ ("agent", TAddress);
    ("capability", TU8);
    ("spendingLimitUsd", TU64) ].

Definition RegisterAgent_accounts : list acc_spec :=
  [ mkAcc "owner" false true false;
    mkAcc "vault" true false false;
    mkAcc "agentSpendOverlay" true false false ].

Definition RegisterAgent_ix : ix_spec :=
  mkIx "RegisterAgent" [135; 157; 66; 195; 2; 113; 175; 30]
    RegisterAgent_accounts
    []
    [] RegisterAgent_args.

(** ** [RevokeAgent] *)
Definition RevokeAgent_args : struct_type :=
  [ ("agentToRemove", TAddress) ].

Definition RevokeAgent_accounts : list acc_spec :=
  [ mkAcc "owner" false true false;
    mkAcc "vault" true false false;
    mkAcc "agentSpendOverlay" true false false ].

Definition RevokeAgent_ix : ix_spec :=
  mkIx "RevokeAgent" [227; 60; 209; 125; 240; 117; 163; 73]
    RevokeAgent_accounts
    []
    [] RevokeAgent_args.

(** ** [SettleEscrow] *)
Definition SettleEscrow_args : struct_type :=
  [ ("proof", TBlob) ].

Definition SettleEscrow_accounts : list acc_spec :=
  [ mkAcc "destinationAgent" true true false;
    mkAcc "destinationVault" false false false;
    mkAcc "sourceVault" true false false;
    mkAcc "escrow" true false false;
    mkAcc "escrowAta" true false false;
    mkAcc "destinationVaultAta" true false false;
    mkAcc "rentDestination" true false false;
    mkAcc "tokenMint" false false false;
    mkAcc "tokenProgram" false false false ].

Definition SettleEscrow_asyncDefaults : list (string * acc_default) :=
  [ ("escrowAta", DPda (Some ATA_PROGRAM_ADDRESS) [SAccount "escrow"; SBytes TOKEN_PROGRAM_BYTES; SAccount "tokenMint"]);
    ("tokenProgram", DAddress TOKEN_PROGRAM_ADDRESS) ].

Definition SettleEscrow_ix : ix_spec :=
  mkIx "SettleEscrow" [22; 135; 160; 194; 23; 186; 124; 110]
    SettleEscrow_accounts
    [("tokenProgram", DAddress TOKEN_PROGRAM_ADDRESS)]
    SettleEscrow_asyncDefaults SettleEscrow_args.

(** ** [UnpauseAgent] *)
Definition UnpauseAgent_args : struct_type :=
  [ ("agentToUnpause", TAddress) ].

Definition UnpauseAgent_accounts : list acc_spec :=
  [ mkAcc "owner" false true false;
    mkAcc "vault" true false false ].

Definition UnpauseAgent_ix : ix_spec :=
  mkIx "UnpauseAgent" [46; 125; 165; 212; 241; 143; 190; 95]
    UnpauseAgent_accounts
    []
    [] UnpauseAgent_args.

(** ** [ValidateAndAuthorize] *)
Definition ValidateAndAuthorize_args : struct_type :=
  [ ("tokenMint", TAddress);
    ("amount", TU64);
    ("targetProtocol", TAddress);
    ("expectedPolicyVersion", TU64) ].

Definition ValidateAndAuthorize_accounts : list acc_spec :=
  [ mkAcc "agent" true true false;
    mkAcc "vault" true false false;
    mkAcc "policy" false false false;
    mkAcc "tracker" true false false;
    mkAcc "agentSpendOverlay" true false false;
    mkAcc "session" true false false;
    mkAcc "vaultTokenAccount" true false false;
    mkAcc "tokenMintAccount" false false false;
    mkAcc "protocolTreasuryTokenAccount" true false true;
    mkAcc "feeDestinationTokenAccount" true false true;
    mkAcc "outputStablecoinAccount" true false true;
    mkAcc "tokenProgram" false false false;
    mkAcc "systemProgram" false false false;
    mkAcc "instructionsSysvar" false false false ].

Definition ValidateAndAuthorize_asyncDefaults : list (string * acc_default) :=
  [ ("policy", DPda None [SBytes (seedString "policy"); SAccount "vault"]);
    ("tracker", DPda None [SBytes (seedString "tracker"); SAccount "vault"]);
    ("session", DPda None [SBytes (seedString "session"); SAccount "vault"; SAccount "agent"; SArg "tokenMint" TAddress]);
    ("tokenProgram", DAddress TOKEN_PROGRAM_ADDRESS);
    ("systemProgram", DAddress SYSTEM_PROGRAM_ADDRESS);
    ("instructionsSysvar", DAddress INSTRUCTIONS_SYSVAR) ].

Definition ValidateAndAuthorize_ix : ix_spec :=
  mkIx "ValidateAndAuthorize" [22; 183; 48; 222; 218; 11; 197; 152]
    ValidateAndAuthorize_accounts
    [("tokenProgram", DAddress TOKEN_PROGRAM_ADDRESS); ("systemProgram", DAddress SYSTEM_PROGRAM_ADDRESS); ("instructionsSysvar", DAddress INSTRUCTIONS_SYSVAR)]
    ValidateAndAuthorize_asyncDefaults ValidateAndAuthorize_args.

(** ** [WithdrawFunds] *)
Definition WithdrawFunds_args : struct_type :=
  [ ("amount", TU64) ].

Definition WithdrawFunds_accounts : list acc_spec :=
  [ mkAcc "owner" true true false;
    mkAcc "vault" true false false;
    mkAcc "mint" false false false;
    mkAcc "vaultTokenAccount" true false false;
    mkAcc "ownerTokenAccount" true false false;
    mkAcc "tokenProgram" false false false ].

Definition WithdrawFunds_asyncDefaults : list (string * acc_default) :=
  [ ("vaultTokenAccount", DPda (Some ATA_PROGRAM_ADDRESS) [SAccount "vault"; SBytes TOKEN_PROGRAM_BYTES; SAccount "mint"]);
    ("ownerTokenAccount", DPda (Some ATA_PROGRAM_ADDRESS) [SAccount "owner"; SBytes TOKEN_PROGRAM_BYTES; SAccount "mint"]);
    ("tokenProgram", DAddress TOKEN_PROGRAM_ADDRESS) ].

Definition WithdrawFunds_ix : ix_spec :=
  mkIx "WithdrawFunds" [241; 36; 29; 111; 208; 31; 104; 217]
    WithdrawFunds_accounts
    [("tokenProgram", DAddress TOKEN_PROGRAM_ADDRESS)]
    WithdrawFunds_asyncDefaults WithdrawFunds_args.

(** ** The program *)
Definition SIGIL_INSTRUCTIONS : list ix_spec :=
  [ AgentTransfer_ix;
    AllocateConstraintsPda_ix;
    AllocatePendingConstraintsPda_ix;
    ApplyAgentPermissionsUpdate_ix;
    ApplyCloseConstraints_ix;
    ApplyConstraintsUpdate_ix;
    ApplyPendingPolicy_ix;
    CancelAgentPermissionsUpdate_ix;
    CancelCloseConstraints_ix;
    CancelConstraintsUpdate_ix;
    CancelPendingPolicy_ix;
    CleanupOrphanConstraintsPda_ix;
    ClosePostAssertions_ix;
    CloseSettledEscrow_ix;
    CloseVault_ix;
    CreateEscrow_ix;
    CreateInstructionConstraints_ix;
    CreatePostAssertions_ix;
    DepositFunds_ix;
    ExtendPda_ix;
    FinalizeSession_ix;
    FreezeVault_ix;
    InitializeVault_ix;
    PauseAgent_ix;
    QueueAgentPermissionsUpdate_ix;
    QueueCloseConstraints_ix;
    QueueConstraintsUpdate_ix;
    QueuePolicyUpdate_ix;
    ReactivateVault_ix;
    RefundEscrow_ix;
    RegisterAgent_ix;
    RevokeAgent_ix;
    SettleEscrow_ix;
    UnpauseAgent_ix;
    ValidateAndAuthorize_ix;
    WithdrawFunds_ix ].

(** The order in which [identifySigilInstruction] tries the discriminators. *)
Definition INSTRUCTION_DISCRIMINATORS_1 : list (string * bytes) :=
  [ ("AgentTransfer", [199; 111; 151; 49; 124; 13; 150; 44]);
    ("AllocateConstraintsPda", [55; 127; 43; 98; 168; 156; 152; 157]);
    ("AllocatePendingConstraintsPda", [211; 244; 224; 20; 224; 183; 236; 165]);
    ("ApplyAgentPermissionsUpdate", [234; 166; 205; 3; 28; 166; 221; 240]);
    ("ApplyCloseConstraints", [133; 184; 235; 88; 53; 237; 43; 145]);
    ("ApplyConstraintsUpdate", [175; 103; 90; 155; 134; 91; 135; 242]);
    ("ApplyPendingPolicy", [114; 212; 19; 227; 89; 199; 74; 62]);
    ("CancelAgentPermissionsUpdate", [92; 232; 92; 115; 110; 238; 235; 55]);
    ("CancelCloseConstraints", [150; 125; 186; 114; 40; 105; 237; 184]);
    ("CancelConstraintsUpdate", [169; 121; 85; 230; 154; 2; 78; 61]);
    ("CancelPendingPolicy", [153; 36; 104; 200; 50; 94; 207; 33]);
    ("CleanupOrphanConstraintsPda", [69; 181; 93; 235; 116; 229; 116; 4]);
    ("ClosePostAssertions", [226; 172; 252; 173; 29; 236; 59; 248]) ].

Definition INSTRUCTION_DISCRIMINATORS_2 : list (string * bytes) :=
  [ ("CloseSettledEscrow", [169; 244; 164; 173; 181; 214; 139; 6]);
    ("CloseVault", [141; 103; 17; 126; 72; 75; 29; 29]);
    ("CreateEscrow", [253; 215; 165; 116; 36; 108; 68; 80]);
    ("CreateInstructionConstraints", [13; 182; 97; 5; 57; 136; 26; 152]);
    ("CreatePostAssertions", [204; 21; 218; 182; 202; 140; 239; 63]);
    ("DepositFunds", [202; 39; 52; 211; 53; 20; 250; 88]);
    ("ExtendPda", [13; 211; 140; 90; 104; 28; 141; 200]);
    ("FinalizeSession", [34; 148; 144; 47; 37; 130; 206; 161]);
    ("FreezeVault", [144; 211; 63; 236; 97; 31; 170; 175]);
    ("InitializeVault", [48; 191; 163; 44; 71; 129; 63; 164]);
    ("PauseAgent", [148; 32; 1; 26; 147; 122; 178; 140]);
    ("QueueAgentPermissionsUpdate", [182; 37; 105; 181; 28; 195; 223; 167]) ].

Definition INSTRUCTION_DISCRIMINATORS_3 : list (string * bytes) :=
  [ ("QueueCloseConstraints", [248; 124; 93; 115; 195; 88; 11; 109]);
    ("QueueConstraintsUpdate", [247; 253; 233; 93; 233; 54; 53; 131]);
    ("QueuePolicyUpdate", [149; 18; 76; 197; 179; 193; 91; 77]);
    ("ReactivateVault", [245; 50; 143; 70; 114; 220; 25; 251]);
    ("RefundEscrow", [107; 186; 89; 99; 26; 194; 23; 204]);
    ("RegisterAgent", [135; 157; 66; 195; 2; 113; 175; 30]);
    ("RevokeAgent", [227; 60; 209; 125; 240; 117; 163; 73]);
    ("SettleEscrow", [22; 135; 160; 194; 23; 186; 124; 110]);
    ("UnpauseAgent", [46; 125; 165; 212; 241; 143; 190; 95]);
    ("ValidateAndAuthorize", [22; 183; 48; 222; 218; 11; 197; 152]);
    ("WithdrawFunds", [241; 36; 29; 111; 208; 31; 104; 217]) ].

Definition INSTRUCTION_DISCRIMINATORS : list (string * bytes) :=
  INSTRUCTION_DISCRIMINATORS_1 ++ INSTRUCTION_DISCRIMINATORS_2 ++ INSTRUCTION_DISCRIMINATORS_3.

(** The cases of [parseSigilInstruction]: the instruction type and the parser of that type. *)
Definition PARSE_CASES_1 : list (string * ix_spec) :=
  [ ("AgentTransfer", AgentTransfer_ix);
    ("AllocateConstraintsPda", AllocateConstraintsPda_ix);
    ("AllocatePendingConstraintsPda", AllocatePendingConstraintsPda_ix);
    ("ApplyAgentPermissionsUpdate", ApplyAgentPermissionsUpdate_ix);
    ("ApplyCloseConstraints", ApplyCloseConstraints_ix);
    ("ApplyConstraintsUpdate", ApplyConstraintsUpdate_ix);
    ("ApplyPendingPolicy", ApplyPendingPolicy_ix);
    ("CancelAgentPermissionsUpdate", CancelAgentPermissionsUpdate_ix);
    ("CancelCloseConstraints", CancelCloseConstraints_ix);
    ("CancelConstraintsUpdate", CancelConstraintsUpdate_ix);
    ("CancelPendingPolicy", CancelPendingPolicy_ix);
    ("CleanupOrphanConstraintsPda", CleanupOrphanConstraintsPda_ix);
    ("ClosePostAssertions", ClosePostAssertions_ix);
    ("CloseSettledEscrow", CloseSettledEscrow_ix);
    ("CloseVault", CloseVault_ix);
    ("CreateEscrow", CreateEscrow_ix);
    ("CreateInstructionConstraints", CreateInstructionConstraints_ix);
    ("CreatePostAssertions", CreatePostAssertions_ix) ].

Definition PARSE_CASES_2 : list (string * ix_spec) :=
  [ ("DepositFunds", DepositFunds_ix);
    ("ExtendPda", ExtendPda_ix);
    ("FinalizeSession", FinalizeSession_ix);
    ("FreezeVault", FreezeVault_ix);
    ("InitializeVault", InitializeVault_ix);
    ("PauseAgent", PauseAgent_ix);
    ("QueueAgentPermissionsUpdate", QueueAgentPermissionsUpdate_ix);
    ("QueueCloseConstraints", QueueCloseConstraints_ix);
    ("QueueConstraintsUpdate", QueueConstraintsUpdate_ix);
    ("QueuePolicyUpdate", QueuePolicyUpdate_ix);
    ("ReactivateVault", ReactivateVault_ix);
    ("RefundEscrow", RefundEscrow_ix);
    ("RegisterAgent", RegisterAgent_ix);
    ("RevokeAgent", RevokeAgent_ix);
    ("SettleEscrow", SettleEscrow_ix);
    ("UnpauseAgent", UnpauseAgent_ix);
    ("ValidateAndAuthorize", ValidateAndAuthorize_ix);
    ("WithdrawFunds", WithdrawFunds_ix) ].

Definition PARSE_CASES : list (string * ix_spec) := PARSE_CASES_1 ++ PARSE_CASES_2.

Definition ACCOUNT_DISCRIMINATORS : list (string * bytes) :=
  [ ("AgentSpendOverlay", [126; 248; 13; 218; 101; 148; 135; 44]);
    ("AgentVault", [232; 220; 237; 164; 157; 9; 215; 194]);
    ("EscrowDeposit", [56; 152; 208; 160; 159; 83; 6; 17]);
    ("InstructionConstraints", [183; 235; 149; 166; 174; 58; 98; 218]);
    ("PendingAgentPermissionsUpdate", [137; 132; 60; 184; 171; 184; 194; 56]);
    ("PendingCloseConstraints", [128; 154; 58; 181; 85; 163; 243; 233]);
    ("PendingConstraintsUpdate", [22; 206; 77; 208; 147; 121; 53; 174]);
    ("PendingPolicyUpdate", [77; 255; 2; 51; 79; 237; 183; 239]);
    ("PolicyConfig", [219; 7; 79; 84; 175; 51; 148; 146]);
    ("PostExecutionAssertions", [1; 104; 4; 208; 143; 120; 4; 77]);
    ("SessionAuthority", [48; 9; 30; 120; 134; 35; 172; 170]);
    ("SpendTracker", [180; 17; 195; 180; 162; 207; 239; 205]) ].

Section program.
Context `{env : PdaEnv} `{lib : ClientLib}.

Definition identifySigilInstruction (data : bytes) : res client_error string :=
  identify INSTRUCTION_DISCRIMINATORS data.

Definition identifySigilAccount (data : bytes) : res client_error string :=
  identify ACCOUNT_DISCRIMINATORS data.

Definition spec_named (name : string) : res client_error ix_spec :=
  or_throw (snd <$> find_by (fun c => bool_decide (c.1 = name)) PARSE_CASES) UnidentifiedInstruction.

Definition parseSigilInstruction (ix : Instruction) : res client_error ParsedInstruction :=
  name ← identifySigilInstruction (default [] (ins_data ix));
  sp ← spec_named name;
  parseInstruction sp ix.
End program.
