(* ===== verification/ProgramAccounts.v ===== *)
(** * The instructions as the program declares them ([programs/sigil/src])

    The accounts of each [#[derive(Accounts)]] struct, in order, with what the attributes say
    of them ([mut] or [init], [Signer], [Option]), and the arguments of the entry point in
    [lib.rs]; names in the client's spelling. *)

From S2P Require Import Prelude Types Accounts Bytes Pdas Composer Codecs Instructions InstructionTable.
Local Open Scope string_scope.
Local Open Scope Z_scope.
Local Open Scope list_scope.

Record program_ix := mkProgramIx {
  pg_name : string;
  pg_accounts : list acc_spec;
  pg_args : struct_type;
}.

Definition program_AgentTransfer : program_ix :=
  mkProgramIx "AgentTransfer"
    [ mkAcc "agent" true true false;
      mkAcc "vault" true false false;
      mkAcc "policy" false false false;
      mkAcc "tracker" true false false;
      mkAcc "agentSpendOverlay" true false false;
      mkAcc "vaultTokenAccount" true false false;
      mkAcc "tokenMintAccount" false false false;
      mkAcc "destinationTokenAccount" true false false;
      mkAcc "feeDestinationTokenAccount" true false true;
      mkAcc "protocolTreasuryTokenAccount" true false true;
      mkAcc "tokenProgram" false false false ]
    [("amount", TU64);
     ("expectedPolicyVersion", TU64)].

Definition program_AllocateConstraintsPda : program_ix :=
  mkProgramIx "AllocateConstraintsPda"
    [ mkAcc "owner" true true false;
      mkAcc "vault" false false false;
      mkAcc "policy" false false false;
      mkAcc "constraints" true false false;
      mkAcc "systemProgram" false false false ]
    [].

Definition program_AllocatePendingConstraintsPda : program_ix :=
  mkProgramIx "AllocatePendingConstraintsPda"
    [ mkAcc "owner" true true false;
      mkAcc "vault" false false false;
      mkAcc "policy" false false false;
      mkAcc "constraints" false false false;
      mkAcc "pendingConstraints" true false false;
      mkAcc "systemProgram" false false false ]
    [].

Definition program_ApplyAgentPermissionsUpdate : program_ix :=
  mkProgramIx "ApplyAgentPermissionsUpdate"
    [ mkAcc "owner" true true false;
      mkAcc "vault" true false false;
      mkAcc "policy" true false false;
      mkAcc "pendingAgentPerms" true false false;
      mkAcc "agentSpendOverlay" true false false ]
    [].

Definition program_ApplyCloseConstraints : program_ix :=
  mkProgramIx "ApplyCloseConstraints"
    [ mkAcc "owner" true true false;
      mkAcc "vault" false false false;
      mkAcc "policy" true false false;
      mkAcc "constraints" true false false;
      mkAcc "pendingCloseConstraints" true false false ]
    [].

Definition program_ApplyConstraintsUpdate : program_ix :=
  mkProgramIx "ApplyConstraintsUpdate"
    [ mkAcc "owner" true true false;
      mkAcc "vault" false false false;
      mkAcc "policy" true false false;
      mkAcc "constraints" true false false;
      mkAcc "pendingConstraints" true false false ]
    [].

Definition program_ApplyPendingPolicy : program_ix :=
  mkProgramIx "ApplyPendingPolicy"
    [ mkAcc "owner" true true false;
      mkAcc "vault" false false false;
      mkAcc "policy" true false false;
      mkAcc "pendingPolicy" true false false ]
    [].

Definition program_CancelAgentPermissionsUpdate : program_ix :=
  mkProgramIx "CancelAgentPermissionsUpdate"
    [ mkAcc "owner" true true false;
      mkAcc "vault" false false false;
      mkAcc "pendingAgentPerms" true false false ]
    [].

Definition program_CancelCloseConstraints : program_ix :=
  mkProgramIx "CancelCloseConstraints"
    [ mkAcc "owner" true true false;
      mkAcc "vault" false false false;
      mkAcc "pendingCloseConstraints" true false false ]
    [].

Definition program_CancelConstraintsUpdate : program_ix :=
  mkProgramIx "CancelConstraintsUpdate"
    [ mkAcc "owner" true true false;
      mkAcc "vault" false false false;
      mkAcc "pendingConstraints" true false false ]
    [].

Definition program_CancelPendingPolicy : program_ix :=
  mkProgramIx "CancelPendingPolicy"
    [ mkAcc "owner" true true false;
      mkAcc "vault" false false false;
      mkAcc "policy" true false false;
      mkAcc "pendingPolicy" true false false ]
    [].

Definition program_CleanupOrphanConstraintsPda : program_ix :=
  mkProgramIx "CleanupOrphanConstraintsPda"
    [ mkAcc "owner" true true false;
      mkAcc "vault" false false false;
      mkAcc "policy" false false false;
      mkAcc "orphanPda" true false false ]
    [].

Definition program_ClosePostAssertions : program_ix :=
  mkProgramIx "ClosePostAssertions"
    [ mkAcc "owner" true true false;
      mkAcc "vault" true false false;
      mkAcc "policy" true false false;
      mkAcc "postAssertions" true false false;
      mkAcc "systemProgram" false false false ]
    [].

Definition program_CloseSettledEscrow : program_ix :=
  mkProgramIx "CloseSettledEscrow"
    [ mkAcc "signer" true true false;
      mkAcc "sourceVault" false false false;
      mkAcc "destinationVaultKey" false false false;
      mkAcc "escrow" true false false ]
    [("escrowId", TU64)].

Definition program_CloseVault : program_ix :=
  mkProgramIx "CloseVault"
    [ mkAcc "owner" true true false;
      mkAcc "vault" true false false;
      mkAcc "policy" true false false;
      mkAcc "tracker" true false false;
      mkAcc "agentSpendOverlay" true false false;
      mkAcc "systemProgram" false false false ]
    [].

Definition program_CreateEscrow : program_ix :=
  mkProgramIx "CreateEscrow"
    [ mkAcc "agent" true true false;
      mkAcc "sourceVault" true false false;
      mkAcc "policy" false false false;
      mkAcc "tracker" true false false;
      mkAcc "agentSpendOverlay" true false false;
      mkAcc "destinationVault" false false false;
      mkAcc "escrow" true false false;
      mkAcc "sourceVaultAta" true false false;
      mkAcc "escrowAta" true false false;
      mkAcc "protocolTreasuryAta" true false true;
      mkAcc "feeDestinationAta" true false true;
      mkAcc "tokenMint" false false false;
      mkAcc "tokenProgram" false false false;
      mkAcc "systemProgram" false false false;
      mkAcc "associatedTokenProgram" false false false ]
    [("escrowId", TU64);
     ("amount", TU64);
     ("expiresAt", TI64);
     ("conditionHash", (TBytes 32))].

Definition program_CreateInstructionConstraints : program_ix :=
  mkProgramIx "CreateInstructionConstraints"
    [ mkAcc "owner" true true false;
      mkAcc "vault" false false false;
      mkAcc "policy" true false false;
      mkAcc "constraints" true false false ]
    [("entries", (TVec ConstraintEntry_type));
     ("strictMode", TBool)].

Definition program_CreatePostAssertions : program_ix :=
  mkProgramIx "CreatePostAssertions"
    [ mkAcc "owner" true true false;
      mkAcc "vault" true false false;
      mkAcc "policy" true false false;
      mkAcc "postAssertions" true false false;
      mkAcc "systemProgram" false false false ]
    [("entries", (TVec PostAssertionEntry_type))].

Definition program_DepositFunds : program_ix :=
  mkProgramIx "DepositFunds"
    [ mkAcc "owner" true true false;
      mkAcc "vault" true false false;
      mkAcc "mint" false false false;
      mkAcc "ownerTokenAccount" true false false;
      mkAcc "vaultTokenAccount" true false false;
      mkAcc "tokenProgram" false false false;
      mkAcc "associatedTokenProgram" false false false;
      mkAcc "systemProgram" false false false ]
    [("amount", TU64)].

Definition program_ExtendPda : program_ix :=
  mkProgramIx "ExtendPda"
    [ mkAcc "owner" true true false;
      mkAcc "vault" false false false;
      mkAcc "pda" true false false;
      mkAcc "systemProgram" false false false ]
    [("targetSize", TU32)].

Definition program_FinalizeSession : program_ix :=
  mkProgramIx "FinalizeSession"
    [ mkAcc "payer" true true false;
      mkAcc "vault" true false false;
      mkAcc "session" true false false;
      mkAcc "sessionRentRecipient" true false false;
      mkAcc "policy" false false false;
      mkAcc "tracker" true false false;
      mkAcc "agentSpendOverlay" true false false;
      mkAcc "vaultTokenAccount" true false true;
      mkAcc "outputStablecoinAccount" true false true;
      mkAcc "tokenProgram" false false false;
      mkAcc "systemProgram" false false false;
      mkAcc "instructionsSysvar" false false false ]
    [].

Definition program_FreezeVault : program_ix :=
  mkProgramIx "FreezeVault"
    [ mkAcc "owner" false true false;
      mkAcc "vault" true false false;
      mkAcc "tokenProgram" false false false ]
    [].

Definition program_InitializeVault : program_ix :=
  mkProgramIx "InitializeVault"
    [ mkAcc "owner" true true false;
      mkAcc "vault" true false false;
      mkAcc "policy" true false false;
      mkAcc "tracker" true false false;
      mkAcc "agentSpendOverlay" true false false;
      mkAcc "feeDestination" false false false;
      mkAcc "systemProgram" false false false ]
    [("vaultId", TU64);
     ("dailySpendingCapUsd", TU64);
     ("maxTransactionSizeUsd", TU64);
     ("protocolMode", TU8);
     ("protocols", (TVec TAddress));
     ("developerFeeRate", TU16);
     ("maxSlippageBps", TU16);
     ("timelockDuration", TU64);
     ("allowedDestinations", (TVec TAddress));
     ("protocolCaps", (TVec TU64))].

Definition program_PauseAgent : program_ix :=
  mkProgramIx "PauseAgent"
    [ mkAcc "owner" false true false;
      mkAcc "vault" true false false ]
    [("agentToPause", TAddress)].

Definition program_QueueAgentPermissionsUpdate : program_ix :=
  mkProgramIx "QueueAgentPermissionsUpdate"
    [ mkAcc "owner" true true false;
      mkAcc "vault" false false false;
      mkAcc "policy" false false false;
      mkAcc "pendingAgentPerms" true false false;
      mkAcc "systemProgram" false false false ]
    [("agent", TAddress);
     ("newCapability", TU8);
     ("spendingLimitUsd", TU64)].

Definition program_QueueCloseConstraints : program_ix :=
  mkProgramIx "QueueCloseConstraints"
    [ mkAcc "owner" true true false;
      mkAcc "vault" false false false;
      mkAcc "policy" false false false;
      mkAcc "constraints" false false false;
      mkAcc "pendingCloseConstraints" true false false;
      mkAcc "systemProgram" false false false ]
    [].

Definition program_QueueConstraintsUpdate : program_ix :=
  mkProgramIx "QueueConstraintsUpdate"
    [ mkAcc "owner" true true false;
      mkAcc "vault" false false false;
      mkAcc "policy" false false false;
      mkAcc "constraints" false false false;
      mkAcc "pendingConstraints" true false false ]
    [("entries", (TVec ConstraintEntry_type));
     ("strictMode", TBool)].

Definition program_QueuePolicyUpdate : program_ix :=
  mkProgramIx "QueuePolicyUpdate"
    [ mkAcc "owner" true true false;
      mkAcc "vault" false false false;
      mkAcc "policy" true false false;
      mkAcc "pendingPolicy" true false false;
      mkAcc "systemProgram" false false false ]
    [("dailySpendingCapUsd", (TOption TU64));
     ("maxTransactionAmountUsd", (TOption TU64));
     ("protocolMode", (TOption TU8));
     ("protocols", (TOption (TVec TAddress)));
     ("developerFeeRate", (TOption TU16));
     ("maxSlippageBps", (TOption TU16));
     ("timelockDuration", (TOption TU64));
     ("allowedDestinations", (TOption (TVec TAddress)));
     ("sessionExpirySeconds", (TOption TU64));
     ("hasProtocolCaps", (TOption TBool));
     ("protocolCaps", (TOption (TVec TU64)));
     ("destinationMode", (TOption TU8))].

Definition program_ReactivateVault : program_ix :=
  mkProgramIx "ReactivateVault"
    [ mkAcc "owner" false true false;
      mkAcc "vault" true false false ]
    [("newAgent", (TOption TAddress));
     ("newAgentCapability", (TOption TU8))].

Definition program_RefundEscrow : program_ix :=
  mkProgramIx "RefundEscrow"
    [ mkAcc "sourceSigner" true true false;
      mkAcc "sourceVault" true false false;
      mkAcc "escrow" true false false;
      mkAcc "escrowAta" true false false;
      mkAcc "sourceVaultAta" true false false;
      mkAcc "rentDestination" true false false;
      mkAcc "tokenMint" false false false;
      mkAcc "tokenProgram" false false false ]
    [].

Definition program_RegisterAgent : program_ix :=
  mkProgramIx "RegisterAgent"
    [ mkAcc "owner" false true false;
      mkAcc "vault" true false false;
      mkAcc "agentSpendOverlay" true false false ]
    [("agent", TAddress);
     ("capability", TU8);
     ("spendingLimitUsd", TU64)].

Definition program_RevokeAgent : program_ix :=
  mkProgramIx "RevokeAgent"
    [ mkAcc "owner" false true false;
      mkAcc "vault" true false false;
      mkAcc "agentSpendOverlay" true false false ]
    [("agentToRemove", TAddress)].

Definition program_SettleEscrow : program_ix :=
  mkProgramIx "SettleEscrow"
    [ mkAcc "destinationAgent" true true false;
      mkAcc "destinationVault" false false false;
      mkAcc "sourceVault" true false false;
      mkAcc "escrow" true false false;
      mkAcc "escrowAta" true false false;
      mkAcc "destinationVaultAta" true false false;
      mkAcc "rentDestination" true false false;
      mkAcc "tokenMint" false false false;
      mkAcc "tokenProgram" false false false ]
    [("proof", TBlob)].

Definition program_UnpauseAgent : program_ix :=
  mkProgramIx "UnpauseAgent"
    [ mkAcc "owner" false true false;
      mkAcc "vault" true false false ]
    [("agentToUnpause", TAddress)].

Definition program_ValidateAndAuthorize : program_ix :=
  mkProgramIx "ValidateAndAuthorize"
    [ mkAcc "agent" true true false;
      mkAcc "vault" true false false;
      mkAcc "policy" false false false;
      mkAcc "tracker" true false false;
      mkAcc "agentSpendOverlay" true false false;
      mkAcc "session" true false false;
      mkAcc "vaultTokenAccount" true false false;
      mkAcc "tokenMintAccount" false false false;
      mkAcc "protocolTreasuryTokenAccount" true false true;
      mkAcc "feeDestinationTokenAccount" true false true;
      mkAcc "outputStablecoinAccount" true false true;
      mkAcc "tokenProgram" false false false;
      mkAcc "systemProgram" false false false;
      mkAcc "instructionsSysvar" false false false ]
    [("tokenMint", TAddress);
     ("amount", TU64);
     ("targetProtocol", TAddress);
     ("expectedPolicyVersion", TU64)].

Definition program_WithdrawFunds : program_ix :=
  mkProgramIx "WithdrawFunds"
    [ mkAcc "owner" true true false;
      mkAcc "vault" true false false;
      mkAcc "mint" false false false;
      mkAcc "vaultTokenAccount" true false false;
      mkAcc "ownerTokenAccount" true false false;
      mkAcc "tokenProgram" false false false ]
    [("amount", TU64)].

Definition PROGRAM_INSTRUCTIONS : list program_ix :=
  [ program_AgentTransfer;
    program_AllocateConstraintsPda;
    program_AllocatePendingConstraintsPda;
    program_ApplyAgentPermissionsUpdate;
    program_ApplyCloseConstraints;
    program_ApplyConstraintsUpdate;
    program_ApplyPendingPolicy;
    program_CancelAgentPermissionsUpdate;
    program_CancelCloseConstraints;
    program_CancelConstraintsUpdate;
    program_CancelPendingPolicy;
    program_CleanupOrphanConstraintsPda;
    program_ClosePostAssertions;
    program_CloseSettledEscrow;
    program_CloseVault;
    program_CreateEscrow;
    program_CreateInstructionConstraints;
    program_CreatePostAssertions;
    program_DepositFunds;
    program_ExtendPda;
    program_FinalizeSession;
    program_FreezeVault;
    program_InitializeVault;
    program_PauseAgent;
    program_QueueAgentPermissionsUpdate;
    program_QueueCloseConstraints;
    program_QueueConstraintsUpdate;
    program_QueuePolicyUpdate;
    program_ReactivateVault;
    program_RefundEscrow;
    program_RegisterAgent;
    program_RevokeAgent;
    program_SettleEscrow;
    program_UnpauseAgent;
    program_ValidateAndAuthorize;
    program_WithdrawFunds ].
