(* ===== verification/AccountLayouts.v ===== *)
(** * The accounts of the program ([generated/accounts/*.ts], [programs/sigil/src/state])

    The layout behind each account's discriminator: as the client decodes it ([X_layout]) and
    as the program declares it ([X_state]), in the client's spelling. *)

From S2P Require Import Prelude Types Accounts Bytes Pdas Composer Codecs Instructions InstructionTable.
Local Open Scope string_scope.
Local Open Scope Z_scope.
Local Open Scope list_scope.

(** ** Nested structs *)
Definition AgentContributionEntry_type : ctype :=
  TStruct [ ("agent", (TBytes 32));
            ("lastWriteEpoch", TI64);
            ("contributions", (TArray 24 TU64)) ].

Definition AgentEntry_type : ctype :=
  TStruct [ ("pubkey", TAddress);
            ("capability", TU8);
            ("spendingLimitUsd", TU64);
            ("paused", TBool);
            ("reserved", (TBytes 7)) ].

Definition VaultStatus_type : ctype := TEnum 3.

Definition EscrowStatus_type : ctype := TEnum 3.

Definition DataConstraintZC_type : ctype :=
  TStruct [ ("offset", TU16);
            ("operator", TU8);
            ("valueLen", TU8);
            ("value", (TBytes 32));
            ("padding", (TBytes 4)) ].

Definition AccountConstraintZC_type : ctype :=
  TStruct [ ("expected", (TBytes 32));
            ("index", TU8);
            ("isWritableRequired", TU8);
            ("padding", (TBytes 6)) ].

Definition ConstraintEntryZC_type : ctype :=
  TStruct [ ("programId", (TBytes 32));
            ("dataConstraints", (TArray 8 DataConstraintZC_type));
            ("accountConstraints", (TArray 5 AccountConstraintZC_type));
            ("dataCount", TU8);
            ("accountCount", TU8);
            ("reservedWasIsSpending", TU8);
            ("discriminatorFormat", TU8);
            ("padding", (TBytes 4)) ].

Definition PostAssertionEntryZC_type : ctype :=
  TStruct [ ("targetAccount", (TBytes 32));
            ("offset", TU16);
            ("valueLen", TU8);
            ("operator", TU8);
            ("expectedValue", (TBytes 32));
            ("assertionMode", TU8);
            ("crossFieldOffsetB", (TBytes 2));
            ("crossFieldMultiplierBps", (TBytes 4));
            ("crossFieldFlags", TU8) ].

Definition EpochBucket_type : ctype :=
  TStruct [ ("epochId", TI64);
            ("usdAmount", TU64) ].

Definition ProtocolSpendCounter_type : ctype :=
  TStruct [ ("protocol", (TBytes 32));
            ("windowStart", TI64);
            ("windowSpend", TU64) ].

(** ** As the client decodes them *)
Definition AgentSpendOverlay_layout : struct_type :=
  [ ("vault", TAddress);
    ("entries", (TArray 10 AgentContributionEntry_type));
    ("bump", TU8);
    ("padding", (TBytes 7));
    ("lifetimeSpend", (TArray 10 TU64));
    ("lifetimeTxCount", (TArray 10 TU64)) ].

Definition AgentVault_layout : struct_type :=
  [ ("owner", TAddress);
    ("vaultId", TU64);
    ("agents", (TVec AgentEntry_type));
    ("feeDestination", TAddress);
    ("status", VaultStatus_type);
    ("bump", TU8);
    ("createdAt", TI64);
    ("totalTransactions", TU64);
    ("totalVolume", TU64);
    ("activeEscrowCount", TU8);
    ("totalFeesCollected", TU64);
    ("totalDepositedUsd", TU64);
    ("totalWithdrawnUsd", TU64);
    ("totalFailedTransactions", TU64);
    ("activeSessions", TU8) ].

Definition EscrowDeposit_layout : struct_type :=
  [ ("sourceVault", TAddress);
    ("destinationVault", TAddress);
    ("escrowId", TU64);
    ("amount", TU64);
    ("tokenMint", TAddress);
    ("createdAt", TI64);
    ("expiresAt", TI64);
    ("status", EscrowStatus_type);
    ("conditionHash", (TBytes 32));
    ("bump", TU8) ].

Definition InstructionConstraints_layout : struct_type :=
  [ ("vault", (TBytes 32));
    ("entries", (TArray 64 ConstraintEntryZC_type));
    ("entryCount", TU8);
    ("strictMode", TU8);
    ("bump", TU8);
    ("constraintVersion", TU8);
    ("padding", (TBytes 4)) ].

Definition PendingAgentPermissionsUpdate_layout : struct_type :=
  [ ("vault", TAddress);
    ("agent", TAddress);
    ("newCapability", TU8);
    ("reservedCap", (TBytes 7));
    ("spendingLimitUsd", TU64);
    ("queuedAt", TI64);
    ("executesAt", TI64);
    ("queuedAtSlot", TU64);
    ("bump", TU8) ].

Definition PendingCloseConstraints_layout : struct_type :=
  [ ("vault", TAddress);
    ("queuedAt", TI64);
    ("executesAt", TI64);
    ("queuedAtSlot", TU64);
    ("bump", TU8) ].

Definition PendingConstraintsUpdate_layout : struct_type :=
  [ ("vault", (TBytes 32));
    ("entries", (TArray 64 ConstraintEntryZC_type));
    ("entryCount", TU8);
    ("strictMode", TU8);
    ("bump", TU8);
    ("padding", (TBytes 5));
    ("queuedAt", TI64);
    ("executesAt", TI64);
    ("queuedAtSlot", TU64) ].

Definition PendingPolicyUpdate_layout : struct_type :=
  [ ("vault", TAddress);
    ("queuedAt", TI64);
    ("executesAt", TI64);
    ("queuedAtSlot", TU64);
    ("dailySpendingCapUsd", (TOption TU64));
    ("maxTransactionAmountUsd", (TOption TU64));
    ("protocolMode", (TOption TU8));
    ("protocols", (TOption (TVec TAddress)));
    ("developerFeeRate", (TOption TU16));
    ("maxSlippageBps", (TOption TU16));
    ("timelockDuration", (TOption TU64));
    ("allowedDestinations", (TOption (TVec TAddress)));
    ("sessionExpirySeconds", (TOption TU64));
    ("hasProtocolCaps", (TOption TBool));
    ("protocolCaps", (TOption (TVec TU64)));
    ("destinationMode", (TOption TU8));
    ("bump", TU8) ].

Definition PolicyConfig_layout : struct_type :=
  [ ("vault", TAddress);
    ("dailySpendingCapUsd", TU64);
    ("maxTransactionSizeUsd", TU64);
    ("protocolMode", TU8);
    ("protocols", (TVec TAddress));
    ("developerFeeRate", TU16);
    ("maxSlippageBps", TU16);
    ("timelockDuration", TU64);
    ("allowedDestinations", (TVec TAddress));
    ("hasConstraints", TBool);
    ("hasPendingPolicy", TBool);
    ("hasProtocolCaps", TBool);
    ("protocolCaps", (TVec TU64));
    ("sessionExpirySeconds", TU64);
    ("bump", TU8);
    ("policyVersion", TU64);
    ("hasPostAssertions", TU8);
    ("destinationMode", TU8) ].

Definition PostExecutionAssertions_layout : struct_type :=
  [ ("vault", (TBytes 32));
    ("entries", (TArray 4 PostAssertionEntryZC_type));
    ("entryCount", TU8);
    ("bump", TU8);
    ("padding", (TBytes 6)) ].

Definition SessionAuthority_layout : struct_type :=
  [ ("vault", TAddress);
    ("agent", TAddress);
    ("authorized", TBool);
    ("authorizedAmount", TU64);
    ("authorizedToken", TAddress);
    ("authorizedProtocol", TAddress);
    ("isSpending", TBool);
    ("expiresAtTimestamp", TI64);
    ("delegated", TBool);
    ("delegationTokenAccount", TAddress);
    ("protocolFee", TU64);
    ("developerFee", TU64);
    ("outputMint", TAddress);
    ("stablecoinBalanceBefore", TU64);
    ("bump", TU8);
    ("assertionSnapshots", (TArray 4 (TBytes 32)));
    ("snapshotLens", (TBytes 4)) ].

Definition SpendTracker_layout : struct_type :=
  [ ("vault", TAddress);
    ("buckets", (TArray 144 EpochBucket_type));
    ("protocolCounters", (TArray 10 ProtocolSpendCounter_type));
    ("lastWriteEpoch", TI64);
    ("bump", TU8);
    ("padding", (TBytes 7)) ].

(** ** As the program declares them *)
Definition AgentSpendOverlay_state : struct_type :=
  [ ("vault", TAddress);
    ("entries", (TArray 10 AgentContributionEntry_type));
    ("bump", TU8);
    ("padding", (TBytes 7));
    ("lifetimeSpend", (TArray 10 TU64));
    ("lifetimeTxCount", (TArray 10 TU64)) ].

Definition AgentVault_state : struct_type :=
  [ ("owner", TAddress);
    ("vaultId", TU64);
    ("agents", (TVec AgentEntry_type));
    ("feeDestination", TAddress);
    ("status", VaultStatus_type);
    ("bump", TU8);
    ("createdAt", TI64);
    ("totalTransactions", TU64);
    ("totalVolume", TU64);
    ("activeEscrowCount", TU8);
    ("totalFeesCollected", TU64);
    ("totalDepositedUsd", TU64);
    ("totalWithdrawnUsd", TU64);
    ("totalFailedTransactions", TU64);
    ("activeSessions", TU8) ].

Definition EscrowDeposit_state : struct_type :=
  [ ("sourceVault", TAddress);
    ("destinationVault", TAddress);
    ("escrowId", TU64);
    ("amount", TU64);
    ("tokenMint", TAddress);
    ("createdAt", TI64);
    ("expiresAt", TI64);
    ("status", EscrowStatus_type);
    ("conditionHash", (TBytes 32));
    ("bump", TU8) ].

Definition InstructionConstraints_state : struct_type :=
  [ ("vault", (TBytes 32));
    ("entries", (TArray 64 ConstraintEntryZC_type));
    ("entryCount", TU8);
    ("strictMode", TU8);
    ("bump", TU8);
    ("constraintVersion", TU8);
    ("padding", (TBytes 4)) ].

Definition PendingAgentPermissionsUpdate_state : struct_type :=
  [ ("vault", TAddress);
    ("agent", TAddress);
    ("newCapability", TU8);
    ("reservedCap", (TBytes 7));
    ("spendingLimitUsd", TU64);
    ("queuedAt", TI64);
    ("executesAt", TI64);
    ("queuedAtSlot", TU64);
    ("bump", TU8) ].

Definition PendingCloseConstraints_state : struct_type :=
  [ ("vault", TAddress);
    ("queuedAt", TI64);
    ("executesAt", TI64);
    ("queuedAtSlot", TU64);
    ("bump", TU8) ].

Definition PendingConstraintsUpdate_state : struct_type :=
  [ ("vault", (TBytes 32));
    ("entries", (TArray 64 ConstraintEntryZC_type));
    ("entryCount", TU8);
    ("strictMode", TU8);
    ("bump", TU8);
    ("padding", (TBytes 5));
    ("queuedAt", TI64);
    ("executesAt", TI64);
    ("queuedAtSlot", TU64) ].

Definition PendingPolicyUpdate_state : struct_type :=
  [ ("vault", TAddress);
    ("queuedAt", TI64);
    ("executesAt", TI64);
    ("queuedAtSlot", TU64);
    ("dailySpendingCapUsd", (TOption TU64));
    ("maxTransactionAmountUsd", (TOption TU64));
    ("protocolMode", (TOption TU8));
    ("protocols", (TOption (TVec TAddress)));
    ("developerFeeRate", (TOption TU16));
    ("maxSlippageBps", (TOption TU16));
    ("timelockDuration", (TOption TU64));
    ("allowedDestinations", (TOption (TVec TAddress)));
    ("sessionExpirySeconds", (TOption TU64));
    ("hasProtocolCaps", (TOption TBool));
    ("protocolCaps", (TOption (TVec TU64)));
    ("destinationMode", (TOption TU8));
    ("bump", TU8) ].

Definition PolicyConfig_state : struct_type :=
  [ ("vault", TAddress);
    ("dailySpendingCapUsd", TU64);
    ("maxTransactionSizeUsd", TU64);
    ("protocolMode", TU8);
    ("protocols", (TVec TAddress));
    ("developerFeeRate", TU16);
    ("maxSlippageBps", TU16);
    ("timelockDuration", TU64);
    ("allowedDestinations", (TVec TAddress));
    ("hasConstraints", TBool);
    ("hasPendingPolicy", TBool);
    ("hasProtocolCaps", TBool);
    ("protocolCaps", (TVec TU64));
    ("sessionExpirySeconds", TU64);
    ("bump", TU8);
    ("policyVersion", TU64);
    ("hasPostAssertions", TU8);
    ("destinationMode", TU8) ].

Definition PostExecutionAssertions_state : struct_type :=
  [ ("vault", (TBytes 32));
    ("entries", (TArray 4 PostAssertionEntryZC_type));
    ("entryCount", TU8);
    ("bump", TU8);
    ("padding", (TBytes 6)) ].

Definition SessionAuthority_state : struct_type :=
  [ ("vault", TAddress);
    ("agent", TAddress);
    ("authorized", TBool);
    ("authorizedAmount", TU64);
    ("authorizedToken", TAddress);
    ("authorizedProtocol", TAddress);
    ("isSpending", TBool);
    ("expiresAtTimestamp", TI64);
    ("delegated", TBool);
    ("delegationTokenAccount", TAddress);
    ("protocolFee", TU64);
    ("developerFee", TU64);
    ("outputMint", TAddress);
    ("stablecoinBalanceBefore", TU64);
    ("bump", TU8);
    ("assertionSnapshots", (TArray 4 (TBytes 32)));
    ("snapshotLens", (TBytes 4)) ].

Definition SpendTracker_state : struct_type :=
  [ ("vault", TAddress);
    ("buckets", (TArray 144 EpochBucket_type));
    ("protocolCounters", (TArray 10 ProtocolSpendCounter_type));
    ("lastWriteEpoch", TI64);
    ("bump", TU8);
    ("padding", (TBytes 7)) ].

Definition client_layouts : list (string * struct_type) :=
  [ ("AgentSpendOverlay", AgentSpendOverlay_layout);
    ("AgentVault", AgentVault_layout);
    ("EscrowDeposit", EscrowDeposit_layout);
    ("InstructionConstraints", InstructionConstraints_layout);
    ("PendingAgentPermissionsUpdate", PendingAgentPermissionsUpdate_layout);
    ("PendingCloseConstraints", PendingCloseConstraints_layout);
    ("PendingConstraintsUpdate", PendingConstraintsUpdate_layout);
    ("PendingPolicyUpdate", PendingPolicyUpdate_layout);
    ("PolicyConfig", PolicyConfig_layout);
    ("PostExecutionAssertions", PostExecutionAssertions_layout);
    ("SessionAuthority", SessionAuthority_layout);
    ("SpendTracker", SpendTracker_layout) ].

Definition program_layouts : list (string * struct_type) :=
  [ ("AgentSpendOverlay", AgentSpendOverlay_state);
    ("AgentVault", AgentVault_state);
    ("EscrowDeposit", EscrowDeposit_state);
    ("InstructionConstraints", InstructionConstraints_state);
    ("PendingAgentPermissionsUpdate", PendingAgentPermissionsUpdate_state);
    ("PendingCloseConstraints", PendingCloseConstraints_state);
    ("PendingConstraintsUpdate", PendingConstraintsUpdate_state);
    ("PendingPolicyUpdate", PendingPolicyUpdate_state);
    ("PolicyConfig", PolicyConfig_state);
    ("PostExecutionAssertions", PostExecutionAssertions_state);
    ("SessionAuthority", SessionAuthority_state);
    ("SpendTracker", SpendTracker_state) ].
