(* ===== verification/InstructionSpec.v ===== *)
(** * What the instruction builders promise

    The client's tables against the program's declarations, the round trip through builder and
    parser, and the default accounts against the SDK's own derivations. *)

From S2P Require Import Prelude Types Accounts Bytes Pdas AltLoader Composer Codecs Instructions InstructionTable ProgramAccounts AccountLayouts.
Local Open Scope string_scope.
Local Open Scope Z_scope.
Local Open Scope list_scope.

(** ** The tables *)
Definition client_ix (sp : ix_spec) : program_ix := mkProgramIx (ix_name sp) (ix_accounts sp) (ix_args sp).

Lemma discriminators_distinct : NoDup INSTRUCTION_DISCRIMINATORS.*2.
Proof. apply (bool_decide_unpack _). vm_compute. exact I. Qed.

(** C26: the generated client and the program agree on every instruction: the same 36
    instructions, each with the same accounts in the same order, writable, signer and optional
    exactly where the program declares them so, and the same arguments with the same codecs;
    the discriminators [identifySigilInstruction] tries are those of the builders, eight bytes
    each and pairwise different. The twelve account decoders read the fields the program's
    state structs declare, in their order and with their types, and no two account kinds share
    a discriminator. *)
Theorem client_matches_program :
  client_ix <$> SIGIL_INSTRUCTIONS = PROGRAM_INSTRUCTIONS /\
  INSTRUCTION_DISCRIMINATORS = (fun sp => (ix_name sp, ix_discriminator sp)) <$> SIGIL_INSTRUCTIONS /\
  NoDup INSTRUCTION_DISCRIMINATORS.*2 /\
  Forall (fun d => length d = 8%nat) INSTRUCTION_DISCRIMINATORS.*2 /\
  client_layouts = program_layouts /\
  ACCOUNT_DISCRIMINATORS.*1 = client_layouts.*1 /\
  NoDup ACCOUNT_DISCRIMINATORS.*2.
Proof.
  split_and!.
  - reflexivity.
  - reflexivity.
  - apply discriminators_distinct.
  - repeat constructor.
  - reflexivity.
  - reflexivity.
  - apply (bool_decide_unpack _). vm_compute. exact I.
Qed.

(** ** Helpers *)
Lemma find_by_unique {A} (p : A -> bool) l x :
  x ∈ l -> p x = true -> (forall y, y ∈ l -> p y = true -> y = x) -> find_by p l = Some x.
Proof.
  intros Hx Hp Hu. destruct (find_by p l) as [y|] eqn:E.
  - apply find_by_some in E as [Hy Hpy]. f_equal. by apply Hu.
  - apply find_by_none in E. rewrite Forall_forall in E. specialize (E x Hx). congruence.
Qed.

Lemma jm_get_set {V} k k' (v : V) m :
  jm_get k' (jm_set k v m) = if decide (k = k') then Some v else jm_get k' m.
Proof. case_decide as H; [subst; apply jm_get_set_eq|by apply jm_get_set_ne]. Qed.

Section spec.
Context `{env : PdaEnv} `{lib : !ClientLib} `{laws : !ClientLaws lib}.

Lemma in_table sp : sp ∈ SIGIL_INSTRUCTIONS ->
  (ix_name sp, ix_discriminator sp) ∈ INSTRUCTION_DISCRIMINATORS /\
  length (ix_discriminator sp) = 8%nat.
Proof.
  intros H. assert (Hin : (ix_name sp, ix_discriminator sp) ∈ INSTRUCTION_DISCRIMINATORS).
  { change INSTRUCTION_DISCRIMINATORS
      with ((fun sp => (ix_name sp, ix_discriminator sp)) <$> SIGIL_INSTRUCTIONS).
    apply list_elem_of_fmap. eauto. }
  split; [done|].
  assert (Hl : forallb (fun e => Nat.eqb (length e.2) 8) INSTRUCTION_DISCRIMINATORS = true)
    by (vm_compute; reflexivity).
  rewrite forallb_forall in Hl. apply Nat.eqb_eq.
  exact (Hl _ (proj1 (list_elem_of_In _ _) Hin)).
Qed.

Lemma contains_disc d rest e :
  length d = 8%nat -> e ∈ INSTRUCTION_DISCRIMINATORS ->
  containsBytes (d ++ rest) e.2 0 = true -> e.2 = d.
Proof.
  intros Hd He H. apply containsBytes_at in H. rewrite drop_0 in H.
  assert (Hl : length e.2 = 8%nat).
  { assert (Hf : forallb (fun e => Nat.eqb (length e.2) 8) INSTRUCTION_DISCRIMINATORS = true)
      by (vm_compute; reflexivity).
    rewrite forallb_forall in Hf. apply Nat.eqb_eq, Hf, list_elem_of_In, He. }
  rewrite <- H. rewrite Hl, <- Hd. apply take_app_length.
Qed.

Lemma identify_built sp rest : sp ∈ SIGIL_INSTRUCTIONS ->
  identifySigilInstruction (ix_discriminator sp ++ rest) = Ok (ix_name sp).
Proof.
  intros Hsp. destruct (in_table sp Hsp) as [Hin Hlen].
  unfold identifySigilInstruction, identify.
  rewrite (find_by_unique _ _ (ix_name sp, ix_discriminator sp)); [done|done| |].
  - apply containsBytes_at. cbn [snd]. rewrite drop_0. apply take_app_length.
  - intros [n d] Hy Hc. apply (contains_disc _ _ _ Hlen Hy) in Hc. cbn [snd] in Hc. subst d.
    pose proof discriminators_distinct as Hnd.
    f_equal. apply list_elem_of_lookup in Hy as [i Hi], Hin as [j Hj].
    assert (i = j) as ->; [|congruence].
    apply (NoDup_lookup INSTRUCTION_DISCRIMINATORS.*2 i j (ix_discriminator sp)); [done|..];
      rewrite list_lookup_fmap; [rewrite Hi|rewrite Hj]; done.
Qed.

Lemma spec_named_table sp : sp ∈ SIGIL_INSTRUCTIONS -> spec_named (ix_name sp) = Ok sp.
Proof.
  intros Hsp. unfold spec_named.
  change PARSE_CASES with ((fun sp => (ix_name sp, sp)) <$> SIGIL_INSTRUCTIONS).
  rewrite (find_by_unique _ _ (ix_name sp, sp)); [done| |by apply bool_decide_eq_true|].
  { apply list_elem_of_fmap. eauto. }
  intros c (sp' & -> & Hsp')%list_elem_of_fmap He%bool_decide_eq_true. cbn in He. f_equal; [done|].
  apply list_elem_of_lookup in Hsp as [i Hi], Hsp' as [j Hj].
  assert (Hnd : NoDup (ix_name <$> SIGIL_INSTRUCTIONS))
    by (apply (bool_decide_unpack _); vm_compute; exact I).
  assert (i = j) as ->; [|congruence].
  apply (NoDup_lookup _ i j (ix_name sp) Hnd); rewrite list_lookup_fmap, ?Hi, ?Hj; cbn; congruence.
Qed.

(** ** Default accounts *)
Definition given (input : jsmap Address) (name : string) : Prop :=
  exists a, jm_get name input = Some a.

Lemma resolve_keeps ds args accs accs' name :
  resolve_defaults ds args accs = Ok accs' -> given accs name -> given accs' name.
Proof.
  revert accs. induction ds as [|[k d] ds IH]; intros accs H [a Ha]; cbn [resolve_defaults] in H.
  { injection H as <-. by exists a. }
  destruct (missing accs k); [|apply (IH accs H); by exists a].
  apply bind_ok_inv in H as (v & _ & H). apply (IH _ H). unfold given. rewrite jm_get_set.
  case_decide; eauto.
Qed.

Lemma resolve_fills ds args accs accs' name :
  resolve_defaults ds args accs = Ok accs' -> name ∈ ds.*1 -> given accs' name.
Proof.
  revert accs. induction ds as [|[k d] ds IH]; intros accs H Hin; cbn [resolve_defaults] in H.
  { by apply elem_of_nil in Hin. }
  cbn in Hin. apply elem_of_cons in Hin as [->|Hin].
  - destruct (missing accs k) eqn:Hm.
    + apply bind_ok_inv in H as (v & _ & H). apply (resolve_keeps _ _ _ _ _ H).
      exists v. apply jm_get_set_eq.
    + apply (resolve_keeps _ _ _ _ _ H). unfold missing in Hm.
      destruct (jm_get k accs) as [a|] eqn:E; [by exists a|done].
  - destruct (missing accs k); [|by apply (IH accs)].
    apply bind_ok_inv in H as (v & _ & H). by apply (IH _ H).
Qed.

(** What the input type demands: every account that is neither optional nor has a default. *)
Definition required_given (ds : list (string * acc_default)) (sp : ix_spec) (input : jsmap Address)
    : Prop :=
  Forall (fun a => as_optional a = true \/ as_name a ∈ ds.*1 \/ given input (as_name a)) (ix_accounts sp).

(** The account a parser returns for a resolved one. *)
Definition parsed_account (accs : jsmap Address) (a : acc_spec) : string * option AccountMeta :=
  (as_name a,
   x ← jm_get (as_name a) accs;
   if as_optional a && bool_decide (x = SIGIL_PROGRAM_ID) then None
   else Some (mkMeta x (role_of (as_writable a) (as_signer a)) None)).

Lemma parse_meta accs a :
  as_optional a = true \/ given accs (as_name a) ->
  parse_account a (account_meta accs a) = parsed_account accs a.
Proof.
  intros H. unfold parse_account, parsed_account, account_meta. f_equal.
  destruct (jm_get (as_name a) accs) as [x|] eqn:E; cbn [fmap option_fmap option_map mbind option_bind].
  - rewrite getAccountMeta_some. cbn [am_address]. done.
  - destruct H as [->|[x Hx]]; [|congruence].
    by rewrite getAccountMeta_none, bool_decide_true.
Qed.

Lemma parse_metas accs (l : list acc_spec) :
  Forall (fun a => as_optional a = true \/ given accs (as_name a)) l ->
  zip_with parse_account l (account_meta accs <$> l) = parsed_account accs <$> l.
Proof.
  induction 1 as [|a l Ha _ IH]; [done|]. cbn. by rewrite parse_meta, IH.
Qed.

(** C25: an instruction any of the client's builders makes is recognised and taken apart again:
    for each of the 36 instructions, parsing what the builder returned gives that instruction,
    exactly the resolved accounts under their names with their roles (an optional account that
    was left out is absent again), and exactly the arguments. *)
Theorem parse_built_instruction sp ds input args ix :
  sp ∈ SIGIL_INSTRUCTIONS ->
  required_given ds sp input ->
  typed_fields (ix_args sp) args = true ->
  build ds sp input args = Ok ix ->
  exists accs, resolve_defaults ds args input = Ok accs /\
    parseSigilInstruction ix =
      Ok (mkParsed (ix_name sp) (parsed_account accs <$> ix_accounts sp) (data_value sp args)).
Proof.
  intros Hsp Hreq Hty Hb. unfold build in Hb.
  apply bind_ok_inv in Hb as (accs & Hr & Hb). apply bind_ok_inv in Hb as (data & Hd & Hb).
  injection Hb as <-. exists accs. split; [done|].
  destruct (in_table sp Hsp) as [_ Hlen].
  assert (Htd : typed_fields (data_type sp) (data_value sp args) = true).
  { cbn. rewrite bool_decide_true, Hlen by done. exact Hty. }
  destruct (encode_typed _ _ Htd) as (bs & Hbs & Hdec). rewrite Hbs in Hd. injection Hd as <-.
  assert (Hpre : exists rest, bs = ix_discriminator sp ++ rest).
  { unfold data_type, data_value in Hbs. rewrite encode_bytes_field in Hbs by done.
    apply fmap_Some in Hbs as (rest & _ & ->). eauto. }
  destruct Hpre as [rest Hrest]. unfold parseSigilInstruction. cbn [ins_data default from_option].
  unfold id. rewrite Hrest at 1. rewrite identify_built by done. cbn [mbind res_bind].
  rewrite spec_named_table by done. cbn [mbind res_bind]. unfold parseInstruction.
  cbn [ins_accounts ins_data default from_option]. unfold id.
  rewrite length_fmap, (proj2 (Nat.ltb_ge _ _)) by done. cbn [throw_if mbind res_bind].
  rewrite Hdec. cbn [or_throw mbind res_bind]. f_equal. f_equal. apply parse_metas.
  eapply Forall_impl; [exact Hreq|]. intros a [Ho|[Hin|Hg]]; [by left|right..].
  - by eapply resolve_fills.
  - by eapply resolve_keeps.
Qed.

(** ** The default addresses against [resolve-accounts.ts] and [tokens.ts] *)
Definition arg_address (args : struct_val) (name : string) (a : Address) : Prop :=
  jm_get name args = Some (VlAddr a).
Definition arg_u64 (args : struct_val) (name : string) (z : Z) : Prop :=
  jm_get name args = Some (VlInt z).

(** The account of the program a default stands for, given the accounts resolved so far. *)
Inductive default_kind (accs : jsmap Address) (args : struct_val) : string -> pda_kind -> Prop :=
  | dk_vault o n : jm_get "owner" accs = Some o -> arg_u64 args "vaultId" n ->
      default_kind accs args "vault" (KVault o n)
  | dk_policy k v : jm_get k accs = Some v -> k = "vault" \/ k = "sourceVault" ->
      default_kind accs args "policy" (KPolicy v)
  | dk_tracker k v : jm_get k accs = Some v -> k = "vault" \/ k = "sourceVault" ->
      default_kind accs args "tracker" (KTracker v)
  | dk_session v a m : jm_get "vault" accs = Some v -> jm_get "agent" accs = Some a ->
      arg_address args "tokenMint" m -> default_kind accs args "session" (KSession v a m)
  | dk_pendingPolicy v : jm_get "vault" accs = Some v ->
      default_kind accs args "pendingPolicy" (KPendingPolicy v)
  | dk_escrow k s d n : jm_get "sourceVault" accs = Some s -> jm_get k accs = Some d ->
      k = "destinationVault" \/ k = "destinationVaultKey" -> arg_u64 args "escrowId" n -> default_kind accs args "escrow" (KEscrow s d n)
  | dk_constraints v : jm_get "vault" accs = Some v ->
      default_kind accs args "constraints" (KConstraints v)
  | dk_orphan v : jm_get "vault" accs = Some v ->
      default_kind accs args "orphanPda" (KConstraints v)
  | dk_pendingConstraints v : jm_get "vault" accs = Some v ->
      default_kind accs args "pendingConstraints" (KPendingConstraints v)
  | dk_pendingCloseConstraints v : jm_get "vault" accs = Some v ->
      default_kind accs args "pendingCloseConstraints" (KPendingCloseConstraints v).

(** A default associated token account: its owner's and mint's accounts. *)
Definition default_ata (name : string) : option (string * string) :=
  jm_get name [("escrowAta", ("escrow", "tokenMint")); ("ownerTokenAccount", ("owner", "mint"));
               ("vaultTokenAccount", ("vault", "mint"))].

(** The arguments a default is derived from have their types. *)
Definition seed_typed (args : struct_val) (sd : seed) : Prop :=
  match sd with SArg k c => exists v, jm_get k args = Some v /\ typed c v = true | _ => True end.

Definition default_seeds (d : acc_default) : list seed :=
  match d with DPda _ seeds => seeds | DAddress _ => [] end.

(** What a default address must be. Two accounts have no derivation in [resolve-accounts.ts]. *)
Definition agrees (name : string) (d : acc_default) : Prop :=
  forall accs args a, Forall (seed_typed args) (default_seeds d) ->
    default_value accs args d = Ok a ->
    match d with
    | DAddress _ => True
    | DPda None _ =>
        name = "pendingAgentPerms" \/ name = "postAssertions" \/
        exists k, default_kind accs args name k /\ a = (derive k SIGIL_PROGRAM_ID).1
    | DPda (Some _) _ =>
        exists ok mk o m, default_ata name = Some (ok, mk) /\ jm_get ok accs = Some o /\
          jm_get mk accs = Some m /\ a = Pda.deriveAta o m
    end.

Lemma seed_account accs args name b :
  seed_value accs args (SAccount name) = Ok b ->
  exists a, jm_get name accs = Some a /\ b = encodeAddress a.
Proof. cbn. destruct (jm_get name accs) as [a|]; cbn; [|done]. intros [= <-]. eauto. Qed.

Lemma seed_arg_address accs args name b :
  seed_typed args (SArg name TAddress) -> seed_value accs args (SArg name TAddress) = Ok b ->
  exists a, arg_address args name a /\ b = encodeAddress a.
Proof.
  intros (v & Hv & Ht) H. destruct v; try discriminate Ht. exists a. split; [done|].
  cbn in H. rewrite Hv in H. cbn in H. rewrite encode_address in H. cbn in H. congruence.
Qed.

Lemma seed_arg_u64 accs args name b :
  seed_typed args (SArg name TU64) -> seed_value accs args (SArg name TU64) = Ok b ->
  exists z, arg_u64 args name z /\ b = seedU64Le z.
Proof.
  intros (v & Hv & Ht) H. destruct v; try discriminate Ht. exists z. split; [done|].
  cbn in Ht. unfold in_bounds in Ht. cbn in H. rewrite Hv in H. cbn in H.
  rewrite encode_u64 in H by lia. cbn in H. injection H as <-.
  unfold seedU64Le. by rewrite Z.mod_small by lia.
Qed.

Lemma seeds_cons accs args sd sds bs :
  seed_values accs args (sd :: sds) = Ok bs ->
  exists b bs', seed_value accs args sd = Ok b /\ seed_values accs args sds = Ok bs' /\ bs = b :: bs'.
Proof.
  cbn. intros H. apply bind_ok_inv in H as (b & Hb & H). apply bind_ok_inv in H as (bs' & Hbs & H).
  injection H as <-. eauto.
Qed.

(** The seeds of an instruction's default accounts are arguments of the instruction. *)
Lemma typed_fields_get fs vs k c :
  typed_fields fs vs = true -> jm_get k fs = Some c ->
  exists v, jm_get k vs = Some v /\ typed c v = true.
Proof.
  revert vs. induction fs as [|[k' c'] fs IH]; intros [|[k'' v] vs] Ht Hk; try done.
  cbn in Ht. apply andb_true_iff in Ht as [[Hkk%bool_decide_eq_true Hv]%andb_true_iff Ht]. subst k''.
  cbn in *. case_decide; [|by apply IH]. injection Hk as ->. eauto.
Qed.

Definition seed_declared (sp : ix_spec) (sd : seed) : bool :=
  match sd with
  | SArg k c => match jm_get k (ix_args sp), c with
                | Some TU64, TU64 | Some TAddress, TAddress => true
                | _, _ => false end
  | _ => true
  end.

Lemma declared_typed sp args sd :
  typed_fields (ix_args sp) args = true -> seed_declared sp sd = true -> seed_typed args sd.
Proof.
  intros Ht Hd. destruct sd as [| |k c]; [done..|]. cbn in *.
  destruct (jm_get k (ix_args sp)) as [c'|] eqn:E; [|done].
  destruct (typed_fields_get _ _ _ _ Ht E) as (v & Hv & Hty). exists v. split; [done|].
  by destruct c', c.
Qed.

(** Documented: the token program's address, decoded. *)
Hypothesis token_program_bytes : encodeAddress TOKEN_PROGRAM_ADDRESS = TOKEN_PROGRAM_BYTES.

Ltac solve_default :=
  intros accs args a Ht Hv; cbn [default_seeds] in Ht; try exact I;
  apply bind_ok_inv in Hv as (bs & Hs & Hv); injection Hv as <-;
  repeat match goal with
  | H : seed_values _ _ (_ :: _) = Ok _ |- _ =>
      let b := fresh "b" in let bs := fresh "bs" in let Hb := fresh "Hb" in
      let Hsd := fresh "Hsd" in
      apply seeds_cons in H as (b & bs & Hb & H & ->);
      apply Forall_cons in Ht as [Hsd Ht];
      lazymatch type of Hb with
      | seed_value _ _ (SBytes _) = _ => injection Hb as <-
      | seed_value _ _ (SAccount _) = _ => apply seed_account in Hb as (? & ? & ->)
      | seed_value _ _ (SArg _ TAddress) = _ => apply (seed_arg_address _ _ _ _ Hsd) in Hb as (? & ? & ->)
      | seed_value _ _ (SArg _ TU64) = _ => apply (seed_arg_u64 _ _ _ _ Hsd) in Hb as (? & ? & ->)
      end
  | H : seed_values _ _ [] = Ok _ |- _ => injection H as <-
  end;
  cbn [default from_option]; unfold id;
  first
    [ by left
    | by right; left
    | right; right; eexists; split; [solve [econstructor; try eassumption; first [by left | by right]] | reflexivity]
    | right; right; eexists; split; [solve [econstructor; eassumption] | reflexivity]
    | do 4 eexists; split; [reflexivity|]; split; [eassumption|]; split; [eassumption|];
      unfold Pda.deriveAta; rewrite token_program_bytes; reflexivity ].

Lemma all_agree : Forall (fun sp => Forall (fun nd => agrees nd.1 nd.2) (ix_asyncDefaults sp)) SIGIL_INSTRUCTIONS.
Proof using All.
  repeat apply Forall_cons_2; try apply Forall_nil_2; cbn [fst snd].
  all: solve_default.
Qed.

Lemma all_declared : forallb (fun sp => forallb (fun nd => forallb (seed_declared sp) (default_seeds nd.2))
    (ix_asyncDefaults sp)) SIGIL_INSTRUCTIONS = true.
Proof. vm_compute. reflexivity. Qed.

(** the addresses the generated builders fill in are the ones the SDK derives by hand:
    whenever a builder resolves a default account of any of the 36 instructions, the address
    is that of [getPolicyPDA], [getTrackerPDA], [getSessionPDA] and the other derivations of
    [resolve-accounts.ts], or [deriveAta], for the vault, agent, mint and numbers given to the
    builder; only the pending agent permissions and the post assertions have no counterpart. *)
Theorem generated_pdas_agree sp name d accs args a :
  sp ∈ SIGIL_INSTRUCTIONS -> (name, d) ∈ ix_asyncDefaults sp ->
  typed_fields (ix_args sp) args = true ->
  default_value accs args d = Ok a ->
  match d with
  | DAddress _ => True
  | DPda None _ =>
      name = "pendingAgentPerms" \/ name = "postAssertions" \/
      exists k, default_kind accs args name k /\ a = (derive k SIGIL_PROGRAM_ID).1
  | DPda (Some _) _ =>
      exists ok mk o m, default_ata name = Some (ok, mk) /\ jm_get ok accs = Some o /\
        jm_get mk accs = Some m /\ a = Pda.deriveAta o m
  end.
Proof using All.
  intros Hsp Hd Hty Hv. pose proof all_agree as H. rewrite Forall_forall in H. specialize (H sp Hsp).
  rewrite Forall_forall in H. apply (H (name, d) Hd accs args a); [|exact Hv].
  pose proof all_declared as Hdc. rewrite forallb_forall in Hdc.
  specialize (Hdc sp (proj1 (list_elem_of_In _ _) Hsp)). rewrite forallb_forall in Hdc.
  specialize (Hdc _ (proj1 (list_elem_of_In _ _) Hd)). rewrite forallb_forall in Hdc.
  apply Forall_forall. intros sd Hin. apply (declared_typed sp); [done|].
  by apply Hdc, list_elem_of_In.
Qed.
End spec.

(** ** Concrete instances *)
Definition demo_decode_address (bs : bytes) : option Address :=
  match bs with Z.pos p :: _ => decode p | _ => None end.

(** As [demo_pda_env], with the token program's address as the generated files have it. *)
Definition demo_client_env : PdaEnv := {|
  encodeAddress a := if decide (a = TOKEN_PROGRAM_ADDRESS) then TOKEN_PROGRAM_BYTES
                     else Z.pos (encode a) :: 256 :: replicate 30 0;
  getProgramDerivedAddress p s := (pretty (N.pos (encode (p, concat s))), 255) |}.

Definition demo_client_decode (bs : bytes) : option Address :=
  if decide (bs = TOKEN_PROGRAM_BYTES) then Some TOKEN_PROGRAM_ADDRESS else demo_decode_address bs.

Lemma demo_client_pda_laws : PdaLaws demo_client_env.
Proof.
  split; intros a; cbn [encodeAddress demo_client_env].
  - by destruct (decide (a = TOKEN_PROGRAM_ADDRESS)).
  - intros b. destruct (decide (a = TOKEN_PROGRAM_ADDRESS)) as [->|Ha];
      destruct (decide (b = TOKEN_PROGRAM_ADDRESS)) as [->|Hb]; intros He; try done.
    injection He as He. by apply (inj encode) in He.
Qed.

Lemma demo_client_decodes a : demo_client_decode (encodeAddress (PdaEnv := demo_client_env) a) = Some a.
Proof.
  unfold demo_client_decode. cbn [encodeAddress demo_client_env].
  destruct (decide (a = TOKEN_PROGRAM_ADDRESS)) as [->|Ha].
  - destruct (decide _) as [_|H]; [done|by destruct H].
  - destruct (decide _) as [H|_]; [discriminate H|]. cbn. apply decode_encode.
Qed.

Definition demo_client : ClientLib := borsh_lib (env := demo_client_env) demo_client_decode.
Lemma demo_client_laws : ClientLaws (H := demo_client_env) demo_client.
Proof. exact (borsh_lib_laws (laws := demo_client_pda_laws) _ demo_client_decodes). Qed.

Definition demo_agent_args : struct_val :=
  [("agent", VlAddr "agent"); ("capability", VlInt 2); ("spendingLimitUsd", VlInt 100000000)].
Definition demo_agent_input : jsmap Address :=
  [("owner", "owner"); ("vault", "vault"); ("agentSpendOverlay", "overlay")].

Lemma parse_built_instruction_witness :
  match @build demo_client_env demo_client [] RegisterAgent_ix demo_agent_input demo_agent_args with
  | Ok ix => @parseSigilInstruction demo_client ix =
      Ok (mkParsed "RegisterAgent"
            [("owner", Some (mkMeta "owner" READONLY_SIGNER None));
             ("vault", Some (mkMeta "vault" WRITABLE None));
             ("agentSpendOverlay", Some (mkMeta "overlay" WRITABLE None))]
            (("discriminator", VlBytes [135; 157; 66; 195; 2; 113; 175; 30]) :: demo_agent_args))
  | Throw _ => False
  end.
Proof.
  destruct (@build demo_client_env demo_client [] RegisterAgent_ix demo_agent_input demo_agent_args)
    as [ix|e] eqn:E; [|vm_compute in E; discriminate].
  destruct (@parse_built_instruction demo_client_env demo_client demo_client_laws RegisterAgent_ix []
    demo_agent_input demo_agent_args ix) as (accs & Hr & Hp).
  - apply list_elem_of_lookup. by exists 30%nat.
  - repeat (apply Forall_cons_2; [right; right; eexists; reflexivity|]). apply Forall_nil_2.
  - reflexivity.
  - exact E.
  - injection Hr as <-. exact Hp.
Defined.

(** The policy account of [applyPendingPolicy]. *)
Lemma generated_pdas_agree_witness :
  exists k, default_kind [("owner", "owner"); ("vault", "vault")] [] "policy" k /\
    @default_value demo_client_env demo_client [("owner", "owner"); ("vault", "vault")] []
      (DPda None [SBytes (seedString "policy"); SAccount "vault"])
    = Ok (@derive demo_client_env k SIGIL_PROGRAM_ID).1.
Proof.
  destruct (@default_value demo_client_env demo_client [("owner", "owner"); ("vault", "vault")] []
      (DPda None [SBytes (seedString "policy"); SAccount "vault"])) as [a|e] eqn:E; [|discriminate E].
  destruct (@generated_pdas_agree demo_client_env demo_client demo_client_laws eq_refl ApplyPendingPolicy_ix
    "policy" (DPda None [SBytes (seedString "policy"); SAccount "vault"])
    [("owner", "owner"); ("vault", "vault")] [] a) as [H|[H|(k & Hk & ->)]].
  - apply list_elem_of_lookup. by exists 6%nat.
  - apply list_elem_of_lookup. by exists 0%nat.
  - reflexivity.
  - exact E.
  - discriminate H.
  - discriminate H.
  - exists k. by split.
Defined.
