(* ===== verification/OwnerSpec.v ===== *)
(** * The owner's state machine

    The handlers of [OwnerChain] as one step relation on a vault's accounts, its invariant by
    rule induction, and the timelock as a property of histories. *)

From S2P Require Import Prelude Types Accounts OnChain Pdas OwnerChain.
Local Open Scope string_scope.
Local Open Scope Z_scope.
Local Open Scope list_scope.

Section machine.
Context `{env : PdaEnv} `{laws : !PdaLaws env}.

(** The accounts of one vault. The two kinds of pending account exist or not. *)
Record OwnerState := mkOwnerState {
  os_vault : AgentVault;
  os_policy : PolicyConfig;
  os_overlay : AgentSpendOverlay;
  os_pendingPolicy : option PendingPolicyUpdate;
  os_pendingPerms : list PendingPerms;
}.

Inductive owner_op :=
  | ORegister (agent : Address) (capability limit : Z)
  | ORevoke (agent : Address)
  | OPause (agent : Address)
  | OUnpause (agent : Address)
  | OFreeze (remaining : list (option Address))
  | OReactivate (agent : option Address) (capability : option Z)
  | OQueuePolicy (bump : Z) (u : PolicyUpdate)
  | OApplyPolicy
  | OCancelPolicy
  | OQueuePerms (agent : Address) (capability limit : Z)
  | OApplyPerms (agent : Address)
  | OCancelPerms (agent : Address).

#[local] Instance owner_op_eq_dec : EqDecision owner_op.
Proof. solve_decision. Defined.

Definition with_vault (s : OwnerState) (v : AgentVault) : OwnerState :=
  mkOwnerState v (os_policy s) (os_overlay s) (os_pendingPolicy s) (os_pendingPerms s).
Definition with_vault_overlay (s : OwnerState) (r : AgentVault * AgentSpendOverlay) : OwnerState :=
  mkOwnerState r.1 (os_policy s) r.2 (os_pendingPolicy s) (os_pendingPerms s).
Definition with_policy (s : OwnerState) (p : PolicyConfig) (q : option PendingPolicyUpdate) : OwnerState :=
  mkOwnerState (os_vault s) p (os_overlay s) q (os_pendingPerms s).
Definition with_perms (s : OwnerState) (l : list PendingPerms) : OwnerState :=
  mkOwnerState (os_vault s) (os_policy s) (os_overlay s) (os_pendingPolicy s) l.

Definition perms_of (s : OwnerState) (a : Address) : option PendingPerms :=
  find_by (fun p => bool_decide (pa_agent p = a)) (os_pendingPerms s).
Definition drop_perms (s : OwnerState) (a : Address) : list PendingPerms :=
  filter (fun p => pa_agent p <> a) (os_pendingPerms s).

(** Creating an account that exists, or using one that does not, fails in the runtime. *)
Definition owner_step (c : Clock) (s : OwnerState) (op : owner_op) : res string OwnerState :=
  match op with
  | ORegister a cap lim =>
      r ← register_agent (os_vault s) (os_overlay s) a cap lim; Ok (with_vault_overlay s r)
  | ORevoke a => r ← revoke_agent (os_vault s) (os_overlay s) a; Ok (with_vault_overlay s r)
  | OPause a => v ← pause_agent (os_vault s) a; Ok (with_vault s v)
  | OUnpause a => v ← unpause_agent (os_vault s) a; Ok (with_vault s v)
  | OFreeze remaining => r ← freeze_vault (os_vault s) remaining; Ok (with_vault s r.1)
  | OReactivate a cap => v ← reactivate_vault (os_vault s) a cap; Ok (with_vault s v)
  | OQueuePolicy bump u =>
      match os_pendingPolicy s with
      | Some _ => Throw "AccountAlreadyInUse"
      | None =>
          r ← queue_policy_update c (os_vault s) (os_policy s) (pc_vault (os_policy s)) bump u;
          Ok (with_policy s r.1 (Some r.2))
      end
  | OApplyPolicy =>
      match os_pendingPolicy s with
      | Some p => pol ← apply_pending_policy c (os_policy s) p; Ok (with_policy s pol None)
      | None => Throw "AccountNotInitialized"
      end
  | OCancelPolicy =>
      match os_pendingPolicy s with
      | Some _ => Ok (with_policy s (cancel_pending_policy (os_policy s)) None)
      | None => Throw "AccountNotInitialized"
      end
  | OQueuePerms a cap lim =>
      match perms_of s a with
      | Some _ => Throw "AccountAlreadyInUse"
      | None =>
          p ← queue_agent_permissions_update c (os_vault s) (os_policy s) a cap lim;
          Ok (with_perms s (p :: os_pendingPerms s))
      end
  | OApplyPerms a =>
      match perms_of s a with
      | Some p =>
          r ← apply_agent_permissions_update c (os_vault s) (os_policy s) (os_overlay s) p;
          Ok (mkOwnerState r.1.1 r.1.2 r.2 (os_pendingPolicy s) (drop_perms s a))
      | None => Throw "AccountNotInitialized"
      end
  | OCancelPerms a =>
      match perms_of s a with
      | Some _ => Ok (with_perms s (drop_perms s a))
      | None => Throw "AccountNotInitialized"
      end
  end.

(** What the codecs guarantee of an operation's numbers. *)
Definition op_typed (op : owner_op) : Prop :=
  match op with
  | ORegister _ cap lim | OQueuePerms _ cap lim => 0 <= cap < 256 /\ is_u64 lim
  | OReactivate _ cap => forall z, cap = Some z -> 0 <= z < 256
  | OQueuePolicy _ u =>
      (forall z, pu_protocolMode u = Some z -> 0 <= z) /\
      (forall z, pu_developerFeeRate u = Some z -> 0 <= z) /\
      (forall z, pu_maxSlippageBps u = Some z -> 0 <= z) /\
      (forall z, pu_timelockDuration u = Some z -> is_u64 z) /\
      (forall z, pu_sessionExpirySeconds u = Some z -> 0 <= z) /\
      (forall z, pu_destinationMode u = Some z -> 0 <= z)
  | _ => True
  end.

Definition event := (Clock * owner_op)%type.

(** The zeroed overlay account. *)
Definition empty_overlay : AgentSpendOverlay :=
  mkOverlay (replicate 10 (mkContribution empty_bytes 0 (replicate 24 0))) (replicate 10 0) (replicate 10 0).

(** A vault's life from [initialize_vault]: the states it reaches and the operations that
    succeeded, the latest first. *)
Inductive reachable : list event -> OwnerState -> Prop :=
  | reach_init c o vault fee b1 b2 a v p :
      initialize_vault c o vault fee b1 b2 a = Ok (v, p) ->
      0 <= ia_protocolMode a -> 0 <= ia_developerFeeRate a -> 0 <= ia_maxSlippageBps a ->
      is_u64 (ia_timelockDuration a) -> o <> default_pubkey ->
      reachable [] (mkOwnerState v p empty_overlay None [])
  | reach_step h s c op s' :
      reachable h s -> owner_step c s op = Ok s' -> op_typed op ->
      reachable ((c, op) :: h) s'.

(** ** The invariant *)
Record policy_ok (p : PolicyConfig) : Prop := {
  po_mode : 0 <= protocolMode p <= 2;
  po_protocols : len (protocols p) <= 10;
  po_fee : 0 <= developerFeeRate p <= 500;
  po_slippage : 0 <= maxSlippageBps p <= 5000;
  po_timelock : 1800 <= timelockDuration p <= U64_MAX;
  po_destinations : len (allowedDestinations p) <= 10;
  po_expiry : sessionExpirySeconds p = 0 \/ 5 <= sessionExpirySeconds p <= 90;
  po_caps : hasProtocolCaps p = true ->
    protocolMode p = PROTOCOL_MODE_ALLOWLIST /\ length (protocolCaps p) = length (protocols p);
  po_destMode : 0 <= destinationMode p <= 1;
}.

Record agents_ok (v : AgentVault) : Prop := {
  ao_unique : NoDup (pubkey <$> agents v);
  ao_count : (length (agents v) <= 10)%nat;
  ao_capability : Forall (fun e => 0 <= agent_capability e <= 2) (agents v);
  ao_separate : owner v ∉ pubkey <$> agents v;
  ao_key : default_pubkey ∉ pubkey <$> agents v;
}.

(** The agents that occupy a slot are agents of the vault, no two slots are one agent's, and
    every agent with a spending limit has one. *)
Definition slots (o : AgentSpendOverlay) : list bytes := ace_agent <$> ov_entries o.

Definition distinct (ss : list bytes) : Prop :=
  forall i j b, ss !! i = Some b -> ss !! j = Some b -> b <> empty_bytes -> i = j.

Record slots_ok (l : list AgentEntry) (o : AgentSpendOverlay) : Prop := {
  so_length : length (ov_entries o) = 10%nat;
  so_agents : forall b, b ∈ slots o -> b = empty_bytes \/ exists e, e ∈ l /\ b = encodeAddress (pubkey e);
  so_unique : distinct (slots o);
  so_limit : Forall (fun e => 0 < spendingLimitUsd e -> encodeAddress (pubkey e) ∈ slots o) l;
}.

(** What applying a pending update makes of the policy. *)
Definition merged (policy : PolicyConfig) (p : PendingPolicyUpdate) : PolicyConfig :=
  {| dailySpendingCapUsd := default (dailySpendingCapUsd policy) (pp_dailySpendingCapUsd p);
     maxTransactionSizeUsd := default (maxTransactionSizeUsd policy) (pp_maxTransactionAmountUsd p);
     protocolMode := default (protocolMode policy) (pp_protocolMode p);
     protocols := default (protocols policy) (pp_protocols p);
     developerFeeRate := default (developerFeeRate policy) (pp_developerFeeRate p);
     maxSlippageBps := default (maxSlippageBps policy) (pp_maxSlippageBps p);
     timelockDuration := default (timelockDuration policy) (pp_timelockDuration p);
     hasConstraints := hasConstraints policy;
     hasProtocolCaps := default (hasProtocolCaps policy) (pp_hasProtocolCaps p);
     protocolCaps := default (protocolCaps policy) (pp_protocolCaps p);
     policyVersion := policyVersion policy + 1; pc_vault := pc_vault policy;
     allowedDestinations := default (allowedDestinations policy) (pp_allowedDestinations p);
     hasPendingPolicy := false;
     sessionExpirySeconds := default (sessionExpirySeconds policy) (pp_sessionExpirySeconds p);
     pc_bump := pc_bump policy; hasPostAssertions := hasPostAssertions policy;
     destinationMode := default (destinationMode policy) (pp_destinationMode p) |}.

Record owner_inv (s : OwnerState) : Prop := {
  oi_agents : agents_ok (os_vault s);
  oi_slots : slots_ok (agents (os_vault s)) (os_overlay s);
  oi_policy : policy_ok (os_policy s);
  oi_pending : forall p, os_pendingPolicy s = Some p -> policy_ok (merged (os_policy s) p);
  oi_flag : hasPendingPolicy (os_policy s) = bool_decide (is_Some (os_pendingPolicy s));
  oi_perms : Forall (fun p => 0 <= pa_newCapability p <= 2 /\ is_u64 (pa_spendingLimitUsd p)) (os_pendingPerms s);
}.

Lemma require_inv b e : require b e = Ok tt -> b = true.
Proof. unfold require. destruct b; simpl; [done|discriminate]. Qed.

(** Take a chain of [require!]s apart. *)
Ltac chain H :=
  repeat match type of H with
  | mbind _ (require _ _) = Ok _ =>
      let u := fresh "u" in let Hr := fresh "Hr" in
      apply bind_ok_inv in H as (u & Hr & H); destruct u; apply require_inv in Hr
  | mbind _ (if_some _ _) = Ok _ =>
      let u := fresh "u" in let Hr := fresh "Hi" in
      apply bind_ok_inv in H as (u & Hr & H); destruct u
  | mbind _ _ = Ok _ =>
      let u := fresh "r" in let Hr := fresh "Hm" in apply bind_ok_inv in H as (u & Hr & H)
  end.

Lemma if_some_inv {A} (o : option A) f x : if_some o f = Ok tt -> o = Some x -> f x = Ok tt.
Proof. intros H ->. exact H. Qed.

(** ** The policy *)
Lemma apply_inv c policy p policy' :
  apply_pending_policy c policy p = Ok policy' ->
  policy' = merged policy p /\ executesAt p <= unix_timestamp c /\ fresh_slot c (queuedAtSlot p) = true.
Proof.
  intros H. unfold apply_pending_policy in H. chain H. injection H as <-.
  split; [done|]. split; [lia|done].
Qed.

Lemma policy_ok_pending p b v : policy_ok p -> policy_ok (with_pending p b v).
Proof. intros []. by split. Qed.

Lemma merged_pending p b v q : policy_ok (merged p q) -> policy_ok (merged (with_pending p b v) q).
Proof. intros []. by split. Qed.

Lemma init_policy_ok c o vault fee b1 b2 a v p :
  initialize_vault c o vault fee b1 b2 a = Ok (v, p) ->
  0 <= ia_protocolMode a -> 0 <= ia_developerFeeRate a -> 0 <= ia_maxSlippageBps a ->
  is_u64 (ia_timelockDuration a) -> policy_ok p.
Proof.
  intros H Hm Hf Hs Ht. unfold initialize_vault in H.
  apply bind_ok_inv in H as (u & Hc & H). destruct u. injection H as <- <-.
  unfold init_checks in Hc. chain Hc.
  unfold PROTOCOL_MODE_DENYLIST, MAX_ALLOWED_PROTOCOLS, MAX_DEVELOPER_FEE_RATE, MAX_SLIPPAGE_BPS,
    MAX_ALLOWED_DESTINATIONS, MIN_TIMELOCK_DURATION in *. unfold is_u64 in Ht.
  split; cbn.
  1-7: lia.
  - intros Hcaps. rewrite Hcaps in Hc. chain Hc. apply require_inv in Hc. unfold len in Hc. lia.
  - unfold DESTINATION_MODE_RESTRICTED. lia.
Qed.

Lemma queue_policy_ok c v policy vault b u policy' p :
  policy_ok policy -> op_typed (OQueuePolicy b u) ->
  queue_policy_update c v policy vault b u = Ok (policy', p) ->
  policy' = with_pending policy true (policyVersion policy) /\ policy_ok (merged policy p) /\
  executesAt p = unix_timestamp c + as_i64 (timelockDuration policy) /\ queuedAt p = unix_timestamp c.
Proof.
  intros [] (Tm & Tf & Ts & Tt & Te & Td) H. unfold queue_policy_update in H.
  apply bind_ok_inv in H as (u1 & _ & H). apply bind_ok_inv in H as (u2 & Hc & H).
  apply bind_ok_inv in H as (ex & Hex & H). injection H as <- <-. destruct u2.
  split; [done|]. split; [|split; [|done]].
  2:{ cbn. unfold checked_add_i64 in Hex. case_match; [by injection Hex|discriminate Hex]. }
  unfold queue_checks in Hc. chain Hc.
  unfold PROTOCOL_MODE_DENYLIST, MAX_ALLOWED_PROTOCOLS, MAX_DEVELOPER_FEE_RATE, MAX_SLIPPAGE_BPS,
    MAX_ALLOWED_DESTINATIONS, MIN_TIMELOCK_DURATION, DESTINATION_MODE_OPEN_WITH_CAP in *.
  split; cbn.
  - destruct (pu_protocolMode u) as [z|] eqn:E; cbn in *; [|done].
    apply require_inv in Hi. specialize (Tm z eq_refl). lia.
  - destruct (pu_protocols u); cbn in *; [|done]. apply require_inv in Hi1. lia.
  - destruct (pu_developerFeeRate u) as [z|]; cbn in *; [|done]. apply require_inv in Hi2.
    specialize (Tf z eq_refl). lia.
  - destruct (pu_maxSlippageBps u) as [z|]; cbn in *; [|done]. apply require_inv in Hi3.
    specialize (Ts z eq_refl). lia.
  - destruct (pu_timelockDuration u) as [z|]; cbn in *; [|done]. apply require_inv in Hi5.
    specialize (Tt z eq_refl). unfold is_u64 in Tt. lia.
  - destruct (pu_allowedDestinations u); cbn in *; [|done]. apply require_inv in Hi4. lia.
  - destruct (pu_sessionExpirySeconds u) as [z|]; cbn in *; [|done].
    specialize (Te z eq_refl). destruct (z >? 0) eqn:Ez; [|lia].
    apply require_inv in Hi6. unfold MIN_SESSION_DURATION_SECONDS, MAX_OWNER_SESSION_DURATION_SECONDS in Hi6.
    lia.
  - intros Hcaps. rewrite Hcaps in Hc. chain Hc. apply require_inv in Hc.
    unfold len, PROTOCOL_MODE_ALLOWLIST in *. split; [by apply Z.eqb_eq|].
    by apply Z.eqb_eq, Nat2Z.inj in Hc.
  - destruct (pu_destinationMode u) as [z|]; cbn in *; [|done]. apply require_inv in Hi0.
    specialize (Td z eq_refl). lia.
Qed.

(** ** The agents *)
Lemma is_agent_spec v a : is_agent v a = true <-> a ∈ pubkey <$> agents v.
Proof.
  unfold is_agent. rewrite existsb_exists, list_elem_of_fmap. split.
  - intros (e & He & <-%bool_decide_eq_true). exists e. split; [done|by apply list_elem_of_In].
  - intros (e & -> & He). exists e. split; [by apply list_elem_of_In|by apply bool_decide_eq_true].
Qed.

(** Updating an entry keeps the keys; every entry of the result is one of the old ones or the
    update of one. *)
Lemma update_agent_inv a f l l' :
  update_agent a f l = Ok l' -> (forall e e', f e = Ok e' -> pubkey e' = pubkey e) ->
  pubkey <$> l' = pubkey <$> l /\ a ∈ pubkey <$> l /\
  Forall (fun e' => e' ∈ l \/ exists e, e ∈ l /\ pubkey e = a /\ f e = Ok e') l'.
Proof.
  intros H Hf. revert l' H. induction l as [|e l IH]; intros l' H; [discriminate H|].
  cbn in H. case_bool_decide as Hk.
  - apply bind_ok_inv in H as (e' & He' & H). injection H as <-. split_and!.
    + by rewrite !fmap_cons, (Hf e e').
    + rewrite fmap_cons, Hk. left.
    + constructor; [right; exists e; split; [left|done]|].
      apply Forall_forall. intros x Hx. left. by right.
  - apply bind_ok_inv in H as (l'' & Hl & H). injection H as <-.
    destruct (IH l'' Hl) as (H1 & H2 & H3). split_and!.
    + by rewrite !fmap_cons, H1.
    + rewrite fmap_cons. by right.
    + constructor; [left; left|]. eapply Forall_impl; [exact H3|].
      intros x [Hx|(y & Hy & Hy')]; [left; by right|right; exists y; split; [by right|done]].
Qed.

Lemma update_agent_hit a f l l' :
  update_agent a f l = Ok l' -> exists e e', e ∈ l /\ pubkey e = a /\ f e = Ok e' /\ e' ∈ l'.
Proof.
  revert l'. induction l as [|e l IH]; intros l' H; [discriminate H|].
  cbn in H. case_bool_decide as Hk; apply bind_ok_inv in H as (x & Hx & H); injection H as <-.
  - exists e, x. split_and!; [left|done|done|left].
  - destruct (IH x Hx) as (e0 & e' & H1 & H2 & H3 & H4). exists e0, e'. split_and!; [by right|done|done|by right].
Qed.

Lemma keys_inj (l : list AgentEntry) e1 e2 :
  NoDup (pubkey <$> l) -> e1 ∈ l -> e2 ∈ l -> pubkey e1 = pubkey e2 -> e1 = e2.
Proof.
  intros Hn [i Hi]%list_elem_of_lookup [j Hj]%list_elem_of_lookup Hk.
  assert (i = j) as ->; [|congruence].
  apply (NoDup_lookup (pubkey <$> l) i j (pubkey e1) Hn); rewrite list_lookup_fmap.
  - by rewrite Hi.
  - rewrite Hj. cbn. congruence.
Qed.

Lemma agents_ok_app v agent cap lim :
  agents_ok v -> 0 <= cap <= 2 -> agent ∉ pubkey <$> agents v -> (length (agents v) < 10)%nat ->
  agent <> default_pubkey -> agent <> owner v ->
  agents_ok (with_agents v (agents v ++ [mkAgent agent cap lim false])).
Proof.
  intros [] Hcap Hnew Hlen Hd Ho.
  split; cbn; rewrite ?fmap_app, ?length_app, ?Forall_app, ?elem_of_app; cbn.
  - apply NoDup_app. split_and!; [done| |apply NoDup_singleton].
    intros x Hx Hx'. apply list_elem_of_singleton in Hx'. by subst.
  - lia.
  - split; [done|]. by apply Forall_singleton.
  - rewrite list_elem_of_singleton. naive_solver.
  - rewrite list_elem_of_singleton. naive_solver.
Qed.

Lemma agents_ok_keys v l :
  agents_ok v -> pubkey <$> l = pubkey <$> agents v ->
  Forall (fun e => 0 <= agent_capability e <= 2) l -> agents_ok (with_agents v l).
Proof.
  intros [] Hk Hc. split; cbn; rewrite ?Hk; try done.
  rewrite <- (length_fmap pubkey l), Hk, length_fmap. done.
Qed.

Lemma agents_ok_status v st : agents_ok v -> agents_ok (with_status v st).
Proof. intros []. by split. Qed.

(** ** The overlay *)
Hypothesis default_pubkey_bytes : encodeAddress default_pubkey = empty_bytes.

Lemma encode_nonempty a : a <> default_pubkey -> encodeAddress a <> empty_bytes.
Proof using All. intros Ha He. apply Ha. apply encodeAddress_inj. congruence. Qed.

Lemma find_slot_none o a : find_agent_slot o a = None <-> encodeAddress a ∉ slots o.
Proof.
  unfold find_agent_slot, slots. rewrite fmap_None, list_find_None, Forall_forall, list_elem_of_fmap.
  naive_solver.
Qed.

Lemma find_slot_some o a i :
  find_agent_slot o a = Some i -> slots o !! i = Some (encodeAddress a).
Proof.
  unfold find_agent_slot, slots. intros ((j & e) & Hf & [= <-])%fmap_Some.
  apply list_find_Some in Hf as (He & Ha & _). rewrite list_lookup_fmap, He. cbn. by rewrite Ha.
Qed.

(** Claiming fills the first empty slot. *)
Lemma claim_inv o a o' :
  claim_slot o a = Some o' ->
  exists i, slots o !! i = Some empty_bytes /\ slots o' = <[i := encodeAddress a]> (slots o) /\
    length (ov_entries o') = length (ov_entries o).
Proof.
  unfold claim_slot, slots. intros ((i & e) & Hf & H)%bind_Some. injection H as <-.
  apply list_find_Some in Hf as (He & Ha & _). exists i. split_and!.
  - rewrite list_lookup_fmap, He. cbn. by rewrite Ha.
  - cbn. by rewrite list_fmap_insert.
  - cbn. by rewrite length_insert.
Qed.

Lemma claim_none o a : claim_slot o a = None <-> empty_bytes ∉ slots o.
Proof.
  unfold claim_slot, slots. rewrite list_elem_of_fmap. split.
  - intros H (e & He & Hin). destruct (list_find _ (ov_entries o)) as [[i x]|] eqn:E; [done|].
    apply list_find_None in E. rewrite Forall_forall in E. by apply (E e Hin).
  - intros H. destruct (list_find _ (ov_entries o)) as [[i x]|] eqn:E; [|done].
    apply list_find_Some in E as (He & Ha & _). exfalso. apply H.
    exists x. split; [done|]. apply list_elem_of_lookup. eauto.
Qed.

Lemma release_slots o i :
  length (ov_entries o) = 10%nat -> slots (release_slot o i) = <[i := empty_bytes]> (slots o) /\
  length (ov_entries (release_slot o i)) = 10%nat.
Proof.
  intros Hl. unfold release_slot, slots, MAX_OVERLAY_ENTRIES.
  destruct (Z.of_nat i >=? 10) eqn:Hi.
  - split; [|done]. rewrite list_insert_ge; [done|]. rewrite length_fmap. lia.
  - cbn. rewrite list_fmap_insert, length_insert. done.
Qed.

Lemma fill_distinct ss i x :
  ss !! i = Some empty_bytes -> x ∉ ss -> distinct ss -> distinct (<[i := x]> ss).
Proof.
  intros Hi Hx Hd a b y Ha Hb Hy.
  apply list_lookup_insert_Some in Ha as [(-> & -> & _)|[Hna Ha]];
    apply list_lookup_insert_Some in Hb as [(-> & ? & _)|[Hnb Hb]]; subst; try done.
  - exfalso. apply Hx. apply list_elem_of_lookup. eauto.
  - exfalso. apply Hx. apply list_elem_of_lookup. eauto.
  - by apply (Hd a b y).
Qed.

Lemma clear_distinct ss i : distinct ss -> distinct (<[i := empty_bytes]> ss).
Proof.
  intros Hd a b y Ha Hb Hy.
  apply list_lookup_insert_Some in Ha as [(_ & <- & _)|[Hna Ha]]; [done|].
  apply list_lookup_insert_Some in Hb as [(_ & <- & _)|[Hnb Hb]]; [done|]. by apply (Hd a b y).
Qed.

Lemma insert_elem (ss : list bytes) i x b : b ∈ <[i := x]> ss -> b = x \/ b ∈ ss.
Proof.
  intros [j Hj]%list_elem_of_lookup. apply list_lookup_insert_Some in Hj as [(_ & -> & _)|[_ Hj]];
    [by left|right]. apply list_elem_of_lookup. eauto.
Qed.

Lemma insert_keeps (ss : list bytes) i x y b :
  ss !! i = Some y -> b ∈ ss -> b <> y -> b ∈ <[i := x]> ss.
Proof.
  intros Hi [j Hj]%list_elem_of_lookup Hb. apply list_elem_of_lookup. exists j.
  rewrite list_lookup_insert_ne; [done|]. intros ->. congruence.
Qed.

Lemma cleared ss i x b :
  distinct ss -> ss !! i = Some x -> x <> empty_bytes -> b ∈ <[i := empty_bytes]> ss ->
  b = empty_bytes \/ b ∈ ss /\ b <> x.
Proof.
  intros Hd Hi Hx [j Hj]%list_elem_of_lookup.
  apply list_lookup_insert_Some in Hj as [(_ & -> & _)|[Hij Hj]]; [by left|].
  destruct (decide (b = x)) as [->|Hb].
  - exfalso. apply Hij. by apply (Hd i j x).
  - right. split; [|done]. apply list_elem_of_lookup. eauto.
Qed.

(** Ten slots cannot be taken by fewer than ten agents. *)
Lemma free_slot ss (keys : list bytes) :
  length ss = 10%nat -> distinct ss -> (forall b, b ∈ ss -> b = empty_bytes \/ b ∈ keys) ->
  (length keys < 10)%nat -> empty_bytes ∈ ss.
Proof.
  intros Hl Hd Hin Hk. destruct (decide (empty_bytes ∈ ss)) as [|Hne]; [done|exfalso].
  assert (Hnd : NoDup ss).
  { apply NoDup_alt. intros i j x Hi Hj. apply (Hd i j x Hi Hj). intros ->. apply Hne.
    apply list_elem_of_lookup. eauto. }
  assert (Hs : ss ⊆+ keys).
  { apply NoDup_submseteq; [done|]. intros b Hb. destruct (Hin b Hb) as [->|]; [|done]. by destruct Hne. }
  apply submseteq_length in Hs. lia.
Qed.

Lemma slots_length o : length (slots o) = length (ov_entries o).
Proof. unfold slots. apply length_fmap. Qed.

Definition keyed (l : list AgentEntry) : Prop := default_pubkey ∉ pubkey <$> l.

Lemma keyed_encode l e : keyed l -> e ∈ l -> encodeAddress (pubkey e) <> empty_bytes.
Proof using All.
  intros Hk He. apply encode_nonempty. intros Hd. apply Hk. apply list_elem_of_fmap. exists e. done.
Qed.

(** Claiming a slot for an agent of the new list. *)
Lemma slots_claim l l' o o' a :
  slots_ok l o -> keyed l -> claim_slot o a = Some o' -> encodeAddress a ∉ slots o ->
  (exists e, e ∈ l' /\ pubkey e = a) -> (forall e, e ∈ l -> exists e', e' ∈ l' /\ pubkey e' = pubkey e) ->
  (forall e', e' ∈ l' -> pubkey e' = a \/ 0 < spendingLimitUsd e' -> pubkey e' = a \/ e' ∈ l) ->
  slots_ok l' o'.
Proof using All.
  intros [Hlen Hag Hun Hlim] Hk Hc Hfree (ea & Hea & <-) Hsub Hnew.
  apply claim_inv in Hc as (i & Hi & Hs & Hl). split.
  - lia.
  - rewrite Hs. intros b [->|Hb]%insert_elem; [right; eauto|].
    destruct (Hag b Hb) as [->|(e & He & ->)]; [by left|]. right.
    destruct (Hsub e He) as (e' & He' & <-). eauto.
  - rewrite Hs. by apply fill_distinct.
  - apply Forall_forall. intros e' He' Hp. rewrite Hs.
    destruct (decide (pubkey e' = pubkey ea)) as [->|Hne].
    + apply list_elem_of_lookup. exists i. apply list_lookup_insert_eq. by eapply lookup_lt_Some.
    + destruct (Hnew e' He' (or_intror Hp)) as [|He]; [done|].
      apply insert_keeps with empty_bytes; [done| |by apply (keyed_encode l)].
      rewrite Forall_forall in Hlim. by apply Hlim.
Qed.

(** Changing agents without touching the slots. *)
Lemma slots_same l l' o :
  slots_ok l o -> (forall e, e ∈ l -> exists e', e' ∈ l' /\ pubkey e' = pubkey e) ->
  (forall e', e' ∈ l' -> 0 < spendingLimitUsd e' -> encodeAddress (pubkey e') ∈ slots o) ->
  slots_ok l' o.
Proof.
  intros [Hlen Hag Hun Hlim] Hsub Hnew. split; [done| |done|by apply Forall_forall].
  intros b Hb. destruct (Hag b Hb) as [->|(e & He & ->)]; [by left|]. right.
  destruct (Hsub e He) as (e' & He' & <-). eauto.
Qed.

(** Releasing an agent's slot. *)
Lemma slots_release l l' o a i :
  slots_ok l o -> keyed l -> keyed l' -> find_agent_slot o a = Some i -> a <> default_pubkey ->
  (forall e, e ∈ l -> pubkey e = a \/ exists e', e' ∈ l' /\ pubkey e' = pubkey e) ->
  (forall e', e' ∈ l' -> 0 < spendingLimitUsd e' -> pubkey e' <> a /\ encodeAddress (pubkey e') ∈ slots o) ->
  slots_ok l' (release_slot o i).
Proof using All.
  intros [Hlen Hag Hun Hlim] Hk Hk' Hf Ha Hsub Hnew.
  apply find_slot_some in Hf. destruct (release_slots o i Hlen) as [Hs Hl]. split.
  - done.
  - rewrite Hs. intros b Hb.
    destruct (cleared _ _ _ _ Hun Hf (encode_nonempty a Ha) Hb) as [->|[Hin Hne]]; [by left|].
    destruct (Hag b Hin) as [->|(e & He & ->)]; [by left|]. right.
    destruct (Hsub e He) as [<-|(e' & He' & <-)]; [done|]. eauto.
  - rewrite Hs. by apply clear_distinct.
  - apply Forall_forall. intros e' He' Hp. rewrite Hs. destruct (Hnew e' He' Hp) as [Hne Hin].
    apply insert_keeps with (encodeAddress a); [done|done|]. intros He. by apply encodeAddress_inj in He.
Qed.
Lemma sublist_fmap {A B} (f : A -> B) (l k : list A) : l `sublist_of` k -> f <$> l `sublist_of` f <$> k.
Proof. induction 1; cbn; by constructor. Qed.

(** ** One handler at a time *)
Definition side_inv (v : AgentVault) (o : AgentSpendOverlay) : Prop :=
  agents_ok v /\ slots_ok (agents v) o.

Lemma ao_keyed v : agents_ok v -> keyed (agents v).
Proof. intros H. apply H. Qed.

(** Adding an agent without a spending limit, or one that has a slot. *)
Lemma side_inv_app v o agent cap lim :
  side_inv v o -> agents_ok (with_agents v (agents v ++ [mkAgent agent cap lim false])) ->
  (0 < lim -> encodeAddress agent ∈ slots o) ->
  side_inv (with_agents v (agents v ++ [mkAgent agent cap lim false])) o.
Proof.
  intros [Ha Hs] Ha' Hl. split; [done|]. cbn. eapply slots_same; [exact Hs|..].
  - intros e He. exists e. split; [|done]. apply elem_of_app. by left.
  - intros e' [He'| ->%list_elem_of_singleton]%elem_of_app Hp; [|by apply Hl].
    destruct Hs as [_ _ _ Hlim]. rewrite Forall_forall in Hlim. by apply Hlim.
Qed.

Lemma register_inv v o agent cap lim v' o' :
  side_inv v o -> 0 <= cap -> register_agent v o agent cap lim = Ok (v', o') -> side_inv v' o'.
Proof using All.
  intros [Ha Hs] Hc H. unfold register_agent in H. chain H.
  change FULL_CAPABILITY with 2 in *. unfold MAX_AGENTS_PER_VAULT, len in *.
  apply negb_true_iff in Hr1. assert (Hnew : agent ∉ pubkey <$> agents v).
  { rewrite <- is_agent_spec. congruence. }
  apply negb_true_iff, bool_decide_eq_false in Hr3, Hr4.
  assert (Ha' : agents_ok (with_agents v (agents v ++ [mkAgent agent cap lim false])))
    by (apply agents_ok_app; [done|lia|done|lia|done|done]).
  destruct (find_agent_slot o agent) as [i|] eqn:Ef.
  - injection H as <- <-. apply side_inv_app; [done..|]. intros _.
    apply find_slot_some in Ef. apply list_elem_of_lookup. eauto.
  - apply find_slot_none in Ef. destruct (claim_slot o agent) as [o1|] eqn:Ec.
    + injection H as <- <-. split; [done|]. cbn.
      apply (slots_claim (agents v) _ o _ agent); [done|by apply ao_keyed|done..| | |].
      * eexists. split; [apply elem_of_app; right; left|done].
      * intros e He. exists e. split; [|done]. apply elem_of_app. by left.
      * intros e' [He'| ->%list_elem_of_singleton]%elem_of_app _; [by right|by left].
    + chain H. injection H as <- <-. apply side_inv_app; [done..|]. intros Hl.
      apply negb_true_iff in Hr5. lia.
Qed.

Lemma revoke_inv v o agent v' o' :
  side_inv v o -> revoke_agent v o agent = Ok (v', o') -> side_inv v' o'.
Proof using All.
  intros [Ha Hs] H. unfold revoke_agent in H. chain H. apply is_agent_spec in Hr0.
  set (rest := filter (fun e => pubkey e <> agent) (agents v)) in *.
  assert (Ha1 : agents_ok (with_agents v rest)).
  { destruct Ha. unfold rest. split; cbn.
    - eapply sublist_NoDup; [exact ao_unique0|apply sublist_fmap, sublist_filter].
    - etrans; [apply length_filter|done].
    - apply Forall_forall. intros e [_ He]%list_elem_of_filter. rewrite Forall_forall in *. by auto.
    - intros (e & He & [_ Hin]%list_elem_of_filter)%list_elem_of_fmap. apply ao_separate0.
      rewrite He. apply list_elem_of_fmap. eauto.
    - intros (e & He & [_ Hin]%list_elem_of_filter)%list_elem_of_fmap. apply ao_key0.
      rewrite He. apply list_elem_of_fmap. eauto. }
  assert (Hd : agent <> default_pubkey) by (intros ->; by apply (ao_keyed v)).
  assert (Hsub : forall e, e ∈ agents v -> pubkey e = agent \/ exists e', e' ∈ rest /\ pubkey e' = pubkey e).
  { intros e He. destruct (decide (pubkey e = agent)); [by left|right].
    exists e. split; [|done]. by apply list_elem_of_filter. }
  assert (Hlim : forall e', e' ∈ rest -> 0 < spendingLimitUsd e' ->
            pubkey e' <> agent /\ encodeAddress (pubkey e') ∈ slots o).
  { intros e' [Hne He]%list_elem_of_filter Hp. split; [done|].
    destruct Hs as [_ _ _ Hlim]. rewrite Forall_forall in Hlim. by apply Hlim. }
  assert (Hs1 : slots_ok rest (match find_agent_slot o agent with
                               | Some i => release_slot o i | None => o end)).
  { destruct (find_agent_slot o agent) as [i|] eqn:Ef.
    - eapply (slots_release (agents v)); [done|by apply ao_keyed|by apply (ao_keyed _ Ha1)|done..].
    - apply find_slot_none in Ef. destruct Hs as [Hlen Hag Hun _]. split; [done| |done|].
      + intros b Hb. destruct (Hag b Hb) as [->|(e & He & ->)]; [by left|right].
        destruct (Hsub e He) as [<-|(e' & He' & <-)]; [done|eauto].
      + apply Forall_forall. intros e' He' Hp. by apply Hlim. }
  injection H as <- <-. destruct (bool_decide (rest = [])); split; [by apply agents_ok_status|done|done|done].
Qed.

(** A change of the entries that keeps the keys and the limits. *)
Lemma side_inv_update v o a f l :
  side_inv v o -> update_agent a f (agents v) = Ok l ->
  (forall e e', f e = Ok e' -> pubkey e' = pubkey e /\ agent_capability e' = agent_capability e /\
     spendingLimitUsd e' = spendingLimitUsd e) ->
  side_inv (with_agents v l) o.
Proof.
  intros [Ha Hs] H Hf. destruct (update_agent_inv _ _ _ _ H) as (Hk & _ & Hl).
  { intros e e' He. by apply Hf. }
  rewrite Forall_forall in Hl.
  assert (Hold : forall e', e' ∈ l -> exists e, e ∈ agents v /\ pubkey e' = pubkey e /\
            agent_capability e' = agent_capability e /\ spendingLimitUsd e' = spendingLimitUsd e).
  { intros e' He'. destruct (Hl e' He') as [|(e & He & _ & Hfe)]; [by exists e'|].
    exists e. split; [done|by apply Hf]. }
  split.
  - apply agents_ok_keys; [done..|]. apply Forall_forall. intros e' He'.
    destruct (Hold e' He') as (e & He & _ & -> & _). destruct Ha. rewrite Forall_forall in *. auto.
  - cbn. eapply slots_same; [exact Hs|..].
    + intros e He. assert (Hin : pubkey e ∈ pubkey <$> l) by (rewrite Hk; apply list_elem_of_fmap; eauto).
      apply list_elem_of_fmap in Hin as (e' & -> & He'). eauto.
    + intros e' He' Hp. destruct (Hold e' He') as (e & He & -> & _ & Hlim). rewrite Hlim in Hp.
      destruct Hs as [_ _ _ Hsl]. rewrite Forall_forall in Hsl. by apply Hsl.
Qed.

Lemma pause_inv v o a v' : side_inv v o -> pause_agent v a = Ok v' -> side_inv v' o.
Proof.
  intros Hi H. unfold pause_agent in H. chain H. injection H as <-.
  eapply side_inv_update; [done|exact Hm|]. intros e e' He. cbv beta in He. chain He. by injection He as <-.
Qed.

Lemma unpause_inv v o a v' : side_inv v o -> unpause_agent v a = Ok v' -> side_inv v' o.
Proof.
  intros Hi H. unfold unpause_agent in H. chain H. injection H as <-.
  eapply side_inv_update; [done|exact Hm|]. intros e e' He. cbv beta in He. chain He. by injection He as <-.
Qed.

Lemma side_inv_status v o st : side_inv v o -> side_inv (with_status v st) o.
Proof. intros [Ha Hs]. split; [by apply agents_ok_status|done]. Qed.

Lemma reactivate_inv v o a cap v' :
  side_inv v o -> (forall z, cap = Some z -> 0 <= z < 256) -> reactivate_vault v a cap = Ok v' ->
  side_inv v' o.
Proof.
  intros Hi Hc H. unfold reactivate_vault in H. chain H. injection H as <-.
  apply side_inv_status.
  destruct a as [a|], cap as [cap|]; [|by injection Hm as <-..].
  chain Hm. injection Hm as <-. specialize (Hc cap eq_refl).
  change FULL_CAPABILITY with 2 in *. unfold MAX_AGENTS_PER_VAULT, len in *.
  apply negb_true_iff, bool_decide_eq_false in Hr2, Hr3. apply negb_true_iff in Hr6.
  apply side_inv_app; [done| |lia]. apply agents_ok_app; [apply Hi|lia| |lia|done|done].
  rewrite <- is_agent_spec. congruence.
Qed.

(** Applying a permission change. *)
Lemma apply_perms_inv c v policy o p v' policy' o' :
  side_inv v o -> 0 <= pa_newCapability p <= 2 ->
  apply_agent_permissions_update c v policy o p = Ok (v', policy', o') ->
  side_inv v' o' /\ policy' = with_pending policy (hasPendingPolicy policy) (policyVersion policy + 1) /\
  pa_executesAt p <= unix_timestamp c.
Proof using All.
  intros [Ha Hs] Hc H. unfold apply_agent_permissions_update in H. chain H. injection H as <- <- <-.
  split; [|split; [done|lia]].
  destruct (update_agent_inv _ _ _ _ Hm) as (Hk & Hin & Hl).
  { by intros e e' [= <-]. }
  destruct (update_agent_hit _ _ _ _ Hm) as (e1 & e1' & He1 & Hk1 & [= <-] & He1').
  rewrite Forall_forall in Hl. set (a := pa_agent p) in *.
  assert (Ha' : agents_ok (with_agents v r)).
  { apply agents_ok_keys; [done..|]. apply Forall_forall. intros e' He'.
    destruct (Hl e' He') as [He|(e & _ & _ & [= <-])]; [|done].
    destruct Ha. rewrite Forall_forall in *. auto. }
  assert (Hsub : forall e, e ∈ agents v -> exists e', e' ∈ r /\ pubkey e' = pubkey e).
  { intros e He. assert (Hi : pubkey e ∈ pubkey <$> r) by (rewrite Hk; apply list_elem_of_fmap; eauto).
    apply list_elem_of_fmap in Hi as (e' & -> & He'). eauto. }
  assert (Hhit : forall e', e' ∈ r -> pubkey e' = a -> spendingLimitUsd e' = pa_spendingLimitUsd p).
  { intros e' He' Hka. rewrite (keys_inj r e' (mkAgent (pubkey e1) (pa_newCapability p)
      (pa_spendingLimitUsd p) (agent_paused e1))); [done|apply Ha'|done|done|cbn; congruence]. }
  assert (Hmiss : forall e', e' ∈ r -> pubkey e' = a \/ e' ∈ agents v).
  { intros e' He'. destruct (Hl e' He') as [|(e & _ & Hka & [= <-])]; [by right|by left]. }
  split; [done|]. cbn. destruct Hs as [Hlen Hag Hun Hlim] eqn:Hs'. clear Hs'. rewrite Forall_forall in Hlim.
  unfold slot_of_limit in Hm0. destruct (find_agent_slot o a) as [i|] eqn:Ef.
  - destruct (_ && _) eqn:Hb; injection Hm0 as <-.
    + apply andb_true_iff in Hb as [Hz _].
      apply (slots_release (agents v) _ _ a); [done|by apply ao_keyed|by apply (ao_keyed _ Ha')|done| | |].
      * intros Hd. apply (ao_keyed _ Ha). by rewrite <- Hd.
      * intros e He. right. by apply Hsub.
      * intros e' He' Hp. destruct (Hmiss e' He') as [Hka|He].
        -- rewrite (Hhit e' He' Hka) in Hp. lia.
        -- split; [|by apply Hlim]. intros Hka. rewrite (Hhit e' He' Hka) in Hp. lia.
    + apply (slots_same (agents v)); [done..|]. intros e' He' Hp.
      destruct (Hmiss e' He') as [->|He]; [|by apply Hlim].
      apply find_slot_some in Ef. apply list_elem_of_lookup. eauto.
  - pose proof (proj1 (find_slot_none o a) Ef) as Hfree. destruct (_ >? 0) eqn:Hp0.
    + destruct (claim_slot o a) as [o1|] eqn:Ec; [injection Hm0 as <-|discriminate Hm0].
      apply (slots_claim (agents v) _ o _ a); [done|by apply ao_keyed|done..| |done|].
      * eexists. split; [exact He1'|done].
      * intros e' He' _. by apply Hmiss.
    + injection Hm0 as <-. apply (slots_same (agents v)); [done..|]. intros e' He' Hp.
      destruct (Hmiss e' He') as [Hka|He]; [|by apply Hlim]. rewrite (Hhit e' He' Hka) in Hp. lia.
Qed.

(** ** Every step *)
Lemma owner_inv_intro s v o :
  owner_inv s -> side_inv v o ->
  owner_inv (mkOwnerState v (os_policy s) o (os_pendingPolicy s) (os_pendingPerms s)).
Proof. intros [] [? ?]. by split. Qed.

Lemma owner_inv_side s : owner_inv s -> side_inv (os_vault s) (os_overlay s).
Proof. intros []. done. Qed.

Lemma perms_of_elem s a p : perms_of s a = Some p -> p ∈ os_pendingPerms s /\ pa_agent p = a.
Proof.
  unfold perms_of. intros H. apply find_by_some in H as [Hin Hp].
  by apply bool_decide_eq_true in Hp.
Qed.

Lemma drop_perms_forall P s a : Forall P (os_pendingPerms s) -> Forall P (drop_perms s a).
Proof.
  rewrite !Forall_forall. intros H p [_ Hp]%list_elem_of_filter. by apply H.
Qed.

Lemma queue_perms_inv c v policy a cap lim p :
  0 <= cap < 256 -> queue_agent_permissions_update c v policy a cap lim = Ok p ->
  pa_newCapability p = cap /\ pa_spendingLimitUsd p = lim /\ 0 <= cap <= 2 /\
  pa_executesAt p = unix_timestamp c + as_i64 (timelockDuration policy).
Proof.
  intros Hc H. unfold queue_agent_permissions_update in H. chain H. injection H as <-. cbn.
  change FULL_CAPABILITY with 2 in *. split_and!; [done|done|lia|lia|].
  unfold checked_add_i64 in Hm. case_match; [by injection Hm|discriminate Hm].
Qed.

Lemma owner_step_inv c s op s' :
  owner_inv s -> op_typed op -> owner_step c s op = Ok s' -> owner_inv s'.
Proof using All.
  intros Hi Ht H. pose proof (owner_inv_side s Hi) as Hsd.
  destruct op as [a cap lim|a|a|a|rem|a cap|b u| | |a cap lim|a|a]; cbn in H, Ht.
  - apply bind_ok_inv in H as ([v o] & Hr & H). injection H as <-.
    apply owner_inv_intro; [done|]. eapply register_inv; [exact Hsd|exact (proj1 (proj1 Ht))|exact Hr].
  - apply bind_ok_inv in H as ([v o] & Hr & H). injection H as <-.
    apply owner_inv_intro; [done|]. eapply revoke_inv; [exact Hsd|exact Hr].
  - apply bind_ok_inv in H as (v & Hr & H). injection H as <-.
    apply owner_inv_intro; [done|]. eapply pause_inv; [exact Hsd|exact Hr].
  - apply bind_ok_inv in H as (v & Hr & H). injection H as <-.
    apply owner_inv_intro; [done|]. eapply unpause_inv; [exact Hsd|exact Hr].
  - apply bind_ok_inv in H as (v & Hr & H). injection H as <-.
    apply owner_inv_intro; [done|]. unfold freeze_vault in Hr. chain Hr. injection Hr as <-.
    by apply side_inv_status.
  - apply bind_ok_inv in H as (v & Hr & H). injection H as <-.
    apply owner_inv_intro; [done|]. eapply reactivate_inv; [exact Hsd|exact Ht|exact Hr].
  - destruct (os_pendingPolicy s); [discriminate H|].
    apply bind_ok_inv in H as ([pol q] & Hr & H). injection H as <-.
    apply (queue_policy_ok _ _ _ _ b u) in Hr as (-> & Hm & _); [|apply Hi|exact Ht].
    destruct Hi. split; cbn; [done|done|by apply policy_ok_pending| |done|done].
    intros p [= <-]. by apply merged_pending.
  - destruct (os_pendingPolicy s) as [q|] eqn:Hq; [|discriminate H].
    apply bind_ok_inv in H as (pol & Hr & H). injection H as <-.
    apply apply_inv in Hr as (-> & _ & _). destruct Hi as [H1 H2 H3 H4 H5 H6].
    split; cbn; [done|done|by apply H4|done|done|done].
  - destruct (os_pendingPolicy s) as [q|] eqn:Hq; [|discriminate H]. injection H as <-.
    destruct Hi. split; cbn; [done|done|by apply policy_ok_pending|done|done|done].
  - destruct (perms_of s a); [discriminate H|].
    apply bind_ok_inv in H as (p & Hr & H). injection H as <-.
    apply queue_perms_inv in Hr as (Hc & Hl & Hr & _); [|apply Ht].
    destruct Hi. split; cbn; try done. constructor; [|done]. rewrite Hc, Hl. split; [lia|apply Ht].
  - destruct (perms_of s a) as [p|] eqn:Hp; [|discriminate H].
    apply bind_ok_inv in H as ([[v pol] o] & Hr & H). injection H as <-.
    apply perms_of_elem in Hp as [Hp _]. destruct Hi as [H1 H2 H3 H4 H5 H6].
    apply apply_perms_inv in Hr as (Hs & -> & _); [|done|].
    2:{ rewrite Forall_forall in H6. by apply H6. }
    split; cbn; [apply Hs|apply Hs|by apply policy_ok_pending| |done|by apply drop_perms_forall].
    intros q Hq. by apply merged_pending, H4.
  - destruct (perms_of s a) as [p|] eqn:Hp; [|discriminate H]. injection H as <-.
    destruct Hi. split; cbn; try done. by apply drop_perms_forall.
Qed.

Lemma slots_empty : slots_ok [] empty_overlay.
Proof.
  assert (Hs : slots empty_overlay = replicate 10 empty_bytes) by reflexivity.
  split; [done| | |constructor]; rewrite Hs.
  - intros b [-> _]%elem_of_replicate. by left.
  - intros i j b [-> _]%lookup_replicate. done.
Qed.

Lemma reachable_inv h s : reachable h s -> owner_inv s.
Proof using All.
  induction 1 as [c o vault fee b1 b2 a v p H Hm Hf Hsl Ht Ho|h s c op s' Hr IH H Ht].
  - pose proof (init_policy_ok _ _ _ _ _ _ _ _ _ H Hm Hf Hsl Ht) as Hp.
    unfold initialize_vault in H. apply bind_ok_inv in H as (u & _ & H). injection H as <- <-.
    split; [|exact slots_empty|done|done|done|by constructor].
    split; cbn; [apply NoDup_nil_2|lia|constructor|apply not_elem_of_nil|apply not_elem_of_nil].
  - by eapply owner_step_inv.
Qed.

(** ** Histories

    A policy without the two fields that every change touches. *)
Definition settings (p : PolicyConfig) : PolicyConfig := with_pending p false 0.

Definition update_of (p : PendingPolicyUpdate) : PolicyUpdate :=
  mkUpdate (pp_dailySpendingCapUsd p) (pp_maxTransactionAmountUsd p) (pp_protocolMode p) (pp_protocols p)
    (pp_developerFeeRate p) (pp_maxSlippageBps p) (pp_timelockDuration p) (pp_allowedDestinations p)
    (pp_sessionExpirySeconds p) (pp_hasProtocolCaps p) (pp_protocolCaps p) (pp_destinationMode p).

(** The latest policy operation of a history queued this update, [T] seconds ahead. *)
Definition queued (h : list event) (T : Z) (p : PendingPolicyUpdate) : Prop :=
  exists h1 c0 b h2, h = h1 ++ (c0, OQueuePolicy b (update_of p)) :: h2 /\
    Forall (fun e => e.2 <> OApplyPolicy /\ e.2 <> OCancelPolicy) h1 /\
    executesAt p = unix_timestamp c0 + as_i64 T.

(** The same of an agent's permissions. *)
Definition queued_perms (h : list event) (p : PendingPerms) : Prop :=
  exists h1 c0 h2 T,
    h = h1 ++ (c0, OQueuePerms (pa_agent p) (pa_newCapability p) (pa_spendingLimitUsd p)) :: h2 /\
    Forall (fun e => e.2 <> OApplyPerms (pa_agent p) /\ e.2 <> OCancelPerms (pa_agent p)) h1 /\
    1800 <= T <= U64_MAX /\ pa_executesAt p = unix_timestamp c0 + as_i64 T.

Lemma queued_cons h T p e :
  queued h T p -> e.2 <> OApplyPolicy -> e.2 <> OCancelPolicy -> queued (e :: h) T p.
Proof.
  intros (h1 & c0 & b & h2 & -> & Hf & He) H1 H2. exists (e :: h1), c0, b, h2.
  split_and!; [done|by constructor|done].
Qed.

Lemma queued_perms_cons h p e :
  queued_perms h p -> e.2 <> OApplyPerms (pa_agent p) -> e.2 <> OCancelPerms (pa_agent p) ->
  queued_perms (e :: h) p.
Proof.
  intros (h1 & c0 & h2 & T & -> & Hf & He) H1 H2. exists (e :: h1), c0, h2, T.
  split_and!; [done|by constructor|apply He..].
Qed.

Definition policy_op (op : owner_op) : bool :=
  match op with OQueuePolicy _ _ | OApplyPolicy | OCancelPolicy => true | _ => false end.
Definition perms_op (op : owner_op) : bool :=
  match op with OQueuePerms _ _ _ | OApplyPerms _ | OCancelPerms _ => true | _ => false end.

(** What the other operations leave alone. *)
Lemma step_frame c s op s' :
  owner_inv s -> owner_step c s op = Ok s' ->
  (policy_op op = false -> os_pendingPolicy s' = os_pendingPolicy s /\
     settings (os_policy s') = settings (os_policy s)) /\
  (perms_op op = false -> os_pendingPerms s' = os_pendingPerms s).
Proof using All.
  intros Hi H. destruct op; cbn in H.
  1-6: (apply bind_ok_inv in H as (r & _ & H); by injection H as <-).
  - destruct (os_pendingPolicy s); [discriminate H|]. apply bind_ok_inv in H as (r & _ & H).
    by injection H as <-.
  - destruct (os_pendingPolicy s); [|discriminate H]. apply bind_ok_inv in H as (r & _ & H).
    by injection H as <-.
  - destruct (os_pendingPolicy s); [|discriminate H]. by injection H as <-.
  - destruct (perms_of s agent); [discriminate H|]. apply bind_ok_inv in H as (r & _ & H).
    by injection H as <-.
  - destruct (perms_of s agent) as [p|] eqn:Hp; [|discriminate H].
    apply bind_ok_inv in H as ([[v pol] o] & Hr & H). injection H as <-.
    apply perms_of_elem in Hp as [Hp _]. apply apply_perms_inv in Hr as (_ & -> & _).
    + by split.
    + by apply owner_inv_side.
    + destruct Hi. rewrite Forall_forall in oi_perms0. by apply oi_perms0.
  - destruct (perms_of s agent); [|discriminate H]. by injection H as <-.
Qed.

Lemma settings_timelock p q : settings p = settings q -> timelockDuration p = timelockDuration q.
Proof. intros H. by apply (f_equal timelockDuration) in H. Qed.

Lemma policy_history h s p :
  reachable h s -> os_pendingPolicy s = Some p -> queued h (timelockDuration (os_policy s)) p.
Proof using All.
  intros Hr. revert p. induction Hr as [? ? ? ? ? ? ? ? p0|h s c op s' Hr IH H Ht]; intros p Hp; [discriminate Hp|].
  pose proof (reachable_inv _ _ Hr) as Hi.
  destruct (step_frame _ _ _ _ Hi H) as [Hf _]. destruct (policy_op op) eqn:Ho.
  - destruct op as [| | | | | |b u| | | | |]; try discriminate Ho; cbn in H.
    + destruct (os_pendingPolicy s) eqn:Hq; [discriminate H|].
      apply bind_ok_inv in H as ([pol q] & Hq' & H). injection H as <-. injection Hp as ->.
      pose proof (queue_policy_ok _ _ _ _ b u _ _ (oi_policy s Hi) Ht Hq') as (-> & _ & He & _).
      exists [], c, b, h. split_and!; [|constructor|done]. cbn. repeat f_equal.
      unfold queue_policy_update in Hq'. chain Hq'. injection Hq' as <-. by destruct u.
    + destruct (os_pendingPolicy s); [|discriminate H]. apply bind_ok_inv in H as (r & _ & H).
      injection H as <-. discriminate Hp.
    + destruct (os_pendingPolicy s); [|discriminate H]. injection H as <-. discriminate Hp.
  - destruct (Hf eq_refl) as [Hq Hs]. rewrite Hq in Hp. rewrite (settings_timelock _ _ Hs).
    apply queued_cons; [by apply IH|by destruct op|by destruct op].
Qed.

Lemma perms_history h s : reachable h s -> Forall (queued_perms h) (os_pendingPerms s).
Proof using All.
  induction 1 as [|h s c op s' Hr IH H Ht]; [constructor|].
  pose proof (reachable_inv _ _ Hr) as Hi. apply Forall_forall. intros p Hp.
  rewrite Forall_forall in IH.
  destruct (step_frame _ _ _ _ Hi H) as [_ Hf]. destruct (perms_op op) eqn:Ho.
  - destruct op as [| | | | | | | | |a cap lim|a|a]; try discriminate Ho; cbn in H.
    + destruct (perms_of s a); [discriminate H|].
      apply bind_ok_inv in H as (q & Hq & H). injection H as <-. cbn in Hp.
      apply list_elem_of_In in Hp as [->|Hp%list_elem_of_In].
      * pose proof (queue_perms_inv _ _ _ _ _ _ _ (proj1 Ht) Hq) as (<- & <- & _ & He).
        assert (Hk : pa_agent p = a).
        { unfold queue_agent_permissions_update in Hq. chain Hq. by injection Hq as <-. }
        exists [], c, h, (timelockDuration (os_policy s)). rewrite Hk.
        split_and!; [done|constructor|apply (oi_policy s Hi)..|done].
      * by apply queued_perms_cons; [apply IH|..].
    + destruct (perms_of s a) eqn:Hq; [|discriminate H]. apply bind_ok_inv in H as (r & _ & H).
      injection H as <-. apply list_elem_of_filter in Hp as [Hne Hp].
      apply queued_perms_cons; [by apply IH|by intros [= ->]|done].
    + destruct (perms_of s a) eqn:Hq; [|discriminate H]. injection H as <-.
      apply list_elem_of_filter in Hp as [Hne Hp].
      apply queued_perms_cons; [by apply IH|done|by intros [= ->]].
  - rewrite (Hf eq_refl) in Hp. apply queued_perms_cons; [by apply IH|by destruct op|by destruct op].
Qed.

(** An agent that is there before and after an operation other than [OApplyPerms] on it keeps
    its capability and its limit. *)
Definition rights (e : AgentEntry) : Z * Z := (agent_capability e, spendingLimitUsd e).

Lemma update_rights v a f l e e' :
  agents_ok v -> update_agent a f (agents v) = Ok l ->
  (forall x x', f x = Ok x' -> pubkey x' = pubkey x) ->
  (forall x x', pubkey x = a -> f x = Ok x' -> pubkey x <> pubkey e \/ rights x' = rights x) ->
  e ∈ agents v -> e' ∈ l -> pubkey e' = pubkey e -> rights e' = rights e.
Proof.
  intros Ha H Hf Hr He He' Hk. destruct (update_agent_inv _ _ _ _ H Hf) as (Hkl & _ & Hl).
  rewrite Forall_forall in Hl. destruct (Hl e' He') as [Hin|(x & Hx & Hxa & Hfx)].
  - by rewrite (keys_inj _ _ _ (ao_unique v Ha) Hin He Hk).
  - pose proof (Hf x e' Hfx) as Hkx.
    assert (x = e) as -> by (apply (keys_inj _ _ _ (ao_unique v Ha)); [done..|congruence]).
    by destruct (Hr e e').
Qed.

Lemma app_rights v x e e' :
  agents_ok v -> is_agent v (pubkey x) = false -> e ∈ agents v -> e' ∈ agents v ++ [x] ->
  pubkey e' = pubkey e -> e' = e.
Proof.
  intros Ha Hx He [He'| ->%list_elem_of_singleton]%elem_of_app Hk.
  - by apply (keys_inj _ _ _ (ao_unique v Ha)).
  - exfalso. assert (Ht : is_agent v (pubkey x) = true); [|congruence].
    apply is_agent_spec. rewrite Hk. apply list_elem_of_fmap. eauto.
Qed.

Lemma step_rights c s op s' e e' :
  owner_inv s -> owner_step c s op = Ok s' -> e ∈ agents (os_vault s) -> e' ∈ agents (os_vault s') ->
  pubkey e' = pubkey e -> (forall p, perms_of s (pubkey e) = Some p -> op <> OApplyPerms (pubkey e)) ->
  rights e' = rights e.
Proof.
  intros Hi H He He' Hk Hop. pose proof (oi_agents s Hi) as Ha.
  assert (Hsame : e' ∈ agents (os_vault s) -> rights e' = rights e).
  { intros Hin. by rewrite (keys_inj _ _ _ (ao_unique _ Ha) Hin He Hk). }
  destruct op as [a cap lim|a|a|a|rem|a cap|b u| | |a cap lim|a|a]; cbn in H.
  - apply bind_ok_inv in H as ([v o] & Hr & H). injection H as <-. unfold register_agent in Hr.
    chain Hr. apply negb_true_iff in Hr2.
    assert (v = with_agents (os_vault s) (agents (os_vault s) ++ [mkAgent a cap lim false])) as ->;
      [|by rewrite (app_rights _ (mkAgent a cap lim false) _ _ Ha Hr2 He He' Hk)].
    destruct (find_agent_slot _ _); [by injection Hr|].
    destruct (claim_slot _ _); [by injection Hr|]. chain Hr. by injection Hr.
  - apply bind_ok_inv in H as ([v o] & Hr & H). injection H as <-. unfold revoke_agent in Hr.
    chain Hr. injection Hr as <- <-. apply Hsame.
    destruct (bool_decide (filter _ _ = [])); by apply list_elem_of_filter in He' as [_ He'].
  - apply bind_ok_inv in H as (v & Hr & H). injection H as <-. unfold pause_agent in Hr.
    chain Hr. injection Hr as <-. eapply (update_rights _ _ _ _ e e' Ha Hm); [| |done..].
    + intros x x' Hx. cbv beta in Hx. chain Hx. by injection Hx as <-.
    + intros x x' _ Hx. cbv beta in Hx. chain Hx. injection Hx as <-. by right.
  - apply bind_ok_inv in H as (v & Hr & H). injection H as <-. unfold unpause_agent in Hr.
    chain Hr. injection Hr as <-. eapply (update_rights _ _ _ _ e e' Ha Hm); [| |done..].
    + intros x x' Hx. cbv beta in Hx. chain Hx. by injection Hx as <-.
    + intros x x' _ Hx. cbv beta in Hx. chain Hx. injection Hx as <-. by right.
  - apply bind_ok_inv in H as (v & Hr & H). injection H as <-. unfold freeze_vault in Hr.
    chain Hr. injection Hr as <-. by apply Hsame.
  - apply bind_ok_inv in H as (v & Hr & H). injection H as <-. unfold reactivate_vault in Hr.
    chain Hr. injection Hr as <-. destruct a as [a|], cap as [cap|]; [|by injection Hm as <-; apply Hsame..].
    chain Hm. injection Hm as <-. apply negb_true_iff in Hr6.
    by rewrite (app_rights _ (mkAgent a cap 0 false) _ _ Ha Hr6 He He' Hk).
  - destruct (os_pendingPolicy s); [discriminate H|]. apply bind_ok_inv in H as (r & _ & H).
    injection H as <-. by apply Hsame.
  - destruct (os_pendingPolicy s); [|discriminate H]. apply bind_ok_inv in H as (r & _ & H).
    injection H as <-. by apply Hsame.
  - destruct (os_pendingPolicy s); [|discriminate H]. injection H as <-. by apply Hsame.
  - destruct (perms_of s a); [discriminate H|]. apply bind_ok_inv in H as (r & _ & H).
    injection H as <-. by apply Hsame.
  - destruct (perms_of s a) as [p|] eqn:Hp; [|discriminate H].
    apply bind_ok_inv in H as ([[v pol] o] & Hr & H). injection H as <-.
    unfold apply_agent_permissions_update in Hr. chain Hr. injection Hr as <- <- <-.
    pose proof (proj2 (perms_of_elem _ _ _ Hp)) as Hpa.
    eapply (update_rights _ _ _ _ e e' Ha Hm); [| |done..].
    + by intros x x' [= <-].
    + intros x x' Hx _. left. intros Hxe. apply (Hop p); congruence.
  - destruct (perms_of s a); [|discriminate H]. injection H as <-. by apply Hsame.
Qed.

(** ** The overlay is never full *)
Definition exhausted : string := "OverlaySlotExhausted".

Lemma never_bind {A B} (r : res string A) (f : A -> res string B) e :
  r <> Throw e -> (forall x, r = Ok x -> f x <> Throw e) -> (r ≫= f) <> Throw e.
Proof. destruct r as [x|e']; cbn; intros H1 H2; [by apply H2|intros [= ->]; by apply H1]. Qed.

Lemma never_require b e e' : e' <> e -> require b e' <> Throw e.
Proof. unfold require. destruct b; cbn; congruence. Qed.

Lemma never_if_some {A} (o : option A) f e : (forall x, f x <> Throw e) -> if_some o f <> Throw e.
Proof. destruct o; cbn; [done|done]. Qed.

Lemma never_update a f l e :
  e <> "UnauthorizedAgent" -> (forall x, f x <> Throw e) -> update_agent a f l <> Throw e.
Proof.
  intros He Hf. induction l as [|x l IH]; cbn; [congruence|].
  case_bool_decide; (apply never_bind; [done|by intros]) || (apply never_bind; [apply Hf|by intros]).
Qed.

Lemma never_checked_add a b : checked_add_i64 a b <> Throw exhausted.
Proof. unfold checked_add_i64. by case_match. Qed.

Ltac never :=
  repeat (cbv beta zeta; cbn [fst snd];
    match goal with
    | |- mbind _ _ <> Throw _ => apply never_bind; [|intros ? ?]
    | |- require _ _ <> Throw _ => by apply never_require
    | |- if_some _ _ <> Throw _ => apply never_if_some; intros ?
    | |- update_agent _ _ _ <> Throw _ => apply never_update; [done|intros ?]
    | |- checked_add_i64 _ _ <> Throw _ => apply never_checked_add
    | |- Ok _ <> Throw _ => done
    | |- Throw _ <> Throw _ => done
    | |- (if ?b then _ else _) <> Throw _ => destruct b
    end).

Lemma register_never v o agent cap lim :
  side_inv v o -> register_agent v o agent cap lim <> Throw exhausted.
Proof using All.
  intros [Ha Hs]. unfold register_agent.
  apply never_bind; [by never|intros _ _]. apply never_bind; [by never|intros _ _].
  apply never_bind; [by never|intros _ _]. apply never_bind; [by never|intros u Hu].
  apply never_bind; [by never|intros _ _]. apply never_bind; [by never|intros _ _].
  destruct (find_agent_slot o agent); [done|]. destruct (claim_slot o agent) eqn:Hc; [done|].
  exfalso. apply claim_none in Hc. apply Hc. destruct Hs as [Hl Hag Hun _].
  apply (free_slot _ ((fun e => encodeAddress (pubkey e)) <$> agents v)).
  - by rewrite slots_length.
  - done.
  - intros b Hb. destruct (Hag b Hb) as [->|(e & He & ->)]; [by left|right].
    apply list_elem_of_fmap. eauto.
  - rewrite length_fmap. destruct u. apply require_inv in Hu. unfold len, MAX_AGENTS_PER_VAULT in Hu. lia.
Qed.

Lemma apply_perms_never c v policy o p :
  side_inv v o -> apply_agent_permissions_update c v policy o p <> Throw exhausted.
Proof using All.
  intros [Ha Hs]. unfold apply_agent_permissions_update.
  apply never_bind; [by never|intros _ _]. apply never_bind; [by never|intros _ _].
  apply never_bind; [by never|intros l Hm]. apply never_bind; [|intros ? _; by never].
  unfold slot_of_limit. destruct (find_agent_slot o (pa_agent p)) as [i|] eqn:Ef; [by case_match|].
  case_match; [|done]. destruct (claim_slot o (pa_agent p)) eqn:Hc; [done|].
  exfalso. apply claim_none in Hc. apply Hc. destruct Hs as [Hl Hag Hun _].
  apply find_slot_none in Ef.
  destruct (update_agent_hit _ _ _ _ Hm) as (e1 & _ & He1 & Hk1 & _).
  (* the agent has no slot: at most nine others have one *)
  apply list_elem_of_split in He1 as (l1 & l2 & Hl12).
  apply (free_slot _ ((fun e => encodeAddress (pubkey e)) <$> (l1 ++ l2))).
  - by rewrite slots_length.
  - done.
  - intros b Hb. destruct (Hag b Hb) as [->|(e & He & ->)]; [by left|right].
    apply list_elem_of_fmap. exists e. split; [done|]. rewrite Hl12 in He.
    apply elem_of_app in He as [He|He]; [by apply elem_of_app; left|].
    apply list_elem_of_In in He as [<-|He%list_elem_of_In]; [|by apply elem_of_app; right].
    exfalso. apply Ef. by rewrite <- Hk1.
  - pose proof (ao_count v Ha) as Hc'. rewrite Hl12 in Hc'. rewrite length_fmap, length_app in *.
    cbn in Hc'. lia.
Qed.

Lemma step_never_exhausted c s op : owner_inv s -> owner_step c s op <> Throw exhausted.
Proof using All.
  intros Hi. pose proof (owner_inv_side s Hi) as Hs.
  destruct op as [a cap lim|a|a|a|rem|a cap|b u| | |a cap lim|a|a]; cbn.
  - apply never_bind; [by apply register_never|done].
  - unfold revoke_agent. by never.
  - unfold pause_agent. by never.
  - unfold unpause_agent. by never.
  - unfold freeze_vault. by never.
  - unfold reactivate_vault. apply never_bind; [|done]. never; destruct a, cap; by never.
  - destruct (os_pendingPolicy s); [done|]. unfold queue_policy_update, queue_checks. by never.
  - destruct (os_pendingPolicy s); [|done]. unfold apply_pending_policy. by never.
  - by destruct (os_pendingPolicy s).
  - destruct (perms_of s a); [done|]. unfold queue_agent_permissions_update. by never.
  - destruct (perms_of s a); [|done]. apply never_bind; [by apply apply_perms_never|done].
  - by destruct (perms_of s a).
Qed.

(** ** What the owner's instructions guarantee *)

(** C5: Whatever the owner does to a vault after creating it, the accounts stay well formed:
    at most ten agents, all distinct, none the owner or the zero key, every capability at most
    the operator's; every overlay slot taken belongs to an agent of the vault, no agent has two
    and every agent with a spending limit has one; the policy is within the program's bounds
    (timelock at least 1800 seconds, fee, slippage, list lengths, caps only in allowlist mode
    with one per protocol); the pending flag says whether a pending update exists, and applying
    that update would give a policy within the same bounds. *)
Theorem owner_state_invariant h s : reachable h s -> owner_inv s.
Proof using All. apply reachable_inv. Qed.

(** The program's error for a full overlay cannot happen: in a reachable state a free slot
    is left for every agent the vault can still take, so registering an agent or raising its
    limit from zero never fails for want of a slot. *)
Theorem overlay_never_exhausted h s c op :
  reachable h s -> owner_step c s op <> Throw "OverlaySlotExhausted".
Proof using All. intros Hr. apply step_never_exhausted. by eapply reachable_inv. Qed.

(** C4: A vault's settings change in one way only: an update was queued, neither applied nor
    cancelled since, the timelock that was in force when it was queued (and still is) has
    passed, and the new settings are the old ones with exactly the queued fields replaced. The
    program computes the delay as a signed 64-bit number. *)
Theorem policy_change_waits h s c op s' :
  reachable h s -> owner_step c s op = Ok s' -> settings (os_policy s') <> settings (os_policy s) ->
  op = OApplyPolicy /\
  exists p h1 c0 b h2, os_pendingPolicy s = Some p /\
    h = h1 ++ (c0, OQueuePolicy b (update_of p)) :: h2 /\
    Forall (fun e => e.2 <> OApplyPolicy /\ e.2 <> OCancelPolicy) h1 /\
    unix_timestamp c0 + as_i64 (timelockDuration (os_policy s)) <= unix_timestamp c /\
    os_policy s' = merged (os_policy s) p /\ os_pendingPolicy s' = None.
Proof using All.
  intros Hr H Hne. pose proof (reachable_inv _ _ Hr) as Hi.
  destruct (step_frame _ _ _ _ Hi H) as [Hf _].
  destruct op as [| | | | | |b u| | | | |]; try (destruct Hne; by apply Hf); cbn in H.
  - destruct (os_pendingPolicy s); [discriminate H|].
    apply bind_ok_inv in H as ([pol q] & Hr' & H). injection H as <-. destruct Hne.
    unfold queue_policy_update in Hr'. chain Hr'. by injection Hr' as <- _.
  - destruct (os_pendingPolicy s) as [p|] eqn:Hp; [|discriminate H].
    apply bind_ok_inv in H as (pol & Ha & H). injection H as <-.
    apply apply_inv in Ha as (-> & Ht & _). split; [done|].
    destruct (policy_history _ _ _ Hr Hp) as (h1 & c0 & b & h2 & -> & Hh & He).
    exists p, h1, c0, b, h2. split_and!; [done|done|done|lia|done|done].
  - destruct (os_pendingPolicy s); [|discriminate H]. injection H as <-. by destruct Hne.
Qed.

(** While an agent stays registered, its capability and its spending limit change in one
    way only: a change of exactly these was queued for it, neither applied nor cancelled since,
    and the timelock in force when it was queued, at least 1800 seconds as the program computes
    it, has passed. *)
Theorem permission_change_waits h s c op s' e e' :
  reachable h s -> owner_step c s op = Ok s' ->
  e ∈ agents (os_vault s) -> e' ∈ agents (os_vault s') -> pubkey e' = pubkey e ->
  rights e' <> rights e ->
  op = OApplyPerms (pubkey e) /\
  exists p h1 c0 h2 T,
    h = h1 ++ (c0, OQueuePerms (pubkey e) (pa_newCapability p) (pa_spendingLimitUsd p)) :: h2 /\
    Forall (fun x => x.2 <> OApplyPerms (pubkey e) /\ x.2 <> OCancelPerms (pubkey e)) h1 /\
    1800 <= T <= U64_MAX /\ unix_timestamp c0 + as_i64 T <= unix_timestamp c /\
    rights e' = (pa_newCapability p, pa_spendingLimitUsd p).
Proof using All.
  intros Hr H He He' Hk Hne. pose proof (reachable_inv _ _ Hr) as Hi.
  assert (Hop : exists p, perms_of s (pubkey e) = Some p /\ op = OApplyPerms (pubkey e)).
  { destruct (decide (op = OApplyPerms (pubkey e))) as [->|Hno].
    - cbn in H. destruct (perms_of s (pubkey e)) as [p|]; [by exists p|discriminate H].
    - destruct Hne. by apply (step_rights _ _ _ _ _ _ Hi H He He' Hk). }
  destruct Hop as (p & Hp & ->). split; [done|].
  pose proof (perms_of_elem _ _ _ Hp) as [Hin Hpa].
  pose proof (perms_history _ _ Hr) as Hh. rewrite Forall_forall in Hh.
  destruct (Hh p Hin) as (h1 & c0 & h2 & T & -> & Hu & HT & Hx). rewrite Hpa in Hu.
  cbn in H. rewrite Hp in H. apply bind_ok_inv in H as ([[v pol] o] & Ha & H). injection H as <-.
  unfold apply_agent_permissions_update in Ha. chain Ha. injection Ha as <- _ _.
  exists p, h1, c0, h2, T. rewrite Hpa. split_and!; [done|done|apply HT..|lia|].
  destruct (update_agent_hit _ _ _ _ Hm) as (e1 & e1' & He1 & Hk1 & [= <-] & He1').
  destruct (update_agent_inv _ _ _ _ Hm) as (Hkl & _ & _); [by intros x x' [= <-]|].
  rewrite (keys_inj _ e' _ ltac:(rewrite Hkl; apply (oi_agents s Hi)) He' He1'); [done|].
  cbn. congruence.
Qed.
End machine.

#[global] Arguments reachable {env} _ _.

(** ** One vault's life *)
Definition owner_demo_env : PdaEnv := {|
  encodeAddress a := if bool_decide (a = default_pubkey) then empty_bytes
                     else Z.pos (encode a) :: replicate 31 0;
  getProgramDerivedAddress p s := (p, 255) |}.

Lemma owner_demo_laws : PdaLaws owner_demo_env.
Proof.
  split; cbn.
  - intros a. by case_bool_decide.
  - intros a b. do 2 case_bool_decide; subst; try done. intros [= H']. by apply (inj encode) in H'.
Qed.

Definition owner_demo_args : InitArgs :=
  mkInitArgs 0 1000 500 1 ["jup"] 0 100 1800 [] [].

Definition at_time (t : Z) : Clock := mkClock t (Z.quot t 2).

Definition owner_demo_update : PolicyUpdate :=
  mkUpdate (Some 2000) None None None None None (Some 3600) None None None None None.

(** Create, register, queue a policy and a permission change, and wait. *)
Definition owner_demo_history : list event :=
  [(at_time 300, OQueuePerms "agent" 2 900); (at_time 200, OQueuePolicy 255 owner_demo_update);
   (at_time 150, ORegister "agent" 1 400)].

Definition owner_demo_init : OwnerState :=
  match initialize_vault (at_time 100) "owner" "vault" "fees" 255 254 owner_demo_args with
  | Ok (v, p) => mkOwnerState v p empty_overlay None []
  | Throw _ => mkOwnerState (mkVault "" 0 [] "" Closed 0 0 0 0 0 0 0 0 0 0)
                 (mkPolicy 0 0 0 [] 0 0 0 false false [] 0 "" [] false 0 0 0 0) empty_overlay None []
  end.

Definition owner_demo_after (h : list event) : OwnerState :=
  foldr (fun e s => match owner_step (env := owner_demo_env) e.1 s e.2 with Ok s' => s' | Throw _ => s end)
    owner_demo_init h.

Definition owner_demo_state : OwnerState := owner_demo_after owner_demo_history.

Lemma owner_demo_reachable : reachable (env := owner_demo_env) owner_demo_history owner_demo_state.
Proof.
  eapply (reach_step (env := owner_demo_env) _ (owner_demo_after (tl owner_demo_history)));
    [|by vm_compute|split; vm_compute; split; congruence].
  eapply (reach_step (env := owner_demo_env) _ (owner_demo_after (tl (tl owner_demo_history))));
    [|by vm_compute|split_and!; intros z [= <-]; vm_compute; split; congruence].
  eapply (reach_step (env := owner_demo_env) _ owner_demo_init);
    [|by vm_compute|split; vm_compute; split; congruence].
  eapply (reach_init (env := owner_demo_env) (at_time 100) "owner" "vault" "fees" 255 254 owner_demo_args);
    [by vm_compute|by vm_compute..|split; by vm_compute|done].
Qed.

Lemma owner_state_invariant_witness : @owner_inv owner_demo_env owner_demo_state.
Proof.
  apply (owner_state_invariant (env := owner_demo_env) (laws := owner_demo_laws) eq_refl
    owner_demo_history). exact owner_demo_reachable.
Defined.

Lemma overlay_never_exhausted_witness :
  owner_step (env := owner_demo_env) (at_time 400) owner_demo_state (ORegister "other" 2 1)
  <> Throw "OverlaySlotExhausted".
Proof.
  apply (overlay_never_exhausted (env := owner_demo_env) (laws := owner_demo_laws) eq_refl
    owner_demo_history). exact owner_demo_reachable.
Defined.

(** The queued policy applies at 2000, and not a second before its time. *)
Lemma policy_change_waits_witness :
  owner_step (env := owner_demo_env) (at_time 1999) owner_demo_state OApplyPolicy
    = Throw "TimelockNotExpired" /\
  exists s', owner_step (env := owner_demo_env) (at_time 2000) owner_demo_state OApplyPolicy = Ok s' /\
    os_policy s' <> os_policy owner_demo_state /\
    exists p h1 c0 b h2, owner_demo_history = h1 ++ (c0, OQueuePolicy b (update_of p)) :: h2 /\
      os_policy s' = merged (os_policy owner_demo_state) p.
Proof.
  split; [by vm_compute|]. eexists. split; [vm_compute; reflexivity|]. split; [by vm_compute|].
  destruct (policy_change_waits (env := owner_demo_env) (laws := owner_demo_laws) eq_refl
    owner_demo_history owner_demo_state (at_time 2000) OApplyPolicy
    (owner_demo_after ((at_time 2000, OApplyPolicy) :: owner_demo_history)))
    as (_ & p & h1 & c0 & b & h2 & _ & Hh & _ & _ & Hp & _);
    [exact owner_demo_reachable|by vm_compute|by vm_compute|].
  exists p, h1, c0, b, h2. split; [exact Hh|]. rewrite <- Hp. by vm_compute.
Defined.

Lemma permission_change_waits_witness :
  exists p h1 c0 h2 T,
    owner_demo_history
      = h1 ++ (c0, OQueuePerms "agent" (pa_newCapability p) (pa_spendingLimitUsd p)) :: h2 /\
    unix_timestamp c0 + as_i64 T <= 2100.
Proof.
  destruct (permission_change_waits (env := owner_demo_env) (laws := owner_demo_laws) eq_refl
    owner_demo_history owner_demo_state (at_time 2100) (OApplyPerms "agent")
    (owner_demo_after ((at_time 2100, OApplyPerms "agent") :: owner_demo_history))
    (mkAgent "agent" 1 400 false) (mkAgent "agent" 2 900 false))
    as (_ & p & h1 & c0 & h2 & T & Hh & _ & _ & Ht & _);
    [exact owner_demo_reachable|by vm_compute|vm_compute; left|vm_compute; left|done|by vm_compute|].
  exists p, h1, c0, h2, T. split; [exact Hh|exact Ht].
Defined.
