(* ===== verification/Presets.v ===== *)
(** * Setup helpers ([helpers/*.ts], [presets.ts])

    Reading dollar amounts, the bound on the agents' caps, the token accounts of a new vault,
    and the presets. *)

From S2P Require Import Prelude Types JsText Composer Pdas.
Local Open Scope string_scope.
Local Open Scope Z_scope.
Local Open Scope list_scope.

(** ** [parseUsd]

    The regular expression [^\$(0|[1-9]\d{0,14})(\.\d{1,6})?$]: both groups, or no match. *)
Definition all_digits (s : chars) : bool := forallb is_digit s.

Definition DOLLAR : Ascii.ascii := Ascii.ascii_of_nat 36.
Definition DOT : Ascii.ascii := Ascii.ascii_of_nat 46.
Definition ZERO : Ascii.ascii := Ascii.ascii_of_nat 48.

Definition whole_ok (w : chars) : bool :=
  bool_decide (w = [ZERO]) ||
  (negb (bool_decide (head w = Some ZERO)) && (1 <=? length w)%nat && (length w <=? 15)%nat).

Definition match_usd (s : chars) : option (chars * option chars) :=
  match s with
  | c :: s' =>
      if bool_decide (c = DOLLAR) then
        let '(w, rest) := span is_digit s' in
        if whole_ok w then
          match rest with
          | [] => Some (w, None)
          | d :: f =>
              if bool_decide (d = DOT) && all_digits f && (1 <=? length f)%nat && (length f <=? 6)%nat
              then Some (w, Some f) else None
          end
        else None
      else None
  | [] => None
  end.

Definition USD_BASE : Z := 1000000.

Definition invalid_amount (input : string) : SigilError :=
  sdk_error "SIGIL_ERROR__SDK__INVALID_AMOUNT" [("input", CStr input)].

Definition padEnd (n : nat) (c : Ascii.ascii) (s : chars) : chars := s ++ replicate (n - length s) c.

Definition parseUsd (input : string) : res SigilError Z :=
  match match_usd (String.list_ascii_of_string input) with
  | None => Throw (invalid_amount input)
  | Some (whole, fractionPart) =>
      let result := digits_value whole * USD_BASE in
      Ok (match fractionPart with
          | Some fractionDigits => result + digits_value (padEnd 6 ZERO fractionDigits)
          | None => result
          end)
  end.

(** ** [validateAgentCapAggregate] *)
Definition cap_exceeded : SigilError := sdk_error "SIGIL_ERROR__SDK__CAP_EXCEEDED" [].

Definition validateAgentCapAggregate (vaultDailyCap : Z) (existingAgentCaps : list Z)
    (newAgentCap : Z) : res SigilError unit :=
  throw_if ((vaultDailyCap <? 0) || (newAgentCap <? 0)) cap_exceeded ;;
  for_each (fun c => throw_if (c <? 0) cap_exceeded) existingAgentCaps ;;
  let sum := fold_left (fun s c => s + c) existingAgentCaps newAgentCap in
  throw_if (sum >? vaultDailyCap) cap_exceeded.

(** ** [initializeVaultAtas] *)
Definition CREATE_IDEMPOTENT_DISCRIMINATOR : Z := 1.

Section atas.
Context `{env : PdaEnv}.

Definition buildCreateIdempotentIx (payer ata owner mint : Address) : Instruction :=
  mkInstruction ATA_PROGRAM_ADDRESS
    (Some [mkMeta payer WRITABLE_SIGNER None; mkMeta ata WRITABLE None; mkMeta owner READONLY None;
           mkMeta mint READONLY None; mkMeta SYSTEM_PROGRAM_ADDRESS READONLY None;
           mkMeta TOKEN_PROGRAM_ADDRESS READONLY None])
    (Some [CREATE_IDEMPOTENT_DISCRIMINATOR]).

(** [Array.from(new Set(l))]: the first occurrences, in order. *)
Definition set_of (l : list string) : list string :=
  fold_left (fun acc x => if bool_decide (x ∈ acc) then acc else acc ++ [x]) l [].

Definition initializeVaultAtas (vault payer : Address) (mints allowedMints : list Address)
    : res SigilError (list Instruction) :=
  if bool_decide (mints = []) then Ok []
  else
    for_each (fun mint => throw_if (negb (bool_decide (mint ∈ allowedMints)))
                (sdk_error "SIGIL_ERROR__SDK__SPL_TOKEN_OP_BLOCKED" [("mint", CStr mint)])) mints ;;
    Ok ((fun mint => buildCreateIdempotentIx payer (Pda.deriveAta vault mint) vault mint) <$> set_of mints).
End atas.

(** ** Vault presets *)
Definition FLASH_TRADE_PROGRAM : Address := "FLASH6Lo6h3iasJKWDs2F8TkW2UKf3s15C8PMGuVfgBn".
Definition JUPITER_LEND_PROGRAM : Address := "JLend2fEim9xUFcaHsyGePEoBzFLvkjMi3MnPcSuCdu".
Definition KAMINO_LEND_PROGRAM : Address := "KLend2g3cP87ber8CzRaqeECGwNvLFM9acPVcRkRHvM".

Record VaultPreset := mkPreset {
  vp_label : string;
  vp_capability : Z;
  vp_permissions : Z;
  vp_dailySpendingCapUsd : Z;
  vp_maxTransactionSizeUsd : Z;
  vp_maxSlippageBps : Z;
  vp_protocolMode : Z;
  vp_protocols : list Address;
}.

Definition VAULT_PRESETS : jsmap VaultPreset :=
  [ ("jupiter-swap-bot",
     mkPreset "Jupiter Swap Bot" FULL_CAPABILITY FULL_CAPABILITY 500000000 100000000 200
       PROTOCOL_MODE_ALLOWLIST [JUPITER_PROGRAM_ADDRESS]);
    ("perps-trader",
     mkPreset "Perps Trader" FULL_CAPABILITY FULL_CAPABILITY 5000000000 1000000000 500
       PROTOCOL_MODE_ALLOWLIST [JUPITER_PROGRAM_ADDRESS; FLASH_TRADE_PROGRAM]);
    ("lending-optimizer",
     mkPreset "Lending Optimizer" FULL_CAPABILITY FULL_CAPABILITY 2000000000 500000000 100
       PROTOCOL_MODE_ALLOWLIST [JUPITER_PROGRAM_ADDRESS; JUPITER_LEND_PROGRAM; KAMINO_LEND_PROGRAM]);
    ("full-access",
     mkPreset "Full Access" FULL_CAPABILITY FULL_CAPABILITY 10000000000 5000000000 500
       PROTOCOL_MODE_ALL []) ].

Definition getPreset (name : string) : option VaultPreset := jm_get name VAULT_PRESETS.
Definition listPresets : list string := VAULT_PRESETS.*1.

(** ** Safety presets: [None] is [null] *)
Record SafetyPresetFields := mkSafety {
  sp_timelockDuration : Z;
  sp_spendingLimitUsd : option Z;
  sp_dailySpendingCapUsd : option Z;
}.

Inductive SafetyPresetName := development | production.

Definition SAFETY_PRESETS (name : SafetyPresetName) : SafetyPresetFields :=
  match name with
  | development => mkSafety 1800 (Some 100000000) (Some 500000000)
  | production => mkSafety 86400 None None
  end.

(** [overrides]: an absent field and [null] both fall back to the preset. *)
Definition applySafetyPreset (name : SafetyPresetName) (timelock limit cap : option Z)
    : SafetyPresetFields :=
  let preset := SAFETY_PRESETS name in
  mkSafety (default (sp_timelockDuration preset) timelock)
    (match limit with Some l => Some l | None => sp_spendingLimitUsd preset end)
    (match cap with Some c => Some c | None => sp_dailySpendingCapUsd preset end).

Record ResolvedSafety := mkResolvedSafety {
  rsp_timelockDuration : Z;
  rsp_spendingLimitUsd : Z;
  rsp_dailySpendingCapUsd : Z;
}.

Definition requireResolvedSafetyPreset (preset : SafetyPresetFields) : res SigilError ResolvedSafety :=
  match sp_spendingLimitUsd preset, sp_dailySpendingCapUsd preset with
  | Some limit, Some cap => Ok (mkResolvedSafety (sp_timelockDuration preset) limit cap)
  | _, _ => Throw (sdk_error "Error" [])
  end.
