(* ===== verification/CreateVault.v ===== *)
(** * Creating a vault ([inscribe.ts], [create-vault.ts], [preview-create-vault.ts])

    The two instructions that make a vault and register its first agent, the transaction
    around them, and the preview of it that an owner sees before signing. RPC answers are
    arguments; the codecs are [ClientLib]'s. Numbers of the type [number] are integers
    ([jsnum] where the code tests that). *)

From Stdlib Require Import QArith.
From S2P Require Import Prelude Types Accounts Bytes JsText Pdas AltLoader Composer Policies StateResolver RpcHelpers Executor Codecs Instructions InstructionTable Presets.
Local Open Scope string_scope.
Local Open Scope Z_scope.
Local Open Scope list_scope.

(** ** [mapPoliciesToVaultParams] *)
Record VaultParamOpts := mkParamOpts {
  vo_developerFeeRate : option Z;
  vo_timelockDuration : option Z;
  vo_allowedDestinations : option (list Address);
  vo_maxSlippageBps : option Z;
}.

Record VaultParams := mkVaultParams {
  vpar_vaultId : Z;
  vpar_dailySpendingCap : Z;
  vpar_maxTransactionSize : Z;
  vpar_protocolMode : Z;
  vpar_protocols : list Address;
  vpar_feeDestination : Address;
  vpar_developerFeeRate : Z;
  vpar_timelockDuration : Z;
  vpar_allowedDestinations : list Address;
  vpar_maxSlippageBps : Z;
}.

Definition mapPoliciesToVaultParams (resolved : ResolvedPolicies) (vaultId : Z)
    (feeDestination : Address) (opts : VaultParamOpts) : VaultParams :=
  let maxCap := fold_left (fun m l => if sl_amount l >? m then sl_amount l else m)
                  (spendLimits resolved) 0 in
  let protocols := take 10 (default [] (allowedProtocols resolved)) in
  mkVaultParams vaultId maxCap (default maxCap (maxTransactionSize resolved))
    (if (0 <? length protocols)%nat then 1 else 0) protocols feeDestination
    (default 0 (vo_developerFeeRate opts)) (default 0 (vo_timelockDuration opts))
    (default [] (vo_allowedDestinations opts)) (default 100 (vo_maxSlippageBps opts)).

Section create.
Context `{env : PdaEnv} `{lib : ClientLib}.

(** ** [findNextVaultId]

    [fetch]: whether [fetchMaybeAgentVault] finds an account; [found]: what
    [findVaultsByOwner(rpc, owner, 100)] answers. *)
Fixpoint probe_slots (fetch : Address -> res SigilError bool) (owner programAddress : Address)
    (slots : list Z) : res SigilError (option Z) :=
  match slots with
  | [] => Ok None
  | i :: slots' =>
      exists_ ← fetch (Pda.getVaultPDA owner i programAddress).1;
      if exists_ : bool then probe_slots fetch owner programAddress slots' else Ok (Some i)
  end.

Definition vault_slots_exhausted (owner : Address) : SigilError :=
  sdk_error "SIGIL_ERROR__SDK__VAULT_SLOTS_EXHAUSTED" [("owner", CStr owner)].

Definition max_id (vaults : list VaultLocator) : Z :=
  fold_left (fun m v => if loc_vaultId v >? m then loc_vaultId v else m) vaults 0.

Definition findNextVaultId (fetch : Address -> res SigilError bool)
    (found : res SigilError (list VaultLocator)) (owner programAddress : Address) : res SigilError Z :=
  slot ← probe_slots fetch owner programAddress [0; 1; 2; 3; 4];
  match slot with
  | Some i => Ok i
  | None =>
      vaults ← found;
      if bool_decide (vaults = []) then Ok 0
      else
        let nextId := max_id vaults + 1 in
        throw_if (nextId >=? 256) (vault_slots_exhausted owner) ;;
        Ok nextId
  end.

(** ** [inscribe] *)
Definition owner_agent_collision (owner agent : Address) : SigilError :=
  sdk_error "SIGIL_ERROR__SDK__OWNER_AGENT_COLLISION" [("owner", CStr owner); ("agent", CStr agent)].

Record InscribeResult := mkInscribed {
  is_vaultAddress : Address;
  is_vaultId : Z;
  is_policyAddress : Address;
  is_pendingPolicyAddress : Address;
  is_agentAddress : Address;
  is_ownerAddress : Address;
}.

Definition inscribe (nextId : res SigilError Z) (network : Network) (owner agent : Address)
    (vaultId : option Z) : res SigilError InscribeResult :=
  validateNetwork network ;;
  throw_if (bool_decide (owner = agent)) (owner_agent_collision owner agent) ;;
  id ← match vaultId with Some i => Ok i | None => nextId end;
  let vault := (Pda.getVaultPDA owner id SIGIL_PROGRAM_ID).1 in
  Ok (mkInscribed vault id (Pda.getPolicyPDA vault SIGIL_PROGRAM_ID).1
        (Pda.getPendingPolicyPDA vault SIGIL_PROGRAM_ID).1 agent owner).

(** ** [createVault]

    The three required fields are [None] when they are missing or of another type. *)
Record CreateVaultOptions := mkCreateOptions {
  cv_owner : Address;
  cv_agent : Address;
  cv_permissions : option Z;
  cv_spendingLimitUsd : option Z;
  cv_dailySpendingCapUsd : option Z;
  cv_maxTransactionSizeUsd : option Z;
  cv_feeDestination : option Address;
  cv_developerFeeRate : option Z;
  cv_protocols : option (list Address);
  cv_protocolMode : option Z;
  cv_protocolCaps : option (list Z);
  cv_maxSlippageBps : option Z;
  cv_timelockDuration : option Z;
  cv_allowedDestinations : option (list Address);
  cv_vaultId : option Z;
}.

Record CreateVaultResult := mkCreated {
  cr_vaultAddress : Address;
  cr_vaultId : Z;
  cr_policyAddress : Address;
  cr_agentOverlayAddress : Address;
  cr_initializeVaultIx : Instruction;
  cr_registerAgentIx : Instruction;
}.

Definition invalid_params (field : string) : SigilError :=
  sdk_error "SIGIL_ERROR__SDK__INVALID_PARAMS" [("field", CStr field)].
Definition invalid_capability : SigilError := sdk_error "SIGIL_ERROR__SDK__INVALID_CAPABILITY" [].

Definition required {A} (o : option A) (field : string) : res SigilError A :=
  match o with Some x => Ok x | None => Throw (invalid_params field) end.

(** What the codecs and builders throw is not one of the SDK's own errors. *)
Definition client_res {A} (r : res client_error A) : res SigilError A :=
  match r with Ok x => Ok x | Throw _ => Throw (sdk_error "SolanaError" []) end.

Definition addr_list (l : list Address) : cval := VlList (VlAddr <$> l).
Definition int_list (l : list Z) : cval := VlList (VlInt <$> l).

Definition createVault (nextId : res SigilError Z) (options : CreateVaultOptions)
    : res SigilError CreateVaultResult :=
  throw_if (bool_decide (cv_owner options = cv_agent options))
    (owner_agent_collision (cv_owner options) (cv_agent options)) ;;
  spendingLimitUsd ← required (cv_spendingLimitUsd options) "spendingLimitUsd";
  dailySpendingCapUsd ← required (cv_dailySpendingCapUsd options) "dailySpendingCapUsd";
  timelockDuration ← required (cv_timelockDuration options) "timelockDuration";
  validateAgentCapAggregate dailySpendingCapUsd [] spendingLimitUsd ;;
  (match cv_permissions options with
   | Some cap => throw_if ((cap <? 0) || (cap >? 2)) invalid_capability
   | None => Ok tt
   end) ;;
  vaultId ← match cv_vaultId options with Some i => Ok i | None => nextId end;
  let vaultAddress := (Pda.getVaultPDA (cv_owner options) vaultId SIGIL_PROGRAM_ID).1 in
  let policyAddress := (Pda.getPolicyPDA vaultAddress SIGIL_PROGRAM_ID).1 in
  let agentOverlayAddress := (Pda.getAgentOverlayPDA vaultAddress 0 SIGIL_PROGRAM_ID).1 in
  let protocols := default [] (cv_protocols options) in
  let protocolCaps := default ((fun _ => 0) <$> protocols) (cv_protocolCaps options) in
  initializeVaultIx ← client_res (getInstructionAsync InitializeVault_ix
    [ ("owner", cv_owner options); ("agentSpendOverlay", agentOverlayAddress);
      ("feeDestination", default (cv_owner options) (cv_feeDestination options)) ]
    [ ("vaultId", VlInt vaultId);
      ("dailySpendingCapUsd", VlInt dailySpendingCapUsd);
      ("maxTransactionSizeUsd", VlInt (default dailySpendingCapUsd (cv_maxTransactionSizeUsd options)));
      ("protocolMode", VlInt (default 0 (cv_protocolMode options)));
      ("protocols", addr_list protocols);
      ("developerFeeRate", VlInt (default 0 (cv_developerFeeRate options)));
      ("maxSlippageBps", VlInt (default 100 (cv_maxSlippageBps options)));
      ("timelockDuration", VlInt timelockDuration);
      ("allowedDestinations", addr_list (default [] (cv_allowedDestinations options)));
      ("protocolCaps", int_list protocolCaps) ]);
  registerAgentIx ← client_res (getInstruction RegisterAgent_ix
    [ ("owner", cv_owner options); ("vault", vaultAddress); ("agentSpendOverlay", agentOverlayAddress) ]
    [ ("agent", VlAddr (cv_agent options));
      ("capability", VlInt (default FULL_CAPABILITY (cv_permissions options)));
      ("spendingLimitUsd", VlInt spendingLimitUsd) ]);
  Ok (mkCreated vaultAddress vaultId policyAddress agentOverlayAddress initializeVaultIx registerAgentIx).

(** [presetToCreateVaultFields], spread over the options. *)
Definition presetToCreateVaultFields (p : VaultPreset) (o : CreateVaultOptions) : CreateVaultOptions :=
  mkCreateOptions (cv_owner o) (cv_agent o) (Some (vp_permissions p)) (cv_spendingLimitUsd o)
    (Some (vp_dailySpendingCapUsd p)) (Some (vp_maxTransactionSizeUsd p)) (cv_feeDestination o)
    (cv_developerFeeRate o) (Some (vp_protocols p)) (Some (vp_protocolMode p)) (cv_protocolCaps o)
    (Some (vp_maxSlippageBps p)) (cv_timelockDuration o) (cv_allowedDestinations o) (cv_vaultId o).

(** ** [createAndSendVault] *)
Context {Tx : Type} `{txlib : !TxLib Tx}.

Definition create_owner_params (rpc : string) (network : Network) (owner : Address)
    (r : CreateVaultResult) (computeUnits priorityFee : option Z) (alts : option AltContents)
    (blockhash : option Blockhash) : BuildOwnerTransactionParams :=
  mkOwnerParams rpc owner [cr_initializeVaultIx r; cr_registerAgentIx r] network computeUnits
    priorityFee alts blockhash.

(** [send]: what sending the encoded bytes answers. [None]: out of fuel. *)
Definition createAndSendVault (oc : OwnerCaches) (w : OwnerWorld) (nextId : res SigilError Z)
    (rpc : string) (network : Network) (options : CreateVaultOptions)
    (computeUnits priorityFee : option Z) (signer : Signer Tx) (send : string -> res SigilError string)
    (confirmOptions : SendAndConfirmOptions) (confirm : ConfirmEnv) (fuel : nat)
    : option (res SigilError (CreateVaultResult * string)) :=
  match createVault nextId options with
  | Throw e => Some (Throw e)
  | Ok result =>
      match (buildOwnerTransaction oc w (create_owner_params rpc network (cv_owner options) result
               computeUnits priorityFee None None)).1 with
      | Throw e => Some (Throw e)
      | Ok ownerTx =>
          match signAndEncode signer (ot_transaction ownerTx) with
          | Throw e => Some (Throw e)
          | Ok encoded =>
              (fun r => signature ← r; Ok (result, signature))
              <$> sendAndConfirmTransaction confirmOptions (send encoded) confirm fuel
          end
      end
  end.

(** ** [previewCreateVault] *)
Definition AGENT_VAULT_SIZE : Z := 634.
Definition POLICY_CONFIG_SIZE : Z := 822.
Definition SPEND_TRACKER_SIZE : Z := 2840.
Definition AGENT_SPEND_OVERLAY_SIZE : Z := 2528.
Definition DEFAULT_PRIORITY_FEE_MICRO_LAMPORTS : Z := 10000.
Definition CU_VAULT_CREATION : Z := 400000.
Definition LAMPORTS_PER_SOL : Z := 1000000000.
Definition MICRO_LAMPORTS_PER_LAMPORT : Z := 1000000.
Definition DAILY_CAP_HIGH_THRESHOLD : Z := 1000000000000.
Definition MIN_TIMELOCK_DURATION_SECONDS : Z := 1800.
Definition MAX_ALLOWED_DESTINATIONS_COUNT : Z := 10.
Definition NUMBER_MAX_SAFE_INTEGER : Z := 9007199254740991.

(** A [number]: an integer, or one that [Number.isInteger] refuses. *)
Inductive jsnum := NInt (z : Z) | NOther.

Record PreviewCreateVaultConfig := mkPreviewConfig {
  pc_rpc : string;
  pc_owner : Address;
  pc_agentAddress : Address;
  pc_network : string;
  pc_vaultId : Z;
  pc_dailyCapUsd : Z;
  pc_maxTxSizeUsd : Z;
  pc_spendingLimitUsd : Z;
  pc_developerFeeRate : jsnum;
  pc_maxSlippageBps : jsnum;
  pc_timelockDuration : Z;
  pc_protocolMode : Z;
  pc_protocols : list Address;
  pc_protocolCaps : list Z;
  pc_allowedDestinations : list Address;
  pc_feeDestination : Address;
  pc_capabilityTier : option Z;
  pc_solPriceUsd : Z;
  pc_priorityFeeMicroLamports : option jsnum;
  pc_computeUnits : option jsnum;
  pc_blockhash : option Blockhash;
  pc_addressLookupTables : option AltContents;
}.

Record VaultPdaInfo := mkPdaInfo {
  vi_name : string;
  vi_address : Address;
  vi_bump : Z;
  vi_sizeBytes : Z;
  vi_rentLamports : Z;
}.

Record PreviewWarning := mkWarning {
  pw_code : string;
  pw_severity : string;
  pw_field : string;
  pw_suggestedValue : option Z;
}.

Record CreateVaultPreview := mkPreview {
  pv_pdaList : list VaultPdaInfo;
  pv_rentLamports : Z;
  pv_computeUnits : Z;
  pv_feeLamports : Z;
  pv_totalCostUsd : Z;
  pv_vaultAddress : Address;
  pv_unsignedTxBytes : bytes;
  pv_txSizeBytes : Q;
  pv_lastValidBlockHeight : Z;
  pv_warnings : option (list PreviewWarning);
}.

Definition range_error (field : string) : SigilError := sdk_error "RangeError" [("field", CStr field)].
Definition check_range (bad : bool) (field : string) : res SigilError unit :=
  throw_if bad (range_error field).

(** [!Number.isInteger(n) || n < lo]. *)
Definition not_integer_from (lo : Z) (n : jsnum) : bool :=
  match n with NInt z => z <? lo | NOther => true end.
Definition exceeds (n : jsnum) (hi : Z) : bool :=
  match n with NInt z => z >? hi | NOther => false end.

Definition check_caps (config : PreviewCreateVaultConfig) : res SigilError unit :=
  if (0 <? length (pc_protocolCaps config))%nat then
    check_range (negb (pc_protocolMode config =? 1)) "protocolCaps" ;;
    check_range (negb (length (pc_protocolCaps config) =? length (pc_protocols config))%nat) "protocolCaps" ;;
    for_each (fun cap => check_range (cap <? 0) "protocolCaps" ;; check_range (cap >? U64_MAX) "protocolCaps")
      (pc_protocolCaps config)
  else Ok tt.

Definition validateConfig (config : PreviewCreateVaultConfig) : res SigilError unit :=
  validateNetwork (pc_network config) ;;
  check_range (pc_vaultId config <? 0) "vaultId" ;;
  check_range (pc_dailyCapUsd config <? 0) "dailyCapUsd" ;;
  check_range (pc_maxTxSizeUsd config <? 0) "maxTxSizeUsd" ;;
  check_range (pc_spendingLimitUsd config <? 0) "spendingLimitUsd" ;;
  check_range (pc_solPriceUsd config <=? 0) "solPriceUsd" ;;
  check_range (pc_timelockDuration config <? 0) "timelockDuration" ;;
  check_range (pc_dailyCapUsd config >? U64_MAX) "dailyCapUsd" ;;
  check_range (pc_maxTxSizeUsd config >? U64_MAX) "maxTxSizeUsd" ;;
  check_range (pc_spendingLimitUsd config >? U64_MAX) "spendingLimitUsd" ;;
  check_range (pc_solPriceUsd config >? U64_MAX) "solPriceUsd" ;;
  check_range (pc_timelockDuration config >? NUMBER_MAX_SAFE_INTEGER) "timelockDuration" ;;
  check_range (pc_timelockDuration config <? MIN_TIMELOCK_DURATION_SECONDS) "timelockDuration" ;;
  check_range (not_integer_from 0 (pc_developerFeeRate config)) "developerFeeRate" ;;
  check_range (exceeds (pc_developerFeeRate config) MAX_DEVELOPER_FEE_RATE) "developerFeeRate" ;;
  check_range (not_integer_from 0 (pc_maxSlippageBps config)) "maxSlippageBps" ;;
  check_range (Z.of_nat (length (pc_protocols config)) >? MAX_ALLOWED_PROTOCOLS) "protocols" ;;
  check_range (Z.of_nat (length (pc_allowedDestinations config)) >? MAX_ALLOWED_DESTINATIONS_COUNT)
    "allowedDestinations" ;;
  check_caps config ;;
  check_range (bool_decide (pc_feeDestination config = SYSTEM_PROGRAM_ADDRESS)) "feeDestination" ;;
  (match pc_priorityFeeMicroLamports config with
   | Some n => check_range (not_integer_from 0 n) "priorityFeeMicroLamports" | None => Ok tt end) ;;
  (match pc_computeUnits config with
   | Some n => check_range (not_integer_from 1 n) "computeUnits" | None => Ok tt end).

Definition toBuildNetwork (network : string) : Network :=
  if bool_decide (network = "devnet") then "devnet" else "mainnet".

(** [None]: the answer is no [bigint]. *)
Definition fetchRentForSize (rent : Z -> res SigilError (option Z)) (size : Z) (pdaName : string)
    : res SigilError Z :=
  r ← rent size;
  match r with
  | None => Throw (sdk_error "SIGIL_ERROR__SDK__INVALID_PARAMS" [("field", CStr pdaName)])
  | Some z =>
      throw_if (z <=? 0)
        (sdk_error "SIGIL_ERROR__SDK__INVALID_PARAMS" [("field", CStr pdaName); ("received", CNum z)]) ;;
      Ok z
  end.

Definition string_ltb (a b : string) : bool :=
  match String.compare a b with Lt => true | _ => false end.

(** [warnings.sort] by code, for the at most four warnings pushed in order. *)
Fixpoint insert_warning (w : PreviewWarning) (l : list PreviewWarning) : list PreviewWarning :=
  match l with
  | [] => [w]
  | x :: l' => if string_ltb (pw_code w) (pw_code x) then w :: l else x :: insert_warning w l'
  end.
Definition sort_warnings (l : list PreviewWarning) : list PreviewWarning :=
  fold_left (fun acc w => insert_warning w acc) l [].

Definition buildWarnings (config : PreviewCreateVaultConfig) : list PreviewWarning :=
  sort_warnings
    ((if pc_dailyCapUsd config =? 0 then [mkWarning "daily_cap_zero" "info" "dailyCapUsd" None] else []) ++
     (if pc_dailyCapUsd config >? DAILY_CAP_HIGH_THRESHOLD
      then [mkWarning "daily_cap_unusually_high" "warning" "dailyCapUsd" (Some DAILY_CAP_HIGH_THRESHOLD)]
      else []) ++
     (if (pc_protocolMode config =? 1) && (length (pc_protocols config) =? 0)%nat
      then [mkWarning "no_protocols_approved" "warning" "protocols" None] else []) ++
     (if pc_maxTxSizeUsd config >? pc_dailyCapUsd config
      then [mkWarning "max_tx_exceeds_daily_cap" "warning" "maxTxSizeUsd" (Some (pc_dailyCapUsd config))]
      else [])).

Definition jsnum_int (n : jsnum) : Z := match n with NInt z => z | NOther => 0 end.

(** The options of the [createVault] call; after [validateConfig] the numbers are integers. *)
Definition preview_options (config : PreviewCreateVaultConfig) : CreateVaultOptions :=
  mkCreateOptions (pc_owner config) (pc_agentAddress config) (pc_capabilityTier config)
    (Some (pc_spendingLimitUsd config)) (Some (pc_dailyCapUsd config)) (Some (pc_maxTxSizeUsd config))
    (Some (pc_feeDestination config)) (Some (jsnum_int (pc_developerFeeRate config)))
    (Some (pc_protocols config)) (Some (pc_protocolMode config))
    (if (0 <? length (pc_protocolCaps config))%nat then Some (pc_protocolCaps config) else None)
    (Some (jsnum_int (pc_maxSlippageBps config))) (Some (pc_timelockDuration config))
    (Some (pc_allowedDestinations config)) (Some (pc_vaultId config)).

Definition preview_computeUnits (config : PreviewCreateVaultConfig) : Z :=
  default CU_VAULT_CREATION (jsnum_int <$> pc_computeUnits config).
Definition preview_priorityFee (config : PreviewCreateVaultConfig) : Z :=
  default DEFAULT_PRIORITY_FEE_MICRO_LAMPORTS (jsnum_int <$> pc_priorityFeeMicroLamports config).

(** [Promise.all] rejects with the first answer to fail; the model takes them in order. *)
Definition previewCreateVault (oc : OwnerCaches) (w : OwnerWorld)
    (rent : Z -> res SigilError (option Z)) (config : PreviewCreateVaultConfig)
    : res SigilError CreateVaultPreview :=
  validateConfig config ;;
  let buildNetwork := toBuildNetwork (pc_network config) in
  let '(vaultAddress, vaultBump) := Pda.getVaultPDA (pc_owner config) (pc_vaultId config) SIGIL_PROGRAM_ID in
  let '(policyAddress, policyBump) := Pda.getPolicyPDA vaultAddress SIGIL_PROGRAM_ID in
  let '(trackerAddress, trackerBump) := Pda.getTrackerPDA vaultAddress SIGIL_PROGRAM_ID in
  let '(overlayAddress, overlayBump) := Pda.getAgentOverlayPDA vaultAddress 0 SIGIL_PROGRAM_ID in
  vaultRent ← fetchRentForSize rent AGENT_VAULT_SIZE "AgentVault";
  policyRent ← fetchRentForSize rent POLICY_CONFIG_SIZE "PolicyConfig";
  trackerRent ← fetchRentForSize rent SPEND_TRACKER_SIZE "SpendTracker";
  overlayRent ← fetchRentForSize rent AGENT_SPEND_OVERLAY_SIZE "AgentSpendOverlay";
  let rentLamports := vaultRent + policyRent + trackerRent + overlayRent in
  createResult ← createVault (Ok 0) (preview_options config);
  let computeUnits := preview_computeUnits config in
  let priorityFeeMicroLamports := preview_priorityFee config in
  ownerTx ← (buildOwnerTransaction oc w (create_owner_params (pc_rpc config) buildNetwork
               (pc_owner config) createResult (Some computeUnits) (Some priorityFeeMicroLamports)
               (pc_addressLookupTables config) (pc_blockhash config))).1;
  let feeLamports := Z.quot (priorityFeeMicroLamports * computeUnits) MICRO_LAMPORTS_PER_LAMPORT in
  let totalCostUsd :=
    Z.quot ((rentLamports + feeLamports) * pc_solPriceUsd config) LAMPORTS_PER_SOL in
  unsignedTxBytes ← base64ToUint8Array (ot_wireBase64 ownerTx);
  let warningsRaw := buildWarnings config in
  Ok {| pv_pdaList :=
          [mkPdaInfo "AgentVault" vaultAddress vaultBump AGENT_VAULT_SIZE vaultRent;
           mkPdaInfo "PolicyConfig" policyAddress policyBump POLICY_CONFIG_SIZE policyRent;
           mkPdaInfo "SpendTracker" trackerAddress trackerBump SPEND_TRACKER_SIZE trackerRent;
           mkPdaInfo "AgentSpendOverlay" overlayAddress overlayBump AGENT_SPEND_OVERLAY_SIZE overlayRent];
        pv_rentLamports := rentLamports; pv_computeUnits := computeUnits; pv_feeLamports := feeLamports;
        pv_totalCostUsd := totalCostUsd; pv_vaultAddress := vaultAddress;
        pv_unsignedTxBytes := unsignedTxBytes; pv_txSizeBytes := ot_txSizeBytes ownerTx;
        pv_lastValidBlockHeight := bh_lastValidBlockHeight (ot_blockhash ownerTx);
        pv_warnings := if (0 <? length warningsRaw)%nat then Some warningsRaw else None |}.
End create.
