(* ===== verification/CreateVaultSpec.v ===== *)
(** * What the preview of a vault promises

    The configurations [previewCreateVault] accepts against the checks of the program's
    [initialize_vault] and [register_agent], the search for a free vault id, the presets and
    [parseUsd]. *)

From Stdlib Require Import QArith.
From S2P Require Import Prelude Types Accounts Bytes OnChain JsText Pdas AltLoader Composer Policies StateResolver RpcHelpers Executor ExecutorSpec Codecs Instructions InstructionTable InstructionSpec OwnerChain OwnerSpec Presets CreateVault.
Local Open Scope string_scope.
Local Open Scope Z_scope.
Local Open Scope list_scope.

(** ** The arguments of [initialize_vault] in the client's codecs *)
Definition init_args_val (a : InitArgs) : struct_val :=
  [ ("vaultId", VlInt (ia_vaultId a));
    ("dailySpendingCapUsd", VlInt (ia_dailySpendingCapUsd a));
    ("maxTransactionSizeUsd", VlInt (ia_maxTransactionSizeUsd a));
    ("protocolMode", VlInt (ia_protocolMode a));
    ("protocols", addr_list (ia_protocols a));
    ("developerFeeRate", VlInt (ia_developerFeeRate a));
    ("maxSlippageBps", VlInt (ia_maxSlippageBps a));
    ("timelockDuration", VlInt (ia_timelockDuration a));
    ("allowedDestinations", addr_list (ia_allowedDestinations a));
    ("protocolCaps", int_list (ia_protocolCaps a)) ].

Definition register_args_val (agent : Address) (cap limit : Z) : struct_val :=
  [("agent", VlAddr agent); ("capability", VlInt cap); ("spendingLimitUsd", VlInt limit)].

Section spec.
Context `{env : PdaEnv} `{pdaLaws : !PdaLaws env} {lib : ClientLib} `{laws : !ClientLaws lib}.

Lemma typed_addr_list l : Z.of_nat (length l) < 2 ^ 32 -> typed (TVec TAddress) (addr_list l) = true.
Proof.
  intros Hl. unfold addr_list.
  transitivity ((Z.of_nat (length (VlAddr <$> l)) <? 2 ^ 32) && forallb (typed TAddress) (VlAddr <$> l)); [done|].
  apply andb_true_iff. split.
  - rewrite length_fmap. apply Z.ltb_lt. lia.
  - clear Hl. induction l as [|a l IH]; [done|]. rewrite fmap_cons. cbn [forallb]. by rewrite IH.
Qed.

Lemma typed_int_list l :
  Z.of_nat (length l) < 2 ^ 32 -> Forall is_u64 l -> typed (TVec TU64) (int_list l) = true.
Proof.
  intros Hl Hu. unfold int_list.
  transitivity ((Z.of_nat (length (VlInt <$> l)) <? 2 ^ 32) && forallb (typed TU64) (VlInt <$> l)); [done|].
  apply andb_true_iff. split.
  - rewrite length_fmap. apply Z.ltb_lt. lia.
  - clear Hl. induction Hu as [|z l Hz _ IH]; [done|]. rewrite fmap_cons. cbn [forallb].
    rewrite IH, andb_true_r. cbn [typed int_range]. unfold in_bounds, is_u64, U64_MAX in *. lia.
Qed.

(** What a builder returned, encoded the arguments it was given. *)
Lemma built_data ds sp input args ix :
  build ds sp input args = Ok ix ->
  exists accs d, resolve_defaults ds args input = Ok accs /\
    ins_accounts ix = Some (account_meta accs <$> ix_accounts sp) /\ ins_data ix = Some d /\
    ins_program ix = SIGIL_PROGRAM_ID /\
    encodeStruct (data_type sp) (data_value sp args) = Some d /\ ranges_ok (ix_args sp) args = true.
Proof.
  intros H. unfold build in H. apply bind_ok_inv in H as (accs & Hr & H).
  apply bind_ok_inv in H as (d & Hd & H). injection H as <-. exists accs, d.
  destruct (encodeStruct (data_type sp) (data_value sp args)) as [d'|] eqn:He; [|discriminate Hd].
  injection Hd as <-. split_and!; try done.
  assert (Hok : ranges_ok (data_type sp) (data_value sp args) = true) by (apply encode_ranges; by rewrite He).
  exact Hok.
Qed.

Lemma decoded sp args d :
  encodeStruct (data_type sp) (data_value sp args) = Some d ->
  typed_fields (ix_args sp) args = true -> length (ix_discriminator sp) = 8%nat ->
  decodeStruct (data_type sp) d = Some (data_value sp args).
Proof.
  intros He Ht Hl. destruct (encode_typed (data_type sp) (data_value sp args)) as (d' & He' & Hd).
  - cbn. rewrite bool_decide_true, Hl by done. exact Ht.
  - congruence.
Qed.

Definition init_typed (a : InitArgs) : Prop :=
  Z.of_nat (length (ia_protocols a)) <= 10 /\ Z.of_nat (length (ia_allowedDestinations a)) <= 10 /\
  Z.of_nat (length (ia_protocolCaps a)) <= 10 /\ Forall is_u64 (ia_protocolCaps a).

Lemma init_args_typed a :
  init_typed a -> ranges_ok InitializeVault_args (init_args_val a) = true ->
  typed_fields InitializeVault_args (init_args_val a) = true /\
  is_u64 (ia_vaultId a) /\ 0 <= ia_maxSlippageBps a /\ 0 <= ia_developerFeeRate a.
Proof.
  intros (H1 & H2 & H3 & H4) H.
  pose proof (typed_addr_list (ia_protocols a) ltac:(lia)) as T1.
  pose proof (typed_addr_list (ia_allowedDestinations a) ltac:(lia)) as T2.
  pose proof (typed_int_list (ia_protocolCaps a) ltac:(lia) H4) as T3.
  unfold InitializeVault_args, init_args_val in *.
  cbn [ranges_ok range_ok int_range] in H. rewrite !andb_true_iff in H.
  destruct H as (R1 & R2 & R3 & R4 & _ & R5 & R6 & R7 & _ & _ & _).
  split.
  - cbn [typed_fields]. rewrite T1, T2, T3. cbn [typed int_range].
    rewrite R1, R2, R3, R4, R5, R6, R7. reflexivity.
  - unfold in_bounds, is_u64, U64_MAX in *. lia.
Qed.

(** ** [createVault] *)
Lemma client_res_ok {A} (r : res client_error A) x : client_res r = Ok x -> r = Ok x.
Proof. destruct r; cbn; congruence. Qed.

Lemma cap_aggregate_ok cap caps limit u :
  validateAgentCapAggregate cap caps limit = Ok u ->
  0 <= limit /\ 0 <= cap /\ Forall (fun c => 0 <= c) caps /\ fold_left (fun s c => s + c) caps limit <= cap.
Proof.
  unfold validateAgentCapAggregate. intros H. apply bind_ok_inv in H as ([] & H1 & H).
  apply bind_ok_inv in H as ([] & H2 & H). destruct u.
  apply throw_if_ok_inv in H1, H. apply orb_false_iff in H1. split_and!; [lia|lia| |lia].
  clear H. induction caps as [|c caps IH]; [constructor|]. cbn in H2.
  apply bind_ok_inv in H2 as ([] & Hc & H2). apply throw_if_ok_inv in Hc. constructor; [lia|auto].
Qed.

(** The arguments of the program's handlers that the options stand for. *)
Definition init_of (o : CreateVaultOptions) (id cap tl : Z) : InitArgs :=
  mkInitArgs id cap (default cap (cv_maxTransactionSizeUsd o)) (default 0 (cv_protocolMode o))
    (default [] (cv_protocols o)) (default 0 (cv_developerFeeRate o))
    (default 100 (cv_maxSlippageBps o)) tl (default [] (cv_allowedDestinations o))
    (default ((fun _ => 0) <$> default [] (cv_protocols o)) (cv_protocolCaps o)).

Lemma create_ok nextId o r :
  createVault nextId o = Ok r ->
  exists limit cap tl id,
    cv_spendingLimitUsd o = Some limit /\ cv_dailySpendingCapUsd o = Some cap /\
    cv_timelockDuration o = Some tl /\
    (match cv_vaultId o with Some i => Ok i | None => nextId end) = Ok id /\
    cv_owner o <> cv_agent o /\ 0 <= limit <= cap /\
    (forall c, cv_permissions o = Some c -> 0 <= c <= 2) /\
    cr_vaultAddress r = (Pda.getVaultPDA (cv_owner o) id SIGIL_PROGRAM_ID).1 /\
    getInstructionAsync InitializeVault_ix
      [ ("owner", cv_owner o);
        ("agentSpendOverlay", (Pda.getAgentOverlayPDA (cr_vaultAddress r) 0 SIGIL_PROGRAM_ID).1);
        ("feeDestination", default (cv_owner o) (cv_feeDestination o)) ]
      (init_args_val (init_of o id cap tl)) = Ok (cr_initializeVaultIx r) /\
    getInstruction RegisterAgent_ix
      [ ("owner", cv_owner o); ("vault", cr_vaultAddress r);
        ("agentSpendOverlay", (Pda.getAgentOverlayPDA (cr_vaultAddress r) 0 SIGIL_PROGRAM_ID).1) ]
      (register_args_val (cv_agent o) (default FULL_CAPABILITY (cv_permissions o)) limit)
    = Ok (cr_registerAgentIx r).
Proof.
  unfold createVault. intros H. inv_bind H.
  apply bool_decide_eq_false in Hok.
  unfold required in *. destruct (cv_spendingLimitUsd o) as [limit|]; [|discriminate Hok0].
  destruct (cv_dailySpendingCapUsd o) as [cap|]; [|discriminate Hok1].
  destruct (cv_timelockDuration o) as [tl|]; [|discriminate Hok2].
  injection Hok0 as <-. injection Hok1 as <-. injection Hok2 as <-.
  apply client_res_ok in Hok6, Hok7. injection H as <-.
  exists limit, cap, tl, a4. split_and!; try done.
  - exact (proj1 (cap_aggregate_ok _ _ _ _ Hok3)).
  - apply cap_aggregate_ok in Hok3 as (_ & _ & _ & Hle). exact Hle.
  - intros c Hc. rewrite Hc in Hok4. destruct a3. apply throw_if_ok_inv, orb_false_iff in Hok4. lia.
Qed.

(** ** The search for a free id *)
Lemma probe_some fetch owner p slots i :
  probe_slots fetch owner p slots = Ok (Some i) ->
  i ∈ slots /\ fetch (Pda.getVaultPDA owner i p).1 = Ok false.
Proof.
  induction slots as [|j slots IH]; cbn; [done|]. intros H.
  apply bind_ok_inv in H as ([] & Hj & H).
  - destruct (IH H). split; [by right|done].
  - injection H as <-. split; [left|done].
Qed.

Lemma probe_none fetch owner p slots :
  probe_slots fetch owner p slots = Ok None ->
  Forall (fun i => fetch (Pda.getVaultPDA owner i p).1 = Ok true) slots.
Proof.
  induction slots as [|j slots IH]; cbn; [done|]. intros H.
  apply bind_ok_inv in H as ([] & Hj & H); [|done]. constructor; auto.
Qed.

Lemma max_fold (vaults : list VaultLocator) m :
  let r := fold_left (fun m v => if loc_vaultId v >? m then loc_vaultId v else m) vaults m in
  m <= r /\ Forall (fun v => loc_vaultId v <= r) vaults.
Proof.
  cbv zeta. revert m. induction vaults as [|v vaults IH]; intros m; cbn; [split; [lia|constructor]|].
  set (m' := if loc_vaultId v >? m then loc_vaultId v else m).
  assert (m <= m' /\ loc_vaultId v <= m') by (unfold m'; destruct (Z.gtb_spec (loc_vaultId v) m); lia).
  destruct (IH m') as [H1 H2]. split; [lia|]. constructor; [lia|done].
Qed.

(** The id [findNextVaultId] returns is free, when its lookups answer and the list it falls
    back to is complete: no account exists at the vault address of the id, and the id is one of
    the 256 the seed of a vault allows. *)
Theorem next_vault_id_fresh fetch found owner p id :
  findNextVaultId fetch found owner p = Ok id ->
  (forall i, exists b, fetch (Pda.getVaultPDA owner i p).1 = Ok b) ->
  (forall vs i, found = Ok vs -> 0 <= i -> fetch (Pda.getVaultPDA owner i p).1 = Ok true ->
     exists v, v ∈ vs /\ loc_vaultId v = i) ->
  fetch (Pda.getVaultPDA owner id p).1 = Ok false /\ 0 <= id < 256.
Proof.
  unfold findNextVaultId. intros H Htot Hcomp. apply bind_ok_inv in H as ([i|] & Hp & H).
  - injection H as <-. apply probe_some in Hp as [Hin Hf]. split; [done|].
    rewrite list_elem_of_In in Hin. cbn in Hin. lia.
  - apply bind_ok_inv in H as (vs & Hf & H). apply probe_none in Hp.
    apply Forall_cons_1 in Hp as [Hzero _]. case_bool_decide as Hnil.
    + rewrite Hnil in Hf. destruct (Hcomp [] 0 Hf ltac:(lia) Hzero) as (v & Hv & _). by apply not_elem_of_nil in Hv.
    + apply bind_ok_inv in H as ([] & Hlt & H). injection H as <-. apply throw_if_ok_inv in Hlt.
      assert (Hm : 0 <= max_id vs /\ Forall (fun v => loc_vaultId v <= max_id vs) vs)
        by exact (max_fold vs 0).
      destruct Hm as [H0 Hmax]. split; [|lia]. destruct (Htot (max_id vs + 1)) as [[] Hb]; [|done].
      destruct (Hcomp vs (max_id vs + 1) Hf ltac:(lia) Hb) as (v & Hv & Heq).
      rewrite Forall_forall in Hmax. specialize (Hmax v Hv). lia.
Qed.

(** ** The preview *)
Lemma preview_ok {Tx} `{txlib : !TxLib Tx} oc w rent config p :
  previewCreateVault (Tx := Tx) oc w rent config = Ok p ->
  validateConfig config = Ok tt /\
  exists r ownerTx,
    createVault (Ok 0) (preview_options config) = Ok r /\
    (buildOwnerTransaction (Tx := Tx) oc w (create_owner_params (pc_rpc config)
       (toBuildNetwork (pc_network config)) (pc_owner config) r (Some (preview_computeUnits config))
       (Some (preview_priorityFee config)) (pc_addressLookupTables config) (pc_blockhash config))).1
      = Ok ownerTx /\
    base64ToUint8Array (ot_wireBase64 ownerTx) = Ok (pv_unsignedTxBytes p) /\
    pv_lastValidBlockHeight p = bh_lastValidBlockHeight (ot_blockhash ownerTx) /\
    pv_vaultAddress p = cr_vaultAddress r /\
    Forall (fun i => 0 < vi_rentLamports i /\ rent (vi_sizeBytes i) = Ok (Some (vi_rentLamports i)))
      (pv_pdaList p) /\
    pv_rentLamports p = sum_of vi_rentLamports (pv_pdaList p) /\
    pv_feeLamports p = Z.quot (preview_priorityFee config * preview_computeUnits config) 1000000 /\
    pv_totalCostUsd p
      = Z.quot ((pv_rentLamports p + pv_feeLamports p) * pc_solPriceUsd config) 1000000000.
Proof.
  unfold previewCreateVault. intros H. apply bind_ok_inv in H as ([] & Hv & H). split; [done|].
  destruct (Pda.getVaultPDA _ _ _) as [va vb] eqn:Eva.
  destruct (Pda.getPolicyPDA _ _) as [pa pb], (Pda.getTrackerPDA _ _) as [ta tb],
    (Pda.getAgentOverlayPDA _ _ _) as [oa ob].
  apply bind_ok_inv in H as (r1 & R1 & H). apply bind_ok_inv in H as (r2 & R2 & H).
  apply bind_ok_inv in H as (r3 & R3 & H). apply bind_ok_inv in H as (r4 & R4 & H).
  apply bind_ok_inv in H as (r & Hc & H). apply bind_ok_inv in H as (ownerTx & Ho & H).
  apply bind_ok_inv in H as (bs & Hb & H). injection H as <-.
  assert (Hrent : forall size name z, fetchRentForSize rent size name = Ok z ->
            0 < z /\ rent size = Ok (Some z)).
  { intros size name z Hz. unfold fetchRentForSize in Hz. apply bind_ok_inv in Hz as ([y|] & Hy & Hz); [|done].
    apply bind_ok_inv in Hz as ([] & Ht & Hz). injection Hz as <-. apply throw_if_ok_inv in Ht. split; [lia|done]. }
  exists r, ownerTx. cbn. split_and!; try done.
  - apply create_ok in Hc as (limit & cap & tl & id & _ & _ & _ & [= <-] & _ & _ & _ & -> & _).
    cbn [cv_owner preview_options]. by rewrite Eva.
  - repeat (apply Forall_cons_2; [by eapply Hrent|]). apply Forall_nil_2.
Qed.

(** What the validation at the edge establishes. *)
Lemma validate_ok config :
  validateConfig config = Ok tt ->
  (exists f s, pc_developerFeeRate config = NInt f /\ 0 <= f <= 500 /\
     pc_maxSlippageBps config = NInt s /\ 0 <= s) /\
  1800 <= pc_timelockDuration config /\
  Z.of_nat (length (pc_protocols config)) <= 10 /\
  Z.of_nat (length (pc_allowedDestinations config)) <= 10 /\
  pc_feeDestination config <> default_pubkey /\
  (pc_protocolCaps config <> [] ->
     pc_protocolMode config = 1 /\ length (pc_protocolCaps config) = length (pc_protocols config) /\
     Forall is_u64 (pc_protocolCaps config)).
Proof.
  unfold validateConfig, check_range. intros H.
  repeat match type of H with
  | mbind _ _ = Ok _ =>
      let u := fresh "u" in let Hr := fresh "Hr" in
      apply bind_ok_inv in H as (u & Hr & H); destruct u; try apply throw_if_ok_inv in Hr
  end.
  unfold MIN_TIMELOCK_DURATION_SECONDS, MAX_ALLOWED_PROTOCOLS, MAX_ALLOWED_DESTINATIONS_COUNT,
    MAX_DEVELOPER_FEE_RATE in *.
  split_and!; [|lia|lia|lia| |].
  - destruct (pc_developerFeeRate config) as [f|], (pc_maxSlippageBps config) as [sl|]; try discriminate.
    exists f, sl. cbn in *. split_and!; [done|lia|lia|done|lia].
  - by match goal with Hd : bool_decide (pc_feeDestination config = _) = false |- _ =>
      apply bool_decide_eq_false in Hd end.
  - intros Hne. match goal with Hc : check_caps config = Ok tt |- _ => rename Hc into Hcaps end.
    unfold check_caps, check_range in Hcaps. destruct (pc_protocolCaps config) as [|c caps]; [done|].
    rewrite (proj2 (Nat.ltb_lt 0 (length (c :: caps)))) in Hcaps by (cbn; lia).
    apply bind_ok_inv in Hcaps as ([] & Hm & Hcaps). apply bind_ok_inv in Hcaps as ([] & Hl & Hcaps).
    apply throw_if_ok_inv, negb_false_iff in Hm, Hl. split_and!; [lia|by apply Nat.eqb_eq|].
    clear -Hcaps. revert Hcaps. generalize (c :: caps) as l. intros l.
    induction l as [|z l IH]; intros H; [constructor|]. cbn in H.
    apply bind_ok_inv in H as ([] & Hz & H). apply bind_ok_inv in Hz as ([] & H1 & H2).
    apply throw_if_ok_inv in H1, H2. constructor; [unfold is_u64; lia|auto].
Qed.

(** ** The program's side *)

(** The configurations among the accepted ones that [initialize_vault] accepts too. *)
Definition program_accepts (config : PreviewCreateVaultConfig) : Prop :=
  jsnum_int (pc_maxSlippageBps config) <= 5000 /\
  (pc_protocols config = [] \/ pc_protocolMode config = 1).

Lemma require_true b e : b = true -> require b e = Ok tt.
Proof. intros ->. done. Qed.

Lemma init_checks_iff fee a :
  0 <= ia_protocolMode a <= 2 -> len (ia_protocols a) <= 10 -> 0 <= ia_developerFeeRate a <= 500 ->
  fee <> default_pubkey -> len (ia_allowedDestinations a) <= 10 -> 1800 <= ia_timelockDuration a ->
  init_checks fee a = Ok tt <->
  ia_maxSlippageBps a <= 5000 /\
  (ia_protocolCaps a = [] \/ ia_protocolMode a = 1 /\ length (ia_protocolCaps a) = length (ia_protocols a)).
Proof.
  intros Hm Hp Hf Hfee Hd Ht. unfold init_checks, PROTOCOL_MODE_DENYLIST, PROTOCOL_MODE_ALLOWLIST,
    MAX_ALLOWED_PROTOCOLS, MAX_DEVELOPER_FEE_RATE, MAX_SLIPPAGE_BPS, MAX_ALLOWED_DESTINATIONS,
    MIN_TIMELOCK_DURATION.
  rewrite (require_true (_ <=? 2)), bind_ok by lia. rewrite (require_true (len (ia_protocols a) <=? 10)), bind_ok by lia.
  rewrite (require_true (_ <=? 500)), bind_ok by lia.
  destruct (Z.leb_spec (ia_maxSlippageBps a) 5000) as [Hs|Hs].
  2:{ split; [done|lia]. }
  rewrite (require_true true), bind_ok by done.
  rewrite (require_true (negb _)), bind_ok by (by rewrite bool_decide_false).
  rewrite (require_true (_ <=? 10)), bind_ok by lia. rewrite (require_true (1800 <=? _)), bind_ok by lia.
  case_bool_decide as Hc; cbn [negb].
  - rewrite Hc. split; [split; [done|by left]|done].
  - unfold len. split.
    + intros H. apply bind_ok_inv in H as ([] & H1 & H2). apply require_inv in H1, H2.
      split; [done|right]. lia.
    + intros [_ [|[Hm1 Hl]]]; [done|]. rewrite (require_true (ia_protocolMode a =? 1)), bind_ok by lia.
      apply require_true. lia.
Qed.

(** A new vault takes the agent, unless it is the zero key. *)
Lemma register_fresh v agent cap limit :
  encodeAddress default_pubkey = empty_bytes ->
  agents v = [] -> vault_status v = Active -> 0 <= cap <= 2 -> agent <> owner v ->
  is_ok (register_agent v empty_overlay agent cap limit) = true <-> agent <> default_pubkey.
Proof using All.
  intros Hz Hv Hs Hc Ho. unfold register_agent, is_agent. rewrite Hv, Hs. cbn [existsb length].
  rewrite (require_true (negb (bool_decide (Active = Closed)))), bind_ok by done.
  change FULL_CAPABILITY with 2. rewrite (require_true (cap <=? 2)), bind_ok by lia.
  do 2 (rewrite (require_true (negb false)), bind_ok by done).
  destruct (decide (agent = default_pubkey)) as [->|Hd].
  { rewrite (bool_decide_true (default_pubkey = default_pubkey)) by done. cbn.
    split; [discriminate|]. intros H. by destruct H. }
  rewrite (bool_decide_false (agent = default_pubkey)), (bool_decide_false (agent = owner v)) by done.
  do 2 (rewrite (require_true (negb false)), bind_ok by done).
  split; [done|intros _].
  assert (Hnone : find_agent_slot empty_overlay agent = None).
  { apply find_slot_none. change (slots empty_overlay) with (replicate 10 empty_bytes).
    intros [He _]%elem_of_replicate. apply Hd. apply encodeAddress_inj. congruence. }
  by rewrite Hnone.
Qed.

Definition preview_init (config : PreviewCreateVaultConfig) : InitArgs :=
  init_of (preview_options config) (pc_vaultId config) (pc_dailyCapUsd config) (pc_timelockDuration config).

Lemma preview_init_checks config :
  validateConfig config = Ok tt -> 0 <= pc_protocolMode config <= 2 ->
  (init_checks (pc_feeDestination config) (preview_init config) = Ok tt <-> program_accepts config) /\
  init_typed (preview_init config).
Proof.
  intros Hv Hmode. apply validate_ok in Hv as ((f & sl & Hf & Hf' & Hsl & Hsl') & Ht & Hp & Hd & Hfee & Hcaps).
  unfold program_accepts. rewrite Hsl. cbn [jsnum_int].
  assert (Hlen : length ((fun _ : Address => 0) <$> pc_protocols config) = length (pc_protocols config))
    by apply length_fmap.
  split.
  - rewrite init_checks_iff; unfold preview_init; cbn [init_of preview_options ia_protocolMode ia_protocols
      ia_developerFeeRate ia_allowedDestinations ia_timelockDuration ia_maxSlippageBps ia_protocolCaps
      cv_protocolMode cv_protocols cv_developerFeeRate cv_allowedDestinations cv_maxSlippageBps
      cv_protocolCaps default from_option id]; [|done|exact Hp|by rewrite Hf|done|exact Hd|exact Ht].
    unfold id. rewrite Hsl. cbn [jsnum_int]. apply and_iff_compat_l.
    destruct (pc_protocolCaps config) as [|cp caps] eqn:Hc; cbn [length Nat.ltb Nat.leb default from_option].
    + rewrite Hlen. destruct (pc_protocols config); cbn; naive_solver.
    + destruct (Hcaps ltac:(done)) as (Hm1 & Hl & _). unfold id. naive_solver.
  - unfold init_typed, preview_init; cbn. split_and!; [done|done| |].
    + destruct (pc_protocolCaps config) as [|cp caps] eqn:Hc; cbn; [unfold id; lia|].
      destruct (Hcaps ltac:(done)) as (_ & Hl & _). unfold id. cbn in Hl. cbn. lia.
    + destruct (pc_protocolCaps config) as [|cp caps] eqn:Hc; cbn.
      * apply Forall_fmap, Forall_true. intros x. cbn. unfold is_u64, U64_MAX. lia.
      * by destruct (Hcaps ltac:(done)) as (_ & _ & Hu).
Qed.

(** The arguments a configuration asks for, field by field: an empty list of protocol caps is
    one cap of zero, no cap, for each protocol. *)
Record asked_for (config : PreviewCreateVaultConfig) (a : InitArgs) : Prop := {
  af_vaultId : ia_vaultId a = pc_vaultId config;
  af_dailyCap : ia_dailySpendingCapUsd a = pc_dailyCapUsd config;
  af_maxTx : ia_maxTransactionSizeUsd a = pc_maxTxSizeUsd config;
  af_mode : ia_protocolMode a = pc_protocolMode config;
  af_protocols : ia_protocols a = pc_protocols config;
  af_feeRate : pc_developerFeeRate config = NInt (ia_developerFeeRate a);
  af_slippage : pc_maxSlippageBps config = NInt (ia_maxSlippageBps a);
  af_timelock : ia_timelockDuration a = pc_timelockDuration config;
  af_destinations : ia_allowedDestinations a = pc_allowedDestinations config;
  af_caps : ia_protocolCaps a =
    if decide (pc_protocolCaps config = []) then replicate (length (pc_protocols config)) 0
    else pc_protocolCaps config;
}.

Lemma preview_init_asked config :
  validateConfig config = Ok tt -> asked_for config (preview_init config).
Proof.
  intros Hv. apply validate_ok in Hv as ((f & sl & Hf & Hf' & Hsl & Hsl') & _).
  split; try done; unfold preview_init; cbn.
  - by rewrite Hf.
  - by rewrite Hsl.
  - destruct (pc_protocolCaps config) as [|cp caps]; cbn; [|done].
    induction (pc_protocols config) as [|x l IH]; cbn; [done|]. by f_equal.
Qed.

(** The address of an instruction's [k]-th account. *)
Definition account_address (ix : Instruction) (k : nat) : option Address :=
  am_address <$> default [] (ins_accounts ix) !! k.

Lemma resolve_supplied ds args accs accs' name :
  name ∉ ds.*1 -> resolve_defaults ds args accs = Ok accs' -> jm_get name accs' = jm_get name accs.
Proof.
  revert accs. induction ds as [|[m d] ds IH]; intros accs Hn H; cbn [resolve_defaults] in H.
  { by injection H as <-. }
  cbn in Hn. apply not_elem_of_cons in Hn as [Hm Hn].
  destruct (missing accs m); [|by apply IH].
  apply bind_ok_inv in H as (a & _ & H). rewrite (IH _ Hn H). by apply jm_get_set_ne.
Qed.

(** An account that is given and has no default is the one of the instruction. *)
Lemma built_account ds sp input args ix k acc a :
  build ds sp input args = Ok ix -> ix_accounts sp !! k = Some acc ->
  as_name acc ∉ ds.*1 -> jm_get (as_name acc) input = Some a -> account_address ix k = Some a.
Proof.
  intros H Hk Hn Ha. apply built_data in H as (accs & d & Hr & Hacc & _).
  unfold account_address. rewrite Hacc. cbn [default from_option id].
  rewrite list_lookup_fmap, Hk. cbn. unfold account_meta.
  rewrite (resolve_supplied _ _ _ _ _ Hn Hr), Ha. cbn. by rewrite getAccountMeta_some.
Qed.

(** The instructions' data, as the program decodes it. *)
Definition carries (ix : Instruction) (sp : ix_spec) (args : struct_val) : Prop :=
  ins_program ix = SIGIL_PROGRAM_ID /\
  exists d, ins_data ix = Some d /\ decodeStruct (data_type sp) d = Some (data_value sp args).

Lemma create_carries nextId o r :
  createVault nextId o = Ok r ->
  (forall id cap tl, init_typed (init_of o id cap tl)) ->
  exists limit cap tl id,
    cv_spendingLimitUsd o = Some limit /\ cv_dailySpendingCapUsd o = Some cap /\
    cv_timelockDuration o = Some tl /\
    (match cv_vaultId o with Some i => Ok i | None => nextId end) = Ok id /\
    carries (cr_initializeVaultIx r) InitializeVault_ix (init_args_val (init_of o id cap tl)) /\
    carries (cr_registerAgentIx r) RegisterAgent_ix
      (register_args_val (cv_agent o) (default FULL_CAPABILITY (cv_permissions o)) limit).
Proof.
  intros H Hty. apply create_ok in H as (limit & cap & tl & id & H1 & H2 & H3 & H4 & _ & _ & _ & _ & Hi & Hr).
  exists limit, cap, tl, id. split_and!; try done.
  - apply built_data in Hi as (accs & d & _ & _ & Hd & Hp & He & Hrg). split; [done|].
    exists d. split; [done|]. apply decoded; [done| |done].
    by apply init_args_typed.
  - apply built_data in Hr as (accs & d & _ & _ & Hd & Hp & He & Hrg). split; [done|].
    exists d. split; [done|]. apply decoded; [done| |done].
    unfold register_args_val in *. cbn in Hrg |- *. by rewrite !andb_true_r in *.
Qed.

End spec.

(** ** A concrete client *)
Definition preview_decode (bs : bytes) : option Address :=
  if decide (bs = empty_bytes) then Some default_pubkey
  else match bs with Z.pos n :: _ => decode n | _ => None end.

Lemma preview_decodes a : preview_decode (encodeAddress (PdaEnv := owner_demo_env) a) = Some a.
Proof.
  unfold preview_decode. cbn [encodeAddress owner_demo_env]. case_bool_decide as Ha.
  - subst. by rewrite decide_True.
  - rewrite decide_False by discriminate. apply decode_encode.
Qed.

Definition preview_lib : ClientLib := borsh_lib (env := owner_demo_env) preview_decode.
Lemma preview_lib_laws : ClientLaws (H := owner_demo_env) preview_lib.
Proof. exact (borsh_lib_laws (laws := owner_demo_laws) _ preview_decodes). Qed.

Definition demo_config (mode : Z) : PreviewCreateVaultConfig :=
  mkPreviewConfig "rpc" "owner" "agent" "devnet" 0 500000000 100000000 100000000 (NInt 0) (NInt 100)
    1800 mode ["jup"] [] [] "fees" None 250000000 (Some (NInt 0)) None
    (Some (mkBlockhash "hash" 42)) (Some []).

Definition demo_preview (mode : Z) : res SigilError CreateVaultPreview :=
  @previewCreateVault owner_demo_env preview_lib TransactionMessage demo_wirelib demo_owner_caches
    demo_owner_world (fun size => Ok (Some (size * 10))) (demo_config mode).

(** 68240 lamports of rent at 250 dollars per SOL are 1.706 cents. *)
Example demo_preview_cost : pv_totalCostUsd <$> demo_preview 1 = Ok 17060.
Proof. vm_compute. done. Qed.


Lemma next_vault_id_fresh_witness :
  findNextVaultId (env := owner_demo_env) (fun _ => Ok false) (Ok []) "owner" "p" = Ok 0 /\
  (fun _ : Address => Ok (E := SigilError) false) (Pda.getVaultPDA (env := owner_demo_env) "owner" 0 "p").1 = Ok false.
Proof.
  split; [reflexivity|].
  refine (proj1 (next_vault_id_fresh (env := owner_demo_env) (fun _ => Ok false) (Ok []) "owner" "p" 0 _ _ _)).
  - reflexivity.
  - intros i. by exists false.
  - intros vs i _ _ H. discriminate H.
Defined.
