(* ===== verification/ConstraintChain.v ===== *)
(** * Growing the constraint accounts ([dashboard/constraint-builders.ts], [allocate_*.rs], [extend_pda.rs])

    The five instructions an owner sends to create or replace a vault's constraints, and the
    program's handlers for them on the account they grow. *)

From Stdlib Require Import QArith.
From S2P Require Import Prelude Types Accounts Bytes Pdas AltLoader Composer Codecs Instructions InstructionTable InstructionSpec AccountLayouts OwnerChain Executor ExecutorSpec OwnerSpec CreateVault CreateVaultSpec.
Local Open Scope string_scope.
Local Open Scope Z_scope.
Local Open Scope list_scope.

(** ** The client *)
Definition CONSTRAINTS_SIZE : Z := 35888.
Definition PENDING_CONSTRAINTS_SIZE : Z := 35904.
Definition MAX_CPI_ACCOUNT_SIZE : Z := 10240.

(** The [while] loop; [fuel] bounds its iterations. *)
Fixpoint extend_loop (fuel : nat) (current fullSize : Z) : option (list Z) :=
  match fuel with
  | O => None
  | S fuel' =>
      if current <? fullSize then
        let current := Z.min (current + MAX_CPI_ACCOUNT_SIZE) fullSize in
        cons current <$> extend_loop fuel' current fullSize
      else Some []
  end.

Definition extendSteps (fullSize : Z) : list Z :=
  default [] (extend_loop (S (Z.to_nat fullSize)) MAX_CPI_ACCOUNT_SIZE fullSize).

(** What a read of a constraints account gives; the data are left encoded. *)
Record ConstraintsPdaInfo := mkPdaInfo {
  cp_exists : bool;
  cp_data : option bytes;
  cp_address : Address;
}.

Definition empty_entries : SigilError := sdk_error "Error" [].

Section builders.
Context `{env : PdaEnv} `{lib : ClientLib} {Tx : Type} `{txlib : !TxLib Tx}.

(** [constraint-reads.ts] *)
Definition findConstraintsPda (vault programAddress : Address) : Address :=
  (getProgramDerivedAddress programAddress [seedString "constraints"; encodeAddress vault]).1.
Definition findPendingConstraintsPda (vault programAddress : Address) : Address :=
  (getProgramDerivedAddress programAddress [seedString "pending_constraints"; encodeAddress vault]).1.
Definition findPendingCloseConstraintsPda (vault programAddress : Address) : Address :=
  (getProgramDerivedAddress programAddress
     [seedString "pending_close_constraints"; encodeAddress vault]).1.

(** [getAccountInfo]: no account, its data as a base64 pair, or data in another form; and
    Node's [Buffer.from(text, "base64")]. *)
Definition fetch_info (getAccountInfo : Address -> res SigilError (option (option string)))
    (bufferFromBase64 : string -> bytes) (address : Address) : res SigilError ConstraintsPdaInfo :=
  accountInfo ← getAccountInfo address;
  Ok (match accountInfo with
      | None => mkPdaInfo false None address
      | Some rawData => mkPdaInfo true (bufferFromBase64 <$> rawData) address
      end).

Definition fetchConstraints getAccountInfo bufferFromBase64 (vault programAddress : Address) :=
  fetch_info getAccountInfo bufferFromBase64 (findConstraintsPda vault programAddress).
Definition fetchPendingConstraintsUpdate getAccountInfo bufferFromBase64 (vault programAddress : Address) :=
  fetch_info getAccountInfo bufferFromBase64 (findPendingConstraintsPda vault programAddress).
Definition fetchPendingCloseConstraints getAccountInfo bufferFromBase64 (vault programAddress : Address) :=
  fetch_info getAccountInfo bufferFromBase64 (findPendingCloseConstraintsPda vault programAddress).

Definition stub_blockhash : Blockhash := mkBlockhash "11111111111111111111111111111111" 0.

Definition assertWithinTxSize (owner : Address) (instructions : list Instruction) : res SigilError unit :=
  let compiled := compileTransaction (mkMessage owner stub_blockhash instructions) in
  let '(_, byteLength, withinLimit) := measureTransactionSize compiled in
  throw_if (negb withinLimit) (tx_too_large byteLength MAX_TX_SIZE).

Record BuildCreateConstraintsInput := mkConstraintsInput {
  bc_owner : Address;
  bc_vault : Address;
  bc_policy : Address;
  bc_entries : list cval;
  bc_strictMode : bool;
}.

Definition extend_ix (owner vault pda : Address) (targetSize : Z) : res SigilError Instruction :=
  client_res (getInstruction ExtendPda_ix [("owner", owner); ("vault", vault); ("pda", pda)]
    [("targetSize", VlInt targetSize)]).

Definition populate_args (i : BuildCreateConstraintsInput) : struct_val :=
  [("entries", VlList (bc_entries i)); ("strictMode", VlBool (bc_strictMode i))].

Definition buildCreateConstraintsIxs (i : BuildCreateConstraintsInput) : res SigilError (list Instruction) :=
  throw_if (bool_decide (bc_entries i = [])) empty_entries ;;
  let constraintsPda := findConstraintsPda (bc_vault i) SIGIL_PROGRAM_ID in
  allocateIx ← client_res (getInstructionAsync AllocateConstraintsPda_ix
    [("owner", bc_owner i); ("vault", bc_vault i); ("policy", bc_policy i); ("constraints", constraintsPda)] []);
  extendIxs ← map_res (extend_ix (bc_owner i) (bc_vault i) constraintsPda) (extendSteps CONSTRAINTS_SIZE);
  populateIx ← client_res (getInstructionAsync CreateInstructionConstraints_ix
    [("owner", bc_owner i); ("vault", bc_vault i); ("policy", bc_policy i); ("constraints", constraintsPda)]
    (populate_args i));
  let ixs := allocateIx :: extendIxs ++ [populateIx] in
  assertWithinTxSize (bc_owner i) ixs ;;
  Ok ixs.

Definition buildQueueConstraintsUpdateIxs (i : BuildCreateConstraintsInput) : res SigilError (list Instruction) :=
  throw_if (bool_decide (bc_entries i = [])) empty_entries ;;
  let constraintsPda := findConstraintsPda (bc_vault i) SIGIL_PROGRAM_ID in
  let pendingConstraintsPda := findPendingConstraintsPda (bc_vault i) SIGIL_PROGRAM_ID in
  allocateIx ← client_res (getInstructionAsync AllocatePendingConstraintsPda_ix
    [("owner", bc_owner i); ("vault", bc_vault i); ("policy", bc_policy i);
     ("constraints", constraintsPda); ("pendingConstraints", pendingConstraintsPda)] []);
  extendIxs ← map_res (extend_ix (bc_owner i) (bc_vault i) pendingConstraintsPda)
                (extendSteps PENDING_CONSTRAINTS_SIZE);
  populateIx ← client_res (getInstructionAsync QueueConstraintsUpdate_ix
    [("owner", bc_owner i); ("vault", bc_vault i); ("policy", bc_policy i);
     ("constraints", constraintsPda); ("pendingConstraints", pendingConstraintsPda)]
    (populate_args i));
  let ixs := allocateIx :: extendIxs ++ [populateIx] in
  assertWithinTxSize (bc_owner i) ixs ;;
  Ok ixs.
End builders.

(** ** The program

    The account of a constraints address: its length, whether its discriminator is written,
    and the vault recorded behind it. [None]: no lamports, no account. *)
Record RawPda := mkRaw { rp_len : Z; rp_populated : bool; rp_vault : Address }.

Definition INSTRUCTION_CONSTRAINTS_SIZE : Z := 8 + 32 + 560 * 64 + 1 + 1 + 1 + 1 + 4.
Definition PENDING_CONSTRAINTS_UPDATE_SIZE : Z := 8 + 32 + 560 * 64 + 1 + 1 + 1 + 5 + 8 + 8 + 8.
Definition EXTEND_LIMIT : Z := 35912.

Definition allocate_pda (vault : Address) (pda : option RawPda) : res string (option RawPda) :=
  match pda with
  | Some _ => Throw "InvalidConstraintConfig"
  | None => Ok (Some (mkRaw MAX_CPI_ACCOUNT_SIZE false vault))
  end.

Definition extend_pda (vault : Address) (target : Z) (pda : option RawPda) : res string (option RawPda) :=
  match pda with
  | None => Throw "InvalidConstraintsPda"
  | Some r =>
      require (40 <=? rp_len r) "InvalidConstraintsPda" ;;
      require (negb (rp_populated r)) "InvalidConstraintConfig" ;;
      require (bool_decide (rp_vault r = vault)) "ConstraintsVaultMismatch" ;;
      require (target <=? EXTEND_LIMIT) "InvalidConstraintConfig" ;;
      require (rp_len r <? target) "InvalidConstraintConfig" ;;
      require (target - rp_len r <=? MAX_CPI_ACCOUNT_SIZE) "InvalidConstraintConfig" ;;
      Ok (Some (mkRaw target (rp_populated r) (rp_vault r)))
  end.

(** What the two populating handlers require of the account: [size] and [err] are theirs. *)
Definition populate_pda (size : Z) (err : string) (vault : Address) (pda : option RawPda)
    : res string (option RawPda) :=
  match pda with
  | None => Throw err
  | Some r =>
      require (rp_len r =? size) err ;;
      require (negb (rp_populated r)) "InvalidConstraintConfig" ;;
      require (bool_decide (rp_vault r = vault)) "ConstraintsVaultMismatch" ;;
      Ok (Some (mkRaw (rp_len r) true (rp_vault r)))
  end.

Definition create_instruction_constraints :=
  populate_pda INSTRUCTION_CONSTRAINTS_SIZE "InvalidConstraintsPda".
Definition queue_constraints_update :=
  populate_pda PENDING_CONSTRAINTS_UPDATE_SIZE "InvalidPendingConstraintsPda".

(** A transaction that allocates, extends to each target in turn, and populates. *)
Fixpoint extend_all (vault : Address) (targets : list Z) (pda : option RawPda) : res string (option RawPda) :=
  match targets with
  | [] => Ok pda
  | t :: ts => pda' ← extend_pda vault t pda; extend_all vault ts pda'
  end.

Definition run_chain (populate : Address -> option RawPda -> res string (option RawPda))
    (vault : Address) (targets : list Z) (pda : option RawPda) : res string (option RawPda) :=
  pda ← allocate_pda vault pda;
  pda ← extend_all vault targets pda;
  populate vault pda.

(** ** The loop terminates, in steps the program allows *)
Lemma extend_chain vault fuel current fullSize :
  (Z.to_nat (fullSize - current) < fuel)%nat -> 40 <= current -> fullSize <= EXTEND_LIMIT ->
  exists l, extend_loop fuel current fullSize = Some l /\
    extend_all vault l (Some (mkRaw current false vault)) = Ok (Some (mkRaw (Z.max current fullSize) false vault)).
Proof.
  revert current. induction fuel as [|fuel IH]; intros current Hf Hc Hl; [lia|]. cbn [extend_loop].
  destruct (Z.ltb_spec current fullSize) as [Hlt|Hge].
  - set (next := Z.min (current + MAX_CPI_ACCOUNT_SIZE) fullSize). unfold MAX_CPI_ACCOUNT_SIZE in *.
    destruct (IH next) as (l & -> & Hl'); [unfold next; lia|unfold next; lia|done|].
    exists (next :: l). split; [done|]. cbn [extend_all extend_pda rp_len rp_populated rp_vault].
    rewrite (require_true (40 <=? current)), bind_ok by lia.
    rewrite (require_true (negb false)), bind_ok by done.
    rewrite (require_true (bool_decide _)), bind_ok by (by apply bool_decide_eq_true).
    rewrite (require_true (next <=? EXTEND_LIMIT)), bind_ok by (unfold next; lia).
    rewrite (require_true (current <? next)), bind_ok by (unfold next; lia).
    rewrite (require_true (next - current <=? MAX_CPI_ACCOUNT_SIZE)), bind_ok
      by (unfold next, MAX_CPI_ACCOUNT_SIZE; lia).
    rewrite bind_ok, Hl'. do 3 f_equal. unfold next. lia.
  - exists []. split; [done|]. cbn. do 3 f_equal. lia.
Qed.

Lemma extend_steps_reach vault fullSize :
  MAX_CPI_ACCOUNT_SIZE <= fullSize <= EXTEND_LIMIT ->
  extend_all vault (extendSteps fullSize) (Some (mkRaw MAX_CPI_ACCOUNT_SIZE false vault))
  = Ok (Some (mkRaw fullSize false vault)).
Proof.
  intros H. unfold extendSteps.
  destruct (extend_chain vault (S (Z.to_nat fullSize)) MAX_CPI_ACCOUNT_SIZE fullSize) as (l & -> & Hl).
  - unfold MAX_CPI_ACCOUNT_SIZE. lia.
  - unfold MAX_CPI_ACCOUNT_SIZE. lia.
  - lia.
  - cbn [default from_option]. unfold id. rewrite Hl. do 3 f_equal. lia.
Qed.

Lemma run_chain_spec vault fullSize size err :
  MAX_CPI_ACCOUNT_SIZE <= fullSize <= EXTEND_LIMIT ->
  run_chain (populate_pda size err) vault (extendSteps fullSize) None
  = if fullSize =? size then Ok (Some (mkRaw fullSize true vault)) else Throw err.
Proof.
  intros H. unfold run_chain. cbn [allocate_pda]. rewrite bind_ok, extend_steps_reach, bind_ok by done.
  cbn [populate_pda rp_len rp_populated rp_vault]. destruct (fullSize =? size); [|done].
  rewrite (require_true true), bind_ok by done. rewrite (require_true (negb false)), bind_ok by done.
  by rewrite bool_decide_true.
Qed.

(** The length of a layout without variable parts. *)
Fixpoint fixed_size (c : ctype) : option Z :=
  match c with
  | TU8 | TBool | TEnum _ => Some 1
  | TU16 => Some 2 | TU32 => Some 4 | TU64 | TI64 => Some 8 | TU128 => Some 16 | TAddress => Some 32
  | TBytes n => Some (Z.of_nat n)
  | TArray n c => Z.mul (Z.of_nat n) <$> fixed_size c
  | TStruct fs =>
      (fix go (fs : struct_type) : option Z :=
         match fs with
         | [] => Some 0
         | (_, c) :: fs' => a ← fixed_size c; b ← go fs'; Some (a + b)
         end) fs
  | TBlob | TOption _ | TVec _ => None
  end.

Section spec.
Context `{env : PdaEnv} {lib : ClientLib} `{laws : !ClientLaws lib} {Tx : Type} `{txlib : !TxLib Tx}.

Lemma extend_ix_carries owner vault pda t ix :
  extend_ix owner vault pda t = Ok ix -> carries ix ExtendPda_ix [("targetSize", VlInt t)].
Proof.
  intros H. apply client_res_ok, built_data in H as (accs & d & _ & _ & Hd & Hp & He & Hr).
  split; [done|]. exists d. split; [done|]. apply decoded; [done| |done].
  cbn in Hr |- *. by rewrite !andb_true_r in *.
Qed.

(** The shape of both chains. *)
Definition chain_of (alloc : ix_spec) (ixs : list Instruction) (targets : list Z) : Prop :=
  exists a es p, ixs = a :: es ++ [p] /\ carries a alloc [] /\
    Forall2 (fun ix t => carries ix ExtendPda_ix [("targetSize", VlInt t)]) es targets /\
    ins_program p = SIGIL_PROGRAM_ID.

Lemma alloc_carries ds sp input ix :
  client_res (build ds sp input []) = Ok ix -> ix_args sp = [] -> length (ix_discriminator sp) = 8%nat ->
  carries ix sp [].
Proof.
  intros H Ha Hl. apply client_res_ok, built_data in H as (accs & d & _ & _ & Hd & Hp & He & Hr).
  split; [done|]. exists d. split; [done|]. apply decoded; [done|by rewrite Ha|done].
Qed.

Lemma built_program ds sp input args ix :
  client_res (build ds sp input args) = Ok ix -> ins_program ix = SIGIL_PROGRAM_ID.
Proof. intros H. by apply client_res_ok, built_data in H as (? & ? & _ & _ & _ & Hp & _). Qed.

(** C21: The chain that creates a vault's constraints works, the one that queues a change of them
    cannot. Whatever the entries, [buildCreateConstraintsIxs] and
    [buildQueueConstraintsUpdateIxs] return an allocation, three extensions and the populating
    instruction. On chain the first grows a missing account, in steps the program allows, to
    exactly the length its constraints have, and populates it. The second grows the pending
    account to 35904 bytes, eight less than the program has required since the queueing slot
    was added, so the last instruction always fails and with it the transaction. *)
Theorem constraint_chains_spec i vault :
  (forall ixs, buildCreateConstraintsIxs (Tx := Tx) i = Ok ixs ->
     chain_of AllocateConstraintsPda_ix ixs (extendSteps CONSTRAINTS_SIZE) /\ length ixs = 5%nat) /\
  run_chain create_instruction_constraints vault (extendSteps CONSTRAINTS_SIZE) None
    = Ok (Some (mkRaw CONSTRAINTS_SIZE true vault)) /\
  Z.add 8 <$> fixed_size (TStruct InstructionConstraints_layout) = Some CONSTRAINTS_SIZE /\
  (forall ixs, buildQueueConstraintsUpdateIxs (Tx := Tx) i = Ok ixs ->
     chain_of AllocatePendingConstraintsPda_ix ixs (extendSteps PENDING_CONSTRAINTS_SIZE) /\
     length ixs = 5%nat) /\
  run_chain queue_constraints_update vault (extendSteps PENDING_CONSTRAINTS_SIZE) None
    = Throw "InvalidPendingConstraintsPda" /\
  Z.add 8 <$> fixed_size (TStruct PendingConstraintsUpdate_layout) = Some (PENDING_CONSTRAINTS_SIZE + 8).
Proof using laws.
  split_and!.
  - intros ixs H. unfold buildCreateConstraintsIxs in H. apply bind_ok_inv in H as ([] & _ & H).
    apply bind_ok_inv in H as (a & Ha & H). apply bind_ok_inv in H as (es & He & H).
    apply bind_ok_inv in H as (p & Hp & H). apply bind_ok_inv in H as ([] & _ & H). injection H as <-.
    apply (map_res_forall _ _ _ (fun ix t => carries ix ExtendPda_ix [("targetSize", VlInt t)])) in He;
      [|intros; by eapply extend_ix_carries].
    split; [|by rewrite length_cons, length_app, (Forall2_length _ _ _ He)].
    exists a, es, p. split_and!; [done|by eapply alloc_carries|done|by eapply built_program].
  - by apply run_chain_spec.
  - vm_compute. done.
  - intros ixs H. unfold buildQueueConstraintsUpdateIxs in H. apply bind_ok_inv in H as ([] & _ & H).
    apply bind_ok_inv in H as (a & Ha & H). apply bind_ok_inv in H as (es & He & H).
    apply bind_ok_inv in H as (p & Hp & H). apply bind_ok_inv in H as ([] & _ & H). injection H as <-.
    apply (map_res_forall _ _ _ (fun ix t => carries ix ExtendPda_ix [("targetSize", VlInt t)])) in He;
      [|intros; by eapply extend_ix_carries].
    split; [|by rewrite length_cons, length_app, (Forall2_length _ _ _ He)].
    exists a, es, p. split_and!; [done|by eapply alloc_carries|done|by eapply built_program].
  - by apply run_chain_spec.
  - vm_compute. done.
Qed.
End spec.

Definition demo_constraints_input : BuildCreateConstraintsInput :=
  mkConstraintsInput "owner" "vault" "policy"
    [VlRec [("programId", VlAddr "jup"); ("dataConstraints", VlList []); ("accountConstraints", VlList []);
            ("discriminatorFormat", VlInt 0)]] true.

Lemma constraint_chains_spec_witness :
  match @buildQueueConstraintsUpdateIxs owner_demo_env preview_lib TransactionMessage demo_wirelib
          demo_constraints_input with
  | Ok ixs => length ixs = 5%nat /\
      run_chain queue_constraints_update "vault" (extendSteps PENDING_CONSTRAINTS_SIZE) None
        = Throw "InvalidPendingConstraintsPda"
  | Throw _ => False
  end.
Proof.
  destruct (@buildQueueConstraintsUpdateIxs owner_demo_env preview_lib TransactionMessage demo_wirelib
    demo_constraints_input) as [ixs|e] eqn:E; [|vm_compute in E; discriminate E].
  destruct (@constraint_chains_spec owner_demo_env preview_lib preview_lib_laws TransactionMessage
    demo_wirelib demo_constraints_input "vault") as (_ & _ & _ & Hq & Hf & _).
  destruct (Hq ixs E) as [_ Hl]. split; [exact Hl|exact Hf].
Defined.
