(* ===== verification/Discovery.v ===== *)
(** * Escrow and session discovery ([sdk/kit/src/state-resolver.ts])

    The scans of the program's accounts by size and by the address behind the discriminator,
    and the fetches of a vault's pending updates. The RPC node is an argument: what
    [getProgramAccounts] answers to a request, what account an address holds. *)

From S2P Require StateResolver.
From S2P Require Import Prelude Types Accounts Bytes JsText Pdas Codecs Instructions AccountLayouts ConstraintChain.
Local Open Scope string_scope.
Local Open Scope Z_scope.
Local Open Scope list_scope.

Abbreviation RpcError := StateResolver.RpcError.

(** ** Base64 *)
Definition binary_string (bs : bytes) : string :=
  String.string_of_list_ascii ((fun b => Ascii.ascii_of_nat (Z.to_nat b)) <$> bs).

Definition uint8ToBase64 (bs : bytes) : string := btoa (binary_string bs).

(** [None]: [atob] throws. *)
Definition base64ToUint8 (base64 : string) : option bytes :=
  (fun binary => code <$> String.list_ascii_of_string binary) <$> atob base64.

(** ** Scanning the program's accounts *)

(** The filters of a request, all of whose scans compare at offset 8; an account of the answer
    has its data as base64 text. *)
Record GpaRequest := mkGpaRequest {
  gr_dataSize : Z;
  gr_offset : Z;
  gr_bytes : string;
}.
Record GpaAccount := mkGpaAccount {
  ga_pubkey : Address;
  ga_data : string;
}.

Definition ESCROW_DEPOSIT_SIZE : Z := 170.
Definition SESSION_AUTHORITY_SIZE : Z := 376.

(** The decoder of an account reads the discriminator in front of its fields. *)
Definition account_type (layout : struct_type) : struct_type := ("discriminator", TBytes 8) :: layout.

Section discovery.
Context `{env : PdaEnv} `{lib : !ClientLib}.
(** The node, and the error [atob] or a decoder throws on an account's data. *)
Context (getProgramAccounts : GpaRequest -> res RpcError (list GpaAccount)).
Context (data_error : GpaAccount -> RpcError).

Definition scan_request (size : Z) (key : Address) : GpaRequest :=
  mkGpaRequest size 8 (uint8ToBase64 (encodeAddress key)).

Definition decode_entry (layout : struct_type) (entry : GpaAccount)
    : res RpcError (Address * struct_val) :=
  match (raw ← base64ToUint8 (ga_data entry); decodeStruct (account_type layout) raw) with
  | Some data => Ok (ga_pubkey entry, data)
  | None => Throw (data_error entry)
  end.

Fixpoint decode_entries (layout : struct_type) (accounts : list GpaAccount)
    : res RpcError (list (Address * struct_val)) :=
  match accounts with
  | [] => Ok []
  | entry :: accounts' =>
      d ← decode_entry layout entry; ds ← decode_entries layout accounts'; Ok (d :: ds)
  end.

(** The decoding is inside the [try], so the handler sees its errors too. *)
Definition findEscrowsByVault (sourceVault : Address) : res RpcError (list (Address * struct_val)) :=
  match (accounts ← getProgramAccounts (scan_request ESCROW_DEPOSIT_SIZE sourceVault);
         decode_entries EscrowDeposit_layout accounts) with
  | Ok found => Ok found
  | Throw err => if negb (StateResolver.isGpaUnsupportedError err) then Throw err else Ok []
  end.

Definition findSessionsByVault (vault : Address) : res RpcError (list (Address * struct_val)) :=
  match (accounts ← getProgramAccounts (scan_request SESSION_AUTHORITY_SIZE vault);
         decode_entries SessionAuthority_layout accounts) with
  | Ok found => Ok found
  | Throw err => if negb (StateResolver.isGpaUnsupportedError err) then Throw err else Ok []
  end.

(** ** Pending updates of a vault: [fetch] decodes the account at an address, if there is one *)
Definition getPendingPolicyForVault {E A} (fetch : Address -> res E (option A)) (vault : Address)
    : res E (option A) :=
  fetch (Pda.getPendingPolicyPDA vault SIGIL_PROGRAM_ID).1.

Definition getPendingConstraintsForVault {E A} (fetch : Address -> res E (option A)) (vault : Address)
    : res E (option A) :=
  fetch (Pda.getPendingConstraintsPDA vault SIGIL_PROGRAM_ID).1.
End discovery.

(** The sizes the scans ask for are the lengths of the two kinds of accounts. *)
Lemma scan_sizes :
  fixed_size (TStruct (account_type EscrowDeposit_layout)) = Some ESCROW_DEPOSIT_SIZE /\
  fixed_size (TStruct (account_type SessionAuthority_layout)) = Some SESSION_AUTHORITY_SIZE.
Proof. split; reflexivity. Qed.

Lemma code_of_byte b : is_byte b -> code (Ascii.ascii_of_nat (Z.to_nat b)) = b.
Proof. intros H. unfold is_byte in H. unfold code. rewrite Ascii.nat_ascii_embedding; lia. Qed.

Lemma codes_of_bytes bs :
  Forall is_byte bs -> code <$> ((fun b => Ascii.ascii_of_nat (Z.to_nat b)) <$> bs) = bs.
Proof. induction 1 as [|b bs Hb _ IH]; [done|]. cbn. by rewrite code_of_byte, IH. Qed.

Lemma uint8ToBase64_bytes bs : Forall is_byte bs -> uint8ToBase64 bs = b64_encode bs.
Proof.
  intros H. unfold uint8ToBase64, btoa, binary_string.
  rewrite String.list_ascii_of_string_of_list_ascii. f_equal. by apply codes_of_bytes.
Qed.

Lemma base64ToUint8_encode bs : Forall is_byte bs -> base64ToUint8 (b64_encode bs) = Some bs.
Proof.
  intros H. unfold base64ToUint8, atob. rewrite b64_decode_encode by done. cbn.
  rewrite String.list_ascii_of_string_of_list_ascii. f_equal. by apply codes_of_bytes.
Qed.

(** ** What a scan finds

    The node's documented behaviour: the program's accounts of the size whose bytes at the
    offset are the given ones, in some order. *)
Definition answers (chain : list (Address * bytes)) (req : GpaRequest) (accounts : list GpaAccount) : Prop :=
  exists m, base64ToUint8 (gr_bytes req) = Some m /\
    accounts ≡ₚ (fun e => mkGpaAccount e.1 (b64_encode e.2)) <$>
      filter (fun e : Address * bytes => Z.of_nat (length e.2) = gr_dataSize req /\
                take (length m) (drop (Z.to_nat (gr_offset req)) e.2) = m) chain.

Section exact.
Context `{env : PdaEnv} `{laws : !PdaLaws env}.
Context (decodeAddress : bytes -> option Address).
Hypothesis decodeAddress_encode : forall a, decodeAddress (encodeAddress a) = Some a.
Let lib : ClientLib := borsh_lib decodeAddress.

Lemma concat_opt_length {A} (f : A -> option bytes) l bs n :
  Forall (fun x => forall b, f x = Some b -> Z.of_nat (length b) = n) l ->
  concat_opt f l = Some bs -> Z.of_nat (length bs) = Z.of_nat (length l) * n.
Proof.
  intros HF. revert bs. induction HF as [|x l Hx _ IH]; intros bs H.
  - by injection H as <-.
  - cbn in H. apply bind_Some in H as (b & Hb & H). apply bind_Some in H as (bs' & Hbs & [= <-]).
    rewrite length_app. apply Hx in Hb. specialize (IH _ Hbs). cbn [length]. lia.
Qed.

(** A value of a fixed-size type encodes to that many bytes. *)
Lemma fixed_size_length c v bs n :
  fixed_size c = Some n -> borsh c v = Some bs -> Z.of_nat (length bs) = n.
Proof using All.
  revert v bs n. induction c using ctype_nested_ind; intros v bs sz Hs Hb.
  - destruct H as [w Hw]. destruct c; try discriminate Hw; destruct v; try discriminate Hb;
      injection Hw as <-; injection Hs as <-; cbn [borsh int_width mbind option_bind] in Hb;
      destruct (int_range _ _); try discriminate Hb; injection Hb as <-; by rewrite length_le_bytes.
  - destruct v; try discriminate Hb. injection Hb as <-. by injection Hs as <-.
  - destruct v; try discriminate Hb. injection Hb as <-. injection Hs as <-.
    by rewrite encodeAddress_length.
  - destruct v; try discriminate Hb. cbn [borsh] in Hb. injection Hs as <-.
    destruct (Nat.eqb_spec (length bs0) n); [|discriminate Hb]. injection Hb as <-. lia.
  - discriminate Hs.
  - discriminate Hs.
  - discriminate Hs.
  - destruct v; try discriminate Hb. cbn [borsh fixed_size] in *.
    destruct (Nat.eqb_spec (length vs) n) as [<-|]; [|discriminate Hb].
    apply fmap_Some in Hs as (m & Hm & ->). eapply concat_opt_length; [|exact Hb].
    apply Forall_forall. intros x _ b Hx. by eapply IHc.
  - destruct v as [| | | | | | |vs]; try discriminate Hb. cbn [borsh fixed_size] in *.
    revert vs bs sz Hs Hb. induction H as [|[k c] fs Hc _ IH]; intros [|[k' v] vs] bs sz Hs Hb; try discriminate Hb.
    + injection Hs as <-. by injection Hb as <-.
    + case_bool_decide; [|discriminate Hb].
      apply bind_Some in Hb as (b & Hb & Hb'). apply bind_Some in Hb' as (bs' & Hbs & [= <-]).
      apply bind_Some in Hs as (a & Ha & Hs'). apply bind_Some in Hs' as (r & Hr & [= <-]).
      cbn [snd] in Hc. specialize (Hc _ _ _ Ha Hb). specialize (IH _ _ _ Hr Hbs).
      rewrite length_app. lia.
Qed.

(** ** Accounts of one kind *)
#[local] Existing Instance lib.

(** [d] is the account's data when it holds the record [vs]. *)
Definition stored (layout : struct_type) (vs : struct_val) (d : bytes) : Prop :=
  typed_fields (account_type layout) vs = true /\ encodeStruct (account_type layout) vs = Some d.

Lemma stored_decodes layout vs d : stored layout vs d -> decodeStruct (account_type layout) d = Some vs.
Proof using All.
  intros [Ht He]. destruct (encode_typed (ClientLaws := borsh_lib_laws _ decodeAddress_encode) _ _ Ht)
    as (bs & Hb & Hd). unfold lib in He. rewrite Hb in He. by injection He as <-.
Qed.

Lemma stored_length layout vs d n :
  fixed_size (TStruct (account_type layout)) = Some n -> stored layout vs d -> Z.of_nat (length d) = n.
Proof using All. intros Hn [_ He]. eapply fixed_size_length; [exact Hn|exact He]. Qed.

(** The address at offset 8 is the record's first field. *)
Lemma stored_key k rest vs d :
  k <> "discriminator" -> stored ((k, TAddress) :: rest) vs d ->
  exists a, jm_get k vs = Some (VlAddr a) /\ take 32 (drop 8 d) = encodeAddress a.
Proof using All.
  intros Hk [Ht He]. unfold account_type in *.
  destruct vs as [|[k1 v1] [|[k2 v2] vs]]; [done|by cbn in Ht; rewrite andb_false_r in Ht|].
  cbn in Ht. rewrite !andb_true_iff, !bool_decide_eq_true in Ht.
  destruct Ht as [[<- Hv1] [[<- Hv2] _]].
  destruct v1 as [| | |b| | | |]; try discriminate Hv1. destruct v2 as [| |a| | | | |]; try discriminate Hv2.
  apply Nat.eqb_eq in Hv1. exists a. split.
  - cbn. rewrite decide_False by congruence. by rewrite decide_True by done.
  - cbn [encodeStruct lib borsh_lib borsh] in He. rewrite !bool_decide_true, Hv1 in He by done.
    cbn [Nat.eqb mbind option_bind] in He.
    apply bind_Some in He as (bs & E & He).
    apply bind_Some in E as (bs' & _ & [= <-]). injection He as <-.
    rewrite drop_app_length' by (by rewrite Hv1). apply take_app_length'. by rewrite encodeAddress_length.
Qed.

Lemma decode_entries_ok data_error layout l :
  Forall (fun e => exists x, decode_entry data_error layout e = Ok x) l ->
  exists found, decode_entries data_error layout l = Ok found /\
    forall x, x ∈ found <-> exists e, e ∈ l /\ decode_entry data_error layout e = Ok x.
Proof.
  induction 1 as [|e l [x Hx] _ (found & Hf & Hin)].
  - exists []. split; [done|]. intros x. split; [by intros ?%not_elem_of_nil|].
    by intros (e & ?%not_elem_of_nil & _).
  - exists (x :: found). cbn [decode_entries]. rewrite Hx, Hf. split; [done|]. intros y.
    rewrite elem_of_cons, Hin. split.
    + intros [->|(e' & He & Hy)]; [exists e; split; [left|done]|exists e'; split; [by right|done]].
    + intros (e' & [->|He]%elem_of_cons & Hy); [left; congruence|right; eauto].
Qed.

Lemma decode_stored data_error layout a vs d :
  Forall is_byte d -> stored layout vs d ->
  decode_entry data_error layout (mkGpaAccount a (b64_encode d)) = Ok (a, vs).
Proof using All.
  intros Hb Hs. unfold decode_entry. cbn [ga_data ga_pubkey].
  rewrite base64ToUint8_encode by done. cbn [mbind option_bind]. by rewrite (stored_decodes _ _ _ Hs).
Qed.

(** Every account of the size the scan asks for holds a record of the kind. *)
Definition sound_chain (layout : struct_type) (size : Z) (chain : list (Address * bytes)) : Prop :=
  Forall (fun e => Forall is_byte e.2 /\ (Z.of_nat (length e.2) = size -> exists vs, stored layout vs e.2)) chain.

Lemma scan_exact k rest size data_error key chain accounts :
  let layout := (k, TAddress) :: rest in
  k <> "discriminator" -> fixed_size (TStruct (account_type layout)) = Some size ->
  Forall is_byte (encodeAddress key) -> sound_chain layout size chain ->
  answers chain (scan_request size key) accounts ->
  exists found, decode_entries data_error layout accounts = Ok found /\
    forall a vs, (a, vs) ∈ found <->
      exists d, (a, d) ∈ chain /\ stored layout vs d /\ jm_get k vs = Some (VlAddr key).
Proof using All.
  intros layout Hk Hsize Hbytes Hchain (m & Hm & Hperm). cbn [gr_bytes gr_dataSize gr_offset scan_request] in *.
  rewrite uint8ToBase64_bytes, base64ToUint8_encode in Hm by done. injection Hm as <-.
  rewrite encodeAddress_length in Hperm. unfold sound_chain in Hchain. rewrite Forall_forall in Hchain.
  assert (Hmem : forall e, e ∈ accounts <-> exists a d vs, e = mkGpaAccount a (b64_encode d) /\
    (a, d) ∈ chain /\ Forall is_byte d /\ stored layout vs d /\ jm_get k vs = Some (VlAddr key)).
  { intros e. rewrite Hperm, list_elem_of_fmap. split.
    - intros ([a d] & -> & [[Hlen Hkey] Hin]%list_elem_of_filter).
      destruct (Hchain _ Hin) as [Hb Hv]. destruct (Hv Hlen) as [vs Hs]. exists a, d, vs. split_and!; try done.
      destruct (stored_key _ _ _ _ Hk Hs) as (b & Hget & Hb'). cbn in Hkey. rewrite Hget.
      do 2 f_equal. apply encodeAddress_inj. cbn [snd] in *. by rewrite <- Hb'.
    - intros (a & d & vs & -> & Hin & _ & Hs & Hget). exists (a, d). split; [done|].
      apply list_elem_of_filter. split; [split|done].
      + by eapply stored_length.
      + destruct (stored_key _ _ _ _ Hk Hs) as (b & Hget' & Hb). rewrite Hget in Hget'.
        injection Hget' as <-. exact Hb. }
  destruct (decode_entries_ok data_error layout accounts) as (found & Hf & Hfound).
  { apply Forall_forall. intros e (a & d & vs & -> & _ & Hb & Hs & _)%Hmem.
    exists (a, vs). by apply decode_stored. }
  exists found. split; [done|]. intros a vs. rewrite Hfound. split.
  - intros (e & (a' & d & vs' & -> & Hin & Hb & Hs & Hg)%Hmem & Hd).
    rewrite (decode_stored _ _ _ vs') in Hd by done. injection Hd as <- <-. eauto.
  - intros (d & Hin & Hs & Hg). destruct (Hchain _ Hin) as [Hb _].
    exists (mkGpaAccount a (b64_encode d)). split; [apply Hmem; eauto 10|by apply decode_stored].
Qed.

Lemma found_or_throw {A} (r : res RpcError (list A)) found :
  r = Ok found ->
  match r with
  | Ok found => Ok found
  | Throw err => if negb (StateResolver.isGpaUnsupportedError err) then Throw err else Ok []
  end = Ok found.
Proof. by intros ->. Qed.

(** discovery finds exactly the vault's accounts. If the vault's address is bytes, the node answers a scan as documented and
    every program account of the scanned size holds a record of the kind, [findEscrowsByVault]
    returns exactly the escrows whose source is the vault and [findSessionsByVault] exactly
    the vault's sessions, each with its address and its decoded fields, and neither throws; a
    node that does not support the scan makes both return nothing, as for a vault without any. *)
Theorem discovery_exact getProgramAccounts data_error chain vault
    (Hvault : Forall is_byte (encodeAddress vault))
    (Hnode : forall size, exists accounts, getProgramAccounts (scan_request size vault) = Ok accounts /\
               answers chain (scan_request size vault) accounts)
    (Hescrow : sound_chain EscrowDeposit_layout ESCROW_DEPOSIT_SIZE chain)
    (Hsession : sound_chain SessionAuthority_layout SESSION_AUTHORITY_SIZE chain) :
  (exists found, findEscrowsByVault getProgramAccounts data_error vault = Ok found /\
    forall a vs, (a, vs) ∈ found <-> exists d, (a, d) ∈ chain /\
      stored EscrowDeposit_layout vs d /\ jm_get "sourceVault" vs = Some (VlAddr vault)) /\
  (exists found, findSessionsByVault getProgramAccounts data_error vault = Ok found /\
    forall a vs, (a, vs) ∈ found <-> exists d, (a, d) ∈ chain /\
      stored SessionAuthority_layout vs d /\ jm_get "vault" vs = Some (VlAddr vault)) /\
  (forall err down, StateResolver.isGpaUnsupportedError err = true ->
    (forall req, down req = Throw err) ->
    findEscrowsByVault down data_error vault = Ok [] /\
    findSessionsByVault down data_error vault = Ok []).
Proof using All.
  split_and!.
  - destruct (Hnode ESCROW_DEPOSIT_SIZE) as (accounts & Hok & Hans).
    destruct (scan_exact "sourceVault" (tail EscrowDeposit_layout) ESCROW_DEPOSIT_SIZE data_error
      vault chain accounts) as (found & Hf & Hin); [done|reflexivity|done|done|done|].
    exists found. split; [|exact Hin]. unfold findEscrowsByVault. rewrite Hok.
    cbn [mbind res_bind]. exact (found_or_throw _ _ Hf).
  - destruct (Hnode SESSION_AUTHORITY_SIZE) as (accounts & Hok & Hans).
    destruct (scan_exact "vault" (tail SessionAuthority_layout) SESSION_AUTHORITY_SIZE data_error
      vault chain accounts) as (found & Hf & Hin); [done|reflexivity|done|done|done|].
    exists found. split; [|exact Hin]. unfold findSessionsByVault. rewrite Hok.
    cbn [mbind res_bind]. exact (found_or_throw _ _ Hf).
  - intros err down He Hd. unfold findEscrowsByVault, findSessionsByVault. rewrite !Hd.
    cbn [mbind res_bind]. by rewrite He.
Qed.
End exact.

(** ** A concrete node: one session of the vault ["v"] and one of ["w"] *)
Definition scan_env : PdaEnv := {|
  encodeAddress a :=
    match a with
    | String c EmptyString => code c :: replicate 31 0
    | _ => (Z.pos (encode a) + 256) :: replicate 31 0
    end;
  getProgramDerivedAddress p s := (p, 255) |}.

Definition scan_decode (bs : bytes) : option Address :=
  match bs with
  | b :: _ => if b <? 256 then Some (String (Ascii.ascii_of_nat (Z.to_nat b)) "")
              else decode (Z.to_pos (b - 256))
  | [] => None
  end.

Lemma scan_decode_encode a : scan_decode (encodeAddress (PdaEnv := scan_env) a) = Some a.
Proof.
  destruct a as [|c [|c' a]]; cbn [encodeAddress scan_env scan_decode].
  2: { pose proof (code_byte c) as Hc. unfold is_byte in Hc. rewrite (proj2 (Z.ltb_lt _ _)) by lia.
       unfold code. by rewrite Nat2Z.id, Ascii.ascii_nat_embedding. }
  all: rewrite (proj2 (Z.ltb_ge _ _)) by lia;
    rewrite Z.add_simpl_r; cbn [Z.to_pos]; apply decode_encode.
Qed.

Lemma scan_env_laws : PdaLaws scan_env.
Proof.
  split.
  - by intros [|c [|c' a]].
  - intros a b H. pose proof (scan_decode_encode a) as Ha. rewrite H, scan_decode_encode in Ha. congruence.
Qed.

Definition scan_session (vault : Address) : struct_val :=
  [("discriminator", VlBytes [48; 9; 30; 120; 134; 35; 172; 170]);
   ("vault", VlAddr vault); ("agent", VlAddr "a"); ("authorized", VlBool true);
   ("authorizedAmount", VlInt 1000000); ("authorizedToken", VlAddr "t");
   ("authorizedProtocol", VlAddr "p"); ("isSpending", VlBool true);
   ("expiresAtTimestamp", VlInt 1700000000); ("delegated", VlBool true);
   ("delegationTokenAccount", VlAddr "d"); ("protocolFee", VlInt 200);
   ("developerFee", VlInt 0); ("outputMint", VlAddr "o"); ("stablecoinBalanceBefore", VlInt 5);
   ("bump", VlInt 254); ("assertionSnapshots", VlList (replicate 4 (VlBytes (replicate 32 0))));
   ("snapshotLens", VlBytes [0; 0; 0; 0])].

Definition scan_lib : ClientLib := borsh_lib (env := scan_env) scan_decode.
Definition scan_data (vault : Address) : bytes :=
  default [] (encodeStruct (ClientLib := scan_lib) (account_type SessionAuthority_layout) (scan_session vault)).
Definition scan_chain : list (Address * bytes) := [("s1", scan_data "v"); ("s2", scan_data "w")].

(** A node that answers as documented. *)
Definition scan_node (chain : list (Address * bytes)) (req : GpaRequest) : res RpcError (list GpaAccount) :=
  let m := default [] (base64ToUint8 (gr_bytes req)) in
  Ok ((fun e => mkGpaAccount e.1 (b64_encode e.2)) <$>
      filter (fun e : Address * bytes => Z.of_nat (length e.2) = gr_dataSize req /\
                take (length m) (drop (Z.to_nat (gr_offset req)) e.2) = m) chain).

Lemma scan_stored vault :
  vault ∈ ["v"; "w"] ->
  stored (env := scan_env) scan_decode SessionAuthority_layout (scan_session vault) (scan_data vault) /\
  Forall is_byte (scan_data vault) /\ length (scan_data vault) = 376%nat.
Proof.
  rewrite !elem_of_cons. intros [->|[->|[]%not_elem_of_nil]];
    (split_and!; [split; vm_compute; reflexivity| |vm_compute; reflexivity]);
    apply (bool_decide_unpack _); vm_compute; exact I.
Qed.

Lemma discovery_exact_witness :
  findSessionsByVault (env := scan_env) (lib := scan_lib) (scan_node scan_chain)
    (fun _ => StateResolver.mkRpcError true None "bad data") "v" = Ok [("s1", scan_session "v")] /\
  exists found, findSessionsByVault (env := scan_env) (lib := scan_lib) (scan_node scan_chain)
    (fun _ => StateResolver.mkRpcError true None "bad data") "v" = Ok found /\
    forall a vs, (a, vs) ∈ found <-> exists d, (a, d) ∈ scan_chain /\
      stored (env := scan_env) scan_decode SessionAuthority_layout vs d /\
      jm_get "vault" vs = Some (VlAddr "v").
Proof.
  split; [vm_compute; reflexivity|].
  apply (discovery_exact (env := scan_env) (laws := scan_env_laws) scan_decode scan_decode_encode
    (scan_node scan_chain) (fun _ => StateResolver.mkRpcError true None "bad data") scan_chain "v").
  - apply (bool_decide_unpack _). vm_compute. exact I.
  - intros size. eexists. split; [reflexivity|].
    exists (encodeAddress (PdaEnv := scan_env) "v"). split; [vm_compute; reflexivity|reflexivity].
  - repeat apply Forall_cons_2; [..|apply Forall_nil_2]; cbn [snd];
      (split; [apply scan_stored; set_solver|]);
      match goal with |- context [scan_data ?v] =>
        rewrite (proj2 (proj2 (scan_stored v ltac:(set_solver)))) end; done.
  - repeat apply Forall_cons_2; [..|apply Forall_nil_2]; cbn [snd];
      (split; [apply scan_stored; set_solver|]); intros _; eexists; apply scan_stored; set_solver.
Defined.
