(* ===== verification/Mutations.v ===== *)
(** * The owner's mutations ([dashboard/mutations.ts])

    One function per mutation: the guards, the instructions, the transaction. Errors are
    tagged with where they arise: what [run] and the guards throw goes through [toDxError]
    ([AgentErrors]), what the builders throw does not. *)

From Stdlib Require Import QArith.
From S2P Require Import Prelude Types Accounts Bytes Pdas AltLoader Composer PostAssertions RpcHelpers Executor Codecs Instructions InstructionTable CreateVault ConstraintChain.
Local Open Scope string_scope.
Local Open Scope Z_scope.
Local Open Scope list_scope.

Inductive mut_error :=
  | EGuard (message : string)        (* [toDxError(new Error(..))] *)
  | EBuilder (e : client_error)
  | EState (e : SigilError)          (* [resolveVaultStateForOwner] *)
  | EConstraints (e : SigilError)    (* the [catch] around the constraint builders *)
  | EAssertions (e : PostAssertionValidationError)
  | ERun (e : SigilError).           (* the [catch] of [run] *)

Definition lift_client {A} (r : res client_error A) : res mut_error A :=
  match r with Ok x => Ok x | Throw e => Throw (EBuilder e) end.
Definition guard (bad : bool) (message : string) : res mut_error unit := throw_if bad (EGuard message).

(** ** Guards *)
Definition MUT_U64_MAX : Z := 2 ^ 64 - 1.
Definition MAX_CAPABILITY : Z := 2.

Definition requirePositiveAmount (amount : Z) (field : string) : res mut_error unit :=
  guard (amount <=? 0) (field +:+ " must be positive") ;;
  guard (amount >? MUT_U64_MAX) (field +:+ " exceeds u64 maximum").

Definition requireValidAddress (addr field : string) : res mut_error unit :=
  guard ((Z.of_nat (String.length addr) <? 32) || (Z.of_nat (String.length addr) >? 44))
    (field +:+ " is not a valid Solana address").

Definition requireValidPermissions (perms : Z) : res mut_error unit :=
  guard (perms <? 0) "Capability cannot be negative" ;;
  guard (perms =? 0) "Capability is 0 (Disabled)" ;;
  guard (perms >? MAX_CAPABILITY) "Capability exceeds maximum".

(** The names [Object.prototype] adds to [in] are not of the field's type. *)
Definition mapProtocolMode (mode : string) : res mut_error Z :=
  match jm_get mode [("unrestricted", 0); ("whitelist", 1); ("blacklist", 2)] with
  | Some m => Ok m
  | None => Throw (EGuard "Invalid protocolMode")
  end.

(** ** [run] *)
Record TxOpts := mkTxOpts { to_computeUnits : option Z; to_priorityFee : option Z; to_strictMode : option bool }.
Definition no_opts : TxOpts := mkTxOpts None None None.

Section mutations.
Context `{env : PdaEnv} `{lib : ClientLib} {Tx : Type} `{txlib : !TxLib Tx}.

(** What the shared blockhash cache, the owner's signature, the RPC node and the clock answer. *)
Record RunWorld := mkRunWorld {
  rw_blockhash : res SigilError Blockhash;
  rw_sign : TransactionMessage -> res SigilError Tx;
  rw_send : string -> res SigilError string;
  rw_confirm : ConfirmEnv;
  rw_fuel : nat;
}.

Definition run_instructions (instructions : list Instruction) (opts : TxOpts) : list Instruction :=
  getSetComputeUnitLimitInstruction (default CU_OWNER_ACTION (to_computeUnits opts))
  :: (match to_priorityFee opts with
      | Some n => if n =? 0 then [] else [getSetComputeUnitPriceInstruction n]
      | None => []
      end) ++ instructions.

Definition as_run {A} (r : res SigilError A) : res mut_error A :=
  match r with Ok x => Ok x | Throw e => Throw (ERun e) end.

(** No lookup tables, no measurement. [None]: out of fuel. *)
Definition run (w : RunWorld) (owner : Address) (instructions : list Instruction) (opts : TxOpts)
    : option (res mut_error string) :=
  match rw_blockhash w with
  | Throw e => Some (Throw (ERun e))
  | Ok blockhash =>
      match rw_sign w (mkMessage owner blockhash (run_instructions instructions opts)) with
      | Throw e => Some (Throw (ERun e))
      | Ok signedTx =>
          as_run <$> sendAndConfirmTransaction (mkConfirmOptions None None None)
                       (rw_send w (getBase64EncodedWireTransaction signedTx)) (rw_confirm w) (rw_fuel w)
      end
  end.

(** ** What each mutation sends *)
Definition one (sp : ix_spec) (input : jsmap Address) (args : struct_val) : res mut_error (list Instruction) :=
  ix ← lift_client (getInstruction sp input args); Ok [ix].
Definition one_async (sp : ix_spec) (input : jsmap Address) (args : struct_val)
    : res mut_error (list Instruction) :=
  ix ← lift_client (getInstructionAsync sp input args); Ok [ix].

Definition opt_val {A} (f : A -> cval) (o : option A) : cval :=
  match o with Some x => VlSome (f x) | None => VlNone end.

Definition overlay_of (vault : Address) : Address := (Pda.getAgentOverlayPDA vault 0 SIGIL_PROGRAM_ID).1.

Definition derivePendingAgentPermsPDA (vault agent : Address) : Address :=
  (getProgramDerivedAddress SIGIL_PROGRAM_ID
     [seedString "pending_agent_perms"; encodeAddress vault; encodeAddress agent]).1.

Definition freezeVault (owner vault : Address) : res mut_error (list Instruction) :=
  one FreezeVault_ix [("owner", owner); ("vault", vault)] [].

Definition resumeVault (owner vault : Address) (newAgent : option (Address * Z))
    : res mut_error (list Instruction) :=
  one ReactivateVault_ix [("owner", owner); ("vault", vault)]
    [("newAgent", opt_val VlAddr (fst <$> newAgent));
     ("newAgentCapability", opt_val VlInt (snd <$> newAgent))].

Definition pauseAgent (owner vault agent : Address) : res mut_error (list Instruction) :=
  requireValidAddress agent "Agent address" ;;
  one PauseAgent_ix [("owner", owner); ("vault", vault)] [("agentToPause", VlAddr agent)].

Definition unpauseAgent (owner vault agent : Address) : res mut_error (list Instruction) :=
  requireValidAddress agent "Agent address" ;;
  one UnpauseAgent_ix [("owner", owner); ("vault", vault)] [("agentToUnpause", VlAddr agent)].

Definition revokeAgent (owner vault agent : Address) : res mut_error (list Instruction) :=
  requireValidAddress agent "Agent address" ;;
  one RevokeAgent_ix [("owner", owner); ("vault", vault); ("agentSpendOverlay", overlay_of vault)]
    [("agentToRemove", VlAddr agent)].

Definition addAgent (owner vault agent : Address) (permissions spendingLimit : Z)
    : res mut_error (list Instruction) :=
  requireValidAddress agent "Agent address" ;;
  requireValidPermissions permissions ;;
  one RegisterAgent_ix [("owner", owner); ("vault", vault); ("agentSpendOverlay", overlay_of vault)]
    [("agent", VlAddr agent); ("capability", VlInt permissions); ("spendingLimitUsd", VlInt spendingLimit)].

Definition deposit (owner vault mint : Address) (amount : Z) : res mut_error (list Instruction) :=
  requirePositiveAmount amount "Deposit amount" ;;
  requireValidAddress mint "Token mint" ;;
  one_async DepositFunds_ix [("owner", owner); ("vault", vault); ("mint", mint)] [("amount", VlInt amount)].

Definition withdraw (owner vault mint : Address) (amount : Z) : res mut_error (list Instruction) :=
  requirePositiveAmount amount "Withdraw amount" ;;
  requireValidAddress mint "Token mint" ;;
  one_async WithdrawFunds_ix [("owner", owner); ("vault", vault); ("mint", mint)] [("amount", VlInt amount)].

(** [ch_keys]: the number of own keys, a key with value [undefined] included. *)
Record PolicyChanges := mkChanges {
  ch_keys : nat;
  ch_dailyCap : option Z;
  ch_maxPerTrade : option Z;
  ch_approvedApps : option (list Address);
  ch_protocolMode : option string;
  ch_hasProtocolCaps : option bool;
  ch_protocolCaps : option (list Z);
  ch_maxSlippageBps : option Z;
  ch_allowedDestinations : option (list Address);
  ch_developerFeeRate : option Z;
  ch_sessionExpirySeconds : option Z;
  ch_timelock : option Z;
  ch_destinationMode : option Z;
}.

Definition when_some {A} (o : option A) (f : A -> res mut_error unit) : res mut_error unit :=
  match o with Some x => f x | None => Ok tt end.

Definition policy_guards (ch : PolicyChanges) : res mut_error unit :=
  guard (Nat.eqb (ch_keys ch) 0) "At least one policy change is required" ;;
  when_some (ch_timelock ch) (fun t => guard (t <? 1800) "Timelock must be >= 1800 seconds") ;;
  when_some (ch_dailyCap ch) (fun a => requirePositiveAmount a "Daily cap") ;;
  when_some (ch_maxPerTrade ch) (fun a => requirePositiveAmount a "Max per trade") ;;
  when_some (ch_developerFeeRate ch) (fun r => guard (r >? 500) "Developer fee rate cannot exceed 500 BPS") ;;
  when_some (ch_approvedApps ch)
    (fun l => guard (Z.of_nat (length l) >? MAX_ALLOWED_PROTOCOLS)
                "approvedApps length exceeds on-chain MAX_ALLOWED_PROTOCOLS").

(** [changes.protocolMode ? ... : null]: the empty text is no mode. *)
Definition changes_mode (ch : PolicyChanges) : res mut_error (option Z) :=
  match ch_protocolMode ch with
  | Some m => if bool_decide (m = "") then Ok None else mode ← mapProtocolMode m; Ok (Some mode)
  | None => Ok None
  end.

Definition policy_args (ch : PolicyChanges) (mode : option Z) : struct_val :=
  [ ("dailySpendingCapUsd", opt_val VlInt (ch_dailyCap ch));
    ("maxTransactionAmountUsd", opt_val VlInt (ch_maxPerTrade ch));
    ("protocolMode", opt_val VlInt mode);
    ("protocols", opt_val addr_list (ch_approvedApps ch));
    ("developerFeeRate", opt_val VlInt (ch_developerFeeRate ch));
    ("maxSlippageBps", opt_val VlInt (ch_maxSlippageBps ch));
    ("timelockDuration", opt_val VlInt (ch_timelock ch));
    ("allowedDestinations", opt_val addr_list (ch_allowedDestinations ch));
    ("sessionExpirySeconds", opt_val VlInt (ch_sessionExpirySeconds ch));
    ("hasProtocolCaps", opt_val VlBool (ch_hasProtocolCaps ch));
    ("protocolCaps", opt_val int_list (ch_protocolCaps ch));
    ("destinationMode", opt_val VlInt (ch_destinationMode ch)) ].

Definition queuePolicyUpdate (owner vault : Address) (changes : PolicyChanges)
    : res mut_error (list Instruction) :=
  policy_guards changes ;;
  mode ← changes_mode changes;
  one_async QueuePolicyUpdate_ix [("owner", owner); ("vault", vault)] (policy_args changes mode).

Definition applyPendingPolicy (owner vault : Address) := one_async ApplyPendingPolicy_ix [("owner", owner); ("vault", vault)] [].
Definition cancelPendingPolicy (owner vault : Address) := one_async CancelPendingPolicy_ix [("owner", owner); ("vault", vault)] [].

Definition queueAgentPermissions (owner vault agent : Address) (permissions spendingLimit : Z)
    : res mut_error (list Instruction) :=
  requireValidAddress agent "Agent address" ;;
  requireValidPermissions permissions ;;
  one_async QueueAgentPermissionsUpdate_ix [("owner", owner); ("vault", vault)]
    [("agent", VlAddr agent); ("newCapability", VlInt permissions); ("spendingLimitUsd", VlInt spendingLimit)].

Definition applyAgentPermissions (owner vault agent : Address) : res mut_error (list Instruction) :=
  requireValidAddress agent "Agent address" ;;
  one_async ApplyAgentPermissionsUpdate_ix
    [("owner", owner); ("vault", vault); ("agentSpendOverlay", overlay_of vault);
     ("pendingAgentPerms", derivePendingAgentPermsPDA vault agent)] [].

Definition cancelAgentPermissions (owner vault agent : Address) : res mut_error (list Instruction) :=
  requireValidAddress agent "Agent address" ;;
  one CancelAgentPermissionsUpdate_ix
    [("owner", owner); ("vault", vault); ("pendingAgentPerms", derivePendingAgentPermsPDA vault agent)] [].

Definition as_constraints {A} (r : res SigilError A) : res mut_error A :=
  match r with Ok x => Ok x | Throw e => Throw (EConstraints e) end.

Definition constraints_input (owner vault : Address) (entries : list cval) (opts : TxOpts)
    : BuildCreateConstraintsInput :=
  mkConstraintsInput owner vault (Pda.getPolicyPDA vault SIGIL_PROGRAM_ID).1 entries
    (default true (to_strictMode opts)).

Definition createConstraints (owner vault : Address) (entries : list cval) (opts : TxOpts)
    : res mut_error (list Instruction) :=
  guard (bool_decide (entries = [])) "Constraint entries must be a non-empty array" ;;
  as_constraints (buildCreateConstraintsIxs (Tx := Tx) (constraints_input owner vault entries opts)).

Definition queueConstraintsUpdate (owner vault : Address) (entries : list cval) (opts : TxOpts)
    : res mut_error (list Instruction) :=
  guard (bool_decide (entries = [])) "Constraint entries must be a non-empty array" ;;
  as_constraints (buildQueueConstraintsUpdateIxs (Tx := Tx) (constraints_input owner vault entries opts)).

Definition applyConstraintsUpdate (owner vault : Address) := one_async ApplyConstraintsUpdate_ix [("owner", owner); ("vault", vault)] [].
Definition cancelConstraintsUpdate (owner vault : Address) := one_async CancelConstraintsUpdate_ix [("owner", owner); ("vault", vault)] [].
Definition queueCloseConstraints (owner vault : Address) := one_async QueueCloseConstraints_ix [("owner", owner); ("vault", vault)] [].
Definition applyCloseConstraints (owner vault : Address) := one_async ApplyCloseConstraints_ix [("owner", owner); ("vault", vault)] [].
Definition cancelCloseConstraints (owner vault : Address) := one_async CancelCloseConstraints_ix [("owner", owner); ("vault", vault)] [].

(** An entry of the generated type; its fields are integers once validated. *)
Definition entry_val (e : PostAssertionEntry) : cval :=
  let int (o : js_int) := VlInt (default 0 o) in
  VlRec [("targetAccount", VlAddr (targetAccount e)); ("offset", int (pa_offset e));
         ("valueLen", int (valueLen e)); ("operator", int (pa_operator e));
         ("expectedValue", VlBytes (expectedValue e)); ("assertionMode", int (assertionMode e));
         ("crossFieldOffsetB", int (crossFieldOffsetB e));
         ("crossFieldMultiplierBps", int (crossFieldMultiplierBps e));
         ("crossFieldFlags", int (crossFieldFlags e))].

Definition slot_entries (l : list entry_slot) : list PostAssertionEntry :=
  omap (fun s => match s with Entry e => Some e | _ => None end) l.

Definition createPostAssertions (owner vault : Address) (entries : option (list entry_slot))
    : res mut_error (list Instruction) :=
  (match validatePostAssertionEntries entries with Ok _ => Ok tt | Throw e => Throw (EAssertions e) end) ;;
  one_async CreatePostAssertions_ix [("owner", owner); ("vault", vault)]
    [("entries", VlList (entry_val <$> slot_entries (default [] entries)))].

Definition closePostAssertions (owner vault : Address) := one_async ClosePostAssertions_ix [("owner", owner); ("vault", vault)] [].

(** ** [closeVault]

    [account]: what [getAccountInfo] answers, [None] when the call fails. *)
Definition existence (account : Address -> option bool) (pda : Address) : bool := default false (account pda).

Definition close_candidates (vault : Address) (agents : list AgentEntry) : list Address :=
  (Pda.getPendingPolicyPDA vault SIGIL_PROGRAM_ID).1
  :: ((fun a => derivePendingAgentPermsPDA vault (pubkey a)) <$> agents)
  ++ [(Pda.getPendingCloseConstraintsPDA vault SIGIL_PROGRAM_ID).1].

Definition close_remaining (account : Address -> option bool) (vault : Address) (agents : list AgentEntry)
    : list Address :=
  filter (fun pda => existence account pda = true) (close_candidates vault agents).

Definition closeVault (state : res SigilError AgentVault) (account : Address -> option bool)
    (owner vault : Address) : res mut_error (list Instruction) :=
  vaultData ← (match state with Ok v => Ok v | Throw e => Throw (EState e) end);
  ix ← lift_client (getInstructionAsync CloseVault_ix
         [("owner", owner); ("vault", vault); ("agentSpendOverlay", overlay_of vault)] []);
  let remaining := (fun a => mkMeta a WRITABLE None) <$> close_remaining account vault (agents vaultData) in
  Ok [if Nat.ltb 0 (length remaining)
      then mkInstruction (ins_program ix) (Some (default [] (ins_accounts ix) ++ remaining)) (ins_data ix)
      else ix].

(** ** The mutations, sent *)
Definition send (w : RunWorld) (owner : Address) (ixs : res mut_error (list Instruction)) (opts : TxOpts)
    : option (res mut_error string) :=
  match ixs with
  | Throw e => Some (Throw e)
  | Ok ixs => run w owner ixs opts
  end.

(** [closeVault] asks for 400000 units unless told otherwise. *)
Definition close_opts (opts : TxOpts) : TxOpts :=
  mkTxOpts (Some (default 400000 (to_computeUnits opts))) (to_priorityFee opts) None.
End mutations.
