(* ===== verification/MutationsSpec.v ===== *)
(** * What the owner's mutations promise

    The guards of [queuePolicyUpdate] against the checks of [queue_policy_update], and the
    accounts [closeVault] hands to the program's [close_vault]. *)

From S2P Require Import Prelude Types Accounts Bytes OnChain Pdas AltLoader Composer PostAssertions RpcHelpers Executor Codecs Instructions InstructionTable InstructionSpec OwnerChain OwnerSpec CreateVault CreateVaultSpec ConstraintChain Mutations.
Local Open Scope string_scope.
Local Open Scope Z_scope.
Local Open Scope list_scope.

(** ** [queuePolicyUpdate] *)

(** The update the program reads from the arguments. *)
Definition changes_update (ch : PolicyChanges) (mode : option Z) : PolicyUpdate := {|
  pu_dailySpendingCapUsd := ch_dailyCap ch;
  pu_maxTransactionAmountUsd := ch_maxPerTrade ch;
  pu_protocolMode := mode;
  pu_protocols := ch_approvedApps ch;
  pu_developerFeeRate := ch_developerFeeRate ch;
  pu_maxSlippageBps := ch_maxSlippageBps ch;
  pu_timelockDuration := ch_timelock ch;
  pu_allowedDestinations := ch_allowedDestinations ch;
  pu_sessionExpirySeconds := ch_sessionExpirySeconds ch;
  pu_hasProtocolCaps := ch_hasProtocolCaps ch;
  pu_protocolCaps := ch_protocolCaps ch;
  pu_destinationMode := ch_destinationMode ch;
|}.

(** What the guards leave to the program. *)
Definition residual_checks (policy : PolicyConfig) (u : PolicyUpdate) : bool :=
  (default 0 (pu_destinationMode u) <=? 1)
  && (default 0 (pu_maxSlippageBps u) <=? 5000)
  && (len (default [] (pu_allowedDestinations u)) <=? 10)
  && (let e := default 0 (pu_sessionExpirySeconds u) in (e <=? 0) || (5 <=? e) && (e <=? 90))
  && (negb (default (hasProtocolCaps policy) (pu_hasProtocolCaps u))
      || (default (protocolMode policy) (pu_protocolMode u) =? 1)
         && (len (default (protocolCaps policy) (pu_protocolCaps u))
             =? len (default (protocols policy) (pu_protocols u)))).

Definition residual_errors : list string :=
  ["InvalidDestinationMode"; "SlippageBpsTooHigh"; "TooManyDestinations"; "InvalidSessionExpiry";
   "ProtocolCapsMismatch"].

Definition changes_typed (ch : PolicyChanges) : Prop :=
  (forall l, ch_approvedApps ch = Some l -> len l < 2 ^ 32) /\
  (forall l, ch_allowedDestinations ch = Some l -> len l < 2 ^ 32) /\
  (forall l, ch_protocolCaps ch = Some l -> len l < 2 ^ 32 /\ Forall is_u64 l).

(** The conditions under which the guards pass. *)
Definition guarded (ch : PolicyChanges) : Prop :=
  (forall t, ch_timelock ch = Some t -> 1800 <= t) /\
  (forall a, ch_dailyCap ch = Some a -> 0 < a <= U64_MAX) /\
  (forall a, ch_maxPerTrade ch = Some a -> 0 < a <= U64_MAX) /\
  (forall r, ch_developerFeeRate ch = Some r -> r <= 500) /\
  (forall l, ch_approvedApps ch = Some l -> len l <= 10).

Lemma guard_ok b m : guard b m = Ok tt <-> b = false.
Proof. apply throw_if_ok_inv. Qed.

Lemma when_some_ok {A} (o : option A) f :
  when_some o f = Ok tt <-> forall x, o = Some x -> f x = Ok tt.
Proof.
  destruct o as [x|]; cbn; split; [intros H ? [= <-]; done|intros H; by apply H|done|done].
Qed.

Lemma if_some_ok {A} (o : option A) f :
  if_some o f = Ok tt <-> forall x, o = Some x -> f x = Ok tt.
Proof.
  destruct o as [x|]; cbn; split; [intros H ? [= <-]; done|intros H; by apply H|done|done].
Qed.

Lemma bind_unit_ok {E} (m n : res E unit) : (m ;; n) = Ok tt <-> m = Ok tt /\ n = Ok tt.
Proof.
  split.
  - intros H. apply bind_ok_inv in H as ([] & -> & ->). done.
  - intros [-> ->]. done.
Qed.

Lemma positive_ok a f : requirePositiveAmount a f = Ok tt <-> 0 < a <= U64_MAX.
Proof.
  unfold requirePositiveAmount. rewrite bind_unit_ok, !guard_ok. unfold MUT_U64_MAX, U64_MAX. lia.
Qed.

Lemma policy_guards_ok ch : policy_guards ch = Ok tt -> guarded ch.
Proof.
  unfold policy_guards, guarded. rewrite !bind_unit_ok, !when_some_ok. unfold len, MAX_ALLOWED_PROTOCOLS.
  intros (_ & H1 & H2 & H3 & H4 & H5). split_and!; intros x Hx.
  - apply H1, guard_ok in Hx. lia.
  - apply H2, positive_ok in Hx. done.
  - apply H3, positive_ok in Hx. done.
  - apply H4, guard_ok in Hx. lia.
  - apply H5, guard_ok in Hx. lia.
Qed.

Lemma mode_range ch mode : changes_mode ch = Ok mode -> forall m, mode = Some m -> 0 <= m <= 2.
Proof.
  unfold changes_mode, mapProtocolMode. intros H m ->.
  destruct (ch_protocolMode ch) as [s|]; [|done]. case_bool_decide; [done|].
  cbn [jm_get] in H. repeat case_match; try done; simplify_eq/=; lia.
Qed.

(** Below, a failing check is one of the list [errs]. *)
Definition only (errs : list string) (b : bool) (r : res string unit) : Prop :=
  (r = Ok tt <-> b = true) /\ forall e, r = Throw e -> e ∈ errs.

Lemma only_require errs b e : e ∈ errs -> only errs b (require b e).
Proof. intros He. destruct b; split; try done. intros ? [= <-]. done. Qed.

Lemma only_bind errs b1 b2 r1 r2 :
  only errs b1 r1 -> only errs b2 r2 -> only errs (b1 && b2) (r1 ;; r2).
Proof.
  intros [H1 E1] [H2 E2]. split.
  - rewrite bind_unit_ok, H1, H2. by rewrite andb_true_iff.
  - intros e. destruct r1 as [[]|e1]; cbn; [apply E2|]. intros [= <-]. by apply E1.
Qed.

Lemma only_passes {A} errs (o : option A) f :
  (forall x, o = Some x -> f x = Ok tt) -> only errs true (if_some o f).
Proof. intros H%if_some_ok. by rewrite H. Qed.

Lemma only_some {A} errs (o : option A) (b : A -> bool) f :
  (forall x, only errs (b x) (f x)) -> only errs (from_option b true o) (if_some o f).
Proof. intros H. destruct o as [x|]; [apply H|done]. Qed.

Lemma only_when errs (c b : bool) r : only errs b r -> only errs (negb c || b) (if c then r else Ok tt).
Proof. by destruct c. Qed.

Lemma queue_checks_guarded policy ch mode :
  policy_ok policy -> guarded ch -> (forall m, mode = Some m -> 0 <= m <= 2) ->
  only residual_errors (residual_checks policy (changes_update ch mode))
    (queue_checks policy (changes_update ch mode)).
Proof.
  intros Hp (G1 & _ & _ & G4 & G5) Hm. destruct (po_timelock policy Hp) as [Ht _].
  unfold queue_checks. rewrite (require_true (timelockDuration policy >? 0)) by lia.
  assert (Hrec : forall b b' r, only residual_errors b r -> b = b' -> only residual_errors b' r)
    by (intros; by subst).
  eapply Hrec.
  - apply (only_bind _ true); [done|].
    apply (only_bind _ true); [apply only_passes; intros m Hx; apply require_true; specialize (Hm m Hx);
      unfold PROTOCOL_MODE_DENYLIST; lia|].
    eapply only_bind; [apply only_some; intros x; apply only_require; set_solver|].
    apply (only_bind _ true); [apply only_passes; intros l Hx; apply require_true; specialize (G5 l Hx);
      unfold MAX_ALLOWED_PROTOCOLS; lia|].
    apply (only_bind _ true); [apply only_passes; intros r Hx; apply require_true; specialize (G4 r Hx);
      unfold MAX_DEVELOPER_FEE_RATE; lia|].
    eapply only_bind; [apply only_some; intros x; apply only_require; set_solver|].
    eapply only_bind; [apply only_some; intros x; apply only_require; set_solver|].
    apply (only_bind _ true); [apply only_passes; intros t Hx; apply require_true; specialize (G1 t Hx);
      unfold MIN_TIMELOCK_DURATION; lia|].
    eapply only_bind; [apply only_some; intros x; apply only_when, only_require; set_solver|].
    apply only_when, only_bind; apply only_require; set_solver.
  - unfold residual_checks, DESTINATION_MODE_OPEN_WITH_CAP, MAX_SLIPPAGE_BPS, MAX_ALLOWED_DESTINATIONS,
      MIN_SESSION_DURATION_SECONDS, MAX_OWNER_SESSION_DURATION_SECONDS, PROTOCOL_MODE_ALLOWLIST.
    rewrite !andb_true_l, !andb_assoc. f_equal.
    set (u := changes_update ch mode).
    assert (Hexp : from_option (fun x => negb (x >? 0) || (5 <=? x) && (x <=? 90)) true
                     (pu_sessionExpirySeconds u)
                   = (let e := default 0 (pu_sessionExpirySeconds u) in
                      (e <=? 0) || (5 <=? e) && (e <=? 90))).
    { destruct (pu_sessionExpirySeconds u) as [x|]; [|done]. cbn. f_equal. lia. }
    rewrite Hexp. destruct (pu_destinationMode u), (pu_maxSlippageBps u), (pu_allowedDestinations u); done.
Qed.

Section queue.
Context `{env : PdaEnv} `{pdaLaws : !PdaLaws env} {lib : ClientLib} `{laws : !ClientLaws lib}.

Lemma typed_opt {A} c (f : A -> cval) o :
  (forall x, o = Some x -> typed c (f x) = true) -> typed (TOption c) (opt_val f o) = true.
Proof. destruct o as [x|]; intros H; [by apply H|done]. Qed.

Lemma range_opt {A} c (f : A -> cval) o x :
  range_ok (TOption c) (opt_val f o) = true -> o = Some x -> range_ok c (f x) = true.
Proof. by intros H ->. Qed.

Lemma range_typed c z : is_Some (int_width c) -> range_ok c (VlInt z) = true -> typed c (VlInt z) = true.
Proof. by destruct c as [| | | | | | | | | | | | | |]; intros [? H]. Qed.

Lemma typed_opt_int c o :
  is_Some (int_width c) -> range_ok (TOption c) (opt_val VlInt o) = true ->
  typed (TOption c) (opt_val VlInt o) = true.
Proof. intros Hc H. apply typed_opt. intros x Hx. apply range_typed; [done|]. by eapply range_opt. Qed.

Lemma policy_args_typed ch mode :
  changes_typed ch -> ranges_ok QueuePolicyUpdate_args (policy_args ch mode) = true ->
  typed_fields QueuePolicyUpdate_args (policy_args ch mode) = true /\
  forall bump, op_typed (OQueuePolicy bump (changes_update ch mode)).
Proof.
  intros (T1 & T2 & T3) H. unfold QueuePolicyUpdate_args, policy_args in *. cbn [ranges_ok] in H.
  rewrite !andb_true_iff in H. destruct H as (R1 & R2 & R3 & _ & R4 & R5 & R6 & _ & R7 & _ & _ & R8 & _).
  split.
  - cbn [typed_fields].
    rewrite !typed_opt_int by (done || by eexists).
    rewrite !(typed_opt (TVec TAddress)) by (intros l Hl; apply typed_addr_list; eauto).
    rewrite (typed_opt (TVec TU64)) by (intros l Hl; destruct (T3 l Hl); by apply typed_int_list).
    rewrite (typed_opt TBool) by done. done.
  - intros bump. cbn. split_and!; intros z Hz;
      match goal with
      | E : ?o = Some z, R : range_ok _ (opt_val VlInt ?o) = true |- _ =>
          apply (range_opt _ _ _ _ R) in E; cbn in E; unfold in_bounds in E;
          unfold is_u64, U64_MAX; lia
      end.
Qed.

(** C22: A policy change the dashboard queues is the change the program reads: the arguments decode
    to the options given, and on any well-formed policy the program accepts the update exactly when
    the checks the guards leave out pass; whatever it rejects is one of the five errors of those. *)
Theorem queued_policy_guarded owner vault ch ixs :
  queuePolicyUpdate owner vault ch = Ok ixs -> changes_typed ch ->
  exists mode ix,
    changes_mode ch = Ok mode /\ ixs = [ix] /\ carries ix QueuePolicyUpdate_ix (policy_args ch mode) /\
    (forall bump, op_typed (OQueuePolicy bump (changes_update ch mode))) /\
    forall policy, policy_ok policy ->
      (queue_checks policy (changes_update ch mode) = Ok tt
         <-> residual_checks policy (changes_update ch mode) = true) /\
      (forall e, queue_checks policy (changes_update ch mode) = Throw e -> e ∈ residual_errors).
Proof.
  unfold queuePolicyUpdate, one_async. intros H HT. apply bind_ok_inv in H as ([] & Hg & H).
  apply bind_ok_inv in H as (mode & Hm & H). apply bind_ok_inv in H as (ix & Hix & H).
  injection H as <-. exists mode, ix.
  destruct (getInstructionAsync _ _ _) as [ix'|] eqn:Hb in Hix; [|discriminate Hix].
  injection Hix as ->. apply built_data in Hb as (accs & d & _ & _ & Hd & Hp & He & Hr).
  destruct (policy_args_typed ch mode HT Hr) as [Ht Hop].
  split_and!; [done..| | |].
  - split; [done|]. exists d. split; [done|]. by apply decoded.
  - exact Hop.
  - intros policy Hpol. exact (queue_checks_guarded policy ch mode Hpol (policy_guards_ok ch Hg) (mode_range ch mode Hm)).
Qed.
End queue.

(** ** [closeVault] *)
Section close.
Context `{env : PdaEnv} `{pdaLaws : !PdaLaws env}.

(** [f] is [lam] after the accounts [S] were emptied into the owner's. *)
Record Swept (lam : Address -> Z) (owner : Address) (S : list Address) (f : Address -> Z) : Prop := {
  sw_gone : forall a, a ∈ S -> f a = 0;
  sw_owner : f owner = lam owner + sum_of lam S;
  sw_rest : forall a, a ∉ S -> a <> owner -> f a = lam a;
}.

Section sweep.
Context (lam : Address -> Z) (own : Address).
Hypothesis lam_nonneg : forall a, 0 <= lam a.

Lemma swept_none : Swept lam own [] lam.
Proof. split; [set_solver| |done]. rewrite sum_of_nil. lia. Qed.

Lemma swept_drain S f pda :
  Swept lam own S f -> own ∉ S -> pda ∉ S -> pda <> own -> lam own + sum_of lam (S ++ [pda]) <= U64_MAX ->
  exists f', drain f own pda = Ok f' /\ Swept lam own (S ++ [pda]) f'.
Proof.
  intros [Hg Ho Hr] HoS HS Hne Hb. rewrite sum_of_app, sum_of_cons, sum_of_nil in Hb.
  unfold drain. rewrite (require_true (_ <=? _)) by (rewrite Ho, (Hr pda) by done; lia).
  eexists. split; [reflexivity|]. split.
  - intros a [Ha| ->%list_elem_of_singleton]%elem_of_app; cbn; case_bool_decide; try done.
    case_bool_decide; [by subst|auto].
  - cbn. rewrite bool_decide_false, bool_decide_true by done.
    rewrite Ho, (Hr pda), sum_of_app, sum_of_cons, sum_of_nil by done. lia.
  - intros a Ha Hao. cbn. rewrite !bool_decide_false; [|done|set_solver]. apply Hr; set_solver.
Qed.

Lemma drain_found_spec f pda infos :
  drain_found f own pda infos
  = if bool_decide (pda ∈ infos) && (f pda >? 0) then drain f own pda else Ok f.
Proof.
  induction infos as [|i infos IH]; cbn; [done|].
  destruct (decide (i = pda)) as [->|Hne].
  - rewrite (bool_decide_true (pda = pda)), (bool_decide_true (pda ∈ pda :: infos)) by set_solver.
    cbn. destruct (f pda >? 0) eqn:E; [done|]. rewrite IH. by rewrite andb_false_r.
  - rewrite (bool_decide_false (i = pda)) by done. cbn [andb]. rewrite IH.
    rewrite (bool_decide_ext (pda ∈ i :: infos) (pda ∈ infos)) by set_solver. done.
Qed.

Lemma drain_each_snoc f pdas p infos :
  drain_each f own (pdas ++ [p]) infos
  = (f' ← drain_each f own pdas infos; drain_found f' own p infos).
Proof.
  revert f. induction pdas as [|q pdas IH]; intros f; cbn [app drain_each].
  - cbn. by destruct (drain_found f own p infos).
  - destruct (drain_found f own q infos); [apply IH|done].
Qed.

Lemma swept_each pdas infos : forall S f,
  Swept lam own S f -> own ∉ S ++ pdas -> NoDup (S ++ pdas) ->
  lam own + sum_of lam (S ++ pdas) <= U64_MAX -> (forall a, a ∈ infos -> 0 < lam a) ->
  exists f', drain_each f own pdas infos = Ok f' /\ Swept lam own (S ++ filter (.∈ infos) pdas) f'.
Proof.
  induction pdas as [|pda pdas IH]; intros S f HS Ho Hnd Hb Hi; cbn [drain_each].
  - exists f. by rewrite filter_nil, app_nil_r.
  - pose proof Hnd as (Hnd1 & Hdis & Hnd2)%NoDup_app. apply NoDup_cons in Hnd2 as [Hp Hnd2].
    assert (HpS : pda ∉ S) by set_solver. assert (Hpo : pda <> own) by set_solver.
    rewrite drain_found_spec, (sw_rest _ _ _ _ HS pda) by done. rewrite filter_cons.
    assert (Hsub : sum_of lam (S ++ pda :: pdas) = sum_of lam (S ++ pdas) + lam pda)
      by (rewrite !sum_of_app, sum_of_cons; lia).
    pose proof (lam_nonneg pda) as Hpn.
    destruct (decide (pda ∈ infos)) as [Hin|Hin].
    + rewrite bool_decide_true by done. destruct (Z.gtb_spec (lam pda) 0); [|specialize (Hi pda Hin); lia].
      cbn [andb]. destruct (swept_drain S f pda) as (f' & -> & Hf'); try done; [set_solver| |].
      { rewrite Hsub, sum_of_app in Hb. rewrite sum_of_app, sum_of_cons, sum_of_nil.
        assert (0 <= sum_of lam pdas) by (apply sum_of_nonneg; auto). lia. }
      cbn [mbind res_bind]. rewrite cons_middle, app_assoc.
      apply IH; [done|by rewrite <- app_assoc|by rewrite <- app_assoc|by rewrite <- app_assoc|done].
    + rewrite bool_decide_false by done. cbn [andb mbind res_bind]. apply IH; try done.
      * set_solver.
      * apply NoDup_app. split_and!; [done|set_solver|done].
      * lia.
Qed.
End sweep.

(** Distinct agents, distinct accounts. *)
Lemma perms_pda_inj vault a b :
  collision_free -> derivePendingAgentPermsPDA vault a = derivePendingAgentPermsPDA vault b -> a = b.
Proof.
  intros Hcf H%Hcf. cbn [concat] in H. rewrite !app_nil_r in H. apply app_inj_1 in H as [_ H]; [|done].
  apply app_inj_1 in H as [_ H]; [|done]. by apply encodeAddress_inj.
Qed.

Lemma pda_length_ne s1 s2 p :
  collision_free -> length (concat s1) <> length (concat s2) ->
  (getProgramDerivedAddress p s1).1 <> (getProgramDerivedAddress p s2).1.
Proof. intros Hcf Hne H%Hcf. by rewrite H in Hne. Qed.

Lemma length_seeds k (l : list Address) :
  length (concat (seedString k :: (encodeAddress <$> l)))
  = (length (seedString k) + 32 * length l)%nat.
Proof.
  cbn [concat]. rewrite length_app. f_equal. induction l as [|a l IH]; [done|].
  rewrite fmap_cons. cbn [concat length]. rewrite length_app, encodeAddress_length, IH. lia.
Qed.

Lemma pda_kind_ne k1 l1 k2 l2 p :
  collision_free ->
  (length (seedString k1) + 32 * length l1 <> length (seedString k2) + 32 * length l2)%nat ->
  (getProgramDerivedAddress p (seedString k1 :: (encodeAddress <$> l1))).1
  <> (getProgramDerivedAddress p (seedString k2 :: (encodeAddress <$> l2))).1.
Proof. intros Hcf Hne. apply pda_length_ne; [done|]. by rewrite !length_seeds. Qed.

Lemma candidates_nodup vault l :
  collision_free -> NoDup (pubkey <$> l) -> NoDup (close_candidates vault l).
Proof.
  intros Hcf Hl.
  assert (H1 : forall a, derivePendingAgentPermsPDA vault a <> (Pda.getPendingPolicyPDA vault SIGIL_PROGRAM_ID).1)
    by (intros a; apply (pda_kind_ne "pending_agent_perms" [vault; a] "pending_policy" [vault]);
        [done|by vm_compute]).
  assert (H2 : forall a, derivePendingAgentPermsPDA vault a
                         <> (Pda.getPendingCloseConstraintsPDA vault SIGIL_PROGRAM_ID).1)
    by (intros a; apply (pda_kind_ne "pending_agent_perms" [vault; a] "pending_close_constraints" [vault]);
        [done|by vm_compute]).
  assert (H3 : (Pda.getPendingPolicyPDA vault SIGIL_PROGRAM_ID).1
               <> (Pda.getPendingCloseConstraintsPDA vault SIGIL_PROGRAM_ID).1)
    by (apply (pda_kind_ne "pending_policy" [vault] "pending_close_constraints" [vault]);
        [done|by vm_compute]).
  unfold close_candidates. apply NoDup_cons. split.
  - rewrite elem_of_app, list_elem_of_fmap, list_elem_of_singleton. intros [(e & H & _)|H]; [|by apply H3].
    by apply (H1 (pubkey e)).
  - apply NoDup_app. split_and!; [| |apply NoDup_singleton].
    + change (NoDup ((derivePendingAgentPermsPDA vault ∘ pubkey) <$> l)). rewrite list_fmap_compose.
      apply NoDup_fmap_2_strong; [|done]. intros a b _ _. by apply perms_pda_inj.
    + intros a (e & -> & _)%list_elem_of_fmap H%list_elem_of_singleton. by apply (H2 (pubkey e)).
Qed.

(** What the handler checks before it looks for pending accounts. *)
Definition closable (v : AgentVault) (policy : PolicyConfig) : Prop :=
  vault_status v <> Closed /\ activeEscrowCount v = 0 /\ activeSessions v = 0 /\ hasConstraints policy = false.

Lemma filter_ext_in {A} (P Q : A -> Prop) `{!forall x, Decision (P x)} `{!forall x, Decision (Q x)}
    (l : list A) :
  (forall x, x ∈ l -> P x <-> Q x) -> filter P l = filter Q l.
Proof.
  induction l as [|x l IH]; intros Hx; [done|]. rewrite !filter_cons, IH by set_solver.
  destruct (decide (P x)) as [HP|HP], (decide (Q x)) as [HQ|HQ]; try done;
    exfalso; specialize (Hx x ltac:(set_solver)); tauto.
Qed.

(** The handler on the accounts of the client, given the order both go through them. *)
Lemma close_vault_swept (seen : Address -> bool) own vault v policy lam :
  let candidates := close_candidates vault (agents v) in
  let found := filter (fun a => seen a = true) candidates in
  let pending := (Pda.getPendingPolicyPDA vault SIGIL_PROGRAM_ID).1 in
  closable v policy -> NoDup candidates -> own ∉ candidates -> (forall a, 0 <= lam a) ->
  lam own + sum_of lam candidates <= U64_MAX -> (forall a, seen a = true -> 0 < lam a) ->
  (hasPendingPolicy policy = true <-> 0 < lam pending) ->
  if hasPendingPolicy policy && negb (seen pending)
  then close_vault own vault v policy found lam = Throw "PendingPolicyExists"
  else exists lam', close_vault own vault v policy found lam = Ok lam' /\ Swept lam own found lam'.
Proof.
  intros candidates found pending (C1 & C2 & C3 & C4) Hnd Hown Hn Hb Hs Hp.
  unfold close_vault. rewrite (require_true (negb (bool_decide (vault_status v = Closed)))) by by rewrite bool_decide_false.
  rewrite C2, C3, C4. cbn [require throw_if negb mbind res_bind Z.eqb].
  set (rest := ((fun a => derivePendingAgentPermsPDA vault (pubkey a)) <$> agents v)
               ++ [(Pda.getPendingCloseConstraintsPDA vault SIGIL_PROGRAM_ID).1]).
  assert (Hc : candidates = pending :: rest) by done. clearbody candidates.
  subst candidates. apply NoDup_cons in Hnd as [Hnp Hnd].
  assert (Hfil : filter (.∈ filter (fun a => seen a = true) rest) rest = filter (fun a => seen a = true) rest)
    by (apply filter_ext_in; intros x Hx; rewrite list_elem_of_filter; tauto).
  assert (Heach : forall S f, Swept lam own S f -> S = [] \/ S = [pending] ->
    exists f', drain_each f own rest (filter (fun a => seen a = true) rest) = Ok f' /\
      Swept lam own (S ++ filter (fun a => seen a = true) rest) f').
  { intros S f HS Hor. rewrite sum_of_cons in Hb. specialize (Hn pending) as Hn'.
    destruct (swept_each lam own Hn rest (filter (fun a => seen a = true) rest) S f)
      as (f' & He & Hf'); [done| | | | |by rewrite Hfil in Hf'; eauto].
    - destruct Hor; subst; set_solver.
    - destruct Hor; subst; [done|]. by apply NoDup_cons.
    - destruct Hor; subst; cbn [app]; rewrite ?sum_of_cons; lia.
    - intros a [Ha _]%list_elem_of_filter. by apply Hs. }
  assert (Htail : forall f infos, (lamports2 ← drain_each f own
      ((fun e => program_pda [seedString "pending_agent_perms"; encodeAddress vault; encodeAddress (pubkey e)])
         <$> agents v) infos;
      drain_found lamports2 own (program_pda [seedString "pending_close_constraints"; encodeAddress vault]) infos)
      = drain_each f own rest infos) by (intros f infos; unfold rest; by rewrite drain_each_snoc).
  unfold found. rewrite filter_cons. rewrite sum_of_cons in Hb.
  assert (Hpo : pending <> own) by set_solver.
  destruct (hasPendingPolicy policy) eqn:Hpp; cbn [andb].
  - assert (Hlp : 0 < lam pending) by by apply Hp.
    destruct (seen pending) eqn:Hseen; cbn [negb].
    + rewrite decide_True by done. rewrite (require_true (_ && _)).
      2:{ rewrite bool_decide_true by done. cbn [andb]. lia. }
      cbn [mbind res_bind].
      destruct (swept_drain lam own Hn [] lam pending) as (f & -> & Hf); try done;
        [by apply swept_none|set_solver|set_solver| |].
      { cbn [app]. rewrite sum_of_cons, sum_of_nil.
        assert (0 <= sum_of lam rest) by (apply sum_of_nonneg; auto). lia. }
      cbn [mbind res_bind drop]. rewrite Htail. apply (Heach [pending]); [exact Hf|by right].
    + rewrite decide_False by done.
      assert (pending ∉ filter (fun a => seen a = true) rest) by (rewrite list_elem_of_filter; tauto).
      lazymatch goal with |- context [match ?l with [] => _ | _ :: _ => _ end] => destruct l as [|x l'] eqn:E end;
        [done|].
      unfold require. rewrite bool_decide_false; [done|]. intros ->. set_solver.
  - rewrite decide_False. 2:{ intros Hse. destruct (Hp) as [_ Hp']. specialize (Hp' (Hs _ Hse)). done. }
    cbn [mbind res_bind drop]. rewrite Htail. apply (Heach []); [by apply swept_none|by left].
Qed.

Context {lib : ClientLib} `{laws : !ClientLaws lib}.

(** C23: Closing a vault never loses money, but it can leave accounts behind. The instruction passes the
    program the pending accounts that the node reported, behind its own six. When the program's other
    checks hold, it empties exactly those into the owner's account and touches no other balance. If
    the pending policy exists and the node did not report it the close is refused; any other pending
    account the node did not report keeps its balance, without an error. *)
Theorem close_vault_sweeps (account : Address -> option bool) own vault v policy lam ixs :
  collision_free ->
  closeVault (Ok v) account own vault = Ok ixs ->
  closable v policy -> NoDup (pubkey <$> agents v) -> own ∉ close_candidates vault (agents v) ->
  (forall a, 0 <= lam a) -> lam own + sum_of lam (close_candidates vault (agents v)) <= U64_MAX ->
  (forall pda, account pda = Some true -> 0 < lam pda) ->
  let pending := (Pda.getPendingPolicyPDA vault SIGIL_PROGRAM_ID).1 in
  (hasPendingPolicy policy = true <-> 0 < lam pending) ->
  let reported := close_remaining account vault (agents v) in
  (exists ix metas, ixs = [ix] /\ length metas = 6%nat /\
     ins_accounts ix = Some (metas ++ ((fun a => mkMeta a WRITABLE None) <$> reported))) /\
  if hasPendingPolicy policy && negb (existence account pending)
  then close_vault own vault v policy reported lam = Throw "PendingPolicyExists"
  else exists lam', close_vault own vault v policy reported lam = Ok lam' /\
         lam' own = lam own + sum_of lam reported /\
         (forall a, a ∈ reported -> lam' a = 0) /\
         (forall a, a ∉ reported -> a <> own -> lam' a = lam a).
Proof.
  intros Hcf Hb Hc Hnd Hown Hn Hsum Hacc pending Hp reported. split.
  - unfold closeVault in Hb. cbn [mbind res_bind] in Hb. apply bind_ok_inv in Hb as (ix & Hix & Hb).
    injection Hb as <-. destruct (getInstructionAsync _ _ _) as [ix'|] eqn:Hg in Hix; [|discriminate Hix].
    injection Hix as ->. apply built_data in Hg as (accs & d & _ & Ha & Hd & _).
    eexists _, (account_meta accs <$> ix_accounts CloseVault_ix). split; [reflexivity|]. split; [done|].
    rewrite length_fmap. destruct (Nat.ltb 0 _) eqn:E; cbn [ins_accounts].
    + by rewrite Ha.
    + apply Nat.ltb_ge in E. rewrite Ha. fold reported in E. by destruct reported; [rewrite app_nil_r|cbn in E; lia].
  - assert (Hs : forall a, existence account a = true -> 0 < lam a).
    { intros a Ha. apply Hacc. unfold existence in Ha. by destruct (account a) as [[]|]. }
    pose proof (close_vault_swept (existence account) own vault v policy lam Hc
      (candidates_nodup vault (agents v) Hcf Hnd) Hown Hn Hsum Hs Hp) as H.
    cbv zeta in H. fold pending in H. destruct (_ && _); [exact H|].
    destruct H as (lam' & H & [H1 H2 H3]). eauto.
Qed.
End close.

(** ** A concrete vault *)
Fixpoint bits (p : positive) : string :=
  match p with xH => "1" | xO p => "0" +:+ (bits p) | xI p => "1" +:+ (bits p) end.

Lemma bits_inj p q : bits p = bits q -> p = q.
Proof.
  revert q. induction p as [p IH|p IH|]; intros [q|q|] H; cbn in H; try discriminate H; try done;
    injection H as H; try (f_equal; by apply IH); exfalso; by destruct q || destruct p.
Qed.

Definition close_demo_env : PdaEnv := {|
  encodeAddress a := Z.pos (encode a) :: replicate 31 0;
  getProgramDerivedAddress p s := ("p" +:+ (bits (encode (concat s))), 255) |}.

Lemma close_demo_laws : PdaLaws close_demo_env.
Proof. split; [done|]. intros a b [= H]. by apply (inj encode) in H. Qed.

Lemma close_demo_collision_free : @collision_free close_demo_env.
Proof. intros p s1 s2 H. injection H as H. apply bits_inj in H. by apply (inj encode) in H. Qed.

Definition close_demo_decode (bs : bytes) : option Address :=
  match bs with Z.pos n :: _ => decode n | _ => None end.

Definition close_demo_lib : ClientLib := borsh_lib (env := close_demo_env) close_demo_decode.
Lemma close_demo_lib_laws : ClientLaws (H := close_demo_env) close_demo_lib.
Proof.
  refine (borsh_lib_laws (laws := close_demo_laws) close_demo_decode _). intros a. apply decode_encode.
Qed.

Definition close_demo_vault : AgentVault :=
  {| owner := "owner"; vaultId := 0; agents := [mkAgent "a" 2 0 false; mkAgent "b" 2 0 false];
     feeDestination := "fees"; vault_status := Frozen; av_bump := 255; createdAt := 0;
     totalTransactions := 0; totalVolume := 0; activeEscrowCount := 0; totalFeesCollected := 0;
     totalDepositedUsd := 0; totalWithdrawnUsd := 0; totalFailedTransactions := 0; activeSessions := 0 |}.

Definition close_demo_policy : PolicyConfig :=
  with_pending (mkPolicy 1000 500 0 [] 0 100 1800 false false [] 0 "vault" [] false 0 254 0 0) true 0.

Definition pending_of (vault : Address) : Address :=
  (Pda.getPendingPolicyPDA (env := close_demo_env) vault SIGIL_PROGRAM_ID).1.
Definition perms_of_agent (a : Address) : Address :=
  derivePendingAgentPermsPDA (env := close_demo_env) "vault" a.

(** The pending policy and both agents' pending permissions exist; the node answers for [b] only
    by failing. *)
Definition close_demo_lam (a : Address) : Z :=
  if bool_decide (a ∈ [pending_of "vault"; perms_of_agent "a"; perms_of_agent "b"]) then 100
  else if bool_decide (a = "owner") then 5 else 0.

Definition close_demo_account (a : Address) : option bool :=
  if bool_decide (a = perms_of_agent "b") then None else Some (close_demo_lam a >? 0).

Definition close_demo_ixs :=
  @closeVault close_demo_env close_demo_lib (Ok close_demo_vault) close_demo_account "owner" "vault".

(** The close succeeds, 205 lamports reach the owner, and 100 stay behind with [b]'s account. *)
Lemma close_vault_sweeps_witness :
  exists lam', close_vault (env := close_demo_env) "owner" "vault" close_demo_vault close_demo_policy
      (close_remaining (env := close_demo_env) close_demo_account "vault" (agents close_demo_vault))
      close_demo_lam = Ok lam' /\
    lam' "owner" = 205 /\ lam' (perms_of_agent "b") = 100.
Proof.
  destruct close_demo_ixs as [ixs|e] eqn:E; [|vm_compute in E; discriminate E].
  destruct (@close_vault_sweeps close_demo_env close_demo_laws close_demo_lib close_demo_lib_laws
    close_demo_account "owner" "vault" close_demo_vault close_demo_policy close_demo_lam ixs)
    as [_ (lam' & H & Ho & _ & Hrest)].
  - exact close_demo_collision_free.
  - exact E.
  - split_and!; [discriminate|reflexivity..].
  - vm_compute. repeat constructor; set_solver.
  - apply (bool_decide_unpack _). vm_compute. exact I.
  - intros a. unfold close_demo_lam. repeat case_bool_decide; lia.
  - vm_compute. discriminate.
  - intros a. unfold close_demo_account. case_bool_decide; [discriminate|]. intros [= Ha]. lia.
  - split; intros _; vm_compute; reflexivity.
  - exists lam'. split; [exact H|]. split.
    + rewrite Ho. vm_compute. reflexivity.
    + rewrite Hrest; [vm_compute; reflexivity| |vm_compute; discriminate].
      apply (bool_decide_unpack _). vm_compute. exact I.
Defined.

(** Moving to blocklist mode and back is accepted or not by the caps of the policy. *)
Definition queue_demo_changes : PolicyChanges :=
  mkChanges 2 (Some 2000) None None (Some "blacklist") None None None None None None (Some 3600) None.

Definition queue_demo_policy (caps : bool) : PolicyConfig :=
  mkPolicy 1000 500 1 ["jup"] 0 100 1800 false caps (if caps then [7] else []) 0 "vault" [] false 0 254 0 0.

Lemma queue_demo_policy_ok caps : policy_ok (queue_demo_policy caps).
Proof. split; destruct caps; unfold U64_MAX; cbn; intros; try lia; try done; by left. Qed.

Lemma queued_policy_guarded_witness :
  queue_checks (queue_demo_policy false) (changes_update queue_demo_changes (Some 2)) = Ok tt /\
  queue_checks (queue_demo_policy true) (changes_update queue_demo_changes (Some 2))
    = Throw "ProtocolCapsMismatch" /\
  "ProtocolCapsMismatch" ∈ residual_errors.
Proof.
  destruct (@queuePolicyUpdate close_demo_env close_demo_lib "owner" "vault" queue_demo_changes)
    as [ixs|e] eqn:E; [|vm_compute in E; discriminate E].
  destruct (@queued_policy_guarded close_demo_env close_demo_lib close_demo_lib_laws "owner" "vault"
    queue_demo_changes ixs E) as (mode & ix & Hm & _ & _ & _ & Hq).
  - split_and!; discriminate.
  - vm_compute in Hm. injection Hm as <-. split; [|split].
    + apply (Hq _ (queue_demo_policy_ok false)). vm_compute. reflexivity.
    + vm_compute. reflexivity.
    + apply (Hq _ (queue_demo_policy_ok true)). vm_compute. reflexivity.
Defined.
