(* ===== verification/VaultAnalytics.v ===== *)
(** * Vault and portfolio reports ([vault-analytics.ts], [balance-tracker.ts],
    [protocol-analytics.ts], [portfolio-analytics.ts])

    The health card, the summary of a vault, the store of balance snapshots, and what is
    aggregated over an owner's vaults. Labels are left out. [Number] of seconds, days and
    counts below [2^53] is the integer itself. *)

From Stdlib Require Import QArith.
From S2P Require Import Prelude Types Accounts Bytes StateResolver Inspector Numbers JsText Tokens Analytics.
Local Open Scope string_scope.
Local Open Scope Z_scope.
Local Open Scope list_scope.

(** ** Maps with numeric keys *)
Section zmap.
Context {V : Type}.

Fixpoint zm_get (k : Z) (m : list (Z * V)) : option V :=
  match m with
  | [] => None
  | (k', v) :: m' => if k =? k' then Some v else zm_get k m'
  end.

Fixpoint zm_set (k : Z) (v : V) (m : list (Z * V)) : list (Z * V) :=
  match m with
  | [] => [(k, v)]
  | (k', v') :: m' => if k =? k' then (k', v) :: m' else (k', v') :: zm_set k v m'
  end.

Definition zm_delete (k : Z) (m : list (Z * V)) : list (Z * V) := filter (fun e => e.1 <> k) m.
End zmap.

(** ** Vault health *)
Record VaultHealth := mkHealth {
  vh_status : VaultStatus;
  vh_isHealthy : bool;
  vh_agentCount : Z;
  vh_pausedAgentCount : Z;
  vh_activeEscrowCount : Z;
  vh_capUtilization : ratio;
  vh_capRemaining : Z;
  vh_capResetsIn : Z;
  vh_timeToCapAtCurrentRate : option ratio;
  vh_hasConstraints : bool;
  vh_hasTimelock : bool;
  vh_timelockDuration : Z;
  vh_hasPendingPolicyChange : bool;
  vh_lastActivityTimestamp : Z;
  vh_securityChecks : list SecurityCheck;
}.

(** The body of the loop over the buckets. *)
Definition oldest_step (currentEpoch : Z) (oldestEpoch : Z) (bucket : EpochBucket) : Z :=
  if (usdAmount bucket >? 0) && (epochId bucket >? 0) then
    if (epochId bucket >=? currentEpoch - NUM_EPOCHS) && (epochId bucket <? oldestEpoch)
    then epochId bucket else oldestEpoch
  else oldestEpoch.

Definition cap_resets_in (tracker : option SpendTracker) (nowUnix : Z) : Z :=
  match tracker with
  | Some t =>
      let currentEpoch := Z.quot nowUnix EPOCH_DURATION in
      let oldestEpoch := fold_left (oldest_step currentEpoch) (buckets t) currentEpoch in
      Z.max 0 ((oldestEpoch + NUM_EPOCHS) * EPOCH_DURATION - nowUnix)
  | None => 0
  end.

Section health.
Context {C : Type}.
Implicit Types (state : ResolvedVaultState C).

Definition health_checks state : list SecurityCheck :=
  let entries := agents (rs_vault state) in
  let policy := rs_policy state in
  [ mkCheck "no-full-perms" (negb (existsb (fun a => agent_capability a =? FULL_CAPABILITY) entries)) critical;
    mkCheck "cap-configured" (dailySpendingCapUsd policy >? 0) critical;
    mkCheck "agent-limits" (forallb (fun a => spendingLimitUsd a >? 0) entries) warning;
    mkCheck "protocol-allowlist" (protocolMode policy =? PROTOCOL_MODE_ALLOWLIST) warning;
    mkCheck "timelock-enabled" (timelockDuration policy >? 0) warning;
    mkCheck "slippage-reasonable" (maxSlippageBps policy <? 1000) warning;
    mkCheck "constraints-configured" (if rs_constraints state then true else false) info ].

Definition getVaultHealth state (nowUnix : Z) : VaultHealth :=
  let vault := rs_vault state in
  let policy := rs_policy state in
  let g := globalBudget state in
  let agentCount := Z.of_nat (length (agents vault)) in
  let pausedAgentCount := Z.of_nat (length (filter (fun a => agent_paused a = true) (agents vault))) in
  let capUtilization := computeUtilizationPercent (spent24h g) (cap g) in
  let securityChecks := health_checks state in
  let criticalFailures :=
    filter (fun c => sc_severity c = critical /\ sc_passed c = false) securityChecks in
  mkHealth (vault_status vault)
    (bool_decide (vault_status vault = Active) && (agentCount >? 0) && (pausedAgentCount <? agentCount)
     && (num capUtilization <? 95 * den capUtilization) && bool_decide (criticalFailures = []))
    agentCount pausedAgentCount (activeEscrowCount vault) capUtilization (remaining g)
    (cap_resets_in (rs_tracker state) nowUnix)
    (timeToCapSeconds (getSpendingVelocity (rs_tracker state) nowUnix g))
    (if rs_constraints state then true else false)
    (timelockDuration policy >? 0) (timelockDuration policy) false
    (match rs_tracker state with
     | Some t => if lastWriteEpoch t >? 0 then lastWriteEpoch t * EPOCH_DURATION else 0
     | None => 0
     end)
    securityChecks.
End health.

(** ** Token balances *)
Record TokenBalance := mkTokenBalance {
  tb_mint : Address;
  tb_balance : Z;
  tb_symbol : string;
  tb_decimals : Z;
}.

(** [data.parsed.info] of one token account; [None] when a level is missing. *)
Record ParsedTokenInfo := mkTokenInfo { pi_mint : Address; pi_amount : string; pi_decimals : Z }.

Definition syntax_error : SigilError := sdk_error "SyntaxError" [].

Fixpoint token_balances (network : Network) (items : list (option ParsedTokenInfo))
    : res SigilError (list TokenBalance) :=
  match items with
  | [] => Ok []
  | None :: items' => token_balances network items'
  | Some inf :: items' =>
      match js_BigInt (pi_amount inf) with
      | None => Throw syntax_error
      | Some amount =>
          if amount =? 0 then token_balances network items'
          else
            let resolved := resolveToken (pi_mint inf) network in
            rest ← token_balances network items';
            Ok (mkTokenBalance (pi_mint inf) amount
                  (match resolved with
                   | Some r => rt_symbol r
                   | None => String.substring 0 4 (pi_mint inf) +:+ "..."
                   end)
                  (match resolved with Some r => rt_decimals r | None => pi_decimals inf end) :: rest)
      end
  end.

Definition getVaultTokenBalances (response : res SigilError (list (option ParsedTokenInfo)))
    (network : Network) : res SigilError (list TokenBalance) :=
  items ← response; token_balances network items.

(** ** The summary of a vault *)
Record VaultStats := mkStats {
  st_totalTransactions : Z;
  st_totalVolume : Z;
  st_totalFeesCollected : Z;
  st_totalDeposited : Z;
  st_totalWithdrawn : Z;
  st_createdAt : Z;
  st_ageInDays : Z;
  st_avgDailyVolume : Z;
  st_avgTransactionSize : Z;
  st_feeRate : Z;
}.

Definition vault_stats (v : AgentVault) (nowUnix : Z) : VaultStats :=
  let ageInDays := Z.max 1 ((nowUnix - createdAt v) / 86400) in
  mkStats (totalTransactions v) (totalVolume v) (totalFeesCollected v) (totalDepositedUsd v)
    (totalWithdrawnUsd v) (createdAt v) ageInDays (Z.quot (totalVolume v) ageInDays)
    (if totalTransactions v >? 0 then Z.quot (totalVolume v) (totalTransactions v) else 0)
    (if totalVolume v >? 0 then Z.quot (totalFeesCollected v * 10000) (totalVolume v) else 0).

Record VaultSummary (C : Type) := mkSummary {
  su_address : Address;
  su_owner : Address;
  su_vaultId : Z;
  su_health : VaultHealth;
  su_pnl : VaultPnL;
  su_tokenBalances : list TokenBalance;
  su_totalValueUsd : Z;
  su_state : ResolvedVaultState C;
  su_stats : VaultStats;
}.
Arguments mkSummary {C}. Arguments su_address {C}. Arguments su_owner {C}. Arguments su_vaultId {C}.
Arguments su_health {C}. Arguments su_pnl {C}. Arguments su_tokenBalances {C}.
Arguments su_totalValueUsd {C}. Arguments su_state {C}. Arguments su_stats {C}.

Definition with_pending_change (h : VaultHealth) (b : bool) : VaultHealth :=
  mkHealth (vh_status h) (vh_isHealthy h) (vh_agentCount h) (vh_pausedAgentCount h)
    (vh_activeEscrowCount h) (vh_capUtilization h) (vh_capRemaining h) (vh_capResetsIn h)
    (vh_timeToCapAtCurrentRate h) (vh_hasConstraints h) (vh_hasTimelock h) (vh_timelockDuration h)
    b (vh_lastActivityTimestamp h) (vh_securityChecks h).

Definition getVaultPnL {C} (state : res SigilError (ResolvedVaultState C)) : res SigilError VaultPnL :=
  state ← state; Ok (getVaultPnLFromState state).

(** The four reads run in parallel; [state] and [pnlState] are two reads of the same accounts.
    [not_found]: [isAccountNotFoundError]. Of several failures one is reported; here the first. *)
Definition getVaultSummary {C} (vault : Address) (state pnlState : res SigilError (ResolvedVaultState C))
    (tokenBalances : res SigilError (list TokenBalance))
    (pendingPolicy : res SigilError (option PendingPolicyUpdate)) (not_found : SigilError -> bool)
    : res SigilError (VaultSummary C) :=
  state ← state;
  pnl ← getVaultPnL pnlState;
  tokenBalances ← tokenBalances;
  pendingPolicy ←
    (match pendingPolicy with
     | Ok p => Ok p
     | Throw e => if not_found e then Ok None else Throw e
     end);
  let nowUnix := resolvedAtTimestamp state in
  let health := with_pending_change (getVaultHealth state nowUnix) (bool_decide (is_Some pendingPolicy)) in
  let v := rs_vault state in
  Ok (mkSummary vault (owner v) (vaultId v) health pnl tokenBalances
        (bal_usdc (stablecoinBalances state) + bal_usdt (stablecoinBalances state)) state
        (vault_stats v nowUnix)).

(** ** Balance snapshots

    The store's [Map] and its list of timestamps, as the class keeps them. *)
Record BalanceSnapshot := mkSnapshot { bs_timestamp : Z; bs_balances : list TokenBalance }.

Record BalanceSnapshotStore := mkStore {
  sn_baseline : option BalanceSnapshot;
  sn_maxEntries : Z;
  sn_snapshots : list (Z * list TokenBalance);
  sn_orderedTimestamps : list Z;
}.

Definition new_store (maxEntries : Z) : BalanceSnapshotStore := mkStore None maxEntries [] [].

(** The eviction loop: it shifts the oldest timestamp until the list fits. *)
Fixpoint evict (maxEntries : Z) (snapshots : list (Z * list TokenBalance)) (ordered : list Z)
    : list (Z * list TokenBalance) * list Z :=
  match ordered with
  | oldest :: rest =>
      if Z.of_nat (length ordered) >? maxEntries then evict maxEntries (zm_delete oldest snapshots) rest
      else (snapshots, ordered)
  | [] => (snapshots, ordered)
  end.

Definition snapshot (s : BalanceSnapshotStore) (timestamp : Z) (balances : list TokenBalance)
    : BalanceSnapshotStore :=
  let baseline := match sn_baseline s with
                  | Some b => Some b
                  | None => Some (mkSnapshot timestamp balances)
                  end in
  let snapshots := zm_set timestamp balances (sn_snapshots s) in
  match zm_get timestamp (sn_snapshots s) with
  | Some _ => mkStore baseline (sn_maxEntries s) snapshots (sn_orderedTimestamps s)
  | None =>
      let '(snapshots, ordered) := evict (sn_maxEntries s) snapshots (sn_orderedTimestamps s ++ [timestamp]) in
      mkStore baseline (sn_maxEntries s) snapshots ordered
  end.

Definition getBaseline (s : BalanceSnapshotStore) : option BalanceSnapshot := sn_baseline s.

(** [this.snapshots.get(ts)!]: the balances of a timestamp without an entry are [undefined]. *)
Definition snapshot_at (s : BalanceSnapshotStore) (ts : Z) : Z * option (list TokenBalance) :=
  (ts, zm_get ts (sn_snapshots s)).
Definition getFirst (s : BalanceSnapshotStore) : option (Z * option (list TokenBalance)) :=
  snapshot_at s <$> head (sn_orderedTimestamps s).
Definition getLatest (s : BalanceSnapshotStore) : option (Z * option (list TokenBalance)) :=
  snapshot_at s <$> last (sn_orderedTimestamps s).

Definition store_size (s : BalanceSnapshotStore) : Z := Z.of_nat (length (sn_orderedTimestamps s)).
Definition store_clear (s : BalanceSnapshotStore) : BalanceSnapshotStore := mkStore None (sn_maxEntries s) [] [].

(** The object [toJSON] hands to [JSON.stringify], and [JSON.parse] hands to [fromJSON]; an
    amount is a string, or of another type ([None]). *)
Record TokenJson := mkTokenJson {
  tj_mint : Address; tj_balance : option string; tj_symbol : string; tj_decimals : Z }.
Record SnapshotJson := mkSnapJson { sj_timestamp : option string; sj_balances : option (list TokenJson) }.
Record StoreJson := mkStoreJson {
  stj_baseline : option (option string * list TokenJson);
  stj_snapshots : option (list SnapshotJson);
  stj_maxEntries : option Z;        (* [None]: not an integer *)
}.

Definition token_json (b : TokenBalance) : TokenJson :=
  mkTokenJson (tb_mint b) (Some (pretty (tb_balance b))) (tb_symbol b) (tb_decimals b).

Definition store_toJSON (s : BalanceSnapshotStore) : StoreJson :=
  mkStoreJson ((fun b => (Some (pretty (bs_timestamp b)), token_json <$> bs_balances b)) <$> sn_baseline s)
    (Some ((fun e => mkSnapJson (Some (pretty e.1)) (Some (token_json <$> e.2))) <$> sn_snapshots s))
    (Some (sn_maxEntries s)).

(** [safeBigInt]: what is not a number's text is [0n], with a warning. [BigInt] of a value of
    another type is not modelled beyond that. *)
Definition json_bigint (val : option string) : Z := default 0 (s ← val; js_BigInt s).

Definition token_of_json (b : TokenJson) : TokenBalance :=
  mkTokenBalance (tj_mint b) (json_bigint (tj_balance b)) (tj_symbol b) (tj_decimals b).

Definition load_snapshot (s : BalanceSnapshotStore) (snap : SnapshotJson) : BalanceSnapshotStore :=
  let ts := json_bigint (sj_timestamp snap) in
  let bals := token_of_json <$> default [] (sj_balances snap) in
  mkStore (sn_baseline s) (sn_maxEntries s) (zm_set ts bals (sn_snapshots s))
    (sn_orderedTimestamps s ++ [ts]).

Definition store_fromJSON (data : StoreJson) : BalanceSnapshotStore :=
  let store := new_store (default 144 (stj_maxEntries data)) in
  let store := mkStore ((fun b => mkSnapshot (json_bigint b.1) (token_of_json <$> b.2)) <$> stj_baseline data)
                 (sn_maxEntries store) (sn_snapshots store) (sn_orderedTimestamps store) in
  fold_left load_snapshot (default [] (stj_snapshots data)) store.

Record BalancePnL := mkBalancePnL {
  bp_startBalance : Z;
  bp_currentBalance : Z;
  bp_delta : Z;
  bp_percentChange : ratio;
}.

Definition sumStablecoins (network : Network) (balances : list TokenBalance) : Z :=
  fold_left (fun sum b => if isStablecoinMint (tb_mint b) network then sum + tb_balance b else sum) balances 0.

(** [None]: the [TypeError] of iterating over [undefined]. *)
Definition getBalancePnL (store : BalanceSnapshotStore) (network : Network) : option BalancePnL :=
  let nothing := mkBalancePnL 0 0 0 (ratio_of_Z 0) in
  match getBaseline store, getLatest store with
  | Some baseline, Some (ts, latest) =>
      if bs_timestamp baseline =? ts then Some nothing
      else
        latest ← latest;
        let startBalance := sumStablecoins network (bs_balances baseline) in
        let currentBalance := sumStablecoins network latest in
        let delta := currentBalance - startBalance in
        Some (mkBalancePnL startBalance currentBalance delta (computePnlPercent delta startBalance))
  | _, _ => Some nothing
  end.

(** ** Protocols ([protocol-analytics.ts]) *)
Record ProtocolBreakdownItem := mkBreakdownItem {
  bi_protocol : Address;
  bi_protocolName : string;
  bi_spent24h : Z;
  bi_cap : option Z;
  bi_utilization : ratio;
  bi_percentOfTotalSpend : ratio;
}.

Record PlatformProtocolUsage := mkUsage {
  pu_protocol : Address;
  pu_protocolName : string;
  pu_vaultCount : Z;
  pu_totalSpend24h : Z;
}.

Section portfolio.
Context {C : Type} `{env : !ResolverEnv C}.
Implicit Types (state : ResolvedVaultState C).

Definition getProtocolBreakdown state : list ProtocolBreakdownItem :=
  (fun pb =>
     let b := pb_budget pb in
     mkBreakdownItem (pb_protocol pb) (resolveProtocolName (pb_protocol pb)) (spent24h b)
       (if cap b >? 0 then Some (cap b) else None) (computeUtilizationPercent (spent24h b) (cap b))
       (computeUtilizationPercent (spent24h b) (spent24h (globalBudget state))))
  <$> protocolBudgets state.

(** [Promise.allSettled], then the fulfilled values. *)
Definition fulfilled {A} (results : list (res SigilError A)) : list A :=
  omap (fun r => match r with Ok x => Some x | Throw _ => None end) results.

Definition usage_step (protocolMap : jsmap (Z * Z)) (pb : ProtocolBudget) : jsmap (Z * Z) :=
  let existing := default (0, 0) (jm_get (pb_protocol pb) protocolMap) in
  jm_set (pb_protocol pb) (existing.1 + 1, existing.2 + spent24h (pb_budget pb)) protocolMap.

Definition getProtocolUsageAcrossVaults {E} (discovered : res E (list VaultLocator))
    (resolve : Address -> res SigilError (ResolvedVaultState C)) : res E (list PlatformProtocolUsage) :=
  discovered ← discovered;
  let states := fulfilled ((fun v => resolve (vaultAddress v)) <$> discovered) in
  let protocolMap := fold_left (fun m state => fold_left usage_step (protocolBudgets state) m) states [] in
  Ok (sort_by (fun u => - pu_totalSpend24h u)
        ((fun e => mkUsage e.1 (resolveProtocolName e.1) e.2.1 e.2.2) <$> protocolMap)).

(** ** The portfolio ([portfolio-analytics.ts]) *)
Record PortfolioTotals := mkTotals {
  pt_vaultCount : Z;
  pt_activeVaultCount : Z;
  pt_totalValueUsd : Z;
  pt_totalAgents : Z;
  pt_totalSpend24h : Z;
  pt_totalVolume : Z;
  pt_totalFeesCollected : Z;
  pt_totalPnl : Z;
  pt_totalDeposited : Z;
  pt_totalWithdrawn : Z;
  pt_overallPnlPercent : ratio;
}.

Record Portfolio := mkPortfolio {
  po_vaults : list (VaultSummary C);
  po_totals : PortfolioTotals;
  po_topVaultByValue : option Address;
  po_topVaultBySpending : option Address;
}.

Definition no_totals : PortfolioTotals := mkTotals 0 0 0 0 0 0 0 0 0 0 (ratio_of_Z 0).

Definition add_totals (t : PortfolioTotals) (v : VaultSummary C) : PortfolioTotals :=
  mkTotals (pt_vaultCount t)
    (pt_activeVaultCount t + (if bool_decide (vh_status (su_health v) = Active) then 1 else 0))
    (pt_totalValueUsd t + su_totalValueUsd v) (pt_totalAgents t + vh_agentCount (su_health v))
    (pt_totalSpend24h t + spent24h (globalBudget (su_state v)))
    (pt_totalVolume t + st_totalVolume (su_stats v))
    (pt_totalFeesCollected t + st_totalFeesCollected (su_stats v))
    (pt_totalPnl t + pnl_pnl (su_pnl v)) (pt_totalDeposited t + pnl_totalDeposited (su_pnl v))
    (pt_totalWithdrawn t + pnl_totalWithdrawn (su_pnl v)) (pt_overallPnlPercent t).

Definition aggregatePortfolio (vaults : list (VaultSummary C)) : Portfolio :=
  if bool_decide (vaults = []) then mkPortfolio [] no_totals None None
  else
    let t := fold_left add_totals vaults no_totals in
    mkPortfolio vaults
      (mkTotals (Z.of_nat (length vaults)) (pt_activeVaultCount t) (pt_totalValueUsd t) (pt_totalAgents t)
         (pt_totalSpend24h t) (pt_totalVolume t) (pt_totalFeesCollected t) (pt_totalPnl t)
         (pt_totalDeposited t) (pt_totalWithdrawn t)
         (computeUtilizationPercent (pt_totalPnl t) (pt_totalDeposited t - pt_totalWithdrawn t)))
      (top_of su_address su_totalValueUsd vaults)
      (top_of su_address (fun v => spent24h (globalBudget (su_state v))) vaults).

Record CrossVaultAgentRanking := mkCrossRanking {
  cr_agent : Address;
  cr_vault : Address;
  cr_vaultId : Z;
  cr_spend24h : Z;
  cr_lifetimeSpend : Z;
  cr_capUtilization : ratio;
  cr_paused : bool;
  cr_rank : Z;
}.

Definition agent_row (vaultAddress : Address) (vaultId : Z) state (ab : string * EffectiveBudget)
    : option CrossVaultAgentRanking :=
  let '(agentAddr, budget) := ab in
  agentEntry ← find_by (fun a => bool_decide (pubkey a = agentAddr)) (agents (rs_vault state));
  Some (mkCrossRanking agentAddr vaultAddress vaultId (spent24h budget)
          (match findAgentOverlaySlot (rs_overlay state) agentAddr with
           | Some s => lifetimeSpend s | None => 0 end)
          (computeUtilizationPercent (spent24h budget) (cap budget)) (agent_paused agentEntry) 0).

Definition with_cross_rank (i : nat) (r : CrossVaultAgentRanking) : CrossVaultAgentRanking :=
  mkCrossRanking (cr_agent r) (cr_vault r) (cr_vaultId r) (cr_spend24h r) (cr_lifetimeSpend r)
    (cr_capUtilization r) (cr_paused r) (Z.of_nat i + 1).

Definition rank_agents (rows : list CrossVaultAgentRanking) : list CrossVaultAgentRanking :=
  imap with_cross_rank (sort_by (fun r => - cr_spend24h r) rows).

Definition getAgentLeaderboardAcrossVaults (vaultStates : list (Address * ResolvedVaultState C))
    : list CrossVaultAgentRanking :=
  rank_agents (flat_map (fun vs => omap (agent_row vs.1 (vaultId (rs_vault vs.2)) vs.2) (allAgentBudgets vs.2))
                 vaultStates).

Definition getCrossVaultAgentRanking (overview : Portfolio) : list CrossVaultAgentRanking :=
  rank_agents (flat_map (fun v => omap (agent_row (su_address v) (su_vaultId v) (su_state v))
                                    (allAgentBudgets (su_state v))) (po_vaults overview)).

(** ** The time series *)
Record SeriesPoint := mkPoint {
  pn_timestamp : Z;
  pn_totalUsd : Z;
  pn_vaultBreakdown : jsmap Z;
}.

Record PortfolioTimeSeries := mkSeries {
  ts_spendingByEpoch : list SeriesPoint;
  ts_totalSpend24h : Z;
  ts_totalCap24h : Z;
  ts_utilization : ratio;
}.

Definition epoch_step (vault : Address) (epochMap : list (Z * (Z * jsmap Z))) (epoch : SpendingEpoch)
    : list (Z * (Z * jsmap Z)) :=
  let '(totalUsd, breakdown) := default (0, []) (zm_get (se_timestamp epoch) epochMap) in
  zm_set (se_timestamp epoch)
    (totalUsd + se_usdAmount epoch,
     jm_set vault (default 0 (jm_get vault breakdown) + se_usdAmount epoch) breakdown) epochMap.

Definition getPortfolioTimeSeries (formatUsd : Z -> string)
    (vaultStates : list (Address * ResolvedVaultState C)) (nowUnix : Z) : PortfolioTimeSeries :=
  let epochMap :=
    fold_left (fun m vs => fold_left (epoch_step vs.1) (getSpendingHistory formatUsd (rs_tracker vs.2) nowUnix) m)
      vaultStates [] in
  let totalSpend24h := sum_of (fun vs => spent24h (globalBudget vs.2)) vaultStates in
  let totalCap24h := sum_of (fun vs => cap (globalBudget vs.2)) vaultStates in
  mkSeries (sort_by pn_timestamp ((fun e => mkPoint e.1 e.2.1 e.2.2) <$> epochMap))
    totalSpend24h totalCap24h (computeUtilizationPercent totalSpend24h totalCap24h).
End portfolio.

(** ** [getPortfolioOverview]: vaults that cannot be read are left out *)
Definition getPortfolioOverview `{env : !ResolverEnv InstructionConstraints} {E}
    (discovered : res E (list VaultLocator))
    (summary : Address -> res SigilError (VaultSummary InstructionConstraints))
    : res E (Portfolio * list Alert) :=
  discovered ← discovered;
  let vaults := fulfilled ((fun v => summary (vaultAddress v)) <$> discovered) in
  let portfolio := aggregatePortfolio vaults in
  Ok (portfolio, flat_map (fun v => evaluateAlertConditions (su_state v) (su_address v)) (po_vaults portfolio)).
