(* ===== verification/VaultAnalyticsSpec.v ===== *)
(** * What the vault and portfolio reports promise *)

From Stdlib Require Import QArith.
From S2P Require Import Prelude Types Accounts Bytes OnChain Pdas Inspector StateResolver Numbers JsText Composer ChainAuth SealSpec Tokens Analytics VaultAnalytics.
Local Open Scope string_scope.
Local Open Scope Z_scope.
Local Open Scope list_scope.

(** ** Maps with numeric keys *)
Section zmap_lemmas.
Context {V : Type}.
Implicit Types (m : list (Z * V)) (k : Z) (v : V).

Lemma zm_get_none k m : zm_get k m = None <-> k ∉ m.*1.
Proof.
  induction m as [|[k' v] m IH]; cbn; [split; [intros _; apply not_elem_of_nil|done]|].
  rewrite not_elem_of_cons. destruct (Z.eqb_spec k k'); [|rewrite IH]; naive_solver.
Qed.

Lemma zm_get_some k m v : zm_get k m = Some v -> (k, v) ∈ m.
Proof.
  induction m as [|[k' v'] m IH]; cbn; [done|].
  destruct (Z.eqb_spec k k') as [->|]; [intros [= ->]; by left|right; auto].
Qed.

Lemma zm_keys_set k v m : (zm_set k v m).*1 = if decide (k ∈ m.*1) then m.*1 else m.*1 ++ [k].
Proof.
  induction m as [|[k' v'] m IH]; [done|]. cbn [zm_set]. destruct (Z.eqb_spec k k') as [->|Hne].
  - rewrite decide_True by (cbn; left). done.
  - csimpl. rewrite IH. do 2 case_decide; try done; exfalso; set_solver.
Qed.

Lemma zm_set_fresh k v m : k ∉ m.*1 -> zm_set k v m = m ++ [(k, v)].
Proof.
  induction m as [|[k' v'] m IH]; [done|]. cbn. rewrite not_elem_of_cons. intros [Hne H].
  destruct (Z.eqb_spec k k'); [done|]. by rewrite IH.
Qed.

Lemma zm_delete_fresh k m : k ∉ m.*1 -> zm_delete k m = m.
Proof.
  unfold zm_delete. induction m as [|[k' v'] m IH]; [done|]. rewrite filter_cons, fmap_cons, not_elem_of_cons.
  cbn [fst]. intros [Hne H]. rewrite decide_True by congruence. by rewrite IH.
Qed.

Lemma zm_delete_head k v m : k ∉ m.*1 -> zm_delete k ((k, v) :: m) = m.
Proof.
  intros H. unfold zm_delete. rewrite filter_cons. cbn [fst]. rewrite decide_False by tauto.
  by apply zm_delete_fresh.
Qed.
End zmap_lemmas.

(** ** The store of snapshots *)
Inductive store_op := OSnapshot (timestamp : Z) (balances : list TokenBalance) | OClear.

Definition store_step (s : BalanceSnapshotStore) (op : store_op) : BalanceSnapshotStore :=
  match op with OSnapshot t b => snapshot s t b | OClear => store_clear s end.

(** The snapshot calls since the last [clear], the first one first. *)
Fixpoint since_clear (acc : list (Z * list TokenBalance)) (ops : list store_op)
    : list (Z * list TokenBalance) :=
  match ops with
  | [] => acc
  | OSnapshot t b :: ops' => since_clear (acc ++ [(t, b)]) ops'
  | OClear :: ops' => since_clear [] ops'
  end.

(** The map's entries are in the order of the list, without duplicates, and within the bound. *)
Record store_inv (max : Z) (calls : list (Z * list TokenBalance)) (s : BalanceSnapshotStore) : Prop := {
  si_max : sn_maxEntries s = max;
  si_keys : (sn_snapshots s).*1 = sn_orderedTimestamps s;
  si_nodup : NoDup (sn_orderedTimestamps s);
  si_bound : store_size s <= Z.max 0 max;
  si_baseline : sn_baseline s = (fun c => mkSnapshot c.1 c.2) <$> head calls;
  si_kept : forall t, t ∈ sn_orderedTimestamps s -> t ∈ calls.*1;
}.

Lemma evict_spec {max} (m : list (Z * list TokenBalance)) l :
  m.*1 = l -> NoDup l ->
  let '(m', l') := evict max m l in
  m'.*1 = l' /\ l' `suffix_of` l /\ Z.of_nat (length l') <= Z.max 0 max /\
  (Z.of_nat (length l) <= max -> l' = l /\ m' = m) /\ (0 < max -> l <> [] -> last l' = last l).
Proof.
  intros <-. induction m as [|[t b] m IH]; cbn [evict fmap list_fmap fst]; intros Hnd.
  - split_and!; [done|done|cbn; lia|done|done].
  - apply NoDup_cons in Hnd as [Ht Hnd]. specialize (IH Hnd).
    destruct (Z.gtb_spec (Z.of_nat (length (t :: m.*1))) max) as [Hgt|Hle].
    + rewrite zm_delete_head by done. destruct (evict max m m.*1) as [m' l'].
      destruct IH as (H1 & H2 & H3 & H4 & H5). split_and!; [done| |done| |].
      * by apply suffix_cons_r.
      * intros Hle. cbn in Hle, Hgt. lia.
      * intros Hmax _. cbn [length] in Hgt. rewrite length_fmap in Hgt.
        destruct m as [|e m]; [cbn in Hgt; lia|]. rewrite H5 by done. done.
    + split_and!; [done|done|lia|done|done].
Qed.

Lemma suffix_elem {A} (l1 l2 : list A) x : l1 `suffix_of` l2 -> x ∈ l1 -> x ∈ l2.
Proof. intros [k ->] H. apply elem_of_app. by right. Qed.

Lemma suffix_nodup {A} (l1 l2 : list A) : l1 `suffix_of` l2 -> NoDup l2 -> NoDup l1.
Proof. intros [k ->] H. by apply NoDup_app in H as (_ & _ & H). Qed.

Lemma head_snoc {A} (l : list A) x y : head l = Some y -> head (l ++ [x]) = Some y.
Proof. by destruct l. Qed.

Lemma snapshot_inv max calls s t b :
  store_inv max calls s -> store_inv max (calls ++ [(t, b)]) (snapshot s t b).
Proof.
  intros [Hm Hk Hnd Hb Hbase Hkept].
  assert (Hbase' : match sn_baseline s with Some x => Some x | None => Some (mkSnapshot t b) end
                   = (fun c => mkSnapshot c.1 c.2) <$> head (calls ++ [(t, b)])).
  { rewrite Hbase. by destruct calls. }
  assert (Hkept' : forall u, u ∈ sn_orderedTimestamps s ++ [t] -> u ∈ (calls ++ [(t, b)]).*1).
  { intros u. rewrite fmap_app, !elem_of_app. intros [Hu|Hu]; [left; auto|by right]. }
  unfold snapshot. destruct (zm_get t (sn_snapshots s)) as [b0|] eqn:Hget.
  - assert (Ht : t ∈ (sn_snapshots s).*1).
    { apply zm_get_some in Hget. apply list_elem_of_fmap. by exists (t, b0). }
    split; cbn; try done.
    + by rewrite zm_keys_set, decide_True.
    + intros u Hu. apply Hkept'. apply elem_of_app. by left.
  - apply zm_get_none in Hget. rewrite Hm.
    pose proof (evict_spec (max := max) (zm_set t b (sn_snapshots s)) (sn_orderedTimestamps s ++ [t])) as He.
    destruct (evict max _ _) as [m' l']. destruct He as (H1 & H2 & H3 & _).
    { by rewrite zm_keys_set, decide_False, Hk by done. }
    { apply NoDup_app. split_and!; [done| |apply NoDup_singleton].
      intros u Hu ->%list_elem_of_singleton. by rewrite Hk in Hget. }
    split; cbn; try done.
    + apply (suffix_nodup _ _ H2). apply NoDup_app. split_and!; [done| |apply NoDup_singleton].
      intros u Hu ->%list_elem_of_singleton. by rewrite Hk in Hget.
    + intros u Hu. apply Hkept'. by apply (suffix_elem l').
Qed.

Lemma store_runs_inv max calls s ops :
  store_inv max calls s -> store_inv max (since_clear calls ops) (fold_left store_step ops s).
Proof.
  revert calls s. induction ops as [|[t b|] ops IH]; intros calls s H; cbn [since_clear fold_left]; [done| |].
  - apply IH. by apply snapshot_inv.
  - apply IH. destruct H as [Hm _ _ _ _ _]. split; unfold store_size; cbn; [done|done|constructor|lia|done|].
    intros t Ht. by apply not_elem_of_nil in Ht.
Qed.

Lemma new_store_inv max : store_inv max [] (new_store max).
Proof.
  split; unfold store_size; cbn; [done|done|constructor|lia|done|]. intros t Ht. by apply not_elem_of_nil in Ht.
Qed.

Lemma listed_has_balances max calls s t :
  store_inv max calls s -> t ∈ sn_orderedTimestamps s -> is_Some (zm_get t (sn_snapshots s)).
Proof.
  intros [_ Hk _ _ _ _] Ht. rewrite <- Hk in Ht.
  destruct (zm_get t (sn_snapshots s)) eqn:E; [by eexists|]. by apply zm_get_none in E.
Qed.

Lemma token_json_inv b : token_of_json (token_json b) = b.
Proof.
  destruct b as [m z y d]. unfold token_of_json, token_json, json_bigint. cbn.
  by rewrite js_BigInt_pretty.
Qed.

Lemma tokens_json_inv (l : list TokenBalance) : token_of_json <$> (token_json <$> l) = l.
Proof.
  rewrite <- list_fmap_compose. induction l as [|b l IH]; [done|]. rewrite fmap_cons, IH.
  unfold compose. by rewrite token_json_inv.
Qed.

Lemma load_all (m : list (Z * list TokenBalance)) s :
  NoDup ((sn_snapshots s).*1 ++ m.*1) ->
  fold_left load_snapshot ((fun e => mkSnapJson (Some (pretty e.1)) (Some (token_json <$> e.2))) <$> m) s
  = mkStore (sn_baseline s) (sn_maxEntries s) (sn_snapshots s ++ m) (sn_orderedTimestamps s ++ m.*1).
Proof.
  revert s. induction m as [|[t b] m IH]; intros s Hnd.
  - cbn. rewrite !app_nil_r. by destruct s.
  - rewrite fmap_cons. cbn [fold_left]. unfold load_snapshot at 2. cbn [sj_timestamp sj_balances fst snd].
    unfold json_bigint at 1 2. cbn [mbind option_bind]. rewrite js_BigInt_pretty. unfold id; cbn [from_option].
    rewrite fmap_cons in Hnd. cbn [fst] in Hnd.
    assert (Ht : t ∉ (sn_snapshots s).*1).
    { intros Hin. apply NoDup_app in Hnd as (_ & Hd & _). apply (Hd t Hin). by left. }
    rewrite tokens_json_inv, zm_set_fresh by done. rewrite IH; cbn.
    + rewrite <- !app_assoc. done.
    + rewrite fmap_app, <- app_assoc. exact Hnd.
Qed.

(** The snapshot store keeps what it says and survives its text form. Whatever calls of
    [snapshot] and [clear] a store has seen, it lists each kept timestamp once, with its balances,
    never more than its bound; its baseline is the first snapshot since the last [clear]; the
    profit of its chart is always defined; and reading back what it writes is the same store. *)
Theorem snapshot_store_sound max ops network :
  let s := fold_left store_step ops (new_store max) in
  let calls := since_clear [] ops in
  NoDup (sn_orderedTimestamps s) /\ store_size s <= Z.max 0 max /\
  (forall t, t ∈ sn_orderedTimestamps s -> t ∈ calls.*1 /\ is_Some (zm_get t (sn_snapshots s))) /\
  sn_baseline s = (fun c => mkSnapshot c.1 c.2) <$> head calls /\
  is_Some (getBalancePnL s network) /\
  store_fromJSON (store_toJSON s) = s.
Proof.
  intros s calls.
  assert (Hi : store_inv max calls s) by apply store_runs_inv, new_store_inv.
  clearbody s calls. pose proof Hi as [Hm Hk Hnd Hb Hbase Hkept]. split_and!; try done.
  - intros t Ht. split; [auto|]. by apply (listed_has_balances max calls).
  - unfold getBalancePnL, getBaseline, getLatest. destruct (sn_baseline s); [|by eexists].
    destruct (last (sn_orderedTimestamps s)) as [t|] eqn:Hl; cbn; [|by eexists].
    destruct (_ =? t); [by eexists|].
    destruct (listed_has_balances max calls s t Hi) as [x ->]; [|by eexists].
    apply last_Some in Hl as [l ->]. apply elem_of_app. right. by left.
  - unfold store_fromJSON, store_toJSON. cbn [stj_maxEntries stj_baseline stj_snapshots from_option].
    unfold id. rewrite load_all; cbn.
    + rewrite Hk. destruct s as [base mx snaps ord]. cbn. f_equal. destruct base as [[t b]|]; [|done].
      cbn. rewrite tokens_json_inv. unfold json_bigint. cbn. by rewrite js_BigInt_pretty.
    + by rewrite Hk.
Qed.

(** ** Health *)
Section health_spec.
Context {C : Type}.
Implicit Types (state : ResolvedVaultState C).

Lemma health_inv state now :
  vh_isHealthy (getVaultHealth state now) = true <->
  vault_status (rs_vault state) = Active /\ agents (rs_vault state) <> [] /\
  (exists a, a ∈ agents (rs_vault state) /\ agent_paused a = false) /\
  (let u := computeUtilizationPercent (spent24h (globalBudget state)) (cap (globalBudget state)) in
   num u < 95 * den u) /\
  (forall a, a ∈ agents (rs_vault state) -> agent_capability a <> FULL_CAPABILITY) /\
  0 < dailySpendingCapUsd (rs_policy state).
Proof.
  unfold getVaultHealth. cbn [vh_isHealthy]. set (l := agents (rs_vault state)).
  set (u := computeUtilizationPercent _ _). rewrite !andb_true_iff, !bool_decide_eq_true.
  assert (Hchk : filter (fun c => sc_severity c = critical /\ sc_passed c = false) (health_checks state) = []
                 <-> (forall a, a ∈ l -> agent_capability a <> FULL_CAPABILITY)
                     /\ 0 < dailySpendingCapUsd (rs_policy state)).
  { unfold health_checks. rewrite !filter_cons. cbn [sc_severity sc_passed].
    repeat (rewrite (decide_False (P := warning = critical /\ _)) by (intros [? _]; discriminate)).
    rewrite (decide_False (P := info = critical /\ _)) by (intros [? _]; discriminate).
    rewrite filter_nil. fold l.
    assert (Hall : negb (existsb (fun a => agent_capability a =? FULL_CAPABILITY) l) = true
                   <-> forall a, a ∈ l -> agent_capability a <> FULL_CAPABILITY).
    { rewrite negb_true_iff, <- not_true_iff_false, existsb_exists. split.
      - intros H a Ha Hc. apply H. exists a. split; [by apply list_elem_of_In|lia].
      - intros H (a & Ha & Hc). apply (H a); [by apply list_elem_of_In|lia]. }
    rewrite <- Hall. destruct (negb _); cbn.
    - rewrite decide_False by (intros [_ H]; discriminate). rewrite Z.gtb_ltb.
      destruct (Z.ltb_spec 0 (dailySpendingCapUsd (rs_policy state))).
      + rewrite decide_False by (intros [_ H']; discriminate). tauto.
      + rewrite decide_True by done. split; [discriminate|lia].
    - rewrite decide_True by done. split; [discriminate|intros [H _]; discriminate]. }
  rewrite Hchk. rewrite Z.gtb_lt, !Z.ltb_lt.
  assert (Hpause : Z.of_nat (length (filter (fun a => agent_paused a = true) l)) < Z.of_nat (length l)
                   <-> exists a, a ∈ l /\ agent_paused a = false).
  { clear. induction l as [|a l IH]; [cbn; split; [lia|intros (a & Ha & _); by apply not_elem_of_nil in Ha]|].
    rewrite filter_cons. pose proof (length_filter (fun a => agent_paused a = true) l) as Hl.
    destruct (agent_paused a) eqn:E.
    - rewrite decide_True by done. cbn [length]. split.
      + intros H. destruct (proj1 IH) as (b & Hb & Hp); [lia|]. exists b. split; [by right|done].
      + intros (b & [->|Hb]%elem_of_cons & Hp); [congruence|].
        assert (Z.of_nat (length (filter (fun a => agent_paused a = true) l)) < Z.of_nat (length l))
          by (apply IH; eauto). lia.
    - rewrite decide_False by done. cbn [length]. split; [|lia]. intros _. exists a. split; [by left|done]. }
  rewrite Hpause. assert (0 < Z.of_nat (length l) <-> l <> []) by (destruct l; cbn; split; intros; (done || lia)).
  tauto.
Qed.

(** C38: The health card's verdict. A vault is healthy exactly when it is active, below 95% of a
    non-zero cap's use, has an agent that is not paused, and no agent of full capability. The last
    test makes the verdict useless for a working vault: in a healthy vault the program refuses
    every authorisation to spend, whoever asks and for whatever amount. *)
Theorem healthy_vault_cannot_spend `{env : PdaEnv} state now :
  (vh_isHealthy (getVaultHealth state now) = true <->
     vault_status (rs_vault state) = Active /\ agents (rs_vault state) <> [] /\
     (exists a, a ∈ agents (rs_vault state) /\ agent_paused a = false) /\
     (let u := computeUtilizationPercent (spent24h (globalBudget state)) (cap (globalBudget state)) in
      num u < 95 * den u) /\
     (forall a, a ∈ agents (rs_vault state) -> agent_capability a <> FULL_CAPABILITY) /\
     0 < dailySpendingCapUsd (rs_policy state)) /\
  (vh_isHealthy (getVaultHealth state now) = true ->
   (forall a, a ∈ agents (rs_vault state) -> agent_capability a <= FULL_CAPABILITY) ->
   forall verify_entries verify_slippage create capture cl net unixTime accounts args ixs idx,
     0 < arg_amount args ->
     is_ok (validate_and_authorize verify_entries verify_slippage create capture cl (rs_vault state)
              (rs_policy state) net unixTime accounts args ixs idx) = false).
Proof.
  split; [apply health_inv|]. intros H Hcap. apply health_inv in H as (_ & _ & _ & _ & Hno & _).
  intros ve vs create capture cl net unixTime accounts args ixs idx Ha.
  unfold validate_and_authorize. destruct (throw_if _ PolicyVersionMismatch) as [[]|]; [|done].
  rewrite bind_ok. destruct (load_constraints _ _ _ _ _) as [loaded|]; [|done]. rewrite bind_ok.
  destruct (throw_if _ VaultNotActive) as [[]|]; [|done]. rewrite bind_ok.
  destruct (throw_if _ AgentPaused) as [[]|]; [|done]. rewrite bind_ok.
  assert (Hc : has_capability (rs_vault state) (va_agent accounts) (arg_amount args >? 0) = false).
  { unfold has_capability, get_agent. destruct (find_by _ _) as [a|] eqn:E; [|done].
    apply find_by_some in E as [Hin _]. specialize (Hno a Hin). specialize (Hcap a Hin).
    replace (arg_amount args >? 0) with true by lia. change FULL_CAPABILITY with 2 in *. change CAPABILITY_OPERATOR with 2. lia. }
  by rewrite Hc.
Qed.
End health_spec.

(** ** The portfolio's time series *)
Lemma sum_jm_set k v (m : jsmap Z) :
  sum_of snd (jm_set k (default 0 (jm_get k m) + v) m) = sum_of snd m + v.
Proof.
  induction m as [|[k' w] m IH]; cbn; [rewrite sum_of_cons, sum_of_nil; cbn; lia|].
  destruct (decide (k = k')); rewrite !sum_of_cons; cbn; [lia|]. rewrite IH. lia.
Qed.

Lemma zm_get_set_eq {V} k (v : V) m : zm_get k (zm_set k v m) = Some v.
Proof.
  induction m as [|[k' w] m IH]; cbn; [by rewrite Z.eqb_refl|].
  destruct (Z.eqb_spec k k') as [->|Hne]; cbn; [by rewrite Z.eqb_refl|].
  by rewrite (proj2 (Z.eqb_neq k k')).
Qed.

Lemma zm_get_set_ne {V} k k' (v : V) m : k <> k' -> zm_get k' (zm_set k v m) = zm_get k' m.
Proof.
  intros Hne. induction m as [|[k2 w] m IH]; cbn.
  - by rewrite (proj2 (Z.eqb_neq k' k)).
  - destruct (Z.eqb_spec k k2) as [->|]; cbn; [by rewrite (proj2 (Z.eqb_neq k' k2))|].
    destruct (k' =? k2); [done|apply IH].
Qed.

Lemma sum_zm_set {V} (f : V -> Z) k v m :
  sum_of (fun e => f e.2) (zm_set k v m)
  = sum_of (fun e => f e.2) m + f v - from_option f 0 (zm_get k m).
Proof.
  induction m as [|[k' w] m IH]; cbn; [rewrite sum_of_cons, sum_of_nil; cbn; lia|].
  destruct (Z.eqb_spec k k'); rewrite !sum_of_cons; cbn; [lia|]. rewrite IH. lia.
Qed.

Lemma zm_elem_get {V} k (v : V) m : NoDup m.*1 -> (k, v) ∈ m -> zm_get k m = Some v.
Proof.
  induction m as [|[k' w] m IH]; intros Hnd Hin; [by apply not_elem_of_nil in Hin|]. cbn in *.
  apply NoDup_cons in Hnd as [Hk Hnd]. apply elem_of_cons in Hin as [[= -> ->]|Hin]; [by rewrite Z.eqb_refl|].
  destruct (Z.eqb_spec k k') as [->|]; [|auto]. exfalso. apply Hk. apply list_elem_of_fmap. by exists (k', v).
Qed.

(** The vaults' epochs, one row each. *)
Definition usd_at (rows : list (Address * SpendingEpoch)) (t : Z) : Z :=
  sum_of (fun r => se_usdAmount r.2) (filter (fun r => se_timestamp r.2 = t) rows).
Definition usd_of_vault (rows : list (Address * SpendingEpoch)) (t : Z) (v : Address) : Z :=
  sum_of (fun r => se_usdAmount r.2) (filter (fun r => se_timestamp r.2 = t /\ r.1 = v) rows).

Definition point_ok (rows : list (Address * SpendingEpoch)) (t : Z) (p : Z * jsmap Z) : Prop :=
  p.1 = usd_at rows t /\ p.1 = sum_of snd p.2 /\
  forall v, default 0 (jm_get v p.2) = usd_of_vault rows t v.

Record series_inv (rows : list (Address * SpendingEpoch)) (m : list (Z * (Z * jsmap Z))) : Prop := {
  sr_keys : NoDup m.*1;
  sr_points : forall t, point_ok rows t (default (0, []) (zm_get t m));
  sr_total : sum_of (fun e => e.2.1) m = sum_of (fun r => se_usdAmount r.2) rows;
}.

Lemma sum_filter_snoc {A} (f : A -> Z) (P : A -> Prop) `{!forall x, Decision (P x)} l x :
  sum_of f (filter P (l ++ [x])) = sum_of f (filter P l) + (if decide (P x) then f x else 0).
Proof.
  rewrite filter_app, sum_of_app, filter_cons, filter_nil.
  case_decide; rewrite ?sum_of_cons, sum_of_nil; lia.
Qed.

Lemma series_step rows m v e :
  series_inv rows m -> series_inv (rows ++ [(v, e)]) (epoch_step v m e).
Proof.
  intros [Hk Hp Ht]. unfold epoch_step. set (t := se_timestamp e).
  destruct (default (0, []) (zm_get t m)) as [tot br] eqn:Hd.
  pose proof (Hp t) as (P1 & P2 & P3). rewrite Hd in P1, P2, P3. cbn [fst snd] in *.
  split.
  - rewrite zm_keys_set. case_decide; [done|]. apply NoDup_app. split_and!; [done| |apply NoDup_singleton].
    intros x Hx ->%list_elem_of_singleton. done.
  - intros u. unfold point_ok, usd_at, usd_of_vault. setoid_rewrite sum_filter_snoc. cbn [fst snd].
    destruct (decide (u = t)) as [->|Hne].
    + rewrite zm_get_set_eq. cbn. split_and!.
      * rewrite P1, decide_True by done. done.
      * rewrite sum_jm_set. lia.
      * intros w. destruct (decide (v = w)) as [->|Hvw].
        -- rewrite jm_get_set_eq. cbn. rewrite P3. unfold usd_of_vault. by rewrite decide_True.
        -- rewrite jm_get_set_ne by done. rewrite P3. unfold usd_of_vault. rewrite decide_False by naive_solver. lia.
    + rewrite zm_get_set_ne by done. destruct (Hp u) as (Q1 & Q2 & Q3). split_and!.
      * rewrite Q1, decide_False by done. unfold usd_at. lia.
      * done.
      * intros w. rewrite Q3, decide_False by naive_solver. unfold usd_of_vault. lia.
  - rewrite (sum_zm_set fst), sum_of_app, sum_of_cons, sum_of_nil. cbn [fst snd].
    replace (from_option fst 0 (zm_get t m)) with tot.
    + change (sum_of (fun e0 => (e0.2).1) m) with (sum_of (fun e0 => (e0.2).1) m) in Ht. lia.
    + destruct (zm_get t m) as [x|]; cbn in *; unfold id in Hd; by simplify_eq/=.
Qed.

Section series.
Context {C : Type} (formatUsd : Z -> string).
Implicit Types (vaultStates : list (Address * ResolvedVaultState C)).

Definition history_rows vaultStates (nowUnix : Z) : list (Address * SpendingEpoch) :=
  flat_map (fun vs => pair vs.1 <$> getSpendingHistory formatUsd (rs_tracker vs.2) nowUnix) vaultStates.

Lemma series_folds vaultStates nowUnix :
  series_inv (history_rows vaultStates nowUnix)
    (fold_left (fun m vs => fold_left (epoch_step vs.1) (getSpendingHistory formatUsd (rs_tracker vs.2) nowUnix) m)
       vaultStates []).
Proof.
  assert (Hin : forall v es rows m, series_inv rows m ->
    series_inv (rows ++ (pair v <$> es)) (fold_left (epoch_step v) es m)).
  { intros v es. induction es as [|e es IH]; intros rows m H; cbn; [by rewrite app_nil_r|].
    rewrite cons_middle, app_assoc. apply IH. by apply series_step. }
  assert (Hout : forall rows m, series_inv rows m ->
    series_inv (rows ++ history_rows vaultStates nowUnix)
      (fold_left (fun m vs => fold_left (epoch_step vs.1) (getSpendingHistory formatUsd (rs_tracker vs.2) nowUnix) m)
         vaultStates m)).
  { induction vaultStates as [|vs l IH]; intros rows m H; cbn [fold_left history_rows flat_map];
      [by rewrite app_nil_r|].
    rewrite app_assoc. apply IH. by apply Hin. }
  apply (Hout [] []). split; [constructor| |done]. intros t. split_and!; done.
Qed.

(** The portfolio chart loses nothing. Its points are in strictly ascending time; each is the
    exact sum of every vault's history at that time, equals the sum of its own breakdown, and the
    breakdown holds exactly each vault's share; all points together are all epochs together. *)
Theorem portfolio_series_conserves vaultStates nowUnix :
  let points := ts_spendingByEpoch (getPortfolioTimeSeries formatUsd vaultStates nowUnix) in
  let rows := history_rows vaultStates nowUnix in
  StronglySorted (fun a b => pn_timestamp a < pn_timestamp b) points /\
  (forall p, p ∈ points ->
     pn_totalUsd p = usd_at rows (pn_timestamp p) /\ pn_totalUsd p = sum_of snd (pn_vaultBreakdown p) /\
     forall v, default 0 (jm_get v (pn_vaultBreakdown p)) = usd_of_vault rows (pn_timestamp p) v) /\
  sum_of pn_totalUsd points = sum_of (fun r => se_usdAmount r.2) rows.
Proof.
  intros points rows. pose proof (series_folds vaultStates nowUnix) as [Hk Hp Ht]. fold rows in Hp, Ht.
  unfold getPortfolioTimeSeries in points. cbn in points.
  set (m := fold_left _ vaultStates []) in *. subst points.
  set (l := (fun e => mkPoint e.1 e.2.1 e.2.2) <$> m).
  assert (Hnd : NoDup (pn_timestamp <$> l)).
  { unfold l. rewrite <- list_fmap_compose. exact Hk. }
  split_and!.
  - pose proof (sort_by_sorted pn_timestamp l) as Hs.
    assert (Hnd' : NoDup (pn_timestamp <$> sort_by pn_timestamp l)) by (by rewrite sort_by_perm).
    revert Hnd'. induction Hs as [|p s Hs IH Hall]; intros Hnd'; [constructor|].
    rewrite fmap_cons in Hnd'. apply NoDup_cons in Hnd' as [Hni Hnd']. constructor; [auto|].
    rewrite Forall_forall in *. intros q Hq. specialize (Hall q Hq).
    assert (pn_timestamp p <> pn_timestamp q); [|lia].
    intros Heq. apply Hni. rewrite Heq. by apply list_elem_of_fmap_2.
  - intros p. rewrite sort_by_perm. unfold l. intros ([t [tot br]] & -> & He)%list_elem_of_fmap. cbn.
    specialize (Hp t). rewrite (zm_elem_get t (tot, br) m Hk He) in Hp. exact Hp.
  - rewrite (sum_of_perm _ _ _ (sort_by_perm _ _)). unfold l. rewrite sum_of_fmap. exact Ht.
Qed.
End series.

(** ** An observed vault *)
Definition watched_vault (capability : Z) : AgentVault :=
  {| owner := "owner"; vaultId := 0; agents := [mkAgent "watcher" capability 0 false];
     feeDestination := "fees"; vault_status := Active; av_bump := 255; createdAt := 0;
     totalTransactions := 0; totalVolume := 0; activeEscrowCount := 0; totalFeesCollected := 0;
     totalDepositedUsd := 0; totalWithdrawnUsd := 0; totalFailedTransactions := 0; activeSessions := 0 |}.

Definition watched_state (capability : Z) : ResolvedVaultState unit :=
  mkResolved (watched_vault capability) (mkPolicy 1000 500 0 [] 0 100 1800 false false [] 0 "vault" [] false 0 254 0 0)
    None None None (mkBudget 0 1000 1000) None [] [] 500 (mkBalances 100 0) 1700000000.

(** With an observer the card is green and no spending is authorised; with an operator it is red. *)
Lemma healthy_vault_cannot_spend_witness :
  vh_isHealthy (getVaultHealth (watched_state 1) 1700000000) = true /\
  vh_isHealthy (getVaultHealth (watched_state 2) 1700000000) = false /\
  is_ok (validate_and_authorize (env := demo_address_env) demo_verify demo_slippage demo_create
           demo_capture demo_cluster (watched_vault 1) (rs_policy (watched_state 1)) "devnet" 1700000000
           (mkValidateAccounts "watcher" "vault" "ata" (mkTokenAccount "mint" "vault" 100) None None None [])
           (mkValidateArgs "mint" 5 "jup" 0) [] 0) = false.
Proof.
  split; [by vm_compute|]. split; [by vm_compute|].
  apply (proj2 (healthy_vault_cannot_spend (watched_state 1) 1700000000)).
  - by vm_compute.
  - intros a [->|Ha]%elem_of_cons; [by vm_compute|]. by apply not_elem_of_nil in Ha.
  - reflexivity.
Defined.
