(* ===== verification/AdvancedAnalytics.v ===== *)
(** * Reports over decoded events ([advanced-analytics.ts])

    Pure functions of a list of decoded events. The fields they read are addresses, [bigint]s
    and booleans, as the decoders produce them ([EventLayouts]); [Number] of basis points,
    counts and timestamps below [2^53] is the integer itself. *)

From Stdlib Require Import QArith.
From S2P Require Import Prelude Types Accounts Bytes OnChain StateResolver Inspector Numbers JsText Tokens Formatting EventLayouts Events Analytics VaultAnalytics.
Local Open Scope string_scope.
Local Open Scope Z_scope.
Local Open Scope list_scope.

Definition fl_sub (a b : ratio) : ratio := fl_signed (num a * den b - num b * den a) (den a * den b).
Definition fl_times (a b : ratio) : ratio := fl_signed (num a * num b) (den a * den b).
Definition over_or (n d : Z) (fallback : Z) : ratio := if d >? 0 then fl_over (js_Number n) d else ratio_of_Z fallback.

(** ** Pairs of an authorisation and a finalisation

    The fields of the event when it has that name. *)
Definition fields_of (name : string) (e : DecodedSigilEvent) : option fields_obj :=
  if bool_decide (de_name e = name) then de_fields e else None.

Definition bigint_or (o : option field) : Z := match o with Some (FBig z) => z | _ => 0 end.

(** The inner loop: the first of the next four events that finalises a session of the agent and
    passes [accept]. *)
Fixpoint find_final (accept : fields_obj -> bool) (auth : fields_obj) (window : list DecodedSigilEvent)
    : option fields_obj :=
  match window with
  | [] => None
  | e :: rest =>
      match fields_of "SessionFinalized" e with
      | Some fin =>
          if bool_decide (jm_get "agent" auth = jm_get "agent" fin) && accept fin then Some fin
          else find_final accept auth rest
      | None => find_final accept auth rest
      end
  end.

Record Trade := mkTrade { tr_agent : string; tr_authorized : Z; tr_actual : Z }.

Definition text_of (o : option field) : string := match o with Some (FAddr s) => s | _ => "undefined" end.

(** The outer loop stops before the last event, which has no event after it. *)
Fixpoint pair_events (accept : fields_obj -> bool) (events : list DecodedSigilEvent) : list Trade :=
  match events with
  | [] => []
  | e :: rest =>
      match fields_of "ActionAuthorized" e with
      | Some auth =>
          match find_final accept auth (take 4 rest) with
          | Some fin =>
              [mkTrade (text_of (jm_get "agent" auth)) (bigint_or (jm_get "usdAmount" auth))
                 (bigint_or (jm_get "actualSpendUsd" fin))]
          | None => []
          end
      | None => []
      end ++ pair_events accept rest
  end.

(** ** [getSlippageEfficiency] *)
Record AgentSlippage := mkSlippage {
  as_slip_agent : Address;
  as_avgSlippageBps : ratio;
  as_worstSlippageBps : Z;
  as_tradeCount : Z;
  as_estimatedWasteUsd : Z;
}.

Record SlippageReport := mkSlippageReport {
  sr_byAgent : list AgentSlippage;
  sr_vaultAvgSlippageBps : ratio;
}.

Definition push_trade (m : jsmap (list Trade)) (t : Trade) : jsmap (list Trade) :=
  jm_set (tr_agent t) (default [] (jm_get (tr_agent t) m) ++ [t]) m.

(** Worst, total and waste so far. *)
Definition slip_step (acc : Z * Z * Z) (t : Trade) : Z * Z * Z :=
  let '(worstBps, totalBps, totalWaste) := acc in
  if tr_authorized t =? 0 then acc
  else
    let diff := if tr_actual t >? tr_authorized t then tr_actual t - tr_authorized t else 0 in
    let bps := Z.quot (diff * 10000) (tr_authorized t) in
    (if bps >? worstBps then bps else worstBps, totalBps + bps, totalWaste + diff).

Definition agent_slippage (e : string * list Trade) : AgentSlippage * Z :=
  let '(worstBps, totalBps, totalWaste) := fold_left slip_step e.2 (0, 0, 0) in
  let n := Z.of_nat (length e.2) in
  (mkSlippage e.1 (over_or totalBps n 0) worstBps n totalWaste, totalBps).

Definition getSlippageEfficiency (events : list DecodedSigilEvent) : SlippageReport :=
  let agentTrades := fold_left push_trade (pair_events (fun _ => true) events) [] in
  let rows := agent_slippage <$> agentTrades in
  let totalTrades := sum_of (fun r => as_tradeCount r.1) rows in
  mkSlippageReport rows.*1 (over_or (sum_of snd rows) totalTrades 0).

(** ** [getCapVelocity] *)
Inductive CapRisk := low_risk | moderate_risk | high_risk | critical_risk.

Record CapVelocityReport := mkCapVelocity {
  cv_currentRate : Z;
  cv_avgRate : Z;
  cv_acceleration : ratio;
  cv_projectedCapHitTime : option ratio;
  cv_riskLevel : CapRisk;
}.

Definition recent_bucket (currentEpoch : Z) (b : EpochBucket) : bool :=
  (epochId b >=? currentEpoch - 3) && (epochId b <=? currentEpoch) && (usdAmount b >? 0).

Definition getCapVelocity (tracker : option SpendTracker) (nowUnix : Z) (globalBudget : EffectiveBudget)
    : CapVelocityReport :=
  let currentEpoch := Z.quot nowUnix EPOCH_DURATION in
  let recent := match tracker with
                | Some t => filter (fun b => recent_bucket currentEpoch b = true) (buckets t)
                | None => []
                end in
  let recentCount := Z.of_nat (length recent) in
  let currentRate := if recentCount >? 0 then Z.quot (sum_of usdAmount recent * 6) recentCount else 0 in
  let avgRate := Z.quot (spent24h globalBudget) 24 in
  let acceleration :=
    if avgRate >? 0 then fl_div (js_Number currentRate) (js_Number avgRate) else ratio_of_Z 0 in
  let projected :=
    if (currentRate >? 0) && (remaining globalBudget >? 0) then
      let hoursRemaining := fl_div (js_Number (remaining globalBudget)) (js_Number currentRate) in
      Some (fl_add (js_Number nowUnix) (fl_mul hoursRemaining (ratio_of_Z 3600)))
    else None in
  let util :=
    if cap globalBudget >? 0 then Z.quot (spent24h globalBudget * 100) (cap globalBudget) else 0 in
  let soon :=
    match projected with
    | Some p => let d := fl_sub p (js_Number nowUnix) in num d <? 3600 * den d
    | None => false
    end in
  let fast := 2 * num acceleration >? 3 * den acceleration in
  mkCapVelocity currentRate avgRate acceleration projected
    (if (util >=? 95) || soon then critical_risk
     else if (util >=? 80) && fast then high_risk
     else if (util >=? 50) || fast then moderate_risk
     else low_risk).

(** ** [getSessionDeviationRate] *)
Record Deviation := mkDeviation {
  dv_agent : Address;
  dv_authorizedAmount : Z;
  dv_actualSpend : Z;
  dv_deviationBps : Z;
}.

Record DeviationReport := mkDeviationReport {
  dr_totalSessions : Z;
  dr_deviatedSessions : Z;
  dr_deviationRate : ratio;
  dr_maxDeviationBps : Z;
  dr_deviations : list Deviation;
}.

Definition deviation_of (t : Trade) : option Deviation :=
  if tr_authorized t =? 0 then None
  else if tr_actual t >? tr_authorized t then
    let bps := Z.quot ((tr_actual t - tr_authorized t) * 10000) (tr_authorized t) in
    if bps >? 200 then Some (mkDeviation (tr_agent t) (tr_authorized t) (tr_actual t) bps) else None
  else None.

Definition getSessionDeviationRate (events : list DecodedSigilEvent) : DeviationReport :=
  let pairs := pair_events (fun fin => bigint_or (jm_get "actualSpendUsd" fin) >? 0) events in
  let deviations := omap deviation_of pairs in
  let n := Z.of_nat (length pairs) in
  let d := Z.of_nat (length deviations) in
  mkDeviationReport n d (if n >? 0 then fl_mul (fl_over (js_Number d) n) (ratio_of_Z 100) else ratio_of_Z 0)
    (fold_left (fun m x => Z.max m (dv_deviationBps x)) deviations 0) deviations.

(** ** [getIdleCapitalDuration] *)
Record IdleCapitalReport := mkIdle {
  id_avgIdleHours : ratio;
  id_maxIdleHours : ratio;
  id_lastActivityTimestamp : Z;
  id_idleSinceHours : ratio;
}.

Definition trade_timestamp (e : DecodedSigilEvent) : option Z :=
  if bool_decide (de_name e = "SessionFinalized") || bool_decide (de_name e = "ActionAuthorized") then
    f ← de_fields e; match jm_get "timestamp" f with Some (FBig z) => Some z | _ => None end
  else None.

Fixpoint gaps (l : list Z) : list Z :=
  match l with
  | a :: (b :: _) as l' => (b - a) :: gaps l'
  | _ => []
  end.

(** [Math.round((seconds / 3600) * 10) / 10]. *)
Definition hours_tenths (seconds : ratio) : ratio :=
  fl_over (ratio_of_Z (math_round (fl_times (fl_over seconds 3600) (ratio_of_Z 10)))) 10.

Definition getIdleCapitalDuration (events : list DecodedSigilEvent) (nowUnix : Z) : IdleCapitalReport :=
  let tradeTimestamps := sort_by id (omap trade_timestamp events) in
  match last tradeTimestamps with
  | None => mkIdle (ratio_of_Z 0) (ratio_of_Z 0) 0 (ratio_of_Z 0)
  | Some lastTimestamp =>
      let g := gaps tradeTimestamps in
      mkIdle (hours_tenths (over_or (sum_of id g) (Z.of_nat (length g)) 0))
        (hours_tenths (ratio_of_Z (foldr Z.max 0 g)))
        lastTimestamp (hours_tenths (ratio_of_Z (nowUnix - lastTimestamp)))
  end.

(** ** [getPermissionEscalationLatency] *)
Record Escalation := mkEscalation {
  es_agent : Address;
  es_grantTimestamp : Z;
  es_firstUseTimestamp : option Z;
  es_latencySeconds : option Z;
  es_suspicious : bool;
}.

Fixpoint first_use (agent : option field) (events : list DecodedSigilEvent) : option Z :=
  match events with
  | [] => None
  | e :: rest =>
      match fields_of "ActionAuthorized" e with
      | Some f =>
          if bool_decide (jm_get "agent" f = agent) then Some (bigint_or (jm_get "timestamp" f))
          else first_use agent rest
      | None => first_use agent rest
      end
  end.

Fixpoint getPermissionEscalationLatency (events : list DecodedSigilEvent) : list Escalation :=
  match events with
  | [] => []
  | e :: rest =>
      match fields_of "AgentPermissionsUpdated" e with
      | Some permEvent =>
          let agent := jm_get "agent" permEvent in
          let grantTimestamp := bigint_or (jm_get "timestamp" permEvent) in
          let firstUse := first_use agent rest in
          let latency := (fun t => t - grantTimestamp) <$> firstUse in
          [mkEscalation (text_of agent) grantTimestamp firstUse latency
             (match latency with Some s => s <? 60 | None => false end)]
      | None => []
      end ++ getPermissionEscalationLatency rest
  end.

(** ** [getInstructionCoverageRatio] *)
Record CoverageReport := mkCoverage {
  co_totalComposed : Z;
  co_orphanedValidates : Z;
  co_coverageRate : ratio;
}.

(** An event of the name with a truthy agent. *)
Definition agent_of (name : string) (e : DecodedSigilEvent) : option string :=
  f ← fields_of name e;
  match jm_get "agent" f with
  | Some (FAddr s) => if bool_decide (s = "") then None else Some s
  | _ => None
  end.

Definition count_agent (name : string) (m : jsmap Z) (e : DecodedSigilEvent) : jsmap Z :=
  match agent_of name e with
  | Some agent => jm_set agent (default 0 (jm_get agent m) + 1) m
  | None => m
  end.

Definition getInstructionCoverageRatio (events : list DecodedSigilEvent) : CoverageReport :=
  let authorized := fold_left (count_agent "ActionAuthorized") events [] in
  let finalized := fold_left (count_agent "SessionFinalized") events [] in
  let paired (a : string * Z) := Z.min a.2 (default 0 (jm_get a.1 finalized)) in
  let totalComposed := sum_of paired authorized in
  let orphanedValidates := sum_of (fun a => a.2 - paired a) authorized in
  let total := totalComposed + orphanedValidates in
  mkCoverage totalComposed orphanedValidates
    (if total >? 0 then fl_mul (fl_over (js_Number totalComposed) total) (ratio_of_Z 100)
     else ratio_of_Z 100).

(** ** [getPermissionUtilizationRate] *)
Definition ACTION_NAMES : list string :=
  [ "Swap"; "OpenPosition"; "ClosePosition"; "IncreasePosition"; "DecreasePosition"; "Deposit";
    "Withdraw"; "Transfer"; "AddCollateral"; "RemoveCollateral"; "PlaceTriggerOrder";
    "EditTriggerOrder"; "CancelTriggerOrder"; "PlaceLimitOrder"; "EditLimitOrder";
    "CancelLimitOrder"; "SwapAndOpenPosition"; "CloseAndSwapPosition"; "CreateEscrow";
    "SettleEscrow"; "RefundEscrow" ].

Definition CAPABILITY_GRANTS (capability : Z) : list string :=
  if capability =? 1 then ["NonSpending"]
  else if capability =? 2 then ["Spending"; "NonSpending"] else [].

(** The label an [ActionAuthorized] event adds, by the current fields or the legacy ones. *)
Definition action_label (f : fields_obj) : option string :=
  match jm_get "isSpending" f with
  | Some FNone | None =>
      match jm_get "actionType" f with
      | Some (FKind k) => Some k
      | Some (FNum n) | Some (FBig n) =>
          if n =? 0 then None
          else if n <? 0 then Some "Unknown" else Some (default "Unknown" (ACTION_NAMES !! Z.to_nat n))
      | _ => None
      end
  | Some b => Some (if js_truthy_field (Some b) then "Spending" else "NonSpending")
  end.

Definition set_add (x : string) (s : list string) : list string :=
  if bool_decide (x ∈ s) then s else s ++ [x].

Definition usage_event (m : jsmap (list string)) (e : DecodedSigilEvent) : jsmap (list string) :=
  match agent_of "ActionAuthorized" e, fields_of "ActionAuthorized" e with
  | Some agent, Some f =>
      let used := default [] (jm_get agent m) in
      jm_set agent (match action_label f with Some l => set_add l used | None => used end) m
  | _, _ => m
  end.

Record AgentUtilization := mkUtilization {
  ut_agent : Address;
  ut_grantedPermissions : list string;
  ut_exercisedPermissions : list string;
  ut_utilizationRate : ratio;
  ut_unusedPermissions : list string;
}.

Record PermissionUtilization := mkPermissionUtilization {
  pz_byAgent : list AgentUtilization;
  pz_mostUsedActionType : option string;
  pz_leastUsedActionType : option string;
}.

Definition agent_utilization (usage : jsmap (list string)) (a : AgentEntry) : AgentUtilization :=
  let granted := CAPABILITY_GRANTS (agent_capability a) in
  let exercised := default [] (jm_get (pubkey a) usage) in
  let exercisedArr := filter (fun x => x ∈ granted) exercised in
  mkUtilization (pubkey a) granted exercisedArr
    (if (0 <? length granted)%nat
     then fl_mul (fl_over (js_Number (Z.of_nat (length exercisedArr))) (Z.of_nat (length granted))) (ratio_of_Z 100)
     else ratio_of_Z 0)
    (filter (fun x => x ∉ exercised) granted).

Definition count_action (m : jsmap Z) (action : string) : jsmap Z :=
  jm_set action (default 0 (jm_get action m) + 1) m.

(** The running minimum starts at infinity. *)
Definition least_step (acc : option (string * Z)) (e : string * Z) : option (string * Z) :=
  match acc with
  | Some (_, minCount) => if e.2 <? minCount then Some e else acc
  | None => Some e
  end.

Definition getPermissionUtilizationRate (entries : list AgentEntry) (events : list DecodedSigilEvent)
    : PermissionUtilization :=
  let usage := fold_left usage_event events [] in
  let byAgent := agent_utilization usage <$> entries in
  let counts := fold_left count_action (flat_map ut_exercisedPermissions byAgent) [] in
  mkPermissionUtilization byAgent (top_of fst snd counts) (fst <$> fold_left least_step counts None).

(** * What the event reports show *)

(** ** The names a log can carry *)
Lemma parse_log_names log e : e ∈ parse_log log -> ev_name e ∈ EVENT_DISCRIMINATOR_MAP.*2.
Proof.
  unfold parse_log. intros H. repeat case_match; try (by apply not_elem_of_nil in H).
  apply list_elem_of_singleton in H as ->. cbn [ev_name].
  match goal with Hg : jm_get _ _ = Some _ |- _ => apply jm_get_elem in Hg; by apply (list_elem_of_fmap_2 snd) in Hg end.
Qed.

Lemma decoded_names `{CodecLib} logs e :
  e ∈ parseAndDecodeSigilEvents logs -> de_name e ∈ EVENT_DISCRIMINATOR_MAP.*2.
Proof.
  unfold parseAndDecodeSigilEvents, parseSigilEvents. intros (ev & -> & Hev)%list_elem_of_fmap.
  apply list_elem_of_In, in_flat_map in Hev as (log & _ & Hev%list_elem_of_In).
  by apply (parse_log_names log).
Qed.

(** The escalation report is always empty. It looks for events named
    [AgentPermissionsUpdated], which the program does not emit: of whatever logs, no decoded event
    has that name, so no grant is ever listed and none can be marked suspicious. *)
Theorem escalation_report_empty `{CodecLib} logs :
  getPermissionEscalationLatency (parseAndDecodeSigilEvents logs) = [].
Proof.
  assert (Hn : forall e, e ∈ parseAndDecodeSigilEvents logs -> de_name e <> "AgentPermissionsUpdated").
  { intros e He%decoded_names Heq. rewrite Heq in He. revert He.
    apply (bool_decide_unpack ("AgentPermissionsUpdated" ∉ EVENT_DISCRIMINATOR_MAP.*2)). by vm_compute. }
  induction (parseAndDecodeSigilEvents logs) as [|e l IH]; [done|]. cbn [getPermissionEscalationLatency].
  unfold fields_of. rewrite bool_decide_false by (apply Hn; left). apply IH. intros x Hx. apply Hn. by right.
Qed.

(** ** Coverage *)
Definition events_of (name : string) (agent : string) (events : list DecodedSigilEvent) : Z :=
  Z.of_nat (length (filter (fun e => agent_of name e = Some agent) events)).
Definition events_with_agent (name : string) (events : list DecodedSigilEvent) : Z :=
  Z.of_nat (length (filter (fun e => is_Some (agent_of name e)) events)).

Record counts_inv (name : string) (events : list DecodedSigilEvent) (m : jsmap Z) : Prop := {
  ci_wf : jm_wf m;
  ci_get : forall a, default 0 (jm_get a m) = events_of name a events;
  ci_pos : forall a n, jm_get a m = Some n -> 0 < n;
  ci_sum : sum_of snd m = events_with_agent name events;
}.

Lemma counts_step name events m e :
  counts_inv name events m -> counts_inv name (events ++ [e]) (count_agent name m e).
Proof.
  intros [Hwf Hg Hpos Hs]. unfold count_agent.
  assert (Hof : forall a, events_of name a (events ++ [e])
                = events_of name a events + (if decide (agent_of name e = Some a) then 1 else 0)).
  { intros a. unfold events_of. rewrite filter_app, length_app, filter_cons, filter_nil.
    case_decide; cbn [length]; lia. }
  assert (Hwith : events_with_agent name (events ++ [e])
                  = events_with_agent name events + (if agent_of name e then 1 else 0)).
  { unfold events_with_agent. rewrite filter_app, length_app, filter_cons, filter_nil.
    destruct (agent_of name e); case_decide as Hd; cbn [length]; try lia; [by destruct Hd; eexists|].
    by destruct Hd. }
  destruct (agent_of name e) as [a|] eqn:Ea.
  - split.
    + by apply jm_set_wf.
    + intros b. rewrite Hof. destruct (decide (a = b)) as [->|Hne].
      * rewrite jm_get_set_eq, decide_True by done. cbn. by rewrite Hg.
      * rewrite jm_get_set_ne, decide_False by congruence. rewrite Hg. lia.
    + intros b n. destruct (decide (a = b)) as [->|Hne].
      * rewrite jm_get_set_eq. intros [= <-]. rewrite Hg. unfold events_of. lia.
      * rewrite jm_get_set_ne by done. apply Hpos.
    + rewrite Hwith, <- Hs. clear. induction m as [|[k w] m IH]; cbn.
      * rewrite sum_of_cons, sum_of_nil. cbn. lia.
      * destruct (decide (a = k)); rewrite !sum_of_cons; cbn; [lia|]. rewrite IH. lia.
  - split; try done.
    + intros b. rewrite Hof, decide_False by done. rewrite Hg. lia.
    + rewrite Hwith, Hs. lia.
Qed.

Lemma counts_all name events : counts_inv name events (fold_left (count_agent name) events []).
Proof.
  assert (H : forall done m, counts_inv name done m ->
    counts_inv name (done ++ events) (fold_left (count_agent name) events m)).
  { induction events as [|e l IH]; intros d m Hm; cbn; [by rewrite app_nil_r|].
    rewrite cons_middle, app_assoc. apply IH. by apply counts_step. }
  apply (H [] []). split; [constructor|done|done|done].
Qed.

(** The coverage report counts, and counts only. Every authorisation of a named agent is either
    composed or orphaned; none is orphaned exactly when each agent has at least as many finalised
    sessions as authorised ones, in whatever order, so a later session's finalisation hides an
    earlier authorisation that was never finalised. *)
Theorem coverage_counts_only events :
  let r := getInstructionCoverageRatio events in
  co_totalComposed r + co_orphanedValidates r = events_with_agent "ActionAuthorized" events /\
  0 <= co_orphanedValidates r /\
  (co_orphanedValidates r = 0 <->
   forall agent, events_of "ActionAuthorized" agent events <= events_of "SessionFinalized" agent events).
Proof.
  intros r. pose proof (counts_all "ActionAuthorized" events) as [Aw Ag Ap As].
  pose proof (counts_all "SessionFinalized" events) as [_ Fg _ _].
  unfold getInstructionCoverageRatio in r. subst r. cbn [co_totalComposed co_orphanedValidates].
  set (auth := fold_left (count_agent "ActionAuthorized") events []) in *.
  set (fin := fold_left (count_agent "SessionFinalized") events []) in *.
  set (orphans := fun a : string * Z => a.2 - Z.min a.2 (default 0 (jm_get a.1 fin))).
  assert (Hnn : forall a, a ∈ auth -> 0 <= orphans a) by (intros [a n] _; unfold orphans; cbn; lia).
  split_and!.
  - rewrite <- As. clear. unfold orphans. induction auth as [|a m IH]; [done|]. rewrite !sum_of_cons. lia.
  - by apply sum_of_nonneg.
  - split.
    + intros H0 agent. rewrite <- Ag, <- Fg. destruct (jm_get agent auth) as [n|] eqn:Hn; cbn.
      * apply jm_get_elem in Hn. pose proof (sum_of_elem orphans auth (agent, n) Hnn Hn) as Hle.
        fold orphans in H0. rewrite H0 in Hle. unfold orphans in Hle. cbn in Hle. lia.
      * rewrite Fg. unfold events_of. lia.
    + intros Hle. apply sum_of_zero. intros [a n] Ha. specialize (Hle a). rewrite <- Ag, <- Fg in Hle.
      apply (jm_elem_get _ _ _ Aw) in Ha. rewrite Ha in Hle. cbn in Hle. unfold orphans. cbn. lia.
Qed.

(** A finalisation that came before the authorisation covers it. *)
Definition ev (name agent : string) : DecodedSigilEvent :=
  mkDecoded name [] (Some [("agent", FAddr agent); ("usdAmount", FBig 100); ("actualSpendUsd", FBig 100)]).

Example finalised_first_still_covered :
  co_orphanedValidates
    (getInstructionCoverageRatio [ev "SessionFinalized" "a"; ev "ActionAuthorized" "a"]) = 0.
Proof. vm_compute. reflexivity. Qed.

(** Two authorisations before one finalisation are two trades. *)
Example finalisation_paired_twice :
  length (pair_events (fun _ => true)
    [ev "ActionAuthorized" "a"; ev "ActionAuthorized" "a"; ev "SessionFinalized" "a"]) = 2%nat.
Proof. vm_compute. reflexivity. Qed.
