(* ===== verification/Client.v ===== *)
(** * The agent's client ([sdk/kit/src/seal.ts], its second half)

    [createSigilClient] and what it returns: sealing from the client's own caches,
    [executeAndConfirm] with its hooks, the genesis-hash assertion of the asynchronous
    factories, and the deprecated class. A client is its configuration; the two caches it
    closes over are threaded as [ClientCaches], and what the network, the clock and the
    consumer's callbacks answer during one call is a [ClientWorld]. *)

From S2P Require Import Prelude Types Accounts StateResolver ErrorTables AgentErrors Hooks AltLoader Pdas Composer Seal RpcHelpers.
Local Open Scope string_scope.
Local Open Scope Z_scope.
Local Open Scope list_scope.

(** ** The genesis-hash assertion *)
Definition SOLANA_DEVNET_GENESIS_HASH : string := "EtWTRABZaYq6iMfeYKouRu166VU2xqa1wcaWoxPkrZBG".
Definition SOLANA_MAINNET_GENESIS_HASH : string := "5eykt4UsFv8P8NJdTREpY1vzqKqZKvdpKuc147dw2N9d".

(** What [getGenesisHash] resolves to: a string, or another value by its [String(..)]. *)
Inductive genesis_value :=
  | GString (hash : string)
  | GOther (text : string).

(** [WeakMap] from RPC objects, here named, to the hash observed there. *)
Abbreviation GenesisCache := (gmap string string).

(** The loop of [withRetry] from attempt [i], [left] attempts to go: the sleeps, then the
    first success or the last failure. *)
Fixpoint attempt_loop {T} (op : nat -> res SigilError T) (baseDelayMs : Z) (i left : nat)
    (lastErr : SigilError) : list Z * res SigilError T :=
  match left with
  | O => ([], Throw lastErr)
  | S left' =>
      match op i with
      | Ok x => ([], Ok x)
      | Throw err =>
          if bool_decide (left' = 0%nat) then ([], Throw err)
          else let r := attempt_loop op baseDelayMs (S i) left' err in
               (baseDelayMs * 2 ^ Z.of_nat i :: r.1, r.2)
      end
  end.

Definition undefined_error : SigilError := sdk_error "Error: undefined" [].

Definition withRetry {T} (op : nat -> res SigilError T) (attempts : nat) (baseDelayMs : Z)
    : list Z * res SigilError T := attempt_loop op baseDelayMs 0 attempts undefined_error.

Definition expected_genesis (network : string) : string :=
  if decide (network = "mainnet") then SOLANA_MAINNET_GENESIS_HASH else SOLANA_DEVNET_GENESIS_HASH.

Definition genesis_unreachable (network : string) : SigilError :=
  sdk_error "SIGIL_ERROR__RPC__TX_FAILED" [("network", CStr network); ("attempts", CNum 3)].
Definition genesis_malformed (network observed : string) : SigilError :=
  sdk_error "SIGIL_ERROR__RPC__TX_FAILED" [("network", CStr network); ("observed", CStr observed)].
Definition genesis_mismatch (network expected observed : string) : SigilError :=
  sdk_error "SIGIL_ERROR__SDK__INVALID_NETWORK"
    [("network", CStr network); ("expected", CStr expected); ("observed", CStr observed)].

(** [typeof observed !== "string" || observed.length < 32] *)
Definition well_formed_hash (v : genesis_value) : option string :=
  match v with
  | GString h => if (Z.of_nat (String.length h) <? 32) then None else Some h
  | GOther _ => None
  end.
Definition genesis_text (v : genesis_value) : string :=
  match v with GString h => h | GOther t => t end.

(** The hash to compare: the cached one, or a fetched one, which is then cached. An absent
    [rpc] makes every attempt a [TypeError]. *)
Definition observe_genesis (cache : GenesisCache) (rpc : option string) (network : string)
    (answers : nat -> res SigilError genesis_value) : GenesisCache * res SigilError string :=
  match rpc ≫= (fun r => cache !! r) with
  | Some h => (cache, Ok h)
  | None =>
      let op := match rpc with
                | Some _ => answers
                | None => fun _ => Throw (sdk_error "TypeError" [])
                end in
      match (withRetry op 3 200).2 with
      | Throw _ => (cache, Throw (genesis_unreachable network))
      | Ok v =>
          match well_formed_hash v with
          | None => (cache, Throw (genesis_malformed network (genesis_text v)))
          | Some h =>
              (match rpc with Some r => <[r := h]> cache | None => cache end, Ok h)
          end
      end
  end.

Definition assertGenesisHash (cache : GenesisCache) (rpc : option string) (network : string)
    (answers : nat -> res SigilError genesis_value) : GenesisCache * res SigilError unit :=
  let o := observe_genesis cache rpc network answers in
  (o.1, observed ← o.2;
        throw_if (negb (bool_decide (observed = expected_genesis network)))
          (genesis_mismatch network (expected_genesis network) observed)).

(** ** Configuration *)
Section client.
Context {C Tx : Type} `{pda : !PdaEnv} `{lib : !TxLib Tx}.
Variable getAccountMeta : Address -> option (Address * bool) -> bool -> AccountMeta.
(** How a thrown error of the kit looks to [toSigilAgentError]. *)
Variable errors : heap.
Variable value_of : SigilError -> js_value.

(** The hooks of a client: [onError] is shown the thrown error, [onFinalize] the signature. *)
Abbreviation ClientHooks := (SealHooks (SealParams C) Tx SigilError string).

Record ErrorContext := mkErrorContext {
  ec_action : string; ec_tokenMint : Address; ec_amount : Z }.

(** [None] and [""] are the missing values the factory refuses. *)
Record SigilClientConfig := mkClientConfig {
  cc_rpc : option string;
  cc_vault : Address;
  cc_agent : option (Address * Signer Tx);
  cc_network : string;
  cc_blockhashTtlMs : option Z;
  cc_onError : option (AgentError -> ErrorContext -> effect unit);
  cc_logger : option string;
  cc_skipGenesisAssertion : bool;
  cc_hooks : option ClientHooks;
  cc_plugins : option (list (SigilPolicyPlugin Instruction));
}.

Record ClientSealOpts := mkSealOpts {
  so_tokenMint : Address;
  so_amount : Z;
  so_targetProtocol : option Address;
  so_computeUnits : option Z;
  so_priorityFeeMicroLamports : option Z;
  so_outputStablecoinAccount : option Address;
  so_protocolAltAddresses : option (list Address);
  so_addressLookupTables : option AltContents;
  so_cachedState : option (ResolvedVaultState C);
  so_maxCacheAgeMs : option Z;
  so_additionalAtaReplacements : option (jsmap Address);
  so_hooks : option ClientHooks;
  so_correlationId : option string;
}.

Definition with_opts_hooks (opts : ClientSealOpts) (hooks : option ClientHooks)
    (correlationId : option string) : ClientSealOpts :=
  mkSealOpts (so_tokenMint opts) (so_amount opts) (so_targetProtocol opts) (so_computeUnits opts)
    (so_priorityFeeMicroLamports opts) (so_outputStablecoinAccount opts)
    (so_protocolAltAddresses opts) (so_addressLookupTables opts) (so_cachedState opts)
    (so_maxCacheAgeMs opts) (so_additionalAtaReplacements opts) hooks correlationId.

(** What the returned object closes over besides the caches. *)
Record SigilClientApi := mkClient {
  cl_rpc : string;
  cl_vault : Address;
  cl_agent : Address;
  cl_signer : Signer Tx;
  cl_network : string;
  cl_onError : option (AgentError -> ErrorContext -> effect unit);
  cl_hooks : option ClientHooks;
  cl_plugins : option (list (SigilPolicyPlugin Instruction));
}.

Record ClientCaches := mkClientCaches { ccs_blockhash : BlockhashCache; ccs_alts : AltCache }.

(** Module-level state: the logger and the observed genesis hashes. *)
Record KitModule := mkKit { km_logger : option string; km_genesis : GenesisCache }.

Definition setSigilModuleLogger (logger : option string) (km : KitModule) : KitModule :=
  match logger with Some l => mkKit (Some l) (km_genesis km) | None => km end.

(** ** [createSigilClient] *)
Definition config_missing (field expected : string) : SigilError := invalid_config field expected.

Definition plugin_values (plugins : list (SigilPolicyPlugin Instruction)) : plugin_list_value :=
  PluginArray ((fun p => PluginObject (Some (plugin_name p)) true) <$> plugins).

Definition require_config {A} (o : option A) (field expected : string) : res SigilError A :=
  match o with Some x => Ok x | None => Throw (config_missing field expected) end.

Definition createSigilClient (km : KitModule) (config : SigilClientConfig)
    : KitModule * res SigilError (SigilClientApi * ClientCaches) :=
  let checked :=
    rpc ← require_config (cc_rpc config) "rpc" "Rpc<SolanaRpcApi>";
    throw_if (bool_decide (cc_vault config = "")) (config_missing "vault" "Address") ;;
    agent ← require_config (cc_agent config) "agent" "TransactionSigner";
    throw_if (bool_decide (cc_network config = ""))
      (config_missing "network" "'devnet' | 'mainnet'") ;;
    match cc_plugins config with
    | Some plugins => validatePluginList (plugin_values plugins)
    | None => Ok tt
    end ;;
    Ok (rpc, agent) in
  match checked with
  | Throw e => (km, Throw e)
  | Ok (rpc, (agent, signer)) =>
      (setSigilModuleLogger (cc_logger config) km,
       Ok (mkClient rpc (cc_vault config) agent signer (cc_network config) (cc_onError config)
             (cc_hooks config) (cc_plugins config),
           mkClientCaches (new_blockhash_cache (cc_blockhashTtlMs config))
             (new_alt_cache None None)))
  end.

(** A skipped assertion leaves a warning for the module's logger. *)
Definition createSigilClientAsync (km : KitModule) (config : SigilClientConfig)
    (answers : nat -> res SigilError genesis_value)
    : KitModule * list string * res SigilError (SigilClientApi * ClientCaches) :=
  let km := setSigilModuleLogger (cc_logger config) km in
  if cc_skipGenesisAssertion config then
    (let r := createSigilClient km config in
     (r.1, ["[createSigilClientAsync] skipGenesisAssertion=true"], r.2))
  else
    let a := assertGenesisHash (km_genesis km) (cc_rpc config) (cc_network config) answers in
    let km := mkKit (km_logger km) a.1 in
    match a.2 with
    | Throw e => (km, [], Throw e)
    | Ok _ => let r := createSigilClient km config in (r.1, [], r.2)
    end.

Definition invalidateCaches (cs : ClientCaches) : ClientCaches :=
  mkClientCaches (RpcHelpers.invalidate (ccs_blockhash cs)) (AltLoader.invalidate (ccs_alts cs)).

(** ** [clientSeal] *)
Record ClientWorld := mkClientWorld {
  w_bhNow : Z;                                  (* [BlockhashCache.get] *)
  w_bhAnswer : res SigilError Blockhash;
  w_bhFetched : Z;
  w_tableNow : Z;                               (* the two resolutions of lookup tables *)
  w_tableFetch : AltFetch;
  w_tableRetryNow : Z;
  w_tableRetryFetch : AltFetch;
  w_seal : SealWorld C;
  w_sharedAlts : AltCache;                      (* the module's cache, which [seal] is passed *)
  w_correlationId : string;
  w_send : string -> res SigilError string;
  w_confirm : ConfirmEnv;
}.

Implicit Types (cl : SigilClientApi) (cs : ClientCaches) (w : ClientWorld) (opts : ClientSealOpts).

Definition client_alt_addresses cl opts : res SigilError (list Address) :=
  sigilAlt ← getSigilAltAddress (normalizeNetwork (cl_network cl));
  Ok (mergeAltAddresses sigilAlt (so_protocolAltAddresses opts)).

(** [altPromise]; a throw here precedes every await. *)
Definition first_tables cl cs w opts : res SigilError (AltCache * AltContents) :=
  match so_addressLookupTables opts with
  | Some tables => Ok (ccs_alts cs, tables)
  | None =>
      allAlts ← client_alt_addresses cl opts;
      Ok (resolve (ccs_alts cs) (w_tableFetch w) (w_tableNow w) allAlts)
  end.

(** Verify, and on a mismatch empty the cache, resolve once more and verify that. *)
Definition verified_tables cl w opts (cache : AltCache) (tables : AltContents)
    : AltCache * res SigilError AltContents :=
  match so_addressLookupTables opts with
  | Some _ => (cache, Ok tables)
  | None =>
      let net := normalizeNetwork (cl_network cl) in
      match getSigilAltAddress net with
      | Throw e => (cache, Throw e)
      | Ok sigilAlt =>
          let expected := getExpectedAltContents net in
          match verifySigilAlt tables sigilAlt expected with
          | Ok _ => (cache, Ok tables)
          | Throw _ =>
              let again := resolve (AltLoader.invalidate cache) (w_tableRetryFetch w)
                (w_tableRetryNow w) (mergeAltAddresses sigilAlt (so_protocolAltAddresses opts)) in
              (again.1, verifySigilAlt again.2 sigilAlt expected ;; Ok again.2)
          end
      end
  end.

(** The parameters handed to [seal]; the plugins are the client's, never the caller's. *)
Definition seal_params cl (plugins : option (list (SigilPolicyPlugin Instruction))) opts
    (instructions : list Instruction) (blockhash : Blockhash) (tables : AltContents)
    : SealParams C :=
  {| sp_vault := cl_vault cl; sp_agent := cl_agent cl; sp_instructions := instructions;
     sp_network := cl_network cl; sp_tokenMint := so_tokenMint opts; sp_amount := so_amount opts;
     sp_targetProtocol := so_targetProtocol opts; sp_computeUnits := so_computeUnits opts;
     sp_priorityFeeMicroLamports := so_priorityFeeMicroLamports opts;
     sp_outputStablecoinAccount := so_outputStablecoinAccount opts;
     sp_blockhash := Some blockhash;
     sp_protocolAltAddresses := so_protocolAltAddresses opts;
     sp_addressLookupTables := Some tables;
     sp_cachedState := so_cachedState opts; sp_maxCacheAgeMs := so_maxCacheAgeMs opts;
     sp_additionalAtaReplacements := so_additionalAtaReplacements opts;
     sp_correlationId := so_correlationId opts; sp_plugins := plugins |}.

Record ClientSealRun := mkClientSeal {
  cs_caches : ClientCaches;
  cs_events : list string;
  cs_result : res SigilError (SealResult Tx);
}.

(** Shared by the closure and the class, which differ in the plugins they pass. *)
Definition seal_from_caches cl plugins cs w (instructions : list Instruction) opts : ClientSealRun :=
  match first_tables cl cs w opts with
  | Throw e => mkClientSeal cs [] (Throw e)
  | Ok first =>
      let bh := blockhash_get (ccs_blockhash cs) (w_bhNow w) (w_bhAnswer w) (w_bhFetched w) in
      match bh.1 with
      | Throw e => mkClientSeal (mkClientCaches bh.2 first.1) [] (Throw e)
      | Ok blockhash =>
          let verified := verified_tables cl w opts first.1 first.2 in
          let cs' := mkClientCaches bh.2 verified.1 in
          match verified.2 with
          | Throw e => mkClientSeal cs' [] (Throw e)
          | Ok tables =>
              let run := seal getAccountMeta (w_seal w) (w_sharedAlts w) (so_hooks opts)
                           (seal_params cl plugins opts instructions blockhash tables) in
              mkClientSeal cs' (run_events run) (run_result run)
          end
      end
  end.

Definition clientSeal cl cs w instructions opts : ClientSealRun :=
  seal_from_caches cl (cl_plugins cl) cs w instructions opts.

(** ** [executeAndConfirm]

    The trace records what the hooks and callbacks leave behind and every transaction
    handed to the RPC node. *)
Inductive client_event :=
  | EvHook (event : string)
  | EvSend (wire : string).

Inductive exec_outcome :=
  | ExecDone (signature : string) (result : SealResult Tx)
  | ExecThrew (e : AgentError)
  | ExecCallbackThrew (message : string).

Record ClientRun := mkClientRun {
  xr_caches : ClientCaches;
  xr_trace : list client_event;
  xr_outcome : exec_outcome;
}.

Definition callback_context opts : ErrorContext :=
  mkErrorContext (if so_amount opts >? 0 then "spending" else "non-spending")
    (so_tokenMint opts) (so_amount opts).

(** [onErrorCallback?.(sdkError, ...); throw sdkError]: a throwing callback ends the [catch]
    block with its own error. *)
Definition report_error (onError : option (AgentError -> ErrorContext -> effect unit)) opts
    (err : SigilError) : list client_event * exec_outcome :=
  let sdkError := toSigilAgentError errors (value_of err) in
  match onError with
  | None => ([], ExecThrew sdkError)
  | Some callback =>
      match callback sdkError (callback_context opts) with
      | (l, Returned _) => (EvHook <$> l, ExecThrew sdkError)
      | (l, Threw message) => (EvHook <$> l, ExecCallbackThrew message)
      end
  end.

(** The [catch] block. *)
Definition on_failure cl (hooks : option ClientHooks) (ctx : SealHookContext) opts (err : SigilError)
    : list client_event * exec_outcome :=
  let h := invokeHook hooks h_onError ctx err in
  let r := report_error (cl_onError cl) opts err in
  ((EvHook <$> h.1) ++ r.1, r.2).

Definition exec_context cl opts (correlationId : string) : SealHookContext :=
  mkHookContext (cl_vault cl) (cl_agent cl) (so_tokenMint opts) (so_amount opts) (cl_network cl)
    correlationId.

(** [None]: out of fuel while waiting for the confirmation. *)
Definition executeAndConfirm cl cs w (instructions : list Instruction) opts
    (confirmOptions : SendAndConfirmOptions) (fuel : nat) : option ClientRun :=
  let composedHooks := composeHooks (cl_hooks cl) (so_hooks opts) in
  let correlationId := default (w_correlationId w) (so_correlationId opts) in
  let hookCtx := exec_context cl opts correlationId in
  let sealed := clientSeal cl cs w instructions
                  (with_opts_hooks opts composedHooks (Some correlationId)) in
  let finish (pre : list client_event) (r : list client_event * exec_outcome) :=
    mkClientRun (cs_caches sealed) ((EvHook <$> cs_events sealed) ++ pre ++ r.1) r.2 in
  let failed pre err := finish pre (on_failure cl composedHooks hookCtx opts err) in
  match cs_result sealed with
  | Throw err => Some (failed [] err)
  | Ok result =>
      match signAndEncode (cl_signer cl) (sr_transaction result) with
      | Throw err => Some (failed [] err)
      | Ok encoded =>
          (fun answer =>
             match answer with
             | Throw err => failed [EvSend encoded] err
             | Ok signature =>
                 let sent := invokeHook composedHooks h_onAfterSend hookCtx signature in
                 let final := invokeHook composedHooks h_onFinalize hookCtx signature in
                 finish [EvSend encoded]
                   ((EvHook <$> sent.1) ++ (EvHook <$> final.1), ExecDone signature result)
             end)
          <$> sendAndConfirmTransaction confirmOptions (w_send w encoded) (w_confirm w) fuel
      end
  end.

(** ** The deprecated class: no plugins, no client-level hooks, no hooks of its own *)
Definition SigilClient_seal cl cs w instructions opts : ClientSealRun :=
  seal_from_caches cl None cs w instructions opts.

Definition SigilClient_create (km : KitModule) (config : SigilClientConfig)
    (answers : nat -> res SigilError genesis_value)
    : KitModule * list string * res SigilError (SigilClientApi * ClientCaches) :=
  let km := setSigilModuleLogger (cc_logger config) km in
  let construct (km : KitModule) :=
    (* the class reads neither [plugins] nor [hooks] *)
    createSigilClient km
      (mkClientConfig (cc_rpc config) (cc_vault config) (cc_agent config) (cc_network config)
         (cc_blockhashTtlMs config) (cc_onError config) (cc_logger config)
         (cc_skipGenesisAssertion config) None None) in
  if cc_skipGenesisAssertion config then
    (let r := construct km in (r.1, ["[SigilClient.create] skipGenesisAssertion=true"], r.2))
  else
    let a := assertGenesisHash (km_genesis km) (cc_rpc config) (cc_network config) answers in
    let km := mkKit (km_logger km) a.1 in
    match a.2 with
    | Throw e => (km, [], Throw e)
    | Ok _ => let r := construct km in (r.1, [], r.2)
    end.

Definition SigilClient_executeAndConfirm cl cs w (instructions : list Instruction) opts
    (confirmOptions : SendAndConfirmOptions) (fuel : nat) : option ClientRun :=
  let sealed := SigilClient_seal cl cs w instructions opts in
  let finish (pre : list client_event) (r : list client_event * exec_outcome) :=
    mkClientRun (cs_caches sealed) ((EvHook <$> cs_events sealed) ++ pre ++ r.1) r.2 in
  let failed pre err := finish pre (report_error (cl_onError cl) opts err) in
  match cs_result sealed with
  | Throw err => Some (failed [] err)
  | Ok result =>
      match signAndEncode (cl_signer cl) (sr_transaction result) with
      | Throw err => Some (failed [] err)
      | Ok encoded =>
          (fun answer =>
             match answer with
             | Throw err => failed [EvSend encoded] err
             | Ok signature => finish [EvSend encoded] ([], ExecDone signature result)
             end)
          <$> sendAndConfirmTransaction confirmOptions (w_send w encoded) (w_confirm w) fuel
      end
  end.
End client.

Arguments SigilClientConfig : clear implicits. Arguments ClientSealOpts : clear implicits.
Arguments SigilClientApi : clear implicits. Arguments ClientWorld : clear implicits.
Arguments ClientSealRun : clear implicits. Arguments ClientRun : clear implicits.
Arguments exec_outcome : clear implicits.
