(* ===== verification/Facade.v ===== *)
(** * The facade ([sdk/kit/src/sigil.ts], [vault-handle.ts])

    [Sigil.quickstart] and [Sigil.fromVault], and the [SigilVault] handle they return. The handle wraps the client of [Client] and, when
    it has an owner, the mutations of [Mutations]. *)

From S2P Require Import Prelude Types Accounts JsText StateResolver ErrorTables AgentErrors Hooks AltLoader Pdas Composer Seal RpcHelpers Executor Codecs Instructions CreateVault Mutations Formatting Client.
Local Open Scope string_scope.
Local Open Scope Z_scope.
Local Open Scope list_scope.

(** ** [SigilVault] *)
Section vault.
Context {C Tx : Type} `{pda : !PdaEnv} `{clib : !ClientLib} `{lib : !TxLib Tx}.
Variable getAccountMeta : Address -> option (Address * bool) -> bool -> AccountMeta.
Variable errors : heap.
Variable value_of : SigilError -> js_value.

(** An [OwnerClient] is the vault and the owner it was made for. *)
Record SigilVaultInternalState := mkVaultState {
  sv_rpc : string;
  sv_vault : Address;
  sv_agent : Address;
  sv_owner : option Address;
  sv_network : string;
  sv_client : SigilClientApi C Tx;
  sv_ownerClient : option Address;
  sv_hooks : option (SealHooks (SealParams C) Tx SigilError string);
  sv_plugins : option (list (SigilPolicyPlugin Instruction));
}.
Implicit Types (state : SigilVaultInternalState).

Definition owner_required (method : string) (vault : Address) : SigilError :=
  sdk_error "SIGIL_ERROR__SDK__OWNER_REQUIRED" [("method", CStr method); ("vault", CStr vault)].

Definition requireOwnerClient state (method : string) : res SigilError Address :=
  match sv_ownerClient state with
  | Some owner => Ok owner
  | None => Throw (owner_required method (sv_vault state))
  end.

(** What an owner-gated method throws: the gate's error or the mutation's. *)
Inductive handle_error :=
  | NoOwner (e : SigilError)
  | Mutation (e : mut_error).

Definition owner_gated state (method : string)
    (k : Address -> option (res mut_error string)) : option (res handle_error string) :=
  match requireOwnerClient state method with
  | Throw e => Some (Throw (NoOwner e))
  | Ok owner =>
      (fun r => match r with Ok s => Ok s | Throw e => Throw (Mutation e) end) <$> k owner
  end.

Definition freeze state (w : RunWorld) (opts : TxOpts) : option (res handle_error string) :=
  owner_gated state "freeze" (fun owner => send w owner (freezeVault owner (sv_vault state)) opts).

Definition fund state (w : RunWorld) (mint : Address) (amount : Z) (opts : TxOpts)
    : option (res handle_error string) :=
  owner_gated state "fund" (fun owner => send w owner (deposit owner (sv_vault state) mint amount) opts).

(** [execute]: the handle's hooks are composed with the call's, and the client composes its
    own with the outcome. *)
Definition execute state (cs : ClientCaches) (w : ClientWorld C) (instructions : list Instruction)
    (opts : ClientSealOpts C Tx) (confirmOptions : SendAndConfirmOptions) (fuel : nat)
    : option (ClientRun Tx) :=
  let composedHooks := composeHooks (sv_hooks state) (so_hooks opts) in
  executeAndConfirm getAccountMeta errors value_of (sv_client state) cs w instructions
    (with_opts_hooks opts composedHooks (so_correlationId opts)) confirmOptions fuel.

(** ** [buildInternalState] *)
Record HandleArgs := mkHandleArgs {
  ha_config : SigilClientConfig C Tx;
  ha_owner : option Address;
}.

Definition buildInternalState (km : KitModule) (args : HandleArgs)
    (answers : nat -> res SigilError genesis_value)
    : KitModule * list string * res SigilError (SigilVaultInternalState * ClientCaches) :=
  let config := ha_config args in
  match (match cc_plugins config with
         | Some plugins => validatePluginList (plugin_values plugins)
         | None => Ok tt
         end) with
  | Throw e => (km, [], Throw e)
  | Ok _ =>
      let '(km', warnings, r) := createSigilClientAsync km config answers in
      (km', warnings,
       client ← r;
       Ok (mkVaultState (cl_rpc client.1) (cc_vault config) (cl_agent client.1) (ha_owner args)
             (cc_network config) client.1 (ha_owner args) (cc_hooks config) (cc_plugins config),
           client.2))
  end.

Definition fromVault (km : KitModule) (args : HandleArgs)
    (answers : nat -> res SigilError genesis_value)
    : KitModule * list string * res SigilError (SigilVaultInternalState * ClientCaches) :=
  buildInternalState km args answers.

(** ** [quickstart] *)
Record SigilQuickstartOptions := mkQuickstart {
  qs_create : CreateVaultOptions;
  qs_computeUnits : option Z;
  qs_priorityFee : option Z;
  qs_confirmOptions : SendAndConfirmOptions;
  qs_ownerSigner : Signer Tx;
  qs_agentSigner : Signer Tx;
  qs_rpc : string;
  qs_network : string;
  qs_initialFundingUsd : option Z;
  qs_fundingMint : option Address;
  qs_logger : option string;
  qs_hooks : option (SealHooks (SealParams C) Tx SigilError string);
  qs_plugins : option (list (SigilPolicyPlugin Instruction));
  qs_skipGenesisAssertion : bool;
}.

(** What the network, the owner's signer and the clock answer during the call. *)
Record QuickWorld := mkQuickWorld {
  qw_caches : OwnerCaches;
  qw_owner : OwnerWorld;
  qw_nextId : res SigilError Z;
  qw_send : string -> res SigilError string;
  qw_confirm : ConfirmEnv;
  qw_fuel : nat;
  qw_genesis : nat -> res SigilError genesis_value;
  qw_fund : RunWorld (Tx := Tx);
}.

Inductive FundedOutcome :=
  | Funded (signature : string) (amountDepositedUsd : Z)
  | NotFunded (reason : string) (error : option handle_error).

Record SigilQuickstartResult := mkQuickResult {
  qr_vault : SigilVaultInternalState;
  qr_funded : FundedOutcome;
  qr_createVault : string;
  qr_fund : option string;
}.

Definition quickstart_args (opts : SigilQuickstartOptions) (vault : Address) : HandleArgs :=
  mkHandleArgs
    (mkClientConfig (Some (qs_rpc opts)) vault (Some (cv_agent (qs_create opts), qs_agentSigner opts))
       (qs_network opts) None None (qs_logger opts) (qs_skipGenesisAssertion opts) (qs_hooks opts)
       (qs_plugins opts))
    (Some (cv_owner (qs_create opts))).

(** Step 1: the vault is created on chain before anything about the handle is checked. *)
Definition quickstart_create (opts : SigilQuickstartOptions) (w : QuickWorld)
    : option (res SigilError (CreateVaultResult * string)) :=
  createAndSendVault (qw_caches w) (qw_owner w) (qw_nextId w) (qs_rpc opts) (qs_network opts)
    (qs_create opts) (qs_computeUnits opts) (qs_priorityFee opts) (qs_ownerSigner opts) (qw_send w)
    (qs_confirmOptions opts) (qw_confirm w) (qw_fuel w).

(** Step 3: the optional deposit; whatever it throws becomes an outcome. *)
Definition quickstart_fund (opts : SigilQuickstartOptions) (w : QuickWorld)
    (vault : SigilVaultInternalState) (signature : string) : option SigilQuickstartResult :=
  let amount := default 0 (qs_initialFundingUsd opts) in
  if amount =? 0 then Some (mkQuickResult vault (NotFunded "skipped" None) signature None)
  else
    let fundingMint := default (if decide (qs_network opts = "mainnet") then USDC_MINT_MAINNET
                                else USDC_MINT_DEVNET) (qs_fundingMint opts) in
    (fun r =>
       match r with
       | Ok fundSignature =>
           mkQuickResult vault (Funded fundSignature amount) signature (Some fundSignature)
       | Throw err => mkQuickResult vault (NotFunded "rpc-failure" (Some err)) signature None
       end)
    <$> fund vault (qw_fund w) fundingMint amount no_opts.

Definition quickstart (km : KitModule) (opts : SigilQuickstartOptions) (w : QuickWorld)
    : option (res SigilError SigilQuickstartResult) :=
  created ← quickstart_create opts w;
  match created with
  | Throw e => Some (Throw e)
  | Ok (createResult, signature) =>
      match (buildInternalState km (quickstart_args opts (cr_vaultAddress createResult))
               (qw_genesis w)).2 with
      | Throw e => Some (Throw e)
      | Ok (vault, _) => Ok <$> quickstart_fund opts w vault signature
      end
  end.
End vault.
