(* ===== verification/Bootstrap.v ===== *)
(** * The handoff prompt ([sdk/kit/src/agent-bootstrap.ts])

    The template, the values substituted in it and the single-pass substitution. *)

From S2P Require Import Prelude Types Accounts JsText Formatting.
Local Open Scope string_scope.
Local Open Scope Z_scope.
Local Open Scope list_scope.

Definition HANDOFF_PROMPT_TEMPLATE : string := "You are an autonomous agent operating a Sigil vault on ${network}.

Your wallet: ${agentAddress}
The vault you control: ${vaultAddress}
Your owner's wallet (read-only reference): ${ownerAddress}

Daily spending limit: ${dailyLimitUsd}
Approved protocols: ${protocolNames}
Permissions: ${capabilityNames}

Use the Sigil MCP tool `seal_transaction` to execute any on-chain action.
The vault will reject any tx that exceeds the rules above — this is by design.

If you need help, use `request_help` to surface a question to your owner.".

Definition getHandoffPromptTemplate : string := HANDOFF_PROMPT_TEMPLATE.

Definition capabilityTierToNames (tier : Z) : list string :=
  if tier =? 1 then ["NonSpending"] else if tier =? 2 then ["Spending"; "NonSpending"] else [].

Record AgentBootstrapConfig := mkBootstrapConfig {
  ab_vaultAddress : string;
  ab_agentAddress : string;
  ab_ownerAddress : string;
  ab_network : Network;
  ab_dailyLimitUsd : Z;
  ab_approvedProtocols : list string;
  ab_capabilityTier : Z;
}.

Record AgentBootstrap := mkBootstrap {
  ab_agentWallet : string;
  ab_vaultPubkey : string;
  ab_onboardingPrompt : string;
  ab_capabilities : list string;
}.

(** ** The limit *)
Definition ZERO_CHAR : Ascii.ascii := Ascii.ascii_of_nat 48.

(** [.replace(/0+$/, "")] *)
Fixpoint trim_zeros (s : chars) : chars :=
  match s with
  | [] => []
  | c :: s' =>
      match trim_zeros s' with
      | [] => if bool_decide (c = ZERO_CHAR) then [] else [c]
      | t => c :: t
      end
  end.

Definition formatDailyLimitUsd (amount : Z) : res SigilError string :=
  throw_if (amount <? 0) (sdk_error "RangeError" [("dailyLimitUsd", CStr (pretty amount))]) ;;
  let dollars := Z.quot amount 1000000 in
  let fractional := Z.rem amount 1000000 in
  if fractional =? 0 then Ok ("$" +:+ pretty dollars)
  else
    let fracStr := trim_zeros (padStart (String.list_ascii_of_string (pretty fractional)) 6) in
    Ok ("$" +:+ pretty dollars +:+ "." +:+ String.string_of_list_ascii fracStr).

(** ** [String.prototype.replace(/\$\{(\w+)\}/g, callback)]

    The matches are found in the template; the callback answers each. *)
Inductive piece :=
  | Literal (text : chars)
  | Slot (name : chars).

Definition DOLLAR : Ascii.ascii := Ascii.ascii_of_nat 36.
Definition LBRACE : Ascii.ascii := Ascii.ascii_of_nat 123.
Definition RBRACE : Ascii.ascii := Ascii.ascii_of_nat 125.

(** A match of the expression at the head of [s]: the name and what follows. *)
Definition match_slot (s : chars) : option (chars * chars) :=
  match s with
  | c1 :: c2 :: rest =>
      if bool_decide (c1 = DOLLAR) && bool_decide (c2 = LBRACE) then
        match span is_word rest with
        | (c :: name, c3 :: rest') =>
            if bool_decide (c3 = RBRACE) then Some (c :: name, rest') else None
        | _ => None
        end
      else None
  | _ => None
  end.

Fixpoint pieces_from (fuel : nat) (s : chars) : list piece :=
  match fuel, s with
  | O, _ => [Literal s]
  | _, [] => []
  | S fuel', c :: s' =>
      match match_slot s with
      | Some (name, rest) => Slot name :: pieces_from fuel' rest
      | None => Literal [c] :: pieces_from fuel' s'
      end
  end.

(** Each round consumes a character. *)
Definition pieces (s : chars) : list piece := pieces_from (length s) s.

Definition slot_text (name : chars) : chars := DOLLAR :: LBRACE :: name ++ [RBRACE].

(** The callback: an own property of [subs], or the match itself. *)
Definition piece_text (subs : jsmap string) (p : piece) : chars :=
  match p with
  | Literal t => t
  | Slot name =>
      match jm_get (String.string_of_list_ascii name) subs with
      | Some value => String.list_ascii_of_string value
      | None => slot_text name
      end
  end.

Definition substitute (template : string) (subs : jsmap string) : string :=
  String.string_of_list_ascii
    (concat (piece_text subs <$> pieces (String.list_ascii_of_string template))).

(** ** [composeAgentBootstrap] *)
Fixpoint join (sep : string) (l : list string) : string :=
  match l with
  | [] => ""
  | [s] => s
  | s :: l' => s +:+ sep +:+ join sep l'
  end.

Definition composeAgentBootstrap (config : AgentBootstrapConfig) : res SigilError AgentBootstrap :=
  let capabilities := capabilityTierToNames (ab_capabilityTier config) in
  dailyLimitUsd ← formatDailyLimitUsd (ab_dailyLimitUsd config);
  let protocolNames := join ", " (ab_approvedProtocols config) in
  let capabilityNames := join ", " capabilities in
  let subs : jsmap string :=
    [("network", ab_network config); ("agentAddress", ab_agentAddress config);
     ("vaultAddress", ab_vaultAddress config); ("ownerAddress", ab_ownerAddress config);
     ("dailyLimitUsd", dailyLimitUsd); ("protocolNames", protocolNames);
     ("capabilityNames", capabilityNames)] in
  Ok (mkBootstrap (ab_agentAddress config) (ab_vaultAddress config)
        (substitute HANDOFF_PROMPT_TEMPLATE subs) capabilities).

(** ** Lemmas: the limit *)
Lemma trim_zeros_spec s :
  exists n, s = trim_zeros s ++ replicate n ZERO_CHAR /\ last (trim_zeros s) <> Some ZERO_CHAR.
Proof.
  induction s as [|c s (n & Hs & Hl)]; [by exists 0%nat|]. cbn [trim_zeros].
  destruct (trim_zeros s) as [|d t].
  - case_bool_decide as Hc; [|exists n; split; [by rewrite Hs at 1|by intros [= ?]]].
    exists (S n). subst c. cbn in *. split; [by rewrite Hs at 1|done].
  - exists n. split; [by rewrite Hs at 1|]. by rewrite last_cons_cons.
Qed.

(** What is printed after the point: at most six digits, the last one not zero, of the value
    of the fraction. *)
Lemma fraction_spec f : 0 < f < 1000000 ->
  let ds := trim_zeros (padStart (String.list_ascii_of_string (pretty f)) 6) in
  Forall (fun c => is_digit c = true) ds /\ (0 < length ds <= 6)%nat /\ last ds <> Some ZERO_CHAR /\
  digits_of ds * 10 ^ (6 - Z.of_nat (length ds)) = f.
Proof.
  intros Hf. cbv zeta.
  destruct (fraction_digits_spec f 6 6 ltac:(lia) ltac:(lia)) as (Hl & Hd & Hv); [lia|].
  unfold fraction_digits in *. change (Z.of_nat 6) with 6 in *.
  set (p := padStart _ 6) in *.
  assert (Hp : length p = 6%nat).
  { unfold p, padStart. rewrite length_app, length_replicate.
    pose proof (pretty_length f 6 ltac:(lia) ltac:(lia)). lia. }
  rewrite firstn_all2 in Hl, Hd, Hv by lia. clear Hl.
  destruct (trim_zeros_spec p) as (n & Hs & Hlast). set (ds := trim_zeros p) in *.
  rewrite Hs in Hd, Hp, Hv. apply Forall_app in Hd as [Hd _].
  rewrite length_app, length_replicate in Hp. rewrite digits_of_app, digits_of_zeros, length_replicate in Hv.
  change (6 - 6)%nat with 0%nat in Hv. change (10 ^ Z.of_nat 0) with 1 in Hv. rewrite Z.div_1_r in Hv.
  replace (6 - Z.of_nat (length ds)) with (Z.of_nat n) by lia.
  split_and!; [done| |lia|done|unfold digits_of in *; lia].
  destruct ds; [cbn in Hv; lia|cbn; lia].
Qed.

Lemma formatDailyLimitUsd_spec amount :
  match formatDailyLimitUsd amount with
  | Throw _ => amount < 0
  | Ok s => 0 <= amount /\
      if amount mod 1000000 =? 0 then s = "$" +:+ pretty (amount / 1000000)
      else exists ds, s = "$" +:+ pretty (amount / 1000000) +:+ "." +:+ String.string_of_list_ascii ds /\
        Forall (fun c => is_digit c = true) ds /\ (0 < length ds <= 6)%nat /\
        last ds <> Some ZERO_CHAR /\
        digits_of ds * 10 ^ (6 - Z.of_nat (length ds)) = amount mod 1000000
  end.
Proof.
  unfold formatDailyLimitUsd, throw_if. destruct (Z.ltb_spec amount 0) as [Hn|Hn]; [done|].
  cbn [mbind res_bind]. rewrite Z.quot_div_nonneg, Z.rem_mod_nonneg by lia.
  destruct (Z.eqb_spec (amount mod 1000000) 0) as [H0|H0]; [done|]. split; [done|].
  pose proof (Z.mod_pos_bound amount 1000000 ltac:(lia)).
  destruct (fraction_spec (amount mod 1000000)) as (H1 & H2 & H3 & H4); [lia|].
  eexists. split; [reflexivity|]. split; [exact H1|]. split; [exact H2|]. split; [exact H3|exact H4].
Qed.

(** ** Lemmas: the substitution *)
Lemma string_of_chars_app l1 l2 :
  String.string_of_list_ascii (l1 ++ l2)
  = String.string_of_list_ascii l1 +:+ String.string_of_list_ascii l2.
Proof. induction l1 as [|c l1 IH]; cbn; [done|by rewrite IH]. Qed.

(** The text of a list of pieces, as a string. *)
Fixpoint pieces_string (subs : jsmap string) (ps : list piece) : string :=
  match ps with
  | [] => ""
  | Literal t :: ps' => String.string_of_list_ascii t +:+ pieces_string subs ps'
  | Slot name :: ps' =>
      match jm_get (String.string_of_list_ascii name) subs with
      | Some value => value
      | None => String.string_of_list_ascii (slot_text name)
      end +:+ pieces_string subs ps'
  end.

Lemma substitute_pieces template subs :
  substitute template subs = pieces_string subs (pieces (String.list_ascii_of_string template)).
Proof.
  unfold substitute. induction (pieces _) as [|[t|name] ps IH]; [done|..];
    cbn [fmap list_fmap concat piece_text pieces_string]; rewrite string_of_chars_app, IH; [done|].
  f_equal. destruct (jm_get _ subs); [apply String.string_of_list_ascii_of_string|done].
Qed.

Lemma span_split (p : Ascii.ascii -> bool) s a b : span p s = (a, b) -> s = a ++ b.
Proof.
  revert a. induction s as [|c s IH]; intros a; cbn; [by intros [= <- <-]|].
  destruct (p c); [|by intros [= <- <-]].
  destruct (span p s) as [a' b'] eqn:Hs. intros [= <- <-]. cbn. f_equal. by apply IH.
Qed.

(** The pieces are those of the template: joined, with the names put back, they are it. *)
Lemma match_slot_some s name rest :
  match_slot s = Some (name, rest) -> s = slot_text name ++ rest.
Proof.
  destruct s as [|c1 [|c2 s]]; [done..|]. cbn [match_slot].
  repeat case_bool_decide; cbn; try done. subst.
  destruct (span is_word s) as [ds t] eqn:Hsp.
  destruct ds as [|d ds]; [done|]. destruct t as [|c3 t]; [done|]. case_bool_decide; [|done].
  intros [= <- <-]. subst. unfold slot_text. cbn. do 2 f_equal.
  by rewrite (span_split _ _ _ _ Hsp), <- app_assoc.
Qed.

Lemma pieces_from_spec fuel s :
  concat ((fun p => match p with Literal t => t | Slot name => slot_text name end)
          <$> pieces_from fuel s) = s.
Proof.
  revert s. induction fuel as [|fuel IH]; intros s; [cbn; by rewrite app_nil_r|].
  destruct s as [|c s]; [done|]. cbn [pieces_from].
  destruct (match_slot (c :: s)) as [[name rest]|] eqn:Hm; cbn [fmap list_fmap concat]; rewrite IH.
  - symmetry. by apply match_slot_some.
  - done.
Qed.

(** ** The prompt *)
(** the handoff prompt holds every value of the configuration verbatim in its own slot
    and nowhere else, whatever characters the values contain: dollar signs, braces or whole
    placeholders in a protocol name are never read again. The limit printed is exact: a
    dollar amount and at most six digits, with no trailing zero, and a negative limit is the
    one input refused. *)
Theorem prompt_fills_slots_literally config :
  match composeAgentBootstrap config with
  | Throw _ => ab_dailyLimitUsd config < 0
  | Ok b =>
      exists limit, formatDailyLimitUsd (ab_dailyLimitUsd config) = Ok limit /\
      0 <= ab_dailyLimitUsd config /\
      (exists ds : chars,
        (let dollars := pretty (ab_dailyLimitUsd config / 1000000) in
         limit = "$" +:+ (if bool_decide (ds = []) then dollars
                          else dollars +:+ "." +:+ String.string_of_list_ascii ds)) /\
        Forall (fun c => is_digit c = true) ds /\ (length ds <= 6)%nat /\
        last ds <> Some ZERO_CHAR /\
        digits_of ds * 10 ^ (6 - Z.of_nat (length ds)) = ab_dailyLimitUsd config mod 1000000) /\
      ab_onboardingPrompt b =
        "You are an autonomous agent operating a Sigil vault on " +:+ ab_network config +:+ ".

Your wallet: " +:+ ab_agentAddress config +:+ "
The vault you control: " +:+ ab_vaultAddress config +:+ "
Your owner's wallet (read-only reference): " +:+ ab_ownerAddress config +:+ "

Daily spending limit: " +:+ limit +:+ "
Approved protocols: " +:+ join ", " (ab_approvedProtocols config) +:+ "
Permissions: " +:+ join ", " (capabilityTierToNames (ab_capabilityTier config)) +:+ "

Use the Sigil MCP tool `seal_transaction` to execute any on-chain action.
The vault will reject any tx that exceeds the rules above — this is by design.

If you need help, use `request_help` to surface a question to your owner."
  end.
Proof.
  pose proof (formatDailyLimitUsd_spec (ab_dailyLimitUsd config)) as Hf.
  unfold composeAgentBootstrap.
  destruct (formatDailyLimitUsd _) as [limit|e]; cbn [mbind res_bind]; [|done].
  exists limit. destruct Hf as [H0 Hl]. split; [done|]. split; [done|]. split.
  - destruct (Z.eqb_spec (ab_dailyLimitUsd config mod 1000000) 0) as [Hz|Hz].
    + exists []. split; [exact Hl|]. rewrite Hz. split_and!; [constructor|cbn; lia|done|done].
    + destruct Hl as (ds & -> & H1 & H2 & H3 & H4). exists ds.
      cbv zeta. rewrite bool_decide_false by (intros ->; cbn in H2; lia). split_and!; [done|done|lia|done|done].
  - cbn [ab_onboardingPrompt]. rewrite substitute_pieces.
    set (ps := pieces _). vm_compute in ps. subst ps. reflexivity.
Qed.
