(* ===== verification/ClientSpec.v ===== *)
(** * What the client and the facade guarantee

    The genesis assertion over sequences of client creations, what a call of
    [executeAndConfirm] sends and when, what becomes of a vault that [quickstart] created,
    and how often the hooks of a handle run. *)

From Stdlib Require Import QArith.
From S2P Require Import Prelude JsText Types Accounts Bytes OnChain StateResolver ErrorTables AgentErrors Policies Shield Hooks AltLoader Pdas Composer Seal ChainAuth SealSpec RpcHelpers Executor ExecutorSpec Codecs Instructions InstructionSpec OwnerSpec CreateVault CreateVaultSpec Mutations Client Facade.
Local Open Scope string_scope.
Local Open Scope Z_scope.
Local Open Scope list_scope.

(** ** The genesis assertion *)
Section genesis.
Implicit Types (cache : GenesisCache) (answers : nat -> res SigilError genesis_value).

(** The first answer of three attempts that did not fail. *)
Lemma withRetry_three {T} (op : nat -> res SigilError T) base :
  (withRetry op 3 base).2 =
  match op 0%nat with
  | Ok x => Ok x
  | Throw _ => match op 1%nat with
               | Ok x => Ok x
               | Throw _ => op 2%nat
               end
  end.
Proof.
  unfold withRetry. cbn [attempt_loop]. destruct (op 0%nat); [done|].
  rewrite bool_decide_false by done. cbn [snd]. destruct (op 1%nat); [done|].
  rewrite bool_decide_false by done. cbn [snd]. by destruct (op 2%nat).
Qed.

Lemma assert_ok_inv cache rpc network answers cache' :
  assertGenesisHash cache rpc network answers = (cache', Ok tt) ->
  exists r, rpc = Some r /\ cache' !! r = Some (expected_genesis network) /\
    (cache' = cache \/ cache !! r = None /\ cache' = <[r := expected_genesis network]> cache).
Proof.
  unfold assertGenesisHash, observe_genesis. destruct rpc as [r|]; cbn [mbind option_bind].
  - intros H. exists r. split; [done|]. destruct (cache !! r) as [h|] eqn:Hc.
    + cbn in H. injection H as <- Ht. apply throw_if_ok_inv, negb_false_iff, bool_decide_eq_true in Ht.
      subst. auto.
    + destruct (withRetry answers 3 200).2 as [v|e]; [|done].
      destruct (well_formed_hash v) as [h|]; [|done].
      cbn in H. injection H as <- Ht. apply throw_if_ok_inv, negb_false_iff, bool_decide_eq_true in Ht.
      subst. rewrite lookup_insert_eq. auto.
  - rewrite withRetry_three. done.
Qed.

(** A hash once observed is never replaced. *)
Lemma assert_keeps cache rpc network answers r h :
  cache !! r = Some h -> (assertGenesisHash cache rpc network answers).1 !! r = Some h.
Proof.
  intros Hr. unfold assertGenesisHash, observe_genesis. cbn [fst].
  destruct (rpc ≫= _) as [h'|] eqn:Hc; [done|].
  destruct (withRetry _ 3 200).2 as [v|e]; [|done].
  destruct (well_formed_hash v) as [h'|]; [|done]. destruct rpc as [r'|]; [|done].
  cbn in Hc. destruct (decide (r = r')) as [->|Hne]; [congruence|].
  cbn. by rewrite lookup_insert_ne by done.
Qed.

(** The hash an entry holds was answered there, by the first of three attempts that did not
    fail, and is a string of at least 32 characters. *)
Definition observed_at (rpc : option string) answers (r h : string) : Prop :=
  rpc = Some r /\ 32 <= Z.of_nat (String.length h) /\
  exists k, (k < 3)%nat /\ answers k = Ok (GString h) /\ forall j, (j < k)%nat -> exists e, answers j = Throw e.

Lemma withRetry_first (op : nat -> res SigilError genesis_value) v base :
  (withRetry op 3 base).2 = Ok v ->
  exists k, (k < 3)%nat /\ op k = Ok v /\ forall j, (j < k)%nat -> exists e, op j = Throw e.
Proof.
  rewrite withRetry_three. destruct (op 0%nat) as [x|e0] eqn:H0.
  { intros [= ->]. exists 0%nat. split_and!; [lia|done|lia]. }
  destruct (op 1%nat) as [x|e1] eqn:H1.
  { intros [= ->]. exists 1%nat. split_and!; [lia|done|]. intros j Hj. replace j with 0%nat by lia. eauto. }
  intros H2. exists 2%nat. split_and!; [lia|done|]. intros [|[|j]] Hj; [eauto..|lia].
Qed.

Lemma assert_observed cache rpc network answers r h :
  (assertGenesisHash cache rpc network answers).1 !! r = Some h ->
  cache !! r = Some h \/ observed_at rpc answers r h.
Proof.
  unfold assertGenesisHash, observe_genesis. cbn [fst].
  destruct rpc as [r'|]; cbn [mbind option_bind].
  - destruct (cache !! r') as [h'|] eqn:Hc; [by left|].
    destruct (withRetry answers 3 200).2 as [v|e] eqn:Hw; [|by left].
    destruct (well_formed_hash v) as [h'|] eqn:Hv; [|by left]. cbn.
    destruct (decide (r = r')) as [->|Hne]; [|rewrite lookup_insert_ne by done; by left].
    rewrite lookup_insert_eq. intros [= <-]. right. unfold well_formed_hash in Hv.
    destruct v as [s|]; [|done]. destruct (Z.ltb_spec (Z.of_nat (String.length s)) 32); [done|].
    injection Hv as <-. split_and!; [done..|]. by apply (withRetry_first _ _ 200).
  - destruct (withRetry _ 3 200).2 as [v|e]; [|by left]. by destruct (well_formed_hash v); left.
Qed.

Lemma expected_genesis_spec n1 n2 :
  expected_genesis n1 = expected_genesis n2 <-> (n1 = "mainnet" <-> n2 = "mainnet").
Proof.
  unfold expected_genesis. repeat case_decide; subst; split; try tauto.
  - intros Heq. vm_compute in Heq. discriminate.
  - intros Heq. vm_compute in Heq. discriminate.
Qed.
End genesis.

(** A history of client creations in one process. *)
Section creations.
Context {C Tx : Type}.
Implicit Types (config : SigilClientConfig C Tx) (km : KitModule).

Definition creation : Type := SigilClientConfig C Tx * (nat -> res SigilError genesis_value).
Definition create_one km (c : creation) := createSigilClientAsync km c.1 c.2.

(** The clients created, with the configuration each was created from. *)
Fixpoint create_all km (l : list creation) : KitModule * list (SigilClientConfig C Tx * SigilClientApi C Tx) :=
  match l with
  | [] => (km, [])
  | c :: l' =>
      let r := create_one km c in
      let rest := create_all r.1.1 l' in
      (rest.1, match r.2 with Ok (cl, _) => [(c.1, cl)] | Throw _ => [] end ++ rest.2)
  end.

Lemma createSigilClient_genesis km config :
  km_genesis (createSigilClient km config).1 = km_genesis km.
Proof.
  unfold createSigilClient. cbv zeta.
  destruct (mbind _ _) as [[rpc [agent signer]]|e]; [|done]. cbn.
  by destruct (cc_logger config).
Qed.

Lemma set_logger_genesis l km : km_genesis (setSigilModuleLogger l km) = km_genesis km.
Proof. by destruct l. Qed.

Lemma createSigilClient_inv km config cl cs :
  (createSigilClient km config).2 = Ok (cl, cs) ->
  cc_rpc config = Some (cl_rpc cl) /\ cl_network cl = cc_network config /\
  cl_vault cl = cc_vault config /\ cl_plugins cl = cc_plugins config /\
  cl_hooks cl = cc_hooks config /\ cl_onError cl = cc_onError config /\
  cc_agent config = Some (cl_agent cl, cl_signer cl) /\
  cl_vault cl <> "" /\ cl_network cl <> "" /\
  match cc_plugins config with
  | Some ps => Forall (fun p => plugin_name p <> "") ps /\ NoDup (plugin_name <$> ps)
  | None => True
  end.
Proof.
  unfold createSigilClient, require_config. cbv zeta. intros H.
  destruct (cc_rpc config) as [rpc|]; [cbn [mbind res_bind] in H|done].
  unfold throw_if in H. destruct (bool_decide_reflect (cc_vault config = "")) as [|Hv]; [done|].
  destruct (cc_agent config) as [[agent signer]|]; [cbn [mbind res_bind] in H|done].
  destruct (bool_decide_reflect (cc_network config = "")) as [|Hn]; [done|]. cbn [mbind res_bind] in H.
  destruct (match cc_plugins config with Some _ => _ | None => _ end) as [[]|e] eqn:Hp; [|done].
  cbn in H. injection H as <- <-. cbn. split_and!; try done.
  destruct (cc_plugins config) as [ps|]; [|done].
  unfold validatePluginList, plugin_values in Hp.
  apply validate_plugins_ok in Hp as (HF & HN & _). split.
  - rewrite Forall_fmap in HF. eapply Forall_impl; [exact HF|].
    intros q (n & Hq & Hne). cbn in Hq. by injection Hq as ->.
  - assert (Heq : omap plugin_value_name ((fun p => PluginObject (Some (plugin_name p)) true) <$> ps)
            = plugin_name <$> ps); [|by rewrite Heq in HN].
    clear. induction ps as [|q ps IH]; [done|]. csimpl. by rewrite IH.
Qed.

Lemma create_one_inv km c km' ws cl cs :
  cc_skipGenesisAssertion c.1 = false -> create_one km c = (km', ws, Ok (cl, cs)) ->
  (exists km1, (createSigilClient km1 c.1).2 = Ok (cl, cs)) /\
  km_genesis km' !! cl_rpc cl = Some (expected_genesis (cl_network cl)).
Proof.
  intros Hs. unfold create_one, createSigilClientAsync. rewrite Hs.
  destruct (assertGenesisHash _ _ _ _) as [g r] eqn:Ha. cbn [fst snd].
  destruct r as [[]|e]; [|done].
  destruct (createSigilClient _ _) as [km1 r1] eqn:Hc. intros [= <- <- ->].
  assert (Hc' : (createSigilClient (mkKit (km_logger (setSigilModuleLogger (cc_logger c.1) km)) g) c.1).2
                = Ok (cl, cs)) by by rewrite Hc.
  split; [by eexists|].
  apply createSigilClient_inv in Hc' as (Hr & Hn & _).
  rewrite Hr in Ha. apply assert_ok_inv in Ha as (r & [= <-] & Hg & _).
  assert (Heq : km_genesis km1 = g).
  { change km1 with (km1, @Ok SigilError _ (cl, cs)).1. rewrite <- Hc, createSigilClient_genesis. done. }
  by rewrite Heq, Hn.
Qed.

Lemma create_one_keeps km c r h :
  km_genesis km !! r = Some h -> km_genesis (create_one km c).1.1 !! r = Some h.
Proof.
  intros Hr. unfold create_one, createSigilClientAsync. destruct (cc_skipGenesisAssertion c.1).
  - cbn. by rewrite createSigilClient_genesis, set_logger_genesis.
  - rewrite set_logger_genesis.
    pose proof (assert_keeps (km_genesis km) (cc_rpc c.1) (cc_network c.1) c.2 r h Hr) as Hk.
    destruct (assertGenesisHash _ _ _ _) as [g [[]|e]]; cbn in *; [|done].
    by rewrite createSigilClient_genesis.
Qed.

Lemma create_all_keeps km l r h :
  km_genesis km !! r = Some h -> km_genesis (create_all km l).1 !! r = Some h.
Proof.
  revert km. induction l as [|c l IH]; intros km Hr; [done|]. cbn [create_all fst].
  by apply IH, create_one_keeps.
Qed.

Lemma create_one_observed km c r h :
  cc_skipGenesisAssertion c.1 = false ->
  km_genesis (create_one km c).1.1 !! r = Some h ->
  km_genesis km !! r = Some h \/ observed_at (cc_rpc c.1) c.2 r h.
Proof.
  intros Hs. unfold create_one, createSigilClientAsync. rewrite Hs, set_logger_genesis.
  pose proof (assert_observed (km_genesis km) (cc_rpc c.1) (cc_network c.1) c.2 r h) as Ho.
  destruct (assertGenesisHash _ _ _ _) as [g [[]|e]]; cbn in *; [|done].
  by rewrite createSigilClient_genesis.
Qed.

Lemma create_all_observed km l r h :
  Forall (fun c => cc_skipGenesisAssertion c.1 = false) l ->
  km_genesis (create_all km l).1 !! r = Some h ->
  km_genesis km !! r = Some h \/ exists c, c ∈ l /\ observed_at (cc_rpc c.1) c.2 r h.
Proof.
  intros HF. revert km. induction HF as [|c l Hc HF IH]; intros km; [by left|]. cbn [create_all fst].
  intros [Hr|(c' & Hin & Ho)]%IH; [|right; exists c'; split; [by right|done]].
  apply (create_one_observed _ _ _ _ Hc) in Hr as [Hr|Ho]; [by left|].
  right. exists c. split; [left|done].
Qed.

(** Every client of the history sits on an endpoint whose hash is the one its network has. *)
Lemma create_all_sound km l :
  Forall (fun c => cc_skipGenesisAssertion c.1 = false) l ->
  Forall (fun x => cl_network x.2 = cc_network x.1 /\
                   km_genesis (create_all km l).1 !! cl_rpc x.2 = Some (expected_genesis (cl_network x.2)))
    (create_all km l).2.
Proof.
  intros HF. revert km. induction HF as [|c l Hc HF IH]; intros km; [constructor|].
  cbn [create_all fst snd].
  destruct (create_one km c) as [[km' ws] [[cl cs]|e]] eqn:Hone; cbn [fst snd app]; [|apply IH].
  constructor; [|apply IH]. cbn [fst snd].
  destruct (create_one_inv km c km' ws cl cs Hc Hone) as [[km1 H1] H2].
  split; [by apply createSigilClient_inv in H1 as (_ & ? & _)|by apply create_all_keeps].
Qed.
End creations.

(** C19: one endpoint, one cluster. In any history of client creations that do not skip the
    assertion, from a process that has observed nothing, two clients on the same RPC object
    are both configured for mainnet or both for devnet; the endpoint of every client has
    answered the genesis hash of the client's network, within three attempts of one of the
    creations; and no malformed answer is ever remembered. *)
Theorem genesis_one_cluster {C Tx : Type} (l : list (creation (C := C) (Tx := Tx))) :
  Forall (fun c => cc_skipGenesisAssertion c.1 = false) l ->
  let r := create_all (mkKit None ∅) l in
  (forall x y, x ∈ r.2 -> y ∈ r.2 -> cl_rpc x.2 = cl_rpc y.2 ->
    (cl_network x.2 = "mainnet" <-> cl_network y.2 = "mainnet")) /\
  (forall x, x ∈ r.2 -> exists c, c ∈ l /\
    observed_at (cc_rpc c.1) c.2 (cl_rpc x.2) (expected_genesis (cl_network x.2))) /\
  (forall rpc h, km_genesis r.1 !! rpc = Some h -> exists c, c ∈ l /\ observed_at (cc_rpc c.1) c.2 rpc h).
Proof.
  intros HF r. pose proof (create_all_sound (mkKit None ∅) l HF) as Hs. rewrite Forall_forall in Hs.
  assert (Ho : forall rpc h, km_genesis r.1 !! rpc = Some h ->
    exists c, c ∈ l /\ observed_at (cc_rpc c.1) c.2 rpc h).
  { intros rpc h [Hr|?]%(create_all_observed _ _ _ _ HF); [|done]. cbn in Hr. by rewrite lookup_empty in Hr. }
  split_and!; [|intros x Hx; apply Ho, (Hs x Hx)|done].
  intros x y Hx Hy Heq. apply expected_genesis_spec.
  destruct (Hs x Hx) as [_ H1], (Hs y Hy) as [_ H2]. rewrite Heq in H1. fold r in H1, H2. congruence.
Qed.

(** ** [executeAndConfirm] *)
Definition wires (trace : list client_event) : list string :=
  omap (fun e => match e with EvSend wire => Some wire | EvHook _ => None end) trace.

Lemma wires_hooks l : wires (EvHook <$> l) = [].
Proof. induction l; [done|exact IHl]. Qed.
Lemma wires_app l1 l2 : wires (l1 ++ l2) = wires l1 ++ wires l2.
Proof. apply omap_app. Qed.
Lemma wires_send wire l : wires (EvSend wire :: l) = wire :: wires l.
Proof. done. Qed.
Create Rewrite HintDb client.
#[export] Hint Rewrite wires_hooks wires_app wires_send : client.

Section execute.
Context {C Tx : Type} `{pda : !PdaEnv} `{lib : !TxLib Tx}.
Context (gm : Address -> option (Address * bool) -> bool -> AccountMeta).
Context (errors : heap) (value_of : SigilError -> js_value).
Implicit Types (cl : SigilClientApi C Tx) (cs : ClientCaches) (w : ClientWorld C)
  (opts : ClientSealOpts C Tx).

(** The lookup tables a transaction was sealed with: the caller's, or tables in which the
    program's own one, if resolved at all, holds every expected address. *)
Definition tables_checked cl opts (tables : AltContents) : Prop :=
  match so_addressLookupTables opts with
  | Some given => tables = given
  | None => exists sigilAlt, getSigilAltAddress (normalizeNetwork (cl_network cl)) = Ok sigilAlt /\
      forall contents, jm_get sigilAlt tables = Some contents ->
        getExpectedAltContents (normalizeNetwork (cl_network cl)) ⊆ contents
  end.

Lemma verified_tables_checked cl w opts cache first tables :
  (match so_addressLookupTables opts with Some given => first = given | None => True end) ->
  (verified_tables cl w opts cache first).2 = Ok tables -> tables_checked cl opts tables.
Proof.
  unfold verified_tables, tables_checked.
  destruct (so_addressLookupTables opts) as [given|]; [by intros -> [= <-]|]. intros _. cbv zeta.
  destruct (getSigilAltAddress _) as [sigilAlt|e]; [|done]. intros H. exists sigilAlt. split; [done|].
  destruct (verifySigilAlt first _ _) as [[]|e] eqn:Hv.
  - injection H as <-. by apply verifySigilAlt_ok.
  - cbn [snd] in H. inv_bind H. injection H as <-. destruct a. by apply verifySigilAlt_ok.
Qed.

(** What a successful seal from the caches went through. *)
Record sealed_by cl cs w ixs opts plugins (result : SealResult Tx) (p : SealParams C) : Prop := {
  sb_seal : run_result (seal gm (w_seal w) (w_sharedAlts w) (so_hooks opts) p) = Ok result;
  sb_params : exists blockhash tables,
    p = seal_params cl plugins opts ixs blockhash tables /\
    (blockhash_get (ccs_blockhash cs) (w_bhNow w) (w_bhAnswer w) (w_bhFetched w)).1 = Ok blockhash /\
    tables_checked cl opts tables;
}.

Lemma seal_from_caches_inv cl plugins cs w ixs opts result :
  cs_result (seal_from_caches gm cl plugins cs w ixs opts) = Ok result ->
  exists p, sealed_by cl cs w ixs opts plugins result p.
Proof.
  unfold seal_from_caches. intros H.
  destruct (first_tables cl cs w opts) as [[c1 t1]|e] eqn:Hf; [|done]. cbv zeta in H.
  destruct (blockhash_get _ _ _ _).1 as [b|e] eqn:Hb; [|done].
  destruct (verified_tables _ _ _ _ _).2 as [tables|e] eqn:Hv; [|done].
  exists (seal_params cl plugins opts ixs b tables). split; [exact H|]. exists b, tables.
  split_and!; [done..|]. eapply verified_tables_checked; [|exact Hv].
  unfold first_tables in Hf. destruct (so_addressLookupTables opts); [|done].
  by injection Hf as <- <-.
Qed.

(** The gates the sealed call passed. *)
Lemma sealed_by_gates cl cs w ixs opts plugins result p :
  sealed_by cl cs w ixs opts plugins result p ->
  exists state agentEntry, resolve_state (w_seal w) p = Ok state /\
    vault_status (rs_vault state) = Active /\ require_agent p state = Ok agentEntry /\
    0 <= so_amount opts <= U64_MAX /\ agent_capability agentEntry <> 0 /\
    Forall (fun q => plugin_check q (plugin_context p (cid (w_seal w) p) state agentEntry)
                     = Returned PluginAllow) (default [] plugins).
Proof.
  intros [Hs (b & t & Hp & _)]. apply seal_ok_inv in Hs as (_ & _ & plan & alts & Hplan & _).
  apply seal_plan_inv in Hplan as (target & rs & Hr & Hg & _).
  apply seal_gates_inv in Hg as (ae & H1 & H2 & H3 & H4 & _ & _ & H7 & _).
  exists (pl_state plan), ae. split_and!; [done..| | | |].
  1, 2: subst p; cbn in *; lia.
  - done.
  - unfold run_policy_plugins in H3. apply runPlugins_ok in H3. by subst p.
Qed.

(** How a failed call ends: with the structured error, after the callback saw it; with the
    callback's own error when it throws. *)
Definition fails_with cl opts (err : SigilError) (outcome : exec_outcome Tx) : Prop :=
  let sdkError := toSigilAgentError errors (value_of err) in
  match cl_onError cl with
  | None => outcome = ExecThrew sdkError
  | Some callback =>
      match (callback sdkError (callback_context opts)).2 with
      | Returned _ => outcome = ExecThrew sdkError
      | Threw message => outcome = ExecCallbackThrew message
      end
  end.

Lemma report_error_fails cl opts err :
  fails_with cl opts err (report_error errors value_of (cl_onError cl) opts err).2.
Proof.
  unfold fails_with, report_error. destruct (cl_onError cl) as [f|]; [|done].
  by destruct (f _ _) as [l [u|m]].
Qed.

Lemma report_error_wires cl opts err :
  wires (report_error errors value_of (cl_onError cl) opts err).1 = [].
Proof.
  unfold report_error. destruct (cl_onError cl) as [f|]; [|done].
  by destruct (f _ _) as [l [u|m]]; cbn; autorewrite with client.
Qed.

(** The options of the inner [clientSeal]. *)
Definition exec_opts cl w opts : ClientSealOpts C Tx :=
  with_opts_hooks opts (composeHooks (cl_hooks cl) (so_hooks opts))
    (Some (default (w_correlationId w) (so_correlationId opts))).

(** C18: what reaches the network. A call of [executeAndConfirm] hands at most one
    transaction to the RPC node, and only the signer's encoding of a transaction that
    [seal] produced for the client's own vault, agent and network: the vault active, the
    agent registered with a capability, every plugin of the client content (a caller
    cannot replace them), the amount a [u64], the lookup tables checked. The call succeeds
    exactly when the confirmation of that transaction does; every other call ends with the
    structured error (or with what the error callback throws). *)
Theorem client_sends_only_sealed cl cs w ixs opts co fuel run :
  executeAndConfirm gm errors value_of cl cs w ixs opts co fuel = Some run ->
  (wires (xr_trace run) = [] /\ exists err, fails_with cl opts err (xr_outcome run)) \/
  (exists result p wire state agentEntry,
    wires (xr_trace run) = [wire] /\
    signAndEncode (cl_signer cl) (sr_transaction result) = Ok wire /\
    sealed_by cl cs w ixs (exec_opts cl w opts) (cl_plugins cl) result p /\
    sp_vault p = cl_vault cl /\ sp_agent p = cl_agent cl /\ sp_network p = cl_network cl /\
    resolve_state (w_seal w) p = Ok state /\ vault_status (rs_vault state) = Active /\
    require_agent p state = Ok agentEntry /\ agent_capability agentEntry <> 0 /\
    0 <= so_amount opts <= U64_MAX /\
    Forall (fun q => plugin_check q (plugin_context p (cid (w_seal w) p) state agentEntry)
                     = Returned PluginAllow) (default [] (cl_plugins cl)) /\
    match sendAndConfirmTransaction co (w_send w wire) (w_confirm w) fuel with
    | Some (Ok signature) => xr_outcome run = ExecDone signature result
    | Some (Throw err) => fails_with cl opts err (xr_outcome run)
    | None => False
    end).
Proof.
  unfold executeAndConfirm, clientSeal. fold (exec_opts cl w opts). cbv zeta.
  set (sealed := seal_from_caches _ _ _ _ _ _ _).
  destruct (cs_result sealed) as [result|err] eqn:Hr.
  2: { intros [= <-]. left. cbn [xr_trace xr_outcome]. autorewrite with client.
       rewrite report_error_wires. split; [done|]. exists err. apply report_error_fails. }
  destruct (signAndEncode _ _) as [wire|err] eqn:Hsig.
  2: { intros [= <-]. left. cbn [xr_trace xr_outcome]. autorewrite with client.
       rewrite report_error_wires. split; [done|]. exists err. apply report_error_fails. }
  intros Hrun. right. apply seal_from_caches_inv in Hr as (p & Hp).
  destruct (sealed_by_gates _ _ _ _ _ _ _ _ Hp) as (state & ae & H1 & H2 & H3 & H4 & H5 & H6).
  change (so_amount (exec_opts cl w opts)) with (so_amount opts) in H4.
  destruct H4 as [H4 H4'].
  exists result, p, wire, state, ae.
  assert (Hparams : sp_vault p = cl_vault cl /\ sp_agent p = cl_agent cl /\ sp_network p = cl_network cl).
  { destruct Hp as [_ (b & t & -> & _)]. done. }
  destruct Hparams as (Hv & Ha & Hn).
  destruct (sendAndConfirmTransaction _ _ _ _) as [[signature|err]|]; [| |done];
    cbn in Hrun; injection Hrun as <-; cbn [xr_trace xr_outcome]; autorewrite with client;
    rewrite ?report_error_wires; split_and!; try done; try apply report_error_fails.
Qed.
End execute.

(** ** The handle's hooks *)
Section handle_hooks.
Context {C Tx : Type} `{pda : !PdaEnv} `{clib : !ClientLib} `{lib : !TxLib Tx}.
Context (gm : Address -> option (Address * bool) -> bool -> AccountMeta).
Context (errors : heap) (value_of : SigilError -> js_value).
Abbreviation ClientHooks := (SealHooks (SealParams C) Tx SigilError string).

(** What a hook leaves behind when it is called and returns. *)
Definition observed_events {X} (hook : option (SealHookContext -> X -> effect unit))
    (ctx : SealHookContext) (arg : X) : list string :=
  match hook with Some f => (f ctx arg).1 | None => [] end.

Definition never_throws {X} (hook : option (SealHookContext -> X -> effect unit)) : Prop :=
  match hook with Some f => forall ctx arg, (f ctx arg).2 = Returned tt | None => True end.

Lemma invoke_observer {X} (hooks : option ClientHooks)
    (key : ClientHooks -> option (SealHookContext -> X -> effect unit)) ctx arg :
  never_throws (hooks ≫= key) ->
  (invokeHook hooks key ctx arg).1 = observed_events (hooks ≫= key) ctx arg.
Proof.
  unfold invokeHook, never_throws, observed_events.
  destruct (hooks ≫= key) as [f|]; [|done]. intros H. specialize (H ctx arg).
  destruct (f ctx arg) as [l [u|m]]; [done|discriminate].
Qed.

Lemma compose_observe_events {X} (fo fi : option (SealHookContext -> X -> effect unit)) ctx arg :
  never_throws fo -> never_throws fi ->
  compose_observe fo fi ctx arg
  = (observed_events fo ctx arg ++ observed_events fi ctx arg, Returned tt).
Proof.
  unfold compose_observe, call_opt, never_throws, observed_events. intros Ho Hi.
  destruct fo as [fo|], fi as [fi|]; cbn;
    try (specialize (Ho ctx arg); destruct (fo ctx arg) as [lo [[]|m]]; [|discriminate]);
    try (specialize (Hi ctx arg); destruct (fi ctx arg) as [li [[]|m]]; [|discriminate]);
    cbn; by rewrite ?app_nil_r.
Qed.

Lemma compose_observe_safe {X} (fo fi : option (SealHookContext -> X -> effect unit)) :
  never_throws fo -> never_throws fi -> never_throws (Some (compose_observe fo fi)).
Proof. intros Ho Hi ctx arg. by rewrite compose_observe_events. Qed.

(** The two late hooks of composed hooks: outer events, then inner ones. *)
Lemma composed_late_hooks (a b : ClientHooks) :
  never_throws (h_onAfterSend a) -> never_throws (h_onAfterSend b) ->
  never_throws (h_onFinalize a) -> never_throws (h_onFinalize b) ->
  exists c, composeHooks (Some a) (Some b) = Some c /\
    never_throws (h_onAfterSend c) /\ never_throws (h_onFinalize c) /\
    (forall ctx s, observed_events (h_onAfterSend c) ctx s
       = observed_events (h_onAfterSend a) ctx s ++ observed_events (h_onAfterSend b) ctx s) /\
    (forall ctx s, observed_events (h_onFinalize c) ctx s
       = observed_events (h_onFinalize a) ctx s ++ observed_events (h_onFinalize b) ctx s).
Proof.
  intros H1 H2 H3 H4. eexists. split; [reflexivity|]. cbn [h_onAfterSend h_onFinalize].
  split_and!; [by apply compose_observe_safe..| |];
    intros ctx s; cbn [observed_events]; by rewrite compose_observe_events.
Qed.

(** The events of a successful call after its transaction was sent. *)
Lemma execute_done_trace cl cs w ixs (opts : ClientSealOpts C Tx) co fuel run signature result :
  executeAndConfirm gm errors value_of cl cs w ixs opts co fuel = Some run ->
  xr_outcome run = ExecDone signature result ->
  let hooks := composeHooks (cl_hooks cl) (so_hooks opts) in
  let ctx := exec_context cl opts (default (w_correlationId w) (so_correlationId opts)) in
  exists pre wire, xr_trace run = pre ++ EvSend wire :: (EvHook <$>
    ((invokeHook hooks h_onAfterSend ctx signature).1 ++ (invokeHook hooks h_onFinalize ctx signature).1)).
Proof.
  unfold executeAndConfirm. cbv zeta. intros Hrun Hdone.
  assert (Hr : forall err, (report_error errors value_of (cl_onError cl) opts err).2
                           <> @ExecDone Tx signature result).
  { intros err. unfold report_error. destruct (cl_onError cl) as [f|]; [|done].
    by destruct (f _ _) as [l [u|m]]. }
  destruct (cs_result _) as [r|err]; [|injection Hrun as <-; by destruct (Hr err)].
  destruct (signAndEncode _ _) as [wire|err]; [|injection Hrun as <-; by destruct (Hr err)].
  destruct (sendAndConfirmTransaction _ _ _ _) as [[s|err]|]; [| |done].
  - cbn in Hrun. injection Hrun as <-. cbn in Hdone. injection Hdone as -> ->.
    cbn [xr_trace]. rewrite fmap_app. eexists _, wire. reflexivity.
  - cbn in Hrun. injection Hrun as <-. by destruct (Hr err).
Qed.

(** hooks given to [quickstart] or [fromVault] run twice. The handle composes its hooks
    into the call's, and the client underneath, made with the same hooks, composes them in
    again: after the transaction of [SigilVault.execute] is sent, every [onAfterSend] and
    [onFinalize] of the handle fires two times, before the call's own; the client's
    [executeAndConfirm] fires them once. *)
Theorem handle_runs_client_hooks_twice km args answers km' ws
    (state : SigilVaultInternalState (C := C) (Tx := Tx)) cs0 cs w ixs opts co fuel
    (h o : ClientHooks) run signature result :
  buildInternalState km args answers = (km', ws, Ok (state, cs0)) ->
  cc_hooks (ha_config args) = Some h -> so_hooks opts = Some o ->
  never_throws (h_onAfterSend h) -> never_throws (h_onFinalize h) ->
  never_throws (h_onAfterSend o) -> never_throws (h_onFinalize o) ->
  xr_outcome run = ExecDone signature result ->
  let ctx := exec_context (sv_client state) opts (default (w_correlationId w) (so_correlationId opts)) in
  let after k := observed_events (h_onAfterSend k) ctx signature in
  let final k := observed_events (h_onFinalize k) ctx signature in
  (execute gm errors value_of state cs w ixs opts co fuel = Some run ->
   exists pre wire, xr_trace run = pre ++ EvSend wire :: (EvHook <$>
     (after h ++ after h ++ after o ++ final h ++ final h ++ final o))) /\
  (executeAndConfirm gm errors value_of (sv_client state) cs w ixs opts co fuel = Some run ->
   exists pre wire, xr_trace run = pre ++ EvSend wire :: (EvHook <$>
     (after h ++ after o ++ final h ++ final o))).
Proof.
  intros Hb Hh Ho Hha Hhf Hoa Hof Hdone ctx after final.
  assert (Hs : sv_hooks state = Some h /\ cl_hooks (sv_client state) = Some h).
  { unfold buildInternalState in Hb.
    destruct (match cc_plugins (ha_config args) with Some _ => _ | None => _ end); [|done].
    unfold createSigilClientAsync in Hb.
    destruct (cc_skipGenesisAssertion (ha_config args)).
    2: { destruct (assertGenesisHash _ _ _ _) as [g [[]|e]]; [|done].
         cbn [fst snd] in Hb. revert Hb.
         destruct (createSigilClient _ _).2 as [[cl cs1]|e] eqn:Hc; [|done].
         intros Hb. apply createSigilClient_inv in Hc as (_ & _ & _ & _ & Hk & _).
         cbn in Hb. injection Hb as <- <- <- <-. cbn. by rewrite Hk. }
    cbn [fst snd] in Hb. revert Hb.
    destruct (createSigilClient _ _).2 as [[cl cs1]|e] eqn:Hc; [|done].
    intros Hb. apply createSigilClient_inv in Hc as (_ & _ & _ & _ & Hk & _).
    cbn in Hb. injection Hb as <- <- <- <-. cbn. by rewrite Hk. }
  destruct Hs as [Hs1 Hs2]. split; intros Hrun.
  - destruct (composed_late_hooks h o) as (c & Hc & Hca & Hcf & Hea & Hef); [done..|].
    destruct (composed_late_hooks h c) as (d & Hd & Hda & Hdf & Hfa & Hff); [done..|].
    unfold execute in Hrun. rewrite Hs1, Ho, Hc in Hrun.
    destruct (execute_done_trace _ _ _ _ _ _ _ _ _ _ Hrun Hdone) as (pre & wire & Ht).
    exists pre, wire. rewrite Ht. cbn [so_hooks with_opts_hooks so_correlationId].
    rewrite Hs2, Hd, !invoke_observer by done. cbn [mbind option_bind].
    rewrite Hfa, Hff, Hea, Hef. by rewrite <- !app_assoc.
  - destruct (composed_late_hooks h o) as (c & Hc & Hca & Hcf & Hea & Hef); [done..|].
    destruct (execute_done_trace _ _ _ _ _ _ _ _ _ _ Hrun Hdone) as (pre & wire & Ht).
    exists pre, wire. rewrite Ht, Hs2, Ho, Hc, !invoke_observer by done. cbn [mbind option_bind].
    rewrite Hea, Hef. by rewrite <- !app_assoc.
Qed.
End handle_hooks.

(** ** [quickstart] *)
Section quickstart.
Context {C Tx : Type} `{pda : !PdaEnv} `{clib : !ClientLib} `{lib : !TxLib Tx}.
Implicit Types (opts : SigilQuickstartOptions (C := C) (Tx := Tx)) (w : QuickWorld (Tx := Tx)).

Lemma buildInternalState_inv km args answers (state : SigilVaultInternalState (C := C) (Tx := Tx)) cs :
  (buildInternalState km args answers).2 = Ok (state, cs) ->
  sv_vault state = cc_vault (ha_config args) /\ sv_ownerClient state = ha_owner args.
Proof.
  unfold buildInternalState.
  destruct (match cc_plugins (ha_config args) with Some _ => _ | None => _ end); [|done].
  destruct (createSigilClientAsync _ _ _) as [[km' ws] [[cl cs']|e]]; [|done].
  cbn. by intros [= <- <-].
Qed.

Lemma deposit_positive owner vault mint amount ixs :
  deposit owner vault mint amount = Ok ixs -> 0 < amount <= MUT_U64_MAX.
Proof.
  unfold deposit, requirePositiveAmount, guard, throw_if. intros H.
  destruct (Z.leb_spec amount 0); [done|]. cbn in H.
  destruct (Z.gtb_spec amount MUT_U64_MAX); [done|]. lia.
Qed.

Lemma fund_owner state (w : RunWorld (Tx := Tx)) mint amount o owner r :
  sv_ownerClient (C := C) (Tx := Tx) state = Some owner -> fund state w mint amount o = Some r ->
  match r with
  | Ok _ => 0 < amount <= MUT_U64_MAX
  | Throw e => exists e', e = Mutation e' /\ (amount < 0 -> e' = EGuard "Deposit amount must be positive")
  end.
Proof.
  intros Ho. unfold fund, owner_gated, requireOwnerClient. rewrite Ho. unfold send.
  destruct (deposit owner _ mint amount) as [ixs|e] eqn:Hd.
  - apply deposit_positive in Hd. destruct (run _ _ _ _) as [[s|e]|]; [| |done];
      cbn; intros [= <-]; [done|]. exists e. split; [done|lia].
  - cbn. intros [= <-]. exists e. split; [done|]. intros Hn. unfold deposit, requirePositiveAmount, guard, throw_if in Hd.
    rewrite (proj2 (Z.leb_le amount 0)) in Hd by lia. cbn in Hd. by injection Hd as <-.
Qed.

(** C24: what becomes of a vault that [quickstart] has put on chain. When the handle is
    built, the call returns it with the creation's signature and never throws: a deposit
    that fails, for whatever reason, is reported as an RPC failure next to the handle. But
    the plugins and the cluster are checked only after the vault exists: when the endpoint
    turns out to be on the other cluster the call throws, and neither the handle nor the
    signature of the creation reaches the caller. *)
Theorem quickstart_after_creation km opts w r created signature :
  quickstart km opts w = Some r ->
  quickstart_create opts w = Some (Ok (created, signature)) ->
  let args := quickstart_args opts (cr_vaultAddress created) in
  let amount := default 0 (qs_initialFundingUsd opts) in
  match r with
  | Throw e => (buildInternalState km args (qw_genesis w)).2 = Throw e
  | Ok q =>
      (exists cs, (buildInternalState km args (qw_genesis w)).2 = Ok (qr_vault q, cs)) /\
      sv_vault (qr_vault q) = cr_vaultAddress created /\ qr_createVault q = signature /\
      match qr_funded q with
      | Funded s a => a = amount /\ 0 < amount <= MUT_U64_MAX /\ qr_fund q = Some s
      | NotFunded reason error => qr_fund q = None /\
          if amount =? 0 then reason = "skipped" /\ error = None
          else reason = "rpc-failure" /\ exists e, error = Some (Mutation e) /\
                 (amount < 0 -> e = EGuard "Deposit amount must be positive")
      end
  end /\
  (forall observed, qs_plugins opts = None -> qs_skipGenesisAssertion opts = false ->
    (observe_genesis (km_genesis km) (Some (qs_rpc opts)) (qs_network opts) (qw_genesis w)).2 = Ok observed ->
    observed <> expected_genesis (qs_network opts) ->
    r = Throw (genesis_mismatch (qs_network opts) (expected_genesis (qs_network opts)) observed)).
Proof.
  intros Hq Hc args amount. unfold quickstart in Hq. rewrite Hc in Hq. cbn [mbind option_bind] in Hq.
  fold args in Hq. split.
  - destruct (buildInternalState km args (qw_genesis w)).2 as [[vault cs]|e] eqn:Hb; [|by injection Hq as <-].
    apply buildInternalState_inv in Hb as [Hv Ho]. unfold quickstart_fund in Hq. fold amount in Hq.
    clearbody amount.
    destruct (amount =? 0) eqn:H0.
    { injection Hq as <-. cbn. split_and!; eauto. }
    destruct (fund vault _ _ _ _) as [[s|e]|] eqn:Hf; [| |done]; cbn in Hq; injection Hq as <-;
      apply (fund_owner _ _ _ _ _ _ _ Ho) in Hf; cbn.
    + split_and!; eauto; cbn in Hf; lia.
    + destruct Hf as (e' & -> & Hn). split_and!; eauto.
  - intros observed Hp Hs Hobs Hne.
    assert (Hb : (buildInternalState km args (qw_genesis w)).2
                 = Throw (genesis_mismatch (qs_network opts) (expected_genesis (qs_network opts)) observed)).
    { unfold buildInternalState, args, createSigilClientAsync. cbn [quickstart_args ha_config cc_plugins
        cc_skipGenesisAssertion cc_rpc cc_network cc_logger]. rewrite Hp, Hs.
      unfold assertGenesisHash. rewrite set_logger_genesis. cbn [fst snd]. rewrite Hobs.
      cbn [mbind res_bind]. rewrite bool_decide_false by done. reflexivity. }
    rewrite Hb in Hq. by injection Hq as <-.
Qed.
End quickstart.

(** ** Concrete runs *)
Definition demo_value_of (e : SigilError) : js_value := VStr (error_code e).
Definition demo_heap : heap := fun _ =>
  mkErrorObj PlainObject None None None None None VUndefined None None None "[object Object]".
Definition demo_answers (hash : string) (k : nat) : res SigilError genesis_value :=
  match k with O => Throw (sdk_error "Error: fetch failed" []) | S _ => Ok (GString hash) end.
Definition demo_signer : Signer TransactionMessage :=
  mkSigner (Some (fun l => Ok (Some (SignedTx <$> l)))) None.
Definition say (who : string) : option (SealHookContext -> string -> effect unit) :=
  Some (fun _ s => ([who +:+ " " +:+ s], Returned tt)).
Definition demo_hooks (who : string) : SealHooks (SealParams unit) TransactionMessage SigilError string :=
  mkHooks None None (say (who +:+ " sent")) None (say (who +:+ " final")).
Definition demo_config (network : string) : SigilClientConfig unit TransactionMessage :=
  mkClientConfig (Some "rpc") "Vault" (Some ("Agent", demo_signer)) network None None None false
    (Some (demo_hooks "client")) None.
Definition demo_client : SigilClientApi unit TransactionMessage :=
  mkClient "rpc" "Vault" "Agent" demo_signer "devnet" None (Some (demo_hooks "client")) None.
Definition demo_caches : ClientCaches :=
  mkClientCaches (new_blockhash_cache None) (new_alt_cache None None).

Definition demo_opts : ClientSealOpts unit TransactionMessage :=
  mkSealOpts USDC_MINT_DEVNET 100000000 None None (Some 1000) None None None
    (Some demo_seal_state) None None (Some (demo_hooks "call")) (Some "cid").

(** The endpoint knows no lookup table: none is resolved. *)
Definition demo_client_world : ClientWorld unit :=
  mkClientWorld 0 (Ok (mkBlockhash "hash" 42)) 0 0 (fun _ => None) 0 (fun _ => None) demo_world
    (new_alt_cache None None) "generated" (fun _ => Ok "sig")
    (mkConfirmEnv 0 (fun k => Z.of_nat k) (fun _ => Ok (Some (mkStatus false "confirmed")))).

Local Abbreviation demo_exec :=
  (@executeAndConfirm unit TransactionMessage demo_address_env demo_txlib demo_meta demo_heap
    demo_value_of demo_client demo_caches demo_client_world [demo_budget_ix 9; demo_swap] demo_opts
    (mkConfirmOptions None None None) 3).

Example demo_exec_trace :
  (fun run => drop 1 (xr_trace run)) <$> demo_exec =
  Some (EvHook <$> ["client sent sig"; "call sent sig"; "client final sig"; "call final sig"]).
Proof. vm_compute. reflexivity. Qed.

Lemma client_sends_only_sealed_witness :
  exists run result wire p state,
    demo_exec = Some run /\ wires (xr_trace run) = [wire] /\ xr_outcome run = ExecDone "sig" result /\
    sp_vault p = "Vault" /\ sp_agent p = "Agent" /\ resolve_state demo_world p = Ok state /\
    vault_status (rs_vault state) = Active.
Proof.
  assert (Hw : (fun run => (bool_decide (wires (xr_trace run) = []),
                 match xr_outcome run with ExecDone s _ => Some s | _ => None end)) <$> demo_exec
               = Some (false, Some "sig")) by (vm_compute; reflexivity).
  destruct demo_exec as [run|] eqn:E; [|discriminate Hw].
  cbn in Hw. injection Hw as Hw Hd. apply bool_decide_eq_false in Hw.
  destruct (@client_sends_only_sealed unit TransactionMessage demo_address_env demo_txlib demo_meta
    demo_heap demo_value_of demo_client demo_caches demo_client_world [demo_budget_ix 9; demo_swap]
    demo_opts (mkConfirmOptions None None None) 3 run E) as [[H _]|H]; [contradiction|].
  destruct H as (result & p & wire & state & ae & H1 & _ & _ & H2 & H3 & _ & H4 & H5 & _ & _ & _ & _ & H6).
  exists run, result, wire, p, state. split_and!; try assumption; try reflexivity.
Defined.

(** ** One endpoint, one cluster: the second client, for the other network, is refused *)
Definition demo_history : list (creation (C := unit) (Tx := TransactionMessage)) :=
  [(demo_config "devnet", demo_answers SOLANA_DEVNET_GENESIS_HASH);
   (demo_config "mainnet", demo_answers SOLANA_MAINNET_GENESIS_HASH)].

Lemma genesis_one_cluster_witness :
  ((fun x => cl_network x.2) <$> (create_all (mkKit None ∅) demo_history).2) = ["devnet"] /\
  forall x, x ∈ (create_all (mkKit None ∅) demo_history).2 -> exists c, c ∈ demo_history /\
    observed_at (cc_rpc c.1) c.2 (cl_rpc x.2) (expected_genesis (cl_network x.2)).
Proof.
  split; [vm_compute; reflexivity|].
  exact (proj1 (proj2 (genesis_one_cluster demo_history
    ltac:(repeat constructor)))).
Defined.

(** ** The handle's hooks *)
Definition demo_args : HandleArgs := mkHandleArgs (demo_config "devnet") (Some "owner").
Definition demo_handle := buildInternalState (mkKit None ∅) demo_args
  (demo_answers SOLANA_DEVNET_GENESIS_HASH).

Local Abbreviation demo_execute state :=
  (@execute unit TransactionMessage demo_address_env demo_txlib demo_meta demo_heap demo_value_of state
    demo_caches demo_client_world [demo_budget_ix 9; demo_swap] demo_opts
    (mkConfirmOptions None None None) 3).

Lemma handle_runs_client_hooks_twice_witness :
  exists km ws state cs run pre wire,
    demo_handle = (km, ws, Ok (state, cs)) /\ demo_execute state = Some run /\
    xr_trace run = pre ++ EvSend wire :: (EvHook <$>
      ["client sent sig"; "client sent sig"; "call sent sig";
       "client final sig"; "client final sig"; "call final sig"]).
Proof.
  destruct demo_handle as [[km ws] [[state cs]|e]] eqn:Hb; [|vm_compute in Hb; discriminate Hb].
  assert (Hst : state = mkVaultState "rpc" "Vault" "Agent" (Some "owner") "devnet" demo_client
    (Some "owner") (Some (demo_hooks "client")) None) by (vm_compute in Hb; injection Hb as _ _ <- _; reflexivity).
  assert (Hd : (fun run => match xr_outcome run with ExecDone s _ => Some s | _ => None end) <$>
    demo_execute state = Some (Some "sig")) by (subst state; vm_compute; reflexivity).
  destruct (demo_execute state) as [run|] eqn:E; [|discriminate Hd]. cbn in Hd. injection Hd as Hd.
  destruct (xr_outcome run) as [s result| |] eqn:Ho; [|discriminate Hd..]. injection Hd as ->.
  destruct (proj1 (@handle_runs_client_hooks_twice unit TransactionMessage demo_address_env demo_txlib
    demo_meta demo_heap demo_value_of (mkKit None ∅) demo_args
    (demo_answers SOLANA_DEVNET_GENESIS_HASH) km ws state cs demo_caches demo_client_world
    [demo_budget_ix 9; demo_swap] demo_opts (mkConfirmOptions None None None) 3
    (demo_hooks "client") (demo_hooks "call") run "sig" result Hb eq_refl eq_refl
    (fun _ _ => eq_refl) (fun _ _ => eq_refl) (fun _ _ => eq_refl) (fun _ _ => eq_refl) Ho) E)
    as (pre & wire & Ht).
  exists km, ws, state, cs, run, pre, wire. (split; [first [exact Hb|reflexivity]|]); (split; [first [exact E|reflexivity]|exact Ht]).
Defined.

(** ** A vault created on the wrong cluster *)
Definition demo_quick : SigilQuickstartOptions (C := unit) (Tx := TransactionMessage) :=
  mkQuickstart (mkCreateOptions "owner" "agent" (Some 2) (Some 0) (Some 500000000) (Some 100000000)
      (Some "fees") None (Some ["jup"]) (Some 1) None None (Some 1800) None (Some 0))
    None None (mkConfirmOptions None None None) demo_signer demo_signer "rpc" "devnet" None None None
    None None false.
Definition demo_quick_world : QuickWorld (Tx := TransactionMessage) :=
  mkQuickWorld demo_owner_caches (mkOwnerWorld 0 (Ok (mkBlockhash "hash" 42)) 0 0 (fun _ => None)) (Ok 0)
    (fun _ => Ok "created")
    (mkConfirmEnv 0 (fun k => Z.of_nat k) (fun _ => Ok (Some (mkStatus false "confirmed")))) 3
    (demo_answers SOLANA_MAINNET_GENESIS_HASH)
    (mkRunWorld (Throw instruction_required) (fun _ => Throw instruction_required)
       (fun _ => Ok "fund") (mkConfirmEnv 0 (fun k => Z.of_nat k) (fun _ => Ok None)) 3).

Local Abbreviation demo_created :=
  (@quickstart_create unit TransactionMessage owner_demo_env preview_lib demo_wirelib demo_quick
    demo_quick_world).
Local Abbreviation demo_quickstart :=
  (@quickstart unit TransactionMessage owner_demo_env preview_lib demo_wirelib (mkKit None ∅) demo_quick
    demo_quick_world).

Lemma quickstart_after_creation_witness :
  exists created, demo_created = Some (Ok (created, "created")) /\
    demo_quickstart = Some (Throw (genesis_mismatch "devnet" SOLANA_DEVNET_GENESIS_HASH
                                     SOLANA_MAINNET_GENESIS_HASH)).
Proof.
  assert (Hc : match demo_created with
               | Some (Ok (_, s)) => bool_decide (s = "created") | _ => false end = true)
    by (vm_compute; reflexivity).
  assert (Hq : match demo_quickstart with Some _ => true | None => false end = true)
    by (vm_compute; reflexivity).
  destruct demo_quickstart as [r|] eqn:Hr; [clear Hq|discriminate Hq].
  destruct demo_created as [[[created s]|e]|] eqn:E; [|discriminate Hc..].
  apply bool_decide_eq_true in Hc. subst s. exists created.
  split; [first [exact E|reflexivity]|]. f_equal.
  apply (proj2 (@quickstart_after_creation unit TransactionMessage owner_demo_env preview_lib
    demo_wirelib (mkKit None ∅) demo_quick demo_quick_world r created "created" Hr E)).
  - reflexivity.
  - reflexivity.
  - vm_compute. reflexivity.
  - vm_compute. discriminate.
Defined.
