(* ===== verification/Idl.v ===== *)
(** * The program's interface description ([target/types/sigil.ts])

    The IDL, as the Anchor build writes it for TypeScript, is one large literal type.
    [IdlInstructions] and [IdlTypes] are its contents in the vocabulary
    of this file; what a client must derive from them, the codec of a type and the default of
    an account, is defined here. *)

From S2P Require Import Prelude Types Accounts Bytes JsText Pdas Composer Codecs Instructions.
Local Open Scope string_scope.
Local Open Scope Z_scope.
Local Open Scope list_scope.

(** ** The literal's vocabulary *)
Inductive idl_ty :=
  | ItU8 | ItU16 | ItU32 | ItU64 | ItI64 | ItBool | ItPubkey | ItBytes
  | ItOption (t : idl_ty)
  | ItVec (t : idl_ty)
  | ItArray (t : idl_ty) (n : nat)
  | ItDefined (name : string).

(** ["kind": "const" | "account" | "arg"]; a path with a dot reads a field of the account. *)
Inductive idl_seed :=
  | IsConst (value : bytes)
  | IsAccount (path : string) (account : option string)
  | IsArg (path : string).

(** What fixes an account: nothing, an ["address"], or a ["pda"] of this or another program. *)
Inductive idl_origin :=
  | IoNone
  | IoAddress (address : string)
  | IoPda (seeds : list idl_seed) (program : option bytes).

Record idl_account := mkIdlAccount {
  ia_name : string;
  ia_writable : bool;
  ia_signer : bool;
  ia_optional : bool;
  ia_origin : idl_origin;
  ia_relations : list string;
}.

Record idl_ix := mkIdlIx {
  ii_name : string;
  ii_discriminator : bytes;
  ii_accounts : list idl_account;
  ii_args : list (string * idl_ty);
}.

Record idl_error := mkIdlError { ie_code : Z; ie_name : string; ie_msg : string }.

Inductive idl_body :=
  | IdlStruct (fields : list (string * idl_ty))
  | IdlEnum (variants : list string).

(** [it_serialization] is ["bytemuck"] for the zero-copy accounts. *)
Record idl_typedef := mkIdlType {
  it_name : string;
  it_serialization : option string;
  it_body : idl_body;
}.

(** ** The codec of a type

    A named type is looked up in the list; [fuel] bounds the nesting of names. An array of
    bytes is a fixed-size byte string. *)
Fixpoint idl_codec (types : list idl_typedef) (fuel : nat) (t : idl_ty) : option ctype :=
  match fuel with
  | O => None
  | S fuel' =>
      match t with
      | ItU8 => Some TU8 | ItU16 => Some TU16 | ItU32 => Some TU32
      | ItU64 => Some TU64 | ItI64 => Some TI64 | ItBool => Some TBool
      | ItPubkey => Some TAddress
      | ItBytes => Some TBlob
      | ItOption t => TOption <$> idl_codec types fuel' t
      | ItVec t => TVec <$> idl_codec types fuel' t
      | ItArray ItU8 n => Some (TBytes n)
      | ItArray t n => TArray n <$> idl_codec types fuel' t
      | ItDefined name =>
          d ← find_by (fun d => bool_decide (it_name d = name)) types;
          match it_body d with
          | IdlEnum variants => Some (TEnum (Z.of_nat (length variants)))
          | IdlStruct fields =>
              TStruct <$> mapM (fun f => (fun c => (f.1, c)) <$> idl_codec types fuel' f.2) fields
          end
      end
  end.

Definition idl_struct (types : list idl_typedef) (fuel : nat) (fields : list (string * idl_ty))
    : option struct_type :=
  mapM (fun f => (fun c => (f.1, c)) <$> idl_codec types fuel f.2) fields.

(** The fields of a struct of the list, by its name. *)
Definition idl_fields (types : list idl_typedef) (fuel : nat) (name : string) : option struct_type :=
  d ← find_by (fun d => bool_decide (it_name d = name)) types;
  match it_body d with
  | IdlStruct fields => idl_struct types fuel fields
  | IdlEnum _ => None
  end.

(** ** Addresses: base58 of 32 bytes, most significant first *)
Definition BASE58 : chars :=
  String.list_ascii_of_string "123456789ABCDEFGHJKLMNPQRSTUVWXYZabcdefghijkmnopqrstuvwxyz".

Definition be_value (bs : bytes) : Z := fold_left (fun v b => v * 256 + b) bs 0.

(** The digits of [n], least significant last; 32 bytes need at most 44. *)
Fixpoint base58_digits (fuel : nat) (n : Z) (acc : chars) : chars :=
  match fuel with
  | O => acc
  | S fuel' =>
      if n =? 0 then acc
      else base58_digits fuel' (n / 58)
             (default (Ascii.ascii_of_nat 49) (BASE58 !! Z.to_nat (n mod 58)) :: acc)
  end.

Fixpoint leading_zeros (bs : bytes) : nat :=
  match bs with
  | b :: bs' => if b =? 0 then S (leading_zeros bs') else O
  | [] => O
  end.

Definition base58_encode (bs : bytes) : string :=
  String.string_of_list_ascii
    (replicate (leading_zeros bs) (Ascii.ascii_of_nat 49) ++ base58_digits 44 (be_value bs) []).

(** ** The default of an account

    A seed that reads a field of an account needs the account's data, so an address derived
    from one has no default. *)
Definition idl_seed_spec (types : list idl_typedef) (args : list (string * idl_ty)) (s : idl_seed)
    : option seed :=
  match s with
  | IsConst v => Some (SBytes v)
  | IsAccount path None => Some (SAccount path)
  | IsAccount _ (Some _) => None
  | IsArg path => t ← jm_get path args; SArg path <$> idl_codec types 8 t
  end.

Definition idl_default (types : list idl_typedef) (i : idl_ix) (a : idl_account) : option acc_default :=
  match ia_origin a with
  | IoNone => None
  | IoAddress address => Some (DAddress address)
  | IoPda seeds program =>
      DPda (base58_encode <$> program) <$> mapM (idl_seed_spec types (ii_args i)) seeds
  end.

(** What a client's account entry is to say. *)
Definition idl_acc_spec (a : idl_account) : acc_spec :=
  mkAcc (ia_name a) (ia_writable a) (ia_signer a) (ia_optional a).
