(* ===== verification/IdlInstructions.v ===== *)
(** * The IDL: instructions

    One definition per entry of [instructions] in [target/types/sigil.ts]: its accounts with
    their flags, fixed addresses, derivations and relations, and its arguments. *)

From S2P Require Import Prelude Types Accounts Bytes Idl.
Local Open Scope string_scope.
Local Open Scope Z_scope.
Local Open Scope list_scope.

Definition idl_agentTransfer : idl_ix :=
  mkIdlIx "agentTransfer" [199; 111; 151; 49; 124; 13; 150; 44]
    [ mkIdlAccount "agent" true true false IoNone [];
      mkIdlAccount "vault" true false false
        (IoPda [IsConst [118; 97; 117; 108; 116];
                IsAccount "vault.owner" (Some "agentVault");
                IsAccount "vault.vault_id" (Some "agentVault")] None) ["policy"];
      mkIdlAccount "policy" false false false
        (IoPda [IsConst [112; 111; 108; 105; 99; 121];
                IsAccount "vault" None] None) [];
      mkIdlAccount "tracker" true false false
        (IoPda [IsConst [116; 114; 97; 99; 107; 101; 114];
                IsAccount "vault" None] None) [];
      mkIdlAccount "agentSpendOverlay" true false false IoNone [];
      mkIdlAccount "vaultTokenAccount" true false false IoNone [];
      mkIdlAccount "tokenMintAccount" false false false IoNone [];
      mkIdlAccount "destinationTokenAccount" true false false IoNone [];
      mkIdlAccount "feeDestinationTokenAccount" true false true IoNone [];
      mkIdlAccount "protocolTreasuryTokenAccount" true false true IoNone [];
      mkIdlAccount "tokenProgram" false false false
        (IoAddress "TokenkegQfeZyiNwAJbNbGKPFXCWuBvf9Ss623VQ5DA") [] ]
    [ ("amount", ItU64);
      ("expectedPolicyVersion", ItU64) ].

Definition idl_allocateConstraintsPda : idl_ix :=
  mkIdlIx "allocateConstraintsPda" [55; 127; 43; 98; 168; 156; 152; 157]
    [ mkIdlAccount "owner" true true false IoNone ["vault"];
      mkIdlAccount "vault" false false false
        (IoPda [IsConst [118; 97; 117; 108; 116];
                IsAccount "owner" None;
                IsAccount "vault.vault_id" (Some "agentVault")] None) ["policy"];
      mkIdlAccount "policy" false false false
        (IoPda [IsConst [112; 111; 108; 105; 99; 121];
                IsAccount "vault" None] None) [];
      mkIdlAccount "constraints" true false false
        (IoPda [IsConst [99; 111; 110; 115; 116; 114; 97; 105; 110; 116; 115];
                IsAccount "vault" None] None) [];
      mkIdlAccount "systemProgram" false false false
        (IoAddress "11111111111111111111111111111111") [] ]
    [].

Definition idl_allocatePendingConstraintsPda : idl_ix :=
  mkIdlIx "allocatePendingConstraintsPda" [211; 244; 224; 20; 224; 183; 236; 165]
    [ mkIdlAccount "owner" true true false IoNone ["vault"];
      mkIdlAccount "vault" false false false
        (IoPda [IsConst [118; 97; 117; 108; 116];
                IsAccount "owner" None;
                IsAccount "vault.vault_id" (Some "agentVault")] None) ["policy"];
      mkIdlAccount "policy" false false false
        (IoPda [IsConst [112; 111; 108; 105; 99; 121];
                IsAccount "vault" None] None) [];
      mkIdlAccount "constraints" false false false
        (IoPda [IsConst [99; 111; 110; 115; 116; 114; 97; 105; 110; 116; 115];
                IsAccount "vault" None] None) [];
      mkIdlAccount "pendingConstraints" true false false
        (IoPda [IsConst [112; 101; 110; 100; 105; 110; 103; 95; 99; 111; 110; 115; 116; 114; 97; 105; 110; 116; 115];
                IsAccount "vault" None] None) [];
      mkIdlAccount "systemProgram" false false false
        (IoAddress "11111111111111111111111111111111") [] ]
    [].

Definition idl_applyAgentPermissionsUpdate : idl_ix :=
  mkIdlIx "applyAgentPermissionsUpdate" [234; 166; 205; 3; 28; 166; 221; 240]
    [ mkIdlAccount "owner" true true false IoNone [];
      mkIdlAccount "vault" true false false
        (IoPda [IsConst [118; 97; 117; 108; 116];
                IsAccount "vault.owner" (Some "agentVault");
                IsAccount "vault.vault_id" (Some "agentVault")] None) ["policy"];
      mkIdlAccount "policy" true false false
        (IoPda [IsConst [112; 111; 108; 105; 99; 121];
                IsAccount "vault" None] None) [];
      mkIdlAccount "pendingAgentPerms" true false false
        (IoPda [IsConst [112; 101; 110; 100; 105; 110; 103; 95; 97; 103; 101; 110; 116; 95; 112; 101; 114; 109; 115];
                IsAccount "vault" None;
                IsAccount "pending_agent_perms.agent" (Some "pendingAgentPermissionsUpdate")] None) [];
      mkIdlAccount "agentSpendOverlay" true false false IoNone [] ]
    [].

Definition idl_applyCloseConstraints : idl_ix :=
  mkIdlIx "applyCloseConstraints" [133; 184; 235; 88; 53; 237; 43; 145]
    [ mkIdlAccount "owner" true true false IoNone ["vault"];
      mkIdlAccount "vault" false false false
        (IoPda [IsConst [118; 97; 117; 108; 116];
                IsAccount "owner" None;
                IsAccount "vault.vault_id" (Some "agentVault")] None) ["policy"];
      mkIdlAccount "policy" true false false
        (IoPda [IsConst [112; 111; 108; 105; 99; 121];
                IsAccount "vault" None] None) [];
      mkIdlAccount "constraints" true false false
        (IoPda [IsConst [99; 111; 110; 115; 116; 114; 97; 105; 110; 116; 115];
                IsAccount "vault" None] None) [];
      mkIdlAccount "pendingCloseConstraints" true false false
        (IoPda [IsConst [112; 101; 110; 100; 105; 110; 103; 95; 99; 108; 111; 115; 101; 95; 99; 111; 110; 115; 116; 114; 97; 105; 110; 116; 115];
                IsAccount "vault" None] None) [] ]
    [].

Definition idl_applyConstraintsUpdate : idl_ix :=
  mkIdlIx "applyConstraintsUpdate" [175; 103; 90; 155; 134; 91; 135; 242]
    [ mkIdlAccount "owner" true true false IoNone ["vault"];
      mkIdlAccount "vault" false false false
        (IoPda [IsConst [118; 97; 117; 108; 116];
                IsAccount "owner" None;
                IsAccount "vault.vault_id" (Some "agentVault")] None) ["policy"];
      mkIdlAccount "policy" true false false
        (IoPda [IsConst [112; 111; 108; 105; 99; 121];
                IsAccount "vault" None] None) [];
      mkIdlAccount "constraints" true false false
        (IoPda [IsConst [99; 111; 110; 115; 116; 114; 97; 105; 110; 116; 115];
                IsAccount "vault" None] None) [];
      mkIdlAccount "pendingConstraints" true false false
        (IoPda [IsConst [112; 101; 110; 100; 105; 110; 103; 95; 99; 111; 110; 115; 116; 114; 97; 105; 110; 116; 115];
                IsAccount "vault" None] None) [] ]
    [].

Definition idl_applyPendingPolicy : idl_ix :=
  mkIdlIx "applyPendingPolicy" [114; 212; 19; 227; 89; 199; 74; 62]
    [ mkIdlAccount "owner" true true false IoNone ["vault"];
      mkIdlAccount "vault" false false false
        (IoPda [IsConst [118; 97; 117; 108; 116];
                IsAccount "owner" None;
                IsAccount "vault.vault_id" (Some "agentVault")] None) ["policy"; "pendingPolicy"];
      mkIdlAccount "policy" true false false
        (IoPda [IsConst [112; 111; 108; 105; 99; 121];
                IsAccount "vault" None] None) [];
      mkIdlAccount "pendingPolicy" true false false
        (IoPda [IsConst [112; 101; 110; 100; 105; 110; 103; 95; 112; 111; 108; 105; 99; 121];
                IsAccount "vault" None] None) [] ]
    [].

Definition idl_cancelAgentPermissionsUpdate : idl_ix :=
  mkIdlIx "cancelAgentPermissionsUpdate" [92; 232; 92; 115; 110; 238; 235; 55]
    [ mkIdlAccount "owner" true true false IoNone ["vault"];
      mkIdlAccount "vault" false false false
        (IoPda [IsConst [118; 97; 117; 108; 116];
                IsAccount "owner" None;
                IsAccount "vault.vault_id" (Some "agentVault")] None) [];
      mkIdlAccount "pendingAgentPerms" true false false
        (IoPda [IsConst [112; 101; 110; 100; 105; 110; 103; 95; 97; 103; 101; 110; 116; 95; 112; 101; 114; 109; 115];
                IsAccount "vault" None;
                IsAccount "pending_agent_perms.agent" (Some "pendingAgentPermissionsUpdate")] None) [] ]
    [].

Definition idl_cancelCloseConstraints : idl_ix :=
  mkIdlIx "cancelCloseConstraints" [150; 125; 186; 114; 40; 105; 237; 184]
    [ mkIdlAccount "owner" true true false IoNone ["vault"];
      mkIdlAccount "vault" false false false
        (IoPda [IsConst [118; 97; 117; 108; 116];
                IsAccount "owner" None;
                IsAccount "vault.vault_id" (Some "agentVault")] None) [];
      mkIdlAccount "pendingCloseConstraints" true false false
        (IoPda [IsConst [112; 101; 110; 100; 105; 110; 103; 95; 99; 108; 111; 115; 101; 95; 99; 111; 110; 115; 116; 114; 97; 105; 110; 116; 115];
                IsAccount "vault" None] None) [] ]
    [].

Definition idl_cancelConstraintsUpdate : idl_ix :=
  mkIdlIx "cancelConstraintsUpdate" [169; 121; 85; 230; 154; 2; 78; 61]
    [ mkIdlAccount "owner" true true false IoNone ["vault"];
      mkIdlAccount "vault" false false false
        (IoPda [IsConst [118; 97; 117; 108; 116];
                IsAccount "owner" None;
                IsAccount "vault.vault_id" (Some "agentVault")] None) [];
      mkIdlAccount "pendingConstraints" true false false
        (IoPda [IsConst [112; 101; 110; 100; 105; 110; 103; 95; 99; 111; 110; 115; 116; 114; 97; 105; 110; 116; 115];
                IsAccount "vault" None] None) [] ]
    [].

Definition idl_cancelPendingPolicy : idl_ix :=
  mkIdlIx "cancelPendingPolicy" [153; 36; 104; 200; 50; 94; 207; 33]
    [ mkIdlAccount "owner" true true false IoNone ["vault"];
      mkIdlAccount "vault" false false false
        (IoPda [IsConst [118; 97; 117; 108; 116];
                IsAccount "owner" None;
                IsAccount "vault.vault_id" (Some "agentVault")] None) ["policy"; "pendingPolicy"];
      mkIdlAccount "policy" true false false
        (IoPda [IsConst [112; 111; 108; 105; 99; 121];
                IsAccount "vault" None] None) [];
      mkIdlAccount "pendingPolicy" true false false
        (IoPda [IsConst [112; 101; 110; 100; 105; 110; 103; 95; 112; 111; 108; 105; 99; 121];
                IsAccount "vault" None] None) [] ]
    [].

Definition idl_cleanupOrphanConstraintsPda : idl_ix :=
  mkIdlIx "cleanupOrphanConstraintsPda" [69; 181; 93; 235; 116; 229; 116; 4]
    [ mkIdlAccount "owner" true true false IoNone ["vault"];
      mkIdlAccount "vault" false false false
        (IoPda [IsConst [118; 97; 117; 108; 116];
                IsAccount "owner" None;
                IsAccount "vault.vault_id" (Some "agentVault")] None) ["policy"];
      mkIdlAccount "policy" false false false
        (IoPda [IsConst [112; 111; 108; 105; 99; 121];
                IsAccount "vault" None] None) [];
      mkIdlAccount "orphanPda" true false false
        (IoPda [IsConst [99; 111; 110; 115; 116; 114; 97; 105; 110; 116; 115];
                IsAccount "vault" None] None) [] ]
    [].

Definition idl_closePostAssertions : idl_ix :=
  mkIdlIx "closePostAssertions" [226; 172; 252; 173; 29; 236; 59; 248]
    [ mkIdlAccount "owner" true true false IoNone ["vault"];
      mkIdlAccount "vault" true false false
        (IoPda [IsConst [118; 97; 117; 108; 116];
                IsAccount "owner" None;
                IsAccount "vault.vault_id" (Some "agentVault")] None) [];
      mkIdlAccount "policy" true false false
        (IoPda [IsConst [112; 111; 108; 105; 99; 121];
                IsAccount "vault" None] None) [];
      mkIdlAccount "postAssertions" true false false
        (IoPda [IsConst [112; 111; 115; 116; 95; 97; 115; 115; 101; 114; 116; 105; 111; 110; 115];
                IsAccount "vault" None] None) [];
      mkIdlAccount "systemProgram" false false false
        (IoAddress "11111111111111111111111111111111") [] ]
    [].

Definition idl_closeSettledEscrow : idl_ix :=
  mkIdlIx "closeSettledEscrow" [169; 244; 164; 173; 181; 214; 139; 6]
    [ mkIdlAccount "signer" true true false IoNone [];
      mkIdlAccount "sourceVault" false false false
        (IoPda [IsConst [118; 97; 117; 108; 116];
                IsAccount "source_vault.owner" (Some "agentVault");
                IsAccount "source_vault.vault_id" (Some "agentVault")] None) ["escrow"];
      mkIdlAccount "destinationVaultKey" false false false IoNone [];
      mkIdlAccount "escrow" true false false
        (IoPda [IsConst [101; 115; 99; 114; 111; 119];
                IsAccount "sourceVault" None;
                IsAccount "destinationVaultKey" None;
                IsArg "escrowId"] None) [] ]
    [ ("escrowId", ItU64) ].

Definition idl_closeVault : idl_ix :=
  mkIdlIx "closeVault" [141; 103; 17; 126; 72; 75; 29; 29]
    [ mkIdlAccount "owner" true true false IoNone ["vault"];
      mkIdlAccount "vault" true false false
        (IoPda [IsConst [118; 97; 117; 108; 116];
                IsAccount "owner" None;
                IsAccount "vault.vault_id" (Some "agentVault")] None) ["policy"];
      mkIdlAccount "policy" true false false
        (IoPda [IsConst [112; 111; 108; 105; 99; 121];
                IsAccount "vault" None] None) [];
      mkIdlAccount "tracker" true false false
        (IoPda [IsConst [116; 114; 97; 99; 107; 101; 114];
                IsAccount "vault" None] None) [];
      mkIdlAccount "agentSpendOverlay" true false false IoNone [];
      mkIdlAccount "systemProgram" false false false
        (IoAddress "11111111111111111111111111111111") [] ]
    [].

Definition idl_createEscrow : idl_ix :=
  mkIdlIx "createEscrow" [253; 215; 165; 116; 36; 108; 68; 80]
    [ mkIdlAccount "agent" true true false IoNone [];
      mkIdlAccount "sourceVault" true false false
        (IoPda [IsConst [118; 97; 117; 108; 116];
                IsAccount "source_vault.owner" (Some "agentVault");
                IsAccount "source_vault.vault_id" (Some "agentVault")] None) [];
      mkIdlAccount "policy" false false false
        (IoPda [IsConst [112; 111; 108; 105; 99; 121];
                IsAccount "sourceVault" None] None) [];
      mkIdlAccount "tracker" true false false
        (IoPda [IsConst [116; 114; 97; 99; 107; 101; 114];
                IsAccount "sourceVault" None] None) [];
      mkIdlAccount "agentSpendOverlay" true false false IoNone [];
      mkIdlAccount "destinationVault" false false false
        (IoPda [IsConst [118; 97; 117; 108; 116];
                IsAccount "destination_vault.owner" (Some "agentVault");
                IsAccount "destination_vault.vault_id" (Some "agentVault")] None) [];
      mkIdlAccount "escrow" true false false
        (IoPda [IsConst [101; 115; 99; 114; 111; 119];
                IsAccount "sourceVault" None;
                IsAccount "destinationVault" None;
                IsArg "escrowId"] None) [];
      mkIdlAccount "sourceVaultAta" true false false IoNone [];
      mkIdlAccount "escrowAta" true false false
        (IoPda [IsAccount "escrow" None;
                IsConst [6; 221; 246; 225; 215; 101; 161; 147; 217; 203; 225; 70; 206; 235; 121; 172; 28; 180; 133; 237; 95; 91; 55; 145; 58; 140; 245; 133; 126; 255; 0; 169];
                IsAccount "tokenMint" None] (Some [140; 151; 37; 143; 78; 36; 137; 241; 187; 61; 16; 41; 20; 142; 13; 131; 11; 90; 19; 153; 218; 255; 16; 132; 4; 142; 123; 216; 219; 233; 248; 89])) [];
      mkIdlAccount "protocolTreasuryAta" true false true IoNone [];
      mkIdlAccount "feeDestinationAta" true false true IoNone [];
      mkIdlAccount "tokenMint" false false false IoNone [];
      mkIdlAccount "tokenProgram" false false false
        (IoAddress "TokenkegQfeZyiNwAJbNbGKPFXCWuBvf9Ss623VQ5DA") [];
      mkIdlAccount "systemProgram" false false false
        (IoAddress "11111111111111111111111111111111") [];
      mkIdlAccount "associatedTokenProgram" false false false
        (IoAddress "ATokenGPvbdGVxr1b2hvZbsiqW5xWH25efTNsLJA8knL") [] ]
    [ ("escrowId", ItU64);
      ("amount", ItU64);
      ("expiresAt", ItI64);
      ("conditionHash", ItArray ItU8 32) ].

Definition idl_createInstructionConstraints : idl_ix :=
  mkIdlIx "createInstructionConstraints" [13; 182; 97; 5; 57; 136; 26; 152]
    [ mkIdlAccount "owner" true true false IoNone ["vault"];
      mkIdlAccount "vault" false false false
        (IoPda [IsConst [118; 97; 117; 108; 116];
                IsAccount "owner" None;
                IsAccount "vault.vault_id" (Some "agentVault")] None) ["policy"];
      mkIdlAccount "policy" true false false
        (IoPda [IsConst [112; 111; 108; 105; 99; 121];
                IsAccount "vault" None] None) [];
      mkIdlAccount "constraints" true false false
        (IoPda [IsConst [99; 111; 110; 115; 116; 114; 97; 105; 110; 116; 115];
                IsAccount "vault" None] None) [] ]
    [ ("entries", ItVec (ItDefined "constraintEntry"));
      ("strictMode", ItBool) ].

Definition idl_createPostAssertions : idl_ix :=
  mkIdlIx "createPostAssertions" [204; 21; 218; 182; 202; 140; 239; 63]
    [ mkIdlAccount "owner" true true false IoNone ["vault"];
      mkIdlAccount "vault" true false false
        (IoPda [IsConst [118; 97; 117; 108; 116];
                IsAccount "owner" None;
                IsAccount "vault.vault_id" (Some "agentVault")] None) [];
      mkIdlAccount "policy" true false false
        (IoPda [IsConst [112; 111; 108; 105; 99; 121];
                IsAccount "vault" None] None) [];
      mkIdlAccount "postAssertions" true false false
        (IoPda [IsConst [112; 111; 115; 116; 95; 97; 115; 115; 101; 114; 116; 105; 111; 110; 115];
                IsAccount "vault" None] None) [];
      mkIdlAccount "systemProgram" false false false
        (IoAddress "11111111111111111111111111111111") [] ]
    [ ("entries", ItVec (ItDefined "postAssertionEntry")) ].

(** * The IDL: instructions, C to W

    One definition per entry of [instructions] in [target/types/sigil.ts]: its accounts with
    their flags, fixed addresses, derivations and relations, and its arguments. *)

Definition idl_depositFunds : idl_ix :=
  mkIdlIx "depositFunds" [202; 39; 52; 211; 53; 20; 250; 88]
    [ mkIdlAccount "owner" true true false IoNone ["vault"];
      mkIdlAccount "vault" true false false
        (IoPda [IsConst [118; 97; 117; 108; 116];
                IsAccount "owner" None;
                IsAccount "vault.vault_id" (Some "agentVault")] None) [];
      mkIdlAccount "mint" false false false IoNone [];
      mkIdlAccount "ownerTokenAccount" true false false
        (IoPda [IsAccount "owner" None;
                IsConst [6; 221; 246; 225; 215; 101; 161; 147; 217; 203; 225; 70; 206; 235; 121; 172; 28; 180; 133; 237; 95; 91; 55; 145; 58; 140; 245; 133; 126; 255; 0; 169];
                IsAccount "mint" None] (Some [140; 151; 37; 143; 78; 36; 137; 241; 187; 61; 16; 41; 20; 142; 13; 131; 11; 90; 19; 153; 218; 255; 16; 132; 4; 142; 123; 216; 219; 233; 248; 89])) [];
      mkIdlAccount "vaultTokenAccount" true false false
        (IoPda [IsAccount "vault" None;
                IsConst [6; 221; 246; 225; 215; 101; 161; 147; 217; 203; 225; 70; 206; 235; 121; 172; 28; 180; 133; 237; 95; 91; 55; 145; 58; 140; 245; 133; 126; 255; 0; 169];
                IsAccount "mint" None] (Some [140; 151; 37; 143; 78; 36; 137; 241; 187; 61; 16; 41; 20; 142; 13; 131; 11; 90; 19; 153; 218; 255; 16; 132; 4; 142; 123; 216; 219; 233; 248; 89])) [];
      mkIdlAccount "tokenProgram" false false false
        (IoAddress "TokenkegQfeZyiNwAJbNbGKPFXCWuBvf9Ss623VQ5DA") [];
      mkIdlAccount "associatedTokenProgram" false false false
        (IoAddress "ATokenGPvbdGVxr1b2hvZbsiqW5xWH25efTNsLJA8knL") [];
      mkIdlAccount "systemProgram" false false false
        (IoAddress "11111111111111111111111111111111") [] ]
    [ ("amount", ItU64) ].

Definition idl_extendPda : idl_ix :=
  mkIdlIx "extendPda" [13; 211; 140; 90; 104; 28; 141; 200]
    [ mkIdlAccount "owner" true true false IoNone ["vault"];
      mkIdlAccount "vault" false false false
        (IoPda [IsConst [118; 97; 117; 108; 116];
                IsAccount "owner" None;
                IsAccount "vault.vault_id" (Some "agentVault")] None) [];
      mkIdlAccount "pda" true false false IoNone [];
      mkIdlAccount "systemProgram" false false false
        (IoAddress "11111111111111111111111111111111") [] ]
    [ ("targetSize", ItU32) ].

Definition idl_finalizeSession : idl_ix :=
  mkIdlIx "finalizeSession" [34; 148; 144; 47; 37; 130; 206; 161]
    [ mkIdlAccount "payer" true true false IoNone [];
      mkIdlAccount "vault" true false false
        (IoPda [IsConst [118; 97; 117; 108; 116];
                IsAccount "vault.owner" (Some "agentVault");
                IsAccount "vault.vault_id" (Some "agentVault")] None) ["session"];
      mkIdlAccount "session" true false false
        (IoPda [IsConst [115; 101; 115; 115; 105; 111; 110];
                IsAccount "vault" None;
                IsAccount "session.agent" (Some "sessionAuthority");
                IsAccount "session.authorized_token" (Some "sessionAuthority")] None) [];
      mkIdlAccount "sessionRentRecipient" true false false IoNone [];
      mkIdlAccount "policy" false false false
        (IoPda [IsConst [112; 111; 108; 105; 99; 121];
                IsAccount "vault" None] None) [];
      mkIdlAccount "tracker" true false false
        (IoPda [IsConst [116; 114; 97; 99; 107; 101; 114];
                IsAccount "vault" None] None) [];
      mkIdlAccount "agentSpendOverlay" true false false IoNone [];
      mkIdlAccount "vaultTokenAccount" true false true IoNone [];
      mkIdlAccount "outputStablecoinAccount" true false true IoNone [];
      mkIdlAccount "tokenProgram" false false false
        (IoAddress "TokenkegQfeZyiNwAJbNbGKPFXCWuBvf9Ss623VQ5DA") [];
      mkIdlAccount "systemProgram" false false false
        (IoAddress "11111111111111111111111111111111") [];
      mkIdlAccount "instructionsSysvar" false false false
        (IoAddress "Sysvar1nstructions1111111111111111111111111") [] ]
    [].

Definition idl_freezeVault : idl_ix :=
  mkIdlIx "freezeVault" [144; 211; 63; 236; 97; 31; 170; 175]
    [ mkIdlAccount "owner" false true false IoNone ["vault"];
      mkIdlAccount "vault" true false false
        (IoPda [IsConst [118; 97; 117; 108; 116];
                IsAccount "owner" None;
                IsAccount "vault.vault_id" (Some "agentVault")] None) [];
      mkIdlAccount "tokenProgram" false false false
        (IoAddress "TokenkegQfeZyiNwAJbNbGKPFXCWuBvf9Ss623VQ5DA") [] ]
    [].

Definition idl_initializeVault : idl_ix :=
  mkIdlIx "initializeVault" [48; 191; 163; 44; 71; 129; 63; 164]
    [ mkIdlAccount "owner" true true false IoNone [];
      mkIdlAccount "vault" true false false
        (IoPda [IsConst [118; 97; 117; 108; 116];
                IsAccount "owner" None;
                IsArg "vaultId"] None) [];
      mkIdlAccount "policy" true false false
        (IoPda [IsConst [112; 111; 108; 105; 99; 121];
                IsAccount "vault" None] None) [];
      mkIdlAccount "tracker" true false false
        (IoPda [IsConst [116; 114; 97; 99; 107; 101; 114];
                IsAccount "vault" None] None) [];
      mkIdlAccount "agentSpendOverlay" true false false IoNone [];
      mkIdlAccount "feeDestination" false false false IoNone [];
      mkIdlAccount "systemProgram" false false false
        (IoAddress "11111111111111111111111111111111") [] ]
    [ ("vaultId", ItU64);
      ("dailySpendingCapUsd", ItU64);
      ("maxTransactionSizeUsd", ItU64);
      ("protocolMode", ItU8);
      ("protocols", ItVec ItPubkey);
      ("developerFeeRate", ItU16);
      ("maxSlippageBps", ItU16);
      ("timelockDuration", ItU64);
      ("allowedDestinations", ItVec ItPubkey);
      ("protocolCaps", ItVec ItU64) ].

Definition idl_pauseAgent : idl_ix :=
  mkIdlIx "pauseAgent" [148; 32; 1; 26; 147; 122; 178; 140]
    [ mkIdlAccount "owner" false true false IoNone ["vault"];
      mkIdlAccount "vault" true false false
        (IoPda [IsConst [118; 97; 117; 108; 116];
                IsAccount "owner" None;
                IsAccount "vault.vault_id" (Some "agentVault")] None) [] ]
    [ ("agentToPause", ItPubkey) ].

Definition idl_queueAgentPermissionsUpdate : idl_ix :=
  mkIdlIx "queueAgentPermissionsUpdate" [182; 37; 105; 181; 28; 195; 223; 167]
    [ mkIdlAccount "owner" true true false IoNone ["vault"];
      mkIdlAccount "vault" false false false
        (IoPda [IsConst [118; 97; 117; 108; 116];
                IsAccount "owner" None;
                IsAccount "vault.vault_id" (Some "agentVault")] None) ["policy"];
      mkIdlAccount "policy" false false false
        (IoPda [IsConst [112; 111; 108; 105; 99; 121];
                IsAccount "vault" None] None) [];
      mkIdlAccount "pendingAgentPerms" true false false
        (IoPda [IsConst [112; 101; 110; 100; 105; 110; 103; 95; 97; 103; 101; 110; 116; 95; 112; 101; 114; 109; 115];
                IsAccount "vault" None;
                IsArg "agent"] None) [];
      mkIdlAccount "systemProgram" false false false
        (IoAddress "11111111111111111111111111111111") [] ]
    [ ("agent", ItPubkey);
      ("newCapability", ItU8);
      ("spendingLimitUsd", ItU64) ].

Definition idl_queueCloseConstraints : idl_ix :=
  mkIdlIx "queueCloseConstraints" [248; 124; 93; 115; 195; 88; 11; 109]
    [ mkIdlAccount "owner" true true false IoNone ["vault"];
      mkIdlAccount "vault" false false false
        (IoPda [IsConst [118; 97; 117; 108; 116];
                IsAccount "owner" None;
                IsAccount "vault.vault_id" (Some "agentVault")] None) ["policy"];
      mkIdlAccount "policy" false false false
        (IoPda [IsConst [112; 111; 108; 105; 99; 121];
                IsAccount "vault" None] None) [];
      mkIdlAccount "constraints" false false false
        (IoPda [IsConst [99; 111; 110; 115; 116; 114; 97; 105; 110; 116; 115];
                IsAccount "vault" None] None) [];
      mkIdlAccount "pendingCloseConstraints" true false false
        (IoPda [IsConst [112; 101; 110; 100; 105; 110; 103; 95; 99; 108; 111; 115; 101; 95; 99; 111; 110; 115; 116; 114; 97; 105; 110; 116; 115];
                IsAccount "vault" None] None) [];
      mkIdlAccount "systemProgram" false false false
        (IoAddress "11111111111111111111111111111111") [] ]
    [].

Definition idl_queueConstraintsUpdate : idl_ix :=
  mkIdlIx "queueConstraintsUpdate" [247; 253; 233; 93; 233; 54; 53; 131]
    [ mkIdlAccount "owner" true true false IoNone ["vault"];
      mkIdlAccount "vault" false false false
        (IoPda [IsConst [118; 97; 117; 108; 116];
                IsAccount "owner" None;
                IsAccount "vault.vault_id" (Some "agentVault")] None) ["policy"];
      mkIdlAccount "policy" false false false
        (IoPda [IsConst [112; 111; 108; 105; 99; 121];
                IsAccount "vault" None] None) [];
      mkIdlAccount "constraints" false false false
        (IoPda [IsConst [99; 111; 110; 115; 116; 114; 97; 105; 110; 116; 115];
                IsAccount "vault" None] None) [];
      mkIdlAccount "pendingConstraints" true false false
        (IoPda [IsConst [112; 101; 110; 100; 105; 110; 103; 95; 99; 111; 110; 115; 116; 114; 97; 105; 110; 116; 115];
                IsAccount "vault" None] None) [] ]
    [ ("entries", ItVec (ItDefined "constraintEntry"));
      ("strictMode", ItBool) ].

Definition idl_queuePolicyUpdate : idl_ix :=
  mkIdlIx "queuePolicyUpdate" [149; 18; 76; 197; 179; 193; 91; 77]
    [ mkIdlAccount "owner" true true false IoNone ["vault"];
      mkIdlAccount "vault" false false false
        (IoPda [IsConst [118; 97; 117; 108; 116];
                IsAccount "owner" None;
                IsAccount "vault.vault_id" (Some "agentVault")] None) ["policy"];
      mkIdlAccount "policy" true false false
        (IoPda [IsConst [112; 111; 108; 105; 99; 121];
                IsAccount "vault" None] None) [];
      mkIdlAccount "pendingPolicy" true false false
        (IoPda [IsConst [112; 101; 110; 100; 105; 110; 103; 95; 112; 111; 108; 105; 99; 121];
                IsAccount "vault" None] None) [];
      mkIdlAccount "systemProgram" false false false
        (IoAddress "11111111111111111111111111111111") [] ]
    [ ("dailySpendingCapUsd", ItOption ItU64);
      ("maxTransactionAmountUsd", ItOption ItU64);
      ("protocolMode", ItOption ItU8);
      ("protocols", ItOption (ItVec ItPubkey));
      ("developerFeeRate", ItOption ItU16);
      ("maxSlippageBps", ItOption ItU16);
      ("timelockDuration", ItOption ItU64);
      ("allowedDestinations", ItOption (ItVec ItPubkey));
      ("sessionExpirySeconds", ItOption ItU64);
      ("hasProtocolCaps", ItOption ItBool);
      ("protocolCaps", ItOption (ItVec ItU64));
      ("destinationMode", ItOption ItU8) ].

Definition idl_reactivateVault : idl_ix :=
  mkIdlIx "reactivateVault" [245; 50; 143; 70; 114; 220; 25; 251]
    [ mkIdlAccount "owner" false true false IoNone ["vault"];
      mkIdlAccount "vault" true false false
        (IoPda [IsConst [118; 97; 117; 108; 116];
                IsAccount "owner" None;
                IsAccount "vault.vault_id" (Some "agentVault")] None) [] ]
    [ ("newAgent", ItOption ItPubkey);
      ("newAgentCapability", ItOption ItU8) ].

Definition idl_refundEscrow : idl_ix :=
  mkIdlIx "refundEscrow" [107; 186; 89; 99; 26; 194; 23; 204]
    [ mkIdlAccount "sourceSigner" true true false IoNone [];
      mkIdlAccount "sourceVault" true false false
        (IoPda [IsConst [118; 97; 117; 108; 116];
                IsAccount "source_vault.owner" (Some "agentVault");
                IsAccount "source_vault.vault_id" (Some "agentVault")] None) [];
      mkIdlAccount "escrow" true false false
        (IoPda [IsConst [101; 115; 99; 114; 111; 119];
                IsAccount "sourceVault" None;
                IsAccount "escrow.destination_vault" (Some "escrowDeposit");
                IsAccount "escrow.escrow_id" (Some "escrowDeposit")] None) [];
      mkIdlAccount "escrowAta" true false false
        (IoPda [IsAccount "escrow" None;
                IsConst [6; 221; 246; 225; 215; 101; 161; 147; 217; 203; 225; 70; 206; 235; 121; 172; 28; 180; 133; 237; 95; 91; 55; 145; 58; 140; 245; 133; 126; 255; 0; 169];
                IsAccount "tokenMint" None] (Some [140; 151; 37; 143; 78; 36; 137; 241; 187; 61; 16; 41; 20; 142; 13; 131; 11; 90; 19; 153; 218; 255; 16; 132; 4; 142; 123; 216; 219; 233; 248; 89])) [];
      mkIdlAccount "sourceVaultAta" true false false IoNone [];
      mkIdlAccount "rentDestination" true false false IoNone [];
      mkIdlAccount "tokenMint" false false false IoNone [];
      mkIdlAccount "tokenProgram" false false false
        (IoAddress "TokenkegQfeZyiNwAJbNbGKPFXCWuBvf9Ss623VQ5DA") [] ]
    [].

Definition idl_registerAgent : idl_ix :=
  mkIdlIx "registerAgent" [135; 157; 66; 195; 2; 113; 175; 30]
    [ mkIdlAccount "owner" false true false IoNone ["vault"];
      mkIdlAccount "vault" true false false
        (IoPda [IsConst [118; 97; 117; 108; 116];
                IsAccount "owner" None;
                IsAccount "vault.vault_id" (Some "agentVault")] None) [];
      mkIdlAccount "agentSpendOverlay" true false false IoNone [] ]
    [ ("agent", ItPubkey);
      ("capability", ItU8);
      ("spendingLimitUsd", ItU64) ].

Definition idl_revokeAgent : idl_ix :=
  mkIdlIx "revokeAgent" [227; 60; 209; 125; 240; 117; 163; 73]
    [ mkIdlAccount "owner" false true false IoNone ["vault"];
      mkIdlAccount "vault" true false false
        (IoPda [IsConst [118; 97; 117; 108; 116];
                IsAccount "owner" None;
                IsAccount "vault.vault_id" (Some "agentVault")] None) [];
      mkIdlAccount "agentSpendOverlay" true false false IoNone [] ]
    [ ("agentToRemove", ItPubkey) ].

Definition idl_settleEscrow : idl_ix :=
  mkIdlIx "settleEscrow" [22; 135; 160; 194; 23; 186; 124; 110]
    [ mkIdlAccount "destinationAgent" true true false IoNone [];
      mkIdlAccount "destinationVault" false false false
        (IoPda [IsConst [118; 97; 117; 108; 116];
                IsAccount "destination_vault.owner" (Some "agentVault");
                IsAccount "destination_vault.vault_id" (Some "agentVault")] None) [];
      mkIdlAccount "sourceVault" true false false
        (IoPda [IsConst [118; 97; 117; 108; 116];
                IsAccount "source_vault.owner" (Some "agentVault");
                IsAccount "source_vault.vault_id" (Some "agentVault")] None) [];
      mkIdlAccount "escrow" true false false
        (IoPda [IsConst [101; 115; 99; 114; 111; 119];
                IsAccount "sourceVault" None;
                IsAccount "destinationVault" None;
                IsAccount "escrow.escrow_id" (Some "escrowDeposit")] None) [];
      mkIdlAccount "escrowAta" true false false
        (IoPda [IsAccount "escrow" None;
                IsConst [6; 221; 246; 225; 215; 101; 161; 147; 217; 203; 225; 70; 206; 235; 121; 172; 28; 180; 133; 237; 95; 91; 55; 145; 58; 140; 245; 133; 126; 255; 0; 169];
                IsAccount "tokenMint" None] (Some [140; 151; 37; 143; 78; 36; 137; 241; 187; 61; 16; 41; 20; 142; 13; 131; 11; 90; 19; 153; 218; 255; 16; 132; 4; 142; 123; 216; 219; 233; 248; 89])) [];
      mkIdlAccount "destinationVaultAta" true false false IoNone [];
      mkIdlAccount "rentDestination" true false false IoNone [];
      mkIdlAccount "tokenMint" false false false IoNone [];
      mkIdlAccount "tokenProgram" false false false
        (IoAddress "TokenkegQfeZyiNwAJbNbGKPFXCWuBvf9Ss623VQ5DA") [] ]
    [ ("proof", ItBytes) ].

Definition idl_unpauseAgent : idl_ix :=
  mkIdlIx "unpauseAgent" [46; 125; 165; 212; 241; 143; 190; 95]
    [ mkIdlAccount "owner" false true false IoNone ["vault"];
      mkIdlAccount "vault" true false false
        (IoPda [IsConst [118; 97; 117; 108; 116];
                IsAccount "owner" None;
                IsAccount "vault.vault_id" (Some "agentVault")] None) [] ]
    [ ("agentToUnpause", ItPubkey) ].

Definition idl_validateAndAuthorize : idl_ix :=
  mkIdlIx "validateAndAuthorize" [22; 183; 48; 222; 218; 11; 197; 152]
    [ mkIdlAccount "agent" true true false IoNone [];
      mkIdlAccount "vault" true false false
        (IoPda [IsConst [118; 97; 117; 108; 116];
                IsAccount "vault.owner" (Some "agentVault");
                IsAccount "vault.vault_id" (Some "agentVault")] None) ["policy"];
      mkIdlAccount "policy" false false false
        (IoPda [IsConst [112; 111; 108; 105; 99; 121];
                IsAccount "vault" None] None) [];
      mkIdlAccount "tracker" true false false
        (IoPda [IsConst [116; 114; 97; 99; 107; 101; 114];
                IsAccount "vault" None] None) [];
      mkIdlAccount "agentSpendOverlay" true false false IoNone [];
      mkIdlAccount "session" true false false
        (IoPda [IsConst [115; 101; 115; 115; 105; 111; 110];
                IsAccount "vault" None;
                IsAccount "agent" None;
                IsArg "tokenMint"] None) [];
      mkIdlAccount "vaultTokenAccount" true false false IoNone [];
      mkIdlAccount "tokenMintAccount" false false false IoNone [];
      mkIdlAccount "protocolTreasuryTokenAccount" true false true IoNone [];
      mkIdlAccount "feeDestinationTokenAccount" true false true IoNone [];
      mkIdlAccount "outputStablecoinAccount" true false true IoNone [];
      mkIdlAccount "tokenProgram" false false false
        (IoAddress "TokenkegQfeZyiNwAJbNbGKPFXCWuBvf9Ss623VQ5DA") [];
      mkIdlAccount "systemProgram" false false false
        (IoAddress "11111111111111111111111111111111") [];
      mkIdlAccount "instructionsSysvar" false false false
        (IoAddress "Sysvar1nstructions1111111111111111111111111") [] ]
    [ ("tokenMint", ItPubkey);
      ("amount", ItU64);
      ("targetProtocol", ItPubkey);
      ("expectedPolicyVersion", ItU64) ].

Definition idl_withdrawFunds : idl_ix :=
  mkIdlIx "withdrawFunds" [241; 36; 29; 111; 208; 31; 104; 217]
    [ mkIdlAccount "owner" true true false IoNone ["vault"];
      mkIdlAccount "vault" true false false
        (IoPda [IsConst [118; 97; 117; 108; 116];
                IsAccount "owner" None;
                IsAccount "vault.vault_id" (Some "agentVault")] None) [];
      mkIdlAccount "mint" false false false IoNone [];
      mkIdlAccount "vaultTokenAccount" true false false
        (IoPda [IsAccount "vault" None;
                IsConst [6; 221; 246; 225; 215; 101; 161; 147; 217; 203; 225; 70; 206; 235; 121; 172; 28; 180; 133; 237; 95; 91; 55; 145; 58; 140; 245; 133; 126; 255; 0; 169];
                IsAccount "mint" None] (Some [140; 151; 37; 143; 78; 36; 137; 241; 187; 61; 16; 41; 20; 142; 13; 131; 11; 90; 19; 153; 218; 255; 16; 132; 4; 142; 123; 216; 219; 233; 248; 89])) [];
      mkIdlAccount "ownerTokenAccount" true false false
        (IoPda [IsAccount "owner" None;
                IsConst [6; 221; 246; 225; 215; 101; 161; 147; 217; 203; 225; 70; 206; 235; 121; 172; 28; 180; 133; 237; 95; 91; 55; 145; 58; 140; 245; 133; 126; 255; 0; 169];
                IsAccount "mint" None] (Some [140; 151; 37; 143; 78; 36; 137; 241; 187; 61; 16; 41; 20; 142; 13; 131; 11; 90; 19; 153; 218; 255; 16; 132; 4; 142; 123; 216; 219; 233; 248; 89])) [];
      mkIdlAccount "tokenProgram" false false false
        (IoAddress "TokenkegQfeZyiNwAJbNbGKPFXCWuBvf9Ss623VQ5DA") [] ]
    [ ("amount", ItU64) ].
