(* ===== verification/IdlTypes.v ===== *)
(** * The IDL: accounts, types, events and errors

    The discriminators of the accounts and events, the types, in the order of the file the
    plain ones first and then those of the events, and the error list. *)

From S2P Require Import Prelude Types Accounts Bytes Idl.
Local Open Scope string_scope.
Local Open Scope Z_scope.
Local Open Scope list_scope.

(** ** Accounts *)
Definition IDL_ACCOUNTS_1 : list (string * bytes) :=
  [ ("agentSpendOverlay", [126; 248; 13; 218; 101; 148; 135; 44]);
    ("agentVault", [232; 220; 237; 164; 157; 9; 215; 194]);
    ("escrowDeposit", [56; 152; 208; 160; 159; 83; 6; 17]);
    ("instructionConstraints", [183; 235; 149; 166; 174; 58; 98; 218]);
    ("pendingAgentPermissionsUpdate", [137; 132; 60; 184; 171; 184; 194; 56]);
    ("pendingCloseConstraints", [128; 154; 58; 181; 85; 163; 243; 233]);
    ("pendingConstraintsUpdate", [22; 206; 77; 208; 147; 121; 53; 174]);
    ("pendingPolicyUpdate", [77; 255; 2; 51; 79; 237; 183; 239]);
    ("policyConfig", [219; 7; 79; 84; 175; 51; 148; 146]);
    ("postExecutionAssertions", [1; 104; 4; 208; 143; 120; 4; 77]);
    ("sessionAuthority", [48; 9; 30; 120; 134; 35; 172; 170]) ].

Definition IDL_ACCOUNTS_2 : list (string * bytes) :=
  [ ("spendTracker", [180; 17; 195; 180; 162; 207; 239; 205]) ].

Definition IDL_ACCOUNTS : list (string * bytes) := IDL_ACCOUNTS_1 ++ IDL_ACCOUNTS_2.

(** ** Events *)
Definition IDL_EVENTS_1 : list (string * bytes) :=
  [ ("actionAuthorized", [85; 90; 59; 218; 126; 8; 179; 63]);
    ("agentPausedEvent", [39; 74; 148; 94; 198; 166; 121; 23]);
    ("agentPermissionsChangeApplied", [233; 247; 103; 30; 130; 173; 196; 183]);
    ("agentPermissionsChangeCancelled", [107; 21; 129; 77; 1; 136; 68; 216]);
    ("agentPermissionsChangeQueued", [211; 242; 237; 217; 72; 52; 150; 80]);
    ("agentRegistered", [191; 78; 217; 54; 232; 100; 189; 85]);
    ("agentRevoked", [12; 251; 249; 166; 122; 83; 162; 116]);
    ("agentSpendLimitChecked", [107; 128; 60; 144; 163; 83; 45; 215]);
    ("agentTransferExecuted", [88; 52; 117; 69; 112; 152; 167; 40]);
    ("agentUnpausedEvent", [218; 187; 253; 124; 79; 192; 42; 181]);
    ("closeConstraintsApplied", [186; 62; 25; 109; 144; 207; 83; 13]) ].

Definition IDL_EVENTS_2 : list (string * bytes) :=
  [ ("closeConstraintsCancelled", [102; 226; 171; 191; 99; 98; 255; 134]);
    ("closeConstraintsQueued", [77; 23; 232; 153; 108; 46; 243; 53]);
    ("constraintsChangeApplied", [112; 150; 111; 125; 243; 133; 35; 55]);
    ("constraintsChangeCancelled", [15; 75; 104; 222; 104; 193; 65; 145]);
    ("constraintsChangeQueued", [111; 221; 100; 149; 52; 23; 88; 212]);
    ("delegationRevoked", [59; 158; 142; 49; 164; 116; 220; 8]);
    ("escrowCreated", [70; 127; 105; 102; 92; 97; 7; 173]);
    ("escrowRefunded", [132; 209; 49; 109; 135; 138; 28; 81]);
    ("escrowSettled", [97; 27; 150; 55; 203; 179; 173; 23]);
    ("feesCollected", [233; 23; 117; 225; 107; 178; 254; 8]);
    ("fundsDeposited", [157; 209; 100; 95; 59; 100; 3; 68]) ].

Definition IDL_EVENTS_3 : list (string * bytes) :=
  [ ("fundsWithdrawn", [56; 130; 230; 154; 35; 92; 11; 118]);
    ("instructionConstraintsCreated", [8; 170; 99; 232; 31; 216; 57; 26]);
    ("orphanConstraintsPdaCleaned", [161; 234; 147; 131; 31; 163; 145; 25]);
    ("pdaAllocated", [27; 99; 195; 198; 238; 53; 3; 181]);
    ("pdaExtended", [67; 151; 95; 79; 12; 11; 51; 242]);
    ("policyChangeApplied", [104; 89; 5; 100; 180; 202; 52; 73]);
    ("policyChangeCancelled", [200; 158; 226; 255; 25; 211; 30; 151]);
    ("policyChangeQueued", [73; 231; 182; 136; 141; 120; 32; 79]);
    ("postAssertionChecked", [166; 106; 92; 10; 195; 60; 247; 125]);
    ("postAssertionsClosed", [7; 20; 224; 102; 80; 60; 78; 11]);
    ("postAssertionsCreated", [49; 89; 152; 110; 58; 20; 68; 31]) ].

Definition IDL_EVENTS_4 : list (string * bytes) :=
  [ ("sessionFinalized", [33; 12; 242; 91; 206; 42; 163; 235]);
    ("vaultClosed", [238; 129; 38; 228; 227; 118; 249; 215]);
    ("vaultCreated", [117; 25; 120; 254; 75; 236; 78; 115]);
    ("vaultFrozen", [13; 199; 172; 111; 88; 10; 151; 247]);
    ("vaultReactivated", [197; 52; 160; 147; 159; 89; 90; 28]) ].

Definition IDL_EVENTS : list (string * bytes) := IDL_EVENTS_1 ++ IDL_EVENTS_2 ++ IDL_EVENTS_3 ++ IDL_EVENTS_4.

(** ** Errors *)
Definition IDL_ERRORS_1 : list idl_error :=
  [ mkIdlError 6000 "vaultNotActive" "Vault is not active";
    mkIdlError 6001 "unauthorizedAgent" "Unauthorized: signer is not the registered agent";
    mkIdlError 6002 "unauthorizedOwner" "Unauthorized: signer is not the vault owner";
    mkIdlError 6003 "unsupportedToken" "Token is not a supported stablecoin (only USDC and USDT)";
    mkIdlError 6004 "protocolNotAllowed" "Protocol not allowed by policy";
    mkIdlError 6005 "transactionTooLarge" "Transaction exceeds maximum single transaction size";
    mkIdlError 6006 "spendingCapExceeded" "Rolling 24h spending cap would be exceeded";
    mkIdlError 6007 "sessionNotAuthorized" "Session not authorized";
    mkIdlError 6008 "invalidSession" "Invalid session: does not belong to this vault";
    mkIdlError 6009 "tooManyAllowedProtocols" "Policy configuration invalid: too many allowed protocols";
    mkIdlError 6010 "agentAlreadyRegistered" "Agent already registered for this vault";
    mkIdlError 6011 "noAgentRegistered" "No agent registered for this vault";
    mkIdlError 6012 "vaultNotFrozen" "Vault is not frozen (expected frozen for reactivation)";
    mkIdlError 6013 "vaultAlreadyClosed" "Vault is already closed";
    mkIdlError 6014 "insufficientBalance" "Insufficient vault balance for withdrawal";
    mkIdlError 6015 "developerFeeTooHigh" "Developer fee rate exceeds maximum (500 / 1,000,000 = 5 BPS)";
    mkIdlError 6016 "invalidFeeDestination" "Fee destination account invalid";
    mkIdlError 6017 "invalidProtocolTreasury" "Protocol treasury account does not match expected address";
    mkIdlError 6018 "invalidAgentKey" "Invalid agent: cannot be the zero address";
    mkIdlError 6019 "agentIsOwner" "Invalid agent: agent cannot be the vault owner";
    mkIdlError 6020 "overflow" "Arithmetic overflow";
    mkIdlError 6021 "invalidTokenAccount" "Token account does not belong to vault or has wrong mint";
    mkIdlError 6022 "timelockNotExpired" "Timelock period has not expired yet";
    mkIdlError 6023 "noTimelockConfigured" "No timelock configured on this vault";
    mkIdlError 6024 "destinationNotAllowed" "Destination not in allowed list";
    mkIdlError 6025 "tooManyDestinations" "Too many destinations (max 10)";
    mkIdlError 6026 "invalidProtocolMode" "Invalid protocol mode (must be 0, 1, or 2)";
    mkIdlError 6027 "cpiCallNotAllowed" "Instruction must be top-level (CPI calls not allowed)";
    mkIdlError 6028 "missingFinalizeInstruction" "Transaction must include finalize_session after validate" ].

Definition IDL_ERRORS_2 : list idl_error :=
  [ mkIdlError 6029 "nonTrackedSwapMustReturnStablecoin" "Non-stablecoin swap must return stablecoin (balance did not increase)";
    mkIdlError 6030 "swapSlippageExceeded" "Swap slippage exceeds policy max_slippage_bps or quoted output is zero";
    mkIdlError 6031 "invalidJupiterInstruction" "Cannot parse Jupiter swap instruction data";
    mkIdlError 6032 "unauthorizedTokenTransfer" "Top-level SPL Token transfer not allowed between validate and finalize";
    mkIdlError 6033 "slippageBpsTooHigh" "Slippage BPS exceeds maximum (5000 = 50%)";
    mkIdlError 6034 "protocolMismatch" "DeFi instruction program does not match declared target_protocol";
    mkIdlError 6035 "tooManyDeFiInstructions" "Spending allows at most one DeFi instruction";
    mkIdlError 6036 "maxAgentsReached" "Maximum agents per vault reached (limit: 10)";
    mkIdlError 6037 "insufficientPermissions" "Agent lacks permission for this action type";
    mkIdlError 6038 "invalidPermissions" "Permission bitmask contains invalid bits";
    mkIdlError 6039 "escrowNotActive" "Escrow is not in Active status";
    mkIdlError 6040 "escrowExpired" "Escrow has expired";
    mkIdlError 6041 "escrowNotExpired" "Escrow has not expired yet";
    mkIdlError 6042 "invalidEscrowVault" "Invalid escrow vault";
    mkIdlError 6043 "escrowConditionsNotMet" "Escrow conditions not met";
    mkIdlError 6044 "escrowDurationExceeded" "Escrow duration exceeds maximum (30 days)";
    mkIdlError 6045 "invalidConstraintConfig" "Invalid constraint configuration: bounds exceeded";
    mkIdlError 6046 "constraintViolated" "Instruction constraint violated";
    mkIdlError 6047 "invalidConstraintsPda" "Invalid constraints PDA: wrong owner or vault";
    mkIdlError 6048 "invalidPendingConstraintsPda" "Invalid pending constraints PDA: wrong owner or vault";
    mkIdlError 6049 "agentSpendLimitExceeded" "Agent rolling 24h spend exceeds per-agent spending limit";
    mkIdlError 6050 "overlaySlotExhausted" "Per-agent overlay is full; cannot register agent with spending limit";
    mkIdlError 6051 "agentSlotNotFound" "Agent has per-agent spending limit but no overlay tracking slot";
    mkIdlError 6052 "unauthorizedTokenApproval" "Unauthorized SPL Token Approve between validate and finalize";
    mkIdlError 6053 "invalidSessionExpiry" "Session expiry slots out of range (10-450)";
    mkIdlError 6054 "unconstrainedProgramBlocked" "Program has no constraint entry and strict mode is enabled";
    mkIdlError 6055 "protocolCapExceeded" "Per-protocol rolling 24h spending cap would be exceeded";
    mkIdlError 6056 "protocolCapsMismatch" "protocol_caps length must match protocols length when has_protocol_caps is true";
    mkIdlError 6057 "activeEscrowsExist" "Cannot close vault with active escrow deposits" ].

Definition IDL_ERRORS_3 : list idl_error :=
  [ mkIdlError 6058 "constraintsNotClosed" "Instruction constraints must be closed before closing vault";
    mkIdlError 6059 "pendingPolicyExists" "Pending policy update must be applied or cancelled before closing vault";
    mkIdlError 6060 "agentPaused" "Agent is paused and cannot execute actions";
    mkIdlError 6061 "agentAlreadyPaused" "Agent is already paused";
    mkIdlError 6062 "agentNotPaused" "Agent is not paused";
    mkIdlError 6063 "unauthorizedPostFinalizeInstruction" "Instructions after finalize_session must be ComputeBudget or SystemProgram only";
    mkIdlError 6064 "unexpectedBalanceDecrease" "Vault balance decreased more than delegated amount — potential CPI attack";
    mkIdlError 6065 "timelockTooShort" "Timelock duration below minimum (1800 seconds / 30 minutes)";
    mkIdlError 6066 "policyVersionMismatch" "Policy version mismatch — policy changed since agent's last RPC read";
    mkIdlError 6067 "activeSessionsExist" "Cannot close vault with active sessions (finalize pending sessions first)";
    mkIdlError 6068 "postAssertionFailed" "Post-execution assertion failed: account state did not satisfy constraint";
    mkIdlError 6069 "invalidPostAssertionIndex" "Post-assertion constraint references invalid instruction index";
    mkIdlError 6070 "unauthorizedPreValidateInstruction" "Non-infrastructure instruction detected before validate_and_authorize";
    mkIdlError 6071 "snapshotNotCaptured" "Delta assertion snapshot was not captured in validate_and_authorize";
    mkIdlError 6072 "invalidConstraintOperator" "Constraint operator value is not a valid ConstraintOperator discriminant";
    mkIdlError 6073 "constraintsVaultMismatch" "Zero-copy constraints account has wrong vault";
    mkIdlError 6074 "blockedSplOpcode" "SPL opcode is blocked at runtime and cannot be used in constraints";
    mkIdlError 6075 "queuedUpdateExpired" "Queued update is too old (>MAX_APPLY_AGE_SLOTS) — re-queue to apply. Defends against durable-nonce pre-signing.";
    mkIdlError 6076 "accountWritabilityMismatch" "Account writability flag does not match constraint requirement";
    mkIdlError 6077 "sysvarScanBoundExceeded" "Sysvar instruction scan exceeded the per-tx safety bound";
    mkIdlError 6078 "asyncFulfillmentNotPermitted" "Async-fulfillment program is not permitted in V1 (Jupiter Perps, Drift, Drift JIT). Spending cannot be measured because keeper submits the actual transfer in a separate transaction after finalize_session returns.";
    mkIdlError 6079 "constraintsAlreadyPopulated" "Cannot clean an active constraints PDA; use queue+apply_close_constraints";
    mkIdlError 6080 "orphanPdaWrongOwner" "PDA at constraints seeds is not program-owned";
    mkIdlError 6081 "orphanPdaPopulated" "PDA is fully populated; not an orphan";
    mkIdlError 6082 "confidentialTransferBlocked" "Token-2022 ConfidentialTransfer not permitted between validate and finalize";
    mkIdlError 6083 "permanentDelegateBlocked" "Token-2022 PermanentDelegate not permitted between validate and finalize";
    mkIdlError 6084 "transferHookBlocked" "Token-2022 TransferHook not permitted between validate and finalize";
    mkIdlError 6085 "lamportDrainBlocked" "Token-2022 destructive-balance ix (opcodes 38/45/46) not permitted between validate and finalize";
    mkIdlError 6086 "batchInstructionBlocked" "Token-2022 Batch instruction (opcode 255) is blocked outright — wraps inner instructions and bypasses byte-0 blocklist" ].

Definition IDL_ERRORS_4 : list idl_error :=
  [ mkIdlError 6087 "invalidDestinationMode" "Invalid destination mode (must be 0 = Restricted or 1 = OpenWithCap)" ].

Definition IDL_ERRORS : list idl_error := IDL_ERRORS_1 ++ IDL_ERRORS_2 ++ IDL_ERRORS_3 ++ IDL_ERRORS_4.

(** ** Types *)
Definition idlty_accountConstraint : idl_typedef :=
  mkIdlType "accountConstraint" None (IdlStruct
    [ ("index", ItU8);
      ("isWritableRequired", ItU8);
      ("expected", ItPubkey) ]).

Definition idlty_accountConstraintZc : idl_typedef :=
  mkIdlType "accountConstraintZc" (Some "bytemuck") (IdlStruct
    [ ("expected", ItArray ItU8 32);
      ("index", ItU8);
      ("isWritableRequired", ItU8);
      ("padding", ItArray ItU8 6) ]).

Definition idlty_agentContributionEntry : idl_typedef :=
  mkIdlType "agentContributionEntry" (Some "bytemuck") (IdlStruct
    [ ("agent", ItArray ItU8 32);
      ("lastWriteEpoch", ItI64);
      ("contributions", ItArray ItU64 24) ]).

Definition idlty_agentEntry : idl_typedef :=
  mkIdlType "agentEntry" None (IdlStruct
    [ ("pubkey", ItPubkey);
      ("capability", ItU8);
      ("spendingLimitUsd", ItU64);
      ("paused", ItBool);
      ("reserved", ItArray ItU8 7) ]).

Definition idlty_agentSpendOverlay : idl_typedef :=
  mkIdlType "agentSpendOverlay" (Some "bytemuck") (IdlStruct
    [ ("vault", ItPubkey);
      ("entries", ItArray (ItDefined "agentContributionEntry") 10);
      ("bump", ItU8);
      ("padding", ItArray ItU8 7);
      ("lifetimeSpend", ItArray ItU64 10);
      ("lifetimeTxCount", ItArray ItU64 10) ]).

Definition idlty_agentVault : idl_typedef :=
  mkIdlType "agentVault" None (IdlStruct
    [ ("owner", ItPubkey);
      ("vaultId", ItU64);
      ("agents", ItVec (ItDefined "agentEntry"));
      ("feeDestination", ItPubkey);
      ("status", ItDefined "vaultStatus");
      ("bump", ItU8);
      ("createdAt", ItI64);
      ("totalTransactions", ItU64);
      ("totalVolume", ItU64);
      ("activeEscrowCount", ItU8);
      ("totalFeesCollected", ItU64);
      ("totalDepositedUsd", ItU64);
      ("totalWithdrawnUsd", ItU64);
      ("totalFailedTransactions", ItU64);
      ("activeSessions", ItU8) ]).

Definition idlty_constraintEntry : idl_typedef :=
  mkIdlType "constraintEntry" None (IdlStruct
    [ ("programId", ItPubkey);
      ("dataConstraints", ItVec (ItDefined "dataConstraint"));
      ("accountConstraints", ItVec (ItDefined "accountConstraint"));
      ("discriminatorFormat", ItDefined "discriminatorFormat") ]).

Definition idlty_constraintEntryZc : idl_typedef :=
  mkIdlType "constraintEntryZc" (Some "bytemuck") (IdlStruct
    [ ("programId", ItArray ItU8 32);
      ("dataConstraints", ItArray (ItDefined "dataConstraintZc") 8);
      ("accountConstraints", ItArray (ItDefined "accountConstraintZc") 5);
      ("dataCount", ItU8);
      ("accountCount", ItU8);
      ("reservedWasIsSpending", ItU8);
      ("discriminatorFormat", ItU8);
      ("padding", ItArray ItU8 4) ]).

Definition idlty_constraintOperator : idl_typedef :=
  mkIdlType "constraintOperator" None (IdlEnum [ "eq";
                "ne";
                "gte";
                "lte";
                "gteSigned";
                "lteSigned";
                "bitmask" ]).

Definition idlty_dataConstraint : idl_typedef :=
  mkIdlType "dataConstraint" None (IdlStruct
    [ ("offset", ItU16);
      ("operator", ItDefined "constraintOperator");
      ("value", ItBytes) ]).

Definition idlty_dataConstraintZc : idl_typedef :=
  mkIdlType "dataConstraintZc" (Some "bytemuck") (IdlStruct
    [ ("offset", ItU16);
      ("operator", ItU8);
      ("valueLen", ItU8);
      ("value", ItArray ItU8 32);
      ("padding", ItArray ItU8 4) ]).

Definition idlty_discriminatorFormat : idl_typedef :=
  mkIdlType "discriminatorFormat" None (IdlEnum [ "anchor8";
                "spl1" ]).

Definition idlty_epochBucket : idl_typedef :=
  mkIdlType "epochBucket" (Some "bytemuck") (IdlStruct
    [ ("epochId", ItI64);
      ("usdAmount", ItU64) ]).

Definition idlty_escrowDeposit : idl_typedef :=
  mkIdlType "escrowDeposit" None (IdlStruct
    [ ("sourceVault", ItPubkey);
      ("destinationVault", ItPubkey);
      ("escrowId", ItU64);
      ("amount", ItU64);
      ("tokenMint", ItPubkey);
      ("createdAt", ItI64);
      ("expiresAt", ItI64);
      ("status", ItDefined "escrowStatus");
      ("conditionHash", ItArray ItU8 32);
      ("bump", ItU8) ]).

Definition idlty_escrowStatus : idl_typedef :=
  mkIdlType "escrowStatus" None (IdlEnum [ "active";
                "settled";
                "refunded" ]).

Definition idlty_instructionConstraints : idl_typedef :=
  mkIdlType "instructionConstraints" (Some "bytemuck") (IdlStruct
    [ ("vault", ItArray ItU8 32);
      ("entries", ItArray (ItDefined "constraintEntryZc") 64);
      ("entryCount", ItU8);
      ("strictMode", ItU8);
      ("bump", ItU8);
      ("constraintVersion", ItU8);
      ("padding", ItArray ItU8 4) ]).

Definition idlty_pendingAgentPermissionsUpdate : idl_typedef :=
  mkIdlType "pendingAgentPermissionsUpdate" None (IdlStruct
    [ ("vault", ItPubkey);
      ("agent", ItPubkey);
      ("newCapability", ItU8);
      ("reservedCap", ItArray ItU8 7);
      ("spendingLimitUsd", ItU64);
      ("queuedAt", ItI64);
      ("executesAt", ItI64);
      ("queuedAtSlot", ItU64);
      ("bump", ItU8) ]).

Definition idlty_pendingCloseConstraints : idl_typedef :=
  mkIdlType "pendingCloseConstraints" None (IdlStruct
    [ ("vault", ItPubkey);
      ("queuedAt", ItI64);
      ("executesAt", ItI64);
      ("queuedAtSlot", ItU64);
      ("bump", ItU8) ]).

Definition idlty_pendingConstraintsUpdate : idl_typedef :=
  mkIdlType "pendingConstraintsUpdate" (Some "bytemuck") (IdlStruct
    [ ("vault", ItArray ItU8 32);
      ("entries", ItArray (ItDefined "constraintEntryZc") 64);
      ("entryCount", ItU8);
      ("strictMode", ItU8);
      ("bump", ItU8);
      ("padding", ItArray ItU8 5);
      ("queuedAt", ItI64);
      ("executesAt", ItI64);
      ("queuedAtSlot", ItU64) ]).

Definition idlty_pendingPolicyUpdate : idl_typedef :=
  mkIdlType "pendingPolicyUpdate" None (IdlStruct
    [ ("vault", ItPubkey);
      ("queuedAt", ItI64);
      ("executesAt", ItI64);
      ("queuedAtSlot", ItU64);
      ("dailySpendingCapUsd", ItOption ItU64);
      ("maxTransactionAmountUsd", ItOption ItU64);
      ("protocolMode", ItOption ItU8);
      ("protocols", ItOption (ItVec ItPubkey));
      ("developerFeeRate", ItOption ItU16);
      ("maxSlippageBps", ItOption ItU16);
      ("timelockDuration", ItOption ItU64);
      ("allowedDestinations", ItOption (ItVec ItPubkey));
      ("sessionExpirySeconds", ItOption ItU64);
      ("hasProtocolCaps", ItOption ItBool);
      ("protocolCaps", ItOption (ItVec ItU64));
      ("destinationMode", ItOption ItU8);
      ("bump", ItU8) ]).

Definition idlty_policyConfig : idl_typedef :=
  mkIdlType "policyConfig" None (IdlStruct
    [ ("vault", ItPubkey);
      ("dailySpendingCapUsd", ItU64);
      ("maxTransactionSizeUsd", ItU64);
      ("protocolMode", ItU8);
      ("protocols", ItVec ItPubkey);
      ("developerFeeRate", ItU16);
      ("maxSlippageBps", ItU16);
      ("timelockDuration", ItU64);
      ("allowedDestinations", ItVec ItPubkey);
      ("hasConstraints", ItBool);
      ("hasPendingPolicy", ItBool);
      ("hasProtocolCaps", ItBool);
      ("protocolCaps", ItVec ItU64);
      ("sessionExpirySeconds", ItU64);
      ("bump", ItU8);
      ("policyVersion", ItU64);
      ("hasPostAssertions", ItU8);
      ("destinationMode", ItU8) ]).

Definition idlty_postAssertionEntry : idl_typedef :=
  mkIdlType "postAssertionEntry" None (IdlStruct
    [ ("targetAccount", ItPubkey);
      ("offset", ItU16);
      ("valueLen", ItU8);
      ("operator", ItU8);
      ("expectedValue", ItBytes);
      ("assertionMode", ItU8);
      ("crossFieldOffsetB", ItU16);
      ("crossFieldMultiplierBps", ItU32);
      ("crossFieldFlags", ItU8) ]).

Definition idlty_postAssertionEntryZc : idl_typedef :=
  mkIdlType "postAssertionEntryZc" (Some "bytemuck") (IdlStruct
    [ ("targetAccount", ItArray ItU8 32);
      ("offset", ItU16);
      ("valueLen", ItU8);
      ("operator", ItU8);
      ("expectedValue", ItArray ItU8 32);
      ("assertionMode", ItU8);
      ("crossFieldOffsetB", ItArray ItU8 2);
      ("crossFieldMultiplierBps", ItArray ItU8 4);
      ("crossFieldFlags", ItU8) ]).

Definition idlty_postExecutionAssertions : idl_typedef :=
  mkIdlType "postExecutionAssertions" (Some "bytemuck") (IdlStruct
    [ ("vault", ItArray ItU8 32);
      ("entries", ItArray (ItDefined "postAssertionEntryZc") 4);
      ("entryCount", ItU8);
      ("bump", ItU8);
      ("padding", ItArray ItU8 6) ]).

Definition idlty_protocolSpendCounter : idl_typedef :=
  mkIdlType "protocolSpendCounter" (Some "bytemuck") (IdlStruct
    [ ("protocol", ItArray ItU8 32);
      ("windowStart", ItI64);
      ("windowSpend", ItU64) ]).

Definition idlty_sessionAuthority : idl_typedef :=
  mkIdlType "sessionAuthority" None (IdlStruct
    [ ("vault", ItPubkey);
      ("agent", ItPubkey);
      ("authorized", ItBool);
      ("authorizedAmount", ItU64);
      ("authorizedToken", ItPubkey);
      ("authorizedProtocol", ItPubkey);
      ("isSpending", ItBool);
      ("expiresAtTimestamp", ItI64);
      ("delegated", ItBool);
      ("delegationTokenAccount", ItPubkey);
      ("protocolFee", ItU64);
      ("developerFee", ItU64);
      ("outputMint", ItPubkey);
      ("stablecoinBalanceBefore", ItU64);
      ("bump", ItU8);
      ("assertionSnapshots", ItArray (ItArray ItU8 32) 4);
      ("snapshotLens", ItArray ItU8 4) ]).

Definition idlty_spendTracker : idl_typedef :=
  mkIdlType "spendTracker" (Some "bytemuck") (IdlStruct
    [ ("vault", ItPubkey);
      ("buckets", ItArray (ItDefined "epochBucket") 144);
      ("protocolCounters", ItArray (ItDefined "protocolSpendCounter") 10);
      ("lastWriteEpoch", ItI64);
      ("bump", ItU8);
      ("padding", ItArray ItU8 7) ]).

Definition idlty_vaultStatus : idl_typedef :=
  mkIdlType "vaultStatus" None (IdlEnum [ "active";
                "frozen";
                "closed" ]).

(** ** The types of the events *)
Definition idlty_actionAuthorized : idl_typedef :=
  mkIdlType "actionAuthorized" None (IdlStruct
    [ ("vault", ItPubkey);
      ("agent", ItPubkey);
      ("isSpending", ItBool);
      ("tokenMint", ItPubkey);
      ("amount", ItU64);
      ("usdAmount", ItU64);
      ("protocol", ItPubkey);
      ("rollingSpendUsdAfter", ItU64);
      ("dailyCapUsd", ItU64);
      ("delegated", ItBool);
      ("timestamp", ItI64) ]).

Definition idlty_agentPausedEvent : idl_typedef :=
  mkIdlType "agentPausedEvent" None (IdlStruct
    [ ("vault", ItPubkey);
      ("agent", ItPubkey);
      ("timestamp", ItI64) ]).

Definition idlty_agentPermissionsChangeApplied : idl_typedef :=
  mkIdlType "agentPermissionsChangeApplied" None (IdlStruct
    [ ("vault", ItPubkey);
      ("agent", ItPubkey);
      ("appliedAt", ItI64) ]).

Definition idlty_agentPermissionsChangeCancelled : idl_typedef :=
  mkIdlType "agentPermissionsChangeCancelled" None (IdlStruct
    [ ("vault", ItPubkey);
      ("agent", ItPubkey) ]).

Definition idlty_agentPermissionsChangeQueued : idl_typedef :=
  mkIdlType "agentPermissionsChangeQueued" None (IdlStruct
    [ ("vault", ItPubkey);
      ("agent", ItPubkey);
      ("executesAt", ItI64) ]).

Definition idlty_agentRegistered : idl_typedef :=
  mkIdlType "agentRegistered" None (IdlStruct
    [ ("vault", ItPubkey);
      ("agent", ItPubkey);
      ("capability", ItU8);
      ("spendingLimitUsd", ItU64);
      ("timestamp", ItI64) ]).

Definition idlty_agentRevoked : idl_typedef :=
  mkIdlType "agentRevoked" None (IdlStruct
    [ ("vault", ItPubkey);
      ("agent", ItPubkey);
      ("remainingAgents", ItU8);
      ("timestamp", ItI64) ]).

Definition idlty_agentSpendLimitChecked : idl_typedef :=
  mkIdlType "agentSpendLimitChecked" None (IdlStruct
    [ ("vault", ItPubkey);
      ("agent", ItPubkey);
      ("agentRollingSpend", ItU64);
      ("spendingLimitUsd", ItU64);
      ("amount", ItU64);
      ("timestamp", ItI64) ]).

Definition idlty_agentTransferExecuted : idl_typedef :=
  mkIdlType "agentTransferExecuted" None (IdlStruct
    [ ("vault", ItPubkey);
      ("destination", ItPubkey);
      ("amount", ItU64);
      ("mint", ItPubkey) ]).

Definition idlty_agentUnpausedEvent : idl_typedef :=
  mkIdlType "agentUnpausedEvent" None (IdlStruct
    [ ("vault", ItPubkey);
      ("agent", ItPubkey);
      ("timestamp", ItI64) ]).

Definition idlty_closeConstraintsApplied : idl_typedef :=
  mkIdlType "closeConstraintsApplied" None (IdlStruct
    [ ("vault", ItPubkey);
      ("appliedAt", ItI64) ]).

Definition idlty_closeConstraintsCancelled : idl_typedef :=
  mkIdlType "closeConstraintsCancelled" None (IdlStruct
    [ ("vault", ItPubkey) ]).

Definition idlty_closeConstraintsQueued : idl_typedef :=
  mkIdlType "closeConstraintsQueued" None (IdlStruct
    [ ("vault", ItPubkey);
      ("executesAt", ItI64) ]).

Definition idlty_constraintsChangeApplied : idl_typedef :=
  mkIdlType "constraintsChangeApplied" None (IdlStruct
    [ ("vault", ItPubkey);
      ("discriminatorFormats", ItBytes);
      ("appliedAt", ItI64) ]).

Definition idlty_constraintsChangeCancelled : idl_typedef :=
  mkIdlType "constraintsChangeCancelled" None (IdlStruct
    [ ("vault", ItPubkey) ]).

Definition idlty_constraintsChangeQueued : idl_typedef :=
  mkIdlType "constraintsChangeQueued" None (IdlStruct
    [ ("vault", ItPubkey);
      ("discriminatorFormats", ItBytes);
      ("executesAt", ItI64) ]).

Definition idlty_delegationRevoked : idl_typedef :=
  mkIdlType "delegationRevoked" None (IdlStruct
    [ ("vault", ItPubkey);
      ("tokenAccount", ItPubkey);
      ("timestamp", ItI64) ]).

Definition idlty_escrowCreated : idl_typedef :=
  mkIdlType "escrowCreated" None (IdlStruct
    [ ("sourceVault", ItPubkey);
      ("destinationVault", ItPubkey);
      ("escrowId", ItU64);
      ("amount", ItU64);
      ("tokenMint", ItPubkey);
      ("expiresAt", ItI64);
      ("conditionHash", ItArray ItU8 32) ]).

Definition idlty_escrowRefunded : idl_typedef :=
  mkIdlType "escrowRefunded" None (IdlStruct
    [ ("sourceVault", ItPubkey);
      ("destinationVault", ItPubkey);
      ("escrowId", ItU64);
      ("amount", ItU64);
      ("refundedBy", ItPubkey) ]).

Definition idlty_escrowSettled : idl_typedef :=
  mkIdlType "escrowSettled" None (IdlStruct
    [ ("sourceVault", ItPubkey);
      ("destinationVault", ItPubkey);
      ("escrowId", ItU64);
      ("amount", ItU64);
      ("settledBy", ItPubkey) ]).

Definition idlty_feesCollected : idl_typedef :=
  mkIdlType "feesCollected" None (IdlStruct
    [ ("vault", ItPubkey);
      ("tokenMint", ItPubkey);
      ("protocolFeeAmount", ItU64);
      ("developerFeeAmount", ItU64);
      ("protocolFeeRate", ItU16);
      ("developerFeeRate", ItU16);
      ("transactionAmount", ItU64);
      ("protocolTreasury", ItPubkey);
      ("developerFeeDestination", ItPubkey);
      ("cumulativeDeveloperFees", ItU64);
      ("timestamp", ItI64) ]).

Definition idlty_fundsDeposited : idl_typedef :=
  mkIdlType "fundsDeposited" None (IdlStruct
    [ ("vault", ItPubkey);
      ("tokenMint", ItPubkey);
      ("amount", ItU64);
      ("timestamp", ItI64) ]).

Definition idlty_fundsWithdrawn : idl_typedef :=
  mkIdlType "fundsWithdrawn" None (IdlStruct
    [ ("vault", ItPubkey);
      ("tokenMint", ItPubkey);
      ("amount", ItU64);
      ("destination", ItPubkey);
      ("timestamp", ItI64) ]).

Definition idlty_instructionConstraintsCreated : idl_typedef :=
  mkIdlType "instructionConstraintsCreated" None (IdlStruct
    [ ("vault", ItPubkey);
      ("entriesCount", ItU8);
      ("strictMode", ItBool);
      ("discriminatorFormats", ItBytes);
      ("timestamp", ItI64) ]).

Definition idlty_orphanConstraintsPdaCleaned : idl_typedef :=
  mkIdlType "orphanConstraintsPdaCleaned" None (IdlStruct
    [ ("vault", ItPubkey);
      ("rentRecovered", ItU64);
      ("timestamp", ItI64) ]).

Definition idlty_pdaAllocated : idl_typedef :=
  mkIdlType "pdaAllocated" None (IdlStruct
    [ ("vault", ItPubkey);
      ("pdaType", ItU8);
      ("initialSize", ItU32);
      ("timestamp", ItI64) ]).

Definition idlty_pdaExtended : idl_typedef :=
  mkIdlType "pdaExtended" None (IdlStruct
    [ ("vault", ItPubkey);
      ("oldSize", ItU32);
      ("newSize", ItU32);
      ("timestamp", ItI64) ]).

Definition idlty_policyChangeApplied : idl_typedef :=
  mkIdlType "policyChangeApplied" None (IdlStruct
    [ ("vault", ItPubkey);
      ("appliedAt", ItI64) ]).

Definition idlty_policyChangeCancelled : idl_typedef :=
  mkIdlType "policyChangeCancelled" None (IdlStruct
    [ ("vault", ItPubkey) ]).

Definition idlty_policyChangeQueued : idl_typedef :=
  mkIdlType "policyChangeQueued" None (IdlStruct
    [ ("vault", ItPubkey);
      ("executesAt", ItI64) ]).

Definition idlty_postAssertionChecked : idl_typedef :=
  mkIdlType "postAssertionChecked" None (IdlStruct
    [ ("vault", ItPubkey);
      ("entryIndex", ItU8);
      ("passed", ItBool);
      ("timestamp", ItI64) ]).

Definition idlty_postAssertionsClosed : idl_typedef :=
  mkIdlType "postAssertionsClosed" None (IdlStruct
    [ ("vault", ItPubkey);
      ("timestamp", ItI64) ]).

Definition idlty_postAssertionsCreated : idl_typedef :=
  mkIdlType "postAssertionsCreated" None (IdlStruct
    [ ("vault", ItPubkey);
      ("entryCount", ItU8);
      ("timestamp", ItI64) ]).

Definition idlty_sessionFinalized : idl_typedef :=
  mkIdlType "sessionFinalized" None (IdlStruct
    [ ("vault", ItPubkey);
      ("agent", ItPubkey);
      ("success", ItBool);
      ("isExpired", ItBool);
      ("timestamp", ItI64);
      ("actualSpendUsd", ItU64);
      ("balanceAfterUsd", ItU64);
      ("isSpending", ItBool) ]).

Definition idlty_vaultClosed : idl_typedef :=
  mkIdlType "vaultClosed" None (IdlStruct
    [ ("vault", ItPubkey);
      ("owner", ItPubkey);
      ("timestamp", ItI64) ]).

Definition idlty_vaultCreated : idl_typedef :=
  mkIdlType "vaultCreated" None (IdlStruct
    [ ("vault", ItPubkey);
      ("owner", ItPubkey);
      ("vaultId", ItU64);
      ("timestamp", ItI64) ]).

Definition idlty_vaultFrozen : idl_typedef :=
  mkIdlType "vaultFrozen" None (IdlStruct
    [ ("vault", ItPubkey);
      ("owner", ItPubkey);
      ("agentsPreserved", ItU8);
      ("sessionsRevoked", ItU32);
      ("timestamp", ItI64) ]).

Definition idlty_vaultReactivated : idl_typedef :=
  mkIdlType "vaultReactivated" None (IdlStruct
    [ ("vault", ItPubkey);
      ("newAgent", ItOption ItPubkey);
      ("newAgentCapability", ItOption ItU8);
      ("timestamp", ItI64) ]).

Definition IDL_TYPES : list idl_typedef :=
  [ idlty_accountConstraint;
    idlty_accountConstraintZc;
    idlty_actionAuthorized;
    idlty_agentContributionEntry;
    idlty_agentEntry;
    idlty_agentPausedEvent;
    idlty_agentPermissionsChangeApplied;
    idlty_agentPermissionsChangeCancelled;
    idlty_agentPermissionsChangeQueued;
    idlty_agentRegistered;
    idlty_agentRevoked;
    idlty_agentSpendLimitChecked;
    idlty_agentSpendOverlay;
    idlty_agentTransferExecuted;
    idlty_agentUnpausedEvent;
    idlty_agentVault;
    idlty_closeConstraintsApplied;
    idlty_closeConstraintsCancelled;
    idlty_closeConstraintsQueued;
    idlty_constraintEntry;
    idlty_constraintEntryZc;
    idlty_constraintOperator;
    idlty_constraintsChangeApplied;
    idlty_constraintsChangeCancelled;
    idlty_constraintsChangeQueued;
    idlty_dataConstraint;
    idlty_dataConstraintZc;
    idlty_delegationRevoked;
    idlty_discriminatorFormat;
    idlty_epochBucket;
    idlty_escrowCreated;
    idlty_escrowDeposit;
    idlty_escrowRefunded;
    idlty_escrowSettled;
    idlty_escrowStatus;
    idlty_feesCollected;
    idlty_fundsDeposited;
    idlty_fundsWithdrawn;
    idlty_instructionConstraints;
    idlty_instructionConstraintsCreated;
    idlty_orphanConstraintsPdaCleaned;
    idlty_pdaAllocated;
    idlty_pdaExtended;
    idlty_pendingAgentPermissionsUpdate;
    idlty_pendingCloseConstraints;
    idlty_pendingConstraintsUpdate;
    idlty_pendingPolicyUpdate;
    idlty_policyChangeApplied;
    idlty_policyChangeCancelled;
    idlty_policyChangeQueued;
    idlty_policyConfig;
    idlty_postAssertionChecked;
    idlty_postAssertionEntry;
    idlty_postAssertionEntryZc;
    idlty_postAssertionsClosed;
    idlty_postAssertionsCreated;
    idlty_postExecutionAssertions;
    idlty_protocolSpendCounter;
    idlty_sessionAuthority;
    idlty_sessionFinalized;
    idlty_spendTracker;
    idlty_vaultClosed;
    idlty_vaultCreated;
    idlty_vaultFrozen;
    idlty_vaultReactivated;
    idlty_vaultStatus ].
