(* ===== verification/IdlSpec.v ===== *)
(** * The client against the interface description

    The generated client, the hand-written tables and the program's own declarations, all
    against the IDL: instructions and their builders, account and event layouts, errors. *)

From S2P Require Import Prelude Types Accounts Bytes JsText Formatting Pdas AltLoader Composer Codecs Instructions InstructionTable ProgramAccounts AccountLayouts InstructionSpec EventLayouts Events ErrorTables Idl IdlInstructions IdlTypes.
Local Open Scope string_scope.
Local Open Scope Z_scope.
Local Open Scope list_scope.

Definition IDL_INSTRUCTIONS : list idl_ix :=
  [ idl_agentTransfer;
    idl_allocateConstraintsPda;
    idl_allocatePendingConstraintsPda;
    idl_applyAgentPermissionsUpdate;
    idl_applyCloseConstraints;
    idl_applyConstraintsUpdate;
    idl_applyPendingPolicy;
    idl_cancelAgentPermissionsUpdate;
    idl_cancelCloseConstraints;
    idl_cancelConstraintsUpdate;
    idl_cancelPendingPolicy;
    idl_cleanupOrphanConstraintsPda;
    idl_closePostAssertions;
    idl_closeSettledEscrow;
    idl_closeVault;
    idl_createEscrow;
    idl_createInstructionConstraints;
    idl_createPostAssertions;
    idl_depositFunds;
    idl_extendPda;
    idl_finalizeSession;
    idl_freezeVault;
    idl_initializeVault;
    idl_pauseAgent;
    idl_queueAgentPermissionsUpdate;
    idl_queueCloseConstraints;
    idl_queueConstraintsUpdate;
    idl_queuePolicyUpdate;
    idl_reactivateVault;
    idl_refundEscrow;
    idl_registerAgent;
    idl_revokeAgent;
    idl_settleEscrow;
    idl_unpauseAgent;
    idl_validateAndAuthorize;
    idl_withdrawFunds ].

(** ** Names

    The IDL is in camel case; the client's constants are in Pascal case, the error constants
    in upper snake case. *)
Definition pascal (s : string) : string :=
  match s with
  | String c s' => String (to_upper_ascii c) s'
  | EmptyString => EmptyString
  end.

Fixpoint upper_snake (s : chars) : chars :=
  match s with
  | [] => []
  | c :: s' =>
      (if in_range 65 90 c then [Ascii.ascii_of_nat 95; c] else [to_upper_ascii c]) ++ upper_snake s'
  end.

Definition error_constant (name : string) : string :=
  "SIGIL_ERROR__" +:+ String.string_of_list_ascii (upper_snake (String.list_ascii_of_string name)).

(** ** The defaults

    [getXInstruction] fills in fixed addresses, [getXInstructionAsync] derived ones too; the
    instructions without a derived account have the first builder alone. *)
Definition builder_defaults (sp : ix_spec) : list (string * acc_default) :=
  match ix_asyncDefaults sp with [] => ix_defaults sp | ds => ds end.

(** The table of an instruction says what the IDL says. *)
Record conforms (i : idl_ix) (sp : ix_spec) : Prop := {
  cf_name : ix_name sp = pascal (ii_name i);
  cf_discriminator : ix_discriminator sp = ii_discriminator i;
  cf_accounts : ix_accounts sp = idl_acc_spec <$> ii_accounts i;
  cf_args : idl_struct IDL_TYPES 8 (ii_args i) = Some (ix_args sp);
  cf_defaults : (fun a => jm_get (ia_name a) (builder_defaults sp)) <$> ii_accounts i
                = idl_default IDL_TYPES i <$> ii_accounts i;
  cf_names : (builder_defaults sp).*1 ⊆ ia_name <$> ii_accounts i;
}.

Lemma all_conform : Forall2 conforms IDL_INSTRUCTIONS SIGIL_INSTRUCTIONS.
Proof.
  unfold IDL_INSTRUCTIONS, SIGIL_INSTRUCTIONS.
  repeat (apply Forall2_cons; split); [..|apply Forall2_nil].
  all: split; try reflexivity.
  all: apply (bool_decide_unpack _); vm_compute; exact I.
Qed.

Lemma conforms_at k i sp :
  IDL_INSTRUCTIONS !! k = Some i -> SIGIL_INSTRUCTIONS !! k = Some sp -> conforms i sp.
Proof. intros Hi Hsp. exact (Forall2_lookup_lr _ _ _ _ _ _ all_conform Hi Hsp). Qed.

Lemma conform_default i sp a :
  conforms i sp -> a ∈ ii_accounts i ->
  jm_get (ia_name a) (builder_defaults sp) = idl_default IDL_TYPES i a.
Proof.
  intros H Ha. pose proof (cf_defaults i sp H) as Hd. revert Hd.
  generalize (ii_accounts i) as l, Ha. induction l as [|x l IH]; intros Hin Hd; [by apply elem_of_nil in Hin|].
  cbn in Hd. injection Hd as Hx Hl. apply elem_of_cons in Hin as [->|Hin]; [done|by apply IH].
Qed.

(** ** Resolution of the defaults *)
Section resolution.
Context `{env : PdaEnv} `{lib : !ClientLib} `{laws : !ClientLaws lib}.
(** Documented: a derived address is the text of a key. *)
Context (pda_text : forall p ss, (getProgramDerivedAddress p ss).1 <> "").
Implicit Types (accs : jsmap Address).

Definition no_empty accs : Prop := forall n a, jm_get n accs = Some a -> a <> "".
Definition extends accs accs' : Prop := forall n a, jm_get n accs = Some a -> jm_get n accs' = Some a.
Definition texts (ds : list (string * acc_default)) : Prop :=
  Forall (fun nd => match nd.2 with DAddress a => a <> "" | DPda _ _ => True end) ds.

Lemma default_value_text accs args d a :
  match d with DAddress a => a <> "" | DPda _ _ => True end ->
  default_value accs args d = Ok a -> a <> "".
Proof.
  destruct d as [p ss|x]; cbn; [|by intros ? [= <-]]. intros _ H.
  apply bind_ok_inv in H as (bs & _ & H). injection H as <-. apply pda_text.
Qed.

Lemma missing_none accs n : no_empty accs -> missing accs n = true -> jm_get n accs = None.
Proof.
  unfold missing. intros Hn. destruct (jm_get n accs) as [a|] eqn:E; [|done].
  intros H%bool_decide_eq_true. by destruct (Hn _ _ E).
Qed.

Lemma set_extends accs n a : jm_get n accs = None -> extends accs (jm_set n a accs).
Proof. intros Hn m x Hm. rewrite jm_get_set. case_decide; [congruence|done]. Qed.

Lemma set_no_empty accs n a : a <> "" -> no_empty accs -> no_empty (jm_set n a accs).
Proof. intros Ha Hn m x. rewrite jm_get_set. case_decide; [congruence|apply Hn]. Qed.

Lemma resolve_extends ds args accs accs' :
  texts ds -> no_empty accs -> resolve_defaults ds args accs = Ok accs' ->
  extends accs accs' /\ no_empty accs'.
Proof.
  revert accs. induction ds as [|[n d] ds IH]; intros accs Ht Hn H; cbn [resolve_defaults] in H.
  { injection H as <-. split; [by intros n a|done]. }
  apply Forall_cons in Ht as [Hd Ht]. destruct (missing accs n) eqn:Hm; [|by apply IH].
  apply bind_ok_inv in H as (a & Ha & H). apply missing_none in Hm; [|done].
  destruct (IH _ Ht (set_no_empty _ _ _ (default_value_text _ _ _ _ Hd Ha) Hn) H) as [He Hn'].
  split; [|done]. intros m x Hx. by apply He, set_extends.
Qed.

Lemma seed_values_extends accs accs' args ss bs :
  extends accs accs' -> seed_values accs args ss = Ok bs -> seed_values accs' args ss = Ok bs.
Proof.
  intros He. revert bs. induction ss as [|s ss IH]; intros bs H; [done|]. cbn [seed_values] in *.
  apply bind_ok_inv in H as (b & Hb & H). apply bind_ok_inv in H as (bs' & Hbs & H).
  assert (Hb' : seed_value accs' args s = Ok b).
  { destruct s as [v|n|n c]; [done| |done]. cbn in *.
    destruct (jm_get n accs) as [x|] eqn:Hx; [|done]. by rewrite (He _ _ Hx). }
  rewrite Hb'. cbn [mbind res_bind]. by rewrite (IH _ Hbs).
Qed.

Lemma default_value_extends accs accs' args d a :
  extends accs accs' -> default_value accs args d = Ok a -> default_value accs' args d = Ok a.
Proof.
  intros He. destruct d as [p ss|x]; [|done]. cbn. intros H.
  apply bind_ok_inv in H as (bs & Hbs & H). by rewrite (seed_values_extends _ _ _ _ _ He Hbs).
Qed.

(** An account left out of the input has its default, computed from the accounts of the
    finished instruction; without a default it stays absent. *)
Lemma resolve_default ds args accs accs' n :
  texts ds -> no_empty accs -> resolve_defaults ds args accs = Ok accs' -> jm_get n accs = None ->
  match jm_get n ds with
  | Some d => exists a, default_value accs' args d = Ok a /\ jm_get n accs' = Some a
  | None => jm_get n accs' = None
  end.
Proof.
  revert accs. induction ds as [|[m d] ds IH]; intros accs Ht Hn H Hnone; cbn [resolve_defaults] in H.
  { injection H as <-. exact Hnone. }
  apply Forall_cons in Ht as [Hd Ht]. csimpl. destruct (missing accs m) eqn:Hm.
  - apply bind_ok_inv in H as (a & Ha & H). apply missing_none in Hm; [|done].
    pose proof (set_no_empty accs m a (default_value_text _ _ _ _ Hd Ha) Hn) as Hn'.
    destruct (resolve_extends _ _ _ _ Ht Hn' H) as [He _].
    case_decide as Heq.
    + subst m. exists a. split; [|apply He, jm_get_set_eq].
      apply (default_value_extends accs); [|done]. intros k x Hk. by apply He, set_extends.
    + apply (IH _ Ht Hn' H). rewrite jm_get_set. by case_decide.
  - case_decide as Heq; [|by apply (IH accs)]. subst m. unfold missing in Hm. by rewrite Hnone in Hm.
Qed.

Lemma all_texts : Forall (fun sp => texts (builder_defaults sp)) SIGIL_INSTRUCTIONS.
Proof. repeat constructor; discriminate. Qed.

(** The meta the IDL asks for: the writability and signature it declares, the program's own
    address in place of an account that is absent. *)
Definition idl_meta accs (a : idl_account) (m : AccountMeta) : Prop :=
  match jm_get (ia_name a) accs with
  | Some x => m = mkMeta x (role_of (ia_writable a) (ia_signer a)) None
  | None => am_address m = SIGIL_PROGRAM_ID
  end.

(** C27: an instruction the generated client builds is one the IDL describes. For each of the
    36 instructions: the data is the IDL's discriminator followed by the encoding of the
    arguments with the codecs of their IDL types; there is one account per IDL account, in
    order, writable and signing exactly as declared; an account the caller names is the
    caller's; an account the caller leaves out has the fixed address of the IDL, or the
    address derived from the IDL's seeds read from the instruction's own accounts and
    arguments, and is absent exactly when the IDL fixes nothing the client can compute. *)
Theorem idl_builders_conform k i sp input args ix :
  IDL_INSTRUCTIONS !! k = Some i -> SIGIL_INSTRUCTIONS !! k = Some sp ->
  no_empty input -> build (builder_defaults sp) sp input args = Ok ix ->
  ix_name sp = pascal (ii_name i) /\ ins_program ix = SIGIL_PROGRAM_ID /\
  exists accs metas fields data,
    ins_accounts ix = Some metas /\ Forall2 (idl_meta accs) (ii_accounts i) metas /\
    idl_struct IDL_TYPES 8 (ii_args i) = Some fields /\ encodeStruct fields args = Some data /\
    ins_data ix = Some (ii_discriminator i ++ data) /\
    forall a, a ∈ ii_accounts i ->
      match jm_get (ia_name a) input, idl_default IDL_TYPES i a with
      | Some x, _ => jm_get (ia_name a) accs = Some x
      | None, Some (DAddress x) => jm_get (ia_name a) accs = Some x
      | None, Some (DPda program seeds) => exists bs, seed_values accs args seeds = Ok bs /\
          jm_get (ia_name a) accs
          = Some (getProgramDerivedAddress (default SIGIL_PROGRAM_ID program) bs).1
      | None, None => jm_get (ia_name a) accs = None
      end.
Proof using All.
  intros Hi Hsp Hin Hb. pose proof (conforms_at _ _ _ Hi Hsp) as Hc.
  split; [by destruct Hc|]. unfold build in Hb.
  apply bind_ok_inv in Hb as (accs & Hr & Hb). apply bind_ok_inv in Hb as (bytes & Hd & Hb).
  injection Hb as <-. split; [done|].
  assert (Ht : texts (builder_defaults sp)).
  { pose proof all_texts as H. rewrite Forall_forall in H. apply H. by eapply list_elem_of_lookup_2. }
  destruct (resolve_extends _ _ _ _ Ht Hin Hr) as [He _].
  unfold data_type, data_value in Hd. rewrite (cf_discriminator _ _ Hc) in Hd.
  rewrite encode_bytes_field in Hd.
  2: { destruct (in_table sp) as [_ Hl]; [by eapply list_elem_of_lookup_2|].
       by rewrite <- (cf_discriminator _ _ Hc). }
  destruct (encodeStruct (ix_args sp) args) as [data|] eqn:Hdata; [|done].
  cbn in Hd. injection Hd as <-.
  exists accs, (account_meta accs <$> ix_accounts sp), (ix_args sp), data.
  split; [done|]. split.
  { rewrite (cf_accounts _ _ Hc). apply Forall2_fmap_r, Forall2_fmap_r, Forall_Forall2_diag, Forall_true.
    intros a. change (idl_meta accs a (account_meta accs (idl_acc_spec a))).
    unfold idl_meta, account_meta. cbn [idl_acc_spec as_name as_signer as_writable].
    destruct (jm_get (ia_name a) accs) as [x|]; cbn;
      [apply getAccountMeta_some|apply getAccountMeta_none]. }
  split; [by destruct Hc|]. split; [done|]. split; [done|].
  intros a Ha. destruct (jm_get (ia_name a) input) as [x|] eqn:Hx; [by apply He|].
  pose proof (resolve_default _ _ _ _ (ia_name a) Ht Hin Hr Hx) as Hdef.
  rewrite (conform_default _ _ _ Hc Ha) in Hdef.
  destruct (idl_default IDL_TYPES i a) as [[p ss|x]|]; [| |done].
  - destruct Hdef as (y & Hy & Hg). cbn in Hy. apply bind_ok_inv in Hy as (bs & Hbs & Hy).
    injection Hy as <-. by exists bs.
  - destruct Hdef as (y & Hy & Hg). by injection Hy as <-.
Qed.
End resolution.

(** ** Accounts, events and errors *)
Fixpoint event_codec (c : ctype) : option codec :=
  match c with
  | TU8 => Some CU8 | TU16 => Some CU16 | TU32 => Some CU32 | TU64 => Some CU64 | TI64 => Some CI64
  | TBool => Some CBool | TAddress => Some CAddress | TBytes n => Some (CBytes n) | TBlob => Some CBlob
  | TOption c => COption <$> event_codec c
  | _ => None
  end.

(** The layout of an event, from the struct of its name. *)
Definition idl_event_layout (name : string) : option layout :=
  fields ← idl_fields IDL_TYPES 8 name;
  mapM (fun f => (fun c => (f.1, c)) <$> event_codec f.2) fields.

(** every table the SDK keeps by hand or by generator is the IDL's. The account
    discriminators and layouts; the discriminator table by which events are recognised and
    the layout each of the 38 is decoded with; and the errors: codes 6000 to 6087 in order,
    under one name in the IDL, the program, the generated constants and the SDK's own error
    map, with the IDL's message. No two events, accounts or errors share a discriminator or a
    code. *)
Theorem idl_tables_agree :
  ACCOUNT_DISCRIMINATORS = (fun a => (pascal a.1, a.2)) <$> IDL_ACCOUNTS /\
  ((fun a => (pascal a.1, idl_fields IDL_TYPES 8 a.1)) <$> IDL_ACCOUNTS)
    = (fun l => (l.1, Some l.2)) <$> client_layouts /\
  EVENT_DISCRIMINATOR_MAP = (fun e => (bytesToHex e.2, pascal e.1)) <$> IDL_EVENTS /\
  (forall e, e ∈ IDL_EVENTS -> is_Some (idl_event_layout e.1) /\
    jm_get (pascal e.1) EVENT_DECODER_MAP = idl_event_layout e.1) /\
  length EVENT_DECODER_MAP = length IDL_EVENTS /\
  ((fun e => (ie_code e, pascal (ie_name e))) <$> IDL_ERRORS)
    = imap (fun j name => (6000 + Z.of_nat j, name)) PROGRAM_ERRORS /\
  ((fun cm => (cm.1, em_name cm.2)) <$> ON_CHAIN_ERROR_MAP)
    = (fun e => (ie_code e, pascal (ie_name e))) <$> IDL_ERRORS /\
  SIGIL_ERROR_CODES = (fun e => (error_constant (ie_name e), ie_code e)) <$> IDL_ERRORS /\
  (forall e, e ∈ IDL_ERRORS -> getSigilErrorMessage false (ie_code e) = Some (ie_msg e)) /\
  NoDup IDL_ACCOUNTS.*2 /\ NoDup IDL_EVENTS.*2 /\ NoDup (ie_code <$> IDL_ERRORS).
Proof.
  split_and!; try reflexivity; try (apply (bool_decide_unpack _); vm_compute; exact I).
  - assert (H : Forall (fun e => is_Some (idl_event_layout e.1) /\
      jm_get (pascal e.1) EVENT_DECODER_MAP = idl_event_layout e.1) IDL_EVENTS).
    { repeat constructor; vm_compute; eauto. }
    by rewrite Forall_forall in H.
  - assert (H : Forall (fun e => getSigilErrorMessage false (ie_code e) = Some (ie_msg e)) IDL_ERRORS)
      by (repeat constructor).
    by rewrite Forall_forall in H.
Qed.

(** ** A concrete instruction *)
Lemma demo_pda_text p ss : (@getProgramDerivedAddress demo_client_env p ss).1 <> "".
Proof.
  cbn. generalize (encode (p, concat ss)) as q. intros q.
  change (pretty (N.pos q)) with (pretty (Z.pos q)).
  destruct (pretty_digits (Z.pos q) ltac:(lia)) as (ds & Hds & _ & _ & Hne).
  intros H. rewrite H in Hds. by apply Hne.
Qed.

(** [initializeVault], the vault's address and the trackers' left to the client. *)
Definition demo_idl_input : jsmap Address :=
  [("owner", "owner"); ("agentSpendOverlay", "overlay"); ("feeDestination", "fees")].
Definition demo_idl_args : struct_val :=
  [("vaultId", VlInt 3); ("dailySpendingCapUsd", VlInt 500); ("maxTransactionSizeUsd", VlInt 100);
   ("protocolMode", VlInt 1); ("protocols", VlList [VlAddr "jup"]); ("developerFeeRate", VlInt 0);
   ("maxSlippageBps", VlInt 100); ("timelockDuration", VlInt 1800);
   ("allowedDestinations", VlList []); ("protocolCaps", VlList [])].

Local Abbreviation demo_built :=
  (@build demo_client_env demo_client (builder_defaults InitializeVault_ix) InitializeVault_ix
    demo_idl_input demo_idl_args).

Lemma idl_builders_conform_witness :
  exists ix metas accs bs vault,
    demo_built = Ok ix /\ ins_accounts ix = Some metas /\
    Forall2 (idl_meta accs) (ii_accounts idl_initializeVault) metas /\
    jm_get "vault" accs = Some vault /\
    @seed_values demo_client_env demo_client accs demo_idl_args
      [SBytes (seedString "vault"); SAccount "owner"; SArg "vaultId" TU64] = Ok bs /\
    vault = (@getProgramDerivedAddress demo_client_env SIGIL_PROGRAM_ID bs).1.
Proof.
  assert (Hok : is_ok demo_built = true) by (vm_compute; reflexivity).
  destruct demo_built as [ix|e] eqn:E; [clear Hok|discriminate Hok].
  destruct (@idl_builders_conform demo_client_env demo_client demo_client_laws demo_pda_text 22
    idl_initializeVault InitializeVault_ix demo_idl_input demo_idl_args ix eq_refl eq_refl)
    as (_ & _ & accs & metas & fields & data & Hm & H2 & _ & _ & _ & Ha).
  - intros n a. unfold demo_idl_input. cbn. repeat case_decide; by intros [= <-].
  - exact E.
  - assert (Hv : exists v, ii_accounts idl_initializeVault !! 1%nat = Some v) by (by eexists).
    destruct Hv as (v & Hv1).
    assert (Hin : v ∈ ii_accounts idl_initializeVault) by (apply list_elem_of_lookup; by exists 1%nat).
    pose proof (Ha v Hin) as Hv. injection Hv1 as <-. destruct Hv as (bs & Hbs & Hv).
    exists ix, metas, accs, bs, (getProgramDerivedAddress (PdaEnv := demo_client_env) SIGIL_PROGRAM_ID bs).1.
    split; [first [exact E|reflexivity]|]. split; [exact Hm|]. split; [exact H2|].
    split; [exact Hv|]. split; [exact Hbs|reflexivity].
Defined.
