(* ===== verification/ErrorChains.v ===== *)
(** * Causes, codes and messages of thrown values ([sdk/kit/src/network-errors.ts],
    [errors/walk.ts], [errors/base.ts], [integrations/compose-errors.ts])

    The code that looks into a thrown value it does not trust. An object answers each
    property read with a value, with nothing, or by throwing (a getter or a proxy trap),
    and the same read always answers the same; a getter that allocates a fresh wrapper on
    every access is a chain of distinct objects. Causes may be cyclic. *)

From S2P Require Import Prelude Types JsText.
Local Open Scope string_scope.
Local Open Scope Z_scope.
Local Open Scope list_scope.

(** ** Values *)

(** An integer below [10^21], which prints as its decimal digits, or another finite number
    with its floor and its text, or one that is not finite. *)
Inductive number :=
  | NInt (z : Z)
  | NOther (integer : bool) (floor : Z) (text : string)
  | NNaN
  | NInfinity (negative : bool).

Inductive value :=
  | Undefined
  | Null
  | Str (s : string)
  | Num (n : number)
  | Big (z : Z)
  | Bool (b : bool)
  | Sym (id : nat)
  | Func (id : nat)
  | Obj (id : nat).

#[export] Instance number_eq_dec : EqDecision number.
Proof. solve_decision. Defined.
#[export] Instance value_eq_dec : EqDecision value.
Proof. solve_decision. Defined.

Definition number_text (n : number) : string :=
  match n with
  | NInt z => pretty z
  | NOther _ _ text => text
  | NNaN => "NaN"
  | NInfinity neg => if neg then "-Infinity" else "Infinity"
  end.

Definition isFinite (n : number) : bool :=
  match n with NInt _ | NOther _ _ _ => true | NNaN | NInfinity _ => false end.

(** The floor of a finite number decides [lo <= n && n < hi] for integers [lo], [hi]. *)
Definition number_within (lo hi : Z) (n : number) : bool :=
  match n with
  | NInt z | NOther _ z _ => (lo <=? z) && (z <? hi)
  | NNaN | NInfinity _ => false
  end.

Definition typeof (v : value) : string :=
  match v with
  | Undefined => "undefined"
  | Null | Obj _ => "object"
  | Str _ => "string"
  | Num _ => "number"
  | Big _ => "bigint"
  | Bool _ => "boolean"
  | Sym _ => "symbol"
  | Func _ => "function"
  end.

Inductive ctor := CDOMException | CAggregateError | CError | CTypeError.
#[export] Instance ctor_eq_dec : EqDecision ctor.
Proof. solve_decision. Defined.

Inductive readout := Absent | Present (v : value) | Throws.

Record object := mkObject {
  o_get : string -> readout;             (* [key in o] and then [o[key]] *)
  o_instanceof : ctor -> option bool;    (* [None]: the check throws *)
  o_items : option (list value);         (* of an array *)
  o_text : option string;                (* [String(o)]; [None]: it throws *)
}.

Abbreviation heap := (nat -> object).

(** Two undefined or null values end a chain. *)
Definition nullish (v : value) : bool :=
  match v with Undefined | Null => true | _ => false end.

Section reads.
Context (h : heap).

Definition safeInstanceOf (v : value) (c : ctor) : bool :=
  match v with Obj i => default false (o_instanceof (h i) c) | _ => false end.

(** A guarded property read: what a throwing read yields is what a missing one does. *)
Definition safe_read (v : value) (key : string) : value :=
  match v with
  | Obj i => match o_get (h i) key with Present x => x | Absent | Throws => Undefined end
  | _ => Undefined
  end.

Definition safeGetName (v : value) : option string :=
  match safe_read v "name" with Str s => Some s | _ => None end.

Definition safeGetCause (v : value) : value := safe_read v "cause".

Definition safeGetCode (v : value) : option string :=
  match safe_read v "code" with
  | Str s => Some s
  | Num n => Some (number_text n)
  | Big z => Some (pretty z)
  | _ => None
  end.

(** The loop over the two keys; a read that throws ends it. *)
Fixpoint status_of (i : nat) (keys : list string) : option number :=
  match keys with
  | [] => None
  | key :: rest =>
      match o_get (h i) key with
      | Throws => None
      | Present (Num n) => if isFinite n then Some n else status_of i rest
      | Present _ | Absent => status_of i rest
      end
  end.

Definition safeGetStatusCode (v : value) : option number :=
  match v with Obj i => status_of i ["statusCode"; "status"] | _ => None end.

(** ** [isTransportError] *)
Definition PROVIDER_DENIAL_NAMES : list string :=
  ["ProviderDeniedError"; "CustodyDeniedError"; "UnauthorizedError"; "ForbiddenError"].

Definition TRANSPORT_CODES : list string :=
  ["ECONNREFUSED"; "ECONNRESET"; "ETIMEDOUT"; "ENOTFOUND"; "EAI_AGAIN"; "ENETUNREACH"; "EPIPE";
   "UND_ERR_CONNECT_TIMEOUT"; "UND_ERR_HEADERS_TIMEOUT"; "UND_ERR_BODY_TIMEOUT";
   "UND_ERR_SOCKET"; "UND_ERR_ABORTED";
   "CERT_HAS_EXPIRED"; "UNABLE_TO_VERIFY_LEAF_SIGNATURE"; "DEPTH_ZERO_SELF_SIGNED_CERT";
   "ERR_TLS_CERT_ALTNAME_INVALID";
   "ERR_HTTP2_STREAM_ERROR"; "ERR_HTTP2_SESSION_ERROR"; "ERR_HTTP2_GOAWAY_SESSION";
   "HTTP_5XX"].

Definition TRANSPORT_CAUSE_NAMES : list string :=
  ["ConnectTimeoutError"; "HeadersTimeoutError"; "BodyTimeoutError"; "SocketError"].

(** [set.has(x)] for a value that may be undefined. *)
Definition has (set : list string) (x : option string) : bool :=
  match x with Some s => bool_decide (s ∈ set) | None => false end.

Definition timeout_name (name : option string) : bool := has ["AbortError"; "TimeoutError"] name.

(** The signals of an [Error] that is neither a [DOMException] nor an [AggregateError]. *)
Definition error_signals (err : value) (name : option string) : bool :=
  let cause := safeGetCause err in
  timeout_name name
  || (negb (nullish cause)
      && (has TRANSPORT_CAUSE_NAMES (safeGetName cause) || has TRANSPORT_CODES (safeGetCode cause)))
  || has TRANSPORT_CODES (safeGetCode err)
  || match safeGetStatusCode err with Some n => number_within 500 600 n | None => false end
  || (safeInstanceOf err CTypeError && bool_decide (cause = Undefined)
      && bool_decide (safe_read err "message" = Str "fetch failed")).

(** [Array.prototype.some]; a call that throws ends it. *)
Fixpoint some_res {E} (f : value -> res E bool) (l : list value) : res E bool :=
  match l with
  | [] => Ok false
  | x :: rest =>
      match f x with
      | Ok b => if b then Ok true else some_res f rest
      | Throw e => Throw e
      end
  end.

(** [stack] bounds the nesting of calls; beyond it the engine throws, and the [try] around
    the recursion turns that into [false]. *)
Fixpoint isTransportError (stack : nat) (err : value) : res string bool :=
  match stack with
  | O => Throw "RangeError"
  | S stack' =>
      if nullish err then Ok false
      else
        let name := safeGetName err in
        if has PROVIDER_DENIAL_NAMES name then Ok false
        else if safeInstanceOf err CDOMException then Ok (timeout_name name)
        else if safeInstanceOf err CAggregateError then
          match safe_read err "errors" with
          | Obj a =>
              match o_items (h a) with
              | Some wrapped =>
                  match some_res (isTransportError stack') wrapped with
                  | Ok b => Ok b
                  | Throw _ => Ok false
                  end
              | None => Ok false
              end
          | _ => Ok false
          end
        else if negb (safeInstanceOf err CError) then Ok false
        else Ok (error_signals err name)
  end.

(** ** [redactCause] *)
Definition MAX_CAUSE_WALK_DEPTH : nat := 16.

Record redacted := mkRedacted {
  rd_name : option string;
  rd_message : option string;
  rd_code : option string;
}.

Definition slice_to (n : nat) (s : string) : string := String.substring 0 n s.

(** The loop that looks for a code along the causes; [visited] is the [WeakSet]. *)
Fixpoint cause_code (depth : nat) (visited : list nat) (current : value) : option string :=
  match depth with
  | O => None
  | S depth' =>
      match current with
      | Obj i =>
          if bool_decide (i ∈ visited) then None
          else
            let nextCause := safeGetCause current in
            if nullish nextCause then None
            else
              match safeGetCode nextCause with
              | Some c => Some c
              | None => cause_code depth' (i :: visited) nextCause
              end
      | _ => None
      end
  end.

Definition redacted_message (err : value) : option string :=
  match safe_read err "message" with
  | Str s => Some (slice_to 200 s)
  | Undefined | Null => None
  | m => Some ("<non-string " +:+ typeof m +:+ ">")
  end.

Definition redactCause (err : value) : redacted :=
  match err with
  | Str s => mkRedacted None (Some (slice_to 200 s)) None
  | Num n => mkRedacted None None (Some (number_text n))
  | Big z => mkRedacted None None (Some (pretty z))
  | Obj _ =>
      mkRedacted (safeGetName err) (redacted_message err)
        (match safeGetCode err with
         | Some c => Some c
         | None => cause_code MAX_CAUSE_WALK_DEPTH [] err
         end)
  | Undefined | Null | Bool _ | Sym _ | Func _ => mkRedacted None None None
  end.

(** [cause.message ?? cause.name ?? cause.code ?? "unknown"]. *)
Definition redacted_line (c : redacted) : string :=
  default "unknown" (union (rd_message c) (union (rd_name c) (rd_code c))).
End reads.

(** ** [walk] ([errors/walk.ts]) *)
Definition MAX_WALK_DEPTH : nat := 32.

(** An [Error] of the chain, or a fresh one around a value that is not one. *)
Inductive walked := TheError (v : value) | NewError (message : string).

Section walk.
Context (h : heap).

(** Unguarded operations throw what the object throws. *)
Definition instanceof (v : value) (c : ctor) : res string bool :=
  match v with
  | Obj i => match o_instanceof (h i) c with Some b => Ok b | None => Throw "hostile" end
  | _ => Ok false
  end.

Definition get_cause (v : value) : res string value :=
  match v with
  | Obj i =>
      match o_get (h i) "cause" with
      | Present x => Ok x
      | Absent => Ok Undefined
      | Throws => Throw "hostile"
      end
  | _ => Ok Undefined
  end.

(** [String(v)]; a symbol prints its description, which is left to [symbol_text]. *)
Definition String_ (symbol_text : nat -> string) (v : value) : res string string :=
  match v with
  | Undefined => Ok "undefined"
  | Null => Ok "null"
  | Str s => Ok s
  | Num n => Ok (number_text n)
  | Big z => Ok (pretty z)
  | Bool b => Ok (if b then "true" else "false")
  | Sym i | Func i => Ok (symbol_text i)
  | Obj i => match o_text (h i) with Some t => Ok t | None => Throw "hostile" end
  end.

Context (symbol_text : nat -> string).

(** [depthFuseWarned] is passed along; [warnFuseTrip] sets it. *)
Fixpoint walkPredicate (fn : value -> bool) (levels : nat) (visited : list value) (err : value)
    (warned : bool) : res string (option walked * bool) :=
  match levels with
  | O => Ok (None, true)
  | S levels' =>
      if bool_decide (err ∈ visited) then Ok (None, warned)
      else if fn err then
        match instanceof err CError with
        | Throw e => Throw e
        | Ok true => Ok (Some (TheError err), warned)
        | Ok false =>
            match String_ symbol_text err with
            | Throw e => Throw e
            | Ok t => Ok (Some (NewError t), warned)
            end
        end
      else
        match instanceof err CError with
        | Throw e => Throw e
        | Ok false => Ok (None, warned)
        | Ok true =>
            match get_cause err with
            | Throw e => Throw e
            | Ok Undefined => Ok (None, warned)
            | Ok cause => walkPredicate fn levels' (err :: visited) cause warned
            end
        end
  end.

(** The checks come in another order here: class, repetition, depth. *)
Fixpoint walkRoot (levels : nat) (visited : list value) (err : value) (warned : bool)
    : res string (walked * bool) :=
  match instanceof err CError with
  | Throw e => Throw e
  | Ok false =>
      Ok (NewError (match err with Str s => s | _ => "non-Error cause" end), warned)
  | Ok true =>
      if bool_decide (err ∈ visited) then Ok (TheError err, warned)
      else
        match levels with
        | O => Ok (TheError err, true)
        | S levels' =>
            match get_cause err with
            | Throw e => Throw e
            | Ok cause =>
                if bool_decide (cause = Undefined) || bool_decide (cause = err)
                then Ok (TheError err, warned)
                else walkRoot levels' (err :: visited) cause warned
            end
        end
  end.

Definition walk (err : value) (fn : option (value -> bool)) (warned : bool)
    : res string (option walked * bool) :=
  match fn with
  | Some fn => walkPredicate fn MAX_WALK_DEPTH [] err warned
  | None =>
      match walkRoot MAX_WALK_DEPTH [] err warned with
      | Ok (w, warned') => Ok (Some w, warned')
      | Throw e => Throw e
      end
  end.
End walk.

(** ** [SigilError] ([errors/base.ts]) *)
Definition SIGIL_KIT_VERSION : string := "0.4.0".
Definition ELLIPSIS : string := "…".
Definition NEWLINE : string := String (Ascii.ascii_of_nat 10) EmptyString.

Record SigilError := mkSigilError {
  se_code : string;
  se_shortMessage : string;
  se_details : string;
  se_version : string;
  se_metaMessages : option (list string);
  se_docsPath : option string;
  se_message : string;
}.

(** What the constructor tells apart of the cause it is given. *)
Inductive error_cause :=
  | NoCause
  | CauseSigil (e : SigilError)
  | CauseError (message : string)
  | CauseString (s : string)
  | CauseOther.

Definition truncate (s : string) (max : nat) : string :=
  if (max <? String.length s)%nat then slice_to max s +:+ ELLIPSIS else s.

Definition extractDetails (cause : error_cause) : string :=
  match cause with
  | NoCause | CauseOther => ""
  | CauseSigil e => if bool_decide (se_details e = "") then se_shortMessage e else se_details e
  | CauseError m => truncate m 500
  | CauseString s => truncate s 500
  end.

Definition extractDocsPath (cause : error_cause) : option string :=
  match cause with CauseSigil e => se_docsPath e | _ => None end.

(** A docs path that is empty counts as none. *)
Definition formatMessage (shortMessage : string) (metaMessages : option (list string))
    (docsPath : option string) (details : string) : string :=
  String.concat NEWLINE
    ([shortMessage]
     ++ match metaMessages with
        | Some ((_ :: _) as ms) => "" :: ms
        | _ => []
        end
     ++ match docsPath with
        | Some p =>
            if bool_decide (p = "") then [] else [""; "Docs: https://docs.sigil.trade" +:+ p]
        | None => []
        end
     ++ (if bool_decide (details = "") || bool_decide (details = shortMessage) then []
         else [""; "Details: " +:+ details])
     ++ [""; "Version: @usesigil/kit@" +:+ SIGIL_KIT_VERSION]).

Definition new_SigilError (code shortMessage : string) (cause : error_cause)
    (metaMessages : option (list string)) (argDocsPath : option string) : SigilError :=
  let details := extractDetails cause in
  let docsPath := match argDocsPath with Some p => Some p | None => extractDocsPath cause end in
  mkSigilError code shortMessage details SIGIL_KIT_VERSION metaMessages docsPath
    (formatMessage shortMessage metaMessages docsPath details).

(** ** [ComposeError] and the compose helpers ([integrations/compose-errors.ts]) *)
Inductive ComposeErrorCode := missing_param | invalid_bigint | unsupported_action.

Definition compose_code_text (c : ComposeErrorCode) : string :=
  match c with
  | missing_param => "missing_param"
  | invalid_bigint => "invalid_bigint"
  | unsupported_action => "unsupported_action"
  end.

Definition COMPOSE_LEGACY_TO_SIGIL (c : ComposeErrorCode) : string :=
  match c with
  | missing_param => "SIGIL_ERROR__COMPOSE__MISSING_PARAM"
  | invalid_bigint => "SIGIL_ERROR__COMPOSE__INVALID_BIGINT"
  | unsupported_action => "SIGIL_ERROR__COMPOSE__UNSUPPORTED_ACTION"
  end.

(** The context's fields beside [protocol]; [receivedValue] is always undefined. *)
Inductive compose_context :=
  | ActionContext (action : string)
  | BigintContext (fieldName : string)
  | FieldContext (fieldName : string).

Record ComposeError := mkComposeError {
  ce_error : SigilError;
  ce_protocol : string;
  ce_legacyComposeCode : ComposeErrorCode;
  ce_context : compose_context;
}.

Definition new_ComposeError (protocol : string) (code : ComposeErrorCode) (message : string)
    : ComposeError :=
  mkComposeError
    (new_SigilError (COMPOSE_LEGACY_TO_SIGIL code)
       ("[" +:+ protocol +:+ "] " +:+ compose_code_text code +:+ ": " +:+ message)
       NoCause None None)
    protocol code
    match code with
    | unsupported_action => ActionContext message
    | invalid_bigint => BigintContext message
    | missing_param => FieldContext message
    end.

Definition createRequireField {E} (errorFactory : string -> E) (name : string) (v : value)
    : res E unit :=
  throw_if (nullish v) (errorFactory name).

Definition is_safe (z : Z) : bool := Z.abs z <=? 2 ^ 53 - 1.

(** [/^-?[0-9]+$/]. *)
Definition decimal_integer (s : string) : bool :=
  let ds := match String.list_ascii_of_string s with
            | c :: rest => if JsText.code c =? 45 then rest else c :: rest
            | [] => []
            end in
  negb (bool_decide (ds = [])) && forallb is_digit ds.

(** The value, or [None] where the body throws; an integer that is not [NInt] is unsafe. *)
Definition safe_bigint (v : value) : option Z :=
  match v with
  | Big z => Some z
  | Num (NInt z) => if is_safe z then Some z else None
  | Str s => if decimal_integer s then js_BigInt s else None
  | _ => None
  end.

Definition createSafeBigInt {E} (errorFactory : string -> value -> E) (name : string) (v : value)
    : res E Z :=
  match safe_bigint v with
  | Some z => Ok z
  | None => Throw (errorFactory name v)
  end.
