(* ===== verification/ErrorChainsSpec.v ===== *)
(** * What the guarded readers of thrown values promise

    A search along a chain with a set of visited nodes answers as the search without one;
    the cause walks are instances. [redactCause] reads four properties and nothing else,
    [isTransportError] is total and decides the specification [transport], which names the
    properties and does not use the classifier's own readers, and [safeBigInt] is exact. *)

From Stdlib Require Import Ascii.
From S2P Require Import Prelude Types JsText ErrorChains.
Local Open Scope string_scope.
Local Open Scope Z_scope.
Local Open Scope list_scope.

(** ** Searching a chain that may be cyclic *)
Section search.
Context {A B : Type} `{EqDecision A} (p : A -> option B) (next : A -> option A).

(** The first [n] nodes from [a] on. *)
Fixpoint chain (n : nat) (a : A) : list A :=
  match n with
  | O => []
  | S n' => a :: match next a with Some a' => chain n' a' | None => [] end
  end.

Fixpoint search (n : nat) (visited : list A) (a : A) : option B :=
  match n with
  | O => None
  | S n' =>
      if bool_decide (a ∈ visited) then None
      else
        match p a with
        | Some b => Some b
        | None => match next a with Some a' => search n' (a :: visited) a' | None => None end
        end
  end.

(** The visited nodes carry nothing and lead to each other or to the current one. *)
Definition passed (visited : list A) (a : A) : Prop :=
  Forall (fun v => p v = None) visited /\
  forall v b, v ∈ visited -> next v = Some b -> b = a \/ b ∈ visited.

Lemma chain_closed visited n a :
  Forall (fun v => p v = None) visited ->
  (forall v b, v ∈ visited -> next v = Some b -> b ∈ visited) ->
  a ∈ visited -> head (omap p (chain n a)) = None.
Proof.
  intros Hp Hc. revert a. induction n as [|n IH]; intros a Ha; [done|]. csimpl.
  rewrite (proj1 (Forall_forall _ _) Hp a Ha).
  destruct (next a) as [b|] eqn:Hb; [eauto|done].
Qed.

Lemma search_passed n visited a :
  passed visited a -> search n visited a = head (omap p (chain n a)).
Proof.
  revert visited a. induction n as [|n IH]; intros visited a [Hp Hc]; [done|]. cbn [search].
  case_bool_decide as Ha.
  - symmetry. apply (chain_closed visited); [done| |done].
    intros v b Hv Hb. by destruct (Hc v b Hv Hb) as [->|].
  - csimpl. destruct (p a) as [b|] eqn:Hpa; [done|].
    destruct (next a) as [a'|] eqn:Hn; [|done]. apply IH. split; [by constructor|].
    intros v b [->|Hv]%elem_of_cons Hb; [left; congruence|].
    destruct (Hc v b Hv Hb) as [->|]; right; set_solver.
Qed.

Lemma search_first n a : search n [] a = head (omap p (chain n a)).
Proof. apply search_passed. split; [constructor|]. by intros v b ?%not_elem_of_nil. Qed.
End search.

(** ** [redactCause] *)

(** The causes of a value: the next one is there when it is not nullish. *)
Definition next_cause (h : heap) (v : value) : option value :=
  if nullish (safeGetCause h v) then None else Some (safeGetCause h v).

Lemma cause_code_search h n visited v :
  cause_code h n visited v
  = search (fun v => safeGetCode h (safeGetCause h v)) (next_cause h) n (Obj <$> visited) v.
Proof.
  revert visited v. induction n as [|n IH]; intros visited v; [done|]. cbn [cause_code search].
  destruct v as [| |s|m|z|b|i|i|i]; try (by case_bool_decide).
  rewrite (bool_decide_ext (Obj i ∈ Obj <$> visited) (i ∈ visited))
    by (split; [intros (j & [= ->] & Hj)%list_elem_of_fmap; done | apply list_elem_of_fmap_2]).
  case_bool_decide; [done|]. unfold next_cause.
  destruct (nullish (safeGetCause h (Obj i))) eqn:Hn.
  - destruct (safeGetCause h (Obj i)); done.
  - destruct (safeGetCode h (safeGetCause h (Obj i))); [done|]. by rewrite IH, fmap_cons.
Qed.

Lemma next_cause_inv h v :
  match next_cause h v with
  | Some a => a = safeGetCause h v
  | None => safeGetCode h (safeGetCause h v) = None
  end.
Proof.
  unfold next_cause. destruct (nullish (safeGetCause h v)) eqn:Hn; [|done].
  destruct (safeGetCause h v); done.
Qed.

Lemma chain_S {A} (next : A -> option A) n a :
  chain next (S n) a = a :: match next a with Some a' => chain next n a' | None => [] end.
Proof. reflexivity. Qed.

(** The codes of the causes are those of the chain without its first node. *)
Lemma chain_codes h n v :
  head (omap (fun v => safeGetCode h (safeGetCause h v)) (chain (next_cause h) n v))
  = head (omap (safeGetCode h) (tail (chain (next_cause h) (S n) v))).
Proof.
  revert v. induction n as [|n IH]; intros v.
  { cbn [chain tail]. by destruct (next_cause h v). }
  rewrite (chain_S _ (S n) v), (chain_S _ n v). csimpl. pose proof (next_cause_inv h v) as Hn.
  destruct (next_cause h v) as [a|]; [subst a|by rewrite Hn].
  destruct (safeGetCode h (safeGetCause h v)) eqn:Hc; csimpl; rewrite Hc; [done|].
  by rewrite IH, chain_S.
Qed.

Lemma substring_length n s : (String.length (String.substring 0 n s) <= n)%nat.
Proof. revert s. induction n as [|n IH]; intros [|c s]; cbn; try lia. specialize (IH s). lia. Qed.

Lemma redacted_message_length h v m :
  redacted_message h v = Some m -> (String.length m <= 200)%nat.
Proof.
  unfold redacted_message. destruct (safe_read h v "message"); cbn [typeof];
    intros [= <-]; try apply substring_length; apply Nat.leb_le; reflexivity.
Qed.

(** Heaps whose objects answer alike for the keys in [ks]. *)
Definition agree_on (ks : list string) (h h' : heap) : Prop :=
  forall i k, k ∈ ks -> o_get (h i) k = o_get (h' i) k.

Lemma agree_read ks h h' v k : agree_on ks h h' -> k ∈ ks -> safe_read h v k = safe_read h' v k.
Proof. intros Ha Hk. destruct v; try done. cbn. by rewrite (Ha _ _ Hk). Qed.

Lemma agree_code_walk h h' n visited v :
  agree_on ["code"; "cause"] h h' -> cause_code h n visited v = cause_code h' n visited v.
Proof.
  intros Ha. assert (Hc : forall x, safeGetCause h x = safeGetCause h' x)
    by (intros x; apply (agree_read ["code"; "cause"]); set_solver).
  assert (Hk : forall x, safeGetCode h x = safeGetCode h' x)
    by (intros x; unfold safeGetCode; rewrite (agree_read ["code"; "cause"] h h'); set_solver).
  revert visited v. induction n as [|n IH]; intros visited v; [done|]. cbn [cause_code].
  destruct v; try done. case_bool_decide; [done|]. rewrite Hc, Hk.
  destruct (nullish _); [done|]. destruct (safeGetCode _ _); auto.
Qed.

(** C30: redacting a thrown object reports its name when that is a string, a message of at most
    200 characters, and the first code among the object and its next sixteen causes,
    whatever cycles the causes form; and the report depends on nothing but the properties
    [name], [message], [code] and [cause], in particular not on the stack. *)
Theorem redactCause_projection (h h' : heap) (i : nat) :
  let r := redactCause h (Obj i) in
  rd_code r = head (omap (safeGetCode h) (chain (next_cause h) 17 (Obj i))) /\
  (forall m, rd_message r = Some m -> (String.length m <= 200)%nat) /\
  rd_name r = safeGetName h (Obj i) /\
  (agree_on ["name"; "message"; "code"; "cause"] h h' -> redactCause h' (Obj i) = r).
Proof.
  cbv zeta. cbn [redactCause rd_code rd_message rd_name]. split_and!.
  - rewrite cause_code_search, fmap_nil, search_first. unfold MAX_CAUSE_WALK_DEPTH.
    rewrite chain_codes, chain_S. csimpl. by destruct (safeGetCode h (Obj i)).
  - intros m. apply redacted_message_length.
  - done.
  - intros Ha. assert (Hr : forall k, k ∈ ["name"; "message"; "code"; "cause"] ->
      safe_read h' (Obj i) k = safe_read h (Obj i) k) by (intros k Hk; symmetry; by eapply agree_read).
    unfold redactCause, safeGetName, redacted_message, safeGetCode. rewrite !Hr by set_solver.
    rewrite (agree_code_walk h' h); [done|]. intros j k Hk. symmetry. apply Ha. set_solver.
Qed.

Definition plain_object (get : string -> readout) : object :=
  mkObject get (fun c => Some (bool_decide (c = CError))) None (Some "[object]").

(** Two errors that cause each other, the second with a code; [stack] throws on one side. *)
Definition cyclic_heap (stack : readout) : heap := fun i =>
  plain_object (fun k =>
    if String.eqb k "cause" then Present (Obj (1 - i))
    else if String.eqb k "message" then Present (Str "connection lost")
    else if String.eqb k "code" then (if Nat.eqb i 1 then Present (Num (NInt 5)) else Throws)
    else if String.eqb k "stack" then stack
    else Absent).

Lemma redactCause_projection_witness :
  redactCause (cyclic_heap (Present (Str "api-key"))) (Obj 0)
  = mkRedacted None (Some "connection lost") (Some "5") /\
  redactCause (cyclic_heap Throws) (Obj 0) = redactCause (cyclic_heap (Present (Str "api-key"))) (Obj 0).
Proof.
  split; [vm_compute; reflexivity|].
  apply (redactCause_projection (cyclic_heap (Present (Str "api-key"))) (cyclic_heap Throws) 0).
  intros i k Hk. unfold cyclic_heap, plain_object. cbn [o_get].
  destruct (String.eqb k "stack") eqn:He; [|done].
  apply String.eqb_eq in He as ->. by repeat (apply elem_of_cons in Hk as [Hk|Hk]; [done|]);
    apply elem_of_nil in Hk.
Defined.

(** ** [isTransportError]

    The specification reads objects through relations and lists its own names, codes and
    ranges; it calls none of the classifier's definitions. *)
Section transport.
Context (h : heap).

Definition has_property (v : value) (key : string) (x : value) : Prop :=
  exists i, v = Obj i /\ o_get (h i) key = Present x.

Definition instance_of (v : value) (c : ctor) : Prop :=
  exists i, v = Obj i /\ o_instanceof (h i) c = Some true.

Definition posix_codes : list string :=
  ["ECONNREFUSED"; "ECONNRESET"; "ETIMEDOUT"; "ENOTFOUND"; "EAI_AGAIN"; "ENETUNREACH"; "EPIPE"].
Definition undici_codes : list string :=
  ["UND_ERR_CONNECT_TIMEOUT"; "UND_ERR_HEADERS_TIMEOUT"; "UND_ERR_BODY_TIMEOUT"; "UND_ERR_SOCKET";
   "UND_ERR_ABORTED"].
Definition tls_codes : list string :=
  ["CERT_HAS_EXPIRED"; "UNABLE_TO_VERIFY_LEAF_SIGNATURE"; "DEPTH_ZERO_SELF_SIGNED_CERT";
   "ERR_TLS_CERT_ALTNAME_INVALID"].
Definition http2_codes : list string :=
  ["ERR_HTTP2_STREAM_ERROR"; "ERR_HTTP2_SESSION_ERROR"; "ERR_HTTP2_GOAWAY_SESSION"].

Definition transport_code (c : string) : Prop :=
  c ∈ posix_codes \/ c ∈ undici_codes \/ c ∈ tls_codes \/ c ∈ http2_codes \/ c = "HTTP_5XX".

(** A code is a string, or a number or bigint as it prints. *)
Inductive code_of (v : value) : string -> Prop :=
  | code_string s : has_property v "code" (Str s) -> code_of v s
  | code_number n : has_property v "code" (Num n) -> code_of v (number_text n)
  | code_bigint z : has_property v "code" (Big z) -> code_of v (pretty z).

Inductive finite_floor : number -> Z -> Prop :=
  | floor_integer z : finite_floor (NInt z) z
  | floor_other b f t : finite_floor (NOther b f t) f.

Definition finite_number (v : value) : Prop := exists n z, v = Num n /\ finite_floor n z.

(** The status is [statusCode] when that is a finite number; when it is anything else that can
    be read, it is [status]. *)
Inductive status (v : value) : number -> Prop :=
  | status_code n z : has_property v "statusCode" (Num n) -> finite_floor n z -> status v n
  | status_fallback i n z :
      v = Obj i -> o_get (h i) "statusCode" <> Throws ->
      (forall x, o_get (h i) "statusCode" = Present x -> ~ finite_number x) ->
      has_property v "status" (Num n) -> finite_floor n z -> status v n.

Definition server_error (n : number) : Prop := exists z, finite_floor n z /\ 500 <= z < 600.
(** What the documentation says of the status: 500 or more. *)
Definition documented_server_error (n : number) : Prop := exists z, finite_floor n z /\ 500 <= z.

Section signals.
(** The statuses that count. *)
Variable upstream_failure : number -> Prop.

(** The signals of an [Error] that is neither a [DOMException] nor an [AggregateError]. *)
Inductive signal (v : value) : Prop :=
  | signal_name s :
      has_property v "name" (Str s) -> s = "AbortError" \/ s = "TimeoutError" -> signal v
  | signal_cause_name c s :
      has_property v "cause" c -> has_property c "name" (Str s) ->
      s = "ConnectTimeoutError" \/ s = "HeadersTimeoutError" \/ s = "BodyTimeoutError"
        \/ s = "SocketError" -> signal v
  | signal_cause_code c x :
      has_property v "cause" c -> code_of c x -> transport_code x -> signal v
  | signal_code x : code_of v x -> transport_code x -> signal v
  | signal_status n : status v n -> upstream_failure n -> signal v
  | signal_fetch_failed :
      instance_of v CTypeError -> (forall c, has_property v "cause" c -> c = Undefined) ->
      has_property v "message" (Str "fetch failed") -> signal v.

(** Not nullish and not a denial of the provider. *)
Definition eligible (v : value) : Prop :=
  v <> Undefined /\ v <> Null /\
  forall s, has_property v "name" (Str s) ->
    s <> "ProviderDeniedError" /\ s <> "CustodyDeniedError" /\ s <> "UnauthorizedError"
    /\ s <> "ForbiddenError".

(** What counts as a transport failure. *)
Inductive transport : value -> Prop :=
  | transport_dom v s :
      eligible v -> instance_of v CDOMException ->
      has_property v "name" (Str s) -> s = "AbortError" \/ s = "TimeoutError" -> transport v
  | transport_aggregate v a l x :
      eligible v -> ~ instance_of v CDOMException -> instance_of v CAggregateError ->
      has_property v "errors" (Obj a) -> o_items (h a) = Some l ->
      x ∈ l -> transport x -> transport v
  | transport_error v :
      eligible v -> ~ instance_of v CDOMException -> ~ instance_of v CAggregateError ->
      instance_of v CError -> signal v -> transport v.
End signals.

(** ** The classifier's readers against the relations *)
Lemma safe_read_present v key x :
  x <> Undefined -> safe_read h v key = x <-> has_property v key x.
Proof.
  intros Hx. unfold has_property. destruct v as [| |s|m|z|b|k|k|i]; cbn [safe_read];
    try (split; [congruence|intros (? & [=] & _)]).
  split.
  - intros H. exists i. split; [done|]. destruct (o_get (h i) key); congruence.
  - intros (k & [= <-] & ->). done.
Qed.

Lemma safe_name_spec v s : safeGetName h v = Some s <-> has_property v "name" (Str s).
Proof.
  rewrite <- safe_read_present by done. unfold safeGetName.
  destruct (safe_read h v "name"); naive_solver.
Qed.

Lemma safe_code_spec v c : safeGetCode h v = Some c <-> code_of v c.
Proof.
  unfold safeGetCode. split.
  - destruct (safe_read h v "code") as [| |s|n|z|b|k|k|i] eqn:H; try done; intros [= <-];
      apply safe_read_present in H; try done; by constructor.
  - intros [s H|n H|z H]; apply safe_read_present in H; try done; by rewrite H.
Qed.

Lemma safe_instance_spec v c : safeInstanceOf h v c = true <-> instance_of v c.
Proof.
  unfold safeInstanceOf, instance_of. destruct v as [| |s|m|z|b|k|k|i];
    try (split; [done|intros (? & [=] & _)]).
  split.
  - intros H. exists i. split; [done|]. by destruct (o_instanceof (h i) c) as [[]|].
  - intros (k & [= <-] & ->). done.
Qed.

Lemma safe_instance_not v c : safeInstanceOf h v c = false <-> ~ instance_of v c.
Proof. rewrite <- safe_instance_spec. by destruct (safeInstanceOf h v c). Qed.

Lemma transport_codes_spec c : c ∈ TRANSPORT_CODES <-> transport_code c.
Proof.
  unfold transport_code, posix_codes, undici_codes, tls_codes, http2_codes, TRANSPORT_CODES.
  set_solver.
Qed.

Lemma has_spec set x : has set x = true <-> exists s, x = Some s /\ s ∈ set.
Proof.
  unfold has. destruct x as [s|]; [rewrite bool_decide_eq_true|]; naive_solver.
Qed.

Lemma isFinite_spec n : isFinite n = true <-> exists z, finite_floor n z.
Proof.
  destruct n; cbn; split; try done; try (intros _; eexists; constructor); intros [z H]; inversion H.
Qed.

Lemma not_finite_number v : (forall n, v = Num n -> isFinite n = false) <-> ~ finite_number v.
Proof.
  unfold finite_number. split.
  - intros H (n & z & -> & Hz). specialize (H n eq_refl).
    assert (isFinite n = true) by (apply isFinite_spec; eauto). congruence.
  - intros H n ->. apply not_true_iff_false. intros [z Hz]%isFinite_spec. eauto.
Qed.

Lemma status_of_last i n :
  status_of h i ["status"] = Some n <->
  exists z, has_property (Obj i) "status" (Num n) /\ finite_floor n z.
Proof.
  unfold has_property. cbn [status_of]. split.
  - destruct (o_get (h i) "status") as [|[| |s|m|z|b|k|k|a]|] eqn:H2; try done.
    destruct (isFinite m) eqn:Hf; [|done]. intros [= <-].
    apply isFinite_spec in Hf as [z Hz]. eauto.
  - intros (z & (j & [= <-] & ->) & Hz). by rewrite (proj2 (isFinite_spec n)) by eauto.
Qed.

Lemma safe_status_spec v n : safeGetStatusCode h v = Some n <-> status v n.
Proof.
  unfold safeGetStatusCode. destruct v as [| |s|m|z|b|k|k|i];
    try (split; [done|intros [? ? (? & [=] & _)|? ? ? [=]]]).
  change (status_of h i ["statusCode"; "status"]) with
    (match o_get (h i) "statusCode" with
     | Throws => None
     | Present (Num n) => if isFinite n then Some n else status_of h i ["status"]
     | Present _ | Absent => status_of h i ["status"]
     end).
  assert (Hfall : (o_get (h i) "statusCode" <> Throws) ->
    (forall x, o_get (h i) "statusCode" = Present x -> ~ finite_number x) ->
    status_of h i ["status"] = Some n <-> status (Obj i) n).
  { intros Ht Hx. rewrite status_of_last. split.
    - intros (z & Hp & Hz). by eapply status_fallback.
    - intros [m z (j & [= <-] & Hp) Hz|j m z [= <-] _ _ Hp Hz]; [|eauto].
      exfalso. apply (Hx _ Hp). unfold finite_number. eauto. }
  destruct (o_get (h i) "statusCode") as [|x|] eqn:H1.
  - by apply Hfall.
  - destruct (match x with Num m => isFinite m | _ => false end) eqn:Hm.
    + destruct x as [| |s|m|z|b|k|k|a]; try done. rewrite Hm. apply isFinite_spec in Hm as Hz. destruct Hz as [z Hz]. split.
      * intros [= <-]. eapply status_code; [by exists i|exact Hz].
      * intros [m' z' (j & [= <-] & Hp) _|j m' z' [= <-] _ Hx _ _]; [congruence|].
        exfalso. apply (Hx _ H1). unfold finite_number. eauto.
    + assert (Hnf : forall m, x = Num m -> isFinite m = false).
      { by intros m ->. }
      rewrite <- Hfall; [|done|].
      * destruct x as [| |s|m|z|b|k|k|a]; try done. by rewrite Hm.
      * intros y [= <-]. by apply not_finite_number.
  - split; [done|]. intros [m z (j & [= <-] & Hp) Hz|j m z [= <-] Ht]; congruence.
Qed.
Lemma timeout_name_spec v :
  timeout_name (safeGetName h v) = true <->
  exists s, has_property v "name" (Str s) /\ (s = "AbortError" \/ s = "TimeoutError").
Proof.
  unfold timeout_name. rewrite has_spec. split; intros (s & H1 & H2); exists s;
    rewrite safe_name_spec in *; split; try done; set_solver.
Qed.

Lemma has_code_spec v :
  has TRANSPORT_CODES (safeGetCode h v) = true <-> exists x, code_of v x /\ transport_code x.
Proof.
  rewrite has_spec. split; intros (x & H1 & H2); exists x;
    by rewrite safe_code_spec, transport_codes_spec in *.
Qed.

Lemma has_cause_name_spec v :
  has TRANSPORT_CAUSE_NAMES (safeGetName h v) = true <->
  exists s, has_property v "name" (Str s) /\
    (s = "ConnectTimeoutError" \/ s = "HeadersTimeoutError" \/ s = "BodyTimeoutError"
     \/ s = "SocketError").
Proof.
  rewrite has_spec. unfold TRANSPORT_CAUSE_NAMES. split; intros (s & H1 & H2); exists s;
    rewrite safe_name_spec in *; split; try done; set_solver.
Qed.

Lemma nullish_spec v : nullish v = false <-> v <> Undefined /\ v <> Null.
Proof. destruct v; naive_solver. Qed.

Lemma property_not_nullish v key x : has_property v key x -> nullish v = false.
Proof. by intros (i & -> & _). Qed.

Lemma code_not_nullish v x : code_of v x -> nullish v = false.
Proof. intros [s H|n H|z H]; by eapply property_not_nullish. Qed.

(** The causes of the classifier are the readable ones. *)
Lemma cause_spec v c : nullish c = false -> safeGetCause h v = c <-> has_property v "cause" c.
Proof. intros [H _]%nullish_spec. by apply safe_read_present. Qed.

Lemma no_cause_spec v :
  safeGetCause h v = Undefined <-> (forall c, has_property v "cause" c -> c = Undefined).
Proof.
  unfold safeGetCause, has_property. destruct v as [| |s|m|z|b|k|k|i]; cbn [safe_read];
    try (split; [intros _ c (? & [=] & _)|done]).
  destruct (o_get (h i) "cause") as [|x|] eqn:Hg.
  - split; [|done]. intros _ c (j & [= <-] & Hp). congruence.
  - split; [intros -> c (j & [= <-] & Hp); congruence|]. intros H. apply H. eauto.
  - split; [|done]. intros _ c (j & [= <-] & Hp). congruence.
Qed.

Lemma server_error_spec n : server_error n <-> number_within 500 600 n = true.
Proof.
  unfold server_error. split.
  - intros (z & [] & Hz); cbn; lia.
  - destruct n; cbn; try done; intros; eexists; (split; [constructor|lia]).
Qed.

Lemma error_signals_spec v :
  error_signals h v (safeGetName h v) = true <-> signal server_error v.
Proof.
  unfold error_signals. cbv zeta. rewrite !orb_true_iff, !andb_true_iff, orb_true_iff, negb_true_iff,
    timeout_name_spec, !has_code_spec, has_cause_name_spec, !bool_decide_eq_true, safe_instance_spec,
    no_cause_spec, safe_read_present by done.
  split.
  - intros [[[[(s & H & Hs)|(Hn & Hc)]|(x & H & Hx)]|H]|((Ht & Hc) & Hm)].
    + by eapply signal_name.
    + pose proof (proj1 (cause_spec v _ Hn) eq_refl) as Hcause.
      destruct Hc as [(s & H & Hs)|(x & H & Hx)]; [by eapply signal_cause_name|by eapply signal_cause_code].
    + by eapply signal_code.
    + destruct (safeGetStatusCode h v) as [n|] eqn:Hst; [|done]. apply safe_status_spec in Hst.
      eapply signal_status; [exact Hst|]. by apply server_error_spec.
    + by apply signal_fetch_failed.
  - intros [s H Hs|c s Hc H Hs|c x Hc H Hx|x H Hx|n Hst Hn|Ht Hc Hm].
    + left; left; left; left. eauto.
    + left; left; left; right. apply cause_spec in Hc as Heq; [|by eapply property_not_nullish].
      rewrite Heq. split; [by eapply property_not_nullish|]. left. eauto.
    + left; left; left; right. apply cause_spec in Hc as Heq; [|by eapply code_not_nullish].
      rewrite Heq. split; [by eapply code_not_nullish|]. right. eauto.
    + left; left; right. eauto.
    + left; right. apply safe_status_spec in Hst. rewrite Hst. by apply server_error_spec.
    + right. done.
Qed.

Lemma eligible_spec v :
  eligible v <-> nullish v = false /\ has PROVIDER_DENIAL_NAMES (safeGetName h v) = false.
Proof.
  unfold eligible. rewrite nullish_spec, <- not_true_iff_false, has_spec. unfold PROVIDER_DENIAL_NAMES.
  split.
  - intros (H1 & H2 & H3). split_and!; [done..|]. intros (s & Hs%safe_name_spec & Hin).
    destruct (H3 s Hs) as (? & ? & ? & ?). set_solver.
  - intros ((H1 & H2) & H3). split_and!; [done..|]. intros s Hs%safe_name_spec.
    split_and!; intros ->; apply H3; eexists; (split; [done|set_solver]).
Qed.
(** Aggregates nest fewer than [n] deep below a value. *)
Inductive nested : nat -> value -> Prop :=
  | nested_within n v :
      (forall a l x, has_property v "errors" (Obj a) -> o_items (h a) = Some l -> x ∈ l -> nested n x) ->
      nested (S n) v.

Lemma some_res_true (f : value -> res string bool) l :
  some_res f l = Ok true -> exists x, x ∈ l /\ f x = Ok true.
Proof.
  induction l as [|y l IH]; [done|]. cbn. destruct (f y) as [[]|e] eqn:Hf; [|intros H|done].
  - intros _. exists y. split; [apply list_elem_of_here|done].
  - destruct (IH H) as (x & Hx & Hfx). exists x. split; [by apply elem_of_cons; right|done].
Qed.

Lemma some_res_complete (f : value -> res string bool) l :
  (forall x, x ∈ l -> is_ok (f x) = true) ->
  (exists x, x ∈ l /\ f x = Ok true) -> some_res f l = Ok true.
Proof.
  induction l as [|y l IH]; intros Hok (x & Hx & Hf); [by apply elem_of_nil in Hx|]. cbn.
  pose proof (Hok y (list_elem_of_here _ _)) as Hy.
  destruct (f y) as [[]|] eqn:Hfy; [done| |done].
  apply elem_of_cons in Hx as [->|Hx]; [congruence|].
  apply IH; [|by exists x]. intros z Hz. apply Hok. by apply elem_of_cons; right.
Qed.

Lemma transport_total n v : is_ok (isTransportError h (S n) v) = true.
Proof.
  cbn [isTransportError]. repeat case_match; try done.
Qed.

Lemma transport_sound n v : isTransportError h n v = Ok true -> transport server_error v.
Proof.
  revert v. induction n as [|n IH]; intros v; [done|]. cbn [isTransportError].
  destruct (nullish v) eqn:Hn; [done|].
  destruct (has PROVIDER_DENIAL_NAMES (safeGetName h v)) eqn:Hd; [done|].
  assert (He : eligible v) by by apply eligible_spec.
  destruct (safeInstanceOf h v CDOMException) eqn:H1.
  { intros [= (s & Hs & Hx)%timeout_name_spec]. apply safe_instance_spec in H1.
    by eapply transport_dom. }
  apply safe_instance_not in H1. destruct (safeInstanceOf h v CAggregateError) eqn:H2.
  - apply safe_instance_spec in H2.
    destruct (safe_read h v "errors") as [| |s|m|z|b|k|k|a] eqn:Hr; try done.
    apply safe_read_present in Hr; [|done].
    destruct (o_items (h a)) as [l|] eqn:Hi; [|done].
    destruct (some_res (isTransportError h n) l) as [b|] eqn:Hs; [|done]. intros [= ->].
    destruct (some_res_true _ _ Hs) as (x & Hx & Hf).
    eapply transport_aggregate; eauto.
  - apply safe_instance_not in H2. destruct (safeInstanceOf h v CError) eqn:H3; [|done].
    apply safe_instance_spec in H3. intros [= H%error_signals_spec]. by apply transport_error.
Qed.

Lemma transport_complete n v :
  nested n v -> transport server_error v -> isTransportError h n v = Ok true.
Proof.
  intros Hn Ht. revert n Hn.
  induction Ht as [v s He H1 H2 H3|v a l x He H1 H2 Hr Hi Hx _ IH|v He H1 H2 H3 H4];
    intros n Hn; destruct Hn as [n v Hn]; apply eligible_spec in He as [He1 He2];
    cbn [isTransportError]; rewrite He1, He2.
  - rewrite (proj2 (safe_instance_spec _ _) H1), (proj2 (timeout_name_spec _)); eauto.
  - rewrite (proj2 (safe_instance_not _ _) H1), (proj2 (safe_instance_spec _ _) H2).
    rewrite (proj2 (safe_read_present v "errors" (Obj a) ltac:(done)) Hr), Hi.
    rewrite (some_res_complete _ l); [done| |].
    + intros y Hy. destruct (Hn a l y Hr Hi Hy) as [m y' _]. apply transport_total.
    + exists x. split; [done|]. eapply IH, Hn; eauto.
  - rewrite (proj2 (safe_instance_not _ _) H1), (proj2 (safe_instance_not _ _) H2),
      (proj2 (safe_instance_spec _ _) H3). by rewrite (proj2 (error_signals_spec _)).
Qed.

Lemma signal_mono (P Q : number -> Prop) v : (forall n, P n -> Q n) -> signal P v -> signal Q v.
Proof.
  intros H [s Hs Hx|c s Hc Hs Hx|c x Hc Hx Ht|x Hx Ht|n Hs Hn|Ht Hc Hm].
  - exact (signal_name _ _ s Hs Hx).
  - exact (signal_cause_name _ _ c s Hc Hs Hx).
  - exact (signal_cause_code _ _ c x Hc Hx Ht).
  - exact (signal_code _ _ x Hx Ht).
  - exact (signal_status _ _ n Hs (H n Hn)).
  - exact (signal_fetch_failed _ _ Ht Hc Hm).
Qed.

Lemma transport_mono (P Q : number -> Prop) v :
  (forall n, P n -> Q n) -> transport P v -> transport Q v.
Proof.
  intros H Ht. induction Ht; [by eapply transport_dom|by eapply transport_aggregate|].
  apply transport_error; try done. by eapply signal_mono.
Qed.
End transport.

(** An error whose one property is a status. *)
Definition status_heap (n : Z) : heap := fun _ =>
  mkObject (fun k => if String.eqb k "statusCode" then Present (Num (NInt n)) else Absent)
    (fun c => Some (bool_decide (c = CError))) None (Some "[object]").

Lemma status_heap_documented n : 500 <= n -> transport (status_heap n) documented_server_error (Obj 0).
Proof.
  intros Hn. apply transport_error.
  - split_and!; [done..|]. intros s (i & [= <-] & [=]).
  - intros (i & [= <-] & [=]).
  - intros (i & [= <-] & [=]).
  - by exists 0%nat.
  - eapply (signal_status _ _ _ (NInt n)); [|exists n; split; [constructor|done]].
    eapply status_code; [by exists 0%nat|constructor].
Qed.

Lemma status_heap_refused n stack :
  600 <= n -> isTransportError (status_heap n) (S stack) (Obj 0) = Ok false.
Proof.
  intros Hn. unfold isTransportError, error_signals, status_heap. cbn.
  replace ((500 <=? n) && (n <? 600)) with false by lia. done.
Qed.

(** C31: the classifier always answers, on any thrown value and with at least one call's stack:
    [true] only for a transport failure as the independent specification [transport] declares
    it, with the statuses 500 to 599, and for every one of them whose aggregates nest less deep
    than the stack. The documentation counts every status of 500 and more: it declares all
    these failures and others, and an error with any status from 600 on is declared by it and
    not recognised. *)
Theorem transport_classified (h : heap) (stack : nat) (v : value) :
  is_ok (isTransportError h (S stack) v) = true /\
  (isTransportError h stack v = Ok true -> transport h server_error v) /\
  (nested h stack v -> transport h server_error v -> isTransportError h stack v = Ok true) /\
  (transport h server_error v -> transport h documented_server_error v) /\
  (forall n, 600 <= n ->
     transport (status_heap n) documented_server_error (Obj 0) /\
     isTransportError (status_heap n) (S stack) (Obj 0) = Ok false).
Proof.
  split_and!; [apply transport_total|apply transport_sound|apply transport_complete| |].
  - apply transport_mono. intros n (z & Hz & Hr). exists z. split; [done|lia].
  - intros n Hn. split; [apply status_heap_documented; lia|by apply status_heap_refused].
Qed.

(** A happy-eyeballs failure: an aggregate of a plain error and a refused connection. *)
Definition eyeballs_heap : heap := fun i =>
  match i with
  | 0%nat => mkObject (fun k => if String.eqb k "errors" then Present (Obj 1) else Absent)
               (fun c => Some (bool_decide (c = CAggregateError \/ c = CError))) None None
  | 1%nat => mkObject (fun _ => Absent) (fun _ => Some false) (Some [Obj 2; Obj 3]) None
  | 2%nat => plain_object (fun _ => Absent)
  | 3%nat => plain_object (fun k => if String.eqb k "cause" then Present (Obj 4) else Absent)
  | _ => plain_object (fun k => if String.eqb k "code" then Present (Str "ECONNREFUSED") else Absent)
  end.

Lemma transport_classified_witness :
  isTransportError eyeballs_heap 2 (Obj 0) = Ok true /\ transport eyeballs_heap server_error (Obj 0) /\
  transport (status_heap 600) documented_server_error (Obj 0) /\
  isTransportError (status_heap 600) 3 (Obj 0) = Ok false.
Proof.
  assert (H : isTransportError eyeballs_heap 2 (Obj 0) = Ok true) by (vm_compute; reflexivity).
  destruct (transport_classified eyeballs_heap 2 (Obj 0)) as (_ & Hs & _ & _ & Hd).
  split; [exact H|]. split; [exact (Hs H)|]. apply Hd. lia.
Defined.

(** ** [walk] *)
Section walk.
Context (h : heap) (symbol_text : nat -> string).

(** Objects that answer: reading [cause], [instanceof Error] and [String] do not throw. *)
Definition benign : Prop :=
  forall i, o_get (h i) "cause" <> Throws /\ o_instanceof (h i) CError <> None /\ o_text (h i) <> None.

Definition next_link (v : value) : option value :=
  if safeInstanceOf h v CError then
    if bool_decide (safeGetCause h v = Undefined) then None else Some (safeGetCause h v)
  else None.

(** What the walk returns for a value that matches. *)
Definition wrap (v : value) : walked :=
  if safeInstanceOf h v CError then TheError v
  else NewError match String_ h symbol_text v with Ok t => t | Throw _ => "" end.

Lemma benign_instanceof v : benign -> instanceof h v CError = Ok (safeInstanceOf h v CError).
Proof.
  intros Hb. destruct v as [| |s|m|z|b|i|i|i]; try done. cbn.
  destruct (Hb i) as (_ & H & _). by destruct (o_instanceof (h i) CError).
Qed.

Lemma benign_cause v : benign -> get_cause h v = Ok (safeGetCause h v).
Proof.
  intros Hb. destruct v as [| |s|m|z|b|i|i|i]; try done. unfold safeGetCause. cbn.
  destruct (Hb i) as (H & _ & _). by destruct (o_get (h i) "cause").
Qed.

Lemma benign_text v : benign -> exists t, String_ h symbol_text v = Ok t.
Proof.
  intros Hb. destruct v as [| |s|m|z|b|i|i|i]; cbn; eauto.
  destruct (Hb i) as (_ & _ & H). destruct (o_text (h i)); eauto. done.
Qed.

Definition match_of (fn : value -> bool) (v : value) : option walked :=
  if fn v then Some (wrap v) else None.

Lemma walkPredicate_search fn n visited err w :
  benign -> exists w',
    walkPredicate h symbol_text fn n visited err w
    = Ok (search (match_of fn) next_link n visited err, w') /\
    (w' = true -> w = true \/ length (chain next_link (S n) err) = S n).
Proof.
  intros Hb. revert visited err. induction n as [|n IH]; intros visited err.
  { exists true. split; [done|]. intros _. right. cbn. by destruct (next_link err). }
  cbn [walkPredicate search]. unfold match_of at 1. case_bool_decide; [exists w; split; [done|by left]|].
  rewrite benign_instanceof, benign_cause by done. destruct (benign_text err Hb) as [t Ht].
  destruct (fn err) eqn:Hf.
  { exists w. unfold wrap. rewrite Ht. destruct (safeInstanceOf h err CError); split; try done; by left. }
  rewrite (chain_S _ (S n) err). unfold next_link at 1 3.
  destruct (safeInstanceOf h err CError); [|exists w; split; [done|by left]].
  case_bool_decide as Hu; [rewrite Hu; exists w; split; [done|by left]|].
  destruct (IH (err :: visited) (safeGetCause h err)) as (w' & Hw & Hl).
  exists w'. split.
  - destruct (safeGetCause h err); done.
  - intros H'. destruct (Hl H') as [|Hc]; [by left|]. right. cbn [length]. by rewrite Hc.
Qed.

Lemma head_match fn l :
  head (omap (match_of fn) l) = wrap <$> head (filter (fun v => fn v = true) l).
Proof.
  induction l as [|v l IH]; [done|]. rewrite filter_cons. csimpl. unfold match_of at 1.
  destruct (fn v); [done|apply IH].
Qed.
End walk.

(** over objects whose reads answer, the predicate walk returns the first match among the
    error and its next 31 causes, wrapped when it is not an [Error], and [null] when there is
    none, however the causes cycle; the truncation warning is raised only for a chain of more
    than 32. *)
Theorem walk_first_match (h : heap) (symbol_text : nat -> string) (err : value)
    (fn : value -> bool) (warned : bool) :
  benign h ->
  exists warned',
    walk h symbol_text err (Some fn) warned
    = Ok (wrap h symbol_text <$> head (filter (fun v => fn v = true) (chain (next_link h) 32 err)), warned') /\
    (warned' = true -> warned = true \/ length (chain (next_link h) 33 err) = 33%nat).
Proof.
  intros Hb. destruct (walkPredicate_search h symbol_text fn MAX_WALK_DEPTH [] err warned Hb)
    as (w' & Hw & Hl).
  exists w'. split; [|done]. unfold walk. rewrite Hw, search_first. unfold MAX_WALK_DEPTH.
  by rewrite head_match.
Qed.

Definition quiet_heap : heap := cyclic_heap Absent.

Lemma walk_first_match_witness :
  benign quiet_heap /\
  exists w, walk quiet_heap (fun _ => "") (Obj 0) (Some (fun v => bool_decide (v = Obj 1))) false
            = Ok (Some (TheError (Obj 1)), w) /\
            (w = true -> false = true \/ length (chain (next_link quiet_heap) 33 (Obj 0)) = 33%nat).
Proof.
  assert (Hb : benign quiet_heap) by (intros i; done).
  split; [exact Hb|].
  destruct (walk_first_match quiet_heap (fun _ => "") (Obj 0) (fun v => bool_decide (v = Obj 1)) false Hb)
    as (w & Hw & Hl).
  exists w. split; [rewrite Hw; vm_compute; reflexivity|exact Hl].
Defined.

(** ** [safeBigInt] *)
Lemma digit_is_decimal c : is_digit c = true -> digit_val c = JsText.code c - 48 /\ digit_val c < 10.
Proof.
  intros Hd. unfold digit_val. rewrite Hd. split; [done|].
  unfold is_digit, in_range in Hd. apply andb_true_iff in Hd as [_ Hd%Z.leb_le]. lia.
Qed.

(** The value of a decimal literal with an optional minus sign. *)
Definition decimal_value (s : string) : Z :=
  match String.list_ascii_of_string s with
  | c :: ds => if JsText.code c =? 45 then - digits_value ds else digits_value (c :: ds)
  | [] => 0
  end.

Lemma radix_value_digits_eq ds :
  ds <> [] -> forallb is_digit ds = true -> radix_value 10 ds = Some (digits_value ds).
Proof.
  intros Hne Hd. unfold radix_value. rewrite bool_decide_false by done.
  assert (Ha : Forall (fun c => is_digit c = true) ds)
    by (apply Forall_forall; intros c Hc; eapply forallb_forall; [exact Hd|by apply list_elem_of_In]).
  rewrite (proj2 (forallb_forall _ _)).
  - cbn. f_equal. unfold digits_value. generalize 0. clear Hne Hd.
    induction Ha as [|c ds Hc Ha IH]; intros v; [done|]. cbn.
    rewrite (proj1 (digit_is_decimal c Hc)). apply IH.
  - intros c Hc%list_elem_of_In. apply Z.ltb_lt, digit_is_decimal. by eapply Forall_forall in Ha.
Qed.

Lemma decimal_integer_BigInt s : decimal_integer s = true -> js_BigInt s = Some (decimal_value s).
Proof.
  unfold decimal_integer, decimal_value. destruct s as [|c s]; [done|]. cbn [String.list_ascii_of_string].
  destruct (JsText.code c =? 45) eqn:Hc.
  - intros [Hne Hd]%andb_true_iff. apply negb_true_iff, bool_decide_eq_false in Hne.
    assert (c = "-"%char) as ->.
    { apply Z.eqb_eq in Hc. unfold JsText.code in Hc.
      rewrite <- (Ascii.ascii_nat_embedding c). replace (Ascii.nat_of_ascii c) with 45%nat by lia. done. }
    by apply js_BigInt_neg, radix_value_digits_eq.
  - intros [_ Hd]%andb_true_iff. by apply js_BigInt_digits, radix_value_digits_eq.
Qed.

Lemma pretty_decimal (z : Z) : decimal_integer (pretty z) = true.
Proof.
  assert (HN : forall n : N, let l := String.list_ascii_of_string (pretty n) in
    l <> [] /\ forallb is_digit l = true).
  { intros n l. destruct (radix_value_digits _ _ (radix_value_pretty n)) as [Hne Hd].
    split; [done|]. apply forallb_forall. intros c Hc%list_elem_of_In. by eapply Forall_forall in Hd. }
  destruct z as [|p|p]; [done| |].
  - change (decimal_integer (pretty (N.pos p)) = true). destruct (HN (N.pos p)) as [Hne Hd].
    unfold decimal_integer. destruct (String.list_ascii_of_string _) as [|c l]; [done|].
    cbn [forallb] in Hd. pose proof Hd as [Hc _]%andb_true_iff.
    destruct (digit_not_sign c Hc) as [_ ->]. by rewrite bool_decide_false.
  - change (decimal_integer (String "-"%char (pretty (N.pos p))) = true).
    destruct (HN (N.pos p)) as [Hne Hd]. unfold decimal_integer. cbn [String.list_ascii_of_string].
    change (JsText.code "-"%char =? 45) with true. cbv iota. by rewrite bool_decide_false.
Qed.

(** the conversion accepts exactly the bigints, the safe integers and the decimal strings,
    and the amount it returns is theirs; any amount survives printing and reading back. *)
Theorem safeBigInt_exact {E} (errorFactory : string -> value -> E) (name : string) (v : value) (z : Z) :
  (createSafeBigInt errorFactory name v = Ok z <->
     v = Big z
     \/ (v = Num (NInt z) /\ Z.abs z <= 2 ^ 53 - 1)
     \/ (exists s, v = Str s /\ decimal_integer s = true /\ z = decimal_value s)) /\
  createSafeBigInt errorFactory name (Str (pretty z)) = Ok z.
Proof.
  unfold createSafeBigInt, safe_bigint. split.
  - destruct v as [| |s|[i|b f t| |ng]|y|b|i|i|i]; try (split; [done|]; naive_solver).
    + destruct (decimal_integer s) eqn:Hs; [rewrite (decimal_integer_BigInt s Hs)|];
        split; try naive_solver congruence.
    + unfold is_safe. destruct (Z.leb_spec (Z.abs i) (2 ^ 53 - 1)); split; try naive_solver lia.
    + split; naive_solver.
  - by rewrite pretty_decimal, js_BigInt_pretty.
Qed.
