(* ===== verification/TeeAttestation.v ===== *)
(** * Attestation of TEE-backed wallets ([sdk/kit/src/tee])

    The wallet's identity, the managed providers ([providers/managed-verifier.ts]), the
    Turnkey boot and app proofs ([providers/turnkey.ts]) and the dispatcher with its cache
    and its enforcement ([verify.ts]). A wallet is what its reads answer; the promises it
    returns are their outcomes; clock readings are arguments. The CBOR decoder, the X.509
    and ECDSA checks and Node's buffers are the class [CryptoEnv]. *)

From S2P Require Import Prelude Types Accounts StateResolver JsText Inspector AgentErrors ErrorChains TeeCache.
Local Open Scope string_scope.
Local Open Scope Z_scope.
Local Open Scope list_scope.

(** ** Results ([types.ts], [wallet-types.ts]) *)
Inductive TeeProvider := crossmint | turnkey | privy.

Inductive AttestationStatus :=
  | CryptographicallyVerified | ProviderVerified | ProviderTrusted | Failed | Unavailable.

Inductive AttestationLevel := provider_trusted | provider_verified | cryptographic.

#[export] Instance TeeProvider_eq_dec : EqDecision TeeProvider.
Proof. solve_decision. Defined.
#[export] Instance AttestationStatus_eq_dec : EqDecision AttestationStatus.
Proof. solve_decision. Defined.
#[export] Instance AttestationLevel_eq_dec : EqDecision AttestationLevel.
Proof. solve_decision. Defined.

Definition provider_text (p : TeeProvider) : string :=
  match p with crossmint => "crossmint" | turnkey => "turnkey" | privy => "privy" end.

Definition status_text (s : AttestationStatus) : string :=
  match s with
  | CryptographicallyVerified => "cryptographically_verified"
  | ProviderVerified => "provider_verified"
  | ProviderTrusted => "provider_trusted"
  | Failed => "failed"
  | Unavailable => "unavailable"
  end.

Definition level_text (l : AttestationLevel) : string :=
  match l with
  | provider_trusted => "provider_trusted"
  | provider_verified => "provider_verified"
  | cryptographic => "cryptographic"
  end.

Record NitroPcrValues := mkPcrs {
  pcr0 : option string; pcr1 : option string; pcr2 : option string; pcr3 : option string }.

Inductive raw_attestation :=
  | IntrospectionFailed (cause : redacted)
  | CustodyError (transport : bool) (cause : redacted).

Record AttestationMetadata := mkMetadata {
  am_provider : TeeProvider;
  am_enclaveType : option string;
  am_pcrValues : option NitroPcrValues;
  am_certChainLength : option nat;
  am_verifiedAt : Z;
  am_rawAttestation : option raw_attestation;
}.

Record AttestationResult := mkAttestation {
  ar_status : AttestationStatus;
  ar_provider : TeeProvider;
  ar_publicKey : string;
  ar_metadata : AttestationMetadata;
  ar_message : string;
}.

(** [TeeAttestationError] and its two subclasses, told apart by the code. *)
Inductive tee_code := ATTESTATION_FAILED | CERT_CHAIN_INVALID | PCR_MISMATCH.

Record TeeAttestationError := mkTeeError {
  te_code : tee_code;
  te_message : string;
  te_result : option AttestationResult;
}.

Definition tee_error (message : string) : TeeAttestationError :=
  mkTeeError ATTESTATION_FAILED message None.
Definition cert_chain_error (message : string) : TeeAttestationError :=
  mkTeeError CERT_CHAIN_INVALID message None.
Definition pcr_mismatch_error (index : nat) (expected actual : string) : TeeAttestationError :=
  mkTeeError PCR_MISMATCH
    ("PCR" +:+ pretty index +:+ " mismatch: expected " +:+ expected +:+ ", got " +:+ actual) None.

(** What is thrown: an attestation error, or a value that is none. *)
Inductive thrown := TeeThrown (e : TeeAttestationError) | RawThrown (v : value).

(** ** Wallets *)
Inductive wallet_read := Answers (v : value) | ReadThrows (e : value).

(** An optional method: its property read throws, it is no function, or the outcome of its
    call. *)
Inductive method (A : Type) := NotAFunction | GetterThrows (e : value) | Outcome (a : A).
Arguments NotAFunction {A}.
Arguments GetterThrows {A} e.
Arguments Outcome {A} a.

Record TurnkeyAttestationBundle := mkBundle {
  tb_bootProof : value;
  tb_appSignature : value;
  tb_appPublicKey : value;
}.

(** [AttTimesOut]: the promise is still pending after 30 seconds. *)
Inductive attestation_outcome :=
  | AttResolves (bundle : option TurnkeyAttestationBundle)
  | AttRejects (e : thrown)
  | AttTimesOut.

Record wallet := mkWallet {
  w_publicKey : wallet_read;
  w_provider : wallet_read;
  w_verifyProviderCustody : method (res value bool);
  w_getAttestation : method attestation_outcome;
}.

Definition VALID_TEE_PROVIDERS : list string := ["crossmint"; "privy"; "turnkey"].

(** [isTeeWallet]; [Throw] is the provider's getter. *)
Definition isTeeWallet (w : wallet) : res value (option string) :=
  match w_provider w with
  | ReadThrows e => Throw e
  | Answers (Str p) => Ok (if bool_decide (p ∈ VALID_TEE_PROVIDERS) then Some p else None)
  | Answers _ => Ok None
  end.

Definition detectProvider (w : wallet) : res value (option TeeProvider) :=
  match isTeeWallet w with
  | Throw e => Throw e
  | Ok None => Ok None
  | Ok (Some p) =>
      let provider := toLowerCase p in
      Ok (if bool_decide (provider = "crossmint") then Some crossmint
          else if bool_decide (provider = "turnkey") then Some turnkey
          else if bool_decide (provider = "privy") then Some privy
          else None)
  end.

(** The error made for a key that is not a non-empty string, as an object of the heap. *)
Definition readWalletIdentity (not_a_key : value) (w : wallet)
    : res value (string * option TeeProvider) :=
  match w_publicKey w with
  | ReadThrows e => Throw e
  | Answers (Str publicKey) =>
      if bool_decide (publicKey = "") then Throw not_a_key
      else
        match detectProvider w with
        | Ok detected => Ok (publicKey, detected)
        | Throw e => Throw e
        end
  | Answers _ => Throw not_a_key
  end.

(** [wallet.publicKey] where the identity has been read before. *)
Definition public_key (w : wallet) : string :=
  match w_publicKey w with Answers (Str k) => k | _ => "" end.

Definition wallet_usable (w : wallet) : Prop :=
  exists k, w_publicKey w = Answers (Str k) /\ k <> "".

(** ** Managed providers ([providers/managed-verifier.ts]) *)
Record ManagedProviderConfig := mkManaged {
  mp_provider : TeeProvider;
  mp_enclaveType : string;
  mp_infrastructureDescription : string;
}.

Definition capitalize (s : string) : string :=
  match s with
  | EmptyString => ""
  | String c rest => String (to_upper_ascii c) rest
  end.

Section managed.
Context (h : heap) (stack : nat).

(** [isTransportError(err)] in the handler; the call nests in a shallow stack. *)
Definition transport_flag (err : value) : bool :=
  match isTransportError h stack err with Ok b => b | Throw _ => false end.

Definition createManagedVerifier (config : ManagedProviderConfig) (w : wallet) (now : Z)
    : res thrown AttestationResult :=
  let provider := mp_provider config in
  let Name := capitalize (provider_text provider) in
  let publicKey := public_key w in
  let metadata enclave raw := mkMetadata provider enclave None None now raw in
  match w_verifyProviderCustody w with
  | GetterThrows e => Throw (RawThrown e)
  | Outcome (Ok true) =>
      Ok (mkAttestation ProviderVerified provider publicKey
            (metadata (Some (mp_enclaveType config)) None)
            (Name +:+ " wallet custody verified via API — address matches TEE-managed key."))
  | Outcome (Ok false) =>
      Ok (mkAttestation Failed provider publicKey (metadata None None)
            (Name +:+ " custody verification failed: address mismatch."))
  | Outcome (Throw err) =>
      let transport := transport_flag err in
      let cause := redactCause h err in
      Ok (mkAttestation Failed provider publicKey
            (metadata (Some (mp_enclaveType config)) (Some (CustodyError transport cause)))
            (if transport
             then Name +:+ " custody verification failed: transport error reaching the custody API. Retry after network recovery."
             else Name +:+ " custody verification failed: unexpected error from custody API. Cause: "
                  +:+ redacted_line cause))
  | NotAFunction =>
      Ok (mkAttestation ProviderTrusted provider publicKey
            (metadata (Some (mp_enclaveType config)) None)
            (Name +:+ " wallet trusted via managed " +:+ mp_infrastructureDescription config +:+ ". "
             +:+ "Custody verification unavailable — implement verifyProviderCustody() for ProviderVerified status."))
  end.

Definition verifyCrossmint : wallet -> Z -> res thrown AttestationResult :=
  createManagedVerifier (mkManaged crossmint "tdx" "Intel TDX infrastructure").
Definition verifyPrivy : wallet -> Z -> res thrown AttestationResult :=
  createManagedVerifier (mkManaged privy "nitro" "AWS Nitro Enclave infrastructure").
End managed.

(** ** ECDSA signatures in DER ([rawSigToDer]) *)

(** Leading zeros go, but one byte stays. *)
Fixpoint strip_leading_zeros (val : bytes) : bytes :=
  match val with
  | b :: ((_ :: _) as rest) => if b =? 0 then strip_leading_zeros rest else val
  | _ => val
  end.

Definition encodeInt (val : bytes) : bytes :=
  let val := strip_leading_zeros val in
  let needsPad := match val with b :: _ => b >=? 128 | [] => false end in
  let len := Z.of_nat (length val) + (if needsPad then 1 else 0) in
  2 :: len mod 256 :: (if needsPad then [0] else []) ++ val.

Definition rawSigToDer (rawSig : bytes) (curveByteLen : nat) : res thrown bytes :=
  if negb (bool_decide (length rawSig = (curveByteLen * 2)%nat)) then
    Throw (TeeThrown (tee_error
      ("Invalid raw ECDSA signature: expected " +:+ pretty (curveByteLen * 2)%nat +:+ " bytes, got "
       +:+ pretty (length rawSig))))
  else
    let rDer := encodeInt (take curveByteLen rawSig) in
    let sDer := encodeInt (drop curveByteLen rawSig) in
    let seqLen := Z.of_nat (length rDer + length sDer) in
    let header := if seqLen <? 128 then [48; seqLen] else [48; 129; seqLen mod 256] in
    Ok (header ++ rDer ++ sDer).

(** ** CBOR values, as the decoder returns them *)
Inductive cbor :=
  | CUndefined
  | CNull
  | CNum (z : Z)
  | CBytes (b : bytes)
  | CArray (l : list cbor)
  | CTagged (tag : Z) (v : cbor)               (* an object with [tag] and [value] *)
  | CMap (entries : list (Z * cbor))           (* a [Map] *)
  | CObject (fields : list (string * cbor))    (* a plain object *)
  | COther (truthy : bool).                    (* a string, a boolean *)

Definition cbor_truthy (v : cbor) : bool :=
  match v with
  | CUndefined | CNull => false
  | CNum z => negb (z =? 0)
  | COther t => t
  | _ => true
  end.

Fixpoint obj_field {V} (key : string) (fs : list (string * V)) : option V :=
  match fs with
  | [] => None
  | (k, v) :: rest => if String.eqb k key then Some v else obj_field key rest
  end.

(** [Map.get]: the last entry set under the key. *)
Fixpoint map_get {V} (key : Z) (m : list (Z * V)) : option V :=
  match m with
  | [] => None
  | (k, v) :: rest => match map_get key rest with Some x => Some x | None => if k =? key then Some v else None end
  end.

Class CryptoEnv := {
  Cert : Type;
  Key : Type;
  buffer_from_base64 : string -> bytes;
  buffer_from_hex : string -> bytes;
  buffer_from_other : cbor -> res value bytes;     (* of what is no byte string *)
  cbor_decode : bytes -> res value cbor;
  sig_structure_cbor : bytes -> bytes -> bytes;    (* CBOR(["Signature1", headers, [], payload]) *)
  x509_parse : bytes -> res value Cert;
  x509_root : Cert;
  x509_issued_by : Cert -> Cert -> bool;
  x509_publicKey : Cert -> Key;
  x509_verify : Cert -> Key -> bool;
  x509_validFrom : Cert -> option Z;               (* [None]: an invalid date *)
  x509_validTo : Cert -> option Z;
  verify_SHA384 : bytes -> Key -> bytes -> res value bool;
  verify_SHA256 : bytes -> Key -> bytes -> res value bool;
  create_p256_key : bytes -> res value Key;
  encode_address : string -> res value bytes;
  type_error : value;                              (* a [TypeError] of the engine *)
}.

Section turnkey.
Context `{CE : CryptoEnv}.

Definition raw {A} (r : res value A) : res thrown A :=
  match r with Ok a => Ok a | Throw v => Throw (RawThrown v) end.

Definition tee_throw {A} (message : string) : res thrown A := Throw (TeeThrown (tee_error message)).
Definition chain_throw {A} (message : string) : res thrown A :=
  Throw (TeeThrown (cert_chain_error message)).

Definition assertByteString (v : cbor) (name : string) : res thrown bytes :=
  match v with
  | CBytes b => Ok b
  | _ => tee_throw ("Invalid COSE_Sign1: " +:+ name +:+ " must be a byte string")
  end.

(** The headers as a map; a key that is no number is [NaN], which no lookup finds. *)
Definition header_entries (v : cbor) : list (Z * cbor) :=
  match v with
  | CMap es => es
  | CObject fs =>
      omap (fun kv => k ← parse_int 10 (String.list_ascii_of_string kv.1); Some (k, kv.2)) fs
  | CArray l => imap (fun i x => (Z.of_nat i, x)) l
  | CBytes b => imap (fun i x => (Z.of_nat i, CNum x)) b
  | _ => []
  end.

Record cose_sign1 := mkCose {
  cs_protectedHeaders : bytes;
  cs_unprotectedHeaders : list (Z * cbor);
  cs_payload : bytes;
  cs_signature : bytes;
}.

(** The four elements, out of a tag if there is one. *)
Definition cose_elements (decoded : cbor) : res thrown (list cbor) :=
  let tagged (tag : option cbor) (arr : list cbor) :=
    match tag with
    | None | Some (CNum 18) => Ok arr
    | Some _ => tee_throw "Invalid COSE tag: expected 18 (COSE_Sign1)"
    end in
  let invalid := tee_throw "Invalid COSE_Sign1: expected 4-element array" in
  match decoded with
  | CArray l => Ok l
  | CTagged tag (CArray l) => tagged (Some (CNum tag)) l
  | CObject fs =>
      match obj_field "value" fs with
      | Some (CArray l) => tagged (obj_field "tag" fs) l
      | _ => invalid
      end
  | _ => invalid
  end.

Definition decodeCoseSign1 (cborBytes : bytes) : res thrown cose_sign1 :=
  decoded ← raw (cbor_decode cborBytes);
  arr ← cose_elements decoded;
  match arr with
  | [a0; a1; a2; a3] =>
      protectedHeaders ← assertByteString a0 "protected_headers";
      payload ← assertByteString a2 "payload";
      signature ← assertByteString a3 "signature";
      Ok (mkCose protectedHeaders (header_entries a1) payload signature)
  | _ => tee_throw ("Invalid COSE_Sign1: expected 4 elements, got " +:+ pretty (length arr))
  end.

(** ** The certificate chain *)

(** An empty buffer has no base64 lines to join: the engine throws. *)
Definition parse_cert (der : bytes) : res thrown Cert :=
  if bool_decide (der = []) then Throw (RawThrown type_error) else raw (x509_parse der).

(** [now < from || now > to]; a comparison with an invalid date is false. *)
Definition outside_validity (now : Z) (c : Cert) : bool :=
  match x509_validFrom c with Some f => now <? f | None => false end
  || match x509_validTo c with Some t => now >? t | None => false end.

(** The loop from index [i]: each certificate against the next, the last against the root. *)
Fixpoint check_links (now : Z) (i : nat) (certs : list Cert) : res thrown unit :=
  match certs with
  | [] => Ok tt
  | cert :: rest =>
      let issuer := match rest with next :: _ => next | [] => x509_root end in
      throw_if (negb (x509_issued_by cert issuer))
        (TeeThrown (cert_chain_error
           ("Certificate at index " +:+ pretty i +:+ " was not issued by certificate at index " +:+ pretty (S i)))) ;;
      throw_if (negb (x509_verify cert (x509_publicKey issuer)))
        (TeeThrown (cert_chain_error
           ("Certificate signature verification failed at chain index " +:+ pretty i))) ;;
      throw_if (outside_validity now cert)
        (TeeThrown (cert_chain_error
           ("Certificate at index " +:+ pretty i +:+ " is outside its validity period"))) ;;
      check_links now (S i) rest
  end.

Definition validateCertChain (now : Z) (certs : list bytes) : res thrown Cert :=
  throw_if (bool_decide (certs = [])) (TeeThrown (cert_chain_error "Empty certificate chain")) ;;
  x509Certs ← map_res parse_cert certs;
  check_links now 0 x509Certs ;;
  match x509Certs, list.last x509Certs with
  | leaf :: _, Some lastCert =>
      throw_if (negb (x509_issued_by lastCert x509_root)
                || negb (x509_verify lastCert (x509_publicKey x509_root)))
        (TeeThrown (cert_chain_error "Certificate chain does not terminate at the AWS Nitro Root CA")) ;;
      Ok leaf
  | _, _ => chain_throw "Empty certificate chain"
  end.

(** ** The attestation document *)

(** [doc.key]: a property of [undefined] or [null] is the engine's error. *)
Definition property (v : cbor) (key : string) : res thrown cbor :=
  match v with
  | CUndefined | CNull => Throw (RawThrown type_error)
  | CObject fs => Ok (default CUndefined (obj_field key fs))
  | _ => Ok CUndefined
  end.

Definition index_of (v : cbor) (i : nat) : cbor :=
  match v with
  | CMap es => default CUndefined (map_get (Z.of_nat i) es)
  | CObject fs => default CUndefined (obj_field (pretty i) fs)
  | CArray l => default CUndefined (l !! i)
  | CBytes b => default CUndefined (CNum <$> b !! i)
  | _ => CUndefined
  end.

(** [Buffer.from(v)]. *)
Definition buffer_from (v : cbor) : res thrown bytes :=
  match v with CBytes b => Ok b | _ => raw (buffer_from_other v) end.

Definition hex_text (bs : bytes) : string := String.concat "" (hex_byte <$> bs).

Definition getHex (pcrs : cbor) (i : nat) : res thrown (option string) :=
  let v := index_of pcrs i in
  if cbor_truthy v then b ← buffer_from v; Ok (Some (hex_text b)) else Ok None.

Definition extractPcrValues (attestationDoc : cbor) : res thrown NitroPcrValues :=
  pcrs ← property attestationDoc "pcrs";
  if negb (cbor_truthy pcrs) then Ok (mkPcrs None None None None)
  else
    p0 ← getHex pcrs 0; p1 ← getHex pcrs 1; p2 ← getHex pcrs 2; p3 ← getHex pcrs 3;
    Ok (mkPcrs p0 p1 p2 p3).

(** An expectation or a value that is empty counts as absent. *)
Definition check_pcr3 (expected : option string) (pcrValues : NitroPcrValues) : res thrown unit :=
  match expected with
  | None | Some EmptyString => Ok tt
  | Some e =>
      match pcr3 pcrValues with
      | None | Some EmptyString => Throw (TeeThrown (pcr_mismatch_error 3 e "<absent>"))
      | Some p =>
          throw_if (negb (bool_decide (toLowerCase p = toLowerCase e)))
            (TeeThrown (pcr_mismatch_error 3 e p))
      end
  end.

(** ** The app proof *)
Definition falsy (v : value) : bool :=
  match v with
  | Undefined | Null => true
  | Str s => bool_decide (s = "")
  | Num (NInt z) | Big z => z =? 0
  | Num NNaN => true
  | Num _ => false
  | Bool b => negb b
  | Sym _ | Func _ | Obj _ => false
  end.

(** SubjectPublicKeyInfo header of an uncompressed P-256 point. *)
Definition P256_SPKI_HEADER : bytes :=
  [48; 89; 48; 19; 6; 7; 42; 134; 72; 206; 61; 2; 1; 6; 8; 42; 134; 72; 206; 61; 3; 1; 7; 3; 66; 0].

Definition hasAppProof (bundle : TurnkeyAttestationBundle) : bool :=
  negb (bool_decide (tb_appSignature bundle = Undefined))
  && negb (bool_decide (tb_appPublicKey bundle = Undefined)).

Definition check_app_proof (bundle : TurnkeyAttestationBundle) (bootPublicKeyBytes : cbor)
    (publicKey : string) : res thrown unit :=
  boot ← (if cbor_truthy bootPublicKeyBytes then buffer_from bootPublicKeyBytes else Ok []);
  throw_if (bool_decide (boot = []))
    (TeeThrown (tee_error "App proof provided but attestation document lacks public_key — cannot bind enclave to wallet")) ;;
  throw_if (falsy (tb_appSignature bundle) || falsy (tb_appPublicKey bundle))
    (TeeThrown (tee_error "App proof fields present but empty — possible attestation tampering")) ;;
  match tb_appSignature bundle, tb_appPublicKey bundle with
  | Str sig, Str key =>
      let appPubKeyBytes := buffer_from_hex key in
      throw_if (negb (bool_decide (length appPubKeyBytes = 65%nat)))
        (TeeThrown (tee_error ("Invalid app public key: expected 65 bytes (uncompressed P-256), got "
                               +:+ pretty (length appPubKeyBytes)))) ;;
      let appSig := buffer_from_hex sig in
      walletPubKeyBytes ← raw (encode_address publicKey);
      keyObj ← raw (create_p256_key (P256_SPKI_HEADER ++ appPubKeyBytes));
      appVerified ← raw (verify_SHA256 walletPubKeyBytes keyObj appSig);
      throw_if (negb appVerified) (TeeThrown (tee_error "App proof P-256 signature verification failed"))
  | _, _ => tee_throw "Invalid attestation bundle: appSignature and appPublicKey must be strings"
  end.

(** ** [verifyTurnkey] *)
Definition MAX_ATTESTATION_BYTES : Z := 64 * 1024.

Fixpoint cert_buffers (i : nat) (l : list cbor) : res thrown (list bytes) :=
  match l with
  | [] => Ok []
  | CBytes b :: rest => bs ← cert_buffers (S i) rest; Ok (b :: bs)
  | _ :: _ => chain_throw ("x5chain entry at index " +:+ pretty i +:+ " is not a byte string")
  end.

(** The boot proof: the document it signs, and the length of its certificate chain. *)
Definition verify_boot_proof (now : Z) (bootProof : value) : res thrown (cbor * nat) :=
  match bootProof with
  | Str ((String _ _) as text) =>
      let bootBytes := buffer_from_base64 text in
      throw_if (Z.of_nat (length bootBytes) >? MAX_ATTESTATION_BYTES)
        (TeeThrown (tee_error "Boot proof exceeds maximum size")) ;;
      cose ← decodeCoseSign1 bootBytes;
      match map_get 33 (cs_unprotectedHeaders cose) with
      | Some (CArray x5chain) =>
          certBuffers ← cert_buffers 0 x5chain;
          signingCert ← validateCertChain now certBuffers;
          let sigStructure := sig_structure_cbor (cs_protectedHeaders cose) (cs_payload cose) in
          derSig ← rawSigToDer (cs_signature cose) 48;
          verified ← raw (verify_SHA384 sigStructure (x509_publicKey signingCert) derSig);
          throw_if (negb verified) (TeeThrown (tee_error "COSE_Sign1 signature verification failed")) ;;
          attestationDoc ← raw (cbor_decode (cs_payload cose));
          Ok (attestationDoc, length certBuffers)
      | _ => chain_throw "No x5chain (key 33) in COSE_Sign1 unprotected headers"
      end
  | _ => tee_throw "Invalid attestation bundle: bootProof must be a non-empty base64 string"
  end.

Definition verify_bundle (expectedPcr3 : option string) (publicKey : string) (now : Z)
    (bundle : TurnkeyAttestationBundle) : res thrown AttestationResult :=
  doc_certs ← verify_boot_proof now (tb_bootProof bundle);
  pcrValues ← extractPcrValues doc_certs.1;
  check_pcr3 expectedPcr3 pcrValues ;;
  bootPublicKeyBytes ← property doc_certs.1 "public_key";
  (if hasAppProof bundle then check_app_proof bundle bootPublicKeyBytes publicKey else Ok tt) ;;
  Ok (mkAttestation CryptographicallyVerified turnkey publicKey
        (mkMetadata turnkey (Some "nitro") (Some pcrValues) (Some doc_certs.2) now None)
        "Turnkey attestation cryptographically verified: COSE_Sign1 P-384 signature valid, cert chain trusted, PCR values checked.").

Context (h : heap) (stack : nat).

Definition turnkey_result (status : AttestationStatus) (publicKey message : string) (now : Z)
    (raw : option raw_attestation) : AttestationResult :=
  mkAttestation status turnkey publicKey
    (mkMetadata turnkey (Some "nitro") None None now raw) message.

Definition verifyTurnkey (expectedPcr3 : option string) (w : wallet) (now : Z)
    : res thrown AttestationResult :=
  let publicKey := public_key w in
  match w_getAttestation w with
  | GetterThrows e => Throw (RawThrown e)
  | NotAFunction =>
      Ok (turnkey_result Unavailable publicKey
            "Turnkey wallet does not expose getAttestation() — cannot verify enclave identity. Pass a wallet with getAttestation() for cryptographic verification." now None)
  | Outcome AttTimesOut => tee_throw "Turnkey getAttestation() timed out after 30s"
  | Outcome (AttRejects (TeeThrown e)) => Throw (TeeThrown e)
  | Outcome (AttRejects (RawThrown err)) =>
      let transport := transport_flag h stack err in
      let cause := redactCause h err in
      Ok (turnkey_result Failed publicKey
            (if transport
             then "Turnkey attestation fetch failed: transport error reaching the attestation API. Retry after network recovery."
             else "Turnkey attestation fetch failed: " +:+ redacted_line cause)
            now (Some (CustodyError transport cause)))
  | Outcome (AttResolves None) =>
      Ok (turnkey_result Unavailable publicKey
            "Turnkey getAttestation() returned null — cannot verify enclave identity." now None)
  | Outcome (AttResolves (Some bundle)) =>
      match verify_bundle expectedPcr3 publicKey now bundle with
      | Ok r => Ok r
      | Throw (TeeThrown e) => Throw (TeeThrown e)
      | Throw (RawThrown err) =>
          tee_throw ("Turnkey attestation verification failed: " +:+ redacted_line (redactCause h err))
      end
  end.
End turnkey.

(** ** The dispatcher ([verify.ts]) *)
Definition CACHE_KEY_DELIMITER : string := "|".

(** Options: [Some None] is a TTL that is not finite. A callback is there or not: what it
    throws is caught. *)
Record AttestationConfig := mkAttConfig {
  cf_requireAttestation : option bool;
  cf_cacheTtlMs : option (option Z);
  cf_onVerified : bool;
  cf_onDegraded : bool;
  cf_expectedPcr3 : option string;
  cf_minAttestationLevel : option AttestationLevel;
}.

Definition default_att_config : AttestationConfig := mkAttConfig None None false false None None.

Inductive tee_event := Verified (r : AttestationResult) | Degraded (r : AttestationResult).

Definition level_order (l : AttestationLevel) : Z :=
  match l with provider_trusted => 0 | provider_verified => 1 | cryptographic => 2 end.

Definition status_level (s : AttestationStatus) : option Z :=
  match s with
  | ProviderTrusted => Some 0
  | ProviderVerified => Some 1
  | CryptographicallyVerified => Some 2
  | Failed | Unavailable => None
  end.

Definition attestationStatusMeetsLevel (status : AttestationStatus) (level : AttestationLevel) : bool :=
  match status_level status with Some n => n >=? level_order level | None => false end.

Definition isVerifiedStatus (s : AttestationStatus) : bool :=
  match s with
  | CryptographicallyVerified | ProviderVerified | ProviderTrusted => true
  | Failed | Unavailable => false
  end.

Definition cacheKey (config : AttestationConfig) (publicKey : string) : string :=
  match cf_expectedPcr3 config with
  | None | Some EmptyString => publicKey
  | Some p => publicKey +:+ CACHE_KEY_DELIMITER +:+ "pcr3=" +:+ p
  end.

Definition cache_ttl (config : AttestationConfig) : option Z :=
  match cf_cacheTtlMs config with Some t => t | None => Some DEFAULT_CACHE_TTL_MS end.
Definition use_cache (config : AttestationConfig) : bool :=
  match cache_ttl config with Some t => t >? 0 | None => false end.

Definition require_attestation (config : AttestationConfig) : bool :=
  default true (cf_requireAttestation config).

Definition effectiveMinLevel (config : AttestationConfig) : option AttestationLevel :=
  match cf_minAttestationLevel config with
  | Some l => Some l
  | None => if require_attestation config then Some provider_verified else None
  end.

Definition degraded (config : AttestationConfig) (r : AttestationResult) : list tee_event :=
  if cf_onDegraded config then [Degraded r] else [].

(** Steps 5a to 5c: the outcome and the callbacks that fire. *)
Definition enforce_levels (config : AttestationConfig) (r : AttestationResult)
    : res thrown AttestationResult * list tee_event :=
  let verified := isVerifiedStatus (ar_status r) in
  let reject message :=
    (Throw (TeeThrown (mkTeeError ATTESTATION_FAILED message (Some r))), degraded config r) in
  if require_attestation config && negb verified then
    reject ("TEE attestation required but verification " +:+ status_text (ar_status r) +:+ ": "
            +:+ ar_message r +:+ " Set `requireAttestation: false` with an `onDegraded` callback to proceed without verification.")
  else
    let accept :=
      (Ok r, if verified then (if cf_onVerified config then [Verified r] else []) else degraded config r) in
    match effectiveMinLevel config with
    | Some level =>
        if negb (attestationStatusMeetsLevel (ar_status r) level) then
          reject ("Attestation level " +:+ status_text (ar_status r)
                  +:+ " does not meet minimum required level: " +:+ level_text level)
        else accept
    | None => accept
    end.

Record tee_call := mkTeeCall {
  tc_result : res thrown AttestationResult;
  tc_events : list tee_event;
  tc_cache : AttestationCache (A := AttestationResult);
}.

Section dispatcher.
Context `{CE : CryptoEnv} (h : heap) (stack : nat) (not_a_key : value).

(** Steps 2 and 3: the detected provider's verifier. *)
Definition verify_provider (config : AttestationConfig) (w : wallet) (publicKey : string)
    (detected : option TeeProvider) (later : Z) : res thrown AttestationResult :=
  match detected with
  | None =>
      Ok (mkAttestation Unavailable crossmint publicKey
            (mkMetadata crossmint None None None later None)
            "Wallet does not expose a recognized TEE provider.")
  | Some crossmint => verifyCrossmint h stack w later
  | Some privy => verifyPrivy h stack w later
  | Some turnkey => verifyTurnkey h stack (cf_expectedPcr3 config) w later
  end.

(** Steps 1 to 4: the cached result, or a fresh one that is stored when it is verified. *)
Definition attestation_of (config : AttestationConfig) (w : wallet) (publicKey : string)
    (detected : option TeeProvider) (cache : AttestationCache) (now later : Z)
    : res thrown AttestationResult * AttestationCache :=
  let key := cacheKey config publicKey in
  let '(hit, cache) := if use_cache config then cache_get cache key now else (None, cache) in
  match hit with
  | Some r => (Ok r, cache)
  | None =>
      match verify_provider config w publicKey detected later with
      | Ok r =>
          (Ok r, if use_cache config && isVerifiedStatus (ar_status r)
                 then cache_set cache key r (cache_ttl config) later else cache)
      | Throw e => (Throw e, cache)
      end
  end.

Definition introspection_failed (e : value) (now : Z) : AttestationResult :=
  mkAttestation Failed crossmint "<unreadable>"
    (mkMetadata crossmint None None None now (Some (IntrospectionFailed (redactCause h e))))
    "Wallet rejected attestation introspection — `publicKey` or `provider` getter threw. This indicates a hostile or buggy wallet adapter.".

(** [now] is the clock at the call, [later] when the verifier has answered. *)
Definition verifyTeeAttestation (cache : AttestationCache) (w : wallet) (config : AttestationConfig)
    (now later : Z) : tee_call :=
  if negb (require_attestation config) && negb (cf_onDegraded config) then
    mkTeeCall (tee_throw "verifyTeeAttestation called with `requireAttestation: false` but no `onDegraded` callback. Omitting the callback is a silent-degradation vector — supply `onDegraded` to observe degraded results, or remove `requireAttestation: false` to fail closed.")
      [] cache
  else
    match readWalletIdentity not_a_key w with
    | Throw e =>
        let r := introspection_failed e now in
        if require_attestation config
        then mkTeeCall (Throw (TeeThrown (mkTeeError ATTESTATION_FAILED (ar_message r) (Some r)))) [] cache
        else mkTeeCall (Ok r) (degraded config r) cache
    | Ok (publicKey, detected) =>
        match attestation_of config w publicKey detected cache now later with
        | (Throw e, cache') => mkTeeCall (Throw e) [] cache'
        | (Ok r, cache') =>
            let '(outcome, events) := enforce_levels config r in
            mkTeeCall outcome events cache'
        end
    end.
End dispatcher.

Definition clearAttestationCache {A} (cache : AttestationCache (A := A)) : AttestationCache :=
  cache_clear cache.

Definition deleteFromAttestationCache {A} (cache : AttestationCache (A := A)) (publicKey : string)
    : bool * AttestationCache :=
  let direct := cache_delete cache publicKey in
  let prefix := cache_deleteByPrefix direct.2 (publicKey +:+ ":") in
  (direct.1 || (0 <? prefix.1)%nat, prefix.2).
