(* ===== verification/TeeSpec.v ===== *)
(** * What attestation promises, and what it does not

    The DER encoding of a signature read back by a strict decoder; what a cryptographically
    verified result rests on, and what it is not bound to; the dispatcher over whole sessions
    with its cache. *)

From Stdlib Require Import Ascii.
From S2P Require Import Prelude Types Accounts StateResolver JsText Bytes AgentErrors ErrorChains TeeCache TeeAttestation.
Local Open Scope string_scope.
Local Open Scope Z_scope.
Local Open Scope list_scope.

(** ** A strict reader of DER signatures *)
Definition big_endian (bs : bytes) : Z := fold_left (fun v b => v * 256 + b) bs 0.

(** A positive integer without a superfluous leading zero. *)
Definition minimal_positive (v : bytes) : bool :=
  match v with
  | [] => false
  | [b] => b <? 128
  | b :: b' :: _ => (b <? 128) && negb ((b =? 0) && (b' <? 128))
  end.

Definition der_int (bs : bytes) : option (Z * bytes) :=
  match bs with
  | 2 :: len :: rest =>
      let n := Z.to_nat len in
      if (0 <=? len) && (len <? 128) && (n <=? length rest)%nat && minimal_positive (take n rest)
      then Some (big_endian (take n rest), drop n rest)
      else None
  | _ => None
  end.

Definition der_signature (bs : bytes) : option (Z * Z) :=
  match bs with
  | 48 :: len :: rest =>
      if (len <? 128) && (len =? Z.of_nat (length rest)) then
        '(r, rest) ← der_int rest;
        '(s, rest) ← der_int rest;
        if bool_decide (rest = []) then Some (r, s) else None
      else None
  | _ => None
  end.

Lemma strip_zeros_spec val :
  val <> [] -> Forall is_byte val ->
  strip_leading_zeros val <> [] /\ Forall is_byte (strip_leading_zeros val) /\
  (length (strip_leading_zeros val) <= length val)%nat /\ big_endian (strip_leading_zeros val) = big_endian val /\
  (forall b b' l, strip_leading_zeros val = b :: b' :: l -> b <> 0).
Proof.
  induction val as [|b val IH]; [done|]. intros _ Hb.
  destruct val as [|b' val]; [by split_and!|].
  rewrite (eq_refl : strip_leading_zeros (b :: b' :: val) = if b =? 0 then strip_leading_zeros (b' :: val) else b :: b' :: val).
  apply Forall_cons in Hb as [H0 Hb]. destruct (Z.eqb_spec b 0) as [->|Hne].
  - destruct (IH ltac:(done) Hb) as (H1 & H2 & H3 & H4 & H5).
    split_and!; [done|done|cbn in *; lia|by rewrite H4|done].
  - split_and!; [done|by constructor|done|done|]. by intros c c' l [= -> _ _].
Qed.

Lemma take_app_exact {A} (a b : list A) n : length a = n -> take n (a ++ b) = a.
Proof. intros <-. apply take_app_length. Qed.
Lemma drop_app_exact {A} (a b : list A) n : length a = n -> drop n (a ++ b) = b.
Proof. intros <-. apply drop_app_length. Qed.

(** What the reader does on a tagged content of its own length. *)
Lemma der_int_content v rest :
  (length v < 128)%nat -> minimal_positive v = true ->
  der_int (2 :: Z.of_nat (length v) :: v ++ rest) = Some (big_endian v, rest).
Proof.
  intros Hl Hm. unfold der_int. rewrite Nat2Z.id, take_app_exact, drop_app_exact, Hm by done.
  rewrite (proj2 (Z.leb_le _ _)), (proj2 (Z.ltb_lt _ _)), (proj2 (Nat.leb_le _ _)); [done|..].
  - rewrite length_app. lia.
  - lia.
  - lia.
Qed.

Lemma encodeInt_read val rest :
  val <> [] -> Forall is_byte val -> (length val <= 60)%nat ->
  der_int (encodeInt val ++ rest) = Some (big_endian val, rest) /\
  (length (encodeInt val) <= length val + 3)%nat.
Proof.
  intros Hne Hb Hl. destruct (strip_zeros_spec val Hne Hb) as (H1 & H2 & H3 & <- & H5).
  unfold encodeInt. destruct (strip_leading_zeros val) as [|b v]; [done|].
  apply Forall_cons in H2 as [Hb0 H2]. unfold is_byte in Hb0.
  destruct (Z.geb_spec b 128) as [Hhigh|Hlow]; cbv iota.
  - split; [|cbn in *; lia].
    replace ((Z.of_nat (length (b :: v)) + 1) mod 256) with (Z.of_nat (length (0 :: b :: v)))
      by (rewrite Z.mod_small; cbn in *; lia).
    rewrite <- !app_comm_cons. cbn [app].
    change (0 :: b :: v ++ rest) with ((0 :: b :: v) ++ rest).
    rewrite der_int_content; [done|cbn in *; lia|].
    cbn. by rewrite (proj2 (Z.ltb_ge b 128)) by lia.
  - split; [|cbn in *; lia].
    replace ((Z.of_nat (length (b :: v)) + 0) mod 256) with (Z.of_nat (length (b :: v)))
      by (rewrite Z.mod_small; cbn in *; lia).
    rewrite <- !app_comm_cons. cbn [app]. change (b :: v ++ rest) with ((b :: v) ++ rest).
    rewrite der_int_content; [done|cbn in *; lia|]. cbn.
    rewrite (proj2 (Z.ltb_lt b 128)) by lia. destruct v as [|b' v]; [done|].
    by rewrite (proj2 (Z.eqb_neq b 0)) by (eapply H5; done).
Qed.

(** for curves of up to 60 bytes, a raw signature of the right length becomes DER that a
    strict decoder reads back as its two integers (positive, minimal, short-form lengths);
    any other length is refused. *)
Theorem der_signature_roundtrip (rawSig : bytes) (n : nat) :
  (1 <= n <= 60)%nat -> Forall is_byte rawSig ->
  if decide (length rawSig = n * 2)%nat
  then exists der, rawSigToDer rawSig n = Ok der /\
         der_signature der = Some (big_endian (take n rawSig), big_endian (drop n rawSig))
  else exists e, rawSigToDer rawSig n = Throw (TeeThrown e).
Proof.
  intros Hn Hb. unfold rawSigToDer. case_decide as Hl.
  2: { rewrite bool_decide_false by done. by eexists. }
  rewrite bool_decide_true by done. cbn [negb].
  assert (Ht : length (take n rawSig) = n) by (rewrite length_take; lia).
  assert (Hd : length (drop n rawSig) = n) by (rewrite length_drop; lia).
  assert (Hne : forall l : bytes, length l = n -> l <> []) by (intros [|] ?; cbn in *; [lia|done]).
  destruct (encodeInt_read (take n rawSig) (encodeInt (drop n rawSig))) as [R1 L1];
    [by apply Hne|by apply Forall_take|lia|].
  destruct (encodeInt_read (drop n rawSig) []) as [R2 L2]; [by apply Hne|by apply Forall_drop|lia|].
  rewrite app_nil_r in R2. eexists. split; [reflexivity|].
  rewrite (proj2 (Z.ltb_lt _ 128)) by lia. cbn [app der_signature].
  rewrite (proj2 (Z.ltb_lt _ 128)) by lia. rewrite length_app, Z.eqb_refl. cbn [andb].
  rewrite R1. cbn [mbind option_bind]. rewrite R2. cbn [mbind option_bind].
  by rewrite bool_decide_true.
Qed.

Lemma der_signature_roundtrip_witness :
  exists der, rawSigToDer (replicate 48 200 ++ replicate 47 0 ++ [7]) 48 = Ok der /\
    der_signature der = Some (big_endian (replicate 48 200), 7).
Proof.
  apply (der_signature_roundtrip (replicate 48 200 ++ replicate 47 0 ++ [7]) 48).
  - lia.
  - repeat (apply Forall_app; split); [apply Forall_replicate|apply Forall_replicate|constructor; [|done]];
      unfold is_byte; lia.
Defined.

(** ** What a cryptographically verified result rests on *)
Section turnkey.
Context `{CE : CryptoEnv}.

(** Every certificate is issued and signed by the next, the last by the root, and none is
    outside its validity at [now]. *)
Fixpoint trusted (now : Z) (certs : list Cert) : Prop :=
  match certs with
  | [] => True
  | c :: rest =>
      let issuer := match rest with next :: _ => next | [] => x509_root end in
      x509_issued_by c issuer = true /\ x509_verify c (x509_publicKey issuer) = true /\
      outside_validity now c = false /\ trusted now rest
  end.

Lemma check_links_trusted now i certs : check_links now i certs = Ok tt -> trusted now certs.
Proof.
  revert i. induction certs as [|c certs IH]; intros i H; [done|]. cbn [check_links] in H.
  inv_bind H. apply negb_false_iff in Hok, Hok0. cbn [trusted]. eauto.
Qed.

Lemma validateCertChain_trusted now ders leaf :
  validateCertChain now ders = Ok leaf ->
  exists rest, Forall2 (fun c d => d <> [] /\ x509_parse d = Ok c) (leaf :: rest) ders /\
    trusted now (leaf :: rest).
Proof.
  unfold validateCertChain. intros H. inv_bind H. destruct a as [|leaf' rest]; [by inv_bind H|].
  destruct a0. apply check_links_trusted in Hok1.
  destruct (list.last (leaf' :: rest)) as [lc|]; [|done]. inv_bind H. injection H as ->.
  exists rest. split; [|done]. eapply map_res_forall; [exact Hok0|].
  intros d c. unfold parse_cert. destruct (bool_decide_reflect (d = [])); [done|]. unfold raw.
  destruct (x509_parse d) eqn:Hp; [|done]. intros [= ->]. by split.
Qed.

(** The signed document of a boot proof: the text it decodes from, the chain, the signature. *)
Definition boot_proved (now : Z) (text : string) (doc : cbor) (chainLength : nat) : Prop :=
  exists cose chain ders leaf rest der,
    Z.of_nat (length (buffer_from_base64 text)) <= MAX_ATTESTATION_BYTES /\
    decodeCoseSign1 (buffer_from_base64 text) = Ok cose /\
    map_get 33 (cs_unprotectedHeaders cose) = Some (CArray chain) /\
    cert_buffers 0 chain = Ok ders /\ chainLength = length ders /\
    Forall2 (fun c d => d <> [] /\ x509_parse d = Ok c) (leaf :: rest) ders /\
    trusted now (leaf :: rest) /\
    rawSigToDer (cs_signature cose) 48 = Ok der /\
    verify_SHA384 (sig_structure_cbor (cs_protectedHeaders cose) (cs_payload cose))
      (x509_publicKey leaf) der = Ok true /\
    cbor_decode (cs_payload cose) = Ok doc.

Lemma raw_inv {A} (r : res value A) a : raw r = Ok a -> r = Ok a.
Proof. destruct r; [by intros [= ->]|done]. Qed.

Lemma verify_boot_proof_proved now v doc n :
  verify_boot_proof now v = Ok (doc, n) -> exists text, v = Str text /\ boot_proved now text doc n.
Proof.
  intros H. destruct v as [| |[|c text]|m|z|b|i|i|i]; try done. exists (String c text). split; [done|].
  unfold verify_boot_proof in H. set (t := String c text) in *. cbv zeta in H.
  apply bind_ok_inv in H as ([] & Hsize & H). apply throw_if_ok_inv in Hsize.
  rewrite Z.gtb_ltb in Hsize. apply Z.ltb_ge in Hsize.
  apply bind_ok_inv in H as (cose & Hcose & H).
  destruct (map_get 33 (cs_unprotectedHeaders cose)) as [[| | | |chain| | | |]|] eqn:Hx; try done.
  apply bind_ok_inv in H as (ders & Hders & H).
  apply bind_ok_inv in H as (leaf & Hleaf & H).
  apply bind_ok_inv in H as (der & Hder & H).
  apply bind_ok_inv in H as (verified & Hv%raw_inv & H).
  apply bind_ok_inv in H as ([] & Hvt & H). apply throw_if_ok_inv, negb_false_iff in Hvt as ->.
  apply bind_ok_inv in H as (d & Hd%raw_inv & H). injection H as -> <-.
  destruct (validateCertChain_trusted _ _ _ Hleaf) as (rest & Hf & Ht).
  exists cose, chain, ders, leaf, rest, der. by split_and!.
Qed.

(** The signature of the app key over the wallet's key. *)
Definition app_proved (bundle : TurnkeyAttestationBundle) (publicKey : string) : Prop :=
  exists sig key keyBytes keyObj,
    tb_appSignature bundle = Str sig /\ tb_appPublicKey bundle = Str key /\
    sig <> "" /\ key <> "" /\ length (buffer_from_hex key) = 65%nat /\ encode_address publicKey = Ok keyBytes /\
    create_p256_key (P256_SPKI_HEADER ++ buffer_from_hex key) = Ok keyObj /\
    verify_SHA256 keyBytes keyObj (buffer_from_hex sig) = Ok true.

Lemma check_app_proof_proved bundle boot publicKey :
  check_app_proof bundle boot publicKey = Ok tt -> app_proved bundle publicKey.
Proof.
  unfold check_app_proof. intros H. apply bind_ok_inv in H as (b & _ & H).
  apply bind_ok_inv in H as ([] & _ & H). apply bind_ok_inv in H as ([] & Hf & H).
  apply throw_if_ok_inv, orb_false_iff in Hf as [Hf1 Hf2].
  destruct (tb_appSignature bundle) as [| |sig|m|z|c|i|i|i] eqn:Hs; try done.
  destruct (tb_appPublicKey bundle) as [| |key|m|z|c|i|i|i] eqn:Hk; try done. cbv zeta in H.
  apply bind_ok_inv in H as ([] & Hl & H). apply throw_if_ok_inv, negb_false_iff, bool_decide_eq_true in Hl.
  apply bind_ok_inv in H as (kb & Hkb%raw_inv & H). apply bind_ok_inv in H as (ko & Hko%raw_inv & H).
  apply bind_ok_inv in H as (v & Hv%raw_inv & H). apply throw_if_ok_inv, negb_false_iff in H as ->.
  apply bool_decide_eq_false in Hf1, Hf2. exists sig, key, kb, ko. by split_and!.
Qed.

(** The expected PCR3, when one is given, is the document's, up to letter case. *)
Definition pcr3_expected (expected : option string) (pcrs : NitroPcrValues) : Prop :=
  forall e, expected = Some e -> e <> "" ->
  exists p, pcr3 pcrs = Some p /\ p <> "" /\ toLowerCase p = toLowerCase e.

Lemma check_pcr3_expected expected pcrs :
  check_pcr3 expected pcrs = Ok tt -> pcr3_expected expected pcrs.
Proof.
  intros H e -> Hne. destruct e as [|c e]; [done|]. cbn in H.
  destruct (pcr3 pcrs) as [[|c' p]|]; try done. apply throw_if_ok_inv, negb_false_iff, bool_decide_eq_true in H.
  eauto.
Qed.

Lemma verify_bundle_inv expected publicKey now bundle r :
  verify_bundle expected publicKey now bundle = Ok r ->
  exists doc n pcrs boot,
    verify_boot_proof now (tb_bootProof bundle) = Ok (doc, n) /\
    extractPcrValues doc = Ok pcrs /\ check_pcr3 expected pcrs = Ok tt /\
    property doc "public_key" = Ok boot /\
    (hasAppProof bundle = true -> check_app_proof bundle boot publicKey = Ok tt) /\
    r = mkAttestation CryptographicallyVerified turnkey publicKey
          (mkMetadata turnkey (Some "nitro") (Some pcrs) (Some n) now None) (ar_message r).
Proof.
  unfold verify_bundle. intros H. apply bind_ok_inv in H as ([doc n] & Hb & H).
  apply bind_ok_inv in H as (pcrs & Hp & H). apply bind_ok_inv in H as ([] & Hc & H).
  apply bind_ok_inv in H as (boot & Hk & H). apply bind_ok_inv in H as ([] & Ha & H).
  injection H as <-. exists doc, n, pcrs, boot. split_and!; try done.
  intros Hh. by rewrite Hh in Ha.
Qed.

(** The app key is not compared with the document's: any document with a key will do. *)
Lemma check_app_proof_intro bundle bundle' boot publicKey publicKey' :
  check_app_proof bundle boot publicKey = Ok tt -> app_proved bundle' publicKey' ->
  check_app_proof bundle' boot publicKey' = Ok tt.
Proof.
  intros Ha (sig & key & kb & ko & Hsig & Hkey & Hsn & Hkn & Hl & Hkb & Hko & Hver).
  unfold check_app_proof in *. apply bind_ok_inv in Ha as (bb & Hbb & Ha).
  apply bind_ok_inv in Ha as ([] & Hne & _). rewrite Hbb. cbn [mbind res_bind]. rewrite Hne.
  cbn [mbind res_bind]. rewrite Hsig, Hkey. cbn [falsy].
  rewrite !(bool_decide_false (_ = "")) by done. cbn [orb throw_if mbind res_bind]. cbv zeta.
  rewrite bool_decide_true by done. cbn [negb throw_if mbind res_bind].
  rewrite Hkb. cbn [raw mbind res_bind]. rewrite Hko. cbn [raw mbind res_bind]. by rewrite Hver.
Qed.

Lemma verify_bundle_intro expected publicKey now bundle doc n pcrs boot :
  verify_boot_proof now (tb_bootProof bundle) = Ok (doc, n) ->
  extractPcrValues doc = Ok pcrs -> check_pcr3 expected pcrs = Ok tt ->
  property doc "public_key" = Ok boot ->
  (hasAppProof bundle = true -> check_app_proof bundle boot publicKey = Ok tt) ->
  exists r, verify_bundle expected publicKey now bundle = Ok r /\
    ar_status r = CryptographicallyVerified /\ ar_publicKey r = publicKey.
Proof.
  intros Hb Hp Hc Hk Ha. unfold verify_bundle. rewrite Hb. cbn [mbind res_bind fst snd].
  rewrite Hp. cbn [mbind res_bind]. rewrite Hc. cbn [mbind res_bind]. rewrite Hk. cbn [mbind res_bind].
  destruct (hasAppProof bundle); [rewrite (Ha eq_refl)|]; eexists; by split_and!.
Qed.

Lemma turnkey_verified_bundle h stack expected w now r :
  verifyTurnkey h stack expected w now = Ok r -> ar_status r = CryptographicallyVerified ->
  exists bundle, w_getAttestation w = Outcome (AttResolves (Some bundle)) /\
    verify_bundle expected (public_key w) now bundle = Ok r.
Proof.
  unfold verifyTurnkey. intros H Hs.
  destruct (w_getAttestation w) as [|e|[[bundle|]|[e|e]|]]; try done;
    try (injection H as <-; done).
  exists bundle. split; [done|].
  destruct (verify_bundle expected (public_key w) now bundle) as [r'|[e|e]]; [|done|done].
  by injection H as <-.
Qed.
End turnkey.

(** C16: a cryptographically verified Turnkey wallet presented a bundle whose boot proof is
    signed by the leaf of a chain of valid certificates up to the root, whose document has
    the expected PCR3 if one is expected, and, if the bundle carries an app proof, whose app
    key signed the wallet's public key. *)
Theorem turnkey_verified_sound `{CE : CryptoEnv} (h : heap) (stack : nat)
    (expected : option string) (w : wallet) (now : Z) (r : AttestationResult) :
  verifyTurnkey h stack expected w now = Ok r -> ar_status r = CryptographicallyVerified ->
  exists bundle text doc n pcrs,
    w_getAttestation w = Outcome (AttResolves (Some bundle)) /\
    tb_bootProof bundle = Str text /\ boot_proved now text doc n /\
    extractPcrValues doc = Ok pcrs /\ pcr3_expected expected pcrs /\
    (hasAppProof bundle = true -> app_proved bundle (public_key w)) /\
    ar_publicKey r = public_key w /\ am_pcrValues (ar_metadata r) = Some pcrs.
Proof.
  intros H Hs. destruct (turnkey_verified_bundle _ _ _ _ _ _ H Hs) as (bundle & Hg & Hv).
  destruct (verify_bundle_inv _ _ _ _ _ Hv) as (doc & n & pcrs & boot & Hb & Hp & Hc & Hk & Ha & ->).
  destruct (verify_boot_proof_proved _ _ _ _ Hb) as (text & Ht & Hbp).
  exists bundle, text, doc, n, pcrs. split_and!; try done.
  - by apply check_pcr3_expected.
  - intros Hh. eapply check_app_proof_proved, Ha, Hh.
Qed.

(** C17: the binding to the wallet is missing: whatever boot proof one wallet passes with, any
    other wallet that presents the same text without an app proof passes too, and so does
    one that adds a signature under an app key of its own choice, since that key is never
    compared with the key in the signed document. *)
Theorem boot_proof_not_bound `{CE : CryptoEnv} (h : heap) (stack : nat)
    (expected : option string) (w w' : wallet) (bundle : TurnkeyAttestationBundle)
    (appSignature appPublicKey : value) (now : Z) (r : AttestationResult) :
  w_getAttestation w = Outcome (AttResolves (Some bundle)) ->
  verifyTurnkey h stack expected w now = Ok r -> ar_status r = CryptographicallyVerified ->
  w_getAttestation w'
    = Outcome (AttResolves (Some (mkBundle (tb_bootProof bundle) appSignature appPublicKey))) ->
  (appPublicKey = Undefined \/
   (hasAppProof bundle = true /\
    app_proved (mkBundle (tb_bootProof bundle) appSignature appPublicKey) (public_key w'))) ->
  exists r', verifyTurnkey h stack expected w' now = Ok r' /\
    ar_status r' = CryptographicallyVerified /\ ar_publicKey r' = public_key w'.
Proof.
  intros Hw H Hs Hw' Happ. destruct (turnkey_verified_bundle _ _ _ _ _ _ H Hs) as (b' & Hg & Hv).
  assert (b' = bundle) as -> by congruence.
  destruct (verify_bundle_inv _ _ _ _ _ Hv) as (doc & n & pcrs & boot & Hb & Hp & Hc & Hk & Ha & _).
  destruct (verify_bundle_intro expected (public_key w') now
    (mkBundle (tb_bootProof bundle) appSignature appPublicKey) doc n pcrs boot) as (r' & Hr & Hs' & Hp').
  { done. } { done. } { done. } { done. }
  { intros Hh'. destruct Happ as [->|[Hh Happ]].
    - unfold hasAppProof in Hh'. cbn in Hh'. by rewrite andb_false_r in Hh'.
    - eapply check_app_proof_intro; [apply Ha, Hh|done]. }
  exists r'. unfold verifyTurnkey. rewrite Hw', Hr. by split_and!.
Qed.

(** ** The cache's keys *)
Definition BAR : ascii := "|"%char.
Definition no_bar (s : string) : Prop := BAR ∉ String.list_ascii_of_string s.

(** An empty expectation counts as none. *)
Definition expected_pcr3 (config : AttestationConfig) : option string :=
  match cf_expectedPcr3 config with Some EmptyString => None | e => e end.

Lemma list_ascii_inj s t : String.list_ascii_of_string s = String.list_ascii_of_string t -> s = t.
Proof.
  intros H. rewrite <- (String.string_of_list_ascii_of_string s), H.
  apply String.string_of_list_ascii_of_string.
Qed.

Lemma cacheKey_chars config publicKey :
  String.list_ascii_of_string (cacheKey config publicKey)
  = String.list_ascii_of_string publicKey
    ++ match expected_pcr3 config with
       | None => []
       | Some p => BAR :: String.list_ascii_of_string ("pcr3=" +:+ p)
       end.
Proof.
  unfold cacheKey, expected_pcr3. destruct (cf_expectedPcr3 config) as [[|c p]|];
    [by rewrite app_nil_r| |by rewrite app_nil_r].
  by rewrite !list_ascii_app.
Qed.

Lemma split_at_bar (a b x y : list ascii) :
  BAR ∉ a -> BAR ∉ b -> a ++ BAR :: x = b ++ BAR :: y -> a = b /\ x = y.
Proof.
  revert b. induction a as [|c a IH]; intros [|d b] Ha Hb H; cbn in H.
  - by injection H as ->.
  - injection H as Hd _. destruct Hb. rewrite Hd. apply list_elem_of_here.
  - injection H as Hc _. destruct Ha. rewrite Hc. apply list_elem_of_here.
  - injection H as -> H. rewrite elem_of_cons in Ha, Hb.
    destruct (IH b) as [-> ->]; [tauto|tauto|done|done].
Qed.

Lemma cacheKey_inj config config' publicKey publicKey' :
  no_bar publicKey -> no_bar publicKey' ->
  cacheKey config publicKey = cacheKey config' publicKey' ->
  publicKey = publicKey' /\ expected_pcr3 config = expected_pcr3 config'.
Proof.
  intros Hn Hn' H. apply (f_equal String.list_ascii_of_string) in H. rewrite !cacheKey_chars in H.
  unfold no_bar in *.
  destruct (expected_pcr3 config) as [p|], (expected_pcr3 config') as [p'|].
  - apply split_at_bar in H as [->%list_ascii_inj Hp]; [|done..]. apply list_ascii_inj in Hp.
    split; [done|]. injection Hp as Hp. f_equal. exact Hp.
  - rewrite app_nil_r in H. destruct Hn'. rewrite <- H. apply elem_of_app. right. apply list_elem_of_here.
  - rewrite app_nil_r in H. destruct Hn. rewrite H. apply elem_of_app. right. apply list_elem_of_here.
  - rewrite !app_nil_r in H. by apply list_ascii_inj in H as ->.
Qed.

(** ** Removing from the cache *)
Lemma evict_oldest_sub {A} (c : AttestationCache (A := A)) k k' e :
  jm_get k' (evict_oldest c k) = Some e -> jm_get k' (ac_cache c) = Some e.
Proof.
  unfold evict_oldest. destruct (_ && _); [|done].
  destruct (ac_cache c) as [|[k0 e0] m] eqn:Hc; [done|]. intros H.
  apply jm_get_delete_some in H as [_ H]. exact H.
Qed.

Lemma cache_get_sub {A} (c : AttestationCache (A := A)) k now k' e :
  jm_get k' (ac_cache (cache_get c k now).2) = Some e -> jm_get k' (ac_cache c) = Some e.
Proof.
  unfold cache_get. destruct (jm_get k (ac_cache c)) as [e0|]; [|done].
  destruct (_ >=? _); [|done]. cbn. by intros [_ ?]%jm_get_delete_some.
Qed.

Lemma delete_sub {A} (c : AttestationCache (A := A)) publicKey k e :
  jm_get k (ac_cache (deleteFromAttestationCache c publicKey).2) = Some e ->
  k <> publicKey /\ jm_get k (ac_cache c) = Some e.
Proof.
  intros H. destruct (deleteByPrefix_fold (publicKey +:+ ":")
    (ac_cache (cache_delete c publicKey).2).*1 (O, (cache_delete c publicKey).2)) as (_ & _ & _ & _ & Hs).
  apply Hs in H as [H _]. apply jm_get_delete_some in H as [Hne H]. by split; [intros ->|].
Qed.

Lemma deleteByPrefix_keeps {A} (c : AttestationCache (A := A)) p k :
  String.prefix p k = false ->
  jm_get k (ac_cache (cache_deleteByPrefix c p).2) = jm_get k (ac_cache c).
Proof.
  intros Hp. unfold cache_deleteByPrefix. generalize (ac_cache c).*1 as ks.
  intros ks. change c with (O, c).2 at 2. generalize (O, c) as acc.
  induction ks as [|key ks IH]; intros acc; [done|]. cbn [fold_left]. rewrite IH.
  destruct (String.prefix p key) eqn:Hk; [|done]. cbn. apply jm_get_delete_ne. congruence.
Qed.

Lemma prefix_extended p s : String.prefix (p +:+ ":") (p +:+ String BAR s) = false.
Proof.
  induction p as [|c p IH]; [done|].
  change (String.prefix (String c (p +:+ ":")) (String c (p +:+ String BAR s)) = false).
  cbn [String.prefix]. destruct (Ascii.ascii_dec c c); [exact IH|done].
Qed.

Lemma append_bar_ne p s : p +:+ String BAR s <> p.
Proof.
  induction p as [|c p IH]; [done|]. intros H.
  change (String c (p +:+ String BAR s) = String c p) in H. injection H as H. by apply IH.
Qed.

(** deleting a wallet from the cache, which is to remove its entries for every expected
    PCR3, removes only the entry without one: with an expected PCR3 the wallet is still
    answered from the cache as before, without asking its provider again. *)
Theorem delete_keeps_pcr3_entries {A} (c : AttestationCache (A := A)) (config : AttestationConfig)
    (publicKey : string) (now : Z) :
  let c' := (deleteFromAttestationCache c publicKey).2 in
  (cache_get c' publicKey now).1 = None /\
  (expected_pcr3 config <> None ->
   (cache_get c' (cacheKey config publicKey) now).1 = (cache_get c (cacheKey config publicKey) now).1).
Proof.
  cbv zeta. split.
  - unfold cache_get. destruct (jm_get publicKey _) as [e|] eqn:He; [|done].
    by apply delete_sub in He as [He _].
  - unfold expected_pcr3, cacheKey. destruct (cf_expectedPcr3 config) as [[|a p]|]; [done| |done].
    intros _. change (publicKey +:+ CACHE_KEY_DELIMITER +:+ "pcr3=" +:+ String a p)
      with (publicKey +:+ String BAR ("pcr3=" +:+ String a p)).
    set (key := publicKey +:+ String BAR ("pcr3=" +:+ String a p)).
    assert (Hk : jm_get key (ac_cache (deleteFromAttestationCache c publicKey).2) = jm_get key (ac_cache c)).
    { unfold deleteFromAttestationCache. cbv zeta. cbn [snd].
      rewrite deleteByPrefix_keeps by apply prefix_extended.
      apply jm_get_delete_ne. intros Heq. by apply (append_bar_ne publicKey ("pcr3=" +:+ String a p)). }
    unfold cache_get. rewrite Hk. destruct (jm_get key (ac_cache c)); [|done]. by destruct (_ >=? _).
Qed.

(** ** Sessions of the dispatcher *)
Section sessions.
Context `{CE : CryptoEnv} (h : heap) (stack : nat) (not_a_key : value).

Inductive tee_op :=
  | OpVerify (w : wallet) (config : AttestationConfig) (now later : Z)
  | OpForget (publicKey : string)
  | OpClearAll.

Definition tee_step (c : AttestationCache (A := AttestationResult)) (op : tee_op)
    : AttestationCache (A := AttestationResult) :=
  match op with
  | OpVerify w config now later => tc_cache (verifyTeeAttestation h stack not_a_key c w config now later)
  | OpForget k => (deleteFromAttestationCache c k).2
  | OpClearAll => clearAttestationCache c
  end.

(** The module's cache after a session. *)
Definition tee_run (ops : list tee_op) : AttestationCache (A := AttestationResult) :=
  fold_left tee_step ops (new_attestation_cache (Some DEFAULT_CACHE_TTL_MS) None).

(** [r] is what the provider's verifier answered for [w] in a call of the session, stored
    under [key] until [expiry]. *)
Definition attested_in (ops : list tee_op) (key : string) (r : AttestationResult) (expiry : Z) : Prop :=
  exists w config now later publicKey detected t,
    OpVerify w config now later ∈ ops /\
    readWalletIdentity not_a_key w = Ok (publicKey, detected) /\
    cacheKey config publicKey = key /\
    verify_provider h stack config w publicKey detected later = Ok r /\
    isVerifiedStatus (ar_status r) = true /\
    cache_ttl config = Some t /\ 0 < t /\ expiry = later + t.

Definition tee_inv (ops : list tee_op) (c : AttestationCache (A := AttestationResult)) : Prop :=
  forall k e, jm_get k (ac_cache c) = Some e -> attested_in ops k (ce_result e) (ce_expiresAt e).

Lemma attested_in_snoc ops op k r x : attested_in ops k r x -> attested_in (ops ++ [op]) k r x.
Proof.
  intros (w & cf & n & l & pk & d & t & Hin & H). exists w, cf, n, l, pk, d, t.
  split; [|exact H]. apply elem_of_app. by left.
Qed.

Lemma tee_inv_sub ops op (c c' : AttestationCache) :
  tee_inv ops c ->
  (forall k e, jm_get k (ac_cache c') = Some e -> jm_get k (ac_cache c) = Some e) ->
  tee_inv (ops ++ [op]) c'.
Proof. intros Hi Hs k e He. by apply attested_in_snoc, Hi, Hs. Qed.

(** The two ways [attestation_of] answers. *)
Lemma attestation_of_cases config w publicKey detected c now later r c' :
  attestation_of h stack config w publicKey detected c now later = (Ok r, c') ->
  (forall k e, jm_get k (ac_cache c') = Some e ->
     jm_get k (ac_cache c) = Some e \/
     (k = cacheKey config publicKey /\ ce_result e = r /\ isVerifiedStatus (ar_status r) = true /\
      verify_provider h stack config w publicKey detected later = Ok r /\
      exists t, cache_ttl config = Some t /\ 0 < t /\ ce_expiresAt e = later + t)) /\
  (verify_provider h stack config w publicKey detected later = Ok r \/
   exists e, jm_get (cacheKey config publicKey) (ac_cache c) = Some e /\ ce_result e = r /\
     now < ce_expiresAt e).
Proof.
  unfold attestation_of. set (key := cacheKey config publicKey).
  assert (Hg : exists hit c1,
    (if use_cache config then cache_get c key now else (None, c)) = (hit, c1) /\
    (forall k e, jm_get k (ac_cache c1) = Some e -> jm_get k (ac_cache c) = Some e) /\
    forall r, hit = Some r -> exists e, jm_get key (ac_cache c) = Some e /\ ce_result e = r /\
      now < ce_expiresAt e).
  { destruct (use_cache config); [|by exists None, c]. unfold cache_get.
    destruct (jm_get key (ac_cache c)) as [e|] eqn:He; [|by exists None, c].
    rewrite Z.geb_leb. destruct (Z.leb_spec (ce_expiresAt e) now).
    - eexists None, _. split_and!; [reflexivity| |done]. cbn. by intros k e' [_ ?]%jm_get_delete_some.
    - exists (Some (ce_result e)), c. split_and!; [done|done|]. intros r' [= <-]. by exists e. }
  destruct Hg as (hit & c1 & -> & Hsub & Hhit). destruct hit as [r1|].
  { intros [= -> ->]. destruct (Hhit r eq_refl) as (e & He). split; [|by right; exists e].
    intros k e' Hk. left. by apply Hsub. }
  destruct (verify_provider h stack config w publicKey detected later) as [r1|] eqn:Hv; [|done].
  intros [= -> <-]. split; [|by left]. intros k e.
  destruct (use_cache config && isVerifiedStatus (ar_status r)) eqn:Hs; [|left; auto].
  apply andb_true_iff in Hs as [Hu Hs]. unfold cache_set. cbn [ac_cache with_cache].
  destruct (decide (key = k)) as [<-|Hne].
  - rewrite jm_get_set_eq. intros [= <-]. right. cbn. split_and!; try done.
    unfold use_cache in Hu. destruct (cache_ttl config) as [t|]; [|done]. exists t.
    rewrite Z.gtb_ltb in Hu. apply Z.ltb_lt in Hu. split_and!; [done|done|].
    cbn. by rewrite (proj2 (Z.gtb_lt t 0)).
  - rewrite jm_get_set_ne by done. intros He%evict_oldest_sub. left. by apply Hsub.
Qed.

Lemma attestation_of_throws config w publicKey detected c now later x c' :
  attestation_of h stack config w publicKey detected c now later = (Throw x, c') ->
  forall k e, jm_get k (ac_cache c') = Some e -> jm_get k (ac_cache c) = Some e.
Proof.
  unfold attestation_of. destruct (use_cache config).
  - destruct (cache_get c (cacheKey config publicKey) now) as [hit c1] eqn:Hc.
    destruct hit; [done|].
    destruct (verify_provider _ _ _ _ _ _ _); [done|]. intros [= _ <-] k1 e1 He.
    apply (cache_get_sub c (cacheKey config publicKey) now). by rewrite Hc.
  - destruct (verify_provider _ _ _ _ _ _ _); [done|]. by intros [= _ <-] k1 e1.
Qed.

Lemma verify_step_cache c w config now later k e :
  jm_get k (ac_cache (tc_cache (verifyTeeAttestation h stack not_a_key c w config now later))) = Some e ->
  jm_get k (ac_cache c) = Some e \/
  attested_in [OpVerify w config now later] k (ce_result e) (ce_expiresAt e).
Proof.
  unfold verifyTeeAttestation. destruct (_ && _); [by left|].
  destruct (readWalletIdentity not_a_key w) as [[pk det]|x] eqn:Hid.
  2: { destruct (require_attestation config); by left. }
  destruct (attestation_of h stack config w pk det c now later) as [[r|x] c'] eqn:Ha.
  - destruct (enforce_levels config r) as [o ev]. cbn. intros He.
    destruct (attestation_of_cases _ _ _ _ _ _ _ _ _ Ha) as [Hc _].
    destruct (Hc k e He) as [|(-> & <- & Hs & Hv & t & Ht1 & Ht2 & Ht3)]; [by left|]. right.
    exists w, config, now, later, pk, det, t. split; [apply list_elem_of_here|]. by split_and!.
  - cbn. intros He. left. eapply attestation_of_throws; eauto.
Qed.

Lemma tee_run_inv ops : tee_inv ops (tee_run ops).
Proof.
  induction ops as [|op ops IH] using rev_ind; [by intros k e|].
  unfold tee_run. rewrite fold_left_app. fold (tee_run ops). cbn [fold_left].
  destruct op as [w config now later|k|]; cbn [tee_step].
  - intros k e [He|He]%verify_step_cache; [by apply attested_in_snoc, IH|].
    destruct He as (w' & cf & n & l & pk & d & t & Hin & H).
    exists w', cf, n, l, pk, d, t. split; [|exact H]. apply elem_of_app. by right.
  - apply (tee_inv_sub ops _ (tee_run ops)); [done|]. by intros k' e [_ ?]%delete_sub.
  - apply (tee_inv_sub ops _ (tee_run ops)); [done|]. by intros k' e.
Qed.

Lemma enforce_levels_ok config r r' ev :
  enforce_levels config r = (Ok r', ev) ->
  r' = r /\
  (require_attestation config = true ->
   attestationStatusMeetsLevel (ar_status r) (default provider_verified (cf_minAttestationLevel config)) = true) /\
  (isVerifiedStatus (ar_status r) = false ->
   require_attestation config = false /\ ev = degraded config r).
Proof.
  unfold enforce_levels, effectiveMinLevel.
  destruct (require_attestation config), (isVerifiedStatus (ar_status r)) eqn:Hs;
    destruct (cf_minAttestationLevel config) as [l|]; cbn [andb negb];
    repeat (case_match; try done); intros [= <- <-]; split_and!; try done;
    intros _; by apply negb_false_iff.
Qed.
End sessions.

(** C15: after any session of verifications and deletions, a wallet is accepted only with a
    result that its provider's verifier gave in this call, or gave in an earlier call, that
    has not expired, for the same public key and the same expected PCR3 (keys without a bar,
    as base58 has none); under the default configuration the result is at least
    provider-verified or at the configured level; and a result that is not verified is only
    returned where attestation is explicitly not required, with [onDegraded] told. *)
Theorem attestation_fail_closed `{CE : CryptoEnv} (h : heap) (stack : nat) (not_a_key : value)
    (ops : list tee_op) (w : wallet) (config : AttestationConfig) (now later : Z)
    (publicKey : string) (detected : option TeeProvider) (r : AttestationResult) :
  Forall (fun op => match op with
                    | OpVerify w' _ _ _ => forall k d, readWalletIdentity not_a_key w' = Ok (k, d) -> no_bar k
                    | _ => True
                    end) ops ->
  readWalletIdentity not_a_key w = Ok (publicKey, detected) -> no_bar publicKey ->
  let call := verifyTeeAttestation h stack not_a_key (tee_run h stack not_a_key ops) w config now later in
  tc_result call = Ok r ->
  (verify_provider h stack config w publicKey detected later = Ok r \/
   exists w' config' now' later' detected' t,
     OpVerify w' config' now' later' ∈ ops /\
     readWalletIdentity not_a_key w' = Ok (publicKey, detected') /\
     expected_pcr3 config' = expected_pcr3 config /\
     verify_provider h stack config' w' publicKey detected' later' = Ok r /\
     cache_ttl config' = Some t /\ now < later' + t) /\
  (require_attestation config = true ->
   attestationStatusMeetsLevel (ar_status r) (default provider_verified (cf_minAttestationLevel config)) = true) /\
  (isVerifiedStatus (ar_status r) = false ->
   cf_requireAttestation config = Some false /\ tc_events call = [Degraded r]).
Proof.
  intros Hops Hid Hbar. cbv zeta. unfold verifyTeeAttestation. rewrite Hid.
  destruct (negb (require_attestation config) && negb (cf_onDegraded config)) eqn:Hcb; [done|].
  destruct (attestation_of _ _ _ _ _ _ _ _ _) as [[r0|x] c'] eqn:Ha; [|done].
  destruct (enforce_levels config r0) as [o ev] eqn:He. cbn [tc_result tc_events]. intros ->.
  destruct (enforce_levels_ok _ _ _ _ He) as (-> & Hlevel & Hdeg). split_and!; [|done|].
  - destruct (attestation_of_cases _ _ _ _ _ _ _ _ _ _ _ Ha) as [_ [Hv|(e & Hk & <- & Hnow)]]; [by left|].
    right. destruct (tee_run_inv h stack not_a_key ops _ _ Hk)
      as (w' & cf & n & l & pk & d & t & Hin & Hid' & Hkey & Hv & _ & Ht & _ & Hx).
    pose proof (proj1 (Forall_forall _ _) Hops _ Hin pk d Hid') as Hbar'.
    destruct (cacheKey_inj cf config pk publicKey Hbar' Hbar Hkey) as [-> Hp].
    exists w', cf, n, l, d, t. split_and!; try done. lia.
  - intros [Hreq ->]%Hdeg. split.
    + unfold require_attestation in Hreq. destruct (cf_requireAttestation config) as [[]|]; done.
    + unfold degraded. rewrite Hreq in Hcb. by destruct (cf_onDegraded config).
Qed.

(** ** A concrete environment *)

(** A certificate is its bytes and its key; the signature check asks for the DER of a fixed
    signature, the app check for a signature that repeats the wallet's key. *)
Definition demo_signature : bytes := replicate 96 9.
Definition demo_document : cbor :=
  CObject [("pcrs", CMap [(3, CBytes [171; 205])]); ("public_key", CBytes [4])].

#[local] Instance demo_crypto : CryptoEnv := {|
  Cert := bytes;
  Key := bytes;
  buffer_from_base64 s := JsText.code <$> String.list_ascii_of_string s;
  buffer_from_hex s := JsText.code <$> String.list_ascii_of_string s;
  buffer_from_other _ := Throw Undefined;
  cbor_decode bs :=
    if bool_decide (bs = [2]) then Ok demo_document
    else Ok (CTagged 18 (CArray [CBytes [1]; CMap [(33, CArray [CBytes [5]; CBytes [6]])]; CBytes [2];
                                 CBytes demo_signature]));
  sig_structure_cbor headers payload := headers ++ payload;
  x509_parse der := Ok der;
  x509_root := [7];
  x509_issued_by c i := bool_decide (list_sum (Z.to_nat <$> c) + 1 = list_sum (Z.to_nat <$> i))%nat;
  x509_publicKey c := c;
  x509_verify _ _ := true;
  x509_validFrom _ := Some 0;
  x509_validTo _ := Some 1000000;
  verify_SHA384 msg key sig :=
    Ok (bool_decide (msg = [1; 2]) && bool_decide (key = [5])
        && bool_decide (der_signature sig = Some (big_endian (replicate 48 9), big_endian (replicate 48 9))));
  verify_SHA256 msg key sig := Ok (bool_decide (msg = sig));
  create_p256_key bs := Ok bs;
  encode_address s := Ok (JsText.code <$> String.list_ascii_of_string s);
  type_error := Undefined;
|}.

Definition no_heap : heap := fun _ => mkObject (fun _ => Absent) (fun _ => Some false) None None.
Definition demo_bundle : TurnkeyAttestationBundle :=
  mkBundle (Str "boot") (Str "vault")
    (Str "0123456789012345678901234567890123456789012345678901234567890abcd").

(** Three Turnkey wallets: the attested one, one with its key that cannot attest, and a
    stranger that presents the first one's boot proof. *)
Definition demo_wallet : wallet :=
  mkWallet (Answers (Str "vault")) (Answers (Str "turnkey")) NotAFunction
    (Outcome (AttResolves (Some demo_bundle))).
Definition bare_wallet : wallet :=
  mkWallet (Answers (Str "vault")) (Answers (Str "turnkey")) NotAFunction NotAFunction.
Definition stranger : wallet :=
  mkWallet (Answers (Str "thief")) (Answers (Str "turnkey")) NotAFunction
    (Outcome (AttResolves (Some (mkBundle (Str "boot") Undefined Undefined)))).

Definition demo_tee_config : AttestationConfig :=
  mkAttConfig None None true false (Some "ABCD") (Some cryptographic).

Definition demo_result : AttestationResult :=
  match verifyTurnkey no_heap 5 (Some "ABCD") demo_wallet 1000 with
  | Ok r => r
  | Throw _ => mkAttestation Failed turnkey "" (mkMetadata turnkey None None None 0 None) ""
  end.

Lemma turnkey_verified_sound_witness :
  ar_status demo_result = CryptographicallyVerified /\
  exists bundle text doc n pcrs,
    w_getAttestation demo_wallet = Outcome (AttResolves (Some bundle)) /\
    tb_bootProof bundle = Str text /\ boot_proved 1000 text doc n /\
    extractPcrValues doc = Ok pcrs /\ pcr3_expected (Some "ABCD") pcrs /\
    (hasAppProof bundle = true -> app_proved bundle "vault") /\
    ar_publicKey demo_result = "vault" /\ am_pcrValues (ar_metadata demo_result) = Some pcrs.
Proof.
  split; [vm_compute; reflexivity|].
  apply (turnkey_verified_sound no_heap 5 (Some "ABCD") demo_wallet 1000 demo_result);
    vm_compute; reflexivity.
Defined.

Lemma boot_proof_not_bound_witness :
  exists r', verifyTurnkey no_heap 5 (Some "ABCD") stranger 1000 = Ok r' /\
    ar_status r' = CryptographicallyVerified /\ ar_publicKey r' = "thief".
Proof.
  apply (boot_proof_not_bound no_heap 5 (Some "ABCD") demo_wallet stranger demo_bundle
           Undefined Undefined 1000 demo_result).
  - reflexivity.
  - vm_compute. reflexivity.
  - vm_compute. reflexivity.
  - reflexivity.
  - left. reflexivity.
Defined.

Definition demo_tee_ops : list tee_op := [OpVerify demo_wallet demo_tee_config 900 1000].

Lemma attestation_fail_closed_witness :
  let call := verifyTeeAttestation no_heap 5 Undefined (tee_run no_heap 5 Undefined demo_tee_ops)
                bare_wallet demo_tee_config 2000 2000 in
  tc_result call = Ok demo_result /\
  (verify_provider no_heap 5 demo_tee_config bare_wallet "vault" (Some turnkey) 2000 = Ok demo_result \/
   exists w' config' now' later' detected' t,
     OpVerify w' config' now' later' ∈ demo_tee_ops /\
     readWalletIdentity Undefined w' = Ok ("vault", detected') /\
     expected_pcr3 config' = expected_pcr3 demo_tee_config /\
     verify_provider no_heap 5 config' w' "vault" detected' later' = Ok demo_result /\
     cache_ttl config' = Some t /\ 2000 < later' + t).
Proof.
  cbv zeta. assert (H : tc_result (verifyTeeAttestation no_heap 5 Undefined
    (tee_run no_heap 5 Undefined demo_tee_ops) bare_wallet demo_tee_config 2000 2000) = Ok demo_result)
    by (vm_compute; reflexivity).
  split; [exact H|].
  assert (Hb : no_bar "vault").
  { unfold no_bar. cbn. intros Hin. repeat (apply elem_of_cons in Hin as [Hin|Hin]; [discriminate|]).
    by apply elem_of_nil in Hin. }
  refine (proj1 (attestation_fail_closed no_heap 5 Undefined demo_tee_ops bare_wallet demo_tee_config
    2000 2000 "vault" (Some turnkey) demo_result _ _ Hb H)).
  - constructor; [|constructor]. intros k d [= <- <-]. exact Hb.
  - reflexivity.
Defined.

Definition demo_tee_cache : AttestationCache (A := AttestationResult) :=
  tee_run no_heap 5 Undefined demo_tee_ops.

Lemma delete_keeps_pcr3_entries_witness :
  (cache_get demo_tee_cache "vault|pcr3=ABCD" 2000).1 = Some demo_result /\
  (cache_get (deleteFromAttestationCache demo_tee_cache "vault").2 "vault|pcr3=ABCD" 2000).1
  = (cache_get demo_tee_cache "vault|pcr3=ABCD" 2000).1.
Proof.
  split; [vm_compute; reflexivity|].
  apply (delete_keeps_pcr3_entries demo_tee_cache demo_tee_config "vault" 2000). discriminate.
Defined.
