(* ===== verification/Fees.v ===== *)
(** * Priority fees and protocol trust tiers ([sdk/kit/src/priority-fees.ts],
    [protocol-tier.ts], [protocol-registry])

    The fee estimator with its two remote layers, its static fallback and its cache per
    level; and the classification of a program by the annotated registry and the caller's
    check. What the Helius endpoint and the RPC answer are arguments; a warning is only
    logged. The compute-unit estimate of the same file is in Composer. *)

From S2P Require Import Prelude Types Accounts StateResolver Numbers JsText AgentErrors.
Local Open Scope string_scope.
Local Open Scope Z_scope.
Local Open Scope list_scope.

(** ** Configuration *)
Definition CU_JUPITER_SWAP : Z := 600000.
Definition CU_FLASH_TRADE : Z := 800000.
Definition CU_JUPITER_LEND : Z := 400000.
Definition CU_DRIFT : Z := 800000.
Definition CU_KAMINO_LEND : Z := 400000.

Inductive PriorityLevel := low | medium | high | very_high.
#[export] Instance PriorityLevel_eq_dec : EqDecision PriorityLevel.
Proof. solve_decision. Defined.

Inductive fee_strategy := FsAuto | FsHelius | FsRpc | FsStatic.

Record PriorityFeeConfig := mkFeeConfig {
  pf_strategy : option fee_strategy;
  pf_cacheTtlMs : option Z;
  pf_fallbackMicroLamports : option Z;
  pf_defaultLevel : option PriorityLevel;
  pf_maxMicroLamports : option Z;
}.

Definition LEVEL_PERCENTILES (l : PriorityLevel) : Z :=
  match l with low => 25 | medium => 50 | high => 75 | very_high => 95 end.
Definition HELIUS_LEVELS (l : PriorityLevel) : string :=
  match l with low => "Low" | medium => "Medium" | high => "High" | very_high => "VeryHigh" end.

Record FeeEntry := mkFeeEntry { fe_microLamports : Z; fe_expiresAt : Z }.

Record PriorityFeeEstimator := mkEstimator {
  es_cacheTtlMs : Z;
  es_fallbackMicroLamports : Z;
  es_defaultLevel : PriorityLevel;
  es_maxMicroLamports : Z;
  es_isHelius : bool;
  es_hasRpc : bool;
  es_cache : list (PriorityLevel * FeeEntry);
}.

Definition new_PriorityFeeEstimator (rpcEndpoint : string) (hasRpc : bool) (config : PriorityFeeConfig)
    : PriorityFeeEstimator :=
  mkEstimator
    (default 10000 (pf_cacheTtlMs config))
    (default 10000 (pf_fallbackMicroLamports config))
    (default high (pf_defaultLevel config))
    (default 1000000 (pf_maxMicroLamports config))
    match default FsAuto (pf_strategy config) with
    | FsAuto => includes (toLowerCase rpcEndpoint) "helius"
    | FsHelius => true
    | FsRpc | FsStatic => false
    end
    hasRpc [].

(** ** The remote layers *)

(** [Math.ceil] of a non-negative double. *)
Definition ratio_ceil (r : ratio) : Z := - ((- num r) / den r).

(** The request failed or timed out, the status was no success, or the body with the number
    at [result.priorityFeeEstimate], if there is one. *)
Inductive helius_answer := HeliusFails | HeliusStatus | HeliusBody (estimate : option ratio).

Definition estimateHelius (answer : helius_answer) : option Z :=
  match answer with
  | HeliusFails | HeliusStatus => None
  | HeliusBody (Some e) => if num e >=? 0 then Some (ratio_ceil e) else None
  | HeliusBody None => None
  end.

(** [getRecentPrioritizationFees]: the fees of the recent slots, as [bigint]s. *)
Inductive rpc_answer := RpcFails | RpcFees (fees : option (list Z)).

(** [Number(bigint)] of an integer is an integer. *)
Definition number_of (z : Z) : Z := num (js_Number z) / den (js_Number z).

Definition positive_fees (fees : list Z) : list Z :=
  filter (fun f => 0 < f) (number_of <$> fees).

Definition percentile_index (level : PriorityLevel) (n : nat) : Z :=
  Z.min (ratio_ceil (fl_mul (fl (LEVEL_PERCENTILES level) 100) (ratio_of_Z (Z.of_nat n))) - 1)
    (Z.of_nat n - 1).

(** [sorted[index]], which would be [undefined] out of range; the index never is. *)
Definition at_percentile (level : PriorityLevel) (sorted : list Z) : option Z :=
  let i := percentile_index level (length sorted) in
  if i <? 0 then None else sorted !! Z.to_nat i.

Definition estimateRpc (est : PriorityFeeEstimator) (level : PriorityLevel) (answer : rpc_answer)
    : option Z :=
  match answer with
  | RpcFails => None
  | RpcFees None | RpcFees (Some []) => None
  | RpcFees (Some fees) =>
      let sorted := sort_by id (positive_fees fees) in
      if bool_decide (sorted = []) then Some (es_fallbackMicroLamports est)
      else at_percentile level sorted
  end.

(** ** [estimate] *)
Fixpoint level_get (l : PriorityLevel) (m : list (PriorityLevel * FeeEntry)) : option FeeEntry :=
  match m with
  | [] => None
  | (k, e) :: m' => if decide (k = l) then Some e else level_get l m'
  end.

Definition level_set (l : PriorityLevel) (e : FeeEntry) (m : list (PriorityLevel * FeeEntry))
    : list (PriorityLevel * FeeEntry) :=
  (l, e) :: filter (fun ke => ke.1 <> l) m.

Definition with_fee_cache (est : PriorityFeeEstimator) (m : list (PriorityLevel * FeeEntry)) : PriorityFeeEstimator :=
  mkEstimator (es_cacheTtlMs est) (es_fallbackMicroLamports est) (es_defaultLevel est)
    (es_maxMicroLamports est) (es_isHelius est) (es_hasRpc est) m.

(** The first layer that answers; the fallback when none does. *)
Definition layered_fee (est : PriorityFeeEstimator) (level : PriorityLevel) (helius : helius_answer)
    (rpc : rpc_answer) : Z :=
  let layer1 := if es_isHelius est then estimateHelius helius else None in
  let layer2 := match layer1 with
                | Some f => Some f
                | None => if es_hasRpc est then estimateRpc est level rpc else None
                end in
  default (es_fallbackMicroLamports est) layer2.

(** [now] is the clock at the lookup, [later] when the layers have answered. *)
Definition estimate (est : PriorityFeeEstimator) (level : option PriorityLevel)
    (helius : helius_answer) (rpc : rpc_answer) (now later : Z) : Z * PriorityFeeEstimator :=
  let targetLevel := default (es_defaultLevel est) level in
  let fresh :=
    let fee := Z.min (layered_fee est targetLevel helius rpc) (es_maxMicroLamports est) in
    (fee, with_fee_cache est
            (level_set targetLevel (mkFeeEntry fee (later + es_cacheTtlMs est)) (es_cache est))) in
  match level_get targetLevel (es_cache est) with
  | Some cached => if fe_expiresAt cached >? now then (fe_microLamports cached, est) else fresh
  | None => fresh
  end.

(** ** Trust tiers ([protocol-tier.ts], [protocol-registry/index.ts]) *)
Inductive ProtocolTrustTier := verified | unverified | non_constrainable.

Inductive NonConstrainableReason := missing_idl | binary_only | dynamic_layout | parser_error.
Inductive IdlSource := IdlRegistry | on_chain_metadata | solanafm | helius_source.

Inductive ConstrainabilityResult :=
  | Constrainable (idlSource : IdlSource) (detail : option string)
  | NotConstrainable (reason : NonConstrainableReason) (detail : option string).

Record ProtocolAnnotation := mkAnnotation {
  an_programId : Address;
  an_name : string;
  an_verified : bool;
  an_category : string;
}.

Definition PROTOCOL_ANNOTATIONS : list ProtocolAnnotation := [
  mkAnnotation "JUP6LkbZbjS1jKKwapdHNy74zcZ3tLUZoi5QNyVTaV4" "Jupiter" true "swap-aggregator";
  mkAnnotation "FLASH6Lo6h3iasJKWDs2F8TkW2UKf3s15C8PMGuVfgBn" "Flash Trade" true "perps";
  mkAnnotation "JLend2fEim9xUFcaHsyGePEoBzFLvkjMi3MnPcSuCdu" "Jupiter Lend" true "lending";
  mkAnnotation "jup3YeL8QhtSx1e253b2FDvsMNC87fDrgQZivbrndc9" "Jupiter Earn" true "yield";
  mkAnnotation "jupr81YtYssSyPt8jbnGuiWon5f6x9TcDEFxYe3Bdzi" "Jupiter Borrow" true "borrow";
  mkAnnotation "dRiftyHA39MWEi3m9aunc5MzRF1JYuBsbn6VPcn33UH" "Drift" true "perps";
  mkAnnotation "KLend2g3cP87ber8CzRaqeECGwNvLFM9acPVcRkRHvM" "Kamino" true "lending"].

Definition VERIFIED_PROGRAMS : list Address :=
  an_programId <$> filter (fun a => an_verified a = true) PROTOCOL_ANNOTATIONS.

Definition lookupProtocolAnnotation (programId : Address) : option ProtocolAnnotation :=
  List.find (fun a => bool_decide (an_programId a = programId)) PROTOCOL_ANNOTATIONS.

(** The second component counts the calls of the caller's check. *)
Definition resolveProtocolTier {E} (programId : Address)
    (checkConstrainability : Address -> res E ConstrainabilityResult) : res E ProtocolTrustTier * nat :=
  match lookupProtocolAnnotation programId with
  | Some _ => (Ok verified, O)
  | None =>
      (match checkConstrainability programId with
       | Ok (Constrainable _ _) => Ok unverified
       | Ok (NotConstrainable _ _) => Ok non_constrainable
       | Throw e => Throw e
       end, 1%nat)
  end.

(** ** The percentile *)
Lemma fl_pos n d : 0 < n -> 0 < d -> 0 < num (fl n d).
Proof.
  intros Hn Hd. pose proof (fl_error n d ltac:(lia) Hd) as He. pose proof (fl_den_pos n d) as Hp.
  pose proof (fl_nonneg n d ltac:(lia) Hd). nia.
Qed.

Lemma ratio_ceil_pos r : 0 < num r -> 0 < den r -> 1 <= ratio_ceil r.
Proof.
  intros Hn Hd. unfold ratio_ceil. assert ((- num r) / den r < 0); [|lia].
  apply Z.div_lt_upper_bound; lia.
Qed.

Lemma percentile_index_range level n : (0 < n)%nat -> 0 <= percentile_index level n < Z.of_nat n.
Proof.
  intros Hn. unfold percentile_index.
  assert (1 <= ratio_ceil (fl_mul (fl (LEVEL_PERCENTILES level) 100) (ratio_of_Z (Z.of_nat n)))); [|lia].
  unfold fl_mul. cbn [num den ratio_of_Z].
  assert (0 < num (fl (LEVEL_PERCENTILES level) 100)) by (apply fl_pos; destruct level; cbn; lia).
  pose proof (fl_den_pos (LEVEL_PERCENTILES level) 100).
  apply ratio_ceil_pos; [apply fl_pos; nia|apply fl_den_pos].
Qed.

(** The rounded product has the exact percentile's ceiling for every list the RPC sends. *)
Definition nearest_rank (level : PriorityLevel) (n : nat) : Z :=
  - ((- (LEVEL_PERCENTILES level * Z.of_nat n)) / 100).

Lemma percentile_index_exact level n :
  (0 < n <= 150)%nat -> percentile_index level n = nearest_rank level n - 1.
Proof.
  intros Hn.
  assert (H : forallb (fun n => percentile_index level n =? nearest_rank level n - 1) (seq 1 150) = true)
    by (destruct level; vm_compute; reflexivity).
  apply Z.eqb_eq. revert H. rewrite forallb_forall. intros H. apply H.
  apply in_seq. lia.
Qed.

Lemma sorted_rank (s : list Z) (i : nat) (v : Z) :
  StronglySorted (fun a b => id a <= id b) s -> s !! i = Some v ->
  (S i <= length (filter (fun f => (f <= v)%Z) s))%nat /\ (length (filter (fun f => f < v)%Z s) <= i)%nat.
Proof.
  intros Hs. revert i. induction Hs as [|x s Hs IH Hx]; intros i Hi; [done|].
  destruct i as [|i]; cbn in Hi.
  - injection Hi as ->. rewrite !filter_cons, decide_True, decide_False by lia. split; [cbn; lia|].
    assert (filter (fun f => f < v) s = []) as ->; [|cbn; lia].
    clear -Hx. induction Hx as [|y s Hy _ IH]; [done|]. cbn in Hy.
    by rewrite filter_cons, decide_False by lia.
  - destruct (IH i Hi) as [H1 H2].
    assert (x <= v) by (eapply (Forall_lookup_1 _ _ _ _ Hx Hi)).
    rewrite !filter_cons, decide_True by lia. split; [cbn; lia|]. case_decide; cbn; lia.
Qed.

(** with a positive fee among at most 150 slots, the RPC layer answers with one of those
    fees, at the nearest rank of the level's percentile: at least that share of the positive
    fees is no higher, and fewer are lower. *)
Theorem rpc_fee_is_percentile (est : PriorityFeeEstimator) (level : PriorityLevel) (fees : list Z) :
  let pos := positive_fees fees in
  let share (l : list Z) := 100 * Z.of_nat (length l) in
  let target := LEVEL_PERCENTILES level * Z.of_nat (length pos) in
  (0 < length pos <= 150)%nat ->
  exists v, estimateRpc est level (RpcFees (Some fees)) = Some v /\ v ∈ pos /\
    target <= share (filter (fun f => f <= v) pos) /\ share (filter (fun f => f < v) pos) < target.
Proof.
  cbv zeta. intros Hn. unfold estimateRpc. pose proof (sort_by_perm id (positive_fees fees)) as Hp.
  pose proof (sort_by_sorted id (positive_fees fees)) as Hs.
  set (s := sort_by id (positive_fees fees)) in *.
  assert (Hl : length s = length (positive_fees fees)) by (by rewrite Hp).
  destruct fees as [|f0 fees]; [cbn in Hn; lia|]. cbv zeta.
  rewrite bool_decide_false by (intros H0; rewrite H0 in Hl; cbn [length] in Hl; lia).
  unfold at_percentile. rewrite Hl.
  pose proof (percentile_index_range level (length (positive_fees (f0 :: fees))) ltac:(lia)) as Hr.
  pose proof (percentile_index_exact level _ Hn) as He.
  set (n := length (positive_fees (f0 :: fees))) in *. set (i := percentile_index level n) in *.
  rewrite (proj2 (Z.ltb_ge i 0)) by lia.
  destruct (lookup_lt_is_Some_2 s (Z.to_nat i)) as [v Hv]; [lia|].
  destruct (sorted_rank s _ v Hs Hv) as [H1 H2].
  exists v. split; [done|]. split; [rewrite <- Hp; by eapply list_elem_of_lookup_2|].
  rewrite <- !Hp. fold s. clearbody i. unfold nearest_rank in He.
  pose proof (Z.div_mod (- (LEVEL_PERCENTILES level * Z.of_nat n)) 100 ltac:(lia)).
  pose proof (Z.mod_pos_bound (- (LEVEL_PERCENTILES level * Z.of_nat n)) 100 ltac:(lia)).
  split; lia.
Qed.

Definition slot_fees : list Z := [5; 0; 900; 70; 70; 12].

Lemma rpc_fee_is_percentile_witness :
  (0 < length (positive_fees slot_fees) <= 150)%nat /\
  exists v, estimateRpc (new_PriorityFeeEstimator "https://rpc" true (mkFeeConfig None None None None None))
      medium (RpcFees (Some slot_fees)) = Some v /\ v ∈ [5; 900; 70; 70; 12] /\
    50 * 5 <= 100 * Z.of_nat (length (filter (fun f => f <= v) [5; 900; 70; 70; 12])) /\
    100 * Z.of_nat (length (filter (fun f => f < v) [5; 900; 70; 70; 12])) < 50 * 5.
Proof.
  assert (H : (0 < length (positive_fees slot_fees) <= 150)%nat) by (vm_compute; lia).
  split; [exact H|].
  apply (rpc_fee_is_percentile (new_PriorityFeeEstimator "https://rpc" true (mkFeeConfig None None None None None))
    medium slot_fees H).
Defined.

(** ** Sessions *)
Record fee_call := mkFeeCall {
  fc_level : option PriorityLevel;
  fc_helius : helius_answer;
  fc_rpc : rpc_answer;
  fc_now : Z;
  fc_later : Z;
}.

Definition fee_step (est : PriorityFeeEstimator) (c : fee_call) : PriorityFeeEstimator :=
  (estimate est (fc_level c) (fc_helius c) (fc_rpc c) (fc_now c) (fc_later c)).2.

Definition fee_run (est : PriorityFeeEstimator) (calls : list fee_call) : PriorityFeeEstimator :=
  fold_left fee_step calls est.

Definition fee_ok (max : Z) (fallback : Z) (fee : Z) : Prop :=
  fee <= max /\ (0 <= max -> 0 <= fallback -> 0 <= fee).

Definition fee_inv (est0 est : PriorityFeeEstimator) : Prop :=
  es_maxMicroLamports est = es_maxMicroLamports est0 /\
  es_fallbackMicroLamports est = es_fallbackMicroLamports est0 /\
  forall l e, level_get l (es_cache est) = Some e ->
    fee_ok (es_maxMicroLamports est0) (es_fallbackMicroLamports est0) (fe_microLamports e).

Lemma level_get_set l l' e m :
  level_get l (level_set l' e m) = if decide (l' = l) then Some e else level_get l m.
Proof.
  unfold level_set. cbn. destruct (decide (l' = l)); [done|].
  induction m as [|[k x] m IH]; [done|]. rewrite filter_cons. cbn.
  destruct (decide (k <> l')) as [|Hk%dec_stable]; cbn; [by rewrite IH|].
  subst k. by rewrite IH, decide_False.
Qed.

Lemma helius_ok e f : estimateHelius e = Some f -> (forall r, e = HeliusBody (Some r) -> 0 < den r) -> 0 <= f.
Proof.
  destruct e as [| |[r|]]; try done. cbn. rewrite Z.geb_leb. destruct (Z.leb_spec 0 (num r)); [|done].
  intros [= <-] Hd. specialize (Hd r eq_refl). unfold ratio_ceil.
  assert ((- num r) / den r <= 0); [|lia]. apply Z.div_le_upper_bound; lia.
Qed.

Lemma rpc_ok est level a f : estimateRpc est level a = Some f -> 0 <= es_fallbackMicroLamports est -> 0 <= f.
Proof.
  destruct a as [|[[|x fees]|]]; try done. unfold estimateRpc. cbv zeta.
  case_bool_decide; [by intros [= <-]|].
  unfold at_percentile. destruct (_ <? 0); [done|]. intros Hf%list_elem_of_lookup_2 _.
  rewrite sort_by_perm in Hf. apply list_elem_of_filter in Hf as [Hf _]. lia.
Qed.

(** What a call returns and keeps stays within the bounds. *)
Lemma fee_step_inv est0 est c :
  (forall r, fc_helius c = HeliusBody (Some r) -> 0 < den r) -> fee_inv est0 est ->
  fee_inv est0 (fee_step est c) /\
  fee_ok (es_maxMicroLamports est0) (es_fallbackMicroLamports est0)
    (estimate est (fc_level c) (fc_helius c) (fc_rpc c) (fc_now c) (fc_later c)).1.
Proof.
  intros Hd (Hm & Hf & Hc). unfold fee_step, estimate. cbv zeta.
  set (l := default (es_defaultLevel est) (fc_level c)).
  set (fee := Z.min (layered_fee est l (fc_helius c) (fc_rpc c)) (es_maxMicroLamports est)).
  assert (Hfee : fee_ok (es_maxMicroLamports est0) (es_fallbackMicroLamports est0) fee).
  { unfold fee_ok, fee. rewrite <- Hm, <- Hf. split; [lia|]. intros H0 H1.
    apply Z.min_glb; [|done]. unfold layered_fee.
    destruct (es_isHelius est);
      [destruct (estimateHelius (fc_helius c)) eqn:He; [by eapply helius_ok|]|];
      (destruct (es_hasRpc est);
        [destruct (estimateRpc est l (fc_rpc c)) eqn:Hr; [by eapply rpc_ok|done]|done]). }
  assert (Hfresh : fee_inv est0 (with_fee_cache est
            (level_set l (mkFeeEntry fee (fc_later c + es_cacheTtlMs est)) (es_cache est)))).
  { split_and!; [done|done|]. cbn [with_fee_cache es_cache]. intros l' e.
    rewrite level_get_set. case_decide; [by intros [= <-]|apply Hc]. }
  destruct (level_get l (es_cache est)) as [cached|] eqn:Hl; [|done].
  destruct (_ >? _); [|done]. split; [done|]. cbn. by eapply Hc.
Qed.

(** C32: whatever the endpoints answer and however the calls are timed, an estimate is a number
    that never exceeds the configured maximum and is not negative (for a non-negative
    maximum and fallback), cached or fresh. *)
Theorem fee_within_maximum (endpoint : string) (hasRpc : bool) (config : PriorityFeeConfig)
    (calls : list fee_call) (c : fee_call) :
  Forall (fun c => forall r, fc_helius c = HeliusBody (Some r) -> 0 < den r) (calls ++ [c]) ->
  let est0 := new_PriorityFeeEstimator endpoint hasRpc config in
  let est := fee_run est0 calls in
  fee_ok (default 1000000 (pf_maxMicroLamports config)) (default 10000 (pf_fallbackMicroLamports config))
    (estimate est (fc_level c) (fc_helius c) (fc_rpc c) (fc_now c) (fc_later c)).1.
Proof.
  intros Hd. cbv zeta. set (est0 := new_PriorityFeeEstimator endpoint hasRpc config).
  apply Forall_app in Hd as [Hd Hc]. apply Forall_cons in Hc as [Hc _].
  assert (Hi : fee_inv est0 (fee_run est0 calls)).
  { revert Hd. induction calls as [|x calls IH] using rev_ind; intros Hd; [done|].
    apply Forall_app in Hd as [Hd Hx]. apply Forall_cons in Hx as [Hx _].
    unfold fee_run. rewrite fold_left_app. cbn. by apply fee_step_inv, IH. }
  exact (proj2 (fee_step_inv est0 (fee_run est0 calls) c Hc Hi)).
Qed.

Lemma fee_within_maximum_witness :
  let calls := [mkFeeCall None (HeliusBody (Some (mkRatio 9000001 2))) RpcFails 0 5] in
  let est := fee_run (new_PriorityFeeEstimator "https://mainnet.Helius-rpc.com" false
                        (mkFeeConfig None None None None None)) calls in
  fee_ok 1000000 10000 (estimate est (Some high) HeliusFails RpcFails 10 10).1.
Proof.
  cbv zeta. apply (fee_within_maximum "https://mainnet.Helius-rpc.com" false (mkFeeConfig None None None None None)
    [mkFeeCall None (HeliusBody (Some (mkRatio 9000001 2))) RpcFails 0 5]
    (mkFeeCall (Some high) HeliusFails RpcFails 10 10)).
  repeat constructor; cbn; intros r Hr; [injection Hr as <-; cbn; lia|discriminate].
Defined.

(** ** The registry and the supported protocols *)

(** the verified registry names exactly the programs the SDK supports, under the same
    names; they are classified without asking the caller's check, every other program by
    one call of it, and an error of the check comes through. *)
Theorem tier_follows_registry {E} (programId : Address)
    (check : Address -> res E ConstrainabilityResult) :
  (fun a => (an_programId a, an_name a)) <$> PROTOCOL_ANNOTATIONS
  = (fun kv => (kv.1, pm_name kv.2)) <$> SUPPORTED_PROTOCOLS /\
  (programId ∈ SUPPORTED_PROTOCOLS.*1 -> resolveProtocolTier programId check = (Ok verified, O)) /\
  (programId ∉ SUPPORTED_PROTOCOLS.*1 ->
   (resolveProtocolTier programId check).2 = 1%nat /\
   (forall e, (resolveProtocolTier programId check).1 = Throw e <-> check programId = Throw e) /\
   (resolveProtocolTier programId check).1 <> Ok verified).
Proof.
  split; [vm_compute; reflexivity|].
  assert (Hl : lookupProtocolAnnotation programId = None <-> programId ∉ SUPPORTED_PROTOCOLS.*1).
  { change (SUPPORTED_PROTOCOLS.*1) with (an_programId <$> PROTOCOL_ANNOTATIONS).
    unfold lookupProtocolAnnotation. induction PROTOCOL_ANNOTATIONS as [|a l IH]; [set_solver|].
    cbn. case_bool_decide; [set_solver|]. rewrite IH. set_solver. }
  unfold resolveProtocolTier. split.
  - intros Hin. destruct (lookupProtocolAnnotation programId); [done|]. by destruct (proj1 Hl eq_refl).
  - intros Hn. rewrite (proj2 Hl Hn). cbn. split_and!; [done| |];
      destruct (check programId) as [[]|]; naive_solver.
Qed.
