(* ===== verification/Custody.v ===== *)
(** * Custody adapters ([sdk/custody/src]) and the provisioning client ([sdk/platform/src])

    The three wallets whose keys live with a provider: configuration, REST clients, creation,
    signing and the custody check; and the platform's provisioning URLs and polling loop.
    [fetch] answers a request; of a JSON body the fields the code reads are kept, a field
    that is missing or empty being [""]. The transaction library, the request stamp and the
    URL encoders are arguments. An error is its message, without the response it quotes. *)

From S2P Require Import Prelude Types Accounts JsText ErrorChains TeeCache TeeAttestation TeeSpec.
Local Open Scope string_scope.
Local Open Scope Z_scope.
Local Open Scope list_scope.

(** ** Configuration ([config.ts] of each adapter) *)

(** [!s || s.trim() === ""]. *)
Definition blank (s : string) : bool := bool_decide (trim (String.list_ascii_of_string s) = []).

(** [x || undefined] of an environment variable that may be unset. *)
Definition non_empty (s : option string) : option string :=
  match s with Some EmptyString => None | _ => s end.

Definition env := string -> option string.

Definition required_var (e : env) (key message : string) : res string string :=
  match non_empty (e key) with Some v => Ok v | None => Throw message end.

Record CrossmintWalletConfig := mkCrossmintWalletConfig {
  xm_apiKey : string;
  xm_locator : option string;
  xm_chain : option string;
  xm_signerType : option string;
  xm_baseUrl : option string;
  xm_linkedUser : option string;
}.

Definition crossmint_configFromEnv (e : env) : res string CrossmintWalletConfig :=
  apiKey ← required_var e "CROSSMINT_API_KEY" "Crossmint custody: CROSSMINT_API_KEY environment variable is required. ";
  signerType ← (match non_empty (e "CROSSMINT_SIGNER_TYPE") with
                | None => Ok None
                | Some raw =>
                    if bool_decide (raw = "api-key") || bool_decide (raw = "evm-keypair") then Ok (Some raw)
                    else Throw ("Crossmint custody: invalid CROSSMINT_SIGNER_TYPE=" +:+ raw)
                end);
  Ok (mkCrossmintWalletConfig apiKey (non_empty (e "CROSSMINT_WALLET_LOCATOR")) None signerType
        (non_empty (e "CROSSMINT_BASE_URL")) (non_empty (e "CROSSMINT_LINKED_USER"))).

Definition crossmint_validateConfig (c : CrossmintWalletConfig) : res string unit :=
  throw_if (blank (xm_apiKey c)) "Crossmint custody: apiKey is required and cannot be empty.".

Record PrivyWalletConfig := mkPrivyWalletConfig {
  pv_appId : string;
  pv_appSecret : string;
  pv_walletId : option string;
  pv_baseUrl : option string;
}.

Definition privy_configFromEnv (e : env) : res string PrivyWalletConfig :=
  appId ← required_var e "PRIVY_APP_ID" "Privy custody: PRIVY_APP_ID environment variable is required. ";
  appSecret ← required_var e "PRIVY_APP_SECRET" "Privy custody: PRIVY_APP_SECRET environment variable is required. ";
  Ok (mkPrivyWalletConfig appId appSecret (non_empty (e "PRIVY_WALLET_ID")) (non_empty (e "PRIVY_BASE_URL"))).

Definition privy_validateConfig (c : PrivyWalletConfig) : res string unit :=
  throw_if (blank (pv_appId c)) "Privy custody: appId is required and cannot be empty." ;;
  throw_if (blank (pv_appSecret c)) "Privy custody: appSecret is required and cannot be empty.".

Record TurnkeyWalletConfig := mkTurnkeyWalletConfig {
  tk_organizationId : string;
  tk_apiKeyId : string;
  tk_apiPrivateKey : string;
  tk_walletId : option string;
  tk_baseUrl : option string;
}.

Definition turnkey_configFromEnv (e : env) : res string TurnkeyWalletConfig :=
  organizationId ← required_var e "TURNKEY_ORGANIZATION_ID" "Turnkey custody: TURNKEY_ORGANIZATION_ID environment variable is required. ";
  apiKeyId ← required_var e "TURNKEY_API_KEY_ID" "Turnkey custody: TURNKEY_API_KEY_ID environment variable is required. ";
  apiPrivateKey ← required_var e "TURNKEY_API_PRIVATE_KEY" "Turnkey custody: TURNKEY_API_PRIVATE_KEY environment variable is required. ";
  Ok (mkTurnkeyWalletConfig organizationId apiKeyId apiPrivateKey (non_empty (e "TURNKEY_WALLET_ID"))
        (non_empty (e "TURNKEY_BASE_URL"))).

Definition turnkey_validateConfig (c : TurnkeyWalletConfig) : res string unit :=
  throw_if (blank (tk_organizationId c)) "Turnkey custody: organizationId is required and cannot be empty." ;;
  throw_if (blank (tk_apiKeyId c)) "Turnkey custody: apiKeyId is required and cannot be empty." ;;
  throw_if (blank (tk_apiPrivateKey c)) "Turnkey custody: apiPrivateKey is required and cannot be empty.".

(** ** Requests and answers *)

(** The body's fields, nested ones under a dotted path. *)
Record http_request := mkRequest {
  rq_method : string;
  rq_url : string;
  rq_headers : list (string * string);
  rq_body : list (string * string);
}.

(** One entry of an array of objects in an answer. *)
Record entry := mkEntry {
  en_address : string;
  en_type : string;
  en_wallet_id : string;
  en_addressFormat : string;
}.

(** The fields the clients read; [None] for an array that is missing. *)
Record body := mkBody {
  bd_id : string;
  bd_address : string;
  bd_locator : string;
  bd_signedTransaction : string;      (* at the place the provider has it *)
  bd_entries : option (list entry);
}.

Inductive response := NetworkFails (message : string) | Answer (status : Z) (b : body).

Definition status_ok (status : Z) : bool := (200 <=? status) && (status <? 300).

(** [baseUrl.replace(/\/$/, "")]. *)
Definition strip_trailing_slash (url : string) : string :=
  match rev (String.list_ascii_of_string url) with
  | c :: rest => if JsText.code c =? 47 then String.string_of_list_ascii (rev rest) else url
  | [] => url
  end.

Definition or_default (s : option string) (d : string) : string := default d (non_empty s).

(** ** What the wallets need of a client *)
Record Client := mkClient {
  cl_createWallet : res string (string * string);          (* identifier and address *)
  cl_getWallet : string -> res string string;              (* the address *)
  cl_signTransaction : string -> string -> res string string;
}.

Section rest.
Context (fetch : http_request -> response) (encodeURIComponent : string -> string).

(** The body of a successful answer. *)
Definition ok_body (r : response) (failure : string) : res string body :=
  match r with
  | NetworkFails m => Throw m
  | Answer status b => if status_ok status then Ok b else Throw (failure +:+ "(" +:+ pretty status +:+ ")")
  end.

Definition non_empty_or (s failure : string) : res string string :=
  if bool_decide (s = "") then Throw failure else Ok s.

(** *** Crossmint *)
Section crossmint.
Context (apiKey baseUrl : string).

Definition crossmint_request (method path : string) (b : list (string * string)) : http_request :=
  mkRequest method (strip_trailing_slash baseUrl +:+ path)
    [("X-API-KEY", apiKey); ("Content-Type", "application/json")] b.

Definition crossmint_createWallet (signerType : string) (linkedUser : option string)
    : res string (string * string) :=
  data ← ok_body (fetch (crossmint_request "POST" "/api/2022-06-09/wallets"
      ([("type", "solana-mpc-wallet"); ("config.adminSigner.type", signerType)]
       ++ match non_empty linkedUser with Some u => [("linkedUser", u)] | None => [] end)))
    "Crossmint wallet creation failed ";
  address ← non_empty_or (bd_address data) "Crossmint wallet creation returned no address.";
  Ok (if bool_decide (bd_locator data = "") then "wallet:" +:+ address else bd_locator data, address).

Definition crossmint_getWallet (locator : string) : res string string :=
  data ← ok_body (fetch (crossmint_request "GET" ("/api/2022-06-09/wallets/" +:+ encodeURIComponent locator) []))
    "Crossmint get wallet failed ";
  non_empty_or (bd_address data) "Crossmint wallet lookup returned no address.".

Definition crossmint_signTransaction (locator transaction : string) : res string string :=
  data ← ok_body (fetch (crossmint_request "POST"
      ("/api/2022-06-09/wallets/" +:+ encodeURIComponent locator +:+ "/transactions")
      [("params.transaction", transaction); ("params.encoding", "base64")]))
    "Crossmint transaction signing failed ";
  non_empty_or (bd_signedTransaction data) "Crossmint signing returned no signedTransaction.".

Definition CrossmintRESTClient (signerType : string) (linkedUser : option string) : Client :=
  mkClient (crossmint_createWallet signerType linkedUser) crossmint_getWallet crossmint_signTransaction.
End crossmint.

(** *** Privy *)
Section privy.
Context (appId appSecret baseUrl : string).

Definition privy_request (method path : string) (b : list (string * string)) : http_request :=
  mkRequest method (strip_trailing_slash baseUrl +:+ path)
    [("Authorization", "Basic " +:+ btoa (appId +:+ ":" +:+ appSecret)); ("privy-app-id", appId);
     ("Content-Type", "application/json")] b.

Definition id_and_address (data : body) (failure : string) : res string (string * string) :=
  if bool_decide (bd_id data = "") || bool_decide (bd_address data = "") then Throw failure
  else Ok (bd_id data, bd_address data).

Definition privy_createWallet (chainType : string) : res string (string * string) :=
  data ← ok_body (fetch (privy_request "POST" "/v1/wallets" [("chain_type", chainType)]))
    "Privy wallet creation failed ";
  id_and_address data "Privy wallet creation returned no id/address.".

Definition privy_getWallet (walletId : string) : res string (string * string) :=
  data ← ok_body (fetch (privy_request "GET" ("/v1/wallets/" +:+ encodeURIComponent walletId) []))
    "Privy get wallet failed ";
  id_and_address data "Privy wallet lookup returned no id/address.".

(** [null] for a wallet that is not found. *)
Definition privy_getWalletByAddress (address : string) : res string (option (string * string)) :=
  match fetch (privy_request "GET" ("/v1/users?wallet_address=" +:+ encodeURIComponent address) []) with
  | NetworkFails m => Throw m
  | Answer status data =>
      if status =? 404 then Ok None
      else if negb (status_ok status) then Throw ("Privy wallet address lookup failed (" +:+ pretty status +:+ ")")
      else
        let linked := match bd_entries data with
                      | Some l => List.find (fun a => bool_decide (en_address a = address)
                                                      && bool_decide (en_type a = "wallet")) l
                      | None => None
                      end in
        match linked with
        | Some a => Ok (Some (en_wallet_id a, en_address a))
        | None =>
            if bool_decide (bd_id data = "") || bool_decide (bd_address data = "") then Ok None
            else Ok (Some (bd_id data, bd_address data))
        end
  end.

Definition privy_signTransaction (walletId transaction : string) : res string string :=
  data ← ok_body (fetch (privy_request "POST" ("/v1/wallets/" +:+ encodeURIComponent walletId +:+ "/rpc")
      [("chain_type", "solana"); ("method", "signTransaction"); ("params.transaction", transaction)]))
    "Privy transaction signing failed ";
  non_empty_or (bd_signedTransaction data) "Privy signing returned no signed_transaction.".

Definition PrivyRESTClient : Client :=
  mkClient (privy_createWallet "solana") (fun id => snd <$> privy_getWallet id) privy_signTransaction.
End privy.

(** *** Turnkey: every request carries a stamp over its body *)
Section turnkey.
Context (createStamp : list (string * string) -> string -> string -> string).
Context (organizationId apiKeyId apiPrivateKey baseUrl : string) (timestampMs : Z).

Definition stampedRequest (path : string) (b : list (string * string)) : res string body :=
  ok_body (fetch (mkRequest "POST" (strip_trailing_slash baseUrl +:+ path)
      [("Content-Type", "application/json"); ("X-Stamp", createStamp b apiKeyId apiPrivateKey)] b))
    "Turnkey API error ".

Definition turnkey_createWallet (walletName : string) : res string (string * string) :=
  data ← stampedRequest "/public/v1/submit/create_wallet"
    [("type", "ACTIVITY_TYPE_CREATE_WALLET"); ("timestampMs", pretty timestampMs);
     ("organizationId", organizationId); ("parameters.walletName", walletName);
     ("parameters.accounts.0.curve", "CURVE_ED25519");
     ("parameters.accounts.0.pathFormat", "PATH_FORMAT_BIP32");
     ("parameters.accounts.0.path", "m/44'/501'/0'/0'");
     ("parameters.accounts.0.addressFormat", "ADDRESS_FORMAT_SOLANA")];
  let address := match bd_entries data with Some (a :: _) => en_address a | _ => "" end in
  if bool_decide (bd_id data = "") || bool_decide (address = "")
  then Throw "Turnkey wallet creation returned no walletId/address."
  else Ok (bd_id data, address).

Definition turnkey_getWallet (walletId : string) : res string string :=
  data ← stampedRequest "/public/v1/query/get_wallet_accounts"
    [("organizationId", organizationId); ("walletId", walletId)];
  let solanaAccount :=
    List.find (fun a => bool_decide (en_addressFormat a = "ADDRESS_FORMAT_SOLANA"))
      (default [] (bd_entries data)) in
  non_empty_or (match solanaAccount with Some a => en_address a | None => "" end)
    "Turnkey wallet lookup returned no Solana address.".

Definition turnkey_signTransaction (walletId transaction : string) : res string string :=
  data ← stampedRequest "/public/v1/submit/sign_transaction"
    [("type", "ACTIVITY_TYPE_SIGN_TRANSACTION"); ("timestampMs", pretty timestampMs);
     ("organizationId", organizationId); ("parameters.signWith", walletId);
     ("parameters.unsignedTransaction", transaction); ("parameters.type", "TRANSACTION_TYPE_SOLANA")];
  non_empty_or (bd_signedTransaction data) "Turnkey signing returned no signedTransaction.".

Definition TurnkeyRESTClient (walletName : string) : Client :=
  mkClient (turnkey_createWallet walletName) turnkey_getWallet turnkey_signTransaction.
End turnkey.
End rest.

(** ** The wallets *)

(** [new PublicKey(address)] of the transaction library, and its [toBase58]; the wallet's
    transactions, legacy or versioned, and their wire format. *)
Class WalletLib := {
  PublicKey : Type;
  new_PublicKey : string -> res string PublicKey;
  toBase58 : PublicKey -> string;
  Transaction : Type;
  is_legacy : Transaction -> bool;
  serialize : Transaction -> res string bytes;
  legacy_from : bytes -> res string Transaction;
  versioned_deserialize : bytes -> res string Transaction;
  wire_base64 : bytes -> string;
  wire_bytes : string -> bytes;
}.

(** The documented behaviour the adapters rely on. *)
Class WalletLibLaws `{WL : WalletLib} := {
  wire_roundtrip bs : wire_bytes (wire_base64 bs) = bs;
  base58_roundtrip address key : new_PublicKey address = Ok key -> toBase58 key = address;
}.

Section wallets.
Context `{WL : WalletLib}.

Record CustodyWallet := mkCustody {
  cw_publicKey : PublicKey;
  cw_id : string;              (* Crossmint's locator, the others' wallet id *)
  cw_provider : TeeProvider;
}.

(** An existing wallet is looked up, otherwise one is created. *)
Definition create_wallet (provider : TeeProvider) (existing : option string) (client : Client)
    : res string CustodyWallet :=
  id_address ← (match non_empty existing with
                | Some id => address ← cl_getWallet client id; Ok (id, address)
                | None => cl_createWallet client
                end);
  publicKey ← new_PublicKey id_address.2;
  Ok (mkCustody publicKey id_address.1 provider).

(** The clients [create] makes when none is given. *)
Definition Crossmint_client (fetch : http_request -> response) (encode : string -> string)
    (config : CrossmintWalletConfig) : Client :=
  CrossmintRESTClient fetch encode (xm_apiKey config)
    (or_default (xm_baseUrl config) "https://www.crossmint.com")
    (or_default (xm_signerType config) "api-key") (xm_linkedUser config).
Definition Privy_client (fetch : http_request -> response) (encode : string -> string)
    (config : PrivyWalletConfig) : Client :=
  PrivyRESTClient fetch encode (pv_appId config) (pv_appSecret config)
    (or_default (pv_baseUrl config) "https://api.privy.io").
Definition Turnkey_client (fetch : http_request -> response)
    (createStamp : list (string * string) -> string -> string -> string) (now : Z)
    (config : TurnkeyWalletConfig) : Client :=
  TurnkeyRESTClient fetch createStamp (tk_organizationId config) (tk_apiKeyId config)
    (tk_apiPrivateKey config) (or_default (tk_baseUrl config) "https://api.turnkey.com") now
    ("sigil-agent-" +:+ pretty now).

Definition Crossmint_create (config : CrossmintWalletConfig) (client : Client) : res string CustodyWallet :=
  crossmint_validateConfig config ;; create_wallet crossmint (xm_locator config) client.
Definition Privy_create (config : PrivyWalletConfig) (client : Client) : res string CustodyWallet :=
  privy_validateConfig config ;; create_wallet privy (pv_walletId config) client.
Definition Turnkey_create (config : TurnkeyWalletConfig) (client : Client) : res string CustodyWallet :=
  turnkey_validateConfig config ;; create_wallet turnkey (tk_walletId config) client.

Definition custody_signTransaction (client : Client) (w : CustodyWallet) (tx : Transaction)
    : res string Transaction :=
  raw_tx ← serialize tx;
  signedTransaction ← cl_signTransaction client (cw_id w) (wire_base64 raw_tx);
  let signedBytes := wire_bytes signedTransaction in
  if is_legacy tx then legacy_from signedBytes else versioned_deserialize signedBytes.

(** The loop: one after the other, the first error ends it. *)
Definition custody_signAllTransactions (client : Client) (w : CustodyWallet) (txs : list Transaction)
    : res string (list Transaction) :=
  map_res (custody_signTransaction client w) txs.

Definition custody_verifyProviderCustody (client : Client) (w : CustodyWallet) : res string bool :=
  address ← cl_getWallet client (cw_id w);
  Ok (bool_decide (address = toBase58 (cw_publicKey w))).

(** The wallet as the attestation code reads it: [publicKey] is a [PublicKey] object, the
    error of a failed check is an object too. *)
Definition as_tee_wallet (key_object error_object : nat) (client : Client) (w : CustodyWallet) : wallet :=
  mkWallet (Answers (Obj key_object)) (Answers (Str (provider_text (cw_provider w))))
    (Outcome match custody_verifyProviderCustody client w with
             | Ok b => Ok b
             | Throw _ => Throw (Obj error_object)
             end)
    match cw_provider w with
    | crossmint => Outcome (AttResolves None)
    | turnkey | privy => NotAFunction
    end.

(** The same wallet behind a shim that exposes the key as its base58 text. *)
Definition with_text_key (error_object : nat) (client : Client) (w : CustodyWallet) : wallet :=
  let t := as_tee_wallet error_object error_object client w in
  mkWallet (Answers (Str (toBase58 (cw_publicKey w)))) (w_provider t) (w_verifyProviderCustody t)
    (w_getAttestation t).
End wallets.

(** ** The provisioning client ([sdk/platform/src/index.ts]) *)
Record ProvisionOptions := mkProvision { po_dailyCap : option number; po_template : option string }.

Inductive provision_status := Pending | Confirmed | NotFound | OtherStatus (s : string).
#[export] Instance provision_status_eq_dec : EqDecision provision_status.
Proof. solve_decision. Defined.

Record ProvisionResult := mkProvisionResult {
  pr_status : provision_status;
  pr_vaultAddress : option string;
  pr_agentPubkey : option string;
  pr_agentLocator : option string;
  pr_template : option string;
  pr_error : option string;
}.

Inductive status_answer := StatusFails (message : string) | StatusAnswer (status : Z) (r : ProvisionResult).

Section platform.
Context (search_params : list (string * string) -> string) (encodeURIComponent : string -> string).

(** A cap of zero or [NaN] counts as none. *)
Definition cap_text (n : option number) : option string :=
  match n with
  | Some n => if falsy (Num n) then None else Some (number_text n)
  | None => None
  end.

Definition getProvisionActionUrl (baseUrl : string) (options : ProvisionOptions) : string :=
  let params :=
    match non_empty (po_template options) with Some t => [("template", t)] | None => [] end
    ++ match cap_text (po_dailyCap options) with Some c => [("dailyCap", c)] | None => [] end in
  let query := search_params params in
  strip_trailing_slash baseUrl +:+ "/api/actions/provision"
  +:+ (if bool_decide (query = "") then "" else "?" +:+ query).

Definition getBlinkUrl (baseUrl : string) (options : ProvisionOptions) : string :=
  "https://dial.to/?action=solana-action:" +:+ encodeURIComponent (getProvisionActionUrl baseUrl options).

Definition formatProvisionMessage (baseUrl : string) (options : ProvisionOptions) : string :=
  String.concat NEWLINE
    ["I need a protected wallet to trade. Please approve the vault creation:";
     "";
     "**Policy:** " +:+ or_default (po_template options) "conservative" +:+ " ("
     +:+ default "500" (cap_text (po_dailyCap options)) +:+ " USDC/day cap)";
     "**Action URL:** " +:+ getProvisionActionUrl baseUrl options;
     "**Blink:** " +:+ getBlinkUrl baseUrl options;
     "";
     "Click the link above or paste the Action URL in any Solana blink-compatible app."].
End platform.

Definition checkStatus (a : status_answer) : res string ProvisionResult :=
  match a with
  | StatusFails m => Throw m
  | StatusAnswer status r =>
      if status_ok status then Ok r else Throw ("Status check failed: " +:+ pretty status)
  end.

(** The loop from poll [i]: [clock i] is read before the poll, [answers i] is its answer;
    [None] when [fuel] runs out. *)
Fixpoint wait_loop (fuel : nat) (deadline timeoutMs : Z) (txSignature : string) (clock : nat -> Z)
    (answers : nat -> status_answer) (i : nat) : option (res string ProvisionResult) :=
  match fuel with
  | O => None
  | S fuel' =>
      if clock i <? deadline then
        match checkStatus (answers i) with
        | Throw e => Some (Throw e)
        | Ok result =>
            if bool_decide (pr_status result = Confirmed) then Some (Ok result)
            else
              match pr_status result, non_empty (pr_error result) with
              | NotFound, Some e => Some (Throw ("Provision failed: " +:+ e))
              | _, _ => wait_loop fuel' deadline timeoutMs txSignature clock answers (S i)
              end
        end
      else Some (Throw ("Provision timed out after " +:+ pretty timeoutMs +:+ "ms. TX: " +:+ txSignature))
  end.

Definition waitForProvision (fuel : nat) (start timeoutMs : Z) (txSignature : string)
    (clock : nat -> Z) (answers : nat -> status_answer) : option (res string ProvisionResult) :=
  wait_loop fuel (start + timeoutMs) timeoutMs txSignature clock answers 0.

(** ** What the adapters promise *)

(** polling ends: when the clock is at [start] or later and advances by the interval between
    polls, at most [timeout / interval + 2] polls are made, and the answer is a confirmed
    provision, or an error. *)
Theorem waitForProvision_terminates (start timeoutMs intervalMs : Z) (txSignature : string)
    (clock : nat -> Z) (answers : nat -> status_answer) :
  0 < intervalMs -> 0 <= timeoutMs -> start <= clock O ->
  (forall i, clock i + intervalMs <= clock (S i)) ->
  exists r, waitForProvision (S (S (Z.to_nat (timeoutMs / intervalMs)))) start timeoutMs txSignature clock answers
            = Some r /\
    (forall p, r = Ok p -> pr_status p = Confirmed /\ exists i, checkStatus (answers i) = Ok p).
Proof.
  intros Hi Ht H0 Hstep. unfold waitForProvision.
  assert (Hc : forall i, start + Z.of_nat i * intervalMs <= clock i).
  { induction i as [|i IH]; [lia|]. specialize (Hstep i). lia. }
  set (n := Z.to_nat (timeoutMs / intervalMs)).
  assert (Hn : start + timeoutMs <= start + Z.of_nat (S n) * intervalMs).
  { pose proof (Z.div_pos timeoutMs intervalMs Ht Hi).
    pose proof (Z.mod_pos_bound timeoutMs intervalMs Hi).
    pose proof (Z.div_mod timeoutMs intervalMs ltac:(lia)). subst n. nia. }
  assert (Hl : forall fuel i, (i + fuel = S (S n))%nat -> (0 < fuel)%nat -> exists r,
    wait_loop fuel (start + timeoutMs) timeoutMs txSignature clock answers i = Some r /\
    (forall p, r = Ok p -> pr_status p = Confirmed /\ exists i, checkStatus (answers i) = Ok p)).
  { induction fuel as [|fuel IH]; intros i Hf Hp; [lia|]. cbn [wait_loop].
    destruct (Z.ltb_spec (clock i) (start + timeoutMs)) as [Hlt|]; [|eexists; split; [done|]; by intros p [=]].
    destruct (checkStatus (answers i)) as [result|e] eqn:Hr; [|eexists; split; [done|]; by intros p [=]].
    case_bool_decide; [eexists; split; [done|]; intros p [= <-]; eauto|].
    assert (Hrec : exists r, wait_loop fuel (start + timeoutMs) timeoutMs txSignature clock answers (S i) = Some r /\
      (forall p, r = Ok p -> pr_status p = Confirmed /\ exists i, checkStatus (answers i) = Ok p)).
    { apply IH; [lia|]. destruct fuel; [|lia]. exfalso. specialize (Hc i). assert (i = S n) by lia. subst i. lia. }
    destruct (pr_status result); try done.
    destruct (non_empty (pr_error result)); [eexists; split; [done|]; by intros p [=]|done]. }
  apply (Hl (S (S n)) O); lia.
Qed.

Definition provision_pending : status_answer :=
  StatusAnswer 200 (mkProvisionResult Pending None None None None None).

Lemma waitForProvision_terminates_witness :
  exists r, waitForProvision 32 0 60000 "sig" (fun i => Z.of_nat i * 2000) (fun _ => provision_pending) = Some r /\
    (forall p, r = Ok p -> pr_status p = Confirmed /\
       exists i : nat, checkStatus ((fun _ => provision_pending) i) = Ok p).
Proof.
  apply (waitForProvision_terminates 0 60000 2000 "sig" (fun i => Z.of_nat i * 2000) (fun _ => provision_pending));
    [lia|lia|lia|]. intros i. lia.
Defined.

(** A wallet that [create] made from an existing identifier passes its own custody check as
    long as the client answers alike. *)
Lemma created_wallet_in_custody `{WL : WalletLib, !WalletLibLaws} provider id client w :
  id <> "" -> create_wallet provider (Some id) client = Ok w ->
  custody_verifyProviderCustody client w = Ok true.
Proof.
  intros Hid. unfold create_wallet, custody_verifyProviderCustody.
  destruct id as [|c id]; [done|]. cbn [non_empty]. intros Hcr.
  apply bind_ok_inv in Hcr as ([id' address] & Ha & Hcr).
  apply bind_ok_inv in Ha as (a & Hg & [= <- <-]). apply bind_ok_inv in Hcr as (k & Hk & [= <-]).
  cbn [cw_id cw_publicKey fst snd] in *. rewrite Hg. cbn.
  rewrite (base58_roundtrip _ _ Hk). by rewrite bool_decide_true.
Qed.

Lemma verify_custody_known `{WL : WalletLib} client w :
  custody_verifyProviderCustody client w = Ok true
  <-> cl_getWallet client (cw_id w) = Ok (toBase58 (cw_publicKey w)).
Proof.
  unfold custody_verifyProviderCustody. destruct (cl_getWallet client (cw_id w)) as [a|e]; cbn; [|done].
  case_bool_decide as Ha; [by rewrite Ha|]. split; [done|]. by intros [= ->].
Qed.

(** C28: no wallet of the custody package attests as it is: its public key is an object where
    the attestation code asks for text, so every call with attestation required throws, and
    otherwise reports a failure. Behind a shim that exposes the text, Privy and Crossmint
    wallets are accepted by default exactly when the provider's API reports their address,
    and Turnkey's never, since its adapter has no attestation bundle. *)
Theorem custody_attestation `{WL : WalletLib} `{CE : CryptoEnv} (h : heap) (stack : nat)
    (not_a_key : value) (cache : AttestationCache) (config : AttestationConfig)
    (key_object error_object : nat) (client : Client) (w : CustodyWallet) (now later : Z) :
  (forall r, tc_result (verifyTeeAttestation h stack not_a_key cache
                 (as_tee_wallet key_object error_object client w) config now later) = Ok r ->
     ar_status r = Failed /\ cf_requireAttestation config = Some false) /\
  (toBase58 (cw_publicKey w) <> "" ->
   let call := verifyTeeAttestation h stack not_a_key (new_attestation_cache None None)
                 (with_text_key error_object client w) default_att_config now later in
   match cw_provider w with
   | turnkey => forall r, tc_result call <> Ok r
   | crossmint | privy =>
       (exists r, tc_result call = Ok r) <-> cl_getWallet client (cw_id w) = Ok (toBase58 (cw_publicKey w))
   end).
Proof.
  split.
  - intros r. unfold verifyTeeAttestation. destruct (_ && _); [done|]. cbn [readWalletIdentity].
    unfold readWalletIdentity, as_tee_wallet. cbn [w_publicKey].
    destruct (require_attestation config) eqn:Hr; [done|]. cbn. intros [= <-]. split; [done|].
    unfold require_attestation in Hr. by destruct (cf_requireAttestation config) as [[]|].
  - intros Hk. cbv zeta. pose proof (verify_custody_known client w) as Hv.
    unfold verifyTeeAttestation, readWalletIdentity, with_text_key, as_tee_wallet. cbn [w_publicKey].
    rewrite (bool_decide_false (toBase58 (cw_publicKey w) = "")) by done.
    destruct w as [key wid p]. cbn [cw_publicKey cw_provider cw_id] in *.
    destruct p; [rewrite <- Hv| |rewrite <- Hv];
      (destruct (custody_verifyProviderCustody client _) as [[]|] eqn:Hc; clear Hv Hc Hk).
    all: try (intros r Hr; cbn in Hr; discriminate Hr).
    all: split; [intros [r Hr]; cbn in Hr; try discriminate Hr; reflexivity|intros Hr; try discriminate Hr].
    all: eexists; cbn; reflexivity.
Qed.

#[local] Instance demo_wallet_lib : WalletLib := {|
  PublicKey := string;
  new_PublicKey s := Ok s;
  toBase58 s := s;
  Transaction := bytes;
  is_legacy _ := false;
  serialize bs := Ok bs;
  legacy_from bs := Ok bs;
  versioned_deserialize bs := Ok bs;
  wire_base64 bs := String.string_of_list_ascii ((fun b => Ascii.ascii_of_nat (Z.to_nat b)) <$> bs);
  wire_bytes s := JsText.code <$> String.list_ascii_of_string s;
|}.

Lemma custody_attestation_witness :
  let client := mkClient (Throw "unused") (fun _ => Ok "vaultkey") (fun _ tx => Ok tx) in
  let w := @mkCustody demo_wallet_lib "vaultkey" "wallet-1" privy in
  (exists r, tc_result (@verifyTeeAttestation demo_crypto no_heap 5 Undefined (new_attestation_cache None None)
                 (@with_text_key demo_wallet_lib 0 client w) default_att_config 10 20) = Ok r) <->
  cl_getWallet client "wallet-1" = Ok "vaultkey".
Proof.
  cbv zeta. apply (proj2 (@custody_attestation demo_wallet_lib demo_crypto no_heap 5 Undefined
    (new_attestation_cache None None) default_att_config 0 0
    (mkClient (Throw "unused") (fun _ => Ok "vaultkey") (fun _ tx => Ok tx))
    (@mkCustody demo_wallet_lib "vaultkey" "wallet-1" privy) 10 20)). discriminate.
Defined.
