(* ===== verification/Sak.v ===== *)
(** * The Solana Agent Kit plugin ([packages/plugins/src/sak])

    The three actions over a Sigil client and the bridge that turns a custody adapter into a
    signer. Jupiter's endpoints, the client's [executeAndConfirm] and [getAgentBudget], Node's
    [Buffer] and the text of a number are arguments; JSON bodies are values of a type of
    their own. *)

From S2P Require AgentErrors.
From S2P Require Import Prelude Types Accounts Bytes Numbers JsText StateResolver Formatting Tokens AltLoader Composer ErrorTables RpcHelpers.
Local Open Scope string_scope.
Local Open Scope Z_scope.
Local Open Scope list_scope.

(** ["mainnet"] is kit's ["mainnet-beta"]. *)
Definition toResolvedNetwork (network : string) : Network :=
  if bool_decide (network = "mainnet") then "mainnet-beta" else "devnet".

(** ** The custody bridge ([signer.ts]) *)

(** What an adapter's [sign] resolves to: bytes, or a value of another type. *)
Inductive sign_answer :=
  | Uint8Array (bs : bytes)
  | OtherValue (typeof : string).

Record CustodyAdapter := mkAdapter {
  ca_publicKey : Address;
  ca_sign : bytes -> res SigilError sign_answer;
}.

Definition wrong_type (typeof : string) : SigilError :=
  sdk_error "SIGIL_ERROR__SDK__SIGNATURE_INVALID" [("reason", CStr ("wrong-type:" +:+ typeof))].
Definition wrong_length (n : nat) : SigilError :=
  sdk_error "SIGIL_ERROR__SDK__SIGNATURE_INVALID" [("reason", CStr ("wrong-length:" +:+ pretty n))].

Section bridge.
Context {Tx : Type} (messageBytes : Tx -> bytes).

Definition check_signature (answer : sign_answer) : res SigilError bytes :=
  match answer with
  | OtherValue typeof => Throw (wrong_type typeof)
  | Uint8Array sig =>
      throw_if (negb (length sig =? 64)%nat) (wrong_length (length sig)) ;; Ok sig
  end.

Fixpoint bridge_sign (adapter : CustodyAdapter) (transactions : list Tx)
    : res SigilError (list (signed_object Tx)) :=
  match transactions with
  | [] => Ok []
  | tx :: rest =>
      answer ← ca_sign adapter (messageBytes tx);
      sig ← check_signature answer;
      results ← bridge_sign adapter rest;
      Ok (Dictionary (ca_publicKey adapter) sig :: results)
  end.

(** The signer has [signTransactions] and no [modifyAndSignTransactions]. *)
Definition custodyAdapterToTransactionSigner (adapter : CustodyAdapter) : Signer Tx :=
  mkSigner None (Some (fun transactions => Some <$> bridge_sign adapter transactions)).
End bridge.

(** The configured agent: an adapter unless a method is missing or it has an [address]. *)
Record agent_value := mkAgentValue {
  ag_getPublicKey : bool;
  ag_sign : bool;
  ag_address : bool;
}.
Definition isCustodyAdapter (agent : agent_value) : bool :=
  ag_getPublicKey agent && ag_sign agent && negb (ag_address agent).

(** [createSigilPlugin]: the client's signer, from the agent read as an adapter or as the
    signer it is, and Jupiter's address. *)
Definition plugin_signer {Tx} (messageBytes : Tx -> bytes) (agent : agent_value)
    (as_adapter : CustodyAdapter) (as_signer : Signer Tx) : Signer Tx :=
  if isCustodyAdapter agent then custodyAdapterToTransactionSigner messageBytes as_adapter else as_signer.

Definition jupiter_api (jupiterApiUrl : option string) : string :=
  default "https://quote-api.jup.ag/v6" jupiterApiUrl.

(** ** Jupiter's answer ([actions/swap.ts]) *)
Record JupiterAccount := mkJupiterAccount {
  ja_pubkey : Address;
  ja_isSigner : bool;
  ja_isWritable : bool;
}.
Record JupiterIx := mkJupiterIx {
  ji_programId : Address;
  ji_accounts : option (list JupiterAccount);
  ji_data : string;
}.
Record JupiterSwapResponse := mkJupiterSwap {
  js_computeBudgetInstructions : option (list JupiterIx);
  js_setupInstructions : option (list JupiterIx);
  js_swapInstruction : option JupiterIx;
  js_cleanupInstruction : option JupiterIx;          (* missing or [null] *)
  js_otherInstructions : option (list JupiterIx);
  js_addressLookupTableAddresses : option (list Address);
}.
Record ParsedJupiterSwap := mkParsedSwap {
  pj_instructions : list Instruction;
  pj_addressLookupTableAddresses : list Address;
}.

Section jupiter.
Context (bufferFromBase64 : string -> bytes).

Definition jupiter_role (a : JupiterAccount) : AccountRole :=
  if ja_isSigner a then (if ja_isWritable a then WRITABLE_SIGNER else READONLY_SIGNER)
  else if ja_isWritable a then WRITABLE else READONLY.

Definition toKitInstruction (ix : JupiterIx) : Instruction :=
  mkInstruction (ji_programId ix)
    (Some ((fun a => mkMeta (ja_pubkey a) (jupiter_role a) None) <$> default [] (ji_accounts ix)))
    (Some (bufferFromBase64 (ji_data ix))).

Definition parseJupiterSwapResponse (raw : JupiterSwapResponse) : ParsedJupiterSwap :=
  let all := default [] (js_setupInstructions raw) ++ option_list (js_swapInstruction raw)
             ++ option_list (js_cleanupInstruction raw) ++ default [] (js_otherInstructions raw) in
  mkParsedSwap (toKitInstruction <$> all) (default [] (js_addressLookupTableAddresses raw)).
End jupiter.

(** ** Errors and results of the actions *)

(** A thrown value, with the objects it is made of. *)
Record thrown := mkThrown {
  th_heap : AgentErrors.heap;
  th_value : AgentErrors.js_value;
}.

(** [new Error(message)] and errors like it. *)
Definition thrown_error (class : AgentErrors.error_class) (name message : string)
    (code : option AgentErrors.js_prop) : thrown :=
  mkThrown (fun _ => AgentErrors.mkErrorObj class (Some (AgentErrors.PStr name))
      (Some (AgentErrors.PStr message)) code None None AgentErrors.VUndefined None None None
      (name +:+ ": " +:+ message))
    (AgentErrors.VRef 0).
Definition new_error (message : string) : thrown :=
  thrown_error AgentErrors.ErrorClass "Error" message None.

Inductive action_result (A : Type) :=
  | Succeeded (a : A)
  | Failed (error : string) (recovery : list RecoveryAction).
Arguments Succeeded {A}. Arguments Failed {A}.

(** The [catch] of every action. *)
Definition caught {A} (e : thrown) : action_result A :=
  let agentErr := AgentErrors.toAgentError (th_heap e) (th_value e) [] in
  Failed (AgentErrors.ag_message agentErr) (AgentErrors.ag_recovery_actions agentErr).

(** ** [sigil_swap] *)
Record SwapInput := mkSwapInput {
  si_inputMint : string;
  si_outputMint : string;
  si_amount : option Tokens.js_number;     (* [None] is an infinity *)
  si_slippageBps : option Z;
}.

Record SwapOptions := mkSwapOptions {
  sw_tokenMint : Address;
  sw_amount : Z;
  sw_protocolAltAddresses : list Address;
}.

Record SwapDone := mkSwapDone {
  sd_signature : string;
  sd_inputMint : Address;
  sd_outputMint : Address;
  sd_amount : option Tokens.js_number;
}.

(** A response: its status and the outcome of [json()]. *)
Record Response (A : Type) := mkResponse {
  rs_ok : bool;
  rs_status : Z;
  rs_json : res thrown A;
}.
Arguments mkResponse {A}. Arguments rs_ok {A}. Arguments rs_status {A}. Arguments rs_json {A}.

(** What the handler asks of the outside, in order. *)
Inductive swap_event (J : Type) :=
  | EvQuote (url : string)
  | EvSwap (url : string) (quote : J) (user : Address)
  | EvExecute (instructions : list Instruction) (opts : SwapOptions).
Arguments EvQuote {J}. Arguments EvSwap {J}. Arguments EvExecute {J}.

Section swap.
Context {J : Type} (bufferFromBase64 : string -> bytes) (number_text : option Tokens.js_number -> string).
Context (fetch_quote : string -> res thrown (Response J)).
Context (fetch_swap : string -> J -> Address -> res thrown (Response JupiterSwapResponse)).
Context (executeAndConfirm : list Instruction -> SwapOptions -> res thrown string).

(** [toBaseUnits] throws for an infinity and, beyond the largest double, in [BigInt]. *)
Definition amount_error (amount : option Tokens.js_number) (e : SigilError) : thrown :=
  if bool_decide (e = Tokens.invalid_token_amount) then
    thrown_error AgentErrors.SigilErrorClass "SigilSdkDomainError"
      ("Invalid amount: " +:+ number_text amount +:+ ". Must be a finite non-negative number.")
      (Some (AgentErrors.PStr (error_code e)))
  else
    thrown_error AgentErrors.ErrorClass "RangeError"
      "The number Infinity cannot be converted to a BigInt because it is not an integer" None.

Definition json_of {A} (what : string) (response : Response A) : res thrown A :=
  throw_if (negb (rs_ok response))
    (new_error ("Jupiter " +:+ what +:+ " failed: " +:+ pretty (rs_status response))) ;;
  rs_json response.

Definition quote_url (jupiterApiUrl : string) (inputMint outputMint : Address) (baseAmount slippage : Z)
    : string :=
  jupiterApiUrl +:+ "/quote?inputMint=" +:+ inputMint +:+ "&outputMint=" +:+ outputMint
    +:+ "&amount=" +:+ pretty baseAmount +:+ "&slippageBps=" +:+ pretty slippage.

Definition input_mint (network : string) (input : SwapInput) : Address :=
  default (si_inputMint input)
    (rt_mint <$> resolveToken (si_inputMint input) (toResolvedNetwork network)).
Definition output_mint (network : string) (input : SwapInput) : Address :=
  default (si_outputMint input)
    (rt_mint <$> resolveToken (si_outputMint input) (toResolvedNetwork network)).
Definition input_decimals (network : string) (input : SwapInput) : Z :=
  default 6 (rt_decimals <$> resolveToken (si_inputMint input) (toResolvedNetwork network)).

(** The [try] block, with what it asked for. *)
Definition swap_body (network : string) (agent : Address) (jupiterApiUrl : string) (input : SwapInput)
    : list (swap_event J) * res thrown SwapDone :=
  let inputMint := input_mint network input in
  let outputMint := output_mint network input in
  match toBaseUnits (AmountNum (si_amount input)) (input_decimals network input) with
  | Throw e => ([], Throw (amount_error (si_amount input) e))
  | Ok baseAmount =>
      let quoteUrl := quote_url jupiterApiUrl inputMint outputMint baseAmount
                        (default 50 (si_slippageBps input)) in
      let ev1 := [EvQuote quoteUrl] in
      match (r ← fetch_quote quoteUrl; json_of "quote" r) with
      | Throw e => (ev1, Throw e)
      | Ok quote =>
          let url := jupiterApiUrl +:+ "/swap-instructions" in
          let ev2 := ev1 ++ [EvSwap url quote agent] in
          match (r ← fetch_swap url quote agent; json_of "swap-instructions" r) with
          | Throw e => (ev2, Throw e)
          | Ok ixData =>
              let parsed := parseJupiterSwapResponse bufferFromBase64 ixData in
              if bool_decide (pj_instructions parsed = []) then
                (ev2, Throw (new_error "Jupiter returned no swap instructions. The quote may be invalid or the route unavailable."))
              else
                let opts := mkSwapOptions inputMint baseAmount (pj_addressLookupTableAddresses parsed) in
                (ev2 ++ [EvExecute (pj_instructions parsed) opts],
                 signature ← executeAndConfirm (pj_instructions parsed) opts;
                 Ok (mkSwapDone signature inputMint outputMint (si_amount input)))
          end
      end
  end.

Definition swapAction network agent jupiterApiUrl input : list (swap_event J) * action_result SwapDone :=
  let run := swap_body network agent jupiterApiUrl input in
  (run.1, match run.2 with Ok done => Succeeded done | Throw e => caught e end).
End swap.

(** ** [sigil_transfer] *)
Definition transferAction : action_result unit :=
  Failed ("sigil_transfer is not yet implemented. " +:+
          "On-chain agent_transfer uses a standalone instruction, not seal(). " +:+
          "Use the vault dashboard or SDK directly to transfer.")
    [mkAction "use_dashboard" "Use the Sigil dashboard to execute transfers" None].

(** ** [sigil_status] *)
Record SpendView := mkSpendView {
  sv_remaining : string;
  sv_limit : string;
  sv_spent : string;
}.
Record StatusView := mkStatus {
  sv_vault : Address;
  sv_global : SpendView;
  sv_agent : SpendView;
}.

Section status.
Context `{IntlLib}.

(** [formatUsd] hands [toUsdNumber] an absolute value, so it does not throw. *)
Definition usd (amount : Z) : string :=
  match formatUsd amount 6 with Ok s => s | Throw _ => "" end.

Lemma usd_formats amount : formatUsd amount 6 = Ok (usd amount).
Proof.
  unfold usd, formatUsd, signed_format, toUsdNumber.
  assert (Hneg : ((if amount <? 0 then - amount else amount) <? 0) = false)
    by (apply Z.ltb_ge; destruct (Z.ltb_spec amount 0); lia).
  by rewrite Hneg.
Qed.

Definition spend_view (b : EffectiveBudget) : SpendView :=
  mkSpendView (usd (remaining b)) (usd (cap b)) (usd (spent24h b)).

Definition statusAction (vault : Address) (getAgentBudget : res thrown ResolvedBudget)
    : action_result StatusView :=
  match getAgentBudget with
  | Throw e => caught e
  | Ok budget =>
      Succeeded (mkStatus vault (spend_view (rb_globalBudget budget))
        (match rb_agentBudget budget with
         | Some b => spend_view b
         | None => mkSpendView "unlimited" "unlimited" "$0.00"
         end))
  end.
End status.

(** ** The bridge's signer *)
Section bridge_spec.
Context {Tx : Type} `{lib : !TxLib Tx} (messageBytes : Tx -> bytes).

(** C29: through the custody bridge nothing is ever sent. The adapter is asked once, for the
    transaction's message, and [signAndEncode] throws in every case: with the adapter's error;
    because the answer is no byte array or not 64 bytes long; and, when the adapter signs,
    because the bridge answers with the dictionary of the signature and the wire encoder does
    not find a transaction. The bridge's own answer is right: for each transaction in order the
    adapter's signature of its message under the adapter's address. *)
Theorem bridge_drops_transaction adapter tx :
  let signer := custodyAdapterToTransactionSigner messageBytes adapter in
  (forall text, signAndEncode signer tx <> Ok text) /\
  (forall e, signAndEncode signer tx = Throw e <->
    ca_sign adapter (messageBytes tx) = Throw e \/
    (exists typeof, ca_sign adapter (messageBytes tx) = Ok (OtherValue typeof) /\ e = wrong_type typeof) \/
    (exists sig, ca_sign adapter (messageBytes tx) = Ok (Uint8Array sig) /\ length sig <> 64%nat /\
       e = wrong_length (length sig)) \/
    (exists sig, ca_sign adapter (messageBytes tx) = Ok (Uint8Array sig) /\ length sig = 64%nat /\
       e = not_a_transaction)) /\
  (forall sig, ca_sign adapter (messageBytes tx) = Ok (Uint8Array sig) -> length sig = 64%nat ->
    exists sign, sg_modifyAndSign signer = None /\ sg_sign signer = Some sign /\
      sign [tx] = Ok (Some [Dictionary (ca_publicKey adapter) sig])).
Proof.
  cbv zeta. unfold signAndEncode, custodyAdapterToTransactionSigner.
  cbn [sg_modifyAndSign sg_sign bridge_sign]. split_and!.
  - intros text. destruct (ca_sign adapter (messageBytes tx)) as [[sig|ty]|e]; cbn;
      [destruct (Nat.eqb_spec (length sig) 64) as [H|H]; cbn|..]; done.
  - intros e. destruct (ca_sign adapter (messageBytes tx)) as [[sig|ty]|e']; cbn;
      [destruct (Nat.eqb_spec (length sig) 64) as [H|H]; cbn|..]; naive_solver.
  - intros sig Hs Hl. eexists. split_and!; [done..|]. cbn. rewrite Hs. cbn. by rewrite Hl.
Qed.

(** The bridge signs a list in order and stops at the first answer it rejects. *)
Lemma bridge_sign_spec adapter txs results :
  bridge_sign messageBytes adapter txs = Ok results <->
  Forall2 (fun tx r => exists sig, ca_sign adapter (messageBytes tx) = Ok (Uint8Array sig) /\
             length sig = 64%nat /\ r = Dictionary (ca_publicKey adapter) sig) txs results.
Proof.
  revert results. induction txs as [|tx txs IH]; intros results; cbn [bridge_sign].
  - split; [intros [= <-]; constructor|]. by intros ->%Forall2_nil_inv_l.
  - split.
    + intros (answer & Ha & H)%bind_ok_inv. apply bind_ok_inv in H as (sig & Hs & H).
      apply bind_ok_inv in H as (rest & Hr & [= <-]). constructor; [|by apply IH].
      destruct answer as [bs|ty]; [|done]. cbn in Hs.
      destruct (Nat.eqb_spec (length bs) 64) as [Hl|Hl]; [|done]. injection Hs as <-. eauto.
    + intros (r & rs & (sig & Ha & Hl & ->) & HF & ->)%Forall2_cons_inv_l.
      apply IH in HF. rewrite Ha. cbn. rewrite Hl. cbn. by rewrite HF.
Qed.
End bridge_spec.

(** ** The swap *)
Section swap_spec.
Context {J : Type} (bufferFromBase64 : string -> bytes) (number_text : option Tokens.js_number -> string).
Context (fetch_quote : string -> res thrown (Response J)).
Context (fetch_swap : string -> J -> Address -> res thrown (Response JupiterSwapResponse)).
Context (executeAndConfirm : list Instruction -> SwapOptions -> res thrown string).
Let swap := swapAction bufferFromBase64 number_text fetch_quote fetch_swap executeAndConfirm.

(** Jupiter's instructions in execution order, without its compute-budget instructions. *)
Definition swap_instructions (raw : JupiterSwapResponse) : list Instruction :=
  toKitInstruction bufferFromBase64 <$>
    (default [] (js_setupInstructions raw) ++ option_list (js_swapInstruction raw)
     ++ option_list (js_cleanupInstruction raw) ++ default [] (js_otherInstructions raw)).

(** What leads to an execution: the amount in base units, the quote, Jupiter's answer to it. *)
Record executes (network : string) (agent : Address) (api : string) (input : SwapInput)
    (base : Z) (quote : J) (raw : JupiterSwapResponse) : Prop := {
  ex_amount : toBaseUnits (AmountNum (si_amount input)) (input_decimals network input) = Ok base;
  ex_quote :
    (r ← fetch_quote (quote_url api (input_mint network input) (output_mint network input) base
                        (default 50 (si_slippageBps input)));
     json_of "quote" r) = Ok quote;
  ex_swap : (r ← fetch_swap (api +:+ "/swap-instructions") quote agent;
             json_of "swap-instructions" r) = Ok raw;
  ex_some : swap_instructions raw <> [];
}.

Lemma executes_unique network agent api input b q raw b' q' raw' :
  executes network agent api input b q raw -> executes network agent api input b' q' raw' ->
  b' = b /\ q' = q /\ raw' = raw.
Proof.
  intros [H1 H2 H3 _] [H1' H2' H3' _]. rewrite H1 in H1'. injection H1' as <-.
  rewrite H2 in H2'. injection H2' as <-. rewrite H3 in H3'. by injection H3' as <-.
Qed.

Definition swap_options (network : string) (input : SwapInput) (base : Z) (raw : JupiterSwapResponse)
    : SwapOptions :=
  mkSwapOptions (input_mint network input) base (default [] (js_addressLookupTableAddresses raw)).

Lemma swap_cases network agent api input :
  let body := swap_body bufferFromBase64 number_text fetch_quote fetch_swap executeAndConfirm
                network agent api input in
  (exists b q raw, executes network agent api input b q raw /\
    body = ([EvQuote (quote_url api (input_mint network input) (output_mint network input) b
                        (default 50 (si_slippageBps input)));
             EvSwap (api +:+ "/swap-instructions") q agent;
             EvExecute (swap_instructions raw) (swap_options network input b raw)],
            signature ← executeAndConfirm (swap_instructions raw) (swap_options network input b raw);
            Ok (mkSwapDone signature (input_mint network input) (output_mint network input) (si_amount input)))) \/
  ((forall b q raw, ~ executes network agent api input b q raw) /\
   (forall ixs o, EvExecute ixs o ∉ body.1) /\ exists e, body.2 = Throw e).
Proof.
  cbv zeta. unfold swap_body.
  destruct (toBaseUnits _ _) as [b|e] eqn:Hb.
  2: { right. split_and!; [intros ??? []; congruence|cbn; set_solver|eauto]. }
  destruct (mbind _ (fetch_quote _)) as [q|e] eqn:Hq.
  2: { right. split_and!; [|cbn; set_solver|eauto].
       intros b' q' raw' [H1 H2 _ _]. rewrite Hb in H1. injection H1 as <-. congruence. }
  destruct (mbind _ (fetch_swap _ q agent)) as [raw|e] eqn:Hs.
  2: { right. split_and!; [|cbn; set_solver|eauto].
       intros b' q' raw' [H1 H2 H3 _]. rewrite Hb in H1. injection H1 as <-. rewrite Hq in H2.
       injection H2 as <-. congruence. }
  unfold parseJupiterSwapResponse. cbn [pj_instructions pj_addressLookupTableAddresses].
  fold (swap_instructions raw). destruct (bool_decide_reflect (swap_instructions raw = [])) as [Hn|Hn].
  - right. split_and!; [|cbn; set_solver|eauto].
    intros b' q' raw' [H1 H2 H3 H4]. rewrite Hb in H1. injection H1 as <-. rewrite Hq in H2.
    injection H2 as <-. rewrite Hs in H3. by injection H3 as <-.
  - left. exists b, q, raw. by split.
Qed.

(** the swap executes what was quoted. Whenever the handler executes anything, it is the
    last thing it does, once: first the quote for the resolved mints, the amount in base
    units and the slippage (50 when none is given), answered with success; then the
    instructions for that quote and the agent, answered with success; then exactly Jupiter's
    setup, swap, cleanup and other instructions, at least one, with that mint, that amount
    and Jupiter's lookup tables. The action succeeds exactly if this happened and the
    execution returned a signature. *)
Theorem swap_executes_quote network agent api input :
  let run := swapAction bufferFromBase64 number_text fetch_quote fetch_swap executeAndConfirm
               network agent api input in
  (forall ixs o, EvExecute ixs o ∈ run.1 ->
    exists b q raw, executes network agent api input b q raw /\
      ixs = swap_instructions raw /\ o = swap_options network input b raw /\
      run.1 = [EvQuote (quote_url api (input_mint network input) (output_mint network input) b
                          (default 50 (si_slippageBps input)));
               EvSwap (api +:+ "/swap-instructions") q agent; EvExecute ixs o]) /\
  (forall d, run.2 = Succeeded d <->
    exists b q raw signature, executes network agent api input b q raw /\
      executeAndConfirm (swap_instructions raw) (swap_options network input b raw) = Ok signature /\
      d = mkSwapDone signature (input_mint network input) (output_mint network input) (si_amount input)).
Proof.
  cbv zeta. unfold swapAction. cbn [fst snd].
  destruct (swap_cases network agent api input) as [(b & q & raw & Hex & ->)|(Hno & Hev & e & He)].
  - cbn [fst snd]. split.
    + intros ixs o. rewrite !elem_of_cons. intros [?|[?|[[= -> ->]|[]%not_elem_of_nil]]]; [done..|].
      exists b, q, raw. by split_and!.
    + intros d. split.
      * destruct (executeAndConfirm _ _) as [s|e] eqn:Hx; [|done]. intros [= <-]. naive_solver.
      * intros (b' & q' & raw' & s & Hex' & Hx & ->).
        destruct (executes_unique _ _ _ _ _ _ _ _ _ _ Hex Hex') as (-> & -> & ->). by rewrite Hx.
  - rewrite He. split; [intros ixs o H; by destruct (Hev ixs o)|].
    intros d. split; [done|]. intros (b & q & raw & s & Hex & _). by destruct (Hno b q raw).
Qed.
End swap_spec.

(** A mint given by its address has 6 decimals, whatever the token: one BONK is 100000 base
    units by its symbol and ten times as much by its address; one SOL a thousandth. *)
Definition one : option Tokens.js_number := Some (mkNumber false (ratio_of_Z 1)).
Definition swap_input (mint : string) : SwapInput := mkSwapInput mint "USDC" one None.

Lemma swap_decimals_by_address :
  let base mint := toBaseUnits (AmountNum one) (input_decimals "mainnet" (swap_input mint)) in
  let mint m := input_mint "mainnet" (swap_input m) in
  mint "BONK" = mint "DezXAZ8z7PnrnRJjz3wXBoRgixCa6xjnB7YaB1pPB263" /\
  base "BONK" = Ok 100000 /\ base "DezXAZ8z7PnrnRJjz3wXBoRgixCa6xjnB7YaB1pPB263" = Ok 1000000 /\
  mint "SOL" = mint "So11111111111111111111111111111111111111112" /\
  base "SOL" = Ok 1000000000 /\ base "So11111111111111111111111111111111111111112" = Ok 1000000.
Proof. vm_compute. split_and!; reflexivity. Qed.
